(* ===== verification/_CoqProject ===== *)
-Q . S2P
Prelude.v
Json.v
CppText.v
LruCache.v
Cec.v
VehicleTypes.v
PropertyStore.v
Subscription.v
ObjectPool.v
Obd2.v
EventQueue.v
RecurrentTimer.v
HalManager.v
UserHal.v
DefaultConfig.v
EmulatedVehicle.v
VehicleStack.v
Generators.v
GeneratorHub.v
VehicleComm.v
Votes.v
SessionRecords.v
SessionTasks.v
BackgroundWorker.v
SessionManager.v
HintSession.v
PowerService.v
Channels.v
PowerHal.v
Vms.v
Hwsecure.v
EleMsg.v
EleOps.v
EleNvm.v
NvmDaemon.v
Edid.v
ThermalConfig.v
ThermalHelper.v
ThermalHal.v
AudioWorker.v
AudioStream.v
SubmixRoute.v
HwcLayer.v
FrameComposer.v
HwcProperties.v
DrmDisplay.v
DrmClient.v
HwcEdid.v
HwcDisplay.v
HwcVsync.v
HwcFrame.v
HwcClient.v
HwcPlug.v
HwcCommands.v
GrallocLayout.v
GrallocPlanes.v
Gralloc.v
GrallocOwn.v
GrallocAllocate.v
