(* ===== verification/Prelude.v ===== *)
(** * Verification of the i.MX Android hardware layer

    The repository holds the hardware abstraction layer (HAL) services of
    Android on NXP i.MX boards: one directory per service, each a process that
    implements an Android interface (HIDL, AIDL or a C device structure) over
    kernel devices and vendor libraries.  The services do not call each other;
    what they share is the style of their parts, state objects behind a lock,
    worker threads, message buffers and bounded caches.  This library models
    the parts that carry logic of their own as executable definitions and proves
    what makes them correct.

    ** Files, sources and what is proved

    - [Prelude]: machine integers ([wrap_u], [wrap_s]), C arrays whose
      out-of-range access is [None], IEEE floats, ordered iteration, transition
      systems, lists and automation.
    - [CppText]: the C++ standard library's conversions between text and
      numbers; [Json]: the interface of jsoncpp, which three components parse
      with.
    - [LruCache] (display/hwcomposer3/LruCache.h): the buffer cache of the
      composer, a list and a table of iterators into it.  Iterators are node
      names, so that a dangling iterator is undefined behaviour.  The cache
      refines a list of pairs in order of recency.
    - [Cec] (hdmicec/hdmi_cec.c): the HDMI CEC device.  The driver's ioctls are
      a class; the event thread is one iteration at a time, reading the shared
      context at each place the code reads it, interleaved with the API calls
      of other threads.  Standby filter, silence when disabled, message round
      trip, send results and retries, cleanup of a failed open.
    - The vehicle HAL (vehicle/common), with the values of the generated HIDL
      types as class [VehicleAbi]:
      [VehicleTypes] (VehicleUtils), [PropertyStore] (VehiclePropertyStore),
      [Subscription] (SubscriptionManager: clients shared by reference are
      objects in a store), [ObjectPool] (VehicleObjectPool), [Obd2]
      (Obd2SensorStore), [EventQueue] (ConcurrentQueue.h: queue and batching
      consumer as interleaved steps), [RecurrentTimer] (RecurrentTimer.h), and
      [HalManager] (VehicleHalManager, VehiclePropConfigIndex), which composes
      them: it answers the IVehicle calls from the config index, the
      subscriptions and the vendor's VehicleHal, and distributes the batches
      the queue consumer hands it.  Invariants of every reachable state,
      exact effect of every operation, ordered and complete delivery of events,
      shutdown, requests that reach the vendor HAL.
      [Vms] (VmsUtils): building and parsing Vehicle Map Service messages.
    - The vehicle implementation (vehicle/impl): [UserHal] (EmulatedUserHal:
      scripted replies to user requests), [DefaultConfig] (DefaultConfig.h: the
      table of properties with their initial values), [EmulatedVehicle]
      (EmulatedVehicleHal and VehicleHalServer: the emulated vehicle behind the
      interface [HalManager] expects), [VehicleStack] (the manager over the
      emulated vehicle: a set reaches the subscribers, the stack refines a map
      from properties to values), [Generators] and [GeneratorHub] (the fake
      value generators and the thread that runs them), [VehicleComm] (the
      protobuf converter, the emulator's messages, sockets and pipes).
    - The power HAL (power).  [Votes] (UClampVoter), [SessionTasks]
      (SessionTaskMap: sessions, tasks and the votes they share) and
      [SessionRecords] (a ring buffer with running totals and a queue of maxima
      refines the window of the last frames) are its data.  [BackgroundWorker]
      runs work at deadlines: nothing is lost by calls that do not overlap, and
      overlapping calls can lose a package.  [SessionManager]
      (PowerSessionManager) keeps the votes of all sessions and asks the kernel
      for clamps: in every reachable state a timeout is on its way for every
      active vote; a vote clamps every thread of its session; and what takes no
      clamp back.  [HintSession] (PowerHintSession) is a client's session with
      its controller, in the floating point arithmetic of the source: a report
      moves the clamp within its bounds, and the inputs the code does not
      survive.  [PowerService] (Power, SupportManager) has the modes, boosts and
      the table of sessions.  [Channels] (SessionChannel, ChannelGroup,
      ChannelManager) serves message queues, against the interface
      [PowerSessions]; [PowerHal] instantiates the interface with the service
      and proves that a report through a channel has the effect of the call.
    - [Hwsecure] (wv_trusty_client/lib/hwsecure_client.c): the client that
      switches display pipes to the secure world.
    - The client library of the secure enclave (secure-enclave/lib): [EleMsg]
      (EleMessage.h, EleCommand.h: the message structures as layouts with the
      offsets of C, header and checksum), [EleOps] (EleOperation.cpp: the client
      operations over a device whose answers depend on everything sent before;
      any program of calls sends well-formed requests only, what counts as a
      successful response), [EleNvm] (EleOperation.cpp: the service that
      keeps the enclave's key store in files; a chunk survives storage, and the
      requests that crash the service) and [NvmDaemon] (secure-enclave/nvmd:
      the daemon around that service, and how it exits).
    - [Edid] (libedid): a display's EDID and the HDR metadata in it; what the
      parser extracts, and when it stays inside the blob.
    - The thermal HAL (thermal): [ThermalConfig] (config_parser: a parsed
      configuration is well formed), [ThermalHelper] (thermal-helper and the
      watcher: severities with hysteresis do not chatter inside a band, and where
      they go wrong) and [ThermalHal] (Thermal: the callbacks of the clients and
      the CPUs taken offline, over all interleavings of calls and passes).
    - The audio HAL (audio/default): [AudioWorker] (Stream.cpp: the worker
      threads of the streams, as programs that interleave with the driver's
      callbacks; they refine the state machines of the interface, and lose a
      notification in one interleaving), [AudioStream] (Stream.cpp, Stream.h:
      the streams around the workers, closing, gains, the collection of
      streams) and [SubmixRoute] (r_submix: the routes between output and input
      streams, whose calls interleave at the sections under the lock, and the
      stream that breaks another).
    - The hardware composer (display/hwcomposer3): [HwcLayer] (Layer.cpp, the
      rectangles of Common.cpp, DisplayConfig, DisplayChanges), [FrameComposer]
      (ClientFrameComposer.cpp: the decision which layer goes to a plane, the 2D
      engine or the client, and the presentation of what was decided, proved
      against the interface [DeviceClient] with its laws), [HwcProperties] (the
      parsers of the boot properties), [DrmDisplay] (DrmDisplay, DrmConnector,
      DrmPlane: atomic requests, the states of the planes, configurations; after
      a flush the planes show the frame, and after a failed one they may not)
      and [DrmClient] (DrmClient.cpp: buffers, their caches in an [LruCache],
      composer targets; it keeps the laws of [DeviceClient]).  Above them,
      [HwcEdid] (Edid.cpp: the composer's own EDID parser) and [HwcDisplay]
      (Display.cpp, VsyncThread.cpp, Device.cpp: a display with its layers,
      configurations and frames, and the vsync thread, whose steps fall anywhere
      between the requests; an invariant of all that is reachable); [HwcVsync]
      has what holds over time (the syncs are in phase; what the handling of
      configurations loses), and [HwcFrame] takes a frame through validation,
      acceptance and presentation to the hardware, over any [DeviceClient].
      [HwcClient] (ComposerClient.cpp, ComposerResources.cpp) is the client that
      owns the displays: commands, hotplugs, the table of buffers, which belongs
      to a library and is a class.  [HwcPlug] proves what holds of its displays
      in every reachable state and what a display that is plugged in late
      misses, and [HwcCommands] that the commands of a frame show it.
    - [GrallocLayout], [GrallocPlanes], [Gralloc], [GrallocOwn], [GrallocAllocate]
      (display/gralloc): graphics buffers.  The strides, offsets and sizes of
      planes keep the samples of a picture apart and inside what is allocated;
      the descriptors, mappings and handles of a mapper's process are those of
      its registered buffers, after any requests; the allocator service hands
      out all it allocates and keeps nothing.

    ** Conventions

    A Rocq name is the name in the source, with a prefix where two classes use
    the same one.  C and C++ integers are [Z], wrapped where the source's type
    wraps; signed overflow, null dereference, division by zero and access out of
    range are [None], and a theorem that an operation works states that it is
    not [None].  Objects several holders share by pointer live in a store and
    are named by addresses.  Threads are steps of a relation; a step is the
    code between two points where the lock is released or a shared field is read
    without one.  Code that is not in the repository (kernel drivers, generated
    HIDL types, the Trusty transport, the enclave, the vendor's vehicle) is a class of
    operations, with the documented facts the proofs use as a second class, and
    instances of both for the witnesses.

    Code that threads a state and can fail is written in the monad [St] of the
    prelude, and [runs m s Q] says that [m] is defined on [s] with [Q] of its
    result; [all_runs m R] says that [m], where it is defined, takes every state
    to one related by [R], and the tactic [all_runs] derives it for a program
    from its parts.  Where the history of outside effects matters it is part of
    the state, and the answers of outside code are functions of it.

    Loops are structural on the list or the count they run over; the only fuel
    is the number of iterations the source itself bounds.  Theorems about
    behaviour over time are stated for every state reachable by any sequence
    of steps.

    ** What is not modelled

    Logging, tracing and dumps; memory exhaustion except where the code tests
    for it; the binder and HIDL transport; the services that are glue over
    ioctls, sysfs or vendor libraries (camera, the PCM drivers and modules of
    audio, image processing, EVS, Bluetooth, USB, sensors, OEM
    lock and others); of the composer the fences, HDCP and the building of
    commands for the 2D engine; of the graphics buffers the heaps and the GPU's
    allocator, which are classes.

    ** What is left

    Parts with logic of their own that are not modelled: the H4 packets of Bluetooth, the OEM lock, the sensors'
    events, the ports and patches of the audio modules, and the PSA key and
    algorithm encodings. *)


From stdpp Require Export base tactics list gmap strings fin_maps numbers sorting relations.
From Stdlib Require Export ZArith Lia.
From Stdlib Require Export SpecFloat.

(** ** Notation scope of the development *)

Declare Scope imx_scope.
Delimit Scope imx_scope with imx.
#[global] Open Scope Z_scope.
#[global] Open Scope imx_scope.

(** ** Machine integers

    A [w]-bit C integer is a [Z]; arithmetic that may leave the range is
    written with [wrap_u] (unsigned, modulo [2^w]) or [wrap_s] (two's
    complement). *)

Definition wrap_u (w z : Z) : Z := z mod 2 ^ w.

Definition wrap_s (w z : Z) : Z := (z + 2 ^ (w - 1)) mod 2 ^ w - 2 ^ (w - 1).

Definition in_u (w z : Z) : Prop := 0 <= z < 2 ^ w.

Definition in_s (w z : Z) : Prop := - 2 ^ (w - 1) <= z < 2 ^ (w - 1).

Notation "⟦ z ⟧u w" := (wrap_u w z) (at level 1, w at level 0, format "⟦ z ⟧u  w") : imx_scope.
Notation "⟦ z ⟧s w" := (wrap_s w z) (at level 1, w at level 0, format "⟦ z ⟧s  w") : imx_scope.

Lemma wrap_u_id w z : in_u w z -> wrap_u w z = z.
Proof. intros ?. by apply Z.mod_small. Qed.

Lemma wrap_u_range w z : 0 <= w -> in_u w (wrap_u w z).
Proof. intros ?. apply Z.mod_pos_bound. lia. Qed.

Lemma pow2_half w : 0 < w -> 2 ^ w = 2 * 2 ^ (w - 1).
Proof.
  intros ?. replace w with (Z.succ (w - 1)) at 1 by lia.
  rewrite Z.pow_succ_r by lia. reflexivity.
Qed.

Lemma wrap_s_id w z : 0 < w -> in_s w z -> wrap_s w z = z.
Proof.
  unfold wrap_s, in_s. intros Hw Hz. pose proof (pow2_half w Hw).
  rewrite Z.mod_small; lia.
Qed.

Lemma wrap_s_range w z : 0 < w -> in_s w (wrap_s w z).
Proof.
  unfold wrap_s, in_s. intros Hw. pose proof (pow2_half w Hw).
  pose proof (Z.mod_pos_bound (z + 2 ^ (w - 1)) (2 ^ w)). lia.
Qed.

Lemma in_s_mono v w z : 0 < v <= w -> in_s v z -> in_s w z.
Proof.
  unfold in_s. intros Hv Hz.
  pose proof (Z.pow_le_mono_r 2 (v - 1) (w - 1)). lia.
Qed.

(** A value packed above a [k]-bit field, [(a << k) | b]: the shape of the
    message headers and pool keys of the code. *)

Lemma lor_shiftl_add k a b :
  0 <= k -> 0 <= b < 2 ^ k -> Z.lor (Z.shiftl a k) b = a * 2 ^ k + b.
Proof.
  intros Hk Hb.
  assert (Z.land (Z.shiftl a k) b = 0) as Hland.
  { apply Z.bits_inj'. intros n Hn. rewrite Z.land_spec, Z.bits_0.
    destruct (Z.ltb_spec n k) as [Hlt|Hge].
    - by rewrite Z.shiftl_spec_low by lia.
    - replace b with (b mod 2 ^ k) by (apply Z.mod_small; lia).
      rewrite Z.mod_pow2_bits_high by lia. apply andb_false_r. }
  pose proof (Z.add_lor_land (Z.shiftl a k) b) as Hadd.
  rewrite Hland in Hadd. rewrite Z.shiftl_mul_pow2 in * by lia. lia.
Qed.

Lemma packed_high k a b :
  0 <= k -> 0 <= b < 2 ^ k -> Z.shiftr (Z.lor (Z.shiftl a k) b) k = a.
Proof.
  intros Hk Hb. rewrite lor_shiftl_add, Z.shiftr_div_pow2 by lia.
  rewrite Z.div_add_l by lia. rewrite (Z.div_small b) by lia. lia.
Qed.

Lemma packed_low k a b :
  0 <= k -> 0 <= b < 2 ^ k -> Z.land (Z.lor (Z.shiftl a k) b) (Z.ones k) = b.
Proof.
  intros Hk Hb. rewrite lor_shiftl_add, Z.land_ones by lia.
  rewrite Z.add_comm, Z.mod_add by lia. apply Z.mod_small. lia.
Qed.

(** ** C arrays

    Reading or writing outside an array is undefined behaviour: [None]. *)

Definition arr_get {A} (l : list A) (i : Z) : option A :=
  if decide (0 <= i) then l !! Z.to_nat i else None.

Definition arr_set {A} (l : list A) (i : Z) (x : A) : option (list A) :=
  if decide (0 <= i < Z.of_nat (length l)) then Some (<[Z.to_nat i := x]> l) else None.

(** [memcpy(dst + at, src, n)]: copies the first [n] cells of [src]. *)
Definition arr_copy {A} (dst : list A) (at_ : nat) (src : list A) (n : nat) : option (list A) :=
  if decide (at_ + n <= length dst /\ n <= length src)%nat
  then Some (take at_ dst ++ take n src ++ drop (at_ + n) dst)
  else None.

Lemma arr_get_nat {A} (l : list A) (i : nat) : arr_get l (Z.of_nat i) = l !! i.
Proof. unfold arr_get. rewrite decide_True by lia. by rewrite Nat2Z.id. Qed.

Lemma arr_get_is_Some {A} (l : list A) i : is_Some (arr_get l i) <-> 0 <= i < Z.of_nat (length l).
Proof.
  unfold arr_get. case_decide as Hi.
  - rewrite lookup_lt_is_Some. lia.
  - split; [intros []; done | lia].
Qed.

Lemma arr_set_length {A} (l l' : list A) i x : arr_set l i x = Some l' -> length l' = length l.
Proof. unfold arr_set. case_decide; [|done]. intros [= <-]. apply length_insert. Qed.

Lemma arr_set_is_Some {A} (l : list A) i x : is_Some (arr_set l i x) <-> 0 <= i < Z.of_nat (length l).
Proof.
  unfold arr_set. case_decide; split; done || lia.
Qed.

Lemma arr_get_set {A} (l l' : list A) i j x :
  arr_set l i x = Some l' ->
  arr_get l' j = if decide (i = j) then Some x else arr_get l j.
Proof.
  unfold arr_set, arr_get. case_decide as Hi; [|done]. intros [= <-].
  destruct (decide (0 <= j)) as [Hj|Hj]; [|case_decide; [lia|done]].
  case_decide as Heq.
  - subst. apply list_lookup_insert_eq. lia.
  - apply list_lookup_insert_ne. lia.
Qed.

Lemma arr_copy_length {A} (dst src l : list A) k n :
  arr_copy dst k src n = Some l -> length l = length dst.
Proof.
  unfold arr_copy. case_decide; [|done]. intros [= <-].
  rewrite !length_app, !length_take, length_drop. lia.
Qed.

(** ** IEEE arithmetic of [float] and [double]

    Values are [spec_float]s, operations are those of [SpecFloat] at the
    precision of the type.  All of it computes. *)

Module Binary32.
Definition prec : Z := 24.
Definition emax : Z := 128.
Definition add := SFadd prec emax.
Definition sub := SFsub prec emax.
Definition mul := SFmul prec emax.
Definition div := SFdiv prec emax.
Definition of_Z (z : Z) : spec_float := binary_normalize prec emax z 0 false.
End Binary32.

Module Binary64.
Definition prec : Z := 53.
Definition emax : Z := 1024.
Definition add := SFadd prec emax.
Definition sub := SFsub prec emax.
Definition mul := SFmul prec emax.
Definition div := SFdiv prec emax.
Definition of_Z (z : Z) : spec_float := binary_normalize prec emax z 0 false.
End Binary64.

(** [std::max(a, b)] on floats returns [b] only when [a < b]. *)
Definition SFmax (a b : spec_float) : spec_float := if SFltb a b then b else a.

(** [std::min(a, b)] returns [b] only when [b < a]. *)
Definition SFmin (a b : spec_float) : spec_float := if SFltb b a then b else a.

(** The conversion of a floating value to an integer drops the fraction;
    infinities and NaN have no value. *)
Definition SF_trunc (x : spec_float) : option Z :=
  match x with
  | S754_zero _ => Some 0
  | S754_finite s m e =>
      let a := if 0 <=? e then Zpos m * 2 ^ e else Zpos m / 2 ^ (- e) in
      Some (if s then - a else a)
  | _ => None
  end.

(** A value of a [w]-bit signed, or unsigned, type; out of range is undefined. *)
Definition checked_s (w z : Z) : option Z := if decide (- 2 ^ (w - 1) <= z < 2 ^ (w - 1)) then Some z else None.

Lemma checked_s_in w z : in_s w z -> checked_s w z = Some z.
Proof. intros Hz. unfold checked_s. by rewrite decide_True. Qed.

Lemma checked_s_out w z : ~ in_s w z -> checked_s w z = None.
Proof. intros Hz. unfold checked_s. by rewrite decide_False. Qed.
Definition checked_u (w z : Z) : option Z := if decide (0 <= z < 2 ^ w) then Some z else None.

Definition SFgtb (a b : spec_float) : bool := SFltb b a.

Lemma SFltb_irrefl a : SFltb a a = false.
Proof.
  unfold SFltb. destruct a as [[]|[]| |[] m e]; simpl; try done.
  - rewrite Z.compare_refl.
    change (match CompOpp (Pos.compare m m) with Lt => true | _ => false end = false).
    by rewrite Pos.compare_refl.
  - rewrite Z.compare_refl.
    change (match Pos.compare m m with Lt => true | _ => false end = false).
    by rewrite Pos.compare_refl.
Qed.

#[global] Instance spec_float_eq_dec : EqDecision spec_float.
Proof. intros x y. unfold Decision. repeat decide equality. Defined.

(** ** Ordered iteration

    [std::map] and [SortedVector] iterate in increasing key order; a [gmap]
    does not remember an order, so the iteration sorts the keys. *)

Definition sorted_keys {A} (m : gmap Z A) : list Z :=
  merge_sort Z.le (map_to_list m).*1.

Lemma elem_of_sorted_keys {A} (m : gmap Z A) k : k ∈ sorted_keys m <-> is_Some (m !! k).
Proof.
  unfold sorted_keys. rewrite merge_sort_Permutation, list_elem_of_fmap. split.
  - intros ([k' x] & -> & Hin). apply elem_of_map_to_list in Hin. eauto.
  - intros [x Hx]. exists (k, x). split; [done|]. by apply elem_of_map_to_list.
Qed.

Lemma NoDup_sorted_keys {A} (m : gmap Z A) : NoDup (sorted_keys m).
Proof. unfold sorted_keys. rewrite merge_sort_Permutation. apply NoDup_fst_map_to_list. Qed.

Lemma sorted_keys_StronglySorted {A} (m : gmap Z A) : StronglySorted Z.le (sorted_keys m).
Proof. apply StronglySorted_merge_sort; apply _. Qed.

(** ** Transition systems *)

Section Invariants.
  Context {S : Type} (step : S -> S -> Prop).

Lemma rtc_invariant (P : S -> Prop) :
    (forall s s', step s s' -> P s -> P s') ->
    forall s s', rtc step s s' -> P s -> P s'.
  Proof. intros Hstep s s' Hr. induction Hr; eauto. Qed.
End Invariants.

(** ** Stateful code with undefined behaviour

    [St S A] runs on a state and gives a result and a new state; [None] is
    undefined behaviour.  [runs m s Q]: [m] has defined behaviour in [s], and
    its result and final state satisfy [Q]. *)

Definition St (S A : Type) : Type := S -> option (A * S).

#[global] Instance St_ret S : MRet (St S) := fun A a s => Some (a, s).
#[global] Instance St_bind S : MBind (St S) := fun A B k m s =>
  match m s with Some (a, s1) => k a s1 | None => None end.

Definition ub {S A} : St S A := fun _ => None.
Definition gets {S A} (f : S -> A) : St S A := fun s => Some (f s, s).
Definition modify {S} (f : S -> S) : St S unit := fun s => Some (tt, f s).
Definition of_option {S A} (o : option A) : St S A := fun s => (fun a => (a, s)) <$> o.

Fixpoint for_each {S A} (l : list A) (f : A -> St S unit) : St S unit :=
  match l with [] => mret tt | x :: l' => f x ;; for_each l' f end.

Definition runs {S A} (m : St S A) (s : S) (Q : A -> S -> Prop) : Prop :=
  match m s with Some (a, s') => Q a s' | None => False end.

Section Runs.
Context {S : Type}.
Implicit Types s : S.

Lemma runs_ret {A} (a : A) s (Q : A -> S -> Prop) : runs (mret a) s Q <-> Q a s.
Proof. done. Qed.

Lemma runs_bind {A B} (m : St S A) (k : A -> St S B) s Q :
  runs (m ≫= k) s Q <-> runs m s (fun a s1 => runs (k a) s1 Q).
Proof. unfold runs, mbind, St_bind. by destruct (m s) as [[a s1]|]. Qed.

Lemma runs_gets {A} (f : S -> A) s (Q : A -> S -> Prop) : runs (gets f) s Q <-> Q (f s) s.
Proof. done. Qed.

Lemma runs_modify f s (Q : unit -> S -> Prop) : runs (modify f) s Q <-> Q tt (f s).
Proof. done. Qed.

Lemma runs_of_option {A} (o : option A) s (Q : A -> S -> Prop) :
  runs (of_option o) s Q <-> exists a, o = Some a /\ Q a s.
Proof. destruct o; unfold runs; simpl; split; [eauto|by intros (? & [= <-] & ?)|done|by intros (? & ? & _)]. Qed.

Lemma runs_mono {A} (m : St S A) s (Q Q' : A -> S -> Prop) :
  (forall a s', Q a s' -> Q' a s') -> runs m s Q -> runs m s Q'.
Proof. unfold runs. destruct (m s) as [[a s1]|]; auto. Qed.

Lemma runs_and {A} (m : St S A) s (Q Q' : A -> S -> Prop) :
  runs m s Q -> runs m s Q' -> runs m s (fun a s' => Q a s' /\ Q' a s').
Proof. unfold runs. by destruct (m s) as [[a s1]|]. Qed.

Lemma runs_result {A} (m : St S A) s a s' Q : m s = Some (a, s') -> runs m s Q -> Q a s'.
Proof. unfold runs. by intros ->. Qed.

Lemma runs_some {A} (m : St S A) s Q : runs m s Q -> exists a s', m s = Some (a, s') /\ Q a s'.
Proof. unfold runs. destruct (m s) as [[a s1]|]; [eauto|done]. Qed.

(** A loop keeps what each turn keeps. *)
Lemma runs_for_each {A} (l : list A) (f : A -> St S unit) (I : S -> Prop) s :
  (forall x s, I s -> runs (f x) s (fun _ => I)) -> I s -> runs (for_each l f) s (fun _ => I).
Proof.
  intros Hf. revert s. induction l as [|x l IH]; intros s Hs; [done|].
  cbn [for_each]. apply runs_bind. eapply runs_mono; [|by apply Hf]. intros [] s1 Hs1. by apply IH.
Qed.
End Runs.

Lemma st_bind_inv {S A B} (m : St S A) (k : A -> St S B) s b s' :
  (m ≫= k) s = Some (b, s') -> exists a s1, m s = Some (a, s1) /\ k a s1 = Some (b, s').
Proof. unfold mbind, St_bind. destruct (m s) as [[a s1]|]; [|done]. eauto. Qed.

Lemma st_bind_run {S A B} (m : St S A) (k : A -> St S B) s a s1 : m s = Some (a, s1) -> (m ≫= k) s = k a s1.
Proof. unfold mbind, St_bind. by intros ->. Qed.

(** [all_runs m R]: every run of [m] relates its states by [R]. *)
Definition all_runs {S A} (m : St S A) (R : S -> S -> Prop) : Prop := forall s a s', m s = Some (a, s') -> R s s'.

Section AllRuns.
Context {S : Type} (R : S -> S -> Prop) `{!Reflexive R, !Transitive R}.

Lemma all_runs_ret {A} (a : A) : all_runs (mret a) R.
Proof. by intros s b s' [= <- <-]. Qed.

Lemma all_runs_gets {A} (f : S -> A) : all_runs (gets f) R.
Proof. by intros s b s' [= <- <-]. Qed.

Lemma all_runs_of_option {A} (o : option A) : all_runs (of_option o) R.
Proof. intros s b s'. unfold of_option. destruct o; [by intros [= <- <-]|done]. Qed.

Lemma all_runs_ub {A} : all_runs (ub : St S A) R.
Proof. done. Qed.

Lemma all_runs_modify f : (forall s, R s (f s)) -> all_runs (modify f) R.
Proof. by intros Hf s b s' [= <- <-]. Qed.

Lemma all_runs_bind {A B} (m : St S A) (k : A -> St S B) : all_runs m R -> (forall a, all_runs (k a) R) -> all_runs (m ≫= k) R.
Proof.
  intros Hm Hk s b s'. unfold mbind, St_bind. destruct (m s) as [[a s1]|] eqn:E; [|done]. intros E'.
  etrans; [by eapply Hm|by eapply Hk].
Qed.
End AllRuns.

Lemma all_runs_mono {S A} (m : St S A) (R R' : S -> S -> Prop) : (forall s s', R s s' -> R' s s') -> all_runs m R -> all_runs m R'.
Proof. intros HR Hm s a s' E. by eapply HR, Hm. Qed.

(** Walks through a program; what is left are the primitive steps no hint knows. *)
Create HintDb all_runs.
Ltac all_runs :=
  repeat first
    [ apply all_runs_ret; tc_solve | apply all_runs_gets; tc_solve | apply all_runs_of_option; tc_solve | apply all_runs_ub
    | solve [eauto with all_runs]
    | apply all_runs_bind; [tc_solve| |intros ?]
    | progress case_match ].

(** ** Lists *)

(** Searching a list for the value of a field that has no duplicates finds
    the position that holds it. *)
Lemma list_find_unique {A B} `{EqDecision B} (f : A -> B) (l : list A) i x :
  NoDup (f <$> l) -> l !! i = Some x -> list_find (fun y => f y = f x) l = Some (i, x).
Proof.
  intros Hnd Hi. apply list_find_Some. split_and!; [done|done|].
  intros j y Hj Hlt Heq.
  assert (j = i); [|lia].
  eapply NoDup_lookup; [exact Hnd| |]; rewrite list_lookup_fmap.
  - by rewrite Hj; simpl; rewrite Heq.
  - by rewrite Hi.
Qed.

(** Removing one cell: the two pieces around it. *)
Lemma list_delete_split {A} (l : list A) i x :
  l !! i = Some x ->
  l = take i l ++ x :: drop (S i) l /\ delete i l = take i l ++ drop (S i) l.
Proof. intros Hi. split; [symmetry; by apply take_drop_middle|by rewrite delete_take_drop]. Qed.

Lemma fmap_delete {A B} (f : A -> B) (l : list A) i : f <$> delete i l = delete i (f <$> l).
Proof. revert i. induction l as [|x l IH]; intros [|i]; simpl; [done..|]. by f_equal. Qed.

Lemma filter_none {A} (P : A -> Prop) `{forall x, Decision (P x)} (l : list A) :
  (forall x, x ∈ l -> ~ P x) -> filter P l = [].
Proof.
  intros Hno. destruct (filter P l) as [|x l'] eqn:Hf; [done|].
  assert (x ∈ filter P l) as Hx by (rewrite Hf; apply list_elem_of_here).
  apply list_elem_of_filter in Hx as [HP Hin]. by destruct (Hno x Hin).
Qed.

Lemma removelast_delete {A} (l : list A) : removelast l = delete (pred (length l)) l.
Proof.
  induction l as [|x [|y l] IH]; [done..|].
  change (removelast (x :: y :: l)) with (x :: removelast (y :: l)).
  by rewrite IH.
Qed.

Lemma NoDup_delete_i {A} (l : list A) i : NoDup l -> NoDup (delete i l).
Proof. intros Hnd. eapply sublist_NoDup; [exact Hnd|]. apply sublist_delete. Qed.

(** ** Automation *)

Create HintDb imx discriminated.
Create Rewrite HintDb imx_len.
#[export] Hint Resolve wrap_u_range wrap_s_range NoDup_sorted_keys sorted_keys_StronglySorted : imx.
#[export] Hint Rewrite @length_insert @length_app @length_take @length_drop @length_replicate : imx_len.

(** Case analysis on every [match], [if] and [decide] of the goal and the
    hypotheses, closing the contradictory branches. *)
Ltac split_matches :=
  repeat (case_decide || case_match); simplify_eq.

(** Unfolds a run of guards ending in [Some]/[None]: the shape of the
    operations whose undefined behaviour is [None]. *)
Ltac destruct_match_in H :=
  match type of H with
  | context [match ?x with _ => _ end] =>
      lazymatch x with
      | context [match _ with _ => _ end] => fail
      | _ => destruct x eqn:?
      end
  end.

Ltac inv_some H :=
  repeat first
    [ progress simplify_eq
    | apply bind_Some in H as (? & ? & H)
    | destruct_match_in H; try discriminate H ]; simplify_eq.
