(* ===== verification/Json.v ===== *)
(** * The interface of jsoncpp

    The library is not part of the repository: [JsonCpp] has the functions of
    [Json::Reader] and [Json::Value] the parsers call.  [None] is an exception;
    a missing member is the null value. *)

From S2P Require Import Prelude.

Class JsonCpp (J : Type) := {
  parse : string -> option J;          (* Json::Reader::parse *)
  isObject : J -> bool; isString : J -> bool; isBool : J -> bool;
  jempty : J -> bool; jsize : J -> nat;
  member : J -> string -> option J; element : J -> nat -> option J;
  elements : J -> list J;              (* iteration *)
  asInt : J -> option Z; asInt64 : J -> option Z; asFloat : J -> option spec_float;
  asBool : J -> option bool; asString : J -> option string
}.

(** ** Values for the witnesses *)

Inductive demo_json :=
  | DNull | DBool (b : bool) | DNum (z : Z) | DStr (s : string)
  | DObj (l : list (string * demo_json)) | DArr (l : list demo_json).

Definition demo_jsoncpp (reader : string -> option demo_json) : JsonCpp demo_json := {|
  parse := reader;
  isObject j := match j with DObj _ => true | _ => false end;
  isString j := match j with DStr _ => true | _ => false end;
  isBool j := match j with DBool _ => true | _ => false end;
  jempty j := match j with DNull | DObj [] | DArr [] => true | _ => false end;
  jsize j := match j with DObj l => length l | DArr l => length l | _ => 0%nat end;
  member j n := match j with
    | DObj l => Some (default DNull ((fun x => x.2.2) <$> list_find (fun kv => kv.1 = n) l))
    | DNull => Some DNull
    | _ => None end;
  element j i := match j with DArr l => Some (default DNull (l !! i)) | DNull => Some DNull | _ => None end;
  elements j := match j with DArr l => l | _ => [] end;
  asInt j := match j with DNum z => Some z | DNull => Some 0 | _ => None end;
  asInt64 j := match j with DNum z => Some z | DNull => Some 0 | _ => None end;
  asFloat j := match j with DNum z => Some (Binary32.of_Z z) | DNull => Some (S754_zero false) | _ => None end;
  asBool j := match j with DBool b => Some b | DNull => Some false | _ => None end;
  asString j := match j with DStr s => Some s | DNull => Some EmptyString | _ => None end
|}.
