(* ===== verification/CppText.v ===== *)
(** * Text and numbers of the C++ standard library

    [std::stoi], [std::stoul], [std::stof] and [std::to_string] as the services
    that read text files use them, the order of [float]s, and the iteration
    order of a [std::map] with [std::string] keys.  [None] is an exception. *)

From Stdlib Require Import Ascii String.
From S2P Require Import Prelude.

(** ** Characters *)

Definition code (c : ascii) : Z := Z.of_N (N_of_ascii c).

Definition isspace (c : ascii) : bool := bool_decide (9 <= code c <= 13) || (code c =? 32).

Definition isdigit (c : ascii) : bool := bool_decide (48 <= code c <= 57).

(** The value of a character as a digit. *)
Definition digit_of (c : ascii) : option Z :=
  let z := code c in
  if decide (48 <= z <= 57) then Some (z - 48)
  else if decide (65 <= z <= 70) then Some (z - 55)
  else if decide (97 <= z <= 102) then Some (z - 87)
  else None.

Definition tolower (c : ascii) : ascii :=
  if decide (65 <= code c <= 90) then ascii_of_N (N_of_ascii c + 32) else c.

Definition chars : string -> list ascii := list_ascii_of_string.
Definition text : list ascii -> string := string_of_list_ascii.

Fixpoint skip_space (s : list ascii) : list ascii :=
  match s with c :: s' => if isspace c then skip_space s' else s | [] => [] end.

(** The sign, and the rest. *)
Definition take_sign (s : list ascii) : bool * list ascii :=
  match s with
  | c :: s' => if code c =? 45 then (true, s') else if code c =? 43 then (false, s') else (false, s)
  | [] => (false, [])
  end.

(** As many digits as there are: the value continued from [acc], their number
    and the rest. *)
Fixpoint take_digits (base : Z) (s : list ascii) (acc : Z) : Z * nat * list ascii :=
  match s with
  | c :: s' =>
      match digit_of c with
      | Some d =>
          if d <? base then
            let '(v, n, r) := take_digits base s' (base * acc + d) in (v, S n, r)
          else (acc, 0%nat, s)
      | None => (acc, 0%nat, s)
      end
  | [] => (acc, 0%nat, [])
  end.

(** ** Integers *)

(** [std::stoi] and [std::stol], of [w] bits. *)
Definition sto_signed (w : Z) (s : string) : option Z :=
  let '(neg, r) := take_sign (skip_space (chars s)) in
  let '(v, n, _) := take_digits 10 r 0 in
  if decide (n = 0%nat) then None else checked_s w (if neg then - v else v).

Definition stoi : string -> option Z := sto_signed 32.

(** [std::stoul] of 64 bits: a minus sign negates modulo the word. *)
Definition stoul (s : string) : option Z :=
  let '(neg, r) := take_sign (skip_space (chars s)) in
  let '(v, n, _) := take_digits 10 r 0 in
  if decide (n = 0%nat) then None
  else v ← checked_u 64 v; Some (if neg then wrap_u 64 (- v) else v).

(** The decimal digits of a number, the last one first. *)
Fixpoint digits_rev (fuel : nat) (z : Z) : list ascii :=
  match fuel with
  | O => []
  | S f => ascii_of_N (Z.to_N (48 + z mod 10)) :: if z <? 10 then [] else digits_rev f (z / 10)
  end.

(** [std::to_string(int)]; a number below [2^n] has at most [n] digits. *)
Definition to_string (z : Z) : string :=
  let d := text (rev (digits_rev (S (Z.to_nat (Z.log2 (Z.abs z)))) (Z.abs z))) in
  if z <? 0 then String "-"%char d else d.

(** ** Floating point *)

(** The nearest [float] to [num / den]: enough bits of the quotient that one
    rounding, with the rest as a sticky bit, rounds correctly. *)
Definition round_ratio (num den : Z) : spec_float :=
  let k := Z.max 0 (Binary32.prec + 2 + Z.log2 den - Z.log2 num) in
  let q := num * 2 ^ k / den in
  let r := num * 2 ^ k mod den in
  binary_normalize Binary32.prec Binary32.emax (2 * q + (if r =? 0 then 0 else 1)) (- (k + 1)) false.

(** An exponent part that starts with the letter [mark], if there is one. *)
Definition take_exponent (mark : Z) (s : list ascii) : Z :=
  match s with
  | c :: s' =>
      if code (tolower c) =? mark then
        let '(neg, r) := take_sign s' in
        let '(v, n, _) := take_digits 10 r 0 in
        if decide (n = 0%nat) then 0 else if neg then - v else v
      else 0
  | [] => 0
  end.

(** Digits with a point: their value without the point, the digits behind
    it, and the rest. *)
Definition take_mantissa (base : Z) (s : list ascii) : option (Z * Z * list ascii) :=
  let '(v1, n1, r1) := take_digits base s 0 in
  let '(v, n2, r) :=
    match r1 with
    | c :: r' => if code c =? 46 then
                   let '(v2, n2, r2) := take_digits base r' v1 in
                   if decide (n1 + n2 = 0)%nat then (v1, 0%nat, r1) else (v2, n2, r2)
                 else (v1, 0%nat, r1)
    | [] => (v1, 0%nat, r1)
    end in
  if decide (n1 + n2 = 0)%nat then None else Some (v, Z.of_nat n2, r).

Definition scaled (base v e : Z) : spec_float :=
  if v =? 0 then S754_zero false
  else if decide (0 <= e) then round_ratio (v * base ^ e) 1 else round_ratio v (base ^ (- e)).

Definition starts (p : string) (s : list ascii) : bool :=
  bool_decide (take (String.length p) (tolower <$> s) = chars p).

Definition strtof_magnitude (s : list ascii) : option spec_float :=
  if starts "inf" s then Some (S754_infinity false)
  else if starts "nan" s then Some S754_nan
  else
    match (if starts "0x" s then take_mantissa 16 (drop 2 s) else None) with
    | Some (v, n, r) => Some (scaled 2 v (take_exponent 112 r - 4 * n))
    | None => '(v, n, r) ← take_mantissa 10 s; Some (scaled 10 v (take_exponent 101 r - n))
    end.

(** Neither overflow nor underflow of a number that is not 0. *)
Definition in_range (s : list ascii) (x : spec_float) : bool :=
  match x with
  | S754_infinity _ => starts "inf" s
  | S754_finite _ m e => bool_decide (e <> 3 - Binary32.emax - Binary32.prec \/ 2 ^ (Binary32.prec - 1) <= Zpos m)
  | S754_zero _ =>
      match (if starts "0x" s then take_mantissa 16 (drop 2 s) else None) with
      | Some (v, _, _) => v =? 0
      | None => match take_mantissa 10 s with Some (v, _, _) => v =? 0 | None => false end
      end
  | S754_nan => true
  end.

Definition SFneg (x : spec_float) : spec_float :=
  match x with
  | S754_zero s => S754_zero (negb s) | S754_infinity s => S754_infinity (negb s)
  | S754_finite s m e => S754_finite (negb s) m e | S754_nan => S754_nan
  end.

(** [std::stof]: [strtof], with an exception where there is no number or it is
    out of range.  Whether a result below the normal numbers is out of range is
    up to the implementation; here it is. *)
Definition stof (s : string) : option spec_float :=
  let '(neg, r) := take_sign (skip_space (chars s)) in
  x ← strtof_magnitude r;
  if in_range r x then Some (if neg then SFneg x else x) else None.

Definition is_nan (x : spec_float) : bool := match x with S754_nan => true | _ => false end.

Definition FLT_MIN : spec_float := S754_finite false 8388608 (-149).
Definition FLT_MAX : spec_float := S754_finite false 16777215 104.

Example stof_int : stof "45000" = Some (Binary32.of_Z 45000).
Proof. vm_compute. reflexivity. Qed.

Example stof_tenth : stof " -0.1x" = Some (S754_finite true 13421773 (-27)).
Proof. vm_compute. reflexivity. Qed.

Example stof_hex : stof "0x1.8p1" = Some (Binary32.of_Z 3).
Proof. vm_compute. reflexivity. Qed.

Example stof_special : stof "NAN" = Some S754_nan /\ stof "-Inf" = Some (S754_infinity true) /\
  stof "1e39" = None /\ stof "1e-50" = None /\ stof "" = None /\ stof "0e9" = Some (S754_zero false).
Proof. vm_compute. done. Qed.

Example to_string_ints : to_string (-2147483648) = "-2147483648"%string /\ to_string 0 = "0"%string /\
  stoi " +17mC" = Some 17 /\ stoi "4294967296" = None.
Proof. vm_compute. done. Qed.

(** ** The order of floats *)

(** A key that orders the floats lexicographically. *)
Definition key (x : spec_float) : Z * (Z * Z) :=
  match x with
  | S754_infinity true => (-2, (0, 0))
  | S754_finite true m e => (-1, (- e, - Zpos m))
  | S754_zero _ => (0, (0, 0))
  | S754_finite false m e => (1, (e, Zpos m))
  | S754_infinity false => (2, (0, 0))
  | S754_nan => (3, (0, 0))
  end.

Definition key_lt (a b : Z * (Z * Z)) : Prop :=
  a.1 < b.1 \/ a.1 = b.1 /\ (a.2.1 < b.2.1 \/ a.2.1 = b.2.1 /\ a.2.2 < b.2.2).

Lemma SFltb_key x y : is_nan x = false -> is_nan y = false -> SFltb x y = true <-> key_lt (key x) (key y).
Proof.
  intros Hx Hy. unfold SFltb, key_lt.
  destruct x as [[]|[]| |[] m e], y as [[]|[]| |[] m' e']; try done; cbn; try (split; [done|lia]);
    try (split; [lia|done]).
  - destruct (Z.compare_spec e e'); [|split; [done|lia]|split; [lia|done]].
    change (Pos.compare_cont Eq m m') with (Pos.compare m m').
    destruct (Pos.compare_spec m m'); cbn; split; try done; lia.
  - destruct (Z.compare_spec e e'); [|split; [lia|done]|split; [done|lia]].
    change (Pos.compare_cont Eq m m') with (Pos.compare m m').
    destruct (Pos.compare_spec m m'); cbn; split; try done; lia.
Qed.

Lemma SFltb_key_false x y : is_nan x = false -> is_nan y = false ->
  SFltb x y = false <-> key_lt (key y) (key x) \/ key x = key y.
Proof.
  intros Hx Hy. rewrite <- not_true_iff_false, (SFltb_key x y) by done. unfold key_lt.
  destruct (key x) as [a [b c]], (key y) as [a' [b' c']]; cbn. split.
  - intros Hn. destruct (decide ((a, (b, c)) = (a', (b', c')))) as [|Hne]; [by right|left].
    assert (~ (a = a' /\ b = b' /\ c = c')) by (intros (-> & -> & ->); done). lia.
  - intros [Hn| [= -> -> ->]]; lia.
Qed.

(** Not less is transitive between numbers. *)
Lemma SFnotlt_trans x y z : is_nan x = false -> is_nan y = false -> is_nan z = false ->
  SFltb y x = false -> SFltb z y = false -> SFltb z x = false.
Proof.
  intros Hx Hy Hz. rewrite !SFltb_key_false by done. unfold key_lt.
  destruct (key x) as [a [b c]], (key y) as [a' [b' c']], (key z) as [a'' [b'' c'']]; cbn.
  intros [H1| [= -> -> ->]] [H2| [= -> -> ->]]; [left; lia|left; lia|left; lia|by right].
Qed.

(** ** Maps with string keys *)

Definition string_le (a b : string) : Prop := String.leb a b = true.

#[global] Instance string_le_dec : RelDecision string_le.
Proof. intros a b. unfold string_le. apply _. Defined.

(** The keys in the order [std::map] iterates them. *)
Definition sorted_names {A} (m : gmap string A) : list string := merge_sort string_le (map_to_list m).*1.

Lemma elem_of_sorted_names {A} (m : gmap string A) k : k ∈ sorted_names m <-> is_Some (m !! k).
Proof.
  unfold sorted_names. rewrite merge_sort_Permutation, list_elem_of_fmap. split.
  - intros ([k' x] & -> & Hin). apply elem_of_map_to_list in Hin. eauto.
  - intros [x Hx]. exists (k, x). split; [done|]. by apply elem_of_map_to_list.
Qed.

Lemma NoDup_sorted_names {A} (m : gmap string A) : NoDup (sorted_names m).
Proof. unfold sorted_names. rewrite merge_sort_Permutation. apply NoDup_fst_map_to_list. Qed.
