(* ===== verification/LruCache.v ===== *)
(** * display/hwcomposer3/LruCache.h

    The buffer cache of the composer: a doubly linked list in recency order and
    a hash table from keys to list iterators.  An iterator is modelled by the
    identity of the list node it points to, so the aliasing between the two
    containers is part of the state; following an iterator whose node is gone,
    or asking an empty list for its back, is undefined behaviour ([None]).

    The abstract specification ([Spec]) is an association list in recency
    order.  [wf] is the representation invariant; the refinement theorems say
    that on a well-formed cache every operation is defined, preserves [wf] and
    commutes with its specification through [abs]. *)

From S2P Require Import Prelude.

Section LruCache.
Context {K V : Type} `{Countable K}.

(** ** The code *)

(** [struct KeyValue], in the list node that holds it. *)
Record KeyValue := mkKV { kv_node : nat; kv_key : K; kv_value : V }.

Record LruCache := mkLru {
  m_maxSize : nat;
  m_elements : list KeyValue;
  m_table : gmap K nat;
  m_nextNode : nat (* the identity of the next allocated list node *)
}.

Definition lru_new (maxSize : nat) : LruCache := mkLru maxSize [] ∅ 0.

(** The position and the node an iterator points to. *)
Definition deref (it : nat) (l : list KeyValue) : option (nat * KeyValue) :=
  list_find (fun e => kv_node e = it) l.

Definition get (c : LruCache) (key : K) : option (option V * LruCache) :=
  match m_table c !! key with
  | None => Some (None, c)
  | Some it =>
      '(i, e) ← deref it (m_elements c);
      Some (Some (kv_value e),
            mkLru (m_maxSize c) (e :: delete i (m_elements c)) (m_table c) (m_nextNode c))
  end.

Definition set (c : LruCache) (key : K) (value : V) : option LruCache :=
  '(elements, table) ←
    match m_table c !! key with
    | None =>
        if (m_maxSize c <=? size (m_table c))%nat then
          kv ← last (m_elements c);
          Some (removelast (m_elements c), delete (kv_key kv) (m_table c))
        else Some (m_elements c, m_table c)
    | Some it =>
        '(i, _) ← deref it (m_elements c);
        Some (delete i (m_elements c), m_table c)
    end;
  Some (mkLru (m_maxSize c)
          (mkKV (m_nextNode c) key value :: elements)
          (<[key := m_nextNode c]> table)
          (S (m_nextNode c))).

Definition remove (c : LruCache) (key : K) : option LruCache :=
  match m_table c !! key with
  | None => Some c
  | Some it =>
      '(i, _) ← deref it (m_elements c);
      Some (mkLru (m_maxSize c) (delete i (m_elements c)) (delete key (m_table c))
              (m_nextNode c))
  end.

Definition clear (c : LruCache) : LruCache :=
  mkLru (m_maxSize c) [] ∅ (m_nextNode c).

(** [std::next] past the end of the list is undefined. *)
Definition partialClearCache (c : LruCache) (reserved_buffer_count : nat) : option LruCache :=
  if decide (reserved_buffer_count <= length (m_elements c))%nat then
    let clean_bufs := drop reserved_buffer_count (m_elements c) in
    Some (mkLru (m_maxSize c) (take reserved_buffer_count (m_elements c))
            (foldl (fun t kv => delete (kv_key kv) t) (m_table c) clean_bufs)
            (m_nextNode c))
  else None.

Definition getSize (c : LruCache) : nat := size (m_table c).

(** ** The specification: an association list, most recent first *)

Definition spec := list (K * V).

Definition spec_find (k : K) (l : spec) : option (nat * (K * V)) :=
  list_find (fun kv => kv.1 = k) l.

Definition spec_get (l : spec) (k : K) : option V * spec :=
  match spec_find k l with
  | Some (i, kv) => (Some kv.2, kv :: delete i l)
  | None => (None, l)
  end.

Definition spec_remove (l : spec) (k : K) : spec :=
  match spec_find k l with Some (i, _) => delete i l | None => l end.

Definition spec_set (maxSize : nat) (l : spec) (k : K) (v : V) : spec :=
  (k, v) ::
  match spec_find k l with
  | Some (i, _) => delete i l
  | None => if (maxSize <=? length l)%nat then removelast l else l
  end.

(** ** Representation invariant *)

Definition entry (e : KeyValue) : K * V := (kv_key e, kv_value e).

Definition binding (e : KeyValue) : K * nat := (kv_key e, kv_node e).

Definition abs (c : LruCache) : spec := entry <$> m_elements c.

Record wf (c : LruCache) : Prop := {
  wf_nodes : NoDup (kv_node <$> m_elements c);
  wf_fresh : Forall (fun e => (kv_node e < m_nextNode c)%nat) (m_elements c);
  wf_keys : NoDup (kv_key <$> m_elements c);
  wf_table : m_table c = list_to_map (binding <$> m_elements c)
}.

(** ** Lemmas on the table of a node list *)

Lemma binding_keys (l : list KeyValue) : (binding <$> l).*1 = kv_key <$> l.
Proof. rewrite <- list_fmap_compose. done. Qed.

Lemma table_lookup (l : list KeyValue) k it :
  NoDup (kv_key <$> l) ->
  (list_to_map (binding <$> l) : gmap K nat) !! k = Some it <->
  exists e, e ∈ l /\ kv_key e = k /\ kv_node e = it.
Proof.
  intros Hnd. rewrite <- elem_of_list_to_map by (by rewrite binding_keys).
  rewrite list_elem_of_fmap. split.
  - intros (e & [= -> ->] & He). eauto.
  - intros (e & He & <- & <-). by exists e.
Qed.

Lemma table_lookup_None (l : list KeyValue) k :
  (list_to_map (binding <$> l) : gmap K nat) !! k = None <-> k ∉ kv_key <$> l.
Proof. rewrite <- not_elem_of_list_to_map. by rewrite binding_keys. Qed.

Lemma table_size (l : list KeyValue) :
  NoDup (kv_key <$> l) -> size (list_to_map (binding <$> l) : gmap K nat) = length l.
Proof.
  intros Hnd. rewrite map_size_list_to_map by (by rewrite binding_keys).
  by rewrite length_fmap.
Qed.

Lemma table_delete (l : list KeyValue) i e :
  NoDup (kv_key <$> l) -> l !! i = Some e ->
  delete (kv_key e) (list_to_map (binding <$> l) : gmap K nat)
  = list_to_map (binding <$> delete i l).
Proof.
  intros Hnd Hi.
  pose proof (delete_Permutation l i e Hi) as Hp.
  rewrite (list_to_map_proper (binding <$> l) (binding <$> (e :: delete i l))).
  - simpl. apply delete_insert_id. apply table_lookup_None.
    rewrite Hp in Hnd. by apply NoDup_cons in Hnd as [??].
  - by rewrite binding_keys.
  - by apply fmap_Permutation.
Qed.

Lemma find_by_node (l : list KeyValue) i e :
  NoDup (kv_node <$> l) -> l !! i = Some e -> deref (kv_node e) l = Some (i, e).
Proof. apply list_find_unique. Qed.

Lemma find_by_key (l : list KeyValue) i e :
  NoDup (kv_key <$> l) -> l !! i = Some e ->
  spec_find (kv_key e) (entry <$> l) = Some (i, entry e).
Proof.
  intros Hnd Hi.
  apply (list_find_unique fst (entry <$> l) i (entry e)).
  - by rewrite <- list_fmap_compose.
  - by rewrite list_lookup_fmap, Hi.
Qed.

Lemma find_absent (l : list KeyValue) k :
  k ∉ kv_key <$> l -> spec_find k (entry <$> l) = None.
Proof.
  intros Hk. apply list_find_None, Forall_forall.
  intros kv Hin Heq. apply Hk. apply list_elem_of_fmap in Hin as (e & -> & He).
  apply list_elem_of_fmap. by exists e.
Qed.

(** What the table says of a key: a node of the list, or no node. *)
Lemma wf_lookup c k :
  wf c ->
  match m_table c !! k with
  | Some it => exists i e, m_elements c !! i = Some e /\ kv_key e = k /\
      deref it (m_elements c) = Some (i, e) /\ spec_find k (abs c) = Some (i, entry e)
  | None => (k ∉ kv_key <$> m_elements c) /\ spec_find k (abs c) = None
  end.
Proof.
  unfold abs. intros [Hn _ Hk Ht]. destruct (m_table c !! k) as [it|] eqn:Hl; rewrite Ht in Hl.
  - apply table_lookup in Hl as (e & He & <- & <-); [|done].
    apply list_elem_of_lookup in He as [i Hi]. exists i, e.
    split_and!; auto using find_by_node, find_by_key.
  - apply table_lookup_None in Hl. auto using find_absent.
Qed.

Lemma wf_size c : wf c -> size (m_table c) = length (m_elements c).
Proof. intros [_ _ Hk ->]. by apply table_size. Qed.

(** ** Preservation, by list surgery *)

Lemma wf_drop_node c i e :
  wf c -> m_elements c !! i = Some e ->
  wf (mkLru (m_maxSize c) (delete i (m_elements c)) (delete (kv_key e) (m_table c))
        (m_nextNode c)).
Proof.
  intros [Hn Hf Hk Ht] Hi. split; simpl.
  - rewrite fmap_delete. by apply NoDup_delete_i.
  - by apply Forall_delete.
  - rewrite fmap_delete. by apply NoDup_delete_i.
  - rewrite Ht. by apply table_delete.
Qed.

Lemma wf_cons_fresh c k v :
  wf c -> k ∉ kv_key <$> m_elements c ->
  wf (mkLru (m_maxSize c) (mkKV (m_nextNode c) k v :: m_elements c)
        (<[k := m_nextNode c]> (m_table c)) (S (m_nextNode c))).
Proof.
  intros [Hn Hf Hk Ht] Hfresh. split; simpl.
  - apply NoDup_cons. split; [|done]. intros (e & Heq & He)%list_elem_of_fmap.
    rewrite Forall_forall in Hf. specialize (Hf _ He). lia.
  - apply Forall_cons. split; [simpl; lia|]. eapply Forall_impl; [exact Hf|]. simpl. lia.
  - by apply NoDup_cons.
  - by rewrite Ht.
Qed.

Lemma wf_to_front c i e :
  wf c -> m_elements c !! i = Some e ->
  wf (mkLru (m_maxSize c) (e :: delete i (m_elements c)) (m_table c) (m_nextNode c)).
Proof.
  intros [Hn Hf Hk Ht] Hi.
  pose proof (delete_Permutation _ _ _ Hi) as Hp. split; simpl.
  - by rewrite <- (fmap_cons kv_node), <- Hp.
  - by rewrite <- Hp.
  - by rewrite <- (fmap_cons kv_key), <- Hp.
  - rewrite Ht. change (list_to_map (binding <$> m_elements c)
      = (list_to_map (binding <$> (e :: delete i (m_elements c))) : gmap K nat)).
    apply list_to_map_proper.
    + by rewrite binding_keys.
    + by apply fmap_Permutation.
Qed.

Lemma wf_take c n :
  wf c ->
  wf (mkLru (m_maxSize c) (take n (m_elements c))
        (foldl (fun t kv => delete (kv_key kv) t) (m_table c) (drop n (m_elements c)))
        (m_nextNode c)).
Proof.
  revert c. intros c Hwf. remember (drop n (m_elements c)) as tl eqn:Htl.
  revert c Hwf Htl. induction tl as [|e tl IH]; intros c Hwf Htl; simpl.
  - symmetry in Htl. apply (f_equal length) in Htl. rewrite length_drop in Htl. simpl in Htl.
    rewrite take_ge by lia. destruct c; done.
  - assert (m_elements c !! n = Some e) as Hn.
    { rewrite <- (Nat.add_0_r n), <- lookup_drop, <- Htl. done. }
    pose proof (wf_drop_node c n e Hwf Hn) as Hd.
    specialize (IH _ Hd). simpl in IH.
    pose proof (lookup_lt_Some _ _ _ Hn) as Hlt.
    rewrite delete_take_drop in IH.
    rewrite drop_app_length', take_app_length' in IH by (rewrite length_take; lia).
    apply IH. rewrite (drop_S _ e _ Hn) in Htl. by simplify_eq.
Qed.

(** ** Refinement *)

Lemma abs_delete c i : entry <$> delete i (m_elements c) = delete i (abs c).
Proof. apply fmap_delete. Qed.

Lemma abs_length c : length (abs c) = length (m_elements c).
Proof. apply length_fmap. Qed.

Lemma remove_refines c k :
  wf c -> exists c', remove c k = Some c' /\ wf c' /\ abs c' = spec_remove (abs c) k.
Proof.
  intros Hwf. pose proof (wf_lookup c k Hwf) as Hl. unfold remove, spec_remove.
  destruct (m_table c !! k) as [it|].
  - destruct Hl as (i & e & Hi & <- & -> & ->). simpl.
    eexists. split_and!; [done|by apply wf_drop_node|]. apply abs_delete.
  - destruct Hl as [_ ->]. eauto.
Qed.

Lemma wf_drop_key_fresh c i e :
  wf c -> m_elements c !! i = Some e -> kv_key e ∉ kv_key <$> delete i (m_elements c).
Proof.
  intros [_ _ Hk _] Hi. rewrite (delete_Permutation _ _ _ Hi) in Hk.
  by apply NoDup_cons in Hk as [? _].
Qed.

(** Evicting the least recently used node makes room for a fresh key. *)
Lemma wf_evict c e k :
  wf c -> k ∉ kv_key <$> m_elements c -> last (m_elements c) = Some e ->
  let c' := mkLru (m_maxSize c) (removelast (m_elements c))
              (delete (kv_key e) (m_table c)) (m_nextNode c) in
  wf c' /\ k ∉ kv_key <$> m_elements c'.
Proof.
  intros Hwf Hk Hlast. rewrite last_lookup in Hlast. simpl. rewrite removelast_delete. split.
  - by apply wf_drop_node.
  - intros Hin. apply Hk. rewrite fmap_delete in Hin.
    by apply list_elem_of_delete_inv in Hin.
Qed.

(** On a well-formed cache of positive capacity [set] is defined and does what the
    specification says. *)
Lemma set_step (c : LruCache) (k : K) (v : V) :
  wf c -> (0 < m_maxSize c)%nat ->
  exists c', set c k v = Some c' /\ wf c' /\ m_maxSize c' = m_maxSize c /\
    abs c' = spec_set (m_maxSize c) (abs c) k v.
Proof.
  intros Hwf Hpos. pose proof (wf_lookup c k Hwf) as Hl. unfold set, spec_set.
  destruct (m_table c !! k) as [it|] eqn:Hk.
  - destruct Hl as (i & e & Hi & <- & -> & ->). simpl. eexists. split; [done|].
    rewrite <- insert_delete_eq.
    pose proof (wf_cons_fresh _ (kv_key e) v (wf_drop_node c i e Hwf Hi)
                  (wf_drop_key_fresh c i e Hwf Hi)) as Hwf'. simpl in Hwf'.
    split_and!; [done|done|by simpl; rewrite <- abs_delete].
  - destruct Hl as [Hfresh ->]. rewrite (wf_size c Hwf), abs_length.
    destruct (Nat.leb_spec (m_maxSize c) (length (m_elements c))) as [Hfull|Hroom].
    + destruct (last (m_elements c)) as [e|] eqn:Hlast.
      2: { apply last_None in Hlast. rewrite Hlast in Hfull. simpl in Hfull. lia. }
      simpl. eexists. split; [done|].
      destruct (wf_evict c e k Hwf Hfresh Hlast) as [Hwf1 Hfresh1].
      pose proof (wf_cons_fresh _ k v Hwf1 Hfresh1) as Hwf'. simpl in Hwf'.
      split_and!; [done|done|].
      unfold abs. simpl. rewrite !removelast_delete, fmap_delete, length_fmap. done.
    + simpl. eexists. split; [done|].
      pose proof (wf_cons_fresh c k v Hwf Hfresh) as Hwf'. by split_and!.
Qed.

(** The specification stays within its capacity. *)
Lemma spec_set_length n (l : list (K * V)) k v : (0 < n)%nat -> (length l <= n)%nat -> (length (spec_set n l k v) <= n)%nat.
Proof.
  intros Hn Hl. unfold spec_set, spec_find, spec. destruct (list_find _ l) as [[i kv]|] eqn:E; simpl.
  - apply list_find_Some in E as (Hi & _). rewrite length_delete by eauto. apply lookup_lt_Some in Hi. lia.
  - destruct (Nat.leb_spec n (length l)); [|lia]. rewrite removelast_delete, length_delete; [lia|]. apply lookup_lt_is_Some. lia.
Qed.

(** C6: on a well-formed cache of positive capacity, [set] is defined (no
    dangling iterator is followed and the empty list is never asked for its
    back), keeps the cache well formed and within its capacity, and does what
    the specification says: the new pair comes first, the old pair of the same
    key or, when the cache is full, the least recently used pair is gone. *)
Theorem lru_set_refines (c : LruCache) (k : K) (v : V) :
  wf c -> (0 < m_maxSize c)%nat -> (getSize c <= m_maxSize c)%nat ->
  exists c', set c k v = Some c' /\ wf c' /\ (getSize c' <= m_maxSize c')%nat /\
    abs c' = spec_set (m_maxSize c) (abs c) k v.
Proof.
  intros Hwf Hpos Hcap. destruct (set_step c k v Hwf Hpos) as (c' & Hset & Hwf' & Hmax & Habs).
  exists c'. split_and!; [done|done| |done]. unfold getSize in *. rewrite (wf_size c Hwf), <- abs_length in Hcap.
  rewrite (wf_size c' Hwf'), <- abs_length, Habs, Hmax. by apply spec_set_length.
Qed.

(** On a well-formed cache [get] is defined, returns the value last stored
    under the key (or nothing) and moves the pair it returns to the front. *)
Lemma lru_get_refines (c : LruCache) (k : K) :
  wf c ->
  exists r c', get c k = Some (r, c') /\ wf c' /\ getSize c' = getSize c /\
    (r, abs c') = spec_get (abs c) k /\ m_maxSize c' = m_maxSize c.
Proof.
  intros Hwf. pose proof (wf_lookup c k Hwf) as Hl. unfold get, spec_get.
  destruct (m_table c !! k) as [it|].
  - destruct Hl as (i & e & Hi & <- & -> & ->). simpl. do 2 eexists.
    split_and!; [done|by apply wf_to_front|done| |done].
    unfold abs. simpl. by rewrite fmap_delete.
  - destruct Hl as [_ ->]. eauto 10.
Qed.

(** [partialClearCache n] keeps exactly the [n] most recently used pairs,
    in order, and drops the table entries of the others. *)
Lemma lru_partialClear_refines (c : LruCache) (n : nat) :
  wf c -> (n <= getSize c)%nat ->
  exists c', partialClearCache c n = Some c' /\ wf c' /\ getSize c' = n /\
    abs c' = take n (abs c).
Proof.
  unfold getSize, partialClearCache. intros Hwf Hn. rewrite (wf_size c Hwf) in Hn.
  rewrite decide_True by done. eexists. split; [done|].
  pose proof (wf_take c n Hwf) as Hwf'. split_and!; [done| |].
  - rewrite (wf_size _ Hwf'). simpl. rewrite length_take. lia.
  - apply fmap_take.
Qed.

(** On a well-formed cache [get] is defined, returns the value last stored
    under the key (or nothing) and moves the pair it returns to the front;
    [partialClearCache n] keeps exactly the [n] most recently used pairs, in
    order, and drops the table entries of the others. *)
Lemma lru_get_clear_refine (c : LruCache) (k : K) (n : nat) :
  wf c ->
  (exists r c', get c k = Some (r, c') /\ wf c' /\ getSize c' = getSize c /\
     (r, abs c') = spec_get (abs c) k /\ m_maxSize c' = m_maxSize c) /\
     ((n <= getSize c)%nat ->
   exists c', partialClearCache c n = Some c' /\ wf c' /\ getSize c' = n /\
     abs c' = take n (abs c)).
Proof. intros Hwf. split; [by apply lru_get_refines|by apply lru_partialClear_refines]. Qed.

Lemma wf_new n : wf (lru_new n).
Proof. by split; simpl; constructor. Qed.

Lemma wf_clear c : wf (clear c).
Proof. by split; simpl; constructor. Qed.

End LruCache.

(** ** Witnesses *)

(** A cache of capacity two holding keys 1 and 2, the latter more recent. *)
Definition demo_cache : LruCache (K := Z) (V := Z) :=
  mkLru 2 [mkKV 1 2 20; mkKV 0 1 10] {[ 1 := 0%nat; 2 := 1%nat ]} 2.

Lemma demo_cache_wf : wf demo_cache.
Proof.
  split; simpl.
  - apply (bool_decide_unpack _). vm_compute. exact I.
  - apply (bool_decide_unpack _). vm_compute. exact I.
  - apply (bool_decide_unpack _). vm_compute. exact I.
  - apply map_eq. intros k. simpl. by rewrite (insert_insert_ne _ 2 1).
Qed.

Lemma lru_set_refines_witness :
  exists c', set demo_cache 3 30 = Some c' /\ wf c' /\
    (getSize c' <= m_maxSize c')%nat /\ abs c' = [(3, 30); (2, 20)].
Proof. apply (lru_set_refines demo_cache 3 30 demo_cache_wf); vm_compute; lia. Defined.
