(* ===== verification/Cec.v ===== *)
(** * hdmicec/hdmi_cec.c: the HDMI-CEC device

    One [hdmicec_context] per device, shared by the API functions and by the
    event thread.  The kernel driver behind the [ioctl]s is not under src/: it
    is the class [CecDriver], with a state of its own; the constants of
    <linux/cec.h> and <hardware/hdmi_cec.h> are the class [CecAbi].  Every
    function below takes the driver state and returns it; a [memcpy] out of
    bounds is [None].  The event thread is modelled by one iteration of its
    loop, [event_iteration], which reads the shared context at four places and
    takes the value found at each; [cec_step] interleaves iterations with the
    API calls that write the context. *)

From S2P Require Import Prelude.

(** ** Constants of the headers *)

Class CecAbi := {
  CEC_ADDR_BROADCAST : Z; CEC_ADDR_UNREGISTERED : Z;
  CEC_ADDR_RESERVED_1 : Z; CEC_ADDR_RESERVED_2 : Z;
  CEC_LOG_ADDR_TV : Z;
  CEC_LOG_ADDR_RECORD_1 : Z; CEC_LOG_ADDR_RECORD_2 : Z; CEC_LOG_ADDR_RECORD_3 : Z;
  CEC_LOG_ADDR_TUNER_1 : Z; CEC_LOG_ADDR_TUNER_2 : Z; CEC_LOG_ADDR_TUNER_3 : Z;
  CEC_LOG_ADDR_TUNER_4 : Z;
  CEC_LOG_ADDR_PLAYBACK_1 : Z; CEC_LOG_ADDR_PLAYBACK_2 : Z; CEC_LOG_ADDR_PLAYBACK_3 : Z;
  CEC_LOG_ADDR_AUDIOSYSTEM : Z; CEC_LOG_ADDR_SPECIFIC : Z;
  CEC_LOG_ADDR_TYPE_UNREGISTERED : Z; CEC_LOG_ADDR_TYPE_TV : Z;
  CEC_LOG_ADDR_TYPE_RECORD : Z; CEC_LOG_ADDR_TYPE_TUNER : Z;
  CEC_LOG_ADDR_TYPE_PLAYBACK : Z; CEC_LOG_ADDR_TYPE_AUDIOSYSTEM : Z;
  CEC_LOG_ADDR_TYPE_SPECIFIC : Z;
  CEC_OP_PRIM_DEVTYPE_TV : Z; CEC_OP_PRIM_DEVTYPE_RECORD : Z; CEC_OP_PRIM_DEVTYPE_TUNER : Z;
  CEC_OP_PRIM_DEVTYPE_PLAYBACK : Z; CEC_OP_PRIM_DEVTYPE_AUDIOSYSTEM : Z;
  CEC_OP_PRIM_DEVTYPE_PROCESSOR : Z;
  CEC_OP_ALL_DEVTYPE_TV : Z; CEC_OP_ALL_DEVTYPE_RECORD : Z; CEC_OP_ALL_DEVTYPE_TUNER : Z;
  CEC_OP_ALL_DEVTYPE_PLAYBACK : Z; CEC_OP_ALL_DEVTYPE_AUDIOSYSTEM : Z;
  CEC_OP_ALL_DEVTYPE_SWITCH : Z;
  CEC_LOG_ADDRS_FL_ALLOW_RC_PASSTHRU : Z; CEC_LOG_ADDRS_FL_ALLOW_UNREG_FALLBACK : Z;
  CEC_TX_STATUS_OK : Z; CEC_TX_STATUS_ARB_LOST : Z; CEC_TX_STATUS_NACK : Z;
  CEC_RX_STATUS_OK : Z;
  CEC_PHYS_ADDR_INVALID : Z; CEC_EVENT_STATE_CHANGE : Z;
  CEC_CAP_LOG_ADDRS : Z; CEC_CAP_TRANSMIT : Z; CEC_CAP_PASSTHROUGH : Z; CEC_CAP_PHYS_ADDR : Z;
  CEC_MODE_INITIATOR : Z; CEC_MODE_EXCL_FOLLOWER_PASSTHRU : Z;
  CEC_OP_CEC_VERSION_1_4 : Z;
  CEC_OP_UI_CMD_POWER : Z; CEC_OP_UI_CMD_DEVICE_ROOT_MENU : Z;
  CEC_OP_UI_CMD_POWER_ON_FUNCTION : Z;
  CEC_MESSAGE_ABORT : Z; CEC_MESSAGE_DEVICE_VENDOR_ID : Z; CEC_MESSAGE_GET_CEC_VERSION : Z;
  CEC_MESSAGE_GET_MENU_LANGUAGE : Z; CEC_MESSAGE_GIVE_DEVICE_POWER_STATUS : Z;
  CEC_MESSAGE_GIVE_DEVICE_VENDOR_ID : Z; CEC_MESSAGE_GIVE_OSD_NAME : Z;
  CEC_MESSAGE_GIVE_PHYSICAL_ADDRESS : Z; CEC_MESSAGE_REPORT_PHYSICAL_ADDRESS : Z;
  CEC_MESSAGE_REPORT_POWER_STATUS : Z; CEC_MESSAGE_SET_OSD_NAME : Z;
  CEC_MESSAGE_DECK_CONTROL : Z; CEC_MESSAGE_PLAY : Z; CEC_MESSAGE_USER_CONTROL_PRESSED : Z;
  CEC_DEVICE_TV : Z; CEC_DEVICE_PLAYBACK : Z; HDMI_INPUT : Z; HDMI_OUTPUT : Z;
  HDMI_RESULT_SUCCESS : Z; HDMI_RESULT_NACK : Z; HDMI_RESULT_BUSY : Z; HDMI_RESULT_FAIL : Z;
  HDMI_OPTION_WAKEUP : Z; HDMI_OPTION_ENABLE_CEC : Z; HDMI_OPTION_SYSTEM_CEC_CONTROL : Z;
  CEC_MESSAGE_BODY_MAX_LENGTH : nat; (* cells of cec_message_t.body *)
  CEC_MAX_MSG_SIZE : nat;            (* cells of struct cec_msg.msg *)
  POLLIN : Z; POLLERR : Z
}.

(** ** Data *)

(** [struct cec_log_addrs], cell 0 of its arrays: the code requests one
    logical address and leaves the other cells zero. *)
Record cec_log_addrs := mkLaddrs {
  la_cec_version : Z; la_vendor_id : Z; la_flags : Z; la_num_log_addrs : Z;
  la_log_addr0 : Z; la_log_addr_type0 : Z; la_primary_device_type0 : Z;
  la_all_device_types0 : Z; la_features00 : Z; la_features01 : Z
}.

Definition zero_laddrs : cec_log_addrs := mkLaddrs 0 0 0 0 0 0 0 0 0 0.

(** [struct cec_msg]: the frame, its length and the two status bytes. *)
Record cec_msg := mkCecMsg {
  cm_len : Z; cm_msg : list Z; cm_tx_status : Z; cm_rx_status : Z
}.

(** [struct cec_event], as far as the code reads it. *)
Record cec_event := mkCecEvent { ev_event : Z; ev_phys_addr : Z }.

(** [cec_message_t]: the message type of the HAL interface. *)
Record cec_message_t := mkMessage {
  initiator : Z; destination : Z; length_ : Z; body : list Z
}.

(** [hdmi_event_t]: a tagged union, with the two tags the thread produces. *)
Inductive hdmi_event :=
  | HotPlug (connected : bool) (port_id : Z)
  | CecMessage (m : cec_message_t).

Record hdmi_port_info := mkPort {
  port_type : Z; port_id : Z; cec_supported : Z; arc_supported : Z; physical_address : Z
}.

(** [hdmicec_context_t]; the function table and the mutex have no field. *)
Record hdmicec_context := mkCtx {
  cec_fd : Z; vendor_id : Z; type_ : Z; version : Z; phyaddr : Z;
  port_info : hdmi_port_info;
  p_event_cb : option nat; cb_arg : nat;
  exit_fd : Z;
  cec_enabled : bool; cec_control_enabled : bool; cec_cap_phys_addr : bool
}.

(** A call of the registered callback. *)
Record callback_call := mkCall { call_fn : nat; call_arg : nat; call_event : hdmi_event }.

(** ** The kernel driver: one function per [ioctl], with its return value, the
    contents it leaves in the argument buffer and the driver's next state. *)

Class CecDriver (D : Type) := {
  G_LOG_ADDRS : D -> Z * D;
  S_LOG_ADDRS : cec_log_addrs -> D -> Z * D;
  G_PHYS_ADDR : Z -> D -> Z * Z * D;
  S_PHYS_ADDR : Z -> D -> Z * D;
  TRANSMIT : cec_msg -> D -> Z * cec_msg * D;
  RECEIVE : cec_msg -> D -> Z * cec_msg * D;
  DQEVENT : D -> Z * cec_event * D;
  G_CAPS : D -> Z * Z * D;
  S_MODE : Z -> D -> Z * D
}.

Section Cec.
Context `{CecAbi} {D : Type} `{CecDriver D}.

(** ** API functions *)

(** The [switch] of [hdmicec_add_logical_address]: primary device type,
    logical address type, device types and flags, from their initial values. *)
Definition logical_address_types (addr : Z) : Z * Z * Z * Z :=
  if decide (addr = CEC_LOG_ADDR_TV) then
    (CEC_OP_PRIM_DEVTYPE_TV, CEC_LOG_ADDR_TYPE_TV, CEC_OP_ALL_DEVTYPE_TV, 0)
  else if decide (addr ∈ [CEC_LOG_ADDR_RECORD_1; CEC_LOG_ADDR_RECORD_2; CEC_LOG_ADDR_RECORD_3]) then
    (CEC_OP_PRIM_DEVTYPE_RECORD, CEC_LOG_ADDR_TYPE_RECORD, CEC_OP_ALL_DEVTYPE_RECORD, 0)
  else if decide (addr ∈ [CEC_LOG_ADDR_TUNER_1; CEC_LOG_ADDR_TUNER_2; CEC_LOG_ADDR_TUNER_3;
                          CEC_LOG_ADDR_TUNER_4]) then
    (CEC_OP_PRIM_DEVTYPE_TUNER, CEC_LOG_ADDR_TYPE_TUNER, CEC_OP_ALL_DEVTYPE_TUNER, 0)
  else if decide (addr ∈ [CEC_LOG_ADDR_PLAYBACK_1; CEC_LOG_ADDR_PLAYBACK_2;
                          CEC_LOG_ADDR_PLAYBACK_3]) then
    (CEC_OP_PRIM_DEVTYPE_PLAYBACK, CEC_LOG_ADDR_TYPE_PLAYBACK, CEC_OP_ALL_DEVTYPE_PLAYBACK,
     CEC_LOG_ADDRS_FL_ALLOW_RC_PASSTHRU)
  else if decide (addr = CEC_LOG_ADDR_AUDIOSYSTEM) then
    (CEC_OP_PRIM_DEVTYPE_AUDIOSYSTEM, CEC_LOG_ADDR_TYPE_AUDIOSYSTEM,
     CEC_OP_ALL_DEVTYPE_AUDIOSYSTEM, 0)
  else if decide (addr = CEC_LOG_ADDR_SPECIFIC) then
    (CEC_OP_PRIM_DEVTYPE_PROCESSOR, CEC_LOG_ADDR_TYPE_SPECIFIC, CEC_OP_ALL_DEVTYPE_SWITCH, 0)
  else if decide (addr ∈ [CEC_ADDR_RESERVED_1; CEC_ADDR_RESERVED_2; CEC_ADDR_UNREGISTERED]) then
    (0xff, CEC_LOG_ADDR_TYPE_UNREGISTERED, 0, CEC_LOG_ADDRS_FL_ALLOW_UNREG_FALLBACK)
  else (0xff, CEC_LOG_ADDR_TYPE_UNREGISTERED, 0, 0).

Definition hdmicec_add_logical_address (ctx : hdmicec_context) (addr : Z) (d : D) : Z * D :=
  if decide (CEC_ADDR_BROADCAST <= addr) then (-1, d)
  else
    let '(ret, d1) := G_LOG_ADDRS d in
    if decide (ret <> 0) then (ret, d1)
    else
      let '(_, d2) := S_LOG_ADDRS zero_laddrs d1 in
      let '(prim_type, la_type, all_dev_types, flags) := logical_address_types addr in
      let laddrs :=
        mkLaddrs (wrap_u 8 (version ctx)) (vendor_id ctx) flags 1
          (wrap_u 8 addr) (wrap_u 8 la_type) (wrap_u 8 prim_type) (wrap_u 8 all_dev_types) 0 0 in
      let '(ret, d3) := S_LOG_ADDRS laddrs d2 in
      if decide (ret <> 0) then (ret, d3) else (0, d3).

Definition hdmicec_clear_logical_address (ctx : hdmicec_context) (d : D) : D :=
  (S_LOG_ADDRS zero_laddrs d).2.

(** Returns the status and the contents of [*addr]. *)
Definition hdmicec_get_physical_address (ctx : hdmicec_context) (addr : Z) (d : D) : Z * Z * D :=
  G_PHYS_ADDR addr d.

(** The frame built by [hdmicec_send_message] from a zeroed [struct cec_msg]. *)
Definition encode_message (msg : cec_message_t) : option cec_msg :=
  let header := wrap_u 8 (Z.lor (Z.shiftl (initiator msg) 4) (destination msg)) in
  frame0 ← arr_set (replicate CEC_MAX_MSG_SIZE 0) 0 header;
  frame ← arr_copy frame0 1 (body msg) (Z.to_nat (length_ msg));
  Some (mkCecMsg (wrap_u 32 (length_ msg + 1)) frame 0 0).

(** The result of a transmission, from the [ioctl]'s status and [tx_status]. *)
Definition tx_result (tx_status : Z) : Z :=
  if decide (tx_status = CEC_TX_STATUS_OK) then HDMI_RESULT_SUCCESS
  else if decide (tx_status = CEC_TX_STATUS_ARB_LOST) then HDMI_RESULT_BUSY
  else if decide (tx_status = CEC_TX_STATUS_NACK) then HDMI_RESULT_NACK
  else if decide (Z.land tx_status CEC_TX_STATUS_NACK <> 0) then HDMI_RESULT_NACK
  else HDMI_RESULT_FAIL.

Definition hdmicec_send_message (ctx : hdmicec_context) (msg : cec_message_t) (d : D)
    : option (Z * D) :=
  if negb (cec_enabled ctx) then Some (HDMI_RESULT_FAIL, d)
  else
    cec_msg ← encode_message msg;
    let '(ret, cec_msg', d') := TRANSMIT cec_msg d in
    if decide (ret <> 0) then Some (HDMI_RESULT_FAIL, d')
    else Some (tx_result (cm_tx_status cec_msg'), d').

Definition hdmicec_register_event_callback (ctx : hdmicec_context) (callback : option nat)
    (arg : nat) : hdmicec_context :=
  mkCtx (cec_fd ctx) (vendor_id ctx) (type_ ctx) (version ctx) (phyaddr ctx) (port_info ctx)
    callback arg (exit_fd ctx) (cec_enabled ctx) (cec_control_enabled ctx)
    (cec_cap_phys_addr ctx).

Definition hdmicec_get_version (ctx : hdmicec_context) : Z := wrap_s 32 (version ctx).

Definition hdmicec_get_vendor_id (ctx : hdmicec_context) : Z := vendor_id ctx.

Definition set_phys (ctx : hdmicec_context) (pa : Z) : hdmicec_context :=
  mkCtx (cec_fd ctx) (vendor_id ctx) (type_ ctx) (version ctx) (phyaddr ctx)
    (let p := port_info ctx in
     mkPort (port_type p) (port_id p) (cec_supported p) (arc_supported p) pa)
    (p_event_cb ctx) (cb_arg ctx) (exit_fd ctx) (cec_enabled ctx) (cec_control_enabled ctx)
    (cec_cap_phys_addr ctx).

(** Refreshes the physical address in place; the list handed out is the one
    port of the context. *)
Definition hdmicec_get_port_info (ctx : hdmicec_context) (d : D)
    : list hdmi_port_info * Z * hdmicec_context * D :=
  let '(_, pa, d') := G_PHYS_ADDR (physical_address (port_info ctx)) d in
  let ctx' := set_phys ctx pa in
  ([port_info ctx'], 1, ctx', d').

Definition set_flags (ctx : hdmicec_context) (en ctl : bool) : hdmicec_context :=
  mkCtx (cec_fd ctx) (vendor_id ctx) (type_ ctx) (version ctx) (phyaddr ctx) (port_info ctx)
    (p_event_cb ctx) (cb_arg ctx) (exit_fd ctx) en ctl (cec_cap_phys_addr ctx).

Definition hdmicec_set_option (ctx : hdmicec_context) (flag value : Z) : hdmicec_context :=
  if decide (flag = HDMI_OPTION_ENABLE_CEC) then
    set_flags ctx (bool_decide (value = 1)) (cec_control_enabled ctx)
  else if decide (flag = HDMI_OPTION_WAKEUP) then ctx
  else if decide (flag = HDMI_OPTION_SYSTEM_CEC_CONTROL) then
    set_flags ctx (cec_enabled ctx) (bool_decide (value = 1))
  else ctx.

Definition hdmicec_is_connected (ctx : hdmicec_context) (d : D) : Z * hdmicec_context * D :=
  let '(ret, pa, d') := G_PHYS_ADDR (physical_address (port_info ctx)) d in
  let ctx' := set_phys ctx pa in
  if decide (ret <> 0) then (ret, ctx', d')
  else if decide (physical_address (port_info ctx') = CEC_PHYS_ADDR_INVALID) then (0, ctx', d')
  else (1, ctx', d').

(** ** The message filter of the standby mode *)

Definition get_opcode (message : cec_msg) : option Z :=
  b ← arr_get (cm_msg message) 1; Some (Z.land (wrap_u 8 b) 0xff).

Definition get_first_param (message : cec_msg) : option Z :=
  b ← arr_get (cm_msg message) 2; Some (Z.land (wrap_u 8 b) 0xff).

Definition is_power_ui_command (message : cec_msg) : option bool :=
  ui_command ← get_first_param message;
  Some (bool_decide (ui_command ∈ [CEC_OP_UI_CMD_POWER; CEC_OP_UI_CMD_DEVICE_ROOT_MENU;
                                   CEC_OP_UI_CMD_POWER_ON_FUNCTION])).

Definition transferable_opcodes : list Z :=
  [CEC_MESSAGE_ABORT; CEC_MESSAGE_DEVICE_VENDOR_ID; CEC_MESSAGE_GET_CEC_VERSION;
   CEC_MESSAGE_GET_MENU_LANGUAGE; CEC_MESSAGE_GIVE_DEVICE_POWER_STATUS;
   CEC_MESSAGE_GIVE_DEVICE_VENDOR_ID; CEC_MESSAGE_GIVE_OSD_NAME;
   CEC_MESSAGE_GIVE_PHYSICAL_ADDRESS; CEC_MESSAGE_REPORT_PHYSICAL_ADDRESS;
   CEC_MESSAGE_REPORT_POWER_STATUS; CEC_MESSAGE_SET_OSD_NAME; CEC_MESSAGE_DECK_CONTROL;
   CEC_MESSAGE_PLAY].

Definition is_transferable_in_sleep (message : cec_msg) : option bool :=
  opcode ← get_opcode message;
  if decide (opcode ∈ transferable_opcodes) then Some true
  else if decide (opcode = CEC_MESSAGE_USER_CONTROL_PRESSED) then is_power_ui_command message
  else Some false.

(** ** The event thread *)

(** The HAL message the thread decodes from a received frame. *)
Definition decode_message (msg : cec_msg) : option cec_message_t :=
  b0 ← arr_get (cm_msg msg) 0;
  let len := cm_len msg - 1 in
  if decide (0 <= len) then
    body ← arr_copy (replicate CEC_MESSAGE_BODY_MAX_LENGTH 0) 0 (drop 1 (cm_msg msg))
             (Z.to_nat len);
    Some (mkMessage (Z.shiftr b0 4) (Z.land b0 0xf) len body)
  else None (* msg.len - 1 wraps to a size no buffer has *).

Definition deliver (ctx : hdmicec_context) (e : hdmi_event) : list callback_call :=
  match p_event_cb ctx with
  | Some f => [mkCall f (cb_arg ctx) e]
  | None => []
  end.

(** The POLLERR branch: the calls made, and whether the loop goes on to the
    POLLIN branch ([false] is [continue]). *)
Definition on_cec_event (ctx : hdmicec_context) (d : D) : list callback_call * bool * D :=
  let '(ret, ev, d') := DQEVENT d in
  if decide (ret <> 0) then ([], false, d')
  else if negb (cec_enabled ctx) then ([], false, d')
  else if decide (ev_event ev = CEC_EVENT_STATE_CHANGE) then
    (deliver ctx (HotPlug (bool_decide (ev_phys_addr ev <> CEC_PHYS_ADDR_INVALID)) 1), true, d')
  else ([], true, d').

(** The POLLIN branch; [ctx_en], [ctx_ctl] and [ctx_cb] are the context at the
    reads of the two flags and of the callback. *)
Definition on_cec_message (ctx_en ctx_ctl ctx_cb : hdmicec_context) (d : D)
    : option (list callback_call * D) :=
  let '(ret, msg, d') := RECEIVE (mkCecMsg 0 (replicate CEC_MAX_MSG_SIZE 0) 0 0) d in
  if decide (ret <> 0) then Some ([], d')
  else if decide (cm_rx_status msg <> CEC_RX_STATUS_OK) then Some ([], d')
  else if negb (cec_enabled ctx_en) then Some ([], d')
  else
    pass ← if cec_control_enabled ctx_ctl then Some true else is_transferable_in_sleep msg;
    if negb pass then Some ([], d')
    else
      match p_event_cb ctx_cb with
      | Some _ => m ← decode_message msg; Some (deliver ctx_cb (CecMessage m), d')
      | None => Some ([], d')
      end.

(** What [poll] reported for the three descriptors. *)
Record revents := mkRevents { rev_in : Z; rev_err : Z; rev_exit : Z }.

(** One iteration of the loop of [event_thread]: [None] is undefined
    behaviour, the boolean says whether the loop goes on.  [ret] is the result
    of [poll]; the context is read at four places. *)
Definition event_iteration (ret : Z) (r : revents) (ctx_ev ctx_en ctx_ctl ctx_cb : hdmicec_context)
    (d : D) : option (bool * list callback_call * D) :=
  if decide (ret <= 0) then Some (true, [], d)
  else if decide (rev_exit r = POLLIN) then Some (false, [], d)
  else
    let '(calls, go_on, d1) :=
      if decide (rev_err r = POLLERR) then on_cec_event ctx_ev d else ([], true, d) in
    if negb go_on then Some (true, calls, d1)
    else if decide (rev_in r = POLLIN) then
      '(calls', d2) ← on_cec_message ctx_en ctx_ctl ctx_cb d1;
      Some (true, calls ++ calls', d2)
    else Some (true, calls, d1).

(** ** Opening and closing the device *)

Definition hdmicec_set_arc (ctx : hdmicec_context) (port_id flag : Z) : hdmicec_context := ctx.

(** The system calls that open and close make, in order. *)
Inductive sys_action :=
  | OpenCec | OpenEventfd | ThreadCreate
  | WriteExit | ThreadJoin | CloseCec | CloseExit | FreeCtx.

Definition hdmicec_close (ctx : hdmicec_context) : list sys_action :=
  (if decide (0 < exit_fd ctx) then [WriteExit; ThreadJoin] else []) ++
  (if decide (0 < cec_fd ctx) then [CloseCec] else []) ++
  (if decide (0 < exit_fd ctx) then [CloseExit] else []) ++
  [FreeCtx].

(** The system properties read at initialisation, with their defaults. *)
Record properties := mkProps {
  property_get_int32 : string -> Z -> Z;
  property_get_bool : string -> Z -> Z
}.

Definition cec_init (props : properties) (ctx : hdmicec_context) (d : D)
    : Z * hdmicec_context * D :=
  let '(ret, caps, d1) := G_CAPS d in
  if decide (ret <> 0) then (ret, ctx, d1)
  else if decide (Z.land caps (Z.lor (Z.lor CEC_CAP_LOG_ADDRS CEC_CAP_TRANSMIT)
                                 CEC_CAP_PASSTHROUGH) = 0) then (-1, ctx, d1)
  else
    let phys_step :=
      if decide (Z.land caps CEC_CAP_PHYS_ADDR <> 0) then
        let '(_, _, d2) := G_PHYS_ADDR CEC_PHYS_ADDR_INVALID d1 in
        let '(ret, d3) := S_PHYS_ADDR (phyaddr ctx) d2 in
        if decide (ret < 0) then inl d3 else inr (true, d3)
      else inr (false, d1) in
    match phys_step with
    | inl d3 => (-1, ctx, d3)
    | inr (cap, d3) =>
        let '(ret, d4) := S_MODE (Z.lor CEC_MODE_INITIATOR CEC_MODE_EXCL_FOLLOWER_PASSTHRU) d3 in
        let ctx1 := mkCtx (cec_fd ctx) (vendor_id ctx) (type_ ctx) (version ctx) (phyaddr ctx)
                      (port_info ctx) (p_event_cb ctx) (cb_arg ctx) (exit_fd ctx)
                      (cec_enabled ctx) (cec_control_enabled ctx) cap in
        if decide (ret <> 0) then (ret, ctx1, d4)
        else
          let ty := wrap_u 32 (property_get_int32 props "ro.hdmi.device_type" CEC_DEVICE_PLAYBACK) in
          let port := mkPort (if decide (ty = CEC_DEVICE_TV) then HDMI_INPUT else HDMI_OUTPUT)
                        1 1 0 (physical_address (port_info ctx)) in
          let ctx2 :=
            mkCtx (cec_fd ctx) (wrap_u 32 (property_get_int32 props "ro.hdmi.vendor_id" 0x000c03))
              ty (wrap_u 32 (property_get_bool props "ro.hdmi.cec_version" CEC_OP_CEC_VERSION_1_4))
              (phyaddr ctx) port (p_event_cb ctx) (cb_arg ctx) (exit_fd ctx)
              (cec_enabled ctx) (cec_control_enabled ctx) cap in
          let '(ret, d5) := S_LOG_ADDRS zero_laddrs d4 in
          (ret, ctx2, d5)
    end.

(** Results of the calls [open_hdmi_cec] makes to the system: whether [malloc]
    succeeds, the two descriptors, the result of [pthread_create], and the
    value of [errno] when the function returns. *)
Record open_env := mkOpenEnv {
  oe_malloc : bool; oe_cec_fd : Z; oe_exit_fd : Z; oe_thread : Z; oe_errno : Z; oe_ENOMEM : Z
}.

Definition fresh_ctx (cfd efd pa : Z) : hdmicec_context :=
  mkCtx cfd 0 0 0 pa (mkPort 0 0 0 0 0) None 0 efd false false false.

(** The status, the device handed out if any, the driver state and the system
    calls made.  [*device] is assigned before the thread is created, so a
    failing [pthread_create] leaves the caller with a freed device. *)
Definition open_hdmi_cec (props : properties) (env : open_env) (pa : Z) (d : D)
    : Z * option hdmicec_context * D * list sys_action :=
  if negb (oe_malloc env) then (- oe_ENOMEM env, None, d, [])
  else if decide (oe_cec_fd env < 0) then
    (- oe_errno env, None, d, OpenCec :: hdmicec_close (fresh_ctx (oe_cec_fd env) 0 0))
  else if decide (oe_exit_fd env < 0) then
    (- oe_errno env, None, d,
     OpenCec :: OpenEventfd :: hdmicec_close (fresh_ctx (oe_cec_fd env) (oe_exit_fd env) 0))
  else
    let '(ret, ctx, d') := cec_init props (fresh_ctx (oe_cec_fd env) (oe_exit_fd env) pa) d in
    if decide (ret <> 0) then
      (- oe_errno env, None, d', OpenCec :: OpenEventfd :: hdmicec_close ctx)
    else if decide (oe_thread env <> 0) then
      (- oe_errno env, Some ctx, d', OpenCec :: OpenEventfd :: ThreadCreate :: hdmicec_close ctx)
    else (0, Some (set_flags ctx true true), d', [OpenCec; OpenEventfd; ThreadCreate]).

(** ** Interleaving of the event thread with the API *)

(** The API calls that write the shared context. *)
Inductive api_op :=
  | OpSetOption (flag value : Z)
  | OpRegister (callback : option nat) (arg : nat)
  | OpPortInfo
  | OpIsConnected.

Definition api_step (op : api_op) (ctx : hdmicec_context) (d : D) : hdmicec_context * D :=
  match op with
  | OpSetOption flag value => (hdmicec_set_option ctx flag value, d)
  | OpRegister f arg => (hdmicec_register_event_callback ctx f arg, d)
  | OpPortInfo => let '(_, _, ctx', d') := hdmicec_get_port_info ctx d in (ctx', d')
  | OpIsConnected => let '(_, ctx', d') := hdmicec_is_connected ctx d in (ctx', d')
  end.

Record cec_sys := mkSys {
  sys_ctx : hdmicec_context; sys_drv : D; sys_calls : list callback_call
}.

(** A set of API calls that may run concurrently with the thread. *)
Inductive api_ctx_step (allowed : api_op -> Prop) : hdmicec_context -> hdmicec_context -> Prop :=
  | ApiCtx op ctx d :
      allowed op -> api_ctx_step allowed ctx (api_step op ctx d).1.

(** Steps of the device: an API call, or one iteration of the event thread
    during which API calls change the context between the thread's reads. *)
Inductive cec_step (allowed : api_op -> Prop) : cec_sys -> cec_sys -> Prop :=
  | StepApi op ctx d calls :
      allowed op ->
      cec_step allowed (mkSys ctx d calls)
        (mkSys (api_step op ctx d).1 (api_step op ctx d).2 calls)
  | StepThread ret r ctx_ev ctx_en ctx_ctl ctx_cb ctx' ctx d calls go_on calls' d' :
      rtc (api_ctx_step allowed) ctx ctx_ev -> rtc (api_ctx_step allowed) ctx_ev ctx_en ->
      rtc (api_ctx_step allowed) ctx_en ctx_ctl -> rtc (api_ctx_step allowed) ctx_ctl ctx_cb ->
      rtc (api_ctx_step allowed) ctx_cb ctx' ->
      event_iteration ret r ctx_ev ctx_en ctx_ctl ctx_cb d = Some (go_on, calls', d') ->
      cec_step allowed (mkSys ctx d calls) (mkSys ctx' d' (calls ++ calls')).

(** ** Lemmas *)

Lemma deliver_In ctx e c : c ∈ deliver ctx e -> call_event c = e.
Proof.
  unfold deliver. destruct (p_event_cb ctx); [|by intros ?%elem_of_nil].
  by intros ->%list_elem_of_singleton.
Qed.

Lemma on_cec_event_calls ctx d c calls go_on d' :
  on_cec_event ctx d = (calls, go_on, d') -> c ∈ calls ->
  cec_enabled ctx = true /\ exists b, call_event c = HotPlug b 1.
Proof.
  unfold on_cec_event. intros Hev Hc. destruct (DQEVENT d) as [[ret ev] d1].
  destruct (cec_enabled ctx); simpl in Hev; repeat case_decide; simplify_eq;
    try (by apply elem_of_nil in Hc); eauto using deliver_In.
Qed.

Lemma on_cec_message_calls ctx_en ctx_ctl ctx_cb d c calls d' :
  on_cec_message ctx_en ctx_ctl ctx_cb d = Some (calls, d') -> c ∈ calls ->
  exists ret msg m, RECEIVE (mkCecMsg 0 (replicate CEC_MAX_MSG_SIZE 0) 0 0) d = (ret, msg, d') /\
    ret = 0 /\ cm_rx_status msg = CEC_RX_STATUS_OK /\ cec_enabled ctx_en = true /\
    (cec_control_enabled ctx_ctl = true \/ is_transferable_in_sleep msg = Some true) /\
    decode_message msg = Some m /\ call_event c = CecMessage m.
Proof.
  unfold on_cec_message. intros Hmsg Hc.
  destruct (RECEIVE _ d) as [[ret msg] d1].
  case_decide; [by simplify_eq; apply elem_of_nil in Hc|].
  case_decide; [by simplify_eq; apply elem_of_nil in Hc|].
  destruct (cec_enabled ctx_en); simpl in Hmsg; [|by simplify_eq; apply elem_of_nil in Hc].
  apply bind_Some in Hmsg as (pass & Hpass & Hmsg).
  destruct pass; simpl in Hmsg; [|by simplify_eq; apply elem_of_nil in Hc].
  destruct (p_event_cb ctx_cb); [|by simplify_eq; apply elem_of_nil in Hc].
  apply bind_Some in Hmsg as (m & Hm & [= <- <-]).
  exists ret, msg, m. split_and!; eauto using deliver_In.
  all: try lia. destruct (cec_control_enabled ctx_ctl); auto.
Qed.

Lemma set_option_stays_disabled ctx flag value :
  ~ (flag = HDMI_OPTION_ENABLE_CEC /\ value = 1) -> cec_enabled ctx = false ->
  cec_enabled (hdmicec_set_option ctx flag value) = false.
Proof.
  intros Hno Hdis. unfold hdmicec_set_option. repeat case_decide; simpl; tauto.
Qed.

(** API calls other than enabling CEC. *)
Definition not_enabling (op : api_op) : Prop :=
  match op with
  | OpSetOption flag value => ~ (flag = HDMI_OPTION_ENABLE_CEC /\ value = 1)
  | _ => True
  end.

Lemma api_step_stays_disabled op ctx d :
  not_enabling op -> cec_enabled ctx = false -> cec_enabled (api_step op ctx d).1 = false.
Proof.
  intros Hop Hdis. destruct op; simpl in *; [by apply set_option_stays_disabled|done| |].
  - unfold hdmicec_get_port_info. by destruct (G_PHYS_ADDR _ d) as [[? ?] ?].
  - unfold hdmicec_is_connected. destruct (G_PHYS_ADDR _ d) as [[? ?] ?].
    by repeat case_decide.
Qed.

Lemma api_ctx_stays_disabled ctx ctx' :
  rtc (api_ctx_step not_enabling) ctx ctx' ->
  cec_enabled ctx = false -> cec_enabled ctx' = false.
Proof.
  apply (rtc_invariant _ (fun c => cec_enabled c = false)).
  intros ? ? []. by apply api_step_stays_disabled.
Qed.

(** Where the calls of an iteration come from. *)
Lemma event_iteration_calls ret r ctx_ev ctx_en ctx_ctl ctx_cb d go_on calls d' c :
  event_iteration ret r ctx_ev ctx_en ctx_ctl ctx_cb d = Some (go_on, calls, d') ->
  c ∈ calls ->
  (cec_enabled ctx_ev = true /\ exists b, call_event c = HotPlug b 1) \/
  (cec_enabled ctx_en = true /\ exists msg m, decode_message msg = Some m /\
     cm_rx_status msg = CEC_RX_STATUS_OK /\
     (cec_control_enabled ctx_ctl = true \/ is_transferable_in_sleep msg = Some true) /\
     call_event c = CecMessage m).
Proof.
  unfold event_iteration. intros Hit Hc.
  case_decide; [by simplify_eq; apply elem_of_nil in Hc|].
  case_decide; [by simplify_eq; apply elem_of_nil in Hc|].
  destruct (if decide _ then on_cec_event ctx_ev d else _) as [[calls1 go1] d1] eqn:Hev.
  assert (c ∈ calls1 -> cec_enabled ctx_ev = true /\ exists b, call_event c = HotPlug b 1) as Hc1.
  { intros Hin. destruct (decide (rev_err r = POLLERR)); [by eapply on_cec_event_calls|by simplify_eq; apply elem_of_nil in Hin]. }
  destruct go1; simpl in Hit; [|simplify_eq; auto].
  case_decide; [|simplify_eq; auto].
  apply bind_Some in Hit as ([calls2 d2] & Hmsg & [= <- <- <-]).
  apply elem_of_app in Hc as [Hc|Hc]; [auto|right].
  destruct (on_cec_message_calls _ _ _ _ c _ _ Hmsg Hc) 
    as (ret' & msg & m & _ & _ & Hrx & Hen & Hctl & Hdec & Heq). eauto 10.
Qed.

Lemma event_iteration_disabled ret r ctx_ev ctx_en ctx_ctl ctx_cb d go_on calls d' :
  event_iteration ret r ctx_ev ctx_en ctx_ctl ctx_cb d = Some (go_on, calls, d') ->
  cec_enabled ctx_ev = false -> cec_enabled ctx_en = false -> calls = [].
Proof.
  intros Hit Hev Hen. destruct calls as [|c calls]; [done|].
  destruct (event_iteration_calls _ _ _ _ _ _ _ _ _ _ c Hit) as [[? _]|[? _]];
    [apply list_elem_of_here|congruence..].
Qed.

Lemma encode_message_Some msg :
  is_Some (encode_message msg) <->
  (1 + Z.to_nat (length_ msg) <= CEC_MAX_MSG_SIZE)%nat /\
  (Z.to_nat (length_ msg) <= length (body msg))%nat.
Proof.
  unfold encode_message. split.
  - intros [f Hf]. apply bind_Some in Hf as (f0 & Hf0 & (f1 & Hf1 & _)%bind_Some).
    apply arr_set_length in Hf0. unfold arr_copy in Hf1. case_decide as Hlen; [|done].
    rewrite Hf0, length_replicate in Hlen. done.
  - intros [H1 H2].
    destruct (proj2 (arr_set_is_Some (replicate CEC_MAX_MSG_SIZE 0) 0
                (wrap_u 8 (Z.lor (Z.shiftl (initiator msg) 4) (destination msg))))) as [f0 Hf0].
    { rewrite length_replicate. lia. }
    rewrite Hf0. simpl. apply arr_set_length in Hf0. rewrite length_replicate in Hf0.
    unfold arr_copy. rewrite decide_True by (rewrite Hf0; done). simpl. eauto.
Qed.

(** The frame of a message that fits: header byte, body, zero padding. *)
Lemma encode_message_frame msg n :
  length_ msg = Z.of_nat n -> (1 + n <= CEC_MAX_MSG_SIZE)%nat -> (n <= length (body msg))%nat ->
  encode_message msg = Some (mkCecMsg (wrap_u 32 (Z.of_nat n + 1))
    (wrap_u 8 (Z.lor (Z.shiftl (initiator msg) 4) (destination msg))
       :: take n (body msg) ++ replicate (CEC_MAX_MSG_SIZE - 1 - n) 0) 0 0).
Proof.
  intros Hn Hfit Hbody. unfold encode_message. rewrite Hn, Nat2Z.id.
  destruct CEC_MAX_MSG_SIZE as [|N]; [lia|].
  unfold arr_set. rewrite decide_True by (rewrite length_replicate; lia).
  simpl. unfold arr_copy. rewrite decide_True.
  2: { simpl. rewrite length_replicate. lia. }
  simpl. rewrite drop_replicate, Nat.sub_0_r. done.
Qed.

(** The header packs the two 4-bit addresses, and unpacks to them. *)
Lemma header_unpack i dst :
  in_u 4 i -> in_u 4 dst ->
  let h := wrap_u 8 (Z.lor (Z.shiftl i 4) dst) in Z.shiftr h 4 = i /\ Z.land h 0xf = dst.
Proof.
  unfold in_u. intros Hi Hd. cbv zeta.
  rewrite wrap_u_id.
  - split; [by apply packed_high|]. change 0xf with (Z.ones 4). by apply packed_low.
  - unfold in_u. rewrite lor_shiftl_add by lia. lia.
Qed.

(** The frames that may pass in standby: by their opcode, or as one of the three
    power keys of the remote control. *)
Definition may_wake (frame : list Z) : Prop :=
  exists b, frame !! 1%nat = Some b /\
    (wrap_u 8 b ∈ transferable_opcodes \/
     wrap_u 8 b = CEC_MESSAGE_USER_CONTROL_PRESSED /\
     exists k, frame !! 2%nat = Some k /\
       wrap_u 8 k ∈ [CEC_OP_UI_CMD_POWER; CEC_OP_UI_CMD_DEVICE_ROOT_MENU;
                     CEC_OP_UI_CMD_POWER_ON_FUNCTION]).

Lemma land_byte b : Z.land (wrap_u 8 b) 0xff = wrap_u 8 b.
Proof.
  change 0xff with (Z.ones 8). rewrite Z.land_ones by lia. apply Z.mod_small, wrap_u_range. lia.
Qed.

Lemma is_transferable_may_wake msg : is_transferable_in_sleep msg = Some true -> may_wake (cm_msg msg).
Proof.
  unfold is_transferable_in_sleep, get_opcode, is_power_ui_command, get_first_param.
  change 1 with (Z.of_nat 1). change 2 with (Z.of_nat 2). rewrite !arr_get_nat.
  destruct (cm_msg msg !! 1%nat) as [b|] eqn:Hb; [|done]. cbn [mbind option_bind].
  rewrite land_byte. intros Ht. exists b. split; [done|].
  case_decide; [by left|]. case_decide; [|done]. right. split; [done|].
  destruct (cm_msg msg !! 2%nat) as [k|] eqn:Hk; [|done]. cbn [mbind option_bind] in Ht.
  rewrite land_byte in Ht. exists k. split; [done|]. injection Ht as Ht.
  by apply bool_decide_eq_true in Ht.
Qed.

(** ** Properties *)

(** C24: in standby (CEC enabled, system control disabled) the event thread hands a
    message to the framework only if its opcode is one of those that may wake
    the device, or a power key of the remote control; and no message at all is delivered while CEC is disabled.
    The statement holds whatever the API functions do to the context between
    the thread's reads. *)
Theorem cec_standby_filter ret r (ctx_ev ctx_en ctx_ctl ctx_cb : hdmicec_context) (d d' : D)
    go_on calls c m :
  event_iteration ret r ctx_ev ctx_en ctx_ctl ctx_cb d = Some (go_on, calls, d') ->
  c ∈ calls -> call_event c = CecMessage m ->
  cec_enabled ctx_en = true /\
  exists msg, decode_message msg = Some m /\ cm_rx_status msg = CEC_RX_STATUS_OK /\
    (cec_control_enabled ctx_ctl = true \/ may_wake (cm_msg msg)).
Proof.
  intros Hit Hc Hm.
  destruct (event_iteration_calls _ _ _ _ _ _ _ _ _ _ c Hit Hc)
    as [(_ & b & Hb)|(Hen & msg & m' & ? & ? & ? & Heq)]; [congruence|].
  rewrite Heq in Hm. simplify_eq. split; [done|]. exists msg. split_and!; [done..|].
  intuition auto using is_transferable_may_wake.
Qed.

(** Once CEC is disabled, whatever sequence of API calls and thread
    iterations follows, no callback is called until CEC is enabled again. *)
Lemma cec_disabled_silent (s s' : cec_sys) :
  rtc (cec_step not_enabling) s s' -> cec_enabled (sys_ctx s) = false ->
  cec_enabled (sys_ctx s') = false /\ sys_calls s' = sys_calls s.
Proof.
  intros Hrun Hdis.
  apply (rtc_invariant (cec_step not_enabling)
    (fun s' => cec_enabled (sys_ctx s') = false /\ sys_calls s' = sys_calls s)
    ) with (s' := s') in Hrun; [done| |done].
  intros ? ? [op ctx d calls Hop|ret r cev cen cctl ccb ctx' ctx d calls go calls' d2
    R1 R2 R3 R4 R5 Hit]; simpl; intros [Hd <-].
  - split; [by apply api_step_stays_disabled|done].
  - pose proof (api_ctx_stays_disabled _ _ R1 Hd) as D1.
    pose proof (api_ctx_stays_disabled _ _ R2 D1) as D2.
    pose proof (api_ctx_stays_disabled _ _ R3 D2) as D3.
    pose proof (api_ctx_stays_disabled _ _ R4 D3) as D4.
    split; [by apply (api_ctx_stays_disabled _ _ R5)|].
    rewrite (event_iteration_disabled _ _ _ _ _ _ _ _ _ _ Hit D1 D2). apply app_nil_r.
Qed.

(** A message whose body fits the frame survives the trip: the frame that
    [hdmicec_send_message] hands to the driver decodes, in a peer's event
    thread, to the same initiator, destination, length and body. *)
Lemma cec_message_roundtrip (msg : cec_message_t) (n : nat) :
  in_u 4 (initiator msg) -> in_u 4 (destination msg) ->
  length_ msg = Z.of_nat n -> (n <= length (body msg))%nat ->
  (1 + n <= CEC_MAX_MSG_SIZE)%nat -> (n <= CEC_MESSAGE_BODY_MAX_LENGTH)%nat ->
  Z.of_nat n < 2 ^ 32 - 1 ->
  exists frame m, encode_message msg = Some frame /\ decode_message frame = Some m /\
    initiator m = initiator msg /\ destination m = destination msg /\
    length_ m = length_ msg /\ take n (body m) = take n (body msg).
Proof.
  intros Hi Hd Hn Hb Hfit Hmax Hu.
  rewrite (encode_message_frame msg n) by done. eexists _, _. split; [done|].
  destruct (header_unpack _ _ Hi Hd) as [Hhi Hlo].
  unfold decode_message. simpl. rewrite wrap_u_id by (unfold in_u; lia).
  replace (Z.of_nat n + 1 - 1) with (Z.of_nat n) by lia.
  rewrite decide_True by lia. unfold arr_copy. rewrite decide_True.
  2: { simpl. rewrite drop_0, length_app, length_take, !length_replicate. lia. }
  simpl. rewrite Nat2Z.id. split; [done|]. simpl. split_and!; [done|done|done|].
  rewrite drop_0, take_app_le, take_take by (rewrite !length_take, length_app, length_take; lia).
  rewrite Nat.min_id, take_app_le, take_take by (rewrite length_take; lia).
  by rewrite Nat.min_id.
Qed.

Lemma tx_result_success tx_status :
  NoDup [HDMI_RESULT_SUCCESS; HDMI_RESULT_NACK; HDMI_RESULT_BUSY; HDMI_RESULT_FAIL] ->
  tx_result tx_status = HDMI_RESULT_SUCCESS <-> tx_status = CEC_TX_STATUS_OK.
Proof.
  intros [Hs _]%NoDup_cons. unfold tx_result.
  repeat case_decide; split; intros; try done; exfalso; apply Hs; rewrite !elem_of_cons; auto.
Qed.

(** [hdmicec_send_message] on every branch: with CEC disabled it fails
    without touching the driver; with a body that does not fit the frame it
    writes out of bounds; otherwise it transmits the encoded frame once, and
    reports success exactly when the [ioctl] succeeds with status OK, and NACK
    whenever the status has the NACK bit and is neither OK nor ARB_LOST. *)
Lemma send_message_spec (ctx : hdmicec_context) (msg : cec_message_t) (d : D) :
  NoDup [HDMI_RESULT_SUCCESS; HDMI_RESULT_NACK; HDMI_RESULT_BUSY; HDMI_RESULT_FAIL] ->
  match cec_enabled ctx, encode_message msg with
  | false, _ => hdmicec_send_message ctx msg d = Some (HDMI_RESULT_FAIL, d)
  | true, None => hdmicec_send_message ctx msg d = None /\
      ((CEC_MAX_MSG_SIZE < 1 + Z.to_nat (length_ msg))%nat \/
       (length (body msg) < Z.to_nat (length_ msg))%nat)
  | true, Some frame =>
      let '(ret, sent, d') := TRANSMIT frame d in
      let status := cm_tx_status sent in
      exists res, hdmicec_send_message ctx msg d = Some (res, d') /\
        (res = HDMI_RESULT_SUCCESS <-> ret = 0 /\ status = CEC_TX_STATUS_OK) /\
        (ret = 0 -> status <> CEC_TX_STATUS_OK -> status <> CEC_TX_STATUS_ARB_LOST ->
         Z.land status CEC_TX_STATUS_NACK <> 0 -> res = HDMI_RESULT_NACK)
  end.
Proof.
  intros Hnd. unfold hdmicec_send_message. destruct (cec_enabled ctx); simpl; [|done].
  pose proof (encode_message_Some msg) as Henc.
  destruct (encode_message msg) as [frame|]; simpl.
  - destruct (TRANSMIT frame d) as [[ret sent] d'].
    destruct (decide (ret <> 0)); eexists; (split; [done|]).
    + split; [|lia]. split; [|lia]. intros Heq. apply NoDup_cons in Hnd as [Hs _]. destruct Hs.
      rewrite !elem_of_cons. auto.
    + rewrite tx_result_success by done. split; [split; [lia|tauto]|].
      intros _ Hok Harb Hnack. unfold tx_result. by repeat case_decide.
  - split; [done|]. destruct Henc as [_ Henc].
    destruct (decide (1 + Z.to_nat (length_ msg) <= CEC_MAX_MSG_SIZE)%nat); [|lia].
    destruct (decide (Z.to_nat (length_ msg) <= length (body msg))%nat); [|lia].
    by destruct Henc as [? ?]; [done|].
Qed.

Lemma cec_init_fds props ctx d :
  let ctx' := (cec_init props ctx d).1.2 in
  cec_fd ctx' = cec_fd ctx /\ exit_fd ctx' = exit_fd ctx.
Proof.
  unfold cec_init.
  destruct (G_CAPS d) as [[ret caps] d1]. case_decide; [done|]. case_decide; [done|].
  destruct (G_PHYS_ADDR _ d1) as [[? ?] d2]. destruct (S_PHYS_ADDR _ d2) as [r3 d3].
  destruct (decide (Z.land caps CEC_CAP_PHYS_ADDR <> 0)).
  - destruct (decide (r3 < 0)); [done|]. destruct (S_MODE _ d3) as [r4 d4].
    case_decide; [done|]. by destruct (S_LOG_ADDRS _ d4).
  - destruct (S_MODE _ d1) as [r4 d4].
    case_decide; [done|]. by destruct (S_LOG_ADDRS _ d4).
Qed.

Lemma close_actions ctx :
  FreeCtx ∈ hdmicec_close ctx /\ ThreadCreate ∉ hdmicec_close ctx /\
  OpenEventfd ∉ hdmicec_close ctx /\
  (0 < cec_fd ctx -> CloseCec ∈ hdmicec_close ctx) /\
  (0 < exit_fd ctx -> CloseExit ∈ hdmicec_close ctx /\ ThreadJoin ∈ hdmicec_close ctx).
Proof.
  unfold hdmicec_close.
  destruct (decide (0 < exit_fd ctx)), (decide (0 < cec_fd ctx)); simpl;
    rewrite !elem_of_cons, ?elem_of_nil; intuition congruence.
Qed.

(** When [open_hdmi_cec] fails it releases what it acquired: the context
    is freed and every positive descriptor it opened is closed.  But it joins
    the event thread whenever the event descriptor exists, so a failure of
    [cec_init] joins a thread that was never created. *)
Lemma open_failure_cleanup (props : properties) (env : open_env) (pa : Z) (d d' : D)
    ret dev acts :
  open_hdmi_cec props env pa d = (ret, dev, d', acts) -> ret <> 0 -> oe_malloc env = true ->
  FreeCtx ∈ acts /\
  (0 < oe_cec_fd env -> CloseCec ∈ acts) /\
  (OpenEventfd ∈ acts -> 0 < oe_exit_fd env -> CloseExit ∈ acts) /\
  ((cec_init props (fresh_ctx (oe_cec_fd env) (oe_exit_fd env) pa) d).1.1 <> 0 ->
   0 <= oe_cec_fd env -> 0 < oe_exit_fd env -> ThreadJoin ∈ acts /\ ThreadCreate ∉ acts).
Proof.
  pose proof (cec_init_fds props (fresh_ctx (oe_cec_fd env) (oe_exit_fd env) pa) d) as Hfd.
  unfold open_hdmi_cec. intros Hopen Hret Hm. rewrite Hm in Hopen. simpl in Hopen.
  destruct (cec_init _ _ d) as [[ret1 ctx1] d1]. simpl in *. destruct Hfd as [Hc Hx].
  destruct (decide (oe_cec_fd env < 0)).
  { injection Hopen as <- <- <- <-.
    destruct (close_actions (fresh_ctx (oe_cec_fd env) 0 0)) as (? & ? & ? & ? & ?).
    rewrite !elem_of_cons. intuition (lia || congruence). }
  destruct (decide (oe_exit_fd env < 0)).
  { injection Hopen as <- <- <- <-.
    destruct (close_actions (fresh_ctx (oe_cec_fd env) (oe_exit_fd env) 0)) as (? & ? & ? & ? & ?).
    rewrite !elem_of_cons. intuition (lia || congruence). }
  destruct (close_actions ctx1) as (? & ? & ? & ? & ?). rewrite Hc, Hx in *.
  destruct (decide (ret1 <> 0)); [|destruct (decide (oe_thread env <> 0))];
    injection Hopen as <- <- <- <-; [| |lia];
    rewrite !elem_of_cons; intuition (lia || congruence).
Qed.

End Cec.

(** ** Witnesses *)

(** The values of <linux/cec.h> and <hardware/hdmi_cec.h>. *)
Definition linux_cec_abi : CecAbi := {|
  CEC_ADDR_BROADCAST := 15; CEC_ADDR_UNREGISTERED := 15;
  CEC_ADDR_RESERVED_1 := 12; CEC_ADDR_RESERVED_2 := 13;
  CEC_LOG_ADDR_TV := 0;
  CEC_LOG_ADDR_RECORD_1 := 1; CEC_LOG_ADDR_RECORD_2 := 2; CEC_LOG_ADDR_RECORD_3 := 9;
  CEC_LOG_ADDR_TUNER_1 := 3; CEC_LOG_ADDR_TUNER_2 := 6; CEC_LOG_ADDR_TUNER_3 := 7;
  CEC_LOG_ADDR_TUNER_4 := 10;
  CEC_LOG_ADDR_PLAYBACK_1 := 4; CEC_LOG_ADDR_PLAYBACK_2 := 8; CEC_LOG_ADDR_PLAYBACK_3 := 11;
  CEC_LOG_ADDR_AUDIOSYSTEM := 5; CEC_LOG_ADDR_SPECIFIC := 14;
  CEC_LOG_ADDR_TYPE_UNREGISTERED := 6; CEC_LOG_ADDR_TYPE_TV := 0;
  CEC_LOG_ADDR_TYPE_RECORD := 1; CEC_LOG_ADDR_TYPE_TUNER := 2;
  CEC_LOG_ADDR_TYPE_PLAYBACK := 3; CEC_LOG_ADDR_TYPE_AUDIOSYSTEM := 4;
  CEC_LOG_ADDR_TYPE_SPECIFIC := 5;
  CEC_OP_PRIM_DEVTYPE_TV := 0; CEC_OP_PRIM_DEVTYPE_RECORD := 1; CEC_OP_PRIM_DEVTYPE_TUNER := 3;
  CEC_OP_PRIM_DEVTYPE_PLAYBACK := 4; CEC_OP_PRIM_DEVTYPE_AUDIOSYSTEM := 5;
  CEC_OP_PRIM_DEVTYPE_PROCESSOR := 7;
  CEC_OP_ALL_DEVTYPE_TV := 0x80; CEC_OP_ALL_DEVTYPE_RECORD := 0x40;
  CEC_OP_ALL_DEVTYPE_TUNER := 0x20; CEC_OP_ALL_DEVTYPE_PLAYBACK := 0x10;
  CEC_OP_ALL_DEVTYPE_AUDIOSYSTEM := 0x08; CEC_OP_ALL_DEVTYPE_SWITCH := 0x04;
  CEC_LOG_ADDRS_FL_ALLOW_RC_PASSTHRU := 2; CEC_LOG_ADDRS_FL_ALLOW_UNREG_FALLBACK := 1;
  CEC_TX_STATUS_OK := 1; CEC_TX_STATUS_ARB_LOST := 2; CEC_TX_STATUS_NACK := 4;
  CEC_RX_STATUS_OK := 1;
  CEC_PHYS_ADDR_INVALID := 0xffff; CEC_EVENT_STATE_CHANGE := 1;
  CEC_CAP_LOG_ADDRS := 2; CEC_CAP_TRANSMIT := 4; CEC_CAP_PASSTHROUGH := 8; CEC_CAP_PHYS_ADDR := 1;
  CEC_MODE_INITIATOR := 1; CEC_MODE_EXCL_FOLLOWER_PASSTHRU := 0xe0;
  CEC_OP_CEC_VERSION_1_4 := 5;
  CEC_OP_UI_CMD_POWER := 0x40; CEC_OP_UI_CMD_DEVICE_ROOT_MENU := 0x09;
  CEC_OP_UI_CMD_POWER_ON_FUNCTION := 0x6d;
  CEC_MESSAGE_ABORT := 0xff; CEC_MESSAGE_DEVICE_VENDOR_ID := 0x87;
  CEC_MESSAGE_GET_CEC_VERSION := 0x9f;
  CEC_MESSAGE_GET_MENU_LANGUAGE := 0x91; CEC_MESSAGE_GIVE_DEVICE_POWER_STATUS := 0x8f;
  CEC_MESSAGE_GIVE_DEVICE_VENDOR_ID := 0x8c; CEC_MESSAGE_GIVE_OSD_NAME := 0x46;
  CEC_MESSAGE_GIVE_PHYSICAL_ADDRESS := 0x83; CEC_MESSAGE_REPORT_PHYSICAL_ADDRESS := 0x84;
  CEC_MESSAGE_REPORT_POWER_STATUS := 0x90; CEC_MESSAGE_SET_OSD_NAME := 0x47;
  CEC_MESSAGE_DECK_CONTROL := 0x42; CEC_MESSAGE_PLAY := 0x41;
  CEC_MESSAGE_USER_CONTROL_PRESSED := 0x44;
  CEC_DEVICE_TV := 0; CEC_DEVICE_PLAYBACK := 4; HDMI_INPUT := 0; HDMI_OUTPUT := 1;
  HDMI_RESULT_SUCCESS := 0; HDMI_RESULT_NACK := 1; HDMI_RESULT_BUSY := 2; HDMI_RESULT_FAIL := 3;
  HDMI_OPTION_WAKEUP := 1; HDMI_OPTION_ENABLE_CEC := 2; HDMI_OPTION_SYSTEM_CEC_CONTROL := 3;
  CEC_MESSAGE_BODY_MAX_LENGTH := 16; CEC_MAX_MSG_SIZE := 16; POLLIN := 1; POLLERR := 8
|}.

(** A driver that receives one frame over and over: <Give Physical Address>
    from the TV (0) to playback device 4; its capabilities lack everything. *)
Definition demo_frame : cec_msg := mkCecMsg 2 ([0x04; 0x83] ++ replicate 14 0) 0 1.

Definition demo_driver : CecDriver unit := {|
  G_LOG_ADDRS d := (0, d); S_LOG_ADDRS _ d := (0, d); G_PHYS_ADDR _ d := (0, 0x1000, d);
  S_PHYS_ADDR _ d := (0, d);
  TRANSMIT m d := (0, mkCecMsg (cm_len m) (cm_msg m) 1 (cm_rx_status m), d);
  RECEIVE _ d := (0, demo_frame, d); DQEVENT d := (0, mkCecEvent 1 0xffff, d);
  G_CAPS d := (0, 0, d); S_MODE _ d := (0, d)
|}.

Definition standby_ctx : hdmicec_context :=
  mkCtx 3 0 4 5 0x1000 (mkPort 1 1 1 0 0x1000) (Some 7%nat) 9%nat 4 true false true.

Definition disabled_ctx : hdmicec_context := set_flags standby_ctx false false.

Section CecWitnesses.
#[local] Existing Instance linux_cec_abi.
#[local] Existing Instance demo_driver.

Lemma cec_standby_filter_witness :
  cec_enabled standby_ctx = true /\
  exists msg, decode_message msg = Some (mkMessage 0 4 1 (0x83 :: replicate 15 0)) /\
    cm_rx_status msg = CEC_RX_STATUS_OK /\
    (cec_control_enabled standby_ctx = true \/ may_wake (cm_msg msg)).
Proof.
  apply (cec_standby_filter 1 (mkRevents 1 0 0) standby_ctx standby_ctx standby_ctx standby_ctx
    tt tt true [mkCall 7 9 (CecMessage (mkMessage 0 4 1 (0x83 :: replicate 15 0)))]
    (mkCall 7 9 (CecMessage (mkMessage 0 4 1 (0x83 :: replicate 15 0)))));
    [vm_compute; reflexivity | left | reflexivity].
Defined.
End CecWitnesses.
