(* ===== verification/VehicleTypes.v ===== *)
(** * Vehicle HAL data and vehicle/common/src/VehicleUtils.cpp

    The HIDL types of android.hardware.automotive.vehicle@2.0 are generated
    from .hal files that are not under src/: their records carry the fields the
    source reads and writes, and the numeric values of their enumerators are
    the fields of the class [VehicleAbi].  What the generated code and the
    documentation guarantee of those values is the class [VehicleAbiLaws];
    [aosp_abi] is the instance the witnesses use.

    A [hidl_vec] is a list; [hidl_resize] keeps the old cells and fills the new
    ones with the element a fresh vector holds ([new_int32], ...).  The scalar
    members of a structure allocated with [new VehiclePropValue] are
    indeterminate: functions that allocate take the contents of the memory as
    an argument. *)

From S2P Require Import Prelude.

(** ** Enumerators *)

Class VehicleAbi := {
  (* VehiclePropertyType *)
  T_STRING : Z; T_BOOLEAN : Z; T_INT32 : Z; T_INT32_VEC : Z; T_INT64 : Z; T_INT64_VEC : Z;
  T_FLOAT : Z; T_FLOAT_VEC : Z; T_BYTES : Z; T_MIXED : Z; T_MASK : Z;
  (* VehiclePropertyGroup, VehicleArea *)
  G_SYSTEM : Z; G_MASK : Z; A_GLOBAL : Z; A_MASK : Z;
  (* SubscribeFlags *)
  F_UNDEFINED : Z; F_EVENTS_FROM_CAR : Z; F_EVENTS_FROM_ANDROID : Z;
  (* VehiclePropertyChangeMode, VehiclePropertyAccess *)
  C_STATIC : Z; C_ON_CHANGE : Z; P_READ : Z; P_WRITE : Z;
  (* VehicleProperty::INVALID, VehiclePropertyStatus::AVAILABLE *)
  PROP_INVALID : Z; S_AVAILABLE : Z;
  (* elements of a freshly resized hidl_vec *)
  new_int32 : Z; new_int64 : Z; new_float : spec_float; new_byte : Z
}.

(** The types the [switch]es and [==] chains of the source tell apart. *)
Definition value_types `{VehicleAbi} : list Z :=
  [T_INT32; T_INT32_VEC; T_BOOLEAN; T_FLOAT; T_FLOAT_VEC; T_INT64; T_INT64_VEC; T_BYTES;
   T_STRING; T_MIXED].

Class VehicleAbiLaws `{VehicleAbi} : Prop := {
  (* case labels of one switch are distinct *)
  types_distinct : NoDup value_types;
  (* a type is a bit field above the vector size: VehiclePropertyType.MASK *)
  types_masked : Forall (fun t => Z.land t T_MASK = t) value_types;
  mask_above_16_bits : Z.land T_MASK (Z.ones 16) = 0;
  mask_nonneg : 0 <= T_MASK
}.

(** Enumerators the implementation of the vehicle (vehicle/impl) names: a
    parameter gives the value of each, by the name the source writes. *)
Class Enumerators := enum : string -> Z.

Definition VP `{Enumerators} (n : string) : Z := enum ("VehicleProperty::" +:+ n).

(** The enumerators of [VehicleProperty] that vehicle/impl names. *)
Definition property_names : list string :=
  ["ABS_ACTIVE"; "AP_POWER_STATE_REQ"; "AP_POWER_STATE_REPORT"; "OBD2_LIVE_FRAME";
   "OBD2_FREEZE_FRAME"; "OBD2_FREEZE_FRAME_INFO"; "OBD2_FREEZE_FRAME_CLEAR";
   "TRACTION_CONTROL_ACTIVE"; "VEHICLE_MAP_SERVICE"; "WHEEL_TICK"; "HVAC_FAN_SPEED";
   "HVAC_FAN_DIRECTION"; "INFO_FUEL_CAPACITY"; "INFO_FUEL_TYPE"; "INFO_EV_BATTERY_CAPACITY";
   "INFO_EV_CONNECTOR_TYPE"; "INFO_DRIVER_SEAT"; "INFO_FUEL_DOOR_LOCATION";
   "INFO_EV_PORT_LOCATION"; "INFO_MULTI_EV_PORT_LOCATIONS"; "INFO_MAKE";
   "INFO_EXTERIOR_DIMENSIONS"; "PERF_VEHICLE_SPEED"; "VEHICLE_SPEED_DISPLAY_UNITS";
   "PERF_ODOMETER"; "PERF_STEERING_ANGLE"; "PERF_REAR_STEERING_ANGLE"; "ENGINE_RPM";
   "FUEL_LEVEL"; "FUEL_DOOR_OPEN"; "EV_BATTERY_LEVEL"; "EV_CHARGE_PORT_OPEN";
   "EV_CHARGE_PORT_CONNECTED"; "EV_BATTERY_INSTANTANEOUS_CHARGE_RATE"; "RANGE_REMAINING";
   "TIRE_PRESSURE"; "TIRE_PRESSURE_DISPLAY_UNITS"; "CURRENT_GEAR"; "PARKING_BRAKE_ON";
   "FUEL_LEVEL_LOW"; "HW_KEY_INPUT"; "HW_ROTARY_INPUT"; "HVAC_POWER_ON"; "HVAC_DEFROSTER";
   "HVAC_ELECTRIC_DEFROSTER_ON"; "HVAC_MAX_DEFROST_ON"; "HVAC_RECIRC_ON"; "HVAC_AUTO_RECIRC_ON";
   "HVAC_AC_ON"; "HVAC_MAX_AC_ON"; "HVAC_AUTO_ON"; "HVAC_DUAL_ON";
   "HVAC_FAN_DIRECTION_AVAILABLE"; "HVAC_SEAT_VENTILATION"; "HVAC_STEERING_WHEEL_HEAT";
   "HVAC_SEAT_TEMPERATURE"; "HVAC_TEMPERATURE_SET"; "ENV_OUTSIDE_TEMPERATURE";
   "HVAC_TEMPERATURE_DISPLAY_UNITS"; "DISTANCE_DISPLAY_UNITS"; "NIGHT_MODE"; "GEAR_SELECTION";
   "TURN_SIGNAL_STATE"; "IGNITION_STATE"; "ENGINE_OIL_LEVEL"; "ENGINE_OIL_TEMP"; "DOOR_LOCK";
   "DOOR_POS"; "WINDOW_LOCK"; "WINDOW_POS"; "DISPLAY_BRIGHTNESS"; "HEADLIGHTS_STATE";
   "HIGH_BEAM_LIGHTS_STATE"; "FOG_LIGHTS_STATE"; "HAZARD_LIGHTS_STATE"; "HEADLIGHTS_SWITCH";
   "HIGH_BEAM_LIGHTS_SWITCH"; "FOG_LIGHTS_SWITCH"; "HAZARD_LIGHTS_SWITCH";
   "SUPPORT_CUSTOMIZE_VENDOR_PERMISSION"; "INITIAL_USER_INFO"; "SWITCH_USER"; "CREATE_USER";
   "REMOVE_USER"; "USER_IDENTIFICATION_ASSOCIATION"].

(** Properties are distinct, and [VehiclePropertyStatus::AVAILABLE] is 0. *)
Class EnumeratorLaws `{VehicleAbi, Enumerators} : Prop := {
  properties_distinct : NoDup (VP <$> property_names);
  available_zero : S_AVAILABLE = 0
}.

(** [StatusCode], with the enumerators the source names. *)
Inductive StatusCode :=
  | OK | TRY_AGAIN | INVALID_ARG | NOT_AVAILABLE | ACCESS_DENIED | INTERNAL_ERROR.

#[global] Instance StatusCode_eq_dec : EqDecision StatusCode.
Proof. solve_decision. Defined.

(** ** Property values *)

Record RawValue := mkRaw {
  int32Values : list Z; floatValues : list spec_float; int64Values : list Z;
  bytes : list Z; stringValue : string
}.

Record VehiclePropValue := mkValue {
  timestamp : Z; areaId : Z; prop : Z; status : Z; value : RawValue
}.

#[global] Instance RawValue_eq_dec : EqDecision RawValue.
Proof. solve_decision. Defined.

#[global] Instance VehiclePropValue_eq_dec : EqDecision VehiclePropValue.
Proof. solve_decision. Defined.

Record VehicleAreaConfig := mkArea {
  ac_areaId : Z; ac_minInt32Value : Z; ac_maxInt32Value : Z;
  ac_minInt64Value : Z; ac_maxInt64Value : Z; ac_minFloatValue : spec_float; ac_maxFloatValue : spec_float
}.

Record VehiclePropConfig := mkPropConfig {
  cfg_prop : Z; cfg_access : Z; cfg_changeMode : Z; cfg_areaConfigs : list VehicleAreaConfig;
  cfg_configArray : list Z; cfg_configString : string;
  cfg_minSampleRate : spec_float; cfg_maxSampleRate : spec_float
}.

(** A configuration without a string. *)
Definition mkConfig (p access mode : Z) (areas : list VehicleAreaConfig) (arr : list Z)
    (min max : spec_float) : VehiclePropConfig :=
  mkPropConfig p access mode areas arr EmptyString min max.

Record SubscribeOptions := mkOpts { propId : Z; sampleRate : spec_float; flags : Z }.

Definition empty_raw : RawValue := mkRaw [] [] [] [] EmptyString.

(** [kEmptyValue{}]: every member value-initialised. *)
Definition kEmptyValue : VehiclePropValue := mkValue 0 0 0 0 empty_raw.

(** [new VehiclePropValue]: the vectors are empty, the scalars are whatever
    the memory [junk] held. *)
Definition new_value (junk : VehiclePropValue) : VehiclePropValue :=
  mkValue (timestamp junk) (areaId junk) (prop junk) (status junk) empty_raw.

Definition hidl_resize {A} (fresh : A) (n : nat) (l : list A) : list A :=
  take n l ++ replicate (n - length l) fresh.

Definition set_int32Values (v : VehiclePropValue) (l : list Z) : VehiclePropValue :=
  mkValue (timestamp v) (areaId v) (prop v) (status v)
    (mkRaw l (floatValues (value v)) (int64Values (value v)) (bytes (value v))
       (stringValue (value v))).

Section VehicleUtils.
Context `{VehicleAbi}.

(** ** Property identifiers *)

Definition getPropType (p : Z) : Z := Z.land p T_MASK.
Definition getPropGroup (p : Z) : Z := Z.land p G_MASK.
Definition getPropArea (p : Z) : Z := Z.land p A_MASK.
Definition isGlobalProp (p : Z) : bool := bool_decide (getPropArea p = A_GLOBAL).
Definition isSystemProperty (p : Z) : bool := bool_decide (G_SYSTEM = getPropGroup p).

(** ** Values of a type *)

Definition is_int32_type (t : Z) : bool := bool_decide (t ∈ [T_INT32; T_INT32_VEC; T_BOOLEAN]).
Definition is_float_type (t : Z) : bool := bool_decide (t ∈ [T_FLOAT; T_FLOAT_VEC]).
Definition is_int64_type (t : Z) : bool := bool_decide (t ∈ [T_INT64; T_INT64_VEC]).

(** [None] is the null pointer. *)
Definition createVehiclePropValue (junk : VehiclePropValue) (type : Z) (vecSize : nat)
    : option VehiclePropValue :=
  let v := new_value junk in
  let with_raw r := mkValue (timestamp v) (areaId v) (prop v) (status v) r in
  if is_int32_type type then
    Some (with_raw (mkRaw (hidl_resize new_int32 vecSize []) [] [] [] EmptyString))
  else if is_float_type type then
    Some (with_raw (mkRaw [] (hidl_resize new_float vecSize []) [] [] EmptyString))
  else if is_int64_type type then
    Some (with_raw (mkRaw [] [] (hidl_resize new_int64 vecSize []) [] EmptyString))
  else if bool_decide (type = T_BYTES) then
    Some (with_raw (mkRaw [] [] [] (hidl_resize new_byte vecSize []) EmptyString))
  else if bool_decide (type ∈ [T_STRING; T_MIXED]) then Some v
  else None.

Definition getVehicleRawValueVectorSize (v : RawValue) (type : Z) : nat :=
  if is_int32_type type then length (int32Values v)
  else if is_float_type type then length (floatValues v)
  else if is_int64_type type then length (int64Values v)
  else if bool_decide (type = T_BYTES) then length (bytes v)
  else 0%nat.

Definition copyVehicleRawValue (dest src : RawValue) : RawValue :=
  mkRaw (int32Values src) (floatValues src) (int64Values src) (bytes src) (stringValue src).

(** [shallowCopyHidlVec]: an empty source empties the destination; otherwise
    the destination aliases the source's buffer. *)
Definition shallowCopyHidlVec {A} (fresh : A) (dest src : list A) : list A :=
  if (0 <? length src)%nat then src
  else if (0 <? length dest)%nat then hidl_resize fresh 0 dest
  else dest.

Definition shallowCopyHidlStr (dest src : string) : string :=
  if String.eqb src EmptyString then EmptyString else src.

Definition shallowCopy (dest src : VehiclePropValue) : VehiclePropValue :=
  mkValue (timestamp src) (areaId src) (prop src) (status src)
    (mkRaw
       (shallowCopyHidlVec new_int32 (int32Values (value dest)) (int32Values (value src)))
       (shallowCopyHidlVec new_float (floatValues (value dest)) (floatValues (value src)))
       (shallowCopyHidlVec new_int64 (int64Values (value dest)) (int64Values (value src)))
       (shallowCopyHidlVec new_byte (bytes (value dest)) (bytes (value src)))
       (shallowCopyHidlStr (stringValue (value dest)) (stringValue (value src)))).

(** ** Lemmas *)

Lemma length_hidl_resize {A} (x : A) n l : length (hidl_resize x n l) = n.
Proof. unfold hidl_resize. rewrite length_app, length_take, length_replicate. lia. Qed.

Lemma shallowCopyHidlVec_src {A} (x : A) dest src : shallowCopyHidlVec x dest src = src.
Proof. unfold shallowCopyHidlVec. by destruct src, dest. Qed.

Lemma shallowCopy_src dest src : shallowCopy dest src = src.
Proof.
  unfold shallowCopy, shallowCopyHidlStr. rewrite !shallowCopyHidlVec_src.
  destruct src as [? ? ? ? [? ? ? ? s]]; simpl. by destruct (String.eqb_spec s EmptyString) as [->|].
Qed.

(** A created value has exactly the vector size it was asked for. *)
Lemma createVehiclePropValue_size junk type n v :
  createVehiclePropValue junk type n = Some v -> type ∉ [T_STRING; T_MIXED] ->
  getVehicleRawValueVectorSize (value v) type = n.
Proof.
  unfold createVehiclePropValue, getVehicleRawValueVectorSize. intros Hc Hn.
  destruct (is_int32_type type); [simplify_eq; apply length_hidl_resize|].
  destruct (is_float_type type); [simplify_eq; apply length_hidl_resize|].
  destruct (is_int64_type type); [simplify_eq; apply length_hidl_resize|].
  destruct (bool_decide (type = T_BYTES)); [simplify_eq; apply length_hidl_resize|].
  rewrite bool_decide_eq_false_2 in Hc by done. done.
Qed.

Lemma createVehiclePropValue_Some junk type n :
  type ∈ value_types -> exists v, createVehiclePropValue junk type n = Some v.
Proof.
  intros Ht. unfold createVehiclePropValue, is_int32_type, is_float_type, is_int64_type.
  repeat (case_bool_decide; [by eauto|]). exfalso.
  unfold value_types in Ht. rewrite !elem_of_cons in *. rewrite ?elem_of_nil in *. tauto.
Qed.

End VehicleUtils.

Lemma VP_ne `{EnumeratorLaws} a b :
  a ∈ property_names -> b ∈ property_names -> a <> b -> VP a <> VP b.
Proof.
  intros (i & Ha)%list_elem_of_lookup_1 (j & Hb)%list_elem_of_lookup_1 Hne Heq. apply Hne.
  pose proof (NoDup_lookup (VP <$> property_names) i j (VP a) properties_distinct) as Hij.
  rewrite !list_lookup_fmap, Ha, Hb in Hij. cbn in Hij.
  assert (i = j) as -> by (apply Hij; [done|by rewrite Heq]). congruence.
Qed.

(** ** The values of the AOSP interface, for the witnesses *)

Definition aosp_abi : VehicleAbi := {|
  T_STRING := 0x00100000; T_BOOLEAN := 0x00200000; T_INT32 := 0x00400000;
  T_INT32_VEC := 0x00410000; T_INT64 := 0x00500000; T_INT64_VEC := 0x00510000;
  T_FLOAT := 0x00600000; T_FLOAT_VEC := 0x00610000; T_BYTES := 0x00700000;
  T_MIXED := 0x00e00000; T_MASK := 0x00ff0000;
  G_SYSTEM := 0x10000000; G_MASK := -0x10000000; A_GLOBAL := 0x01000000; A_MASK := 0x0f000000;
  F_UNDEFINED := 0; F_EVENTS_FROM_CAR := 1; F_EVENTS_FROM_ANDROID := 2;
  C_STATIC := 0; C_ON_CHANGE := 1; P_READ := 1; P_WRITE := 2;
  PROP_INVALID := 0; S_AVAILABLE := 0;
  new_int32 := 0; new_int64 := 0; new_float := S754_zero false; new_byte := 0
|}.

Lemma aosp_abi_laws : @VehicleAbiLaws aosp_abi.
Proof.
  split.
  - apply (bool_decide_unpack _). vm_compute. exact I.
  - apply (bool_decide_unpack _). vm_compute. exact I.
  - reflexivity.
  - simpl. lia.
Qed.
