(* ===== verification/PropertyStore.v ===== *)
(** * vehicle/common/src/VehiclePropertyStore.cpp

    The store of the current property values: registered configurations, and a
    [std::map] from record identifiers (property, area, token) to values.  The
    mutex makes every public operation atomic, so an operation is a function of
    the store.  The map is a [gmap] with the iteration order of [operator<]
    put back by [ordered_records]; a range whose end overflows [int32_t] is
    undefined behaviour ([None]). *)

From S2P Require Import Prelude VehicleTypes.

(** ** Data *)

Record RecordId := mkRid { rid_prop : Z; rid_area : Z; rid_token : Z }.

#[global] Instance RecordId_eq_dec : EqDecision RecordId.
Proof. solve_decision. Defined.

#[global] Instance RecordId_countable : Countable RecordId.
Proof.
  refine (inj_countable' (fun r => (rid_prop r, rid_area r, rid_token r))
            (fun t => mkRid t.1.1 t.1.2 t.2) _); by intros [].
Defined.

(** [TokenFunction] may be null. *)
Record RecordConfig := mkRecordConfig {
  propConfig : VehiclePropConfig; tokenFunction : option (VehiclePropValue -> Z)
}.

Record VehiclePropertyStore := mkStore {
  mConfigs : gmap Z RecordConfig;
  mPropertyValues : gmap RecordId VehiclePropValue
}.

Definition empty_store : VehiclePropertyStore := mkStore ∅ ∅.

(** ** Order of the map *)

Definition record_eqb (a b : RecordId) : bool :=
  bool_decide (rid_prop a = rid_prop b) && bool_decide (rid_area a = rid_area b) &&
  bool_decide (rid_token a = rid_token b).

Definition record_ltb (a b : RecordId) : bool :=
  (rid_prop a <? rid_prop b) ||
  ((rid_prop a =? rid_prop b) && (rid_area a <? rid_area b)) ||
  ((rid_prop a =? rid_prop b) && (rid_area a =? rid_area b) && (rid_token a <? rid_token b)).

Definition record_le (p q : RecordId * VehiclePropValue) : Prop := record_ltb q.1 p.1 = false.

#[global] Instance record_le_dec p q : Decision (record_le p q).
Proof. unfold record_le. apply _. Defined.

(** The map's elements in iteration order. *)
Definition ordered_records (m : gmap RecordId VehiclePropValue)
    : list (RecordId * VehiclePropValue) :=
  merge_sort record_le (map_to_list m).

Section PropertyStore.
Context `{VehicleAbi}.

(** ** Private helpers *)

Definition getRecordIdLocked (s : VehiclePropertyStore) (v : VehiclePropValue) : RecordId :=
  let area := if isGlobalProp (prop v) then 0 else areaId v in
  match mConfigs s !! prop v with
  | None => mkRid 0 0 0
  | Some cfg =>
      mkRid (prop v) area
        (match tokenFunction cfg with Some f => f v | None => 0 end)
  end.

Definition getValueOrNullLocked (s : VehiclePropertyStore) (r : RecordId)
    : option VehiclePropValue := mPropertyValues s !! r.

Definition INT32_MIN : Z := - 2 ^ 31.
Definition INT32_MAX : Z := 2 ^ 31 - 1.

(** The half-open range [lower_bound(lo), lower_bound(hi)): the records that
    are not below [lo] and are below [hi]. *)
Definition in_bounds (lo hi r : RecordId) : bool := negb (record_ltb r lo) && record_ltb r hi.

Definition findRangeLocked (propId : Z) : option (RecordId * RecordId) :=
  if decide (propId = INT32_MAX) then None
  else Some (mkRid propId INT32_MIN 0, mkRid (propId + 1) INT32_MIN 0).

(** ** Public operations *)

Definition registerProperty (s : VehiclePropertyStore) (config : VehiclePropConfig)
    (tokenFunc : option (VehiclePropValue -> Z)) : VehiclePropertyStore :=
  match mConfigs s !! cfg_prop config with
  | Some _ => s
  | None => mkStore (<[cfg_prop config := mkRecordConfig config tokenFunc]> (mConfigs s))
              (mPropertyValues s)
  end.

Definition writeValue (s : VehiclePropertyStore) (propValue : VehiclePropValue)
    (updateStatus : bool) : bool * VehiclePropertyStore :=
  match mConfigs s !! prop propValue with
  | None => (false, s)
  | Some _ =>
      let recId := getRecordIdLocked s propValue in
      match getValueOrNullLocked s recId with
      | None => (true, mkStore (mConfigs s) (<[recId := propValue]> (mPropertyValues s)))
      | Some old =>
          if timestamp propValue <? timestamp old then (false, s)
          else
            let new := mkValue (timestamp propValue) (areaId old) (prop old)
                         (if updateStatus then status propValue else status old)
                         (value propValue) in
            (true, mkStore (mConfigs s) (<[recId := new]> (mPropertyValues s)))
      end
  end.

Definition removeValue (s : VehiclePropertyStore) (propValue : VehiclePropValue)
    : VehiclePropertyStore :=
  mkStore (mConfigs s) (delete (getRecordIdLocked s propValue) (mPropertyValues s)).

Definition removeValuesForProperty (s : VehiclePropertyStore) (propId : Z)
    : option VehiclePropertyStore :=
  '(lo, hi) ← findRangeLocked propId;
  Some (mkStore (mConfigs s)
          (filter (fun kv => in_bounds lo hi kv.1 = false) (mPropertyValues s))).

Definition readAllValues (s : VehiclePropertyStore) : list VehiclePropValue :=
  (ordered_records (mPropertyValues s)).*2.

Definition readValuesForProperty (s : VehiclePropertyStore) (propId : Z)
    : option (list VehiclePropValue) :=
  '(lo, hi) ← findRangeLocked propId;
  Some (filter (fun kv => in_bounds lo hi kv.1 = true) (ordered_records (mPropertyValues s))).*2.

Definition readValueOrNull (s : VehiclePropertyStore) (request : VehiclePropValue)
    : option VehiclePropValue :=
  getValueOrNullLocked s (getRecordIdLocked s request).

Definition readValueOrNull_id (s : VehiclePropertyStore) (prop area token : Z)
    : option VehiclePropValue :=
  getValueOrNullLocked s (mkRid prop (if isGlobalProp prop then 0 else area) token).

(** The order of an [unordered_map] is unspecified: any listing of the map. *)
Definition getAllConfigs (s : VehiclePropertyStore) : list VehiclePropConfig :=
  (fun kv => propConfig kv.2) <$> map_to_list (mConfigs s).

Definition getConfigOrNull (s : VehiclePropertyStore) (propId : Z) : option VehiclePropConfig :=
  propConfig <$> mConfigs s !! propId.

(** [None] is the call of [abort]. *)
Definition getConfigOrDie (s : VehiclePropertyStore) (propId : Z) : option VehiclePropConfig :=
  getConfigOrNull s propId.

(** ** Steps of the store *)

Inductive store_op :=
  | ORegister (config : VehiclePropConfig) (f : option (VehiclePropValue -> Z))
  | OWrite (v : VehiclePropValue) (updateStatus : bool)
  | ORemove (v : VehiclePropValue)
  | ORemoveAll (propId : Z).

Inductive store_step : VehiclePropertyStore -> store_op -> VehiclePropertyStore -> Prop :=
  | SRegister s c f : store_step s (ORegister c f) (registerProperty s c f)
  | SWrite s v u : store_step s (OWrite v u) (writeValue s v u).2
  | SRemove s v : store_step s (ORemove v) (removeValue s v)
  | SRemoveAll s p s' : removeValuesForProperty s p = Some s' -> store_step s (ORemoveAll p) s'.

(** A record's identifier is that of its value's property, which is
    registered; the area is zero for global properties. *)
Definition record_ok (s : VehiclePropertyStore) (r : RecordId) (v : VehiclePropValue) : Prop :=
  rid_prop r = prop v /\ is_Some (mConfigs s !! prop v) /\
  rid_area r = (if isGlobalProp (prop v) then 0 else areaId v).

Definition store_ok (s : VehiclePropertyStore) : Prop :=
  map_Forall (record_ok s) (mPropertyValues s) /\
  map_Forall (fun p c => cfg_prop (propConfig c) = p) (mConfigs s).

(** ** Lemmas *)

Lemma record_ltb_spec a b :
  record_ltb a b = true <->
  rid_prop a < rid_prop b \/
  (rid_prop a = rid_prop b /\ (rid_area a < rid_area b \/
     (rid_area a = rid_area b /\ rid_token a < rid_token b))).
Proof.
  unfold record_ltb. rewrite !orb_true_iff, !andb_true_iff, !Z.ltb_lt, !Z.eqb_eq. lia.
Qed.

Lemma record_ltb_false a b : record_ltb a b = false <-> ~ (record_ltb a b = true).
Proof. by rewrite not_true_iff_false. Qed.

Lemma record_eqb_spec a b : record_eqb a b = true <-> a = b.
Proof.
  unfold record_eqb. rewrite !andb_true_iff, !bool_decide_eq_true.
  destruct a, b; simpl. split; [by intros [[-> ->] ->]|by intros [= -> -> ->]].
Qed.

Lemma getRecordIdLocked_registered s v :
  is_Some (mConfigs s !! prop v) ->
  rid_prop (getRecordIdLocked s v) = prop v /\
  rid_area (getRecordIdLocked s v) = (if isGlobalProp (prop v) then 0 else areaId v).
Proof. intros [c Hc]. unfold getRecordIdLocked. by rewrite Hc. Qed.

Lemma record_ok_config_mono s s' r v :
  (forall p, is_Some (mConfigs s !! p) -> is_Some (mConfigs s' !! p)) ->
  record_ok s r v -> record_ok s' r v.
Proof. intros Hsub (? & ? & ?). repeat split; auto. Qed.

Lemma in_bounds_spec propId r lo hi :
  findRangeLocked propId = Some (lo, hi) ->
  INT32_MIN <= rid_area r ->
  in_bounds lo hi r = true <->
  (rid_prop r = propId /\ ~ (rid_area r = INT32_MIN /\ rid_token r < 0)) \/
  (rid_prop r = propId + 1 /\ rid_area r = INT32_MIN /\ rid_token r < 0).
Proof.
  unfold findRangeLocked, in_bounds. case_decide; [done|]. intros [= <- <-] Ha.
  rewrite andb_true_iff, negb_true_iff, record_ltb_false, !record_ltb_spec. simpl. lia.
Qed.

Lemma writeValue_configs s v u : mConfigs (writeValue s v u).2 = mConfigs s.
Proof. unfold writeValue. by repeat case_match. Qed.

Lemma registerProperty_configs s c f p :
  is_Some (mConfigs s !! p) -> is_Some (mConfigs (registerProperty s c f) !! p).
Proof.
  unfold registerProperty. destruct (mConfigs s !! cfg_prop c) eqn:Hc; [done|].
  simpl. intros Hp. rewrite lookup_insert. by case_decide.
Qed.

Lemma ordered_records_Permutation m : ordered_records m ≡ₚ map_to_list m.
Proof. apply merge_sort_Permutation. Qed.

(** The value [writeValue] leaves under the identifier, when it succeeds. *)
Lemma writeValue_lookup s v u s' :
  writeValue s v u = (true, s') ->
  is_Some (mConfigs s !! prop v) /\
  mPropertyValues s' = <[getRecordIdLocked s v :=
    match getValueOrNullLocked s (getRecordIdLocked s v) with
    | None => v
    | Some old => mkValue (timestamp v) (areaId old) (prop old)
                    (if u then status v else status old) (value v)
    end]> (mPropertyValues s).
Proof.
  unfold writeValue. destruct (mConfigs s !! prop v) eqn:Hc; [|done].
  destruct (getValueOrNullLocked _ _) as [old|]; [destruct (_ <? _); [done|]|];
    intros [= <-]; eauto.
Qed.

Lemma writeValue_false s v u s' : writeValue s v u = (false, s') -> s' = s.
Proof.
  unfold writeValue. destruct (mConfigs s !! prop v); [|by intros [=]].
  destruct (getValueOrNullLocked _ _); [destruct (_ <? _)|]; by intros [=].
Qed.

Lemma writeValue_ok s v u : store_ok s -> store_ok (writeValue s v u).2.
Proof.
  intros [Hrec Hcfg]. destruct (writeValue s v u) as [[] s'] eqn:Hw.
  2: { apply writeValue_false in Hw as ->. done. }
  pose proof (writeValue_configs s v u) as Hc. rewrite Hw in Hc. simpl in Hc.
  apply writeValue_lookup in Hw as [Hreg Hv]. simpl. split; [|by rewrite Hc].
  destruct (getRecordIdLocked_registered s v Hreg) as [Hp Ha].
  rewrite Hv. apply map_Forall_insert_2.
  - destruct (getValueOrNullLocked s _) as [old|] eqn:Hold; unfold record_ok; rewrite Hc.
    + apply Hrec in Hold as (Hop & Hoc & Hoa). simpl. split_and!; congruence.
    + by split_and!.
  - eapply map_Forall_impl; [exact Hrec|]. intros ? ?.
    apply record_ok_config_mono. by rewrite Hc.
Qed.

Lemma store_step_ok s op s' : store_step s op s' -> store_ok s -> store_ok s'.
Proof.
  intros [s0 c f|s0 v u|s0 v|s0 p s1 Hr] Hok; [|by apply writeValue_ok| |];
    destruct Hok as [Hrec Hcfg].
  - split.
    + assert (mPropertyValues (registerProperty s0 c f) = mPropertyValues s0) as ->
        by (unfold registerProperty; by case_match).
      eapply map_Forall_impl; [exact Hrec|]. intros ? ?.
      apply record_ok_config_mono. intros ?. apply registerProperty_configs.
    + unfold registerProperty. case_match; [done|]. simpl. by apply map_Forall_insert_2.
  - split; [|done]. simpl. by apply map_Forall_delete.
  - apply bind_Some in Hr as ([lo hi] & _ & [= <-]). split; [|done]. simpl.
    intros r v Hv. apply map_lookup_filter_Some in Hv as [Hv _]. by apply Hrec.
Qed.

(** ** Properties *)

(** C4: writing then reading.  A write succeeds exactly if its property is
    registered and the record there is, if there is one, is not newer.  It is
    then read back by any request with the same record identifier: a new record
    is the written value, an old one keeps its property and area and takes the
    value and the timestamp, and the status if [updateStatus]; every other
    record and the registrations are untouched; a failed write changes nothing. *)
Theorem store_write_read (s s' : VehiclePropertyStore) (v : VehiclePropValue) (u ok : bool) :
  writeValue s v u = (ok, s') ->
  (ok = true <-> is_Some (mConfigs s !! prop v) /\ forall old, readValueOrNull s v = Some old -> timestamp old <= timestamp v) /\
  if ok then
    (exists stored, readValueOrNull s' v = Some stored /\
       value stored = value v /\ timestamp stored = timestamp v /\
       (u = true -> status stored = status v) /\
       (readValueOrNull s v = None -> stored = v) /\
       (forall old, readValueOrNull s v = Some old -> prop stored = prop old /\ areaId stored = areaId old /\
          (u = false -> status stored = status old))) /\
    mConfigs s' = mConfigs s /\
    (forall r, r <> getRecordIdLocked s v ->
       getValueOrNullLocked s' r = getValueOrNullLocked s r)
  else s' = s.
Proof.
  intros Hw. split.
  { unfold writeValue in Hw. unfold readValueOrNull. destruct (mConfigs s !! prop v) as [c|]; [|injection Hw as <- <-].
    2:{ split; [done|]. by intros [[? ?] _]. }
    destruct (getValueOrNullLocked s _) as [old|]; [|injection Hw as <- <-; split; [|done]; split; [by eexists|done]].
    destruct (Z.ltb_spec (timestamp v) (timestamp old)); injection Hw as <- <-.
    - split; [done|]. intros [_ Hold]. specialize (Hold old eq_refl). lia.
    - split; [|done]. split; [by eexists|]. by intros ? [= <-]. }
  destruct ok; [|by eapply writeValue_false].
  pose proof (writeValue_configs s v u) as Hc. rewrite Hw in Hc. simpl in Hc.
  assert (getRecordIdLocked s' v = getRecordIdLocked s v) as Hid
    by (unfold getRecordIdLocked; by rewrite Hc).
  pose proof (writeValue_lookup _ _ _ _ Hw) as [_ Hv].
  unfold readValueOrNull. rewrite Hid. unfold getValueOrNullLocked in *. rewrite Hv.
  split; [|split; [done|intros r Hr; by rewrite lookup_insert_ne]].
  eexists. split; [apply lookup_insert_eq|].
  unfold writeValue, getValueOrNullLocked in Hw. destruct (mConfigs s !! prop v); [|done].
  destruct (mPropertyValues s !! _) as [old|]; [|by split_and!].
  destruct (Z.ltb_spec (timestamp v) (timestamp old)); [done|]. simpl.
  split_and!; [done|done|by intros ->|done|]. intros ? [= ->]. split_and!; [done..|by intros ->].
Qed.

(** Every reachable store is consistent: each value sits under the
    identifier of its own property and area, and its property is registered. *)
Lemma store_reachable_ok (s : VehiclePropertyStore) :
  rtc (fun s s' => exists op, store_step s op s') empty_store s -> store_ok s.
Proof.
  intros Hr. apply (rtc_invariant _ store_ok) in Hr; [done| |by split; apply map_Forall_empty].
  intros ? ? [op Hstep]. by eapply store_step_ok.
Qed.

(** The range scan removes all the values of one property and no other,
    when areas are [int32_t] and tokens are not negative in the lowest area. *)
Lemma store_remove_property (s s' : VehiclePropertyStore) (propId : Z) :
  removeValuesForProperty s propId = Some s' ->
  map_Forall (fun r _ => INT32_MIN <= rid_area r /\
                ~ (rid_area r = INT32_MIN /\ rid_token r < 0)) (mPropertyValues s) ->
  readValuesForProperty s' propId = Some [] /\
  (forall r, rid_prop r = propId -> getValueOrNullLocked s' r = None) /\
  (forall r, rid_prop r <> propId -> getValueOrNullLocked s' r = getValueOrNullLocked s r).
Proof.
  intros Hr Hbounds. apply bind_Some in Hr as ([lo hi] & Hrange & [= <-]).
  unfold getValueOrNullLocked, readValuesForProperty. rewrite Hrange. simpl. split_and!.
  - f_equal. rewrite filter_none; [done|]. intros [r v] Hin Hb.
    rewrite ordered_records_Permutation in Hin. apply elem_of_map_to_list in Hin.
    apply map_lookup_filter_Some in Hin as [_ Hout]. simpl in *. congruence.
  - intros r Hp. apply map_lookup_filter_None. right. intros v Hv Hout. simpl in Hout.
    specialize (Hbounds r v Hv) as [Hmin Htok].
    assert (in_bounds lo hi r = true) as Hin; [|congruence].
    apply (in_bounds_spec propId); auto.
  - intros r Hp. apply option_eq. intros v. rewrite map_lookup_filter_Some. simpl.
    split; [by intros [? _]|]. intros Hv. split; [done|].
    apply not_true_iff_false. specialize (Hbounds r v Hv) as [Hmin Htok].
    rewrite (in_bounds_spec propId _ _ _ Hrange Hmin). lia.
Qed.

(** [operator<] is a strict total order compatible with [operator==], as
    [std::map] requires. *)
Lemma record_order_total (a b c : RecordId) :
  record_ltb a a = false /\
  (record_ltb a b = true -> record_ltb b c = true -> record_ltb a c = true) /\
  (record_eqb a b = negb (record_ltb a b) && negb (record_ltb b a)).
Proof.
  split_and!.
  - apply record_ltb_false. rewrite record_ltb_spec. lia.
  - rewrite !record_ltb_spec. lia.
  - apply eq_true_iff_eq. rewrite record_eqb_spec, andb_true_iff, !negb_true_iff.
    rewrite !record_ltb_false, !record_ltb_spec. destruct a, b; simpl. split.
    + intros [= -> -> ->]. lia.
    + intros ?. f_equal; lia.
Qed.

End PropertyStore.

(** ** Witnesses *)

Section StoreWitnesses.
#[local] Existing Instance aosp_abi.

Definition speed_config : VehiclePropConfig :=
  mkConfig 0x11600207 P_READ C_ON_CHANGE [] [] (S754_zero false) (S754_zero false).

Definition speed_value (t : Z) : VehiclePropValue :=
  mkValue t 0 0x11600207 0 (mkRaw [] [Binary32.of_Z 20] [] [] EmptyString).

Definition speed_store : VehiclePropertyStore := registerProperty empty_store speed_config None.

Definition written_store : VehiclePropertyStore := (writeValue speed_store (speed_value 5) true).2.

Lemma store_write_read_witness :
  exists stored, readValueOrNull written_store (speed_value 5) = Some stored /\
    value stored = value (speed_value 5).
Proof.
  destruct (store_write_read speed_store written_store (speed_value 5) true true)
    as [_ [(stored & Hr & Hv & _) _]]; [vm_compute; reflexivity|].
  exists stored. split; [exact Hr | exact Hv].
Defined.

End StoreWitnesses.
