(* ===== verification/Subscription.v ===== *)
(** * vehicle/common/src/SubscriptionManager.cpp

    Which client listens to which vehicle property.  A [HalClient] is shared
    by reference ([sp<HalClient>]) between the client table and the per-property
    vectors, so clients live in a store of objects indexed by address; the
    address of a new client is chosen by the allocator and is an argument of
    the operation that allocates.  A [SortedVector] of references is a list
    sorted by address.  The mutex makes every public operation atomic but
    [onCallbackDead], which gives it up after it has read the properties of the
    client and between the unsubscriptions; the calls of
    [mOnPropertyUnsubscribed] are returned as a list.

    [linkToDeath] belongs to the HIDL runtime: whether it succeeds for a
    callback is the parameter [link_ok]. *)

From S2P Require Import Prelude VehicleTypes.

(** ** Data *)

Record HalClient := mkClient {
  mCallback : Z; mSubscriptions : gmap Z SubscribeOptions
}.

Record SubscriptionManager := mkSubs {
  objects : gmap Z HalClient;                    (* live HalClient objects *)
  mClients : gmap Z Z;                           (* client id -> address *)
  mPropToClients : gmap Z (list Z);              (* property -> HalClientVector *)
  mHalEventSubscribeOptions : gmap Z SubscribeOptions
}.

Definition no_subscriptions : SubscriptionManager := mkSubs ∅ ∅ ∅ ∅.

(** ** HalClientVector: a [SortedVector] of addresses *)

(** [SortedVector::add] replaces an equal item. *)
Fixpoint vec_addOrUpdate (l : list Z) (a : Z) : list Z :=
  match l with
  | [] => [a]
  | x :: l' => if a <? x then a :: l else if a =? x then l else x :: vec_addOrUpdate l' a
  end.

Definition vec_remove (l : list Z) (a : Z) : list Z := filter (fun x => x <> a) l.

(** [indexOf(a) >= 0]. *)
Definition vec_has (l : list Z) (a : Z) : bool := bool_decide (a ∈ l).

Section Subscription.
Context `{VehicleAbi} (link_ok : Z -> bool).

(** ** Subscription options *)

(** [None] is the result [false]: nothing to update. *)
Definition mergeSubscribeOptions (oldOpts newOpts : SubscribeOptions) : option SubscribeOptions :=
  let updatedRate := SFmax (sampleRate oldOpts) (sampleRate newOpts) in
  let updatedFlags := Z.lor (flags oldOpts) (flags newOpts) in
  if SFgtb updatedRate (sampleRate oldOpts) || bool_decide (updatedFlags <> flags oldOpts)
  then Some (mkOpts (propId oldOpts) updatedRate updatedFlags)
  else None.

(** ** HalClient *)

Definition client_addOrUpdateSubscription (c : HalClient) (opts : SubscribeOptions) : HalClient :=
  match mSubscriptions c !! propId opts with
  | None => mkClient (mCallback c) (<[propId opts := opts]> (mSubscriptions c))
  | Some oldOpts =>
      match mergeSubscribeOptions oldOpts opts with
      | Some updatedOptions =>
          mkClient (mCallback c) (<[propId opts := updatedOptions]> (mSubscriptions c))
      | None => c
      end
  end.

Definition isSubscribed (c : HalClient) (p : Z) (f : Z) : bool :=
  match mSubscriptions c !! p with
  | None => false
  | Some opts => bool_decide (Z.land (flags opts) f <> 0)
  end.

Definition getSubscribedProperties (c : HalClient) : list Z := sorted_keys (mSubscriptions c).

(** ** SubscriptionManager, private *)

Definition getClientsForPropertyLocked (s : SubscriptionManager) (p : Z) : option (list Z) :=
  mPropToClients s !! p.

Definition addClientToPropMapLocked (s : SubscriptionManager) (p a : Z) : SubscriptionManager :=
  let propClients := default [] (mPropToClients s !! p) in
  mkSubs (objects s) (mClients s) (<[p := vec_addOrUpdate propClients a]> (mPropToClients s))
    (mHalEventSubscribeOptions s).

(** The options to report, if any, and the manager. *)
Definition updateHalEventSubscriptionLocked (s : SubscriptionManager) (opts : SubscribeOptions)
    : option SubscribeOptions * SubscriptionManager :=
  let put o := mkSubs (objects s) (mClients s) (mPropToClients s)
                 (<[propId opts := o]> (mHalEventSubscribeOptions s)) in
  match mHalEventSubscribeOptions s !! propId opts with
  | None => (Some opts, put opts)
  | Some oldOpts =>
      match mergeSubscribeOptions oldOpts opts with
      | Some updated => (Some updated, put updated)
      | None => (None, s)
      end
  end.

(** [None] is the null client: the callback's process is already dead. *)
Definition getOrCreateHalClientLocked (s : SubscriptionManager) (clientId callback addr : Z)
    : option (Z * SubscriptionManager) :=
  match mClients s !! clientId with
  | Some a => Some (a, s)
  | None =>
      if link_ok callback then
        Some (addr, mkSubs (<[addr := mkClient callback ∅]> (objects s))
                (<[clientId := addr]> (mClients s)) (mPropToClients s)
                (mHalEventSubscribeOptions s))
      else None
  end.

(** [client->addOrUpdateSubscription(opts)] on the shared object. *)
Definition update_client (s : SubscriptionManager) (a : Z) (opts : SubscribeOptions)
    : SubscriptionManager :=
  mkSubs (alter (fun c => client_addOrUpdateSubscription c opts) a (objects s)) (mClients s)
    (mPropToClients s) (mHalEventSubscribeOptions s).

(** One turn of the loop of [addOrUpdateSubscription]. *)
Definition subscribe_one (a : Z) (acc : list SubscribeOptions * SubscriptionManager)
    (opts : SubscribeOptions) : list SubscribeOptions * SubscriptionManager :=
  let '(out, s) := acc in
  let s1 := addClientToPropMapLocked (update_client s a opts) (propId opts) a in
  if bool_decide (Z.land F_EVENTS_FROM_CAR (flags opts) <> 0) then
    match updateHalEventSubscriptionLocked s1 opts with
    | (Some updated, s2) => (out ++ [updated], s2)
    | (None, s2) => (out, s2)
    end
  else (out, s1).

(** ** SubscriptionManager, public *)

Definition addOrUpdateSubscription (s : SubscriptionManager) (clientId callback : Z)
    (optionList : list SubscribeOptions) (addr : Z)
    : StatusCode * list SubscribeOptions * SubscriptionManager :=
  match getOrCreateHalClientLocked s clientId callback addr with
  | None => (INTERNAL_ERROR, [], s)
  | Some (a, s1) =>
      let '(out, s2) := foldl (subscribe_one a) ([], s1) optionList in
      (OK, out, s2)
  end.

Definition client_subscribed (s : SubscriptionManager) (p f a : Z) : bool :=
  match objects s !! a with Some c => isSubscribed c p f | None => false end.

Definition getSubscribedClients (s : SubscriptionManager) (p f : Z) : list Z :=
  match getClientsForPropertyLocked s p with
  | None => []
  | Some propClients => filter (fun a => client_subscribed s p f a = true) propClients
  end.

(** The map from clients to their values, filled value by value. *)
Definition clientValuesMap (s : SubscriptionManager) (values : list VehiclePropValue) (f : Z)
    : gmap Z (list VehiclePropValue) :=
  foldl (fun m v =>
           foldl (fun m a => <[a := default [] (m !! a) ++ [v]]> m) m
             (getSubscribedClients s (prop v) f))
    ∅ values.

Definition distributeValuesToClients (s : SubscriptionManager) (values : list VehiclePropValue)
    (f : Z) : list (Z * list VehiclePropValue) :=
  let m := clientValuesMap s values f in
  (fun a => (a, default [] (m !! a))) <$> sorted_keys m.

(** The properties reported to [mOnPropertyUnsubscribed], and the manager. *)
Definition unsubscribe (s : SubscriptionManager) (clientId p : Z) : list Z * SubscriptionManager :=
  let propertyClients := getClientsForPropertyLocked s p in
  let '(propertyClients', s1) :=
    match mClients s !! clientId with
    | None => (propertyClients, s)
    | Some client =>
        let '(propertyClients', props) :=
          match propertyClients with
          | None => (None, mPropToClients s)
          | Some vec =>
              let vec' := vec_remove vec client in
              (Some vec',
               match vec' with
               | [] => delete p (mPropToClients s)
               | _ => <[p := vec']> (mPropToClients s)
               end)
          end in
        let isClientSubscribedToOtherProps :=
          existsb (fun kv => vec_has kv.2 client) (map_to_list props) in
        (propertyClients',
         if isClientSubscribedToOtherProps then
           mkSubs (objects s) (mClients s) props (mHalEventSubscribeOptions s)
         else
           (* unlinkToDeath; the last reference to the client goes away *)
           mkSubs (delete client (objects s)) (delete clientId (mClients s)) props
             (mHalEventSubscribeOptions s))
    end in
  match propertyClients' with
  | None | Some [] =>
      ([p], mkSubs (objects s1) (mClients s1) (mPropToClients s1)
              (delete p (mHalEventSubscribeOptions s1)))
  | Some _ => ([], s1)
  end.

(** The death of a client's process, run to the end without interruption.  When
    other threads run between its sections, each section is the [unsubscribe] of a
    client and a property that may no longer be there: a step of its own below. *)
Definition onCallbackDead (s : SubscriptionManager) (clientId : Z)
    : list Z * SubscriptionManager :=
  match mClients s !! clientId with
  | None => ([], s)
  | Some a =>
      match objects s !! a with
      | None => ([], s)
      | Some halClient =>
          foldl (fun '(out, s) p => let '(o, s') := unsubscribe s clientId p in (out ++ o, s'))
            ([], s) (getSubscribedProperties halClient)
      end
  end.

(** ** Steps

    A subscription, an unsubscription, which is also a section of a death that is
    interrupted, and a death that is not. *)

Inductive sub_step : SubscriptionManager -> SubscriptionManager -> Prop :=
  | SubAdd s clientId callback optionList addr :
      objects s !! addr = None ->
      sub_step s (addOrUpdateSubscription s clientId callback optionList addr).2
  | SubRemove s clientId p : sub_step s (unsubscribe s clientId p).2
  | SubDead s clientId : sub_step s (onCallbackDead s clientId).2.

End Subscription.

(** ** Invariant *)

(** What holds of a client listed in the vector of property [p]: it is live,
    registered, and has options for [p]. *)
Definition listed_ok (s : SubscriptionManager) (p a : Z) : Prop :=
  (exists cid, mClients s !! cid = Some a) /\
  exists c o, objects s !! a = Some c /\ mSubscriptions c !! p = Some o.

Record subs_ok (s : SubscriptionManager) : Prop := {
  ok_live : forall cid a, mClients s !! cid = Some a -> is_Some (objects s !! a);
  ok_inj : forall cid1 cid2 a,
    mClients s !! cid1 = Some a -> mClients s !! cid2 = Some a -> cid1 = cid2;
  ok_vec : forall p vec, mPropToClients s !! p = Some vec ->
    vec <> [] /\ StronglySorted Z.lt vec /\ Forall (listed_ok s p) vec;
  ok_hal : forall p, is_Some (mHalEventSubscribeOptions s !! p) -> is_Some (mPropToClients s !! p)
}.

(** ** Lemmas: vectors *)

Lemma elem_of_vec_add l a x : x ∈ vec_addOrUpdate l a <-> x = a \/ x ∈ l.
Proof.
  induction l as [|y l IH]; simpl; [rewrite elem_of_cons; done|].
  destruct (Z.ltb_spec a y); [by rewrite elem_of_cons|].
  destruct (Z.eqb_spec a y) as [->|]; rewrite !elem_of_cons; [tauto|].
  rewrite IH. tauto.
Qed.

Lemma vec_add_sorted l a : StronglySorted Z.lt l -> StronglySorted Z.lt (vec_addOrUpdate l a).
Proof.
  induction 1 as [|y l Hs IH Hall]; simpl; [by repeat constructor|].
  destruct (Z.ltb_spec a y).
  - constructor; [by constructor|]. constructor; [done|].
    eapply Forall_impl; [exact Hall|]. simpl. lia.
  - destruct (Z.eqb_spec a y); [by constructor|]. constructor; [done|].
    rewrite Forall_forall in *. intros x [->|Hx]%elem_of_vec_add; [lia|auto].
Qed.

Lemma elem_of_vec_remove l a x : x ∈ vec_remove l a <-> x ∈ l /\ x <> a.
Proof. unfold vec_remove. rewrite list_elem_of_filter. tauto. Qed.

Lemma vec_remove_sorted l a : StronglySorted Z.lt l -> StronglySorted Z.lt (vec_remove l a).
Proof.
  unfold vec_remove. induction 1 as [|y l Hs IH Hall]; [constructor|].
  rewrite filter_cons. case_decide; [|done]. constructor; [done|].
  rewrite Forall_forall in *. intros x [_ Hx]%list_elem_of_filter. auto.
Qed.

(** ** Lemmas: clients *)

Lemma client_add_lookup c opts p :
  is_Some (mSubscriptions (client_addOrUpdateSubscription c opts) !! p) <->
  p = propId opts \/ is_Some (mSubscriptions c !! p).
Proof.
  unfold client_addOrUpdateSubscription. destruct (decide (p = propId opts)) as [->|Hne].
  - destruct (mSubscriptions c !! propId opts) as [old|] eqn:Hold;
      [destruct (mergeSubscribeOptions old opts)|]; simpl;
      rewrite ?lookup_insert_eq, ?Hold; split; eauto.
  - destruct (mSubscriptions c !! propId opts) as [old|];
      [destruct (mergeSubscribeOptions old opts)|]; simpl;
      rewrite ?lookup_insert_ne by done; tauto.
Qed.

Lemma listed_ok_mono s s' p a :
  (forall cid, mClients s !! cid = Some a -> mClients s' !! cid = Some a) ->
  (forall c, objects s !! a = Some c -> is_Some (mSubscriptions c !! p) ->
     exists c', objects s' !! a = Some c' /\ is_Some (mSubscriptions c' !! p)) ->
  listed_ok s p a -> listed_ok s' p a.
Proof.
  intros Hcl Hob [[cid Hcid] (c & o & Hc & Ho)]. split; [eauto|].
  destruct (Hob c Hc) as (c' & Hc' & o' & Ho'); eauto.
Qed.

Lemma update_client_objects `{VehicleAbi} s a opts b c :
  objects s !! b = Some c ->
  exists c', objects (update_client s a opts) !! b = Some c' /\
    (forall p, is_Some (mSubscriptions c !! p) -> is_Some (mSubscriptions c' !! p)) /\
    (a = b -> is_Some (mSubscriptions c' !! propId opts)).
Proof.
  intros Hb. simpl. rewrite lookup_alter. case_decide as Hab; [subst b|]; rewrite Hb; simpl.
  - eexists. split; [done|]. split; intros; apply client_add_lookup; auto.
  - exists c. split_and!; done.
Qed.

(** ** Lemmas: preservation *)

Lemma getOrCreate_ok `{VehicleAbi} link_ok s cid cb addr a s1 :
  subs_ok s -> objects s !! addr = None ->
  getOrCreateHalClientLocked link_ok s cid cb addr = Some (a, s1) ->
  subs_ok s1 /\ mClients s1 !! cid = Some a.
Proof.
  intros [Hl Hi Hv Hh] Hfresh. unfold getOrCreateHalClientLocked.
  destruct (mClients s !! cid) as [a0|] eqn:Hcid; [by intros [= <- <-]|].
  destruct (link_ok cb); [|done]. intros [= <- <-]. split; [|apply lookup_insert_eq].
  split; simpl.
  - intros cid' a' [[_ <-]|[_ Ha']]%lookup_insert_Some.
    + by rewrite lookup_insert_eq.
    + rewrite lookup_insert. case_decide; eauto.
  - assert (forall c, mClients s !! c <> Some addr) as Hno.
    { intros c Hc. destruct (Hl c addr Hc). congruence. }
    intros c1 c2 a' [[<- <-]|[_ H1]]%lookup_insert_Some [[<- E]|[_ H2]]%lookup_insert_Some;
      [done|by destruct (Hno c2)|subst; by destruct (Hno c1)|eauto].
  - intros p vec Hp. destruct (Hv p vec Hp) as (? & ? & Hf). split_and!; [done|done|].
    eapply Forall_impl; [exact Hf|]. intros b. apply listed_ok_mono; simpl.
    + intros c' Hc'. rewrite lookup_insert_ne; [done|]. congruence.
    + intros c' Hc' ?. rewrite lookup_insert_ne by congruence. eauto.
  - done.
Qed.

Lemma subscribe_one_ok `{VehicleAbi} s a out opts cid :
  subs_ok s -> mClients s !! cid = Some a ->
  let s' := (subscribe_one a (out, s) opts).2 in
  subs_ok s' /\ mClients s' !! cid = Some a.
Proof.
  intros [Hl Hi Hv Hh] Hcid.
  set (s1 := addClientToPropMapLocked (update_client s a opts) (propId opts) a).
  assert (subs_ok s1) as Hs1.
  { destruct (Hl cid a Hcid) as [ca Hca].
    assert (forall p b, listed_ok s p b -> listed_ok s1 p b) as Hmono.
    { intros p b. apply listed_ok_mono; [done|]. intros c Hc Hp.
      destruct (update_client_objects s a opts b c Hc) as (c' & ? & ? & _). eauto. }
    split; simpl.
    - intros cid' a' Ha'. destruct (Hl cid' a' Ha') as [c Hc].
      destruct (update_client_objects s a opts a' c Hc) as (c' & Hc' & _). simpl in Hc'. eauto.
    - done.
    - intros p vec. rewrite lookup_insert. case_decide as Hp.
      + intros [= <-]. subst p.
        assert (StronglySorted Z.lt (default [] (mPropToClients s !! propId opts)) /\
                Forall (listed_ok s (propId opts)) (default [] (mPropToClients s !! propId opts)))
          as [Hsort Hall].
        { destruct (mPropToClients s !! propId opts) as [v|] eqn:Hpv; simpl; [|by repeat constructor].
          by destruct (Hv _ _ Hpv) as (_ & ? & ?). }
        split_and!; [|by apply vec_add_sorted|].
        * intros Heq. assert (a ∈ @nil Z) as Hn by (rewrite <- Heq; apply elem_of_vec_add; auto).
          by apply elem_of_nil in Hn.
        * rewrite Forall_forall in *. intros x [->|Hx]%elem_of_vec_add; [|auto].
          split; [eauto|].
          destruct (update_client_objects s a opts a ca Hca) as (c' & Hc' & _ & Hself).
          destruct Hself as [o Ho]; [done|]. eauto.
      + intros Hvec. destruct (Hv p vec Hvec) as (? & ? & Hf). split_and!; [done|done|].
        eapply Forall_impl; [exact Hf|]. auto.
    - intros p Hp. rewrite lookup_insert. case_decide; [done|]. auto. }
  unfold subscribe_one. fold s1. clear Hl Hi Hv Hh.
  case_bool_decide; [|by split].
  unfold updateHalEventSubscriptionLocked.
  assert (is_Some (mPropToClients s1 !! propId opts)) as Hin.
  { simpl. rewrite lookup_insert_eq. eauto. }
  assert (mClients s1 !! cid = Some a) as Hcid1 by done.
  clearbody s1.
  assert (forall o, subs_ok (mkSubs (objects s1) (mClients s1) (mPropToClients s1)
    (<[propId opts := o]> (mHalEventSubscribeOptions s1)))) as Hput.
  { intros o. destruct Hs1 as [L1 I1 V1 H1]. split; [done|done|done|].
    intros p Hp. cbn [mHalEventSubscribeOptions mPropToClients] in *.
    destruct (decide (propId opts = p)) as [<-|Hne]; [exact Hin|].
    rewrite lookup_insert_ne in Hp by done. auto. }
  destruct (mHalEventSubscribeOptions s1 !! propId opts) as [old|];
    [destruct (mergeSubscribeOptions old opts)|]; split; first [exact Hcid1|apply Hput|exact Hs1].
Qed.

Lemma subscribe_fold_ok `{VehicleAbi} a cid optionList : forall out s,
  subs_ok s -> mClients s !! cid = Some a ->
  subs_ok (foldl (subscribe_one a) (out, s) optionList).2.
Proof.
  induction optionList as [|opts l IH]; intros out s Hok Hcid; [done|].
  cbn [foldl]. pose proof (subscribe_one_ok s a out opts cid Hok Hcid) as [Hok' Hcid'].
  destruct (subscribe_one a (out, s) opts) as [out' s']. by apply IH.
Qed.

Lemma addOrUpdateSubscription_ok `{VehicleAbi} link_ok s cid cb optionList addr :
  subs_ok s -> objects s !! addr = None ->
  subs_ok (addOrUpdateSubscription link_ok s cid cb optionList addr).2.
Proof.
  intros Hok Hfresh. unfold addOrUpdateSubscription.
  destruct (getOrCreateHalClientLocked link_ok s cid cb addr) as [[a s1]|] eqn:Hg; [|done].
  destruct (getOrCreate_ok link_ok _ _ _ _ _ _ Hok Hfresh Hg) as [Hok1 Hcid].
  pose proof (subscribe_fold_ok a cid optionList [] s1 Hok1 Hcid) as Hfold.
  by destruct (foldl _ _ _).
Qed.

(** ** Unsubscribing *)

Definition listed (s : SubscriptionManager) (p a : Z) : Prop :=
  exists vec, mPropToClients s !! p = Some vec /\ a ∈ vec.

(** The table of vectors without client [a] under property [p]. *)
Definition unlist (props : gmap Z (list Z)) (p a : Z) : gmap Z (list Z) :=
  match props !! p with
  | None => props
  | Some vec =>
      match vec_remove vec a with [] => delete p props | vec' => <[p := vec']> props end
  end.

Lemma unlist_lookup props p a q vec :
  unlist props p a !! q = Some vec <->
  if decide (q = p) then exists v, props !! p = Some v /\ vec = vec_remove v a /\ vec <> []
  else props !! q = Some vec.
Proof.
  unfold unlist. case_decide as Hq; [subst q|].
  - destruct (props !! p) as [v|] eqn:Hp.
    + destruct (vec_remove v a) eqn:Hv.
      * rewrite lookup_delete_eq. split; [done|]. intros (v' & [= <-] & -> & Hne). congruence.
      * rewrite lookup_insert_eq. split; [intros [= <-]; eauto|].
        intros (v' & [= <-] & -> & _). congruence.
    + rewrite Hp. split; [done|]. by intros (? & ? & _).
  - destruct (props !! p) as [v|]; [|done]. destruct (vec_remove v a).
    + by rewrite lookup_delete_ne by done.
    + by rewrite lookup_insert_ne by done.
Qed.

Definition subscribed_elsewhere (props : gmap Z (list Z)) (a : Z) : bool :=
  existsb (fun kv => vec_has kv.2 a) (map_to_list props).

Lemma subscribed_elsewhere_spec props a :
  subscribed_elsewhere props a = true <-> exists q vec, props !! q = Some vec /\ a ∈ vec.
Proof.
  unfold subscribed_elsewhere, vec_has. rewrite existsb_exists. split.
  - intros ([q vec] & Hin%list_elem_of_In & Hb%bool_decide_eq_true). simpl in *.
    apply elem_of_map_to_list in Hin. eauto.
  - intros (q & vec & Hq & Ha). exists (q, vec). split.
    + by apply list_elem_of_In, elem_of_map_to_list.
    + by apply bool_decide_eq_true.
Qed.

(** The manager before the report, with the vectors [props] it now has. *)
Definition drop_client (s : SubscriptionManager) (clientId client : Z) (props : gmap Z (list Z))
    : SubscriptionManager :=
  if subscribed_elsewhere props client then
    mkSubs (objects s) (mClients s) props (mHalEventSubscribeOptions s)
  else mkSubs (delete client (objects s)) (delete clientId (mClients s)) props
         (mHalEventSubscribeOptions s).

Definition report (s : SubscriptionManager) (p : Z) : list Z * SubscriptionManager :=
  match mPropToClients s !! p with
  | None => ([p], mkSubs (objects s) (mClients s) (mPropToClients s)
                    (delete p (mHalEventSubscribeOptions s)))
  | Some _ => ([], s)
  end.

(** On a well-formed manager [unsubscribe] unlists, drops and reports. *)
Lemma unsubscribe_unfold s cid p :
  subs_ok s ->
  unsubscribe s cid p =
  report (match mClients s !! cid with
          | None => s
          | Some a => drop_client s cid a (unlist (mPropToClients s) p a)
          end) p.
Proof.
  intros Hok. unfold unsubscribe, report, drop_client, subscribed_elsewhere, unlist,
    getClientsForPropertyLocked.
  destruct (mClients s !! cid) as [a|].
  - destruct (mPropToClients s !! p) as [vec|] eqn:Hp.
    + destruct (vec_remove vec a) as [|x v].
      * by destruct (existsb _ _); simpl; rewrite lookup_delete_eq.
      * by destruct (existsb _ _); simpl; rewrite lookup_insert_eq.
    + by destruct (existsb _ _); simpl; rewrite Hp.
  - destruct (mPropToClients s !! p) as [[|x v]|] eqn:Hp; [|done|done].
    by destruct (ok_vec s Hok p [] Hp).
Qed.

Lemma unlist_vec_ok s p a q vec :
  subs_ok s -> unlist (mPropToClients s) p a !! q = Some vec ->
  vec <> [] /\ StronglySorted Z.lt vec /\ Forall (listed_ok s q) vec.
Proof.
  intros Hok. rewrite unlist_lookup. case_decide as Hq; [subst q|apply (ok_vec s Hok)].
  intros (v & Hv & -> & Hne). destruct (ok_vec s Hok p v Hv) as (_ & Hs & Hf).
  split_and!; [done|by apply vec_remove_sorted|].
  rewrite Forall_forall in *. intros x [Hx _]%elem_of_vec_remove. auto.
Qed.

Lemma unlist_is_Some props p a q :
  q <> p -> is_Some (props !! q) -> is_Some (unlist props p a !! q).
Proof.
  intros Hq [v Hv]. exists v. apply unlist_lookup. by rewrite decide_False.
Qed.

Lemma drop_client_ok s cid a p :
  subs_ok s -> mClients s !! cid = Some a ->
  let s1 := drop_client s cid a (unlist (mPropToClients s) p a) in
  subs_ok (report s1 p).2.
Proof.
  intros Hok Hcid s1. set (props := unlist (mPropToClients s) p a) in *.
  assert (mPropToClients s1 = props /\ mHalEventSubscribeOptions s1 = mHalEventSubscribeOptions s)
    as [Hp1 Hh1] by (unfold s1, drop_client; by destruct (subscribed_elsewhere _ _)).
  assert (forall q b, (exists vec, props !! q = Some vec /\ b ∈ vec) -> listed_ok s q b ->
    listed_ok s1 q b) as Hlisted.
  { intros q b (vec & Hvec & Hb) Hlb. unfold s1, drop_client.
    destruct (subscribed_elsewhere props a) eqn:Helse; [done|].
    assert (b <> a) as Hne.
    { intros ->. assert (subscribed_elsewhere props a = true); [|congruence].
      apply subscribed_elsewhere_spec. eauto. }
    revert Hlb. apply listed_ok_mono; simpl.
    - intros c Hc. rewrite lookup_delete_ne by congruence. done.
    - intros c Hc ?. rewrite lookup_delete_ne by done. eauto. }
  assert (forall cid' b, mClients s1 !! cid' = Some b ->
            mClients s !! cid' = Some b /\ is_Some (objects s1 !! b)) as Hcl.
  { intros cid' b. unfold s1, drop_client.
    destruct (subscribed_elsewhere props a); simpl.
    - intros Hb. split; [done|]. by apply (ok_live s Hok cid').
    - intros [Hne Hb]%lookup_delete_Some. split; [done|].
      rewrite lookup_delete_ne; [by apply (ok_live s Hok cid')|].
      intros ->. apply Hne. by apply (ok_inj s Hok cid cid' b). }
  assert (forall q vec, mPropToClients s1 !! q = Some vec ->
    vec <> [] /\ StronglySorted Z.lt vec /\ Forall (listed_ok s1 q) vec) as Hvec.
  { intros q vec. rewrite Hp1. intros Hq.
    destruct (unlist_vec_ok s p a q vec Hok Hq) as (? & ? & Hf). split_and!; [done|done|].
    rewrite Forall_forall in *. intros x Hx. apply Hlisted; eauto. }
  assert (forall q, q <> p -> is_Some (mHalEventSubscribeOptions s1 !! q) ->
    is_Some (mPropToClients s1 !! q)) as Hhal.
  { intros q Hq. rewrite Hp1, Hh1. intros Hs. apply unlist_is_Some; [done|].
    by apply (ok_hal s Hok). }
  unfold report. destruct (mPropToClients s1 !! p) eqn:Hpp.
  - split; [by intros ? ? []%Hcl| |done|].
    + intros c1 c2 b [H1 _]%Hcl [H2 _]%Hcl. by apply (ok_inj s Hok c1 c2 b).
    + intros q Hq. destruct (decide (q = p)) as [->|]; [simpl in *; by rewrite Hpp|auto].
  - split; [by intros ? ? []%Hcl| |exact Hvec|].
    + intros c1 c2 b [H1 _]%Hcl [H2 _]%Hcl. by apply (ok_inj s Hok c1 c2 b).
    + simpl. intros q [o Hq]. apply lookup_delete_Some in Hq as [Hne Hq]. apply Hhal; eauto.
Qed.

Lemma unsubscribe_ok s cid p : subs_ok s -> subs_ok (unsubscribe s cid p).2.
Proof.
  intros Hok. rewrite unsubscribe_unfold by done.
  destruct (mClients s !! cid) as [a|] eqn:Hcid; [by apply drop_client_ok|].
  unfold report. destruct (mPropToClients s !! p) eqn:Hp; [done|].
  destruct Hok as [Hl Hi Hv Hh]. split; [done|done|done|].
  simpl. intros q [o Hq]. apply lookup_delete_Some in Hq as [Hne Hq]. eauto.
Qed.

(** The loop of [onCallbackDead]. *)
Definition unsubscribe_all (cid : Z) (acc : list Z * SubscriptionManager) (props : list Z)
    : list Z * SubscriptionManager :=
  foldl (fun '(out, s) p => let '(o, s') := unsubscribe s cid p in (out ++ o, s')) acc props.

Lemma unsubscribe_all_ok cid props : forall out s,
  subs_ok s -> subs_ok (unsubscribe_all cid (out, s) props).2.
Proof.
  induction props as [|p props IH]; intros out s Hok; [done|].
  unfold unsubscribe_all. cbn [foldl]. pose proof (unsubscribe_ok s cid p Hok) as Hok'.
  destruct (unsubscribe s cid p) as [o s']. by apply IH.
Qed.

Lemma onCallbackDead_unfold s cid :
  onCallbackDead s cid =
  match mClients s !! cid with
  | None => ([], s)
  | Some a => match objects s !! a with
              | None => ([], s)
              | Some c => unsubscribe_all cid ([], s) (getSubscribedProperties c)
              end
  end.
Proof. reflexivity. Qed.

Lemma sub_step_ok `{VehicleAbi} link_ok s s' : subs_ok s -> sub_step link_ok s s' -> subs_ok s'.
Proof.
  intros Hok Hstep. destruct Hstep.
  - by apply addOrUpdateSubscription_ok.
  - by apply unsubscribe_ok.
  - rewrite onCallbackDead_unfold. destruct (mClients s !! clientId) as [a|]; [|done].
    destruct (objects s !! a); [|done]. by apply unsubscribe_all_ok.
Qed.

Lemma no_subscriptions_ok : subs_ok no_subscriptions.
Proof.
  split.
  - intros cid a Ha. simpl in Ha. by rewrite lookup_empty in Ha.
  - intros c1 c2 a H1. simpl in H1. by rewrite lookup_empty in H1.
  - intros p vec Hp. simpl in Hp. by rewrite lookup_empty in Hp.
  - intros p [o Ho]. simpl in Ho. by rewrite lookup_empty in Ho.
Qed.

(** ** Lemmas: effects *)

Lemma drop_client_effect s cid a p (r : list Z * SubscriptionManager) :
  let props := unlist (mPropToClients s) p a in
  let s1 := drop_client s cid a props in
  mClients s !! cid = Some a ->
  mPropToClients r.2 = props -> mClients r.2 = mClients s1 -> objects r.2 = objects s1 ->
  (forall q b, listed r.2 q b <-> listed s q b /\ ~ (q = p /\ mClients s !! cid = Some b)) /\
  (forall c b, mClients r.2 !! c = Some b <->
     mClients s !! c = Some b /\ (c = cid -> exists q, listed r.2 q b)) /\
  (forall b, is_Some (objects r.2 !! b) -> objects r.2 !! b = objects s !! b).
Proof.
  intros props s1 Hcid Hp Hm Ho. unfold listed. rewrite Hp, Hm, Ho, Hcid.
  split_and!.
  - intros q b. unfold props. setoid_rewrite unlist_lookup. case_decide as Hq; [subst q|].
    + split.
      * intros (vec & (v & Hv & -> & _) & [Hb Hne]%elem_of_vec_remove).
        split; [eauto|]. intros [_ [= ->]]. done.
      * intros [(v & Hv & Hb) Hne]. exists (vec_remove v a).
        assert (b ∈ vec_remove v a) as Hb' by (apply elem_of_vec_remove; split; [done|];
          intros ->; apply Hne; done).
        split; [|done]. exists v. split_and!; [done|done|].
        intros Hnil. rewrite Hnil in Hb'. by apply elem_of_nil in Hb'.
    + split; [intros Hv; split; [done|tauto]|by intros [Hv _]].
  - intros c b. setoid_rewrite <-(subscribed_elsewhere_spec props b).
    unfold s1, drop_client. destruct (subscribed_elsewhere props a) eqn:Helse; simpl.
    + split; [|by intros [? _]]. intros Hb. split; [done|]. intros ->. congruence.
    + rewrite lookup_delete_Some. split.
      * intros [Hne Hb]. split; [done|]. by intros ->.
      * intros [Hb Hc]. split; [|done]. intros <-. specialize (Hc eq_refl). congruence.
  - intros b. unfold s1, drop_client. destruct (subscribed_elsewhere props a); simpl; [done|].
    intros [c [Hne Hc]%lookup_delete_Some]. by rewrite lookup_delete_ne.
Qed.

Lemma unsubscribe_effect s cid p :
  subs_ok s ->
  let r := unsubscribe s cid p in
  (forall q b, listed r.2 q b <-> listed s q b /\ ~ (q = p /\ mClients s !! cid = Some b)) /\
  (forall c b, mClients r.2 !! c = Some b <->
     mClients s !! c = Some b /\ (c = cid -> exists q, listed r.2 q b)) /\
  (forall b, is_Some (objects r.2 !! b) -> objects r.2 !! b = objects s !! b) /\
  (r.1 = [p] /\ mPropToClients r.2 !! p = None /\
     mHalEventSubscribeOptions r.2 = delete p (mHalEventSubscribeOptions s) \/
   r.1 = [] /\ is_Some (mPropToClients r.2 !! p) /\
     mHalEventSubscribeOptions r.2 = mHalEventSubscribeOptions s).
Proof.
  intros Hok r. subst r. rewrite unsubscribe_unfold by done. unfold report.
  destruct (mClients s !! cid) as [a|] eqn:Hcid.
  - set (props := unlist (mPropToClients s) p a).
    set (s1 := drop_client s cid a props).
    assert (mPropToClients s1 = props /\ mHalEventSubscribeOptions s1 = mHalEventSubscribeOptions s)
      as [Hp1 Hh1] by (unfold s1, drop_client; by destruct (subscribed_elsewhere _ _)).
    pose proof (drop_client_effect s cid a p) as Hmain. simpl in Hmain. fold props s1 in Hmain.
    rewrite Hcid in Hmain.
    destruct (mPropToClients s1 !! p) eqn:Hpp.
    + destruct (Hmain ([], s1)) as (H1 & H2 & H3); [done..|].
      split; [exact H1|]. split; [exact H2|]. split; [exact H3|].
      right. simpl. rewrite Hpp. eauto.
    + destruct (Hmain ([p], mkSubs (objects s1) (mClients s1) (mPropToClients s1)
        (delete p (mHalEventSubscribeOptions s1)))) as (H1 & H2 & H3); [done..|].
      split; [exact H1|]. split; [exact H2|]. split; [exact H3|].
      left. simpl. by rewrite Hh1.
  - destruct (mPropToClients s !! p) eqn:Hp; simpl;
      (split_and!; [ intros q b; split; [intros; split; [done|]; intros [_ ?]; done|tauto]
                   | intros c b; split; [|tauto]; intros Hb; split; [done|]; intros ->; congruence
                   | done | ]).
    + right. rewrite Hp. eauto.
    + by left.
Qed.

Lemma unsubscribe_all_effect cid a props : forall out s,
  subs_ok s -> (forall b, mClients s !! cid = Some b -> b = a) ->
  (forall q, listed s q a -> mClients s !! cid = Some a) ->
  let r := unsubscribe_all cid (out, s) props in
  (forall q b, listed r.2 q b <-> listed s q b /\ ~ (b = a /\ q ∈ props)) /\
  (forall c b, mClients r.2 !! c = Some b <->
     mClients s !! c = Some b /\ (c = cid -> props = [] \/ exists q, listed r.2 q a)).
Proof.
  induction props as [|p props IH]; intros out s Hok Hcl Hli.
  - split; intros q b; [rewrite elem_of_nil; tauto|]. simpl. tauto.
  - unfold unsubscribe_all. cbn [foldl].
    pose proof (unsubscribe_ok s cid p Hok) as Hok1.
    destruct (unsubscribe_effect s cid p Hok) as (Hl & Hc & _ & _).
    destruct (unsubscribe s cid p) as [o s1]. cbn [fst snd] in *.
    destruct (IH (out ++ o) s1) as [Hl' Hc']; [done| | |].
    { intros b [Hb _]%Hc. auto. }
    { intros q Hq. apply Hc. split; [|eauto]. apply Hl in Hq as [Hq _]. eauto. }
    unfold unsubscribe_all in Hl', Hc'. split.
    + intros q b. rewrite Hl', Hl, elem_of_cons. split.
      * intros [[Hq Hne] Hne']. split; [done|]. intros [-> [->|Hin]]; [|tauto].
        apply Hne. eauto.
      * intros [Hq Hne]. split; [split; [done|]|tauto]. intros [-> Hb]. apply Hcl in Hb as ->. tauto.
    + intros c b. rewrite Hc', Hc. split.
      * intros [[Hb Hex] Hor]. split; [done|]. intros ->. right.
        destruct (Hor eq_refl) as [->|?]; [|done]. simpl. apply Hcl in Hb as ->. auto.
      * intros [Hb Hor]. split; [split; [done|]|].
        -- intros ->. destruct (Hor eq_refl) as [?|[q Hq]]; [done|].
           apply Hcl in Hb as ->. exists q. by apply Hl' in Hq as [? _].
        -- intros ->. destruct (Hor eq_refl) as [?|?]; [done|]. by right.
Qed.

(** ** Lemmas: distribution *)

Lemma NoDup_subscribedClients s p f : subs_ok s -> NoDup (getSubscribedClients s p f).
Proof.
  intros Hok. unfold getSubscribedClients, getClientsForPropertyLocked.
  destruct (mPropToClients s !! p) as [vec|] eqn:Hp; [|constructor].
  destruct (ok_vec s Hok p vec Hp) as (_ & Hs & _). apply NoDup_filter.
  clear Hp. induction Hs as [|x l _ IH Hx]; constructor; [|done].
  intros Hin. rewrite Forall_forall in Hx. specialize (Hx x Hin). lia.
Qed.

(** One value added to the list of every client of [cs]. *)
Definition push_all (m : gmap Z (list VehiclePropValue)) (v : VehiclePropValue) (cs : list Z)
    : gmap Z (list VehiclePropValue) :=
  foldl (fun m a => <[a := default [] (m !! a) ++ [v]]> m) m cs.

Lemma push_all_lookup v cs a : forall m,
  NoDup cs ->
  push_all m v cs !! a = if decide (a ∈ cs) then Some (default [] (m !! a) ++ [v]) else m !! a.
Proof.
  induction cs as [|c cs IH]; intros m Hnd; unfold push_all in *; cbn [foldl].
  - by rewrite decide_False by apply not_elem_of_nil.
  - apply NoDup_cons in Hnd as [Hc Hnd]. rewrite IH by done.
    rewrite lookup_insert. destruct (decide (c = a)) as [->|Hne].
    + rewrite decide_False by done. by rewrite decide_True by apply list_elem_of_here.
    + destruct (decide (a ∈ cs)) as [Hin|Hin].
      * by rewrite decide_True by (by right).
      * rewrite decide_False; [done|]. rewrite elem_of_cons. intros [?|?]; congruence.
Qed.

Lemma clientValuesMap_snoc s values v f :
  clientValuesMap s (values ++ [v]) f =
  push_all (clientValuesMap s values f) v (getSubscribedClients s (prop v) f).
Proof. unfold clientValuesMap. by rewrite foldl_app. Qed.

(** The values of the batch client [a] is subscribed to, in order. *)
Definition values_for (s : SubscriptionManager) (f : Z) (a : Z) (values : list VehiclePropValue)
    : list VehiclePropValue :=
  filter (fun v => a ∈ getSubscribedClients s (prop v) f) values.

Lemma clientValuesMap_lookup s values f a :
  subs_ok s ->
  clientValuesMap s values f !! a =
  match values_for s f a values with [] => None | l => Some l end.
Proof.
  intros Hok. induction values as [|v values IH] using rev_ind; [done|].
  rewrite clientValuesMap_snoc, push_all_lookup by (by apply NoDup_subscribedClients).
  unfold values_for in *. rewrite filter_app, filter_cons, filter_nil.
  case_decide as Hin; rewrite IH.
  - by destruct (filter _ values).
  - by rewrite app_nil_r.
Qed.

Lemma distribute_elem s values f :
  subs_ok s ->
  let r := distributeValuesToClients s values f in
  NoDup r.*1 /\
  forall a vs, (a, vs) ∈ r <-> vs = values_for s f a values /\ vs <> [].
Proof.
  intros Hok r. unfold r, distributeValuesToClients.
  pose proof (fun a => clientValuesMap_lookup s values f a Hok) as Hmap. split.
  - rewrite <-list_fmap_compose. unfold compose. simpl. rewrite list_fmap_id.
    apply NoDup_sorted_keys.
  - intros a vs. rewrite list_elem_of_fmap. split.
    + intros (b & [= <- Hvs] & Hb%elem_of_sorted_keys). rewrite Hmap in Hvs, Hb.
      destruct (values_for s f a values); [by destruct Hb|by subst].
    + intros [Hvs Hne]. exists a. rewrite elem_of_sorted_keys, Hmap.
      destruct (values_for s f a values) as [|v l]; [done|]. subst. eauto.
Qed.

(** ** Lemmas: the options of a client *)

Lemma land_lor_ne0 a b f : Z.land (Z.lor a b) f <> 0 <-> Z.land a f <> 0 \/ Z.land b f <> 0.
Proof.
  rewrite Z.land_lor_distr_l. split.
  - destruct (decide (Z.land a f = 0)) as [->|]; [rewrite Z.lor_0_l|]; auto.
  - intros Hor Hz. apply Z.lor_eq_0_iff in Hz. tauto.
Qed.

Lemma merge_flags o1 o2 :
  match mergeSubscribeOptions o1 o2 with
  | Some o => flags o = Z.lor (flags o1) (flags o2)
  | None => flags o1 = Z.lor (flags o1) (flags o2)
  end.
Proof.
  unfold mergeSubscribeOptions. destruct (_ || _) eqn:Hb; [done|].
  apply orb_false_iff in Hb as [_ Hb%bool_decide_eq_false]. symmetry. by apply dec_stable.
Qed.

Lemma isSubscribed_add c opts p f :
  isSubscribed (client_addOrUpdateSubscription c opts) p f = true <->
  isSubscribed c p f = true \/ p = propId opts /\ Z.land (flags opts) f <> 0.
Proof.
  unfold client_addOrUpdateSubscription, isSubscribed.
  destruct (decide (p = propId opts)) as [->|Hne].
  - destruct (mSubscriptions c !! propId opts) as [o|] eqn:Ho.
    + pose proof (merge_flags o opts) as Hm. destruct (mergeSubscribeOptions o opts) as [o'|]; simpl.
      * rewrite lookup_insert_eq, !bool_decide_eq_true, Hm, land_lor_ne0. tauto.
      * rewrite Ho, !bool_decide_eq_true. rewrite Hm at 1. rewrite land_lor_ne0. tauto.
    + simpl. rewrite lookup_insert_eq, bool_decide_eq_true.
      split; [auto|]. intros [?|[_ ?]]; done.
  - destruct (mSubscriptions c !! propId opts) as [o|];
      [destruct (mergeSubscribeOptions o opts)|]; simpl;
      rewrite ?lookup_insert_ne by done; tauto.
Qed.

(** ** Properties *)

(** C5: in every reachable state of the subscription manager each client id
    maps to its own live client, and the vector of a property is non-empty,
    sorted without duplicates, and lists only registered live clients that
    hold options for that property; options kept for the HAL belong to
    properties that have a listener. *)
Theorem subscriptions_reachable_ok `{VehicleAbi} link_ok s :
  rtc (sub_step link_ok) no_subscriptions s -> subs_ok s.
Proof.
  intros Hrtc. refine (rtc_invariant (sub_step link_ok) subs_ok _ _ _ Hrtc _); [intros; by eapply sub_step_ok|].
  apply no_subscriptions_ok.
Qed.

(** [unsubscribe] takes exactly the client off the property's list and
    nothing else; the client stays registered exactly when another property
    still lists it; the property is reported unsubscribed, and its HAL options
    forgotten, exactly when nobody is left on its list. *)
Lemma unsubscribe_spec s cid p :
  subs_ok s ->
  let r := unsubscribe s cid p in
  (forall q b, listed r.2 q b <-> listed s q b /\ ~ (q = p /\ mClients s !! cid = Some b)) /\
  (forall c b, mClients r.2 !! c = Some b <->
     mClients s !! c = Some b /\ (c = cid -> exists q, listed r.2 q b)) /\
  (r.1 = [p] /\ mPropToClients r.2 !! p = None /\
     mHalEventSubscribeOptions r.2 = delete p (mHalEventSubscribeOptions s) \/
   r.1 = [] /\ is_Some (mPropToClients r.2 !! p) /\
     mHalEventSubscribeOptions r.2 = mHalEventSubscribeOptions s).
Proof.
  intros Hok r. destruct (unsubscribe_effect s cid p Hok) as (H1 & H2 & _ & H4).
  split; [exact H1|]. split; [exact H2|exact H4].
Qed.

(** The death of a client takes it off every property and leaves every
    other client where it was; the client is forgotten, unless it had
    registered with an empty list of options, in which case it stays
    registered. *)
Lemma callback_dead_spec s cid a c :
  subs_ok s -> mClients s !! cid = Some a -> objects s !! a = Some c ->
  let s' := (onCallbackDead s cid).2 in
  (forall q b, listed s' q b <-> listed s q b /\ b <> a) /\
  (forall k, mClients s' !! k =
     if decide (k = cid /\ mSubscriptions c <> ∅) then None else mClients s !! k).
Proof.
  intros Hok Hcid Hc s'. unfold s'. rewrite onCallbackDead_unfold, Hcid, Hc.
  assert (forall q, listed s q a -> q ∈ getSubscribedProperties c) as Hin.
  { intros q (vec & Hvec & Ha). destruct (ok_vec s Hok q vec Hvec) as (_ & _ & Hf).
    rewrite Forall_forall in Hf. destruct (Hf a Ha) as [_ (c' & o & Hc' & Ho)].
    unfold getSubscribedProperties. apply elem_of_sorted_keys. simplify_eq. eauto. }
  destruct (unsubscribe_all_effect cid a (getSubscribedProperties c) [] s) as [Hl Hm];
    [done|congruence|done|].
  assert (forall q b, listed (unsubscribe_all cid ([], s) (getSubscribedProperties c)).2 q b <->
            listed s q b /\ b <> a) as Hl'.
  { intros q b. rewrite Hl. split; [|tauto]. intros [Hq Hne]. split; [done|]. intros ->. auto. }
  split; [exact Hl'|]. intros k. apply option_eq. intros b. rewrite Hm. case_decide as Hk.
  - destruct Hk as [-> Hne]. split; [|done]. intros [_ Hor].
    destruct (Hor eq_refl) as [Hnil|[q [_ Hq]%Hl']]; [|done]. exfalso. apply Hne.
    apply map_empty. intros q. apply eq_None_not_Some. intros Hq.
    apply elem_of_sorted_keys in Hq. unfold getSubscribedProperties in Hnil.
    rewrite Hnil in Hq. by apply elem_of_nil in Hq.
  - split; [by intros [? _]|]. intros Hb. split; [done|]. intros ->. left.
    assert (mSubscriptions c = ∅) as Hemp by (apply dec_stable; tauto).
    unfold getSubscribedProperties. rewrite Hemp. reflexivity.
Qed.

(** Distributing a batch gives each client exactly the values of the
    properties it is subscribed to, in the order of the batch; a client
    appears once, and appears only if it gets something. *)
Lemma distribute_spec s values f :
  subs_ok s ->
  let r := distributeValuesToClients s values f in
  NoDup r.*1 /\
  forall a vs, (a, vs) ∈ r <-> vs = values_for s f a values /\ vs <> [].
Proof. exact (distribute_elem s values f). Qed.

(** Options given up by [unsubscribe] come back.  A client that keeps
    another subscription also keeps the options of the property it
    unsubscribed from; when it subscribes to that property again, its old
    flags are merged into the new ones. *)
Lemma resubscribe_keeps_old_flags `{VehicleAbi} link_ok s cid cb addr a c o1 o2 q f :
  subs_ok s -> mClients s !! cid = Some a -> objects s !! a = Some c ->
  mSubscriptions c !! propId o2 = Some o1 -> q <> propId o2 -> listed s q a ->
  let s1 := (unsubscribe s cid (propId o2)).2 in
  let s2 := (addOrUpdateSubscription link_ok s1 cid cb [o2] addr).2 in
  ~ listed s1 (propId o2) a /\
  (a ∈ getSubscribedClients s2 (propId o2) f <->
     Z.land (flags o1) f <> 0 \/ Z.land (flags o2) f <> 0).
Proof.
  intros Hok Hcid Hc Ho1 Hq Hlq s1 s2.
  destruct (unsubscribe_effect s cid (propId o2) Hok) as (Hl & Hm & Hob & _).
  pose proof (unsubscribe_ok s cid (propId o2) Hok) as Hok1. fold s1 in Hl, Hm, Hob, Hok1.
  split; [rewrite Hl; tauto|].
  assert (mClients s1 !! cid = Some a) as Hcid1.
  { apply Hm. split; [done|]. intros _. exists q. apply Hl. tauto. }
  assert (objects s1 !! a = Some c) as Hc1.
  { rewrite Hob; [done|]. by apply (ok_live s1 Hok1 cid). }
  set (c2 := client_addOrUpdateSubscription c o2).
  assert (objects s2 !! a = Some c2 /\ exists vec, mPropToClients s2 !! propId o2 = Some vec /\ a ∈ vec)
    as [Hc2 (vec & Hvec & Ha)].
  { unfold s2, addOrUpdateSubscription, getOrCreateHalClientLocked. rewrite Hcid1. simpl.
    set (t := addClientToPropMapLocked (update_client s1 a o2) (propId o2) a).
    assert (forall s', objects s' = objects t -> mPropToClients s' = mPropToClients t ->
      objects s' !! a = Some c2 /\
      exists vec, mPropToClients s' !! propId o2 = Some vec /\ a ∈ vec) as Hs'.
    { intros s' -> ->. simpl. rewrite lookup_alter_eq, Hc1, lookup_insert_eq. split; [done|].
      eexists. split; [done|]. apply elem_of_vec_add. auto. }
    case_bool_decide; [|by apply Hs'].
    unfold updateHalEventSubscriptionLocked.
    destruct (mHalEventSubscribeOptions _ !! propId o2) as [o|];
      [destruct (mergeSubscribeOptions o o2)|]; apply Hs'; reflexivity. }
  unfold getSubscribedClients, getClientsForPropertyLocked. rewrite Hvec, list_elem_of_filter.
  unfold client_subscribed. rewrite Hc2. unfold c2. rewrite isSubscribed_add.
  unfold isSubscribed. rewrite Ho1, bool_decide_eq_true. tauto.
Qed.


(** ** Witnesses *)

(** Two clients: the first listens to properties 1 and 2, the second to 1. *)
Definition demo_manager : SubscriptionManager :=
  let '(_, _, s1) := @addOrUpdateSubscription aosp_abi (fun _ => true) no_subscriptions 7 70
    [mkOpts 1 (S754_zero false) 1; mkOpts 2 (S754_zero false) 3] 100 in
  let '(_, _, s2) := @addOrUpdateSubscription aosp_abi (fun _ => true) s1 8 80
    [mkOpts 1 (S754_zero false) 2] 200 in s2.

Lemma demo_manager_reachable : rtc (@sub_step aosp_abi (fun _ => true)) no_subscriptions demo_manager.
Proof.
  eapply rtc_l; [apply (@SubAdd aosp_abi (fun _ => true) _ 7 70
    [mkOpts 1 (S754_zero false) 1; mkOpts 2 (S754_zero false) 3] 100); reflexivity|].
  eapply rtc_l; [apply (@SubAdd aosp_abi (fun _ => true) _ 8 80
    [mkOpts 1 (S754_zero false) 2] 200); vm_compute; reflexivity|].
  apply rtc_refl.
Qed.

Lemma demo_manager_ok : subs_ok demo_manager.
Proof.
  refine (rtc_invariant _ subs_ok _ _ _ demo_manager_reachable no_subscriptions_ok).
  intros s s' Hstep Hok. by eapply sub_step_ok.
Qed.

Lemma demo_manager_listed : listed demo_manager 2 100.
Proof. eexists. split; [vm_compute; reflexivity|apply list_elem_of_here]. Qed.

Lemma subscriptions_reachable_ok_witness : subs_ok demo_manager.
Proof. exact (@subscriptions_reachable_ok aosp_abi (fun _ => true) _ demo_manager_reachable). Defined.
