(* ===== verification/ObjectPool.v ===== *)
(** * vehicle/common/src/VehicleObjectPool.cpp, include/vhal_v2_0/VehicleObjectPool.h

    Pools of recycled property values, one per (type, vector size), found under
    the key [type | vecSize].  A [recyclable_ptr] is a [unique_ptr] with a
    deleter: ownership moves, nothing is shared, so an obtained object is a
    value together with the pool it goes back to.  Every operation runs under
    the pool's lock and is one step.  Memory given to a new object is the
    argument [junk]. *)

From S2P Require Import Prelude VehicleTypes.

(** ** Data *)

Record InternalPool := mkPool {
  mPropType : Z; mVectorSize : nat; mObjects : list VehiclePropValue
}.

Record VehiclePropValuePool := mkPools {
  mMaxRecyclableVectorSize : nat;
  mValueTypePools : gmap Z InternalPool
}.

(** Where the deleter of a pointer sends the object. *)
Inductive Deleter := Disposable | Recycle (key : Z).

(** A [recyclable_ptr]; [rp_value = None] is the null pointer. *)
Record RecyclableType := mkRecyclable {
  rp_value : option VehiclePropValue; rp_deleter : Deleter
}.

Definition new_pool (maxRecyclableVectorSize : nat) : VehiclePropValuePool :=
  mkPools maxRecyclableVectorSize ∅.

Section ObjectPool.
Context `{VehicleAbi}.

(** ** InternalPool *)

Definition createObject (junk : VehiclePropValue) (p : InternalPool) : option VehiclePropValue :=
  createVehiclePropValue junk (mPropType p) (mVectorSize p).

(** [ObjectPool::obtain]. *)
Definition pool_obtain (junk : VehiclePropValue) (p : InternalPool)
    : option VehiclePropValue * InternalPool :=
  match mObjects p with
  | [] => (createObject junk p, p)
  | o :: os => (Some o, mkPool (mPropType p) (mVectorSize p) os)
  end.

Definition check_vec {A} (p : InternalPool) (vec : list A) (expected : bool) : bool :=
  bool_decide (length vec = if expected then mVectorSize p else 0%nat).

Definition check (p : InternalPool) (v : RawValue) : bool :=
  check_vec p (int32Values v) (is_int32_type (mPropType p)) &&
  check_vec p (floatValues v) (is_float_type (mPropType p)) &&
  check_vec p (int64Values v) (is_int64_type (mPropType p)) &&
  check_vec p (bytes v) (bool_decide (T_BYTES = mPropType p)) &&
  bool_decide (stringValue v = EmptyString).

(** [InternalPool::recycle] of a non-null object: kept or deleted. *)
Definition pool_recycle (o : VehiclePropValue) (p : InternalPool) : InternalPool :=
  if check p (value o) then mkPool (mPropType p) (mVectorSize p) (mObjects p ++ [o]) else p.

(** ** VehiclePropValuePool *)

Definition isDisposable (s : VehiclePropValuePool) (type : Z) (vecSize : nat) : bool :=
  (mMaxRecyclableVectorSize s <? vecSize)%nat ||
  bool_decide (T_STRING = type) || bool_decide (T_MIXED = type).

Definition obtainDisposable (junk : VehiclePropValue) (valueType : Z) (vectorSize : nat)
    : RecyclableType :=
  mkRecyclable (createVehiclePropValue junk valueType vectorSize) Disposable.

(** The key is computed on [int32_t]: the size is narrowed first. *)
Definition pool_key (type : Z) (vecSize : nat) : Z :=
  Z.lor type (wrap_s 32 (Z.of_nat vecSize)).

Definition obtainRecylable (junk : VehiclePropValue) (s : VehiclePropValuePool) (type : Z)
    (vecSize : nat) : RecyclableType * VehiclePropValuePool :=
  let key := pool_key type vecSize in
  let pool := default (mkPool type vecSize []) (mValueTypePools s !! key) in
  let '(o, pool') := pool_obtain junk pool in
  (mkRecyclable o (Recycle key),
   mkPools (mMaxRecyclableVectorSize s) (<[key := pool']> (mValueTypePools s))).

Definition obtain (junk : VehiclePropValue) (s : VehiclePropValuePool) (type : Z) (vecSize : nat)
    : RecyclableType * VehiclePropValuePool :=
  if isDisposable s type vecSize then (obtainDisposable junk type vecSize, s)
  else obtainRecylable junk s type vecSize.

(** The obtained object assigned through the pointer; [None] dereferences
    a null pointer. *)
Definition assign (f : VehiclePropValue -> option VehiclePropValue)
    (r : RecyclableType * VehiclePropValuePool) : option (RecyclableType * VehiclePropValuePool) :=
  v ← rp_value r.1; v' ← f v; Some (mkRecyclable (Some v') (rp_deleter r.1), r.2).

Definition set_raw (v : VehiclePropValue) (r : RawValue) : VehiclePropValue :=
  mkValue (timestamp v) (areaId v) (prop v) (status v) r.

(** [obtain(const VehiclePropValue&)]. *)
Definition obtain_copy (junk : VehiclePropValue) (s : VehiclePropValuePool) (src : VehiclePropValue)
    : option (RecyclableType * VehiclePropValuePool) :=
  if bool_decide (prop src = PROP_INVALID) then Some (mkRecyclable None Disposable, s)
  else
    let type := getPropType (prop src) in
    let vecSize := getVehicleRawValueVectorSize (value src) type in
    assign (fun dest => Some (mkValue (timestamp src) (areaId src) (prop src) (status src)
                                (copyVehicleRawValue (value dest) (value src))))
      (obtain junk s type vecSize).

Definition obtain_type (junk : VehiclePropValue) (s : VehiclePropValuePool) (type : Z) :=
  obtain junk s type 1.

Definition obtainInt32 (junk : VehiclePropValue) (s : VehiclePropValuePool) (x : Z) :=
  assign (fun v => l ← arr_set (int32Values (value v)) 0 x; Some (set_int32Values v l))
    (obtain_type junk s T_INT32).

Definition obtainBoolean (junk : VehiclePropValue) (s : VehiclePropValuePool) (b : bool) :=
  obtainInt32 junk s (if b then 1 else 0).

Definition obtainInt64 (junk : VehiclePropValue) (s : VehiclePropValuePool) (x : Z) :=
  assign (fun v =>
    l ← arr_set (int64Values (value v)) 0 x;
    Some (set_raw v (mkRaw (int32Values (value v)) (floatValues (value v)) l (bytes (value v))
                       (stringValue (value v)))))
    (obtain_type junk s T_INT64).

Definition obtainFloat (junk : VehiclePropValue) (s : VehiclePropValuePool) (x : spec_float) :=
  assign (fun v =>
    l ← arr_set (floatValues (value v)) 0 x;
    Some (set_raw v (mkRaw (int32Values (value v)) l (int64Values (value v)) (bytes (value v))
                       (stringValue (value v)))))
    (obtain_type junk s T_FLOAT).

Definition obtainString (junk : VehiclePropValue) (s : VehiclePropValuePool) (str : string) :=
  assign (fun v =>
    Some (set_raw v (mkRaw (int32Values (value v)) (floatValues (value v)) (int64Values (value v))
                       (bytes (value v)) str)))
    (obtain_type junk s T_STRING).

Definition obtainComplex (junk : VehiclePropValue) (s : VehiclePropValuePool) :=
  obtain_type junk s T_MIXED.

(** The pointer goes out of scope; its owner may have changed the object. *)
Definition release (r : RecyclableType) (s : VehiclePropValuePool) : VehiclePropValuePool :=
  match rp_value r, rp_deleter r with
  | Some o, Recycle key =>
      mkPools (mMaxRecyclableVectorSize s) (alter (pool_recycle o) key (mValueTypePools s))
  | _, _ => s
  end.

(** ** Steps

    The type is an enumerator of [VehiclePropertyType] or comes from
    [getPropType]: it lies under [VehiclePropertyType::MASK]. *)

Inductive pool_step : VehiclePropValuePool -> VehiclePropValuePool -> Prop :=
  | PoolObtain junk s type vecSize :
      Z.land type T_MASK = type -> pool_step s (obtain junk s type vecSize).2
  | PoolRelease s r : pool_step s (release r s).

(** ** Invariant *)

Definition pool_ok (maxSize : nat) (key : Z) (p : InternalPool) : Prop :=
  key = pool_key (mPropType p) (mVectorSize p) /\ Z.land (mPropType p) T_MASK = mPropType p /\
  (mVectorSize p <= maxSize)%nat /\
  mPropType p <> T_STRING /\ mPropType p <> T_MIXED /\
  Forall (fun o => check p (value o) = true) (mObjects p).

Definition pools_ok (s : VehiclePropValuePool) : Prop :=
  map_Forall (pool_ok (mMaxRecyclableVectorSize s)) (mValueTypePools s).

(** The contents a value of a type and vector size has. *)
Definition shape (type : Z) (n : nat) (r : RawValue) : Prop :=
  length (int32Values r) = (if is_int32_type type then n else 0%nat) /\
  length (floatValues r) = (if is_float_type type then n else 0%nat) /\
  length (int64Values r) = (if is_int64_type type then n else 0%nat) /\
  length (bytes r) = (if bool_decide (T_BYTES = type) then n else 0%nat) /\
  stringValue r = EmptyString.

(** ** Lemmas *)

Lemma check_shape p r : check p r = true <-> shape (mPropType p) (mVectorSize p) r.
Proof. unfold check, check_vec, shape. rewrite !andb_true_iff, !bool_decide_eq_true. tauto. Qed.

Context `{!VehicleAbiLaws}.

(** At most one of the four families of types. *)
Lemma type_families t :
  (is_int32_type t = true -> is_float_type t = false /\ is_int64_type t = false /\ t <> T_BYTES) /\
  (is_float_type t = true -> is_int64_type t = false /\ t <> T_BYTES) /\
  (is_int64_type t = true -> t <> T_BYTES).
Proof.
  pose proof types_distinct as Hnd. unfold value_types in Hnd.
  rewrite !NoDup_cons, !elem_of_cons in Hnd.
  unfold is_int32_type, is_float_type, is_int64_type. rewrite !bool_decide_eq_true,
    !bool_decide_eq_false, !elem_of_cons.
  split_and!; intros Ht; split_and?; intros Hc; rewrite ?elem_of_nil in *;
    repeat match goal with Hx : _ \/ _ |- _ => destruct Hx end; subst; tauto || congruence.
Qed.

Lemma create_shape junk type n v :
  createVehiclePropValue junk type n = Some v -> shape type n (value v).
Proof.
  destruct (type_families type) as (H1 & H2 & H3).
  unfold createVehiclePropValue, shape.
  destruct (is_int32_type type) eqn:E1.
  { destruct H1 as (-> & -> & Hb); [done|]. intros [= <-]. simpl.
    rewrite bool_decide_eq_false_2 by congruence. rewrite length_hidl_resize. done. }
  destruct (is_float_type type) eqn:E2.
  { destruct H2 as (-> & Hb); [done|]. intros [= <-]. simpl.
    rewrite bool_decide_eq_false_2 by congruence. rewrite length_hidl_resize. done. }
  destruct (is_int64_type type) eqn:E3.
  { intros [= <-]. simpl. rewrite bool_decide_eq_false_2 by (symmetry; auto).
    rewrite length_hidl_resize. done. }
  destruct (decide (type = T_BYTES)) as [->|Hb].
  { rewrite !bool_decide_eq_true_2 by done. intros [= <-]. simpl.
    by rewrite length_hidl_resize. }
  rewrite (bool_decide_eq_false_2 (type = T_BYTES)) by done.
  rewrite (bool_decide_eq_false_2 (T_BYTES = type)) by congruence.
  case_bool_decide; [|done]. by intros [= <-].
Qed.

(** [VehiclePropertyType is not overlapping with vectorSize]. *)
Lemma pool_key_injective t1 t2 n1 n2 :
  Z.land t1 T_MASK = t1 -> Z.land t2 T_MASK = t2 ->
  Z.of_nat n1 <= 0xffff -> Z.of_nat n2 <= 0xffff ->
  pool_key t1 n1 = pool_key t2 n2 -> t1 = t2 /\ n1 = n2.
Proof.
  intros Ht1 Ht2 Hn1 Hn2. unfold pool_key.
  rewrite !wrap_s_id by (unfold in_s; lia). intros Heq.
  assert (forall t n, Z.land t T_MASK = t -> 0 <= n < 2 ^ 16 ->
    Z.land (Z.lor t n) (Z.ones 16) = n /\ Z.land (Z.lor t n) T_MASK = t) as Hsplit.
  { intros t n Ht Hn.
    assert (Z.land n (Z.ones 16) = n) as Hlow by (rewrite Z.land_ones, Z.mod_small; lia).
    rewrite !Z.land_lor_distr_l. split.
    - rewrite <-Ht at 1. rewrite <-Z.land_assoc, mask_above_16_bits, Z.land_0_r, Z.lor_0_l. done.
    - rewrite Ht, <-Hlow, <-Z.land_assoc, (Z.land_comm (Z.ones 16)), mask_above_16_bits.
      by rewrite Z.land_0_r, Z.lor_0_r. }
  destruct (Hsplit t1 (Z.of_nat n1)) as [Hl1 Hh1]; [done|lia|].
  destruct (Hsplit t2 (Z.of_nat n2)) as [Hl2 Hh2]; [done|lia|].
  rewrite Heq in Hl1, Hh1. split; [congruence|lia].
Qed.

Lemma pool_obtain_ok junk maxSize key p o p' :
  pool_ok maxSize key p -> pool_obtain junk p = (o, p') ->
  pool_ok maxSize key p' /\
  forall v, o = Some v -> shape (mPropType p) (mVectorSize p) (value v).
Proof.
  intros (Hk & Hm & Hn & Hs & Hx & Hf). unfold pool_obtain.
  destruct (mObjects p) as [|x os] eqn:Hobj.
  - intros [= <- <-]. split; [by repeat (split; [done|]); rewrite Hobj|].
    intros v. apply create_shape.
  - intros [= <- <-]. apply Forall_cons in Hf as [Hc Hf]. split; [done|].
    intros v [= <-]. by apply check_shape.
Qed.

(** The pool [obtainRecylable] finds or creates is the one of the type and
    size asked for. *)
Lemma found_pool s type n :
  pools_ok s -> Z.land type T_MASK = type -> Z.of_nat (mMaxRecyclableVectorSize s) <= 0xffff ->
  isDisposable s type n = false ->
  let p := default (mkPool type n []) (mValueTypePools s !! pool_key type n) in
  pool_ok (mMaxRecyclableVectorSize s) (pool_key type n) p /\
  mPropType p = type /\ mVectorSize p = n.
Proof.
  intros Hok Ht Hmax. unfold isDisposable. rewrite !orb_false_iff, !bool_decide_eq_false.
  intros [[Hn%Nat.ltb_ge Hs] Hx].
  destruct (mValueTypePools s !! pool_key type n) as [p|] eqn:Hp; simpl.
  - pose proof (Hok _ _ Hp) as Hpk. split; [done|]. destruct Hpk as (Hk & Hm & Hle & _).
    destruct (pool_key_injective type (mPropType p) n (mVectorSize p)); [done|done|lia|lia|done|].
    done.
  - split; [|done]. split_and!; simpl; [done|done|lia|congruence|congruence|constructor].
Qed.

Lemma pool_step_ok s s' :
  Z.of_nat (mMaxRecyclableVectorSize s) <= 0xffff -> pool_step s s' -> pools_ok s ->
  pools_ok s' /\ mMaxRecyclableVectorSize s' = mMaxRecyclableVectorSize s.
Proof.
  intros Hmax Hstep. destruct Hstep as [junk s type n Ht|s r]; intros Hok.
  - unfold obtain. destruct (isDisposable s type n) eqn:Hd; [done|]. unfold obtainRecylable.
    destruct (found_pool s type n Hok Ht Hmax Hd) as (Hp & _).
    destruct (pool_obtain junk _) as [o p'] eqn:Ho. split; [|done]. simpl.
    apply map_Forall_insert_2; [|done]. by eapply pool_obtain_ok.
  - unfold release. destruct (rp_value r) as [o|]; [|done]. destruct (rp_deleter r) as [|key]; [done|].
    split; [|done]. intros k p. simpl. rewrite lookup_alter. case_decide as Hk; [subst k|apply Hok].
    intros (q & Hq & ->)%fmap_Some. destruct (Hok _ _ Hq) as (Hk & Hm & Hn & Hs & Hx & Hf).
    unfold pool_recycle. destruct (check q (value o)) eqn:Hc; [|done].
    split_and!; simpl; try done. apply Forall_app. split; [done|]. by repeat constructor.
Qed.

Definition reachable_pool (s : VehiclePropValuePool) : Prop :=
  exists maxSize, Z.of_nat maxSize <= 0xffff /\ rtc pool_step (new_pool maxSize) s.

Lemma reachable_pool_ok s :
  reachable_pool s -> pools_ok s /\ Z.of_nat (mMaxRecyclableVectorSize s) <= 0xffff.
Proof.
  intros (n & Hn & Hr).
  refine (rtc_invariant pool_step (fun s => pools_ok s /\ _ <= 0xffff) _ _ _ Hr _).
  - intros s1 s2 Hstep [Hok Hle]. destruct (pool_step_ok s1 s2 Hle Hstep Hok) as [? ->]. done.
  - split; [|done]. intros k p Hp. simpl in Hp. by rewrite lookup_empty in Hp.
Qed.

Lemma value_type_masked type : type ∈ value_types -> Z.land type T_MASK = type.
Proof. pose proof types_masked as Hm. rewrite Forall_forall in Hm. apply Hm. Qed.

Lemma obtain_Some junk s type n :
  pools_ok s -> Z.of_nat (mMaxRecyclableVectorSize s) <= 0xffff -> type ∈ value_types ->
  exists v, rp_value (obtain junk s type n).1 = Some v /\ shape type n (value v).
Proof.
  intros Hok Hle Ht. unfold obtain. destruct (isDisposable s type n) eqn:Hd; simpl.
  - destruct (createVehiclePropValue_Some junk type n Ht) as [v Hv].
    exists v. split; [done|]. by eapply create_shape.
  - unfold obtainRecylable.
    destruct (found_pool s type n Hok (value_type_masked type Ht) Hle Hd) as (Hp & Hpt & Hpn).
    set (p := default _ _) in *.
    destruct (pool_obtain junk p) as [o p'] eqn:Ho. simpl.
    destruct (pool_obtain_ok junk _ _ p o p' Hp Ho) as [_ Hshape].
    rewrite Hpt, Hpn in Hshape.
    assert (is_Some o) as [v ->]; [|eauto].
    revert Ho. unfold pool_obtain, createObject. rewrite Hpt, Hpn. destruct (mObjects p).
    + intros [= <- _]. destruct (createVehiclePropValue_Some junk type n Ht). eauto.
    + intros [= <- _]. eauto.
Qed.

(** A shape whose vector lengths are known. *)
Lemma shape_raw t n r a b c d :
  shape t n r ->
  is_int32_type t = a -> is_float_type t = b -> is_int64_type t = c ->
  bool_decide (T_BYTES = t) = d ->
  exists li lf ll lb, r = mkRaw li lf ll lb EmptyString /\
    length li = (if a then n else 0%nat) /\ length lf = (if b then n else 0%nat) /\
    length ll = (if c then n else 0%nat) /\ length lb = (if d then n else 0%nat).
Proof.
  intros (H1 & H2 & H3 & H4 & H5) <- <- <- <-.
  destruct r as [li lf ll lb st]; simpl in *. subst. eauto 10.
Qed.

Lemma length_one {A} (l : list A) : length l = 1%nat -> exists x, l = [x].
Proof. destruct l as [|x [|]]; try done. eauto. Qed.

Lemma scalar_type_families :
  (is_int32_type T_INT32 = true) /\ (is_float_type T_FLOAT = true) /\
  (is_int64_type T_INT64 = true) /\
  (is_int32_type T_INT64 = false /\ is_float_type T_INT64 = false) /\
  is_int32_type T_FLOAT = false /\
  (is_int32_type T_STRING = false /\ is_float_type T_STRING = false /\
   is_int64_type T_STRING = false /\ T_BYTES <> T_STRING).
Proof.
  pose proof types_distinct as Hnd. unfold value_types in Hnd.
  rewrite !NoDup_cons, !elem_of_cons in Hnd.
  unfold is_int32_type, is_float_type, is_int64_type.
  rewrite !bool_decide_eq_true, !bool_decide_eq_false, !elem_of_cons, !elem_of_nil.
  split_and!; try (by left); try (by intros Hc; intuition congruence).
Qed.

Lemma one_value t r a b c d :
  shape t 1 r -> is_int32_type t = a -> is_float_type t = b -> is_int64_type t = c ->
  bool_decide (T_BYTES = t) = d ->
  exists li lf ll lb, r = mkRaw li lf ll lb EmptyString /\
    (if a then exists x, li = [x] else li = []) /\ (if b then exists x, lf = [x] else lf = []) /\
    (if c then exists x, ll = [x] else ll = []) /\ (if d then exists x, lb = [x] else lb = []).
Proof.
  intros Hs Ha Hb Hc Hd.
  destruct (shape_raw t 1 r a b c d Hs Ha Hb Hc Hd) as (li & lf & ll & lb & -> & H1 & H2 & H3 & H4).
  exists li, lf, ll, lb. split_and!; [done|..]; repeat case_match;
    first [by apply length_one|by apply nil_length_inv].
Qed.

(** ** Properties *)

(** In every reachable state of a pool for vectors of at most 0xffff
    elements, an object obtained for a known type and vector size is never
    null and has exactly the vectors of that type and size, whether it was
    allocated or recycled, and whatever its previous owner did to it. *)
Lemma obtain_right_shape junk s type n :
  reachable_pool s -> type ∈ value_types ->
  exists v, rp_value (obtain junk s type n).1 = Some v /\ shape type n (value v).
Proof. intros [Hok Hle]%reachable_pool_ok Ht. by apply obtain_Some. Qed.

(** Obtaining a copy of a valid property of a known type gives exactly
    that property, whatever was in the recycled object; a copy of the invalid
    property is null, and one of an unknown type dereferences a null pointer
    on a fresh pool. *)
Lemma obtain_copy_spec junk s src :
  reachable_pool s ->
  (prop src = PROP_INVALID -> obtain_copy junk s src = Some (mkRecyclable None Disposable, s)) /\
  (prop src <> PROP_INVALID -> getPropType (prop src) ∈ value_types ->
     exists d s', obtain_copy junk s src = Some (mkRecyclable (Some src) d, s')) /\
  (prop src <> PROP_INVALID -> getPropType (prop src) ∉ value_types ->
     obtain_copy junk (new_pool 4) src = None).
Proof.
  intros [Hok Hle]%reachable_pool_ok. unfold obtain_copy. split_and!.
  - intros ->. by rewrite bool_decide_eq_true_2.
  - intros Hne Ht. rewrite bool_decide_eq_false_2 by done. unfold assign.
    set (n := getVehicleRawValueVectorSize _ _).
    destruct (obtain_Some junk s _ n Hok Hle Ht) as (v & Hv & _). rewrite Hv. simpl.
    destruct src as [? ? ? ? []]; simpl. unfold copyVehicleRawValue. simpl. eauto.
  - intros Hne Ht. rewrite bool_decide_eq_false_2 by done. unfold assign.
    set (t := getPropType (prop src)) in *.
    assert (forall n, createVehiclePropValue junk t n = None) as Hnone.
    { intros n. unfold createVehiclePropValue, is_int32_type, is_float_type, is_int64_type.
      unfold value_types in Ht. rewrite !elem_of_cons in Ht.
      repeat (rewrite bool_decide_eq_false_2; [|rewrite ?elem_of_cons; tauto]). done. }
    unfold obtain. destruct (isDisposable _ _ _); simpl.
    + by rewrite Hnone.
    + unfold obtainRecylable. simpl. rewrite lookup_empty. simpl.
      unfold pool_obtain, createObject. simpl. by rewrite Hnone.
Qed.

(** The typed [obtain] functions return a value that holds exactly the
    scalar or string they were given. *)
Lemma obtain_typed_spec junk s x f str :
  reachable_pool s ->
  (exists v d s', obtainInt32 junk s x = Some (mkRecyclable (Some v) d, s') /\
     value v = mkRaw [x] [] [] [] EmptyString) /\
  (exists v d s', obtainInt64 junk s x = Some (mkRecyclable (Some v) d, s') /\
     value v = mkRaw [] [] [x] [] EmptyString) /\
  (exists v d s', obtainFloat junk s f = Some (mkRecyclable (Some v) d, s') /\
     value v = mkRaw [] [f] [] [] EmptyString) /\
  (exists v d s', obtainString junk s str = Some (mkRecyclable (Some v) d, s') /\
     value v = mkRaw [] [] [] [] str).
Proof.
  intros [Hok Hle]%reachable_pool_ok.
  assert (forall t, t ∈ value_types -> exists v,
    rp_value (obtain_type junk s t).1 = Some v /\ shape t 1 (value v)) as Hobt.
  { intros t Ht. by apply obtain_Some. }
  unfold obtainInt32, obtainInt64, obtainFloat, obtainString, assign.
  destruct scalar_type_families as (Hi & Hf & Hl & (Hl1 & Hl2) & Hf1 & Hs1 & Hs2 & Hs3 & Hs4).
  destruct (type_families T_INT32) as (Hi' & _ & _), (type_families T_FLOAT) as (_ & Hf' & _),
    (type_families T_INT64) as (_ & _ & Hl').
  specialize (Hi' Hi) as (Hi1 & Hi2 & Hi3). specialize (Hf' Hf) as (Hf2 & Hf3).
  specialize (Hl' Hl).
  split_and!.
  - destruct (Hobt T_INT32) as (v & -> & Hs); [unfold value_types; rewrite !elem_of_cons; tauto|].
    destruct (one_value _ _ _ _ _ _ Hs Hi Hi1 Hi2 (bool_decide_eq_false_2 _ (not_eq_sym Hi3)))
      as (? & ? & ? & ? & Hv & [y ->] & -> & -> & ->).
    simpl. rewrite Hv. simpl. eexists _, _, _. split; [done|]. unfold set_int32Values.
    rewrite Hv. done.
  - destruct (Hobt T_INT64) as (v & -> & Hs); [unfold value_types; rewrite !elem_of_cons; tauto|].
    destruct (one_value _ _ _ _ _ _ Hs Hl1 Hl2 Hl (bool_decide_eq_false_2 _ (not_eq_sym Hl')))
      as (? & ? & ? & ? & Hv & -> & -> & [y ->] & ->).
    simpl. rewrite Hv. simpl. eexists _, _, _. split; [done|]. done.
  - destruct (Hobt T_FLOAT) as (v & -> & Hs); [unfold value_types; rewrite !elem_of_cons; tauto|].
    destruct (one_value _ _ _ _ _ _ Hs Hf1 Hf Hf2 (bool_decide_eq_false_2 _ (not_eq_sym Hf3)))
      as (? & ? & ? & ? & Hv & -> & [y ->] & -> & ->).
    simpl. rewrite Hv. simpl. eexists _, _, _. split; [done|]. done.
  - destruct (Hobt T_STRING) as (v & -> & Hs); [unfold value_types; rewrite !elem_of_cons; tauto|].
    destruct (one_value _ _ _ _ _ _ Hs Hs1 Hs2 Hs3 (bool_decide_eq_false_2 _ Hs4))
      as (? & ? & ? & ? & Hv & -> & -> & -> & ->).
    simpl. rewrite Hv. simpl. eexists _, _, _. split; [done|]. done.
Qed.

End ObjectPool.

(** ** Witnesses *)

Definition demo_junk : VehiclePropValue := mkValue 11 22 33 44 empty_raw.

(** A pool after an [INT32_VEC] of two elements came back. *)
Definition demo_pools : VehiclePropValuePool :=
  let r := @obtain aosp_abi demo_junk (new_pool 4) 0x00410000 2 in
  @release aosp_abi r.1 r.2.

Lemma demo_pools_reachable : @reachable_pool aosp_abi demo_pools.
Proof.
  exists 4%nat. split; [lia|]. eapply rtc_l; [|eapply rtc_l; [|apply rtc_refl]].
  - apply (@PoolObtain aosp_abi demo_junk (new_pool 4) 0x00410000 2). reflexivity.
  - apply (@PoolRelease aosp_abi _ (@obtain aosp_abi demo_junk (new_pool 4) 0x00410000 2).1).
Qed.
