(* ===== verification/Obd2.v ===== *)
(** * vehicle/common/src/Obd2SensorStore.cpp

    The OBD2 frame: the integer sensors, the float sensors and a bit per
    sensor saying whether it was ever stored.  Indexing a [std::vector] out of
    range is undefined behaviour: [None].  The last system indices are values
    of the generated HIDL types. *)

From S2P Require Import Prelude VehicleTypes.

Class Obd2Abi := { LAST_SYSTEM_INT : nat; LAST_SYSTEM_FLOAT : nat }.

(** ** BitmaskInVector: bytes as integers in [0, 256) *)

Definition bitmask_resize (numBits : nat) : list Z := replicate ((numBits + 7) / 8) 0.

(** [byte & ~(1 << bitIndex)] is computed on [int] and stored as [uint8_t]. *)
Definition bitmask_set (mStorage : list Z) (index : nat) (v : bool) : option (list Z) :=
  let byteIndex := Z.of_nat (index / 8) in
  let bitIndex := Z.of_nat (index mod 8) in
  byte ← arr_get mStorage byteIndex;
  let newValue :=
    wrap_u 8 (if v then Z.lor byte (Z.shiftl 1 bitIndex)
              else Z.land byte (Z.lnot (Z.shiftl 1 bitIndex))) in
  arr_set mStorage byteIndex newValue.

Definition bitmask_get (mStorage : list Z) (index : nat) : option bool :=
  let byteIndex := Z.of_nat (index / 8) in
  let bitIndex := Z.of_nat (index mod 8) in
  byte ← arr_get mStorage byteIndex;
  Some (bool_decide (Z.land byte (Z.shiftl 1 bitIndex) <> 0)).

(** ** The store *)

Record Obd2SensorStore := mkObd2 {
  mIntegerSensors : list Z; mFloatSensors : list spec_float; mSensorsBitmask : list Z
}.

Definition obd2_new `{Obd2Abi} (numVendorIntegerSensors numVendorFloatSensors : nat)
    : Obd2SensorStore :=
  let numSystemIntegerSensors := (LAST_SYSTEM_INT + 1)%nat in
  let numSystemFloatSensors := (LAST_SYSTEM_FLOAT + 1)%nat in
  let ints := replicate (numSystemIntegerSensors + numVendorIntegerSensors) 0 in
  let floats := replicate (numSystemFloatSensors + numVendorFloatSensors) (S754_zero false) in
  mkObd2 ints floats (bitmask_resize (length ints + length floats)).

Definition setIntegerSensor (s : Obd2SensorStore) (index : nat) (v : Z)
    : option (StatusCode * Obd2SensorStore) :=
  ints ← arr_set (mIntegerSensors s) (Z.of_nat index) v;
  mask ← bitmask_set (mSensorsBitmask s) index true;
  Some (OK, mkObd2 ints (mFloatSensors s) mask).

Definition setFloatSensor (s : Obd2SensorStore) (index : nat) (v : spec_float)
    : option (StatusCode * Obd2SensorStore) :=
  floats ← arr_set (mFloatSensors s) (Z.of_nat index) v;
  mask ← bitmask_set (mSensorsBitmask s) (index + length (mIntegerSensors s)) true;
  Some (OK, mkObd2 (mIntegerSensors s) floats mask).

Definition fillPropValue (s : Obd2SensorStore) (dtc : string) (now : Z) (v : VehiclePropValue)
    : VehiclePropValue :=
  mkValue now (areaId v) (prop v) (status v)
    (mkRaw (mIntegerSensors s) (mFloatSensors s) (int64Values (value v)) (mSensorsBitmask s) dtc).

(** ** Invariant *)

Definition byte_ok (b : Z) : Prop := 0 <= b < 2 ^ 8.

Definition obd2_ok (s : Obd2SensorStore) : Prop :=
  Forall byte_ok (mSensorsBitmask s) /\
  (length (mIntegerSensors s) + length (mFloatSensors s) <= 8 * length (mSensorsBitmask s))%nat.

(** ** Lemmas *)

Lemma shiftl1_pow i : 0 <= i -> Z.shiftl 1 i = 2 ^ i.
Proof. intros. rewrite Z.shiftl_mul_pow2 by lia. lia. Qed.

Lemma land_bit_ne0 b i : 0 <= i -> Z.land b (Z.shiftl 1 i) <> 0 <-> Z.testbit b i = true.
Proof.
  intros Hi. rewrite shiftl1_pow by done. split.
  - intros Hne. destruct (Z.testbit b i) eqn:Hb; [done|]. exfalso. apply Hne.
    apply Z.bits_inj'. intros n Hn. rewrite Z.land_spec, Z.pow2_bits_eqb, Z.bits_0 by lia.
    destruct (Z.eqb_spec i n) as [->|]; [by rewrite Hb|apply andb_false_r].
  - intros Hb Hz. assert (Z.testbit (Z.land b (2 ^ i)) i = true) as Ht; [|by rewrite Hz, Z.bits_0 in Ht].
    rewrite Z.land_spec, Hb, Z.pow2_bits_true by lia. done.
Qed.

Lemma testbit_set b i j (v : bool) :
  0 <= i < 8 -> 0 <= j < 8 ->
  Z.testbit (wrap_u 8 (if v then Z.lor b (Z.shiftl 1 i) else Z.land b (Z.lnot (Z.shiftl 1 i)))) j =
  if decide (i = j) then v else Z.testbit b j.
Proof.
  intros Hi Hj. unfold wrap_u. rewrite Z.mod_pow2_bits_low, shiftl1_pow by lia.
  destruct v.
  - rewrite Z.lor_spec, Z.pow2_bits_eqb by lia.
    case_decide; [subst; rewrite Z.eqb_refl; apply orb_true_r|].
    rewrite (proj2 (Z.eqb_neq i j)) by done. apply orb_false_r.
  - rewrite Z.land_spec, Z.lnot_spec, Z.pow2_bits_eqb by lia.
    case_decide; [subst; rewrite Z.eqb_refl; apply andb_false_r|].
    rewrite (proj2 (Z.eqb_neq i j)) by done. apply andb_true_r.
Qed.

Lemma bitmask_get_testbit l k byte :
  l !! (k / 8)%nat = Some byte ->
  bitmask_get l k = Some (Z.testbit byte (Z.of_nat (k mod 8))).
Proof.
  intros Hb. unfold bitmask_get. rewrite arr_get_nat, Hb. simpl. f_equal.
  apply Bool.eq_true_iff_eq. rewrite bool_decide_eq_true. apply land_bit_ne0. lia.
Qed.

(** Setting a bit of the mask: every bit afterwards. *)
Lemma bitmask_set_get l k v :
  (k < 8 * length l)%nat -> Forall byte_ok l ->
  exists l', bitmask_set l k v = Some l' /\ length l' = length l /\ Forall byte_ok l' /\
    forall j, (j < 8 * length l)%nat ->
      bitmask_get l' j = if decide (j = k) then Some v else bitmask_get l j.
Proof.
  intros Hk Hok.
  assert (k / 8 < length l)%nat as Hk8 by (apply Nat.Div0.div_lt_upper_bound; lia).
  destruct (lookup_lt_is_Some_2 l (k / 8) Hk8) as [b Hb].
  unfold bitmask_set. rewrite arr_get_nat, Hb. cbn [mbind option_bind].
  set (b' := wrap_u 8 _).
  unfold arr_set. rewrite decide_True by lia. rewrite Nat2Z.id.
  eexists. split; [done|]. split; [apply length_insert|]. split.
  { apply Forall_insert; [done|]. apply wrap_u_range. lia. }
  intros j Hj.
  assert (j / 8 < length l)%nat as Hj8 by (apply Nat.Div0.div_lt_upper_bound; lia).
  destruct (lookup_lt_is_Some_2 l (j / 8) Hj8) as [bj Hbj].
  rewrite (bitmask_get_testbit l j bj Hbj).
  assert (k mod 8 < 8 /\ j mod 8 < 8)%nat as [Hk' Hj'] by (split; apply Nat.mod_upper_bound; lia).
  destruct (decide (j / 8 = k / 8)%nat) as [Heq|Hne].
  - rewrite (bitmask_get_testbit _ j b') by (rewrite Heq; by apply list_lookup_insert_eq).
    unfold b'. rewrite testbit_set by lia. rewrite Heq in Hbj. simplify_eq.
    pose proof (Nat.div_mod_eq j 8). pose proof (Nat.div_mod_eq k 8).
    case_decide; case_decide; try done; exfalso; lia.
  - rewrite (bitmask_get_testbit _ j bj) by (by rewrite list_lookup_insert_ne).
    rewrite decide_False by congruence. done.
Qed.

Lemma obd2_new_ok `{Obd2Abi} a b : obd2_ok (obd2_new a b).
Proof.
  split; unfold obd2_new, bitmask_resize; cbn [mSensorsBitmask mIntegerSensors mFloatSensors].
  - apply Forall_replicate. unfold byte_ok. lia.
  - rewrite !length_replicate.
    set (n := (_ + _)%nat). pose proof (Nat.div_mod_eq (n + 7) 8).
    assert ((n + 7) mod 8 < 8)%nat by (apply Nat.mod_upper_bound; lia). unfold n in *. lia.
Qed.

(** ** Sequences of stores *)

Inductive obd2_op := SetInt (index : nat) (v : Z) | SetFloat (index : nat) (v : spec_float).

Definition obd2_step (s : Obd2SensorStore) (op : obd2_op) : option Obd2SensorStore :=
  match op with
  | SetInt i v => snd <$> setIntegerSensor s i v
  | SetFloat i v => snd <$> setFloatSensor s i v
  end.

Definition obd2_run (s : Obd2SensorStore) (ops : list obd2_op) : option Obd2SensorStore :=
  foldl (fun acc op => t ← acc; obd2_step t op) (Some s) ops.

(** The index is one the store has. *)
Definition op_in_range (s : Obd2SensorStore) (op : obd2_op) : Prop :=
  match op with
  | SetInt i _ => (i < length (mIntegerSensors s))%nat
  | SetFloat i _ => (i < length (mFloatSensors s))%nat
  end.

(** The bit of the sensor an operation stores. *)
Definition op_bit (nInt : nat) (op : obd2_op) : nat :=
  match op with SetInt i _ => i | SetFloat i _ => (i + nInt)%nat end.

Lemma obd2_step_spec s op :
  obd2_ok s -> op_in_range s op ->
  exists s', obd2_step s op = Some s' /\ obd2_ok s' /\
    length (mIntegerSensors s') = length (mIntegerSensors s) /\
    length (mFloatSensors s') = length (mFloatSensors s) /\
    length (mSensorsBitmask s') = length (mSensorsBitmask s) /\
    mIntegerSensors s' =
      (if op is SetInt i v then <[i := v]> (mIntegerSensors s) else mIntegerSensors s) /\
    mFloatSensors s' =
      (if op is SetFloat i v then <[i := v]> (mFloatSensors s) else mFloatSensors s) /\
    forall j, (j < 8 * length (mSensorsBitmask s))%nat ->
      bitmask_get (mSensorsBitmask s') j =
      if decide (j = op_bit (length (mIntegerSensors s)) op) then Some true
      else bitmask_get (mSensorsBitmask s) j.
Proof.
  intros [Hb Hlen] Hin.
  destruct (bitmask_set_get (mSensorsBitmask s) (op_bit (length (mIntegerSensors s)) op) true)
    as (m & Hm & Hl & Hb' & Hget); [destruct op; simpl in *; lia|done|].
  destruct op as [i v|i v]; simpl in *; unfold setIntegerSensor, setFloatSensor, arr_set;
    rewrite decide_True by lia; rewrite Nat2Z.id; simpl; rewrite Hm; simpl;
    eexists; (split; [done|]); unfold obd2_ok; simpl; rewrite !length_insert, Hl; done.
Qed.

Lemma obd2_run_snoc s ops op :
  obd2_run s (ops ++ [op]) = (t ← obd2_run s ops; obd2_step t op).
Proof. unfold obd2_run. by rewrite foldl_app. Qed.

(** ** Properties *)

(** After any sequence of stores to sensors that exist, the bit of a
    sensor in the bitmask of the frame is set exactly when that sensor has
    been stored. *)
Lemma obd2_bitmask_spec `{Obd2Abi} numInt numFloat ops :
  let s0 := obd2_new numInt numFloat in
  let nInt := length (mIntegerSensors s0) in
  Forall (op_in_range s0) ops ->
  exists s, obd2_run s0 ops = Some s /\
    length (mIntegerSensors s) = nInt /\ length (mFloatSensors s) = length (mFloatSensors s0) /\
    forall j, (j < nInt + length (mFloatSensors s))%nat ->
      bitmask_get (mSensorsBitmask s) j = Some (bool_decide (j ∈ op_bit nInt <$> ops)).
Proof.
  intros s0 nInt Hops.
  assert (exists s, obd2_run s0 ops = Some s /\ obd2_ok s /\
    length (mIntegerSensors s) = nInt /\ length (mFloatSensors s) = length (mFloatSensors s0) /\
    length (mSensorsBitmask s) = length (mSensorsBitmask s0) /\
    forall j, (j < 8 * length (mSensorsBitmask s0))%nat ->
      bitmask_get (mSensorsBitmask s) j = Some (bool_decide (j ∈ op_bit nInt <$> ops)))
    as (s & Hrun & Hok & Hi & Hf & Hl & Hget).
  { induction ops as [|op ops IH] using rev_ind.
    - exists s0. split_and!; [done|apply obd2_new_ok|done|done|done|].
      intros j Hj. rewrite bool_decide_eq_false_2 by apply not_elem_of_nil.
      destruct (lookup_lt_is_Some_2 (mSensorsBitmask s0) (j / 8)) as [b Hb];
        [apply Nat.Div0.div_lt_upper_bound; lia|].
      rewrite (bitmask_get_testbit _ _ _ Hb). unfold s0 in Hb. simpl in Hb.
      apply lookup_replicate in Hb as [-> _]. by rewrite Z.bits_0.
    - apply Forall_app in Hops as [Hops [Hop _]%Forall_cons].
      destruct (IH Hops) as (s & Hrun & Hok & Hi & Hf & Hl & Hget).
      destruct (obd2_step_spec s op) as (s' & Hs' & Hok' & Hi' & Hf' & Hl' & _ & _ & Hget');
        [done|destruct op; cbn [op_in_range]; [rewrite Hi|rewrite Hf]; exact Hop|].
      exists s'. rewrite obd2_run_snoc, Hrun. split_and!; [done|done|lia|lia|lia|].
      intros j Hj. rewrite Hget' by lia. rewrite Hi, fmap_app, Hget by done. simpl.
      case_decide as Hd; f_equal; symmetry.
      + apply bool_decide_eq_true_2. rewrite elem_of_app, list_elem_of_singleton. auto.
      + apply bool_decide_ext. rewrite elem_of_app, list_elem_of_singleton. tauto. }
  exists s. split_and!; [done..|]. intros j Hj. apply Hget.
  destruct (obd2_new_ok numInt numFloat) as [_ Hle]. fold s0 in Hle. unfold nInt in *. lia.
Qed.

(** A store to a sensor that exists writes that sensor and no other; an
    index out of range is undefined behaviour. *)
Lemma obd2_store_spec s op :
  obd2_ok s ->
  (op_in_range s op ->
     exists s', obd2_step s op = Some s' /\ obd2_ok s' /\
       mIntegerSensors s' =
         (if op is SetInt i v then <[i := v]> (mIntegerSensors s) else mIntegerSensors s) /\
       mFloatSensors s' =
         (if op is SetFloat i v then <[i := v]> (mFloatSensors s) else mFloatSensors s)) /\
  (~ op_in_range s op -> obd2_step s op = None).
Proof.
  intros Hok. split.
  - intros Hin. destruct (obd2_step_spec s op Hok Hin) as (s' & ? & ? & _ & _ & _ & ? & ? & _). eauto.
  - destruct op as [i v|i v]; simpl; intros Hn; unfold setIntegerSensor, setFloatSensor, arr_set;
      by rewrite decide_False by lia.
Qed.

(** ** Witnesses *)

Definition demo_obd2_abi : Obd2Abi := {| LAST_SYSTEM_INT := 31; LAST_SYSTEM_FLOAT := 70 |}.
