(* ===== verification/EventQueue.v ===== *)
(** * vehicle/common/include/vhal_v2_0/ConcurrentQueue.h

    The queue of property events and the thread that consumes it in batches.
    Every method of [ConcurrentQueue] holds [mLock] for its whole body and
    [mState] is atomic, so a run of the program is an interleaving of the
    producers' calls, [deactivate], [requestStop] and the steps of the worker
    thread, whose program counter is explicit.  [cond_wait] blocks: the step
    that leaves [waitForItems] is enabled exactly when the loop condition of
    [waitForItems] is false.

    Two histories are recorded beside the state: the items the queue accepted
    and the batches handed to the callback. *)

From S2P Require Import Prelude.

Section EventQueue.
Context {T : Type}.

(** ** ConcurrentQueue *)

Record ConcurrentQueue := mkQueue { mIsActive : bool; mQueue : list T }.

Definition new_queue : ConcurrentQueue := mkQueue true [].

(** The loop of [waitForItems] goes on waiting while this holds. *)
Definition must_wait (q : ConcurrentQueue) : bool := bool_decide (mQueue q = []) && mIsActive q.

#[local] Instance queue_nil_dec (l : list T) : Decision (l = []).
Proof. destruct l; [by left|by right]. Defined.

(** [flush]: the items, and the queue; the loop pops them one by one. *)
Fixpoint pop_all (l items : list T) : list T :=
  match l with [] => items | x :: l' => pop_all l' (items ++ [x]) end.

Definition flush (q : ConcurrentQueue) : list T * ConcurrentQueue :=
  if bool_decide (mQueue q = []) || negb (mIsActive q) then ([], q)
  else (pop_all (mQueue q) [], mkQueue (mIsActive q) []).

Definition push (q : ConcurrentQueue) (item : T) : ConcurrentQueue :=
  if negb (mIsActive q) then q else mkQueue (mIsActive q) (mQueue q ++ [item]).

Definition deactivate (q : ConcurrentQueue) : ConcurrentQueue := mkQueue false (mQueue q).

(** ** BatchingConsumer *)

Inductive State := INIT | RUNNING | STOP_REQUESTED | STOPPED.

#[local] Instance State_eq_dec : EqDecision State.
Proof. solve_decision. Defined.

(** Where the worker thread is in [runInternal]. *)
Inductive pc :=
  | PStart               (* before mState.exchange(RUNNING) *)
  | PTest                (* at the test of the while loop *)
  | PWait                (* in mQueue->waitForItems() *)
  | PWoken               (* at the test after waitForItems *)
  | PSleep               (* in sleep_for(mBatchInterval) *)
  | PSlept               (* at the test after sleep_for *)
  | PFlush               (* at mQueue->flush() *)
  | PDeliver (items : list T)  (* at onBatchReceived(items) *)
  | PStop                (* at mState = STOPPED *)
  | PDone.

Record consumer_sys := mkConsumer {
  queue : ConcurrentQueue; mState : State; at_pc : pc;
  accepted : list T;           (* history: items push let in *)
  batches : list (list T)      (* history: calls of onBatchReceived *)
}.

Definition init_sys : consumer_sys := mkConsumer new_queue INIT PStart [] [].

Definition requestStop (s : consumer_sys) : consumer_sys :=
  mkConsumer (queue s) STOP_REQUESTED (at_pc s) (accepted s) (batches s).

Definition goto (s : consumer_sys) (p : pc) : consumer_sys :=
  mkConsumer (queue s) (mState s) p (accepted s) (batches s).

(** One step of the worker; [None]: it is blocked or has returned. *)
Definition worker_step (s : consumer_sys) : option consumer_sys :=
  match at_pc s with
  | PStart =>
      Some (mkConsumer (queue s) RUNNING
              (if decide (mState s = INIT) then PTest else PStop) (accepted s) (batches s))
  | PTest => Some (goto s (if decide (RUNNING = mState s) then PWait else PStop))
  | PWait => if must_wait (queue s) then None else Some (goto s PWoken)
  | PWoken => Some (goto s (if decide (STOP_REQUESTED = mState s) then PStop else PSleep))
  | PSleep => Some (goto s PSlept)
  | PSlept => Some (goto s (if decide (STOP_REQUESTED = mState s) then PStop else PFlush))
  | PFlush =>
      let '(items, q) := flush (queue s) in
      Some (mkConsumer q (mState s) (match items with [] => PTest | _ => PDeliver items end)
              (accepted s) (batches s))
  | PDeliver items =>
      Some (mkConsumer (queue s) (mState s) PTest (accepted s) (batches s ++ [items]))
  | PStop => Some (mkConsumer (queue s) STOPPED PDone (accepted s) (batches s))
  | PDone => None
  end.

Inductive actor := Worker | Environment.

#[global] Instance actor_eq_dec : EqDecision actor.
Proof. solve_decision. Defined.

Inductive consumer_step : actor -> consumer_sys -> consumer_sys -> Prop :=
  | StepWorker s s' : worker_step s = Some s' -> consumer_step Worker s s'
  | StepPush s item :
      consumer_step Environment s
        (mkConsumer (push (queue s) item) (mState s) (at_pc s)
           (if mIsActive (queue s) then accepted s ++ [item] else accepted s) (batches s))
  | StepDeactivate s :
      consumer_step Environment s
        (mkConsumer (deactivate (queue s)) (mState s) (at_pc s) (accepted s) (batches s))
  | StepRequestStop s : consumer_step Environment s (requestStop s).

Inductive run : list actor -> consumer_sys -> consumer_sys -> Prop :=
  | RunNil s : run [] s s
  | RunCons a l s1 s2 s3 : consumer_step a s1 s2 -> run l s2 s3 -> run (a :: l) s1 s3.

(** ** Invariant *)

Definition in_hand (p : pc) : list T := match p with PDeliver items => items | _ => [] end.

Definition fifo_ok (s : consumer_sys) : Prop :=
  concat (batches s) ++ in_hand (at_pc s) ++ mQueue (queue s) = accepted s /\
  Forall (fun b => b <> []) (batches s) /\
  (forall items, at_pc s = PDeliver items -> items <> []).

(** ** Lemmas *)

Lemma pop_all_app l : forall items, pop_all l items = items ++ l.
Proof.
  induction l as [|x l IH]; intros items; simpl; [by rewrite app_nil_r|].
  by rewrite IH, <-app_assoc.
Qed.

Lemma flush_spec q :
  flush q = if mIsActive q then (mQueue q, mkQueue true []) else ([], q).
Proof.
  unfold flush. destruct q as [[] l]; simpl.
  - destruct l as [|x l]; simpl; [done|]. by rewrite pop_all_app.
  - by rewrite orb_true_r.
Qed.

Lemma worker_step_fifo s s' : worker_step s = Some s' -> fifo_ok s -> fifo_ok s'.
Proof.
  unfold worker_step, fifo_ok. intros Hs (Heq & Hne & Hp).
  destruct (at_pc s) eqn:Hpc; simpl in Heq.
  - simplify_eq. simpl. by destruct (decide _).
  - simplify_eq. simpl. by destruct (decide _).
  - destruct (must_wait (queue s)); by simplify_eq.
  - simplify_eq. simpl. by destruct (decide _).
  - by simplify_eq.
  - simplify_eq. simpl. by destruct (decide _).
  - rewrite flush_spec in Hs. destruct (mIsActive (queue s)); simplify_eq; simpl.
    + destruct (mQueue (queue s)) as [|x l]; simpl; split_and!; try done.
      * by rewrite app_nil_r.
      * by intros items [= <-].
    + done.
  - simplify_eq. simpl. rewrite concat_app. simpl. rewrite app_nil_r, <-app_assoc.
    split_and!; [done| |done]. apply Forall_app. split; [done|]. repeat constructor. auto.
  - by simplify_eq.
  - done.
Qed.

Lemma consumer_step_fifo a s s' : consumer_step a s s' -> fifo_ok s -> fifo_ok s'.
Proof.
  intros Hstep. destruct Hstep as [s s' Hs|s item|s|s]; [by eapply worker_step_fifo|..]; try done.
  intros (Heq & Hne & Hp). unfold fifo_ok. simpl. split_and!; [|done|done].
  unfold push. destruct (mIsActive (queue s)); simpl; [|done].
  by rewrite !app_assoc, <-(app_assoc (concat _)), Heq.
Qed.

Lemma run_fifo l s s' : run l s s' -> fifo_ok s -> fifo_ok s'.
Proof. intros Hr. induction Hr; [done|]. eauto using consumer_step_fifo. Qed.

(** The stop has been asked for and the queue is off: what
    [~VehicleHalManager] does before it joins. *)
Definition stopping (s : consumer_sys) : Prop :=
  mIsActive (queue s) = false /\
  (mState s = STOP_REQUESTED \/ at_pc s = PStop \/ at_pc s = PDone).

(** Worker steps left until it returns. *)
Definition steps_left (p : pc) : nat :=
  match p with
  | PDone => 0 | PStop => 1 | PTest => 2 | PSlept => 2 | PSleep => 3 | PWoken => 2
  | PWait => 3 | PStart => 2 | PDeliver _ => 3 | PFlush => 3
  end.

Lemma stopping_env s s' :
  consumer_step Environment s s' -> stopping s -> stopping s' /\ at_pc s' = at_pc s.
Proof.
  intros Hs [Ha Hor]. unfold stopping. inversion Hs; subst; simpl; [|by auto..].
  unfold push. rewrite Ha. simpl. auto.
Qed.

Lemma stopping_worker s s' :
  consumer_step Worker s s' -> stopping s ->
  stopping s' /\ (steps_left (at_pc s') < steps_left (at_pc s))%nat.
Proof.
  intros Hs [Ha Hor]. assert (worker_step s = Some s') as Hw by (by inversion Hs).
  unfold worker_step in Hw.
  destruct (at_pc s) eqn:Hpc;
    (destruct Hor as [Hst|[Hd|Hd]]; [rewrite ?Hst in Hw; simpl in Hw|simplify_eq..]); unfold stopping.
  - simplify_eq; simpl. split; [auto|lia].
  - simplify_eq; simpl. split; [auto|lia].
  - destruct (must_wait (queue s)); simplify_eq; simpl. split; [auto|lia].
  - simplify_eq; simpl. split; [auto|lia].
  - simplify_eq; simpl. split; [auto|lia].
  - simplify_eq; simpl. split; [auto|lia].
  - rewrite flush_spec, Ha in Hw. simplify_eq. simpl. split; [auto|lia].
  - simplify_eq; simpl. split; [auto|lia].
  - simplify_eq; simpl. split; [auto|lia].
  - simplify_eq; simpl. split; [auto|lia].
  - done.
Qed.

Lemma stopping_enabled s :
  stopping s -> at_pc s <> PDone -> is_Some (worker_step s).
Proof.
  intros [Ha _] Hpc. unfold worker_step, must_wait.
  destruct (at_pc s); try done; try by eexists.
  - rewrite Ha, andb_false_r. by eexists.
  - destruct (flush (queue s)). by eexists.
Qed.

Lemma run_stopping l s s' :
  run l s s' -> stopping s ->
  stopping s' /\
  (length (filter (fun a => a = Worker) l) + steps_left (at_pc s') <= steps_left (at_pc s))%nat.
Proof.
  intros Hr. induction Hr as [s|a l s1 s2 s3 Hstep Hr IH]; [split; [done|simpl; lia]|].
  intros Hstop. rewrite filter_cons. destruct a.
  - destruct (stopping_worker _ _ Hstep Hstop) as [Hs2 Hlt]. destruct (IH Hs2) as [Hs3 Hle].
    split; [done|]. rewrite decide_True by done. simpl. lia.
  - destruct (stopping_env _ _ Hstep Hstop) as [Hs2 Heq]. destruct (IH Hs2) as [Hs3 Hle].
    split; [done|]. rewrite decide_False by done. rewrite Heq in Hle. done.
Qed.

(** ** Properties *)

(** C25: in every interleaving the batches handed to the callback, then the
    batch in the worker's hands, then the queue, are exactly the accepted items
    in the order they were pushed: none is lost, duplicated or reordered, and
    the callback never gets an empty batch. *)
Theorem events_delivered_in_order l s :
  run l init_sys s ->
  concat (batches s) ++ in_hand (at_pc s) ++ mQueue (queue s) = accepted s /\
  Forall (fun b => b <> []) (batches s).
Proof.
  intros Hr. assert (fifo_ok init_sys) as Hinit by done.
  destruct (run_fifo _ _ _ Hr Hinit) as (? & ? & _). done.
Qed.

(** Once a stop is requested and the queue deactivated, the worker is
    never blocked before it has returned, and returns after at most three of
    its own steps, whatever other threads do in between: the join of
    [waitStopped] terminates. *)
Lemma consumer_stops l s s' :
  mState s = STOP_REQUESTED -> mIsActive (queue s) = false -> run l s s' ->
  (length (filter (fun a => a = Worker) l) <= 3)%nat /\
  (at_pc s' <> PDone -> is_Some (worker_step s')) /\
  (3 <= length (filter (fun a => a = Worker) l) -> at_pc s' = PDone)%nat.
Proof.
  intros Hst Ha Hr. destruct (run_stopping _ _ _ Hr) as [Hs Hle]; [split; auto|].
  assert (steps_left (at_pc s) <= 3)%nat by (destruct (at_pc s); simpl; lia).
  split_and!; [lia|by apply stopping_enabled|].
  intros Hn. destruct (at_pc s'); simpl in *; try lia. done.
Qed.

End EventQueue.

(** ** Witnesses *)

(** An event is pushed and delivered; then the manager is destroyed. *)
Definition demo_pushed : @consumer_sys Z :=
  mkConsumer (mkQueue true [5]) INIT PStart [5] [].

Definition demo_delivered : @consumer_sys Z := mkConsumer new_queue RUNNING PTest [5] [[5]].

Ltac worker_steps := repeat (eapply RunCons; [apply StepWorker; reflexivity|]); apply RunNil.

Lemma demo_run : run (Environment :: replicate 8 Worker) init_sys demo_delivered.
Proof. eapply RunCons; [apply (StepPush init_sys 5)|]. simpl. worker_steps. Qed.

Lemma events_delivered_in_order_witness :
  concat (batches demo_delivered) ++ in_hand (at_pc demo_delivered) ++ mQueue (queue demo_delivered) = [5].
Proof. exact (proj1 (events_delivered_in_order _ _ demo_run)). Defined.
