(* ===== verification/RecurrentTimer.v ===== *)
(** * vehicle/common/include/vhal_v2_0/RecurrentTimer.h

    A thread that wakes at the earliest of many recurrent events.  Times are
    [int64_t] nanoseconds; leaving that range, and a zero interval, is
    undefined behaviour: [None].  [mCookieToEventsMap] is unordered: the order
    of a scan is that of [map_to_list], and no property depends on it.

    The second part is the interleaving of the timer thread with [stop]: the
    critical sections are single steps, a notification wakes the thread only if
    it is already waiting, and [wait_until] does not wake by itself before its
    deadline. *)

From S2P Require Import Prelude.

(** ** Events *)

Record RecurrentEvent := mkEvent { interval : Z; cookie : Z; absoluteTime : Z }.

Definition kInvalidTime : Z := 2 ^ 63 - 1.

#[global] Instance in_s_dec w z : Decision (in_s w z).
Proof. unfold in_s. apply _. Defined.

(** A result of [int64_t] arithmetic. *)
Definition i64 (z : Z) : option Z := if decide (in_s 64 z) then Some z else None.

Definition registerRecurrentEvent (events : gmap Z RecurrentEvent) (now interval cookie : Z)
    : option (gmap Z RecurrentEvent) :=
  if decide (interval = 0) then None
  else
    t ← i64 (now - Z.rem now interval);
    Some (<[cookie := mkEvent interval cookie t]> events).

Definition unregisterRecurrentEvent (events : gmap Z RecurrentEvent) (cookie : Z) :=
  delete cookie events.

(** [intervalMultiplier] is an [int]: the quotient is truncated to 32 bits. *)
Definition updateNextEventTime (now : Z) (e : RecurrentEvent) : option RecurrentEvent :=
  if decide (interval e = 0) then None
  else
    d ← i64 (now - absoluteTime e);
    let m := wrap_s 32 (Z.quot d (interval e)) in
    let intervalMultiplier := if decide (m <= 0) then 1 else m in
    delta ← i64 (intervalMultiplier * interval e);
    t ← i64 (absoluteTime e + delta);
    Some (mkEvent (interval e) (cookie e) t).

(** The loop over the events under the lock: the cookies that fire, the
    earliest next time, and the events. *)
Fixpoint scan (now : Z) (l : list (Z * RecurrentEvent)) (cookies : list Z) (nextEventTime : Z)
    (done : list (Z * RecurrentEvent)) : option (list Z * Z * list (Z * RecurrentEvent)) :=
  match l with
  | [] => Some (cookies, nextEventTime, done)
  | (k, e) :: l' =>
      '(cookies', e') ←
        (if decide (absoluteTime e <= now) then
           e' ← updateNextEventTime now e; Some (cookies ++ [cookie e'], e')
         else Some (cookies, e));
      let next' := if decide (nextEventTime > absoluteTime e') then absoluteTime e'
                   else nextEventTime in
      scan now l' cookies' next' (done ++ [(k, e')])
  end.

Definition scan_events (now : Z) (events : gmap Z RecurrentEvent)
    : option (list Z * Z * gmap Z RecurrentEvent) :=
  '(cookies, next, l) ← scan now (map_to_list events) [] kInvalidTime [];
  Some (cookies, next, list_to_map l).

(** ** The timer thread and [stop] *)

Inductive loop_pc :=
  | LTest                              (* while (!mStopRequested) *)
  | LScan                              (* the scan *)
  | LAction (cookies : list Z) (next : Z)  (* about to call the action *)
  | LBlock (next : Z)                  (* about to wait *)
  | LWaiting (next : Z)                (* in mCond.wait_until *)
  | LExited.

Inductive stop_pc := SIdle | SFlagged | SCleared | SJoining | SStopped.

Record timer_sys := mkTimer {
  now : Z; mCookieToEventsMap : gmap Z RecurrentEvent; mStopRequested : bool;
  loop : loop_pc; stopper : stop_pc;
  pending : nat                        (* notify_one calls still to come *)
}.

Definition init_timer (t : Z) : timer_sys := mkTimer t ∅ false LTest SIdle 0.

Definition notify (p : loop_pc) : loop_pc := match p with LWaiting _ => LTest | _ => p end.

Definition set_loop (s : timer_sys) (p : loop_pc) : timer_sys :=
  mkTimer (now s) (mCookieToEventsMap s) (mStopRequested s) p (stopper s) (pending s).

Inductive timer_step : timer_sys -> timer_sys -> Prop :=
  | TTick s t : now s <= t ->
      timer_step s (mkTimer t (mCookieToEventsMap s) (mStopRequested s) (loop s) (stopper s) (pending s))
  | TTest s : loop s = LTest ->
      timer_step s (set_loop s (if mStopRequested s then LExited else LScan))
  | TScan s t cookies next events : loop s = LScan -> t <= now s ->
      scan_events t (mCookieToEventsMap s) = Some (cookies, next, events) ->
      timer_step s (mkTimer (now s) events (mStopRequested s) (LAction cookies next) (stopper s)
                      (pending s))
  | TAction s cookies next : loop s = LAction cookies next -> timer_step s (set_loop s (LBlock next))
  | TBlock s next : loop s = LBlock next -> timer_step s (set_loop s (LWaiting next))
  | TTimeout s next : loop s = LWaiting next -> next <= now s -> timer_step s (set_loop s LTest)
  | TRegister s i c events : stopper s = SIdle ->
      registerRecurrentEvent (mCookieToEventsMap s) (now s) i c = Some events ->
      timer_step s (mkTimer (now s) events (mStopRequested s) (loop s) (stopper s) (S (pending s)))
  | TUnregister s c : stopper s = SIdle ->
      timer_step s (mkTimer (now s) (unregisterRecurrentEvent (mCookieToEventsMap s) c)
                      (mStopRequested s) (loop s) (stopper s) (S (pending s)))
  | TNotify s n : pending s = S n ->
      timer_step s (mkTimer (now s) (mCookieToEventsMap s) (mStopRequested s) (notify (loop s))
                      (stopper s) n)
  | TStopFlag s : stopper s = SIdle ->
      timer_step s (mkTimer (now s) (mCookieToEventsMap s) true (loop s) SFlagged (pending s))
  | TStopClear s : stopper s = SFlagged ->
      timer_step s (mkTimer (now s) ∅ (mStopRequested s) (loop s) SCleared (pending s))
  | TStopNotify s : stopper s = SCleared ->
      timer_step s (mkTimer (now s) (mCookieToEventsMap s) (mStopRequested s) (notify (loop s))
                      SJoining (pending s))
  | TStopJoin s : stopper s = SJoining -> loop s = LExited ->
      timer_step s (mkTimer (now s) (mCookieToEventsMap s) (mStopRequested s) (loop s) SStopped
                      (pending s)).

(** ** Invariant *)

(** Every event time is a multiple of its interval and keyed by its cookie. *)
Definition aligned (events : gmap Z RecurrentEvent) : Prop :=
  map_Forall (fun k e => interval e <> 0 /\ cookie e = k /\ (interval e | absoluteTime e)) events.

(** ** Lemmas *)

Lemma i64_Some z t : i64 z = Some t -> t = z.
Proof. unfold i64. case_decide; [|done]. by intros [= ->]. Qed.

Lemma i64_in z : in_s 64 z -> i64 z = Some z.
Proof. intros. unfold i64. by rewrite decide_True. Qed.

Lemma updateNextEventTime_spec now e e' :
  updateNextEventTime now e = Some e' ->
  interval e' = interval e /\ cookie e' = cookie e /\
  exists m, 1 <= m /\ absoluteTime e' = absoluteTime e + m * interval e.
Proof.
  unfold updateNextEventTime. case_decide; [done|].
  destruct (i64 (now - absoluteTime e)) as [d|] eqn:Hd; simpl; [|done].
  set (m := if decide _ then _ else _).
  destruct (i64 (m * interval e)) as [x|] eqn:Hx; simpl; [|done].
  destruct (i64 (absoluteTime e + x)) as [t|] eqn:Ht; simpl; [|done].
  apply i64_Some in Hd, Hx, Ht. intros [= <-]. simpl. split_and!; [done|done|].
  exists m. split; [unfold m; case_decide; lia|lia].
Qed.

Definition event_step (now : Z) (e e' : RecurrentEvent) : Prop :=
  if decide (absoluteTime e <= now) then updateNextEventTime now e = Some e' else e' = e.

(** What the scan loop computes, element by element. *)
Lemma scan_spec now l : forall cookies next don cookies' next' l',
  scan now l cookies next don = Some (cookies', next', l') ->
  exists es, l' = don ++ es /\
    Forall2 (fun p q => q.1 = p.1 /\ event_step now p.2 q.2) l es /\
    cookies' = cookies ++ (cookie ∘ snd <$> filter (fun p => absoluteTime p.2 <= now) l) /\
    (next' <= next /\ Forall (fun q => next' <= absoluteTime q.2) es /\
     (next' = next \/ Exists (fun q => next' = absoluteTime q.2) es)).
Proof.
  induction l as [|[k e] l IH]; intros cookies next don cookies' next' l' Hs; simpl in Hs.
  - simplify_eq. exists []. rewrite !app_nil_r. split_and!; auto. lia.
  - destruct (decide (absoluteTime e <= now)) as [Hdue|Hdue]; simpl in Hs.
    + destruct (updateNextEventTime now e) as [e'|] eqn:Hu; simpl in Hs; [|done].
      apply IH in Hs as (es & -> & Hall & -> & Hn1 & Hn2 & Hn3).
      destruct (updateNextEventTime_spec _ _ _ Hu) as (_ & Hc & _).
      exists ((k, e') :: es). rewrite <-!app_assoc. split_and!; [done| | | | |].
      * constructor; [|done]. split; [done|]. unfold event_step. by rewrite decide_True.
      * rewrite filter_cons, decide_True by done. simpl. by rewrite Hc.
      * case_decide; lia.
      * constructor; [simpl; case_decide; lia|done].
      * destruct Hn3 as [Hn3|Hn3]; [|by right; right].
        case_decide; [right; left; done|by left].
    + apply IH in Hs as (es & -> & Hall & -> & Hn1 & Hn2 & Hn3).
      exists ((k, e) :: es). rewrite <-!app_assoc. split_and!; [done| | | | |].
      * constructor; [|done]. split; [done|]. unfold event_step. by rewrite decide_False.
      * by rewrite filter_cons, decide_False.
      * case_decide; lia.
      * constructor; [simpl; case_decide; lia|done].
      * destruct Hn3 as [Hn3|Hn3]; [|by right; right].
        case_decide; [right; left; done|by left].
Qed.

Lemma scan_total now l : forall cookies next don,
  Forall (fun p => absoluteTime p.2 <= now -> is_Some (updateNextEventTime now p.2)) l ->
  is_Some (scan now l cookies next don).
Proof.
  induction l as [|[k e] l IH]; intros cookies next don Hall; [eexists; reflexivity|].
  apply Forall_cons in Hall as [He Hall]. simpl in *.
  destruct (decide (absoluteTime e <= now)); simpl; [|by apply IH].
  destruct He as [e' ->]; [done|]. simpl. by apply IH.
Qed.

Lemma Forall2_keys (now : Z) l es :
  Forall2 (fun p q : Z * RecurrentEvent => q.1 = p.1 /\ event_step now p.2 q.2) l es -> es.*1 = l.*1.
Proof. induction 1 as [|p q l es [Hk _] _ IH]; [done|]. by rewrite !fmap_cons, Hk, IH. Qed.

(** The map a scan leaves: the events of the old map, each stepped. *)
Lemma scan_events_lookup now events cookies next events' :
  scan_events now events = Some (cookies, next, events') ->
  forall k, match events !! k, events' !! k with
            | Some e, Some e' => event_step now e e'
            | None, None => True
            | _, _ => False
            end.
Proof.
  unfold scan_events. destruct (scan _ _ _ _ _) as [[[c n] l]|] eqn:Hs; simpl; [|done].
  intros [= <- <- <-] k. apply scan_spec in Hs as (es & -> & Hall & _ & _). rewrite app_nil_l.
  pose proof (Forall2_keys _ _ _ Hall) as Hkeys.
  assert (NoDup es.*1) as Hnd by (rewrite Hkeys; apply NoDup_fst_map_to_list).
  destruct (events !! k) as [e|] eqn:He.
  - apply elem_of_map_to_list, list_elem_of_lookup in He as [i Hi].
    destruct (Forall2_lookup_l _ _ _ _ _ Hall Hi) as ([k' e'] & Hi' & Hk & Hstep). simpl in *. subst k'.
    rewrite (elem_of_list_to_map_1 es k e' Hnd); [done|]. apply list_elem_of_lookup. eauto.
  - destruct (list_to_map es !! k) as [e'|] eqn:He'; [|done].
    apply elem_of_list_to_map_2 in He'.
    assert (k ∈ es.*1) as Hin by (apply list_elem_of_fmap; by exists (k, e')).
    rewrite Hkeys in Hin. apply list_elem_of_fmap in Hin as ([k' e0] & -> & Hin). apply elem_of_map_to_list in Hin.
    simpl in He. congruence.
Qed.

Lemma scan_events_out now events cookies next events' :
  scan_events now events = Some (cookies, next, events') ->
  (forall c, c ∈ cookies <->
     exists k e, events !! k = Some e /\ absoluteTime e <= now /\ cookie e = c) /\
  next <= kInvalidTime /\ map_Forall (fun _ e => next <= absoluteTime e) events' /\
  (next = kInvalidTime \/ exists k e, events' !! k = Some e /\ next = absoluteTime e).
Proof.
  unfold scan_events. destruct (scan _ _ _ _ _) as [[[c n] l]|] eqn:Hs; simpl; [|done].
  intros [= <- <- <-]. apply scan_spec in Hs as (es & -> & Hall & -> & Hn1 & Hn2 & Hn3).
  rewrite !app_nil_l. pose proof (Forall2_keys _ _ _ Hall) as Hkeys.
  assert (NoDup es.*1) as Hnd by (rewrite Hkeys; apply NoDup_fst_map_to_list).
  split_and!; [|done| |].
  - intros c'. rewrite list_elem_of_fmap. split.
    + intros ([k e] & -> & Hin). apply list_elem_of_filter in Hin as [Hle Hin].
      apply elem_of_map_to_list in Hin. simpl in *. eauto.
    + intros (k & e & He & Hle & <-). exists (k, e). split; [done|].
      apply list_elem_of_filter. split; [done|]. by apply elem_of_map_to_list.
  - intros k e He. apply elem_of_list_to_map_2 in He. rewrite Forall_forall in Hn2.
    by apply (Hn2 (k, e)).
  - destruct Hn3 as [|Hex]; [by left|right]. apply Exists_exists in Hex as ([k e] & Hin & ->).
    exists k, e. split; [|done]. by apply elem_of_list_to_map_1.
Qed.

Lemma aligned_insert events k e :
  aligned events -> interval e <> 0 -> cookie e = k -> (interval e | absoluteTime e) ->
  aligned (<[k := e]> events).
Proof. intros Hal ? ? ?. by apply map_Forall_insert_2. Qed.

Lemma register_aligned events now i c events' :
  aligned events -> registerRecurrentEvent events now i c = Some events' -> aligned events'.
Proof.
  intros Hal. unfold registerRecurrentEvent. case_decide as Hi; [done|].
  destruct (i64 _) as [t|] eqn:Ht; simpl; [|done]. apply i64_Some in Ht as ->. intros [= <-].
  apply aligned_insert; simpl; [done|done|done|].
  exists (Z.quot now i). pose proof (Z.quot_rem now i Hi). lia.
Qed.

Lemma event_step_aligned now e e' :
  event_step now e e' -> interval e <> 0 -> (interval e | absoluteTime e) ->
  interval e' = interval e /\ cookie e' = cookie e /\ (interval e' | absoluteTime e').
Proof.
  unfold event_step. case_decide; [|by intros ->].
  intros (Hi & Hc & m & _ & Ht)%updateNextEventTime_spec Hne [x Hx].
  split_and!; [done|done|]. rewrite Hi, Ht, Hx. exists (x + m). lia.
Qed.

Lemma scan_aligned now events cookies next events' :
  aligned events -> scan_events now events = Some (cookies, next, events') -> aligned events'.
Proof.
  intros Hal Hs k e' He'. pose proof (scan_events_lookup _ _ _ _ _ Hs k) as Hk.
  rewrite He' in Hk. destruct (events !! k) as [e|] eqn:He; [|done].
  destruct (Hal k e He) as (Hne & Hc & Hd).
  destruct (event_step_aligned _ _ _ Hk Hne Hd) as (Hi & Hc' & Hd'). split_and!; [by rewrite Hi|by rewrite Hc'|exact Hd'].
Qed.

Lemma timer_step_aligned s s' :
  timer_step s s' -> aligned (mCookieToEventsMap s) -> aligned (mCookieToEventsMap s').
Proof.
  destruct 1; simpl; intros Hal; try done.
  - by eapply scan_aligned.
  - by eapply register_aligned.
  - by apply map_Forall_delete.
Qed.

(** Times and intervals far from the ends of [int64_t]. *)
Definition times_ok (now : Z) (e : RecurrentEvent) : Prop :=
  0 < interval e <= 2 ^ 61 /\ 0 <= absoluteTime e <= 2 ^ 61 /\ 0 <= now <= 2 ^ 61.

Lemma wrap_s_small z : 0 <= z < 2 ^ 31 -> wrap_s 32 z = z.
Proof. intros Hz. apply wrap_s_id; [lia|]. unfold in_s. lia. Qed.

Lemma wrap_s_le z : 0 <= z -> wrap_s 32 z <= z.
Proof.
  intros Hz. unfold wrap_s. change (32 - 1) with 31.
  assert ((z + 2 ^ 31) mod 2 ^ 32 <= z + 2 ^ 31); [apply Z.mod_le; lia|lia].
Qed.

Lemma update_total now e :
  times_ok now e -> absoluteTime e <= now -> is_Some (updateNextEventTime now e).
Proof.
  intros (Hi & Ha & Hn) Hdue. unfold updateNextEventTime. rewrite decide_False by lia.
  rewrite i64_in by (unfold in_s; lia). simpl.
  set (d := now - absoluteTime e). set (q := Z.quot d (interval e)).
  assert (0 <= q /\ q * interval e <= d) as [Hq0 Hq].
  { unfold q. rewrite Z.quot_div_nonneg by (unfold d; lia). split.
    - apply Z.div_pos; unfold d; lia.
    - rewrite Z.mul_comm. apply Z.mul_div_le. lia. }
  set (m := if decide _ then _ else _).
  assert (1 <= m /\ m * interval e <= Z.max (interval e) d) as [Hm1 Hm].
  { unfold m. pose proof (wrap_s_le q Hq0). case_decide; [lia|]. split; [lia|]. nia. }
  rewrite i64_in by (unfold in_s, d in *; nia). simpl.
  rewrite i64_in by (unfold in_s, d in *; nia). simpl. eauto.
Qed.

(** The multiplier when the event is less than [2^31] intervals late. *)
Lemma update_value now e e' :
  times_ok now e -> absoluteTime e <= now -> (now - absoluteTime e) / interval e < 2 ^ 31 ->
  updateNextEventTime now e = Some e' ->
  absoluteTime e' = absoluteTime e + Z.max 1 ((now - absoluteTime e) / interval e) * interval e.
Proof.
  intros (Hi & Ha & Hn) Hdue Hsmall. unfold updateNextEventTime. rewrite decide_False by lia.
  rewrite i64_in by (unfold in_s; lia). simpl.
  rewrite Z.quot_div_nonneg by lia.
  assert (0 <= (now - absoluteTime e) / interval e) by (apply Z.div_pos; lia).
  rewrite wrap_s_small by lia. set (q := (now - absoluteTime e) / interval e) in *.
  replace (if decide (q <= 0) then 1 else q) with (Z.max 1 q) by (case_decide; lia).
  destruct (i64 (Z.max 1 q * interval e)) as [x|] eqn:Hx; simpl; [|done].
  destruct (i64 (absoluteTime e + x)) as [t|] eqn:Ht; simpl; [|done].
  apply i64_Some in Hx, Ht. intros [= <-]. simpl. congruence.
Qed.

(** ** Properties *)

(** A scan of events with times in range always succeeds; it reports
    exactly the cookies that are due, moves each due event forward by a positive
    number of its intervals and leaves the others alone, and the time it says
    to wait for is the earliest next event. *)
Lemma timer_scan_spec now events :
  map_Forall (fun _ e => times_ok now e) events ->
  exists cookies next events', scan_events now events = Some (cookies, next, events') /\
    (forall c, c ∈ cookies <->
       exists k e, events !! k = Some e /\ absoluteTime e <= now /\ cookie e = c) /\
    (forall k e, events !! k = Some e -> exists e', events' !! k = Some e' /\
       interval e' = interval e /\ cookie e' = cookie e /\
       (absoluteTime e <= now ->
          exists m, 1 <= m /\ absoluteTime e' = absoluteTime e + m * interval e) /\
       (now < absoluteTime e -> e' = e)) /\
    map_Forall (fun _ e => next <= absoluteTime e) events' /\
    (next = kInvalidTime \/ exists k e, events' !! k = Some e /\ next = absoluteTime e).
Proof.
  intros Hok.
  destruct (scan_total now (map_to_list events) [] kInvalidTime []) as [[[c n] l] Hs].
  { apply Forall_forall. intros [k e] Hin%elem_of_map_to_list. apply update_total. by apply (Hok k). }
  assert (scan_events now events = Some (c, n, list_to_map l)) as Hse.
  { unfold scan_events. by rewrite Hs. }
  exists c, n, (list_to_map l). split; [done|].
  destruct (scan_events_out _ _ _ _ _ Hse) as (Hc & _ & Hmin & Hn). split; [done|].
  split; [|by split]. intros k e He. pose proof (scan_events_lookup _ _ _ _ _ Hse k) as Hk.
  rewrite He in Hk. destruct (list_to_map l !! k) as [e'|]; [|done]. exists e'. split; [done|].
  unfold event_step in Hk. case_decide.
  - apply updateNextEventTime_spec in Hk as (? & ? & ?). split_and!; [done..|lia].
  - subst. split_and!; [done..|lia|done].
Qed.

(** Whatever the interleaving of registrations, scans and the rest, the
    time of every event is a multiple of its interval, so events whose
    intervals divide one another fire together, as registration intends. *)
Lemma timer_events_aligned t s :
  rtc timer_step (init_timer t) s -> aligned (mCookieToEventsMap s).
Proof.
  intros Hr. refine (rtc_invariant timer_step (fun s => aligned (mCookieToEventsMap s)) _ _ _ Hr _).
  - intros s1 s2. apply timer_step_aligned.
  - intros k e He. simpl in He. by rewrite lookup_empty in He.
Qed.

(** A due event less than one interval late gets its next time after
    [now]; one that is later gets the last multiple before [now], so it fires
    once more in the next scan, and after that second update lies in the
    future. *)
Lemma timer_catch_up now e e' :
  times_ok now e -> absoluteTime e <= now -> (now - absoluteTime e) / interval e < 2 ^ 31 ->
  updateNextEventTime now e = Some e' ->
  (now < absoluteTime e' <-> now - absoluteTime e < interval e) /\
  (absoluteTime e' <= now ->
     exists e'', updateNextEventTime now e' = Some e'' /\
       now < absoluteTime e'' <= now + interval e).
Proof.
  intros Hok Hdue Hsmall Hu. pose proof (update_value _ _ _ Hok Hdue Hsmall Hu) as Ht.
  destruct (updateNextEventTime_spec _ _ _ Hu) as (Hint & _ & _).
  pose proof Hok as (Hi & Ha & Hn).
  pose proof (Z.mul_div_le (now - absoluteTime e) (interval e)) as Hle.
  pose proof (Z.mul_succ_div_gt (now - absoluteTime e) (interval e)) as Hgt.
  assert (0 <= (now - absoluteTime e) / interval e) as Hq by (apply Z.div_pos; lia).
  set (q := (now - absoluteTime e) / interval e) in *.
  assert (now - absoluteTime e < interval e <-> q = 0) as Hq0.
  { split; [intros; apply Z.div_small; lia|intros ->; lia]. }
  split.
  - rewrite Hq0, Ht. split; [|intros ->; lia]. intros Hlt.
    destruct (decide (q = 0)); [done|]. exfalso.
    replace (Z.max 1 q) with q in Hlt by lia. lia.
  - intros Hle'.
    assert (q <> 0) as Hne by (intros Hz; rewrite Ht, Hz in Hle'; lia).
    replace (Z.max 1 q) with q in Ht by lia.
    assert (times_ok now e') as Hok' by (split_and!; rewrite ?Hint; nia).
    destruct (update_total now e' Hok' Hle') as [e'' He'']. exists e''. split; [done|].
    assert ((now - absoluteTime e') / interval e' = 0) as Hz
      by (apply Z.div_small; rewrite Hint; lia).
    rewrite (update_value _ _ _ Hok' Hle' ltac:(rewrite Hz; lia) He''), Hz, Hint. lia.
Qed.

(** After [stop] has sent its notification. *)
Definition stuck (s : timer_sys) : Prop :=
  stopper s = SJoining /\ loop s = LWaiting kInvalidTime /\ pending s = 0%nat.

Lemma stuck_step s s' : stuck s -> timer_step s s' -> now s' < kInvalidTime -> stuck s'.
Proof.
  intros (Hs & Hl & Hp) Hstep. destruct Hstep; simpl; intros Hlt; try congruence; [done|].
  exfalso. assert (next = kInvalidTime) as -> by congruence. lia.
Qed.

(** [stop] can hang.  If its notification comes while the thread is
    between the test of [mStopRequested] and [wait_until], it is lost: the state
    below is reachable from a fresh timer, and from it, in every continuation
    until the clock reaches the largest time, the thread waits and [stop] never
    gets past its join. *)
Lemma timer_stop_can_hang t :
  0 <= t < kInvalidTime ->
  exists s, rtc timer_step (init_timer t) s /\ mStopRequested s = true /\ stuck s /\
    forall s', rtc (fun a b => timer_step a b /\ now b < kInvalidTime) s s' ->
      stopper s' = SJoining.
Proof.
  intros Ht. exists (mkTimer t ∅ true (LWaiting kInvalidTime) SJoining 0).
  split; [|split; [done|split; [done|]]].
  - eapply rtc_l; [by apply (TTest (init_timer t))|].
    eapply rtc_l; [by apply (TScan (set_loop (init_timer t) LScan) t [] kInvalidTime ∅); simpl; [|lia|]|].
    eapply rtc_l; [by eapply TAction|].
    eapply rtc_l; [by apply TStopFlag|]. eapply rtc_l; [by apply TStopClear|].
    eapply rtc_l; [by apply TStopNotify|]. eapply rtc_l; [by eapply TBlock|]. apply rtc_refl.
  - intros s' Hr.
    assert (stuck s') as (? & _); [|done].
    refine (rtc_invariant _ stuck _ _ _ Hr _); [|done].
    intros a b [Hab Hb] Ha. by eapply stuck_step.
Qed.

(** ** Witnesses *)

Definition demo_event : RecurrentEvent := mkEvent 10 7 100.

Lemma demo_times_ok now : 0 <= now <= 1000 -> times_ok now demo_event.
Proof. intros Hn. unfold times_ok, demo_event. simpl. lia. Qed.

Definition demo_timer : timer_sys := mkTimer 105 (<[7 := mkEvent 10 7 100]> ∅) false LTest SIdle 1.
