(* ===== verification/HalManager.v ===== *)
(** * vehicle/common/src/VehicleHalManager.cpp, VehiclePropConfigIndex.h

    The proxy between the clients of IVehicle and a vehicle HAL.  The HAL is
    the interface [VehicleHal] of VehicleHal.h, a class of operations on a
    state of its own: nothing is assumed of an implementation.  Calls to
    clients and to the HAL are recorded, in order, as [effect]s.

    [ParseInt] and [EqualsIgnoreCase] are android::base functions, the caller's
    uid comes from the binder thread: parameters.  What is printed to the file
    descriptor is a list of [line]s, a constructor per format string. *)

From S2P Require Import Prelude VehicleTypes Subscription.

(** ** Interfaces *)

Class VehicleHal (H : Type) := {
  hal_get : VehiclePropValue -> H -> option VehiclePropValue * StatusCode * H;
  hal_set : VehiclePropValue -> H -> StatusCode * H;
  hal_subscribe : Z -> spec_float -> H -> StatusCode * H;
  hal_unsubscribe : Z -> H -> StatusCode * H;
  hal_dump : list string -> H -> bool * H
}.

Class LibBase := {
  ParseInt : string -> option Z;
  EqualsIgnoreCase : string -> string -> bool
}.

(** Of the documented behaviour of [EqualsIgnoreCase], what the parser of
    [--set] needs. *)
Class LibBaseLaws `{LibBase} : Prop := {
  equals_refl s : EqualsIgnoreCase s s = true;
  equals_s_i : EqualsIgnoreCase "s" "i" = false;
  equals_a_i : EqualsIgnoreCase "a" "i" = false;
  equals_a_s : EqualsIgnoreCase "a" "s" = false
}.

(** ** Effects and output *)

Inductive effect :=
  | HalGet (v : VehiclePropValue) | HalSet (v : VehiclePropValue)
  | HalSubscribe (p : Z) (rate : spec_float) | HalUnsubscribe (p : Z)
  | OnPropertyEvent (callback : Z) (vec : list VehiclePropValue)
  | OnPropertySet (callback : Z) (v : VehiclePropValue)
  | OnPropertySetError (callback : Z) (code : StatusCode) (p area : Z).

Inductive line :=
  | InvalidOption (s : string) | MustBeRoot | WrongArgs (minSize size : nat)
  | NonInteger (index : nat) (s : string) | Help
  | NoProperties | Listing (n : nat) | ListedProp (i : nat) (p : Z)
  | NoDump | Dumping (n : nat) | Row (row : nat) | RowArea (row area : nat)
  | Dumped (v : VehiclePropValue) | CouldNotGet (p : Z) (s : StatusCode) | NoProperty (p : Z)
  | OddArguments (n : nat) | StringAgain (i j : nat) | AreaAgain (i j : nat)
  | InvalidType (s : string) (i : nat)
  | SetDone (v : VehiclePropValue) | SetFailed (v : VehiclePropValue) (s : StatusCode).

(** ** VehiclePropConfigIndex *)

(** [KeyedVector::add] replaces an equal key: the last configuration wins. *)
Definition config_index (configs : list VehiclePropConfig) : gmap Z VehiclePropConfig :=
  foldl (fun m c => <[cfg_prop c := c]> m) ∅ configs.

Definition kMaxHidlVecOfVehiclPropValuePoolSize : nat := 20.

(** ** State *)

Record VehicleHalManager (H : Type) := mkManager {
  mHal : H;
  mConfigs : list VehiclePropConfig;
  mSubscriptionManager : SubscriptionManager;
  mHidlVecOfVehiclePropValuePool : list VehiclePropValue
}.
Arguments mkManager {H}.
Arguments mHal {H}.
Arguments mConfigs {H}.
Arguments mSubscriptionManager {H}.
Arguments mHidlVecOfVehiclePropValuePool {H}.

Section HalManager.
Context `{VehicleAbi} {Hal : Type} `{!VehicleHal Hal} `{LibBase} (link_ok : Z -> bool).

Local Abbreviation manager := (VehicleHalManager Hal).

Definition set_hal (m : manager) (h : Hal) : manager :=
  mkManager h (mConfigs m) (mSubscriptionManager m) (mHidlVecOfVehiclePropValuePool m).

Definition set_subs (m : manager) (s : SubscriptionManager) : manager :=
  mkManager (mHal m) (mConfigs m) s (mHidlVecOfVehiclePropValuePool m).

(** ** Checks *)

Definition getPropConfigOrNull (m : manager) (p : Z) : option VehiclePropConfig :=
  config_index (mConfigs m) !! p.

Definition checkWritePermission (c : VehiclePropConfig) : bool :=
  bool_decide (Z.land (cfg_access c) P_WRITE <> 0).

Definition checkReadPermission (c : VehiclePropConfig) : bool :=
  bool_decide (Z.land (cfg_access c) P_READ <> 0).

Definition isSampleRateFixed (mode : Z) : bool := bool_decide (Z.land mode C_ON_CHANGE <> 0).

Definition checkSampleRate (c : VehiclePropConfig) (rate : spec_float) : spec_float :=
  if isSampleRateFixed (cfg_changeMode c) then S754_zero false
  else if SFgtb rate (cfg_maxSampleRate c) then cfg_maxSampleRate c
  else if SFltb rate (cfg_minSampleRate c) then cfg_minSampleRate c
  else rate.

Definition isSubscribable (c : VehiclePropConfig) (f : Z) : bool :=
  let isReadable := bool_decide (Z.land (cfg_access c) P_READ <> 0) in
  if negb isReadable && bool_decide (Z.land F_EVENTS_FROM_CAR f <> 0) then false
  else if bool_decide (cfg_changeMode c = C_STATIC) then false
  else true.

(** ** IVehicle *)

Definition getAllPropConfigs (m : manager) : list VehiclePropConfig := mConfigs m.

(** The calls of [_hidl_cb], in order. *)
Fixpoint getPropConfigs_loop (m : manager) (properties : list Z) (configs : list VehiclePropConfig)
    : list (StatusCode * list VehiclePropConfig) :=
  match properties with
  | [] => [(OK, configs)]
  | p :: ps =>
      match getPropConfigOrNull m p with
      | Some c => getPropConfigs_loop m ps (configs ++ [c])
      | None => (INVALID_ARG, []) :: getPropConfigs_loop m ps configs
      end
  end.

Definition getPropConfigs (m : manager) (properties : list Z) :=
  getPropConfigs_loop m properties [].

Definition get (m : manager) (request : VehiclePropValue)
    : StatusCode * VehiclePropValue * list effect * manager :=
  match getPropConfigOrNull m (prop request) with
  | None => (INVALID_ARG, kEmptyValue, [], m)
  | Some config =>
      if negb (checkReadPermission config) then (ACCESS_DENIED, kEmptyValue, [], m)
      else
        let '(v, st, h) := hal_get request (mHal m) in
        (st, default kEmptyValue v, [HalGet request], set_hal m h)
  end.

(** The callbacks of a list of clients. *)
Definition callbacks (s : SubscriptionManager) (clients : list Z) : list Z :=
  omap (fun a => mCallback <$> objects s !! a) clients.

Definition handlePropertySetEvent (m : manager) (v : VehiclePropValue) : list effect :=
  let s := mSubscriptionManager m in
  (fun cb => OnPropertySet cb v) <$>
    callbacks s (getSubscribedClients s (prop v) F_EVENTS_FROM_ANDROID).

Definition set (m : manager) (v : VehiclePropValue) : StatusCode * list effect * manager :=
  match getPropConfigOrNull m (prop v) with
  | None => (INVALID_ARG, [], m)
  | Some config =>
      if negb (checkWritePermission config) then (ACCESS_DENIED, [], m)
      else
        let calls := handlePropertySetEvent m v in
        let '(st, h) := hal_set v (mHal m) in
        (st, calls ++ [HalSet v], set_hal m h)
  end.

(** The loop that verifies the options; [None] is [INVALID_ARG]. *)
Fixpoint verify_options (m : manager) (options : list SubscribeOptions)
    : option (list SubscribeOptions) :=
  match options with
  | [] => Some []
  | ops :: rest =>
      config ← getPropConfigOrNull m (propId ops);
      if bool_decide (flags ops = F_UNDEFINED) then None
      else if negb (isSubscribable config (flags ops)) then None
      else
        rest' ← verify_options m rest;
        Some (mkOpts (propId ops) (checkSampleRate config (sampleRate ops)) (flags ops) :: rest')
  end.

Definition hal_subscribe_all (l : list SubscribeOptions) (h : Hal) : list effect * Hal :=
  foldl (fun '(es, h) opt =>
           (es ++ [HalSubscribe (propId opt) (sampleRate opt)],
            (hal_subscribe (propId opt) (sampleRate opt) h).2)) ([], h) l.

(** [clientId] is [getClientId(callback)]; [addr] the address of a new client. *)
Definition subscribe (m : manager) (clientId callback : Z) (options : list SubscribeOptions)
    (addr : Z) : StatusCode * list effect * manager :=
  match verify_options m options with
  | None => (INVALID_ARG, [], m)
  | Some verifiedOptions =>
      let '(res, updatedOptions, s) :=
        addOrUpdateSubscription link_ok (mSubscriptionManager m) clientId callback
          verifiedOptions addr in
      let m1 := set_subs m s in
      if negb (bool_decide (OK = res)) then (res, [], m1)
      else
        let '(es, h) := hal_subscribe_all updatedOptions (mHal m1) in
        (OK, es, set_hal m1 h)
  end.

(** [onAllClientsUnsubscribed] for every property reported. *)
Definition onAllClientsUnsubscribed (ps : list Z) (m : manager) : list effect * manager :=
  foldl (fun '(es, m) p => (es ++ [HalUnsubscribe p], set_hal m (hal_unsubscribe p (mHal m)).2))
    ([], m) ps.

Definition unsubscribe (m : manager) (clientId p : Z) : StatusCode * list effect * manager :=
  let '(ps, s) := Subscription.unsubscribe (mSubscriptionManager m) clientId p in
  let '(es, m') := onAllClientsUnsubscribed ps (set_subs m s) in
  (OK, es, m').

(** The death of a client's process, as the subscription manager handles it. *)
Definition clientDied (m : manager) (clientId : Z) : list effect * manager :=
  let '(ps, s) := Subscription.onCallbackDead (mSubscriptionManager m) clientId in
  onAllClientsUnsubscribed ps (set_subs m s).

(** ** Events from the HAL *)

Definition onHalPropertySetError (m : manager) (errorCode : StatusCode) (p areaId : Z)
    : list effect :=
  let s := mSubscriptionManager m in
  (fun cb => OnPropertySetError cb errorCode p areaId) <$>
    callbacks s (getSubscribedClients s p F_EVENTS_FROM_CAR).

(** The cells [0..n) of the vector, overwritten by [shallowCopy]. *)
Definition fill_vec (vec vs : list VehiclePropValue) : list VehiclePropValue :=
  zip_with shallowCopy (take (length vs) vec) vs ++ drop (length vs) vec.

(** One client of [onBatchHalEvent]: below the pool's size the vector is a
    view of the pool, so the pool itself is overwritten; above it is fresh.
    [None]: the client object is gone. *)
Definition notify_client (m : manager) (cv : Z * list VehiclePropValue)
    : option (effect * manager) :=
  let '(client, values) := cv in
  c ← objects (mSubscriptionManager m) !! client;
  let vecSize := length values in
  if decide (vecSize < kMaxHidlVecOfVehiclPropValuePoolSize)%nat then
    let pool := fill_vec (mHidlVecOfVehiclePropValuePool m) values in
    Some (OnPropertyEvent (mCallback c) (take vecSize pool),
          mkManager (mHal m) (mConfigs m) (mSubscriptionManager m) pool)
  else
    Some (OnPropertyEvent (mCallback c) (fill_vec (replicate vecSize kEmptyValue) values), m).

Definition notify_all (m : manager) (clientValues : list (Z * list VehiclePropValue))
    : option (list effect * manager) :=
  foldl (fun acc cv => '(es, m) ← acc; '(e, m') ← notify_client m cv; Some (es ++ [e], m'))
    (Some ([], m)) clientValues.

Definition onBatchHalEvent (m : manager) (values : list VehiclePropValue)
    : option (list effect * manager) :=
  notify_all m (distributeValuesToClients (mSubscriptionManager m) values F_EVENTS_FROM_CAR).

(** What [init] leaves: the configurations of the HAL, nobody subscribed. *)
Definition init (h : Hal) (listProperties : list VehiclePropConfig) : manager :=
  mkManager h listProperties no_subscriptions
    (replicate kMaxHidlVecOfVehiclPropValuePoolSize kEmptyValue).

(** ** Dumping *)

Definition checkArgumentsSize (options : list string) (minSize : nat) : bool * list line :=
  let size := length options in
  if (minSize <=? size)%nat then (true, []) else (false, [WrongArgs minSize size]).

Definition safelyParseInt (index : nat) (s : string) : option Z * list line :=
  match ParseInt s with Some z => (Some z, []) | None => (None, [NonInteger index s]) end.

Definition cmdListAllProperties (m : manager) : list line :=
  match mConfigs m with
  | [] => [NoProperties]
  | configs => Listing (length configs) :: imap (fun i c => ListedProp (S i) (cfg_prop c)) configs
  end.

(** [input] is an uninitialised value but for its property and area. *)
Definition dump_value (junk : VehiclePropValue) (m : manager) (p areaId : Z)
    : list line * list effect * manager :=
  let input := mkValue (timestamp junk) areaId p (status junk) empty_raw in
  let '(st, output, es, m') := get m input in
  ([if bool_decide (st = OK) then Dumped output else CouldNotGet p st], es, m').

(** Sequencing of dumps. *)
Definition then_dump (r : list line * list effect * manager)
    (f : manager -> list line * list effect * manager) : list line * list effect * manager :=
  let '(l1, e1, m1) := r in let '(l2, e2, m2) := f m1 in (l1 ++ l2, e1 ++ e2, m2).

Definition cmdDumpOneProperty (junk : VehiclePropValue) (rowNumber : nat)
    (config : VehiclePropConfig) (m : manager) : list line * list effect * manager :=
  match cfg_areaConfigs config with
  | [] =>
      then_dump ((if (0 <? rowNumber)%nat then [Row rowNumber] else []), [], m)
        (fun m => dump_value junk m (cfg_prop config) 0)
  | areas =>
      foldl (fun r '(j, area) =>
               then_dump
                 (then_dump r (fun m =>
                    ((if (0 <? rowNumber)%nat then
                        [if (1 <? length areas)%nat then RowArea rowNumber j else Row rowNumber]
                      else []), [], m)))
                 (fun m => dump_value junk m (cfg_prop config) (ac_areaId area)))
        ([], [], m) (imap pair areas)
  end.

Definition cmdDumpAllProperties (junk : VehiclePropValue) (m : manager)
    : list line * list effect * manager :=
  match mConfigs m with
  | [] => ([NoDump], [], m)
  | configs =>
      foldl (fun r '(i, c) => then_dump r (cmdDumpOneProperty junk (S i) c))
        ([Dumping (length configs)], [], m) (imap pair configs)
  end.

(** The loop over the properties of [--get]; [i] is the index of the head. *)
Fixpoint dump_specific (junk : VehiclePropValue) (size i rowNumber : nat) (args : list string)
    (m : manager) : list line * list effect * manager :=
  match args with
  | [] => ([], [], m)
  | arg :: args' =>
      match safelyParseInt i arg with
      | (None, l) => (l, [], m)
      | (Some p, _) =>
          match getPropConfigOrNull m p with
          | None =>
              then_dump ([NoProperty p], [], m) (dump_specific junk size (S i) rowNumber args')
          | Some config =>
              let row := if (2 <? size)%nat then S rowNumber else rowNumber in
              then_dump (cmdDumpOneProperty junk row config m)
                (dump_specific junk size (S i) row args')
          end
      end
  end.

Definition cmdDumpSpecificProperties (junk : VehiclePropValue) (options : list string) (m : manager)
    : list line * list effect * manager :=
  match checkArgumentsSize options 2 with
  | (false, l) => (l, [], m)
  | (true, _) => dump_specific junk (length options) 1 0 (drop 1 options) m
  end.

(** ** Setting a property from the command line *)

(** First pass over the type/value pairs; [i] is the index of the next type.
    [inr] is the result: the number of integers, and the indices of the string
    and of the area (0: absent). *)
Fixpoint set_sizes (numberValues i : nat) (options : list string)
    (sizeInt32 stringIndex areaIndex : nat) : list line + (nat * nat * nat) :=
  match numberValues with
  | O => inr (sizeInt32, stringIndex, areaIndex)
  | S n =>
      let type := default EmptyString (options !! i) in
      if EqualsIgnoreCase type "i" then
        set_sizes n (i + 2) options (S sizeInt32) stringIndex areaIndex
      else if EqualsIgnoreCase type "s" then
        if (stringIndex =? 0)%nat then set_sizes n (i + 2) options sizeInt32 i areaIndex
        else inl [StringAgain i stringIndex]
      else if EqualsIgnoreCase type "a" then
        if (areaIndex =? 0)%nat then set_sizes n (i + 2) options sizeInt32 stringIndex i
        else inl [AreaAgain i areaIndex]
      else inl [InvalidType type i]
  end.

Definition set_raw_string (v : VehiclePropValue) (str : string) : VehiclePropValue :=
  mkValue (timestamp v) (areaId v) (prop v) (status v)
    (mkRaw (int32Values (value v)) (floatValues (value v)) (int64Values (value v))
       (bytes (value v)) str).

(** Second pass; [inl] stops with an error message.  [None] writes past the
    vector. *)
Fixpoint set_populate (numberValues i indexInt32 : nat) (options : list string)
    (v : VehiclePropValue) : option (list line + VehiclePropValue) :=
  match numberValues with
  | O => Some (inr v)
  | S n =>
      let valueIndex := (i + 1)%nat in
      let type := default EmptyString (options !! i) in
      let val := default EmptyString (options !! valueIndex) in
      if EqualsIgnoreCase type "i" then
        match safelyParseInt valueIndex val with
        | (None, l) => Some (inl l)
        | (Some safeInt, _) =>
            l ← arr_set (int32Values (value v)) (Z.of_nat indexInt32) safeInt;
            set_populate n (i + 2) (S indexInt32) options (set_int32Values v l)
        end
      else if EqualsIgnoreCase type "s" then
        set_populate n (i + 2) indexInt32 options (set_raw_string v val)
      else if EqualsIgnoreCase type "a" then
        match safelyParseInt valueIndex val with
        | (None, l) => Some (inl l)
        | (Some area, _) =>
            set_populate n (i + 2) indexInt32 options
              (mkValue (timestamp v) area (prop v) (status v) (value v))
        end
      else set_populate n (i + 2) indexInt32 options v
  end.

(** The value to set, or the message.  [root]: the caller's uid is AID_ROOT. *)
Definition parse_set (junk : VehiclePropValue) (root : bool) (now : Z) (options : list string)
    : option (list line + VehiclePropValue) :=
  if negb root then Some (inl [MustBeRoot])
  else match checkArgumentsSize options 3 with
  | (false, l) => Some (inl l)
  | (true, _) =>
      let size := length options in
      if negb (size mod 2 =? 0)%nat then Some (inl [OddArguments size])
      else
        let numberValues := ((size - 2) / 2)%nat in
        match safelyParseInt 1 (default EmptyString (options !! 1%nat)) with
        | (None, l) => Some (inl l)
        | (Some p, _) =>
            match set_sizes numberValues 2 options 0 0 0 with
            | inl l => Some (inl l)
            | inr (sizeInt32, _, _) =>
                set_populate numberValues 2 0 options
                  (mkValue now (areaId junk) p S_AVAILABLE
                     (mkRaw (hidl_resize new_int32 sizeInt32 []) [] [] [] EmptyString))
            end
        end
  end.

Definition cmdSetOneProperty (junk : VehiclePropValue) (root : bool) (now : Z)
    (options : list string) (m : manager) : option (list line * list effect * manager) :=
  r ← parse_set junk root now options;
  match r with
  | inl l => Some (l, [], m)
  | inr v =>
      let '(st, es, m') := set m v in
      Some ([if bool_decide (st = OK) then SetDone v else SetFailed v st], es, m')
  end.

Definition cmdDump (junk : VehiclePropValue) (root : bool) (now : Z) (options : list string)
    (m : manager) : option (list line * list effect * manager) :=
  match options with
  | [] => Some (cmdDumpAllProperties junk m)
  | opt :: _ =>
      if EqualsIgnoreCase opt "--help" then Some ([Help], [], m)
      else if EqualsIgnoreCase opt "--list" then Some (cmdListAllProperties m, [], m)
      else if EqualsIgnoreCase opt "--get" then Some (cmdDumpSpecificProperties junk options m)
      else if EqualsIgnoreCase opt "--set" then cmdSetOneProperty junk root now options m
      else Some ([InvalidOption opt], [], m)
  end.

(** [has_fd]: the handle carries a file descriptor. *)
Definition debug (junk : VehiclePropValue) (root : bool) (now : Z) (has_fd : bool)
    (options : list string) (m : manager) : option (list line * list effect * manager) :=
  if negb has_fd then Some ([], [], m)
  else
    let '(shouldContinue, h) := hal_dump options (mHal m) in
    let m1 := set_hal m h in
    if negb shouldContinue then Some ([], [], m1) else cmdDump junk root now options m1.

(** ** Steps: everything the manager is asked to do *)

Inductive manager_step : manager -> list effect -> manager -> Prop :=
  | MGet m v : let r := get m v in manager_step m r.1.2 r.2
  | MSet m v : let r := set m v in manager_step m r.1.2 r.2
  | MSubscribe m cid cb options addr :
      objects (mSubscriptionManager m) !! addr = None ->
      let r := subscribe m cid cb options addr in manager_step m r.1.2 r.2
  | MUnsubscribe m cid p : let r := unsubscribe m cid p in manager_step m r.1.2 r.2
  | MDied m cid : let r := clientDied m cid in manager_step m r.1 r.2
  | MBatch m vs es m' : onBatchHalEvent m vs = Some (es, m') -> manager_step m es m'
  | MSetError m code p area : manager_step m (onHalPropertySetError m code p area) m
  | MDebug m junk root now has_fd options ls es m' :
      debug junk root now has_fd options m = Some (ls, es, m') -> manager_step m es m'.

Inductive manager_run : manager -> list effect -> manager -> Prop :=
  | RunStop m : manager_run m [] m
  | RunStep m1 m2 m3 es1 es2 :
      manager_run m1 es1 m2 -> manager_step m2 es2 m3 -> manager_run m1 (es1 ++ es2) m3.

(** ** What the HAL may be asked *)

(** A sample rate the configuration admits; a NaN is neither above the maximum
    nor below the minimum. *)
Definition rate_ok (c : VehiclePropConfig) (r : spec_float) : Prop :=
  if isSampleRateFixed (cfg_changeMode c) then r = S754_zero false
  else SFgtb r (cfg_maxSampleRate c) = false /\ SFltb r (cfg_minSampleRate c) = false.

Definition subscription_ok (configs : list VehiclePropConfig) (p : Z) (r : spec_float) : Prop :=
  exists c, config_index configs !! p = Some c /\ cfg_changeMode c <> C_STATIC /\
    checkReadPermission c = true /\ rate_ok c r.

Definition effect_ok (configs : list VehiclePropConfig) (e : effect) : Prop :=
  match e with
  | HalGet v => exists c, config_index configs !! prop v = Some c /\ checkReadPermission c = true
  | HalSet v => exists c, config_index configs !! prop v = Some c /\ checkWritePermission c = true
  | HalSubscribe p r => subscription_ok configs p r
  | _ => True
  end.

(** The minimum of a configuration is not above its maximum. *)
Definition config_sane (c : VehiclePropConfig) : Prop :=
  SFltb (cfg_maxSampleRate c) (cfg_minSampleRate c) = false.

Definition hal_options_ok (configs : list VehiclePropConfig) (s : SubscriptionManager) : Prop :=
  map_Forall (fun p o => propId o = p /\ subscription_ok configs p (sampleRate o))
    (mHalEventSubscribeOptions s).

Record manager_ok (configs : list VehiclePropConfig) (m : manager) : Prop := {
  mok_configs : mConfigs m = configs;
  mok_subs : subs_ok (mSubscriptionManager m);
  mok_hal : hal_options_ok configs (mSubscriptionManager m);
  mok_pool : length (mHidlVecOfVehiclePropValuePool m) = kMaxHidlVecOfVehiclPropValuePoolSize
}.

(** ** Lemmas *)

Lemma config_index_snoc configs c :
  config_index (configs ++ [c]) = <[cfg_prop c := c]> (config_index configs).
Proof. unfold config_index. by rewrite foldl_app. Qed.

Lemma config_index_in configs p c :
  config_index configs !! p = Some c -> c ∈ configs /\ cfg_prop c = p.
Proof.
  revert p c. induction configs as [|c0 configs IH] using rev_ind; intros p c.
  - unfold config_index. simpl. by rewrite lookup_empty.
  - rewrite config_index_snoc. intros [[<- <-]|[_ Hc]]%lookup_insert_Some.
    + split; [|done]. apply elem_of_app. right. apply list_elem_of_here.
    + apply IH in Hc as [? ?]. split; [|done]. apply elem_of_app. by left.
Qed.

Lemma rate_ok_max c a b : rate_ok c a -> rate_ok c b -> rate_ok c (SFmax a b).
Proof. unfold SFmax. by destruct (SFltb a b). Qed.

Lemma checkSampleRate_ok c r : config_sane c -> rate_ok c (checkSampleRate c r).
Proof.
  unfold rate_ok, checkSampleRate, config_sane. intros Hs.
  destruct (isSampleRateFixed _); [done|].
  destruct (SFgtb r (cfg_maxSampleRate c)) eqn:Hmax; [by split; [apply SFltb_irrefl|]|].
  destruct (SFltb r (cfg_minSampleRate c)) eqn:Hmin; [|done].
  split; [|apply SFltb_irrefl]. exact Hs.
Qed.

Lemma subscription_ok_max configs p a b :
  subscription_ok configs p a -> subscription_ok configs p b -> subscription_ok configs p (SFmax a b).
Proof.
  intros (c & Hc & ? & ? & Ha) (c' & Hc' & _ & _ & Hb). simplify_eq.
  exists c. split_and!; [done..|]. by apply rate_ok_max.
Qed.

(** A verified option: its rate is admitted, and if it asks for events from
    the car it is one the HAL may be asked for. *)
Definition verified (configs : list VehiclePropConfig) (o : SubscribeOptions) : Prop :=
  Z.land F_EVENTS_FROM_CAR (flags o) <> 0 -> subscription_ok configs (propId o) (sampleRate o).

Lemma isSubscribable_true c f :
  isSubscribable c f = true ->
  cfg_changeMode c <> C_STATIC /\ (Z.land F_EVENTS_FROM_CAR f <> 0 -> checkReadPermission c = true).
Proof.
  unfold isSubscribable, checkReadPermission.
  destruct (bool_decide (Z.land (cfg_access c) P_READ <> 0)); simpl;
    repeat case_bool_decide; tauto || done.
Qed.

Lemma verify_options_ok m options l :
  Forall config_sane (mConfigs m) -> verify_options m options = Some l ->
  Forall (verified (mConfigs m)) l.
Proof.
  intros Hsane. revert l. induction options as [|o options IH]; intros l; simpl.
  - intros [= <-]. constructor.
  - destruct (getPropConfigOrNull m (propId o)) as [c|] eqn:Hc; simpl; [|done].
    case_bool_decide; [done|].
    destruct (isSubscribable c (flags o)) eqn:Hsub; simpl; [|done].
    destruct (verify_options m options) as [rest|]; simpl; [|done].
    intros [= <-]. constructor; [|auto]. intros Hcar.
    apply isSubscribable_true in Hsub as [Hst Hread]. exists c. split_and!; [done|done|auto|].
    apply checkSampleRate_ok. rewrite Forall_forall in Hsane. apply Hsane.
    by eapply config_index_in.
Qed.

Lemma merge_rate a b o :
  mergeSubscribeOptions a b = Some o ->
  propId o = propId a /\ sampleRate o = SFmax (sampleRate a) (sampleRate b).
Proof. unfold mergeSubscribeOptions. destruct (_ || _); [|done]. by intros [= <-]. Qed.

Definition outputs_ok (configs : list VehiclePropConfig) (out : list SubscribeOptions) : Prop :=
  Forall (fun o => subscription_ok configs (propId o) (sampleRate o)) out.

Lemma updateHal_ok configs s o :
  hal_options_ok configs s -> subscription_ok configs (propId o) (sampleRate o) ->
  let r := updateHalEventSubscriptionLocked s o in
  hal_options_ok configs r.2 /\ outputs_ok configs (option_list r.1).
Proof.
  intros Hs Ho. unfold updateHalEventSubscriptionLocked.
  destruct (mHalEventSubscribeOptions s !! propId o) as [old|] eqn:Hold.
  - destruct (Hs _ _ Hold) as [Hp Hok].
    destruct (mergeSubscribeOptions old o) as [u|] eqn:Hm; simpl.
    + apply merge_rate in Hm as [Hpu Hru].
      assert (subscription_ok configs (propId o) (sampleRate u)) as Hu
        by (rewrite Hru; by apply subscription_ok_max).
      split.
      * apply map_Forall_insert_2; [|done]. split; [congruence|done].
      * unfold outputs_ok. constructor; [by rewrite Hpu, Hp|constructor].
    + split; [done|constructor].
  - simpl. split; [by apply map_Forall_insert_2|]. constructor; [done|constructor].
Qed.

Lemma subscribe_fold_hal configs a l : forall out s,
  hal_options_ok configs s -> outputs_ok configs out -> Forall (verified configs) l ->
  let r := foldl (subscribe_one a) (out, s) l in
  hal_options_ok configs r.2 /\ outputs_ok configs r.1.
Proof.
  induction l as [|o l IH]; intros out s Hs Hout Hl; [done|].
  apply Forall_cons in Hl as [Ho Hl]. cbn [foldl]. unfold subscribe_one at 2 4.
  set (s1 := addClientToPropMapLocked _ _ _).
  assert (hal_options_ok configs s1) as Hs1 by done.
  case_bool_decide as Hcar; [|by apply IH].
  pose proof (updateHal_ok configs s1 o Hs1 (Ho Hcar)) as [Hs2 Ho2].
  destruct (updateHalEventSubscriptionLocked s1 o) as [[u|] s2]; apply IH; try done.
  apply Forall_app. by split.
Qed.

(** Result of an operation: its effects are admitted, the manager stays
    well-formed. *)
Definition result_ok (configs : list VehiclePropConfig) (es : list effect) (m : manager) : Prop :=
  Forall (effect_ok configs) es /\ manager_ok configs m.

Lemma set_hal_ok configs m h : manager_ok configs m -> manager_ok configs (set_hal m h).
Proof. by intros []. Qed.

Lemma set_subs_ok configs m s :
  manager_ok configs m -> subs_ok s -> hal_options_ok configs s -> manager_ok configs (set_subs m s).
Proof. by intros [] ? ?. Qed.

Lemma get_result_ok configs m v :
  manager_ok configs m -> let r := get m v in result_ok configs r.1.2 r.2.
Proof.
  intros Hok. unfold get, getPropConfigOrNull. rewrite (mok_configs _ _ Hok).
  destruct (config_index configs !! prop v) as [c|] eqn:Hc; [|by split].
  destruct (checkReadPermission c) eqn:Hr; [|by split]. simpl.
  destruct (hal_get v (mHal m)) as [[o st] h]. split; [|by apply set_hal_ok].
  repeat constructor. simpl. eauto.
Qed.

Lemma set_result_ok configs m v :
  manager_ok configs m -> let r := set m v in result_ok configs r.1.2 r.2.
Proof.
  intros Hok. unfold set, getPropConfigOrNull. rewrite (mok_configs _ _ Hok).
  destruct (config_index configs !! prop v) as [c|] eqn:Hc; [|by split].
  destruct (checkWritePermission c) eqn:Hw; [|by split]. simpl.
  destruct (hal_set v (mHal m)) as [st h]. split; [|by apply set_hal_ok].
  apply Forall_app. split.
  - apply Forall_fmap, Forall_true. done.
  - repeat constructor. simpl. eauto.
Qed.

Lemma hal_subscribe_all_ok configs l h :
  outputs_ok configs l -> Forall (effect_ok configs) (hal_subscribe_all l h).1.
Proof.
  intros Hl. unfold hal_subscribe_all.
  assert (forall es h, Forall (effect_ok configs) es -> Forall (effect_ok configs)
    (foldl (fun '(es, h) opt => (es ++ [HalSubscribe (propId opt) (sampleRate opt)],
       (hal_subscribe (propId opt) (sampleRate opt) h).2)) (es, h) l).1) as Hgen;
    [|by apply Hgen].
  induction Hl as [|o l Ho Hl IH]; intros es h' Hes; [done|]. cbn [foldl]. apply IH.
  apply Forall_app. split; [done|]. by repeat constructor.
Qed.

Lemma subscribe_result_ok configs m cid cb options addr :
  Forall config_sane configs -> manager_ok configs m ->
  objects (mSubscriptionManager m) !! addr = None ->
  let r := subscribe m cid cb options addr in result_ok configs r.1.2 r.2.
Proof.
  intros Hsane Hok Hfresh. unfold subscribe.
  pose proof (mok_configs _ _ Hok) as Hcfg.
  destruct (verify_options m options) as [vs|] eqn:Hv; [|by split].
  apply verify_options_ok in Hv; [|by rewrite Hcfg]. rewrite Hcfg in Hv.
  pose proof (addOrUpdateSubscription_ok link_ok _ cid cb vs addr (mok_subs _ _ Hok) Hfresh) as Hs.
  assert (let r := addOrUpdateSubscription link_ok (mSubscriptionManager m) cid cb vs addr in
          hal_options_ok configs r.2 /\ outputs_ok configs r.1.2) as [Hh Ho].
  { unfold addOrUpdateSubscription, getOrCreateHalClientLocked.
    destruct (mClients _ !! cid) as [a|]; [|destruct (link_ok cb)];
      [| |split; [apply Hok|constructor]].
    - pose proof (subscribe_fold_hal configs a vs [] (mSubscriptionManager m) (mok_hal _ _ Hok)) as Hf.
      destruct (foldl _ _ _). apply Hf; [constructor|done].
    - set (s1 := mkSubs _ _ _ _).
      pose proof (subscribe_fold_hal configs addr vs [] s1 (mok_hal _ _ Hok)) as Hf.
      destruct (foldl _ _ _). apply Hf; [constructor|done]. }
  destruct (addOrUpdateSubscription _ _ _ _ _ _) as [[res upd] s]. cbn [fst snd] in *.
  pose proof (set_subs_ok _ _ _ Hok Hs Hh) as Hok1.
  destruct (negb _); [by split|].
  pose proof (hal_subscribe_all_ok configs upd (mHal (set_subs m s)) Ho) as Hes.
  destruct (hal_subscribe_all _ _) as [es h]. split; [done|]. by apply set_hal_ok.
Qed.

Lemma onAllClientsUnsubscribed_ok configs ps : forall es m,
  result_ok configs es m ->
  let r := foldl (fun '(es, m) p => (es ++ [HalUnsubscribe p],
                    set_hal m (hal_unsubscribe p (mHal m)).2)) (es, m) ps in
  result_ok configs r.1 r.2.
Proof.
  induction ps as [|p ps IH]; intros es m [Hes Hok]; [done|]. cbn [foldl]. apply IH.
  split; [|by apply set_hal_ok]. apply Forall_app. split; [done|]. by repeat constructor.
Qed.

Lemma unsubscribe_hal_ok configs s cid p :
  subs_ok s -> hal_options_ok configs s ->
  hal_options_ok configs (Subscription.unsubscribe s cid p).2.
Proof.
  intros Hok Hh. destruct (unsubscribe_effect s cid p Hok) as (_ & _ & _ & [(_ & _ & He)|(_ & _ & He)]);
    unfold hal_options_ok; rewrite He; [by apply map_Forall_delete|done].
Qed.

Lemma unsubscribe_all_hal_ok configs cid props : forall out s,
  subs_ok s -> hal_options_ok configs s ->
  hal_options_ok configs (unsubscribe_all cid (out, s) props).2.
Proof.
  induction props as [|p props IH]; intros out s Hok Hh; [done|].
  unfold unsubscribe_all. cbn [foldl].
  pose proof (unsubscribe_ok s cid p Hok) as Hok'.
  pose proof (unsubscribe_hal_ok configs s cid p Hok Hh) as Hh'.
  destruct (Subscription.unsubscribe s cid p) as [o s']. by apply IH.
Qed.

Lemma unsubscribe_result_ok configs m cid p :
  manager_ok configs m -> let r := unsubscribe m cid p in result_ok configs r.1.2 r.2.
Proof.
  intros Hok. unfold unsubscribe.
  pose proof (unsubscribe_ok _ cid p (mok_subs _ _ Hok)) as Hs.
  pose proof (unsubscribe_hal_ok configs _ cid p (mok_subs _ _ Hok) (mok_hal _ _ Hok)) as Hh.
  destruct (Subscription.unsubscribe _ _ _) as [ps s]. cbn [snd] in *.
  pose proof (onAllClientsUnsubscribed_ok configs ps [] (set_subs m s)) as Hr.
  unfold onAllClientsUnsubscribed. destruct (foldl _ _ _) as [es m']. apply Hr.
  split; [constructor|]. by apply set_subs_ok.
Qed.

Lemma clientDied_result_ok configs m cid :
  manager_ok configs m -> let r := clientDied m cid in result_ok configs r.1 r.2.
Proof.
  intros Hok. unfold clientDied.
  assert (subs_ok (onCallbackDead (mSubscriptionManager m) cid).2 /\
          hal_options_ok configs (onCallbackDead (mSubscriptionManager m) cid).2) as [Hs Hh].
  { rewrite onCallbackDead_unfold. destruct Hok as [_ Hs Hh _].
    destruct (mClients _ !! cid) as [a|]; [|done]. destruct (objects _ !! a); [|done].
    split; [by apply unsubscribe_all_ok|by apply unsubscribe_all_hal_ok]. }
  destruct (onCallbackDead _ _) as [ps s]. cbn [snd] in *.
  apply onAllClientsUnsubscribed_ok. split; [constructor|]. by apply set_subs_ok.
Qed.

(** ** Lemmas: dumping *)

Lemma then_dump_ok configs (r : list line * list effect * manager) f :
  result_ok configs r.1.2 r.2 ->
  (forall m, manager_ok configs m -> let r' := f m in result_ok configs r'.1.2 r'.2) ->
  let r' := then_dump r f in result_ok configs r'.1.2 r'.2.
Proof.
  destruct r as [[l e] m]. intros [He Hm] Hf. unfold then_dump. cbn [fst snd] in *.
  specialize (Hf m Hm). destruct (f m) as [[l' e'] m'], Hf as [He' Hm']. cbn [fst snd] in *.
  split; [|done]. by apply Forall_app.
Qed.

Lemma foldl_dump_ok {A} configs (f : list line * list effect * manager -> A -> _) l :
  (forall r x, result_ok configs r.1.2 r.2 -> let r' := f r x in result_ok configs r'.1.2 r'.2) ->
  forall r, result_ok configs r.1.2 r.2 ->
  let r' := foldl f r l in result_ok configs r'.1.2 r'.2.
Proof.
  intros Hf. induction l as [|x l IH]; intros r Hr; [done|]. cbn [foldl]. apply IH, Hf, Hr.
Qed.

Lemma dump_value_ok configs junk m p area :
  manager_ok configs m -> let r := dump_value junk m p area in result_ok configs r.1.2 r.2.
Proof.
  intros Hok. unfold dump_value. set (v := mkValue _ _ _ _ _).
  pose proof (get_result_ok configs m v Hok) as Hr. by destruct (get m v) as [[[st o] es] m'].
Qed.

Lemma cmdDumpOneProperty_ok configs junk row c m :
  manager_ok configs m -> let r := cmdDumpOneProperty junk row c m in result_ok configs r.1.2 r.2.
Proof.
  intros Hok. unfold cmdDumpOneProperty. destruct (cfg_areaConfigs c) as [|a0 areas].
  - apply then_dump_ok; [by split|]. intros m' Hm'. by apply dump_value_ok.
  - apply foldl_dump_ok; [|by split]. intros r [j area] Hr.
    apply then_dump_ok; [|intros m' Hm'; by apply dump_value_ok].
    apply then_dump_ok; [done|]. intros m' Hm'. by split.
Qed.

Lemma dump_specific_ok configs junk size args : forall i row m,
  manager_ok configs m ->
  let r := dump_specific junk size i row args m in result_ok configs r.1.2 r.2.
Proof.
  induction args as [|arg args IH]; intros i row m Hok; [by split|]. cbn [dump_specific].
  unfold safelyParseInt. destruct (ParseInt arg) as [p|]; [|by split].
  destruct (getPropConfigOrNull m p) as [c|].
  - apply then_dump_ok; [by apply cmdDumpOneProperty_ok|]. intros m' Hm'. by apply IH.
  - apply then_dump_ok; [by split|]. intros m' Hm'. by apply IH.
Qed.

Lemma cmdDump_ok configs junk root now options m ls es m' :
  manager_ok configs m -> cmdDump junk root now options m = Some (ls, es, m') ->
  result_ok configs es m'.
Proof.
  intros Hok. unfold cmdDump.
  assert (forall r : list line * list effect * manager,
    result_ok configs r.1.2 r.2 -> Some r = Some (ls, es, m') -> result_ok configs es m') as Hwrap
    by (by intros [[l e] m0] Hr [= -> -> ->]).
  destruct options as [|o options].
  { apply Hwrap. unfold cmdDumpAllProperties. destruct (mConfigs m) as [|c cs] eqn:Hc; [by split|].
    apply foldl_dump_ok; [|by split]. intros r [i c'] Hr.
    apply then_dump_ok; [done|]. intros m0 Hm0. by apply cmdDumpOneProperty_ok. }
  repeat match goal with |- context [if ?b then _ else _] => destruct b end;
    try (apply Hwrap; by split).
  - apply Hwrap. unfold cmdDumpSpecificProperties, checkArgumentsSize.
    destruct (_ <=? _)%nat; [by apply dump_specific_ok|by split].
  - unfold cmdSetOneProperty. destruct (parse_set _ _ _ _) as [[l|v]|]; simpl; [by apply Hwrap|..|done].
    pose proof (set_result_ok configs m v Hok) as Hr.
    destruct (set m v) as [[st es'] m0]. by intros [= <- <- <-].
Qed.

(** ** Lemmas: delivery *)

Lemma zip_shallowCopy vec vs :
  length vec = length vs -> zip_with shallowCopy vec vs = vs.
Proof.
  revert vec. induction vs as [|v vs IH]; intros [|x vec] Hlen; simplify_eq/=; [done|].
  rewrite shallowCopy_src. f_equal. auto.
Qed.

Lemma fill_vec_spec vec vs :
  (length vs <= length vec)%nat ->
  take (length vs) (fill_vec vec vs) = vs /\ length (fill_vec vec vs) = length vec.
Proof.
  intros Hle. unfold fill_vec. rewrite zip_shallowCopy by (rewrite length_take; lia). split.
  - by rewrite take_app_length.
  - rewrite length_app, length_drop. lia.
Qed.

(** The effect of a client: its callback gets the values. *)
Definition event_for (s : SubscriptionManager) (cv : Z * list VehiclePropValue) : list effect :=
  (fun cb => OnPropertyEvent cb cv.2) <$> callbacks s [cv.1].

Lemma notify_client_spec m a vs c :
  length (mHidlVecOfVehiclePropValuePool m) = kMaxHidlVecOfVehiclPropValuePoolSize ->
  objects (mSubscriptionManager m) !! a = Some c ->
  exists pool, length pool = kMaxHidlVecOfVehiclPropValuePoolSize /\
    notify_client m (a, vs) = Some (OnPropertyEvent (mCallback c) vs,
      mkManager (mHal m) (mConfigs m) (mSubscriptionManager m) pool).
Proof.
  intros Hlen Hc. unfold notify_client. rewrite Hc. simpl. case_decide as Hlt.
  - destruct (fill_vec_spec (mHidlVecOfVehiclePropValuePool m) vs) as [Ht Hl]; [lia|].
    eexists. split; [|by rewrite Ht]. lia.
  - exists (mHidlVecOfVehiclePropValuePool m). split; [done|]. destruct m; simpl.
    destruct (fill_vec_spec (replicate (length vs) kEmptyValue) vs) as [Ht Hl];
      [by rewrite length_replicate|].
    rewrite length_replicate in Hl. rewrite <-Hl in Ht at 1.
    rewrite firstn_all in Ht. by rewrite Ht.
Qed.

Lemma notify_all_spec cvs : forall m es,
  length (mHidlVecOfVehiclePropValuePool m) = kMaxHidlVecOfVehiclPropValuePoolSize ->
  Forall (fun cv => is_Some (objects (mSubscriptionManager m) !! cv.1)) cvs ->
  exists pool, length pool = kMaxHidlVecOfVehiclPropValuePoolSize /\
    foldl (fun acc cv => '(es, m) ← acc; '(e, m') ← notify_client m cv; Some (es ++ [e], m'))
      (Some (es, m)) cvs =
    Some (es ++ cvs ≫= event_for (mSubscriptionManager m),
          mkManager (mHal m) (mConfigs m) (mSubscriptionManager m) pool).
Proof.
  induction cvs as [|[a vs] cvs IH]; intros m es Hlen Hall.
  - exists (mHidlVecOfVehiclePropValuePool m). split; [done|]. simpl. rewrite app_nil_r. by destruct m.
  - apply Forall_cons in Hall as [[c Hc] Hall]. cbn [fst] in Hc.
    destruct (notify_client_spec m a vs c Hlen Hc) as (pool & Hpool & Hn).
    cbn [foldl mbind option_bind]. rewrite Hn. cbn [mbind option_bind].
    destruct (IH (mkManager (mHal m) (mConfigs m) (mSubscriptionManager m) pool)
      (es ++ [OnPropertyEvent (mCallback c) vs]) Hpool Hall) as (pool' & Hpool' & Heq).
    exists pool'. split; [done|]. rewrite Heq. simpl. f_equal. f_equal.
    unfold event_for at 2. simpl. rewrite Hc. simpl. by rewrite <-app_assoc.
Qed.

Lemma distributed_live s values f :
  subs_ok s ->
  Forall (fun cv => is_Some (objects s !! cv.1)) (distributeValuesToClients s values f).
Proof.
  intros Hok. apply Forall_forall. intros [a vs] Hin.
  apply (distribute_elem s values f Hok) in Hin as [-> Hne]. simpl.
  destruct (values_for s f a values) as [|v l] eqn:Hv; [done|].
  assert (v ∈ values_for s f a values) as Hin by (rewrite Hv; apply list_elem_of_here).
  unfold values_for in Hin. apply list_elem_of_filter in Hin as [Ha _].
  unfold getSubscribedClients, getClientsForPropertyLocked, client_subscribed in Ha.
  destruct (mPropToClients s !! prop v) as [vec|]; [|by apply elem_of_nil in Ha].
  apply list_elem_of_filter in Ha as [Ha _]. by destruct (objects s !! a).
Qed.

Lemma onBatch_spec m values :
  subs_ok (mSubscriptionManager m) ->
  length (mHidlVecOfVehiclePropValuePool m) = kMaxHidlVecOfVehiclPropValuePoolSize ->
  exists pool, length pool = kMaxHidlVecOfVehiclPropValuePoolSize /\
    onBatchHalEvent m values =
    Some (distributeValuesToClients (mSubscriptionManager m) values F_EVENTS_FROM_CAR
            ≫= event_for (mSubscriptionManager m),
          mkManager (mHal m) (mConfigs m) (mSubscriptionManager m) pool).
Proof.
  intros Hok Hlen. unfold onBatchHalEvent, notify_all.
  destruct (notify_all_spec (distributeValuesToClients (mSubscriptionManager m) values
    F_EVENTS_FROM_CAR) m [] Hlen) as (pool & Hp & Heq); [by apply distributed_live|].
  exists pool. split; [done|]. by rewrite Heq.
Qed.

Lemma manager_step_ok configs m es m' :
  Forall config_sane configs -> manager_ok configs m -> manager_step m es m' ->
  result_ok configs es m'.
Proof.
  intros Hsane Hok Hstep. destruct Hstep; try subst r.
  - by apply get_result_ok.
  - by apply set_result_ok.
  - by apply subscribe_result_ok.
  - by apply unsubscribe_result_ok.
  - by apply clientDied_result_ok.
  - destruct (onBatch_spec m vs (mok_subs _ _ Hok) (mok_pool _ _ Hok)) as (pool & Hp & Heq).
    rewrite Heq in H1. simplify_eq. split; [|by destruct Hok].
    apply Forall_forall. intros e (cv & He & _)%list_elem_of_bind.
    apply list_elem_of_fmap in He as (cb & -> & _). exact I.
  - split; [|done]. apply Forall_fmap, Forall_true. done.
  - unfold debug in H1. destruct has_fd; simpl in H1; [|simplify_eq; by split].
    destruct (hal_dump options (mHal m)) as [go h].
    pose proof (set_hal_ok configs m h Hok) as Hok'.
    destruct go; simpl in H1; [by eapply cmdDump_ok|]. simplify_eq. by split.
Qed.

Lemma manager_run_ok configs m es m' :
  Forall config_sane configs -> manager_run m es m' -> manager_ok configs m ->
  result_ok configs es m'.
Proof.
  intros Hsane Hrun Hok. induction Hrun as [m|m1 m2 m3 es1 es2 Hrun IH Hstep]; [by split|].
  destruct (IH Hok) as [H1 H2]. destruct (manager_step_ok _ _ _ _ Hsane H2 Hstep) as [H3 H4].
  split; [|done]. by apply Forall_app.
Qed.

Lemma init_ok h configs : manager_ok configs (init h configs).
Proof.
  split; [done|apply no_subscriptions_ok| |apply length_replicate].
  intros p o Hp. simpl in Hp. by rewrite lookup_empty in Hp.
Qed.

(** ** Lemmas: the arguments of [--set] *)

(** A type/value pair, with the integer its text denotes. *)
Inductive set_arg := AInt (s : string) (z : Z) | AStr (s : string) | AArea (s : string) (z : Z).

Definition arg_strings (a : set_arg) : list string :=
  match a with AInt s _ => ["i"; s] | AStr s => ["s"; s] | AArea s _ => ["a"; s] end.

Definition arg_ok (a : set_arg) : Prop :=
  match a with AInt s z | AArea s z => ParseInt s = Some z | AStr _ => True end.

Definition arg_ints (args : list set_arg) : list Z :=
  omap (fun a => match a with AInt _ z => Some z | _ => None end) args.

Definition arg_strs (args : list set_arg) : list string :=
  omap (fun a => match a with AStr s => Some s | _ => None end) args.

Definition arg_areas (args : list set_arg) : list Z :=
  omap (fun a => match a with AArea _ z => Some z | _ => None end) args.

Context `{!LibBaseLaws}.

Lemma options_lookup (pre : list string) t v rest :
  (pre ++ t :: v :: rest) !! length pre = Some t /\
  (pre ++ t :: v :: rest) !! (length pre + 1)%nat = Some v /\
  (pre ++ t :: v :: rest) = (pre ++ [t; v]) ++ rest /\
  length (pre ++ [t; v]) = (length pre + 2)%nat.
Proof.
  rewrite !lookup_app_r by lia. replace (length pre - length pre)%nat with 0%nat by lia.
  replace (length pre + 1 - length pre)%nat with 1%nat by lia.
  rewrite length_app, <-app_assoc. done.
Qed.

Lemma set_sizes_spec args : forall pre n si ai,
  (0 < length pre)%nat ->
  (length (arg_strs args) + (if (si =? 0)%nat then 0 else 1) <= 1)%nat ->
  (length (arg_areas args) + (if (ai =? 0)%nat then 0 else 1) <= 1)%nat ->
  exists si' ai', set_sizes (length args) (length pre) (pre ++ args ≫= arg_strings) n si ai =
    inr (n + length (arg_ints args), si', ai')%nat.
Proof.
  induction args as [|a args IH]; intros pre n si ai Hpre Hs Ha.
  - exists si, ai. simpl. by rewrite Nat.add_0_r.
  - destruct a as [s z|s|s z]; cbn [mbind list_bind arg_strings app length set_sizes];
      match goal with |- context [pre ++ ?t :: ?v :: ?r] =>
        destruct (options_lookup pre t v r) as (-> & _ & -> & Hlen) end; cbn [default from_option id];
      rewrite <-Hlen.
    + rewrite equals_refl. destruct (IH (pre ++ ["i"; s]) (S n) si ai) as (si' & ai' & ->);
        [rewrite Hlen; lia|done|done|]. exists si', ai'. simpl. f_equal. f_equal. f_equal. lia.
    + rewrite equals_s_i, equals_refl. simpl in Hs. destruct (Nat.eqb_spec si 0) as [->|]; [|lia].
      apply (IH (pre ++ ["s"; s])); [rewrite Hlen; lia| |done].
      destruct (Nat.eqb_spec (length pre) 0); lia.
    + rewrite equals_a_i, equals_a_s, equals_refl. simpl in Ha.
      destruct (Nat.eqb_spec ai 0) as [->|]; [|lia].
      apply (IH (pre ++ ["a"; s])); [rewrite Hlen; lia|done|].
      destruct (Nat.eqb_spec (length pre) 0); lia.
Qed.

Lemma default_last_cons {A} (d x : A) l : default x (last l) = default d (last (x :: l)).
Proof. rewrite last_cons. by destruct (last l). Qed.

Lemma set_populate_spec args : forall pre t p st dn rest area str,
  Forall arg_ok args -> length rest = length (arg_ints args) ->
  set_populate (length args) (length pre) (length dn) (pre ++ args ≫= arg_strings)
    (mkValue t area p st (mkRaw (dn ++ rest) [] [] [] str)) =
  Some (inr (mkValue t (default area (last (arg_areas args))) p st
    (mkRaw (dn ++ arg_ints args) [] [] [] (default str (last (arg_strs args)))))).
Proof.
  induction args as [|a args IH]; intros pre t p st dn rest area str Hok Hlen.
  - apply nil_length_inv in Hlen as ->. done.
  - apply Forall_cons in Hok as [Ha Hok].
    destruct a as [s z|s|s z]; cbn [mbind list_bind arg_strings app length set_populate arg_ok] in *;
      match goal with |- context [pre ++ ?t :: ?v :: ?r] =>
        destruct (options_lookup pre t v r) as (-> & -> & -> & Hl) end; cbn [default from_option id];
      rewrite <-Hl; unfold safelyParseInt.
    + rewrite equals_refl, Ha. destruct rest as [|x rest]; [done|]. cbn [value int32Values].
      unfold arr_set. rewrite decide_True by (rewrite length_app; simpl; lia).
      rewrite Nat2Z.id, insert_app_r_alt by lia. rewrite Nat.sub_diag. cbn [mbind option_bind].
      unfold set_int32Values. simpl. replace (dn ++ z :: rest) with ((dn ++ [z]) ++ rest)
        by (by rewrite <-app_assoc).
      replace (S (length dn)) with (length (dn ++ [z])) by (rewrite length_app; simpl; lia).
      rewrite IH by (done || by simplify_eq/=). by rewrite <-app_assoc.
    + rewrite equals_s_i, equals_refl. unfold set_raw_string. simpl. rewrite IH by done.
      by rewrite (default_last_cons str s).
    + rewrite equals_a_i, equals_a_s, equals_refl, Ha. simpl. rewrite IH by done.
      by rewrite (default_last_cons area z).
Qed.

(** ** Properties *)

(** Whatever clients, the HAL and the shell do, in any order, the HAL is
    asked to read only configured readable properties, to write only configured
    writable ones, and to subscribe only to readable properties that are not
    static, at a rate their configuration admits. *)
Lemma hal_gets_only_valid_requests h configs es m :
  Forall config_sane configs -> manager_run (init h configs) es m ->
  Forall (effect_ok configs) es.
Proof. intros Hsane Hrun. by destruct (manager_run_ok _ _ _ _ Hsane Hrun (init_ok h configs)). Qed.

(** [subscribe] is all or nothing: one option for an unknown property,
    without flags, or for a property that cannot be subscribed, makes it fail
    with INVALID_ARG and change nothing; otherwise it does not fail so. *)
Lemma subscribe_all_or_nothing m cid cb options addr :
  let bad o := match getPropConfigOrNull m (propId o) with
               | None => True
               | Some c => flags o = F_UNDEFINED \/ isSubscribable c (flags o) = false
               end in
  (Exists bad options -> subscribe m cid cb options addr = (INVALID_ARG, [], m)) /\
  (Forall (fun o => ~ bad o) options -> (subscribe m cid cb options addr).1.1 <> INVALID_ARG).
Proof.
  intros bad.
  assert ((Exists bad options -> verify_options m options = None) /\
          (Forall (fun o => ~ bad o) options -> is_Some (verify_options m options))) as [Hbad Hgood].
  { unfold bad. induction options as [|o options [IH1 IH2]]; [split; [by intros ?%Exists_nil|eauto]|].
    rewrite Exists_cons, Forall_cons. cbn [verify_options].
    destruct (getPropConfigOrNull m (propId o)) as [c|]; cbn [mbind option_bind]; [|tauto].
    case_bool_decide; [tauto|]. destruct (isSubscribable c (flags o)); cbn [negb]; [|tauto].
    split.
    - intros [[?|?]|Hex]; [done..|]. by rewrite (IH1 Hex).
    - intros [_ Hf]. destruct (IH2 Hf) as [l ->]. eexists. reflexivity. }
  unfold subscribe. split.
  - intros Hex. by rewrite (Hbad Hex).
  - intros Hf. destruct (Hgood Hf) as [l ->]. unfold addOrUpdateSubscription.
    destruct (getOrCreateHalClientLocked _ _ _ _ _) as [[a s1]|]; [|done].
    destruct (foldl _ _ _) as [out s2]. simpl. by destruct (hal_subscribe_all _ _).
Qed.

(** A batch of HAL events reaches exactly the clients subscribed to its
    properties: the calls made are one [onPropertyEvent] per such client, with
    precisely the values of its properties in order, although all clients are
    served through one shared vector. *)
Lemma batch_delivery_spec m values :
  subs_ok (mSubscriptionManager m) ->
  length (mHidlVecOfVehiclePropValuePool m) = kMaxHidlVecOfVehiclPropValuePoolSize ->
  exists es m', onBatchHalEvent m values = Some (es, m') /\
    mSubscriptionManager m' = mSubscriptionManager m /\
    length (mHidlVecOfVehiclePropValuePool m') = kMaxHidlVecOfVehiclPropValuePoolSize /\
    forall e, e ∈ es <-> exists a c, objects (mSubscriptionManager m) !! a = Some c /\
      let vs := values_for (mSubscriptionManager m) F_EVENTS_FROM_CAR a values in
      vs <> [] /\ e = OnPropertyEvent (mCallback c) vs.
Proof.
  intros Hok Hlen. destruct (onBatch_spec m values Hok Hlen) as (pool & Hp & Heq).
  eexists _, _. split; [exact Heq|]. split; [done|]. split; [done|].
  intros e. rewrite list_elem_of_bind. unfold event_for, callbacks. split.
  - intros ([a vs] & He & Hin). apply (distribute_elem _ _ _ Hok) in Hin as [Hvs Hne].
    simpl in He. destruct (objects (mSubscriptionManager m) !! a) as [c|] eqn:Hc; simpl in He.
    + apply list_elem_of_singleton in He as ->. subst vs. eauto.
    + by apply elem_of_nil in He.
  - intros (a & c & Hc & Hne & ->). exists (a, values_for (mSubscriptionManager m) F_EVENTS_FROM_CAR a values).
    split; [simpl; rewrite Hc; apply list_elem_of_here|].
    by apply (distribute_elem _ _ _ Hok).
Qed.

(** The [--set] command of a root caller sets exactly the value its
    arguments spell: the integers in order, the string, the area (the one found
    in memory if none is given). *)
Lemma set_command_roundtrip junk now cmd pstr p args :
  args <> [] -> ParseInt pstr = Some p -> Forall arg_ok args ->
  (length (arg_strs args) <= 1)%nat -> (length (arg_areas args) <= 1)%nat ->
  parse_set junk true now (cmd :: pstr :: args ≫= arg_strings) =
  Some (inr (mkValue now (default (areaId junk) (last (arg_areas args))) p S_AVAILABLE
    (mkRaw (arg_ints args) [] [] [] (default EmptyString (last (arg_strs args)))))).
Proof.
  intros Hne Hp Hok Hs Ha. unfold parse_set. cbn [negb].
  assert (length (args ≫= arg_strings) = 2 * length args)%nat as Hlen.
  { clear. induction args as [|a args IH]; [done|]. rewrite bind_cons, length_app, IH.
    destruct a; cbn [length arg_strings]; lia. }
  unfold checkArgumentsSize. cbn [length]. rewrite Hlen.
  assert (0 < length args)%nat by (destruct args; [done|simpl; lia]).
  rewrite (proj2 (Nat.leb_le 3 _)) by lia. cbv beta iota zeta.
  replace (S (S (2 * length args))) with ((S (length args)) * 2)%nat by lia.
  rewrite Nat.Div0.mod_mul. cbn [Nat.eqb negb].
  replace ((S (length args) * 2 - 2) / 2)%nat with (length args)
    by (replace (S (length args) * 2 - 2)%nat with (length args * 2)%nat by lia;
        symmetry; apply Nat.div_mul; lia).
  unfold safelyParseInt. cbn [lookup list_lookup default from_option id]. rewrite Hp.
  destruct (set_sizes_spec args [cmd; pstr] 0 0 0) as (si & ai & Hsz); [simpl; lia|simpl; lia..|].
  cbn [length app] in Hsz. rewrite Hsz.
  pose proof (set_populate_spec args [cmd; pstr] now p S_AVAILABLE []
    (hidl_resize new_int32 (0 + length (arg_ints args)) []) (areaId junk) EmptyString Hok) as Hpop.
  cbn [length app] in Hpop. apply Hpop. apply length_hidl_resize.
Qed.

(** [getPropConfigs] answers once with the configurations it found, in
    order, but also once more, with an error, for every property it does not
    know: the callback of a HIDL method runs several times. *)
Lemma getPropConfigs_callback_calls m properties :
  getPropConfigs m properties =
  replicate (length (filter (fun p => getPropConfigOrNull m p = None) properties))
    (INVALID_ARG, []) ++ [(OK, omap (getPropConfigOrNull m) properties)].
Proof.
  unfold getPropConfigs.
  assert (forall acc, getPropConfigs_loop m properties acc =
    replicate (length (filter (fun p => getPropConfigOrNull m p = None) properties))
      (INVALID_ARG, []) ++ [(OK, acc ++ omap (getPropConfigOrNull m) properties)]) as Hgen;
    [|apply Hgen].
  induction properties as [|p ps IH]; intros acc; simpl; [by rewrite app_nil_r|].
  rewrite filter_cons. destruct (getPropConfigOrNull m p) as [c|] eqn:Hc.
  - rewrite decide_False by done. rewrite IH, <-app_assoc. done.
  - rewrite decide_True by done. simpl. by rewrite IH.
Qed.

End HalManager.

(** ** Witnesses *)

(** A HAL that remembers the last value set, and a library that parses one
    number. *)
Definition demo_hal : VehicleHal (option VehiclePropValue) := {|
  hal_get _ h := (h, OK, h);
  hal_set v _ := (OK, Some v);
  hal_subscribe _ _ h := (OK, h);
  hal_unsubscribe _ h := (OK, h);
  hal_dump _ h := (true, h)
|}.

Definition demo_base : LibBase := {|
  ParseInt s := if String.eqb s "42" then Some 42 else None;
  EqualsIgnoreCase := String.eqb
|}.

Lemma demo_base_laws : @LibBaseLaws demo_base.
Proof. split; [apply String.eqb_refl|reflexivity..]. Qed.

Definition demo_config : VehiclePropConfig :=
  mkConfig 42 3 2 [] [] (S754_zero false) (Binary32.of_Z 10).

Definition demo_hal_manager : VehicleHalManager (option VehiclePropValue) :=
  init None [demo_config].

Definition demo_set_value : VehiclePropValue := mkValue 1 0 42 0 (mkRaw [7] [] [] [] EmptyString).

Definition demo_busy_manager : VehicleHalManager (option VehiclePropValue) :=
  mkManager None [] demo_manager (replicate 20 kEmptyValue).
