(* ===== verification/UserHal.v ===== *)
(** * vehicle/impl/vhal_v2_0/EmulatedUserHal.cpp

    The emulated user HAL: a response that is set through the debug shell (a
    request whose area is not 0) is stored, and answers the next request of
    Android (area 0).  A [unique_ptr] is an option; a moved response is gone.
    [android::base::Result<unique_ptr<VehiclePropValue>>] is [Result].  Access
    outside a vector and signed overflow are [None]. *)

From S2P Require Import Prelude VehicleTypes.

(** ** Data *)

Inductive Result := Failed (code : StatusCode) | Replied (v : option VehiclePropValue).

Record EmulatedUserHal := mkUser {
  mInitialUserResponseFromCmd : option VehiclePropValue;
  mSwitchUserResponseFromCmd : option VehiclePropValue;
  mCreateUserResponseFromCmd : option VehiclePropValue;
  mSetUserIdentificationAssociationResponseFromCmd : option VehiclePropValue
}.

Definition user_new : EmulatedUserHal := mkUser None None None None.

Definition set_initial (u : EmulatedUserHal) (r : option VehiclePropValue) : EmulatedUserHal :=
  mkUser r (mSwitchUserResponseFromCmd u) (mCreateUserResponseFromCmd u)
    (mSetUserIdentificationAssociationResponseFromCmd u).
Definition set_switch (u : EmulatedUserHal) (r : option VehiclePropValue) : EmulatedUserHal :=
  mkUser (mInitialUserResponseFromCmd u) r (mCreateUserResponseFromCmd u)
    (mSetUserIdentificationAssociationResponseFromCmd u).
Definition set_create (u : EmulatedUserHal) (r : option VehiclePropValue) : EmulatedUserHal :=
  mkUser (mInitialUserResponseFromCmd u) (mSwitchUserResponseFromCmd u) r
    (mSetUserIdentificationAssociationResponseFromCmd u).
Definition set_association (u : EmulatedUserHal) (r : option VehiclePropValue) : EmulatedUserHal :=
  mkUser (mInitialUserResponseFromCmd u) (mSwitchUserResponseFromCmd u)
    (mCreateUserResponseFromCmd u) r.

Section UserHal.
Context `{VehicleAbi, Enumerators}.

(** A handler: the result and the new state. *)
Definition handled : Type := option (Result * EmulatedUserHal).

Definition INITIAL_USER_INFO : Z := VP "INITIAL_USER_INFO".
Definition SWITCH_USER : Z := VP "SWITCH_USER".
Definition CREATE_USER : Z := VP "CREATE_USER".
Definition REMOVE_USER : Z := VP "REMOVE_USER".
Definition USER_IDENTIFICATION_ASSOCIATION : Z := VP "USER_IDENTIFICATION_ASSOCIATION".

Definition isSupported (p : Z) : bool :=
  bool_decide (p ∈ [INITIAL_USER_INFO; SWITCH_USER; CREATE_USER; REMOVE_USER;
                    USER_IDENTIFICATION_ASSOCIATION]).

(** ** Replies *)

Definition defaultUserIdentificationAssociation (request : VehiclePropValue) : Result :=
  Failed NOT_AVAILABLE.

Definition with_request_id (response : VehiclePropValue) (requestId : Z) : option VehiclePropValue :=
  l ← arr_set (int32Values (value response)) 0 requestId; Some (set_int32Values response l).

Definition sendUserHalResponse (response : VehiclePropValue) (requestId : Z) : option Result :=
  if areaId response =? 1 then
    r ← with_request_id response requestId; Some (Replied (Some r))
  else if areaId response =? 2 then
    id ← (if decide (in_s 32 (- requestId)) then Some (- requestId) else None);
    r ← with_request_id response id; Some (Replied (Some r))
  else if areaId response =? 3 then Some (Failed NOT_AVAILABLE)
  else Some (Failed INTERNAL_ERROR).

(** The default answers are freshly allocated: area and status are [junk]'s. *)
Definition fresh_reply (junk : VehiclePropValue) (now p : Z) (l : list Z) : VehiclePropValue :=
  set_int32Values (mkValue now (areaId junk) p (status junk) empty_raw) l.

(** ** Set *)

Definition onSetInitialUserInfoResponse (junk : VehiclePropValue) (now : Z) (u : EmulatedUserHal)
    (v : VehiclePropValue) : handled :=
  match int32Values (value v) with
  | [] => Some (Failed INVALID_ARG, u)
  | requestId :: _ =>
      if negb (areaId v =? 0) then Some (Replied None, set_initial u (Some v))
      else
        match mInitialUserResponseFromCmd u with
        | Some response => r ← sendUserHalResponse response requestId; Some (r, set_initial u None)
        | None =>
            Some (Replied (Some (fresh_reply junk now INITIAL_USER_INFO
                    [requestId; enum "InitialUserInfoResponseAction::DEFAULT"])), u)
        end
  end.

Definition onSetSwitchUserResponse (junk : VehiclePropValue) (now : Z) (u : EmulatedUserHal)
    (v : VehiclePropValue) : handled :=
  match int32Values (value v) with
  | [] => Some (Failed INVALID_ARG, u)
  | requestId :: rest =>
      if negb (areaId v =? 0) then Some (Replied None, set_switch u (Some v))
      else
        match mSwitchUserResponseFromCmd u with
        | Some response => r ← sendUserHalResponse response requestId; Some (r, set_switch u None)
        | None =>
            let ignored := match rest with
              | messageType :: _ =>
                  (messageType =? enum "SwitchUserMessageType::LEGACY_ANDROID_SWITCH") ||
                  (messageType =? enum "SwitchUserMessageType::ANDROID_POST_SWITCH")
              | [] => false
              end in
            if ignored then Some (Replied None, u)
            else Some (Replied (Some (fresh_reply junk now SWITCH_USER
                    [requestId; enum "SwitchUserMessageType::VEHICLE_RESPONSE";
                     enum "SwitchUserStatus::SUCCESS"])), u)
        end
  end.

Definition onSetCreateUserResponse (junk : VehiclePropValue) (now : Z) (u : EmulatedUserHal)
    (v : VehiclePropValue) : handled :=
  match int32Values (value v) with
  | [] => Some (Failed INVALID_ARG, u)
  | requestId :: _ =>
      if negb (areaId v =? 0) then Some (Replied None, set_create u (Some v))
      else
        match mCreateUserResponseFromCmd u with
        | Some response => r ← sendUserHalResponse response requestId; Some (r, set_create u None)
        | None =>
            Some (Replied (Some (fresh_reply junk now CREATE_USER
                    [requestId; enum "CreateUserStatus::SUCCESS"])), u)
        end
  end.

(** This response is copied, not moved: a get may ask for it again. *)
Definition onSetUserIdentificationAssociation (u : EmulatedUserHal) (v : VehiclePropValue) : handled :=
  match int32Values (value v) with
  | [] => Some (Failed INVALID_ARG, u)
  | requestId :: _ =>
      if negb (areaId v =? 0) then Some (Replied None, set_association u (Some v))
      else
        match mSetUserIdentificationAssociationResponseFromCmd u with
        | Some response => r ← sendUserHalResponse response requestId; Some (r, u)
        | None => Some (defaultUserIdentificationAssociation v, u)
        end
  end.

Definition onSetProperty (junk : VehiclePropValue) (now : Z) (u : EmulatedUserHal)
    (v : VehiclePropValue) : handled :=
  if prop v =? INITIAL_USER_INFO then onSetInitialUserInfoResponse junk now u v
  else if prop v =? SWITCH_USER then onSetSwitchUserResponse junk now u v
  else if prop v =? CREATE_USER then onSetCreateUserResponse junk now u v
  else if prop v =? REMOVE_USER then Some (Replied None, u)
  else if prop v =? USER_IDENTIFICATION_ASSOCIATION then onSetUserIdentificationAssociation u v
  else Some (Failed INVALID_ARG, u).

(** ** Get *)

Definition onGetUserIdentificationAssociation (u : EmulatedUserHal) (v : VehiclePropValue)
    : option Result :=
  match mSetUserIdentificationAssociationResponseFromCmd u with
  | Some stored =>
      match int32Values (value v) with
      | requestId :: _ => r ← with_request_id stored requestId; Some (Replied (Some r))
      | [] => Some (Replied (Some stored))
      end
  | None => Some (defaultUserIdentificationAssociation v)
  end.

Definition onGetProperty (u : EmulatedUserHal) (v : VehiclePropValue) : option Result :=
  if prop v =? USER_IDENTIFICATION_ASSOCIATION then onGetUserIdentificationAssociation u v
  else Some (Failed INVALID_ARG).

(** ** Invariant *)

(** A stored response came from the shell and has a request id to replace. *)
Definition response_ok (r : option VehiclePropValue) : Prop :=
  forall v, r = Some v -> areaId v <> 0 /\ int32Values (value v) <> [].

Definition user_ok (u : EmulatedUserHal) : Prop :=
  response_ok (mInitialUserResponseFromCmd u) /\ response_ok (mSwitchUserResponseFromCmd u) /\
  response_ok (mCreateUserResponseFromCmd u) /\
  response_ok (mSetUserIdentificationAssociationResponseFromCmd u).

Inductive user_step : EmulatedUserHal -> EmulatedUserHal -> Prop :=
  | UserSet junk now u v r u' : onSetProperty junk now u v = Some (r, u') -> user_step u u'.

(** ** The specification: one pending response per request property *)

(** What a stored response answers to a request. *)
Definition scripted (response : VehiclePropValue) (requestId : Z) : Result :=
  let reply id := Replied (Some (set_int32Values response
                                   (id :: tail (int32Values (value response))))) in
  if areaId response =? 1 then reply requestId
  else if areaId response =? 2 then reply (- requestId)
  else if areaId response =? 3 then Failed NOT_AVAILABLE
  else Failed INTERNAL_ERROR.

(** The response pending for a property, and its removal. *)
Definition pending (u : EmulatedUserHal) (p : Z) : option VehiclePropValue :=
  if p =? INITIAL_USER_INFO then mInitialUserResponseFromCmd u
  else if p =? SWITCH_USER then mSwitchUserResponseFromCmd u
  else if p =? CREATE_USER then mCreateUserResponseFromCmd u
  else if p =? USER_IDENTIFICATION_ASSOCIATION then
    mSetUserIdentificationAssociationResponseFromCmd u
  else None.

(** The properties Android requests with a request id. *)
Definition requests : list Z :=
  [INITIAL_USER_INFO; SWITCH_USER; CREATE_USER; USER_IDENTIFICATION_ASSOCIATION].

(** The answer without a pending response. *)
Definition unscripted (junk : VehiclePropValue) (now p : Z) (requestId : Z) (rest : list Z) : Result :=
  if p =? INITIAL_USER_INFO then
    Replied (Some (fresh_reply junk now p [requestId; enum "InitialUserInfoResponseAction::DEFAULT"]))
  else if p =? SWITCH_USER then
    if existsb (fun t => bool_decide
         (t ∈ [enum "SwitchUserMessageType::LEGACY_ANDROID_SWITCH";
               enum "SwitchUserMessageType::ANDROID_POST_SWITCH"])) (take 1 rest) then Replied None
    else Replied (Some (fresh_reply junk now p
           [requestId; enum "SwitchUserMessageType::VEHICLE_RESPONSE"; enum "SwitchUserStatus::SUCCESS"]))
  else if p =? CREATE_USER then
    Replied (Some (fresh_reply junk now p [requestId; enum "CreateUserStatus::SUCCESS"]))
  else Failed NOT_AVAILABLE.

(** ** Lemmas *)

Context `{!EnumeratorLaws}.

(** The properties of [requests] are distinct. *)
Lemma user_props_ne :
  INITIAL_USER_INFO <> SWITCH_USER /\ INITIAL_USER_INFO <> CREATE_USER /\
  INITIAL_USER_INFO <> USER_IDENTIFICATION_ASSOCIATION /\ SWITCH_USER <> CREATE_USER /\
  SWITCH_USER <> USER_IDENTIFICATION_ASSOCIATION /\
  CREATE_USER <> USER_IDENTIFICATION_ASSOCIATION /\
  REMOVE_USER <> USER_IDENTIFICATION_ASSOCIATION /\ INITIAL_USER_INFO <> REMOVE_USER /\
  SWITCH_USER <> REMOVE_USER /\ CREATE_USER <> REMOVE_USER.
Proof.
  split_and!; apply VP_ne; try (apply (bool_decide_unpack _); vm_compute; exact I); by intros [=].
Qed.

Lemma with_request_id_spec r id :
  int32Values (value r) <> [] ->
  with_request_id r id = Some (set_int32Values r (id :: tail (int32Values (value r)))).
Proof.
  intros Hr. unfold with_request_id. destruct (int32Values (value r)) as [|x l] eqn:Hl; [done|].
  unfold arr_set. by rewrite decide_True by (cbn [length]; lia).
Qed.

Lemma send_spec r id :
  response_ok (Some r) -> in_s 32 (- id) -> sendUserHalResponse r id = Some (scripted r id).
Proof.
  intros Hok Hid. destruct (Hok r eq_refl) as [_ Hne]. unfold sendUserHalResponse, scripted.
  repeat case_match; rewrite ?decide_True by done; cbn [mbind option_bind];
    rewrite ?with_request_id_spec by done; done.
Qed.

Lemma response_ok_None : response_ok None.
Proof. by intros ? [=]. Qed.

Lemma response_ok_stored v :
  (areaId v =? 0) = false -> int32Values (value v) <> [] -> response_ok (Some v).
Proof. intros Ha Hl ? [= <-]. split; [by apply Z.eqb_neq|done]. Qed.

Lemma user_step_ok u u' : user_step u u' -> user_ok u -> user_ok u'.
Proof.
  intros [junk now u0 v r u1 Hr] (Ri & Rs & Rc & Ra). unfold user_ok.
  unfold onSetProperty, onSetInitialUserInfoResponse, onSetSwitchUserResponse,
    onSetCreateUserResponse, onSetUserIdentificationAssociation in Hr.
  destruct (int32Values (value v)) as [|id rest] eqn:Hl; [repeat case_match; by simplify_eq|].
  assert (int32Values (value v) <> []) as Hne by by rewrite Hl.
  destruct (areaId v =? 0) eqn:Ha; cbn [negb] in Hr; repeat case_match;
    repeat match goal with
    | H : mbind _ _ = Some _ |- _ => apply bind_Some in H as (? & _ & H)
    end;
    simplify_eq; split_and!; cbn;
    first [done | apply response_ok_None | by apply response_ok_stored
          | match goal with H : ?x = _ |- response_ok ?x => by rewrite H end].
Qed.

Lemma user_reachable_ok u : rtc user_step user_new u -> user_ok u.
Proof.
  intros Hr. apply (rtc_invariant _ user_ok) in Hr; [done|by intros; eapply user_step_ok|].
  split_and!; apply response_ok_None.
Qed.

Lemma request_ne p : p ∈ requests -> p <> REMOVE_USER.
Proof.
  destruct user_props_ne as (_ & _ & _ & _ & _ & _ & ? & ? & ? & ?).
  unfold requests. rewrite !elem_of_cons, elem_of_nil. intros [->|[->|[->|[->|[]]]]]; congruence.
Qed.

Lemma ignored_spec rest a b :
  match rest with t :: _ => (t =? a) || (t =? b) | [] => false end =
  existsb (fun t => bool_decide (t ∈ [a; b])) (take 1 rest).
Proof.
  destruct rest as [|t rest]; [done|]. cbn. rewrite take_0. cbn. rewrite orb_false_r.
  apply Bool.eq_true_iff_eq. rewrite orb_true_iff, !Z.eqb_eq, bool_decide_eq_true.
  rewrite !elem_of_cons, elem_of_nil. tauto.
Qed.

(** Case analysis on the property of a request, and the comparisons of
    properties decided. *)
Ltac decide_props :=
  repeat match goal with
  | |- context [?x =? ?x] => rewrite (Z.eqb_refl x)
  | |- context [?x =? ?y] => rewrite (proj2 (Z.eqb_neq x y)) by congruence
  | |- context [decide (?x = ?x)] => rewrite (decide_True (P := x = x)) by done
  | |- context [decide (?x = ?y)] => rewrite (decide_False (P := x = y)) by congruence
  end.

Ltac each_request Hp :=
  unfold requests in Hp; rewrite !elem_of_cons, elem_of_nil in Hp;
  destruct Hp as [->|[->|[->|[->|[]]]]]; decide_props.

Ltac reply_case :=
  eexists _, _; split; [reflexivity|]; split; [done|];
  intros q Hq; each_request Hq; cbn; congruence.

(** ** Theorems *)

(** The scripted user HAL, in every reachable state and for each of the
    four properties Android sends requests on: a message without a request id
    is refused; one from the shell replaces the pending response of its own
    property; one from Android is answered by the pending response as its area
    says, with the request id put in, which uses it up (the association
    response stays), or by the default answer. *)
Lemma user_reply_spec u junk now v p :
  rtc user_step user_new u -> p ∈ requests -> prop v = p ->
  match int32Values (value v) with
  | [] => onSetProperty junk now u v = Some (Failed INVALID_ARG, u)
  | id :: rest =>
      in_s 32 (- id) ->
      exists r u', onSetProperty junk now u v = Some (r, u') /\
        r = (if areaId v =? 0 then
               match pending u p with
               | Some response => scripted response id
               | None => unscripted junk now p id rest
               end
             else Replied None) /\
        forall q, q ∈ requests -> pending u' q =
          if decide (q = p) then
            if areaId v =? 0 then if p =? USER_IDENTIFICATION_ASSOCIATION then pending u p else None
            else Some v
          else pending u q
  end.
Proof.
  intros (Ri & Rs & Rc & Ra)%user_reachable_ok Hp <-. set (p := prop v) in *.
  destruct user_props_ne as (? & ? & ? & ? & ? & ? & ? & ? & ? & ?).
  destruct (int32Values (value v)) as [|id rest] eqn:Hl; [|intros Hid];
    unfold onSetProperty, unscripted, pending; fold p; clearbody p; each_request Hp;
    unfold onSetInitialUserInfoResponse, onSetSwitchUserResponse, onSetCreateUserResponse,
      onSetUserIdentificationAssociation; rewrite Hl; [done..| | | |];
    rewrite ?ignored_spec; (destruct (areaId v =? 0); cbn [negb]; [|reply_case]).
  - destruct (mInitialUserResponseFromCmd u) eqn:Hm; [rewrite send_spec by done|]; reply_case.
  - destruct (mSwitchUserResponseFromCmd u) eqn:Hm; [rewrite send_spec by done; reply_case|].
    destruct (existsb _ _); reply_case.
  - destruct (mCreateUserResponseFromCmd u) eqn:Hm; [rewrite send_spec by done|]; reply_case.
  - destruct (mSetUserIdentificationAssociationResponseFromCmd u) eqn:Hm;
      [rewrite send_spec by done|]; reply_case.
Qed.

End UserHal.

(** ** Witnesses *)

(** An assignment of values to the enumerators: a property by its place in the
    list, in the global area and of type MIXED; two enumerators of access and
    mode as in AOSP; anything else is 0. *)
Fixpoint place (l : list string) (n : string) (k : Z) : option Z :=
  match l with
  | [] => None
  | m :: r => if String.eqb m n then Some k else place r n (k + 1)
  end.

Definition demo_enum : Enumerators := fun n =>
  match place ((fun m => "VehicleProperty::" +:+ m) <$> property_names) n 1 with
  | Some k => Z.lor 0x11e00000 k
  | None =>
      if String.eqb n "VehiclePropertyChangeMode::CONTINUOUS" then 2
      else if String.eqb n "VehiclePropertyAccess::READ_WRITE" then 3
      else 0
  end.

Lemma demo_enum_laws : @EnumeratorLaws aosp_abi demo_enum.
Proof. split; [apply (bool_decide_unpack _); vm_compute; exact I|reflexivity]. Qed.

Definition demo_request (area : Z) (l : list Z) : VehiclePropValue :=
  mkValue 0 area (@SWITCH_USER demo_enum) 0 (mkRaw l [] [] [] EmptyString).
