(* ===== verification/DefaultConfig.v ===== *)
(** * vehicle/impl/vhal_v2_0/DefaultConfig.h

    The properties of the emulated vehicle: a table of declarations, each a
    configuration with the initial value, for all areas or per area.  Values of
    generated enumerators come from [enum]. *)

From S2P Require Import Prelude VehicleTypes.

(** ** Declarations *)

(** [initialAreaValues] is a [std::map] given by an initializer list: the first
    entry of a key counts. *)
Record ConfigDeclaration := mkDecl {
  dc_config : VehiclePropConfig; initialValue : RawValue; initialAreaValues : list (Z * RawValue)
}.

(** The members of designated initializers that are not named are 0 or empty. *)
Definition f32 (z : Z) : spec_float := Binary32.of_Z z.
Definition area (id : Z) : VehicleAreaConfig := mkArea id 0 0 0 0 (f32 0) (f32 0).
Definition area_int (id min max : Z) : VehicleAreaConfig := mkArea id min max 0 0 (f32 0) (f32 0).
Definition area_float (id : Z) (min max : spec_float) : VehicleAreaConfig := mkArea id 0 0 0 0 min max.
Definition config (p access mode : Z) : VehiclePropConfig :=
  mkConfig p access mode [] [] (f32 0) (f32 0).
Definition ints (l : list Z) : RawValue := mkRaw l [] [] [] EmptyString.
Definition longs (l : list Z) : RawValue := mkRaw [] [] l [] EmptyString.
Definition floats (l : list spec_float) : RawValue := mkRaw [] l [] [] EmptyString.
Definition str (s : string) : RawValue := mkRaw [] [] [] [] s.

(** [FakeDataCommand]. *)
Definition StartLinear : Z := 0.
Definition StopLinear : Z := 1.
Definition StartJson : Z := 2.
Definition StopJson : Z := 3.
Definition KeyPress : Z := 100.

Section DefaultConfig.
Context `{VehicleAbi, Enumerators}.

Definition C_CONTINUOUS : Z := enum "VehiclePropertyChangeMode::CONTINUOUS".
Definition P_READ_WRITE : Z := enum "VehiclePropertyAccess::READ_WRITE".

(** ** Constants *)

Definition ABS_ACTIVE : Z := VP "ABS_ACTIVE".
Definition AP_POWER_STATE_REQ : Z := VP "AP_POWER_STATE_REQ".
Definition AP_POWER_STATE_REPORT : Z := VP "AP_POWER_STATE_REPORT".
Definition DOOR_1_LEFT : Z := enum "VehicleAreaDoor::ROW_1_LEFT".
Definition DOOR_1_RIGHT : Z := enum "VehicleAreaDoor::ROW_1_RIGHT".
Definition DOOR_2_LEFT : Z := enum "VehicleAreaDoor::ROW_2_LEFT".
Definition DOOR_2_RIGHT : Z := enum "VehicleAreaDoor::ROW_2_RIGHT".
Definition DOOR_REAR : Z := enum "VehicleAreaDoor::REAR".
Definition WINDOW_1_LEFT : Z := enum "VehicleAreaWindow::ROW_1_LEFT".
Definition WINDOW_1_RIGHT : Z := enum "VehicleAreaWindow::ROW_1_RIGHT".
Definition WINDOW_2_LEFT : Z := enum "VehicleAreaWindow::ROW_2_LEFT".
Definition WINDOW_2_RIGHT : Z := enum "VehicleAreaWindow::ROW_2_RIGHT".
Definition WINDOW_ROOF_TOP_1 : Z := enum "VehicleAreaWindow::ROOF_TOP_1".
Definition FAN_DIRECTION_FACE : Z := enum "VehicleHvacFanDirection::FACE".
Definition FAN_DIRECTION_FLOOR : Z := enum "VehicleHvacFanDirection::FLOOR".
Definition OBD2_LIVE_FRAME : Z := VP "OBD2_LIVE_FRAME".
Definition OBD2_FREEZE_FRAME : Z := VP "OBD2_FREEZE_FRAME".
Definition OBD2_FREEZE_FRAME_INFO : Z := VP "OBD2_FREEZE_FRAME_INFO".
Definition OBD2_FREEZE_FRAME_CLEAR : Z := VP "OBD2_FREEZE_FRAME_CLEAR".
Definition TRACTION_CONTROL_ACTIVE : Z := VP "TRACTION_CONTROL_ACTIVE".
Definition VEHICLE_MAP_SERVICE : Z := VP "VEHICLE_MAP_SERVICE".
Definition WHEEL_TICK : Z := VP "WHEEL_TICK".
Definition ALL_WHEELS : Z := Z.lor (Z.lor (Z.lor (enum "VehicleAreaWheel::LEFT_FRONT")
  (enum "VehicleAreaWheel::RIGHT_FRONT")) (enum "VehicleAreaWheel::LEFT_REAR"))
  (enum "VehicleAreaWheel::RIGHT_REAR").
Definition SEAT_1_LEFT : Z := enum "VehicleAreaSeat::ROW_1_LEFT".
Definition SEAT_1_RIGHT : Z := enum "VehicleAreaSeat::ROW_1_RIGHT".
Definition HVAC_LEFT : Z := Z.lor (Z.lor (enum "VehicleAreaSeat::ROW_1_LEFT")
  (enum "VehicleAreaSeat::ROW_2_LEFT")) (enum "VehicleAreaSeat::ROW_2_CENTER").
Definition HVAC_RIGHT : Z := Z.lor (enum "VehicleAreaSeat::ROW_1_RIGHT")
  (enum "VehicleAreaSeat::ROW_2_RIGHT").
Definition HVAC_ALL : Z := Z.lor HVAC_LEFT HVAC_RIGHT.
Definition VENDOR_EXTENSION_BOOLEAN_PROPERTY : Z := Z.lor (Z.lor (Z.lor 0x101
  (enum "VehiclePropertyGroup::VENDOR")) T_BOOLEAN) (enum "VehicleArea::DOOR").
Definition VENDOR_EXTENSION_FLOAT_PROPERTY : Z := Z.lor (Z.lor (Z.lor 0x102
  (enum "VehiclePropertyGroup::VENDOR")) T_FLOAT) (enum "VehicleArea::SEAT").
Definition VENDOR_EXTENSION_INT_PROPERTY : Z := Z.lor (Z.lor (Z.lor 0x103
  (enum "VehiclePropertyGroup::VENDOR")) T_INT32) (enum "VehicleArea::WINDOW").
Definition VENDOR_EXTENSION_STRING_PROPERTY : Z := Z.lor (Z.lor (Z.lor 0x104
  (enum "VehiclePropertyGroup::VENDOR")) T_STRING) A_GLOBAL.
Definition FUEL_DOOR_REAR_LEFT : Z := enum "PortLocationType::REAR_LEFT".
Definition CHARGE_PORT_FRONT_LEFT : Z := enum "PortLocationType::FRONT_LEFT".
Definition CHARGE_PORT_REAR_LEFT : Z := enum "PortLocationType::REAR_LEFT".
Definition LIGHT_STATE_ON : Z := enum "VehicleLightState::ON".
Definition LIGHT_SWITCH_AUTO : Z := enum "VehicleLightSwitch::AUTOMATIC".
Definition WHEEL_FRONT_LEFT : Z := enum "VehicleAreaWheel::LEFT_FRONT".
Definition WHEEL_FRONT_RIGHT : Z := enum "VehicleAreaWheel::RIGHT_FRONT".
Definition WHEEL_REAR_LEFT : Z := enum "VehicleAreaWheel::LEFT_REAR".
Definition WHEEL_REAR_RIGHT : Z := enum "VehicleAreaWheel::RIGHT_REAR".
Definition kGenerateFakeDataControllingProperty : Z := Z.lor (Z.lor (Z.lor 0x0666
  (enum "VehiclePropertyGroup::VENDOR")) A_GLOBAL) T_MIXED.
Definition kSetIntPropertyFromVehicleForTest : Z := Z.lor (Z.lor (Z.lor 0x1112
  (enum "VehiclePropertyGroup::VENDOR")) A_GLOBAL) T_MIXED.
Definition kSetFloatPropertyFromVehicleForTest : Z := Z.lor (Z.lor (Z.lor 0x1113
  (enum "VehiclePropertyGroup::VENDOR")) A_GLOBAL) T_MIXED.
Definition kSetBooleanPropertyFromVehicleForTest : Z := Z.lor (Z.lor (Z.lor 0x1114
  (enum "VehiclePropertyGroup::VENDOR")) A_GLOBAL) T_MIXED.
Definition kMixedTypePropertyForTest : Z := Z.lor (Z.lor (Z.lor 0x1111
  (enum "VehiclePropertyGroup::VENDOR")) A_GLOBAL) T_MIXED.

Definition kHvacPowerProperties : list Z := [VP "HVAC_FAN_SPEED"; VP "HVAC_FAN_DIRECTION"].

(** ** The table *)

Definition kVehicleProperties_1 : list ConfigDeclaration :=
  [mkDecl (config (VP "INFO_FUEL_CAPACITY") P_READ C_STATIC) (floats [f32 15000]) [];
   mkDecl (config (VP "INFO_FUEL_TYPE") P_READ C_STATIC) (ints
    [enum "FuelType::FUEL_TYPE_UNLEADED"]) [];
   mkDecl (config (VP "INFO_EV_BATTERY_CAPACITY") P_READ C_STATIC) (floats [f32 150000]) [];
   mkDecl (config (VP "INFO_EV_CONNECTOR_TYPE") P_READ C_STATIC) (ints
    [enum "EvConnectorType::IEC_TYPE_1_AC"]) [];
   mkDecl (config (VP "INFO_DRIVER_SEAT") P_READ C_STATIC) (ints [SEAT_1_LEFT]) [];
   mkDecl (config (VP "INFO_FUEL_DOOR_LOCATION") P_READ C_STATIC) (ints [FUEL_DOOR_REAR_LEFT])
    [];
   mkDecl (config (VP "INFO_EV_PORT_LOCATION") P_READ C_STATIC) (ints [CHARGE_PORT_FRONT_LEFT])
    [];
   mkDecl (config (VP "INFO_MULTI_EV_PORT_LOCATIONS") P_READ C_STATIC) (ints
    [CHARGE_PORT_FRONT_LEFT; CHARGE_PORT_REAR_LEFT]) [];
   mkDecl (config (VP "INFO_MAKE") P_READ C_STATIC) (str "Toy Vehicle") [];
   mkDecl (config (VP "INFO_EXTERIOR_DIMENSIONS") P_READ C_STATIC) (floats [f32 1776; f32 4950;
    f32 2008; f32 2140; f32 2984; f32 1665; f32 1667; f32 11800]) [];
   mkDecl (mkConfig (VP "PERF_VEHICLE_SPEED") P_READ C_CONTINUOUS [] [] (f32 1) (f32 10))
    (floats [f32 0]) [];
   mkDecl (mkConfig (VP "VEHICLE_SPEED_DISPLAY_UNITS") P_READ_WRITE C_ON_CHANGE []
    [enum "VehicleUnit::METER_PER_SEC"; enum "VehicleUnit::MILES_PER_HOUR";
    enum "VehicleUnit::KILOMETERS_PER_HOUR"] (f32 0) (f32 0)) (ints
    [enum "VehicleUnit::KILOMETERS_PER_HOUR"]) [];
   mkDecl (mkConfig (VP "INFO_DRIVER_SEAT") P_READ C_STATIC [area 0] [] (f32 0) (f32 0)) (ints
    [SEAT_1_LEFT]) [];
   mkDecl (mkConfig (VP "PERF_ODOMETER") P_READ C_CONTINUOUS [] [] (f32 0) (f32 10)) (floats
    [f32 0]) [];
   mkDecl (mkConfig (VP "PERF_STEERING_ANGLE") P_READ C_CONTINUOUS [] [] (f32 0) (f32 10))
    (floats [f32 0]) [];
   mkDecl (mkConfig (VP "PERF_REAR_STEERING_ANGLE") P_READ C_CONTINUOUS [] [] (f32 0) (f32 10))
    (floats [f32 0]) []].

Definition kVehicleProperties_2 : list ConfigDeclaration :=
  [mkDecl (mkConfig (VP "ENGINE_RPM") P_READ C_CONTINUOUS [] [] (f32 1) (f32 10)) (floats
    [f32 0]) [];
   mkDecl (mkConfig (VP "FUEL_LEVEL") P_READ C_CONTINUOUS [] [] (f32 0) (f32 100)) (floats
    [f32 15000]) [];
   mkDecl (config (VP "FUEL_DOOR_OPEN") P_READ_WRITE C_ON_CHANGE) (ints [0]) [];
   mkDecl (mkConfig (VP "EV_BATTERY_LEVEL") P_READ C_CONTINUOUS [] [] (f32 0) (f32 100)) (floats
    [f32 150000]) [];
   mkDecl (config (VP "EV_CHARGE_PORT_OPEN") P_READ_WRITE C_ON_CHANGE) (ints [0]) [];
   mkDecl (config (VP "EV_CHARGE_PORT_CONNECTED") P_READ C_ON_CHANGE) (ints [0]) [];
   mkDecl (mkConfig (VP "EV_BATTERY_INSTANTANEOUS_CHARGE_RATE") P_READ C_CONTINUOUS [] []
    (f32 1) (f32 10)) (floats [f32 0]) [];
   mkDecl (mkConfig (VP "RANGE_REMAINING") P_READ_WRITE C_CONTINUOUS [] [] (f32 1) (f32 2))
    (floats [f32 100]) [];
   mkDecl (mkConfig (VP "TIRE_PRESSURE") P_READ C_CONTINUOUS [area_float WHEEL_FRONT_LEFT
    (f32 100) (f32 300); area_float WHEEL_FRONT_RIGHT (f32 100) (f32 300); area_float
    WHEEL_REAR_LEFT (f32 100) (f32 300); area_float WHEEL_REAR_RIGHT (f32 100) (f32 300)] []
    (f32 1) (f32 2)) (floats [f32 200]) [];
   mkDecl (mkConfig (VP "TIRE_PRESSURE_DISPLAY_UNITS") P_READ_WRITE C_ON_CHANGE []
    [enum "VehicleUnit::KILOPASCAL"; enum "VehicleUnit::PSI"; enum "VehicleUnit::BAR"] (f32 0)
    (f32 0)) (ints [enum "VehicleUnit::PSI"]) [];
   mkDecl (config (VP "CURRENT_GEAR") P_READ C_ON_CHANGE) (ints [enum "VehicleGear::GEAR_PARK"])
    [];
   mkDecl (config (VP "PARKING_BRAKE_ON") P_READ C_ON_CHANGE) (ints [1]) [];
   mkDecl (config (VP "FUEL_LEVEL_LOW") P_READ C_ON_CHANGE) (ints [0]) []].

Definition kVehicleProperties_3 : list ConfigDeclaration :=
  [mkDecl (config (VP "HW_KEY_INPUT") P_READ C_ON_CHANGE) (ints [0; 0; 0]) [];
   mkDecl (config (VP "HW_ROTARY_INPUT") P_READ C_ON_CHANGE) (ints [0; 0; 0]) [];
   mkDecl (mkConfig (VP "HVAC_POWER_ON") P_READ_WRITE C_ON_CHANGE [area HVAC_ALL]
    [VP "HVAC_FAN_SPEED"; VP "HVAC_FAN_DIRECTION"] (f32 0) (f32 0)) (ints [1]) [];
   mkDecl (mkConfig (VP "HVAC_DEFROSTER") P_READ_WRITE C_ON_CHANGE [area
    (enum "VehicleAreaWindow::FRONT_WINDSHIELD"); area
    (enum "VehicleAreaWindow::REAR_WINDSHIELD")] [] (f32 0) (f32 0)) (ints [0]) [];
   mkDecl (mkConfig (VP "HVAC_ELECTRIC_DEFROSTER_ON") P_READ_WRITE C_ON_CHANGE [area
    (enum "VehicleAreaWindow::FRONT_WINDSHIELD"); area
    (enum "VehicleAreaWindow::REAR_WINDSHIELD")] [] (f32 0) (f32 0)) (ints [0]) [];
   mkDecl (mkConfig (VP "HVAC_MAX_DEFROST_ON") P_READ_WRITE C_ON_CHANGE [area HVAC_ALL] []
    (f32 0) (f32 0)) (ints [0]) [];
   mkDecl (mkConfig (VP "HVAC_RECIRC_ON") P_READ_WRITE C_ON_CHANGE [area HVAC_ALL] [] (f32 0)
    (f32 0)) (ints [1]) [];
   mkDecl (mkConfig (VP "HVAC_AUTO_RECIRC_ON") P_READ_WRITE C_ON_CHANGE [area HVAC_ALL] []
    (f32 0) (f32 0)) (ints [0]) [];
   mkDecl (mkConfig (VP "HVAC_AC_ON") P_READ_WRITE C_ON_CHANGE [area HVAC_ALL] [] (f32 0)
    (f32 0)) (ints [1]) [];
   mkDecl (mkConfig (VP "HVAC_MAX_AC_ON") P_READ_WRITE C_ON_CHANGE [area HVAC_ALL] [] (f32 0)
    (f32 0)) (ints [0]) [];
   mkDecl (mkConfig (VP "HVAC_AUTO_ON") P_READ_WRITE C_ON_CHANGE [area HVAC_ALL] [] (f32 0)
    (f32 0)) (ints [1]) [];
   mkDecl (mkConfig (VP "HVAC_DUAL_ON") P_READ_WRITE C_ON_CHANGE [area HVAC_ALL] [] (f32 0)
    (f32 0)) (ints [0]) [];
   mkDecl (mkConfig (VP "HVAC_FAN_SPEED") P_READ_WRITE C_ON_CHANGE [area_int HVAC_ALL 1 7] []
    (f32 0) (f32 0)) (ints [3]) [];
   mkDecl (mkConfig (VP "HVAC_FAN_DIRECTION") P_READ_WRITE C_ON_CHANGE [area HVAC_ALL] []
    (f32 0) (f32 0)) (ints [enum "VehicleHvacFanDirection::FACE"]) [];
   mkDecl (mkConfig (VP "HVAC_FAN_DIRECTION_AVAILABLE") P_READ C_STATIC [area HVAC_ALL] []
    (f32 0) (f32 0)) (ints [FAN_DIRECTION_FACE; FAN_DIRECTION_FLOOR; Z.lor FAN_DIRECTION_FACE
    FAN_DIRECTION_FLOOR]) [];
   mkDecl (mkConfig (VP "HVAC_SEAT_VENTILATION") P_READ_WRITE C_ON_CHANGE [area_int SEAT_1_LEFT
    0 3; area_int SEAT_1_RIGHT 0 3] [] (f32 0) (f32 0)) (ints [0]) [];
   mkDecl (mkConfig (VP "HVAC_STEERING_WHEEL_HEAT") P_READ_WRITE C_ON_CHANGE [area_int 0 (-2) 2]
    [] (f32 0) (f32 0)) (ints [0]) []].

Definition kVehicleProperties_4 : list ConfigDeclaration :=
  [mkDecl (mkConfig (VP "HVAC_SEAT_TEMPERATURE") P_READ_WRITE C_ON_CHANGE [area_int SEAT_1_LEFT
    (-2) 2; area_int SEAT_1_RIGHT (-2) 2] [] (f32 0) (f32 0)) (ints [0]) [];
   mkDecl (mkConfig (VP "HVAC_TEMPERATURE_SET") P_READ_WRITE C_ON_CHANGE [area_float HVAC_LEFT
    (f32 16) (f32 32); area_float HVAC_RIGHT (f32 16) (f32 32)] [] (f32 0) (f32 0)) empty_raw
    [(HVAC_LEFT, floats [f32 16]); (HVAC_RIGHT, floats [f32 20])];
   mkDecl (mkConfig (VP "ENV_OUTSIDE_TEMPERATURE") P_READ C_CONTINUOUS [] [] (f32 1) (f32 2))
    (floats [f32 25]) [];
   mkDecl (mkConfig (VP "HVAC_TEMPERATURE_DISPLAY_UNITS") P_READ_WRITE C_ON_CHANGE []
    [enum "VehicleUnit::FAHRENHEIT"; enum "VehicleUnit::CELSIUS"] (f32 0) (f32 0)) (ints
    [enum "VehicleUnit::FAHRENHEIT"]) [];
   mkDecl (mkConfig (VP "DISTANCE_DISPLAY_UNITS") P_READ_WRITE C_ON_CHANGE [area 0]
    [enum "VehicleUnit::KILOMETER"; enum "VehicleUnit::MILE"] (f32 0) (f32 0)) (ints
    [enum "VehicleUnit::MILE"]) [];
   mkDecl (config (VP "NIGHT_MODE") P_READ C_ON_CHANGE) (ints [0]) [];
   mkDecl (mkConfig (VP "GEAR_SELECTION") P_READ C_ON_CHANGE [] [enum "VehicleGear::GEAR_PARK";
    enum "VehicleGear::GEAR_REVERSE"; enum "VehicleGear::GEAR_DRIVE"] (f32 0) (f32 0)) (ints
    [enum "VehicleGear::GEAR_REVERSE"]) [];
   mkDecl (config (VP "TURN_SIGNAL_STATE") P_READ C_ON_CHANGE) (ints
    [enum "VehicleTurnSignal::NONE"]) [];
   mkDecl (config (VP "IGNITION_STATE") P_READ C_ON_CHANGE) (ints
    [enum "VehicleIgnitionState::ON"]) [];
   mkDecl (config (VP "ENGINE_OIL_LEVEL") P_READ C_ON_CHANGE) (ints
    [enum "VehicleOilLevel::NORMAL"]) [];
   mkDecl (mkConfig (VP "ENGINE_OIL_TEMP") P_READ C_CONTINUOUS [] [] (S754_finite false 13421773
    (-27)) (f32 10)) (floats [f32 101]) [];
   mkDecl (mkConfig kGenerateFakeDataControllingProperty P_WRITE C_ON_CHANGE [] [1; 0; 0; 2; 0;
    0; 0; 0; 0] (f32 0) (f32 0)) empty_raw [];
   mkDecl (mkConfig kSetIntPropertyFromVehicleForTest P_WRITE C_ON_CHANGE [] [0; 0; 0; 2; 1; 0;
    0; 0; 0] (f32 0) (f32 0)) empty_raw [];
   mkDecl (mkConfig kSetFloatPropertyFromVehicleForTest P_WRITE C_ON_CHANGE [] [0; 0; 1; 0; 1;
    0; 1; 0; 0] (f32 0) (f32 0)) empty_raw []].

Definition kVehicleProperties_5 : list ConfigDeclaration :=
  [mkDecl (mkConfig kSetBooleanPropertyFromVehicleForTest P_WRITE C_ON_CHANGE [] [0; 1; 1; 0; 1;
    0; 0; 0; 0] (f32 0) (f32 0)) empty_raw [];
   mkDecl (mkConfig kMixedTypePropertyForTest P_READ_WRITE C_ON_CHANGE [] [1; 1; 0; 2; 0; 0; 1;
    0; 0] (f32 0) (f32 0)) (mkRaw [1; 2; 3] [S754_finite false 9437184 (-21)] [] [] "MIXED property") [];
   mkDecl (mkConfig (VP "DOOR_LOCK") P_READ_WRITE C_ON_CHANGE [area DOOR_1_LEFT; area
    DOOR_1_RIGHT; area DOOR_2_LEFT; area DOOR_2_RIGHT] [] (f32 0) (f32 0)) empty_raw
    [(DOOR_1_LEFT, ints [1]); (DOOR_1_RIGHT, ints [1]); (DOOR_2_LEFT, ints [1]); (DOOR_2_RIGHT,
    ints [1])];
   mkDecl (mkConfig (VP "DOOR_POS") P_READ_WRITE C_ON_CHANGE [area_int DOOR_1_LEFT 0 1; area_int
    DOOR_1_RIGHT 0 1; area_int DOOR_2_LEFT 0 1; area_int DOOR_2_RIGHT 0 1; area_int DOOR_REAR 0
    1] [] (f32 0) (f32 0)) (ints [0]) [];
   mkDecl (mkConfig (VP "WINDOW_LOCK") P_READ_WRITE C_ON_CHANGE [area (Z.lor (Z.lor
    WINDOW_1_RIGHT WINDOW_2_LEFT) WINDOW_2_RIGHT)] [] (f32 0) (f32 0)) empty_raw [(Z.lor (Z.lor
    WINDOW_1_RIGHT WINDOW_2_LEFT) WINDOW_2_RIGHT, ints [0])];
   mkDecl (mkConfig (VP "WINDOW_POS") P_READ_WRITE C_ON_CHANGE [area_int WINDOW_1_LEFT 0 10;
    area_int WINDOW_1_RIGHT 0 10; area_int WINDOW_2_LEFT 0 10; area_int WINDOW_2_RIGHT 0 10;
    area_int WINDOW_ROOF_TOP_1 (-10) 10] [] (f32 0) (f32 0)) (ints [0]) [];
   mkDecl (mkConfig WHEEL_TICK P_READ C_CONTINUOUS [] [ALL_WHEELS; 50000; 50000; 50000; 50000]
    (f32 1) (f32 10)) (longs [0; 100000; 200000; 300000; 400000]) [];
   mkDecl (config ABS_ACTIVE P_READ C_ON_CHANGE) (ints [0]) [];
   mkDecl (config TRACTION_CONTROL_ACTIVE P_READ C_ON_CHANGE) (ints [0]) [];
   mkDecl (mkConfig (VP "AP_POWER_STATE_REQ") P_READ C_ON_CHANGE [] [3] (f32 0) (f32 0)) (ints
    [enum "VehicleApPowerStateReq::ON"; 0]) [];
   mkDecl (config (VP "AP_POWER_STATE_REPORT") P_READ_WRITE C_ON_CHANGE) (ints
    [enum "VehicleApPowerStateReport::WAIT_FOR_VHAL"; 0]) [];
   mkDecl (mkConfig (VP "DISPLAY_BRIGHTNESS") P_READ_WRITE C_ON_CHANGE [area_int 0 0 100] []
    (f32 0) (f32 0)) (ints [100]) [];
   mkDecl (mkConfig OBD2_LIVE_FRAME P_READ C_ON_CHANGE [] [0; 0] (f32 0) (f32 0)) empty_raw [];
   mkDecl (mkConfig OBD2_FREEZE_FRAME P_READ C_ON_CHANGE [] [0; 0] (f32 0) (f32 0)) empty_raw [];
   mkDecl (config OBD2_FREEZE_FRAME_INFO P_READ C_ON_CHANGE) empty_raw []].

Definition kVehicleProperties_6 : list ConfigDeclaration :=
  [mkDecl (mkConfig OBD2_FREEZE_FRAME_CLEAR P_WRITE C_ON_CHANGE [] [1] (f32 0) (f32 0))
    empty_raw [];
   mkDecl (config (VP "HEADLIGHTS_STATE") P_READ C_ON_CHANGE) (ints [LIGHT_STATE_ON]) [];
   mkDecl (config (VP "HIGH_BEAM_LIGHTS_STATE") P_READ C_ON_CHANGE) (ints [LIGHT_STATE_ON]) [];
   mkDecl (config (VP "FOG_LIGHTS_STATE") P_READ C_ON_CHANGE) (ints [LIGHT_STATE_ON]) [];
   mkDecl (config (VP "HAZARD_LIGHTS_STATE") P_READ C_ON_CHANGE) (ints [LIGHT_STATE_ON]) [];
   mkDecl (config (VP "HEADLIGHTS_SWITCH") P_READ_WRITE C_ON_CHANGE) (ints [LIGHT_SWITCH_AUTO])
    [];
   mkDecl (config (VP "HIGH_BEAM_LIGHTS_SWITCH") P_READ_WRITE C_ON_CHANGE) (ints
    [LIGHT_SWITCH_AUTO]) [];
   mkDecl (config (VP "FOG_LIGHTS_SWITCH") P_READ_WRITE C_ON_CHANGE) (ints [LIGHT_SWITCH_AUTO])
    [];
   mkDecl (config (VP "HAZARD_LIGHTS_SWITCH") P_READ_WRITE C_ON_CHANGE) (ints
    [LIGHT_SWITCH_AUTO]) [];
   mkDecl (config VEHICLE_MAP_SERVICE P_READ_WRITE C_ON_CHANGE) empty_raw [];
   mkDecl (mkConfig VENDOR_EXTENSION_BOOLEAN_PROPERTY P_READ_WRITE C_ON_CHANGE [area
    DOOR_1_LEFT; area DOOR_1_RIGHT; area DOOR_2_LEFT; area DOOR_2_RIGHT] [] (f32 0) (f32 0))
    empty_raw [(DOOR_1_LEFT, ints [1]); (DOOR_1_RIGHT, ints [1]); (DOOR_2_LEFT, ints [0]);
    (DOOR_2_RIGHT, ints [0])];
   mkDecl (mkConfig VENDOR_EXTENSION_FLOAT_PROPERTY P_READ_WRITE C_ON_CHANGE [area_float
    HVAC_LEFT (f32 (-10)) (f32 10); area_float HVAC_RIGHT (f32 (-10)) (f32 10)] [] (f32 0)
    (f32 0)) empty_raw [(HVAC_LEFT, floats [f32 1]); (HVAC_RIGHT, floats [f32 2])];
   mkDecl (mkConfig VENDOR_EXTENSION_INT_PROPERTY P_READ_WRITE C_ON_CHANGE [area_int
    (enum "VehicleAreaWindow::FRONT_WINDSHIELD") (-100) 100; area_int
    (enum "VehicleAreaWindow::REAR_WINDSHIELD") (-100) 100; area_int
    (enum "VehicleAreaWindow::ROOF_TOP_1") (-100) 100] [] (f32 0) (f32 0)) empty_raw
    [(enum "VehicleAreaWindow::FRONT_WINDSHIELD", ints [1]);
    (enum "VehicleAreaWindow::REAR_WINDSHIELD", ints [0]); (enum "VehicleAreaWindow::ROOF_TOP_1",
    ints [(-1)])];
   mkDecl (config VENDOR_EXTENSION_STRING_PROPERTY P_READ_WRITE C_ON_CHANGE) (str "Vendor String Property") [];
   mkDecl (mkConfig (VP "SUPPORT_CUSTOMIZE_VENDOR_PERMISSION") P_READ_WRITE C_ON_CHANGE []
    [kMixedTypePropertyForTest;
    enum "VehicleVendorPermission::PERMISSION_GET_VENDOR_CATEGORY_INFO";
    enum "VehicleVendorPermission::PERMISSION_SET_VENDOR_CATEGORY_INFO";
    VENDOR_EXTENSION_INT_PROPERTY;
    enum "VehicleVendorPermission::PERMISSION_GET_VENDOR_CATEGORY_SEAT";
    enum "VehicleVendorPermission::PERMISSION_NOT_ACCESSIBLE"; VENDOR_EXTENSION_FLOAT_PROPERTY;
    enum "VehicleVendorPermission::PERMISSION_DEFAULT";
    enum "VehicleVendorPermission::PERMISSION_DEFAULT"] (f32 0) (f32 0)) (ints [1]) []].

Definition kVehicleProperties_7 : list ConfigDeclaration :=
  [mkDecl (config (VP "INITIAL_USER_INFO") P_READ_WRITE C_ON_CHANGE) empty_raw [];
   mkDecl (config (VP "SWITCH_USER") P_READ_WRITE C_ON_CHANGE) empty_raw [];
   mkDecl (config (VP "CREATE_USER") P_READ_WRITE C_ON_CHANGE) empty_raw [];
   mkDecl (config (VP "REMOVE_USER") P_READ_WRITE C_ON_CHANGE) empty_raw [];
   mkDecl (config (VP "USER_IDENTIFICATION_ASSOCIATION") P_READ_WRITE C_ON_CHANGE) empty_raw []].

Definition kVehicleProperties : list ConfigDeclaration :=
  kVehicleProperties_1 ++ kVehicleProperties_2 ++ kVehicleProperties_3 ++ kVehicleProperties_4 ++
  kVehicleProperties_5 ++ kVehicleProperties_6 ++ kVehicleProperties_7.

(** ** What the table relies on *)

(** The identifiers composed here, in the vendor's group. *)
Definition vendor_properties : list Z :=
  [VENDOR_EXTENSION_BOOLEAN_PROPERTY; VENDOR_EXTENSION_FLOAT_PROPERTY;
   VENDOR_EXTENSION_INT_PROPERTY; VENDOR_EXTENSION_STRING_PROPERTY;
   kGenerateFakeDataControllingProperty; kSetIntPropertyFromVehicleForTest;
   kSetFloatPropertyFromVehicleForTest; kSetBooleanPropertyFromVehicleForTest;
   kMixedTypePropertyForTest].

End DefaultConfig.

(** Identifiers of different properties differ: the vendor's group is not that
    of the system. *)
Class DefaultConfigLaws `{VehicleAbi, Enumerators} : Prop := {
  config_enumerators :: EnumeratorLaws;
  declared_distinct : NoDup (vendor_properties ++ (VP <$> property_names))
}.

(** A property of the table by what names it: a [VehicleProperty] or the
    place among the vendor's. *)
Definition key : Type := string + nat.

Definition keys : list key := (inr <$> seq 0 9) ++ (inl <$> property_names).

Definition key_value `{VehicleAbi, Enumerators} (k : key) : Z :=
  match k with inl n => VP n | inr i => nth i vendor_properties 0 end.

Lemma key_value_inj `{DefaultConfigLaws} k1 k2 :
  k1 ∈ keys -> k2 ∈ keys -> key_value k1 = key_value k2 -> k1 = k2.
Proof.
  assert (key_value <$> keys = vendor_properties ++ (VP <$> property_names)) as Hkeys
    by (unfold keys; rewrite fmap_app, <-!list_fmap_compose; reflexivity).
  intros (i & Hi)%list_elem_of_lookup_1 (j & Hj)%list_elem_of_lookup_1 Heq.
  pose proof (NoDup_lookup _ i j (key_value k1) declared_distinct) as Hij.
  rewrite <-Hkeys, !list_lookup_fmap, Hi, Hj in Hij. cbn [fmap option_fmap option_map] in Hij.
  rewrite Heq in Hij. specialize (Hij eq_refl eq_refl) as ->. congruence.
Qed.

(** What names the property of each declaration of the table. *)
Definition decl_keys : list key :=
  [inl "INFO_FUEL_CAPACITY"; inl "INFO_FUEL_TYPE"; inl "INFO_EV_BATTERY_CAPACITY";
   inl "INFO_EV_CONNECTOR_TYPE"; inl "INFO_DRIVER_SEAT"; inl "INFO_FUEL_DOOR_LOCATION";
   inl "INFO_EV_PORT_LOCATION"; inl "INFO_MULTI_EV_PORT_LOCATIONS"; inl "INFO_MAKE";
   inl "INFO_EXTERIOR_DIMENSIONS"; inl "PERF_VEHICLE_SPEED"; inl "VEHICLE_SPEED_DISPLAY_UNITS";
   inl "INFO_DRIVER_SEAT"; inl "PERF_ODOMETER"; inl "PERF_STEERING_ANGLE";
   inl "PERF_REAR_STEERING_ANGLE"; inl "ENGINE_RPM"; inl "FUEL_LEVEL"; inl "FUEL_DOOR_OPEN";
   inl "EV_BATTERY_LEVEL"; inl "EV_CHARGE_PORT_OPEN"; inl "EV_CHARGE_PORT_CONNECTED";
   inl "EV_BATTERY_INSTANTANEOUS_CHARGE_RATE"; inl "RANGE_REMAINING"; inl "TIRE_PRESSURE";
   inl "TIRE_PRESSURE_DISPLAY_UNITS"; inl "CURRENT_GEAR"; inl "PARKING_BRAKE_ON";
   inl "FUEL_LEVEL_LOW"; inl "HW_KEY_INPUT"; inl "HW_ROTARY_INPUT"; inl "HVAC_POWER_ON";
   inl "HVAC_DEFROSTER"; inl "HVAC_ELECTRIC_DEFROSTER_ON"; inl "HVAC_MAX_DEFROST_ON";
   inl "HVAC_RECIRC_ON"; inl "HVAC_AUTO_RECIRC_ON"; inl "HVAC_AC_ON"; inl "HVAC_MAX_AC_ON";
   inl "HVAC_AUTO_ON"; inl "HVAC_DUAL_ON"; inl "HVAC_FAN_SPEED"; inl "HVAC_FAN_DIRECTION";
   inl "HVAC_FAN_DIRECTION_AVAILABLE"; inl "HVAC_SEAT_VENTILATION";
   inl "HVAC_STEERING_WHEEL_HEAT"; inl "HVAC_SEAT_TEMPERATURE"; inl "HVAC_TEMPERATURE_SET";
   inl "ENV_OUTSIDE_TEMPERATURE"; inl "HVAC_TEMPERATURE_DISPLAY_UNITS";
   inl "DISTANCE_DISPLAY_UNITS"; inl "NIGHT_MODE"; inl "GEAR_SELECTION"; inl "TURN_SIGNAL_STATE";
   inl "IGNITION_STATE"; inl "ENGINE_OIL_LEVEL"; inl "ENGINE_OIL_TEMP"; inr 4%nat; inr 5%nat;
   inr 6%nat; inr 7%nat; inr 8%nat; inl "DOOR_LOCK"; inl "DOOR_POS"; inl "WINDOW_LOCK";
   inl "WINDOW_POS"; inl "WHEEL_TICK"; inl "ABS_ACTIVE"; inl "TRACTION_CONTROL_ACTIVE";
   inl "AP_POWER_STATE_REQ"; inl "AP_POWER_STATE_REPORT"; inl "DISPLAY_BRIGHTNESS";
   inl "OBD2_LIVE_FRAME"; inl "OBD2_FREEZE_FRAME"; inl "OBD2_FREEZE_FRAME_INFO";
   inl "OBD2_FREEZE_FRAME_CLEAR"; inl "HEADLIGHTS_STATE"; inl "HIGH_BEAM_LIGHTS_STATE";
   inl "FOG_LIGHTS_STATE"; inl "HAZARD_LIGHTS_STATE"; inl "HEADLIGHTS_SWITCH";
   inl "HIGH_BEAM_LIGHTS_SWITCH"; inl "FOG_LIGHTS_SWITCH"; inl "HAZARD_LIGHTS_SWITCH";
   inl "VEHICLE_MAP_SERVICE"; inr 0%nat; inr 1%nat; inr 2%nat; inr 3%nat;
   inl "SUPPORT_CUSTOMIZE_VENDOR_PERMISSION"; inl "INITIAL_USER_INFO"; inl "SWITCH_USER";
   inl "CREATE_USER"; inl "REMOVE_USER"; inl "USER_IDENTIFICATION_ASSOCIATION"].

Lemma decl_keys_spec `{VehicleAbi, Enumerators} :
  (fun d => cfg_prop (dc_config d)) <$> kVehicleProperties = key_value <$> decl_keys.
Proof. reflexivity. Qed.
