(* ===== verification/EmulatedVehicle.v ===== *)
(** * vehicle/impl/vhal_v2_0: EmulatedVehicleHal.cpp, VehicleHalServer.cpp

    The emulated vehicle: the vendor side of the vehicle HAL.
    [EmulatedVehicleHal] is the client, [VehicleHalServer] the pretended car,
    joined by the passthrough connector (VehicleConnector.h), which calls one
    from the other directly.  Both are one state; what they send to the outside
    (events for the HAL manager, messages for the emulator, orders for the
    generator hub) is the list [outputs].

    [None] is undefined behaviour or [abort]: access outside a vector, a null
    pointer, a [float] that does not fit an [int64_t], division by zero, no
    emulator registered.  Memory that the code leaves indeterminate and the
    clock are the arguments [Env] of an operation, one per allocation and reading. *)

From S2P Require Import Prelude VehicleTypes ObjectPool Obd2 RecurrentTimer UserHal DefaultConfig PropertyStore.

(** ** State *)

Inductive output :=
  | HalEvent (v : VehiclePropValue)              (* doHalEvent *)
  | ToEmulator (v : VehiclePropValue)            (* doSetValueFromClient *)
  | RegisterLinear (cookie : Z) (request : VehiclePropValue)
  | RegisterJson (cookie : Z) (request : VehiclePropValue)
  | UnregisterGenerator (cookie : Z).

Record Env := mkEnv { junk : nat -> VehiclePropValue; clock : nat -> Z }.

(** [mUserHalSet]: the pointer to the user HAL, which is the server's, is not
    null.  [mEmulator]: an emulator is registered. *)
Record EmulatedVehicle := mkEmu {
  mPropStore : VehiclePropertyStore;
  mRecurrentEvents : gmap Z RecurrentEvent;
  mInEmulator : bool;
  mInitVhalValueOverride : bool;
  mVehiclePropertiesOverride : list VehiclePropValue;
  mUserHalSet : bool;
  mEmulatedUserHal : EmulatedUserHal;
  mEmulator : bool;
  outputs : list output
}.

Definition with_store (s : EmulatedVehicle) (st : VehiclePropertyStore) : EmulatedVehicle :=
  mkEmu st (mRecurrentEvents s) (mInEmulator s) (mInitVhalValueOverride s)
    (mVehiclePropertiesOverride s) (mUserHalSet s) (mEmulatedUserHal s) (mEmulator s) (outputs s).
Definition with_events (s : EmulatedVehicle) (events : gmap Z RecurrentEvent) : EmulatedVehicle :=
  mkEmu (mPropStore s) events (mInEmulator s) (mInitVhalValueOverride s)
    (mVehiclePropertiesOverride s) (mUserHalSet s) (mEmulatedUserHal s) (mEmulator s) (outputs s).
Definition with_user (s : EmulatedVehicle) (u : EmulatedUserHal) : EmulatedVehicle :=
  mkEmu (mPropStore s) (mRecurrentEvents s) (mInEmulator s) (mInitVhalValueOverride s)
    (mVehiclePropertiesOverride s) (mUserHalSet s) u (mEmulator s) (outputs s).
Definition with_inEmulator (s : EmulatedVehicle) (b : bool) : EmulatedVehicle :=
  mkEmu (mPropStore s) (mRecurrentEvents s) b (mInitVhalValueOverride s)
    (mVehiclePropertiesOverride s) (mUserHalSet s) (mEmulatedUserHal s) (mEmulator s) (outputs s).
Definition emit (s : EmulatedVehicle) (l : list output) : EmulatedVehicle :=
  mkEmu (mPropStore s) (mRecurrentEvents s) (mInEmulator s) (mInitVhalValueOverride s)
    (mVehiclePropertiesOverride s) (mUserHalSet s) (mEmulatedUserHal s) (mEmulator s)
    (outputs s ++ l).
Definition registerEmulator (s : EmulatedVehicle) : EmulatedVehicle :=
  mkEmu (mPropStore s) (mRecurrentEvents s) (mInEmulator s) (mInitVhalValueOverride s)
    (mVehiclePropertiesOverride s) (mUserHalSet s) (mEmulatedUserHal s) true (outputs s).

(** [static_cast<int64_t>] of a [float]. *)
Definition float_to_i64 (x : spec_float) : option Z :=
  match x with
  | S754_zero _ => Some 0
  | S754_finite sign m e =>
      let t := if decide (0 <= e) then Z.pos m * 2 ^ e else Z.shiftr (Z.pos m) (- e) in
      i64 (if sign then - t else t)
  | _ => None
  end.

Definition hertzToNanoseconds (hz : spec_float) : option Z :=
  float_to_i64 (Binary32.div (f32 1000000000) hz).

(** [prop.value] for a copy with other scalars. *)
Definition stamp (v : VehiclePropValue) (t : Z) : VehiclePropValue :=
  mkValue t (areaId v) (prop v) (status v) (value v).

Section Vehicle.
Context `{VehicleAbi, Enumerators, Obd2Abi}.
(** [std::hash<std::string>]. *)
Context (string_hash : string -> Z).

(** [VehiclePropValuePool::obtain(const VehiclePropValue&)]: [Some None] is
    the null pointer; [pool_copy_obtain] below relates it to the pool. *)
Definition pool_copy (v : VehiclePropValue) : option (option VehiclePropValue) :=
  if bool_decide (prop v = PROP_INVALID) then Some None
  else if bool_decide (getPropType (prop v) ∈ value_types) then Some (Some v)
  else None.

(** The copy, dereferenced. *)
Definition pool_copy_deref (v : VehiclePropValue) : option VehiclePropValue := c ← pool_copy v; c.

(** ** OBD2 frames *)

(** A decimal constant [m / 10^k], rounded to [float]. *)
Definition dec (m k : Z) : spec_float := Binary32.div (f32 m) (f32 (10 ^ k)).

Definition default_int_sensors : list (string * Z) :=
  [("FUEL_SYSTEM_STATUS", enum "Obd2FuelSystemStatus::CLOSED_LOOP");
   ("MALFUNCTION_INDICATOR_LIGHT_ON", 0);
   ("IGNITION_MONITORS_SUPPORTED", enum "Obd2IgnitionMonitorKind::SPARK");
   ("IGNITION_SPECIFIC_MONITORS",
     Z.lor (Z.lor (Z.lor (enum "Obd2CommonIgnitionMonitors::COMPONENTS_AVAILABLE")
                     (enum "Obd2CommonIgnitionMonitors::MISFIRE_AVAILABLE"))
                (enum "Obd2SparkIgnitionMonitors::AC_REFRIGERANT_AVAILABLE"))
           (enum "Obd2SparkIgnitionMonitors::EVAPORATIVE_SYSTEM_AVAILABLE"));
   ("INTAKE_AIR_TEMPERATURE", 35);
   ("COMMANDED_SECONDARY_AIR_STATUS", enum "Obd2SecondaryAirStatus::FROM_OUTSIDE_OR_OFF");
   ("NUM_OXYGEN_SENSORS_PRESENT", 1);
   ("RUNTIME_SINCE_ENGINE_START", 500);
   ("DISTANCE_TRAVELED_WITH_MALFUNCTION_INDICATOR_LIGHT_ON", 0);
   ("WARMUPS_SINCE_CODES_CLEARED", 51);
   ("DISTANCE_TRAVELED_SINCE_CODES_CLEARED", 365);
   ("ABSOLUTE_BAROMETRIC_PRESSURE", 30);
   ("CONTROL_MODULE_VOLTAGE", 12);
   ("AMBIENT_AIR_TEMPERATURE", 18);
   ("MAX_FUEL_AIR_EQUIVALENCE_RATIO", 1);
   ("FUEL_TYPE", enum "Obd2FuelType::GASOLINE")].

Definition default_float_sensors : list (string * spec_float) :=
  [("CALCULATED_ENGINE_LOAD", dec 153 3);
   ("SHORT_TERM_FUEL_TRIM_BANK1", dec (-16) 2);
   ("LONG_TERM_FUEL_TRIM_BANK1", dec (-16) 2);
   ("SHORT_TERM_FUEL_TRIM_BANK2", dec (-16) 2);
   ("LONG_TERM_FUEL_TRIM_BANK2", dec (-16) 2);
   ("INTAKE_MANIFOLD_ABSOLUTE_PRESSURE", dec 75 1);
   ("ENGINE_RPM", f32 1250);
   ("VEHICLE_SPEED", f32 40);
   ("TIMING_ADVANCE", dec 25 1);
   ("THROTTLE_POSITION", dec 1975 2);
   ("OXYGEN_SENSOR1_VOLTAGE", dec 265 3);
   ("FUEL_TANK_LEVEL_INPUT", dec 824 3);
   ("EVAPORATION_SYSTEM_VAPOR_PRESSURE", dec (-373) 3);
   ("CATALYST_TEMPERATURE_BANK1_SENSOR1", f32 190);
   ("RELATIVE_THROTTLE_POSITION", f32 3);
   ("ABSOLUTE_THROTTLE_POSITION_B", dec 306 3);
   ("ACCELERATOR_PEDAL_POSITION_D", dec 188 3);
   ("ACCELERATOR_PEDAL_POSITION_E", dec 94 3);
   ("COMMANDED_THROTTLE_ACTUATOR", dec 24 3)].

(** The conversion of an [int32_t] to [size_t] of a count or an index: a
    negative one is far beyond any vector. *)
Definition as_size (z : Z) : option nat := if decide (0 <= z) then Some (Z.to_nat z) else None.

Definition set_int (acc : option Obd2SensorStore) (p : string * Z) : option Obd2SensorStore :=
  s ← acc; i ← as_size (enum ("DiagnosticIntegerSensorIndex::" +:+ p.1));
  snd <$> setIntegerSensor s i p.2.

Definition set_float (acc : option Obd2SensorStore) (p : string * spec_float)
    : option Obd2SensorStore :=
  s ← acc; i ← as_size (enum ("DiagnosticFloatSensorIndex::" +:+ p.1));
  snd <$> setFloatSensor s i p.2.

Definition fillDefaultObd2Frame (numVendorIntegerSensors numVendorFloatSensors : nat)
    : option Obd2SensorStore :=
  foldl set_float
    (foldl set_int (Some (obd2_new numVendorIntegerSensors numVendorFloatSensors))
       default_int_sensors)
    default_float_sensors.

(** The frame with the vendor sensors of the property's configuration. *)
Definition default_frame (c : VehiclePropConfig) : option Obd2SensorStore :=
  i ← (arr_get (cfg_configArray c) 0 ≫= as_size);
  f ← (arr_get (cfg_configArray c) 1 ≫= as_size);
  fillDefaultObd2Frame i f.

Definition with_prop (v : VehiclePropValue) (p : Z) : VehiclePropValue :=
  mkValue (timestamp v) (areaId v) p (status v) (value v).

(** A frame as a value allocated with [new]: area and status are [junk]'s. *)
Definition frame_value (e : Env) (sensors : Obd2SensorStore) (p : Z) (n : nat) (dtc : string)
    : VehiclePropValue :=
  with_prop (fillPropValue sensors dtc (clock e n) (new_value (junk e n))) p.

(** ** The properties *)

Definition isDiagnosticProperty (c : VehiclePropConfig) : bool :=
  bool_decide (cfg_prop c ∈ [OBD2_LIVE_FRAME; OBD2_FREEZE_FRAME; OBD2_FREEZE_FRAME_CLEAR;
                             OBD2_FREEZE_FRAME_INFO]).

Definition token_of (p : Z) : option (VehiclePropValue -> Z) :=
  if p =? OBD2_FREEZE_FRAME then Some timestamp else None.

Definition initStaticConfig (st : VehiclePropertyStore) : VehiclePropertyStore :=
  foldl (fun st d => registerProperty st (dc_config d) (token_of (cfg_prop (dc_config d))))
    st kVehicleProperties.

(** The events of the JSON files of the override directory, file by file. *)
Definition getAllPropertiesOverride (files : list (list VehiclePropValue)) : list VehiclePropValue :=
  concat files.

(** The constructor.  [override]: the system property is set, with these
    files. *)
Definition construct (userHal : bool) (u : EmulatedUserHal)
    (override : option (list (list VehiclePropValue))) : EmulatedVehicle :=
  let st := foldl (fun st d => registerProperty st (dc_config d) None)
              (initStaticConfig empty_store) kVehicleProperties in
  mkEmu st ∅ false (match override with Some _ => true | None => false end)
    (match override with Some files => getAllPropertiesOverride files | None => [] end)
    userHal u false [].

(** The areas the loop of [onCreate] visits. *)
Definition init_areas (c : VehiclePropConfig) : list Z :=
  if isGlobalProp (cfg_prop c) then [0] else ac_areaId <$> cfg_areaConfigs c.

Definition find_area (l : list (Z * RawValue)) (a : Z) : option RawValue :=
  (fun x => x.2.2) <$> list_find (fun kv => kv.1 = a) l.

Definition initial_raw (s : EmulatedVehicle) (d : ConfigDeclaration) (curArea : Z) : RawValue :=
  if (0 <? length (initialAreaValues d))%nat then default empty_raw (find_area (initialAreaValues d) curArea)
  else
    let override := if mInitVhalValueOverride s then mVehiclePropertiesOverride s else [] in
    foldl (fun r o => if prop o =? cfg_prop (dc_config d) then value o else r) (initialValue d) override.

(** The values [onCreate] writes for one declaration. *)
Definition initial_values (s : EmulatedVehicle) (d : ConfigDeclaration) : list VehiclePropValue :=
  let cfg := dc_config d in
  if isDiagnosticProperty cfg then []
  else (fun a => mkValue 0 a (cfg_prop cfg) 0 (initial_raw s d a)) <$> init_areas cfg.

Definition write_all (st : VehiclePropertyStore) (l : list VehiclePropValue) : VehiclePropertyStore :=
  foldl (fun st v => (writeValue st v true).2) st l.

Definition initObd2LiveFrame (e : Env) (st : VehiclePropertyStore) (c : VehiclePropConfig)
    : option VehiclePropertyStore :=
  sensors ← default_frame c;
  Some (writeValue st (frame_value e sensors OBD2_LIVE_FRAME 0 EmptyString) true).2.

(** The two adjacent literals of [sampleDtcs] are one string. *)
Definition sampleDtcs : list string := ["P0070"; "P0102P0123"].

Definition initObd2FreezeFrame (e : Env) (st : VehiclePropertyStore) (c : VehiclePropConfig)
    : option VehiclePropertyStore :=
  sensors ← default_frame c;
  Some (write_all st (imap (fun i => frame_value e sensors OBD2_FREEZE_FRAME (S i)) sampleDtcs)).

(** [isInEmulator] reads system properties: its result is an argument. *)
Definition onCreate (e : Env) (isInEmulator : bool) (s : EmulatedVehicle) : option EmulatedVehicle :=
  let st := write_all (mPropStore s) (kVehicleProperties ≫= initial_values s) in
  live ← getConfigOrDie st OBD2_LIVE_FRAME;
  st1 ← initObd2LiveFrame e st live;
  freeze ← getConfigOrDie st1 OBD2_FREEZE_FRAME;
  st2 ← initObd2FreezeFrame e st1 freeze;
  Some (with_inEmulator (with_store s st2) isInEmulator).

Definition listProperties (s : EmulatedVehicle) : list VehiclePropConfig := getAllConfigs (mPropStore s).
Definition getAllProperties (s : EmulatedVehicle) : list VehiclePropValue := readAllValues (mPropStore s).

(** ** The server (VehicleHalServer) *)

(** [onPropertyValueFromCar]: through the connector to the HAL's
    [onPropertyValue]. *)
Definition onPropertyValue (s : EmulatedVehicle) (v : VehiclePropValue) (updateStatus : bool)
    : option EmulatedVehicle :=
  u ← pool_copy_deref v;
  let '(written, st) := writeValue (mPropStore s) u updateStatus in
  if written then
    if mEmulator s then Some (emit (with_store s st) [ToEmulator u; HalEvent u]) else None
  else Some (with_store s st).

Definition onFakeValueGenerated (s : EmulatedVehicle) (v : VehiclePropValue)
    : option EmulatedVehicle :=
  u ← pool_copy v;
  match u with
  | Some w => onPropertyValue s (mkValue (timestamp v) (areaId w) (prop w) S_AVAILABLE (value w)) true
  | None => Some s
  end.

Definition onGetAllPropertyConfig : list VehiclePropConfig := dc_config <$> kVehicleProperties.

(** A value of the pool for [INT32_VEC] with every member assigned. *)
Definition createApPowerStateReq (now state param : Z) : VehiclePropValue :=
  mkValue now 0 (VP "AP_POWER_STATE_REQ") S_AVAILABLE (ints [state; param]).

Definition createHwInputKeyProp (now action keyCode targetDisplay : Z) : VehiclePropValue :=
  mkValue now 0 (VP "HW_KEY_INPUT") S_AVAILABLE (ints [action; keyCode; targetDisplay]).

Definition json_cookie (s : string) : Z := wrap_s 32 (string_hash s).

Definition handleGenerateFakeDataRequest (e : Env) (s : EmulatedVehicle) (request : VehiclePropValue)
    : option (StatusCode * EmulatedVehicle) :=
  let v := value request in
  match int32Values v with
  | [] => Some (INVALID_ARG, s)
  | command :: rest =>
      if command =? StartLinear then
        match rest with
        | [] => Some (INVALID_ARG, s)
        | cookie :: _ =>
            if (length (int64Values v) =? 0)%nat then Some (INVALID_ARG, s)
            else if (length (floatValues v) <? 3)%nat then Some (INVALID_ARG, s)
            else Some (OK, emit s [RegisterLinear cookie request])
        end
      else if command =? StartJson then
        if String.eqb (stringValue v) EmptyString then Some (INVALID_ARG, s)
        else Some (OK, emit s [RegisterJson (json_cookie (stringValue v)) request])
      else if command =? StopLinear then
        match rest with
        | [] => Some (INVALID_ARG, s)
        | cookie :: _ => Some (OK, emit s [UnregisterGenerator cookie])
        end
      else if command =? StopJson then
        if String.eqb (stringValue v) EmptyString then Some (INVALID_ARG, s)
        else Some (OK, emit s [UnregisterGenerator (json_cookie (stringValue v))])
      else if command =? KeyPress then
        keyCode ← arr_get (int32Values v) 2;
        display ← arr_get (int32Values v) 3;
        s1 ← onPropertyValue s (createHwInputKeyProp (clock e 0)
               (enum "VehicleHwKeyInputAction::ACTION_DOWN") keyCode display) true;
        s2 ← onPropertyValue s1 (createHwInputKeyProp (clock e 1)
               (enum "VehicleHwKeyInputAction::ACTION_UP") keyCode display) true;
        Some (OK, s2)
      else Some (INVALID_ARG, s)
  end.

(** The three properties of the end-to-end tests: a value allocated with
    [new], so its status is [junk]'s. *)
Definition set_for_test (e : Env) (s : EmulatedVehicle) (v : VehiclePropValue) (updateStatus : bool)
    (propIndex : Z) (raw : option RawValue) : option (StatusCode * EmulatedVehicle) :=
  p ← arr_get (int32Values (value v)) propIndex;
  r ← raw;
  t ← arr_get (int64Values (value v)) 0;
  s' ← onPropertyValue s (mkValue t (areaId v) p (status (junk e 0)) r) updateStatus;
  Some (OK, s').

Definition apReport (n : string) : Z := enum ("VehicleApPowerStateReport::" +:+ n).

(** The answer of the car to the report of a power state. *)
Definition ap_answer (report : Z) : option Z :=
  if bool_decide (report ∈ [apReport "DEEP_SLEEP_EXIT"; apReport "SHUTDOWN_CANCELLED";
                            apReport "WAIT_FOR_VHAL"])
  then Some (enum "VehicleApPowerStateReq::ON")
  else if bool_decide (report ∈ [apReport "DEEP_SLEEP_ENTRY"; apReport "SHUTDOWN_START"])
  then Some (enum "VehicleApPowerStateReq::FINISHED")
  else None.

(** The end of [onSetProperty]: the value comes back as if from the car. *)
Definition echo (now : Z) (s : EmulatedVehicle) (v : VehiclePropValue) (updateStatus : bool)
    : option (StatusCode * EmulatedVehicle) :=
  u ← pool_copy_deref v;
  s' ← onPropertyValue s (stamp u now) updateStatus;
  Some (OK, s').

Definition server_onSetProperty (e : Env) (s : EmulatedVehicle) (v : VehiclePropValue)
    (updateStatus : bool) : option (StatusCode * EmulatedVehicle) :=
  if isSupported (prop v) then
    '(r, u) ← UserHal.onSetProperty (junk e 0) (clock e 0) (mEmulatedUserHal s) v;
    let s1 := with_user s u in
    match r with
    | Failed code => Some (code, s1)
    | Replied None => Some (OK, s1)
    | Replied (Some updatedValue) =>
        s2 ← onPropertyValue s1 updatedValue updateStatus; Some (OK, s2)
    end
  else if prop v =? kGenerateFakeDataControllingProperty then handleGenerateFakeDataRequest e s v
  else if prop v =? kSetIntPropertyFromVehicleForTest then
    set_for_test e s v updateStatus 0
      (x ← arr_get (int32Values (value v)) 1; Some (ints [x]))
  else if prop v =? kSetFloatPropertyFromVehicleForTest then
    set_for_test e s v updateStatus 0
      (x ← arr_get (floatValues (value v)) 0; Some (floats [x]))
  else if prop v =? kSetBooleanPropertyFromVehicleForTest then
    set_for_test e s v updateStatus 1
      (x ← arr_get (int32Values (value v)) 0; Some (ints [x]))
  else if prop v =? AP_POWER_STATE_REPORT then
    report ← arr_get (int32Values (value v)) 0;
    match ap_answer report with
    | Some state =>
        s1 ← onPropertyValue s (createApPowerStateReq (clock e 0) state 0) true;
        echo (clock e 1) s1 v updateStatus
    | None => echo (clock e 0) s v updateStatus
    end
  else echo (clock e 0) s v updateStatus.

(** ** The HAL (EmulatedVehicleHal) *)

Definition fillObd2FreezeFrame (s : EmulatedVehicle) (request outValue : VehiclePropValue)
    : StatusCode * VehiclePropValue :=
  match int64Values (value request) with
  | [ts] =>
      match readValueOrNull_id (mPropStore s) OBD2_FREEZE_FRAME 0 ts with
      | None => (INVALID_ARG, outValue)
      | Some frame =>
          (OK, mkValue (timestamp frame) (areaId outValue) OBD2_FREEZE_FRAME (status outValue)
                 (mkRaw (int32Values (value frame)) (floatValues (value frame))
                    (int64Values (value outValue)) (bytes (value frame)) (stringValue (value frame))))
      end
  | _ => (INVALID_ARG, outValue)
  end.

Definition fillObd2DtcInfo (s : EmulatedVehicle) (outValue : VehiclePropValue)
    : option (StatusCode * VehiclePropValue) :=
  frames ← readValuesForProperty (mPropStore s) OBD2_FREEZE_FRAME;
  let r := value outValue in
  Some (OK, mkValue (timestamp outValue) (areaId outValue) OBD2_FREEZE_FRAME_INFO (status outValue)
              (mkRaw (int32Values r) (floatValues r) (timestamp <$> frames) (bytes r) (stringValue r))).

(** The [switch] of [get]: the pointer, null when there is no value, and the
    status. *)
Definition get_value (e : Env) (s : EmulatedVehicle) (request : VehiclePropValue)
    : option (option VehiclePropValue * StatusCode) :=
  if prop request =? OBD2_FREEZE_FRAME then
    let '(st, v) := fillObd2FreezeFrame s request (new_value (junk e 0)) in Some (Some v, st)
  else if prop request =? OBD2_FREEZE_FRAME_INFO then
    '(st, v) ← fillObd2DtcInfo s (new_value (junk e 0)); Some (Some v, st)
  else if mUserHalSet s && isSupported (prop request) then
    r ← onGetProperty (mEmulatedUserHal s) request;
    match r with
    | Failed code => Some (None, code)
    | Replied None => Some (None, INTERNAL_ERROR)
    | Replied (Some v) => u ← pool_copy v; Some (u, OK)
    end
  else
    match readValueOrNull (mPropStore s) request with
    | None => Some (None, INVALID_ARG)
    | Some w =>
        u ← pool_copy w;
        Some (u, match u with Some _ => OK | None => INVALID_ARG end)
    end.

Definition emu_get (e : Env) (s : EmulatedVehicle) (request : VehiclePropValue)
    : option (option VehiclePropValue * StatusCode) :=
  match get_value e s request with
  | Some (v, st) => Some (option_map (fun w => stamp w (clock e 0)) v, st)
  | None => None
  end.

(** The loop over the timestamps. *)
Fixpoint clear_frames (st : VehiclePropertyStore) (timestamps : list Z)
    : StatusCode * VehiclePropertyStore :=
  match timestamps with
  | [] => (OK, st)
  | t :: ts =>
      match readValueOrNull_id st OBD2_FREEZE_FRAME 0 t with
      | None => (INVALID_ARG, st)
      | Some frame => clear_frames (removeValue st frame) ts
      end
  end.

Definition clearObd2FreezeFrames (s : EmulatedVehicle) (v : VehiclePropValue)
    : option (StatusCode * EmulatedVehicle) :=
  match int64Values (value v) with
  | [] => st ← removeValuesForProperty (mPropStore s) OBD2_FREEZE_FRAME; Some (OK, with_store s st)
  | ts => let '(c, st) := clear_frames (mPropStore s) ts in Some (c, with_store s st)
  end.

Definition hvac_area : Z :=
  Z.lor (Z.lor (Z.lor (Z.lor (enum "VehicleAreaSeat::ROW_1_LEFT") (enum "VehicleAreaSeat::ROW_1_RIGHT"))
                  (enum "VehicleAreaSeat::ROW_2_LEFT")) (enum "VehicleAreaSeat::ROW_2_CENTER"))
        (enum "VehicleAreaSeat::ROW_2_RIGHT").

(** The HVAC is switched off. *)
Definition hvac_off (s : EmulatedVehicle) : bool :=
  match readValueOrNull_id (mPropStore s) (VP "HVAC_POWER_ON") hvac_area 0 with
  | Some v => bool_decide (int32Values (value v) = [0])
  | None => false
  end.

(** The checks that every ordinary property passes before the car sees it. *)
Definition set_checked (e : Env) (s : EmulatedVehicle) (v : VehiclePropValue)
    : option (StatusCode * EmulatedVehicle) :=
  if negb (bool_decide (status v = S_AVAILABLE)) then Some (INVALID_ARG, s)
  else
    match readValueOrNull (mPropStore s) v with
    | None => Some (INVALID_ARG, s)
    | Some current =>
        if negb (bool_decide (status current = S_AVAILABLE)) then Some (NOT_AVAILABLE, s)
        else if mInEmulator s && bool_decide (prop v = VP "DISPLAY_BRIGHTNESS") then Some (OK, s)
        else server_onSetProperty e s v false
    end.

Definition emu_set (e : Env) (s : EmulatedVehicle) (v : VehiclePropValue)
    : option (StatusCode * EmulatedVehicle) :=
  if prop v =? kGenerateFakeDataControllingProperty then server_onSetProperty e s v false
  else if bool_decide (prop v ∈ kHvacPowerProperties) then
    if hvac_off s then Some (NOT_AVAILABLE, s) else set_checked e s v
  else if prop v =? OBD2_FREEZE_FRAME_CLEAR then clearObd2FreezeFrames s v
  else if prop v =? VEHICLE_MAP_SERVICE then Some (OK, s)
  else set_checked e s v.

Definition setPropertyFromVehicle (e : Env) (s : EmulatedVehicle) (v : VehiclePropValue)
    : option (bool * EmulatedVehicle) :=
  '(st, s') ← server_onSetProperty e s v true;
  Some (bool_decide (st = OK), s').

Definition isContinuousProperty (s : EmulatedVehicle) (p : Z) : bool :=
  match getConfigOrNull (mPropStore s) p with
  | None => false
  | Some c => bool_decide (cfg_changeMode c = C_CONTINUOUS)
  end.

Definition emu_subscribe (now : Z) (s : EmulatedVehicle) (p : Z) (sampleRate : spec_float)
    : option (StatusCode * EmulatedVehicle) :=
  if isContinuousProperty s p then
    interval ← hertzToNanoseconds sampleRate;
    events ← registerRecurrentEvent (mRecurrentEvents s) now interval p;
    Some (OK, with_events s events)
  else Some (OK, s).

Definition emu_unsubscribe (s : EmulatedVehicle) (p : Z) : StatusCode * EmulatedVehicle :=
  (OK, if isContinuousProperty s p
       then with_events s (unregisterRecurrentEvent (mRecurrentEvents s) p) else s).

(** One property of the timer's list: area and token are the defaults, 0.
    The pointer is null again after each event. *)
Definition timer_event (now : Z) (s : EmulatedVehicle) (p : Z) : option EmulatedVehicle :=
  if isContinuousProperty s p then
    match readValueOrNull_id (mPropStore s) p 0 0 with
    | Some w => u ← pool_copy w;
        Some (match u with Some v => emit s [HalEvent (stamp v now)] | None => s end)
    | None => Some s
    end
  else Some s.

Definition onContinuousPropertyTimer (e : Env) (s : EmulatedVehicle) (properties : list Z)
    : option EmulatedVehicle :=
  foldl (fun acc '(i, p) => s ← acc; timer_event (clock e i) s p) (Some s) (imap pair properties).

(** ** Steps *)

(** What a client, the emulator, a generator, the timer thread and the
    service's start do to the vehicle. *)
Inductive emu_step : EmulatedVehicle -> EmulatedVehicle -> Prop :=
  | ESet e s v c s' : emu_set e s v = Some (c, s') -> emu_step s s'
  | ESetFromVehicle e s v b s' : setPropertyFromVehicle e s v = Some (b, s') -> emu_step s s'
  | EFakeValue s v s' : onFakeValueGenerated s v = Some s' -> emu_step s s'
  | ESubscribe now s p rate c s' : emu_subscribe now s p rate = Some (c, s') -> emu_step s s'
  | EUnsubscribe s p : emu_step s (emu_unsubscribe s p).2
  | ETimer e now s cookies next events s' :
      scan_events now (mRecurrentEvents s) = Some (cookies, next, events) ->
      onContinuousPropertyTimer e (with_events s events) cookies = Some s' -> emu_step s s'
  | ERegister s : emu_step s (registerEmulator s).

(** The states of a vehicle that was constructed and created. *)
Definition emu_reachable (s : EmulatedVehicle) : Prop :=
  exists e emu userHal override s0,
    onCreate e emu (construct userHal user_new override) = Some s0 /\ rtc emu_step s0 s.

(** ** Lemmas: the pool *)

(** The simplified copy is that of any reachable pool of VehicleObjectPool,
    where it does not fail. *)
Lemma pool_copy_obtain `{!VehicleAbiLaws} pool mem v r :
  reachable_pool pool -> pool_copy v = Some r ->
  exists d pool', obtain_copy mem pool v = Some (mkRecyclable r d, pool').
Proof.
  intros Hr Hc. destruct (obtain_copy_spec mem pool v Hr) as (Hnull & Hcopy & _).
  unfold pool_copy in Hc. case_bool_decide; [simplify_eq; eauto|].
  case_bool_decide; [|done]. simplify_eq. by apply Hcopy.
Qed.

Definition copyable (p : Z) : Prop := p <> PROP_INVALID /\ getPropType p ∈ value_types.

Lemma pool_copy_ok v : copyable (prop v) -> pool_copy v = Some (Some v).
Proof.
  intros [Hi Ht]. unfold pool_copy. by rewrite bool_decide_eq_false_2, bool_decide_eq_true_2.
Qed.

Lemma pool_copy_deref_ok v : copyable (prop v) -> pool_copy_deref v = Some v.
Proof. intros Hc. unfold pool_copy_deref. by rewrite pool_copy_ok. Qed.

Lemma pool_copy_inv v u : pool_copy v = Some (Some u) -> u = v.
Proof. unfold pool_copy. repeat case_bool_decide; congruence. Qed.

Lemma pool_copy_deref_inv v u : pool_copy_deref v = Some u -> u = v.
Proof.
  unfold pool_copy_deref. destruct (pool_copy v) as [[]|] eqn:Hc; simpl; try done.
  intros [= ->]. by eapply pool_copy_inv.
Qed.

(** ** Lemmas: registration *)

Definition find_decl (p : Z) : option ConfigDeclaration :=
  snd <$> list_find (fun d => cfg_prop (dc_config d) = p) kVehicleProperties.

Lemma register_all_configs (f : Z -> option (VehiclePropValue -> Z)) l st p :
  mConfigs (foldl (fun st d => registerProperty st (dc_config d) (f (cfg_prop (dc_config d)))) st l)
    !! p =
  match mConfigs st !! p with
  | Some c => Some c
  | None => (fun x => mkRecordConfig (dc_config x.2) (f p)) <$>
              list_find (fun d => cfg_prop (dc_config d) = p) l
  end.
Proof.
  revert st. induction l as [|d l IH]; intros st; cbn [foldl list_find];
    [by destruct (mConfigs st !! p)|].
  rewrite IH. unfold registerProperty at 1.
  destruct (mConfigs st !! cfg_prop (dc_config d)) as [c0|] eqn:Hc.
  - destruct (mConfigs st !! p) eqn:Hp; [done|].
    destruct (decide (cfg_prop (dc_config d) = p)) as [Heq|]; [congruence|].
    by destruct (list_find _ l) as [[]|].
  - simpl. rewrite lookup_insert. case_decide as Heq.
    + subst. rewrite Hc. by destruct (decide (cfg_prop (dc_config d) = cfg_prop (dc_config d))).
    + destruct (mConfigs st !! p) eqn:Hp; [done|].
      destruct (decide (cfg_prop (dc_config d) = p)); [done|]. by destruct (list_find _ l) as [[]|].
Qed.

Lemma register_all_values (f : Z -> option (VehiclePropValue -> Z)) l st :
  mPropertyValues
    (foldl (fun st d => registerProperty st (dc_config d) (f (cfg_prop (dc_config d)))) st l) =
  mPropertyValues st.
Proof.
  revert st. induction l as [|d l IH]; intros st; simpl; [done|]. rewrite IH.
  unfold registerProperty. by case_match.
Qed.

Lemma construct_configs b u o p :
  mConfigs (mPropStore (construct b u o)) !! p =
  (fun d => mkRecordConfig (dc_config d) (token_of p)) <$> find_decl p.
Proof.
  unfold construct, find_decl. cbn [mPropStore].
  rewrite (register_all_configs (fun _ => None)). unfold initStaticConfig.
  rewrite (register_all_configs token_of). cbn [mConfigs empty_store]. rewrite lookup_empty.
  by destruct (list_find _ kVehicleProperties) as [[]|].
Qed.

Lemma construct_values b u o : mPropertyValues (mPropStore (construct b u o)) = ∅.
Proof.
  unfold construct, initStaticConfig. cbn [mPropStore].
  by rewrite (register_all_values (fun _ => None)), (register_all_values token_of).
Qed.

Lemma find_decl_Some d :
  d ∈ kVehicleProperties -> is_Some (find_decl (cfg_prop (dc_config d))).
Proof.
  intros Hd. unfold find_decl. rewrite fmap_is_Some.
  eapply list_find_elem_of; [exact Hd|done].
Qed.

(** ** Lemmas: writing the initial values *)

Lemma write_all_configs st l : mConfigs (write_all st l) = mConfigs st.
Proof.
  unfold write_all. revert st. induction l as [|v l IH]; intros st; simpl; [done|].
  by rewrite IH, writeValue_configs.
Qed.

Lemma write_all_app st l1 l2 : write_all st (l1 ++ l2) = write_all (write_all st l1) l2.
Proof. unfold write_all. apply foldl_app. Qed.

Lemma getRecordIdLocked_configs st st' v :
  mConfigs st' = mConfigs st -> getRecordIdLocked st' v = getRecordIdLocked st v.
Proof. intros Hc. unfold getRecordIdLocked. by rewrite Hc. Qed.

(** A value whose record is that of its own property and area. *)
Definition plain_value (st : VehiclePropertyStore) (v : VehiclePropValue) : Prop :=
  is_Some (mConfigs st !! prop v) /\
  getRecordIdLocked st v = mkRid (prop v) (areaId v) 0 /\ timestamp v = 0.

Lemma last_filter_elem {A} (P : A -> Prop) `{forall x, Decision (P x)} (l : list A) x :
  last (filter P l) = Some x -> P x /\ x ∈ l.
Proof. intros Hx%last_Some_elem_of. by apply list_elem_of_filter in Hx. Qed.

(** Written over a record of the same identifier, a plain value is stored as
    it is. *)
Lemma write_plain st v :
  plain_value st v ->
  (forall old, mPropertyValues st !! mkRid (prop v) (areaId v) 0 = Some old ->
     timestamp old <= 0 /\ prop old = prop v /\ areaId old = areaId v) ->
  mPropertyValues (writeValue st v true).2 =
  <[mkRid (prop v) (areaId v) 0 := v]> (mPropertyValues st).
Proof.
  intros ([c Hc] & Hid & Ht) Hold. unfold writeValue, getValueOrNullLocked. rewrite Hc, Hid.
  destruct (mPropertyValues st !! _) as [old|]; [|done].
  destruct (Hold _ eq_refl) as (Hle & Hp & Ha).
  rewrite (proj2 (Z.ltb_ge (timestamp v) (timestamp old))) by lia. simpl.
  rewrite Hp, Ha. by destruct v.
Qed.

Lemma write_all_lookup st l :
  mPropertyValues st = ∅ -> Forall (plain_value st) l ->
  forall r, mPropertyValues (write_all st l) !! r =
    last (filter (fun v => mkRid (prop v) (areaId v) 0 = r) l).
Proof.
  intros He Hl. induction l as [|v l IH] using rev_ind; intros r.
  { simpl. by rewrite He, lookup_empty. }
  apply Forall_app in Hl as [Hl [Hv _]%Forall_cons]. specialize (IH Hl).
  rewrite write_all_app, filter_app, last_app. unfold write_all at 1. cbn [foldl].
  assert (plain_value (write_all st l) v) as Hv'.
  { destruct Hv as (? & ? & ?). unfold plain_value. rewrite write_all_configs.
    by rewrite (getRecordIdLocked_configs _ _ _ (write_all_configs st l)). }
  rewrite write_plain; [|done|].
  - rewrite filter_cons, filter_nil, lookup_insert. by case_decide.
  - intros old. rewrite IH. intros [[= ? ?] Hin]%last_filter_elem.
    rewrite Forall_forall in Hl. destruct (Hl old Hin) as (_ & _ & Ht). lia.
Qed.

(** ** Lemmas: [onCreate] *)

Lemma diagnostic_not_freeze c : isDiagnosticProperty c = false -> cfg_prop c <> OBD2_FREEZE_FRAME.
Proof.
  intros Hd%bool_decide_eq_false_1 Heq. apply Hd. rewrite Heq. rewrite !elem_of_cons. auto.
Qed.

Lemma initial_values_plain b u o s d v :
  d ∈ kVehicleProperties -> v ∈ initial_values s d ->
  plain_value (mPropStore (construct b u o)) v /\ prop v = cfg_prop (dc_config d).
Proof.
  intros Hd Hv. unfold initial_values in Hv.
  destruct (isDiagnosticProperty (dc_config d)) eqn:Hdiag; [by apply not_elem_of_nil in Hv|].
  apply list_elem_of_fmap in Hv as (a & -> & Ha). cbn [prop areaId timestamp].
  split; [|done]. destruct (find_decl_Some d Hd) as [d0 Hd0].
  unfold plain_value, getRecordIdLocked. cbn [prop areaId timestamp].
  rewrite construct_configs, Hd0. cbn [fmap option_fmap option_map tokenFunction].
  split_and!; [eauto| |done]. unfold token_of.
  rewrite (proj2 (Z.eqb_neq _ _)) by by apply diagnostic_not_freeze.
  f_equal. unfold init_areas in Ha. destruct (isGlobalProp _); [|done].
  by apply list_elem_of_singleton in Ha as ->.
Qed.

Definition declares (p a : Z) (d : ConfigDeclaration) : Prop :=
  cfg_prop (dc_config d) = p /\ a ∈ init_areas (dc_config d).

#[local] Instance declares_dec p a d : Decision (declares p a d).
Proof. unfold declares. apply _. Defined.

(** The value the declarations give a property in an area: that of the last
    one that declares the area. *)
Definition declared_value (s : EmulatedVehicle) (l : list ConfigDeclaration) (p a : Z)
    : option VehiclePropValue :=
  (fun d => mkValue 0 a p 0 (initial_raw s d a)) <$> last (filter (declares p a) l).

Lemma filter_same_area s d p a l :
  last (filter (fun v => mkRid (prop v) (areaId v) 0 = mkRid p a 0)
          ((fun a => mkValue 0 a p 0 (initial_raw s d a)) <$> l)) =
  if decide (a ∈ l) then Some (mkValue 0 a p 0 (initial_raw s d a)) else None.
Proof.
  induction l as [|x l IH] using rev_ind; [done|].
  rewrite fmap_app, filter_app, last_app. cbn [fmap list_fmap].
  rewrite filter_cons, filter_nil. cbn [prop areaId].
  destruct (decide (mkRid p x 0 = mkRid p a 0)) as [[= ->]|Hx].
  - rewrite (decide_True (P := a ∈ _)) by (rewrite elem_of_app, list_elem_of_singleton; auto). done.
  - cbn [last]. rewrite IH. apply decide_ext. rewrite elem_of_app, list_elem_of_singleton.
    intuition congruence.
Qed.

Lemma initial_values_last s p a l :
  bool_decide (p ∈ [OBD2_LIVE_FRAME; OBD2_FREEZE_FRAME; OBD2_FREEZE_FRAME_CLEAR;
                    OBD2_FREEZE_FRAME_INFO]) = false ->
  last (filter (fun v => mkRid (prop v) (areaId v) 0 = mkRid p a 0) (l ≫= initial_values s)) =
  declared_value s l p a.
Proof.
  intros Hp. unfold declared_value. induction l as [|d l IH] using rev_ind; [done|].
  rewrite bind_app, !filter_app, !last_app, filter_cons, filter_nil, IH. cbn [mbind list_bind].
  rewrite app_nil_r.
  unfold initial_values, isDiagnosticProperty.
  destruct (decide (cfg_prop (dc_config d) = p)) as [Heq|Hne].
  - subst p. rewrite Hp, filter_same_area.
    destruct (decide (declares _ a d)) as [[_ Ha]|Hn].
    + by rewrite decide_True.
    + rewrite decide_False; [done|]. intros ?. by apply Hn.
  - rewrite (decide_False (P := declares p a d)) by by intros [].
    rewrite filter_none; [done|]. intros x Hx [= Hxp _].
    destruct (bool_decide (cfg_prop _ ∈ _)); [by apply not_elem_of_nil in Hx|].
    apply list_elem_of_fmap in Hx as (? & -> & _). done.
Qed.

(** The first declaration of a property, by its place in the table. *)
Lemma find_decl_at `{!DefaultConfigLaws} i d k :
  kVehicleProperties !! i = Some d -> decl_keys !! i = Some k -> k ∉ take i decl_keys ->
  find_decl (key_value k) = Some d.
Proof.
  intros Hd Hk Hbefore. unfold find_decl.
  assert (decl_keys ⊆ keys) as Hsub by (apply (bool_decide_unpack _); vm_compute; exact I).
  assert (forall j e, kVehicleProperties !! j = Some e ->
            exists ke, decl_keys !! j = Some ke /\ cfg_prop (dc_config e) = key_value ke) as Hkey.
  { intros j e He. pose proof (f_equal (.!! j) decl_keys_spec) as Hj. cbn beta in Hj.
    rewrite !list_lookup_fmap, He in Hj.
    destruct (decl_keys !! j) as [ke|]; [|done]. exists ke. by injection Hj. }
  rewrite (proj2 (list_find_Some _ _ i d)); [done|].
  split_and!; [done| |].
  - destruct (Hkey i d Hd) as (ke & Hke & ->). congruence.
  - intros j e He Hlt Heq. destruct (Hkey j e He) as (ke & Hke & Hp).
    assert (ke = k) as ->.
    { apply key_value_inj; [by apply Hsub; eapply list_elem_of_lookup_2..|congruence]. }
    apply Hbefore. eapply list_elem_of_lookup_2. rewrite lookup_take_lt by done. exact Hke.
Qed.

(** The indices of the system's sensors are within the system's range. *)
Class SensorLaws : Prop := {
  int_sensors_system : Forall (fun p => 0 <= enum ("DiagnosticIntegerSensorIndex::" +:+ p.1)
                                        <= Z.of_nat LAST_SYSTEM_INT) default_int_sensors;
  float_sensors_system : Forall (fun p => 0 <= enum ("DiagnosticFloatSensorIndex::" +:+ p.1)
                                          <= Z.of_nat LAST_SYSTEM_FLOAT) default_float_sensors
}.

Definition sensors_fit (s : Obd2SensorStore) : Prop :=
  obd2_ok s /\ (LAST_SYSTEM_INT < length (mIntegerSensors s))%nat /\
  (LAST_SYSTEM_FLOAT < length (mFloatSensors s))%nat.

Lemma as_size_nonneg z : 0 <= z -> as_size z = Some (Z.to_nat z).
Proof. intros. unfold as_size. by rewrite decide_True. Qed.

Lemma obd2_step_fits s op :
  sensors_fit s -> op_in_range s op -> exists s', obd2_step s op = Some s' /\ sensors_fit s'.
Proof.
  intros (Hok & Hi & Hf) Hin.
  destruct (obd2_step_spec s op Hok Hin) as (s' & Hs & Hok' & Hli & Hlf & _).
  exists s'. split; [done|]. unfold sensors_fit. by rewrite Hli, Hlf.
Qed.

Lemma fillDefaultObd2Frame_ok `{!SensorLaws} a b :
  exists s, fillDefaultObd2Frame a b = Some s /\ sensors_fit s.
Proof.
  assert (sensors_fit (obd2_new a b)) as Hfit.
  { split; [apply obd2_new_ok|]. unfold obd2_new. cbn [mIntegerSensors mFloatSensors].
    rewrite !length_replicate. lia. }
  unfold fillDefaultObd2Frame. revert Hfit. generalize (obd2_new a b) as s.
  pose proof int_sensors_system as Hints. induction Hints as [|[n x] l Hr Hl IH]; intros s Hfit.
  - cbn [foldl]. revert s Hfit.
    pose proof float_sensors_system as Hfl. induction Hfl as [|[n x] l Hr Hl IH]; intros s Hfit.
    + eauto.
    + cbn [foldl]. unfold set_float at 2. cbn [mbind option_bind fst snd] in *.
      rewrite as_size_nonneg by lia. cbn [mbind option_bind].
      destruct (obd2_step_fits s (SetFloat (Z.to_nat (enum ("DiagnosticFloatSensorIndex::" +:+ n))) x))
        as (s' & Hs & Hfit'); [done|destruct Hfit as (_ & _ & ?); cbn; lia|].
      cbn [obd2_step] in Hs. rewrite Hs. by apply IH.
  - cbn [foldl]. unfold set_int at 2. cbn [mbind option_bind fst snd] in *.
    rewrite as_size_nonneg by lia. cbn [mbind option_bind].
    destruct (obd2_step_fits s (SetInt (Z.to_nat (enum ("DiagnosticIntegerSensorIndex::" +:+ n))) x))
      as (s' & Hs & Hfit'); [done|destruct Hfit as (_ & ? & _); cbn; lia|].
    cbn [obd2_step] in Hs. rewrite Hs. by apply IH.
Qed.

Lemma default_frame_ok `{!SensorLaws} c :
  cfg_configArray c = [0; 0] -> exists s, default_frame c = Some s.
Proof.
  intros Hc. unfold default_frame. rewrite Hc. destruct (fillDefaultObd2Frame_ok 0 0) as (s & Hs & _).
  exists s. exact Hs.
Qed.

Lemma writeValue_other st v b r :
  rid_prop r <> prop v ->
  getValueOrNullLocked (writeValue st v b).2 r = getValueOrNullLocked st r.
Proof.
  intros Hr. unfold writeValue. destruct (mConfigs st !! prop v) eqn:Hc; [|done].
  assert (r <> getRecordIdLocked st v) as Hne.
  { intros ->. apply Hr. by apply getRecordIdLocked_registered; eauto. }
  destruct (getValueOrNullLocked st (getRecordIdLocked st v)); [destruct (_ <? _); [done|]|];
    unfold getValueOrNullLocked; cbn [snd mPropertyValues]; by rewrite lookup_insert_ne.
Qed.

Lemma write_all_other st l r :
  Forall (fun v => prop v <> rid_prop r) l ->
  getValueOrNullLocked (write_all st l) r = getValueOrNullLocked st r.
Proof.
  unfold write_all. revert st. induction l as [|v l IH]; intros st Hl; [done|].
  apply Forall_cons in Hl as [Hv Hl]. cbn [foldl]. rewrite IH by done. by apply writeValue_other.
Qed.

Lemma frames_prop e sensors p l :
  Forall (fun v => prop v = p) (imap (fun i => frame_value e sensors p (S i)) l).
Proof.
  apply Forall_forall. intros v (i & Hi)%list_elem_of_lookup_1.
  rewrite list_lookup_imap in Hi. destruct (l !! i); [|done]. cbn in Hi. by simplify_eq.
Qed.

Lemma in_table i d : kVehicleProperties !! i = Some d -> d ∈ kVehicleProperties.
Proof. apply list_elem_of_lookup_2. Qed.

Lemma obd2_declared `{!DefaultConfigLaws} :
  (exists d, find_decl OBD2_LIVE_FRAME = Some d /\ cfg_configArray (dc_config d) = [0; 0]) /\
  (exists d, find_decl OBD2_FREEZE_FRAME = Some d /\ cfg_configArray (dc_config d) = [0; 0]).
Proof.
  split; eexists; (split; [|]).
  1: apply (find_decl_at 72 _ (inl "OBD2_LIVE_FRAME")); [reflexivity..|].
  3: apply (find_decl_at 73 _ (inl "OBD2_FREEZE_FRAME")); [reflexivity..|].
  1, 3: apply (bool_decide_unpack _); vm_compute; exact I.
  all: reflexivity.
Qed.

(** ** Lemmas: the invariant *)

Definition output_ok (s : EmulatedVehicle) (o : output) : Prop :=
  match o with
  | HalEvent v | ToEmulator v => is_Some (mConfigs (mPropStore s) !! prop v)
  | _ => True
  end.

(** The properties registered are those of the table. *)
Definition configs_ok (st : VehiclePropertyStore) : Prop :=
  forall p, mConfigs st !! p =
    (fun d => mkRecordConfig (dc_config d) (token_of p)) <$> find_decl p.

(** Freeze frames are told apart by their timestamp, nothing else is. *)
Definition tokens_ok (st : VehiclePropertyStore) : Prop :=
  map_Forall (fun r v => rid_token r = if rid_prop r =? OBD2_FREEZE_FRAME then timestamp v else 0)
    (mPropertyValues st).

Record emu_ok (s : EmulatedVehicle) : Prop := {
  inv_store : store_ok (mPropStore s);
  inv_configs : configs_ok (mPropStore s);
  inv_tokens : tokens_ok (mPropStore s);
  inv_user : user_ok (mEmulatedUserHal s);
  inv_aligned : aligned (mRecurrentEvents s);
  inv_continuous : map_Forall (fun p _ => isContinuousProperty s p = true) (mRecurrentEvents s);
  inv_outputs : Forall (output_ok s) (outputs s)
}.

Lemma writeValue_tokens st v b :
  configs_ok st -> tokens_ok st -> tokens_ok (writeValue st v b).2.
Proof.
  intros Hc Ht. destruct (writeValue st v b) as [[] st'] eqn:Hw.
  2: { apply writeValue_false in Hw as ->. done. }
  apply writeValue_lookup in Hw as [Hreg Hv]. unfold tokens_ok. cbn [snd]. rewrite Hv.
  apply map_Forall_insert_2; [|done]. unfold getRecordIdLocked. rewrite Hc in *.
  destruct (find_decl (prop v)) as [d|]; [|by destruct Hreg]. cbn. unfold token_of.
  destruct (_ =? _); cbn; [|done]. by destruct (mPropertyValues st !! _).
Qed.

(** A change of the values only. *)
Lemma emu_ok_store s st :
  emu_ok s -> store_ok st -> tokens_ok st -> mConfigs st = mConfigs (mPropStore s) ->
  emu_ok (with_store s st).
Proof.
  intros [Hst Hc Ht Hu Ha Hk Ho] Hst' Ht' Hc'. split; cbn; [done| |done|done|done| |].
  - intros p. by rewrite Hc'.
  - unfold isContinuousProperty, getConfigOrNull in *. cbn. by rewrite Hc'.
  - eapply Forall_impl; [exact Ho|]. intros []; cbn; by rewrite ?Hc'.
Qed.

Lemma emu_ok_emit s l : emu_ok s -> Forall (output_ok s) l -> emu_ok (emit s l).
Proof. intros [Hst Hc Ht Hu Ha Hk Ho] Hl. split; cbn; try done. by apply Forall_app. Qed.

Lemma emu_ok_user s u : emu_ok s -> user_ok u -> emu_ok (with_user s u).
Proof. intros [Hst Hc Ht Hu Ha Hk Ho] Hu'. by split. Qed.

Lemma emu_ok_events s events :
  emu_ok s -> aligned events ->
  map_Forall (fun p _ => isContinuousProperty s p = true) events -> emu_ok (with_events s events).
Proof. intros [Hst Hc Ht Hu Ha Hk Ho] Ha' Hk'. by split. Qed.

Lemma onPropertyValue_ok s v b s' :
  emu_ok s -> onPropertyValue s v b = Some s' -> emu_ok s'.
Proof.
  intros Hok Hv. unfold onPropertyValue in Hv.
  destruct (pool_copy_deref v) as [u|] eqn:Hu; cbn [mbind option_bind] in Hv; [|done].
  destruct (writeValue (mPropStore s) u b) as [w st] eqn:Hw.
  pose proof (writeValue_ok _ u b (inv_store _ Hok)) as Hst.
  pose proof (writeValue_tokens _ u b (inv_configs _ Hok) (inv_tokens _ Hok)) as Ht.
  pose proof (writeValue_configs (mPropStore s) u b) as Hc.
  rewrite Hw in Hst, Hc, Ht. cbn in Hst, Hc, Ht.
  assert (emu_ok (with_store s st)) as Hok' by by apply emu_ok_store.
  destruct w; [|by simplify_eq]. destruct (mEmulator s); [|done]. simplify_eq.
  apply emu_ok_emit; [done|]. apply writeValue_lookup in Hw as [Hreg _].
  repeat constructor; cbn; by rewrite Hc.
Qed.

Lemma echo_ok now s v b c s' : emu_ok s -> echo now s v b = Some (c, s') -> emu_ok s'.
Proof.
  intros Hok Hv. unfold echo in Hv. destruct (pool_copy_deref v); cbn in Hv; [|done].
  destruct (onPropertyValue _ _ _) as [s1|] eqn:Hs1; cbn in Hv; [|done]. simplify_eq.
  by eapply onPropertyValue_ok.
Qed.

Lemma set_for_test_ok e s v b i r c s' :
  emu_ok s -> set_for_test e s v b i r = Some (c, s') -> emu_ok s'.
Proof.
  intros Hok Hv. unfold set_for_test in Hv. inv_some Hv. by eapply onPropertyValue_ok.
Qed.

Lemma handleGenerate_ok e s v c s' :
  emu_ok s -> handleGenerateFakeDataRequest e s v = Some (c, s') -> emu_ok s'.
Proof.
  intros Hok Hv. unfold handleGenerateFakeDataRequest in Hv.
  inv_some Hv; try done; try (apply emu_ok_emit; [done|by repeat constructor]).
  eapply onPropertyValue_ok; [|eassumption]. by eapply onPropertyValue_ok.
Qed.

Lemma server_ok e s v b c s' :
  emu_ok s -> server_onSetProperty e s v b = Some (c, s') -> emu_ok s'.
Proof.
  intros Hok Hv. unfold server_onSetProperty in Hv.
  destruct (isSupported (prop v)).
  { destruct (UserHal.onSetProperty _ _ _ _) as [[r u]|] eqn:Hu; cbn [mbind option_bind] in Hv; [|done].
    assert (emu_ok (with_user s u)) as Hok'.
    { apply emu_ok_user; [done|]. eapply user_step_ok; [by econstructor|by apply inv_user]. }
    destruct r as [|[w|]]; [by simplify_eq| |by simplify_eq].
    destruct (onPropertyValue _ _ _) eqn:Hs1; cbn in Hv; [|done]. simplify_eq.
    by eapply onPropertyValue_ok. }
  repeat match type of Hv with
  | (if ?b then _ else _) = _ => destruct b
  end; eauto using handleGenerate_ok, set_for_test_ok, echo_ok.
  destruct (arr_get _ _) as [report|]; cbn [mbind option_bind] in Hv; [|done].
  destruct (ap_answer report); [|by eapply echo_ok].
  destruct (onPropertyValue _ _ _) as [s1|] eqn:Hs1; cbn [mbind option_bind] in Hv; [|done].
  eapply echo_ok; [|exact Hv]. by eapply onPropertyValue_ok.
Qed.

Lemma clear_frames_ok l : forall st c st',
  store_ok st -> tokens_ok st -> clear_frames st l = (c, st') ->
  store_ok st' /\ tokens_ok st' /\ mConfigs st' = mConfigs st.
Proof.
  induction l as [|t l IH]; intros st c st' Hst Ht Hl; cbn in Hl; [by simplify_eq|].
  destruct (readValueOrNull_id st _ _ _) as [f|]; [|by simplify_eq].
  destruct (IH _ _ _ (store_step_ok _ _ _ (SRemove st f) Hst) (map_Forall_delete _ _ _ Ht) Hl)
    as (Hok & Ht' & Hc).
  split_and!; [done|done|]. by rewrite Hc.
Qed.

Lemma emu_set_ok e s v c s' : emu_ok s -> emu_set e s v = Some (c, s') -> emu_ok s'.
Proof.
  intros Hok Hv.
  assert (forall c s', set_checked e s v = Some (c, s') -> emu_ok s') as Hchk.
  { intros c0 s0. unfold set_checked. intros Hs0. inv_some Hs0; try done. by eapply server_ok. }
  unfold emu_set in Hv. destruct (_ =? _); [by eapply server_ok|].
  destruct (bool_decide _); [destruct (hvac_off s); [by simplify_eq|by eauto]|].
  destruct (_ =? OBD2_FREEZE_FRAME_CLEAR).
  - unfold clearObd2FreezeFrames in Hv. destruct (int64Values (value v)) as [|t ts].
    + destruct (removeValuesForProperty _ _) as [st|] eqn:Hr; cbn in Hv; [|done]. simplify_eq.
      apply emu_ok_store; [done|eapply store_step_ok; [by apply SRemoveAll|by apply inv_store]|..];
        unfold removeValuesForProperty in Hr; inv_some Hr; [|done].
      intros ? ? [Hw _]%map_lookup_filter_Some. by apply (inv_tokens _ Hok).
    + destruct (clear_frames _ _) as [c1 st] eqn:Hl. simplify_eq.
      apply clear_frames_ok in Hl as (Hst & Ht & Hc); [|by apply inv_store|by apply inv_tokens].
      by apply emu_ok_store.
  - destruct (_ =? VEHICLE_MAP_SERVICE); [by simplify_eq|by eauto].
Qed.

Lemma timer_event_ok now s p s' :
  emu_ok s -> timer_event now s p = Some s' -> emu_ok s'.
Proof.
  intros Hok Hv. unfold timer_event in Hv.
  destruct (isContinuousProperty s p); [|by simplify_eq].
  destruct (readValueOrNull_id _ _ _ _) as [w|] eqn:Hr; [|by simplify_eq].
  destruct (pool_copy w) as [[u|]|] eqn:Hc; cbn in Hv; simplify_eq; [|done].
  apply pool_copy_inv in Hc as ->. apply emu_ok_emit; [done|]. repeat constructor; cbn.
  destruct (inv_store _ Hok) as [Hrec _]. apply Hrec in Hr as (_ & Hreg & _). done.
Qed.

Lemma timer_ok e l : forall s s',
  emu_ok s -> onContinuousPropertyTimer e s l = Some s' -> emu_ok s'.
Proof.
  unfold onContinuousPropertyTimer. generalize (imap pair l) as il. clear l.
  induction il as [|[i p] l IH] using rev_ind; intros s s' Hok Hv; [by cbn in Hv; simplify_eq|].
  rewrite foldl_app in Hv. cbn [foldl] in Hv.
  destruct (foldl _ _ l) as [s1|] eqn:Hs1; cbn in Hv; [|done].
  eapply timer_event_ok; [|exact Hv]. by eapply IH.
Qed.

Lemma emu_subscribe_ok now s p rate c s' :
  emu_ok s -> emu_subscribe now s p rate = Some (c, s') -> emu_ok s'.
Proof.
  intros Hok Hv. unfold emu_subscribe in Hv.
  destruct (isContinuousProperty s p) eqn:Hc; [|by simplify_eq].
  destruct (hertzToNanoseconds rate) as [i|]; cbn [mbind option_bind] in Hv; [|done].
  destruct (registerRecurrentEvent _ _ _ _) as [events|] eqn:Hr; cbn in Hv; [|done]. simplify_eq.
  apply emu_ok_events; [done|by eapply register_aligned, Hr; apply inv_aligned|].
  unfold registerRecurrentEvent in Hr. inv_some Hr.
  apply map_Forall_insert_2; [done|by apply inv_continuous].
Qed.

Lemma scan_continuous s now cookies next events :
  emu_ok s -> scan_events now (mRecurrentEvents s) = Some (cookies, next, events) ->
  map_Forall (fun p _ => isContinuousProperty s p = true) events.
Proof.
  intros Hok Hs p e He. pose proof (scan_events_lookup _ _ _ _ _ Hs p) as Hp. rewrite He in Hp.
  destruct (mRecurrentEvents s !! p) as [e0|] eqn:He0; [|done].
  exact (inv_continuous _ Hok p e0 He0).
Qed.

Lemma emu_step_ok s s' : emu_step s s' -> emu_ok s -> emu_ok s'.
Proof.
  destruct 1 as [e s v c s' Hv|e s v b s' Hv|s v s' Hv|now s p rate c s' Hv|s p
                |e now s cookies next events s' Hs Hv|s]; intros Hok.
  - by eapply emu_set_ok.
  - unfold setPropertyFromVehicle in Hv.
    destruct (server_onSetProperty e s v true) as [[c s1]|] eqn:Hs1; cbn in Hv; [|done].
    simplify_eq. by eapply server_ok.
  - unfold onFakeValueGenerated in Hv. destruct (pool_copy v) as [[w|]|]; cbn in Hv; [|by simplify_eq|done].
    by eapply onPropertyValue_ok.
  - by eapply emu_subscribe_ok.
  - unfold emu_unsubscribe. cbn. destruct (isContinuousProperty s p); [|done].
    apply emu_ok_events; [done|by apply map_Forall_delete, inv_aligned|].
    by apply map_Forall_delete, inv_continuous.
  - eapply timer_ok; [|exact Hv]. apply emu_ok_events; [done| |by eapply scan_continuous].
    eapply scan_aligned; [by apply inv_aligned|done].
  - destruct Hok as [Hst Hc Ht Hu Ha Hk Ho]. by split.
Qed.

Lemma construct_ok b o : emu_ok (construct b user_new o).
Proof.
  split.
  - unfold construct, initStaticConfig. cbn [mPropStore].
    assert (forall f l st, store_ok st -> store_ok
      (foldl (fun st d => registerProperty st (dc_config d) (f (cfg_prop (dc_config d)))) st l)) as Hreg.
    { intros f l. induction l as [|d l IH]; intros st Hst; [done|]. cbn [foldl]. apply IH.
      eapply store_step_ok; [apply SRegister|done]. }
    apply (Hreg (fun _ => None)), (Hreg token_of). split; apply map_Forall_empty.
  - intros p. apply construct_configs.
  - unfold tokens_ok. rewrite construct_values. apply map_Forall_empty.
  - apply user_reachable_ok. constructor.
  - apply map_Forall_empty.
  - apply map_Forall_empty.
  - constructor.
Qed.

Lemma write_all_ok l : forall st, store_ok st -> store_ok (write_all st l).
Proof.
  unfold write_all. induction l as [|v l IH]; intros st Hst; [done|]. by apply IH, writeValue_ok.
Qed.

Lemma write_all_tokens l : forall st, configs_ok st -> tokens_ok st -> tokens_ok (write_all st l).
Proof.
  unfold write_all. induction l as [|v l IH]; intros st Hc Ht; [done|]. cbn [foldl].
  apply IH; [|by apply writeValue_tokens]. intros p. by rewrite writeValue_configs.
Qed.

Lemma onCreate_ok e emu s s' : emu_ok s -> onCreate e emu s = Some s' -> emu_ok s'.
Proof.
  intros Hok Hv. unfold onCreate, initObd2LiveFrame, initObd2FreezeFrame in Hv.
  destruct (getConfigOrDie _ OBD2_LIVE_FRAME) as [cl|]; cbn [mbind option_bind] in Hv; [|done].
  destruct (default_frame cl) as [fl|]; cbn [mbind option_bind] in Hv; [|done].
  destruct (getConfigOrDie _ OBD2_FREEZE_FRAME) as [cf|]; cbn [mbind option_bind] in Hv; [|done].
  destruct (default_frame cf) as [ff|]; cbn [mbind option_bind] in Hv; [|done]. simplify_eq.
  set (st := write_all _ (imap _ _)).
  assert (emu_ok (with_store s st)) as [Hst Hc Ht Hu Ha Hk Ho].
  { assert (forall l, configs_ok (write_all (mPropStore s) l)) as Hcw
      by (intros l p; rewrite write_all_configs; apply (inv_configs _ Hok)).
    apply emu_ok_store; [done| | |].
    - by apply write_all_ok, writeValue_ok, write_all_ok, inv_store.
    - apply write_all_tokens; [intros p; rewrite writeValue_configs; apply Hcw|].
      apply writeValue_tokens; [apply Hcw|]. apply write_all_tokens; [by apply inv_configs|].
      by apply inv_tokens.
    - unfold st. by rewrite write_all_configs, writeValue_configs, write_all_configs. }
  by split.
Qed.

Lemma emu_reachable_ok s : emu_reachable s -> emu_ok s.
Proof.
  intros (e & emu & b & o & s0 & Hc & Hr). eapply (rtc_invariant _ emu_ok); [|exact Hr|].
  - intros ? ? ?. by apply emu_step_ok.
  - eapply onCreate_ok; [apply construct_ok|exact Hc].
Qed.

(** ** Theorems *)

(** The emulated vehicle starts, whatever the memory, the clock and the
    override files: [onCreate] does not fail on the built-in table, and leaves
    for every property that is not a diagnostic one exactly the areas the table
    declares, each with the value of its last declaration there, available and
    with timestamp 0. *)
Lemma onCreate_initial_values `{!DefaultConfigLaws, !SensorLaws} e emu userHal u override :
  let s0 := construct userHal u override in
  exists s, onCreate e emu s0 = Some s /\ mInEmulator s = emu /\
    forall p a, p ∉ [OBD2_LIVE_FRAME; OBD2_FREEZE_FRAME; OBD2_FREEZE_FRAME_CLEAR;
                     OBD2_FREEZE_FRAME_INFO] ->
      getValueOrNullLocked (mPropStore s) (mkRid p a 0) =
      declared_value s0 kVehicleProperties p a.
Proof.
  intros s0. unfold onCreate. set (l := kVehicleProperties ≫= initial_values s0).
  assert (Forall (plain_value (mPropStore s0)) l) as Hl.
  { apply Forall_forall. intros v (d & Hv & Hd)%list_elem_of_bind.
    by eapply initial_values_plain. }
  destruct obd2_declared as [(dl & Hdl & Hcl) (df & Hdf & Hcf)].
  destruct (default_frame_ok _ Hcl) as [fl Hfl]. destruct (default_frame_ok _ Hcf) as [ff Hff].
  pose proof (construct_configs userHal u override) as Hcfg. fold s0 in Hcfg.
  unfold getConfigOrDie, getConfigOrNull. rewrite write_all_configs.
  rewrite Hcfg, Hdl. cbn [fmap option_fmap option_map mbind option_bind propConfig].
  unfold initObd2LiveFrame. rewrite Hfl. cbn [mbind option_bind].
  rewrite writeValue_configs, write_all_configs.
  rewrite Hcfg, Hdf. cbn [fmap option_fmap option_map mbind option_bind propConfig].
  unfold initObd2FreezeFrame. rewrite Hff. cbn [mbind option_bind].
  eexists. split; [reflexivity|]. split; [done|]. intros p a Hp.
  cbn [mPropStore with_store with_inEmulator].
  rewrite write_all_other; [|eapply Forall_impl; [apply frames_prop|]]; cycle 1.
  { cbn. intros v ->. intros <-. apply Hp. rewrite !elem_of_cons. auto. }
  rewrite writeValue_other; [|cbn; intros ->; apply Hp; rewrite !elem_of_cons; auto].
  unfold getValueOrNullLocked. rewrite write_all_lookup; [|by apply construct_values|done].
  apply initial_values_last. by apply bool_decide_eq_false_2.
Qed.

(** *** Ordinary properties *)

(** The properties with code of their own. *)
Definition special : list Z :=
  [INITIAL_USER_INFO; SWITCH_USER; CREATE_USER; REMOVE_USER; USER_IDENTIFICATION_ASSOCIATION;
   kGenerateFakeDataControllingProperty; kSetIntPropertyFromVehicleForTest;
   kSetFloatPropertyFromVehicleForTest; kSetBooleanPropertyFromVehicleForTest;
   AP_POWER_STATE_REPORT; OBD2_FREEZE_FRAME; OBD2_FREEZE_FRAME_INFO; OBD2_FREEZE_FRAME_CLEAR;
   VEHICLE_MAP_SERVICE].

Lemma special_ne p q : p ∉ special -> q ∈ special -> (p =? q) = false.
Proof. intros Hp Hq. apply Z.eqb_neq. by intros ->. Qed.

(** [set_solver] does not compute the list. *)
Ltac in_special := unfold special; rewrite !elem_of_cons; tauto.

Lemma freeze_special : OBD2_FREEZE_FRAME ∈ special.
Proof. in_special. Qed.

Lemma server_ordinary e s v b :
  prop v ∉ special -> server_onSetProperty e s v b = echo (clock e 0) s v b.
Proof.
  intros Hp. unfold server_onSetProperty, isSupported.
  rewrite bool_decide_eq_false_2; [|intros Hin; apply Hp; revert Hin; unfold special;
    rewrite !elem_of_cons, elem_of_nil; tauto].
  by rewrite !(special_ne (prop v)) by (done || in_special).
Qed.

Lemma emu_set_ordinary e s v :
  prop v ∉ special ->
  emu_set e s v =
  if bool_decide (prop v ∈ kHvacPowerProperties) && hvac_off s then Some (NOT_AVAILABLE, s)
  else set_checked e s v.
Proof.
  intros Hp. unfold emu_set. rewrite !(special_ne (prop v)) by (done || in_special).
  by destruct (bool_decide _), (hvac_off s).
Qed.

Lemma get_ordinary e s r :
  prop r ∉ special ->
  emu_get e s r =
  match readValueOrNull (mPropStore s) r with
  | None => Some (None, INVALID_ARG)
  | Some w => u ← pool_copy w;
      Some (option_map (fun w => stamp w (clock e 0)) u, match u with Some _ => OK | None => INVALID_ARG end)
  end.
Proof.
  intros Hp. unfold emu_get, get_value. rewrite !(special_ne (prop r)) by (done || in_special).
  unfold isSupported. rewrite (bool_decide_eq_false_2 (prop r ∈ _)), andb_false_r.
  - destruct (readValueOrNull _ _) as [w|]; [|done]. by destruct (pool_copy w) as [[]|].
  - intros Hin; apply Hp; revert Hin. unfold special. rewrite !elem_of_cons, elem_of_nil. tauto.
Qed.

(** Why [set] does not reach the car. *)
Definition refusal (s : EmulatedVehicle) (v : VehiclePropValue) : option StatusCode :=
  if bool_decide (prop v ∈ kHvacPowerProperties) && hvac_off s then Some NOT_AVAILABLE
  else if negb (bool_decide (status v = S_AVAILABLE)) then Some INVALID_ARG
  else
    match readValueOrNull (mPropStore s) v with
    | None => Some INVALID_ARG
    | Some current =>
        if negb (bool_decide (status current = S_AVAILABLE)) then Some NOT_AVAILABLE
        else if mInEmulator s && bool_decide (prop v = VP "DISPLAY_BRIGHTNESS") then Some OK
        else None
    end.

Lemma read_same_area st v r :
  prop r = prop v -> areaId r = areaId v -> tokenFunction <$> mConfigs st !! prop v = Some None ->
  getRecordIdLocked st r = getRecordIdLocked st v.
Proof.
  intros Hp Ha Ht. unfold getRecordIdLocked. rewrite Hp, Ha.
  destruct (mConfigs st !! prop v) as [c|]; [|done]. cbn in Ht. injection Ht as ->. done.
Qed.

(** An accepted value: it comes back from the car, stamped with the clock. *)
Lemma set_accepted s e v :
  emu_ok s -> mEmulator s = true -> is_Some (find_decl (prop v)) ->
  prop v ∉ special -> copyable (prop v) -> refusal s v = None ->
  exists current s', readValueOrNull (mPropStore s) v = Some current /\
    emu_set e s v = Some (OK, s') /\
    let u := stamp v (clock e 0) in
    if clock e 0 <? timestamp current then s' = s
    else
      outputs s' = outputs s ++ [ToEmulator u; HalEvent u] /\
      (forall e' r, prop r = prop v -> areaId r = areaId v ->
         emu_get e' s' r =
           Some (Some (mkValue (clock e' 0) (areaId current) (prop v) S_AVAILABLE (value v)), OK)) /\
      (forall r, r <> getRecordIdLocked (mPropStore s) v ->
         getValueOrNullLocked (mPropStore s') r = getValueOrNullLocked (mPropStore s) r).
Proof.
  intros Hok He [d Hd] Hp Hcp Href. rewrite emu_set_ordinary by done.
  unfold refusal, set_checked in *. destruct (_ && hvac_off s); [done|]. destruct (negb _); [done|].
  destruct (readValueOrNull (mPropStore s) v) as [current|] eqn:Hcur; [|done].
  destruct (bool_decide_reflect (status current = S_AVAILABLE)) as [Hs|]; cbn [negb]; [|done].
  destruct (mInEmulator s && _); [done|].
  rewrite server_ordinary by done. unfold echo. rewrite pool_copy_deref_ok by done.
  cbn [mbind option_bind]. unfold onPropertyValue.
  rewrite pool_copy_deref_ok by done. cbn [mbind option_bind]. set (u := stamp v (clock e 0)).
  assert (store_ok (mPropStore s)) as [Hrec _] by by apply inv_store.
  unfold readValueOrNull in Hcur.
  assert (mConfigs (mPropStore s) !! prop v = Some (mkRecordConfig (dc_config d) None)) as Hcfg.
  { rewrite (inv_configs _ Hok), Hd. cbn. unfold token_of. by rewrite special_ne by (done || in_special). }
  assert (getRecordIdLocked (mPropStore s) u = getRecordIdLocked (mPropStore s) v) as Hid
    by (unfold getRecordIdLocked; cbn; by rewrite Hcfg).
  pose proof (Hrec _ _ Hcur) as (Hpc & _ & _). unfold getRecordIdLocked at 1 in Hpc.
  rewrite Hcfg in Hpc. cbn in Hpc.
  exists current. unfold writeValue. change (prop u) with (prop v). rewrite Hcfg, Hid, Hcur.
  change (timestamp u) with (clock e 0).
  destruct (Z.ltb_spec (clock e 0) (timestamp current)); [exists (with_store s (mPropStore s));
    split_and!; [done..|by destruct s]|].
  rewrite He. eexists. split; [done|]. split; [reflexivity|]. split_and!; [done| |].
  - intros e' r Hr Ha. rewrite get_ordinary by by rewrite Hr. unfold readValueOrNull.
    rewrite (read_same_area _ v r) by (done || cbn; by rewrite Hcfg).
    unfold getValueOrNullLocked, getRecordIdLocked. cbn [mPropStore emit with_store mPropertyValues].
    cbn [mConfigs]. fold (getRecordIdLocked (mPropStore s) v). rewrite lookup_insert_eq.
    rewrite pool_copy_ok by (cbn; by rewrite <-Hpc). cbn. unfold stamp. cbn. by rewrite Hs, <-Hpc.
  - intros r Hr. unfold getValueOrNullLocked. cbn. by rewrite lookup_insert_ne.
Qed.


(** C27: Setting an ordinary property of the table through the emulated vehicle, in every
    reachable state: a refused request (HVAC off, a status of the client's, no
    such area, unavailable, brightness in the emulator) changes nothing and sends
    nothing; otherwise the answer is OK, and unless the stored value is newer
    than the clock, the emulator and the HAL's clients each get one event with
    the value, a get of the same area returns it, available, and nothing
    else changes. *)
Theorem emu_set_then_get s e v :
  emu_reachable s -> mEmulator s = true -> is_Some (find_decl (prop v)) ->
  prop v ∉ special -> copyable (prop v) ->
  match refusal s v with
  | Some c => emu_set e s v = Some (c, s)
  | None =>
      exists current s', readValueOrNull (mPropStore s) v = Some current /\
        emu_set e s v = Some (OK, s') /\
        let u := stamp v (clock e 0) in
        if clock e 0 <? timestamp current then s' = s
        else
          outputs s' = outputs s ++ [ToEmulator u; HalEvent u] /\
          (forall e' r, prop r = prop v -> areaId r = areaId v ->
             emu_get e' s' r =
               Some (Some (mkValue (clock e' 0) (areaId current) (prop v) S_AVAILABLE (value v)), OK)) /\
          (forall r, r <> getRecordIdLocked (mPropStore s) v ->
             getValueOrNullLocked (mPropStore s') r = getValueOrNullLocked (mPropStore s) r)
  end.
Proof.
  intros Hok%emu_reachable_ok He Hd Hp Hcp.
  destruct (refusal s v) as [c|] eqn:Href; [|by apply set_accepted].
  rewrite emu_set_ordinary by done. unfold refusal, set_checked in *.
  destruct (_ && hvac_off s); [by simplify_eq|]. destruct (negb _); [by simplify_eq|].
  destruct (readValueOrNull _ v) as [current|]; [|by simplify_eq].
  destruct (negb _); [by simplify_eq|]. destruct (mInEmulator s && _); by simplify_eq.
Qed.

(** *** Freeze frames *)

Definition frame (s : EmulatedVehicle) (t : Z) : option VehiclePropValue :=
  getValueOrNullLocked (mPropStore s) (mkRid OBD2_FREEZE_FRAME 0 t).

Lemma readValueOrNull_frame st t :
  readValueOrNull_id st OBD2_FREEZE_FRAME 0 t = getValueOrNullLocked st (mkRid OBD2_FREEZE_FRAME 0 t).
Proof. unfold readValueOrNull_id. by destruct (isGlobalProp _). Qed.

Lemma frame_record st f t d :
  store_ok st -> tokens_ok st -> configs_ok st -> find_decl OBD2_FREEZE_FRAME = Some d ->
  getValueOrNullLocked st (mkRid OBD2_FREEZE_FRAME 0 t) = Some f ->
  getRecordIdLocked st f = mkRid OBD2_FREEZE_FRAME 0 t.
Proof.
  intros [Hrec _] Ht Hc Hd Hf. pose proof (Ht _ _ Hf) as Htok. cbn in Htok.
  rewrite Z.eqb_refl in Htok. apply Hrec in Hf as (Hp & _ & Ha). cbn in Hp, Ha.
  unfold getRecordIdLocked. rewrite <-Hp, <-Ha, Hc, Hd in *. cbn. unfold token_of.
  by rewrite Z.eqb_refl, Htok.
Qed.

(** What the loop over the timestamps removes: the frames up to the first
    timestamp without one. *)
Lemma clear_frames_spec d l : forall st c st',
  store_ok st -> tokens_ok st -> configs_ok st -> find_decl OBD2_FREEZE_FRAME = Some d ->
  clear_frames st l = (c, st') ->
  let frame st t := getValueOrNullLocked st (mkRid OBD2_FREEZE_FRAME 0 t) in
  exists l1 l2, l = l1 ++ l2 /\ NoDup l1 /\ Forall (fun t => is_Some (frame st t)) l1 /\
    (forall r, getValueOrNullLocked st' r =
       if decide (r ∈ mkRid OBD2_FREEZE_FRAME 0 <$> l1) then None else getValueOrNullLocked st r) /\
    ((c = OK /\ l2 = []) \/ (c = INVALID_ARG /\ exists t rest, l2 = t :: rest /\ frame st' t = None)).
Proof.
  induction l as [|t l IH]; intros st c st' Hst Ht Hc Hd Hl fr; cbn in Hl.
  { simplify_eq. exists [], []. split_and!; [done|constructor|constructor|done|by left]. }
  rewrite readValueOrNull_frame in Hl. fold (fr st t) in Hl. destruct (fr st t) as [f|] eqn:Hf.
  - pose proof (frame_record _ _ _ _ Hst Ht Hc Hd Hf) as Hid.
    destruct (IH (removeValue st f) c st') as (l1 & l2 & -> & Hnd & Hl1 & Hlook & Hend);
      [by eapply store_step_ok; [apply SRemove|]|by apply map_Forall_delete|exact Hc|done|done|].
    unfold removeValue in Hl1, Hlook. rewrite Hid in Hl1, Hlook.
    exists (t :: l1), l2. split_and!; [done| | | |exact Hend].
    + constructor; [|done]. intros Hin. rewrite Forall_forall in Hl1. specialize (Hl1 t Hin).
      unfold getValueOrNullLocked in Hl1. cbn in Hl1. rewrite lookup_delete_eq in Hl1. by destruct Hl1.
    + constructor; [by eauto|]. eapply Forall_impl; [exact Hl1|]. cbn. intros t' Ht'.
      unfold fr, getValueOrNullLocked in *. cbn in Ht'. rewrite lookup_delete in Ht'.
      case_decide; [by destruct Ht'|done].
    + intros r. rewrite Hlook. unfold getValueOrNullLocked. cbn [mPropertyValues fmap list_fmap].
      rewrite lookup_delete.
      destruct (decide (r ∈ mkRid OBD2_FREEZE_FRAME 0 <$> l1)) as [Hin|Hnin].
      { by rewrite decide_True by (rewrite elem_of_cons; auto). }
      destruct (decide (mkRid OBD2_FREEZE_FRAME 0 t = r)) as [<-|Hn].
      { by rewrite decide_True by (rewrite elem_of_cons; auto). }
      rewrite decide_False; [done|]. rewrite elem_of_cons. intros [?|?]; [congruence|done].
  - injection Hl as <- <-. exists [], (t :: l).
    split_and!; [done|constructor|constructor|done|right]. split; [done|]. eauto.
Qed.

Lemma clear_ordinary `{!DefaultConfigLaws} :
  OBD2_FREEZE_FRAME_CLEAR <> kGenerateFakeDataControllingProperty /\
  OBD2_FREEZE_FRAME_CLEAR ∉ kHvacPowerProperties.
Proof.
  split.
  - intros Heq. enough (inl "OBD2_FREEZE_FRAME_CLEAR" = inr 4%nat :> key) by done.
    apply key_value_inj; [apply (bool_decide_unpack _); vm_compute; exact I..|exact Heq].
  - unfold kHvacPowerProperties. rewrite !elem_of_cons, elem_of_nil.
    intros [Heq|[Heq|[]]]; revert Heq; apply VP_ne; try (apply (bool_decide_unpack _); vm_compute; exact I);
      by intros [=].
Qed.

(** Clearing freeze frames, in every reachable state: without timestamps
    all of them go; with timestamps exactly those up to the first one that names
    no frame (one listed twice names none the second time), and the answer tells
    whether all were there.  No other stored value is touched in that case. *)
Lemma clear_freeze_frames_spec `{!DefaultConfigLaws} s e v :
  emu_reachable s -> prop v = OBD2_FREEZE_FRAME_CLEAR ->
  match int64Values (value v) with
  | [] => OBD2_FREEZE_FRAME <> INT32_MAX ->
      exists s', emu_set e s v = Some (OK, s') /\ forall t, frame s' t = None
  | ts =>
      exists c s' l1 l2, emu_set e s v = Some (c, s') /\ ts = l1 ++ l2 /\
        NoDup l1 /\ Forall (fun t => is_Some (frame s t)) l1 /\
        (forall r, getValueOrNullLocked (mPropStore s') r =
           if decide (r ∈ mkRid OBD2_FREEZE_FRAME 0 <$> l1) then None
           else getValueOrNullLocked (mPropStore s) r) /\
        ((c = OK /\ l2 = []) \/
         (c = INVALID_ARG /\ exists t rest, l2 = t :: rest /\ frame s' t = None))
  end.
Proof.
  intros Hok%emu_reachable_ok Hp. destruct clear_ordinary as [Hne Hhvac].
  assert (emu_set e s v = clearObd2FreezeFrames s v) as Hset.
  { unfold emu_set. rewrite Hp, (proj2 (Z.eqb_neq _ _) Hne), bool_decide_eq_false_2 by done.
    by rewrite Z.eqb_refl. }
  rewrite Hset. unfold clearObd2FreezeFrames. destruct (int64Values (value v)) as [|t ts].
  - intros Hmax. unfold removeValuesForProperty.
    destruct (findRangeLocked OBD2_FREEZE_FRAME) as [[lo hi]|] eqn:Hr;
      [|unfold findRangeLocked in Hr; by rewrite decide_False in Hr].
    cbn [mbind option_bind]. eexists. split; [done|]. intros t.
    unfold frame, getValueOrNullLocked. cbn. apply map_lookup_filter_None_2. right.
    intros w _. cbn. rewrite not_false_iff_true.
    apply (in_bounds_spec OBD2_FREEZE_FRAME); [done|cbn; unfold INT32_MIN; lia|].
    left. cbn. unfold INT32_MIN. lia.
  - destruct obd2_declared as [_ (d & Hd & _)].
    destruct (clear_frames (mPropStore s) (t :: ts)) as [c st] eqn:Hl.
    destruct (clear_frames_spec d _ _ _ _ (inv_store _ Hok) (inv_tokens _ Hok) (inv_configs _ Hok)
      Hd Hl) as (l1 & l2 & Heq & Hnd & Hl1 & Hlook & Hend).
    exists c, (with_store s st), l1, l2. done.
Qed.

End Vehicle.

(** ** Witnesses *)

Lemma demo_config_laws : @DefaultConfigLaws aosp_abi demo_enum.
Proof.
  split; [apply demo_enum_laws|]. apply (bool_decide_unpack _). vm_compute. exact I.
Qed.

Lemma demo_sensor_laws : @SensorLaws demo_enum demo_obd2_abi.
Proof. split; repeat constructor; vm_compute; discriminate. Qed.

Definition demo_env (t : Z) : Env := mkEnv (fun _ => kEmptyValue) (fun n => t + Z.of_nat n).

Definition demo_constructed : EmulatedVehicle := @construct aosp_abi demo_enum true user_new None.

Definition demo_created : EmulatedVehicle :=
  default demo_constructed
    (@onCreate aosp_abi demo_enum demo_obd2_abi (demo_env 10) false demo_constructed).

(** The demonstration vehicle, with an emulator. *)
Definition demo_vehicle : EmulatedVehicle := registerEmulator demo_created.

Definition demo_hash (s : string) : Z := Z.of_nat (String.length s).

Lemma demo_vehicle_reachable :
  @emu_reachable aosp_abi demo_enum demo_obd2_abi demo_hash demo_vehicle.
Proof.
  exists (demo_env 10), false, true, None, demo_created. split; [vm_compute; reflexivity|].
  apply rtc_once, ERegister.
Qed.

Definition demo_door (x : Z) : VehiclePropValue :=
  mkValue 0 0 (@VP demo_enum "FUEL_DOOR_OPEN") 0 (ints [x]).

Lemma emu_set_then_get_witness :
  exists s', @emu_set aosp_abi demo_enum demo_hash (demo_env 50) demo_vehicle (demo_door 1) =
      Some (OK, s') /\
    @emu_get aosp_abi demo_enum (demo_env 60) s' (demo_door 7) =
      Some (Some (stamp (demo_door 1) 60), OK).
Proof.
  pose proof (@emu_set_then_get aosp_abi demo_enum demo_obd2_abi demo_hash demo_vehicle
    (demo_env 50) (demo_door 1) demo_vehicle_reachable) as Hset.
  replace (refusal demo_vehicle (demo_door 1)) with (@None StatusCode) in Hset
    by (vm_compute; reflexivity).
  destruct Hset as (current & s' & Hcur & Hs & Hout).
  - reflexivity.
  - vm_compute. eauto.
  - apply (bool_decide_unpack _). vm_compute. exact I.
  - split; [vm_compute; discriminate|]. apply (bool_decide_unpack _). vm_compute. exact I.
  - exists s'. split; [exact Hs|].
    assert (Some current = Some (mkValue 0 0 (@VP demo_enum "FUEL_DOOR_OPEN") 0 (ints [0]))) as Hc
      by (rewrite <-Hcur; vm_compute; reflexivity).
    injection Hc as ->. destruct Hout as (_ & Hget & _). rewrite Hget; reflexivity.
Defined.
