(* ===== verification/VehicleStack.v ===== *)
(** * The vehicle HAL as it is assembled: VehicleHalManager over EmulatedVehicleHal

    The emulated vehicle as an instance of the interface [VehicleHal] the
    manager is written against.  The state is the vehicle and the number of
    calls made; [envs] gives each call its memory and clock.  After undefined
    behaviour the vehicle is [None] and nothing is claimed of the answers. *)

From S2P Require Import Prelude VehicleTypes Subscription PropertyStore DefaultConfig RecurrentTimer Obd2 UserHal EmulatedVehicle HalManager.

(** ** Invariants of a HAL under the manager *)

(** A property of the HAL's states that every operation of the interface
    preserves. *)
Class HalInvariant {Hal : Type} `{VehicleHal Hal} (P : Hal -> Prop) : Prop := {
  inv_get v h : P h -> P (hal_get v h).2;
  inv_set v h : P h -> P (hal_set v h).2;
  inv_subscribe p rate h : P h -> P (hal_subscribe p rate h).2;
  inv_unsubscribe p h : P h -> P (hal_unsubscribe p h).2;
  inv_dump options h : P h -> P (hal_dump options h).2
}.

Section HalInvariant.
Context `{VehicleAbi} {Hal : Type} `{!VehicleHal Hal} `{LibBase} (link_ok : Z -> bool).
Context (P : Hal -> Prop) `{!HalInvariant P}.

Local Abbreviation dumped := (list line * list effect * VehicleHalManager Hal)%type.

Lemma get_keeps (m : VehicleHalManager Hal) v : P (mHal m) -> P (mHal (HalManager.get m v).2).
Proof.
  intros Hm. unfold HalManager.get. destruct (getPropConfigOrNull m (prop v)) as [c|]; [|done].
  destruct (negb _); [done|]. pose proof (inv_get v (mHal m) Hm) as Hg.
  by destruct (hal_get v (mHal m)) as [[w st] h].
Qed.

Lemma set_keeps (m : VehicleHalManager Hal) v : P (mHal m) -> P (mHal (HalManager.set m v).2).
Proof.
  intros Hm. unfold HalManager.set. destruct (getPropConfigOrNull m (prop v)) as [c|]; [|done].
  destruct (negb _); [done|]. pose proof (inv_set v (mHal m) Hm) as Hg.
  by destruct (hal_set v (mHal m)) as [st h].
Qed.

Lemma subscribe_keeps (m : VehicleHalManager Hal) cid cb options addr :
  P (mHal m) -> P (mHal (HalManager.subscribe link_ok m cid cb options addr).2).
Proof.
  intros Hm. unfold HalManager.subscribe. destruct (verify_options m options) as [l|]; [|done].
  destruct (addOrUpdateSubscription _ _ _ _ _ _) as [[res upd] s]. destruct (negb _); [done|].
  unfold hal_subscribe_all. cbn [mHal set_subs].
  assert (forall es h, P h -> P (foldl (fun '(es, h) opt =>
    (es ++ [HalSubscribe (propId opt) (sampleRate opt)],
     (hal_subscribe (propId opt) (sampleRate opt) h).2)) (es, h) upd).2) as Hall.
  { induction upd as [|o upd IH]; intros es h Hh; [done|]. cbn [foldl]. by apply IH, inv_subscribe. }
  specialize (Hall [] (mHal m) Hm). by destruct (foldl _ _ upd).
Qed.

Lemma unsubscribed_keeps ps (m : VehicleHalManager Hal) :
  P (mHal m) -> P (mHal (onAllClientsUnsubscribed ps m).2).
Proof.
  unfold onAllClientsUnsubscribed.
  assert (forall es m, P (mHal m) -> P (mHal (foldl (fun '(es, m) p =>
    (es ++ [HalUnsubscribe p], set_hal m (hal_unsubscribe p (mHal m)).2)) (es, m) ps).2)) as Hall;
    [|by apply Hall].
  induction ps as [|p ps IH]; intros es m0 Hm; [done|]. cbn [foldl]. apply IH. cbn.
  by apply inv_unsubscribe.
Qed.

Lemma then_dump_keeps (r : dumped) f :
  P (mHal r.2) -> (forall m, P (mHal m) -> P (mHal (f m).2)) -> P (mHal (then_dump r f).2).
Proof.
  destruct r as [[l e] m]. intros Hm Hf. specialize (Hf m Hm). unfold then_dump.
  by destruct (f m) as [[l' e'] m'].
Qed.

Lemma foldl_dump_keeps {A} (f : dumped -> A -> dumped) l :
  (forall r x, P (mHal r.2) -> P (mHal (f r x).2)) ->
  forall r, P (mHal r.2) -> P (mHal (foldl f r l).2).
Proof. intros Hf. induction l as [|x l IH]; intros r Hr; [done|]. by apply IH, Hf. Qed.

Lemma dump_value_keeps junk (m : VehicleHalManager Hal) p area :
  P (mHal m) -> P (mHal (dump_value junk m p area).2).
Proof.
  intros Hm. unfold dump_value. set (v := mkValue _ _ _ _ _). pose proof (get_keeps m v Hm) as Hg.
  by destruct (HalManager.get m v) as [[[st o] es] m'].
Qed.

Lemma dump_one_keeps junk row c (m : VehicleHalManager Hal) :
  P (mHal m) -> P (mHal (cmdDumpOneProperty junk row c m).2).
Proof.
  intros Hm. unfold cmdDumpOneProperty. destruct (cfg_areaConfigs c) as [|a l].
  - apply then_dump_keeps; [done|]. intros. by apply dump_value_keeps.
  - apply foldl_dump_keeps; [|done]. intros r [j area] Hr.
    apply then_dump_keeps; [by apply then_dump_keeps|intros; by apply dump_value_keeps].
Qed.

Lemma dump_specific_keeps junk size args : forall i row (m : VehicleHalManager Hal),
  P (mHal m) -> P (mHal (dump_specific junk size i row args m).2).
Proof.
  induction args as [|arg args IH]; intros i row m Hm; [done|]. cbn [dump_specific].
  unfold safelyParseInt. destruct (ParseInt arg) as [p|]; [|done].
  destruct (getPropConfigOrNull m p) as [c|]; apply then_dump_keeps;
    auto using dump_one_keeps.
Qed.

Lemma cmdDump_keeps junk root now options (m : VehicleHalManager Hal) ls es m' :
  P (mHal m) -> cmdDump junk root now options m = Some (ls, es, m') -> P (mHal m').
Proof.
  intros Hm. unfold cmdDump.
  assert (forall r : dumped, P (mHal r.2) -> Some r = Some (ls, es, m') -> P (mHal m')) as Hwrap
    by (by intros [[l e] m0] Hr [= -> -> ->]).
  destruct options as [|o options].
  { apply Hwrap. unfold cmdDumpAllProperties. destruct (mConfigs m) as [|c cs]; [done|].
    apply foldl_dump_keeps; [|done]. intros r [i c'] Hr. apply then_dump_keeps; [done|].
    intros. by apply dump_one_keeps. }
  repeat match goal with |- context [if ?b then _ else _] => destruct b end;
    try (by apply Hwrap).
  - apply Hwrap. unfold cmdDumpSpecificProperties, checkArgumentsSize.
    destruct (_ <=? _)%nat; [by apply dump_specific_keeps|done].
  - unfold cmdSetOneProperty. destruct (parse_set _ _ _ _) as [[l|v]|]; cbn; [by apply Hwrap| |done].
    pose proof (set_keeps m v Hm) as Hs. destruct (HalManager.set m v) as [[st es0] m0].
    intros [= _ _ ->]. exact Hs.
Qed.

(** What every operation of a HAL preserves, the manager preserves. *)
Lemma manager_step_keeps (m m' : VehicleHalManager Hal) es :
  subs_ok (mSubscriptionManager m) ->
  length (mHidlVecOfVehiclePropValuePool m) = kMaxHidlVecOfVehiclPropValuePoolSize ->
  manager_step link_ok m es m' -> P (mHal m) -> P (mHal m').
Proof.
  intros Hsubs Hlen Hstep Hm. destruct Hstep as [m v r|m v r|m cid cb options addr _ r|m cid p r|m cid r
    |m vs es m' Hb|m code p area|m junk root now fd options ls es m' Hd]; try subst r.
  - by apply get_keeps.
  - by apply set_keeps.
  - by apply subscribe_keeps.
  - unfold HalManager.unsubscribe. destruct (Subscription.unsubscribe _ _ _) as [ps s].
    pose proof (unsubscribed_keeps ps (set_subs m s) Hm) as Hu.
    by destruct (onAllClientsUnsubscribed _ _).
  - unfold clientDied. destruct (Subscription.onCallbackDead _ _) as [ps s].
    by apply unsubscribed_keeps.
  - destruct (onBatch_spec m vs Hsubs Hlen) as (pool & _ & Heq). rewrite Heq in Hb. by injection Hb as _ <-.
  - done.
  - unfold debug in Hd. destruct (negb fd); [by injection Hd as _ _ <-|].
    pose proof (inv_dump options (mHal m) Hm) as Hi. destruct (hal_dump options (mHal m)) as [go h].
    destruct (negb go); [by injection Hd as _ _ <-|]. eapply cmdDump_keeps; [|exact Hd]. exact Hi.
Qed.

Lemma manager_run_keeps configs (m m' : VehicleHalManager Hal) es :
  Forall config_sane configs -> manager_ok configs m ->
  manager_run link_ok m es m' -> P (mHal m) -> P (mHal m').
Proof.
  intros Hsane Hok Hrun. induction Hrun as [m|m1 m2 m3 es1 es2 Hrun IH Hstep]; intros Hm; [done|].
  destruct (manager_run_ok _ _ _ _ _ Hsane Hrun Hok) as [_ Hok2].
  eapply manager_step_keeps; [by eapply mok_subs|by eapply mok_pool|exact Hstep|by apply IH].
Qed.

End HalInvariant.

(** ** The stack *)

Definition Stack : Type := option EmulatedVehicle * nat.

Section Stack.
Context `{VehicleAbi, Enumerators, Obd2Abi, LibBase}.
Context (string_hash : string -> Z) (envs : nat -> Env) (link_ok : Z -> bool).

(** A call of the vehicle. *)
Definition call {A} (f : Env -> EmulatedVehicle -> option (A * EmulatedVehicle)) (dead : A)
    (h : Stack) : A * Stack :=
  let '(s, n) := h in
  match s with
  | Some s0 =>
      match f (envs n) s0 with
      | Some (a, s1) => (a, (Some s1, S n))
      | None => (dead, (None, S n))
      end
  | None => (dead, h)
  end.

#[local] Instance EmulatedHal : VehicleHal Stack := {|
  hal_get v h :=
    let '(r, h') := call (fun e s => r ← emu_get e s v; Some (r, s)) (None, INTERNAL_ERROR) h in
    (r.1, r.2, h');
  hal_set v h := call (fun e s => emu_set string_hash e s v) INTERNAL_ERROR h;
  hal_subscribe p rate h := call (fun e s => emu_subscribe (clock e 0) s p rate) INTERNAL_ERROR h;
  hal_unsubscribe p h := call (fun e s => Some (emu_unsubscribe s p)) INTERNAL_ERROR h;
  hal_dump _ h := (true, h)
|}.

(** ** Lemmas *)

Lemma call_Some {A} f (dead a : A) s n s' :
  f (envs n) s = Some (a, s') -> call f dead (Some s, n) = (a, (Some s', S n)).
Proof. intros Hf. unfold call. by rewrite Hf. Qed.

Lemma call_None {A} f (dead : A) s n :
  f (envs n) s = None -> call f dead (Some s, n) = (dead, (None, S n)).
Proof. intros Hf. unfold call. by rewrite Hf. Qed.

Lemma values_for_one s f a v :
  values_for s f a [v] = if decide (a ∈ getSubscribedClients s (prop v) f) then [v] else [].
Proof. unfold values_for. by rewrite filter_cons, filter_nil. Qed.

(** ** Theorems *)

(** A client sets an ordinary property through the HAL manager and the
    emulated vehicle accepts it: the call answers OK; the vehicle sends one event;
    delivering that event calls exactly the clients subscribed to the property,
    each with the value set and the time of the call; and a client that reads
    the property afterwards gets the value. *)
Lemma set_reaches_subscribers (m : VehicleHalManager Stack) s n v config :
  mHal m = (Some s, n) -> emu_reachable string_hash s -> mEmulator s = true ->
  subs_ok (mSubscriptionManager m) ->
  length (mHidlVecOfVehiclePropValuePool m) = kMaxHidlVecOfVehiclPropValuePoolSize ->
  getPropConfigOrNull m (prop v) = Some config ->
  checkWritePermission config = true -> checkReadPermission config = true ->
  is_Some (find_decl (prop v)) -> prop v ∉ special -> copyable (prop v) ->
  refusal s v = None ->
  (forall current, readValueOrNull (mPropStore s) v = Some current ->
     timestamp current <= clock (envs n) 0) ->
  let u := stamp v (clock (envs n) 0) in
  exists calls s' m', HalManager.set m v = (OK, calls, m') /\ mHal m' = (Some s', S n) /\
    outputs s' = outputs s ++ [ToEmulator u; HalEvent u] /\
    (exists es m2, onBatchHalEvent m' [u] = Some (es, m2) /\
       forall e, e ∈ es <-> exists a c, objects (mSubscriptionManager m) !! a = Some c /\
         a ∈ getSubscribedClients (mSubscriptionManager m) (prop v) F_EVENTS_FROM_CAR /\
         e = OnPropertyEvent (mCallback c) [u]) /\
    (forall r, prop r = prop v -> areaId r = areaId v ->
       exists w m3, HalManager.get m' r = (OK, w, [HalGet r], m3) /\
         prop w = prop v /\ value w = value v /\ timestamp w = clock (envs (S n)) 0).
Proof.
  intros Hhal Hr He Hsubs Hpool Hconf Hw Hread Hd Hsp Hcp Href Htime u.
  destruct (set_accepted string_hash s (envs n) v (emu_reachable_ok _ _ Hr) He Hd Hsp Hcp Href)
    as (current & s' & Hcur & Hset & Hout).
  specialize (Htime current Hcur). rewrite (proj2 (Z.ltb_ge _ _) Htime) in Hout.
  destruct Hout as (Hout & Hget & _).
  set (m' := set_hal m (Some s', S n)).
  exists (handlePropertySetEvent m v ++ [HalSet v]), s', m'. split_and!; [|done|done| |].
  - unfold HalManager.set. rewrite Hconf, Hw. cbn [negb hal_set EmulatedHal]. rewrite Hhal.
    by rewrite (call_Some _ _ OK s n s') by done.
  - destruct (onBatch_spec m' [u] Hsubs Hpool) as (pool & _ & Heq).
    eexists _, _. split; [exact Heq|]. intros e. rewrite list_elem_of_bind.
    unfold event_for, callbacks. cbn [mSubscriptionManager m' set_hal]. split.
    + intros ([a vs] & Hin & (-> & Hne)%(distribute_elem _ _ _ Hsubs)).
      rewrite values_for_one in *. cbn in Hin. case_decide as Ha; [|done].
      destruct (objects (mSubscriptionManager m) !! a) as [c|] eqn:Hc; cbn in Hin;
        [|by apply elem_of_nil in Hin].
      apply list_elem_of_singleton in Hin as ->. exists a, c. by rewrite decide_True.
    + intros (a & c & Hc & Ha & ->). exists (a, [u]). cbn. rewrite Hc. cbn.
      split; [apply list_elem_of_here|]. apply (distribute_elem _ _ _ Hsubs).
      rewrite values_for_one. by rewrite decide_True.
  - intros r Hpr Har. eexists _, _. unfold HalManager.get. cbn [m' set_hal getPropConfigOrNull].
    unfold getPropConfigOrNull in *. cbn [mConfigs set_hal m']. rewrite Hpr, Hconf, Hread. cbn.
    rewrite (Hget (envs (S n)) r Hpr Har). cbn. split; [reflexivity|done].
Qed.

(** The state of the vehicle, while it lives, is one it reaches by itself. *)
#[local] Instance stack_invariant s0 :
  HalInvariant (fun h : Stack =>
    match h.1 with Some s => rtc (emu_step string_hash) s0 s | None => True end).
Proof.
  assert (forall A (f : Env -> EmulatedVehicle -> option (A * EmulatedVehicle)) dead h,
    (forall e s a s', f e s = Some (a, s') -> rtc (emu_step string_hash) s s') ->
    match h.1 with Some s => rtc (emu_step string_hash) s0 s | None => True end ->
    match (call f dead h).2.1 with Some s => rtc (emu_step string_hash) s0 s | None => True end) as Hcall.
  { intros A f dead [[s|] n] Hf Hs; [|done]. cbn in *. destruct (f (envs n) s) as [[a s']|] eqn:Hfs; [|done].
    cbn. etrans; [exact Hs|]. by eapply Hf. }
  split; intros; cbn [hal_get hal_set hal_subscribe hal_unsubscribe hal_dump EmulatedHal].
  - set (f := fun e s => r ← emu_get e s v; Some (r, s)).
    assert (forall e s a s', f e s = Some (a, s') -> rtc (emu_step string_hash) s s') as Hf.
    { intros e s a s'. unfold f. destruct (emu_get e s v); cbn; [|done]. intros [= _ ->]. done. }
    pose proof (Hcall _ f (None, INTERNAL_ERROR) h Hf ltac:(done)) as Hc.
    by destruct (call f _ h) as [r h'].
  - apply Hcall; [|done]. intros e s a s' Hs. by eapply rtc_once, ESet.
  - apply Hcall; [|done]. intros e s a s' Hs. by eapply rtc_once, ESubscribe.
  - apply Hcall; [|done]. intros e s a s' [= <- <-]. apply rtc_once, EUnsubscribe.
  - done.
Qed.

Lemma table_sane : Forall (fun d => config_sane (dc_config d)) kVehicleProperties.
Proof. repeat (apply Forall_cons; split; [reflexivity|]). apply Forall_nil_2. Qed.

Lemma listed_declared s c : emu_ok s -> c ∈ listProperties s -> exists p d, find_decl p = Some d /\ c = dc_config d.
Proof.
  intros Hok Hc. apply list_elem_of_fmap in Hc as ([p rc] & -> & Hin%elem_of_map_to_list).
  rewrite (inv_configs _ Hok) in Hin. destruct (find_decl p) as [d|] eqn:Hd; [|done].
  cbn in Hin. injection Hin as <-. eauto.
Qed.

Lemma listed_sane s : emu_ok s -> Forall config_sane (listProperties s).
Proof.
  intros Hok. apply Forall_forall. intros c (p & d & Hd & ->)%(listed_declared _ _ Hok).
  unfold find_decl in Hd. destruct (list_find _ _) as [[i d']|] eqn:Hf; [|done].
  cbn in Hd. injection Hd as ->. apply list_find_Some in Hf as (Hi & _).
  pose proof table_sane as Hsane. rewrite Forall_lookup in Hsane. by eapply Hsane.
Qed.

(** C2: Whatever the clients of the HAL manager do, and whatever batches and
    errors it delivers, the emulated vehicle under it only takes steps of its own:
    while nothing undefined has happened it is in a reachable state, so its store
    is well-formed, its timer only serves continuous properties and every event
    it sent was of a property of the table. *)
Theorem stack_refines_vehicle s0 n es (m : VehicleHalManager Stack) s :
  emu_reachable string_hash s0 ->
  manager_run link_ok (init (Some s0, n) (listProperties s0)) es m ->
  (mHal m).1 = Some s ->
  rtc (emu_step string_hash) s0 s /\ emu_reachable string_hash s /\
  store_ok (mPropStore s) /\
  map_Forall (fun p _ => isContinuousProperty s p = true) (mRecurrentEvents s) /\
  (forall v, HalEvent v ∈ outputs s -> is_Some (find_decl (prop v))).
Proof.
  intros Hr Hrun Hs. pose proof (emu_reachable_ok _ _ Hr) as Hok.
  pose proof (manager_run_keeps link_ok (fun h : Stack =>
    match h.1 with Some s => rtc (emu_step string_hash) s0 s | None => True end) (listProperties s0)
    _ m es (listed_sane _ Hok) (init_ok (Some s0, n) (listProperties s0)) Hrun) as Hk.
  cbn [mHal init fst] in Hk. rewrite Hs in Hk. specialize (Hk (rtc_refl _ _)).
  assert (emu_reachable string_hash s) as Hr'.
  { destruct Hr as (e & emu & b & o & s1 & Hc & Hs1). exists e, emu, b, o, s1. split; [done|].
    by etrans. }
  pose proof (emu_reachable_ok _ _ Hr') as Hok'. split_and!; [done|done|by apply inv_store|..].
  - by apply inv_continuous.
  - intros v Hv. pose proof (inv_outputs _ Hok') as Ho. rewrite Forall_forall in Ho.
    specialize (Ho _ Hv). cbn in Ho. rewrite (inv_configs _ Hok') in Ho.
    by destruct (find_decl (prop v)) as [|]; [eauto|destruct Ho].
Qed.

(** *** A sample rate of zero *)

Lemma zero_interval b : hertzToNanoseconds (S754_zero b) = None.
Proof. destruct b; reflexivity. Qed.

Lemma new_hal_subscription s cid cb opts addr a s1 :
  getOrCreateHalClientLocked link_ok s cid cb addr = Some (a, s1) ->
  mHalEventSubscribeOptions s !! propId opts = None ->
  Z.land F_EVENTS_FROM_CAR (flags opts) <> 0 ->
  exists s2, addOrUpdateSubscription link_ok s cid cb [opts] addr = (OK, [opts], s2).
Proof.
  intros Hc Hnone Hf. unfold addOrUpdateSubscription. rewrite Hc.
  assert (mHalEventSubscribeOptions s1 = mHalEventSubscribeOptions s) as Hs1.
  { unfold getOrCreateHalClientLocked in Hc. repeat case_match; by simplify_eq. }
  cbn [foldl subscribe_one]. rewrite bool_decide_eq_true_2 by done.
  unfold updateHalEventSubscriptionLocked. cbn. rewrite Hs1, Hnone. eauto.
Qed.

(** A client that is the first to subscribe to a continuous property of
    minimal rate 0 and asks for rate 0, as clients do that want the changes
    only, passes every check of the HAL manager, and the emulated vehicle then
    divides by zero and converts the infinity to [int64_t]: undefined
    behaviour. *)
Lemma zero_rate_undefined (m : VehicleHalManager Stack) s n p c f b cid cb addr :
  mHal m = (Some s, n) ->
  getPropConfigOrNull m p = Some c -> cfg_changeMode c = C_CONTINUOUS ->
  isSampleRateFixed C_CONTINUOUS = false -> isSubscribable c f = true ->
  cfg_minSampleRate c = f32 0 -> SFltb (cfg_maxSampleRate c) (f32 0) = false ->
  isContinuousProperty s p = true ->
  Z.land F_EVENTS_FROM_CAR f <> 0 -> f <> F_UNDEFINED ->
  mHalEventSubscribeOptions (mSubscriptionManager m) !! p = None ->
  is_Some (getOrCreateHalClientLocked link_ok (mSubscriptionManager m) cid cb addr) ->
  let '(st, es, m') := HalManager.subscribe link_ok m cid cb [mkOpts p (S754_zero b) f] addr in
  st = OK /\ es = [HalSubscribe p (S754_zero b)] /\ (mHal m').1 = None.
Proof.
  intros Hhal Hc Hmode Hfixed Hsub Hmin Hmax Hcont Hf Hfu Hnone [[a s1] Ha].
  unfold HalManager.subscribe. cbn [verify_options propId flags]. rewrite Hc. cbn [mbind option_bind].
  rewrite bool_decide_eq_false_2 by done. rewrite Hsub. cbn [negb mbind option_bind].
  assert (checkSampleRate c (S754_zero b) = S754_zero b) as Hrate.
  { unfold checkSampleRate. rewrite Hmode, Hfixed, Hmin. unfold SFgtb.
    assert (forall x, SFltb x (S754_zero b) = SFltb x (f32 0)) as -> by by intros [].
    rewrite Hmax. by destruct b. }
  cbn [sampleRate]. rewrite Hrate.
  destruct (new_hal_subscription _ cid cb (mkOpts p (S754_zero b) f) addr a s1 Ha Hnone Hf) as [s2 ->].
  rewrite bool_decide_eq_true_2 by done. cbn [negb].
  unfold hal_subscribe_all. cbn [foldl propId sampleRate hal_subscribe EmulatedHal mHal set_subs].
  rewrite Hhal, call_None; [done|]. unfold emu_subscribe. by rewrite Hcont, zero_interval.
Qed.

End Stack.

(** ** Witnesses *)

Definition demo_envs (n : nat) : Env := demo_env (100 * Z.of_nat (S n)).

#[local] Existing Instances aosp_abi demo_enum demo_obd2_abi demo_base demo_config_laws.

Definition demo_stack_hal : VehicleHal Stack := EmulatedHal demo_hash demo_envs.

Definition demo_stack : VehicleHalManager Stack :=
  mkManager (Some demo_vehicle, 0%nat) (listProperties demo_vehicle) demo_manager
    (replicate 20 kEmptyValue).

Lemma stack_refines_vehicle_witness :
  let m := init (Some demo_vehicle, 0%nat) (listProperties demo_vehicle) in
  let m' := (@HalManager.set aosp_abi _ demo_stack_hal m (demo_door 1)).2 in
  exists s, (mHal m').1 = Some s /\ store_ok (mPropStore s).
Proof.
  intros m m'. destruct ((mHal m').1) as [s|] eqn:Hs; [|vm_compute in Hs; discriminate].
  exists s. split; [reflexivity|].
  refine (proj1 (proj2 (proj2 (stack_refines_vehicle demo_hash demo_envs (fun _ => true) demo_vehicle 0 _ m' s
    demo_vehicle_reachable _ Hs)))).
  eapply (@RunStep aosp_abi _ demo_stack_hal demo_base); [apply RunStop|].
  apply (@MSet aosp_abi _ demo_stack_hal demo_base (fun _ => true) m (demo_door 1)).
Defined.
