(* ===== verification/Generators.v ===== *)
(** * vehicle/impl/vhal_v2_0: FakeValueGenerator.h, LinearFakeValueGenerator.cpp,
    JsonFakeValueGenerator.cpp

    The generators of fake events.  A generator is an object with two methods,
    the class [FakeValueGenerator]; the two implementations are instances of it.
    Conversions of a [float] that do not fit, overflow of [int64_t] times and
    writes outside a vector are [None].

    The JSON library is the class [JsonCpp] of [Json]. *)

From S2P Require Import Prelude Json VehicleTypes ObjectPool Obd2 RecurrentTimer DefaultConfig.

(** ** The interface *)

Class FakeValueGenerator (G : Type) := {
  nextEvent : Z -> G -> option (VehiclePropValue * G);
  hasNext : G -> bool
}.

(** ** LinearFakeValueGenerator *)

Record LinearFakeValueGenerator := mkLinear {
  propId : Z; initialValue : spec_float; currentValue : spec_float; dispersion : spec_float;
  increment : spec_float; interval : Z
}.

(** The constructor; the caller has checked the sizes. *)
Definition linear_new (request : VehiclePropValue) : option LinearFakeValueGenerator :=
  let v := value request in
  p ← arr_get (int32Values v) 1; i ← arr_get (floatValues v) 0; d ← arr_get (floatValues v) 1;
  inc ← arr_get (floatValues v) 2; t ← arr_get (int64Values v) 0;
  Some (mkLinear p i i d inc t).

(** [static_cast] of a [float] to a [w]-bit integer. *)
Definition float_to_int (w : Z) (x : spec_float) : option Z :=
  match x with
  | S754_zero _ => Some 0
  | S754_finite sign m e =>
      let t := if decide (0 <= e) then Z.pos m * 2 ^ e else Z.shiftr (Z.pos m) (- e) in
      let z := if sign then - t else t in
      if decide (in_s w z) then Some z else None
  | _ => None
  end.

Section Generators.
Context `{VehicleAbi, Enumerators}.

Definition linear_step (g : LinearFakeValueGenerator) : spec_float :=
  let c := Binary32.add (currentValue g) (increment g) in
  if SFgtb c (Binary32.add (initialValue g) (dispersion g))
  then Binary32.sub (initialValue g) (dispersion g) else c.

(** The value of a property of the type, for the current value. *)
Definition linear_raw (type : Z) (c : spec_float) : option RawValue :=
  if type =? T_INT32 then x ← float_to_int 32 c; Some (ints [x])
  else if type =? T_INT64 then x ← float_to_int 64 c; Some (longs [x])
  else if type =? T_FLOAT then Some (floats [c])
  else Some empty_raw.

Definition linear_nextEvent (now : Z) (g : LinearFakeValueGenerator)
    : option (VehiclePropValue * LinearFakeValueGenerator) :=
  let c := linear_step g in
  r ← linear_raw (getPropType (propId g)) c;
  t ← i64 (now + interval g);
  Some (mkValue t 0 (propId g) 0 r,
        mkLinear (propId g) (initialValue g) c (dispersion g) (increment g) (interval g)).

#[global] Instance linear_generator : FakeValueGenerator LinearFakeValueGenerator := {|
  nextEvent := linear_nextEvent; hasNext _ := true
|}.

(** ** JsonFakeValueGenerator *)

Record JsonFakeValueGenerator := mkJson {
  index : nat; events : list VehiclePropValue; mNumOfIterations : Z
}.

Definition json_hasNext (g : JsonFakeValueGenerator) : bool :=
  negb (mNumOfIterations g =? 0) && (0 <? length (events g))%nat.

(** [junk]: the value the source returns uninitialised when there is no next
    event. *)
Definition json_nextEvent (junk : VehiclePropValue) (now : Z) (g : JsonFakeValueGenerator)
    : option (VehiclePropValue * JsonFakeValueGenerator) :=
  if negb (json_hasNext g) then Some (junk, g)
  else
    cur ← events g !! index g;
    t ← (if (index g =? 0)%nat then Some now
         else prev ← events g !! (index g - 1)%nat;
              d ← i64 (timestamp cur - timestamp prev); i64 (now + d));
    let i := S (index g) in
    let wrapped := (i =? length (events g))%nat in
    Some (mkValue t (areaId cur) (prop cur) (status cur) (value cur),
          mkJson (if wrapped then 0%nat else i) (events g)
            (if wrapped && (0 <? mNumOfIterations g) then mNumOfIterations g - 1
             else mNumOfIterations g)).

(** ** Diagnostic bytes *)

(** [hidl_vec<uint8_t>]: access is not checked. *)
Definition setBit (bytes : list Z) (idx : nat) : option (list Z) :=
  let mask := wrap_u 8 (Z.shiftl 1 (Z.of_nat (idx mod 8))) in
  b ← arr_get bytes (Z.of_nat (idx / 8));
  arr_set bytes (Z.of_nat (idx / 8)) (wrap_u 8 (Z.lor b mask)).

(** The indices at which the loops set bits. *)
Definition nonzero_ints (l : list Z) : list nat :=
  (fun p => p.1) <$> filter (fun p => p.2 <> 0) (imap pair l).

(** [floatValues[i] != 0.0]: true of a NaN. *)
Definition float_nonzero (x : spec_float) : bool := match x with S754_zero _ => false | _ => true end.

Definition nonzero_floats (l : list spec_float) : list nat :=
  (fun p => p.1) <$> filter (fun p => float_nonzero p.2 = true) (imap pair l).

Definition set_bits (bytes : list Z) (l : list nat) : option (list Z) :=
  foldl (fun acc i => b ← acc; setBit b i) (Some bytes) l.

Definition diagnostic_size `{Obd2Abi} : nat :=
  let byteSize := (LAST_SYSTEM_INT + LAST_SYSTEM_FLOAT + 2)%nat in
  if (byteSize mod 8 =? 0)%nat then (byteSize / 8)%nat else (byteSize / 8 + 1)%nat.

Definition generateDiagnosticBytes `{Obd2Abi} (v : RawValue) : option (list Z) :=
  set_bits (hidl_resize new_byte diagnostic_size [])
    (nonzero_ints (int32Values v) ++
     ((fun i => (i + LAST_SYSTEM_INT + 1)%nat) <$> nonzero_floats (floatValues v))).

Definition json_isDiagnosticProperty (p : Z) : bool :=
  (p =? VP "OBD2_LIVE_FRAME") || (p =? VP "OBD2_FREEZE_FRAME").

End Generators.

(** ** Parsing *)

Section Parsing.
Context `{VehicleAbi, Enumerators, Obd2Abi} {J : Type} `{!JsonCpp J}.

Definition copyJsonArray {A} (as_ : J -> option A) (jsonArray : J) : option (list A) :=
  mapM (fun i => element jsonArray i ≫= as_) (seq 0 (jsize jsonArray)).

Definition copyMixedValueJson (j : J) : option RawValue :=
  ji ← member j "int32Values"; i ← copyJsonArray asInt ji;
  jl ← member j "int64Values"; l ← copyJsonArray asInt64 jl;
  jf ← member j "floatValues"; f ← copyJsonArray asFloat jf;
  js ← member j "stringValue"; s ← asString js;
  Some (mkRaw i f l [] s).

(** The vector is sized first, then written element by element. *)
Definition int32_vec (j : J) : option (list Z) :=
  snd <$> foldl (fun acc it =>
    p ← acc; x ← asInt it; l ← arr_set (snd p) (fst p) x; Some (fst p + 1, l))
    (Some (0, hidl_resize new_int32 (jsize j) [])) (elements j).

(** [Some None]: a type without a representation. *)
Definition parse_value (p : Z) (j : J) : option (option RawValue) :=
  let t := getPropType p in
  if bool_decide (t ∈ [T_BOOLEAN; T_INT32]) then x ← asInt j; Some (Some (ints [x]))
  else if t =? T_INT64 then x ← asInt64 j; Some (Some (longs [x]))
  else if t =? T_FLOAT then x ← asFloat j; Some (Some (floats [x]))
  else if t =? T_STRING then x ← asString j; Some (Some (str x))
  else if t =? T_INT32_VEC then l ← int32_vec j; Some (Some (ints l))
  else if t =? T_MIXED then
    r ← copyMixedValueJson j;
    if json_isDiagnosticProperty p then
      b ← generateDiagnosticBytes r;
      Some (Some (mkRaw (int32Values r) (floatValues r) (int64Values r) b (stringValue r)))
    else Some (Some r)
  else Some None.

(** One event; [Some None]: skipped. *)
Definition parse_event (raw : J) : option (option VehiclePropValue) :=
  if negb (isObject raw) then Some None
  else
    jp ← member raw "prop"; ja ← member raw "areaId"; jv ← member raw "value";
    jt ← member raw "timestamp";
    if jempty jp || jempty ja || jempty jv || jempty jt then Some None
    else
      t ← asInt64 jt; a ← asInt ja; p ← asInt jp;
      r ← parse_value p jv;
      Some (option_map (mkValue t a p 0) r).

(** A file that cannot be opened has no contents. *)
Definition parseFakeValueJson (contents : string) : option (list VehiclePropValue) :=
  match parse contents with
  | None => Some []
  | Some rawEvents =>
      l ← mapM (fun i => element rawEvents i ≫= parse_event) (seq 0 (jsize rawEvents));
      Some (omap id l)
  end.

(** The constructors: from a request, and for the override directory. *)
Definition json_new (request : VehiclePropValue) (contents : string)
    : option JsonFakeValueGenerator :=
  l ← parseFakeValueJson contents;
  Some (mkJson 0 l (match int32Values (value request) with _ :: n :: _ => n | _ => -1 end)).

Definition json_new_file (contents : string) : option JsonFakeValueGenerator :=
  l ← parseFakeValueJson contents;
  Some (mkJson 0 l (wrap_s 32 (Z.of_nat (length l)))).

Definition getAllEvents (g : JsonFakeValueGenerator) : list VehiclePropValue := events g.

End Parsing.

(** ** Lemmas: diagnostic bytes *)

(** [setBit] is the [set] of Obd2SensorStore's mask. *)
Lemma setBit_bitmask_set bytes idx : setBit bytes idx = bitmask_set bytes idx true.
Proof.
  unfold setBit, bitmask_set. cbn zeta. rewrite (wrap_u_id 8); [done|].
  pose proof (Nat.mod_upper_bound idx 8). rewrite shiftl1_pow by lia.
  split; [lia|]. apply Z.pow_lt_mono_r; lia.
Qed.

Lemma set_bits_snoc bytes l i : set_bits bytes (l ++ [i]) = (b ← set_bits bytes l; setBit b i).
Proof. unfold set_bits. by rewrite foldl_app. Qed.

(** Storing sensors sets the bits of the mask one by one, and succeeds for
    sensors the store has. *)
Lemma obd2_run_mask s ops :
  obd2_ok s -> Forall (op_in_range s) ops ->
  exists s', obd2_run s ops = Some s' /\ obd2_ok s' /\
    length (mIntegerSensors s') = length (mIntegerSensors s) /\
    length (mFloatSensors s') = length (mFloatSensors s) /\
    set_bits (mSensorsBitmask s) (op_bit (length (mIntegerSensors s)) <$> ops) =
      Some (mSensorsBitmask s').
Proof.
  intros Hok Hops. induction ops as [|op ops IH] using rev_ind; [by exists s|].
  apply Forall_app in Hops as [Hops [Hop _]%Forall_cons].
  destruct (IH Hops) as (s1 & Hrun & Hok1 & Hi & Hf & Hm).
  destruct (obd2_step_spec s1 op) as (s2 & Hs & Hok2 & Hi2 & Hf2 & _);
    [done|destruct op; cbn [op_in_range]; [rewrite Hi|rewrite Hf]; exact Hop|].
  exists s2. rewrite obd2_run_snoc, Hrun, fmap_app, list_fmap_singleton, set_bits_snoc, Hm.
  cbn [mbind option_bind]. rewrite setBit_bitmask_set.
  split_and!; [done|done|lia|lia|]. rewrite <-Hi. clear -Hs.
  destruct op as [i x|i x]; cbn [obd2_step op_bit] in *; unfold setIntegerSensor, setFloatSensor in Hs.
  - destruct (arr_set _ _ _) as [l|] eqn:Hl; cbn [mbind option_bind] in Hs; [|done].
    destruct (bitmask_set _ _ _); cbn in Hs; [|done]. by simplify_eq.
  - destruct (arr_set _ _ _) as [l|] eqn:Hl; cbn [mbind option_bind] in Hs; [|done].
    destruct (bitmask_set _ _ _); cbn in Hs; [|done]. by simplify_eq.
Qed.

(** The stores of a frame's sensors that are not zero. *)
Definition frame_ops (v : RawValue) : list obd2_op :=
  ((fun i => SetInt i (nth i (int32Values v) 0)) <$> nonzero_ints (int32Values v)) ++
  ((fun i => SetFloat i (nth i (floatValues v) (S754_zero false))) <$> nonzero_floats (floatValues v)).

Lemma nonzero_ints_range l : Forall (fun i => i < length l)%nat (nonzero_ints l).
Proof.
  unfold nonzero_ints. rewrite Forall_fmap. apply Forall_forall. intros [i x] Hin.
  apply list_elem_of_filter in Hin as [_ (j & Hj)%list_elem_of_lookup_1].
  rewrite list_lookup_imap in Hj. destruct (l !! j) eqn:Hl; [|done]. cbn in Hj. simplify_eq.
  cbn. by eapply lookup_lt_Some.
Qed.

Lemma nonzero_floats_range l : Forall (fun i => i < length l)%nat (nonzero_floats l).
Proof.
  unfold nonzero_floats. rewrite Forall_fmap. apply Forall_forall. intros [i x] Hin.
  apply list_elem_of_filter in Hin as [_ (j & Hj)%list_elem_of_lookup_1].
  rewrite list_lookup_imap in Hj. destruct (l !! j) eqn:Hl; [|done]. cbn in Hj. simplify_eq.
  cbn. by eapply lookup_lt_Some.
Qed.

Lemma diagnostic_size_spec `{Obd2Abi} :
  diagnostic_size = ((LAST_SYSTEM_INT + 1 + (LAST_SYSTEM_FLOAT + 1) + 7) / 8)%nat.
Proof.
  unfold diagnostic_size. set (n := (LAST_SYSTEM_INT + LAST_SYSTEM_FLOAT + 2)%nat).
  replace (LAST_SYSTEM_INT + 1 + (LAST_SYSTEM_FLOAT + 1) + 7)%nat with (n + 7)%nat by (unfold n; lia).
  pose proof (Nat.div_mod_eq n 8). pose proof (Nat.div_mod_eq (n + 7) 8).
  pose proof (Nat.mod_upper_bound n 8). pose proof (Nat.mod_upper_bound (n + 7) 8).
  destruct (Nat.eqb_spec (n mod 8) 0); lia.
Qed.

(** ** Theorems *)

(** C28: The diagnostic bytes the JSON generator computes on its own are the
    bitmask Obd2SensorStore keeps: for a frame with the system's sensors, and
    zeroed new vectors, they equal the mask after storing exactly the sensors
    that are not zero. *)
Theorem diagnostic_bytes_equivalence `{VehicleAbi, Obd2Abi} v :
  new_byte = 0 -> length (int32Values v) = (LAST_SYSTEM_INT + 1)%nat ->
  length (floatValues v) = (LAST_SYSTEM_FLOAT + 1)%nat ->
  exists s, obd2_run (obd2_new 0 0) (frame_ops v) = Some s /\
    generateDiagnosticBytes v = Some (mSensorsBitmask s).
Proof.
  intros Hb Hi Hf.
  assert (length (mIntegerSensors (obd2_new 0 0)) = (LAST_SYSTEM_INT + 1)%nat) as Hli
    by (unfold obd2_new; cbn [mIntegerSensors]; rewrite length_replicate; lia).
  assert (length (mFloatSensors (obd2_new 0 0)) = (LAST_SYSTEM_FLOAT + 1)%nat) as Hlf
    by (unfold obd2_new; cbn [mFloatSensors]; rewrite length_replicate; lia).
  destruct (obd2_run_mask (obd2_new 0 0) (frame_ops v)) as (s & Hrun & _ & _ & _ & Hm).
  - apply obd2_new_ok.
  - unfold frame_ops. apply Forall_app. rewrite !Forall_fmap. split.
    + eapply Forall_impl; [apply nonzero_ints_range|]. intros i Hx. cbn beta in Hx. unfold compose, op_in_range. lia.
    + eapply Forall_impl; [apply nonzero_floats_range|]. intros i Hx. cbn beta in Hx. unfold compose, op_in_range. lia.
  - exists s. split; [done|]. rewrite <-Hm, Hli. unfold generateDiagnosticBytes. f_equal.
    + unfold obd2_new, bitmask_resize, hidl_resize. cbn [mSensorsBitmask].
      rewrite take_nil, Hb, diagnostic_size_spec, !length_replicate, Nat.sub_0_r. cbn [app].
      f_equal. f_equal. lia.
    + unfold frame_ops. rewrite fmap_app, <-!list_fmap_compose. f_equal.
      * symmetry. apply list_fmap_id.
      * apply list_fmap_ext. intros _ i _. unfold compose, op_bit. lia.
Qed.

(** *** The events of a JSON file *)

Section JsonRun.
Context (junk : VehiclePropValue) (clock : nat -> Z).

(** [k] calls of [nextEvent], the first at the [n]-th reading of the clock. *)
Fixpoint json_run (k n : nat) (g : JsonFakeValueGenerator)
    : option (list VehiclePropValue * JsonFakeValueGenerator) :=
  match k with
  | O => Some ([], g)
  | S k' =>
      match json_nextEvent junk (clock n) g with
      | Some (v, g1) =>
          match json_run k' (S n) g1 with Some (l, g2) => Some (v :: l, g2) | None => None end
      | None => None
      end
  end.

(** Times far from the limits of [int64_t]. *)
Definition times_bounded (l : list VehiclePropValue) : Prop :=
  Forall (fun e => 0 <= timestamp e < 2 ^ 62) l /\ forall n, 0 <= clock n < 2 ^ 61.

(** The events still to come. *)
Definition remaining (g : JsonFakeValueGenerator) : nat :=
  (Z.to_nat (mNumOfIterations g) * length (events g) - index g)%nat.

(** The event [i] of a file as it is delivered at a time: the first one at once,
    any other as long after that as it was recorded after the one before it. *)
Definition recorded_gap (l : list VehiclePropValue) (i : nat) : option Z :=
  match i with O => Some 0 | S i' => e ← l !! i; prev ← l !! i'; Some (timestamp e - timestamp prev) end.

Definition delivered (l : list VehiclePropValue) (i : nat) (now : Z) : option VehiclePropValue :=
  e ← l !! i; d ← recorded_gap l i; Some (mkValue (now + d) (areaId e) (prop e) (status e) (value e)).

Lemma json_next g now :
  json_hasNext g = true -> (index g < length (events g))%nat ->
  Forall (fun e => 0 <= timestamp e < 2 ^ 62) (events g) -> 0 <= now < 2 ^ 61 ->
  exists v, json_nextEvent junk now g =
    Some (v, mkJson (if (S (index g) =? length (events g))%nat then 0%nat else S (index g)) (events g)
               (if (S (index g) =? length (events g))%nat && (0 <? mNumOfIterations g)
                then mNumOfIterations g - 1 else mNumOfIterations g)) /\
    delivered (events g) (index g) now = Some v.
Proof.
  intros Hn Hi Ht Hnow. unfold json_nextEvent. rewrite Hn. cbn [negb].
  destruct (lookup_lt_is_Some_2 (events g) (index g) Hi) as [e He]. rewrite He.
  cbn [mbind option_bind]. rewrite Forall_lookup in Ht. pose proof (Ht _ _ He).
  unfold delivered, recorded_gap. rewrite He.
  destruct (Nat.eqb_spec (index g) 0) as [H0|H0].
  - cbn [mbind option_bind]. eexists. split; [reflexivity|]. rewrite H0. cbn. by rewrite Z.add_0_r.
  - destruct (lookup_lt_is_Some_2 (events g) (index g - 1)) as [e' He']; [lia|]. rewrite He'.
    pose proof (Ht _ _ He'). cbn [mbind option_bind].
    rewrite !i64_in by (unfold in_s; cbn; lia). cbn [mbind option_bind].
    rewrite i64_in by (unfold in_s; cbn; lia). cbn [mbind option_bind].
    eexists. split; [reflexivity|]. destruct (index g) as [|i]; [done|].
    replace (S i - 1)%nat with i in He' by lia. by rewrite He'.
Qed.

Lemma json_run_spec R : forall n g,
  remaining g = R -> 0 < mNumOfIterations g -> (index g < length (events g))%nat ->
  times_bounded (events g) ->
  (exists l g', json_run R n g = Some (l, g') /\ json_hasNext g' = false /\ length l = R /\
     forall j, (j < R)%nat -> l !! j = delivered (events g) ((index g + j) mod length (events g)) (clock (n + j))) /\
  (forall k l g', (k < R)%nat -> json_run k n g = Some (l, g') -> json_hasNext g' = true).
Proof.
  induction R as [|R IH]; intros n g HR Hn Hi [Ht Hc].
  { unfold remaining in HR. assert (1 <= Z.to_nat (mNumOfIterations g))%nat by lia. nia. }
  assert (json_hasNext g = true) as Hnext.
  { unfold json_hasNext. rewrite (proj2 (Z.eqb_neq _ _)) by lia. cbn [negb andb].
    apply Nat.ltb_lt. lia. }
  destruct (json_next g (clock n) Hnext Hi Ht (Hc n)) as (v & Hv & Hse).
  set (g1 := mkJson _ _ _) in Hv.
  destruct (decide (R = 0%nat)) as [->|HR0].
  { assert (S (index g) = length (events g) /\ mNumOfIterations g = 1) as [Hlast Hone]
      by (unfold remaining in HR; nia).
    split.
    - exists [v], g1. cbn [json_run]. rewrite Hv. split_and!; [done| |done|].
      + unfold json_hasNext, g1. cbn [mNumOfIterations events]. by rewrite Hlast, Nat.eqb_refl, Hone.
      + intros [|j] Hj; [|lia]. rewrite !Nat.add_0_r, Nat.mod_small by done. by rewrite Hse.
    - intros k l g' Hk Hr. assert (k = 0%nat) as -> by lia. cbn in Hr. by simplify_eq. }
  destruct (IH (S n) g1) as [(l & g' & Hr & Hend & Hlen & Hval) Hmore].
  { unfold remaining, g1 in *. cbn [index events mNumOfIterations]. destruct (Nat.eqb_spec (S (index g)) (length (events g)));
      [rewrite (proj2 (Z.ltb_lt _ _) Hn); cbn [andb]|]; [|cbn [andb]; lia].
    replace (Z.to_nat (mNumOfIterations g - 1)) with (Z.to_nat (mNumOfIterations g) - 1)%nat by lia.
    nia. }
  { unfold g1, remaining in *. cbn [index events mNumOfIterations]. destruct (Nat.eqb_spec (S (index g)) (length (events g))); [|done].
    cbn [andb]. rewrite (proj2 (Z.ltb_lt _ _) Hn). assert (mNumOfIterations g <> 1) by (intros Ho; rewrite Ho in HR; cbn in HR; lia).
    lia. }
  { unfold g1. cbn [index events]. destruct (Nat.eqb_spec (S (index g)) (length (events g))); lia. }
  { done. }
  split.
  - exists (v :: l), g'. cbn [json_run length]. rewrite Hv, Hr. split_and!; [done|done|by rewrite Hlen|].
    intros [|j] Hj.
    + rewrite !Nat.add_0_r, Nat.mod_small by done. by rewrite Hse.
    + change ((v :: l) !! S j) with (l !! j). rewrite (Hval j) by lia. replace (S n + j)%nat with (n + S j)%nat by lia.
      unfold g1. cbn [events index]. f_equal.
      destruct (Nat.eqb_spec (S (index g)) (length (events g))) as [Hwrap|]; [|f_equal; lia].
      replace (index g + S j)%nat with (j + 1 * length (events g))%nat by lia.
      rewrite Nat.Div0.mod_add. done.
  - intros [|k] l0 g0 Hk Hr0; cbn [json_run] in Hr0; [by simplify_eq|]. rewrite Hv in Hr0.
    destruct (json_run k (S n) g1) as [[l1 g2]|] eqn:Hr1; [|done]. simplify_eq.
    eapply Hmore; [|exact Hr1]. lia.
Qed.

End JsonRun.

(** C29: A JSON generator asked for a number of iterations ends: it produces the
    events of the file in order, the whole file as often as asked, the first of the
    file at the time it is asked for and each other as long after the time it is
    asked for as it was recorded after the one before it, without overflow while the times are not
    extreme; before that it always has a next event, and afterwards it has none. *)
Theorem json_generator_terminates junk clock events0 n :
  0 < n -> events0 <> [] -> times_bounded clock events0 ->
  let total := (Z.to_nat n * length events0)%nat in
  let g := mkJson 0 events0 n in
  (exists l g', json_run junk clock total 0 g = Some (l, g') /\ json_hasNext g' = false /\
     length l = total /\
     forall j, (j < total)%nat -> l !! j = delivered events0 (j mod length events0) (clock j)) /\
  (forall k l g', (k < total)%nat -> json_run junk clock k 0 g = Some (l, g') ->
     json_hasNext g' = true).
Proof.
  intros Hn Hne Ht total g.
  apply (json_run_spec junk clock total 0 g); [unfold remaining; cbn; lia|done| |done].
  cbn. destruct events0; [done|cbn; lia].
Qed.

(** *** The types of generated values *)

(** A value of a property's type: the vector of the type alone is filled,
    with one element for a scalar. *)
Definition typed `{VehicleAbi} (p : Z) (r : RawValue) : Prop :=
  let t := getPropType p in
  t = T_MIXED \/ (t = T_STRING /\ r = str (stringValue r)) \/
  (t ∈ [T_BOOLEAN; T_INT32; T_INT64; T_FLOAT] /\ shape t 1 r) \/
  (t = T_INT32_VEC /\ shape t (length (int32Values r)) r).

Section Typed.
Context `{VehicleAbiLaws}.

Lemma shape_ints t l : is_int32_type t = true -> shape t (length l) (ints l).
Proof.
  intros Ht. destruct (type_families t) as ((Hf & Hl & Hb) & _ & _); [done|].
  unfold shape. rewrite Ht, Hf, Hl, bool_decide_eq_false_2 by congruence. done.
Qed.

Lemma shape_floats t l : is_float_type t = true -> shape t (length l) (floats l).
Proof.
  intros Ht. destruct (type_families t) as (Hi & (Hl & Hb) & _); [done|].
  unfold shape. rewrite Ht, Hl, bool_decide_eq_false_2 by congruence.
  destruct (is_int32_type t); [|done]. destruct Hi as (? & _); [done|congruence].
Qed.

Lemma shape_longs t l : is_int64_type t = true -> shape t (length l) (longs l).
Proof.
  intros Ht. destruct (type_families t) as (Hi & Hf & Hb).
  unfold shape. rewrite Ht, bool_decide_eq_false_2 by (intros ?; by apply Hb).
  destruct (is_int32_type t); [destruct Hi as (_ & ? & _); [done|congruence]|].
  destruct (is_float_type t); [destruct Hf; [done|congruence]|]. done.
Qed.

Lemma scalar_families :
  is_int32_type T_INT32 = true /\ is_int32_type T_BOOLEAN = true /\ is_int32_type T_INT32_VEC = true /\
  is_int64_type T_INT64 = true /\ is_float_type T_FLOAT = true.
Proof.
  unfold is_int32_type, is_int64_type, is_float_type.
  split_and!; apply bool_decide_eq_true_2; rewrite !elem_of_cons; auto.
Qed.

Context `{Enumerators, Obd2Abi} {J : Type} `{!JsonCpp J}.

Lemma parse_value_typed p j r : parse_value p j = Some (Some r) -> typed p r.
Proof.
  destruct scalar_families as (Hi & Hb & Hv & Hl & Hf). unfold parse_value, typed; cbn zeta.
  set (t := getPropType p). clearbody t. intros Hr.
  destruct (bool_decide_reflect (t ∈ [T_BOOLEAN; T_INT32])) as [Ht|Hn0].
  { destruct (asInt j) as [x|]; cbn in Hr; simplify_eq. right. right. left.
    rewrite !elem_of_cons, elem_of_nil in *.
    split; [tauto|]. apply (shape_ints t [x]). by destruct Ht as [->|[->|[]]]. }
  destruct (Z.eqb_spec t T_INT64) as [Ht|Hn1].
  { rewrite Ht. destruct (asInt64 j) as [x|]; cbn in Hr; simplify_eq. right. right. left.
    split; [rewrite !elem_of_cons; auto|]. by apply (shape_longs _ [x]). }
  destruct (Z.eqb_spec t T_FLOAT) as [Ht|Hn2].
  { rewrite Ht. destruct (asFloat j) as [x|]; cbn in Hr; simplify_eq. right. right. left.
    split; [rewrite !elem_of_cons; auto|]. by apply (shape_floats _ [x]). }
  destruct (Z.eqb_spec t T_STRING) as [Ht|Hn3].
  { rewrite Ht. destruct (asString j) as [x|]; cbn in Hr; simplify_eq. right. by left. }
  destruct (Z.eqb_spec t T_INT32_VEC) as [Ht|Hn4].
  { rewrite Ht. destruct (int32_vec j) as [l|]; cbn in Hr; simplify_eq. do 3 right.
    split; [done|]. by apply shape_ints. }
  destruct (Z.eqb_spec t T_MIXED) as [Ht|Hn5]; [by left|done].
Qed.

Lemma parse_event_typed raw v : parse_event raw = Some (Some v) -> typed (prop v) (value v).
Proof.
  unfold parse_event. intros Hv. destruct (negb _); [done|].
  apply bind_Some in Hv as (jp & _ & Hv). apply bind_Some in Hv as (ja & _ & Hv).
  apply bind_Some in Hv as (jv & _ & Hv). apply bind_Some in Hv as (jt & _ & Hv).
  destruct (_ || _); [done|].
  apply bind_Some in Hv as (t & _ & Hv). apply bind_Some in Hv as (a & _ & Hv).
  apply bind_Some in Hv as (p & _ & Hv). apply bind_Some in Hv as ([r|] & Hr & Hv); [|done].
  injection Hv as <-. cbn. by eapply parse_value_typed.
Qed.

(** C30: Every event read from a JSON file, and every event of a linear generator
    of an INT32, INT64 or FLOAT property, has exactly the contents its property's
    type calls for; a linear generator of another type sends events without
    contents. *)
Theorem generated_values_typed contents l :
  parseFakeValueJson contents = Some l ->
  Forall (fun v => typed (prop v) (value v)) l /\
  forall now (g g' : LinearFakeValueGenerator) v, nextEvent now g = Some (v, g') ->
    prop v = propId g /\
    if bool_decide (getPropType (propId g) ∈ [T_INT32; T_INT64; T_FLOAT])
    then typed (prop v) (value v) else value v = empty_raw.
Proof.
  intros Hl. split.
  - unfold parseFakeValueJson in Hl. destruct (parse contents) as [raw|]; [|by simplify_eq].
    destruct (mapM _ _) as [l0|] eqn:Hm; cbn in Hl; [|done]. simplify_eq.
    apply mapM_Some in Hm. apply Forall_forall. intros v Hv.
    apply list_elem_of_omap in Hv as (x & Hx & Hid). cbn in Hid. subst x.
    apply list_elem_of_lookup_1 in Hx as [i Hx].
    destruct (Forall2_lookup_r _ _ _ _ _ Hm Hx) as (k & _ & Hk). cbn in Hk.
    destruct (element raw k); cbn in Hk; [|done]. by eapply parse_event_typed.
  - intros now g g' v Hv. cbn [nextEvent linear_generator] in Hv. unfold linear_nextEvent in Hv.
    destruct (linear_raw _ _) as [r|] eqn:Hr; cbn [mbind option_bind] in Hv; [|done].
    destruct (i64 _); cbn in Hv; [|done]. simplify_eq. cbn. split; [done|].
    destruct scalar_families as (Hi & _ & _ & Hlo & Hf). unfold linear_raw, typed in *; cbn zeta in *.
    set (t := getPropType (propId g)) in *. clearbody t.
    destruct (Z.eqb_spec t T_INT32) as [Ht|Hn1].
    { rewrite Ht, bool_decide_eq_true_2 by (rewrite !elem_of_cons; auto).
      destruct (float_to_int _ _) as [x|]; cbn in Hr; simplify_eq. right. right. left.
      split; [rewrite !elem_of_cons; auto|]. by apply (shape_ints _ [x]). }
    destruct (Z.eqb_spec t T_INT64) as [Ht|Hn2].
    { rewrite Ht, bool_decide_eq_true_2 by (rewrite !elem_of_cons; auto).
      destruct (float_to_int _ _) as [x|]; cbn in Hr; simplify_eq. right. right. left.
      split; [rewrite !elem_of_cons; auto|]. by apply (shape_longs _ [x]). }
    destruct (Z.eqb_spec t T_FLOAT) as [Ht|Hn3].
    { rewrite Ht, bool_decide_eq_true_2 by (rewrite !elem_of_cons; auto). simplify_eq. right. right. left.
      split; [rewrite !elem_of_cons; auto|]. by apply (shape_floats _ [_]). }
    rewrite bool_decide_eq_false_2 by (rewrite !elem_of_cons, elem_of_nil; tauto). by simplify_eq.
Qed.

End Typed.

(** ** What goes wrong *)

Lemma setBit_length bytes i b : setBit bytes i = Some b -> length b = length bytes.
Proof.
  unfold setBit. intros Hs. destruct (arr_get _ _) as [x|]; cbn [mbind option_bind] in Hs; [|done].
  by eapply arr_set_length.
Qed.

Lemma set_bits_length bytes l : forall b, set_bits bytes l = Some b -> length b = length bytes.
Proof.
  induction l as [|k l IH] using rev_ind; intros b Hs; [by cbn in Hs; simplify_eq|].
  rewrite set_bits_snoc in Hs. destruct (set_bits bytes l) as [b1|]; cbn in Hs; [|done].
  by rewrite (setBit_length _ _ _ Hs), (IH b1).
Qed.

Lemma set_bits_overrun l bytes i :
  i ∈ l -> (8 * length bytes <= i)%nat -> set_bits bytes l = None.
Proof.
  induction l as [|j l IH] using rev_ind; intros Hi Hb; [by apply not_elem_of_nil in Hi|].
  rewrite set_bits_snoc. destruct (set_bits bytes l) as [b|] eqn:Hs; [|done]. cbn [mbind option_bind].
  apply elem_of_app in Hi as [Hi| ->%list_elem_of_singleton]; [specialize (IH Hi Hb); congruence|].
  apply set_bits_length in Hs as Hl.
  unfold setBit. destruct (arr_get b (Z.of_nat (j / 8))) eqn:Hg; [|done].
  assert (is_Some (arr_get b (Z.of_nat (j / 8)))) as Hin%arr_get_is_Some by eauto.
  pose proof (Nat.div_mod_eq j 8). pose proof (Nat.mod_upper_bound j 8). lia.
Qed.

(** A file whose frame has a non-zero integer sensor beyond the system's makes
    the parser write outside the vector: the sizes of the arrays are the
    file's. *)
Lemma diagnostic_bytes_overrun `{VehicleAbi, Obd2Abi} v i x :
  int32Values v !! i = Some x -> x <> 0 -> (8 * diagnostic_size <= i)%nat ->
  generateDiagnosticBytes v = None.
Proof.
  intros Hi Hx Hb. unfold generateDiagnosticBytes. apply (set_bits_overrun _ _ i).
  - apply elem_of_app. left. unfold nonzero_ints. apply list_elem_of_fmap. exists (i, x).
    split; [done|]. apply list_elem_of_filter. split; [done|]. apply list_elem_of_lookup. exists i.
    by rewrite list_lookup_imap, Hi.
  - by rewrite length_hidl_resize.
Qed.

(** "Should be in range (initialValue +/- dispersion)": a negative increment
    leaves the range, only the upper bound is tested. *)
Example linear_leaves_range :
  let g := mkLinear 0 (f32 5) (f32 5) (f32 2) (f32 (-4)) 1 in
  SFltb (linear_step g) (Binary32.sub (initialValue g) (dispersion g)) = true.
Proof. reflexivity. Qed.

(** ** Witnesses *)

Lemma diagnostic_bytes_equivalence_witness :
  exists s, @generateDiagnosticBytes aosp_abi demo_obd2_abi
    (mkRaw (0 :: 7 :: replicate 30 0) (f32 1 :: replicate 70 (f32 0)) [] [] EmptyString) =
    Some (mSensorsBitmask s) /\ head (mSensorsBitmask s) = Some 2.
Proof.
  destruct (@diagnostic_bytes_equivalence aosp_abi demo_obd2_abi
    (mkRaw (0 :: 7 :: replicate 30 0) (f32 1 :: replicate 70 (f32 0)) [] [] EmptyString))
    as (s & Hrun & Hb); [reflexivity..|].
  exists s. split; [exact Hb|]. vm_compute in Hrun. injection Hrun as <-. reflexivity.
Defined.

Definition demo_events : list VehiclePropValue :=
  [mkValue 10 0 3 0 (ints [1]); mkValue 25 0 3 0 (ints [2])].

(** Always asked at 100, the generator delivers at 100, 115, 100, ... *)
Lemma json_generator_terminates_witness :
  exists l g', json_run kEmptyValue (fun _ => 100) 6 0 (mkJson 0 demo_events 3) = Some (l, g') /\
    json_hasNext g' = false /\ length l = 6%nat /\ l !! 2%nat = Some (mkValue 100 0 3 0 (ints [1])) /\
    l !! 5%nat = Some (mkValue 115 0 3 0 (ints [2])).
Proof.
  destruct (json_generator_terminates kEmptyValue (fun _ => 100) demo_events 3) as [(l & g' & Hr & Hn & Hl & Hv) _].
  - reflexivity.
  - discriminate.
  - split; [repeat constructor; vm_compute; discriminate|]. intros n. cbn. lia.
  - exists l, g'. split; [exact Hr|]. split; [exact Hn|]. split; [exact Hl|].
    split; [exact (Hv 2%nat ltac:(vm_compute; lia))|exact (Hv 5%nat ltac:(vm_compute; lia))].
Defined.

Definition demo_event_json (p v : Z) : demo_json :=
  DObj [("prop", DNum p); ("areaId", DNum 0); ("value", DNum v); ("timestamp", DNum 4)].

Definition demo_reader (s : string) : option demo_json :=
  if String.eqb s "file" then Some (DArr [demo_event_json 0x00400001 9]) else None.

Lemma generated_values_typed_witness :
  exists v, @parseFakeValueJson aosp_abi (fun _ => 0) demo_obd2_abi demo_json (demo_jsoncpp demo_reader) "file" =
    Some [v] /\ @typed aosp_abi (prop v) (value v) /\ value v = ints [9].
Proof.
  destruct (@generated_values_typed aosp_abi aosp_abi_laws (fun _ => 0) demo_obd2_abi demo_json
    (demo_jsoncpp demo_reader) "file" [mkValue 4 0 0x00400001 0 (ints [9])]) as [Hl _].
  - vm_compute. reflexivity.
  - exists (mkValue 4 0 0x00400001 0 (ints [9])). split; [vm_compute; reflexivity|].
    split; [exact (Forall_inv Hl)|reflexivity].
Defined.
