(* ===== verification/GeneratorHub.v ===== *)
(** * vehicle/impl/vhal_v2_0/GeneratorHub.cpp

    The scheduler of the fake event generators: one thread that delivers the
    earliest queued event when its time has come and asks its generator for the
    next.  It is written against the interface [FakeValueGenerator].

    [std::priority_queue] is a heap in a vector: [top] is some event that no
    other precedes, the order of equal times is unspecified, and the reference
    [top] returns is the first cell of the vector.  The steps are the code
    between two points where the lock is free: the iteration up to a wait, and
    the calls of other threads.  A [push] may move the vector, after which a
    reference taken before is dangling; a condition variable may wake by itself,
    and a [wait_until] that timed out may get the lock after others. *)

From S2P Require Import Prelude VehicleTypes RecurrentTimer Generators.

(** ** State *)

Record VhalEvent := mkVhal { ev_cookie : Z; ev_val : VehiclePropValue }.

Definition ev_time (e : VhalEvent) : Z := timestamp (ev_val e).

Inductive hub_pc :=
  | HLoop                                   (* before taking the lock *)
  | HWaitEvent                              (* in mCond.wait: the queue is empty *)
  | HSleep (deadline : Z) (dangling : bool) (* in mCond.wait_until *)
  | HUndefined.

Record GeneratorHub (G : Type) := mkHub {
  hub_now : Z;
  mEventQueue : list VhalEvent;
  mGenerators : gmap Z G;
  hub_thread : hub_pc;
  delivered : list (Z * VehiclePropValue)
}.
Arguments mkHub {G}.
Arguments hub_now {G}.
Arguments mEventQueue {G}.
Arguments mGenerators {G}.
Arguments hub_thread {G}.
Arguments delivered {G}.

Definition hub_new {G} (t : Z) : GeneratorHub G := mkHub t [] ∅ HLoop [].

(** [top] and [pop] of the queue, as a bag. *)
Definition top (q : list VhalEvent) (e : VhalEvent) (rest : list VhalEvent) : Prop :=
  q ≡ₚ e :: rest /\ Forall (fun x => ev_time e <= ev_time x) rest.

Section Hub.
Context {G : Type} `{!FakeValueGenerator G}.

Local Abbreviation hub := (GeneratorHub G).

(** The inner loop: events whose generator is gone are popped until the top
    has one. *)
Inductive pops (gens : gmap Z G) : list VhalEvent -> list VhalEvent -> Prop :=
  | PEmpty : pops gens [] []
  | PAlive q e rest : top q e rest -> is_Some (gens !! ev_cookie e) -> pops gens q q
  | PDead q e rest q' :
      top q e rest -> gens !! ev_cookie e = None -> pops gens rest q' -> pops gens q q'.

(** ** Operations of other threads *)

(** A push while the thread sleeps may invalidate its reference. *)
Definition after_push (moved : bool) (p : hub_pc) : hub_pc :=
  match p with HSleep d dangling => HSleep d (dangling || moved) | _ => p end.

(** [None]: the generator's [nextEvent] is undefined. *)
Definition registerGenerator (moved : bool) (s : hub) (cookie : Z) (g : G) : option hub :=
  if hasNext g then
    match mGenerators s !! cookie with
    | None =>
        '(v, g') ← nextEvent (hub_now s) g;
        Some (mkHub (hub_now s) (mkVhal cookie v :: mEventQueue s) (<[cookie := g']> (mGenerators s))
                (after_push moved (hub_thread s)) (delivered s))
    | Some _ =>
        Some (mkHub (hub_now s) (mEventQueue s) (<[cookie := g]> (mGenerators s)) (hub_thread s)
                (delivered s))
    end
  else Some s.

Definition unregisterGenerator (s : hub) (cookie : Z) : hub :=
  mkHub (hub_now s) (mEventQueue s) (delete cookie (mGenerators s)) (hub_thread s) (delivered s).

(** ** The thread *)

Definition hub_hasNext (s : hub) (cookie : Z) : bool :=
  match mGenerators s !! cookie with Some g => hasNext g | None => false end.

(** The current event is handled: delivered, popped ([rest]) and replaced. *)
Definition fire (s : hub) (e : VhalEvent) (rest : list VhalEvent) : option hub :=
  let out := delivered s ++ [(hub_now s, ev_val e)] in
  match mGenerators s !! ev_cookie e with
  | Some g =>
      if hasNext g then
        '(v, g') ← nextEvent (hub_now s) g;
        Some (mkHub (hub_now s) (mkVhal (ev_cookie e) v :: rest)
                (<[ev_cookie e := g']> (mGenerators s)) HLoop out)
      else Some (mkHub (hub_now s) rest (delete (ev_cookie e) (mGenerators s)) HLoop out)
  | None => Some (mkHub (hub_now s) rest (delete (ev_cookie e) (mGenerators s)) HLoop out)
  end.

Definition set_thread (s : hub) (q : list VhalEvent) (p : hub_pc) : hub :=
  mkHub (hub_now s) q (mGenerators s) p (delivered s).

Inductive label := LTick | LRegister (cookie : Z) | LUnregister (cookie : Z) | LThread.

Inductive hub_step : hub -> label -> hub -> Prop :=
  | HTick s t : hub_now s <= t ->
      hub_step s LTick (mkHub t (mEventQueue s) (mGenerators s) (hub_thread s) (delivered s))
  | HRegister moved s c g s' : registerGenerator moved s c g = Some s' -> hub_step s (LRegister c) s'
  | HUnregister s c : hub_step s (LUnregister c) (unregisterGenerator s c)
  | HEmpty s : hub_thread s = HLoop -> pops (mGenerators s) (mEventQueue s) [] ->
      hub_step s LThread (set_thread s [] HWaitEvent)
  | HNext s q e rest : hub_thread s = HLoop -> pops (mGenerators s) (mEventQueue s) q ->
      top q e rest -> hub_step s LThread (set_thread s q (HSleep (ev_time e) false))
  | HArrived s e rest : hub_thread s = HWaitEvent -> top (mEventQueue s) e rest ->
      hub_step s LThread (set_thread s (mEventQueue s) (HSleep (ev_time e) false))
  | HWake s d b : hub_thread s = HSleep d b -> hub_step s LThread (set_thread s (mEventQueue s) HLoop)
  | HFire s d e rest s' : hub_thread s = HSleep d false -> d <= hub_now s ->
      top (mEventQueue s) e rest -> fire s e rest = Some s' -> hub_step s LThread s'
  | HFireUndefined s d e rest : hub_thread s = HSleep d false -> d <= hub_now s ->
      top (mEventQueue s) e rest -> fire s e rest = None ->
      hub_step s LThread (set_thread s (mEventQueue s) HUndefined)
  | HDangling s d : hub_thread s = HSleep d true -> d <= hub_now s ->
      hub_step s LThread (set_thread s (mEventQueue s) HUndefined).

Definition hub_any (s s' : hub) : Prop := exists l, hub_step s l s'.

(** ** Invariant *)

Definition queued (q : list VhalEvent) (c : Z) : Prop := exists e, e ∈ q /\ ev_cookie e = c.

Record hub_ok (s : hub) : Prop := {
  hub_gens : forall c, is_Some (mGenerators s !! c) -> queued (mEventQueue s) c;
  hub_due : Forall (fun p => timestamp p.2 <= p.1) (delivered s);
  hub_sleep : forall d b, hub_thread s = HSleep d b -> exists e, e ∈ mEventQueue s /\ ev_time e <= d
}.

(** ** Lemmas *)

Lemma top_elem q e rest x : top q e rest -> x ∈ q <-> x = e \/ x ∈ rest.
Proof. intros [Hp _]. by rewrite Hp, elem_of_cons. Qed.

Lemma top_min q e rest x : top q e rest -> x ∈ q -> ev_time e <= ev_time x.
Proof.
  intros Ht Hx. apply (top_elem _ _ _ x Ht) in Hx as [->|Hx]; [lia|].
  destruct Ht as [_ Hf]. rewrite Forall_forall in Hf. by apply Hf.
Qed.

(** A queue that is not empty has a top. *)
Lemma top_exists q : q <> [] -> exists e rest, top q e rest.
Proof.
  induction q as [|x q IH]; [done|]. intros _. destruct q as [|y q].
  { exists x, []. split; [done|constructor]. }
  destruct IH as (e & rest & Ht); [done|]. pose proof Ht as [Hp Hf].
  destruct (Z.le_ge_cases (ev_time x) (ev_time e)) as [Hle|Hge].
  - exists x, (y :: q). split; [done|]. apply Forall_forall. intros z Hz.
    pose proof (top_min _ _ _ z Ht Hz). lia.
  - exists e, (x :: rest). split; [rewrite Hp; apply Permutation_swap|]. by constructor.
Qed.

Lemma top_length q e rest : top q e rest -> length q = S (length rest).
Proof. intros [Hp _]. by rewrite Hp. Qed.

(** What the inner loop leaves: everything whose generator exists. *)
Lemma pops_alive gens q q' :
  pops gens q q' ->
  (forall e, e ∈ q' -> e ∈ q) /\ (forall e, e ∈ q -> is_Some (gens !! ev_cookie e) -> e ∈ q').
Proof.
  induction 1 as [|q e rest Ht Ha|q e rest q' Ht Hd Hp [IH1 IH2]]; [done|done|].
  split.
  - intros x Hx. apply (top_elem _ _ _ x Ht). auto.
  - intros x [->|Hx]%(top_elem _ _ _ x Ht) Hs; [by rewrite Hd in Hs; destruct Hs|auto].
Qed.

Lemma queued_cons q e c : queued q c -> queued (e :: q) c.
Proof. intros (x & Hx & Hc). exists x. by rewrite elem_of_cons; auto. Qed.

Lemma fire_due s d e rest :
  hub_ok s -> hub_thread s = HSleep d false -> d <= hub_now s -> top (mEventQueue s) e rest ->
  ev_time e <= hub_now s.
Proof.
  intros Hok Hp Hd Ht. destruct (hub_sleep _ Hok d false Hp) as (x & Hx & Hle).
  pose proof (top_min _ _ _ x Ht Hx). lia.
Qed.

Lemma hub_step_ok s l s' : hub_step s l s' -> hub_ok s -> hub_ok s'.
Proof.
  intros Hstep Hok. pose proof Hok as [Hg Hd Hs].
  destruct Hstep as [s t Ht|moved s c g s' Hr|s c|s Hp Hq|s q e rest Hp Hq Ht|s e rest Hp Ht|s d b Hp
    |s d e rest s' Hp Hle Ht Hf|s d e rest Hp Hle Ht Hf|s d Hp Hle].
  - by split.
  - unfold registerGenerator in Hr. destruct (hasNext g); [|by simplify_eq].
    destruct (mGenerators s !! c) as [g0|] eqn:Hc.
    + simplify_eq. split; cbn; [|done|done]. intros c' Hc'. apply Hg.
      rewrite lookup_insert in Hc'. case_decide; [subst; eauto|done].
    + destruct (nextEvent (hub_now s) g) as [[v g']|]; cbn in Hr; [|done]. simplify_eq.
      split; cbn; [|done|].
      * intros c'. rewrite lookup_insert. case_decide as Hcc; intros Hc'.
        -- subst. exists (mkVhal c' v). split; [apply list_elem_of_here|done].
        -- by apply queued_cons, Hg.
      * intros d b. destruct (hub_thread s) as [| |d0 b0|] eqn:Hp; cbn; try done.
        intros [= <- <-]. destruct (Hs d0 b0 eq_refl) as (x & Hx & Hle).
        exists x. split; [by apply list_elem_of_further|done].
  - split; cbn; [|done|done]. intros c' Hc'. apply Hg. rewrite lookup_delete in Hc'.
    case_decide; [by destruct Hc'|done].
  - split; cbn; [|done|done]. intros c Hc. destruct (Hg c Hc) as (x & Hx & Hxc). exfalso.
    apply (not_elem_of_nil x). apply (proj2 (pops_alive _ _ _ Hq) x Hx). by rewrite Hxc.
  - split; cbn; [|done|].
    + intros c Hc. destruct (Hg c Hc) as (x & Hx & <-). exists x.
      split; [|done]. by apply (proj2 (pops_alive _ _ _ Hq)).
    + intros d b [= <- <-]. exists e. split; [|lia]. apply (top_elem _ _ _ _ Ht). by left.
  - split; cbn; [done|done|]. intros d b [= <- <-]. exists e. split; [|lia].
    apply (top_elem _ _ _ _ Ht). by left.
  - by split.
  - pose proof (fire_due _ _ _ _ Hok Hp Hle Ht) as Hdue. unfold fire in Hf.
    assert (forall gens : gmap Z G, (forall c, is_Some (gens !! c) -> is_Some (mGenerators s !! c)) ->
      gens !! ev_cookie e = None -> forall c, is_Some (gens !! c) -> queued rest c) as Hrest.
    { intros gens Hsub Hn c Hc. destruct (Hg c (Hsub c Hc)) as (x & Hx & <-).
      apply (top_elem _ _ _ x Ht) in Hx as [->|Hx]; [by rewrite Hn in Hc; destruct Hc|by exists x]. }
    assert (forall c, is_Some (delete (ev_cookie e) (mGenerators s) !! c) -> queued rest c) as Hdel.
    { apply Hrest; [|by rewrite lookup_delete_eq]. intros c. rewrite lookup_delete.
      case_decide; [by intros []|done]. }
    destruct (mGenerators s !! ev_cookie e) as [g|] eqn:Hge; [destruct (hasNext g)|].
    + destruct (nextEvent (hub_now s) g) as [[v g']|]; cbn in Hf; [|done]. simplify_eq.
      split; cbn; [|apply Forall_app; split; [done|by repeat constructor]|done].
      intros c. rewrite lookup_insert. case_decide as Hc.
      * intros _. exists (mkVhal (ev_cookie e) v). split; [apply list_elem_of_here|done].
      * intros Hs'. apply queued_cons, Hdel. by rewrite lookup_delete_ne.
    + simplify_eq. split; cbn; [done|apply Forall_app; split; [done|by repeat constructor]|done].
    + simplify_eq. split; cbn; [done|apply Forall_app; split; [done|by repeat constructor]|done].
  - by split.
  - by split.
Qed.

(** ** Theorems *)

(** A step delivers nothing, or the soonest of the events that are queued,
    which is due and leaves the queue; the others stay. *)
Lemma step_delivers_soonest s l s' : hub_ok s -> hub_step s l s' ->
  delivered s' = delivered s \/
  exists e rest, mEventQueue s ≡ₚ e :: rest /\ (forall x, x ∈ rest -> ev_time e <= ev_time x) /\ ev_time e <= hub_now s /\
    delivered s' = delivered s ++ [(hub_now s, ev_val e)] /\ forall x, x ∈ rest -> x ∈ mEventQueue s'.
Proof.
  intros Hok Hstep. destruct Hstep as [s t Ht|moved s c g s' Hr|s c|s Hp Hq|s q e rest Hp Hq Ht|s e rest Hp Ht|s d b Hp
    |s d e rest s' Hp Hle Ht Hf|s d e rest Hp Hle Ht Hf|s d Hp Hle]; try by left.
  - left. unfold registerGenerator in Hr. destruct (hasNext g); [|by simplify_eq].
    destruct (mGenerators s !! c); [by simplify_eq|]. destruct (nextEvent (hub_now s) g) as [[v g']|]; cbn in Hr; by simplify_eq.
  - right. exists e, rest. pose proof (fire_due _ _ _ _ Hok Hp Hle Ht) as Hdue. destruct Ht as [Hperm Hmin]. rewrite Forall_forall in Hmin.
    split; [done|]. split; [done|]. split; [done|]. unfold fire in Hf. destruct (mGenerators s !! ev_cookie e) as [g|]; [destruct (hasNext g)|].
    + destruct (nextEvent (hub_now s) g) as [[v g']|]; cbn in Hf; [|done]. simplify_eq. split; [done|]. intros x Hx. by right.
    + by simplify_eq.
    + by simplify_eq.
Qed.

(** C8: In every reachable state of the hub, under any interleaving of its thread
    with registrations and with any generators: no event was delivered before
    its time; every registered generator has an event in the queue, so none
    is forgotten; and the next step delivers nothing or the soonest of the
    queued events, which leaves the queue. *)
Theorem hub_reachable_ok t s :
  rtc hub_any (hub_new t) s ->
  Forall (fun p => timestamp p.2 <= p.1) (delivered s) /\
  (forall c, is_Some (mGenerators s !! c) -> exists e, e ∈ mEventQueue s /\ ev_cookie e = c) /\
  forall l s', hub_step s l s' ->
    delivered s' = delivered s \/
    exists e rest, mEventQueue s ≡ₚ e :: rest /\ (forall x, x ∈ rest -> ev_time e <= ev_time x) /\ ev_time e <= hub_now s /\
      delivered s' = delivered s ++ [(hub_now s, ev_val e)] /\ forall x, x ∈ rest -> x ∈ mEventQueue s'.
Proof.
  intros Hr. assert (hub_ok s) as Hok.
  { eapply (rtc_invariant _ hub_ok); [|exact Hr|].
    - intros ? ? [l Hl]. by eapply hub_step_ok.
    - split; cbn; [|constructor|done]. intros c [g Hg]. by rewrite lookup_empty in Hg. }
  split; [apply Hok|]. split; [apply Hok|]. intros l s'. by apply step_delivers_soonest.
Qed.

(** The loop that drops the events of generators that are gone ends, for
    every queue, and keeps exactly the events whose generators exist until the
    first of them is on top. *)
Lemma hub_cleanup_terminates (gens : gmap Z G) q :
  exists q', pops gens q q' /\
    (forall e, e ∈ q' -> e ∈ q) /\ (forall e, e ∈ q -> is_Some (gens !! ev_cookie e) -> e ∈ q') /\
    (q' = [] \/ exists e rest, top q' e rest /\ is_Some (gens !! ev_cookie e)).
Proof.
  assert (exists q', pops gens q q' /\
    (q' = [] \/ exists e rest, top q' e rest /\ is_Some (gens !! ev_cookie e))) as (q' & Hp & Hend).
  { remember (length q) as n eqn:Hn. revert q Hn. induction n as [|n IH]; intros q Hn.
    - destruct q; [|done]. exists []. split; [constructor|by left].
    - destruct (top_exists q) as (e & rest & Ht); [by intros ->|].
      destruct (gens !! ev_cookie e) as [g|] eqn:Hg.
      + exists q. split; [eapply PAlive; eauto|]. right. eauto.
      + destruct (IH rest) as (q' & Hp & Hend); [rewrite (top_length _ _ _ Ht) in Hn; lia|].
        exists q'. split; [by eapply PDead|done]. }
  exists q'. destruct (pops_alive _ _ _ Hp). done.
Qed.

(** *** Registering again *)

Definition count (c : Z) (q : list VhalEvent) : nat := length (filter (fun e => ev_cookie e = c) q).

#[local] Arguments count : simpl never.

Lemma count_perm c q q' : q ≡ₚ q' -> count c q = count c q'.
Proof. intros Hp. unfold count. by rewrite Hp. Qed.

Lemma count_cons c e q : count c (e :: q) = ((if decide (ev_cookie e = c) then 1 else 0) + count c q)%nat.
Proof. unfold count. rewrite filter_cons. by case_decide. Qed.

Lemma pops_count gens q q' c :
  pops gens q q' -> is_Some (gens !! c) -> count c q' = count c q.
Proof.
  intros Hp Hc. induction Hp as [|q e rest Ht Ha|q e rest q' Ht Hd Hp IH]; [done|done|].
  rewrite IH, (count_perm c q (e :: rest)) by apply Ht. rewrite count_cons, decide_False; [done|].
  intros Heq. rewrite Heq in Hd. rewrite Hd in Hc. by destruct Hc.
Qed.

(** Generators that never end. *)
Definition endless (s : hub) : Prop := map_Forall (fun _ g => hasNext g = true) (mGenerators s).

(** While a generator stays registered and has a next event, the number of
    its queued events does not change. *)
Lemma count_step s l s' c :
  hub_step s l s' -> l <> LUnregister c -> endless s -> is_Some (mGenerators s !! c) ->
  is_Some (mGenerators s' !! c) /\ count c (mEventQueue s') = count c (mEventQueue s).
Proof.
  intros Hstep Hl He Hc.
  destruct Hstep as [s t Ht|moved s c' g s' Hr|s c'|s Hp Hq|s q e rest Hp Hq Ht|s e rest Hp Ht|s d b Hp
    |s d e rest s' Hp Hle Ht Hf|s d e rest Hp Hle Ht Hf|s d Hp Hle]; try done.
  - unfold registerGenerator in Hr. destruct (hasNext g); [|by simplify_eq].
    destruct (mGenerators s !! c') as [g0|] eqn:Hc'.
    + simplify_eq. cbn. split; [|done]. rewrite lookup_insert. case_decide; [eauto|done].
    + destruct (nextEvent (hub_now s) g) as [[v g']|]; cbn in Hr; [|done]. simplify_eq. cbn.
      rewrite count_cons. cbn.
      assert (c' <> c) by (intros ->; rewrite Hc' in Hc; by destruct Hc).
      rewrite lookup_insert_ne, decide_False by done. done.
  - cbn. split; [|done]. rewrite lookup_delete_ne; [done|]. intros ->. by apply Hl.
  - cbn. split; [done|]. symmetry. by rewrite <-(pops_count _ _ _ c Hq).
  - cbn. split; [done|]. by apply (pops_count (mGenerators s)).
  - rewrite (count_perm c (mEventQueue s) (e :: rest)) by apply Ht.
    unfold fire in Hf. destruct (mGenerators s !! ev_cookie e) as [g|] eqn:Hg.
    + rewrite (He _ _ Hg) in Hf. destruct (nextEvent (hub_now s) g) as [[v g']|]; cbn in Hf; [|done].
      simplify_eq. cbn. rewrite !count_cons. cbn. split; [|done].
      rewrite lookup_insert. case_decide; [eauto|done].
    + simplify_eq. cbn. assert (ev_cookie e <> c) by (intros <-; rewrite Hg in Hc; by destruct Hc).
      rewrite count_cons, decide_False, lookup_delete_ne by done. done.
Qed.

End Hub.

(** ** The linear generator in the hub *)

Section Linear.
Context `{VehicleAbi, Enumerators}.

Local Abbreviation linear_hub := (GeneratorHub LinearFakeValueGenerator).

Lemma linear_endless (s : linear_hub) : endless s.
Proof. by intros c g _. Qed.

(** A run that does not unregister [c]. *)
Inductive keeps (c : Z) : linear_hub -> linear_hub -> Prop :=
  | KStop s : keeps c s s
  | KStep s l s1 s2 : hub_step s l s1 -> l <> LUnregister c -> keeps c s1 s2 -> keeps c s s2.

Lemma keeps_count c s s' :
  keeps c s s' -> is_Some (mGenerators s !! c) ->
  is_Some (mGenerators s' !! c) /\ count c (mEventQueue s') = count c (mEventQueue s).
Proof.
  induction 1 as [s|s l s1 s2 Hs Hl Hk IH]; intros Hc; [done|].
  destruct (count_step _ _ _ c Hs Hl (linear_endless s) Hc) as [Hc1 Hn].
  destruct (IH Hc1) as [Hc2 Hn2]. split; [done|]. by rewrite Hn2.
Qed.

(** Starting a linear generator, stopping it and starting it again before its
    last event is due leaves two of its events in the queue, and however long
    the hub runs there stay two until it is stopped: the property changes at
    twice the rate asked for. *)
Lemma hub_reregistered_doubles t c (g : LinearFakeValueGenerator) v1 g1 :
  nextEvent t g = Some (v1, g1) ->
  exists s1 s2 s3, registerGenerator false (hub_new t) c g = Some s1 /\
    s2 = unregisterGenerator s1 c /\ registerGenerator false s2 c g = Some s3 /\
    forall s, keeps c s3 s -> count c (mEventQueue s) = 2%nat.
Proof.
  intros Hn. eexists _, _, _. split; [|split; [reflexivity|split]].
  - unfold registerGenerator. cbn [hasNext linear_generator hub_new mGenerators hub_now].
    rewrite lookup_empty, Hn. reflexivity.
  - unfold registerGenerator, unregisterGenerator.
    cbn [hasNext linear_generator mGenerators hub_now]. rewrite lookup_delete_eq, Hn. reflexivity.
  - intros s Hk. apply keeps_count in Hk as [_ ->].
    + cbn [mEventQueue hub_new]. rewrite !count_cons. cbn [ev_cookie]. by rewrite decide_True.
    + cbn. rewrite lookup_insert_eq. eauto.
Qed.

(** Registering a generator while the thread sleeps until the due event of
    another may move the queue: the thread then times out holding a dangling
    reference. *)
Lemma hub_dangling_reference t (c1 c2 : Z) (g1 g2 : LinearFakeValueGenerator) v1 g1' v2 g2' :
  c1 <> c2 -> nextEvent t g1 = Some (v1, g1') -> nextEvent t g2 = Some (v2, g2') ->
  exists s, rtc hub_any (hub_new t : linear_hub) s /\ hub_thread s = HUndefined.
Proof.
  intros Hc H1 H2. set (t' := Z.max t (timestamp v1)).
  set (s1 := mkHub t [mkVhal c1 v1] {[ c1 := g1' ]} HLoop [] : linear_hub).
  set (s2 := set_thread s1 [mkVhal c1 v1] (HSleep (timestamp v1) false)).
  set (s3 := mkHub t [mkVhal c2 v2; mkVhal c1 v1] (<[ c2 := g2' ]> {[ c1 := g1' ]})
               (HSleep (timestamp v1) true) [] : linear_hub).
  set (s4 := mkHub t' (mEventQueue s3) (mGenerators s3) (hub_thread s3) [] : linear_hub).
  exists (set_thread s4 (mEventQueue s4) HUndefined). split; [|done].
  assert (top [mkVhal c1 v1] (mkVhal c1 v1) []) as Ht by by split; [|constructor].
  eapply rtc_l; [exists (LRegister c1); apply (HRegister false _ c1 g1 s1)|].
  { unfold registerGenerator. cbn [hasNext linear_generator hub_new mGenerators hub_now].
    rewrite lookup_empty, H1. done. }
  eapply rtc_l; [exists LThread; apply (HNext s1 [mkVhal c1 v1] (mkVhal c1 v1) []); [done| |done]|].
  { eapply PAlive; [exact Ht|]. cbn. rewrite lookup_singleton_eq. eauto. }
  eapply rtc_l; [exists (LRegister c2); apply (HRegister true s2 c2 g2 s3)|].
  { unfold registerGenerator. cbn [hasNext linear_generator s2 s1 set_thread mGenerators hub_now].
    rewrite lookup_singleton_ne by done. rewrite H2. done. }
  eapply rtc_l; [exists LTick; apply (HTick s3 t'); cbn; lia|]. fold s4.
  apply rtc_once. exists LThread. apply (HDangling s4 (timestamp v1)); [done|]. cbn. lia.
Qed.

End Linear.

(** ** Witnesses *)

Definition demo_linear : LinearFakeValueGenerator :=
  mkLinear 0x00400001 (DefaultConfig.f32 5) (DefaultConfig.f32 5) (DefaultConfig.f32 2)
    (DefaultConfig.f32 1) 10.

Definition demo_hub : GeneratorHub LinearFakeValueGenerator :=
  default (hub_new 100)
    (@registerGenerator _ (@linear_generator aosp_abi) false (hub_new 100) 7 demo_linear).

Lemma hub_reachable_ok_witness : exists e, e ∈ mEventQueue demo_hub /\ ev_cookie e = 7.
Proof.
  apply (proj2 (@hub_reachable_ok _ (@linear_generator aosp_abi) 100 demo_hub
    (rtc_once _ _ (ex_intro _ (LRegister 7)
      (@HRegister _ (@linear_generator aosp_abi) false (hub_new 100) 7 demo_linear demo_hub eq_refl))))).
  vm_compute. eauto.
Defined.
