(* ===== verification/VehicleComm.v ===== *)
(** * vehicle/impl/vhal_v2_0: ProtoMessageConverter.cpp, VehicleEmulator.cpp,
    CommConn.cpp, SocketComm.cpp, PipeComm.cpp

    The emulator's side door to the vehicle: protobuf messages over a netlink
    socket or a qemu pipe.  The message classes are generated by protobuf from a
    file that is not in the repository; they are records of the fields the source
    uses, an optional field ([has_x]) being an option, [x()] of an absent one its
    default.  Serialization is a parameter.  A read of element 0 of an empty
    repeated field, a vector of negative size, and a copy beyond a buffer are
    [None]. *)

From S2P Require Import Prelude VehicleTypes ObjectPool Obd2 RecurrentTimer UserHal DefaultConfig PropertyStore EmulatedVehicle.

(** ** Messages *)

Record ProtoAreaConfig := mkProtoArea {
  pa_area_id : option Z; pa_min_int32 : option Z; pa_max_int32 : option Z;
  pa_min_int64 : option Z; pa_max_int64 : option Z;
  pa_min_float : option spec_float; pa_max_float : option spec_float
}.

Record ProtoPropConfig := mkProtoConfig {
  pc_prop : option Z; pc_access : option Z; pc_change_mode : option Z; pc_value_type : option Z;
  pc_area_configs : list ProtoAreaConfig; pc_config_array : list Z;
  pc_config_string : option string;
  pc_min_sample_rate : option spec_float; pc_max_sample_rate : option spec_float
}.

Record ProtoPropValue := mkProtoValue {
  pv_prop : option Z; pv_value_type : option Z; pv_timestamp : option Z; pv_status : option Z;
  pv_area_id : option Z; pv_int32_values : list Z; pv_int64_values : list Z;
  pv_float_values : list spec_float; pv_string_value : option string;
  pv_bytes_value : option (list Z)
}.

Record ProtoPropGet := mkProtoGet { pg_prop : Z; pg_area_id : option Z }.

Inductive MsgType :=
  | GET_CONFIG_CMD | GET_CONFIG_RESP | GET_CONFIG_ALL_CMD | GET_CONFIG_ALL_RESP
  | GET_PROPERTY_CMD | GET_PROPERTY_RESP | GET_PROPERTY_ALL_CMD | GET_PROPERTY_ALL_RESP
  | SET_PROPERTY_CMD | SET_PROPERTY_RESP | SET_PROPERTY_ASYNC | OTHER_MSG.

Inductive MsgStatus := RESULT_OK | ERROR_INVALID_PROPERTY | ERROR_UNIMPLEMENTED_CMD.

Record EmulatorMessage := mkMessage {
  msg_type : option MsgType; msg_status : option MsgStatus; msg_prop : list ProtoPropGet;
  msg_config : list ProtoPropConfig; msg_value : list ProtoPropValue
}.

Definition empty_message : EmulatorMessage := mkMessage None None [] [] [].

Section Comm.
Context `{VehicleAbi, Enumerators, Obd2Abi} (string_hash : string -> Z).

(** ** ProtoMessageConverter *)

(** The range of an area is sent for three types only. *)
Definition area_toProto (p : Z) (a : VehicleAreaConfig) : ProtoAreaConfig :=
  let t := getPropType p in
  if bool_decide (t ∈ [T_STRING; T_BOOLEAN; T_INT32_VEC; T_INT64_VEC; T_FLOAT_VEC; T_BYTES; T_MIXED])
  then mkProtoArea (Some (ac_areaId a)) None None None None None None
  else if t =? T_INT64 then
    mkProtoArea (Some (ac_areaId a)) None None (Some (ac_minInt64Value a))
      (Some (ac_maxInt64Value a)) None None
  else if t =? T_FLOAT then
    mkProtoArea (Some (ac_areaId a)) None None None None (Some (ac_minFloatValue a))
      (Some (ac_maxFloatValue a))
  else if t =? T_INT32 then
    mkProtoArea (Some (ac_areaId a)) (Some (ac_minInt32Value a)) (Some (ac_maxInt32Value a))
      None None None None
  else mkProtoArea (Some (ac_areaId a)) None None None None None None.

(** Into a new message. *)
Definition config_toProto (c : VehiclePropConfig) : ProtoPropConfig :=
  mkProtoConfig (Some (cfg_prop c)) (Some (cfg_access c)) (Some (cfg_changeMode c))
    (Some (getPropType (cfg_prop c)))
    (area_toProto (cfg_prop c) <$> cfg_areaConfigs c) (cfg_configArray c)
    (if String.eqb (cfg_configString c) EmptyString then None else Some (cfg_configString c))
    (Some (cfg_minSampleRate c)) (Some (cfg_maxSampleRate c)).

(** [acfg] is a fresh local: a member without a field keeps its indeterminate
    value, here [junk]'s. *)
Definition area_fromProto (junk : VehicleAreaConfig) (a : ProtoAreaConfig) : VehicleAreaConfig :=
  mkArea (default (ac_areaId junk) (pa_area_id a))
    (default (ac_minInt32Value junk) (pa_min_int32 a)) (default (ac_maxInt32Value junk) (pa_max_int32 a))
    (default (ac_minInt64Value junk) (pa_min_int64 a)) (default (ac_maxInt64Value junk) (pa_max_int64 a))
    (default (ac_minFloatValue junk) (pa_min_float a)) (default (ac_maxFloatValue junk) (pa_max_float a)).

Definition config_fromProto (junk : VehicleAreaConfig) (cfg : VehiclePropConfig) (m : ProtoPropConfig)
    : VehiclePropConfig :=
  mkPropConfig (default (cfg_prop cfg) (pc_prop m)) (default (cfg_access cfg) (pc_access m))
    (default (cfg_changeMode cfg) (pc_change_mode m))
    (area_fromProto junk <$> pc_area_configs m) (pc_config_array m)
    (default (cfg_configString cfg) (pc_config_string m))
    (default (cfg_minSampleRate cfg) (pc_min_sample_rate m))
    (default (cfg_maxSampleRate cfg) (pc_max_sample_rate m)).

Definition value_toProto (v : VehiclePropValue) : ProtoPropValue :=
  mkProtoValue (Some (prop v)) (Some (getPropType (prop v))) (Some (timestamp v)) (Some (status v))
    (Some (areaId v)) (int32Values (value v)) (int64Values (value v)) (floatValues (value v))
    (if String.eqb (stringValue (value v)) EmptyString then None else Some (stringValue (value v)))
    (if (0 <? length (bytes (value v)))%nat then Some (bytes (value v)) else None).

Definition value_fromProto (v : VehiclePropValue) (m : ProtoPropValue) : VehiclePropValue :=
  mkValue (default (timestamp v) (pv_timestamp m)) (default (areaId v) (pv_area_id m))
    (default (prop v) (pv_prop m)) (default (status v) (pv_status m))
    (mkRaw (pv_int32_values m) (pv_float_values m) (pv_int64_values m)
       (default (bytes (value v)) (pv_bytes_value m))
       (default (stringValue (value v)) (pv_string_value m))).

(** ** VehicleEmulator *)

(** The message for a property that changed. *)
Definition async_message (v : VehiclePropValue) : EmulatorMessage :=
  mkMessage (Some SET_PROPERTY_ASYNC) (Some RESULT_OK) [] [] [value_toProto v].

(** [c_str()] handed to a [hidl_string]: it ends at the first NUL. *)
Fixpoint c_str (s : string) : string :=
  match s with
  | EmptyString => EmptyString
  | String c r => if (Ascii.nat_of_ascii c =? 0)%nat then EmptyString else String c (c_str r)
  end.

Definition doGetConfig (s : EmulatedVehicle) (rx : EmulatorMessage) : option EmulatorMessage :=
  getProp ← head (msg_prop rx);
  match list_find (fun c => cfg_prop c = pg_prop getProp) (listProperties s) with
  | Some (_, c) => Some (mkMessage (Some GET_CONFIG_RESP) (Some RESULT_OK) [] [config_toProto c] [])
  | None => Some (mkMessage (Some GET_CONFIG_RESP) (Some ERROR_INVALID_PROPERTY) [] [] [])
  end.

Definition doGetConfigAll (s : EmulatedVehicle) : EmulatorMessage :=
  mkMessage (Some GET_CONFIG_ALL_RESP) (Some RESULT_OK) [] (config_toProto <$> listProperties s) [].

Definition doGetProperty (e : Env) (s : EmulatedVehicle) (rx : EmulatorMessage)
    : option EmulatorMessage :=
  getProp ← head (msg_prop rx);
  let request := mkValue 0 (default 0 (pg_area_id getProp)) (pg_prop getProp) 0 empty_raw in
  match emu_get e s request with
  | Some (Some v, _) =>
      Some (mkMessage (Some GET_PROPERTY_RESP) (Some RESULT_OK) [] [] [value_toProto v])
  | Some (None, _) =>
      Some (mkMessage (Some GET_PROPERTY_RESP) (Some ERROR_INVALID_PROPERTY) [] [] [])
  | None => None
  end.

Definition doGetPropertyAll (s : EmulatedVehicle) : EmulatorMessage :=
  mkMessage (Some GET_PROPERTY_ALL_RESP) (Some RESULT_OK) [] [] (value_toProto <$> getAllProperties s).

(** The value a SET command carries, stamped with the clock. *)
Definition set_value_of (now : Z) (m : ProtoPropValue) : VehiclePropValue :=
  mkValue now (default 0 (pv_area_id m)) (default 0 (pv_prop m)) (default 0 (pv_status m))
    (mkRaw (pv_int32_values m) (pv_float_values m) (pv_int64_values m)
       (default [] (pv_bytes_value m))
       (match pv_string_value m with Some str => c_str str | None => EmptyString end)).

Definition doSetProperty (e : Env) (now : Z) (s : EmulatedVehicle) (rx : EmulatorMessage)
    : option (EmulatorMessage * EmulatedVehicle) :=
  protoVal ← head (msg_value rx);
  '(halRes, s') ← setPropertyFromVehicle string_hash e s (set_value_of now protoVal);
  Some (mkMessage (Some SET_PROPERTY_RESP)
          (Some (if halRes : bool then RESULT_OK else ERROR_INVALID_PROPERTY)) [] [] [], s').

(** [processMessage]: the reply and the vehicle. *)
Definition processMessage (e : Env) (now : Z) (s : EmulatedVehicle) (rx : EmulatorMessage)
    : option (EmulatorMessage * EmulatedVehicle) :=
  match msg_type rx with
  | Some GET_CONFIG_CMD => r ← doGetConfig s rx; Some (r, s)
  | Some GET_CONFIG_ALL_CMD => Some (doGetConfigAll s, s)
  | Some GET_PROPERTY_CMD => r ← doGetProperty e s rx; Some (r, s)
  | Some GET_PROPERTY_ALL_CMD => Some (doGetPropertyAll s, s)
  | Some SET_PROPERTY_CMD => doSetProperty e now s rx
  | _ => Some (mkMessage None (Some ERROR_UNIMPLEMENTED_CMD) [] [] [], s)
  end.

(** ** CommConn *)

(** Protobuf's serialization of a message. *)
Context (serialize : EmulatorMessage -> list Z) (parse : list Z -> option EmulatorMessage).

(** [readThread] on the buffers [read] returns, until one is empty or the
    connection is closed ([isOpen] before each read); the reply is computed and
    dropped.  Each iteration has its memory and clock. *)
Fixpoint readThread (s : EmulatedVehicle) (reads : list (bool * Env * list Z)) : option EmulatedVehicle :=
  match reads with
  | [] => Some s
  | (isOpen, e, buffer) :: rest =>
      if negb isOpen then Some s
      else if (length buffer =? 0)%nat then Some s
      else
        match parse buffer with
        | None => readThread s rest
        | Some rxMsg =>
            '(_, s') ← processMessage e (clock e 0) s rxMsg;
            readThread s' rest
        end
  end.

End Comm.

(** ** SocketComm *)

Definition MAX_PLOAD : Z := 1024.
Definition nlmsghdr_size : nat := 16.

(** A 32-bit field of the netlink header, little-endian. *)
Definition u32_bytes (z : Z) : list Z :=
  [z mod 2 ^ 8; z / 2 ^ 8 mod 2 ^ 8; z / 2 ^ 16 mod 2 ^ 8; z / 2 ^ 24 mod 2 ^ 8].

Definition u32_of (l : list Z) : option Z :=
  match l with
  | a :: b :: c :: d :: _ => Some (a + b * 2 ^ 8 + c * 2 ^ 16 + d * 2 ^ 24)
  | _ => None
  end.

(** The datagram [write] sends: the header (length; type, flags and sequence
    number are 0; the process) and the data, copied into a block of
    [NLMSG_SPACE(MAX_PLOAD)] bytes without a check. *)
Definition SocketConn_write (pid : Z) (data : list Z) : option (list Z) :=
  if decide (Z.of_nat (length data) <= MAX_PLOAD) then
    Some (u32_bytes (Z.of_nat (nlmsghdr_size + length data)) ++ replicate 8 0 ++ u32_bytes pid ++ data)
  else None.

(** [sendto]'s result [ret] is only compared with 0. *)
Definition write_result (ret : Z) : Z := if ret =? 0 then -1 else 0.

(** [read] of one datagram, [None] being a failure of [recvfrom]: the buffer is
    the header and 1024 bytes, zeroed; the length is the sender's, an [int]. *)
Definition SocketConn_read (datagram : option (list Z)) : option (list Z) :=
  match datagram with
  | None => Some []
  | Some d =>
      let u_info := hidl_resize 0 1040 d in
      len ← u32_of u_info;
      let message_size := wrap_s 32 (wrap_u 64 (len - Z.of_nat nlmsghdr_size)) in
      if decide (0 <= message_size <= 1024)
      then Some (take (Z.to_nat message_size) (drop nlmsghdr_size u_info))
      else None
  end.

(** The connections: a pointer, null or to a connection that is open or not. *)
Definition Conn : Type := option bool.

(** [sendMessage] to all connections; [None] dereferences a null pointer. *)
Definition send_all (conns : list Conn) : option nat :=
  foldl (fun acc c => n ← acc; _ ← c; Some (S n)) (Some 0%nat) conns.

(** [std::remove_if] without [erase]: [i] is where the next connection that stays
    is moved to, [j] the one looked at; a pointer moved from is null.  The
    vector keeps its length. *)
Fixpoint remove_loop (n j i : nat) (l : list Conn) : option (list Conn) :=
  match n with
  | O => Some l
  | S n' =>
      c ← l !! j;
      isOpen ← (c : option bool);
      if isOpen : bool then
        remove_loop n' (S j) (S i) (if (i =? j)%nat then l else <[j := None]> (<[i := c]> l))
      else remove_loop n' (S j) i l
  end.

Definition removeClosedConnections (l : list Conn) : option (list Conn) :=
  remove_loop (length l) 0 0 l.

(** ** PipeComm *)

Definition MAX_RX_MSG_SZ : Z := 2048.

(** [read]: the descriptor and the message; [received] is the result of
    [qemu_pipe_frame_recv] and the frame. *)
Definition PipeComm_read (fd : Z) (numBytes : Z) (frame : list Z) : Z * list Z :=
  if numBytes =? MAX_RX_MSG_SZ then (fd, [])
  else if 0 <? numBytes then (fd, take (Z.to_nat numBytes) frame)
  else (-1, []).

Definition PipeComm_write (fd sent errno : Z) : Z :=
  let retVal := if negb (fd =? -1) then sent else 0 in
  if retVal <? 0 then - errno else retVal.

(** ** Lemmas *)

Lemma eqb_empty (s : string) : (if String.eqb s EmptyString then None else Some s) = None /\ s = EmptyString \/
  (if String.eqb s EmptyString then None else Some s) = Some s.
Proof. destruct (String.eqb_spec s EmptyString); auto. Qed.

Lemma default_nonempty (s : string) :
  default EmptyString (if String.eqb s EmptyString then None else Some s) = s.
Proof. by destruct (String.eqb_spec s EmptyString). Qed.

Lemma default_bytes (l : list Z) :
  default [] (if (0 <? length l)%nat then Some l else None) = l.
Proof. by destruct l. Qed.

Lemma u32_of_bytes z l : 0 <= z < 2 ^ 32 -> u32_of (u32_bytes z ++ l) = Some z.
Proof.
  intros Hz. unfold u32_of, u32_bytes. cbn [app]. f_equal.
  pose proof (Z.div_mod z (2 ^ 8)). pose proof (Z.div_mod (z / 2 ^ 8) (2 ^ 8)).
  pose proof (Z.div_mod (z / 2 ^ 16) (2 ^ 8)).
  assert (z / 2 ^ 8 / 2 ^ 8 = z / 2 ^ 16) by (rewrite Z.div_div by lia; done).
  assert (z / 2 ^ 16 / 2 ^ 8 = z / 2 ^ 24) by (rewrite Z.div_div by lia; done).
  assert (z / 2 ^ 24 mod 2 ^ 8 = z / 2 ^ 24).
  { apply Z.mod_small. split; [apply Z.div_pos; lia|]. apply Z.div_lt_upper_bound; lia. }
  lia.
Qed.

(** ** Theorems *)

(** Conversion to protobuf and back: a value survives it entirely; a
    configuration survives except for the ranges of its areas, of which only the
    one of the property's type is sent, the rest coming back indeterminate. *)
Lemma proto_roundtrip `{VehicleAbi} junk (v fresh : VehiclePropValue) (c cfg : VehiclePropConfig) :
  bytes (value fresh) = [] -> stringValue (value fresh) = EmptyString ->
  cfg_configString cfg = EmptyString ->
  value_fromProto fresh (value_toProto v) = v /\
  config_fromProto junk cfg (config_toProto c) =
  mkPropConfig (cfg_prop c) (cfg_access c) (cfg_changeMode c)
    ((fun a => area_fromProto junk (area_toProto (cfg_prop c) a)) <$> cfg_areaConfigs c)
    (cfg_configArray c) (cfg_configString c) (cfg_minSampleRate c) (cfg_maxSampleRate c) /\
  Forall (fun a =>
    let b := area_fromProto junk (area_toProto (cfg_prop c) a) in
    ac_areaId b = ac_areaId a /\
    let t := getPropType (cfg_prop c) in
    let scalar := negb (bool_decide (t ∈ [T_STRING; T_BOOLEAN; T_INT32_VEC; T_INT64_VEC; T_FLOAT_VEC;
                                          T_BYTES; T_MIXED])) in
    (ac_minInt32Value b, ac_maxInt32Value b) =
      (if scalar && negb (t =? T_INT64) && negb (t =? T_FLOAT) && (t =? T_INT32)
       then (ac_minInt32Value a, ac_maxInt32Value a)
       else (ac_minInt32Value junk, ac_maxInt32Value junk)) /\
    (ac_minInt64Value b, ac_maxInt64Value b) =
      (if scalar && (t =? T_INT64) then (ac_minInt64Value a, ac_maxInt64Value a)
       else (ac_minInt64Value junk, ac_maxInt64Value junk)) /\
    (ac_minFloatValue b, ac_maxFloatValue b) =
      (if scalar && negb (t =? T_INT64) && (t =? T_FLOAT)
       then (ac_minFloatValue a, ac_maxFloatValue a)
       else (ac_minFloatValue junk, ac_maxFloatValue junk))) (cfg_areaConfigs c).
Proof.
  intros Hb Hs Hc. split_and!.
  - unfold value_fromProto, value_toProto. cbn [pv_timestamp pv_area_id pv_prop pv_status pv_int32_values
      pv_float_values pv_int64_values pv_bytes_value pv_string_value default].
    rewrite Hb, Hs, default_nonempty, default_bytes. by destruct v as [? ? ? ? []].
  - unfold config_fromProto, config_toProto. cbn. rewrite Hc, default_nonempty.
    by rewrite <-list_fmap_compose.
  - apply Forall_forall. intros a _. cbn zeta. unfold area_toProto. cbn zeta.
    case_bool_decide; cbn [negb andb]; [done|].
    destruct (_ =? T_INT64); [done|]. destruct (_ =? T_FLOAT); [done|]. by destruct (_ =? T_INT32).
Qed.

(** The size [read] computes, for every length of the header. *)
Lemma read_size len :
  0 <= len < 2 ^ 32 ->
  (16 <= len <= 1040 -> wrap_s 32 (wrap_u 64 (len - 16)) = len - 16) /\
  (~ 16 <= len <= 1040 -> ~ 0 <= wrap_s 32 (wrap_u 64 (len - 16)) <= 1024).
Proof.
  intros Hl. split; intros H.
  - rewrite wrap_u_id, wrap_s_id by (unfold in_u, in_s; cbn; lia). done.
  - unfold wrap_u, wrap_s.
    destruct (decide (len < 16)).
    + replace ((len - 16) mod 2 ^ 64) with (len - 16 + 2 ^ 64)
        by (apply (Z.mod_unique _ _ (-1)); lia).
      replace (len - 16 + 2 ^ 64 + 2 ^ (32 - 1)) with (len - 16 + 2 ^ 31 + 2 ^ 32 * 2 ^ 32) by lia.
      rewrite Z.mod_add by lia. rewrite (Z.mod_small (len - 16 + 2 ^ 31)) by lia. lia.
    + rewrite (Z.mod_small (len - 16)) by lia. destruct (decide (len - 16 < 2 ^ 31)).
      * rewrite (Z.mod_small (len - 16 + 2 ^ (32 - 1))) by lia. lia.
      * replace ((len - 16 + 2 ^ (32 - 1)) mod 2 ^ 32) with (len - 16 + 2 ^ 31 - 2 ^ 32)
          by (apply (Z.mod_unique _ _ 1); lia). lia.
Qed.

(** What one end writes to the netlink socket the other end reads, for every
    message of up to 1024 bytes; a longer one is copied beyond the block it was
    allocated for.  The reader takes the length the sender's header claims: one
    below the header or above the buffer is undefined behaviour, any other
    gives that many bytes, zeros where none were received. *)
Lemma socket_roundtrip pid data :
  (Z.of_nat (length data) <= MAX_PLOAD ->
     exists d, SocketConn_write pid data = Some d /\ SocketConn_read (Some d) = Some data) /\
  (MAX_PLOAD < Z.of_nat (length data) -> SocketConn_write pid data = None) /\
  (forall len l, 0 <= len < 2 ^ 32 ->
     SocketConn_read (Some (u32_bytes len ++ l)) =
     if decide (16 <= len <= 1040)
     then Some (take (Z.to_nat (len - 16)) (drop 16 (hidl_resize 0 1040 (u32_bytes len ++ l))))
     else None).
Proof.
  assert (forall len l, 0 <= len < 2 ^ 32 ->
     SocketConn_read (Some (u32_bytes len ++ l)) =
     if decide (16 <= len <= 1040)
     then Some (take (Z.to_nat (len - 16)) (drop 16 (hidl_resize 0 1040 (u32_bytes len ++ l))))
     else None) as Hread.
  { intros len l Hl. destruct (read_size len Hl) as [Hin Hout]. unfold SocketConn_read.
    assert (u32_of (hidl_resize 0 1040 (u32_bytes len ++ l)) = Some len) as ->.
    { unfold hidl_resize. rewrite take_app_ge by (cbn; lia). rewrite <-app_assoc. by apply u32_of_bytes. }
    cbn [mbind option_bind]. change (Z.of_nat nlmsghdr_size) with 16. change nlmsghdr_size with 16%nat.
    destruct (decide (16 <= len <= 1040)) as [Hr|Hr].
    - rewrite Hin by done. by rewrite decide_True by lia.
    - by rewrite decide_False by auto. }
  split_and!; [| |exact Hread].
  - unfold MAX_PLOAD. intros Hd. unfold SocketConn_write, MAX_PLOAD. rewrite decide_True by done.
    eexists. split; [reflexivity|]. rewrite Hread by (unfold nlmsghdr_size; lia).
    rewrite decide_True by (unfold nlmsghdr_size; lia). f_equal.
    replace (Z.to_nat (Z.of_nat (nlmsghdr_size + length data) - 16)) with (length data)
      by (unfold nlmsghdr_size; lia).
    set (h := u32_bytes (Z.of_nat (nlmsghdr_size + length data))).
    assert (length (h ++ replicate 8 0 ++ u32_bytes pid ++ data) = (16 + length data)%nat) as Hlen
      by (rewrite !length_app, length_replicate; reflexivity).
    unfold hidl_resize. rewrite (take_ge _ 1040) by lia.
    replace ((h ++ replicate 8 0 ++ u32_bytes pid ++ data) ++ replicate (1040 - length (h ++ replicate 8 0 ++ u32_bytes pid ++ data)) 0)
      with ((h ++ replicate 8 0 ++ u32_bytes pid) ++ data ++ replicate (1040 - length (h ++ replicate 8 0 ++ u32_bytes pid ++ data)) 0)
      by by rewrite <-!app_assoc.
    rewrite drop_app_length' by reflexivity. by rewrite take_app_length.
  - intros Hd. unfold SocketConn_write. rewrite decide_False by lia. done.
Qed.

(** *** The emulator *)

Section Emulator.
Context `{VehicleAbi, Enumerators, Obd2Abi} (string_hash : string -> Z).

(** The emulator sets an ordinary property of the table by a message, in
    every reachable state and whatever the property's state or the area: the
    reply is a success and unless a newer value is stored a GET message
    for the same area answers with the numbers and bytes that were sent, the
    status sent, and the string up to its first NUL. *)
Lemma emulator_set_get s e now (m : ProtoPropValue) :
  let v := set_value_of now m in
  emu_reachable string_hash s -> mEmulator s = true -> is_Some (find_decl (prop v)) ->
  prop v ∉ special -> copyable (prop v) ->
  (forall current, readValueOrNull (mPropStore s) v = Some current -> timestamp current <= clock e 0) ->
  exists s', processMessage string_hash e now s (mkMessage (Some SET_PROPERTY_CMD) None [] [] [m]) =
      Some (mkMessage (Some SET_PROPERTY_RESP) (Some RESULT_OK) [] [] [], s') /\
    forall e' now', exists w,
      processMessage string_hash e' now' s'
        (mkMessage (Some GET_PROPERTY_CMD) None [mkProtoGet (prop v) (Some (areaId v))] [] []) =
      Some (mkMessage (Some GET_PROPERTY_RESP) (Some RESULT_OK) [] [] [w], s') /\
      pv_int32_values w = pv_int32_values m /\ pv_int64_values w = pv_int64_values m /\
      pv_float_values w = pv_float_values m /\ pv_status w = Some (default 0 (pv_status m)) /\
      default [] (pv_bytes_value w) = default [] (pv_bytes_value m) /\
      default EmptyString (pv_string_value w) = c_str (default EmptyString (pv_string_value m)).
Proof.
  intros v Hr He [d Hd] Hsp Hcp Htime. pose proof (emu_reachable_ok _ _ Hr) as Hok.
  assert (mConfigs (mPropStore s) !! prop v = Some (mkRecordConfig (dc_config d) None)) as Hcfg.
  { rewrite (inv_configs _ Hok), Hd. cbn. unfold token_of. by rewrite special_ne by (done || apply freeze_special). }
  set (rid := mkRid (prop v) (if isGlobalProp (prop v) then 0 else areaId v) 0).
  assert (forall w, prop w = prop v -> areaId w = areaId v ->
    getRecordIdLocked (mPropStore s) w = rid) as Hid.
  { intros w Hp Ha. unfold getRecordIdLocked. by rewrite Hp, Ha, Hcfg. }
  set (u := stamp v (clock e 0)).
  assert (exists st x, writeValue (mPropStore s) u true = (true, st) /\
    mConfigs st = mConfigs (mPropStore s) /\ mPropertyValues st !! rid = Some x /\
    prop x = prop v /\ value x = value v /\ status x = status v) as (st & x & Hw & Hst & Hx & Hpx & Hvx & Hsx).
  { unfold writeValue. change (prop u) with (prop v). rewrite Hcfg, (Hid u) by done.
    unfold readValueOrNull in Htime. rewrite (Hid v) in Htime by done.
    destruct (getValueOrNullLocked (mPropStore s) rid) as [old|] eqn:Hold.
    - specialize (Htime old eq_refl). change (timestamp u) with (clock e 0).
      rewrite (proj2 (Z.ltb_ge _ _) Htime). eexists _, _. split; [done|]. cbn.
      split; [done|]. split; [apply lookup_insert_eq|]. cbn.
      destruct (inv_store _ Hok) as [Hrec _]. apply Hrec in Hold as (Hp & _). done.
    - eexists _, _. split; [done|]. cbn. split; [done|]. split; [apply lookup_insert_eq|done]. }
  exists (emit (with_store s st) [ToEmulator u; HalEvent u]). split.
  - unfold processMessage, doSetProperty. cbn [msg_type msg_value head mbind option_bind].
    fold v. unfold setPropertyFromVehicle. rewrite server_ordinary by done. unfold echo.
    rewrite pool_copy_deref_ok by done. cbn [mbind option_bind]. unfold onPropertyValue.
    fold u. rewrite pool_copy_deref_ok by done. cbn [mbind option_bind]. rewrite Hw, He. done.
  - intros e' now'. exists (value_toProto (stamp x (clock e' 0))).
    split.
    + unfold processMessage, doGetProperty. cbn [msg_type msg_prop head mbind option_bind pg_area_id pg_prop default].
      set (req := mkValue _ _ _ _ _). rewrite get_ordinary by done.
      unfold readValueOrNull. cbn [mPropStore emit with_store].
      rewrite (getRecordIdLocked_configs (mPropStore s) st req Hst), Hid by done.
      unfold getValueOrNullLocked. rewrite Hx, pool_copy_ok by by rewrite Hpx. done.
    + unfold value_toProto. cbn [pv_int32_values pv_int64_values pv_float_values pv_status pv_bytes_value
        pv_string_value stamp value status]. rewrite Hvx, Hsx, default_nonempty, default_bytes.
      unfold v, set_value_of. cbn. by destruct (pv_string_value m).
Qed.

End Emulator.

(** ** What goes wrong *)

(** A frame of exactly the buffer's size is dropped, and its empty result ends
    the read thread with the pipe open. *)
Lemma pipe_full_frame fd frame : PipeComm_read fd MAX_RX_MSG_SZ frame = (fd, []).
Proof. reflexivity. Qed.

(** Dropping a closed connection before an open one leaves a null pointer, and
    the next message to all connections dereferences it. *)
Lemma removed_connection_is_null :
  exists l, removeClosedConnections [Some false; Some true] = Some l /\ send_all l = None.
Proof. exists [Some true; None]. by vm_compute. Qed.

(** ** Witnesses *)

Definition demo_message : ProtoPropValue :=
  mkProtoValue (Some (@VP demo_enum "FUEL_DOOR_OPEN")) None None (Some 2) (Some 0) [1] [] [] None None.
