(* ===== verification/Votes.v ===== *)
(** * power/UClampVoter.{h,cpp}: votes on the uclamp range of a task

    A session votes for a range of utilisation clamps that counts while it is
    active and in time.  Times and durations are nanoseconds ([steady_clock]).
    The unordered map of votes is a finite map; the loops over it run in the
    order of [map_to_list], and the specification below shows that no order
    matters. *)

From S2P Require Import Prelude.

Definition kUclampMin : Z := 0.
Definition kUclampMax : Z := 1024.

(** ** Data *)

Record UclampRange := mkRange { uclampMin : Z; uclampMax : Z }.

Definition default_range : UclampRange := mkRange kUclampMin kUclampMax.

(** [VoteRange] with the range of [CpuVote]. *)
Record CpuVote := mkVote {
  mActive : bool; mStartTime : Z; mDurationNs : Z; mUclampRange : UclampRange
}.

Definition votes := gmap Z CpuVote.

(** ** Operations *)

Definition isTimeInRange (v : CpuVote) (t : Z) : bool :=
  mActive v && (bool_decide (mStartTime v <= t) && bool_decide (mStartTime v + mDurationNs v >= t)).

Definition confine (r : UclampRange) (v : CpuVote) (t : Z) : UclampRange :=
  if negb (isTimeInRange v t) then r
  else mkRange (Z.max (uclampMin r) (uclampMin (mUclampRange v)))
         (Z.min (uclampMax r) (uclampMax (mUclampRange v))).

Definition votes_add (vs : votes) (id : Z) (v : CpuVote) : votes := <[id := v]> vs.

Definition votes_updateDuration (vs : votes) (voteId durationNs : Z) : votes :=
  alter (fun v => mkVote (mActive v) (mStartTime v) durationNs (mUclampRange v)) voteId vs.

Definition getUclampRange (vs : votes) (r : UclampRange) (t : Z) : UclampRange :=
  foldl (fun r v => confine r v t) r (map_to_list vs).*2.

Definition anyTimedOut (vs : votes) (t : Z) : bool :=
  existsb (fun v => negb (isTimeInRange v t)) (map_to_list vs).*2.

Definition allTimedOut (vs : votes) (t : Z) : bool :=
  forallb (fun v => negb (isTimeInRange v t)) (map_to_list vs).*2.

Definition votes_remove (vs : votes) (voteId : Z) : bool * votes :=
  match vs !! voteId with Some _ => (true, delete voteId vs) | None => (false, vs) end.

Definition setUseVote (vs : votes) (voteId : Z) (active : bool) : bool * votes :=
  match vs !! voteId with
  | None => (false, vs)
  | Some v =>
      (true, <[voteId := mkVote active (mStartTime v) (mDurationNs v) (mUclampRange v)]> vs)
  end.

Definition votes_size (vs : votes) : nat := size vs.

Definition voteIsActive (vs : votes) (voteId : Z) : bool :=
  match vs !! voteId with None => false | Some v => mActive v end.

Definition voteTimeout (vs : votes) (voteId : Z) : Z :=
  match vs !! voteId with None => 0 | Some v => mStartTime v + mDurationNs v end.

(** ** Specification: the tightest range of the votes that count *)

Definition counts (vs : votes) (t : Z) (v : CpuVote) : Prop :=
  exists id, vs !! id = Some v /\ isTimeInRange v t = true.

(** [r'] is [r] confined to the ranges of the votes in [on]: the largest
    minimum and the smallest maximum, each reached. *)
Definition tightest (on : CpuVote -> Prop) (r r' : UclampRange) : Prop :=
  (uclampMin r <= uclampMin r' /\
   (forall v, on v -> uclampMin (mUclampRange v) <= uclampMin r') /\
   (uclampMin r' = uclampMin r \/ exists v, on v /\ uclampMin r' = uclampMin (mUclampRange v))) /\
  (uclampMax r' <= uclampMax r /\
   (forall v, on v -> uclampMax r' <= uclampMax (mUclampRange v)) /\
   (uclampMax r' = uclampMax r \/ exists v, on v /\ uclampMax r' = uclampMax (mUclampRange v))).

(** ** Lemmas *)

Lemma elem_of_votes (vs : votes) v : v ∈ (map_to_list vs).*2 <-> exists id, vs !! id = Some v.
Proof.
  rewrite list_elem_of_fmap. split.
  - intros ([id v'] & -> & Hin%elem_of_map_to_list). eauto.
  - intros [id Hid]. exists (id, v). split; [done|]. by apply elem_of_map_to_list.
Qed.

Lemma tightest_iff on on' r r' : (forall v, on v <-> on' v) -> tightest on r r' -> tightest on' r r'.
Proof.
  intros Hiff [(Ha & Hb & Hc) (Hd & He & Hf)].
  split; (split; [done|]); (split; [intros v Hv; apply Hiff in Hv; auto|]).
  - destruct Hc as [?|(v & ? & ?)]; [by left|right; exists v; by rewrite <-Hiff].
  - destruct Hf as [?|(v & ? & ?)]; [by left|right; exists v; by rewrite <-Hiff].
Qed.

(** Confining twice is confining to both. *)
Lemma tightest_trans on1 on2 r1 r2 r3 :
  tightest on1 r1 r2 -> tightest on2 r2 r3 -> tightest (fun v => on1 v \/ on2 v) r1 r3.
Proof.
  intros [(Ha & Hb & Hc) (Hd & He & Hf)] [(Ha' & Hb' & Hc') (Hd' & He' & Hf')]. split.
  - split; [lia|]. split; [intros v [Hv|Hv]; [specialize (Hb v Hv); lia|auto]|].
    destruct Hc' as [->|(v & ? & ?)]; [|right; eauto].
    destruct Hc as [?|(v & ? & ?)]; [by left|right; eauto].
  - split; [lia|]. split; [intros v [Hv|Hv]; [specialize (He v Hv); lia|auto]|].
    destruct Hf' as [->|(v & ? & ?)]; [|right; eauto].
    destruct Hf as [?|(v & ? & ?)]; [by left|right; eauto].
Qed.

Lemma tightest_none r : tightest (fun _ => False) r r.
Proof. split; (split; [lia|]); (split; [done|by left]). Qed.

Lemma confine_tightest r v t :
  tightest (fun x => x = v /\ isTimeInRange x t = true) r (confine r v t).
Proof.
  unfold confine. destruct (isTimeInRange v t) eqn:Hv; simpl.
  - split; simpl; (split; [lia|]); (split; [intros x [-> _]; lia|]).
    + destruct (Z.max_spec (uclampMin r) (uclampMin (mUclampRange v))) as [[_ ->]|[_ ->]]; eauto.
    + destruct (Z.min_spec (uclampMax r) (uclampMax (mUclampRange v))) as [[_ ->]|[_ ->]]; eauto.
  - eapply tightest_iff; [|apply tightest_none]. intros x. simpl. split; [done|].
    intros [-> ?]. congruence.
Qed.

Lemma confine_fold l t : forall r,
  tightest (fun v => v ∈ l /\ isTimeInRange v t = true) r (foldl (fun r v => confine r v t) r l).
Proof.
  induction l as [|x l IH] using rev_ind; intros r.
  - eapply tightest_iff; [|apply tightest_none]. intros v. simpl. rewrite elem_of_nil. tauto.
  - rewrite foldl_app. simpl. eapply tightest_iff; [|eapply tightest_trans; [apply IH|apply confine_tightest]].
    intros v. simpl. rewrite elem_of_app, list_elem_of_singleton. tauto.
Qed.

Lemma getUclampRange_tightest vs r t : tightest (counts vs t) r (getUclampRange vs r t).
Proof.
  eapply tightest_iff; [|apply confine_fold]. intros v. simpl. rewrite elem_of_votes.
  unfold counts. split; [intros [[id ?] ?]|intros (id & ? & ?)]; eauto.
Qed.

(** The tightest range is unique, so the order of the votes does not matter. *)
Lemma tightest_unique on r r1 r2 : tightest on r r1 -> tightest on r r2 -> r1 = r2.
Proof.
  assert (forall r1 r2, tightest on r r1 -> tightest on r r2 ->
    uclampMin r1 <= uclampMin r2 /\ uclampMax r2 <= uclampMax r1) as Hle.
  { intros a b [(_ & _ & Ha) (_ & _ & Ha')] [(Hb1 & Hb2 & _) (Hb3 & Hb4 & _)]. split.
    - destruct Ha as [->|(v & Hv & ->)]; auto.
    - destruct Ha' as [->|(v & Hv & ->)]; auto. }
  intros H1 H2. destruct (Hle _ _ H1 H2), (Hle _ _ H2 H1). destruct r1, r2. simpl in *. f_equal; lia.
Qed.

Lemma allTimedOut_spec vs t : allTimedOut vs t = true <-> forall v, ~ counts vs t v.
Proof.
  unfold allTimedOut, counts. rewrite forallb_forall. split.
  - intros Hall v (id & Hid & Ht).
    assert (negb (isTimeInRange v t) = true) as Hn
      by (apply Hall, list_elem_of_In, elem_of_votes; eauto).
    by rewrite Ht in Hn.
  - intros Hno v Hv%list_elem_of_In. apply elem_of_votes in Hv as [id Hid].
    destruct (isTimeInRange v t) eqn:Ht; [|done]. exfalso. eapply Hno. eauto.
Qed.

Lemma anyTimedOut_spec vs t :
  anyTimedOut vs t = true <-> exists id v, vs !! id = Some v /\ isTimeInRange v t = false.
Proof.
  unfold anyTimedOut. rewrite existsb_exists. split.
  - intros (v & Hv%list_elem_of_In & Ht). apply elem_of_votes in Hv as [id Hid].
    exists id, v. split; [done|]. by destruct (isTimeInRange v t).
  - intros (id & v & Hid & Ht). exists v. split.
    + apply list_elem_of_In, elem_of_votes. eauto.
    + by rewrite Ht.
Qed.

(** ** Properties *)

(** [getUclampRange] computes the tightest range of the active votes that
    are in time, and nothing else does: the minimum is the largest of the given
    one and theirs, the maximum the smallest, whatever order the votes are
    visited in; and the votes are all timed out exactly when none counts. *)
Lemma votes_range_spec vs r t r' :
  (getUclampRange vs r t = r' <-> tightest (counts vs t) r r') /\
  (allTimedOut vs t = true <-> forall v, ~ counts vs t v) /\
  (anyTimedOut vs t = true <-> exists id v, vs !! id = Some v /\ isTimeInRange v t = false).
Proof.
  split_and!; [|apply allTimedOut_spec|apply anyTimedOut_spec].
  split.
  - intros <-. apply getUclampRange_tightest.
  - intros Ht. eapply tightest_unique; [apply getUclampRange_tightest|exact Ht].
Qed.
