(* ===== verification/SessionRecords.v ===== *)
(** * power/SessionRecords.{h,cpp}, SessionMetrics.h: the recent frames of a session

    A ring buffer of the last [kMaxNumOfRecords] frames, with running totals
    and a queue of record indexes that keeps the maximum duration at its front.
    Conversions to [int32_t] are written out; the arithmetic on doubles is IEEE
    binary64.  [None] is undefined behaviour: an index outside [mRecords], a
    modulus by zero, the front of an empty queue, and the overflow of a signed
    counter, sum or difference at its width.  The counters of [FrameBuckets],
    64 bits and one per frame, are unbounded integers.

    The specification is the list of the frames themselves: the relation
    [represents] ties a state to the window of frames it stands for. *)

From S2P Require Import Prelude.

Definition kTotalFramesForFPSCheck : Z := 3.

(** ** Data *)

Record CycleRecord := mkRecord {
  startIntervalUs : Z; totalDurationUs : Z; isMissedCycle : bool; isFPSJitter : bool
}.

Record FrameBuckets := mkBuckets {
  totalNumOfFrames : Z; numOfFrames17to25ms : Z; numOfFrames25to34ms : Z;
  numOfFrames34to67ms : Z; numOfFrames67to100ms : Z; numOfFramesOver100ms : Z
}.

(** The members of [WorkDuration] that are read. *)
Record WorkDuration := mkWork { timeStampNanos : Z; durationNanos : Z }.

Record SessionRecords := mkRecords {
  kMaxNumOfRecords : Z; kJankCheckTimeFactor : spec_float;
  mRecords : list CycleRecord; mRecordsIndQueue : list Z;
  mAvgDurationUs : Z; mLastStartTimeNs : Z; mLatestRecordIndex : Z;
  mNumOfMissedCycles : Z; mNumOfFrames : Z; mSumOfDurationsUs : Z;
  mLatestStartIntervalSumUs : Z; mNumOfFrameFPSJitters : Z; mAddedFramesForFPSCheck : Z
}.

Definition empty_record : CycleRecord := mkRecord 0 0 false false.

Definition records_new (maxNumOfRecords : Z) (jankCheckTimeFactor : spec_float) : SessionRecords :=
  mkRecords maxNumOfRecords jankCheckTimeFactor
    (replicate (Z.to_nat maxNumOfRecords) empty_record) [] 0 0 (-1) 0 0 0 0 0 0.

(** ** Buckets *)

Definition updateFrameBuckets (frameDurationUs : Z) (isJankFrame : bool) (b : FrameBuckets)
    : FrameBuckets :=
  let '(mkBuckets t b1 b2 b3 b4 b5) := b in
  let t := t + 1 in
  if negb isJankFrame || (frameDurationUs <? 17000) then mkBuckets t b1 b2 b3 b4 b5
  else if frameDurationUs <? 25000 then mkBuckets t (b1 + 1) b2 b3 b4 b5
  else if frameDurationUs <? 34000 then mkBuckets t b1 (b2 + 1) b3 b4 b5
  else if frameDurationUs <? 67000 then mkBuckets t b1 b2 (b3 + 1) b4 b5
  else if frameDurationUs <? 100000 then mkBuckets t b1 b2 b3 (b4 + 1) b5
  else if 100000 <=? frameDurationUs then mkBuckets t b1 b2 b3 b4 (b5 + 1)
  else mkBuckets t b1 b2 b3 b4 b5.

Definition addUpNewFrames (b new : FrameBuckets) : FrameBuckets :=
  mkBuckets (totalNumOfFrames b + totalNumOfFrames new)
    (numOfFrames17to25ms b + numOfFrames17to25ms new)
    (numOfFrames25to34ms b + numOfFrames25to34ms new)
    (numOfFrames34to67ms b + numOfFrames34to67ms new)
    (numOfFrames67to100ms b + numOfFrames67to100ms new)
    (numOfFramesOver100ms b + numOfFramesOver100ms new).

(** ** Adding a frame *)

(** [a % b]; undefined for [b = 0]. *)
Definition c_rem (a b : Z) : option Z := if decide (b = 0) then None else Some (Z.rem a b).

(** The double 1.4. *)
Definition d1_4 : spec_float := S754_finite false 6305039478318694 (-52).

(** [startIntervalUs > (1.4 * mLatestStartIntervalSumUs / kTotalFramesForFPSCheck)]. *)
Definition is_jitter (interval sum : Z) : bool :=
  SFgtb (Binary64.of_Z interval)
    (Binary64.div (Binary64.mul d1_4 (Binary64.of_Z sum)) (Binary64.of_Z kTotalFramesForFPSCheck)).

(** [totalDurationUs > (targetDurationNs / 1000) * kJankCheckTimeFactor]. *)
Definition is_missed (factor : spec_float) (targetDurationNs totalUs : Z) : bool :=
  SFgtb (Binary64.of_Z totalUs) (Binary64.mul (Binary64.of_Z (Z.quot targetDurationNs 1000)) factor).

(** Makes room: the first part of the loop body. *)
Definition evict (s : SessionRecords) : option SessionRecords :=
  if kMaxNumOfRecords s <=? mNumOfFrames s then
    next ← checked_s 32 (mLatestRecordIndex s + 1);
    i ← c_rem next (kMaxNumOfRecords s);
    r ← arr_get (mRecords s) i;
    sum ← checked_s 64 (mSumOfDurationsUs s - totalDurationUs r);
    missed ← (if isMissedCycle r then checked_s 32 (mNumOfMissedCycles s - 1) else Some (mNumOfMissedCycles s));
    jitters ← (if isFPSJitter r then checked_s 32 (mNumOfFrameFPSJitters s - 1)
               else Some (mNumOfFrameFPSJitters s));
    frames ← checked_s 32 (mNumOfFrames s - 1);
    front ← head (mRecordsIndQueue s);
    Some (mkRecords (kMaxNumOfRecords s) (kJankCheckTimeFactor s) (mRecords s)
      (if front =? i then tail (mRecordsIndQueue s) else mRecordsIndQueue s)
      (mAvgDurationUs s) (mLastStartTimeNs s) (mLatestRecordIndex s) missed frames sum
      (mLatestStartIntervalSumUs s) jitters (mAddedFramesForFPSCheck s))
  else Some s.

(** The jitter check: is it one, the sum of intervals, the frames added. *)
Definition jitter_check (s : SessionRecords) (computeFPSJitters : bool) (latest interval : Z)
    : option (bool * Z * Z) :=
  if computeFPSJitters then
    if mAddedFramesForFPSCheck s <? kTotalFramesForFPSCheck then
      if 0 <? interval then
        sum ← checked_s 32 (mLatestStartIntervalSumUs s + interval);
        Some (false, sum, mAddedFramesForFPSCheck s + 1)
      else Some (false, mLatestStartIntervalSumUs s, mAddedFramesForFPSCheck s)
    else
      let jitter := is_jitter interval (mLatestStartIntervalSumUs s) in
      let old := latest - kTotalFramesForFPSCheck in
      let old := if old <? 0 then old + kMaxNumOfRecords s else old in
      r ← arr_get (mRecords s) old;
      delta ← checked_s 32 (interval - startIntervalUs r);
      sum ← checked_s 32 (mLatestStartIntervalSumUs s + delta);
      Some (jitter, sum, mAddedFramesForFPSCheck s)
  else Some (false, 0, 0).

(** The loop that pops the indexes of durations not above the new one, on the
    reversed queue; [None]: an index outside the records. *)
Fixpoint pop_smaller (records : list CycleRecord) (total : Z) (rev_queue : list Z)
    : option (list Z) :=
  match rev_queue with
  | [] => Some []
  | i :: q =>
      r ← arr_get records i;
      if totalDurationUs r <=? total then pop_smaller records total q else Some rev_queue
  end.

(** One turn of the loop of [addReportedDurations]. *)
Definition add_one (target : Z) (computeFPSJitters : bool)
    (acc : option (SessionRecords * FrameBuckets)) (d : WorkDuration)
    : option (SessionRecords * FrameBuckets) :=
  '(s0, buckets) ← acc;
  let total := wrap_s 32 (Z.quot (durationNanos d) 1000) in
  s ← evict s0;
  next ← checked_s 32 (mLatestRecordIndex s + 1);
  latest ← c_rem next (kMaxNumOfRecords s);
  startTimeNs ← checked_s 64 (timeStampNanos d - durationNanos d);
  interval ← (if 0 <? mNumOfFrames s then
                since ← checked_s 64 (startTimeNs - mLastStartTimeNs s); Some (wrap_s 32 (Z.quot since 1000))
              else Some 0);
  '(jitter, intervalSum, added) ← jitter_check s computeFPSJitters latest interval;
  jitters ← (if (jitter : bool) then checked_s 32 (mNumOfFrameFPSJitters s + 1)
             else Some (mNumOfFrameFPSJitters s));
  let missed := is_missed (kJankCheckTimeFactor s) target total in
  records ← arr_set (mRecords s) latest (mkRecord interval total missed jitter);
  frames ← checked_s 32 (mNumOfFrames s + 1);
  missedCycles ← (if missed then checked_s 32 (mNumOfMissedCycles s + 1) else Some (mNumOfMissedCycles s));
  rq ← pop_smaller records total (rev (mRecordsIndQueue s));
  sum ← checked_s 64 (mSumOfDurationsUs s + total);
  if decide (frames = 0) then None
  else
    Some (mkRecords (kMaxNumOfRecords s) (kJankCheckTimeFactor s) records (rev rq ++ [latest])
            (wrap_s 32 (Z.quot sum frames)) startTimeNs latest missedCycles frames sum
            intervalSum jitters added,
          updateFrameBuckets total missed buckets).

Definition addReportedDurations (s : SessionRecords) (actual : list WorkDuration) (target : Z)
    (buckets : FrameBuckets) (computeFPSJitters : bool) : option (SessionRecords * FrameBuckets) :=
  foldl (add_one target computeFPSJitters) (Some (s, buckets)) actual.

(** ** Queries *)

(** The outer option is undefined behaviour, the inner one [std::nullopt]. *)
Definition getMaxDuration (s : SessionRecords) : option (option Z) :=
  match mRecordsIndQueue s with
  | [] => Some None
  | i :: _ => r ← arr_get (mRecords s) i; Some (Some (totalDurationUs r))
  end.

Definition getAvgDuration (s : SessionRecords) : option Z :=
  if mNumOfFrames s <=? 0 then None else Some (mAvgDurationUs s).

Definition getNumOfRecords (s : SessionRecords) : Z := mNumOfFrames s.
Definition getNumOfMissedCycles (s : SessionRecords) : Z := mNumOfMissedCycles s.

Definition isLowFrameRate (s : SessionRecords) (fpsLowRateThreshold : Z) : option bool :=
  let threshold := Binary64.div (Binary64.of_Z 1000000) (Binary64.of_Z fpsLowRateThreshold) in
  let slow r := SFleb threshold (Binary64.of_Z (startIntervalUs r)) in
  if 3 <=? mNumOfFrames s then
    let ind1 := mLatestRecordIndex s in
    let ind2 := if ind1 =? 0 then kMaxNumOfRecords s - 1 else ind1 - 1 in
    let ind3 := if ind2 =? 0 then kMaxNumOfRecords s - 1 else ind2 - 1 in
    r1 ← arr_get (mRecords s) ind1;
    if negb (slow r1) then Some false
    else
      r2 ← arr_get (mRecords s) ind2;
      if negb (slow r2) then Some false
      else r3 ← arr_get (mRecords s) ind3; Some (slow r3)
  else Some false.

Definition resetRecords (s : SessionRecords) : SessionRecords :=
  mkRecords (kMaxNumOfRecords s) (kJankCheckTimeFactor s) (mRecords s) [] 0 0 (-1) 0 0 0
    (mLatestStartIntervalSumUs s) (mNumOfFrameFPSJitters s) (mAddedFramesForFPSCheck s).

Definition getLatestFPS (s : SessionRecords) : option Z :=
  if decide (mLatestStartIntervalSumUs s = 0) then None
  else Some (Z.quot (1000000 * kTotalFramesForFPSCheck) (mLatestStartIntervalSumUs s)).

Definition getNumOfFPSJitters (s : SessionRecords) : Z := mNumOfFrameFPSJitters s.

(** ** Specification: the window of frames, oldest first *)

Definition dur (r : CycleRecord) : Z := totalDurationUs r.

Definition sum_dur (w : list CycleRecord) : Z := foldr (fun r z => dur r + z) 0 w.

Definition count (f : CycleRecord -> bool) (w : list CycleRecord) : Z :=
  foldr (fun r z => (if f r then 1 else 0) + z) 0 w.

(** The positions whose duration is above every later one; the first of them
    is the last position of the maximum. *)
Fixpoint leaders (w : list CycleRecord) : list nat :=
  match w with
  | [] => []
  | r :: w' =>
      let rest := S <$> leaders w' in
      if forallb (fun r' => dur r' <? dur r) w' then 0%nat :: rest else rest
  end.

(** Where position [i] of a window of [len] frames sits in the ring. *)
Definition slot (n latest : Z) (len i : nat) : Z := (latest + 1 - Z.of_nat len + Z.of_nat i) mod n.

(** [tracks j0 s w]: the state [s] stands for the window [w]; [j0] is what
    the jitter counter holds beyond the jitters of the window. *)
Record tracks (j0 : Z) (s : SessionRecords) (w : list CycleRecord) : Prop := {
  rep_cap : 0 < kMaxNumOfRecords s < 2 ^ 31;
  rep_len : Z.of_nat (length (mRecords s)) = kMaxNumOfRecords s;
  rep_window : Z.of_nat (length w) <= kMaxNumOfRecords s;
  rep_latest : -1 <= mLatestRecordIndex s < kMaxNumOfRecords s;
  rep_frames : mNumOfFrames s = Z.of_nat (length w);
  rep_records : forall i r, w !! i = Some r ->
    arr_get (mRecords s) (slot (kMaxNumOfRecords s) (mLatestRecordIndex s) (length w) i) = Some r;
  rep_queue : mRecordsIndQueue s =
    slot (kMaxNumOfRecords s) (mLatestRecordIndex s) (length w) <$> leaders w;
  rep_sum : mSumOfDurationsUs s = sum_dur w;
  rep_missed : mNumOfMissedCycles s = count isMissedCycle w;
  rep_jitters : mNumOfFrameFPSJitters s = count isFPSJitter w + j0;
  rep_counter : 0 <= j0 /\ mNumOfFrameFPSJitters s < 2 ^ 31;
  rep_widths : Forall (fun r => in_s 32 (dur r)) w;
  rep_started : w <> [] -> 0 <= mLatestRecordIndex s
}.

(** Between calls the average is up to date as well. *)
Definition represents (j0 : Z) (s : SessionRecords) (w : list CycleRecord) : Prop :=
  tracks j0 s w /\
  (w <> [] -> mAvgDurationUs s = wrap_s 32 (Z.quot (sum_dur w) (Z.of_nat (length w)))).

(** When a frame began. *)
Definition start_of (d : WorkDuration) : Z := timeStampNanos d - durationNanos d.

(** What makes the arithmetic of a frame overflow: its start, the time since
    the last start, when a frame is left to measure it from, or, where jitters
    are looked for, the sum of the intervals or the count of jitters. *)
Definition frame_overflows (jit : bool) (s : SessionRecords) (d : WorkDuration) : Prop :=
  let left := Z.min (mNumOfFrames s) (kMaxNumOfRecords s - 1) in
  let since := start_of d - mLastStartTimeNs s in
  let interval := if 0 <? left then wrap_s 32 (Z.quot since 1000) else 0 in
  ~ in_s 64 (start_of d) \/ (0 < left /\ ~ in_s 64 since) \/
  (jit = true /\ mAddedFramesForFPSCheck s < 3 /\ ~ in_s 32 (mLatestStartIntervalSumUs s + interval)) \/
  (jit = true /\ 3 <= mAddedFramesForFPSCheck s /\
     ((exists r, r ∈ mRecords s /\ let delta := interval - startIntervalUs r in
         ~ in_s 32 delta \/ ~ in_s 32 (mLatestStartIntervalSumUs s + delta)) \/
      mNumOfFrameFPSJitters s = 2 ^ 31 - 1)).

(** The starts, and the times between them, are within 64 bits. *)
Fixpoint starts_fit (last : Z) (ds : list WorkDuration) : Prop :=
  match ds with
  | [] => True
  | d :: ds => in_s 64 (start_of d) /\ in_s 64 (start_of d - last) /\ starts_fit (start_of d) ds
  end.

(** ** Lemmas: leaders *)

Lemma leaders_lt w i : i ∈ leaders w -> (i < length w)%nat.
Proof.
  revert i. induction w as [|r w IH]; intros i; simpl; [by intros ?%elem_of_nil|].
  assert (i ∈ S <$> leaders w -> (i < S (length w))%nat) as Hrest.
  { intros (j & -> & Hj)%list_elem_of_fmap. specialize (IH j Hj). lia. }
  destruct (forallb _ w); [|done]. rewrite elem_of_cons. intros [->|Hi]; [lia|auto].
Qed.

Lemma forallb_snoc {A} (f : A -> bool) l x : forallb f (l ++ [x]) = forallb f l && f x.
Proof. induction l as [|y l IH]; simpl; [apply andb_true_r|]. by rewrite IH, andb_assoc. Qed.

(** The duration at a position. *)
Definition at_pos (w : list CycleRecord) (i : nat) : Z := default 0 (dur <$> w !! i).

(** The leaders after a new frame: those above it, and itself. *)
Lemma leaders_snoc w r :
  leaders (w ++ [r]) = filter (fun i => dur r < at_pos w i) (leaders w) ++ [length w].
Proof.
  induction w as [|a w IH]; [done|]. cbn [app leaders length].
  rewrite IH, forallb_snoc, fmap_app. cbn [fmap list_fmap].
  assert (filter (fun i => dur r < at_pos (a :: w) i) (S <$> leaders w) =
          S <$> filter (fun i => dur r < at_pos w i) (leaders w)) as Hf.
  { clear IH. generalize (leaders w) as l. intros l. induction l as [|j l IHl]; [done|].
    rewrite fmap_cons, !filter_cons, IHl. change (at_pos (a :: w) (S j)) with (at_pos w j).
    by case_decide. }
  destruct (forallb _ w); cbn [andb].
  - rewrite filter_cons, Hf. change (at_pos (a :: w) 0) with (dur a).
    destruct (Z.ltb_spec (dur r) (dur a)).
    + by rewrite decide_True by lia.
    + by rewrite decide_False by lia.
  - by rewrite Hf.
Qed.

Lemma leaders_sorted w : StronglySorted (fun i j => at_pos w j < at_pos w i) (leaders w).
Proof.
  induction w as [|a w IH]; [constructor|]. cbn [leaders].
  assert (StronglySorted (fun i j => at_pos (a :: w) j < at_pos (a :: w) i) (S <$> leaders w)) as Hs.
  { induction IH as [|i l Hl IHl Hi]; [constructor|]. rewrite fmap_cons. constructor; [done|].
    apply Forall_fmap. exact Hi. }
  destruct (forallb _ w) eqn:Hall; [|done]. constructor; [done|]. apply Forall_fmap, Forall_forall.
  intros j Hj%leaders_lt. simpl. unfold at_pos. simpl.
  destruct (lookup_lt_is_Some_2 w j Hj) as [r Hr]. rewrite Hr. simpl.
  rewrite forallb_forall in Hall. specialize (Hall r). apply Z.ltb_lt, Hall.
  apply list_elem_of_In, list_elem_of_lookup. eauto.
Qed.

(** The first leader holds the maximum. *)
Lemma leaders_head w :
  w <> [] -> exists i l r, leaders w = i :: l /\ w !! i = Some r /\
    Forall (fun r' => dur r' <= dur r) w.
Proof.
  induction w as [|a w IH]; [done|]. intros _. cbn [leaders].
  destruct (forallb (fun r' => dur r' <? dur a) w) eqn:Hall.
  - exists 0%nat, (S <$> leaders w), a. split; [done|]. split; [done|]. constructor; [lia|].
    apply Forall_forall. intros r Hr%list_elem_of_In. rewrite forallb_forall in Hall.
    specialize (Hall r Hr). apply Z.ltb_lt in Hall. lia.
  - destruct w as [|b w]; [done|]. destruct IH as (i & l & r & Hl & Hr & Hmax); [done|].
    exists (S i), (S <$> l), r. rewrite Hl. split; [done|]. split; [done|]. constructor; [|done].
    destruct (decide (dur a <= dur r)) as [|Hgt]; [done|]. exfalso.
    assert (forallb (fun r' => dur r' <? dur a) (b :: w) = true) as Htrue; [|congruence].
    apply forallb_forall. intros x Hx%list_elem_of_In. apply Z.ltb_lt.
    rewrite Forall_forall in Hmax. specialize (Hmax x Hx). lia.
Qed.

(** ** Lemmas: the ring *)

Lemma slot_shift n latest len i : slot n latest (S len) (S i) = slot n latest len i.
Proof. unfold slot. f_equal. lia. Qed.

Lemma slot_range n latest len i : 0 < n -> 0 <= slot n latest len i < n.
Proof. intros. unfold slot. apply Z.mod_pos_bound. lia. Qed.

Lemma slot_next n latest len i :
  0 < n -> slot n ((latest + 1) mod n) (S len) i = slot n latest len i.
Proof.
  intros Hn. unfold slot.
  replace ((latest + 1) mod n + 1 - Z.of_nat (S len) + Z.of_nat i)
    with ((latest + 1) mod n + (Z.of_nat i - Z.of_nat len)) by lia.
  rewrite Zplus_mod_idemp_l. f_equal. lia.
Qed.

Lemma slot_inj n latest len i j :
  0 < n -> Z.of_nat len <= n -> (i < len)%nat -> (j < len)%nat ->
  slot n latest len i = slot n latest len j -> i = j.
Proof.
  intros Hn Hlen Hi Hj Heq. unfold slot in Heq.
  set (b := latest + 1 - Z.of_nat len) in *.
  assert ((Z.of_nat i - Z.of_nat j) mod n = 0) as Hmod.
  { replace (Z.of_nat i - Z.of_nat j) with ((b + Z.of_nat i) - (b + Z.of_nat j)) by lia.
    rewrite Zminus_mod, Heq, Z.sub_diag. apply Z.mod_0_l. lia. }
  apply Z.mod_divide in Hmod as [q Hq]; [|lia].
  assert (q = 0) as -> by nia. lia.
Qed.

(** The slot of the next frame is free while the window is not full. *)
Lemma slot_fresh n latest len i :
  0 < n -> Z.of_nat len < n -> (i < len)%nat -> slot n latest len i <> (latest + 1) mod n.
Proof.
  intros Hn Hlen Hi Heq. rewrite <-(slot_next n latest len i Hn) in Heq.
  assert (slot n ((latest + 1) mod n) (S len) i = slot n ((latest + 1) mod n) (S len) len) as He.
  { rewrite Heq. unfold slot. replace ((latest + 1) mod n + 1 - Z.of_nat (S len) + Z.of_nat len)
      with ((latest + 1) mod n) by lia. by rewrite Zmod_mod. }
  apply slot_inj in He; lia.
Qed.

(** ** Lemmas: the steps of the loop *)

Lemma StronglySorted_snoc {A} (R : A -> A -> Prop) l x :
  StronglySorted R (l ++ [x]) -> StronglySorted R l /\ Forall (fun y => R y x) l.
Proof.
  induction l as [|y l IH]; simpl; [intros _; by repeat constructor|].
  intros Hs. apply StronglySorted_inv in Hs as [Hs Hall]. destruct (IH Hs) as [H1 H2].
  apply Forall_app in Hall as [Hl [Hx _]%Forall_cons]. split; by constructor.
Qed.

Lemma filter_keep {A} (P : A -> Prop) `{forall x, Decision (P x)} (l : list A) :
  Forall P l -> filter P l = l.
Proof. induction 1 as [|x l Hx Hl IH]; [done|]. by rewrite filter_cons, decide_True, IH. Qed.

Lemma pop_smaller_spec records x (f : nat -> Z) (g : nat -> Z) L :
  (forall i, i ∈ L -> exists r, arr_get records (f i) = Some r /\ totalDurationUs r = g i) ->
  StronglySorted (fun i j => g j < g i) L ->
  pop_smaller records x (rev (f <$> L)) = Some (rev (f <$> filter (fun i => x < g i) L)).
Proof.
  induction L as [|j L IH] using rev_ind; intros Hr Hs; [done|].
  apply StronglySorted_snoc in Hs as [Hs Hall].
  rewrite filter_app, filter_cons, filter_nil, !fmap_app, rev_app_distr. simpl.
  destruct (Hr j) as (r & Hj & Hd); [apply elem_of_app; right; apply list_elem_of_here|].
  rewrite Hj. simpl. rewrite Hd. destruct (Z.leb_spec (g j) x).
  - rewrite decide_False by lia. simpl. rewrite app_nil_r. apply IH; [|done].
    intros i Hi. apply Hr, elem_of_app. by left.
  - rewrite decide_True by lia. rewrite (filter_keep (fun i => x < g i) L), rev_app_distr; [done|].
    eapply Forall_impl; [exact Hall|]. simpl. lia.
Qed.

Lemma c_rem_mod a n : 0 < n -> 0 <= a -> c_rem a n = Some (a mod n).
Proof. intros. unfold c_rem. rewrite decide_False by lia. by rewrite Z.rem_mod_nonneg by lia. Qed.

Lemma arr_get_in {A} (l : list A) i : 0 <= i < Z.of_nat (length l) -> exists x, arr_get l i = Some x.
Proof. intros Hi. apply arr_get_is_Some in Hi as [x Hx]. eauto. Qed.

Lemma arr_get_elem {A} (l : list A) i x : arr_get l i = Some x -> x ∈ l.
Proof. unfold arr_get. case_decide; [|done]. intros Hx. apply list_elem_of_lookup. eauto. Qed.

Lemma sum_dur_bound w : Forall (fun r => in_s 32 (dur r)) w -> Z.abs (sum_dur w) <= Z.of_nat (length w) * 2 ^ 31.
Proof.
  induction 1 as [|r w Hr Hw IH]; [done|]. unfold sum_dur, in_s in *. cbn [foldr length].
  change (2 ^ (32 - 1)) with (2 ^ 31) in Hr. lia.
Qed.

Lemma count_bound f w : 0 <= count f w <= Z.of_nat (length w).
Proof. induction w as [|r w IH]; unfold count in *; cbn [foldr length]; [lia|]. destruct (f r); lia. Qed.

(** A window within the ring has totals within their widths. *)
Lemma window_fits w n :
  Z.of_nat (length w) <= n -> n < 2 ^ 31 -> Forall (fun r => in_s 32 (dur r)) w ->
  in_s 64 (sum_dur w) /\ in_s 32 (count isMissedCycle w) /\ in_s 32 (Z.of_nat (length w)).
Proof.
  intros Hw Hn Hall. pose proof (sum_dur_bound w Hall). pose proof (count_bound isMissedCycle w).
  unfold in_s. change (2 ^ (64 - 1)) with (2 ^ 63). change (2 ^ (32 - 1)) with (2 ^ 31). nia.
Qed.

(** Making room drops the oldest frame exactly when the window is full. *)
Lemma evict_spec j0 s w :
  tracks j0 s w ->
  exists s1 w1, evict s = Some s1 /\ tracks j0 s1 w1 /\
    w1 = drop (length w + 1 - Z.to_nat (kMaxNumOfRecords s)) w /\
    mNumOfFrames s1 = Z.min (mNumOfFrames s) (kMaxNumOfRecords s - 1) /\
    kMaxNumOfRecords s1 = kMaxNumOfRecords s /\ kJankCheckTimeFactor s1 = kJankCheckTimeFactor s /\
    mAddedFramesForFPSCheck s1 = mAddedFramesForFPSCheck s /\ mRecords s1 = mRecords s /\
    mLastStartTimeNs s1 = mLastStartTimeNs s /\
    mLatestStartIntervalSumUs s1 = mLatestStartIntervalSumUs s /\
    mNumOfFrameFPSJitters s1 <= mNumOfFrameFPSJitters s.
Proof.
  intros Hrep. pose proof Hrep as [Hc Hl Hw Hlat Hfr Hrec Hq Hsum Hmiss Hjit Hcnt Hwid Hst].
  unfold evict. rewrite Hfr. destruct (Z.leb_spec (kMaxNumOfRecords s) (Z.of_nat (length w))) as [Hfull|Hfree].
  2: { exists s, w. replace (length w + 1 - Z.to_nat (kMaxNumOfRecords s))%nat with 0%nat by lia.
       rewrite drop_0. split_and!; try done. lia. }
  destruct w as [|x w]; [simpl in *; lia|]. cbn [length] in *.
  set (n := kMaxNumOfRecords s) in *. set (lt := mLatestRecordIndex s) in *.
  assert (slot n lt (S (length w)) 0 = (lt + 1) mod n) as Hslot0.
  { unfold slot. replace (lt + 1 - Z.of_nat (S (length w)) + Z.of_nat 0) with (lt + 1 + (-1) * n) by lia.
    by rewrite Z_mod_plus_full. }
  apply Forall_cons in Hwid as [Hx Hwid].
  destruct (window_fits w n) as (Hs64 & Hm32 & Hl32); [lia|lia|done|].
  assert (mSumOfDurationsUs s - totalDurationUs x = sum_dur w) as Hsum'
    by (rewrite Hsum; unfold sum_dur, dur; simpl; lia).
  set (missed' := if isMissedCycle x then mNumOfMissedCycles s - 1 else mNumOfMissedCycles s).
  assert (missed' = count isMissedCycle w) as Hmiss'
    by (unfold missed'; rewrite Hmiss; unfold count; simpl; destruct (isMissedCycle x); lia).
  set (jit' := if isFPSJitter x then mNumOfFrameFPSJitters s - 1 else mNumOfFrameFPSJitters s).
  assert (jit' = count isFPSJitter w + j0) as Hjit'
    by (unfold jit'; rewrite Hjit; unfold count; simpl; destruct (isFPSJitter x); lia).
  pose proof (count_bound isFPSJitter w) as Hcb.
  assert (jit' <= mNumOfFrameFPSJitters s) as Hjle by (unfold jit'; destruct (isFPSJitter x); lia).
  rewrite (checked_s_in 32 (lt + 1)) by (unfold in_s; lia). cbn [mbind option_bind].
  rewrite c_rem_mod by lia. simpl. rewrite <-Hslot0, (Hrec 0%nat x eq_refl). cbn [mbind option_bind].
  rewrite Hsum', (checked_s_in _ _ Hs64). cbn [mbind option_bind].
  assert ((if isMissedCycle x then checked_s 32 (mNumOfMissedCycles s - 1) else Some (mNumOfMissedCycles s))
    = Some missed') as ->.
  { unfold missed' in *. destruct (isMissedCycle x); [|done]. apply checked_s_in. by rewrite Hmiss'. }
  cbn [mbind option_bind].
  assert ((if isFPSJitter x then checked_s 32 (mNumOfFrameFPSJitters s - 1) else Some (mNumOfFrameFPSJitters s))
    = Some jit') as ->.
  { unfold jit' in *. destruct (isFPSJitter x); [|done]. apply checked_s_in. unfold in_s. lia. }
  cbn [mbind option_bind].
  replace (Z.of_nat (S (length w)) - 1) with (Z.of_nat (length w)) by lia.
  rewrite (checked_s_in _ _ Hl32). cbn [mbind option_bind].
  destruct (leaders_head (x :: w)) as (i & l & r & Hld & _ & _); [done|].
  assert (head (mRecordsIndQueue s) = Some (slot n lt (S (length w)) i)) as ->
    by (by rewrite Hq, Hld). cbn [mbind option_bind].
  eexists _, w. split; [done|].
  split; [|split; [|split; [simpl; lia|done]]].
  2: { replace (_ - Z.to_nat n)%nat with 1%nat by lia. reflexivity. }
  split; cbn -[Z.pow]; try done; try lia.
  - intros k rk Hk. fold n lt. rewrite <-slot_shift. by apply Hrec.
  - fold n lt. rewrite Hq, Hld.
    assert (tail_eq : forall L : list nat, slot n lt (S (length w)) <$> (S <$> L) = slot n lt (length w) <$> L).
    { intros L. rewrite <-list_fmap_compose. apply list_fmap_ext. intros k y _. apply slot_shift. }
    cbn [leaders] in Hld. destruct (forallb _ w).
    + injection Hld as <- <-. rewrite Z.eqb_refl. cbn [fmap list_fmap tail]. apply tail_eq.
    + rewrite <-Hld. assert (i <> 0%nat /\ (i < S (length w))%nat) as [Hi0 Hilt].
      { assert (i ∈ S <$> leaders w) as Hi by (rewrite Hld; apply list_elem_of_here).
        apply list_elem_of_fmap in Hi as (k & -> & Hk%leaders_lt). lia. }
      destruct (Z.eqb_spec (slot n lt (S (length w)) i) (slot n lt (S (length w)) 0)) as [He|He].
      * apply slot_inj in He; lia.
      * apply tail_eq.
  - intros _. by apply Hst.
Qed.

(** The jitter check reads inside the ring; only its sum can overflow. *)
Lemma jitter_check_None j0 s w jit latest interval :
  tracks j0 s w -> (jit = false \/ 3 <= kMaxNumOfRecords s) ->
  0 <= latest < kMaxNumOfRecords s -> jitter_check s jit latest interval = None ->
  jit = true /\
  ((mAddedFramesForFPSCheck s < 3 /\ ~ in_s 32 (mLatestStartIntervalSumUs s + interval)) \/
   (3 <= mAddedFramesForFPSCheck s /\ exists r, r ∈ mRecords s /\
      (~ in_s 32 (interval - startIntervalUs r) \/
       ~ in_s 32 (mLatestStartIntervalSumUs s + (interval - startIntervalUs r))))).
Proof.
  intros Hrep Hjit Hlat. unfold jitter_check, kTotalFramesForFPSCheck. destruct jit; [|done].
  intros Hnone. split; [done|].
  destruct (Z.ltb_spec (mAddedFramesForFPSCheck s) 3) as [Hadd|Hadd].
  - left. split; [done|]. intros Hin. destruct (_ <? _); [|done].
    by rewrite checked_s_in in Hnone.
  - right. split; [done|]. destruct Hjit as [?|Hcap]; [done|].
    destruct (arr_get_in (mRecords s)
      (if latest - 3 <? 0 then latest - 3 + kMaxNumOfRecords s else latest - 3)) as [r Hr].
    { rewrite (rep_len _ _ _ Hrep). destruct (Z.ltb_spec (latest - 3) 0); lia. }
    rewrite Hr in Hnone. cbn [mbind option_bind] in Hnone. exists r. split; [by eapply arr_get_elem|].
    destruct (decide (in_s 32 (interval - startIntervalUs r))) as [H1|]; [right|by left].
    rewrite (checked_s_in _ _ H1) in Hnone. intros H2. cbn [mbind option_bind] in Hnone.
    by rewrite (checked_s_in _ _ H2) in Hnone.
Qed.

(** It finds a jitter only among the frames added after the first three. *)
Lemma jitter_check_true s jit latest interval sum added :
  jitter_check s jit latest interval = Some (true, sum, added) -> jit = true /\ 3 <= mAddedFramesForFPSCheck s.
Proof.
  unfold jitter_check, kTotalFramesForFPSCheck. destruct jit; [|done].
  destruct (Z.ltb_spec (mAddedFramesForFPSCheck s) 3); [|done].
  destruct (_ <? _); [|done]. intros H'. by apply bind_Some in H' as (? & _ & [=]).
Qed.

(** The frame a report turns into. *)
Definition frame_of (factor : spec_float) (target : Z) (d : WorkDuration) (r : CycleRecord) : Prop :=
  dur r = wrap_s 32 (Z.quot (durationNanos d) 1000) /\
  isMissedCycle r = is_missed factor target (dur r).

(** Appending a frame to a window with room. *)
Lemma append_records n latest (records records' : list CycleRecord) w r :
  0 < n -> Z.of_nat (length w) < n -> -1 <= latest < n -> Z.of_nat (length records) = n ->
  (forall i x, w !! i = Some x -> arr_get records (slot n latest (length w) i) = Some x) ->
  arr_set records ((latest + 1) mod n) r = Some records' ->
  forall i x, (w ++ [r]) !! i = Some x ->
    arr_get records' (slot n ((latest + 1) mod n) (length (w ++ [r])) i) = Some x.
Proof.
  intros Hn Hw Hlat Hlen Hrec Hset i x Hi. rewrite length_app. cbn [length].
  replace (length w + 1)%nat with (S (length w)) by lia. rewrite slot_next by done.
  rewrite (arr_get_set _ _ _ _ _ Hset).
  destruct (decide (i < length w)%nat) as [Hlt|Hge].
  - rewrite lookup_app_l in Hi by done. rewrite decide_False; [by apply Hrec|].
    intros Heq. by apply (slot_fresh n latest (length w) i).
  - apply lookup_lt_Some in Hi as Hlt. rewrite length_app in Hlt. cbn [length] in Hlt.
    assert (i = length w) as -> by lia.
    rewrite lookup_app_r, Nat.sub_diag in Hi by lia. injection Hi as ->.
    rewrite decide_True; [done|]. unfold slot. f_equal. lia.
Qed.

Lemma leaders_slots j0 s w i :
  tracks j0 s w -> i ∈ leaders w ->
  exists r, arr_get (mRecords s)
    (slot (kMaxNumOfRecords s) (mLatestRecordIndex s) (length w) i) = Some r /\ dur r = at_pos w i.
Proof.
  intros Hrep Hi%leaders_lt. destruct (lookup_lt_is_Some_2 w i Hi) as [r Hr].
  exists r. split; [by apply (rep_records _ _ _ Hrep)|]. unfold at_pos. by rewrite Hr.
Qed.

Lemma sum_dur_snoc w r : sum_dur (w ++ [r]) = sum_dur w + dur r.
Proof. induction w as [|x w IH]; unfold sum_dur in *; simpl; [lia|]. rewrite IH. lia. Qed.

Lemma count_snoc f w r : count f (w ++ [r]) = count f w + (if f r then 1 else 0).
Proof. induction w as [|x w IH]; unfold count in *; simpl; [lia|]. rewrite IH. lia. Qed.

(** A frame with room for it is appended, if the jitter check is defined. *)
Lemma append_spec j0 s w b total start interval jt isum added target records :
  tracks j0 s w -> Z.of_nat (length w) < kMaxNumOfRecords s -> in_s 32 total ->
  let latest := (mLatestRecordIndex s + 1) mod kMaxNumOfRecords s in
  let missed := is_missed (kJankCheckTimeFactor s) target total in
  let r := mkRecord interval total missed jt in
  let jitters := if jt then mNumOfFrameFPSJitters s + 1 else mNumOfFrameFPSJitters s in
  arr_set (mRecords s) latest r = Some records -> jitters < 2 ^ 31 ->
  exists s', (
    frames ← checked_s 32 (mNumOfFrames s + 1);
    missedCycles ← (if missed then checked_s 32 (mNumOfMissedCycles s + 1) else Some (mNumOfMissedCycles s));
    rq ← pop_smaller records total (rev (mRecordsIndQueue s));
    sum ← checked_s 64 (mSumOfDurationsUs s + total);
    if decide (frames = 0) then None
    else
      Some (mkRecords (kMaxNumOfRecords s) (kJankCheckTimeFactor s) records (rev rq ++ [latest])
              (wrap_s 32 (Z.quot sum frames)) start latest missedCycles frames sum isum jitters added,
            updateFrameBuckets total missed b)) = Some (s', updateFrameBuckets total missed b) /\
    represents j0 s' (w ++ [r]) /\ kMaxNumOfRecords s' = kMaxNumOfRecords s /\
    kJankCheckTimeFactor s' = kJankCheckTimeFactor s /\ mLastStartTimeNs s' = start.
Proof.
  intros Hrep Hw1 Htot latest missed r jitters Hset Hjmax.
  pose proof Hrep as [Hc Hl Hw Hlat Hfr Hrec Hq Hsum Hmiss Hjt [Hj0 _] Hwid Hst].
  unfold latest in *. clear latest. assert (0 < kMaxNumOfRecords s) as Hcp by lia.
  set (n := kMaxNumOfRecords s) in *. set (lt := mLatestRecordIndex s) in *.
  assert (0 <= (lt + 1) mod n < n) as Hlt by (apply Z.mod_pos_bound; lia).
  pose proof (append_records n lt (mRecords s) records w r Hcp Hw1 Hlat Hl Hrec Hset) as Hrec'.
  assert (length (w ++ [r]) = S (length w)) as Hlen by (rewrite length_app; simpl; lia).
  assert (Forall (fun r => in_s 32 (dur r)) (w ++ [r])) as Hwid'
    by (apply Forall_app; split; [done|apply Forall_singleton; exact Htot]).
  destruct (window_fits (w ++ [r]) n) as (Hs64 & Hm32 & Hl32); [lia|lia|done|].
  rewrite Hlen in Hl32. rewrite Hfr, Hmiss, Hsum.
  replace (Z.of_nat (length w) + 1) with (Z.of_nat (S (length w))) by lia.
  rewrite (checked_s_in _ _ Hl32). cbn [mbind option_bind].
  assert ((if missed then checked_s 32 (count isMissedCycle w + 1) else Some (count isMissedCycle w))
    = Some (count isMissedCycle (w ++ [r]))) as ->.
  { rewrite count_snoc in *. change (isMissedCycle r) with missed in *.
    destruct missed; [by apply checked_s_in|f_equal; lia]. }
  cbn [mbind option_bind].
  assert (pop_smaller records total (rev (mRecordsIndQueue s)) =
    Some (rev (slot n lt (length w) <$> filter (fun i => total < at_pos w i) (leaders w)))) as Hpop.
  { rewrite Hq. apply pop_smaller_spec; [|apply leaders_sorted].
    intros i Hi. destruct (leaders_slots j0 s w i Hrep Hi) as (ri & Hri & Hd).
    exists ri. split; [|done]. rewrite (arr_get_set _ _ _ _ _ Hset), decide_False; [done|].
    intros Heq. symmetry in Heq. revert Heq. apply slot_fresh; [done|done|by apply leaders_lt]. }
  rewrite Hpop. cbn [mbind option_bind].
  assert (sum_dur w + total = sum_dur (w ++ [r])) as Hsn by (by rewrite sum_dur_snoc).
  rewrite Hsn, (checked_s_in _ _ Hs64). cbn [mbind option_bind]. rewrite decide_False by lia.
  rewrite rev_involutive. eexists. split; [reflexivity|]. split; [|by repeat split].
  split; [split; cbn -[Z.pow]; try done|]; cbn -[Z.pow Z.of_nat length]; rewrite ?Hlen.
  - rewrite (arr_set_length _ _ _ _ Hset). done.
  - fold n. lia.
  - fold n. lia.
  - done.
  - fold n lt. rewrite leaders_snoc, fmap_app. f_equal.
    + apply list_fmap_ext. intros k i _. symmetry. by apply slot_next.
    + simpl. unfold slot. f_equal.
      replace ((lt + 1) mod n + 1 - Z.of_nat (S (length w)) + Z.of_nat (length w))
        with ((lt + 1) mod n) by lia. by rewrite Zmod_mod.
  - unfold jitters. rewrite count_snoc, Hjt. simpl. destruct jt; lia.
  - lia.
  - done.
Qed.

(** One report: the oldest frame goes if the window is full, the new one
    comes, unless its arithmetic overflows. *)
Lemma add_one_spec j0 s w b target jit d :
  tracks j0 s w -> (jit = false \/ 3 <= kMaxNumOfRecords s) ->
  match add_one target jit (Some (s, b)) d with
  | Some (s', b') => exists r,
      represents j0 s' (drop (length w + 1 - Z.to_nat (kMaxNumOfRecords s)) w ++ [r]) /\
      frame_of (kJankCheckTimeFactor s) target d r /\
      kMaxNumOfRecords s' = kMaxNumOfRecords s /\ kJankCheckTimeFactor s' = kJankCheckTimeFactor s /\
      mLastStartTimeNs s' = start_of d
  | None => frame_overflows jit s d
  end.
Proof.
  intros Hrep0 Hjit.
  destruct (evict_spec j0 s w Hrep0) as (s1 & w1 & Hev & Hrep & <- & Hf0 & Hn1 & Hf1 & Ha1 & Hr1 & Hl1 & Hi1 & Hj1).
  unfold add_one, frame_overflows. cbn [mbind option_bind]. rewrite Hev. cbn [mbind option_bind]. cbv zeta.
  rewrite <-Hf0, <-Ha1, <-Hr1, <-Hl1, <-Hi1. rewrite <-Hn1, <-Hf1 in *. fold (start_of d).
  pose proof Hrep as [Hc Hl Hw Hlat Hfr Hrec Hq Hsum Hmiss Hjt Hcnt Hwid Hst].
  rewrite (checked_s_in 32 (mLatestRecordIndex s1 + 1)) by (unfold in_s; lia). cbn [mbind option_bind].
  rewrite c_rem_mod by lia. cbn [mbind option_bind].
  destruct (decide (in_s 64 (start_of d))) as [Hs64|Hs64].
  2: { rewrite (checked_s_out _ _ Hs64). cbn [mbind option_bind]. by left. }
  rewrite (checked_s_in _ _ Hs64). cbn [mbind option_bind].
  set (since := start_of d - mLastStartTimeNs s1).
  set (interval := if 0 <? mNumOfFrames s1 then wrap_s 32 (Z.quot since 1000) else 0).
  destruct (decide (0 < mNumOfFrames s1 /\ ~ in_s 64 since)) as [Hbad|Hok].
  { rewrite (proj2 (Z.ltb_lt 0 _)) by apply Hbad. rewrite (checked_s_out 64 since) by apply Hbad. cbn [mbind option_bind]. right. left. exact Hbad. }
  assert ((if 0 <? mNumOfFrames s1 then since0 ← checked_s 64 since; Some (wrap_s 32 (Z.quot since0 1000)) else Some 0)
    = Some interval) as ->.
  { unfold interval. destruct (Z.ltb_spec 0 (mNumOfFrames s1)); [|done].
    destruct (decide (in_s 64 since)) as [Hin|]; [by rewrite (checked_s_in _ _ Hin)|tauto]. }
  cbn [mbind option_bind].
  assert (0 <= (mLatestRecordIndex s1 + 1) mod kMaxNumOfRecords s1 < kMaxNumOfRecords s1) as Hlt
    by (apply Z.mod_pos_bound; lia).
  destruct (jitter_check s1 jit _ interval) as [[[jt isum] added]|] eqn:Hjc.
  2: { cbn [mbind option_bind]. destruct (jitter_check_None _ _ _ _ _ _ Hrep Hjit Hlt Hjc) as (-> & [[? ?]|[? ?]]).
       - right. right. left. done.
       - right. right. right. split_and!; [done|done|by left]. }
  cbn [mbind option_bind].
  set (jitters := if jt then mNumOfFrameFPSJitters s1 + 1 else mNumOfFrameFPSJitters s1).
  pose proof (count_bound isFPSJitter w1).
  destruct (decide (jitters < 2 ^ 31)) as [Hjm|Hjm].
  2: { destruct jt; [|lia]. destruct (jitter_check_true _ _ _ _ _ _ Hjc) as [-> ?].
       assert (mNumOfFrameFPSJitters s = 2 ^ 31 - 1) as Hmax by (destruct (rep_counter _ _ _ Hrep0); lia).
       rewrite (checked_s_out 32 (mNumOfFrameFPSJitters s1 + 1)) by (unfold in_s; lia). cbn [mbind option_bind]. right. right. right. split_and!; [done|done|by right]. }
  assert ((if jt then checked_s 32 (mNumOfFrameFPSJitters s1 + 1) else Some (mNumOfFrameFPSJitters s1))
    = Some jitters) as ->.
  { unfold jitters in *. destruct jt; [|done]. apply checked_s_in. unfold in_s. lia. }
  cbn [mbind option_bind].
  set (total := wrap_s 32 (Z.quot (durationNanos d) 1000)).
  set (r := mkRecord interval total (is_missed (kJankCheckTimeFactor s1) target total) jt).
  destruct (arr_set (mRecords s1) ((mLatestRecordIndex s1 + 1) mod kMaxNumOfRecords s1) r) as [records|] eqn:Hset.
  2: { assert (is_Some (arr_set (mRecords s1) ((mLatestRecordIndex s1 + 1) mod kMaxNumOfRecords s1) r))
         as [? ?]; [|congruence]. apply arr_set_is_Some. lia. }
  cbn [mbind option_bind].
  destruct (append_spec j0 s1 w1 b total (start_of d) interval jt isum added target records Hrep)
    as (s' & Hs' & Hrep' & Hn' & Hf' & Hl'); [lia|by apply wrap_s_range|done|done|].
  cbv zeta in Hs'. fold jitters in Hs'. rewrite Hs'. exists r. split_and!; [exact Hrep'|by split|done|done|done].
Qed.

(** The last [n] frames. *)
Definition keep_last (n : nat) (l : list CycleRecord) : list CycleRecord := drop (length l - n) l.

Lemma keep_last_snoc n w r :
  (0 < n)%nat -> keep_last n (w ++ [r]) = drop (length w + 1 - n) w ++ [r].
Proof.
  intros Hn. unfold keep_last. rewrite length_app. cbn [length]. by rewrite drop_app_le by lia.
Qed.

Lemma keep_last_snoc_keep n l r :
  (0 < n)%nat -> keep_last n (keep_last n l ++ [r]) = keep_last n (l ++ [r]).
Proof.
  intros Hn. rewrite !keep_last_snoc by done. f_equal. unfold keep_last.
  rewrite drop_drop, length_drop. f_equal. lia.
Qed.

Lemma add_one_None target jit ds : foldl (add_one target jit) None ds = None.
Proof. induction ds as [|d ds IH]; [done|exact IH]. Qed.

Lemma add_all_spec target jit ds : forall j0 s l b,
  represents j0 s (keep_last (Z.to_nat (kMaxNumOfRecords s)) l) ->
  (jit = false \/ 3 <= kMaxNumOfRecords s) ->
  match addReportedDurations s ds target b jit with
  | Some (s', b') => exists rs, represents j0 s' (keep_last (Z.to_nat (kMaxNumOfRecords s)) (l ++ rs)) /\
      Forall2 (frame_of (kJankCheckTimeFactor s) target) ds rs
  | None => exists ds1 d ds2 s1 b1, ds = ds1 ++ d :: ds2 /\
      addReportedDurations s ds1 target b jit = Some (s1, b1) /\ frame_overflows jit s1 d
  end.
Proof.
  unfold addReportedDurations. induction ds as [|d ds IH]; intros j0 s l b Hrep Hjit.
  - exists []. rewrite app_nil_r. by split.
  - destruct Hrep as [Htr _]. cbn [foldl].
    pose proof (add_one_spec j0 s _ b target jit d Htr Hjit) as Hadd.
    destruct (add_one target jit (Some (s, b)) d) as [[s1 b1]|] eqn:H1.
    2: { rewrite add_one_None. by exists [], d, ds, s, b. }
    destruct Hadd as (r & Hrep1 & Hf & Hn & Hk & _).
    pose proof (rep_cap _ _ _ Htr) as Hcap.
    rewrite <-keep_last_snoc, keep_last_snoc_keep in Hrep1 by lia. rewrite <-Hn in Hrep1.
    specialize (IH j0 s1 (l ++ [r]) b1 Hrep1 ltac:(by rewrite Hn)). rewrite Hn, Hk in IH.
    destruct (foldl _ (Some (s1, b1)) ds) as [[s' b']|].
    + destruct IH as (rs & Hrep' & Hall). exists (r :: rs). rewrite <-app_assoc in Hrep'.
      split; [done|by constructor].
    + destruct IH as (ds1 & d1 & ds2 & s2 & b2 & -> & Hf2 & Ho). exists (d :: ds1), d1, ds2, s2, b2.
      split; [done|]. cbn [foldl]. by rewrite H1.
Qed.

(** Without the jitter check only the starts can overflow. *)
Lemma add_all_defined target ds : forall j0 s w b,
  tracks j0 s w -> starts_fit (mLastStartTimeNs s) ds ->
  addReportedDurations s ds target b false <> None.
Proof.
  unfold addReportedDurations. induction ds as [|d ds IH]; intros j0 s w b Htr Hfit; [done|].
  destruct Hfit as (Hs & Hd & Hfit). cbn [foldl].
  pose proof (add_one_spec j0 s w b target false d Htr (or_introl eq_refl)) as Hadd.
  destruct (add_one target false (Some (s, b)) d) as [[s1 b1]|].
  - destruct Hadd as (r & [Htr1 _] & _ & _ & _ & Hl1). eapply IH; [exact Htr1|by rewrite Hl1].
  - destruct Hadd as [?|[[_ ?]|[[? _]|[? _]]]]; done.
Qed.

Lemma records_new_represents n f : 0 < n < 2 ^ 31 -> represents 0 (records_new n f) [].
Proof.
  intros Hn. split; [|done]. split; simpl; try done; try lia.
  rewrite length_replicate. lia.
Qed.

Lemma keep_last_short n l : (length l <= n)%nat -> keep_last n l = l.
Proof. intros Hle. unfold keep_last. replace (length l - n)%nat with 0%nat by lia. apply drop_0. Qed.

(** ** Lemmas: queries *)

Lemma max_spec j0 s w :
  tracks j0 s w ->
  (w = [] -> getMaxDuration s = Some None) /\
  (w <> [] -> exists r, r ∈ w /\ Forall (fun x => dur x <= dur r) w /\
     getMaxDuration s = Some (Some (dur r))).
Proof.
  intros Htr. unfold getMaxDuration. rewrite (rep_queue _ _ _ Htr). split; [by intros ->|].
  intros Hne. destruct (leaders_head w Hne) as (i & l & r & -> & Hr & Hmax). exists r.
  split; [apply list_elem_of_lookup; eauto|]. split; [done|]. cbn [fmap list_fmap].
  by rewrite (rep_records _ _ _ Htr i r Hr).
Qed.

(** The slot before the slot of position [S i]. *)
Lemma slot_pred n latest len i :
  0 < n ->
  (if slot n latest len (S i) =? 0 then n - 1 else slot n latest len (S i) - 1) =
  slot n latest len i.
Proof.
  intros Hn. unfold slot.
  replace (latest + 1 - Z.of_nat len + Z.of_nat (S i))
    with (latest + 1 - Z.of_nat len + Z.of_nat i + 1) by lia.
  set (a := latest + 1 - Z.of_nat len + Z.of_nat i).
  pose proof (Z.mod_pos_bound a n Hn) as Hb. pose proof (Z.mod_pos_bound (a + 1) n Hn) as Hb1.
  assert ((a + 1) mod n = (a mod n + 1) mod n) as Heq by (by rewrite Zplus_mod_idemp_l).
  destruct (decide (a mod n + 1 = n)) as [He|He].
  - rewrite Heq, He, Z_mod_same_full. simpl. lia.
  - rewrite Heq, (Z.mod_small (a mod n + 1)) by lia. destruct (Z.eqb_spec (a mod n + 1) 0); lia.
Qed.

Definition slow_frame (fpsLowRateThreshold : Z) (r : CycleRecord) : bool :=
  SFleb (Binary64.div (Binary64.of_Z 1000000) (Binary64.of_Z fpsLowRateThreshold))
    (Binary64.of_Z (startIntervalUs r)).

(** The last three frames are read, newest first. *)
Lemma low_rate_spec j0 s w fps r3 r2 r1 w0 :
  tracks j0 s w -> w = w0 ++ [r3; r2; r1] ->
  isLowFrameRate s fps = Some (forallb (slow_frame fps) [r1; r2; r3]).
Proof.
  intros Htr ->. pose proof Htr as [[Hc _] Hl Hw Hlat Hfr Hrec _ _ _ _ _ _ Hst].
  rewrite !length_app in *. cbn [length] in *. unfold isLowFrameRate.
  rewrite (proj2 (Z.leb_le 3 _)) by lia. cbv zeta.
  set (n := kMaxNumOfRecords s) in *. set (lt := mLatestRecordIndex s) in *.
  set (len := (length w0 + 3)%nat) in *. set (k := length w0) in *.
  assert (forall i r, [r3; r2; r1] !! i = Some r ->
    arr_get (mRecords s) (slot n lt len (k + i)) = Some r) as Hlast.
  { intros i r Hi. apply Hrec. rewrite lookup_app_r by lia. fold k.
    by replace (k + i - k)%nat with i by lia. }
  assert (lt = slot n lt len (S (S k))) as Hlt.
  { unfold slot. replace (lt + 1 - Z.of_nat len + Z.of_nat (S (S k))) with lt by lia.
    symmetry. apply Z.mod_small. assert (0 <= lt); [|lia]. apply Hst. by destruct w0. }
  assert (forall i, (if slot n lt len (S i) =? 0 then n - 1 else slot n lt len (S i) - 1) =
    slot n lt len i) as Hpred by (intros i; by apply slot_pred).
  rewrite Hlt, !Hpred.
  pose proof (Hlast 2%nat r1 eq_refl) as H1. pose proof (Hlast 1%nat r2 eq_refl) as H2.
  pose proof (Hlast 0%nat r3 eq_refl) as H3.
  replace (k + 2)%nat with (S (S k)) in H1 by lia. replace (k + 1)%nat with (S k) in H2 by lia.
  rewrite Nat.add_0_r in H3. rewrite H1, H2, H3. cbn [mbind option_bind]. unfold slow_frame. simpl.
  destruct (SFleb _ (Binary64.of_Z (startIntervalUs r1))); [|done]. simpl.
  destruct (SFleb _ (Binary64.of_Z (startIntervalUs r2))); [|done]. simpl.
  by rewrite andb_true_r.
Qed.

(** ** Properties *)


(** What the queries answer about the window: the maximum, which the
    queue holds without scanning, the average, the numbers of frames, of missed
    cycles and of jitters, and whether the last three frames were all slow. *)
Lemma session_queries_spec j0 s w :
  represents j0 s w ->
  (w = [] -> getMaxDuration s = Some None /\ getAvgDuration s = None) /\
  (w <> [] -> exists r, r ∈ w /\ Forall (fun x => dur x <= dur r) w /\
     getMaxDuration s = Some (Some (dur r)) /\
     getAvgDuration s = Some (wrap_s 32 (Z.quot (sum_dur w) (Z.of_nat (length w))))) /\
  getNumOfRecords s = Z.of_nat (length w) /\ getNumOfMissedCycles s = count isMissedCycle w /\
  getNumOfFPSJitters s = count isFPSJitter w + j0 /\
  (forall fps, isLowFrameRate s fps =
     Some (match reverse w with
           | r1 :: r2 :: r3 :: _ => forallb (slow_frame fps) [r1; r2; r3]
           | _ => false
           end)).
Proof.
  intros [Htr Havg]. destruct (max_spec j0 s w Htr) as [Hmax0 Hmax].
  pose proof (rep_frames _ _ _ Htr) as Hfr. split_and!; [| |done|apply Htr|apply Htr|].
  - intros ->. split; [auto|]. unfold getAvgDuration. by rewrite Hfr.
  - intros Hne. destruct (Hmax Hne) as (r & Hin & Hall & Hm). exists r.
    split; [done|]. split; [done|]. split; [done|]. unfold getAvgDuration. rewrite Hfr, Havg by done.
    destruct w; [done|]. by rewrite (proj2 (Z.leb_gt _ 0)) by (simpl; lia).
  - intros fps. destruct (reverse w) as [|r1 [|r2 [|r3 l]]] eqn:Hw;
      apply (f_equal reverse) in Hw; rewrite reverse_involutive in Hw.
    4: { rewrite !reverse_cons, <-!app_assoc in Hw. by apply (low_rate_spec j0 s w fps r3 r2 r1 (reverse l)). }
    all: unfold isLowFrameRate; rewrite Hfr, Hw; reflexivity.
Qed.

(** Reporting without the jitter check always leaves no sum of intervals,
    so asking for the frame rate afterwards, as the session does for every
    SURFACEFLINGER session, divides by zero. *)
Lemma fps_without_jitter_check s ds target b s' b' :
  ds <> [] -> addReportedDurations s ds target b false = Some (s', b') -> getLatestFPS s' = None.
Proof.
  intros Hne. destruct ds as [|d ds _] using rev_ind; [done|].
  unfold addReportedDurations. rewrite foldl_app. cbn [foldl].
  destruct (foldl _ _ ds) as [[s1 b1]|]; [|done]. unfold add_one. cbn [mbind option_bind].
  intros H'. repeat (apply bind_Some in H' as (? & ? & H') || case_match); simplify_eq; try done.
  all: match goal with Hj : jitter_check _ _ _ _ = _ |- _ => cbn in Hj; by simplify_eq end.
Qed.

(** ** Witnesses *)

Definition demo_records : SessionRecords := records_new 5 (S754_finite false 6305039478318694 (-52)).

Definition demo_durations : list WorkDuration :=
  [mkWork 20000000 9000000; mkWork 40000000 30000000; mkWork 60000000 8000000].

