(* ===== verification/SessionTasks.v ===== *)
(** * power/SessionTaskMap.{h,cpp}: which sessions a task belongs to

    A session's value is shared by [shared_ptr] between the session table and
    the vectors of its tasks, and its votes are shared again by every copy of
    the value, so values and votes live in stores indexed by address; an
    operation that allocates takes the new address.  The class has no lock:
    its callers hold theirs, so every operation is one step.

    The trace strings of [SessionValueEntry] are left out. *)

From S2P Require Import Prelude Votes SessionRecords.

(** ** Data *)

Record HeurBoostStatistics := mkHeur {
  lightModeFrames : Z; moderateModeFrames : Z; severeModeFrames : Z
}.

Record SessionValueEntry := mkSession {
  sessionId : Z; tgid : Z; uid : Z; idString : string; isActive : bool; isAppSession : bool;
  lastUpdatedTime : Z; votes_ptr : Z; sessFrameBuckets : FrameBuckets; isPowerEfficient : bool;
  hBoostModeDist : HeurBoostStatistics
}.

Record ValEntry := mkVal { val : Z; linkedTasks : list Z }.

Record SessionTaskMap := mkTaskMap {
  values : gmap Z SessionValueEntry;      (* SessionValueEntry objects *)
  voters : gmap Z votes;                  (* Votes objects *)
  mSessions : gmap Z ValEntry;            (* session id -> entry *)
  mTasks : gmap Z (list Z)                (* task id -> session values *)
}.

Definition empty_map : SessionTaskMap := mkTaskMap ∅ ∅ ∅ ∅.

(** ** Operations *)

(** [std::find] and [erase] of the first occurrence; [None]: not found. *)
Fixpoint erase_first (x : Z) (l : list Z) : option (list Z) :=
  match l with
  | [] => None
  | y :: l' => if decide (y = x) then Some l' else (y ::.) <$> erase_first x l'
  end.

(** [mTasks[taskId].push_back(p)]: [operator[]] creates the vector. *)
Definition push_task (p : Z) (tasks : gmap Z (list Z)) (taskId : Z) : gmap Z (list Z) :=
  <[taskId := default [] (tasks !! taskId) ++ [p]]> tasks.

Definition with_sessionId (e : SessionValueEntry) (sid : Z) : SessionValueEntry :=
  mkSession sid (tgid e) (uid e) (idString e) (isActive e) (isAppSession e) (lastUpdatedTime e)
    (votes_ptr e) (sessFrameBuckets e) (isPowerEfficient e) (hBoostModeDist e).

Definition add (s : SessionTaskMap) (sid : Z) (sv : SessionValueEntry) (taskIds : list Z)
    (addr : Z) : bool * SessionTaskMap :=
  match mSessions s !! sid with
  | Some _ => (false, s)
  | None =>
      (true, mkTaskMap (<[addr := with_sessionId sv sid]> (values s)) (voters s)
               (<[sid := mkVal addr taskIds]> (mSessions s))
               (foldl (push_task addr) (mTasks s) taskIds))
  end.

(** [None]: a dangling pointer. *)
Definition addVote (s : SessionTaskMap) (sid voteId uclampMin uclampMax startTime durationNs : Z)
    : option SessionTaskMap :=
  match mSessions s !! sid with
  | None => Some s
  | Some entry =>
      e ← values s !! val entry;
      vs ← voters s !! votes_ptr e;
      let v := mkVote true startTime durationNs (mkRange uclampMin uclampMax) in
      Some (mkTaskMap (values s) (<[votes_ptr e := votes_add vs voteId v]> (voters s))
              (mSessions s) (mTasks s))
  end.

Definition findSession (s : SessionTaskMap) (sid : Z) : option Z := val <$> mSessions s !! sid.

(** One session of the loop of [getTaskVoteRange]; [base] and [offset] are the
    efficiency hints, and [*offset] of an empty optional is undefined. *)
Definition confine_session (s : SessionTaskMap) (timeNow : Z) (base offset : option Z)
    (range : option UclampRange) (p : Z) : option UclampRange :=
  r ← range;
  e ← values s !! p;
  if negb (isActive e) then Some r
  else
    vs ← voters s !! votes_ptr e;
    let r1 := getUclampRange vs r timeNow in
    match (if isPowerEfficient e then base else None) with
    | None => Some r1
    | Some b =>
        if allTimedOut vs timeNow then Some (mkRange (uclampMin r1) (Z.min (uclampMax r1) b))
        else
          o ← offset;
          Some (mkRange (uclampMin r1) (Z.min (uclampMax r1) (uclampMin r1 + o)))
    end.

Definition getTaskVoteRange (s : SessionTaskMap) (taskId timeNow : Z) (range : UclampRange)
    (base offset : option Z) : option UclampRange :=
  match mTasks s !! taskId with
  | None => Some default_range
  | Some l => foldl (confine_session s timeNow base offset) (Some range) l
  end.

Definition getSessionIds (s : SessionTaskMap) (taskId : Z) : option (list Z) :=
  match mTasks s !! taskId with
  | None => Some []
  | Some l => mapM (fun p => sessionId <$> values s !! p) l
  end.

Definition getTaskIds (s : SessionTaskMap) (sid : Z) : list Z :=
  match mSessions s !! sid with None => [] | Some entry => linkedTasks entry end.

Definition isAnyAppSessionActive (s : SessionTaskMap) (t : Z) : bool :=
  existsb (fun entry =>
             match values s !! val entry with
             | None => false
             | Some e =>
                 isAppSession e && isActive e &&
                 match voters s !! votes_ptr e with
                 | None => false
                 | Some vs => negb (allTimedOut vs t)
                 end
             end) (map_to_list (mSessions s)).*2.

(** One linked task of the loop of [remove]. *)
Definition unlink_task (p : Z) (tasks : gmap Z (list Z)) (taskId : Z) : gmap Z (list Z) :=
  match tasks !! taskId with
  | None => tasks
  | Some l =>
      match erase_first p l with
      | None => tasks
      | Some [] => delete taskId tasks
      | Some l' => <[taskId := l']> tasks
      end
  end.

Definition remove (s : SessionTaskMap) (sid : Z) : bool * SessionTaskMap :=
  match mSessions s !! sid with
  | None => (false, s)
  | Some entry =>
      (true, mkTaskMap (values s) (voters s) (delete sid (mSessions s))
               (foldl (unlink_task (val entry)) (mTasks s) (linkedTasks entry)))
  end.

Definition removeDeadTaskSessionMap (s : SessionTaskMap) (sid taskId : Z) : bool * SessionTaskMap :=
  match mSessions s !! sid, mTasks s !! taskId with
  | Some entry, Some l =>
      match erase_first (val entry) l with
      | None => (false, s)
      | Some _ =>
          (true, mkTaskMap (values s) (voters s) (mSessions s)
                   (unlink_task (val entry) (mTasks s) taskId))
      end
  | _, _ => (false, s)
  end.

(** [replace]: found, the threads added and removed, the map.  [None]: a
    dangling pointer. *)
Definition replace (s : SessionTaskMap) (sid : Z) (taskIds : list Z) (addr : Z)
    : option (bool * list Z * list Z * SessionTaskMap) :=
  match mSessions s !! sid with
  | None => Some (false, [], [], s)
  | Some entry =>
      svTmp ← values s !! val entry;
      let previousTaskIds := linkedTasks entry in
      let addedThreads := filter (fun tid => mTasks s !! tid = None) taskIds in
      let s1 := (remove s sid).2 in
      let s2 := (add s1 sid svTmp taskIds addr).2 in
      let removedThreads := filter (fun tid => mTasks s2 !! tid = None) previousTaskIds in
      Some (true, addedThreads, removedThreads, s2)
  end.

Definition sizeSessions (s : SessionTaskMap) : nat := size (mSessions s).
Definition sizeTasks (s : SessionTaskMap) : nat := size (mTasks s).

Definition map_idString (s : SessionTaskMap) (sid : Z) : option string :=
  match mSessions s !! sid with
  | None => Some EmptyString
  | Some entry => idString <$> values s !! val entry
  end.

Definition map_isAppSession (s : SessionTaskMap) (sid : Z) : option bool :=
  match mSessions s !! sid with
  | None => Some false
  | Some entry => isAppSession <$> values s !! val entry
  end.

(** ** Steps *)

Inductive map_step : SessionTaskMap -> SessionTaskMap -> Prop :=
  | MapAdd s sid sv taskIds addr : values s !! addr = None ->
      map_step s (add s sid sv taskIds addr).2
  | MapRemove s sid : map_step s (remove s sid).2
  | MapRemoveDead s sid t : map_step s (removeDeadTaskSessionMap s sid t).2
  | MapReplace s sid taskIds addr b added removed s' : values s !! addr = None ->
      replace s sid taskIds addr = Some (b, added, removed, s') -> map_step s s'
  | MapVote s sid i lo hi t d s' : addVote s sid i lo hi t d = Some s' -> map_step s s'.

(** ** Invariant *)

Definition occurrences (x : Z) (l : list Z) : nat := length (filter (fun y => y = x) l).

Record map_ok (s : SessionTaskMap) : Prop := {
  (* a session's value is live and carries its id *)
  mo_val : forall sid entry, mSessions s !! sid = Some entry ->
    exists e, values s !! val entry = Some e /\ sessionId e = sid;
  (* no task is kept without sessions *)
  mo_nonempty : forall t l, mTasks s !! t = Some l -> l <> [];
  (* a task points only at values of live sessions, and no more often than
     the session links the task *)
  mo_task : forall t l p, mTasks s !! t = Some l -> p ∈ l ->
    exists sid entry, mSessions s !! sid = Some entry /\ val entry = p /\
      (occurrences p l <= occurrences t (linkedTasks entry))%nat
}.

(** ** Lemmas: erasing *)

Lemma occurrences_cons x y l :
  occurrences x (y :: l) = ((if decide (y = x) then 1 else 0) + occurrences x l)%nat.
Proof. unfold occurrences. rewrite filter_cons. by case_decide. Qed.

Lemma occurrences_app x l1 l2 : occurrences x (l1 ++ l2) = (occurrences x l1 + occurrences x l2)%nat.
Proof. unfold occurrences. by rewrite filter_app, length_app. Qed.

Lemma occurrences_0 x l : occurrences x l = 0%nat <-> x ∉ l.
Proof.
  unfold occurrences. rewrite length_zero_iff_nil. split.
  - intros Hf Hx. assert (x ∈ filter (fun y => y = x) l) as Hin by (by apply list_elem_of_filter).
    rewrite Hf in Hin. by apply elem_of_nil in Hin.
  - intros Hx. apply filter_none. intros y Hy ->. done.
Qed.

Lemma erase_first_None x l : erase_first x l = None <-> x ∉ l.
Proof.
  induction l as [|y l IH]; simpl; [split; [intros _; apply not_elem_of_nil|done]|].
  rewrite not_elem_of_cons. case_decide as Hd.
  - split; [done|]. intros [? _]. congruence.
  - rewrite fmap_None, IH. split; [|tauto]. intros Hx. split; [congruence|done].
Qed.

(** The rest of the vector keeps its order. *)
Lemma erase_first_filter x l l' :
  erase_first x l = Some l' ->
  filter (fun y => y <> x) l' = filter (fun y => y <> x) l /\
  occurrences x l = S (occurrences x l') /\
  forall y, y <> x -> occurrences y l' = occurrences y l.
Proof.
  revert l'. induction l as [|y l IH]; intros l'; simpl; [done|]. case_decide as Hd.
  - intros [= <-]. subst y. rewrite filter_cons, decide_False by tauto.
    rewrite occurrences_cons, decide_True by done. split_and!; [done|done|].
    intros z Hz. rewrite occurrences_cons, decide_False by congruence. done.
  - destruct (erase_first x l) as [l0|]; simpl; [|done]. intros [= <-].
    destruct (IH l0 eq_refl) as (IH1 & IH2 & IH3).
    rewrite !filter_cons, !decide_True by done. rewrite !occurrences_cons, !decide_False by done.
    split_and!; [by rewrite IH1|lia|]. intros z Hz. rewrite !occurrences_cons, IH3 by done. done.
Qed.

(** ** Lemmas: the task table *)

Definition nonempty_tasks (tasks : gmap Z (list Z)) : Prop :=
  forall t l, tasks !! t = Some l -> l <> [].

Definition task_list (tasks : gmap Z (list Z)) (t : Z) : list Z := default [] (tasks !! t).

Lemma task_list_None tasks t : nonempty_tasks tasks -> task_list tasks t = [] <-> tasks !! t = None.
Proof.
  intros Hne. unfold task_list. destruct (tasks !! t) as [l|] eqn:Ht; simpl; [|done].
  split; [|done]. intros ->. by destruct (Hne t []).
Qed.

Lemma unlink_task_spec p tasks t0 :
  nonempty_tasks tasks ->
  nonempty_tasks (unlink_task p tasks t0) /\
  forall t, task_list (unlink_task p tasks t0) t =
    if decide (t = t0) then default (task_list tasks t) (erase_first p (task_list tasks t))
    else task_list tasks t.
Proof.
  intros Hne. unfold unlink_task, task_list. destruct (tasks !! t0) as [l|] eqn:Ht0.
  - destruct (erase_first p l) as [[|y l']|] eqn:He.
    + split.
      * intros t l' [_ Hl]%lookup_delete_Some. eauto.
      * intros t. rewrite lookup_delete. case_decide; subst; [rewrite decide_True by done|
          rewrite decide_False by congruence; done]. rewrite Ht0. simpl. by rewrite He.
    + split.
      * intros t l0 [[_ <-]|[_ Hl]]%lookup_insert_Some; [done|eauto].
      * intros t. rewrite lookup_insert. case_decide; subst; [rewrite decide_True by done|
          rewrite decide_False by congruence; done]. rewrite Ht0. simpl. by rewrite He.
    + split; [done|]. intros t. case_decide; subst; [|done]. rewrite Ht0. simpl. by rewrite He.
  - split; [done|]. intros t. case_decide; subst; [|done]. by rewrite Ht0.
Qed.

(** Unlinking a list of tasks takes [p] off each as often as it is listed. *)
Lemma unlink_fold_spec p linked : forall tasks,
  nonempty_tasks tasks ->
  let tasks' := foldl (unlink_task p) tasks linked in
  nonempty_tasks tasks' /\
  forall t,
    filter (fun y => y <> p) (task_list tasks' t) = filter (fun y => y <> p) (task_list tasks t) /\
    occurrences p (task_list tasks' t) =
      (occurrences p (task_list tasks t) - occurrences t linked)%nat.
Proof.
  induction linked as [|t0 linked IH]; intros tasks Hne.
  - split; [done|]. intros t. split; [done|]. unfold occurrences at 3. simpl. lia.
  - cbn [foldl]. destruct (unlink_task_spec p tasks t0 Hne) as [Hne1 Hl1].
    destruct (IH _ Hne1) as [Hne' Hl']. split; [done|]. intros t.
    destruct (Hl' t) as [Hf Ho]. rewrite Hf, Ho, Hl1, occurrences_cons.
    destruct (decide (t = t0)) as [<-|Hd].
    + rewrite decide_True by done.
      destruct (erase_first p (task_list tasks t)) as [l|] eqn:He; simpl.
      * destruct (erase_first_filter _ _ _ He) as (-> & -> & _). split; [done|]. lia.
      * apply erase_first_None, occurrences_0 in He. rewrite He. done.
    + rewrite decide_False by congruence. done.
Qed.

Lemma filter_all {A} (P : A -> Prop) `{forall x, Decision (P x)} (l : list A) :
  Forall P l -> filter P l = l.
Proof. induction 1 as [|x l Hx Hl IH]; [done|]. by rewrite filter_cons, decide_True, IH. Qed.

(** If the task table holds [p] no more often than it is listed, nothing of
    [p] is left and the rest is as it was. *)
Lemma unlink_fold_complete p linked tasks :
  nonempty_tasks tasks ->
  (forall t, occurrences p (task_list tasks t) <= occurrences t linked)%nat ->
  forall t, task_list (foldl (unlink_task p) tasks linked) t =
    filter (fun y => y <> p) (task_list tasks t).
Proof.
  intros Hne Hle t. destruct (unlink_fold_spec p linked tasks Hne) as [_ Hspec].
  destruct (Hspec t) as [<- Ho]. symmetry. apply filter_all, Forall_forall.
  intros y Hy ->. specialize (Hle t).
  assert (occurrences p (task_list (foldl (unlink_task p) tasks linked) t) = 0%nat) as H0 by lia.
  by apply occurrences_0 in H0.
Qed.

Lemma push_fold_spec p taskIds : forall tasks,
  nonempty_tasks tasks ->
  let tasks' := foldl (push_task p) tasks taskIds in
  nonempty_tasks tasks' /\
  forall t, task_list tasks' t = task_list tasks t ++ replicate (occurrences t taskIds) p.
Proof.
  induction taskIds as [|t0 taskIds IH]; intros tasks Hne.
  - split; [done|]. intros t. simpl. by rewrite app_nil_r.
  - cbn [foldl]. destruct (IH (push_task p tasks t0)) as [Hne' Hl'].
    { intros t l. unfold push_task. intros [[_ <-]|[_ Hl]]%lookup_insert_Some; [|eauto].
      by destruct (default [] (tasks !! t0)). }
    split; [done|]. intros t. rewrite Hl', occurrences_cons. unfold task_list, push_task.
    rewrite lookup_insert. case_decide; subst; [|done]. simpl. by rewrite <-app_assoc.
Qed.

(** ** Lemmas: preservation *)

(** The invariant, read through [task_list]. *)
Lemma map_ok_alt s :
  map_ok s <->
  (forall sid entry, mSessions s !! sid = Some entry ->
     exists e, values s !! val entry = Some e /\ sessionId e = sid) /\
  nonempty_tasks (mTasks s) /\
  (forall t p, p ∈ task_list (mTasks s) t ->
     exists sid entry, mSessions s !! sid = Some entry /\ val entry = p /\
       (occurrences p (task_list (mTasks s) t) <= occurrences t (linkedTasks entry))%nat).
Proof.
  split.
  - intros [Hv Hn Ht]. split_and!; [done|done|]. intros t p. unfold task_list.
    destruct (mTasks s !! t) as [l|] eqn:Hl; simpl; [eauto|]. by intros ?%elem_of_nil.
  - intros (Hv & Hn & Ht). split; [done|done|]. intros t l p Hl Hp. specialize (Ht t p).
    unfold task_list in Ht. rewrite Hl in Ht. auto.
Qed.

(** Two sessions never share a value. *)
Lemma session_val_inj s sid1 sid2 e1 e2 :
  map_ok s -> mSessions s !! sid1 = Some e1 -> mSessions s !! sid2 = Some e2 ->
  val e1 = val e2 -> sid1 = sid2.
Proof.
  intros Hok H1 H2 Heq. destruct (mo_val s Hok _ _ H1) as (x & Hx & Hs1).
  destruct (mo_val s Hok _ _ H2) as (y & Hy & Hs2). congruence.
Qed.

Lemma linked_enough s sid entry t :
  map_ok s -> mSessions s !! sid = Some entry ->
  (occurrences (val entry) (task_list (mTasks s) t) <= occurrences t (linkedTasks entry))%nat.
Proof.
  intros Hok Hs. pose proof Hok as (_ & _ & Ht)%map_ok_alt.
  destruct (decide (val entry ∈ task_list (mTasks s) t)) as [Hin|Hin].
  - destruct (Ht t _ Hin) as (sid' & entry' & Hs' & Hv & Hle).
    assert (sid' = sid) as -> by (by eapply session_val_inj). congruence.
  - apply occurrences_0 in Hin. lia.
Qed.

(** The table [remove] leaves. *)
Lemma remove_tasks s sid entry t :
  map_ok s -> mSessions s !! sid = Some entry ->
  task_list (mTasks (remove s sid).2) t =
  filter (fun y => y <> val entry) (task_list (mTasks s) t).
Proof.
  intros Hok Hs. unfold remove. rewrite Hs. apply unlink_fold_complete.
  - apply map_ok_alt in Hok. tauto.
  - intros t'. by eapply linked_enough.
Qed.

Lemma occurrences_filter_ne x y l :
  x <> y -> occurrences x (filter (fun z => z <> y) l) = occurrences x l.
Proof.
  intros Hne. induction l as [|z l IH]; [done|]. rewrite filter_cons. case_decide as Hz.
  - by rewrite !occurrences_cons, IH.
  - rewrite occurrences_cons, decide_False; [done|]. intros ->. tauto.
Qed.

Lemma remove_ok s sid : map_ok s -> map_ok (remove s sid).2.
Proof.
  intros Hok. destruct (mSessions s !! sid) as [entry|] eqn:Hs;
    [|unfold remove; by rewrite Hs].
  pose proof (remove_tasks s sid entry) as Htl.
  pose proof Hok as (Hv & Hn & Ht)%map_ok_alt. apply map_ok_alt. split_and!.
  - unfold remove. rewrite Hs. simpl. intros sid' entry' [_ Hs']%lookup_delete_Some. auto.
  - unfold remove. rewrite Hs. simpl. by apply unlink_fold_spec.
  - intros t p. rewrite (Htl t Hok Hs). intros [Hne Hin]%list_elem_of_filter.
    destruct (Ht t p Hin) as (sid' & entry' & Hs' & Hp & Hle).
    exists sid', entry'. split_and!; [|done|].
    + unfold remove. rewrite Hs. simpl. rewrite lookup_delete_ne; [done|]. intros <-. congruence.
    + by rewrite occurrences_filter_ne.
Qed.

Lemma add_ok s sid sv taskIds addr :
  map_ok s -> values s !! addr = None -> map_ok (add s sid sv taskIds addr).2.
Proof.
  intros Hok Hfresh. unfold add. destruct (mSessions s !! sid) eqn:Hs; [done|]. simpl.
  pose proof Hok as (Hv & Hn & Ht)%map_ok_alt. apply map_ok_alt. simpl.
  destruct (push_fold_spec addr taskIds (mTasks s) Hn) as [Hn' Hl'].
  assert (forall sid' entry', mSessions s !! sid' = Some entry' -> val entry' <> addr) as Hna.
  { intros sid' entry' Hs' Heq. destruct (Hv _ _ Hs') as (e & He & _). congruence. }
  split_and!; [|done|].
  - intros sid' entry' [[<- <-]|[Hne Hs']]%lookup_insert_Some; simpl.
    + rewrite lookup_insert_eq. eauto.
    + rewrite lookup_insert_ne; [auto|]. symmetry. eauto.
  - intros t p. rewrite Hl', elem_of_app, occurrences_app.
    assert (addr ∉ task_list (mTasks s) t) as Hnin.
    { intros Hin. destruct (Ht t addr Hin) as (sid' & entry' & Hs' & Hp & _). by eapply Hna. }
    destruct (decide (p = addr)) as [->|Hp].
    + intros _. exists sid, (mkVal addr taskIds). rewrite lookup_insert_eq. split_and!; [done|done|].
      apply occurrences_0 in Hnin. rewrite Hnin. unfold occurrences at 1.
      rewrite filter_all by (by apply Forall_replicate). by rewrite length_replicate.
    + assert (p ∉ replicate (occurrences t taskIds) addr) as Hr
        by (intros [? _]%elem_of_replicate; done).
      intros [Hin|Hin]; [|done]. destruct (Ht t p Hin) as (sid' & entry' & Hs' & Hp' & Hle).
      exists sid', entry'. rewrite lookup_insert_ne by congruence. split_and!; [done|done|].
      apply occurrences_0 in Hr. lia.
Qed.

Lemma removeDead_ok s sid t0 : map_ok s -> map_ok (removeDeadTaskSessionMap s sid t0).2.
Proof.
  intros Hok. unfold removeDeadTaskSessionMap.
  destruct (mSessions s !! sid) as [entry|] eqn:Hs; [|done].
  destruct (mTasks s !! t0) as [l|] eqn:Hl; [|done].
  destruct (erase_first (val entry) l) as [l'|] eqn:He; [|done]. simpl.
  pose proof Hok as (Hv & Hn & Ht)%map_ok_alt. apply map_ok_alt. simpl.
  destruct (unlink_task_spec (val entry) (mTasks s) t0 Hn) as [Hn' Hl'].
  split_and!; [done|done|]. intros t p. rewrite Hl'. case_decide; [subst t|by apply Ht].
  unfold task_list. rewrite Hl. simpl. rewrite He. simpl. intros Hin.
  destruct (erase_first_filter _ _ _ He) as (Hf & Ho & Hy).
  assert (p ∈ l) as Hpl.
  { destruct (decide (p ∈ l)) as [|Hnin]; [done|]. exfalso.
    destruct (decide (p = val entry)) as [->|Hne].
    - apply occurrences_0 in Hnin. lia.
    - apply occurrences_0 in Hnin. rewrite <-(Hy p Hne) in Hnin. by apply occurrences_0 in Hnin. }
  specialize (Ht t0 p). unfold task_list in Ht. rewrite Hl in Ht.
  destruct (Ht Hpl) as (sid' & entry' & Hs' & Hp & Hle). simpl in Hle.
  exists sid', entry'. split_and!; [done|done|].
  destruct (decide (p = val entry)) as [->|Hne]; [lia|by rewrite (Hy p Hne)].
Qed.

Lemma remove_values s sid : values (remove s sid).2 = values s.
Proof. unfold remove. by destruct (mSessions s !! sid). Qed.

Lemma map_step_ok s s' : map_step s s' -> map_ok s -> map_ok s'.
Proof.
  intros Hstep Hok. destruct Hstep as [s sid sv taskIds addr Hf|s sid|s sid t|
    s sid taskIds addr b added removed s' Hf Hr|s sid i lo hi t d s' Hv].
  - by apply add_ok.
  - by apply remove_ok.
  - by apply removeDead_ok.
  - unfold replace in Hr. destruct (mSessions s !! sid) as [entry|]; [|by simplify_eq].
    destruct (values s !! val entry) as [sv|]; simpl in Hr; [|done]. simplify_eq.
    apply add_ok; [by apply remove_ok|by rewrite remove_values].
  - unfold addVote in Hv. destruct (mSessions s !! sid) as [entry|]; [|by simplify_eq].
    destruct (values s !! val entry) as [e|]; simpl in Hv; [|done].
    destruct (voters s !! votes_ptr e); simpl in Hv; [|done]. simplify_eq. by destruct Hok.
Qed.

Lemma empty_map_ok : map_ok empty_map.
Proof.
  apply map_ok_alt. unfold empty_map, nonempty_tasks, task_list. simpl. split_and!.
  - intros sid entry. by rewrite lookup_empty.
  - intros t l. by rewrite lookup_empty.
  - intros t p. rewrite lookup_empty. simpl. by intros ?%elem_of_nil.
Qed.

(** ** Lemmas: the range of a task *)

(** The votes that count for a task: those of the active sessions it is in. *)
Definition task_counts (s : SessionTaskMap) (l : list Z) (now : Z) (v : CpuVote) : Prop :=
  exists p e vs, p ∈ l /\ values s !! p = Some e /\ isActive e = true /\
    voters s !! votes_ptr e = Some vs /\ counts vs now v.

Lemma confine_session_tightest s now o r p e vs :
  values s !! p = Some e -> voters s !! votes_ptr e = Some vs ->
  exists r', confine_session s now None o (Some r) p = Some r' /\
    tightest (task_counts s [p] now) r r'.
Proof.
  intros He Hvs. unfold confine_session. simpl. rewrite He. simpl.
  destruct (isActive e) eqn:Ha; simpl.
  - rewrite Hvs. simpl. destruct (isPowerEfficient e); (eexists; split; [done|]);
      (eapply tightest_iff; [|apply getUclampRange_tightest]);
      intros v; unfold task_counts; (split; [intros ?; exists p, e, vs;
        split_and!; [apply list_elem_of_here|done..]|]);
      intros (p' & e' & vs' & ->%list_elem_of_singleton & He' & _ & Hvs' & Hc); congruence.
  - eexists. split; [done|]. eapply tightest_iff; [|apply tightest_none]. intros v. split; [done|].
    intros (p' & e' & vs' & ->%list_elem_of_singleton & He' & Ha' & _). congruence.
Qed.

Lemma confine_sessions_tightest s now o l : forall r,
  Forall (fun p => exists e vs, values s !! p = Some e /\ voters s !! votes_ptr e = Some vs) l ->
  exists r', foldl (confine_session s now None o) (Some r) l = Some r' /\
    tightest (task_counts s l now) r r'.
Proof.
  induction l as [|p l IH]; intros r Hl.
  - exists r. split; [done|]. eapply tightest_iff; [|apply tightest_none]. intros v. split; [done|].
    intros (p & e & vs & Hp & _). by apply elem_of_nil in Hp.
  - apply Forall_cons in Hl as [(e & vs & He & Hvs) Hl].
    destruct (confine_session_tightest s now o r p e vs He Hvs) as (r1 & Hr1 & Ht1).
    destruct (IH r1 Hl) as (r2 & Hr2 & Ht2). exists r2. cbn [foldl]. rewrite Hr1.
    split; [done|]. eapply tightest_iff; [|eapply tightest_trans; [exact Ht1|exact Ht2]].
    intros v. unfold task_counts. split.
    + intros [(p' & e' & vs' & ->%list_elem_of_singleton & ?)|(p' & e' & vs' & ? & ?)];
        [exists p, e', vs'|exists p', e', vs']; rewrite elem_of_cons; tauto.
    + intros (p' & e' & vs' & [->|Hp]%elem_of_cons & ?);
        [left; exists p, e', vs'|right; exists p', e', vs'];
        rewrite ?list_elem_of_singleton; tauto.
Qed.

(** ** Properties *)

(** Whatever sessions are added, replaced and removed and whatever tasks
    die, the two maps stay consistent: a session's value is live and carries its
    id, no task is kept without sessions, and a task points only at values of
    registered sessions that link it. *)
Lemma session_maps_consistent s : rtc map_step empty_map s -> map_ok s.
Proof.
  intros Hr. refine (rtc_invariant map_step map_ok _ _ _ Hr empty_map_ok).
  intros s1 s2. apply map_step_ok.
Qed.

(** Removing a session leaves no mapping from any task to it, also when
    the session listed a task twice, and leaves every other mapping and its
    order untouched. *)
Lemma remove_session_spec s sid entry :
  map_ok s -> mSessions s !! sid = Some entry ->
  exists s', remove s sid = (true, s') /\ mSessions s' = delete sid (mSessions s) /\
    forall t, mTasks s' !! t =
      match filter (fun p => p <> val entry) (task_list (mTasks s) t) with
      | [] => None
      | l => Some l
      end.
Proof.
  intros Hok Hs. pose proof (fun t => remove_tasks s sid entry t Hok Hs) as Ht.
  pose proof (remove_ok s sid Hok) as (_ & Hn & _)%map_ok_alt.
  unfold remove in *. rewrite Hs in *. simpl in *. eexists. split; [done|]. split; [done|].
  intros t. simpl. rewrite <-(Ht t). unfold task_list.
  destruct (_ !! t) as [l|] eqn:Hl; simpl; [|done]. destruct l; [by destruct (Hn t [])|done].
Qed.

(** Replacing the tasks of a session gives exactly the new tasks, keeps
    the session's value and votes, reports as added the new tasks no session had
    and as removed the old tasks no session has any more. *)
Lemma replace_session_spec s sid entry sv taskIds addr :
  map_ok s -> mSessions s !! sid = Some entry -> values s !! val entry = Some sv ->
  values s !! addr = None ->
  exists added removed s', replace s sid taskIds addr = Some (true, added, removed, s') /\
    map_ok s' /\ mSessions s' = <[sid := mkVal addr taskIds]> (mSessions s) /\
    values s' !! addr = Some sv /\
    (forall t, t ∈ added <-> t ∈ taskIds /\ task_list (mTasks s) t = []) /\
    (forall t, t ∈ removed <-> t ∈ linkedTasks entry /\ task_list (mTasks s') t = []) /\
    (forall t, task_list (mTasks s') t =
       filter (fun p => p <> val entry) (task_list (mTasks s) t) ++
       replicate (occurrences t taskIds) addr).
Proof.
  intros Hok Hs Hsv Hfresh. unfold replace. rewrite Hs. simpl. rewrite Hsv. simpl.
  pose proof (remove_ok s sid Hok) as Hok1. pose proof (fun t => remove_tasks s sid entry t Hok Hs) as Ht1.
  assert (mSessions (remove s sid).2 = delete sid (mSessions s)) as Hs1
    by (unfold remove; by rewrite Hs).
  pose proof (add_ok (remove s sid).2 sid sv taskIds addr Hok1) as Hok2.
  rewrite remove_values in Hok2. specialize (Hok2 Hfresh).
  pose proof Hok1 as (_ & Hn1 & _)%map_ok_alt.
  destruct (push_fold_spec addr taskIds (mTasks (remove s sid).2) Hn1) as [_ Hl].
  destruct (mo_val s Hok sid entry Hs) as (e & He & Hsid). assert (e = sv) as -> by congruence.
  eexists _, _, _. split; [done|]. split; [done|].
  pose proof Hok as (_ & Hn & _)%map_ok_alt. pose proof Hok2 as (_ & Hn2 & _)%map_ok_alt.
  split_and!.
  - unfold add. rewrite Hs1, lookup_delete_eq. cbn [snd mSessions].
    by rewrite insert_delete_eq.
  - unfold add. rewrite Hs1, lookup_delete_eq. cbn [snd values]. rewrite lookup_insert_eq.
    unfold with_sessionId. rewrite <-Hsid. by destruct sv.
  - intros t. rewrite list_elem_of_filter, task_list_None by done. tauto.
  - intros t. rewrite list_elem_of_filter, task_list_None by done. tauto.
  - intros t. unfold add. rewrite Hs1, lookup_delete_eq. cbn [snd mTasks]. by rewrite Hl, Ht1.
Qed.

(** Without efficiency hints, the range of a task is the tightest range
    of the votes that count in the active sessions it belongs to; a task of no
    session has the default range. *)
Lemma task_range_spec s t now r o :
  map_ok s ->
  (forall p e, values s !! p = Some e -> is_Some (voters s !! votes_ptr e)) ->
  match mTasks s !! t with
  | None => getTaskVoteRange s t now r None o = Some default_range
  | Some l => exists r', getTaskVoteRange s t now r None o = Some r' /\
                tightest (task_counts s l now) r r'
  end.
Proof.
  intros Hok Hvs. unfold getTaskVoteRange. destruct (mTasks s !! t) as [l|] eqn:Hl; [|done].
  apply confine_sessions_tightest. apply Forall_forall. intros p Hp.
  destruct (mo_task s Hok t l p Hl Hp) as (sid & entry & Hs & <- & _).
  destruct (mo_val s Hok sid entry Hs) as (e & He & _). destruct (Hvs _ _ He) as [vs Hv]. eauto.
Qed.

(** ** Witnesses *)

Definition demo_session (sid v : Z) : SessionValueEntry :=
  mkSession sid 4000 10050 "demo" true true 0 v (mkBuckets 0 0 0 0 0 0) false (mkHeur 0 0 0).

(** Two sessions sharing task 5; the first lists it twice. *)
Definition demo_task_map : SessionTaskMap :=
  (add (add (mkTaskMap ∅ {[ 1 := ∅ ]} ∅ ∅) 10 (demo_session 0 1) [5; 6; 5] 100).2
     11 (demo_session 0 1) [5] 200).2.

Lemma demo_task_map_ok : map_ok demo_task_map.
Proof.
  apply add_ok; [apply add_ok; [|reflexivity]|vm_compute; reflexivity].
  apply map_ok_alt. unfold nonempty_tasks, task_list. simpl. split_and!.
  - intros sid entry. by rewrite lookup_empty.
  - intros t l. by rewrite lookup_empty.
  - intros t p. rewrite lookup_empty. simpl. by intros ?%elem_of_nil.
Qed.

Lemma demo_votes_live p e :
  values demo_task_map !! p = Some e -> is_Some (voters demo_task_map !! votes_ptr e).
Proof.
  assert (values demo_task_map = <[200 := demo_session 11 1]>
    (<[100 := demo_session 10 1]> ∅)) as -> by (vm_compute; reflexivity).
  intros [[_ <-]|[_ [[_ <-]|[_ He]]%lookup_insert_Some]]%lookup_insert_Some.
  - exists ∅. vm_compute. reflexivity.
  - exists ∅. vm_compute. reflexivity.
  - by rewrite lookup_empty in He.
Qed.
