(* ===== verification/BackgroundWorker.v ===== *)
(** * power/BackgroundWorker.{h,cpp}: work to be run at a deadline

    A pool of threads runs packages from a priority queue; a template worker
    keeps the packages of one type under ids and puts the ids in the queue of a
    pool it shares with others.  The model has one template worker, a pool of
    any number of threads and other users of the pool.  A step is the code
    between two points where a lock is released, and [schedule] of the template
    worker has two: the package is stored under the worker's lock, and the id
    counter is read again after the lock is released, to be queued.

    Deadlines and times are nanoseconds of the steady clock; waiting without a
    deadline is [None]. *)

From S2P Require Import Prelude.

(** ** Data *)

Record Package := mkPackage { deadline : Z; templateQueueWorkerId : Z; packageId : Z }.

(** The callbacks are known by the worker that registered them. *)
Record PriorityQueueWorkerPool := mkPool {
  mRunning : bool; mPackageQueue : list Package; mCallbackMap : gset Z
}.

Record TemplatePriorityQueueWorker (P : Type) := mkWorker {
  mCallbackId : Z; mPackageIdCounter : Z; mPackages : gmap Z P
}.

Arguments mkWorker {P}.
Arguments mCallbackId {P}.
Arguments mPackageIdCounter {P}.
Arguments mPackages {P}.

(** Where a thread of the pool is: at the top of its loop, in the wait with
    the deadline it waits for, with a package in hand and no lock, or done. *)
Inductive thread_pc := TTop | TWaiting (until_ : option Z) | TWork (p : Package) | TExit.

(** [top] of the queue: an entry no other is earlier than. *)
Definition top (q : list Package) (e : Package) (rest : list Package) : Prop :=
  q ≡ₚ e :: rest /\ Forall (fun x => deadline e <= deadline x) rest.

(** ** The pool *)

Definition pool_new : PriorityQueueWorkerPool := mkPool true [] ∅.

Definition addCallback (s : PriorityQueueWorkerPool) (id : Z) (callable : bool) : PriorityQueueWorkerPool :=
  if negb callable then s
  else if decide (id ∈ mCallbackMap s) then s
  else mkPool (mRunning s) (mPackageQueue s) ({[id]} ∪ mCallbackMap s).

Definition removeCallback (s : PriorityQueueWorkerPool) (id : Z) : PriorityQueueWorkerPool :=
  mkPool (mRunning s) (mPackageQueue s) (mCallbackMap s ∖ {[id]}).

Definition pool_schedule (s : PriorityQueueWorkerPool) (id package t : Z) : PriorityQueueWorkerPool :=
  mkPool (mRunning s) (mkPackage t id package :: mPackageQueue s) (mCallbackMap s).

(** The destructor's first part; it then joins the threads. *)
Definition pool_stop (s : PriorityQueueWorkerPool) : PriorityQueueWorkerPool :=
  mkPool false (mPackageQueue s) (mCallbackMap s).

(** The predicate of the wait, with the queue's top if it has one: does it
    hold, and the deadline it leaves for the next wait. *)
Definition wait_predicate (s : PriorityQueueWorkerPool) (now : Z) (e : option Package)
    : bool * option Z :=
  if negb (mRunning s) then (true, None)
  else
    match e with
    | None => (false, None)
    | Some p => (bool_decide (deadline p <= now), Some (deadline p))
    end.

Definition with_queue (s : PriorityQueueWorkerPool) (q : list Package) : PriorityQueueWorkerPool :=
  mkPool (mRunning s) q (mCallbackMap s).

(** After the wait: the loop ends, starts again, or takes the top. *)
Inductive after_wait (s : PriorityQueueWorkerPool) : PriorityQueueWorkerPool -> thread_pc -> Prop :=
  | AfterStop : mRunning s = false -> after_wait s s TExit
  | AfterEmpty : mRunning s = true -> mPackageQueue s = [] -> after_wait s s TTop
  | AfterTake e rest : mRunning s = true -> top (mPackageQueue s) e rest ->
      after_wait s (with_queue s rest) (TWork e).

(** What the queue offers to the predicate. *)
Definition offers (q : list Package) (e : option Package) : Prop :=
  match e with None => q = [] | Some p => exists rest, top q p rest end.

(** One step of a thread of the pool up to the callback: the wait is entered
    or its thread is woken, and the predicate decides; or the wait times out,
    and the code goes on whatever the predicate says. *)
Inductive loop_step (now : Z) (s : PriorityQueueWorkerPool)
    : thread_pc -> PriorityQueueWorkerPool -> thread_pc -> Prop :=
  | LoopExit : mRunning s = false -> loop_step now s TTop s TExit
  | LoopReady pc e d s' pc' : pc = TTop \/ (exists u, pc = TWaiting u) -> offers (mPackageQueue s) e ->
      wait_predicate s now e = (true, d) -> after_wait s s' pc' -> loop_step now s pc s' pc'
  | LoopWait pc e d : pc = TTop \/ (exists u, pc = TWaiting u) -> offers (mPackageQueue s) e ->
      wait_predicate s now e = (false, d) -> loop_step now s pc s (TWaiting d)
  | LoopTimeout u s' pc' : u <= now -> after_wait s s' pc' -> loop_step now s (TWaiting (Some u)) s' pc'.

(** ** The template worker *)

Section Worker.
Context {P : Type}.

Definition worker_new (id : Z) : TemplatePriorityQueueWorker P := mkWorker id 0 ∅.

(** The first half of [schedule], under the lock.  The counter is an int64. *)
Definition worker_store (w : TemplatePriorityQueueWorker P) (package : P)
    : option (TemplatePriorityQueueWorker P) :=
  let id := mPackageIdCounter w + 1 in
  if decide (in_s 64 id) then
    Some (mkWorker (mCallbackId w) id
            (match mPackages w !! id with
             | Some _ => mPackages w
             | None => <[id := package]> (mPackages w)
             end))
  else None.

(** The second half: the counter is read without the lock. *)
Definition worker_push (w : TemplatePriorityQueueWorker P) (s : PriorityQueueWorkerPool) (t : Z)
    : PriorityQueueWorkerPool :=
  pool_schedule s (mCallbackId w) (mPackageIdCounter w) t.

(** [process]: what the callback is run on. *)
Definition process (w : TemplatePriorityQueueWorker P) (id : Z)
    : option P * TemplatePriorityQueueWorker P :=
  match mPackages w !! id with
  | None => (None, w)
  | Some p => (Some p, mkWorker (mCallbackId w) (mPackageIdCounter w) (delete id (mPackages w)))
  end.

(** ** The system *)

(** A package the callback was run on: when, from which queue entry. *)
Record Run := mkRun { run_time : Z; run_entry : Package; run_package : P }.

(** [inflight]: the deadlines of the [schedule] calls between their halves;
    [asked] is a ghost: the package and deadline of the call that got an id. *)
Record System := mkSys {
  sys_now : Z; sys_pool : PriorityQueueWorkerPool; sys_worker : TemplatePriorityQueueWorker P;
  inflight : list Z; threads : list thread_pc; ran : list Run; asked : gmap Z (P * Z)
}.

Definition sys_new (now id : Z) (n : nat) : System :=
  mkSys now (addCallback pool_new id true) (worker_new id) [] (replicate n TTop) [] ∅.

Inductive label := LStore | LOther.

Inductive sys_step : System -> label -> System -> Prop :=
  | SysTick s t : sys_now s <= t ->
      sys_step s LOther
        (mkSys t (sys_pool s) (sys_worker s) (inflight s) (threads s) (ran s) (asked s))
  | SysStore s package t w : worker_store (sys_worker s) package = Some w ->
      sys_step s LStore
        (mkSys (sys_now s) (sys_pool s) w (t :: inflight s) (threads s) (ran s)
           (<[mPackageIdCounter w := (package, t)]> (asked s)))
  | SysPush s t pre post : inflight s = pre ++ t :: post ->
      sys_step s LOther
        (mkSys (sys_now s) (worker_push (sys_worker s) (sys_pool s) t) (sys_worker s) (pre ++ post)
           (threads s) (ran s) (asked s))
  | SysOther s id package t : id <> mCallbackId (sys_worker s) ->
      sys_step s LOther
        (mkSys (sys_now s) (pool_schedule (sys_pool s) id package t) (sys_worker s) (inflight s)
           (threads s) (ran s) (asked s))
  | SysLoop s i pc pool pc' : threads s !! i = Some pc ->
      loop_step (sys_now s) (sys_pool s) pc pool pc' ->
      sys_step s LOther
        (mkSys (sys_now s) pool (sys_worker s) (inflight s) (<[i := pc']> (threads s)) (ran s) (asked s))
  | SysRun s i e p w : threads s !! i = Some (TWork e) ->
      templateQueueWorkerId e = mCallbackId (sys_worker s) ->
      templateQueueWorkerId e ∈ mCallbackMap (sys_pool s) ->
      process (sys_worker s) (packageId e) = (p, w) ->
      sys_step s LOther
        (mkSys (sys_now s) (sys_pool s) w (inflight s) (<[i := TTop]> (threads s))
           (ran s ++ (match p with Some x => [mkRun (sys_now s) e x] | None => [] end)) (asked s))
  | SysDrop s i e : threads s !! i = Some (TWork e) ->
      (templateQueueWorkerId e <> mCallbackId (sys_worker s) \/
       templateQueueWorkerId e ∉ mCallbackMap (sys_pool s)) ->
      sys_step s LOther
        (mkSys (sys_now s) (sys_pool s) (sys_worker s) (inflight s) (<[i := TTop]> (threads s)) (ran s)
           (asked s))
  | SysCallbacks s pool : 
      (exists id, id <> mCallbackId (sys_worker s) /\
         (pool = addCallback (sys_pool s) id true \/ pool = removeCallback (sys_pool s) id)) ->
      sys_step s LOther
        (mkSys (sys_now s) pool (sys_worker s) (inflight s) (threads s) (ran s) (asked s)).

Definition any_step (s s' : System) : Prop := exists l, sys_step s l s'.

(** No two [schedule] calls overlap. *)
Definition sequential_step (s s' : System) : Prop :=
  exists l, sys_step s l s' /\ (l = LStore -> inflight s = []).
End Worker.

Arguments System : clear implicits.
Arguments Run : clear implicits.

(** ** Lemmas *)

(** A step of the loop takes the top of the queue in hand, or leaves the pool
    as it is. *)
Lemma loop_step_inv now s pc s' pc' :
  loop_step now s pc s' pc' ->
  (s' = s /\ forall e, pc' <> TWork e) \/
  (exists e rest, pc' = TWork e /\ top (mPackageQueue s) e rest /\ s' = with_queue s rest).
Proof.
  assert (forall s' pc', after_wait s s' pc' ->
    (s' = s /\ forall e, pc' <> TWork e) \/
    (exists e rest, pc' = TWork e /\ top (mPackageQueue s) e rest /\ s' = with_queue s rest)) as Haft.
  { intros s1 pc1 []; [by left|by left|right; eauto 6]. }
  intros [|?????????|???|????]; auto; by left.
Qed.

Section WorkerProofs.
Context {P : Type}.
Implicit Types s : System P.

(** A queue entry of the worker that is waiting or in a thread's hand. *)
Definition pending s (e : Package) : Prop :=
  (e ∈ mPackageQueue (sys_pool s) \/ TWork e ∈ threads s) /\
  templateQueueWorkerId e = mCallbackId (sys_worker s).

Lemma elem_of_insert_pc (l : list thread_pc) i pc pc' e :
  l !! i = Some pc -> TWork e ∈ <[i := pc']> l -> pc' = TWork e \/ TWork e ∈ l.
Proof.
  intros Hi [j Hj]%list_elem_of_lookup.
  apply list_lookup_insert_Some in Hj as [(_ & ? & _)|[_ Hj]]; [by left|].
  right. by eapply list_elem_of_lookup_2.
Qed.

Lemma elem_of_kept_pc (l : list thread_pc) i pc pc' e :
  l !! i = Some pc -> TWork e ∈ l -> pc = TWork e \/ TWork e ∈ <[i := pc']> l.
Proof.
  intros Hi [j Hj]%list_elem_of_lookup. destruct (decide (j = i)) as [->|Hne].
  - left. congruence.
  - right. eapply list_elem_of_lookup_2. by rewrite list_lookup_insert_ne.
Qed.

(** ** Any interleaving *)

Record worker_ok s : Prop := {
  wo_counter : 0 <= mPackageIdCounter (sys_worker s);
  wo_asked : forall i, is_Some (asked s !! i) <-> 1 <= i <= mPackageIdCounter (sys_worker s);
  wo_stored : forall i p, mPackages (sys_worker s) !! i = Some p -> exists d, asked s !! i = Some (p, d);
  wo_ran : forall r, r ∈ ran s ->
    mPackages (sys_worker s) !! packageId (run_entry r) = None /\
    exists d, asked s !! packageId (run_entry r) = Some (run_package r, d);
  wo_once : NoDup ((fun r => packageId (run_entry r)) <$> ran s);
  wo_all : forall i, is_Some (asked s !! i) ->
    is_Some (mPackages (sys_worker s) !! i) \/ exists r, r ∈ ran s /\ packageId (run_entry r) = i
}.

Lemma worker_store_inv (w w' : TemplatePriorityQueueWorker P) p :
  worker_store w p = Some w' ->
  mCallbackId w' = mCallbackId w /\ mPackageIdCounter w' = mPackageIdCounter w + 1 /\
  mPackages w' = (match mPackages w !! (mPackageIdCounter w + 1) with
                  | Some _ => mPackages w
                  | None => <[mPackageIdCounter w + 1 := p]> (mPackages w)
                  end).
Proof. unfold worker_store. case_decide; [|done]. by intros [= <-]. Qed.

Lemma store_fresh s :
  worker_ok s -> mPackages (sys_worker s) !! (mPackageIdCounter (sys_worker s) + 1) = None.
Proof.
  intros Hok. destruct (_ !! _) as [p|] eqn:Hp; [|done].
  destruct (wo_stored s Hok _ _ Hp) as [d Hd].
  assert (is_Some (asked s !! (mPackageIdCounter (sys_worker s) + 1))) as Hs by eauto.
  apply (wo_asked s Hok) in Hs. lia.
Qed.

Lemma process_inv (w w' : TemplatePriorityQueueWorker P) i p :
  process w i = (p, w') ->
  mCallbackId w' = mCallbackId w /\ mPackageIdCounter w' = mPackageIdCounter w /\
  p = mPackages w !! i /\ mPackages w' = delete i (mPackages w).
Proof.
  unfold process. destruct (mPackages w !! i) as [q|] eqn:Hq; intros [= <- <-]; split_and!; try done.
  symmetry. by apply delete_id.
Qed.

Lemma sys_step_ok s l s' : sys_step s l s' -> worker_ok s -> worker_ok s'.
Proof.
  intros Hstep Hok. pose proof Hok as [Hc Ha Hs Hr Ho Hall].
  destruct Hstep as [s t Ht|s p t w Hw|s t pre post Hin|s id p t Hid|s i pc pool pc' Hi Hl|
    s i e p w Hi Hid Hcb Hp|s i e Hi Hn|s pool Hpool];
    try (by split).
  - apply worker_store_inv in Hw as (Hid & Hcnt & Hpk).
    rewrite (store_fresh s Hok) in Hpk.
    split; cbn [sys_worker asked ran]; rewrite ?Hcnt, ?Hpk.
    + lia.
    + intros i. rewrite lookup_insert_is_Some, Ha. lia.
    + intros i q [[<- <-]|[Hne Hq]]%lookup_insert_Some; [rewrite lookup_insert_eq; eauto|].
      rewrite lookup_insert_ne by done. by apply Hs.
    + intros r Hin. destruct (Hr r Hin) as (Hnone & d & Hd).
      assert (is_Some (asked s !! packageId (run_entry r))) as Hsome by eauto.
      apply Ha in Hsome. rewrite !lookup_insert_ne by lia. eauto.
    + done.
    + intros i. rewrite lookup_insert_is_Some. intros [<-|[Hne Hi]].
      * left. rewrite lookup_insert_eq. eauto.
      * destruct (Hall i Hi) as [Hm|?]; [left; by rewrite lookup_insert_ne|by right].
  - apply process_inv in Hp as (Hid' & Hcnt & -> & Hpk).
    split; cbn [sys_worker asked ran]; rewrite ?Hcnt, ?Hpk; try done.
    + intros j q [_ Hq]%lookup_delete_Some. by apply Hs.
    + intros r [Hin|Hin]%elem_of_app.
      * destruct (Hr r Hin) as (Hnone & d & Hd). split; [|eauto]. rewrite lookup_delete.
        by case_decide.
      * destruct (mPackages (sys_worker s) !! packageId e) as [x|] eqn:Hx; [|by apply elem_of_nil in Hin].
        apply list_elem_of_singleton in Hin as ->. cbn [run_entry run_package].
        rewrite lookup_delete_eq. split; [done|by apply Hs].
    + rewrite fmap_app. apply NoDup_app. split; [done|]. split.
      * intros j Hj. destruct (mPackages (sys_worker s) !! packageId e) as [x|] eqn:Hx; [|by intros ?%elem_of_nil].
        intros ->%list_elem_of_singleton. apply list_elem_of_fmap in Hj as (r & Hre & Hin).
        destruct (Hr r Hin) as [Hnone _]. simpl in Hre. congruence.
      * destruct (mPackages (sys_worker s) !! packageId e); [apply NoDup_singleton|constructor].
    + intros j Hj. destruct (decide (j = packageId e)) as [->|Hne].
      * destruct (Hall _ Hj) as [[x Hx]|(r & Hin & Hre)].
        -- right. rewrite Hx. exists (mkRun (sys_now s) e x). split; [|done].
           apply elem_of_app. right. apply list_elem_of_here.
        -- right. exists r. split; [|done]. apply elem_of_app. by left.
      * destruct (Hall j Hj) as [Hm|(r & Hin & Hre)].
        -- left. by rewrite lookup_delete_ne.
        -- right. exists r. split; [|done]. apply elem_of_app. by left.
Qed.

Lemma sys_new_ok now id n : worker_ok (sys_new now id n : System P).
Proof.
  split; unfold sys_new, worker_new; cbn.
  - lia.
  - intros i. rewrite lookup_empty. split; [intros []; done|lia].
  - intros i p. by rewrite lookup_empty.
  - intros r Hr. by apply elem_of_nil in Hr.
  - constructor.
  - intros i. rewrite lookup_empty. intros []; done.
Qed.

(** ** Calls of [schedule] that do not overlap *)

Record sequential_ok s : Prop := {
  so_ok : worker_ok s;
  so_callback : mCallbackId (sys_worker s) ∈ mCallbackMap (sys_pool s);
  so_inflight : inflight s = [] \/
    exists p t, inflight s = [t] /\ asked s !! mPackageIdCounter (sys_worker s) = Some (p, t);
  so_pending : forall e, pending s e -> exists p, asked s !! packageId e = Some (p, deadline e);
  so_queued : forall i, is_Some (mPackages (sys_worker s) !! i) ->
    (inflight s <> [] /\ i = mPackageIdCounter (sys_worker s)) \/
    (exists e, pending s e /\ packageId e = i);
  so_ran : forall r, r ∈ ran s ->
    asked s !! packageId (run_entry r) = Some (run_package r, deadline (run_entry r))
}.

(** A step of the loop changes no pending entry. *)
Lemma loop_pending s i pc pool pc' e :
  threads s !! i = Some pc -> loop_step (sys_now s) (sys_pool s) pc pool pc' ->
  pending s e <->
  pending (mkSys (sys_now s) pool (sys_worker s) (inflight s) (<[i := pc']> (threads s)) (ran s) (asked s)) e.
Proof.
  intros Hi Hl. unfold pending. cbn [sys_pool sys_worker threads].
  assert (forall e, pc <> TWork e) as Hpc.
  { intros x ->. by inversion Hl as [|? ? ? ? ? Hor| ? ? ? Hor|]; subst; destruct Hor as [|[? ?]]. }
  pose proof (lookup_lt_Some _ _ _ Hi) as Hlt.
  apply loop_step_inv in Hl as [[-> Hno]|(x & rest & -> & [Htop _] & ->)].
  - split; intros [[Hq|Hw] Hid]; (split; [|done]).
    + by left.
    + right. by destruct (elem_of_kept_pc _ _ _ pc' _ Hi Hw) as [->|?]; [by destruct (Hpc e)|].
    + by left.
    + right. by destruct (elem_of_insert_pc _ _ _ _ _ Hi Hw) as [Hx|?]; [by destruct (Hno e)|].
  - cbn [with_queue mPackageQueue]. split; intros [[Hq|Hw] Hid]; (split; [|done]).
    + rewrite Htop in Hq. apply elem_of_cons in Hq as [->|Hq]; [right|by left].
      eapply list_elem_of_lookup_2. by apply list_lookup_insert_eq.
    + right. by destruct (elem_of_kept_pc _ _ _ (TWork x) _ Hi Hw) as [->|?]; [by destruct (Hpc e)|].
    + left. rewrite Htop. by apply list_elem_of_further.
    + destruct (elem_of_insert_pc _ _ _ _ _ Hi Hw) as [[= ->]|?]; [|by right].
      left. rewrite Htop. apply list_elem_of_here.
Qed.

(** A thread that has finished with an entry that is not the worker's changes
    none of its pending entries. *)
Lemma drop_pending s i e s' :
  threads s !! i = Some (TWork e) -> threads s' = <[i := TTop]> (threads s) ->
  sys_pool s' = sys_pool s -> mCallbackId (sys_worker s') = mCallbackId (sys_worker s) ->
  forall e', (pending s' e' -> pending s e') /\ (pending s e' -> e' = e \/ pending s' e').
Proof.
  intros Hi Hth Hpool Hid e'. unfold pending. rewrite Hth, Hpool, Hid. split.
  - intros [[Hq|Hw] He]; (split; [|done]); [by left|right].
    destruct (elem_of_insert_pc _ _ _ _ _ Hi Hw) as [?|?]; done.
  - intros [[Hq|Hw] He]; [right; split; [by left|done]|].
    destruct (elem_of_kept_pc _ _ _ TTop _ Hi Hw) as [[= ->]|?]; [by left|].
    right. split; [by right|done].
Qed.

Lemma store_sequential s p t w :
  sequential_ok s -> inflight s = [] -> worker_store (sys_worker s) p = Some w ->
  sequential_ok (mkSys (sys_now s) (sys_pool s) w (t :: inflight s) (threads s) (ran s)
                   (<[mPackageIdCounter w := (p, t)]> (asked s))).
Proof.
  intros [Hok Hcb _ Hp Hq Hr] Hnil Hw. pose proof (SysStore s p t w Hw) as Hstep.
  pose proof (sys_step_ok _ _ _ Hstep Hok) as Hok'.
  apply worker_store_inv in Hw as (Hid & Hcnt & Hpk). rewrite (store_fresh s Hok) in Hpk.
  assert (forall i x, asked s !! i = Some x -> <[mPackageIdCounter w := (p, t)]> (asked s) !! i = Some x)
    as Hkeep.
  { intros i x Hx. assert (is_Some (asked s !! i)) as Hs by eauto. apply (wo_asked s Hok) in Hs.
    rewrite lookup_insert_ne; [done|lia]. }
  split; cbn [sys_worker sys_pool inflight asked ran]; [done|by rewrite Hid|..].
  - right. rewrite Hnil, lookup_insert_eq. eauto.
  - intros e [He Hide]. destruct (Hp e) as [x Hx]; [|eauto]. split; [done|]. cbn in Hide. congruence.
  - intros i. rewrite Hpk, lookup_insert_is_Some. intros [<-|[Hne Hi]]; [left; by rewrite Hcnt|right].
    destruct (Hq i Hi) as [[? _]|(e & [He Hide] & Hei)]; [done|]. exists e. split; [|done].
    split; [done|]. cbn. congruence.
  - intros r Hin. apply Hkeep. by apply Hr.
Qed.

Lemma run_sequential s i e p w :
  sequential_ok s -> threads s !! i = Some (TWork e) ->
  templateQueueWorkerId e = mCallbackId (sys_worker s) ->
  templateQueueWorkerId e ∈ mCallbackMap (sys_pool s) ->
  process (sys_worker s) (packageId e) = (p, w) ->
  sequential_ok (mkSys (sys_now s) (sys_pool s) w (inflight s) (<[i := TTop]> (threads s))
    (ran s ++ (match p with Some x => [mkRun (sys_now s) e x] | None => [] end)) (asked s)).
Proof.
  intros [Hok Hcb Hfl Hp Hq Hr] Hi Hide Hcb' Hproc.
  pose proof (SysRun s i e p w Hi Hide Hcb' Hproc) as Hstep.
  pose proof (sys_step_ok _ _ _ Hstep Hok) as Hok'.
  apply process_inv in Hproc as (Hid & Hcnt & -> & Hpk).
  assert (pending s e) as Hpe by (split; [right; by eapply list_elem_of_lookup_2|done]).
  match type of Hok' with worker_ok ?s1 => set (s' := s1) in * end.
  pose proof (drop_pending s i e s' Hi eq_refl eq_refl Hid) as Hdrop.
  split; [done|..]; cbn [s' sys_worker sys_pool inflight asked ran].
  - by rewrite Hid.
  - by rewrite Hcnt.
  - intros e' He'. apply Hp. by apply (Hdrop e').
  - intros j Hj. rewrite Hpk, lookup_delete_is_Some in Hj. destruct Hj as [Hne Hj].
    rewrite Hcnt. destruct (Hq j Hj) as [?|(e' & He' & <-)]; [by left|right].
    exists e'. split; [|done]. destruct (Hdrop e') as [_ Hkeep]. destruct (Hkeep He') as [->|?]; done.
  - intros r [Hin|Hin]%elem_of_app; [by apply Hr|].
    destruct (mPackages (sys_worker s) !! packageId e) as [x|] eqn:Hx; [|by apply elem_of_nil in Hin].
    apply list_elem_of_singleton in Hin as ->. cbn [run_entry run_package].
    destruct (wo_stored s Hok _ _ Hx) as [d Hd]. destruct (Hp e Hpe) as [y Hy]. congruence.
Qed.

Lemma sequential_step_ok s s' : sequential_step s s' -> sequential_ok s -> sequential_ok s'.
Proof.
  intros (l & Hstep & Hseq) Hs. pose proof (sys_step_ok _ _ _ Hstep (so_ok s Hs)) as Hok'.
  destruct Hstep as [s t Ht|s p t w Hw|s t pre post Hin|s id p t Hid|s i pc pool pc' Hi Hl|
    s i e p w Hi Hid Hcb Hp|s i e Hi Hn|s pool Hpool].
  - by destruct Hs.
  - apply store_sequential; auto.
  - destruct Hs as [Hok Hcb Hfl Hp Hq Hr].
    destruct Hfl as [Hnil|(p & t' & Hone & Hask)]; [rewrite Hnil in Hin; by destruct pre|].
    rewrite Hone in Hin. destruct pre as [|? pre]; [|by destruct pre]. injection Hin as <- <-.
    split; cbn [sys_worker sys_pool inflight asked ran app]; [done|done|by left|..|done].
    + intros e [[He|He] Hide]; [|apply Hp; split; [by right|done]].
      apply elem_of_cons in He as [->|He]; [eauto|apply Hp; split; [by left|done]].
    + intros i Hi. right. destruct (Hq i Hi) as [[_ ->]|(e & [[He|He] Hide] & Hei)].
      * eexists. split; [split; [left; apply list_elem_of_here|done]|done].
      * exists e. split; [|done]. split; [left; by apply list_elem_of_further|done].
      * exists e. split; [|done]. split; [by right|done].
  - destruct Hs as [Hok Hcb Hfl Hp Hq Hr].
    split; cbn [sys_worker sys_pool inflight asked ran]; [done|done|done|..|done].
    + intros e [[He|He] Hide]; [|apply Hp; split; [by right|done]].
      apply elem_of_cons in He as [->|He]; [done|apply Hp; split; [by left|done]].
    + intros i Hi. destruct (Hq i Hi) as [?|(e & [[He|He] Hide] & Hei)]; [by left|right..].
      * exists e. split; [|done]. split; [left; by apply list_elem_of_further|done].
      * exists e. split; [|done]. split; [by right|done].
  - destruct Hs as [Hok Hcb Hfl Hp Hq Hr]. pose proof (fun e => loop_pending s i pc pool pc' e Hi Hl) as Hpend.
    split; cbn [sys_worker sys_pool inflight asked ran]; [done| |done|..|done].
    + apply loop_step_inv in Hl as [[-> _]|(x & rest & _ & _ & ->)]; done.
    + intros e He. apply Hp. by apply Hpend.
    + intros j Hj. destruct (Hq j Hj) as [?|(e & He & Hei)]; [by left|right]. exists e.
      split; [by apply Hpend|done].
  - by apply run_sequential.
  - destruct Hs as [Hok Hcb Hfl Hp Hq Hr].
    match type of Hok' with worker_ok ?s1 => set (s' := s1) in * end.
    pose proof (drop_pending s i e s' Hi eq_refl eq_refl eq_refl) as Hdrop.
    split; [done|done|done|..|done].
    + intros e' He'. apply Hp. by apply (Hdrop e').
    + intros j Hj. destruct (Hq j Hj) as [?|(e' & He' & Hej)]; [by left|right]. exists e'.
      split; [|done]. destruct (Hdrop e') as [_ Hkeep]. destruct (Hkeep He') as [->|?]; [|done].
      destruct He' as [_ Hide]. destruct Hn as [?|Hn]; [done|]. rewrite Hide in Hn. done.
  - destruct Hs as [Hok Hcb Hfl Hp Hq Hr]. destruct Hpool as (id & Hne & Heq).
    assert (mPackageQueue pool = mPackageQueue (sys_pool s) /\
            mCallbackId (sys_worker s) ∈ mCallbackMap pool) as [Hqueue Hcb'].
    { destruct Heq as [->| ->]; unfold addCallback, removeCallback; cbn [negb]; try case_decide;
        (split; [done|]); cbn [mCallbackMap]; clear -Hcb Hne; set_solver. }
    split; [done|done|done|..|done]; unfold pending; cbn [sys_worker sys_pool threads]; by rewrite Hqueue.
Qed.

Lemma sys_new_sequential now id n : sequential_ok (sys_new now id n : System P).
Proof.
  split.
  - apply sys_new_ok.
  - unfold sys_new, addCallback, pool_new. cbn. set_solver.
  - by left.
  - intros e [[He|He] _]; [by apply elem_of_nil in He|]. by apply elem_of_replicate in He as [? _].
  - intros i [x Hx]. unfold sys_new, worker_new in Hx; cbn [sys_worker mPackages] in Hx. by rewrite lookup_empty in Hx.
  - intros r Hr. by apply elem_of_nil in Hr.
Qed.

(** ** One thread: nothing runs early *)

Record on_time s : Prop := {
  ot_thread : length (threads s) = 1%nat;
  ot_hand : forall e, TWork e ∈ threads s -> deadline e <= sys_now s;
  ot_waiting : forall u, TWaiting (Some u) ∈ threads s ->
    exists e, e ∈ mPackageQueue (sys_pool s) /\ deadline e <= u;
  ot_ran : forall r, r ∈ ran s -> deadline (run_entry r) <= run_time r
}.

Lemma top_least q e rest x : top q e rest -> x ∈ q -> deadline e <= deadline x.
Proof.
  intros [Hq Hmin] Hx. rewrite Hq in Hx. apply elem_of_cons in Hx as [->|Hx]; [lia|].
  by apply (proj1 (Forall_forall _ _) Hmin).
Qed.

Lemma top_package q e rest : top q e rest -> e ∈ q.
Proof. intros [Hq _]. rewrite Hq. apply list_elem_of_here. Qed.

Lemma loop_on_time now pl pc pl' pc' :
  (forall u, pc = TWaiting (Some u) -> exists e, e ∈ mPackageQueue pl /\ deadline e <= u) ->
  loop_step now pl pc pl' pc' ->
  (forall e, pc' = TWork e -> deadline e <= now) /\
  (forall u, pc' = TWaiting (Some u) -> exists e, e ∈ mPackageQueue pl' /\ deadline e <= u).
Proof.
  intros Hwait Hl. destruct Hl as [Hrun|pc e d pl' pc' _ He Hp Haft|pc e d _ He Hp|u pl' pc' Hu Haft].
  - done.
  - destruct Haft as [|Hrun Hq|e' rest Hrun Htop]; [done|done|]. split; [|done]. intros x [= <-].
    unfold wait_predicate in Hp. rewrite Hrun in Hp. cbn [negb] in Hp. destruct e as [p|]; [|done].
    injection Hp as Hp _. apply bool_decide_eq_true in Hp. destruct He as [rest' He].
    pose proof (top_least _ _ _ p Htop (top_package _ _ _ He)). lia.
  - split; [done|]. intros u [= ->]. unfold wait_predicate in Hp. case_match; [done|].
    destruct e as [p|]; [|done]. injection Hp as _ <-. destruct He as [rest He].
    exists p. split; [by eapply top_package|lia].
  - destruct Haft as [|Hrun Hq|e' rest Hrun Htop]; [done|done|]. split; [|done]. intros x [= <-].
    destruct (Hwait u eq_refl) as (y & Hy & Hyu). pose proof (top_least _ _ _ y Htop Hy). lia.
Qed.

Lemma on_time_step s s' : any_step s s' -> on_time s -> on_time s'.
Proof.
  intros (l & Hstep) [Hlen Hh Hw Hr].
  destruct (threads s) as [|pc0 [|]] eqn:Hth; [done| |done]. clear Hlen.
  assert (forall i pc (pc' : thread_pc), [pc0] !! i = Some pc -> i = 0%nat /\ pc = pc0) as H0.
  { intros [|i] pc pc'; [by intros [= <-]|by destruct i]. }
  destruct Hstep as [s t Ht|s p t w Hst|s t pre post Hin|s id p t Hid|s i pc pool pc' Hi Hl|
    s i e p w Hi Hid Hcb Hp|s i e Hi Hn|s pool Hpool]; rewrite ?Hth in *.
  - split; cbn [threads sys_now sys_pool ran]; [done| |done|done]. intros e He. specialize (Hh e He). lia.
  - by split.
  - split; cbn [threads sys_now sys_pool ran]; [done|done| |done]. intros u Hu.
    destruct (Hw u Hu) as (e & He & Hle). exists e. split; [by apply list_elem_of_further|done].
  - split; cbn [threads sys_now sys_pool ran]; [done|done| |done]. intros u Hu.
    destruct (Hw u Hu) as (e & He & Hle). exists e. split; [by apply list_elem_of_further|done].
  - destruct (H0 i pc pc' Hi) as [-> ->].
    destruct (loop_on_time _ _ _ _ _ (fun u Hu => Hw u (eq_ind_r (fun x => TWaiting (Some u) ∈ [x])
      (list_elem_of_here _ _) Hu)) Hl) as [Hh' Hw'].
    split; cbn [threads sys_now sys_pool ran]; [done| | |done]; cbn.
    + intros e He%list_elem_of_singleton. by apply Hh'.
    + intros u Hu%list_elem_of_singleton. by apply Hw'.
  - destruct (H0 i _ TTop Hi) as [-> <-]. split; cbn [threads sys_now sys_pool ran]; [done|..]; cbn.
    + by intros x Hx%list_elem_of_singleton.
    + by intros u Hu%list_elem_of_singleton.
    + intros r [Hin|Hin]%elem_of_app; [by apply Hr|]. destruct p; [|by apply elem_of_nil in Hin].
      apply list_elem_of_singleton in Hin as ->. cbn. apply Hh. apply list_elem_of_here.
  - destruct (H0 i _ TTop Hi) as [-> <-]. split; cbn [threads sys_now sys_pool ran]; [done|..|done]; cbn.
    + by intros x Hx%list_elem_of_singleton.
    + by intros u Hu%list_elem_of_singleton.
  - destruct Hpool as (id & _ & Heq). split; cbn [threads sys_now sys_pool ran]; [done|done| |done].
    assert (mPackageQueue pool = mPackageQueue (sys_pool s)) as ->; [|done].
    destruct Heq as [->| ->]; unfold addCallback, removeCallback; cbn [negb]; try case_decide; done.
Qed.

Lemma sys_new_on_time now id : on_time (sys_new now id 1 : System P).
Proof.
  split; cbn; [done|..].
  - by intros e He%list_elem_of_singleton.
  - by intros u Hu%list_elem_of_singleton.
  - by intros r Hr%elem_of_nil.
Qed.

(** ** Calls of [schedule] that overlap *)

(** The package [i] is stored and no entry leads to it. *)
Definition lost (i : Z) s : Prop :=
  i < mPackageIdCounter (sys_worker s) /\ is_Some (mPackages (sys_worker s) !! i) /\
  (forall e, pending s e -> packageId e <> i) /\ (forall r, r ∈ ran s -> packageId (run_entry r) <> i).

Lemma lost_step i s s' : any_step s s' -> lost i s -> lost i s'.
Proof.
  intros (l & Hstep) (Hc & Hs & Hp & Hr).
  destruct Hstep as [s t Ht|s p t w Hw|s t pre post Hin|s id p t Hid|s j pc pool pc' Hj Hl|
    s j e p w Hj Hid Hcb Hproc|s j e Hj Hn|s pool Hpool].
  - done.
  - apply worker_store_inv in Hw as (Hid & Hcnt & Hpk). unfold lost, pending.
    cbn [sys_worker sys_pool threads ran]. rewrite Hcnt, Hid, Hpk. split_and!; [lia| |done|done].
    case_match; [done|]. by rewrite lookup_insert_ne by lia.
  - split_and!; [done|done| |done]. intros e [[He|He] Hide].
    + apply elem_of_cons in He as [->|He]; [cbn; lia|]. apply Hp. split; [by left|done].
    + apply Hp. split; [by right|done].
  - split_and!; [done|done| |done]. intros e [[He|He] Hide].
    + apply elem_of_cons in He as [->|He]; [done|]. apply Hp. split; [by left|done].
    + apply Hp. split; [by right|done].
  - split_and!; [done|done| |done]. intros e He. apply Hp.
    by apply (loop_pending s j pc pool pc' e Hj Hl).
  - assert (pending s e) as Hpe by (split; [right; by eapply list_elem_of_lookup_2|done]).
    pose proof (Hp e Hpe) as Hei. apply process_inv in Hproc as (Hid' & Hcnt & -> & Hpk).
    split_and!; cbn [sys_worker ran].
    + by rewrite Hcnt.
    + by rewrite Hpk, lookup_delete_ne.
    + intros e' He'. apply Hp. by eapply (drop_pending s j e _ Hj); [..|exact He'].
    + intros r [Hin|Hin]%elem_of_app; [by apply Hr|].
      case_match; [|by apply elem_of_nil in Hin]. by apply list_elem_of_singleton in Hin as ->.
  - split_and!; [done|done| |done]. intros e' He'. apply Hp.
    by eapply (drop_pending s j e _ Hj); [..|exact He'].
  - destruct Hpool as (id & _ & Heq). split_and!; [done|done| |done]. intros e He. apply Hp.
    assert (mPackageQueue pool = mPackageQueue (sys_pool s)) as Hq.
    { destruct Heq as [->| ->]; unfold addCallback, removeCallback; cbn [negb]; try case_decide; done. }
    destruct He as [He Hide]. cbn [sys_pool threads sys_worker] in He, Hide. by rewrite Hq in He.
Qed.

(** The state after two calls that overlap: both packages are stored before
    either of the ids is queued. *)
Definition two_overlapping (now id : Z) (n : nat) (p1 p2 : P) (t1 t2 : Z) : System P :=
  mkSys now
    (pool_schedule (pool_schedule (addCallback pool_new id true) id 2 t1) id 2 t2)
    (mkWorker id 2 (<[2 := p2]> (<[1 := p1]> ∅))) [] (replicate n TTop) []
    (<[2 := (p2, t2)]> (<[1 := (p1, t1)]> ∅)).

Lemma two_overlapping_reached now id n p1 p2 t1 t2 :
  rtc any_step (sys_new now id n) (two_overlapping now id n p1 p2 t1 t2).
Proof.
  eapply rtc_l; [exists LStore; by apply (SysStore (sys_new now id n) p1 t1)|].
  eapply rtc_l; [exists LStore; by eapply (SysStore _ p2 t2)|].
  eapply rtc_l; [exists LOther; by apply (SysPush _ t1 [t2] [])|].
  eapply rtc_l; [exists LOther; by apply (SysPush _ t2 [] [])|].
  apply rtc_refl.
Qed.

Lemma two_overlapping_lost now id n p1 p2 t1 t2 : lost 1 (two_overlapping now id n p1 p2 t1 t2).
Proof.
  split_and!; cbn [two_overlapping sys_worker mPackageIdCounter mPackages ran].
  - lia.
  - rewrite lookup_insert_ne, lookup_insert_eq by lia. eauto.
  - intros e [[He|He] _].
    + cbn in He. repeat (apply elem_of_cons in He as [->|He]; [done|]). by apply elem_of_nil in He.
    + by apply elem_of_replicate in He as [? _].
  - by intros r Hr%elem_of_nil.
Qed.

(** ** Properties *)

(** However the calls of the clients and the threads of the pool
    interleave, the callback is run at most once on each scheduled package,
    and only on packages that were scheduled: two runs have two ids, the
    package of a run is the one that was scheduled under its id and is no
    longer stored, and a package that was scheduled is stored or has been
    run. *)
Lemma worker_at_most_once now id n s :
  rtc any_step (sys_new now id n) s ->
  NoDup ((fun r => packageId (run_entry r)) <$> ran s) /\
  (forall r, r ∈ ran s ->
     mPackages (sys_worker s) !! packageId (run_entry r) = None /\
     exists d, asked s !! packageId (run_entry r) = Some (run_package r, d)) /\
  (forall i p d, asked s !! i = Some (p, d) ->
     mPackages (sys_worker s) !! i = Some p \/
     exists r, r ∈ ran s /\ packageId (run_entry r) = i /\ run_package r = p).
Proof.
  intros Hr. assert (worker_ok s) as [Hc Ha Hs Hran Ho Hall].
  { refine (rtc_invariant any_step worker_ok _ _ _ Hr (sys_new_ok now id n)). intros a b [l Hl]. by apply sys_step_ok with l. }
  split_and!; [done|done|]. intros i p d Hi.
  destruct (Hall i) as [[q Hq]|(r & Hin & <-)]; [eauto|left|right].
  - destruct (Hs _ _ Hq). congruence.
  - exists r. destruct (Hran r Hin) as (_ & d' & Hd). split_and!; congruence.
Qed.

(** C32: with one thread, and calls of [schedule] that do not overlap, every
    package is run on time or still will be: a run is of the package that was
    scheduled under its id, at or after the time it was scheduled for, and a
    package that has not been run is of the call that is still going on, or
    has an entry with its own deadline in the queue or in the thread's hand. *)
Theorem worker_runs_on_time now id s :
  rtc sequential_step (sys_new now id 1) s ->
  (forall r, r ∈ ran s -> exists d,
     asked s !! packageId (run_entry r) = Some (run_package r, d) /\ d <= run_time r) /\
  (forall i p d, asked s !! i = Some (p, d) ->
     (exists r, r ∈ ran s /\ packageId (run_entry r) = i) \/
     (inflight s = [d] /\ i = mPackageIdCounter (sys_worker s)) \/
     (exists e, pending s e /\ packageId e = i /\ deadline e = d)).
Proof.
  intros Hr. assert (sequential_ok s) as [[Hc Ha Hs Hran Ho Hall] Hcb Hfl Hp Hq Hrd].
  { refine (rtc_invariant sequential_step sequential_ok _ _ _ Hr (sys_new_sequential now id 1)). intros a b. apply sequential_step_ok. }
  assert (on_time s) as [_ _ _ Hon].
  { refine (rtc_invariant sequential_step on_time _ _ _ Hr (sys_new_on_time now id)). intros a b (l & Hl & _).
    apply on_time_step. by exists l. }
  split; [intros r Hin; exists (deadline (run_entry r)); auto|].
  intros i p d Hi. destruct (Hall i) as [Hst|?]; [eauto|right|by left].
  destruct (Hq i Hst) as [[Hne ->]|(e & He & <-)]; [left|right].
  - destruct Hfl as [|(p' & t & -> & Hask)]; [done|]. split; [congruence|done].
  - exists e. split_and!; [done|done|]. destruct (Hp e He). congruence.
Qed.

(** [schedule] stores the package under the lock and queues the counter
    after it: two calls that overlap can both queue the id of the later one,
    and then the callback is never run on the package of the earlier one,
    which stays stored for good. *)
Lemma worker_race_loses now id n p1 p2 t1 t2 :
  exists s, rtc any_step (sys_new now id n) s /\
    asked s !! 1 = Some (p1, t1) /\ asked s !! 2 = Some (p2, t2) /\ inflight s = [] /\
    forall s', rtc any_step s s' ->
      is_Some (mPackages (sys_worker s') !! 1) /\
      forall r, r ∈ ran s' -> packageId (run_entry r) <> 1.
Proof.
  exists (two_overlapping now id n p1 p2 t1 t2). split_and!; [apply two_overlapping_reached| | |done|].
  - cbn [two_overlapping asked]. by rewrite lookup_insert_ne, lookup_insert_eq by lia.
  - cbn [two_overlapping asked]. by rewrite lookup_insert_eq.
  - intros s' Hr. assert (lost 1 s') as (_ & ? & _ & ?); [|done].
    refine (rtc_invariant any_step (lost 1) _ _ _ Hr (two_overlapping_lost now id n p1 p2 t1 t2)). intros a b. apply lost_step.
Qed.
End WorkerProofs.

(** A thread waits for the deadline of the package, and runs it. *)
Definition one_run : System string :=
  mkSys 5 (mkPool true [] {[7]}) (mkWorker 7 1 ∅) [] [TTop] [mkRun 5 (mkPackage 5 7 1) "boost"]
    {[1 := ("boost", 5)]}.

Lemma one_run_reached : rtc sequential_step (sys_new 0 7 1) one_run.
Proof.
  assert (forall rest : list Package, rest = [] -> top [mkPackage 5 7 1] (mkPackage 5 7 1) rest) as Htop.
  { by intros ? ->. }
  eapply rtc_l; [exists LStore; split; [by apply (SysStore (sys_new 0 7 1) "boost" 5)|done]|].
  eapply rtc_l; [exists LOther; split; [by apply (SysPush _ 5 [] [])|done]|].
  eapply rtc_l; [exists LOther; split; [|done];
    apply (SysLoop _ 0 TTop); [done|]; apply (LoopWait _ _ _ (Some (mkPackage 5 7 1))); [by left|exists []; by apply Htop|done]|].
  eapply rtc_l; [exists LOther; split; [by apply (SysTick _ 5)|done]|].
  eapply rtc_l; [exists LOther; split; [|done];
    eapply (SysLoop _ 0); [done|]; apply LoopTimeout; [done|];
    apply (AfterTake _ (mkPackage 5 7 1) []); [done|by apply Htop]|].
  eapply rtc_l; [exists LOther; split; [|done]; by eapply (SysRun _ 0)|].
  apply rtc_refl.
Qed.

Lemma one_run_reached_any : rtc any_step (sys_new 0 7 1) one_run.
Proof.
  eapply rtc_subrel; [|apply one_run_reached]. intros a b (l & Hl & _). by exists l.
Qed.

Lemma worker_runs_on_time_witness :
  exists s : System string, rtc sequential_step (sys_new 0 7 1) s /\ run_package <$> ran s = ["boost"] /\
    forall r, r ∈ ran s -> exists d,
      asked s !! packageId (run_entry r) = Some (run_package r, d) /\ d <= run_time r.
Proof.
  exists one_run. split_and!; [apply one_run_reached|reflexivity|].
  apply (worker_runs_on_time 0 7 one_run one_run_reached).
Defined.
