(* ===== verification/SessionManager.v ===== *)
(** * power/PowerSessionManager.{h,cpp}: the sessions' votes put into effect

    The manager keeps the sessions, their tasks and votes ([SessionTasks]),
    asks the kernel to clamp the utilisation of a session's threads when a vote
    is set, and has a worker ([BackgroundWorker]) deactivate votes when they time
    out.  An operation is a program of sections, each run with one of the
    manager's locks held; the steps below interleave the sections.

    What the manager does outside its state is a history: the system calls on
    threads and the hints.  The hint manager (libperfmgr) and the kernel are
    class [PowerEnv]: what they answer may depend on the whole history. *)

From S2P Require Import Prelude Votes SessionRecords SessionTasks.

(** ** Data *)

Inductive AdpfVoteType := CPU_VOTE_DEFAULT | CPU_LOAD_UP | CPU_LOAD_RESET | CPU_LOAD_RESUME
  | VOTE_POWER_EFFICIENCY.

Definition vote_int (v : AdpfVoteType) : Z :=
  match v with
  | CPU_VOTE_DEFAULT => 0 | CPU_LOAD_UP => 1 | CPU_LOAD_RESET => 2 | CPU_LOAD_RESUME => 3
  | VOTE_POWER_EFFICIENCY => 4
  end.

Inductive ProcessTag := DEFAULT | SYSTEM_UI.

Inductive SessionJankyLevel := LIGHT | MODERATE | SEVERE.

(** The members of [AppHintDesc] the manager reads. *)
Record HintDesc := mkDesc {
  desc_sessionId : Z; desc_tgid : Z; desc_uid : Z; desc_is_active : bool; desc_targetNs : Z
}.

Record EventSessionTimeout := mkEvent { ev_timeStamp : Z; ev_sessionId : Z; ev_voteId : Z }.

(** What the manager does to the system. *)
Inductive effect :=
  | SetUclamp (tid : Z) (r : UclampRange)
  | TaskProfile (tid : Z) (profile : string)
  | DoHint (hint : string)
  | DoHintFor (hint : string) (ns : Z)
  | EndHint (hint : string)
  | SetAdpfProfileFromDoHint (mode : string)
  | RegisterAdpfUpdateEvent (tag : string)
  | UnregisterAdpfUpdateEvent (tag : string).

(** [timers]: the events in the worker, with their deadlines; [history] is a
    ghost.  [mSessionMap] holds weak pointers to session objects, and
    [objects] are those that are alive. *)
Record Manager := mkMgr {
  mSessionTaskMap : SessionTaskMap; mSessionMap : gmap Z Z; mGameModeEnabled : bool;
  timers : list (EventSessionTimeout * Z); objects : gset Z; mgr_now : Z; history : list effect
}.

Class PowerEnv := {
  AID_APP_START : Z;
  AdpfConfig : Type;
  GetAdpfProfile : list effect -> AdpfConfig;
  mUclampMinOn : AdpfConfig -> bool;
  mUclampMaxEfficientBase : AdpfConfig -> option Z;
  mUclampMaxEfficientOffset : AdpfConfig -> option Z;
  GetAdpfProfileFromDoHint : list effect -> bool;
  IsHintSupported : list effect -> string -> bool;
  kDisableBoostHintName : string;
  sched_setattr : list effect -> Z -> UclampRange -> Z
}.

Definition kGameModeName : string := "GAME".
Definition ESRCH : Z := 3.

(** A manager with no session. *)
Definition mgr_new (now : Z) : Manager := mkMgr empty_map ∅ false [] ∅ now [].

(** ** State access *)

Definition with_map (s : Manager) (m : SessionTaskMap) : Manager :=
  mkMgr m (mSessionMap s) (mGameModeEnabled s) (timers s) (objects s) (mgr_now s) (history s).

Definition with_timers (s : Manager) (l : list (EventSessionTimeout * Z)) : Manager :=
  mkMgr (mSessionTaskMap s) (mSessionMap s) (mGameModeEnabled s) l (objects s) (mgr_now s) (history s).

Definition with_history (s : Manager) (h : list effect) : Manager :=
  mkMgr (mSessionTaskMap s) (mSessionMap s) (mGameModeEnabled s) (timers s) (objects s) (mgr_now s) h.

Definition with_sessions (s : Manager) (m : gmap Z Z) : Manager :=
  mkMgr (mSessionTaskMap s) m (mGameModeEnabled s) (timers s) (objects s) (mgr_now s) (history s).

Definition emit (e : effect) : St Manager unit := modify (fun s => with_history s (history s ++ [e])).

Definition now : St Manager Z := gets mgr_now.

Definition find (sid : Z) : St Manager (option Z) := gets (fun s => findSession (mSessionTaskMap s) sid).

(** The object behind a [shared_ptr]. *)
Definition deref (p : Z) : St Manager SessionValueEntry :=
  m ← gets mSessionTaskMap; of_option (values m !! p).

Definition deref_votes (p : Z) : St Manager votes :=
  m ← gets mSessionTaskMap; of_option (voters m !! p).

Definition set_values (m : SessionTaskMap) (v : gmap Z SessionValueEntry) : SessionTaskMap :=
  mkTaskMap v (voters m) (mSessions m) (mTasks m).

Definition set_voters (m : SessionTaskMap) (v : gmap Z votes) : SessionTaskMap :=
  mkTaskMap (values m) v (mSessions m) (mTasks m).

Definition set_links (m : SessionTaskMap) (sid : Z) (l : list Z) : SessionTaskMap :=
  mkTaskMap (values m) (voters m) (alter (fun e => mkVal (val e) l) sid (mSessions m)) (mTasks m).

Definition store (p : Z) (e : SessionValueEntry) : St Manager unit :=
  modify (fun s => with_map s (set_values (mSessionTaskMap s) (<[p := e]> (values (mSessionTaskMap s))))).

Definition store_votes (p : Z) (vs : votes) : St Manager unit :=
  modify (fun s => with_map s (set_voters (mSessionTaskMap s) (<[p := vs]> (voters (mSessionTaskMap s))))).

(** Assignments to one member. *)

Definition with_active (e : SessionValueEntry) (b : bool) : SessionValueEntry :=
  mkSession (sessionId e) (tgid e) (uid e) (idString e) b (isAppSession e) (lastUpdatedTime e)
    (votes_ptr e) (sessFrameBuckets e) (isPowerEfficient e) (hBoostModeDist e).

Definition with_updated (e : SessionValueEntry) (t : Z) : SessionValueEntry :=
  mkSession (sessionId e) (tgid e) (uid e) (idString e) (isActive e) (isAppSession e) t
    (votes_ptr e) (sessFrameBuckets e) (isPowerEfficient e) (hBoostModeDist e).

Definition with_buckets (e : SessionValueEntry) (b : FrameBuckets) : SessionValueEntry :=
  mkSession (sessionId e) (tgid e) (uid e) (idString e) (isActive e) (isAppSession e) (lastUpdatedTime e)
    (votes_ptr e) b (isPowerEfficient e) (hBoostModeDist e).

Definition with_efficient (e : SessionValueEntry) (b : bool) : SessionValueEntry :=
  mkSession (sessionId e) (tgid e) (uid e) (idString e) (isActive e) (isAppSession e) (lastUpdatedTime e)
    (votes_ptr e) (sessFrameBuckets e) b (hBoostModeDist e).

Definition with_dist (e : SessionValueEntry) (d : HeurBoostStatistics) : SessionValueEntry :=
  mkSession (sessionId e) (tgid e) (uid e) (idString e) (isActive e) (isAppSession e) (lastUpdatedTime e)
    (votes_ptr e) (sessFrameBuckets e) (isPowerEfficient e) d.

(** [make_shared]: an address that is not in use. *)
Definition new_value (m : SessionTaskMap) : Z := fresh (dom (values m) : gset Z).
Definition new_votes (m : SessionTaskMap) : Z := fresh (dom (voters m) : gset Z).

(** ** Clamping *)

Definition clamped (range : UclampRange) : UclampRange :=
  let lo := Z.min (Z.max kUclampMin (uclampMin range)) kUclampMax in
  mkRange lo (Z.min (Z.max (uclampMax range) lo) kUclampMax).

Definition shouldScheduleTimeout (vs : votes) (vote_id deadline : Z) : bool :=
  negb (voteIsActive vs vote_id) || bool_decide (deadline < voteTimeout vs vote_id).

Section Operations.
Context `{PowerEnv}.

Definition set_uclamp (tid : Z) (range : UclampRange) : St Manager Z :=
  h ← gets history;
  emit (SetUclamp tid (clamped range)) ;;
  mret (sched_setattr h tid (clamped range)).

Definition profile : St Manager AdpfConfig := gets (fun s => GetAdpfProfile (history s)).

(** The loop of [applyUclampLocked], over the session's own list, from which
    it erases: [done] are the threads passed, [todo] the others. *)
Fixpoint apply_loop (config : AdpfConfig) (sid timePoint : Z) (done todo : list Z)
    : St Manager unit :=
  match todo with
  | [] => mret tt
  | tid :: rest =>
      m ← gets mSessionTaskMap;
      range ← of_option (getTaskVoteRange m tid timePoint default_range
                (mUclampMaxEfficientBase config) (mUclampMaxEfficientOffset config));
      stat ← set_uclamp tid range;
      if decide (stat = ESRCH) then
        modify (fun s => with_map s
          (set_links (removeDeadTaskSessionMap (mSessionTaskMap s) sid tid).2 sid (done ++ rest))) ;;
        apply_loop config sid timePoint done rest
      else apply_loop config sid timePoint (done ++ [tid]) rest
  end.

Definition applyUclampLocked (sid timePoint : Z) : St Manager unit :=
  config ← profile;
  sess ← find sid;
  match sess with
  | None => mret tt
  | Some p =>
      (if mUclampMinOn config then
         m ← gets mSessionTaskMap; apply_loop config sid timePoint [] (getTaskIds m sid)
       else mret tt) ;;
      e ← deref p;
      store p (with_updated e timePoint)
  end.

(** ** Boost of the top app *)

Definition isAnyAppSessionActive_locked : St Manager bool :=
  t ← now; m ← gets mSessionTaskMap; mret (isAnyAppSessionActive m t).

Definition enableSystemTopAppBoost : St Manager unit :=
  h ← gets history;
  if IsHintSupported h kDisableBoostHintName then emit (EndHint kDisableBoostHintName) else mret tt.

Definition disableSystemTopAppBoost : St Manager unit :=
  h ← gets history;
  if IsHintSupported h kDisableBoostHintName then emit (DoHint kDisableBoostHintName) else mret tt.

Definition updateUniversalBoostMode : St Manager unit :=
  active ← isAnyAppSessionActive_locked;
  if (active : bool) then disableSystemTopAppBoost else enableSystemTopAppBoost.

Definition updateHintMode (mode : string) (enabled : bool) : St Manager unit :=
  (if decide (mode = kGameModeName) then
     modify (fun s => mkMgr (mSessionTaskMap s) (mSessionMap s) enabled (timers s) (objects s)
                        (mgr_now s) (history s))
   else mret tt) ;;
  h ← gets history;
  if enabled && GetAdpfProfileFromDoHint h then emit (SetAdpfProfileFromDoHint mode) else mret tt.

Definition getGameModeEnableState : St Manager bool := gets mGameModeEnabled.

(** ** Sections: the code under [mSessionTaskMapMutex] *)

(** [forceSessionActive]: was the session there. *)
Definition force_locked (sid : Z) (b : bool) : St Manager bool :=
  sess ← find sid;
  match sess with
  | None => mret false
  | Some p => e ← deref p; store p (with_active e b) ;; mret true
  end.

(** [pause] and [resume]: did the state change. *)
Definition switch_locked (sid : Z) (b : bool) : St Manager bool :=
  sess ← find sid;
  match sess with
  | None => mret false
  | Some p =>
      e ← deref p;
      if Bool.eqb (isActive e) b then mret false else store p (with_active e b) ;; mret true
  end.

Definition add_locked (idString : string) (d : HintDesc) (timeNow : Z) : St Manager bool :=
  m ← gets mSessionTaskMap;
  let vp := new_votes m in
  let vs := votes_add ∅ (vote_int CPU_VOTE_DEFAULT)
              (mkVote false timeNow (desc_targetNs d) (mkRange kUclampMin kUclampMax)) in
  let sve := mkSession 0 (desc_tgid d) (wrap_u 32 (desc_uid d)) idString (desc_is_active d)
               (bool_decide (AID_APP_START <= desc_uid d)) timeNow vp (mkBuckets 0 0 0 0 0 0) false
               (mkHeur 0 0 0) in
  let r := add (set_voters m (<[vp := vs]> (voters m))) (desc_sessionId d) sve [] (new_value m) in
  modify (fun s => with_map s r.2) ;; mret r.1.

(** The threads added and removed. *)
Definition replace_locked (sid : Z) (threadIds : list Z) : St Manager (list Z * list Z) :=
  m ← gets mSessionTaskMap;
  '(b, added, removed, m') ← of_option (replace m sid threadIds (new_value m));
  modify (fun s => with_map s m') ;; mret (added, removed).

Definition remove_locked (sid : Z) : St Manager (list Z) :=
  '(_, removed) ← replace_locked sid [];
  modify (fun s => with_map s (remove (mSessionTaskMap s) sid).2) ;; mret removed.

Definition voteSet_locked (sid : Z) (voteId : AdpfVoteType) (uclampMin uclampMax startTime durationNs : Z)
    : St Manager (option (EventSessionTimeout * Z)) :=
  if decide (in_s 64 (startTime + durationNs)) then
    let timeoutDeadline := startTime + durationNs in
    sess ← find sid;
    match sess with
    | None => mret None
    | Some p =>
        e ← deref p;
        vs ← deref_votes (votes_ptr e);
        let scheduleTimeout := shouldScheduleTimeout vs (vote_int voteId) timeoutDeadline in
        m ← gets mSessionTaskMap;
        m' ← of_option (addVote m sid (vote_int voteId) uclampMin uclampMax startTime durationNs);
        modify (fun s => with_map s m') ;;
        e' ← deref p;
        store p (with_updated e' startTime) ;;
        applyUclampLocked sid startTime ;;
        mret (if scheduleTimeout
              then Some (mkEvent startTime sid (vote_int voteId), timeoutDeadline) else None)
    end
  else ub.

(** [handleEvent]: was a vote deactivated. *)
Definition handle_locked (ev : EventSessionTimeout) : St Manager bool :=
  tNow ← now;
  sess ← find (ev_sessionId ev);
  match sess with
  | None => mret false
  | Some p =>
      e ← deref p;
      vs ← deref_votes (votes_ptr e);
      if voteIsActive vs (ev_voteId ev) then
        if decide (voteTimeout vs (ev_voteId ev) <= tNow) then
          store_votes (votes_ptr e) (setUseVote vs (ev_voteId ev) false).2 ;; mret true
        else
          modify (fun s => with_timers s ((ev, voteTimeout vs (ev_voteId ev)) :: timers s)) ;;
          mret false
      else mret false
  end.

(** ** Operations *)

Definition forceSessionActive (sid : Z) (b : bool) : St Manager unit :=
  found ← force_locked sid b;
  if (found : bool) then updateUniversalBoostMode else mret tt.

Definition profile_name (tag : ProcessTag) (set_ : bool) : string :=
  match tag, set_ with
  | SYSTEM_UI, true => "SCHED_QOS_SENSITIVE_EXTREME_SET"
  | SYSTEM_UI, false => "SCHED_QOS_SENSITIVE_EXTREME_CLEAR"
  | DEFAULT, true => "SCHED_QOS_SENSITIVE_STANDARD_SET"
  | DEFAULT, false => "SCHED_QOS_SENSITIVE_STANDARD_CLEAR"
  end.

Definition set_profiles (tag : ProcessTag) (set_ : bool) (tids : list Z) : St Manager unit :=
  for_each tids (fun tid => emit (TaskProfile tid (profile_name tag set_))).

Definition setThreadsFromPowerSession (sid : Z) (threadIds : list Z) (procTag : ProcessTag)
    : St Manager unit :=
  forceSessionActive sid false ;;
  '(addedThreads, removedThreads) ← replace_locked sid threadIds;
  set_profiles procTag true addedThreads ;;
  set_profiles procTag false removedThreads ;;
  forceSessionActive sid true.

Definition addPowerSession (idString : string) (d : HintDesc) (threadIds : list Z) (procTag : ProcessTag)
    : St Manager unit :=
  timeNow ← now;
  addedRes ← add_locked idString d timeNow;
  setThreadsFromPowerSession (desc_sessionId d) threadIds procTag.

Definition registerSession (obj sid : Z) : St Manager unit :=
  modify (fun s => with_sessions s (<[wrap_s 32 sid := obj]> (mSessionMap s))).

Definition unregisterSession (sid : Z) : St Manager unit :=
  modify (fun s => with_sessions s (delete (wrap_s 32 sid) (mSessionMap s))).

Definition getSession (sid : Z) : St Manager (option Z) :=
  m ← gets mSessionMap;
  alive ← gets objects;
  match m !! wrap_s 32 sid with
  | None => mret None
  | Some obj =>
      if decide (obj ∈ alive) then mret (Some obj)
      else unregisterSession sid ;; mret None
  end.

Definition clear : St Manager unit := modify (fun s => with_sessions s ∅).

Definition removePowerSession (sid : Z) (procTag : ProcessTag) : St Manager unit :=
  forceSessionActive sid false ;;
  removedThreads ← remove_locked sid;
  set_profiles procTag false removedThreads ;;
  unregisterSession sid.

Definition pause (sid : Z) : St Manager unit :=
  changed ← switch_locked sid false;
  if (changed : bool) then updateUniversalBoostMode else mret tt.

Definition resume (sid : Z) : St Manager unit :=
  changed ← switch_locked sid true;
  if (changed : bool) then updateUniversalBoostMode else mret tt.

Definition updateTargetWorkDuration (sid : Z) (voteId : AdpfVoteType) (durationNs : Z) : St Manager unit :=
  sess ← find sid;
  match sess with
  | None => mret tt
  | Some p =>
      e ← deref p;
      vs ← deref_votes (votes_ptr e);
      store_votes (votes_ptr e) (votes_updateDuration vs (vote_int voteId) durationNs)
  end.

Definition schedule (ev : EventSessionTimeout * Z) : St Manager unit :=
  modify (fun s => with_timers s (ev :: timers s)).

Definition voteSet (sid : Z) (voteId : AdpfVoteType) (uclampMin uclampMax startTime durationNs : Z)
    : St Manager unit :=
  r ← voteSet_locked sid voteId uclampMin uclampMax startTime durationNs;
  match r with None => mret tt | Some ev => schedule ev end.

Definition disableBoosts (sid : Z) : St Manager unit :=
  sess ← find sid;
  match sess with
  | None => mret tt
  | Some p =>
      for_each [CPU_LOAD_UP; CPU_LOAD_RESET; CPU_LOAD_RESUME; VOTE_POWER_EFFICIENCY] (fun vid =>
        e ← deref p;
        vs ← deref_votes (votes_ptr e);
        store_votes (votes_ptr e) (setUseVote vs (vote_int vid) false).2)
  end.

Definition handleEvent (ev : EventSessionTimeout) : St Manager unit :=
  recalcUclamp ← handle_locked ev;
  if (recalcUclamp : bool) then updateUniversalBoostMode else mret tt.

Definition setPreferPowerEfficiency (sid : Z) (enabled : bool) : St Manager unit :=
  sess ← find sid;
  match sess with
  | None => mret tt
  | Some p =>
      e ← deref p;
      if Bool.eqb enabled (isPowerEfficient e) then mret tt
      else store p (with_efficient e enabled) ;; t ← now; applyUclampLocked sid t
  end.

Definition updateFrameBuckets (sid : Z) (lastReportedFrames : FrameBuckets) : St Manager unit :=
  sess ← find sid;
  match sess with
  | None => mret tt
  | Some p => e ← deref p; store p (with_buckets e (addUpNewFrames (sessFrameBuckets e) lastReportedFrames))
  end.

Definition count_frames (d : HeurBoostStatistics) (jankyLevel : SessionJankyLevel) (n : Z)
    : HeurBoostStatistics :=
  match jankyLevel with
  | LIGHT => mkHeur (lightModeFrames d + n) (moderateModeFrames d) (severeModeFrames d)
  | MODERATE => mkHeur (lightModeFrames d) (moderateModeFrames d + n) (severeModeFrames d)
  | SEVERE => mkHeur (lightModeFrames d) (moderateModeFrames d) (severeModeFrames d + n)
  end.

Definition updateHboostStatistics (sid : Z) (jankyLevel : SessionJankyLevel) (numOfFrames : Z)
    : St Manager unit :=
  sess ← find sid;
  match sess with
  | None => mret tt
  | Some p => e ← deref p; store p (with_dist e (count_frames (hBoostModeDist e) jankyLevel numOfFrames))
  end.
End Operations.

(** ** Invariant *)

(** The votes of a session, and the votes that are on. *)
Definition session_votes (m : SessionTaskMap) (sid : Z) : option votes :=
  entry ← mSessions m !! sid; e ← values m !! val entry; voters m !! votes_ptr e.

Definition vote_on (m : SessionTaskMap) (sid id : Z) : bool :=
  match session_votes m sid with None => false | Some vs => voteIsActive vs id end.

Definition in_limits (r : UclampRange) : Prop := kUclampMin <= uclampMin r <= uclampMax r /\ uclampMax r <= kUclampMax.

Record tasks_ok (m : SessionTaskMap) : Prop := {
  tk_map : map_ok m;
  (* the votes are live, and no two sessions share them *)
  tk_votes : forall p e, values m !! p = Some e -> is_Some (voters m !! votes_ptr e);
  tk_own : forall p1 p2 e1 e2, values m !! p1 = Some e1 -> values m !! p2 = Some e2 ->
    votes_ptr e1 = votes_ptr e2 -> sessionId e1 = sessionId e2;
  (* a task is in a session exactly as often as the session links it *)
  tk_exact : forall sid entry t, mSessions m !! sid = Some entry ->
    occurrences (val entry) (task_list (mTasks m) t) = occurrences t (linkedTasks entry)
}.

Record mgr_ok (s : Manager) : Prop := {
  mk_tasks : tasks_ok (mSessionTaskMap s);
  mk_limits : forall tid r, SetUclamp tid r ∈ history s -> in_limits r
}.

(** ** Lemmas: the tables *)

Lemma clamped_in_limits r : in_limits (clamped r).
Proof. unfold in_limits, clamped, kUclampMin, kUclampMax. simpl. lia. Qed.

(** Storing a value with the same id and votes. *)
Lemma store_tasks_ok m p e e' :
  tasks_ok m -> values m !! p = Some e -> sessionId e' = sessionId e -> votes_ptr e' = votes_ptr e ->
  tasks_ok (set_values m (<[p := e']> (values m))) /\
  forall sid, session_votes (set_values m (<[p := e']> (values m))) sid = session_votes m sid.
Proof.
  intros [Hm Hv Ho Hx] Hp Hid Hptr.
  assert (forall q x, <[p := e']> (values m) !! q = Some x -> exists y, values m !! q = Some y /\
    sessionId x = sessionId y /\ votes_ptr x = votes_ptr y) as Hback.
  { intros q x [[<- <-]|[_ Hq]]%lookup_insert_Some; eauto. }
  split; [split|]; cbn [set_values values voters mSessions mTasks].
  - destruct Hm as [Ha Hb Hc]. split; cbn [set_values values mSessions mTasks]; [|done|done].
    intros sid entry Hs. destruct (Ha sid entry Hs) as (x & Hx' & Hsid).
    destruct (decide (val entry = p)) as [<-|Hne]; [|rewrite lookup_insert_ne by done; eauto].
    rewrite lookup_insert_eq. exists e'. split; [done|]. congruence.
  - intros q x (y & Hy & _ & ->)%Hback. eauto.
  - intros p1 p2 e1 e2 (y1 & H1 & -> & ->)%Hback (y2 & H2 & -> & ->)%Hback. eauto.
  - done.
  - intros sid. unfold session_votes. cbn [set_values set_voters mSessions values voters].
    destruct (mSessions m !! sid) as [entry|]; simpl; [|done].
    destruct (decide (val entry = p)) as [<-|Hne]; [|by rewrite lookup_insert_ne].
    rewrite lookup_insert_eq, Hp. simpl. by rewrite Hptr.
Qed.

(** Storing the votes of one session. *)
Lemma store_votes_tasks_ok m sid entry e vs :
  tasks_ok m -> mSessions m !! sid = Some entry -> values m !! val entry = Some e ->
  let m' := set_voters m (<[votes_ptr e := vs]> (voters m)) in
  tasks_ok m' /\ session_votes m' sid = Some vs /\
  forall sid', sid' <> sid -> session_votes m' sid' = session_votes m sid'.
Proof.
  intros [Hm Hv Ho Hx] Hs He m'. split_and!; [split|..]; subst m'; cbn [set_voters values voters mSessions mTasks].
  - by destruct Hm.
  - intros p x Hp. rewrite lookup_insert_is_Some. destruct (decide (votes_ptr e = votes_ptr x)); eauto.
  - done.
  - done.
  - unfold session_votes. cbn. rewrite Hs. cbn. rewrite He. cbn. by rewrite lookup_insert_eq.
  - intros sid' Hne. unfold session_votes. cbn [set_values set_voters mSessions values voters].
    destruct (mSessions m !! sid') as [entry'|] eqn:Hs'; simpl; [|done].
    destruct (values m !! val entry') as [e'|] eqn:He'; simpl; [|done].
    rewrite lookup_insert_ne; [done|]. intros Heq. apply Hne.
    pose proof (Ho _ _ _ _ He He' Heq) as Hid.
    destruct (mo_val m Hm _ _ Hs) as (x & Hx1 & <-). destruct (mo_val m Hm _ _ Hs') as (y & Hy1 & <-).
    congruence.
Qed.

Lemma fresh_value m : values m !! new_value m = None.
Proof. apply (not_elem_of_dom (D := gset Z)). unfold new_value, new_votes. apply is_fresh. Qed.

Lemma fresh_votes m : voters m !! new_votes m = None.
Proof. apply (not_elem_of_dom (D := gset Z)). unfold new_value, new_votes. apply is_fresh. Qed.

(** Nothing points at an address that is not in use. *)
Lemma fresh_unlinked m t : map_ok m -> new_value m ∉ task_list (mTasks m) t.
Proof.
  intros Hok Hin. pose proof Hok as (Hv & _ & Ht)%map_ok_alt.
  destruct (Ht t _ Hin) as (sid & entry & Hs & Hval & _). destruct (Hv _ _ Hs) as (e & He & _).
  rewrite Hval, fresh_value in He. done.
Qed.

(** A new session without tasks. *)
Lemma add_tasks_ok m sid sve vs :
  tasks_ok m -> mSessions m !! sid = None -> votes_ptr sve = new_votes m ->
  let m1 := set_voters m (<[new_votes m := vs]> (voters m)) in
  let m' := (add m1 sid sve [] (new_value m)).2 in
  tasks_ok m' /\ session_votes m' sid = Some vs /\
  forall sid', sid' <> sid -> session_votes m' sid' = session_votes m sid'.
Proof.
  intros [Hm Hv Ho Hx] Hs Hptr m1 m'.
  assert (map_ok m1) as Hm1 by (by destruct Hm).
  assert (map_ok m') as Hm' by (apply add_ok; [done|exact (fresh_value m)]).
  assert (m' = mkTaskMap (<[new_value m := with_sessionId sve sid]> (values m))
    (<[new_votes m := vs]> (voters m)) (<[sid := mkVal (new_value m) []]> (mSessions m)) (mTasks m)) as ->.
  { subst m' m1. unfold add. cbn [set_voters mSessions values voters mTasks]. by rewrite Hs. }
  assert (forall p e, values m !! p = Some e -> votes_ptr e <> new_votes m) as Hnew.
  { intros p e He Heq. destruct (Hv p e He) as [x Hx']. by rewrite Heq, fresh_votes in Hx'. }
  split_and!; [split; [done|..]|..]; cbn [values voters mSessions mTasks].
  - intros p e [[_ <-]|[_ He]]%lookup_insert_Some; simpl; rewrite lookup_insert_is_Some; [by left|].
    right. split; [|eauto]. intros Heq. by eapply Hnew.
  - intros p1 p2 e1 e2 [[_ <-]|[_ H1]]%lookup_insert_Some [[_ <-]|[_ H2]]%lookup_insert_Some; simpl; [done|..|eauto].
    + rewrite Hptr. intros Heq. by destruct (Hnew _ _ H2).
    + rewrite Hptr. intros Heq. by destruct (Hnew _ _ H1).
  - intros sid' entry t [[_ <-]|[_ Hs']]%lookup_insert_Some; simpl; [|eauto].
    unfold occurrences at 2. simpl. apply occurrences_0. by apply fresh_unlinked.
  - unfold session_votes. cbn. rewrite lookup_insert_eq. cbn. rewrite lookup_insert_eq. cbn.
    by rewrite Hptr, lookup_insert_eq.
  - intros sid' Hne. unfold session_votes. cbn. rewrite lookup_insert_ne by done.
    destruct (mSessions m !! sid') as [entry|] eqn:Hs'; simpl; [|done].
    destruct (mo_val m Hm _ _ Hs') as (e & He & _).
    rewrite lookup_insert_ne; [|intros Heq; by rewrite <-Heq, fresh_value in He]. rewrite He. simpl.
    rewrite lookup_insert_ne; [done|]. intros Heq. by eapply Hnew.
Qed.

Lemma remove_tasks_ok m sid :
  tasks_ok m -> tasks_ok (remove m sid).2 /\ session_votes (remove m sid).2 sid = None /\
  forall sid', sid' <> sid -> session_votes (remove m sid).2 sid' = session_votes m sid'.
Proof.
  intros [Hm Hv Ho Hx]. pose proof (remove_ok m sid Hm) as Hm'.
  destruct (mSessions m !! sid) as [entry|] eqn:Hs.
  - pose proof (fun t => remove_tasks m sid entry t Hm Hs) as Ht.
    unfold remove in *. rewrite Hs in *. cbn [snd] in *.
    split_and!; [split; cbn [values voters mSessions mTasks] in *; [done..|]|..].
    + intros sid' entry' t [Hne Hs']%lookup_delete_Some. rewrite Ht, occurrences_filter_ne; [by eapply Hx|].
      intros Heq. apply Hne. symmetry. by eapply (session_val_inj m).
    + unfold session_votes. cbn. by rewrite lookup_delete_eq.
    + intros sid' Hne. unfold session_votes. cbn. by rewrite lookup_delete_ne.
  - unfold remove in *. rewrite Hs in *. split_and!; [done| |done].
    unfold session_votes. cbn. by rewrite Hs.
Qed.

Lemma occurrences_replicate x n : occurrences x (replicate n x) = n.
Proof. induction n as [|n IH]; [done|]. simpl. rewrite occurrences_cons, decide_True by done. lia. Qed.

Lemma replace_tasks_ok m sid taskIds :
  tasks_ok m ->
  exists b added removed m', replace m sid taskIds (new_value m) = Some (b, added, removed, m') /\
    tasks_ok m' /\ (forall sid', session_votes m' sid' = session_votes m sid') /\
    forall entry, mSessions m !! sid = Some entry ->
      mSessions m' = <[sid := mkVal (new_value m) taskIds]> (mSessions m).
Proof.
  intros [Hm Hv Ho Hx]. destruct (mSessions m !! sid) as [entry|] eqn:Hs.
  - destruct (mo_val m Hm _ _ Hs) as (sv & Hsv & Hid).
    destruct (replace_session_spec m sid entry sv taskIds (new_value m) Hm Hs Hsv (fresh_value m))
      as (added & removed & m' & Hrep & Hm' & Hs' & _ & _ & _ & Ht).
    assert (values m' = <[new_value m := sv]> (values m) /\ voters m' = voters m) as [Hvals Hvoters].
    { unfold replace in Hrep. rewrite Hs in Hrep. simpl in Hrep. rewrite Hsv in Hrep. simpl in Hrep.
      injection Hrep as _ _ <-. unfold add, remove. rewrite Hs. cbn [snd mSessions].
      rewrite lookup_delete_eq. cbn [snd values voters].
      split; [|done]. f_equal. rewrite <-Hid. by destruct sv. }
    exists true, added, removed, m'. split; [done|]. split_and!; [split; [done|..]|..].
    + rewrite Hvals, Hvoters. intros p e [[_ <-]|[_ Hp]]%lookup_insert_Some; eauto.
    + rewrite Hvals. intros p1 p2 e1 e2 [[_ <-]|[_ H1]]%lookup_insert_Some [[_ <-]|[_ H2]]%lookup_insert_Some;
        eauto.
    + rewrite Hs'. intros sid' entry' t Hin. rewrite Ht, occurrences_app.
      apply lookup_insert_Some in Hin as [[_ <-]|[Hne Hs2]]; cbn [val linkedTasks].
      * assert (new_value m ∉ filter (fun p => p <> val entry) (task_list (mTasks m) t)) as Hnin.
        { intros [_ Hin]%list_elem_of_filter. by apply (fresh_unlinked m t). }
        apply occurrences_0 in Hnin. by rewrite Hnin, occurrences_replicate.
      * assert (occurrences (val entry') (replicate (occurrences t taskIds) (new_value m)) = 0%nat) as ->.
        { apply occurrences_0. intros [Heq _]%elem_of_replicate.
          destruct (mo_val m Hm _ _ Hs2) as (x & Hx2 & _). by rewrite Heq, fresh_value in Hx2. }
        rewrite occurrences_filter_ne, Nat.add_0_r; [by eapply Hx|].
        intros Heq. apply Hne. symmetry. by apply (session_val_inj m sid' sid entry' entry).
    + intros sid'. unfold session_votes. rewrite Hs', Hvals, Hvoters.
      destruct (decide (sid' = sid)) as [->|Hne].
      * rewrite lookup_insert_eq, Hs. cbn. by rewrite lookup_insert_eq, Hsv.
      * rewrite lookup_insert_ne by done. destruct (mSessions m !! sid') as [entry'|] eqn:Hs2; cbn; [|done].
        rewrite lookup_insert_ne; [done|]. intros Heq.
        destruct (mo_val m Hm _ _ Hs2) as (x & Hx2 & _). by rewrite <-Heq, fresh_value in Hx2.
    + done.
  - unfold replace. rewrite Hs. eexists _, _, _, _. split; [done|]. by split_and!.
Qed.

Lemma erase_first_subseteq x l l' y : erase_first x l = Some l' -> y ∈ l' -> y ∈ l.
Proof.
  revert l'. induction l as [|z l IH]; intros l'; simpl; [done|]. case_decide.
  - intros [= <-] Hy. by apply list_elem_of_further.
  - destruct (erase_first x l) as [l0|]; simpl; [|done]. intros [= <-].
    rewrite !elem_of_cons. intros [->|Hy]; [by left|right; eauto].
Qed.

(** The map after a dead thread is dropped from its session. *)
Definition drop_link (m : SessionTaskMap) (sid tid : Z) (l : list Z) : SessionTaskMap :=
  set_links (removeDeadTaskSessionMap m sid tid).2 sid l.

Lemma drop_link_tasks m sid entry tid l1 l2 :
  tasks_ok m -> mSessions m !! sid = Some entry -> linkedTasks entry = l1 ++ tid :: l2 ->
  drop_link m sid tid (l1 ++ l2) =
  mkTaskMap (values m) (voters m) (<[sid := mkVal (val entry) (l1 ++ l2)]> (mSessions m))
    (unlink_task (val entry) (mTasks m) tid).
Proof.
  intros [Hm _ _ Hx] Hs Hl. specialize (Hx sid entry tid Hs).
  rewrite Hl, occurrences_app, occurrences_cons, decide_True in Hx by done.
  unfold drop_link, removeDeadTaskSessionMap. rewrite Hs. unfold task_list in Hx.
  destruct (mTasks m !! tid) as [l|]; [|cbn in Hx; unfold occurrences at 1 in Hx; simpl in Hx; lia].
  simpl in Hx. destruct (erase_first (val entry) l) as [l'|] eqn:He.
  - unfold set_links. cbn [snd values voters mSessions mTasks]. f_equal.
    apply map_eq. intros sid'. destruct (decide (sid' = sid)) as [->|Hne].
    + by rewrite lookup_alter_eq, lookup_insert_eq, Hs.
    + by rewrite lookup_alter_ne, lookup_insert_ne.
  - apply erase_first_None, occurrences_0 in He. lia.
Qed.

Lemma drop_link_ok m sid entry tid l1 l2 :
  tasks_ok m -> mSessions m !! sid = Some entry -> linkedTasks entry = l1 ++ tid :: l2 ->
  let m' := drop_link m sid tid (l1 ++ l2) in
  tasks_ok m' /\ (forall sid', session_votes m' sid' = session_votes m sid') /\
  mSessions m' = <[sid := mkVal (val entry) (l1 ++ l2)]> (mSessions m) /\
  (forall t, t <> tid -> mTasks m' !! t = mTasks m !! t).
Proof.
  intros Hok Hs Hl m'. pose proof (drop_link_tasks m sid entry tid l1 l2 Hok Hs Hl) as Hm'.
  destruct Hok as [Hm Hv Ho Hx]. pose proof Hm as (Hval & Hn & Ht)%map_ok_alt.
  destruct (unlink_task_spec (val entry) (mTasks m) tid Hn) as [Hn' Htl].
  assert (forall sid' entry' t, <[sid := mkVal (val entry) (l1 ++ l2)]> (mSessions m) !! sid' = Some entry' ->
    occurrences (val entry') (task_list (unlink_task (val entry) (mTasks m) tid) t) =
    occurrences t (linkedTasks entry')) as Hexact.
  { intros sid' entry' t Hs'. rewrite Htl.
    pose proof (Hx sid entry t Hs) as Hxs. rewrite Hl, occurrences_app, occurrences_cons in Hxs.
    apply lookup_insert_Some in Hs' as [[<- <-]|[Hne Hs']]; cbn [val linkedTasks].
    - rewrite occurrences_app. destruct (decide (t = tid)) as [->|Hd];
        [|by rewrite decide_False in Hxs by congruence].
      rewrite decide_True in Hxs by done.
      destruct (erase_first (val entry) (task_list (mTasks m) tid)) as [l'|] eqn:He; simpl.
      + apply erase_first_filter in He as (_ & He & _). lia.
      + apply erase_first_None, occurrences_0 in He. lia.
    - rewrite <-(Hx sid' entry' t Hs'). destruct (decide (t = tid)) as [->|Hd]; [|done].
      destruct (erase_first (val entry) (task_list (mTasks m) tid)) as [l'|] eqn:He; simpl; [|done].
      apply erase_first_filter in He as (_ & _ & He). apply He. intros Heq. apply Hne.
      symmetry. by eapply (session_val_inj m). }
  subst m'. rewrite Hm'. split_and!; [split; cbn [values voters mSessions mTasks]; [|done..]|..].
  - apply map_ok_alt. cbn [values voters mSessions mTasks]. split_and!; [|done|].
    + intros sid' entry' [[<- <-]|[_ Hs']]%lookup_insert_Some; [by apply Hval in Hs|by apply Hval].
    + intros t p Hp. assert (p ∈ task_list (mTasks m) t) as Hold.
      { rewrite Htl in Hp. case_decide; [subst t|done].
        destruct (erase_first _ _) as [l'|] eqn:He; simpl in Hp; [|done].
        by eapply erase_first_subseteq. }
      destruct (Ht t p Hold) as (sid' & entry' & Hs' & <- & _).
      destruct (decide (sid' = sid)) as [->|Hne].
      * assert (entry' = entry) as -> by congruence.
        eexists sid, _. rewrite lookup_insert_eq. split_and!; [done|done|].
        apply Nat.eq_le_incl, (Hexact sid (mkVal (val entry) (l1 ++ l2)) t), lookup_insert_eq.
      * exists sid', entry'. rewrite lookup_insert_ne by done. split_and!; [done|done|].
        apply Nat.eq_le_incl, (Hexact sid' entry' t). by rewrite lookup_insert_ne.
  - intros sid'. unfold session_votes. cbn [mSessions values voters].
    destruct (decide (sid' = sid)) as [->|Hne]; [by rewrite lookup_insert_eq, Hs|by rewrite lookup_insert_ne].
  - done.
  - intros t Hne. cbn [mTasks]. unfold unlink_task. repeat case_match;
      rewrite ?lookup_delete_ne, ?lookup_insert_ne by done; done.
Qed.

(** ** Lemmas: sections that start no timer *)

(** The vendor configures the two efficiency hints together. *)
Class PowerEnvLaws `{PowerEnv} := {
  efficient_pair : forall h, is_Some (mUclampMaxEfficientBase (GetAdpfProfile h)) ->
    is_Some (mUclampMaxEfficientOffset (GetAdpfProfile h))
}.

(** The state stays good, no timer is started or taken, no vote is turned on. *)
Definition quiet_post (s s' : Manager) : Prop :=
  mgr_ok s' /\ timers s' = timers s /\
  forall sid id, vote_on (mSessionTaskMap s') sid id = true -> vote_on (mSessionTaskMap s) sid id = true.

Definition quietly {A} (m : St Manager A) : Prop :=
  forall s, mgr_ok s -> runs m s (fun _ s' => quiet_post s s').

#[global] Instance quiet_post_trans : Transitive quiet_post.
Proof. intros s1 s2 s3 (_ & Ht1 & Hv1) (Hok & Ht2 & Hv2). split_and!; [done|congruence|eauto]. Qed.

Lemma quiet_post_refl s : mgr_ok s -> quiet_post s s.
Proof. done. Qed.

Lemma quietly_bind {A B} (m : St Manager A) (k : A -> St Manager B) :
  quietly m -> (forall a, quietly (k a)) -> quietly (m ≫= k).
Proof.
  intros Hm Hk s Hs. apply runs_bind. eapply runs_mono; [|by apply Hm].
  intros a s1 Hq. eapply runs_mono; [|apply Hk; by destruct Hq]. intros b s2 Hq2. by transitivity s1.
Qed.

Lemma quietly_ret {A} (a : A) : quietly (mret a).
Proof. intros s Hs. by apply quiet_post_refl. Qed.

Lemma quietly_gets {A} (f : Manager -> A) : quietly (gets f).
Proof. intros s Hs. by apply quiet_post_refl. Qed.

Lemma quietly_emit e : (forall tid r, e <> SetUclamp tid r) -> quietly (emit e).
Proof.
  intros He s Hs. apply runs_modify. split_and!; [|done|done]. destruct Hs as [Ht Hl]. split; [done|].
  intros tid r [Hin|Hin]%elem_of_app; [eauto|]. apply list_elem_of_singleton in Hin. by destruct (He tid r).
Qed.

Lemma quietly_for_each {A} (l : list A) (f : A -> St Manager unit) :
  (forall x, quietly (f x)) -> quietly (for_each l f).
Proof.
  intros Hf. induction l as [|x l IH]; [apply quietly_ret|]. apply quietly_bind; [done|by intros []].
Qed.

Lemma quietly_modify f : (forall s, mgr_ok s -> quiet_post s (f s)) -> quietly (modify f).
Proof. intros Hf s Hs. by apply Hf. Qed.

(** A new map with the votes of the sessions as they were, or fewer on. *)
Lemma quiet_map s m' :
  mgr_ok s -> tasks_ok m' ->
  (forall sid id, vote_on m' sid id = true -> vote_on (mSessionTaskMap s) sid id = true) ->
  quiet_post s (with_map s m').
Proof. intros [Ht Hl] Hm' Hv. by split_and!; [split|..]. Qed.

Lemma vote_on_eq m m' sid id : session_votes m' sid = session_votes m sid -> vote_on m' sid id = vote_on m sid id.
Proof. unfold vote_on. by intros ->. Qed.

(** The code that looks a session up and goes on with its value. *)
Lemma quietly_session {A} sid (none : A) (k : Z -> St Manager A) :
  (forall s entry e vs, mgr_ok s -> mSessions (mSessionTaskMap s) !! sid = Some entry ->
     values (mSessionTaskMap s) !! val entry = Some e ->
     voters (mSessionTaskMap s) !! votes_ptr e = Some vs ->
     runs (k (val entry)) s (fun _ s' => quiet_post s s')) ->
  quietly (sess ← find sid; match sess with None => mret none | Some p => k p end).
Proof.
  intros Hk s Hs. apply runs_bind. unfold find, findSession. apply runs_gets.
  destruct (mSessions (mSessionTaskMap s) !! sid) as [entry|] eqn:Hse; simpl.
  - pose proof Hs as [[Hm Hv _ _] _]. destruct (mo_val _ Hm _ _ Hse) as (e & He & _).
    destruct (Hv _ _ He) as [vs Hvs]. eauto.
  - by apply quiet_post_refl.
Qed.

Lemma runs_deref p s e (Q : SessionValueEntry -> Manager -> Prop) :
  values (mSessionTaskMap s) !! p = Some e -> Q e s -> runs (deref p) s Q.
Proof. intros He HQ. unfold deref. apply runs_bind, runs_gets, runs_of_option. eauto. Qed.

Lemma runs_deref_votes p s vs (Q : votes -> Manager -> Prop) :
  voters (mSessionTaskMap s) !! p = Some vs -> Q vs s -> runs (deref_votes p) s Q.
Proof. intros He HQ. unfold deref_votes. apply runs_bind, runs_gets, runs_of_option. eauto. Qed.

(** Assigning to members of a session's value other than its id and votes. *)
Lemma store_quiet s p e e' :
  mgr_ok s -> values (mSessionTaskMap s) !! p = Some e ->
  sessionId e' = sessionId e -> votes_ptr e' = votes_ptr e ->
  runs (store p e') s (fun _ s' => quiet_post s s').
Proof.
  intros Hs Hp Hid Hptr. unfold store. apply runs_modify.
  destruct (store_tasks_ok _ p e e' (mk_tasks s Hs) Hp Hid Hptr) as [Hok Hv].
  apply quiet_map; [done|done|]. intros sid id. by rewrite (vote_on_eq _ _ _ _ (Hv sid)).
Qed.

Lemma store_member_quiet sid p (f : SessionValueEntry -> SessionValueEntry) s entry e :
  mgr_ok s -> mSessions (mSessionTaskMap s) !! sid = Some entry ->
  values (mSessionTaskMap s) !! val entry = Some e -> p = val entry ->
  (forall e, sessionId (f e) = sessionId e /\ votes_ptr (f e) = votes_ptr e) ->
  runs (e ← deref p; store p (f e)) s (fun _ s' => quiet_post s s').
Proof.
  intros Hs _ He -> Hf. apply runs_bind. eapply runs_deref; [done|].
  eapply store_quiet; [done|done|apply Hf|apply Hf].
Qed.

(** Changing a session's votes without turning one on. *)
Lemma store_votes_quiet s sid entry e vs vs' :
  mgr_ok s -> mSessions (mSessionTaskMap s) !! sid = Some entry ->
  values (mSessionTaskMap s) !! val entry = Some e -> voters (mSessionTaskMap s) !! votes_ptr e = Some vs ->
  (forall id, voteIsActive vs' id = true -> voteIsActive vs id = true) ->
  runs (store_votes (votes_ptr e) vs') s (fun _ s' => quiet_post s s').
Proof.
  intros Hs Hse He Hvs Hact. unfold store_votes. apply runs_modify.
  destruct (store_votes_tasks_ok _ sid entry e vs' (mk_tasks s Hs) Hse He) as (Hok & Hsv & Hv).
  apply quiet_map; [done|done|]. intros sid' id. destruct (decide (sid' = sid)) as [->|Hne].
  - unfold vote_on. rewrite Hsv. unfold session_votes. rewrite Hse. cbn. rewrite He. cbn. rewrite Hvs. apply Hact.
  - by rewrite (vote_on_eq _ _ _ _ (Hv sid' Hne)).
Qed.

Lemma setUseVote_off vs id id' : voteIsActive (setUseVote vs id false).2 id' = true -> voteIsActive vs id' = true.
Proof.
  unfold setUseVote. destruct (vs !! id) as [v|]; [|done]. cbn [snd]. unfold voteIsActive, votes.
  rewrite lookup_insert. by case_decide.
Qed.

Lemma updateDuration_active vs id d id' : voteIsActive (votes_updateDuration vs id d) id' = voteIsActive vs id'.
Proof.
  unfold votes_updateDuration, voteIsActive, votes in *. destruct (decide (id' = id)) as [->|Hne].
  - rewrite lookup_alter_eq. by destruct (lookup id vs).
  - by rewrite lookup_alter_ne.
Qed.

Create HintDb quiet discriminated.
#[export] Hint Resolve quietly_ret quietly_gets : quiet.

Ltac solve_quiet :=
  repeat lazymatch goal with
  | |- forall _, _ => intro
  | |- quietly (_ ≫= _) => apply quietly_bind
  | |- quietly (match ?x with _ => _ end) => destruct x
  | |- quietly (for_each _ _) => apply quietly_for_each
  | |- quietly (emit _) => apply quietly_emit; intros; discriminate
  | |- quietly _ => solve [eauto 3 with quiet]
  end.

Section Quiet.
Context `{PowerEnvLaws}.

Lemma sessions_quiet f : quietly (modify (fun s => with_sessions s (f s))).
Proof. apply quietly_modify. intros s [Ht Hl]. by split_and!; [split|..]. Qed.

Lemma force_quiet sid b : quietly (force_locked sid b).
Proof.
  apply quietly_session. intros s entry e vs Hs Hse He Hvs. apply runs_bind. eapply runs_deref; [done|].
  apply runs_bind. eapply runs_mono; [|by eapply store_quiet]. done.
Qed.

Lemma switch_quiet sid b : quietly (switch_locked sid b).
Proof.
  apply quietly_session. intros s entry e vs Hs Hse He Hvs. apply runs_bind. eapply runs_deref; [done|].
  case_match; [by apply quiet_post_refl|].
  apply runs_bind. eapply runs_mono; [|by eapply store_quiet]. done.
Qed.

Lemma add_quiet idString d t : quietly (add_locked idString d t).
Proof.
  intros s Hs. unfold add_locked. apply runs_bind, runs_gets, runs_bind, runs_modify, runs_ret.
  set (m := mSessionTaskMap s). set (vs := votes_add ∅ _ _). set (sve := mkSession _ _ _ _ _ _ _ _ _ _ _).
  destruct (mSessions m !! desc_sessionId d) as [entry|] eqn:Hse.
  - unfold add. cbn [set_voters mSessions]. rewrite Hse. cbn [snd].
    destruct (mk_tasks s Hs) as [Hm Hv Ho Hx]. apply quiet_map; [done| |].
    + split; cbn [set_voters values voters mSessions mTasks]; [by destruct Hm| |done|done].
      intros p e He. rewrite lookup_insert_is_Some. destruct (decide (new_votes m = votes_ptr e)); eauto.
    + intros sid id. unfold vote_on. enough (session_votes _ sid = session_votes m sid) as -> by done.
      unfold session_votes. cbn [set_voters values voters mSessions].
      destruct (mSessions m !! sid) as [entry'|]; cbn; [|done].
      destruct (values m !! val entry') as [e'|] eqn:He'; cbn; [|done].
      rewrite lookup_insert_ne; [done|]. intros Heq. destruct (Hv _ _ He') as [x Hx'].
      by rewrite <-Heq, fresh_votes in Hx'.
  - destruct (add_tasks_ok m (desc_sessionId d) sve vs (mk_tasks s Hs) Hse eq_refl) as (Hok & Hsv & Hoth).
    apply quiet_map; [done|done|]. intros sid id. destruct (decide (sid = desc_sessionId d)) as [->|Hne].
    + unfold vote_on. rewrite Hsv. unfold vs, votes_add, voteIsActive, votes.
      rewrite lookup_insert. by case_decide.
    + by rewrite (vote_on_eq _ _ _ _ (Hoth sid Hne)).
Qed.

Lemma replace_quiet sid threadIds : quietly (replace_locked sid threadIds).
Proof.
  intros s Hs. unfold replace_locked. apply runs_bind, runs_gets, runs_bind, runs_of_option.
  destruct (replace_tasks_ok _ sid threadIds (mk_tasks s Hs)) as (b & added & removed & m' & Hr & Hok & Hv & _).
  eexists. split; [exact Hr|]. apply runs_bind, runs_modify, runs_ret. apply quiet_map; [done|done|].
  intros sid' id. by rewrite (vote_on_eq _ _ _ _ (Hv sid')).
Qed.

Lemma remove_quiet sid : quietly (remove_locked sid).
Proof.
  apply quietly_bind; [apply replace_quiet|]. intros [_ removed].
  apply quietly_bind; [|intros []; apply quietly_ret]. apply quietly_modify. intros s Hs.
  destruct (remove_tasks_ok _ sid (mk_tasks s Hs)) as (Hok & Hnone & Hoth). apply quiet_map; [done|done|].
  intros sid' id. destruct (decide (sid' = sid)) as [->|Hne].
  - unfold vote_on. by rewrite Hnone.
  - by rewrite (vote_on_eq _ _ _ _ (Hoth sid' Hne)).
Qed.

Lemma confine_sessions_defined m now base off l : forall r,
  (is_Some base -> is_Some off) ->
  Forall (fun p => exists e vs, values m !! p = Some e /\ voters m !! votes_ptr e = Some vs) l ->
  is_Some (foldl (confine_session m now base off) (Some r) l).
Proof.
  induction l as [|p l IH]; intros r Hoff Hl; [cbn [foldl]; eauto|].
  apply Forall_cons in Hl as [(e & vs & He & Hvs) Hl]. cbn [foldl].
  enough (exists r', confine_session m now base off (Some r) p = Some r') as [r' ->] by auto.
  unfold confine_session. cbn [mbind option_bind]. rewrite He. cbn [mbind option_bind].
  destruct (isActive e); cbn [negb]; [|eauto]. rewrite Hvs. cbn [mbind option_bind].
  destruct (isPowerEfficient e); [|eauto]. destruct base as [b|]; [|eauto].
  destruct (allTimedOut vs now); [eauto|]. destruct Hoff as [o ->]; [eauto|]. cbn [mbind option_bind]. eauto.
Qed.

(** The values a task points at have their votes. *)
Lemma task_values_live m t l : tasks_ok m -> mTasks m !! t = Some l ->
  Forall (fun p => exists e vs, values m !! p = Some e /\ voters m !! votes_ptr e = Some vs) l.
Proof.
  intros [Hm Hv _ _] Hl. apply Forall_forall. intros p Hp.
  destruct (mo_task m Hm t l p Hl Hp) as (sid & entry & Hs & <- & _).
  destruct (mo_val m Hm sid entry Hs) as (e & He & _). destruct (Hv _ _ He) as [vs Hvs]. eauto.
Qed.

Lemma range_defined m t now r base off :
  tasks_ok m -> (is_Some base -> is_Some off) -> is_Some (getTaskVoteRange m t now r base off).
Proof.
  intros Hok Hoff. unfold getTaskVoteRange. destruct (mTasks m !! t) as [l|] eqn:Hl; [|eauto].
  apply confine_sessions_defined; [done|]. by eapply task_values_live.
Qed.

Lemma clamp_quiet s tid r : mgr_ok s -> quiet_post s (with_history s (history s ++ [SetUclamp tid (clamped r)])).
Proof.
  intros [Ht Hl]. split_and!; [|done|done]. split; [done|].
  intros tid' r' [Hin|Hin]%elem_of_app; [eauto|]. apply list_elem_of_singleton in Hin as [= -> ->].
  apply clamped_in_limits.
Qed.

Lemma apply_loop_quiet config sid t : (is_Some (mUclampMaxEfficientBase config) ->
    is_Some (mUclampMaxEfficientOffset config)) ->
  forall todo done s entry, mgr_ok s -> mSessions (mSessionTaskMap s) !! sid = Some entry ->
  linkedTasks entry = done ++ todo ->
  runs (apply_loop config sid t done todo) s (fun _ s' => quiet_post s s' /\
    values (mSessionTaskMap s') = values (mSessionTaskMap s)).
Proof.
  intros Hoff todo. induction todo as [|tid rest IH]; intros before s entry Hs Hse Hl;
    [split; [by apply quiet_post_refl|done]|].
  cbn [apply_loop]. apply runs_bind, runs_gets, runs_bind, runs_of_option.
  destruct (range_defined _ tid t default_range _ _ (mk_tasks s Hs) Hoff) as [r Hr].
  exists r. split; [done|]. apply runs_bind. unfold set_uclamp. apply runs_bind, runs_gets, runs_bind.
  unfold emit. apply runs_modify, runs_ret.
  pose proof (clamp_quiet s tid r Hs) as Hq. pose proof Hq as [Hs1 _].
  set (s1 := with_history s _) in *. case_decide.
  - apply runs_bind, runs_modify. change (set_links _ sid (before ++ rest))
      with (drop_link (mSessionTaskMap s1) sid tid (before ++ rest)).
    destruct (drop_link_ok _ sid entry tid before rest (mk_tasks s1 Hs1) Hse Hl) as (Hok & Hv & Hses & _).
    assert (quiet_post s1 (with_map s1 (drop_link (mSessionTaskMap s1) sid tid (before ++ rest)))) as Hq2.
    { apply quiet_map; [done|done|]. intros sid' id. by rewrite (vote_on_eq _ _ _ _ (Hv sid')). }
    eapply runs_mono; [|eapply (IH before _ (mkVal (val entry) (before ++ rest)));
      [by destruct Hq2|cbn [with_map mSessionTaskMap]; by rewrite Hses, lookup_insert_eq|done]].
    intros [] s' [Hq3 Hvals]. split; [etrans; [exact Hq|]; etrans; [exact Hq2|exact Hq3]|]. rewrite Hvals.
    cbn [with_map mSessionTaskMap]. by rewrite (drop_link_tasks _ sid entry) by (done || by destruct Hs1).
  - eapply runs_mono; [|eapply (IH (before ++ [tid]) s1 entry); [done|done|by rewrite <-app_assoc]].
    intros [] s' [Hq3 Hvals]. split; [etrans; [exact Hq|exact Hq3]|done].
Qed.

Lemma runs_find sid s (Q : option Z -> Manager -> Prop) :
  runs (find sid) s Q <-> Q (val <$> mSessions (mSessionTaskMap s) !! sid) s.
Proof. done. Qed.

Lemma apply_quiet sid t : quietly (applyUclampLocked sid t).
Proof.
  intros s Hs. unfold applyUclampLocked, profile. apply runs_bind, runs_gets.
  generalize (efficient_pair (history s)). generalize (GetAdpfProfile (history s)). intros config Hoff.
  revert s Hs. apply quietly_session. intros s entry e vs Hs Hse He Hvs. apply runs_bind.
  eapply (runs_mono _ _ (fun _ s' => quiet_post s s' /\ values (mSessionTaskMap s') = values (mSessionTaskMap s))).
  - intros [] s1 [Hq Hvals]. apply runs_bind. eapply runs_deref; [by rewrite Hvals|].
    eapply runs_mono; [|eapply (store_quiet s1 _ e); [by destruct Hq|by rewrite Hvals|done|done]].
    intros [] s' Hq'. by transitivity s1.
  - destruct (mUclampMinOn config); [|split; [by apply quiet_post_refl|done]].
    apply runs_bind, runs_gets. unfold getTaskIds. rewrite Hse. by eapply apply_loop_quiet.
Qed.

Lemma target_quiet sid v d : quietly (updateTargetWorkDuration sid v d).
Proof.
  apply quietly_session. intros s entry e vs Hs Hse He Hvs. apply runs_bind. eapply runs_deref; [done|].
  apply runs_bind. eapply runs_deref_votes; [done|]. eapply store_votes_quiet; [done..|].
  intros id. by rewrite updateDuration_active.
Qed.

Lemma disable_quiet sid : quietly (disableBoosts sid).
Proof.
  apply quietly_session. intros s entry e vs Hs Hse He Hvs.
  eapply (runs_mono _ _ (fun _ s' => quiet_post s s' /\ mSessions (mSessionTaskMap s') !! sid = Some entry /\
    values (mSessionTaskMap s') !! val entry = Some e /\ is_Some (voters (mSessionTaskMap s') !! votes_ptr e)));
    [by intros [] s' [? _]|].
  apply (runs_for_each _ _ (fun s' => quiet_post s s' /\ mSessions (mSessionTaskMap s') !! sid = Some entry /\
    values (mSessionTaskMap s') !! val entry = Some e /\ is_Some (voters (mSessionTaskMap s') !! votes_ptr e)));
    [|split_and!; [by apply quiet_post_refl|done|done|eauto]].
  intros v s1 (Hq & Hse1 & He1 & [vs1 Hvs1]). apply runs_bind. eapply runs_deref; [done|].
  apply runs_bind. eapply runs_deref_votes; [done|].
  pose proof (store_votes_quiet s1 sid entry e vs1 (setUseVote vs1 (vote_int v) false).2 (proj1 Hq) Hse1 He1 Hvs1
    (fun id => setUseVote_off vs1 (vote_int v) id)) as Hq'.
  unfold store_votes in *. apply runs_modify. apply runs_modify in Hq'.
  split_and!; [by transitivity s1|done|done|]. cbn. rewrite lookup_insert_eq. eauto.
Qed.

Lemma prefer_quiet sid b : quietly (setPreferPowerEfficiency sid b).
Proof.
  apply quietly_session. intros s entry e vs Hs Hse He Hvs. apply runs_bind. eapply runs_deref; [done|].
  case_match; [by apply quiet_post_refl|].
  apply runs_bind. eapply runs_mono; [|by eapply store_quiet]. intros [] s1 Hq.
  eapply runs_mono; [|eapply (quietly_bind now); [apply quietly_gets|intros t; apply apply_quiet|by destruct Hq]].
  intros [] s' Hq'. by transitivity s1.
Qed.

Lemma member_quiet sid (f : SessionValueEntry -> SessionValueEntry) :
  (forall e, sessionId (f e) = sessionId e /\ votes_ptr (f e) = votes_ptr e) ->
  quietly (sess ← find sid; match sess with None => mret tt | Some p => e ← deref p; store p (f e) end).
Proof.
  intros Hf. apply quietly_session. intros s entry e vs Hs Hse He Hvs. apply runs_bind.
  eapply runs_deref; [done|]. destruct (Hf e). by eapply store_quiet.
Qed.

Lemma boost_quiet : quietly updateUniversalBoostMode.
Proof.
  unfold updateUniversalBoostMode, isAnyAppSessionActive_locked, now, disableSystemTopAppBoost,
    enableSystemTopAppBoost. solve_quiet.
Qed.

Lemma hint_mode_quiet mode b : quietly (updateHintMode mode b).
Proof.
  apply quietly_bind; [|intros []; solve_quiet]. case_decide; [|apply quietly_ret].
  apply quietly_modify. intros s [Ht Hl]. by split_and!; [split|..].
Qed.

Lemma buckets_quiet sid b : quietly (updateFrameBuckets sid b).
Proof. by apply (member_quiet sid (fun e => with_buckets e (addUpNewFrames (sessFrameBuckets e) b))). Qed.

Lemma statistics_quiet sid l n : quietly (updateHboostStatistics sid l n).
Proof. by apply (member_quiet sid (fun e => with_dist e (count_frames (hBoostModeDist e) l n))). Qed.
End Quiet.

#[export] Hint Resolve sessions_quiet force_quiet switch_quiet add_quiet replace_quiet remove_quiet
  apply_quiet target_quiet disable_quiet prefer_quiet boost_quiet hint_mode_quiet buckets_quiet
  statistics_quiet : quiet.

Section Quiet.
Context `{PowerEnvLaws}.

Lemma profiles_quiet tag b tids : quietly (set_profiles tag b tids).
Proof. unfold set_profiles. solve_quiet. Qed.

Lemma force_active_quiet sid b : quietly (forceSessionActive sid b).
Proof. unfold forceSessionActive. solve_quiet. Qed.

Lemma set_threads_quiet sid l tag : quietly (setThreadsFromPowerSession sid l tag).
Proof.
  unfold setThreadsFromPowerSession. pose proof profiles_quiet. pose proof force_active_quiet. solve_quiet.
Qed.

Lemma add_session_quiet idString d l tag : quietly (addPowerSession idString d l tag).
Proof. unfold addPowerSession, now. pose proof set_threads_quiet. solve_quiet. Qed.

Lemma remove_session_quiet sid tag : quietly (removePowerSession sid tag).
Proof.
  unfold removePowerSession, unregisterSession. pose proof profiles_quiet. pose proof force_active_quiet.
  solve_quiet.
Qed.

Lemma pause_quiet sid : quietly (pause sid).
Proof. unfold pause. solve_quiet. Qed.

Lemma resume_quiet sid : quietly (resume sid).
Proof. unfold resume. solve_quiet. Qed.

Lemma get_session_quiet sid : quietly (getSession sid).
Proof. unfold getSession, unregisterSession. solve_quiet. Qed.
End Quiet.

(** ** The system: sections of concurrent operations *)

Definition void {A} (m : St Manager A) : St Manager unit := m ;; mret tt.

(** [inflight]: the events of [voteSet] calls between the unlock and the
    [schedule]; [firing]: the events the worker has taken and not handled.
    The worker is the bag of events [BackgroundWorker] refines. *)
Record System := mkSystem {
  sys_mgr : Manager; sys_inflight : list (EventSessionTimeout * Z); sys_firing : list EventSessionTimeout
}.

Section System.
Context `{PowerEnv}.

(** The sections that start no timer, and the calls outside the locks. *)
Inductive section : St Manager unit -> Prop :=
  | SecForce sid b : section (void (force_locked sid b))
  | SecSwitch sid b : section (void (switch_locked sid b))
  | SecAdd idString d t : section (void (add_locked idString d t))
  | SecReplace sid l : section (void (replace_locked sid l))
  | SecRemove sid : section (void (remove_locked sid))
  | SecTarget sid v d : section (updateTargetWorkDuration sid v d)
  | SecDisable sid : section (disableBoosts sid)
  | SecPrefer sid b : section (setPreferPowerEfficiency sid b)
  | SecBuckets sid b : section (updateFrameBuckets sid b)
  | SecStatistics sid l n : section (updateHboostStatistics sid l n)
  | SecEnable : section enableSystemTopAppBoost
  | SecDisableBoost : section disableSystemTopAppBoost
  | SecMode mode b : section (updateHintMode mode b)
  | SecProfile tag b tid : section (emit (TaskProfile tid (profile_name tag b)))
  | SecRegister obj sid : section (registerSession obj sid)
  | SecUnregister sid : section (unregisterSession sid)
  | SecGet sid : section (void (getSession sid))
  | SecClear : section clear
  | SecTick t : section (modify (fun s => mkMgr (mSessionTaskMap s) (mSessionMap s) (mGameModeEnabled s)
      (timers s) (objects s) (Z.max (mgr_now s) t) (history s)))
  | SecObjects o : section (modify (fun s => mkMgr (mSessionTaskMap s) (mSessionMap s) (mGameModeEnabled s)
      (timers s) o (mgr_now s) (history s))).

Inductive mgr_step : System -> System -> Prop :=
  | StepSection s m mgr : section m -> m (sys_mgr s) = Some (tt, mgr) ->
      mgr_step s (mkSystem mgr (sys_inflight s) (sys_firing s))
  | StepVote s sid v lo hi start dur r mgr :
      voteSet_locked sid v lo hi start dur (sys_mgr s) = Some (r, mgr) ->
      mgr_step s (mkSystem mgr (match r with Some ev => ev :: sys_inflight s | None => sys_inflight s end)
                    (sys_firing s))
  | StepSchedule s pre ev post mgr : sys_inflight s = pre ++ ev :: post ->
      schedule ev (sys_mgr s) = Some (tt, mgr) ->
      mgr_step s (mkSystem mgr (pre ++ post) (sys_firing s))
  | StepFire s pre ev d post : timers (sys_mgr s) = pre ++ (ev, d) :: post -> d <= mgr_now (sys_mgr s) ->
      mgr_step s (mkSystem (with_timers (sys_mgr s) (pre ++ post)) (sys_inflight s) (ev :: sys_firing s))
  | StepHandle s pre ev post b mgr : sys_firing s = pre ++ ev :: post ->
      handle_locked ev (sys_mgr s) = Some (b, mgr) ->
      mgr_step s (mkSystem mgr (sys_inflight s) (pre ++ post)).

Definition system_new (t : Z) : System := mkSystem (mgr_new t) [] [].
End System.

(** An event that will switch the vote off is on its way. *)
Definition pending (s : System) (sid id : Z) : Prop :=
  exists ev, ev_sessionId ev = sid /\ ev_voteId ev = id /\
    (ev ∈ (timers (sys_mgr s)).*1 \/ ev ∈ (sys_inflight s).*1 \/ ev ∈ sys_firing s).

Record sys_ok (s : System) : Prop := {
  so_mgr : mgr_ok (sys_mgr s);
  so_pending : forall sid id, vote_on (mSessionTaskMap (sys_mgr s)) sid id = true -> pending s sid id
}.

Section SystemProofs.
Context `{PowerEnvLaws}.

Lemma section_quiet m : section m -> quietly m.
Proof.
  intros []; unfold void, registerSession, unregisterSession, clear, enableSystemTopAppBoost,
    disableSystemTopAppBoost; pose proof get_session_quiet; try solve_quiet;
    apply quietly_modify; intros s [Ht Hl]; by split_and!; [split|..].
Qed.

(** A vote is turned on by [voteSet] only, which gives an event to schedule
    unless the vote was on. *)
Lemma voteSet_locked_spec sid v lo hi start dur s :
  mgr_ok s -> in_s 64 (start + dur) ->
  runs (voteSet_locked sid v lo hi start dur) s (fun r s' =>
    mgr_ok s' /\ timers s' = timers s /\
    (forall sid' id, vote_on (mSessionTaskMap s') sid' id = true ->
       vote_on (mSessionTaskMap s) sid' id = true \/
       (exists ev, r = Some ev /\ ev_sessionId ev.1 = sid' /\ ev_voteId ev.1 = id)) /\
    (forall ev, r = Some ev -> ev_sessionId ev.1 = sid /\ ev_voteId ev.1 = vote_int v)).
Proof.
  intros Hs Hin. unfold voteSet_locked. rewrite decide_True by done. apply runs_bind, runs_find.
  destruct (mSessions (mSessionTaskMap s) !! sid) as [entry|] eqn:Hse; cbn [fmap option_fmap option_map];
    [|by split_and!; auto].
  pose proof (mk_tasks s Hs) as Hok. pose proof Hok as [Hm Hv _ _].
  destruct (mo_val _ Hm _ _ Hse) as (e & He & _). destruct (Hv _ _ He) as [vs Hvs].
  apply runs_bind. eapply runs_deref; [done|]. apply runs_bind. eapply runs_deref_votes; [done|].
  apply runs_bind, runs_gets, runs_bind, runs_of_option. unfold addVote. rewrite Hse, He. cbn [mbind option_bind].
  rewrite Hvs. cbn [mbind option_bind]. eexists. split; [done|].
  apply runs_bind, runs_modify. set (vs' := votes_add vs _ _).
  destruct (store_votes_tasks_ok _ sid entry e vs' Hok Hse He) as (Hok1 & Hsv & Hoth).
  set (m1 := set_voters _ _) in Hok1. change (mkTaskMap _ _ _ _) with m1.
  assert (mgr_ok (with_map s m1)) as Hs1 by (destruct Hs; by split).
  apply runs_bind. eapply runs_deref; [done|]. apply runs_bind. eapply runs_mono; [|by eapply store_quiet].
  intros [] s2 Hq2. apply runs_bind. eapply runs_mono; [|apply apply_quiet; by destruct Hq2].
  intros [] s3 Hq3. apply runs_ret. assert (quiet_post (with_map s m1) s3) as (Hok3 & Ht3 & Hv3)
    by (by transitivity s2). split_and!; [done|done|..].
  - intros sid' id Hon%Hv3. cbn [with_map mSessionTaskMap] in Hon.
    destruct (decide (sid' = sid)) as [->|Hne]; [|left; by rewrite <-(vote_on_eq _ _ _ _ (Hoth sid' Hne))].
    assert (forall id, vote_on (mSessionTaskMap s) sid id = voteIsActive vs id) as Hold.
    { intros i. unfold vote_on, session_votes. rewrite Hse. cbn. rewrite He. cbn. by rewrite Hvs. }
    unfold vote_on in Hon. fold m1 in Hsv. rewrite Hsv in Hon. rewrite Hold.
    destruct (decide (id = vote_int v)) as [->|Hid].
    + unfold shouldScheduleTimeout. destruct (voteIsActive vs (vote_int v)); [by left|right]. cbn. eauto.
    + left. revert Hon. unfold vs', votes_add, voteIsActive, votes. by rewrite lookup_insert_ne.
  - intros ev. by destruct (shouldScheduleTimeout _ _ _); intros [= <-].
Qed.

(** Handling an event leaves its vote off, or the event scheduled again. *)
Lemma handle_locked_spec ev s :
  mgr_ok s ->
  runs (handle_locked ev) s (fun _ s' =>
    mgr_ok s' /\ (timers s' = timers s \/ exists d, timers s' = (ev, d) :: timers s) /\
    (forall sid id, vote_on (mSessionTaskMap s') sid id = true -> vote_on (mSessionTaskMap s) sid id = true) /\
    (vote_on (mSessionTaskMap s') (ev_sessionId ev) (ev_voteId ev) = true ->
       exists d, timers s' = (ev, d) :: timers s)).
Proof.
  intros Hs. unfold handle_locked, now. apply runs_bind, runs_gets, runs_bind, runs_find.
  destruct (mSessions (mSessionTaskMap s) !! ev_sessionId ev) as [entry|] eqn:Hse;
    cbn [fmap option_fmap option_map].
  2:{ split_and!; [done|by left|done|]. unfold vote_on, session_votes. rewrite Hse. done. }
  pose proof (mk_tasks s Hs) as Hok. pose proof Hok as [Hm Hv _ _].
  destruct (mo_val _ Hm _ _ Hse) as (e & He & _). destruct (Hv _ _ He) as [vs Hvs].
  assert (session_votes (mSessionTaskMap s) (ev_sessionId ev) = Some vs) as Hsv.
  { unfold session_votes. rewrite Hse. cbn. rewrite He. done. }
  apply runs_bind. eapply runs_deref; [done|]. apply runs_bind. eapply runs_deref_votes; [done|].
  destruct (voteIsActive vs (ev_voteId ev)) eqn:Hact.
  2:{ split_and!; [done|by left|done|]. unfold vote_on. by rewrite Hsv, Hact. }
  case_decide.
  - pose proof (store_votes_quiet s _ entry e vs (setUseVote vs (ev_voteId ev) false).2 Hs Hse He Hvs
      (fun id => setUseVote_off vs (ev_voteId ev) id)) as Hq.
    destruct (store_votes_tasks_ok _ _ entry e (setUseVote vs (ev_voteId ev) false).2 Hok Hse He) as (_ & Hsv' & _).
    apply runs_bind. unfold store_votes in *. apply runs_modify. apply runs_modify in Hq as (Hok' & Ht & Hon).
    apply runs_ret. split_and!; [done|by left|done|]. unfold vote_on. cbn [with_map mSessionTaskMap].
    rewrite Hsv'. unfold setUseVote, voteIsActive, votes in *.
    destruct (lookup (ev_voteId ev) vs) as [w|] eqn:Hw; cbn [snd]; [by rewrite lookup_insert_eq|by rewrite Hw].
  - apply runs_bind, runs_modify, runs_ret.
    assert (mgr_ok (with_timers s ((ev, voteTimeout vs (ev_voteId ev)) :: timers s))) by (destruct Hs; by split).
    split_and!; [done|eauto|done|eauto].
Qed.

Lemma mgr_step_ok s s' : mgr_step s s' -> sys_ok s -> sys_ok s'.
Proof.
  intros Hstep [Hm Hp]. destruct Hstep as [s m mgr Hsec Hrun|s sid v lo hi start dur r mgr Hrun|
    s pre ev post mgr Hin Hrun|s pre ev d post Ht Hd|s pre ev post b mgr Hf Hrun]; cbn [sys_mgr] in *.
  - pose proof (section_quiet m Hsec _ Hm) as Hq. apply (runs_result _ _ _ _ _ Hrun) in Hq as (Hok & Ht & Hon).
    split; [done|]. intros sid id Hv%Hon. unfold pending. cbn. rewrite Ht. by apply Hp.
  - assert (in_s 64 (start + dur)) as Hin.
    { unfold voteSet_locked in Hrun. by case_decide. }
    pose proof (voteSet_locked_spec sid v lo hi start dur _ Hm Hin) as Hq.
    apply (runs_result _ _ _ _ _ Hrun) in Hq as (Hok & Ht & Hon & Hev).
    split; [done|]. intros sid' id [Hold|(ev & -> & <- & <-)]%Hon.
    + destruct (Hp sid' id Hold) as (ev & Hes & Hei & Hor). exists ev. split_and!; [done|done|]. cbn. rewrite Ht.
      destruct Hor as [?|[?|?]]; [by left|right; left|by right; right].
      destruct r; [by apply list_elem_of_further|done].
    + exists ev.1. split_and!; [done|done|]. cbn. right. left. apply list_elem_of_here.
  - injection Hrun as <-. split; [destruct Hm; by split|]. intros sid id Hv.
    destruct (Hp sid id Hv) as (e & Hes & Hei & Hor). exists e. split_and!; [done|done|]. cbn.
    rewrite Hin, !fmap_app, fmap_cons, !elem_of_app, !elem_of_cons in *. tauto.
  - split; [destruct Hm; by split|]. intros sid id Hv.
    destruct (Hp sid id Hv) as (e & Hes & Hei & Hor). exists e. split_and!; [done|done|]. cbn.
    rewrite Ht, !fmap_app, fmap_cons, !elem_of_app, !elem_of_cons in *. cbn in Hor. tauto.
  - pose proof (handle_locked_spec ev _ Hm) as Hq. apply (runs_result _ _ _ _ _ Hrun) in Hq as (Hok & Ht & Hon & Hev).
    split; [done|]. intros sid id Hv. destruct (Hp sid id (Hon _ _ Hv)) as (e & <- & <- & Hor).
    destruct (decide (ev_sessionId ev = ev_sessionId e /\ ev_voteId ev = ev_voteId e)) as [[Hes Hei]|Hne].
    + destruct Hev as [d Hd]; [by rewrite Hes, Hei|]. exists ev. split_and!; [done|done|]. cbn. rewrite Hd.
      left. apply list_elem_of_here.
    + exists e. split_and!; [done|done|]. cbn. destruct Hor as [?|[?|Hin]].
      * left. destruct Ht as [->|[d ->]]; [done|]. by apply list_elem_of_further.
      * right. by left.
      * right. right. rewrite Hf in Hin. rewrite elem_of_app, elem_of_cons in *.
        destruct Hin as [?|[->|?]]; [by left|by destruct Hne|by right].
Qed.

Lemma mgr_new_ok t : mgr_ok (mgr_new t).
Proof.
  split; [split|]; cbn.
  - apply empty_map_ok.
  - intros p e. by rewrite lookup_empty.
  - intros p1 p2 e1 e2. by rewrite lookup_empty.
  - intros sid entry t'. by rewrite lookup_empty.
  - intros tid r. by intros ?%elem_of_nil.
Qed.

Lemma system_new_ok t : sys_ok (system_new t).
Proof.
  split; [apply mgr_new_ok|]. intros sid id. unfold vote_on, session_votes. cbn. by rewrite lookup_empty.
Qed.
End SystemProofs.

(** ** Lemmas: operations that clamp nothing *)

Definition is_clamp (e : effect) : bool := match e with SetUclamp _ _ => true | _ => false end.

(** [m] does nothing to the system but what is not a clamp. *)
Definition unclamping {A} (m : St Manager A) : Prop :=
  forall s a s', m s = Some (a, s') ->
    exists h, history s' = history s ++ h /\ Forall (fun e => is_clamp e = false) h.

Lemma unclamping_bind {A B} (m : St Manager A) (k : A -> St Manager B) :
  unclamping m -> (forall a, unclamping (k a)) -> unclamping (m ≫= k).
Proof.
  intros Hm Hk s b s'. unfold mbind, St_bind. destruct (m s) as [[a s1]|] eqn:H1; [|done].
  intros H2. destruct (Hm _ _ _ H1) as (h1 & Hh1 & Hf1). destruct (Hk _ _ _ _ H2) as (h2 & Hh2 & Hf2).
  exists (h1 ++ h2). split; [by rewrite Hh2, Hh1, app_assoc|by apply Forall_app].
Qed.

Lemma unclamping_same {A} (m : St Manager A) :
  (forall s a s', m s = Some (a, s') -> history s' = history s) -> unclamping m.
Proof. intros Hm s a s' Hr. exists []. split; [by rewrite app_nil_r, (Hm _ _ _ Hr)|done]. Qed.

Lemma unclamping_emit e : is_clamp e = false -> unclamping (emit e).
Proof. intros He s [] s' [= <-]. exists [e]. split; [done|by repeat constructor]. Qed.

Lemma unclamping_modify f : (forall s, history (f s) = history s) -> unclamping (modify f).
Proof. intros Hf. apply unclamping_same. by intros s [] s' [= <-]. Qed.

Lemma unclamping_of_option {A} (o : option A) : unclamping (of_option o).
Proof. apply unclamping_same. intros s a s'. unfold of_option. destruct o; simpl; [|done]. by intros [= <- <-]. Qed.

Lemma unclamping_for_each {A} (l : list A) (f : A -> St Manager unit) :
  (forall x, unclamping (f x)) -> unclamping (for_each l f).
Proof.
  intros Hf. induction l as [|x l IH]; cbn [for_each].
  - apply unclamping_same. by intros s a s' [= <- <-].
  - by apply unclamping_bind.
Qed.

Ltac solve_unclamping :=
  repeat lazymatch goal with
  | |- forall _, _ => intro
  | |- unclamping (_ ≫= _) => apply unclamping_bind
  | |- unclamping (match ?x with _ => _ end) => destruct x
  | |- unclamping (for_each _ _) => apply unclamping_for_each
  | |- unclamping (emit _) => by apply unclamping_emit
  | |- unclamping (modify _) => by apply unclamping_modify
  | |- unclamping (of_option _) => apply unclamping_of_option
  | |- unclamping (mret _) => apply unclamping_same; by intros ? ? ? [= <- <-]
  | |- unclamping (gets _) => apply unclamping_same; by intros ? ? ? [= <- <-]
  | |- unclamping ?m => let h := head_of m in unfold h
  end
with head_of m := lazymatch m with ?f _ => head_of f | ?f => f end.

(** ** Lemmas: clamping the threads of a session *)

Section Clamping.
Context `{PowerEnvLaws}.

(** What the loop is to do: the range of each thread, computed once. *)
Definition clamp_calls (config : AdpfConfig) (m : SessionTaskMap) (t : Z) (tids : list Z)
    : option (list (Z * UclampRange)) :=
  mapM (fun tid =>
    r ← getTaskVoteRange m tid t default_range (mUclampMaxEfficientBase config)
          (mUclampMaxEfficientOffset config);
    Some (tid, clamped r)) tids.

Definition clamp_effects (calls : list (Z * UclampRange)) : list effect :=
  (fun c => SetUclamp c.1 c.2) <$> calls.

(** The threads that are alive when their turn comes. *)
Fixpoint survivors (h : list effect) (calls : list (Z * UclampRange)) : list Z :=
  match calls with
  | [] => []
  | (tid, r) :: rest =>
      (if decide (sched_setattr h tid r = ESRCH) then [] else [tid]) ++
      survivors (h ++ [SetUclamp tid r]) rest
  end.

Lemma clamp_calls_ext config m m' t tids :
  values m' = values m -> voters m' = voters m ->
  (forall tid, tid ∈ tids -> mTasks m' !! tid = mTasks m !! tid) ->
  clamp_calls config m' t tids = clamp_calls config m t tids.
Proof.
  intros Hval Hvot Ht. unfold clamp_calls. induction tids as [|tid tids IH]; [done|].
  assert (forall base off r, getTaskVoteRange m' tid t r base off = getTaskVoteRange m tid t r base off) as Hr.
  { intros base off r. unfold getTaskVoteRange. rewrite Ht by apply list_elem_of_here.
    destruct (mTasks m !! tid) as [l|]; [|done]. unfold confine_session. by rewrite Hval, Hvot. }
  cbn [mapM]. rewrite Hr. f_equal. 
  rewrite IH; [done|]. intros tid' Hin. apply Ht. by apply list_elem_of_further.
Qed.

Lemma clamp_calls_cons config m t tid tids calls :
  clamp_calls config m t (tid :: tids) = Some calls ->
  exists r rest, getTaskVoteRange m tid t default_range (mUclampMaxEfficientBase config)
      (mUclampMaxEfficientOffset config) = Some r /\
    clamp_calls config m t tids = Some rest /\ calls = (tid, clamped r) :: rest.
Proof.
  unfold clamp_calls. cbn [mapM]. intros Hc.
  apply bind_Some in Hc as ([tid' r'] & Hr & Hc). apply bind_Some in Hc as (rest & Hrest & [= <-]).
  apply bind_Some in Hr as (r & Hr & [= <- <-]). eauto.
Qed.

Lemma apply_loop_spec config sid t : forall todo before s entry calls,
  mgr_ok s -> mSessions (mSessionTaskMap s) !! sid = Some entry ->
  linkedTasks entry = before ++ todo -> NoDup todo ->
  clamp_calls config (mSessionTaskMap s) t todo = Some calls ->
  runs (apply_loop config sid t before todo) s (fun _ s' =>
    history s' = history s ++ clamp_effects calls /\
    (exists entry', mSessions (mSessionTaskMap s') !! sid = Some entry' /\ val entry' = val entry /\
       linkedTasks entry' = before ++ survivors (history s) calls) /\
    values (mSessionTaskMap s') = values (mSessionTaskMap s)).
Proof.
  intros todo. induction todo as [|tid rest IH]; intros before s entry calls Hs Hse Hl Hnd Hc.
  { injection Hc as <-. split_and!; [by rewrite app_nil_r|by exists entry|done]. }
  apply NoDup_cons in Hnd as [Hnin Hnd]. apply clamp_calls_cons in Hc as (r & calls' & Hr & Hc & ->).
  cbn [apply_loop]. apply runs_bind, runs_gets, runs_bind, runs_of_option. exists r. split; [done|].
  apply runs_bind. unfold set_uclamp. apply runs_bind, runs_gets, runs_bind. unfold emit.
  apply runs_modify, runs_ret. pose proof (clamp_quiet s tid r Hs) as [Hs1 _].
  set (s1 := with_history s _) in *. cbn [survivors]. case_decide as Hd.
  - apply runs_bind, runs_modify. change (set_links _ sid (before ++ rest))
      with (drop_link (mSessionTaskMap s1) sid tid (before ++ rest)).
    pose proof (drop_link_tasks _ sid entry tid before rest (mk_tasks s1 Hs1) Hse Hl) as Heq.
    destruct (drop_link_ok _ sid entry tid before rest (mk_tasks s1 Hs1) Hse Hl) as (Hok & Hv & Hses & Htk).
    assert (mgr_ok (with_map s1 (drop_link (mSessionTaskMap s1) sid tid (before ++ rest)))) as Hs2
      by (destruct Hs1; by split).
    eapply runs_mono; [|eapply (IH before _ (mkVal (val entry) (before ++ rest)) calls' Hs2)].
    + intros [] s' (Hh & Hent & Hvals). split_and!; [rewrite Hh; symmetry; apply (app_assoc _ [_])|done|].
      rewrite Hvals. cbn [with_map mSessionTaskMap]. by rewrite Heq.
    + cbn [with_map mSessionTaskMap]. by rewrite Hses, lookup_insert_eq.
    + done.
    + done.
    + rewrite <-Hc. apply clamp_calls_ext; cbn [with_map mSessionTaskMap]; [by rewrite Heq|by rewrite Heq|].
      intros tid' Hin. apply Htk. by intros ->.
  - eapply runs_mono; [|eapply (IH (before ++ [tid]) s1 entry calls' Hs1 Hse); [by rewrite <-app_assoc|done|done]].
    intros [] s' (Hh & (entry' & He' & Hval & Hlk) & Hvals). split_and!; [rewrite Hh; symmetry; apply (app_assoc _ [_])| |done].
    exists entry'. split_and!; [done|done|]. by rewrite Hlk, <-app_assoc.
Qed.

Lemma clamp_calls_defined config m t tids :
  tasks_ok m -> (is_Some (mUclampMaxEfficientBase config) -> is_Some (mUclampMaxEfficientOffset config)) ->
  exists calls, clamp_calls config m t tids = Some calls /\ calls.*1 = tids /\
    Forall (fun c => exists r, getTaskVoteRange m c.1 t default_range (mUclampMaxEfficientBase config)
      (mUclampMaxEfficientOffset config) = Some r /\ c.2 = clamped r) calls.
Proof.
  intros Hok Hoff. induction tids as [|tid tids IH]; [by exists []|].
  destruct IH as (calls & Hc & Hfst & Hall).
  destruct (range_defined m tid t default_range _ _ Hok Hoff) as [r Hr].
  exists ((tid, clamped r) :: calls). split_and!.
  - unfold clamp_calls in *. cbn [mapM]. rewrite Hr. cbn [mbind option_bind]. by rewrite Hc.
  - by rewrite fmap_cons, Hfst.
  - constructor; [eauto|done].
Qed.

Lemma apply_spec sid t s entry calls :
  mgr_ok s -> mSessions (mSessionTaskMap s) !! sid = Some entry -> NoDup (linkedTasks entry) ->
  mUclampMinOn (GetAdpfProfile (history s)) = true ->
  clamp_calls (GetAdpfProfile (history s)) (mSessionTaskMap s) t (linkedTasks entry) = Some calls ->
  runs (applyUclampLocked sid t) s (fun _ s' =>
    history s' = history s ++ clamp_effects calls /\ timers s' = timers s /\
    exists entry', mSessions (mSessionTaskMap s') !! sid = Some entry' /\
      linkedTasks entry' = survivors (history s) calls).
Proof.
  intros Hs Hse Hnd Hon Hc. pose proof (apply_quiet sid t s Hs) as Hquiet.
  eapply (runs_mono _ _ (fun _ s' => quiet_post s s' /\ (history s' = history s ++ clamp_effects calls /\
    exists entry', mSessions (mSessionTaskMap s') !! sid = Some entry' /\
      linkedTasks entry' = survivors (history s) calls))).
  { intros [] s' [(_ & Ht & _) [Hh He]]. by split_and!. }
  apply runs_and; [done|]. destruct (mo_val _ (tk_map _ (mk_tasks s Hs)) _ _ Hse) as (e & He & _).
  unfold applyUclampLocked, profile. apply runs_bind, runs_gets, runs_bind, runs_find. rewrite Hse, Hon.
  apply runs_bind, runs_bind, runs_gets. unfold getTaskIds. rewrite Hse.
  eapply runs_mono; [|by eapply apply_loop_spec]. intros [] s1 (Hh & (entry' & He' & Hval & Hl) & Hvals).
  apply runs_bind. eapply runs_deref; [by rewrite Hvals|]. unfold store. apply runs_modify.
  split; [done|]. exists entry'. by split.
Qed.

(** The time of the last update does not count. *)
Lemma range_updated m p e u t now r base off :
  values m !! p = Some e ->
  getTaskVoteRange (set_values m (<[p := with_updated e u]> (values m))) t now r base off =
  getTaskVoteRange m t now r base off.
Proof.
  intros Hp. unfold getTaskVoteRange. cbn [set_values mTasks]. destruct (mTasks m !! t) as [l|]; [|done].
  generalize (Some r). induction l as [|q l IH]; intros o; [done|]. cbn [foldl]. rewrite IH. f_equal.
  unfold confine_session. destruct o as [r'|]; [|done]. cbn [mbind option_bind set_values values voters].
  destruct (decide (p = q)) as [<-|Hne]; [|by rewrite lookup_insert_ne].
  by rewrite lookup_insert_eq, Hp.
Qed.

Lemma clamp_calls_updated config m p e u t tids :
  values m !! p = Some e ->
  clamp_calls config (set_values m (<[p := with_updated e u]> (values m))) t tids = clamp_calls config m t tids.
Proof.
  intros Hp. unfold clamp_calls. induction tids as [|tid tids IH]; [done|].
  cbn [mapM]. by rewrite IH, (range_updated m p e u) by done.
Qed.

(** A linked task points at the session. *)
Lemma linked_in_task m sid entry tid :
  tasks_ok m -> mSessions m !! sid = Some entry -> tid ∈ linkedTasks entry ->
  val entry ∈ task_list (mTasks m) tid.
Proof.
  intros [_ _ _ Hx] Hse Hin. destruct (decide (val entry ∈ task_list (mTasks m) tid)) as [|Hnin]; [done|].
  apply occurrences_0 in Hnin. rewrite (Hx sid entry tid Hse) in Hnin. by apply occurrences_0 in Hnin.
Qed.

(** The map [addVote] leaves. *)
Lemma addVote_spec m sid entry e vs v lo hi start dur :
  tasks_ok m -> mSessions m !! sid = Some entry -> values m !! val entry = Some e ->
  voters m !! votes_ptr e = Some vs ->
  let m1 := set_voters m (<[votes_ptr e := votes_add vs v (mkVote true start dur (mkRange lo hi))]> (voters m)) in
  addVote m sid v lo hi start dur = Some m1 /\ tasks_ok m1 /\
  session_votes m1 sid = Some (votes_add vs v (mkVote true start dur (mkRange lo hi))).
Proof.
  intros Hok Hse He Hvs m1. split.
  - unfold addVote. rewrite Hse, He. cbn [mbind option_bind]. by rewrite Hvs.
  - by destruct (store_votes_tasks_ok m sid entry e (votes_add vs v (mkVote true start dur (mkRange lo hi))) Hok Hse He)
      as (? & ? & _).
Qed.

(** The range of a thread while its session has a vote of at least [lo]. *)
Lemma clamp_tightest config m t tid c :
  tasks_ok m -> mUclampMaxEfficientBase config = None ->
  (exists r, getTaskVoteRange m tid t default_range (mUclampMaxEfficientBase config)
      (mUclampMaxEfficientOffset config) = Some r /\ c = clamped r) ->
  exists r, c = clamped r /\ tightest (task_counts m (task_list (mTasks m) tid) t) default_range r.
Proof.
  intros [Hm Hv _ _] Hb (r & Hr & ->). exists r. split; [done|]. rewrite Hb in Hr.
  pose proof (task_range_spec m tid t default_range (mUclampMaxEfficientOffset config) Hm Hv) as Hspec.
  unfold task_list. destruct (mTasks m !! tid) as [l|]; cbn.
  - destruct Hspec as (r' & Hr' & Ht). congruence.
  - assert (r = default_range) as -> by congruence. eapply tightest_iff; [|apply tightest_none].
    intros v. split; [done|]. intros (p & e & vs & Hp & _). by apply elem_of_nil in Hp.
Qed.

(** Setting a vote clamps the threads of the session. *)
Lemma voteSet_effect sid v lo hi start dur s entry e m1 :
  mgr_ok s -> mSessions (mSessionTaskMap s) !! sid = Some entry ->
  values (mSessionTaskMap s) !! val entry = Some e -> NoDup (linkedTasks entry) -> in_s 64 (start + dur) ->
  mUclampMinOn (GetAdpfProfile (history s)) = true ->
  addVote (mSessionTaskMap s) sid (vote_int v) lo hi start dur = Some m1 ->
  runs (voteSet sid v lo hi start dur) s (fun _ s' => exists calls,
    clamp_calls (GetAdpfProfile (history s)) m1 start (linkedTasks entry) = Some calls /\
    history s' = history s ++ clamp_effects calls /\
    exists entry', mSessions (mSessionTaskMap s') !! sid = Some entry' /\
      linkedTasks entry' = survivors (history s) calls).
Proof.
  intros Hs Hse He Hnd Hin Hon Hadd. pose proof (mk_tasks s Hs) as Hok.
  destruct (tk_votes _ Hok _ _ He) as [vs Hvs].
  destruct (addVote_spec _ sid entry e vs (vote_int v) lo hi start dur Hok Hse He Hvs) as (Hadd' & Hok1 & Hsv).
  rewrite Hadd in Hadd'. injection Hadd' as ->. set (m1 := set_voters _ _) in *.
  destruct (clamp_calls_defined (GetAdpfProfile (history s)) m1 start (linkedTasks entry) Hok1
    (efficient_pair (history s))) as (calls & Hc & _).
  unfold voteSet. apply runs_bind. unfold voteSet_locked. rewrite decide_True by done.
  apply runs_bind, runs_find. rewrite Hse. apply runs_bind. eapply runs_deref; [done|].
  apply runs_bind. eapply runs_deref_votes; [done|]. apply runs_bind, runs_gets, runs_bind, runs_of_option.
  exists m1. split; [done|]. apply runs_bind, runs_modify, runs_bind. eapply runs_deref; [done|].
  assert (mgr_ok (with_map s m1)) as Hs1 by (destruct Hs; by split).
  pose proof (store_quiet (with_map s m1) (val entry) e (with_updated e start) Hs1 He eq_refl eq_refl) as Hq2.
  apply runs_bind. unfold store in *. apply runs_modify. apply runs_modify in Hq2 as [Hs2 _].
  match type of Hs2 with mgr_ok ?x => set (s2 := x) in * end.
  apply runs_bind. eapply runs_mono; [|apply (apply_spec sid start s2 entry calls); [done..|]].
  - intros [] s3 (Hh & _ & Hent). apply runs_ret.
    assert (exists calls, clamp_calls (GetAdpfProfile (history s)) m1 start (linkedTasks entry) = Some calls /\
      history s3 = history s ++ clamp_effects calls /\
      exists entry', mSessions (mSessionTaskMap s3) !! sid = Some entry' /\
        linkedTasks entry' = survivors (history s) calls) as Hpost by eauto.
    by destruct (shouldScheduleTimeout _ _ _).
  - rewrite <-Hc. exact (clamp_calls_updated _ m1 (val entry) e start start (linkedTasks entry) He).
Qed.

(** The clamps a vote of an active session leads to. *)
Lemma vote_calls_spec s config sid v lo hi start dur entry e m1 calls :
  mgr_ok s -> mSessions (mSessionTaskMap s) !! sid = Some entry ->
  values (mSessionTaskMap s) !! val entry = Some e -> 0 <= dur ->
  mUclampMaxEfficientBase config = None -> (is_Some (mUclampMaxEfficientBase config) ->
    is_Some (mUclampMaxEfficientOffset config)) ->
  addVote (mSessionTaskMap s) sid (vote_int v) lo hi start dur = Some m1 ->
  clamp_calls config m1 start (linkedTasks entry) = Some calls ->
  calls.*1 = linkedTasks entry /\
  Forall (fun c =>
    (exists r, c.2 = clamped r /\ tightest (task_counts m1 (task_list (mTasks m1) c.1) start) default_range r) /\
    (isActive e = true -> Z.min lo kUclampMax <= uclampMin c.2)) calls.
Proof.
  intros Hs Hse He Hdur Hbase Hpair Hadd Hc. pose proof (mk_tasks s Hs) as Hok.
  destruct (tk_votes _ Hok _ _ He) as [vs Hvs].
  destruct (addVote_spec _ sid entry e vs (vote_int v) lo hi start dur Hok Hse He Hvs) as (Hadd' & Hok1 & _).
  rewrite Hadd in Hadd'. injection Hadd' as ->. set (m1 := set_voters _ _) in *.
  destruct (clamp_calls_defined config m1 start (linkedTasks entry) Hok1 Hpair) as (calls' & Hc' & Hfst & Hall).
  rewrite Hc in Hc'. injection Hc' as <-. split; [done|].
  apply Forall_forall. intros c Hcin.
  assert (c.1 ∈ linkedTasks entry) as Hl by (rewrite <-Hfst; by apply list_elem_of_fmap_2).
  destruct (clamp_tightest _ m1 start c.1 c.2 Hok1 Hbase (proj1 (Forall_forall _ _) Hall c Hcin)) as (r & Hr & Ht).
  split; [eauto|]. intros Hact. rewrite Hr. destruct Ht as [(_ & Hmin & _) _].
  enough (lo <= uclampMin r) by (unfold clamped, kUclampMin, kUclampMax; cbn; lia).
  apply (Hmin (mkVote true start dur (mkRange lo hi))).
  exists (val entry), e, (votes_add vs (vote_int v) (mkVote true start dur (mkRange lo hi))).
  split_and!; [by eapply (linked_in_task m1 sid)|done|done|by apply lookup_insert_eq|].
  exists (vote_int v). split; [by apply lookup_insert_eq|]. unfold isTimeInRange. cbn.
  by rewrite !bool_decide_eq_true_2 by lia.
Qed.

(** ** Properties *)

(** C3: a vote that is switched on is never forgotten, however the sections of
    concurrent operations, the worker and the clock interleave: in every
    reachable state an event for each active vote is in the worker's queue, on
    its way there or being handled; and the tables are consistent, no two
    sessions share votes, every task is in a session exactly as often as the
    session links it, and every clamp asked of the kernel has
    0 <= min <= max <= 1024. *)
Theorem manager_reachable_ok t s :
  rtc mgr_step (system_new t) s ->
  mgr_ok (sys_mgr s) /\
  forall sid id, vote_on (mSessionTaskMap (sys_mgr s)) sid id = true -> pending s sid id.
Proof.
  intros Hr. destruct (rtc_invariant mgr_step sys_ok mgr_step_ok _ _ Hr (system_new_ok t)). done.
Qed.

(** Setting a vote asks the kernel for a clamp of every thread of the
    session, once each and in order, with the tightest range of the votes that
    count in the active sessions the thread belongs to, cut to the limits; an
    active session's new vote is among them, so no thread gets less than it asks;
    and exactly the threads the kernel says are gone leave the session. *)
Lemma voteSet_clamps sid v lo hi start dur s entry e m1 :
  mgr_ok s -> mSessions (mSessionTaskMap s) !! sid = Some entry ->
  values (mSessionTaskMap s) !! val entry = Some e -> NoDup (linkedTasks entry) ->
  in_s 64 (start + dur) -> 0 <= dur ->
  mUclampMinOn (GetAdpfProfile (history s)) = true ->
  mUclampMaxEfficientBase (GetAdpfProfile (history s)) = None ->
  addVote (mSessionTaskMap s) sid (vote_int v) lo hi start dur = Some m1 ->
  runs (voteSet sid v lo hi start dur) s (fun _ s' => exists calls,
    history s' = history s ++ clamp_effects calls /\ calls.*1 = linkedTasks entry /\
    Forall (fun c =>
      (exists r, c.2 = clamped r /\ tightest (task_counts m1 (task_list (mTasks m1) c.1) start) default_range r) /\
      (isActive e = true -> Z.min lo kUclampMax <= uclampMin c.2)) calls /\
    exists entry', mSessions (mSessionTaskMap s') !! sid = Some entry' /\
      linkedTasks entry' = survivors (history s) calls).
Proof.
  intros Hs Hse He Hnd Hin Hdur Hon Hbase Hadd.
  eapply runs_mono; [|by eapply voteSet_effect]. intros [] s' (calls & Hc & Hh & Hent). exists calls.
  destruct (vote_calls_spec s _ sid v lo hi start dur entry e m1 calls Hs Hse He Hdur Hbase
    (efficient_pair (history s)) Hadd Hc). by split_and!.
Qed.

(** Nothing takes a clamp back but the next vote.  Pausing or removing a
    session, replacing its threads, and the timeout of a vote never ask the
    kernel for a clamp: the threads keep the one the last vote gave them. *)
Lemma clamps_not_undone (op : St Manager unit) s s' :
  (exists sid, op = pause sid) \/ (exists sid tag, op = removePowerSession sid tag) \/
  (exists sid l tag, op = setThreadsFromPowerSession sid l tag) \/ (exists ev, op = handleEvent ev) ->
  op s = Some (tt, s') ->
  exists h, history s' = history s ++ h /\ Forall (fun e => is_clamp e = false) h.
Proof.
  intros Hop. revert s s'. enough (unclamping op) as Hu by (intros s s'; apply Hu).
  destruct Hop as [[sid ->]|[(sid & tag & ->)|[(sid & l & tag & ->)|[ev ->]]]]; solve_unclamping.
Qed.
End Clamping.

(** ** Witnesses *)

(** Thread 13 is dead. *)
Definition demo_env : PowerEnv := {|
  AID_APP_START := 10000; AdpfConfig := unit; GetAdpfProfile _ := tt; mUclampMinOn _ := true;
  mUclampMaxEfficientBase _ := None; mUclampMaxEfficientOffset _ := None;
  GetAdpfProfileFromDoHint _ := false; IsHintSupported _ _ := true;
  kDisableBoostHintName := "ADPF_DISABLE_TA_BOOST";
  sched_setattr _ tid _ := if decide (tid = 13) then ESRCH else 0
|}.

Lemma demo_env_laws : @PowerEnvLaws demo_env.
Proof. split. cbn. by intros _ [? [=]]. Qed.

Definition exec {A} (m : St Manager A) (s : Manager) : Manager :=
  match m s with Some (_, s') => s' | None => s end.

Definition demo_desc : HintDesc := mkDesc 1 4000 10050 true 16.

(** A manager with one session of threads 12 and 13. *)
Definition demo_manager : Manager :=
  exec (addPowerSession (H := demo_env) "4000-10050-1" demo_desc [12; 13] DEFAULT) (mgr_new 100).

Lemma demo_sessions_ok : mgr_ok demo_manager.
Proof.
  pose proof (add_session_quiet (H := demo_env) "4000-10050-1" demo_desc [12; 13] DEFAULT
    (mgr_new 100) (mgr_new_ok 100)) as Hq.
  unfold demo_manager, exec. unfold runs in Hq.
  destruct (addPowerSession _ _ _ _ _) as [[[] s']|]; [by destruct Hq|by apply mgr_new_ok].
Qed.

(** The session is added and a vote is set, whose event is not queued yet. *)
Definition demo_added : Manager :=
  exec (void (add_locked (H := demo_env) "4000-10050-1" demo_desc 100)) (mgr_new 100).

Definition demo_voted : System :=
  mkSystem (exec (voteSet_locked (H := demo_env) 1 CPU_LOAD_UP 300 1024 100 50) demo_added)
    [(mkEvent 100 1 1, 150)] [].

Lemma demo_voted_reached : rtc (mgr_step (H := demo_env)) (system_new 100) demo_voted.
Proof.
  eapply rtc_l; [apply (StepSection (H := demo_env) (system_new 100)
    (void (add_locked (H := demo_env) "4000-10050-1" demo_desc 100)) demo_added); [apply SecAdd|vm_compute; reflexivity]|].
  eapply rtc_l; [apply (StepVote (H := demo_env) (mkSystem demo_added [] []) 1 CPU_LOAD_UP 300 1024 100 50
    (Some (mkEvent 100 1 1, 150)) (sys_mgr demo_voted)); vm_compute; reflexivity|].
  apply rtc_refl.
Qed.

Lemma manager_reachable_ok_witness :
  vote_on (mSessionTaskMap (sys_mgr demo_voted)) 1 1 = true /\ pending demo_voted 1 1.
Proof.
  split; [vm_compute; reflexivity|].
  apply (@manager_reachable_ok demo_env demo_env_laws 100 demo_voted demo_voted_reached).
  vm_compute. reflexivity.
Defined.
