(* ===== verification/HintSession.v ===== *)
(** * power/PowerHintSession.{h,cpp}, AppHintDesc.h: one performance hint session

    A session turns the durations an application reports into a vote for a
    minimum utilisation clamp, by a PID controller, and forwards hints to the
    session manager.  Its state and the manager's are [World]'s; an operation
    runs under the session's lock.

    Integers have the width of the source and overflow is undefined, as are
    the conversion of a double that does not fit and [value()] of an empty
    optional (the service is built without exceptions).  The configuration is
    libperfmgr's: class [HintEnv] reads its members.  Doubles are IEEE binary64
    ([Prelude]).  The values that are only traced are left out, but for the
    integer division among them. *)

From S2P Require Import Prelude Votes SessionRecords SessionTasks SessionManager.

(** ** The environment *)

(** The members of the configuration, the generated names of tags and hints,
    and the node that tells system processes. *)
Class HintEnv `{PowerEnv} := {
  GetAdpfProfileOf : list effect -> string -> AdpfConfig;
  mPidOn : AdpfConfig -> bool;
  mPidPo : AdpfConfig -> spec_float; mPidPu : AdpfConfig -> spec_float;
  mPidI : AdpfConfig -> spec_float;
  mPidDo : AdpfConfig -> spec_float; mPidDu : AdpfConfig -> spec_float;
  getPidIHighDivI : AdpfConfig -> Z; getPidILowDivI : AdpfConfig -> Z;
  mSamplingWindowP : AdpfConfig -> Z; mSamplingWindowI : AdpfConfig -> Z; mSamplingWindowD : AdpfConfig -> Z;
  mUclampMinInit : AdpfConfig -> Z; mUclampMinHigh : AdpfConfig -> Z; mUclampMinLow : AdpfConfig -> Z;
  mUclampMinLoadUp : AdpfConfig -> Z; mUclampMinLoadReset : AdpfConfig -> Z;
  mReportingRateLimitNs : AdpfConfig -> Z;
  mTargetTimeFactor : AdpfConfig -> spec_float; mStaleTimeFactor : AdpfConfig -> spec_float;
  mHeuristicBoostOn : AdpfConfig -> option bool;
  mHBoostModerateJankThreshold : AdpfConfig -> option Z;
  mHBoostSevereJankThreshold : AdpfConfig -> option Z;
  mHBoostOffMaxAvgDurRatio : AdpfConfig -> option spec_float;
  mHBoostSevereJankPidPu : AdpfConfig -> option spec_float;
  mHBoostUclampMinFloorRange : AdpfConfig -> option (Z * Z);
  mHBoostUclampMinCeilingRange : AdpfConfig -> option (Z * Z);
  mJankCheckTimeFactor : AdpfConfig -> option spec_float;
  mLowFrameRateThreshold : AdpfConfig -> option Z; mMaxRecordsNum : AdpfConfig -> option Z;
  SessionTag_toString : Z -> string; SURFACEFLINGER : Z;
  SessionHint_toString : Z -> string;
  hint_CPU_LOAD_UP : Z; hint_CPU_LOAD_DOWN : Z; hint_CPU_LOAD_RESET : Z; hint_CPU_LOAD_RESUME : Z;
  hint_POWER_EFFICIENCY : Z;
  mode_POWER_EFFICIENCY : Z; SessionMode_size : Z;
  systemSessionCheckNodeExist : bool; systemSessionCheckOpen : bool; systemSessionCheckWrite : Z -> bool
}.

(** ** Data *)

Inductive status := Ok | IllegalState | IllegalArgument | UnsupportedOperation.

Record AppHintDesc := mkHintDesc {
  tgid : Z; uid : Z; targetNs : Z; thread_ids : list Z; pidControlVariable : Z; is_active : bool;
  update_count : Z; integral_error : Z; previous_error : Z
}.

Section Session.
Context `{HintEnv}.

Record PowerHintSession := mkHint {
  mSessionId : Z; mSessTag : Z; mProcTag : ProcessTag; mDescriptor : AppHintDesc;
  mLastUpdatedTime : Z; mSessionClosed : bool; mSupportedHints : gmap string bool; mModes : list bool;
  mAdpfProfile : option AdpfConfig; mSessionRecords : option SessionRecords;
  mJankyLevel : SessionJankyLevel; mJankyFrameNum : Z
}.

(** A session and the manager it calls. *)
Record World := mkWorld { w_session : PowerHintSession; w_mgr : Manager }.

(** ** State access *)

Definition manager {A} (m : St Manager A) : St World A := fun w =>
  match m (w_mgr w) with Some (a, mgr) => Some (a, mkWorld (w_session w) mgr) | None => None end.

Definition read {A} (f : PowerHintSession -> A) : St World A := gets (fun w => f (w_session w)).
Definition desc {A} (f : AppHintDesc -> A) : St World A := read (fun s => f (mDescriptor s)).

Definition update (f : PowerHintSession -> PowerHintSession) : St World unit :=
  modify (fun w => mkWorld (f (w_session w)) (w_mgr w)).

Definition update_desc (f : AppHintDesc -> AppHintDesc) : St World unit :=
  update (fun s => mkHint (mSessionId s) (mSessTag s) (mProcTag s) (f (mDescriptor s)) (mLastUpdatedTime s)
    (mSessionClosed s) (mSupportedHints s) (mModes s) (mAdpfProfile s) (mSessionRecords s) (mJankyLevel s)
    (mJankyFrameNum s)).

Definition steady_now : St World Z := manager now.

Definition set_updated : St World unit :=
  t ← steady_now;
  update (fun s => mkHint (mSessionId s) (mSessTag s) (mProcTag s) (mDescriptor s) t
    (mSessionClosed s) (mSupportedHints s) (mModes s) (mAdpfProfile s) (mSessionRecords s) (mJankyLevel s)
    (mJankyFrameNum s)).

Definition with_records (r : option SessionRecords) (level : SessionJankyLevel) (frames : Z)
    (s : PowerHintSession) : PowerHintSession :=
  mkHint (mSessionId s) (mSessTag s) (mProcTag s) (mDescriptor s) (mLastUpdatedTime s)
    (mSessionClosed s) (mSupportedHints s) (mModes s) (mAdpfProfile s) r level frames.

Definition set_records (r : option SessionRecords) (level : SessionJankyLevel) (frames : Z) : St World unit :=
  update (with_records r level frames).

Definition set_active (b : bool) : St World unit :=
  update_desc (fun d => mkHintDesc (tgid d) (uid d) (targetNs d) (thread_ids d) (pidControlVariable d) b
    (update_count d) (integral_error d) (previous_error d)).

Definition set_pid (z : Z) : St World unit :=
  update_desc (fun d => mkHintDesc (tgid d) (uid d) (targetNs d) (thread_ids d) z (is_active d)
    (update_count d) (integral_error d) (previous_error d)).

Definition set_errors (integral previous : Z) : St World unit :=
  update_desc (fun d => mkHintDesc (tgid d) (uid d) (targetNs d) (thread_ids d) (pidControlVariable d)
    (is_active d) (update_count d) integral previous).

(** ** Configuration *)

Definition profile_tag (p : ProcessTag) (tag : Z) : string :=
  match p with DEFAULT => SessionTag_toString tag | SYSTEM_UI => "SYSTEM_UI" end.

Definition getAdpfProfile : St World AdpfConfig :=
  own ← read mAdpfProfile;
  match own with
  | Some config => mret config
  | None =>
      h ← gets (fun w => history (w_mgr w));
      p ← read mProcTag; tag ← read mSessTag;
      mret (GetAdpfProfileOf h (profile_tag p tag))
  end.

Definition setAdpfProfile (profile : option AdpfConfig) : St World unit :=
  update (fun s => mkHint (mSessionId s) (mSessTag s) (mProcTag s) (mDescriptor s) (mLastUpdatedTime s)
    (mSessionClosed s) (mSupportedHints s) (mModes s) profile (mSessionRecords s) (mJankyLevel s)
    (mJankyFrameNum s)).

Definition heuristic_on (config : AdpfConfig) : bool := default false (mHeuristicBoostOn config).

(** [duration * factor] of a duration in nanoseconds, as a double. *)
Definition times (ns : Z) (factor : spec_float) : spec_float := Binary64.mul (Binary64.of_Z ns) factor.

Definition d2 : spec_float := Binary64.of_Z 2.

(** The conversion of a double to [int64_t]. *)
Definition to_int64 (x : spec_float) : option Z := z ← SF_trunc x; checked_s 64 z.

Definition ns_to_100us (ns : Z) : Z := Z.quot ns 100000.

Definition kTargetDurationChangeThreshold : Z := 30.

Definition getProcessTag (pid : Z) : ProcessTag :=
  if negb systemSessionCheckNodeExist then DEFAULT
  else if negb systemSessionCheckOpen then DEFAULT
  else if systemSessionCheckWrite pid then SYSTEM_UI else DEFAULT.

Definition isAppSession : St World bool := u ← desc uid; mret (bool_decide (AID_APP_START <= u)).

Definition isTimeout : St World bool :=
  t ← steady_now;
  config ← getAdpfProfile;
  target ← desc targetNs;
  last ← read mLastUpdatedTime;
  d ← of_option (to_int64 (times target (mStaleTimeFactor config)));
  staleTime ← of_option (checked_s 64 (last + d));
  mret (bool_decide (t >= staleTime)).

(** ** The controller *)

(** Where a window of [size] samples starts in [length] of them. *)
Definition window_start (size length : Z) : Z :=
  if (size =? 0) || (length <? size) then 0 else length - size.

(** The sums the loop keeps: errors, derivatives, integral and last error. *)
Record PidState := mkPid { err_sum : Z; derivative_sum : Z; integral : Z; previous : Z }.

(** One turn of the loop, for sample [i]. *)
Definition pid_step (config : AdpfConfig) (target dt p_start i_start d_start i actual : Z) (s : PidState)
    : option PidState :=
  abs ← checked_s 64 (Z.abs actual);
  limit ← checked_s 64 (target * 20);
  diff ← checked_s 64 (actual - target);
  let error := ns_to_100us diff in
  dsum ← (if d_start <=? i then d ← checked_s 64 (error - previous s); checked_s 64 (derivative_sum s + d)
          else Some (derivative_sum s));
  esum ← (if p_start <=? i then checked_s 64 (err_sum s + error) else Some (err_sum s));
  integ ← (if i_start <=? i then
             x ← checked_s 64 (error * dt);
             y ← checked_s 64 (integral s + x);
             Some (Z.max (getPidILowDivI config) (Z.min (getPidIHighDivI config) y))
           else Some (integral s));
  Some (mkPid esum dsum integ error).

Fixpoint pid_loop (config : AdpfConfig) (target dt p_start i_start d_start i : Z) (actual : list Z)
    (s : PidState) : option PidState :=
  match actual with
  | [] => Some s
  | a :: rest =>
      s' ← pid_step config target dt p_start i_start d_start i a s;
      pid_loop config target dt p_start i_start d_start (i + 1) rest s'
  end.

(** How far [frames] is from the moderate threshold to the severe one. *)
Definition janky_factor (frames moderate severe : Z) : spec_float :=
  if frames <? moderate then S754_zero false
  else Binary64.div (Binary64.mul (Binary64.of_Z (wrap_u 32 (frames - moderate))) (Binary64.of_Z 1))
         (Binary64.of_Z (wrap_u 32 (severe - moderate))).

(** The proportional gain below target. *)
Definition pid_pu_active (config : AdpfConfig) (level : SessionJankyLevel) (frames : Z) : option spec_float :=
  if heuristic_on config then
    severePu ← mHBoostSevereJankPidPu config;
    let hboostPidPu := SFmin severePu (mPidPu config) in
    match level with
    | LIGHT => Some (mPidPu config)
    | MODERATE =>
        moderate ← mHBoostModerateJankThreshold config;
        severe ← (if frames <? moderate then Some 0 else mHBoostSevereJankThreshold config);
        Some (Binary64.add (mPidPu config)
                (Binary64.mul (janky_factor frames moderate severe) (Binary64.sub hboostPidPu (mPidPu config))))
    | SEVERE => Some hboostPidPu
    end
  else Some (mPidPu config).

(** The output of the controller and its new sums; integer division by the
    target's tenths of milliseconds is part of the trace. *)
Definition pid_output (config : AdpfConfig) (target : Z) (level : SessionJankyLevel) (frames integral0 previous0 : Z)
    (actual : list Z) : option (Z * PidState) :=
  let len := Z.of_nat (length actual) in
  let p_start := window_start (mSamplingWindowP config) len in
  let i_start := window_start (mSamplingWindowI config) len in
  let d_start := window_start (mSamplingWindowD config) len in
  let dt := ns_to_100us target in
  let first := Z.min p_start (Z.min i_start d_start) in
  s ← pid_loop config target dt p_start i_start d_start first (drop (Z.to_nat first) actual)
        (mkPid 0 0 integral0 previous0);
  pu ← pid_pu_active config level frames;
  pOut ← to_int64 (Binary64.div
           (Binary64.mul (if 0 <? err_sum s then mPidPo config else pu) (Binary64.of_Z (err_sum s)))
           (Binary64.of_Z (len - p_start)));
  iOut ← to_int64 (Binary64.mul (mPidI config) (Binary64.of_Z (integral s)));
  dOut ← to_int64 (Binary64.div (Binary64.div
           (Binary64.mul (if 0 <? derivative_sum s then mPidDo config else mPidDu config)
              (Binary64.of_Z (derivative_sum s)))
           (Binary64.of_Z dt)) (Binary64.of_Z (len - d_start)));
  piOut ← checked_s 64 (pOut + iOut);
  output ← checked_s 64 (piOut + dOut);
  if decide (dt = 0) then None else Some (output, s).

Definition convertWorkDurationToBoostByPid (actualDurations : list WorkDuration) : St World Z :=
  config ← getAdpfProfile;
  target ← desc targetNs;
  level ← read mJankyLevel; frames ← read mJankyFrameNum;
  i0 ← desc integral_error; p0 ← desc previous_error;
  '(output, s) ← of_option (pid_output config target level frames i0 p0 (durationNanos <$> actualDurations));
  set_errors (integral s) (previous s) ;;
  mret output.

(** ** Votes and hints *)

Definition updatePidControlVariable (value : Z) (updateVote : bool) : St World unit :=
  set_pid value ;;
  if updateVote then
    config ← getAdpfProfile;
    sid ← read mSessionId;
    target ← desc targetNs;
    t ← steady_now;
    stale ← of_option (to_int64 (times target (mStaleTimeFactor config)));
    limit ← of_option (checked_s 64 (mReportingRateLimitNs config * 2));
    manager (voteSet sid CPU_VOTE_DEFAULT value kUclampMax t (Z.max stale limit))
  else mret tt.

Definition tryToSendPowerHint (hint : string) : St World unit :=
  known ← read mSupportedHints;
  h ← gets (fun w => history (w_mgr w));
  let supported := match known !! hint with Some b => b | None => IsHintSupported h hint end in
  update (fun s => mkHint (mSessionId s) (mSessTag s) (mProcTag s) (mDescriptor s) (mLastUpdatedTime s)
    (mSessionClosed s) (<[hint := supported]> known) (mModes s) (mAdpfProfile s) (mSessionRecords s)
    (mJankyLevel s) (mJankyFrameNum s)) ;;
  if supported then manager (emit (DoHint hint)) else mret tt.

(** ** Heuristic boost *)

Definition resetSessionHeuristicStates : St World unit :=
  records ← read mSessionRecords;
  r ← of_option records;
  set_records (Some (resetRecords r)) LIGHT 0.

Definition updateSessionJankState (config : AdpfConfig) (oldState : SessionJankyLevel) (numOfJankFrames : Z)
    (durationVariance : spec_float) (isLowFPS : bool) : option SessionJankyLevel :=
  if isLowFPS then Some LIGHT
  else
    moderate ← mHBoostModerateJankThreshold config;
    if wrap_u 32 numOfJankFrames <? moderate then
      match oldState with
      | LIGHT => Some LIGHT
      | _ => ratio ← mHBoostOffMaxAvgDurRatio config;
             Some (if SFltb durationVariance ratio then LIGHT else MODERATE)
      end
    else
      severe ← mHBoostSevereJankThreshold config;
      Some (if wrap_u 32 numOfJankFrames <? severe then MODERATE else SEVERE).

Definition updateHeuristicBoost : St World unit :=
  records ← read mSessionRecords;
  r ← of_option records;
  maxDurationUs ← of_option (getMaxDuration r);
  match maxDurationUs, getAvgDuration r with
  | Some max, Some avg =>
      if avg <=? 0 then mret tt
      else
        let ratio := Binary64.div (Binary64.mul (Binary64.of_Z max) (Binary64.of_Z 1)) (Binary64.of_Z avg) in
        config ← getAdpfProfile;
        threshold ← of_option (mLowFrameRateThreshold config);
        isLowFPS ← of_option (isLowFrameRate r threshold);
        level ← read mJankyLevel;
        newLevel ← of_option (updateSessionJankState config level (getNumOfMissedCycles r) ratio isLowFPS);
        set_records records newLevel (wrap_u 32 (getNumOfMissedCycles r)) ;;
        tag ← read mSessTag;
        if decide (tag = SURFACEFLINGER) then
          fps ← of_option (getLatestFPS r); mret tt
        else mret tt
  | _, _ => mret tt
  end.

(** The floor and the ceiling of the next minimum clamp. *)
Definition uclamp_bounds (config : AdpfConfig) (level : SessionJankyLevel) (frames : Z) : option (Z * Z) :=
  if heuristic_on config then
    '(f1, f2) ← mHBoostUclampMinFloorRange config;
    '(c1, c2) ← mHBoostUclampMinCeilingRange config;
    let minFloor := Z.max (mUclampMinLow config) f1 in
    let maxFloor := Z.max (mUclampMinLow config) f2 in
    let minCeiling := Z.max (mUclampMinHigh config) c1 in
    let maxCeiling := Z.max (mUclampMinHigh config) c2 in
    match level with
    | LIGHT => Some (mUclampMinLow config, mUclampMinHigh config)
    | MODERATE =>
        moderate ← mHBoostModerateJankThreshold config;
        severe ← (if frames <? moderate then Some 0 else mHBoostSevereJankThreshold config);
        let factor := janky_factor frames moderate severe in
        let between lo hi :=
          z ← SF_trunc (Binary64.add (Binary64.of_Z lo)
                (Binary64.mul (Binary64.of_Z (wrap_u 32 (hi - lo))) factor));
          checked_u 32 z in
        floor ← between minFloor maxFloor;
        ceiling ← between minCeiling maxCeiling;
        Some (floor, ceiling)
    | SEVERE => Some (maxFloor, maxCeiling)
    end
  else Some (mUclampMinLow config, mUclampMinHigh config).

(** ** Operations *)

Definition hint_pause : St World status :=
  closed ← read mSessionClosed;
  if (closed : bool) then mret IllegalState
  else
    active ← desc is_active;
    if negb active then mret IllegalState
    else
      sid ← read mSessionId; p ← read mProcTag;
      manager (setThreadsFromPowerSession sid [] p) ;;
      set_active false ;;
      manager (pause sid) ;;
      mret Ok.

Definition hint_resume : St World status :=
  closed ← read mSessionClosed;
  if (closed : bool) then mret IllegalState
  else
    active ← desc is_active;
    if (active : bool) then mret IllegalState
    else
      sid ← read mSessionId; p ← read mProcTag; tids ← desc thread_ids;
      manager (setThreadsFromPowerSession sid tids p) ;;
      set_active true ;;
      manager (resume sid) ;;
      mret Ok.

Definition hint_close : St World status :=
  closed ← read mSessionClosed;
  if (closed : bool) then mret IllegalState
  else
    update (fun s => mkHint (mSessionId s) (mSessTag s) (mProcTag s) (mDescriptor s) (mLastUpdatedTime s)
      true (mSupportedHints s) (mModes s) (mAdpfProfile s) (mSessionRecords s) (mJankyLevel s)
      (mJankyFrameNum s)) ;;
    sid ← read mSessionId; p ← read mProcTag; tag ← read mSessTag;
    manager (removePowerSession sid p) ;;
    set_active false ;;
    manager (emit (UnregisterAdpfUpdateEvent (profile_tag p tag))) ;;
    mret Ok.

Definition hint_updateTargetWorkDuration (targetDurationNanos : Z) : St World status :=
  closed ← read mSessionClosed;
  if (closed : bool) then mret IllegalState
  else if targetDurationNanos <=? 0 then mret IllegalArgument
  else
    config ← getAdpfProfile;
    target ← of_option (to_int64 (times targetDurationNanos (mTargetTimeFactor config)));
    last ← desc targetNs;
    (if negb (target =? last) && heuristic_on config then
       diff ← of_option (checked_s 64 (target - last));
       dist ← of_option (checked_s 64 (Z.abs diff));
       limit ← of_option (checked_s 64 (Z.quot last 100 * kTargetDurationChangeThreshold));
       if limit <? dist then resetSessionHeuristicStates else mret tt
     else mret tt) ;;
    update_desc (fun d => mkHintDesc (tgid d) (uid d) target (thread_ids d) (pidControlVariable d) (is_active d)
      (update_count d) (integral_error d) (previous_error d)) ;;
    sid ← read mSessionId;
    manager (updateTargetWorkDuration sid CPU_VOTE_DEFAULT target) ;;
    mret Ok.

(** The frames of a report are recorded and the session judged by them. *)
Definition report_frames (actualDurations : list WorkDuration) : St World unit :=
  records ← read mSessionRecords;
  r ← of_option records;
  target ← desc targetNs; tag ← read mSessTag; game ← manager getGameModeEnableState;
  '(r', buckets) ← of_option (addReportedDurations r actualDurations target (mkBuckets 0 0 0 0 0 0)
     (bool_decide (tag = SURFACEFLINGER) && game));
  level ← read mJankyLevel; frames ← read mJankyFrameNum;
  set_records (Some r') level frames ;;
  sid ← read mSessionId;
  manager (updateHboostStatistics sid level (wrap_s 32 (Z.of_nat (length actualDurations)))) ;;
  manager (updateFrameBuckets sid buckets) ;;
  updateHeuristicBoost.

(** What follows the checks of [reportActualWorkDuration]. *)
Definition report_work (actualDurations : list WorkDuration) : St World status :=
  config ← getAdpfProfile;
  update_desc (fun d => mkHintDesc (tgid d) (uid d) (targetNs d) (thread_ids d) (pidControlVariable d)
    (is_active d) (wrap_u 64 (update_count d + 1)) (integral_error d) (previous_error d)) ;;
  isFirstFrame ← isTimeout;
  set_updated ;;
  (if (isFirstFrame : bool) then manager updateUniversalBoostMode else mret tt) ;;
  sid ← read mSessionId;
  manager (disableBoosts sid) ;;
  if negb (mPidOn config) then
    updatePidControlVariable (wrap_s 32 (mUclampMinHigh config)) true ;; mret Ok
  else
    (if heuristic_on config then report_frames actualDurations else mret tt) ;;
    output ← convertWorkDurationToBoostByPid actualDurations;
    level ← read mJankyLevel; frames ← read mJankyFrameNum;
    '(uclampMinFloor, uclampMinCeiling) ← of_option (uclamp_bounds config level frames);
    pid ← desc pidControlVariable;
    sum ← of_option (checked_s 32 (pid + wrap_s 32 output));
    updatePidControlVariable (Z.max (wrap_s 32 uclampMinFloor) (Z.min (wrap_s 32 uclampMinCeiling) sum)) true ;;
    mret Ok.

Definition hint_reportActualWorkDuration (actualDurations : list WorkDuration) : St World status :=
  closed ← read mSessionClosed;
  if (closed : bool) then mret IllegalState
  else
    target ← desc targetNs;
    if target =? 0 then mret IllegalState
    else if decide (actualDurations = []) then mret IllegalArgument
    else
      active ← desc is_active;
      if negb active then mret IllegalState else report_work actualDurations.

Definition setModeLocked (mode : Z) (enabled : bool) : St World status :=
  closed ← read mSessionClosed;
  if (closed : bool) then mret IllegalState
  else if decide (mode = mode_POWER_EFFICIENCY) then
    sid ← read mSessionId;
    manager (setPreferPowerEfficiency sid enabled) ;;
    modes ← read mModes;
    modes' ← of_option (arr_set modes mode enabled);
    update (fun s => mkHint (mSessionId s) (mSessTag s) (mProcTag s) (mDescriptor s) (mLastUpdatedTime s)
      (mSessionClosed s) (mSupportedHints s) modes' (mAdpfProfile s) (mSessionRecords s) (mJankyLevel s)
      (mJankyFrameNum s)) ;;
    set_updated ;;
    mret Ok
  else mret IllegalArgument.

Definition hint_setMode (mode : Z) (enabled : bool) : St World status := setModeLocked mode enabled.

(** The switch of [sendHint]: is the hint known. *)
Definition send_locked (hint : Z) : St World bool :=
  config ← getAdpfProfile;
  sid ← read mSessionId; target ← desc targetNs; pid ← desc pidControlVariable;
  t ← steady_now;
  if decide (hint = hint_CPU_LOAD_UP) then
    updatePidControlVariable pid true ;;
    d ← of_option (checked_s 64 (target * 2));
    manager (voteSet sid CPU_LOAD_UP (wrap_s 32 (mUclampMinLoadUp config)) kUclampMax t d) ;;
    mret true
  else if decide (hint = hint_CPU_LOAD_DOWN) then
    updatePidControlVariable (wrap_s 32 (mUclampMinLow config)) true ;; mret true
  else if decide (hint = hint_CPU_LOAD_RESET) then
    updatePidControlVariable (wrap_s 32 (Z.max (mUclampMinInit config) (wrap_u 32 pid))) false ;;
    d ← of_option (to_int64 (Binary64.div (times target (mStaleTimeFactor config)) d2));
    manager (voteSet sid CPU_LOAD_RESET (wrap_s 32 (mUclampMinLoadReset config)) kUclampMax t d) ;;
    mret true
  else if decide (hint = hint_CPU_LOAD_RESUME) then
    d ← of_option (to_int64 (Binary64.div (times target (mStaleTimeFactor config)) d2));
    manager (voteSet sid CPU_LOAD_RESUME pid kUclampMax t d) ;;
    mret true
  else if decide (hint = hint_POWER_EFFICIENCY) then
    r ← setModeLocked mode_POWER_EFFICIENCY true; mret true
  else mret false.

Definition hint_sendHint (hint : Z) : St World status :=
  closed ← read mSessionClosed;
  if (closed : bool) then mret IllegalState
  else
    target ← desc targetNs;
    if target =? 0 then mret IllegalState
    else
      known ← send_locked hint;
      if negb known then mret IllegalArgument
      else
        set_updated ;;
        tryToSendPowerHint (SessionHint_toString hint) ;;
        mret Ok.

Definition hint_setThreads (threadIds : list Z) : St World status :=
  closed ← read mSessionClosed;
  if (closed : bool) then mret IllegalState
  else if decide (threadIds = []) then mret IllegalArgument
  else
    update_desc (fun d => mkHintDesc (tgid d) (uid d) (targetNs d) threadIds (pidControlVariable d)
      (is_active d) (update_count d) (integral_error d) (previous_error d)) ;;
    sid ← read mSessionId; p ← read mProcTag;
    manager (setThreadsFromPowerSession sid threadIds p) ;;
    config ← getAdpfProfile;
    updatePidControlVariable (wrap_s 32 (mUclampMinInit config)) true ;;
    mret Ok.

Definition getSessionConfig : St World Z := read mSessionId.
Definition getSessionTag : St World Z := read mSessTag.

(** The members a constructor initialises; [sid] is the incremented counter. *)
Definition session_init (h : list effect) (sid pid_ uid_ : Z) (threadIds : list Z) (durationNs tag t : Z)
    : option PowerHintSession :=
  let p := getProcessTag pid_ in
  let config := GetAdpfProfileOf h (profile_tag p tag) in
  records ← (if heuristic_on config then
               n ← mMaxRecordsNum config; f ← mJankCheckTimeFactor config; Some (Some (records_new n f))
             else Some None);
  Some (mkHint sid tag p (mkHintDesc pid_ uid_ durationNs threadIds 0 true 0 0 0) t false ∅
          (replicate (Z.to_nat SessionMode_size) false) (Some config) records LIGHT 0).

(** The body of the constructor. *)
Definition session_start (idString : string) (threadIds : list Z) : St World unit :=
  s ← read id;
  let d := mDescriptor s in
  manager (emit (RegisterAdpfUpdateEvent (profile_tag (mProcTag s) (mSessTag s)))) ;;
  set_updated ;;
  manager (addPowerSession idString
    (mkDesc (mSessionId s) (tgid d) (uid d) (is_active d) (targetNs d)) threadIds (mProcTag s)) ;;
  config ← getAdpfProfile;
  t ← steady_now;
  dur ← of_option (to_int64 (Binary64.div (times (targetNs d) (mStaleTimeFactor config)) d2));
  manager (voteSet (mSessionId s) CPU_LOAD_RESET (wrap_s 32 (mUclampMinLoadReset config)) kUclampMax t dur) ;;
  manager (voteSet (mSessionId s) CPU_VOTE_DEFAULT (wrap_s 32 (mUclampMinInit config)) kUclampMax t (targetNs d)).
End Session.

(** ** Specification: how a report is judged *)

Section Judgement.
Context `{HintEnv}.

(** How janky a session is, with [missed] janky frames among the recent ones,
    from the level it had, the maximum duration over the average, and whether its
    frame rate is low. *)
Inductive jank_level (config : AdpfConfig) (old : SessionJankyLevel) (missed : Z) (ratio : spec_float) :
    bool -> SessionJankyLevel -> Prop :=
  | JankLowRate : jank_level config old missed ratio true LIGHT
  | JankSevere m k : mHBoostModerateJankThreshold config = Some m -> mHBoostSevereJankThreshold config = Some k ->
      m <= missed -> k <= missed -> jank_level config old missed ratio false SEVERE
  | JankModerate m k : mHBoostModerateJankThreshold config = Some m -> mHBoostSevereJankThreshold config = Some k ->
      m <= missed < k -> jank_level config old missed ratio false MODERATE
  | JankNone m : mHBoostModerateJankThreshold config = Some m -> missed < m -> old = LIGHT ->
      jank_level config old missed ratio false LIGHT
  | JankOver m off : mHBoostModerateJankThreshold config = Some m -> mHBoostOffMaxAvgDurRatio config = Some off ->
      missed < m -> old <> LIGHT -> SFltb ratio off = true -> jank_level config old missed ratio false LIGHT
  | JankUneven m off : mHBoostModerateJankThreshold config = Some m -> mHBoostOffMaxAvgDurRatio config = Some off ->
      missed < m -> old <> LIGHT -> SFltb ratio off = false -> jank_level config old missed ratio false MODERATE.

(** What a report makes of the session's records, level and count of janky
    frames, with the game mode [game]. *)
Inductive judged (config : AdpfConfig) (s : PowerHintSession) (game : bool) (actual : list WorkDuration) :
    option SessionRecords -> SessionJankyLevel -> Z -> Prop :=
  | JudgedOff : heuristic_on config = false ->
      judged config s game actual (mSessionRecords s) (mJankyLevel s) (mJankyFrameNum s)
  | JudgedVoid r r' b max : heuristic_on config = true -> mSessionRecords s = Some r ->
      addReportedDurations r actual (targetNs (mDescriptor s)) (mkBuckets 0 0 0 0 0 0)
        (bool_decide (mSessTag s = SURFACEFLINGER) && game) = Some (r', b) ->
      getMaxDuration r' = Some max ->
      (max = None \/ getAvgDuration r' = None \/ exists avg, getAvgDuration r' = Some avg /\ avg <= 0) ->
      judged config s game actual (Some r') (mJankyLevel s) (mJankyFrameNum s)
  | JudgedOn r r' b max avg fps low level : heuristic_on config = true -> mSessionRecords s = Some r ->
      addReportedDurations r actual (targetNs (mDescriptor s)) (mkBuckets 0 0 0 0 0 0)
        (bool_decide (mSessTag s = SURFACEFLINGER) && game) = Some (r', b) ->
      getMaxDuration r' = Some (Some max) -> getAvgDuration r' = Some avg -> 0 < avg ->
      mLowFrameRateThreshold config = Some fps -> isLowFrameRate r' fps = Some low ->
      let missed := wrap_u 32 (getNumOfMissedCycles r') in
      jank_level config (mJankyLevel s) missed
        (Binary64.div (Binary64.mul (Binary64.of_Z max) (Binary64.of_Z 1)) (Binary64.of_Z avg)) low level ->
      (mSessTag s = SURFACEFLINGER -> is_Some (getLatestFPS r')) ->
      judged config s game actual (Some r') level missed.

(** [lo + (hi - lo) * ((frames - m) / (k - m))], and [lo + 0.0] below [m]. *)
Definition interpolated (lo hi frames m k z : Z) : Prop :=
  SF_trunc (Binary64.add (Binary64.of_Z lo)
    (Binary64.mul (Binary64.of_Z (wrap_u 32 (hi - lo))) (janky_factor frames m k))) = Some z /\ 0 <= z < 2 ^ 32.

(** The floor and the ceiling of the clamp of a session that is that janky. *)
Inductive clamp_range (config : AdpfConfig) (level : SessionJankyLevel) (frames : Z) : Z -> Z -> Prop :=
  | RangePlain : heuristic_on config = false ->
      clamp_range config level frames (mUclampMinLow config) (mUclampMinHigh config)
  | RangeLight f c : heuristic_on config = true -> mHBoostUclampMinFloorRange config = Some f ->
      mHBoostUclampMinCeilingRange config = Some c -> level = LIGHT ->
      clamp_range config level frames (mUclampMinLow config) (mUclampMinHigh config)
  | RangeModerate f1 f2 c1 c2 m k floor ceiling : heuristic_on config = true ->
      mHBoostUclampMinFloorRange config = Some (f1, f2) -> mHBoostUclampMinCeilingRange config = Some (c1, c2) ->
      level = MODERATE -> mHBoostModerateJankThreshold config = Some m ->
      mHBoostSevereJankThreshold config = Some k ->
      interpolated (Z.max (mUclampMinLow config) f1) (Z.max (mUclampMinLow config) f2) frames m k floor ->
      interpolated (Z.max (mUclampMinHigh config) c1) (Z.max (mUclampMinHigh config) c2) frames m k ceiling ->
      clamp_range config level frames floor ceiling
  | RangeSevere f1 f2 c1 c2 : heuristic_on config = true ->
      mHBoostUclampMinFloorRange config = Some (f1, f2) -> mHBoostUclampMinCeilingRange config = Some (c1, c2) ->
      level = SEVERE ->
      clamp_range config level frames (Z.max (mUclampMinLow config) f2) (Z.max (mUclampMinHigh config) c2).

(** The code agrees. *)
Lemma jank_level_spec config old missed ratio low level :
  jank_level config old (wrap_u 32 missed) ratio low level ->
  updateSessionJankState config old missed ratio low = Some level.
Proof.
  intros []; unfold updateSessionJankState; [done|..];
    repeat match goal with Hx : _ = Some _ |- _ => rewrite Hx; cbn [mbind option_bind]; clear Hx end.
  all: repeat match goal with |- context [?a <? ?b] => destruct (Z.ltb_spec a b); try lia end.
  all: destruct old; try done; by repeat match goal with Hx : SFltb _ _ = _ |- _ => rewrite Hx end.
Qed.

Lemma janky_factor_below frames m k : frames < m -> janky_factor frames m 0 = janky_factor frames m k.
Proof. intros Hlt. unfold janky_factor. by rewrite (proj2 (Z.ltb_lt _ _) Hlt). Qed.

Lemma clamp_range_spec config level frames floor ceiling :
  clamp_range config level frames floor ceiling -> uclamp_bounds config level frames = Some (floor, ceiling).
Proof.
  intros [Hoff|f c Hon Hf Hc ->|f1 f2 c1 c2 m k floor' ceiling' Hon Hf Hc -> Hm Hk [Hz1 Hr1] [Hz2 Hr2]
         |f1 f2 c1 c2 Hon Hf Hc ->]; unfold uclamp_bounds.
  - by rewrite Hoff.
  - rewrite Hon, Hf, Hc. by destruct f, c.
  - rewrite Hon, Hf, Hc, Hm. cbn [mbind option_bind].
    destruct (Z.ltb_spec frames m) as [Hlt|Hge].
    + cbn [mbind option_bind]. cbv zeta. rewrite (janky_factor_below frames m k Hlt), Hz1, Hz2.
      cbn [mbind option_bind]. unfold checked_u. by rewrite !decide_True.
    + rewrite Hk. cbn [mbind option_bind]. cbv zeta. rewrite Hz1, Hz2. cbn [mbind option_bind].
      unfold checked_u. by rewrite !decide_True.
  - by rewrite Hon, Hf, Hc.
Qed.
End Judgement.

(** ** Lemmas: the controller *)

Section Controller.
Context `{HintEnv}.

Lemma window_start_range size len : 0 <= size -> 0 < len -> 0 <= window_start size len < len.
Proof. unfold window_start. intros Hs Hl. destruct (Z.eqb_spec size 0), (Z.ltb_spec len size); simpl; lia. Qed.

Lemma pid_step_integral config target dt p i_start d i a s s' :
  pid_step config target dt p i_start d i a s = Some s' -> getPidILowDivI config <= getPidIHighDivI config ->
  i_start <= i -> getPidILowDivI config <= integral s' <= getPidIHighDivI config.
Proof.
  intros Hs Hlh Hi. unfold pid_step in Hs. rewrite (proj2 (Z.leb_le i_start i) Hi) in Hs.
  repeat (apply bind_Some in Hs as (? & ? & Hs)). injection Hs as <-. cbn.
  repeat match goal with Hb : _ ≫= _ = Some _ |- _ => apply bind_Some in Hb as (? & ? & Hb) end.
  simplify_eq. lia.
Qed.

(** The last sample is in every window, so the integral ends clamped. *)
Lemma pid_loop_integral config target dt p i_start d : forall actual i s s',
  pid_loop config target dt p i_start d i actual s = Some s' -> actual <> [] ->
  i_start < i + Z.of_nat (length actual) -> getPidILowDivI config <= getPidIHighDivI config ->
  getPidILowDivI config <= integral s' <= getPidIHighDivI config.
Proof.
  induction actual as [|a rest IH]; intros i s s' Hl Hne Hlen Hlh; [done|].
  cbn [pid_loop] in Hl. apply bind_Some in Hl as (s1 & H1 & Hl). cbn [length] in Hlen.
  destruct rest as [|b rest].
  - injection Hl as <-. eapply pid_step_integral; [done|done|]. cbn [length] in Hlen. lia.
  - eapply IH; [done|done|lia|done].
Qed.

Lemma pid_output_integral config target level frames i0 p0 actual output s :
  pid_output config target level frames i0 p0 actual = Some (output, s) -> actual <> [] ->
  0 <= mSamplingWindowP config -> 0 <= mSamplingWindowI config -> 0 <= mSamplingWindowD config ->
  getPidILowDivI config <= getPidIHighDivI config ->
  getPidILowDivI config <= integral s <= getPidIHighDivI config.
Proof.
  intros Ho Hne Hp Hi Hd Hlh. unfold pid_output in Ho. apply bind_Some in Ho as (s1 & Hl & Ho).
  assert (s = s1) as ->.
  { repeat (apply bind_Some in Ho as (? & ? & Ho)). case_decide; by simplify_eq. }
  assert (0 < Z.of_nat (length actual)) as Hlen by (destruct actual; [done|cbn; lia]).
  pose proof (window_start_range _ _ Hp Hlen). pose proof (window_start_range _ _ Hi Hlen).
  pose proof (window_start_range _ _ Hd Hlen).
  eapply pid_loop_integral; [exact Hl| |rewrite length_drop; lia|done].
  intros Hnil. apply (f_equal length) in Hnil. rewrite length_drop in Hnil. cbn in Hnil. lia.
Qed.

(** A target below a tenth of a millisecond has no output. *)
Lemma pid_output_tiny config target level frames i0 p0 actual :
  Z.abs target < 100000 -> pid_output config target level frames i0 p0 actual = None.
Proof.
  intros Ht. assert (ns_to_100us target = 0) as Hdt by (unfold ns_to_100us; apply Z.quot_small_iff; lia).
  destruct (pid_output _ _ _ _ _ _ _) as [[o s]|] eqn:Ho; [|done]. unfold pid_output in Ho.
  rewrite Hdt in Ho. repeat (apply bind_Some in Ho as (? & _ & Ho)). by rewrite decide_True in Ho.
Qed.

(** ** Lemmas: the manager's part *)

Lemma runs_manager {A} (m : St Manager A) w (Q : A -> World -> Prop) :
  runs (manager m) w Q <-> runs m (w_mgr w) (fun a s' => Q a (mkWorld (w_session w) s')).
Proof. unfold runs, manager. by destruct (m (w_mgr w)) as [[a s']|]. Qed.

Lemma runs_read {A} (f : PowerHintSession -> A) w (Q : A -> World -> Prop) :
  runs (read f) w Q <-> Q (f (w_session w)) w.
Proof. done. Qed.

Lemma runs_update f w (Q : unit -> World -> Prop) :
  runs (update f) w Q <-> Q tt (mkWorld (f (w_session w)) (w_mgr w)).
Proof. done. Qed.

Lemma runs_profile w config (Q : AdpfConfig -> World -> Prop) :
  mAdpfProfile (w_session w) = Some config -> Q config w -> runs getAdpfProfile w Q.
Proof. intros Hc HQ. unfold getAdpfProfile. apply runs_bind, runs_read. by rewrite Hc. Qed.

(** Operations that keep the sessions, their values and their threads, and
    clamp nothing. *)
Definition light {A} (m : St Manager A) : Prop :=
  forall s a s', m s = Some (a, s') ->
    mSessions (mSessionTaskMap s') = mSessions (mSessionTaskMap s) /\
    values (mSessionTaskMap s') = values (mSessionTaskMap s) /\ mgr_now s' = mgr_now s /\
    mGameModeEnabled s' = mGameModeEnabled s /\
    exists h, history s' = history s ++ h /\ Forall (fun e => is_clamp e = false) h.

Lemma light_bind {A B} (m : St Manager A) (k : A -> St Manager B) :
  light m -> (forall a, light (k a)) -> light (m ≫= k).
Proof.
  intros Hm Hk s b s'. unfold mbind, St_bind. destruct (m s) as [[a s1]|] eqn:H1; [|done]. intros H2.
  destruct (Hm _ _ _ H1) as (Ha1 & Hb1 & Hn1 & Hg1 & h1 & Hh1 & Hf1).
  destruct (Hk _ _ _ _ H2) as (Ha2 & Hb2 & Hn2 & Hg2 & h2 & Hh2 & Hf2).
  split_and!; [congruence..|]. exists (h1 ++ h2). split; [by rewrite Hh2, Hh1, app_assoc|by apply Forall_app].
Qed.

Lemma light_same {A} (m : St Manager A) :
  (forall s a s', m s = Some (a, s') -> mSessions (mSessionTaskMap s') = mSessions (mSessionTaskMap s) /\
    values (mSessionTaskMap s') = values (mSessionTaskMap s) /\ mgr_now s' = mgr_now s /\
    mGameModeEnabled s' = mGameModeEnabled s /\ history s' = history s) -> light m.
Proof.
  intros Hm s a s' Hr. destruct (Hm _ _ _ Hr) as (? & ? & ? & ? & Hh). split_and!; [done..|].
  exists []. split; [by rewrite app_nil_r|done].
Qed.

Lemma light_emit e : is_clamp e = false -> light (emit e).
Proof. intros He s [] s' [= <-]. split_and!; [done..|]. exists [e]. split; [done|by repeat constructor]. Qed.

Lemma light_for_each {A} (l : list A) (f : A -> St Manager unit) :
  (forall x, light (f x)) -> light (for_each l f).
Proof.
  intros Hf. induction l as [|x l IH]; cbn [for_each].
  - apply light_same. by intros s a s' [= <- <-].
  - by apply light_bind.
Qed.

Lemma light_of_option {A} (o : option A) : light (of_option o).
Proof. apply light_same. intros s a s'. unfold of_option. destruct o; simpl; [|done]. by intros [= <- <-]. Qed.
End Controller.

Ltac solve_light :=
  repeat lazymatch goal with
  | |- forall _, _ => intro
  | |- light (_ ≫= _) => apply light_bind
  | |- light (match ?x with _ => _ end) => destruct x
  | |- light (for_each _ _) => apply light_for_each
  | |- light (emit _) => by apply light_emit
  | |- light (of_option _) => apply light_of_option
  | |- light (mret _) => apply light_same; by intros ? ? ? [= <- <-]
  | |- light (gets _) => apply light_same; by intros ? ? ? [= <- <-]
  | |- light (store_votes _ _) => apply light_same; by intros ? ? ? [= <- <-]
  | |- light ?m => let h := head_of m in unfold h
  end.

Section Reports.
Context `{HintEnv, !PowerEnvLaws}.

Lemma boost_light : light updateUniversalBoostMode.
Proof. solve_light. Qed.

Lemma disable_light sid : light (disableBoosts sid).
Proof. solve_light. Qed.

Lemma runs_light {A} (m : St Manager A) s (Q : A -> Manager -> Prop) :
  light m -> quietly m -> mgr_ok s ->
  (forall a s', mgr_ok s' -> mSessions (mSessionTaskMap s') = mSessions (mSessionTaskMap s) ->
     values (mSessionTaskMap s') = values (mSessionTaskMap s) -> mgr_now s' = mgr_now s ->
     mGameModeEnabled s' = mGameModeEnabled s ->
     (exists h, history s' = history s ++ h /\ Forall (fun e => is_clamp e = false) h) -> Q a s') ->
  runs m s Q.
Proof.
  intros Hl Hq Hs HQ. specialize (Hq s Hs). unfold runs in *.
  destruct (m s) as [[a s']|] eqn:Hm; [|done]. destruct (Hl _ _ _ Hm) as (? & ? & ? & ? & ?).
  apply HQ; [by destruct Hq|done..].
Qed.

(** A session whose threads are to be clamped when a vote is set. *)
Record clampable (s : Manager) (sid : Z) (entry : ValEntry) (e : SessionValueEntry) : Prop := {
  cl_ok : mgr_ok s;
  cl_entry : mSessions (mSessionTaskMap s) !! sid = Some entry;
  cl_value : values (mSessionTaskMap s) !! val entry = Some e;
  cl_nodup : NoDup (linkedTasks entry)
}.

(** The kernel's clamps are in use, whatever was done before. *)
Definition clamps_on : Prop :=
  forall h, mUclampMinOn (GetAdpfProfile h) = true /\ mUclampMaxEfficientBase (GetAdpfProfile h) = None.

(** A vote is put into effect: one clamp of each thread, of at least what an
    active session asks for. *)
Definition in_effect (s s' : Manager) (entry : ValEntry) (e : SessionValueEntry) (value : Z) : Prop :=
  exists h calls, history s' = history s ++ h ++ clamp_effects calls /\
    Forall (fun x => is_clamp x = false) h /\ calls.*1 = linkedTasks entry /\
    (isActive e = true -> Forall (fun c => Z.min value kUclampMax <= uclampMin c.2) calls).

Lemma voteSet_in_effect sid v value t dur s entry e :
  clampable s sid entry e -> clamps_on -> in_s 64 (t + dur) -> 0 <= dur ->
  runs (voteSet sid v value kUclampMax t dur) s (fun _ s' => in_effect s s' entry e value).
Proof.
  intros [Hs Hse He Hnd] Hon Hin Hdur. destruct (Hon (history s)) as [Hmin Hbase].
  destruct (tk_votes _ (mk_tasks s Hs) _ _ He) as [vs Hvs].
  destruct (addVote_spec _ sid entry e vs (vote_int v) value kUclampMax t dur (mk_tasks s Hs) Hse He Hvs)
    as (Hadd & _ & _).
  eapply runs_mono; [|by eapply voteSet_effect]. intros [] s' (calls & Hc & Hh & _).
  destruct (vote_calls_spec s _ sid v value kUclampMax t dur entry e _ calls Hs Hse He Hdur Hbase
    (efficient_pair (history s)) Hadd Hc) as [Hfst Hall].
  exists [], calls. split_and!; [done|done|done|]. intros Hact.
  eapply Forall_impl; [exact Hall|]. intros c [_ Hge]. by apply Hge.
Qed.

(** The vote of the controller's output. *)
Record vote_timing (w : World) (config : AdpfConfig) (stale : Z) : Prop := {
  vt_profile : mAdpfProfile (w_session w) = Some config;
  vt_stale : to_int64 (times (targetNs (mDescriptor (w_session w))) (mStaleTimeFactor config)) = Some stale;
  vt_nonneg : 0 <= stale;
  vt_limit : in_s 64 (mReportingRateLimitNs config * 2);
  vt_time : in_s 64 (mgr_now (w_mgr w) + Z.max stale (mReportingRateLimitNs config * 2))
}.

Lemma update_pid_spec value w config stale entry e :
  vote_timing w config stale -> clampable (w_mgr w) (mSessionId (w_session w)) entry e -> clamps_on ->
  runs (updatePidControlVariable value true) w (fun _ w' =>
    in_effect (w_mgr w) (w_mgr w') entry e value /\
    mSessionClosed (w_session w') = mSessionClosed (w_session w) /\
    mDescriptor (w_session w') = (let d := mDescriptor (w_session w) in
      mkHintDesc (tgid d) (uid d) (targetNs d) (thread_ids d) value (is_active d) (update_count d)
        (integral_error d) (previous_error d)) /\
    mSessionRecords (w_session w') = mSessionRecords (w_session w) /\
    mJankyLevel (w_session w') = mJankyLevel (w_session w) /\
    mJankyFrameNum (w_session w') = mJankyFrameNum (w_session w)).
Proof.
  intros [Hp Hst Hnn Hl Ht] Hc Hon. unfold updatePidControlVariable, set_pid, update_desc, desc, steady_now, now.
  apply runs_bind, runs_update, runs_bind. eapply runs_profile; [exact Hp|].
  apply runs_bind, runs_read, runs_bind, runs_read, runs_bind, runs_manager, runs_gets.
  apply runs_bind, runs_of_option. exists stale. split; [exact Hst|].
  apply runs_bind, runs_of_option. eexists. split; [by apply checked_s_in|].
  apply runs_manager. eapply runs_mono; [|eapply voteSet_in_effect; [exact Hc|done|exact Ht|lia]].
  intros [] s' Heff. by split.
Qed.

(** What comes of a report: the records, the level and the count of janky
    frames, the controller's output and sums, and the range of the clamp. *)
Record Verdict := mkVerdict {
  v_records : option SessionRecords; v_level : SessionJankyLevel; v_frames : Z;
  v_output : Z; v_pid : PidState; v_floor : Z; v_ceiling : Z
}.

(** A report the session can act on, with the verdict: the session is open and
    active, its configuration uses the controller, and no arithmetic on the way
    overflows. *)
Record reportable (w : World) (config : AdpfConfig) (actual : list WorkDuration) (stale : Z) (v : Verdict)
    (entry : ValEntry) (e : SessionValueEntry) : Prop := {
  rp_open : mSessionClosed (w_session w) = false;
  rp_active : is_active (mDescriptor (w_session w)) = true;
  rp_some : actual <> [];
  rp_pid : mPidOn config = true;
  rp_timing : vote_timing w config stale;
  rp_last : in_s 64 (mLastUpdatedTime (w_session w) + stale);
  rp_judged : judged config (w_session w) (mGameModeEnabled (w_mgr w)) actual (v_records v) (v_level v) (v_frames v);
  rp_output : (let d := mDescriptor (w_session w) in
    pid_output config (targetNs d) (v_level v) (v_frames v)
      (integral_error d) (previous_error d) (durationNanos <$> actual) = Some (v_output v, v_pid v));
  rp_range : clamp_range config (v_level v) (v_frames v) (v_floor v) (v_ceiling v);
  rp_sum : in_s 32 (pidControlVariable (mDescriptor (w_session w)) + wrap_s 32 (v_output v));
  rp_session : clampable (w_mgr w) (mSessionId (w_session w)) entry e
}.

(** The value the session votes for. *)
Definition next_min (v : Verdict) (pid : Z) : Z :=
  Z.max (wrap_s 32 (v_floor v)) (Z.min (wrap_s 32 (v_ceiling v)) (pid + wrap_s 32 (v_output v))).

(** The judgement reads these members only. *)
Lemma judged_same config s s' game actual r level frames :
  mSessionRecords s' = mSessionRecords s -> mJankyLevel s' = mJankyLevel s -> mJankyFrameNum s' = mJankyFrameNum s ->
  mSessTag s' = mSessTag s -> targetNs (mDescriptor s') = targetNs (mDescriptor s) ->
  judged config s game actual r level frames -> judged config s' game actual r level frames.
Proof.
  intros Hr Hl Hf Htag Htar []; [rewrite <-Hr, <-Hl, <-Hf; by apply JudgedOff|rewrite <-Hl, <-Hf|].
  - eapply JudgedVoid; rewrite ?Hr, ?Htag, ?Htar; eauto.
  - eapply JudgedOn; rewrite ?Hr, ?Htag, ?Htar, ?Hl; eauto.
Qed.

(** Assigning to members of the session's value other than its id and votes. *)
Lemma runs_member sid (f : SessionValueEntry -> SessionValueEntry) s entry e (Q : unit -> Manager -> Prop) :
  clampable s sid entry e ->
  (forall e, sessionId (f e) = sessionId e /\ votes_ptr (f e) = votes_ptr e) ->
  (forall s', clampable s' sid entry (f e) -> mgr_now s' = mgr_now s -> history s' = history s -> Q tt s') ->
  runs (sess ← find sid; match sess with None => mret tt | Some p => x ← deref p; store p (f x) end) s Q.
Proof.
  intros [Hok Hse He Hnd] Hf HQ. destruct (Hf e) as [Hid Hptr].
  pose proof (store_quiet s _ e (f e) Hok He Hid Hptr) as Hq.
  apply runs_bind, runs_find. rewrite Hse. apply runs_bind. eapply runs_deref; [exact He|].
  unfold store in *. apply runs_modify in Hq as [Hok' _]. apply runs_modify, HQ; [|done..].
  split; [exact Hok'|exact Hse| |exact Hnd]. cbn. apply lookup_insert_eq.
Qed.

(** The heuristics change the records, the level and the count, and the value
    of the session in members that say nothing of its votes. *)
Lemma heuristics_spec w config actual r level frames entry e :
  mAdpfProfile (w_session w) = Some config ->
  judged config (w_session w) (mGameModeEnabled (w_mgr w)) actual r level frames ->
  clampable (w_mgr w) (mSessionId (w_session w)) entry e ->
  runs (if heuristic_on config then report_frames actual else mret tt) w (fun _ w' =>
    w_session w' = with_records r level frames (w_session w) /\
    exists e', isActive e' = isActive e /\ clampable (w_mgr w') (mSessionId (w_session w)) entry e' /\
      mgr_now (w_mgr w') = mgr_now (w_mgr w) /\ history (w_mgr w') = history (w_mgr w)).
Proof.
  intros Hp Hj Hc.
  assert (forall Q : unit -> World -> Prop, forall r0 r' b,
    heuristic_on config = true -> mSessionRecords (w_session w) = Some r0 ->
    addReportedDurations r0 actual (targetNs (mDescriptor (w_session w))) (mkBuckets 0 0 0 0 0 0)
      (bool_decide (mSessTag (w_session w) = SURFACEFLINGER) && mGameModeEnabled (w_mgr w)) = Some (r', b) ->
    (forall w', w_session w' = with_records (Some r') (mJankyLevel (w_session w)) (mJankyFrameNum (w_session w)) (w_session w) ->
       (exists e', isActive e' = isActive e /\ clampable (w_mgr w') (mSessionId (w_session w)) entry e' /\
         mgr_now (w_mgr w') = mgr_now (w_mgr w) /\ history (w_mgr w') = history (w_mgr w)) ->
       runs updateHeuristicBoost w' Q) ->
    runs (if heuristic_on config then report_frames actual else mret tt) w Q) as Hrun.
  { intros Q r0 r' b Hon Hr Hadd HQ. rewrite Hon. unfold report_frames, desc.
    apply runs_bind, runs_read. rewrite Hr. apply runs_bind, runs_of_option. eexists. split; [reflexivity|].
    do 2 (apply runs_bind, runs_read). apply runs_bind, runs_manager, runs_gets. cbn [w_session w_mgr].
    apply runs_bind, runs_of_option. eexists. split; [exact Hadd|]. cbn beta iota.
    do 2 (apply runs_bind, runs_read). unfold set_records. apply runs_bind, runs_update. cbn [w_session w_mgr].
    apply runs_bind, runs_read. cbn [w_session with_records mSessionId].
    unfold updateHboostStatistics. apply runs_bind, runs_manager.
    eapply runs_member; [exact Hc|done|]. intros s1 Hc1 Hn1 Hh1. unfold updateFrameBuckets.
    apply runs_bind, runs_manager. eapply runs_member; [exact Hc1|done|]. intros s2 Hc2 Hn2 Hh2.
    apply HQ; [done|]. eexists. split; [|split; [exact Hc2|cbn in *; split; congruence]]. done. }
  destruct Hj as [Hoff|r0 r' b max Hon Hr Hadd Hmax Hnone|r0 r' b max avg fps low level Hon Hr Hadd Hmax Havg Hpos
    Hfps Hlow missed Hlevel Hsf].
  - rewrite Hoff. apply runs_ret. split; [by destruct (w_session w)|]. exists e. by split_and!.
  - eapply Hrun; [done|exact Hr|exact Hadd|]. intros w1 Hw1 He'. unfold updateHeuristicBoost.
    apply runs_bind, runs_read. rewrite Hw1. cbn [with_records mSessionRecords].
    apply runs_bind, runs_of_option. eexists. split; [reflexivity|].
    apply runs_bind, runs_of_option. eexists. split; [exact Hmax|].
    destruct Hnone as [->|[->|(avg & -> & Havg)]]; [by apply runs_ret|by destruct max; apply runs_ret|].
    destruct max; [|by apply runs_ret]. rewrite (proj2 (Z.leb_le _ _) Havg). by apply runs_ret.
  - eapply Hrun; [done|exact Hr|exact Hadd|]. intros w1 Hw1 He'. unfold updateHeuristicBoost.
    apply runs_bind, runs_read. rewrite Hw1. cbn [with_records mSessionRecords].
    apply runs_bind, runs_of_option. eexists. split; [reflexivity|].
    apply runs_bind, runs_of_option. eexists. split; [exact Hmax|]. rewrite Havg, (proj2 (Z.leb_gt _ _) Hpos).
    cbv zeta. apply runs_bind. eapply runs_profile; [rewrite Hw1; exact Hp|].
    apply runs_bind, runs_of_option. eexists. split; [exact Hfps|].
    apply runs_bind, runs_of_option. eexists. split; [exact Hlow|].
    apply runs_bind, runs_read. rewrite Hw1. cbn [with_records mJankyLevel].
    apply runs_bind, runs_of_option. eexists. split; [by apply jank_level_spec|].
    unfold set_records. apply runs_bind, runs_update. apply runs_bind, runs_read. rewrite Hw1.
    cbn [w_session with_records mSessTag].
    assert (with_records (Some r') level missed
      (with_records (Some r') (mJankyLevel (w_session w)) (mJankyFrameNum (w_session w)) (w_session w)) =
      with_records (Some r') level missed (w_session w)) as Heq by done.
    case_decide as Htag; [|apply runs_ret; by split; [exact Heq|]].
    destruct (Hsf Htag) as [z Hz]. apply runs_bind, runs_of_option. exists z. split; [exact Hz|].
    apply runs_ret. by split; [exact Heq|].
Qed.

Lemma light_in_effect s1 s2 s3 entry e value :
  (exists h, history s2 = history s1 ++ h /\ Forall (fun x => is_clamp x = false) h) ->
  in_effect s2 s3 entry e value -> in_effect s1 s3 entry e value.
Proof.
  intros (h1 & Hh1 & Hf1) (h2 & calls & Hh2 & Hf2 & Hc). exists (h1 ++ h2), calls.
  split; [by rewrite Hh2, Hh1, !app_assoc|]. split; [by apply Forall_app|done].
Qed.

Lemma in_effect_same s s' entry e e' value :
  isActive e' = isActive e -> in_effect s s' entry e' value -> in_effect s s' entry e value.
Proof. intros He. unfold in_effect. by rewrite He. Qed.

(** What the session is after a report. *)
Definition reported (v : Verdict) (w w' : World) : Prop :=
  let pid := next_min v (pidControlVariable (mDescriptor (w_session w))) in
  mSessionRecords (w_session w') = v_records v /\ mJankyLevel (w_session w') = v_level v /\
  mJankyFrameNum (w_session w') = v_frames v /\
  pidControlVariable (mDescriptor (w_session w')) = pid /\
  integral_error (mDescriptor (w_session w')) = integral (v_pid v) /\
  previous_error (mDescriptor (w_session w')) = previous (v_pid v).

Lemma report_work_spec w config actual stale v entry e :
  reportable w config actual stale v entry e -> clamps_on ->
  runs (report_work actual) w (fun r w' => r = Ok /\ reported v w w' /\
    in_effect (w_mgr w) (w_mgr w') entry e (next_min v (pidControlVariable (mDescriptor (w_session w))))).
Proof.
  intros [Hopen Hact Hsome Hpid [Hp Hst Hnn Hl Ht] Hlast Hj Hout Hrange Hsum [Hs Hse He Hnd]] Hon.
  unfold report_work. apply runs_bind. eapply runs_profile; [exact Hp|].
  unfold update_desc at 1. apply runs_bind, runs_update.
  unfold isTimeout, steady_now, now, desc. apply runs_bind, runs_bind, runs_manager, runs_gets.
  apply runs_bind. eapply runs_profile; [exact Hp|]. apply runs_bind, runs_read, runs_bind, runs_read.
  apply runs_bind, runs_of_option. exists stale. split; [exact Hst|].
  apply runs_bind, runs_of_option. eexists. split; [by apply checked_s_in|]. apply runs_ret.
  unfold set_updated, steady_now, now. apply runs_bind, runs_bind, runs_manager, runs_gets, runs_update.
  match goal with |- runs _ ?x _ => set (w1 := x) end.
  apply runs_bind. eapply (runs_mono _ _ (fun _ w' => w_session w' = w_session w1 /\ mgr_ok (w_mgr w') /\
    mSessions (mSessionTaskMap (w_mgr w')) = mSessions (mSessionTaskMap (w_mgr w)) /\
    values (mSessionTaskMap (w_mgr w')) = values (mSessionTaskMap (w_mgr w)) /\
    mgr_now (w_mgr w') = mgr_now (w_mgr w) /\ mGameModeEnabled (w_mgr w') = mGameModeEnabled (w_mgr w) /\
    exists h, history (w_mgr w') = history (w_mgr w) ++ h /\ Forall (fun e => is_clamp e = false) h)).
  2:{ case_match; [|apply runs_ret; split_and!; try done; exists []; split; [by rewrite app_nil_r|done]].
      apply runs_manager, (runs_light _ _ _ boost_light boost_quiet Hs). by intros. }
  intros [] w2 (Hw2 & Hok2 & Hse2 & He2 & Hn2 & Hg2 & Hh2). apply runs_bind, runs_read, runs_bind, runs_manager.
  apply (runs_light _ _ _ (disable_light _) (disable_quiet _) Hok2). intros [] s3 Hok3 Hse3 He3 Hn3 Hg3 Hh3.
  rewrite Hpid. cbn [negb]. apply runs_bind.
  eapply runs_mono; [|eapply (heuristics_spec _ config actual (v_records v) (v_level v) (v_frames v) entry e)].
  2: { cbn [w_session]. by rewrite Hw2. }
  2: { cbn [w_session w_mgr]. rewrite Hw2, Hg3, Hg2. by eapply judged_same; [..|exact Hj]. }
  2: { cbn [w_session w_mgr]. rewrite Hw2. split; [done|by rewrite Hse3, Hse2|by rewrite He3, He2|done]. }
  intros [] w4 (Hw4 & e' & Hact' & Hc4 & Hn4 & Hh4). cbn [w_session w_mgr] in *. rewrite Hw2 in *.
  unfold convertWorkDurationToBoostByPid, desc. apply runs_bind, runs_bind.
  eapply runs_profile; [by rewrite Hw4|]. do 5 (apply runs_bind, runs_read). rewrite Hw4.
  apply runs_bind, runs_of_option. eexists. split; [exact Hout|]. cbn beta iota.
  unfold set_errors, update_desc at 1. apply runs_bind, runs_update, runs_ret. cbn [w_session w_mgr]. rewrite Hw4.
  do 2 (apply runs_bind, runs_read). apply runs_bind, runs_of_option. cbn [w_session mJankyLevel mJankyFrameNum with_records].
  eexists. split; [by apply clamp_range_spec|]. cbn beta iota.
  apply runs_bind, runs_read, runs_bind, runs_of_option. eexists. split; [by apply checked_s_in|].
  apply runs_bind. eapply runs_mono; [|eapply (update_pid_spec _ _ config stale entry e')].
  - intros [] w5 (Heff & _ & Hd & Hr5 & Hl5 & Hf5). apply runs_ret. unfold reported. rewrite Hd, Hr5, Hl5, Hf5.
    split; [done|]. split; [by split_and!|]. eapply in_effect_same; [exact Hact'|].
    eapply light_in_effect; [exact Hh2|]. eapply light_in_effect; [exact Hh3|]. unfold in_effect in *.
    cbn [w_mgr] in Heff. rewrite Hh4 in Heff. exact Heff.
  - split; cbn [w_mgr w_session]; try done. by rewrite Hn4, Hn3, Hn2.
  - exact Hc4.
  - done.
Qed.

(** ** Lemmas: reports that crash *)

(** [m] keeps a fact about the session. *)
Definition keeps (I : PowerHintSession -> Prop) {A} (m : St World A) : Prop :=
  forall w a w', m w = Some (a, w') -> I (w_session w) -> I (w_session w').

Lemma keeps_bind I {A B} (m : St World A) (k : A -> St World B) :
  keeps I m -> (forall a, keeps I (k a)) -> keeps I (m ≫= k).
Proof.
  intros Hm Hk w b w'. unfold mbind, St_bind. destruct (m w) as [[a w1]|] eqn:Hr; [|done].
  intros Hr2 Hw. eapply Hk; [exact Hr2|]. by eapply Hm.
Qed.

Lemma keeps_manager I {A} (m : St Manager A) : keeps I (manager m).
Proof. intros w a w'. unfold manager. destruct (m (w_mgr w)) as [[b s']|]; [|done]. by intros [= <- <-]. Qed.

Lemma keeps_update (I : PowerHintSession -> Prop) f : (forall s, I s -> I (f s)) -> keeps I (update f).
Proof. intros Hf w [] w' [= <-]. apply Hf. Qed.

Lemma keeps_gets I {A} (f : World -> A) : keeps I (gets f).
Proof. by intros w a w' [= <- <-]. Qed.

Lemma keeps_ret I {A} (a : A) : keeps I (mret a).
Proof. by intros w b w' [= <- <-]. Qed.

Lemma keeps_of_option I {A} (o : option A) : keeps I (of_option o).
Proof. intros w a w'. unfold of_option. destruct o; simpl; [|done]. by intros [= <- <-]. Qed.

(** The rest of a program that is undefined wherever it is reached. *)
Lemma fails_bind (I : PowerHintSession -> Prop) {A B} (m : St World A) (k : A -> St World B) w :
  keeps I m -> I (w_session w) -> (forall a w', I (w_session w') -> k a w' = None) -> (m ≫= k) w = None.
Proof.
  intros Hm Hw Hk. unfold mbind, St_bind. destruct (m w) as [[a w1]|] eqn:Hr; [|done].
  apply Hk. by eapply Hm.
Qed.

Ltac solve_keeps :=
  repeat lazymatch goal with
  | |- forall _, _ => intro
  | |- keeps _ (_ ≫= _) => apply keeps_bind
  | |- keeps _ (match ?x with _ => _ end) => destruct x
  | |- keeps _ (manager _) => apply keeps_manager
  | |- keeps _ (update _) => by apply keeps_update
  | |- keeps _ (gets _) => apply keeps_gets
  | |- keeps _ (mret _) => apply keeps_ret
  | |- keeps _ (of_option _) => apply keeps_of_option
  | |- keeps _ ?m => let h := head_of m in unfold h
  end.

Lemma profile_known {A} (k : AdpfConfig -> St World A) w config :
  mAdpfProfile (w_session w) = Some config -> (getAdpfProfile ≫= k) w = k config w.
Proof. intros Hw. unfold getAdpfProfile, read, gets, mbind, St_bind. cbn. by rewrite Hw. Qed.

Lemma convert_tiny actual w config :
  mAdpfProfile (w_session w) = Some config -> Z.abs (targetNs (mDescriptor (w_session w))) < 100000 ->
  convertWorkDurationToBoostByPid actual w = None.
Proof.
  intros Hc Ht. unfold convertWorkDurationToBoostByPid. rewrite (profile_known _ _ config) by done.
  unfold desc, read, gets, mbind, St_bind. cbn. by rewrite pid_output_tiny.
Qed.

Lemma report_work_tiny actual config target w :
  mPidOn config = true -> Z.abs target < 100000 -> mAdpfProfile (w_session w) = Some config ->
  targetNs (mDescriptor (w_session w)) = target -> report_work actual w = None.
Proof.
  intros Hpid Htiny Hc Ht. unfold report_work. rewrite (profile_known _ _ config) by done. rewrite Hpid.
  cbn [negb]. pose proof (conj Hc Ht) as Hw. clear Hc Ht.
  do 7 (eapply (fails_bind (fun s => mAdpfProfile s = Some config /\ targetNs (mDescriptor s) = target));
    [solve_keeps|exact Hw|]; clear w Hw; intros ? w Hw).
  destruct Hw as [Hc Ht]. unfold mbind, St_bind. rewrite (convert_tiny actual w config); [done|done|by rewrite Ht].
Qed.

(** Without records the heuristics have nothing to look at. *)
Lemma report_work_null actual config w :
  mPidOn config = true -> heuristic_on config = true -> mAdpfProfile (w_session w) = Some config ->
  mSessionRecords (w_session w) = None -> report_work actual w = None.
Proof.
  intros Hpid Hheur Hc Ht. unfold report_work. rewrite (profile_known _ _ config) by done. rewrite Hpid, Hheur.
  cbn [negb]. clear Hc.
  do 6 (eapply (fails_bind (fun s => mSessionRecords s = None)); [solve_keeps|exact Ht|];
    clear w Ht; intros ? w Ht).
  unfold report_frames, read, gets. unfold mbind, St_bind. cbn. by rewrite Ht.
Qed.

(** ** Lemmas: pausing *)

(** Forcing a session active: its value says so, and its threads are as they
    were. *)
Lemma force_spec sid b s entry e :
  mgr_ok s -> mSessions (mSessionTaskMap s) !! sid = Some entry ->
  values (mSessionTaskMap s) !! val entry = Some e ->
  runs (forceSessionActive sid b) s (fun _ s' => mgr_ok s' /\
    mSessions (mSessionTaskMap s') !! sid = Some entry /\
    values (mSessionTaskMap s') !! val entry = Some (with_active e b) /\ mgr_now s' = mgr_now s /\
    exists h, history s' = history s ++ h /\ Forall (fun x => is_clamp x = false) h).
Proof.
  intros Hs Hse He. pose proof (force_quiet sid b s Hs) as Hq. unfold forceSessionActive, force_locked in *.
  apply runs_bind, runs_bind, runs_find. rewrite Hse. apply runs_bind. eapply runs_deref; [exact He|].
  apply runs_bind. pose proof (store_quiet s _ e (with_active e b) Hs He eq_refl eq_refl) as [Hok _].
  unfold store. apply runs_modify, runs_ret.
  apply (runs_light _ _ _ boost_light boost_quiet Hok). intros [] s' Hok' Hse' He' Hn' _ Hh'.
  rewrite Hse', He'. split_and!; [done|done| |done|done]. cbn. by rewrite lookup_insert_eq.
Qed.

Lemma profiles_light tag b tids : light (set_profiles tag b tids).
Proof. solve_light. Qed.

(** Replacing the threads of a session leaves it active, whatever it was. *)
Lemma set_threads_spec sid l tag s entry e :
  mgr_ok s -> mSessions (mSessionTaskMap s) !! sid = Some entry ->
  values (mSessionTaskMap s) !! val entry = Some e ->
  runs (setThreadsFromPowerSession sid l tag) s (fun _ s' => mgr_ok s' /\ mgr_now s' = mgr_now s /\
    (exists entry' e', mSessions (mSessionTaskMap s') !! sid = Some entry' /\ linkedTasks entry' = l /\
      values (mSessionTaskMap s') !! val entry' = Some e' /\ isActive e' = true) /\
    exists h, history s' = history s ++ h /\ Forall (fun x => is_clamp x = false) h).
Proof.
  intros Hs Hse He. unfold setThreadsFromPowerSession. apply runs_bind.
  eapply runs_mono; [|by apply force_spec]. intros [] s1 (Hok1 & Hse1 & He1 & Hn1 & h1 & Hh1 & Hf1).
  apply runs_bind. unfold replace_locked. apply runs_bind, runs_gets, runs_bind, runs_of_option.
  destruct (replace_session_spec _ sid entry _ l (new_value (mSessionTaskMap s1)) (tk_map _ (mk_tasks s1 Hok1)) Hse1
    He1 (fresh_value _)) as (added & removed & m' & Hrep & _ & Hses & Hval & _).
  destruct (replace_tasks_ok _ sid l (mk_tasks s1 Hok1)) as (b & added' & removed' & m2 & Hrep' & Hok2 & _ & _).
  rewrite Hrep in Hrep'. injection Hrep' as <- <- <- <-. eexists. split; [exact Hrep|]. cbn beta iota.
  apply runs_bind, runs_modify, runs_ret. cbn beta iota.
  assert (mgr_ok (with_map s1 m')) as Hs2 by (destruct Hok1; by split).
  apply runs_bind. apply (runs_light _ _ _ (profiles_light _ _ _) (profiles_quiet _ _ _) Hs2).
  intros [] s3 Hok3 Hse3 He3 Hn3 _ (h3 & Hh3 & Hf3).
  apply runs_bind. apply (runs_light _ _ _ (profiles_light _ _ _) (profiles_quiet _ _ _) Hok3).
  intros [] s4 Hok4 Hse4 He4 Hn4 _ (h4 & Hh4 & Hf4).
  eapply runs_mono; [|eapply (force_spec sid true s4 (mkVal (new_value (mSessionTaskMap s1)) l)); [done|..]].
  - intros [] s5 (Hok5 & Hse5 & He5 & Hn5 & h5 & Hh5 & Hf5). split_and!.
    + done.
    + rewrite Hn5, Hn4, Hn3. exact Hn1.
    + eexists _, _. split_and!; [exact Hse5|done|exact He5|done].
    + exists (h1 ++ h3 ++ h4 ++ h5). split; [|by repeat apply Forall_app_2].
      rewrite Hh5, Hh4, Hh3. change (history (with_map s1 m')) with (history s1). by rewrite Hh1, <-!app_assoc.
  - rewrite Hse4, Hse3. cbn. by rewrite Hses, lookup_insert_eq.
  - rewrite He4, He3. exact Hval.
Qed.

Lemma quietly_ok {A} (m : St Manager A) s (Q : A -> Manager -> Prop) :
  quietly m -> mgr_ok s -> (forall a s', mgr_ok s' -> Q a s') -> runs m s Q.
Proof. intros Hm Hs HQ. eapply runs_mono; [|by apply Hm]. intros a s' [Hok _]. by apply HQ. Qed.

Lemma remove_spec sid tag s :
  mgr_ok s ->
  runs (removePowerSession sid tag) s (fun _ s' => mgr_ok s' /\ mSessions (mSessionTaskMap s') !! sid = None /\
    mSessionMap s' !! wrap_s 32 sid = None).
Proof.
  intros Hs. unfold removePowerSession. apply runs_bind, (quietly_ok _ _ _ (force_active_quiet sid false) Hs).
  intros [] s1 Hs1. apply runs_bind. unfold remove_locked.
  apply runs_bind, (quietly_ok _ _ _ (replace_quiet sid []) Hs1). intros [added removed] s2 Hs2.
  apply runs_bind, runs_modify, runs_ret.
  destruct (remove_tasks_ok _ sid (mk_tasks s2 Hs2)) as (Hok & _ & _).
  set (s3 := with_map s2 _). assert (mgr_ok s3) as Hs3 by (destruct Hs2; by split).
  assert (mSessions (mSessionTaskMap s3) !! sid = None) as Hnone.
  { unfold s3, remove. cbn [with_map mSessionTaskMap].
    destruct (mSessions (mSessionTaskMap s2) !! sid) eqn:Hse; cbn [snd mSessions]; [by rewrite lookup_delete_eq|done]. }
  apply runs_bind, (runs_light _ _ _ (profiles_light _ _ _) (profiles_quiet _ _ _) Hs3).
  intros [] s4 Hs4 Hse4 _ _ _ _.
  pose proof (sessions_quiet (fun s => delete (wrap_s 32 sid) (mSessionMap s)) s4 Hs4) as [Hs5 _].
  unfold unregisterSession. apply runs_modify. split_and!; [exact Hs5|cbn; by rewrite Hse4|].
  cbn. by apply lookup_delete_eq.
Qed.

(** The calls of a client. *)
Inductive client_call : St World status -> Prop :=
  | CallPause : client_call hint_pause
  | CallResume : client_call hint_resume
  | CallClose : client_call hint_close
  | CallTarget d : client_call (hint_updateTargetWorkDuration d)
  | CallReport l : client_call (hint_reportActualWorkDuration l)
  | CallHint h : client_call (hint_sendHint h)
  | CallMode m b : client_call (hint_setMode m b)
  | CallThreads l : client_call (hint_setThreads l).

Lemma closed_calls call w :
  client_call call -> mSessionClosed (w_session w) = true -> call w = Some (IllegalState, w).
Proof.
  intros [] Hc; unfold hint_pause, hint_resume, hint_close, hint_updateTargetWorkDuration,
    hint_reportActualWorkDuration, hint_sendHint, hint_setMode, setModeLocked, hint_setThreads, read, gets;
    unfold mbind at 1, St_bind at 1; cbn beta; by rewrite Hc.
Qed.

(** ** Lemmas: the manager stays good *)

(** Where [m] is defined, it leaves the manager good. *)
Definition sound {A} (m : St World A) : Prop :=
  forall w a w', m w = Some (a, w') -> mgr_ok (w_mgr w) -> mgr_ok (w_mgr w').

Lemma sound_bind {A B} (m : St World A) (k : A -> St World B) :
  sound m -> (forall a, sound (k a)) -> sound (m ≫= k).
Proof.
  intros Hm Hk w b w'. unfold mbind, St_bind. destruct (m w) as [[a w1]|] eqn:Hr; [|done].
  intros Hr2 Hw. eapply Hk; [exact Hr2|]. by eapply Hm.
Qed.

Lemma sound_same {A} (m : St World A) : (forall w a w', m w = Some (a, w') -> w_mgr w' = w_mgr w) -> sound m.
Proof. intros Hm w a w' Hr Hw. by rewrite (Hm _ _ _ Hr). Qed.

Lemma sound_quiet {A} (m : St Manager A) : quietly m -> sound (manager m).
Proof.
  intros Hq w a w'. unfold manager. destruct (m (w_mgr w)) as [[b s']|] eqn:Hr; [|done].
  intros [= <- <-] Hw. apply (runs_result _ _ _ _ _ Hr (Hq _ Hw)).
Qed.

Lemma sound_vote sid v lo hi t d : sound (manager (voteSet sid v lo hi t d)).
Proof.
  intros w [] w'. unfold manager, voteSet, mbind, St_bind.
  destruct (voteSet_locked sid v lo hi t d (w_mgr w)) as [[r s1]|] eqn:Hr; [|done].
  assert (in_s 64 (t + d)) as Hin by (unfold voteSet_locked in Hr; by case_decide).
  intros Hr2 Hw. pose proof (voteSet_locked_spec sid v lo hi t d (w_mgr w) Hw Hin) as Hspec.
  apply (runs_result _ _ _ _ _ Hr) in Hspec as [[Ht Hl] _].
  destruct r; [|by injection Hr2 as <-]. unfold schedule, modify in Hr2. by injection Hr2 as <-.
Qed.

Lemma sound_of_option {A} (o : option A) : sound (of_option o).
Proof. apply sound_same. intros w a w'. unfold of_option. destruct o; simpl; [|done]. by intros [= <- <-]. Qed.

Ltac solve_sound :=
  repeat lazymatch goal with
  | |- forall _, _ => intro
  | |- sound (_ ≫= _) => apply sound_bind
  | |- sound (match ?x with _ => _ end) => destruct x
  | |- sound (manager (voteSet _ _ _ _ _ _)) => apply sound_vote
  | |- sound (manager (emit _)) => apply sound_quiet, quietly_emit; intros; discriminate
  | |- sound (manager ?m) => first [apply sound_quiet; solve [eauto with quiet] | apply sound_quiet; unfold m]
  | |- sound (modify _) => apply sound_same; by intros ? ? ? [= <- <-]
  | |- sound (gets _) => apply sound_same; by intros ? ? ? [= <- <-]
  | |- sound (mret _) => apply sound_same; by intros ? ? ? [= <- <-]
  | |- sound (of_option _) => apply sound_of_option
  | |- sound ?m => let h := head_of m in unfold h
  end.

Lemma client_call_sound call : client_call call -> sound call.
Proof.
  pose proof set_threads_quiet. pose proof remove_session_quiet. pose proof pause_quiet. pose proof resume_quiet.
  intros []; solve_sound.
Qed.

Lemma session_start_sound idString l : sound (session_start idString l).
Proof. pose proof add_session_quiet. solve_sound. Qed.

(** A report of an open, active session is acted on. *)
Lemma report_spec w config actual stale v entry e :
  reportable w config actual stale v entry e -> clamps_on -> targetNs (mDescriptor (w_session w)) <> 0 ->
  runs (hint_reportActualWorkDuration actual) w (fun r w' => r = Ok /\ reported v w w' /\
    in_effect (w_mgr w) (w_mgr w') entry e (next_min v (pidControlVariable (mDescriptor (w_session w))))).
Proof.
  intros Hr Hon Ht. unfold hint_reportActualWorkDuration. apply runs_bind, runs_read.
  rewrite (rp_open _ _ _ _ _ _ _ Hr). apply runs_bind, runs_read.
  rewrite (proj2 (Z.eqb_neq _ _) Ht), decide_False by apply (rp_some _ _ _ _ _ _ _ Hr).
  apply runs_bind, runs_read. rewrite (rp_active _ _ _ _ _ _ _ Hr). by eapply report_work_spec.
Qed.

(** Closing an open session. *)
Lemma close_spec w :
  mSessionClosed (w_session w) = false -> mgr_ok (w_mgr w) ->
  runs hint_close w (fun r w' => r = Ok /\ mgr_ok (w_mgr w') /\ mSessionClosed (w_session w') = true /\
    mSessions (mSessionTaskMap (w_mgr w')) !! mSessionId (w_session w) = None /\
    mSessionMap (w_mgr w') !! wrap_s 32 (mSessionId (w_session w)) = None).
Proof.
  intros Hopen Hok. unfold hint_close. apply runs_bind, runs_read. rewrite Hopen.
  apply runs_bind, runs_update. do 3 (apply runs_bind, runs_read).
  apply runs_bind, runs_manager. eapply runs_mono; [|by apply remove_spec]. intros [] s1 (Hs1 & Hnone & Hmap).
  unfold set_active, update_desc. apply runs_bind, runs_update, runs_bind, runs_manager.
  unfold emit. apply runs_modify, runs_ret. cbn [w_session w_mgr]. split_and!; [done| |done|exact Hnone|exact Hmap].
  destruct Hs1 as [Ht Hl]. split; [exact Ht|]. intros tid r [Hin|Hin]%elem_of_app; [eauto|].
  by apply list_elem_of_singleton in Hin.
Qed.

(** ** Properties *)

(** C1: a report the session can act on puts the controller's output into
    effect, where the kernel's clamps are in use and no efficient maximum is
    configured.  The session's records, its level and its count of janky frames
    are as the judgement of the report says; its clamp moves by the output and
    stays between the floor and the ceiling of that level; the controller's
    integral stays in its limits; and the kernel is asked to clamp every thread of
    the session, once each, to no less than that. *)
Theorem report_sets_clamps w config actual stale v entry e :
  reportable w config actual stale v entry e -> clamps_on ->
  targetNs (mDescriptor (w_session w)) <> 0 ->
  (0 <= mSamplingWindowP config /\ 0 <= mSamplingWindowI config /\ 0 <= mSamplingWindowD config) ->
  getPidILowDivI config <= getPidIHighDivI config ->
  runs (hint_reportActualWorkDuration actual) w (fun r w' =>
    let pid := pidControlVariable (mDescriptor (w_session w')) in
    r = Ok /\ pid = next_min v (pidControlVariable (mDescriptor (w_session w))) /\
    wrap_s 32 (v_floor v) <= pid /\ pid <= Z.max (wrap_s 32 (v_floor v)) (wrap_s 32 (v_ceiling v)) /\
    mSessionRecords (w_session w') = v_records v /\ mJankyLevel (w_session w') = v_level v /\
    mJankyFrameNum (w_session w') = v_frames v /\
    getPidILowDivI config <= integral_error (mDescriptor (w_session w')) <= getPidIHighDivI config /\
    in_effect (w_mgr w) (w_mgr w') entry e pid).
Proof.
  intros Hr Hon Ht (Hp & Hi & Hd) Hlh. pose proof (rp_output _ _ _ _ _ _ _ Hr) as Hout.
  pose proof (rp_some _ _ _ _ _ _ _ Hr) as Hsome.
  eapply runs_mono; [|by eapply report_spec]. intros r w' (-> & (Hrec & Hlev & Hfr & Hpid & Hint & _) & Heff).
  cbn zeta. rewrite Hpid, Hint. split_and!; try done.
  - unfold next_min. lia.
  - unfold next_min. lia.
  - eapply pid_output_integral; [exact Hout| |done..]. by destruct actual.
  - eapply pid_output_integral; [exact Hout| |done..]. by destruct actual.
Qed.

(** A target below a tenth of a millisecond, which the session accepts,
    makes every report undefined: the controller divides by the number of
    tenths of milliseconds in the target, which is 0. *)
Lemma tiny_target_undefined w config actual :
  mSessionClosed (w_session w) = false -> is_active (mDescriptor (w_session w)) = true ->
  mAdpfProfile (w_session w) = Some config -> mPidOn config = true ->
  0 < targetNs (mDescriptor (w_session w)) < 100000 -> actual <> [] ->
  hint_reportActualWorkDuration actual w = None.
Proof.
  intros Hopen Hact Hc Hpid Ht Hsome. unfold hint_reportActualWorkDuration.
  unfold desc, read, gets. unfold mbind at 1, St_bind at 1. cbn beta. rewrite Hopen.
  unfold mbind at 1, St_bind at 1. cbn beta.
  rewrite (proj2 (Z.eqb_neq _ 0)) by lia. rewrite decide_False by done.
  unfold mbind at 1, St_bind at 1. cbn beta. rewrite Hact. cbn [negb].
  by eapply report_work_tiny; [done| |exact Hc|reflexivity]; lia.
Qed.

(** A configuration with the heuristics on, given to a session that was
    made without them, makes every report crash the service: the records are
    only made by the constructor. *)
Lemma profile_switch_crashes w config actual :
  mSessionClosed (w_session w) = false -> is_active (mDescriptor (w_session w)) = true ->
  targetNs (mDescriptor (w_session w)) <> 0 -> mSessionRecords (w_session w) = None ->
  mPidOn config = true -> heuristic_on config = true -> actual <> [] ->
  (setAdpfProfile (Some config) ;; hint_reportActualWorkDuration actual) w = None.
Proof.
  intros Hopen Hact Ht Hrec Hpid Hheur Hsome. unfold hint_reportActualWorkDuration, setAdpfProfile, update, modify.
  unfold mbind at 1, St_bind at 1. cbn beta iota.
  unfold desc, read, gets. unfold mbind at 1, St_bind at 1. cbn [w_session mSessionClosed]. rewrite Hopen.
  unfold mbind at 1, St_bind at 1. cbn [w_session mDescriptor].
  rewrite (proj2 (Z.eqb_neq _ 0)) by lia. rewrite decide_False by done.
  unfold mbind at 1, St_bind at 1. cbn [w_session mDescriptor]. rewrite Hact. cbn [negb].
  by eapply report_work_null.
Qed.

(** Giving a paused session new threads wakes it up: the manager counts the
    session as active, and the kernel is asked to clamp every new thread to no
    less than the initial value, while the session still says it is paused and
    refuses reports. *)
Lemma setThreads_wakes_paused w config stale entry e l actual :
  mSessionClosed (w_session w) = false -> is_active (mDescriptor (w_session w)) = false ->
  vote_timing w config stale -> clamps_on -> mgr_ok (w_mgr w) ->
  mSessions (mSessionTaskMap (w_mgr w)) !! mSessionId (w_session w) = Some entry ->
  values (mSessionTaskMap (w_mgr w)) !! val entry = Some e -> l <> [] -> NoDup l -> actual <> [] ->
  runs (hint_setThreads l) w (fun r w' =>
    r = Ok /\ is_active (mDescriptor (w_session w')) = false /\
    hint_reportActualWorkDuration actual w' = Some (IllegalState, w') /\
    exists h calls, history (w_mgr w') = history (w_mgr w) ++ h ++ clamp_effects calls /\
      Forall (fun x => is_clamp x = false) h /\ calls.*1 = l /\
      Forall (fun c => Z.min (wrap_s 32 (mUclampMinInit config)) kUclampMax <= uclampMin c.2) calls).
Proof.
  intros Hopen Hact [Hp Hst Hnn Hl Ht] Hon Hok Hse He Hne Hnd Hsome.
  unfold hint_setThreads. apply runs_bind, runs_read. rewrite Hopen, decide_False by done.
  unfold update_desc at 1. apply runs_bind, runs_update. do 2 (apply runs_bind, runs_read).
  apply runs_bind, runs_manager. eapply runs_mono; [|by eapply set_threads_spec].
  intros [] s1 (Hok1 & Hn1 & (entry1 & e1 & Hse1 & Hl1 & He1 & Hact1) & Hh1).
  apply runs_bind. eapply runs_profile; [exact Hp|].
  apply runs_bind. eapply runs_mono; [|eapply (update_pid_spec _ _ config stale entry1 e1)].
  - intros [] w2 (Heff & Hclosed & Hd & _). apply runs_ret.
    assert (is_active (mDescriptor (w_session w2)) = false) as Hact2 by (by rewrite Hd).
    split_and!; [done|done| |].
    + unfold hint_reportActualWorkDuration, desc, read, gets, mbind, St_bind. cbn beta iota.
      rewrite Hclosed. cbn. rewrite Hopen. case_match; [done|]. rewrite decide_False by done. by rewrite Hact2.
    + destruct (light_in_effect _ _ _ _ _ _ Hh1 Heff) as (h & calls & Hh & Hf & Hfst & Hall).
      exists h, calls. split_and!; [exact Hh|done|by rewrite Hfst|by apply Hall].
  - split; cbn [w_mgr w_session]; try done. by rewrite Hn1.
  - split; cbn [w_mgr w_session]; [done|exact Hse1|exact He1|by rewrite Hl1].
  - done.
Qed.

(** Closing a session works whatever state it is in, takes it out of the
    manager, and every call after it, another close included, is answered
    with an illegal state and changes nothing. *)
Lemma close_is_final w :
  mSessionClosed (w_session w) = false -> mgr_ok (w_mgr w) ->
  runs hint_close w (fun r w' => r = Ok /\ mgr_ok (w_mgr w') /\
    mSessions (mSessionTaskMap (w_mgr w')) !! mSessionId (w_session w) = None /\
    forall call, client_call call -> call w' = Some (IllegalState, w')).
Proof.
  intros Hopen Hok. eapply runs_mono; [|by apply close_spec].
  intros r w' (-> & Hs & Hc & Hnone & _). split_and!; [done|done|done|].
  intros call Hcall. by apply closed_calls.
Qed.
End Reports.

(** ** Witnesses *)

(** A configuration says whether the heuristics are on. *)
Definition demo_power : PowerEnv := {|
  AID_APP_START := 10000; AdpfConfig := bool; GetAdpfProfile _ := false; mUclampMinOn _ := true;
  mUclampMaxEfficientBase _ := None; mUclampMaxEfficientOffset _ := None;
  GetAdpfProfileFromDoHint _ := false; IsHintSupported _ _ := true;
  kDisableBoostHintName := "ADPF_DISABLE_TA_BOOST"; sched_setattr _ _ _ := 0
|}.

Lemma demo_power_laws : @PowerEnvLaws demo_power.
Proof. split. cbn. by intros _ [? [=]]. Qed.

Definition demo_hint : @HintEnv demo_power := {|
  GetAdpfProfileOf _ name := (bool_decide (name = "GAME") : @AdpfConfig demo_power); mPidOn _ := true;
  mPidPo _ := Binary64.of_Z 4; mPidPu _ := Binary64.of_Z 1; mPidI _ := S754_zero false;
  mPidDo _ := S754_zero false; mPidDu _ := S754_zero false;
  getPidIHighDivI _ := 512; getPidILowDivI _ := -120;
  mSamplingWindowP _ := 1; mSamplingWindowI _ := 0; mSamplingWindowD _ := 1;
  mUclampMinInit _ := 162; mUclampMinHigh _ := 480; mUclampMinLow _ := 2;
  mUclampMinLoadUp _ := 400; mUclampMinLoadReset _ := 300; mReportingRateLimitNs _ := 166666660;
  mTargetTimeFactor _ := Binary64.of_Z 1; mStaleTimeFactor _ := Binary64.of_Z 20;
  mHeuristicBoostOn c := Some c; mHBoostModerateJankThreshold _ := Some 1; mHBoostSevereJankThreshold _ := Some 3;
  mHBoostOffMaxAvgDurRatio _ := Some (Binary64.of_Z 2);
  mHBoostSevereJankPidPu _ := Some (Binary64.div (Binary64.of_Z 1) (Binary64.of_Z 2));
  mHBoostUclampMinFloorRange _ := Some (100, 200); mHBoostUclampMinCeilingRange _ := Some (500, 600);
  mJankCheckTimeFactor _ := Some (Binary64.of_Z 1); mLowFrameRateThreshold _ := Some 25; mMaxRecordsNum _ := Some 5;
  SessionTag_toString t := if t =? 3 then "GAME" else "OTHER"; SURFACEFLINGER := 1; SessionHint_toString _ := "CPU_LOAD_UP";
  hint_CPU_LOAD_UP := 0; hint_CPU_LOAD_DOWN := 1; hint_CPU_LOAD_RESET := 2; hint_CPU_LOAD_RESUME := 3;
  hint_POWER_EFFICIENCY := 4; mode_POWER_EFFICIENCY := 0; SessionMode_size := 1;
  systemSessionCheckNodeExist := false; systemSessionCheckOpen := false; systemSessionCheckWrite _ := false
|}.

#[local] Existing Instances demo_power demo_power_laws demo_hint.

(** The world after a program; the first one if it is undefined. *)
Definition run {A} (m : St World A) (w : World) : World :=
  match m w with Some (_, w') => w' | None => w end.

(** A session of threads 12 and 13 with a target of 16 ms. *)
Definition demo_made (tag : Z) : World :=
  match session_init [] 1 4000 10050 [12; 13] 16000000 tag 1000 with
  | Some s => run (session_start "4000-10050-1-OTHER-0" [12; 13]) (mkWorld s (mgr_new 1000))
  | None => mkWorld (mkHint 0 0 DEFAULT (mkHintDesc 0 0 0 [] 0 false 0 0 0) 0 true ∅ [] None None LIGHT 0) (mgr_new 0)
  end.

(** Without heuristics, and with them. *)
Definition demo_world : World := demo_made 0.
Definition demo_game : World := demo_made 3.

Lemma run_ok {A} (m : St World A) w : sound m -> mgr_ok (w_mgr w) -> mgr_ok (w_mgr (run m w)).
Proof. intros Hm Hw. unfold run. destruct (m w) as [[a w']|] eqn:Hr; [by eapply Hm|done]. Qed.

Lemma demo_made_ok tag : mgr_ok (w_mgr (demo_made tag)).
Proof.
  unfold demo_made. destruct (session_init _ _ _ _ _ _ _ _); [|apply mgr_new_ok].
  apply run_ok; [apply session_start_sound|apply mgr_new_ok].
Qed.

Definition demo_report : list WorkDuration := [mkWork 1000 20000000].

(** Two frames late, the last one early. *)
Definition demo_janky : list WorkDuration :=
  [mkWork 20000000 18000000; mkWork 40000000 19000000; mkWork 60000000 15000000].

(** 4 ms late: 40 tenths of a millisecond, times 4. *)
Lemma demo_output : exists st, pid_output false 16000000 LIGHT 0 0 0 [20000000] = Some (160, st).
Proof. eexists. vm_compute. reflexivity. Qed.

(** 1 ms early, at the gain of a moderately janky session, 3/4. *)
Lemma demo_janky_output : exists st,
  pid_output true 16000000 MODERATE 2 0 0 [18000000; 19000000; 15000000] = Some (-7, st).
Proof. eexists. vm_compute. reflexivity. Qed.

Definition demo_entry : ValEntry := default (mkVal 0 []) (mSessions (mSessionTaskMap (w_mgr demo_world)) !! 1).
Definition demo_value : SessionValueEntry :=
  default (demo_session 0 0) (values (mSessionTaskMap (w_mgr demo_world)) !! val demo_entry).

Lemma demo_nodup : NoDup [12; 13].
Proof. apply (bool_decide_unpack _). vm_compute. exact I. Qed.

Lemma demo_clampable : clampable (w_mgr demo_world) (mSessionId (w_session demo_world)) demo_entry demo_value.
Proof.
  split; [apply demo_made_ok|vm_compute; reflexivity..|].
  assert (linkedTasks demo_entry = [12; 13]) as -> by (vm_compute; reflexivity). apply demo_nodup.
Qed.

Lemma demo_game_clampable : clampable (w_mgr demo_game) (mSessionId (w_session demo_game)) demo_entry demo_value.
Proof.
  split; [apply demo_made_ok|vm_compute; reflexivity..|].
  assert (linkedTasks demo_entry = [12; 13]) as -> by (vm_compute; reflexivity). apply demo_nodup.
Qed.

Lemma demo_clamps_on : clamps_on.
Proof. intros h. split; reflexivity. Qed.

Lemma demo_timing : vote_timing demo_world false 320000000.
Proof. split; vm_compute; (reflexivity || done || (split; done)). Qed.

Lemma demo_game_timing : vote_timing demo_game true 320000000.
Proof. split; vm_compute; (reflexivity || done || (split; done)). Qed.

Definition demo_verdict (st : PidState) : Verdict := mkVerdict None LIGHT 0 160 st 2 480.

(** The clamp's range is half way from the moderate one to the severe one. *)
Definition demo_game_records : SessionRecords :=
  default (records_new 5 (S754_zero false)) (mSessionRecords (w_session demo_game)).

Definition demo_janky_added : SessionRecords * FrameBuckets :=
  default (demo_game_records, mkBuckets 0 0 0 0 0 0)
    (addReportedDurations demo_game_records demo_janky 16000000 (mkBuckets 0 0 0 0 0 0) false).

Definition demo_janky_verdict (st : PidState) : Verdict := mkVerdict (Some demo_janky_added.1) MODERATE 2 (-7) st 150 550.

Lemma demo_reportable st :
  pid_output false 16000000 LIGHT 0 0 0 [20000000] = Some (160, st) ->
  reportable demo_world false demo_report 320000000 (demo_verdict st) demo_entry demo_value.
Proof.
  intros Hst. split; [vm_compute; reflexivity|vm_compute; reflexivity|done|reflexivity|apply demo_timing| | | | |
    |apply demo_clampable].
  - vm_compute. split; done.
  - by apply JudgedOff.
  - exact Hst.
  - exact (RangePlain false LIGHT 0 eq_refl).
  - vm_compute. split; done.
Qed.

Lemma demo_janky_reportable st :
  pid_output true 16000000 MODERATE 2 0 0 [18000000; 19000000; 15000000] = Some (-7, st) ->
  reportable demo_game true demo_janky 320000000 (demo_janky_verdict st) demo_entry demo_value.
Proof.
  intros Hst. split; [vm_compute; reflexivity|vm_compute; reflexivity|done|reflexivity|apply demo_game_timing| | | | |
    |apply demo_game_clampable].
  - vm_compute. split; done.
  - cbn [v_records v_level v_frames demo_janky_verdict].
    pose proof (JudgedOn true (w_session demo_game) false demo_janky) as Hj.
    assert (getNumOfMissedCycles demo_janky_added.1 = 2) as Hmiss by (vm_compute; reflexivity).
    replace 2 with (wrap_u 32 (getNumOfMissedCycles demo_janky_added.1)) by (by rewrite Hmiss).
    apply (Hj demo_game_records demo_janky_added.1 demo_janky_added.2 19000 17333 25 false MODERATE);
      [reflexivity|vm_compute; reflexivity|vm_compute; reflexivity|vm_compute; reflexivity|vm_compute; reflexivity
      |done|reflexivity|vm_compute; reflexivity| |by vm_compute].
    rewrite Hmiss. eapply (JankModerate _ _ _ _ 1 3); [reflexivity|reflexivity|].
    change (wrap_u 32 2) with 2. lia.
  - exact Hst.
  - apply (RangeModerate (true : @AdpfConfig demo_power) MODERATE 2 100 200 500 600 1 3); try reflexivity;
      (split; [vm_compute; reflexivity|vm_compute; split; done]).
  - vm_compute. split; done.
Qed.

Lemma report_sets_clamps_witness :
  (exists w', hint_reportActualWorkDuration demo_report demo_world = Some (Ok, w') /\
    pidControlVariable (mDescriptor (w_session w')) = 160 /\
    in_effect (w_mgr demo_world) (w_mgr w') demo_entry demo_value 160) /\
  (exists w', hint_reportActualWorkDuration demo_janky demo_game = Some (Ok, w') /\
    pidControlVariable (mDescriptor (w_session w')) = 150 /\ mJankyLevel (w_session w') = MODERATE /\
    in_effect (w_mgr demo_game) (w_mgr w') demo_entry demo_value 150).
Proof.
  destruct demo_output as [st Hst]. destruct demo_janky_output as [st2 Hst2]. split.
  - pose proof (report_sets_clamps demo_world false demo_report 320000000 (demo_verdict st) demo_entry demo_value
      (demo_reportable st Hst) demo_clamps_on ltac:(vm_compute; done) ltac:(split_and!; vm_compute; done)
      ltac:(vm_compute; done)) as Hr.
    apply runs_some in Hr as (r & w' & Hr & -> & Hpid & _ & _ & _ & _ & _ & _ & Heff). exists w'.
    split; [exact Hr|]. split; [exact Hpid|]. rewrite Hpid in Heff. exact Heff.
  - pose proof (report_sets_clamps demo_game true demo_janky 320000000 (demo_janky_verdict st2) demo_entry demo_value
      (demo_janky_reportable st2 Hst2) demo_clamps_on ltac:(vm_compute; done) ltac:(split_and!; vm_compute; done)
      ltac:(vm_compute; done)) as Hr.
    apply runs_some in Hr as (r & w' & Hr & -> & Hpid & _ & _ & _ & Hlevel & _ & _ & Heff). exists w'.
    split; [exact Hr|]. split; [exact Hpid|]. split; [exact Hlevel|]. rewrite Hpid in Heff. exact Heff.
Defined.

(** The client sets a target of 50 microseconds. *)
Definition demo_tiny : World := run (hint_updateTargetWorkDuration 50000) demo_world.

(** The session is paused. *)
Definition demo_paused : World := run hint_pause demo_world.

Definition demo_paused_entry : ValEntry :=
  default (mkVal 0 []) (mSessions (mSessionTaskMap (w_mgr demo_paused)) !! 1).
