(* ===== verification/PowerService.v ===== *)
(** * power/Power.{h,cpp}, SupportManager.{h,cpp}, AdpfTypes.h: the power HAL's interface

    The service keeps two mode flags and turns modes and boosts into hints; it
    creates hint sessions ([HintSession]) and registers them with the session
    manager ([SessionManager]); the group thread ([Channels]) reaches them by id.
    The state here is the whole HAL's: the flags, the manager, and the session
    objects by address.

    The hint manager (libperfmgr) and the generated enumerations are class
    [ServiceEnv].  A dead session object, and a program that is undefined, are
    [None]. *)

From S2P Require Import Prelude Votes SessionRecords SessionTasks SessionManager HintSession.

(** ** Data *)

Inductive Mode :=
  | DOUBLE_TAP_TO_WAKE | LOW_POWER | SUSTAINED_PERFORMANCE | FIXED_PERFORMANCE | VR | LAUNCH
  | EXPENSIVE_RENDERING | INTERACTIVE | DEVICE_IDLE | DISPLAY_INACTIVE | AUDIO_STREAMING_LOW_LATENCY
  | CAMERA_STREAMING_SECURE | CAMERA_STREAMING_LOW | CAMERA_STREAMING_MID | CAMERA_STREAMING_HIGH
  | GAME | GAME_LOADING | DISPLAY_CHANGE | AUTOMOTIVE_PROJECTION.

(** [BoostOther]: a value outside the enumeration; one of them is a vendor's. *)
Inductive Boost :=
  | INTERACTION | DISPLAY_UPDATE_IMMINENT | ML_ACC | AUDIO_LAUNCH | CAMERA_LAUNCH | CAMERA_SHOT
  | BoostOther (value : Z).

Inductive SessionHint :=
  | SH_CPU_LOAD_UP | SH_CPU_LOAD_DOWN | SH_CPU_LOAD_RESET | SH_CPU_LOAD_RESUME | SH_POWER_EFFICIENCY
  | SH_GPU_LOAD_UP | SH_GPU_LOAD_DOWN | SH_GPU_LOAD_RESET | SH_CPU_LOAD_SPIKE | SH_GPU_LOAD_SPIKE.

Inductive SessionMode := SM_POWER_EFFICIENCY | SM_GRAPHICS_PIPELINE | SM_AUTO_CPU | SM_AUTO_GPU.

Inductive SessionTag := ST_OTHER | ST_SURFACEFLINGER | ST_HWUI | ST_GAME | ST_APP | ST_SYSUI.

#[global] Instance Mode_eq_dec : EqDecision Mode.
Proof. solve_decision. Defined.

#[global] Instance SessionHint_eq_dec : EqDecision SessionHint.
Proof. solve_decision. Defined.

#[global] Instance SessionMode_eq_dec : EqDecision SessionMode.
Proof. solve_decision. Defined.

Record SupportInfo := mkSupport {
  usesSessions : bool; modes : Z; boosts : Z; sessionHints : Z; sessionModes : Z; sessionTags : Z;
  compositionSupported : bool; compositionMaxBatchSize : Z; compositionAlwaysBatch : bool;
  headroomCpuSupported : bool; headroomCpuMinIntervalMillis : Z
}.

(** The enumerators' values and names, the version of the interface and the
    answers of the hint manager. *)
Class ServiceEnv `{HintEnv} := {
  mode_value : Mode -> Z; Mode_toString : Mode -> string;
  boost_value : Boost -> Z; Boost_toString : Boost -> string;
  hint_value : SessionHint -> Z; smode_value : SessionMode -> Z; tag_value : SessionTag -> Z;
  IPower_version : Z;
  IsAdpfSupported : bool; IsAdpfProfileSupported : string -> bool
}.

(** ** What is supported *)

Definition all_modes : list Mode :=
  [DOUBLE_TAP_TO_WAKE; LOW_POWER; SUSTAINED_PERFORMANCE; FIXED_PERFORMANCE; VR; LAUNCH; EXPENSIVE_RENDERING;
   INTERACTIVE; DEVICE_IDLE; DISPLAY_INACTIVE; AUDIO_STREAMING_LOW_LATENCY; CAMERA_STREAMING_SECURE;
   CAMERA_STREAMING_LOW; CAMERA_STREAMING_MID; CAMERA_STREAMING_HIGH; GAME; GAME_LOADING; DISPLAY_CHANGE;
   AUTOMOTIVE_PROJECTION].
Definition all_boosts : list Boost :=
  [INTERACTION; DISPLAY_UPDATE_IMMINENT; ML_ACC; AUDIO_LAUNCH; CAMERA_LAUNCH; CAMERA_SHOT].
Definition all_hints : list SessionHint :=
  [SH_CPU_LOAD_UP; SH_CPU_LOAD_DOWN; SH_CPU_LOAD_RESET; SH_CPU_LOAD_RESUME; SH_POWER_EFFICIENCY;
   SH_GPU_LOAD_UP; SH_GPU_LOAD_DOWN; SH_GPU_LOAD_RESET; SH_CPU_LOAD_SPIKE; SH_GPU_LOAD_SPIKE].
Definition all_smodes : list SessionMode :=
  [SM_POWER_EFFICIENCY; SM_GRAPHICS_PIPELINE; SM_AUTO_CPU; SM_AUTO_GPU].
Definition all_tags : list SessionTag := [ST_OTHER; ST_SURFACEFLINGER; ST_HWUI; ST_GAME; ST_APP; ST_SYSUI].

Definition kModeEarliestVersion (m : Mode) : Z :=
  match m with
  | GAME | GAME_LOADING => 3
  | DISPLAY_CHANGE | AUTOMOTIVE_PROJECTION => 5
  | _ => 1
  end.

(** A value that is not in the map has no version. *)
Definition kBoostEarliestVersion (b : Boost) : option Z :=
  match b with BoostOther _ => None | _ => Some 1 end.

Definition kSessionHintEarliestVersion (h : SessionHint) : Z :=
  match h with
  | SH_CPU_LOAD_UP | SH_CPU_LOAD_DOWN | SH_CPU_LOAD_RESET | SH_CPU_LOAD_RESUME | SH_POWER_EFFICIENCY => 4
  | SH_GPU_LOAD_UP | SH_GPU_LOAD_DOWN | SH_GPU_LOAD_RESET => 5
  | SH_CPU_LOAD_SPIKE | SH_GPU_LOAD_SPIKE => 6
  end.

Definition kSessionModeEarliestVersion (m : SessionMode) : Z :=
  match m with SM_POWER_EFFICIENCY => 5 | _ => 6 end.

Definition kSessionTagEarliestVersion (t : SessionTag) : Z := match t with ST_SYSUI => 6 | _ => 5 end.

(** [std::bitset<64>], assigned bit by bit. *)
Definition bitset (l : list (Z * bool)) : Z :=
  foldl (fun bits ib => if (ib.2 : bool) then Z.setbit bits ib.1 else Z.clearbit bits ib.1) 0 l.

(** [(supportInt >> type) % 2]. *)
Definition supportFromBitset (supportInt type : Z) : bool := negb (Z.rem (Z.shiftr supportInt type) 2 =? 0).

Section Support.
Context `{ServiceEnv}.

Definition modeSupported (h : list effect) (type : Mode) : bool :=
  if IPower_version <? kModeEarliestVersion type then false
  else
    let supported := IsHintSupported h (Mode_toString type) in
    match type with
    | LOW_POWER => true
    | _ => if negb supported && IsAdpfProfileSupported (Mode_toString type) then true else supported
    end.

Definition boostSupported (h : list effect) (type : Boost) : bool :=
  match kBoostEarliestVersion type with
  | None => false
  | Some v =>
      if IPower_version <? v then false
      else
        let supported := IsHintSupported h (Boost_toString type) in
        if negb supported && IsAdpfProfileSupported (Boost_toString type) then true else supported
  end.

Definition sessionHintSupported (type : SessionHint) : bool :=
  if IPower_version <? kSessionHintEarliestVersion type then false
  else match type with SH_POWER_EFFICIENCY => false | _ => true end.

Definition sessionModeSupported (type : SessionMode) : bool :=
  if IPower_version <? kSessionModeEarliestVersion type then false
  else match type with SM_POWER_EFFICIENCY | SM_GRAPHICS_PIPELINE => false | _ => true end.

Definition sessionTagSupported (type : SessionTag) : bool :=
  negb (IPower_version <? kSessionTagEarliestVersion type).

Definition makeSupportInfo (h : list effect) : SupportInfo :=
  let m := wrap_s 64 (bitset ((fun x => (mode_value x, modeSupported h x)) <$> all_modes)) in
  let b := wrap_s 64 (bitset ((fun x => (boost_value x, boostSupported h x)) <$> all_boosts)) in
  if negb IsAdpfSupported then mkSupport false m b 0 0 0 false 0 false false 0
  else
    mkSupport true m b
      (wrap_s 64 (bitset ((fun x => (hint_value x, sessionHintSupported x)) <$> all_hints)))
      (wrap_s 64 (bitset ((fun x => (smode_value x, sessionModeSupported x)) <$> all_smodes)))
      (wrap_s 64 (bitset ((fun x => (tag_value x, sessionTagSupported x)) <$> all_tags)))
      false 1 false false 0.
End Support.

(** ** The service *)

(** [boost_time]: seconds and nanoseconds of the last interaction boost. *)
Record Power `{ServiceEnv} := mkPower {
  mVRModeOn : bool; mSustainedPerfModeOn : bool; mSupportInfo : SupportInfo;
  s_previous_boost_timespec : Z * Z; s_previous_duration : Z;
  sSessionIDCounter : Z; p_sessions : gmap Z PowerHintSession; p_mgr : Manager
}.

Section Service.
Context `{ServiceEnv}.

Definition with_flags (s : Power) (vr sustained : bool) : Power :=
  mkPower _ _ _ vr sustained (mSupportInfo s) (s_previous_boost_timespec s) (s_previous_duration s)
    (sSessionIDCounter s) (p_sessions s) (p_mgr s).

Definition with_boost (s : Power) (t : Z * Z) (d : Z) : Power :=
  mkPower _ _ _ (mVRModeOn s) (mSustainedPerfModeOn s) (mSupportInfo s) t d
    (sSessionIDCounter s) (p_sessions s) (p_mgr s).

Definition with_mgr (s : Power) (m : Manager) : Power :=
  mkPower _ _ _ (mVRModeOn s) (mSustainedPerfModeOn s) (mSupportInfo s) (s_previous_boost_timespec s)
    (s_previous_duration s) (sSessionIDCounter s) (p_sessions s) m.

Definition with_session (s : Power) (counter obj : Z) (x : PowerHintSession) (m : Manager) : Power :=
  mkPower _ _ _ (mVRModeOn s) (mSustainedPerfModeOn s) (mSupportInfo s) (s_previous_boost_timespec s)
    (s_previous_duration s) counter (<[obj := x]> (p_sessions s)) m.

(** What the service does through the manager, and on a session. *)
Definition on_manager {A} (m : St Manager A) : St Power A := fun s =>
  match m (p_mgr s) with Some (a, mgr) => Some (a, with_mgr s mgr) | None => None end.

Definition on_session {A} (obj : Z) (m : St World A) : St Power A := fun s =>
  match p_sessions s !! obj with
  | None => None
  | Some x =>
      match m (mkWorld x (p_mgr s)) with
      | Some (a, w) => Some (a, with_session s (sSessionIDCounter s) obj (w_session w) (w_mgr w))
      | None => None
      end
  end.

Definition hint (e : effect) : St Power unit := on_manager (emit e).

(** ** Modes *)

Definition set_flags (vr sustained : bool) : St Power unit := modify (fun s => with_flags s vr sustained).

(** The constructor's part that restores the mode from a property. *)
Definition restore_state (state : string) : St Power unit :=
  if decide (state = "SUSTAINED_PERFORMANCE") then
    hint (DoHint "SUSTAINED_PERFORMANCE") ;; set_flags false true
  else if decide (state = "VR") then hint (DoHint state) ;; set_flags true false
  else if decide (state = "VR_SUSTAINED_PERFORMANCE") then
    hint (DoHint "VR_SUSTAINED_PERFORMANCE") ;; set_flags true true
  else mret tt.

Definition power_new (state audio rendering : string) : St Power unit :=
  restore_state state ;;
  (if decide (audio = "AUDIO_STREAMING_LOW_LATENCY") then hint (DoHint audio) else mret tt) ;;
  (if decide (rendering = "EXPENSIVE_RENDERING") then hint (DoHint "EXPENSIVE_RENDERING") else mret tt) ;;
  modify (fun s => mkPower _ _ _ (mVRModeOn s) (mSustainedPerfModeOn s) (makeSupportInfo (history (p_mgr s)))
    (s_previous_boost_timespec s) (s_previous_duration s) (sSessionIDCounter s) (p_sessions s) (p_mgr s)).

Definition plain_mode (type : Mode) (enabled : bool) : St Power unit :=
  hint (if enabled then DoHint (Mode_toString type) else EndHint (Mode_toString type)).

Definition setMode (type : Mode) (enabled : bool) : St Power unit :=
  (if IsAdpfSupported then on_manager (updateHintMode (Mode_toString type) enabled) else mret tt) ;;
  vr ← gets mVRModeOn; sustained ← gets mSustainedPerfModeOn;
  match type with
  | SUSTAINED_PERFORMANCE =>
      if enabled && negb sustained then
        (if negb vr then hint (DoHint "SUSTAINED_PERFORMANCE")
         else hint (EndHint "VR") ;; hint (DoHint "VR_SUSTAINED_PERFORMANCE")) ;;
        set_flags vr true
      else if negb enabled && sustained then
        hint (EndHint "VR_SUSTAINED_PERFORMANCE") ;; hint (EndHint "SUSTAINED_PERFORMANCE") ;;
        (if vr then hint (DoHint "VR") else mret tt) ;;
        set_flags vr false
      else mret tt
  | VR =>
      if enabled && negb vr then
        (if negb sustained then hint (DoHint "VR")
         else hint (EndHint "SUSTAINED_PERFORMANCE") ;; hint (DoHint "VR_SUSTAINED_PERFORMANCE")) ;;
        set_flags true sustained
      else if negb enabled && vr then
        hint (EndHint "VR_SUSTAINED_PERFORMANCE") ;; hint (EndHint "VR") ;;
        (if sustained then hint (DoHint "SUSTAINED_PERFORMANCE") else mret tt) ;;
        set_flags false sustained
      else mret tt
  | LAUNCH => if vr || sustained then mret tt else plain_mode type enabled
  | _ => plain_mode type enabled
  end.

Definition isModeSupported (type : Mode) : St Power bool :=
  i ← gets mSupportInfo; mret (supportFromBitset (modes i) (mode_value type)).

Definition isBoostSupported (type : Boost) : St Power bool :=
  i ← gets mSupportInfo; mret (supportFromBitset (boosts i) (boost_value type)).

(** ** Boosts *)

Definition BOOSTWIDEVINE : Z := 0xff.

(** Microseconds from [start] to [end_]. *)
Definition calc_timespan_us (start end_ : Z * Z) : Z :=
  (end_.1 - start.1) * 1000000 + Z.quot (end_.2 - start.2) 1000.

(** The duration of an interaction boost, in ms; [durationMs + 750] may overflow. *)
Definition interaction_duration (durationMs : Z) : option Z :=
  if durationMs =? 0 then Some 1500
  else
    input_duration ← checked_s 32 (durationMs + 750);
    Some (if 1500 <? input_duration then (if 5750 <? input_duration then 5750 else input_duration) else 1500).

Definition boost_name (type : Boost) : string :=
  if decide (boost_value type = BOOSTWIDEVINE) then "BOOSTWIDEVINE" else Boost_toString type.

(** [clock]: what [clock_gettime] gives. *)
Definition setBoost (type : Boost) (durationMs : Z) (clock : Z * Z) : St Power unit :=
  vr ← gets mVRModeOn; sustained ← gets mSustainedPerfModeOn;
  match type with
  | INTERACTION =>
      if vr || sustained then mret tt
      else
        duration ← of_option (interaction_duration durationMs);
        previous ← gets s_previous_boost_timespec;
        previous_duration ← gets s_previous_duration;
        let elapsed_time := calc_timespan_us previous clock in
        if elapsed_time + duration * 1000 <? previous_duration * 1000 then mret tt
        else
          modify (fun s => with_boost s clock duration) ;;
          hint (DoHintFor "INTERACTION" 1000000000)
  | _ =>
      if (sustained : bool) then mret tt
      else if 0 <? durationMs then hint (DoHintFor (boost_name type) (durationMs * 1000000))
      else if durationMs =? 0 then hint (DoHint (boost_name type))
      else hint (EndHint (boost_name type))
  end.

(** ** Sessions *)

(** The result is the session object and its id; [idString] is its printed
    name and [pid_], [uid_] its owner. *)
Definition createHintSessionWithConfig (idString : string) (pid_ uid_ : Z) (threadIds : list Z)
    (durationNanos tag : Z) : St Power (status * option (Z * Z)) :=
  if negb IsAdpfSupported then mret (UnsupportedOperation, None)
  else if decide (threadIds = []) then mret (IllegalArgument, None)
  else
    s ← gets id;
    let sid := sSessionIDCounter s + 1 in
    let obj := fresh (dom (p_sessions s) : gset Z) in
    x ← of_option (session_init (history (p_mgr s)) sid pid_ uid_ threadIds durationNanos tag (mgr_now (p_mgr s)));
    modify (fun s => with_session s sid obj x (mkMgr (mSessionTaskMap (p_mgr s)) (mSessionMap (p_mgr s))
      (mGameModeEnabled (p_mgr s)) (timers (p_mgr s)) ({[obj]} ∪ objects (p_mgr s)) (mgr_now (p_mgr s))
      (history (p_mgr s)))) ;;
    on_session obj (session_start idString threadIds) ;;
    on_manager (registerSession obj sid) ;;
    mret (Ok, Some (obj, sid)).

Definition createHintSession (idString : string) (pid_ uid_ : Z) (threadIds : list Z) (durationNanos : Z)
    : St Power (status * option (Z * Z)) :=
  createHintSessionWithConfig idString pid_ uid_ threadIds durationNanos (tag_value ST_OTHER).

(** The last reference to a session goes away: its destructor closes it. *)
Definition destroy (obj : Z) : St Power unit :=
  on_session obj hint_close ;;
  modify (fun s => mkPower _ _ _ (mVRModeOn s) (mSustainedPerfModeOn s) (mSupportInfo s)
    (s_previous_boost_timespec s) (s_previous_duration s) (sSessionIDCounter s) (delete obj (p_sessions s))
    (mkMgr (mSessionTaskMap (p_mgr s)) (mSessionMap (p_mgr s)) (mGameModeEnabled (p_mgr s)) (timers (p_mgr s))
      (objects (p_mgr s) ∖ {[obj]}) (mgr_now (p_mgr s)) (history (p_mgr s)))).

Definition getHintSessionPreferredRate : St Power (status * Z) :=
  h ← gets (fun s => history (p_mgr s));
  let rate := if IsAdpfSupported then mReportingRateLimitNs (GetAdpfProfile h) else 0 in
  mret (if rate <=? 0 then UnsupportedOperation else Ok, rate).

Definition getSupportInfo : St Power SupportInfo := gets mSupportInfo.
End Service.

(** ** Specification: the hints that are on *)

(** A hint is on after the last [DoHint] without an [EndHint] of its name. *)
Definition hint_on (h : list effect) (name : string) : bool :=
  foldl (fun b e =>
    match e with
    | DoHint n => if decide (n = name) then true else b
    | EndHint n => if decide (n = name) then false else b
    | _ => b
    end) false h.

Definition mode_hints : list string := ["VR"; "SUSTAINED_PERFORMANCE"; "VR_SUSTAINED_PERFORMANCE"].

(** The names of the other modes and of the boosts are not those three. *)
Class ServiceLaws `{ServiceEnv} := {
  mode_names : forall m, m <> VR -> m <> SUSTAINED_PERFORMANCE -> Mode_toString m ∉ mode_hints;
  boost_names : forall b, Boost_toString b ∉ mode_hints;
  mode_values : NoDup (mode_value <$> all_modes) /\ Forall (fun v => 0 <= v < 64) (mode_value <$> all_modes);
  boost_values : NoDup (boost_value <$> all_boosts) /\ Forall (fun v => 0 <= v < 64) (boost_value <$> all_boosts);
  hint_values : NoDup (hint_value <$> all_hints) /\ Forall (fun v => 0 <= v < 64) (hint_value <$> all_hints);
  smode_values : NoDup (smode_value <$> all_smodes) /\ Forall (fun v => 0 <= v < 64) (smode_value <$> all_smodes);
  (* the session's hints and modes are those of the enumerations *)
  session_enumerators : hint_CPU_LOAD_UP = hint_value SH_CPU_LOAD_UP /\
    hint_CPU_LOAD_DOWN = hint_value SH_CPU_LOAD_DOWN /\ hint_CPU_LOAD_RESET = hint_value SH_CPU_LOAD_RESET /\
    hint_CPU_LOAD_RESUME = hint_value SH_CPU_LOAD_RESUME /\
    hint_POWER_EFFICIENCY = hint_value SH_POWER_EFFICIENCY /\ mode_POWER_EFFICIENCY = smode_value SM_POWER_EFFICIENCY
}.

(** ** Lemmas *)

Section ServiceProofs.
Context `{ServiceEnv}.

(** The mode hints are those the flags stand for. *)
Definition modes_match (s : Power) : Prop :=
  hint_on (history (p_mgr s)) "VR" = mVRModeOn s && negb (mSustainedPerfModeOn s) /\
  hint_on (history (p_mgr s)) "SUSTAINED_PERFORMANCE" = mSustainedPerfModeOn s && negb (mVRModeOn s) /\
  hint_on (history (p_mgr s)) "VR_SUSTAINED_PERFORMANCE" = mVRModeOn s && mSustainedPerfModeOn s.

Lemma hint_on_snoc h e name : hint_on (h ++ [e]) name =
  match e with
  | DoHint n => if decide (n = name) then true else hint_on h name
  | EndHint n => if decide (n = name) then false else hint_on h name
  | _ => hint_on h name
  end.
Proof. unfold hint_on. by rewrite foldl_app. Qed.

(** The steps of the service's own programs. *)
Lemma runs_on_manager {A} (m : St Manager A) s (Q : A -> Power -> Prop) :
  runs (on_manager m) s Q <-> runs m (p_mgr s) (fun a mgr => Q a (with_mgr s mgr)).
Proof. unfold runs, on_manager. by destruct (m (p_mgr s)) as [[a mgr]|]. Qed.

Lemma runs_hint e s (Q : unit -> Power -> Prop) :
  runs (hint e) s Q <-> Q tt (with_mgr s (with_history (p_mgr s) (history (p_mgr s) ++ [e]))).
Proof. unfold hint. rewrite runs_on_manager. done. Qed.

Lemma runs_flags vr su s (Q : unit -> Power -> Prop) : runs (set_flags vr su) s Q <-> Q tt (with_flags s vr su).
Proof. done. Qed.

(** A hint of another name changes nothing of the modes. *)
Lemma other_hint e s :
  modes_match s ->
  match e with DoHint n | EndHint n => n ∉ mode_hints | _ => True end ->
  modes_match (with_mgr s (with_history (p_mgr s) (history (p_mgr s) ++ [e]))).
Proof.
  intros (Ha & Hb & Hc) He. unfold modes_match.
  cbn [p_mgr with_mgr with_history history mVRModeOn mSustainedPerfModeOn]. rewrite !hint_on_snoc. unfold mode_hints in He.
  destruct e; try done; rewrite !decide_False; try done; intros ->; apply He; set_solver.
Qed.

Lemma hint_mode_runs mode b s :
  modes_match s ->
  runs (if IsAdpfSupported then on_manager (updateHintMode mode b) else mret tt) s (fun _ s' =>
    modes_match s' /\ mVRModeOn s' = mVRModeOn s /\ mSustainedPerfModeOn s' = mSustainedPerfModeOn s).
Proof.
  intros Hs. destruct IsAdpfSupported; [|by split]. apply runs_on_manager. unfold updateHintMode.
  apply runs_bind. destruct (decide (mode = kGameModeName)).
  - apply runs_modify, runs_bind, runs_gets. destruct (_ && _); [|by split]. unfold emit. apply runs_modify.
    split; [|by split]. by apply (other_hint (SetAdpfProfileFromDoHint mode)).
  - apply runs_ret, runs_bind, runs_gets. destruct (_ && _); [|by split]. unfold emit. apply runs_modify.
    split; [|by split]. by apply (other_hint (SetAdpfProfileFromDoHint mode)).
Qed.

Ltac run_hints :=
  repeat lazymatch goal with
  | |- runs (_ ≫= _) _ _ => apply runs_bind
  | |- runs (hint _) _ _ => apply runs_hint
  | |- runs (set_flags _ _) _ _ => apply runs_flags
  | |- runs (mret _) _ _ => apply runs_ret
  end.

Ltac check_modes Hs :=
  run_hints; unfold modes_match in *;
  cbn [p_mgr with_mgr with_history history with_flags mVRModeOn mSustainedPerfModeOn] in *; rewrite !hint_on_snoc; destruct Hs as (Ha & Hb & Hc);
  repeat (rewrite decide_True by done || rewrite decide_False by done); rewrite ?Ha, ?Hb, ?Hc; by split_and!.

Lemma setMode_matches `{!ServiceLaws} type b s :
  modes_match s -> runs (setMode type b) s (fun _ s' => modes_match s').
Proof.
  intros Hs. unfold setMode. apply runs_bind. eapply runs_mono; [|by apply hint_mode_runs].
  intros [] s1 (Hs1 & _ & _). clear Hs s. rename s1 into s, Hs1 into Hs.
  apply runs_bind, runs_gets, runs_bind, runs_gets.
  assert (forall m, m <> VR -> m <> SUSTAINED_PERFORMANCE -> runs (plain_mode m b) s (fun _ s' => modes_match s')) as Hplain.
  { intros m Hm1 Hm2. unfold plain_mode. apply runs_hint. apply other_hint; [done|].
    destruct b; by apply mode_names. }
  destruct (mVRModeOn s) eqn:Hvr, (mSustainedPerfModeOn s) eqn:Hsu, type; cbn [orb];
    lazymatch goal with
    | |- runs (plain_mode _ _) _ _ => by apply Hplain
    | |- runs (mret _) _ _ => exact Hs
    | |- _ => idtac
    end;
    destruct b; cbn [orb negb andb]; try exact Hs;
    unfold modes_match in Hs; rewrite Hvr, Hsu in Hs; check_modes Hs.
Qed.

Lemma setBoost_matches `{!ServiceLaws} type d clock s s' :
  modes_match s -> setBoost type d clock s = Some (tt, s') -> modes_match s'.
Proof.
  intros Hs Hr.
  assert (forall e s', match e with DoHint n | EndHint n => n ∉ mode_hints | _ => True end ->
    hint e s = Some (tt, s') -> modes_match s') as Hother.
  { intros e s1 He Hh. pose proof (other_hint e s Hs He) as Hm.
    assert (s1 = with_mgr s (with_history (p_mgr s) (history (p_mgr s) ++ [e]))) as -> by (by injection Hh as <-). done. }
  assert (boost_name type ∉ mode_hints) as Hname.
  { unfold boost_name. destruct (decide _); [|apply boost_names]. by apply (bool_decide_unpack _). }
  destruct type; unfold setBoost, gets, mbind, St_bind, mret, St_ret in Hr; cbn beta iota in Hr.
  { destruct (mVRModeOn s || mSustainedPerfModeOn s); [by injection Hr as <-|]. unfold of_option in Hr.
    destruct (interaction_duration d) as [dur|]; cbn [fmap option_fmap option_map] in Hr; [|done].
    destruct (_ <? _); [by injection Hr as <-|].
    pose proof (other_hint (DoHintFor "INTERACTION" 1000000000) (with_boost s clock dur) Hs I) as Hm.
    unfold modify in Hr. cbn beta iota in Hr. by injection Hr as <-. }
  all: destruct (mSustainedPerfModeOn s); [by injection Hr as <-|];
    destruct (0 <? d); [by eapply (Hother (DoHintFor _ _)); [|exact Hr]|];
    destruct (d =? 0); [by eapply (Hother (DoHint _)); [|exact Hr]|by eapply (Hother (EndHint _)); [|exact Hr]].
Qed.

(** The calls that change modes and boosts. *)
Inductive mode_step : Power -> Power -> Prop :=
  | StepMode type b s s' : setMode type b s = Some (tt, s') -> mode_step s s'
  | StepBoost type d clock s s' : setBoost type d clock s = Some (tt, s') -> mode_step s s'.

(** The service before its constructor runs: the flags are off. *)
Definition power_blank (t : Z) : Power :=
  mkPower _ _ _ false false (mkSupport false 0 0 0 0 0 false 0 false false 0) (0, 0) 0 0 ∅ (mgr_new t).

Lemma power_new_matches state audio rendering t :
  runs (power_new state audio rendering) (power_blank t) (fun _ s => modes_match s).
Proof.
  unfold power_new. apply runs_bind.
  eapply (runs_mono _ _ (fun _ s => modes_match s)).
  2:{ unfold restore_state.
      destruct (decide (state = "SUSTAINED_PERFORMANCE")) as [->|];
        [|destruct (decide (state = "VR")) as [->|]; [|destruct (decide (state = "VR_SUSTAINED_PERFORMANCE"))]];
        run_hints; unfold modes_match; by vm_compute. }
  intros [] s1 Hs1. apply runs_bind.
  eapply (runs_mono _ _ (fun _ s => modes_match s)).
  2:{ destruct (decide _) as [->|]; [|by apply runs_ret]. apply runs_hint, other_hint; [done|].
      by apply (bool_decide_unpack _). }
  intros [] s2 Hs2. apply runs_bind.
  eapply (runs_mono _ _ (fun _ s => modes_match s)).
  2:{ destruct (decide (rendering = _)); [|by apply runs_ret]. apply runs_hint, other_hint; [done|].
      by apply (bool_decide_unpack _). }
  intros [] s3 Hs3. by apply runs_modify.
Qed.

(** ** Lemmas: the support bits *)

Lemma bitset_testbit l : forall i b, NoDup l.*1 -> (i, b) ∈ l -> Forall (fun j => 0 <= j) l.*1 ->
  Z.testbit (bitset l) i = b.
Proof.
  induction l as [|[j c] l IH] using rev_ind; intros i b Hnd Hin Hpos; [by apply elem_of_nil in Hin|].
  rewrite fmap_app in Hnd, Hpos. apply NoDup_app in Hnd as (Hnd & Hdis & _).
  apply Forall_app in Hpos as [Hpos Hj]. apply Forall_cons in Hj as [Hj _]. cbn in Hj.
  assert (bitset (l ++ [(j, c)]) = if c then Z.setbit (bitset l) j else Z.clearbit (bitset l) j) as ->
    by (unfold bitset; by rewrite foldl_app).
  apply elem_of_app in Hin as [Hin|[= -> ->]%list_elem_of_singleton].
  - assert (i <> j) as Hne.
    { intros ->. apply (Hdis j); [|apply list_elem_of_here]. by apply (list_elem_of_fmap_2 fst) in Hin. }
    assert (0 <= i) as Hi.
    { apply (proj1 (Forall_forall _ _) Hpos). by apply (list_elem_of_fmap_2 fst) in Hin. }
    destruct c; [rewrite Z.setbit_neq by done|rewrite Z.clearbit_neq by done]; by apply IH.
  - destruct c; [by rewrite Z.setbit_eq|by rewrite Z.clearbit_eq].
Qed.

(** A 64-bit word read as signed keeps its bits. *)
Lemma wrap_s_testbit z i : 0 <= i < 64 -> Z.testbit (wrap_s 64 z) i = Z.testbit z i.
Proof.
  intros Hi. assert (exists k, wrap_s 64 z = z + k * 2 ^ 64) as [k ->].
  { unfold wrap_s. exists (- ((z + 2 ^ (64 - 1)) / 2 ^ 64)). rewrite Z.mod_eq by done. lia. }
  rewrite <-(Z.mod_pow2_bits_low (z + k * 2 ^ 64) 64 i), <-(Z.mod_pow2_bits_low z 64 i) by lia.
  by rewrite Z_mod_plus_full.
Qed.

Lemma supportFromBitset_testbit z i : 0 <= i -> supportFromBitset z i = Z.testbit z i.
Proof.
  intros Hi. unfold supportFromBitset. rewrite Z.testbit_odd. generalize (Z.shiftr z i). intros x.
  rewrite <-(Z.negb_even x). f_equal. apply eq_true_iff_eq.
  rewrite Z.eqb_eq, Z.even_spec, Z.rem_divide by done. split; intros [k Hk]; exists k; lia.
Qed.

(** The bit of an enumerator is what was computed for it. *)
Lemma support_bit {A} (value : A -> Z) (f : A -> bool) (l : list A) x :
  NoDup (value <$> l) -> Forall (fun v => 0 <= v < 64) (value <$> l) -> x ∈ l ->
  supportFromBitset (wrap_s 64 (bitset ((fun y => (value y, f y)) <$> l))) (value x) = f x.
Proof.
  intros Hnd Hr Hx.
  assert (((fun y => (value y, f y)) <$> l).*1 = value <$> l) as Hfst by (rewrite <-list_fmap_compose; done).
  assert (0 <= value x < 64) as Hv by (apply (proj1 (Forall_forall _ _) Hr), list_elem_of_fmap_2, Hx).
  rewrite supportFromBitset_testbit, wrap_s_testbit by lia. apply bitset_testbit.
  - by rewrite Hfst.
  - by apply (list_elem_of_fmap_2 (fun y => (value y, f y))).
  - rewrite Hfst. eapply Forall_impl; [exact Hr|]. cbn. lia.
Qed.

(** What a session makes of a hint, or a mode, that is not one of its own. *)
Lemma unknown_hint w v :
  mSessionClosed (w_session w) = false -> targetNs (mDescriptor (w_session w)) <> 0 ->
  v <> hint_CPU_LOAD_UP -> v <> hint_CPU_LOAD_DOWN -> v <> hint_CPU_LOAD_RESET -> v <> hint_CPU_LOAD_RESUME ->
  v <> hint_POWER_EFFICIENCY -> hint_sendHint v w = Some (IllegalArgument, w).
Proof.
  intros Hopen Ht Hn1 Hn2 Hn3 Hn4 Hn5. unfold hint_sendHint, send_locked, desc, steady_now, now, read, gets.
  unfold mbind at 1, St_bind at 1. cbn beta iota. rewrite Hopen.
  unfold mbind at 1, St_bind at 1. cbn beta iota. rewrite (proj2 (Z.eqb_neq _ _) Ht).
  assert (exists c, getAdpfProfile w = Some (c, w)) as [c Hc].
  { unfold getAdpfProfile, read, gets, mbind, St_bind. cbn beta iota.
    destruct (mAdpfProfile (w_session w)); eexists; reflexivity. }
  unfold mbind, St_bind. rewrite Hc. cbn beta iota. unfold manager. cbn beta iota.
  rewrite !decide_False by done. cbn. by destruct w.
Qed.

Lemma unknown_mode w v b :
  mSessionClosed (w_session w) = false -> v <> mode_POWER_EFFICIENCY ->
  hint_setMode v b w = Some (IllegalArgument, w).
Proof.
  intros Hopen Hv. unfold hint_setMode, setModeLocked, read, gets. unfold mbind at 1, St_bind at 1. cbn beta iota.
  by rewrite Hopen, decide_False.
Qed.

(** Two enumerators of a list without repeated values have two values. *)
Lemma values_differ {A} (value : A -> Z) (l : list A) x y :
  NoDup (value <$> l) -> x ∈ l -> y ∈ l -> x <> y -> value x <> value y.
Proof.
  intros Hnd [i Hi]%list_elem_of_lookup [j Hj]%list_elem_of_lookup Hne Heq. apply Hne.
  assert (i = j) as ->; [|congruence].
  eapply NoDup_lookup; [exact Hnd| |]; rewrite list_lookup_fmap; [by rewrite Hi|by rewrite Hj; cbn; rewrite Heq].
Qed.

(** ** Properties *)

(** C10: whatever mode and boost calls are made, from whatever state property
    the service starts, the hints of the VR and sustained performance modes that
    are on are those the two flags stand for: one hint for each mode alone, the
    joint one for both, and none otherwise. *)
Theorem mode_hints_match `{!ServiceLaws} state audio rendering t s0 s :
  power_new state audio rendering (power_blank t) = Some (tt, s0) -> rtc mode_step s0 s -> modes_match s.
Proof.
  intros Hnew Hr. pose proof (runs_result _ _ _ _ _ Hnew (power_new_matches state audio rendering t)) as Hs0.
  refine (rtc_invariant mode_step modes_match _ _ _ Hr Hs0). intros s1 s2 [] Hs1.
  - exact (runs_result _ _ _ _ _ ltac:(eassumption) (setMode_matches _ _ _ Hs1)).
  - by eapply setBoost_matches.
Qed.

(** An interaction boost is a hint of one second whatever duration was
    asked for, but it is remembered with the duration asked: after a boost of 5
    seconds, a boost asked for between 1 and 4.25 seconds later, when the hint is
    over, is dropped as if it were covered. *)
Lemma boost_dropped_after_hint s clock1 s1 durationMs clock2 :
  mVRModeOn s = false -> mSustainedPerfModeOn s = false -> 5000 <= durationMs -> in_s 32 (durationMs + 750) ->
  setBoost INTERACTION durationMs clock1 s = Some (tt, s1) ->
  history (p_mgr s1) = history (p_mgr s) ++ [DoHintFor "INTERACTION" 1000000000] ->
  1000000 < calc_timespan_us clock1 clock2 < 4250000 ->
  setBoost INTERACTION 0 clock2 s1 = Some (tt, s1).
Proof.
  intros Hvr Hsu Hd Hin Hr Hh Ht. unfold setBoost, gets, mbind, St_bind, mret, St_ret in Hr. cbn beta iota in Hr.
  rewrite Hvr, Hsu in Hr. cbn [orb] in Hr. unfold interaction_duration in Hr.
  rewrite (proj2 (Z.eqb_neq _ _)) in Hr by lia. rewrite checked_s_in in Hr by done. cbn [mbind option_bind] in Hr.
  rewrite (proj2 (Z.ltb_lt 1500 _)) in Hr by lia.
  assert ((if 5750 <? durationMs + 750 then 5750 else durationMs + 750) = 5750) as Hdur
    by (destruct (Z.ltb_spec 5750 (durationMs + 750)); lia).
  rewrite Hdur in Hr. unfold of_option in Hr. cbn [fmap option_fmap option_map] in Hr.
  destruct (_ <? _).
  { injection Hr as <-. apply (f_equal length) in Hh. rewrite length_app in Hh. cbn in Hh. lia. }
  unfold modify in Hr. cbn beta iota in Hr. injection Hr as <-.
  unfold setBoost, gets, mbind, St_bind, mret, St_ret, of_option. cbn -[calc_timespan_us Z.mul].
  rewrite Hvr, Hsu. cbn [orb]. rewrite (proj2 (Z.ltb_lt _ _)); [done|].
  cbn [s_previous_boost_timespec s_previous_duration with_mgr with_boost]. lia.
Qed.

(** What the service says it supports is what it found: the bit of every
    mode and boost, also that of the sign, is read back as it was computed. *)
Lemma support_bits_roundtrip `{!ServiceLaws} h :
  (forall m, supportFromBitset (modes (makeSupportInfo h)) (mode_value m) = modeSupported h m) /\
  (forall b, b ∈ all_boosts -> supportFromBitset (boosts (makeSupportInfo h)) (boost_value b) = boostSupported h b).
Proof.
  destruct mode_values as [Hmn Hmr], boost_values as [Hbn Hbr]. split.
  - intros m. assert (m ∈ all_modes) as Hm by (apply (bool_decide_unpack _); by destruct m).
    unfold makeSupportInfo. destruct IsAdpfSupported; by apply (support_bit mode_value).
  - intros b Hb. unfold makeSupportInfo. destruct IsAdpfSupported; by apply (support_bit boost_value).
Qed.

(** The service advertises session hints and modes that no session takes:
    with sessions and version 6 of the interface the bits of the GPU and spike
    hints and of the automatic modes are set, and every open session answers
    them with an illegal argument. *)
Lemma advertised_not_served `{!ServiceLaws} h w :
  IsAdpfSupported = true -> 6 <= IPower_version ->
  mSessionClosed (w_session w) = false -> targetNs (mDescriptor (w_session w)) <> 0 ->
  (forall x, x ∈ [SH_GPU_LOAD_UP; SH_GPU_LOAD_DOWN; SH_GPU_LOAD_RESET; SH_CPU_LOAD_SPIKE; SH_GPU_LOAD_SPIKE] ->
     supportFromBitset (sessionHints (makeSupportInfo h)) (hint_value x) = true /\
     hint_sendHint (hint_value x) w = Some (IllegalArgument, w)) /\
  (forall x b, x ∈ [SM_AUTO_CPU; SM_AUTO_GPU] ->
     supportFromBitset (sessionModes (makeSupportInfo h)) (smode_value x) = true /\
     hint_setMode (smode_value x) b w = Some (IllegalArgument, w)).
Proof.
  intros Hadpf Hv Hopen Ht. destruct hint_values as [Hhn Hhr], smode_values as [Hsn Hsr].
  destruct session_enumerators as (E1 & E2 & E3 & E4 & E5 & E6).
  assert (forall x, x ∈ all_hints) as Hall by (intros x; apply (bool_decide_unpack _); by destruct x).
  assert (forall x, x ∈ all_smodes) as Halls by (intros x; apply (bool_decide_unpack _); by destruct x).
  split.
  - intros x Hx. split.
    + unfold makeSupportInfo. rewrite Hadpf. cbn [negb sessionHints].
      rewrite (support_bit hint_value sessionHintSupported all_hints x) by done.
      unfold sessionHintSupported. rewrite (proj2 (Z.ltb_ge _ _)).
      * repeat (apply elem_of_cons in Hx as [->|Hx]; [done|]). by apply elem_of_nil in Hx.
      * repeat (apply elem_of_cons in Hx as [->|Hx]; [cbn; lia|]). by apply elem_of_nil in Hx.
    + rewrite <-?E1. apply unknown_hint; [done|done|rewrite ?E1, ?E2, ?E3, ?E4, ?E5..];
        (apply (values_differ hint_value all_hints); [done|done|done|]);
        (repeat (apply elem_of_cons in Hx as [->|Hx]; [done|]); by apply elem_of_nil in Hx).
  - intros x b Hx. split.
    + unfold makeSupportInfo. rewrite Hadpf. cbn [negb sessionModes].
      rewrite (support_bit smode_value sessionModeSupported all_smodes x) by done.
      unfold sessionModeSupported. rewrite (proj2 (Z.ltb_ge _ _)).
      * repeat (apply elem_of_cons in Hx as [->|Hx]; [done|]). by apply elem_of_nil in Hx.
      * repeat (apply elem_of_cons in Hx as [->|Hx]; [cbn; lia|]). by apply elem_of_nil in Hx.
    + apply unknown_mode; [done|rewrite E6]. apply (values_differ smode_value all_smodes); [done|done|done|].
      repeat (apply elem_of_cons in Hx as [->|Hx]; [done|]). by apply elem_of_nil in Hx.
Qed.
End ServiceProofs.

(** ** Witnesses *)

#[local] Existing Instances demo_power demo_power_laws demo_hint.

Definition index_of {A} `{EqDecision A} (l : list A) (x : A) : Z :=
  Z.of_nat (default 0%nat (fst <$> list_find (fun y => y = x) l)).

#[global] Instance Boost_eq_dec : EqDecision Boost.
Proof. solve_decision. Defined.

Definition demo_service : @ServiceEnv demo_power demo_hint := {|
  mode_value := index_of all_modes;
  Mode_toString m := match m with VR => "VR" | SUSTAINED_PERFORMANCE => "SUSTAINED_PERFORMANCE" | _ => "LAUNCH" end;
  boost_value := index_of all_boosts; Boost_toString _ := "INTERACTION";
  hint_value := index_of all_hints; smode_value := index_of all_smodes;
  tag_value t := match t with ST_SURFACEFLINGER => 1 | _ => 0 end;
  IPower_version := 6; IsAdpfSupported := true; IsAdpfProfileSupported _ := false
|}.
#[local] Existing Instance demo_service.

Lemma demo_service_laws : ServiceLaws.
Proof.
  split.
  - intros m Hm1 Hm2. destruct m; try done; by apply (bool_decide_unpack _).
  - intros b. by apply (bool_decide_unpack _).
  - split; apply (bool_decide_unpack _); vm_compute; exact I.
  - split; apply (bool_decide_unpack _); vm_compute; exact I.
  - split; apply (bool_decide_unpack _); vm_compute; exact I.
  - split; apply (bool_decide_unpack _); vm_compute; exact I.
  - split_and!; reflexivity.
Qed.

(** The service after a program. *)
Definition after {A} (m : St Power A) (s : Power) : Power := match m s with Some (_, s') => s' | None => s end.

Definition demo_vr : Power := after (power_new "VR" "" "") (power_blank 1000).

Lemma mode_hints_match_witness :
  hint_on (history (p_mgr (after (setMode SUSTAINED_PERFORMANCE true) demo_vr))) "VR_SUSTAINED_PERFORMANCE" = true /\
  modes_match (after (setMode SUSTAINED_PERFORMANCE true) demo_vr).
Proof.
  split; [vm_compute; reflexivity|].
  eapply (mode_hints_match (H2 := demo_service_laws) "VR" "" "" 1000 demo_vr); [vm_compute; reflexivity|].
  eapply rtc_l; [|apply rtc_refl]. apply (StepMode SUSTAINED_PERFORMANCE true). vm_compute. reflexivity.
Defined.

Definition demo_idle : Power := after (power_new "" "" "") (power_blank 1000).
Definition demo_boosted : Power := after (setBoost INTERACTION 5000 (100, 0)) demo_idle.

(** Two seconds later. *)
