(* ===== verification/Channels.v ===== *)
(** * power/SessionChannel, ChannelGroup, ChannelManager: message queues to sessions

    A client (a process, [tgid], of a user, [uid]) may send its session calls
    through a fast message queue, a channel.  Sixteen channels share a group: one
    thread that waits on one event flag, with a write bit and a read bit per
    channel.  The manager hands channels out and takes them back.

    The queue and flag libraries are not in the repository: a queue is what the
    thread can see of it (is it valid, what can be read, does the read succeed),
    an event flag the word it holds.  The sessions are an interface,
    [PowerSessions]: what a message makes the thread call.  The flag that the
    destructor sets for the thread is read once a round.  [None] is a failed
    fatal check or undefined behaviour. *)

From S2P Require Import Prelude SessionRecords.

Definition kWriteBits : Z := 0x0000ffff.
Definition kReadBits : Z := 0xffff0000.
Definition kMaxChannels : Z := 16.

(** ** Data *)

(** The contents of a message; [COther] stands for a tag without a case. *)
Inductive Contents :=
  | CHint (hint : Z)
  | CTargetDuration (targetDurationNanos : Z)
  | CWorkDuration (durationNanos : Z)
  | CMode (modeInt : Z) (enabled : bool)
  | COther (tag : Z).

Record ChannelMessage := mkMsg { sessionID : Z; timeStamp : Z; data : Contents }.

Record Queue := mkQueue { q_valid : bool; q_messages : list ChannelMessage; q_readable : bool }.

Record SessionChannel := mkChannel {
  mTgid : Z; mUid : Z; mId : Z; mReadMask : Z; mWriteMask : Z; mChannelQueue : Queue
}.

Record ChannelGroup := mkGroup {
  mGroupId : Z; mLiveChannels : Z; mChannels : list (option SessionChannel)
}.

Record ChannelManager := mkManager {
  mChannelGroups : gmap Z ChannelGroup; mChannelMap : gmap Z Z
}.

(** The two unions of two [int32_t] over an [int64_t], little-endian. *)
Definition union64 (lo hi : Z) : Z := hi * 2 ^ 32 + wrap_u 32 lo.
Definition union_lo (v : Z) : Z := wrap_s 32 v.
Definition union_hi (v : Z) : Z := v / 2 ^ 32.

(** ** Channels and groups *)

(** [1u << n]. *)
Definition u32_bit (n : Z) : option Z := if decide (0 <= n < 32) then Some (Z.shiftl 1 n) else None.

Definition channel_new (tgid uid id offset : Z) : option SessionChannel :=
  r ← u32_bit (offset + 16); w ← u32_bit offset;
  Some (mkChannel tgid uid id r w (mkQueue true [] true)).

Definition group_new (id : Z) : ChannelGroup := mkGroup id 0 (replicate 16 None).

Definition removeChannel (g : ChannelGroup) (slot : Z) : option (bool * ChannelGroup) :=
  c ← arr_get (mChannels g) slot;
  match c with
  | None => Some (false, g)
  | Some _ =>
      l ← arr_set (mChannels g) slot None;
      Some (true, mkGroup (mGroupId g) (mLiveChannels g - 1) l)
  end.

(** The slot the loop stops at. *)
Definition free_slot (l : list (option SessionChannel)) : Z :=
  match list_find (fun c => c = None) l with
  | Some (i, _) => Z.of_nat i
  | None => kMaxChannels
  end.

Definition createChannel (g : ChannelGroup) (tgid uid : Z) : option (SessionChannel * ChannelGroup) :=
  let slot := free_slot (mChannels g) in
  if slot =? kMaxChannels then None
  else
    c ← channel_new tgid uid (union64 (mGroupId g) slot) slot;
    l ← arr_set (mChannels g) slot (Some c);
    Some (c, mkGroup (mGroupId g) (mLiveChannels g + 1) l).

Definition getChannel (g : ChannelGroup) (slot : Z) : option SessionChannel :=
  c ← arr_get (mChannels g) slot; c.

(** ** The manager *)

Definition closeChannel (m : ChannelManager) (tgid uid : Z) : option (bool * ChannelManager) :=
  let key := union64 tgid uid in
  match mChannelMap m !! key with
  | None => Some (false, m)
  | Some value =>
      match mChannelGroups m !! union_lo value with
      | None => Some (false, m)
      | Some g =>
          '(removed, g') ← removeChannel g (union_hi value);
          if negb removed
          then Some (false, mkManager (<[union_lo value := g']> (mChannelGroups m)) (mChannelMap m))
          else
            Some (true,
              mkManager
                (if mLiveChannels g' =? 0 then delete (union_lo value) (mChannelGroups m)
                 else <[union_lo value := g']> (mChannelGroups m))
                (delete key (mChannelMap m)))
      end
  end.

Definition has_room (groups : gmap Z ChannelGroup) (id : Z) : bool :=
  match groups !! id with Some g => mLiveChannels g <? kMaxChannels | None => false end.

(** The first group, in the order of the map, with room; -1 for none. *)
Definition group_with_room (groups : gmap Z ChannelGroup) : Z :=
  match list_find (fun id => has_room groups id = true) (sorted_keys groups) with
  | Some (_, id) => id
  | None => -1
  end.

(** The id of a new group. *)
Definition next_group_id (groups : gmap Z ChannelGroup) : option Z :=
  match last (sorted_keys groups) with
  | None => Some 0
  | Some id => if decide (in_s 32 (id + 1)) then Some (id + 1) else None
  end.

Definition getOrCreateChannel (m : ChannelManager) (tgid uid : Z)
    : option (SessionChannel * ChannelManager) :=
  let key := union64 tgid uid in
  match mChannelMap m !! key with
  | Some value =>
      g ← mChannelGroups m !! union_lo value;
      c ← getChannel g (union_hi value);
      Some (c, m)
  | None =>
      let groupId := group_with_room (mChannelGroups m) in
      '(groupId, groups) ←
        (if groupId =? -1
         then id ← next_group_id (mChannelGroups m);
              Some (id, <[id := group_new id]> (mChannelGroups m))
         else Some (groupId, mChannelGroups m));
      g ← groups !! groupId;
      '(c, g') ← createChannel g tgid uid;
      Some (c, mkManager (<[groupId := g']> groups) (<[key := mId c]> (mChannelMap m)))
  end.

(** The answer: the group whose flag is shared, and the two masks. *)
Definition getChannelConfig (m : ChannelManager) (tgid uid : Z)
    : option (option (Z * Z * Z) * ChannelManager) :=
  '(c, m') ← getOrCreateChannel m tgid uid;
  if negb (q_valid (mChannelQueue c)) then Some (None, m')
  else
    g ← mChannelGroups m' !! union_lo (mId c);
    Some (Some (mGroupId g, mReadMask c, mWriteMask c), m').

Definition getGroupCount (m : ChannelManager) : Z := Z.of_nat (size (mChannelGroups m)).

Definition getChannelCount (m : ChannelManager) : Z :=
  foldl (fun out g => out + mLiveChannels g) 0 (map_to_list (mChannelGroups m)).*2.

(** ** The group thread *)

(** What the thread calls on a session. *)
Class PowerSessions (S : Type) := {
  getSession : Z -> S -> bool * S;
  sendHint : Z -> Z -> S -> S;
  updateTargetWorkDuration : Z -> Z -> S -> S;
  reportActualWorkDuration : Z -> list WorkDuration -> S -> S;
  setMode : Z -> Z -> bool -> S -> S
}.

(** A work duration for session [sid]. *)
Definition work_of (sid : Z) (m : ChannelMessage) : option WorkDuration :=
  match data m with
  | CWorkDuration d => if sessionID m =? sid then Some (mkWork (timeStamp m) d) else None
  | _ => None
  end.

(** The durations the inner loop collects: those of the longest prefix. *)
Fixpoint work_run (sid : Z) (l : list ChannelMessage) : list WorkDuration :=
  match l with
  | [] => []
  | m :: l => match work_of sid m with Some d => d :: work_run sid l | None => [] end
  end.

Section Thread.
Context {S : Type} `{PowerSessions S}.

(** The loop over the messages.  [skip] is how far [messageIndex] is ahead
    of the list: the inner loop leaves it behind the run, and the outer loop
    adds one more. *)
Fixpoint dispatch (skip : nat) (messages : list ChannelMessage) (s : S) : S :=
  match messages with
  | [] => s
  | m :: rest =>
      match skip with
      | Datatypes.S k => dispatch k rest s
      | O =>
          let '(found, s) := getSession (sessionID m) s in
          if found then
            match data m with
            | CHint h => dispatch 0 rest (sendHint (sessionID m) h s)
            | CTargetDuration d => dispatch 0 rest (updateTargetWorkDuration (sessionID m) d s)
            | CWorkDuration _ =>
                let durations := work_run (sessionID m) messages in
                dispatch (length durations) rest
                  (reportActualWorkDuration (sessionID m) durations s)
            | CMode i b => dispatch 0 rest (setMode (sessionID m) i b s)
            | COther _ => dispatch 0 rest s
            end
          else dispatch 0 rest s
      end
  end.

(** The state of a round: the group, the users that broke their queue
    (shared by the groups), the wake-ups of readers, the sessions. *)
Record Round := mkRound {
  r_group : ChannelGroup; r_blocklist : gset Z; r_woken : list Z; r_sessions : S
}.

Definition drained (c : SessionChannel) : SessionChannel :=
  mkChannel (mTgid c) (mUid c) (mId c) (mReadMask c) (mWriteMask c)
    (mkQueue (q_valid (mChannelQueue c)) [] (q_readable (mChannelQueue c))).

(** The body of the loop over the channels. *)
Definition serve_channel (channelNum : Z) (r : Round) : option Round :=
  channel ← arr_get (mChannels (r_group r)) channelNum;
  match channel with
  | None => Some r
  | Some c =>
      let q := mChannelQueue c in
      if negb (q_valid q) then Some r
      else if bool_decide (mUid c ∈ r_blocklist r) then Some r
      else if (length (q_messages q) =? 0)%nat then Some r
      else if negb (q_readable q)
      then Some (mkRound (r_group r) ({[mUid c]} ∪ r_blocklist r) (r_woken r) (r_sessions r))
      else
        l ← arr_set (mChannels (r_group r)) channelNum (Some (drained c));
        Some (mkRound (mkGroup (mGroupId (r_group r)) (mLiveChannels (r_group r)) l)
                (r_blocklist r) (r_woken r ++ [mReadMask c])
                (dispatch 0 (q_messages q) (r_sessions r)))
  end.

(** [std::countr_zero] of a 32-bit word. *)
Fixpoint pos_ctz (p : positive) : Z := match p with xO p => 1 + pos_ctz p | _ => 0 end.
Definition countr_zero (z : Z) : Z := match z with Zpos p => pos_ctz p | _ => 32 end.

(** The loop over the flag's bits, with fuel; the outer [None] is fuel that
    ran out. *)
Fixpoint flag_loop (fuel : nat) (flagState : Z) (r : Round) : option (option Round) :=
  let channelNum := countr_zero flagState in
  if channelNum <? kMaxChannels then
    match fuel with
    | O => None
    | Datatypes.S fuel =>
        match serve_channel channelNum r with
        | None => Some None
        | Some r' => flag_loop fuel (Z.land flagState (flagState - 1)) r'
        end
    end
  else Some (Some r).

(** One turn of the thread's loop after the wait, whose word [flag] is
    masked with the write bits. *)
Definition group_round (destructing : bool) (flag : Z) (r : Round) : option Round :=
  if destructing then Some r
  else default None (flag_loop 32 (Z.land flag kWriteBits) r).
End Thread.

(** ** Steps *)

(** Queues change under the hands of the clients, within their channel. *)
Definition with_queue (c : SessionChannel) (q : Queue) : SessionChannel :=
  mkChannel (mTgid c) (mUid c) (mId c) (mReadMask c) (mWriteMask c) q.

Definition with_slot (g : ChannelGroup) (k : nat) (c : SessionChannel) : ChannelGroup :=
  mkGroup (mGroupId g) (mLiveChannels g) (<[k := Some c]> (mChannels g)).

Inductive chan_step {S} `{PowerSessions S} : ChannelManager -> ChannelManager -> Prop :=
  | StepConfig m tgid uid a m' : in_s 32 tgid -> in_s 32 uid ->
      getChannelConfig m tgid uid = Some (a, m') -> chan_step m m'
  | StepClose m tgid uid b m' : in_s 32 tgid -> in_s 32 uid ->
      closeChannel m tgid uid = Some (b, m') -> chan_step m m'
  | StepClient m gid g k c q : mChannelGroups m !! gid = Some g ->
      mChannels g !! k = Some (Some c) ->
      chan_step m (mkManager (<[gid := with_slot g k (with_queue c q)]> (mChannelGroups m))
                     (mChannelMap m))
  | StepRound m gid g destructing flag blocklist woken (s : S) r :
      mChannelGroups m !! gid = Some g ->
      group_round destructing flag (mkRound g blocklist woken s) = Some r ->
      chan_step m (mkManager (<[gid := r_group r]> (mChannelGroups m)) (mChannelMap m)).

(** ** Invariant *)

Definition live (l : list (option SessionChannel)) : list SessionChannel := omap id l.

(** The channel in slot [k] of group [gid]. *)
Record channel_at (gid : Z) (k : nat) (c : SessionChannel) : Prop := {
  ca_id : mId c = union64 gid (Z.of_nat k);
  ca_write : mWriteMask c = 2 ^ Z.of_nat k;
  ca_read : mReadMask c = 2 ^ (Z.of_nat k + 16);
  ca_tgid : in_s 32 (mTgid c);
  ca_uid : in_s 32 (mUid c)
}.

Record group_ok (gid : Z) (g : ChannelGroup) : Prop := {
  go_id : mGroupId g = gid;
  go_range : 0 <= gid < 2 ^ 31;
  go_length : length (mChannels g) = 16%nat;
  go_live : mLiveChannels g = Z.of_nat (length (live (mChannels g)));
  go_channels : forall k c, mChannels g !! k = Some (Some c) -> channel_at gid k c
}.

(** Channels and map entries correspond, and no group is empty. *)
Record chan_ok (m : ChannelManager) : Prop := {
  co_group : forall gid g, mChannelGroups m !! gid = Some g -> group_ok gid g /\ 0 < mLiveChannels g;
  co_mapped : forall gid g k c, mChannelGroups m !! gid = Some g ->
    mChannels g !! k = Some (Some c) -> mChannelMap m !! union64 (mTgid c) (mUid c) = Some (mId c);
  co_map : forall key v, mChannelMap m !! key = Some v ->
    exists gid g k c, mChannelGroups m !! gid = Some g /\ mChannels g !! k = Some (Some c) /\
      key = union64 (mTgid c) (mUid c) /\ v = mId c
}.

(** ** Lemmas: the unions *)

Lemma union64_lo lo hi : in_s 32 lo -> union_lo (union64 lo hi) = lo.
Proof.
  unfold union_lo, union64, wrap_s, wrap_u, in_s. intros Hlo. simpl in Hlo.
  rewrite <-Z.add_assoc, Z.add_comm, Z.mod_add by done.
  rewrite Z.add_mod_idemp_l by done. rewrite Z.mod_small; simpl; lia.
Qed.

Lemma union64_hi lo hi : union_hi (union64 lo hi) = hi.
Proof.
  unfold union_hi, union64, wrap_u. rewrite Z.div_add_l by done.
  rewrite Z.div_small by (apply Z.mod_pos_bound; done). lia.
Qed.

Lemma union64_inj a b a' b' :
  in_s 32 a -> in_s 32 a' -> union64 a b = union64 a' b' -> a = a' /\ b = b'.
Proof.
  intros Ha Ha' Heq. split.
  - rewrite <-(union64_lo a b Ha), Heq. by apply union64_lo.
  - rewrite <-(union64_hi a b), Heq. apply union64_hi.
Qed.

Lemma in_s_nonneg z : 0 <= z < 2 ^ 31 -> in_s 32 z.
Proof. unfold in_s. simpl. lia. Qed.

(** ** Lemmas: groups *)

Lemma live_cons x l : length (live (x :: l)) = (match x with Some _ => 1 | None => 0 end + length (live l))%nat.
Proof. by destruct x. Qed.

Lemma live_insert l k x :
  (k < length l)%nat ->
  Z.of_nat (length (live (<[k := x]> l))) =
  Z.of_nat (length (live l)) - (match l !! k with Some (Some _) => 1 | _ => 0 end)
  + (match x with Some _ => 1 | None => 0 end).
Proof.
  revert k. induction l as [|y l IH]; intros k Hk; [simpl in Hk; lia|].
  destruct k as [|k].
  - change (<[0%nat := x]> (y :: l)) with (x :: l). rewrite !live_cons. cbn [lookup list_lookup].
    destruct x, y; lia.
  - change (<[S k := x]> (y :: l)) with (y :: <[k := x]> l).
    change ((y :: l) !! S k) with (l !! k).
    rewrite !live_cons, !Nat2Z.inj_add, IH by (simpl in Hk; lia). ring.
Qed.

Lemma free_slot_spec l :
  (free_slot l < Z.of_nat (length l) /\ 0 <= free_slot l /\ l !! Z.to_nat (free_slot l) = Some None) \/
  (free_slot l = kMaxChannels /\ length (live l) = length l).
Proof.
  unfold free_slot. destruct (list_find _ l) as [[i c]|] eqn:Hf.
  - apply list_find_Some in Hf as (Hi & -> & _). left. rewrite Nat2Z.id.
    pose proof (lookup_lt_Some _ _ _ Hi). split_and!; [lia|lia|done].
  - right. split; [done|]. apply list_find_None in Hf.
    induction Hf as [|x l Hx Hl IH]; [done|]. destruct x; [|done]. rewrite live_cons, IH. done.
Qed.

Lemma createChannel_ok gid g tgid uid :
  group_ok gid g -> mLiveChannels g < kMaxChannels -> in_s 32 tgid -> in_s 32 uid ->
  exists k c g', createChannel g tgid uid = Some (c, g') /\ group_ok gid g' /\
    mChannels g !! k = Some None /\ mChannels g' = <[k := Some c]> (mChannels g) /\
    mTgid c = tgid /\ mUid c = uid /\ mId c = union64 gid (Z.of_nat k) /\
    mLiveChannels g' = mLiveChannels g + 1 /\ q_valid (mChannelQueue c) = true.
Proof.
  intros [Hid Hr Hl Hlive Hc] Hroom Ht Hu. unfold createChannel, kMaxChannels in *.
  destruct (free_slot_spec (mChannels g)) as [(Hlt & Hpos & Hk)|(_ & Hfull)]; [|lia].
  rewrite Hl in Hlt. rewrite (proj2 (Z.eqb_neq _ _)) by lia.
  unfold channel_new, u32_bit. rewrite !decide_True by lia. cbn [mbind option_bind].
  unfold arr_set. rewrite decide_True by lia. cbn [mbind option_bind].
  set (k := Z.to_nat (free_slot (mChannels g))) in *.
  assert (free_slot (mChannels g) = Z.of_nat k) as Heq by lia. rewrite !Heq.
  exists k. do 2 eexists. split; [done|]. rewrite Hid.
  assert (k < length (mChannels g))%nat as Hkl by lia.
  split_and!; try done. split; cbn [mGroupId mChannels mLiveChannels]; [done|done|by rewrite length_insert| |].
  - rewrite live_insert by done. rewrite Hk. lia.
  - intros j c' [(<- & [= <-] & _)|[Hne Hj]]%list_lookup_insert_Some; [|by apply Hc].
    split; cbn [mId mWriteMask mReadMask mTgid mUid]; [done|apply Z.shiftl_1_l..|done|done].
Qed.

Lemma removeChannel_ok gid g k c :
  group_ok gid g -> mChannels g !! k = Some (Some c) ->
  exists g', removeChannel g (Z.of_nat k) = Some (true, g') /\ group_ok gid g' /\
    mChannels g' = <[k := None]> (mChannels g) /\ mLiveChannels g' = mLiveChannels g - 1.
Proof.
  intros [Hid Hr Hl Hlive Hc] Hk. pose proof (lookup_lt_Some _ _ _ Hk) as Hlt.
  unfold removeChannel. rewrite arr_get_nat, Hk. cbn [mbind option_bind].
  unfold arr_set. rewrite decide_True by lia. cbn [mbind option_bind]. rewrite Nat2Z.id.
  eexists. split; [done|]. split_and!; [|done|done].
  split; cbn [mGroupId mChannels mLiveChannels]; [done|done|by rewrite length_insert| |].
  - rewrite live_insert by done. rewrite Hk. lia.
  - intros j c' [(<- & [=] & _)|[Hne Hj]]%list_lookup_insert_Some. by apply Hc.
Qed.

(** A group without live channels has none. *)
Lemma live_elem l k c : l !! k = Some (Some c) -> (0 < length (live l))%nat.
Proof.
  intros Hk. assert (c ∈ live l) as Hin.
  { unfold live. apply list_elem_of_omap. exists (Some c). split; [|done]. by eapply list_elem_of_lookup_2. }
  destruct (live l); [by apply elem_of_nil in Hin|simpl; lia].
Qed.

(** ** Lemmas: the thread changes queues only *)

Definition strip (c : SessionChannel) : SessionChannel := with_queue c (mkQueue true [] true).

Definition same_shape (g g' : ChannelGroup) : Prop :=
  mGroupId g' = mGroupId g /\ mLiveChannels g' = mLiveChannels g /\
  (option_map strip <$> mChannels g') = (option_map strip <$> mChannels g).

Lemma same_shape_slot g k c q :
  mChannels g !! k = Some (Some c) -> same_shape g (with_slot g k (with_queue c q)).
Proof.
  intros Hk. split_and!; [done|done|]. cbn [with_slot mChannels]. rewrite list_fmap_insert.
  apply list_insert_id. rewrite list_lookup_fmap, Hk. done.
Qed.

Lemma same_shape_trans g1 g2 g3 : same_shape g1 g2 -> same_shape g2 g3 -> same_shape g1 g3.
Proof. unfold same_shape. intros (-> & -> & ->) (-> & -> & ->). done. Qed.

Lemma same_shape_lookup g g' k c' :
  same_shape g g' -> mChannels g' !! k = Some (Some c') ->
  exists c q, mChannels g !! k = Some (Some c) /\ c' = with_queue c q.
Proof.
  intros (_ & _ & Heq) Hk.
  assert ((option_map strip <$> mChannels g') !! k = Some (Some (strip c'))) as Hs
    by (by rewrite list_lookup_fmap, Hk).
  rewrite Heq, list_lookup_fmap in Hs. destruct (mChannels g !! k) as [[c|]|]; simplify_eq/=.
  exists c, (mChannelQueue c'). split; [done|]. destruct c, c'. unfold strip, with_queue in *.
  cbn in *. congruence.
Qed.

Lemma same_shape_sym g g' : same_shape g g' -> same_shape g' g.
Proof. unfold same_shape. intros (-> & -> & ->). done. Qed.

Lemma same_shape_live g g' : same_shape g g' -> length (live (mChannels g')) = length (live (mChannels g)).
Proof.
  intros (_ & _ & Heq).
  assert (forall l, length (live l) = length (live (option_map strip <$> l))) as Hl.
  { intros l. induction l as [|[c|] l IH]; [done|..]; rewrite fmap_cons, !live_cons, IH; done. }
  by rewrite (Hl (mChannels g')), Heq, <-Hl.
Qed.

Lemma same_shape_ok gid g g' : same_shape g g' -> group_ok gid g -> group_ok gid g'.
Proof.
  intros Hs [Hid Hr Hl Hlive Hc]. pose proof Hs as (Hid' & Hlive' & Heq). split.
  - congruence.
  - done.
  - by rewrite <-Hl, <-(length_fmap (option_map strip)), Heq, length_fmap.
  - by rewrite Hlive', (same_shape_live g g').
  - intros k c' Hk. destruct (same_shape_lookup g g' k c' Hs Hk) as (c & q & Hkc & ->).
    destruct (Hc k c Hkc). by split.
Qed.

Lemma same_shape_keeps m gid g g' :
  chan_ok m -> mChannelGroups m !! gid = Some g -> same_shape g g' ->
  chan_ok (mkManager (<[gid := g']> (mChannelGroups m)) (mChannelMap m)).
Proof.
  intros [Hg Hm Hmap] Hgid Hs. split; cbn [mChannelGroups mChannelMap].
  - intros gid1 g1 [[<- <-]|[Hne Hg1]]%lookup_insert_Some; [|by apply Hg].
    destruct (Hg gid g Hgid) as [Hok Hpos]. split; [by eapply same_shape_ok|].
    destruct Hs as (_ & -> & _). done.
  - intros gid1 g1 k c [[<- <-]|[Hne Hg1]]%lookup_insert_Some Hk; [|by eapply Hm].
    destruct (same_shape_lookup g g' k c Hs Hk) as (c0 & q & Hk0 & ->). by apply (Hm gid g k c0).
  - intros key v Hv. destruct (Hmap key v Hv) as (gid1 & g1 & k & c & Hg1 & Hk & -> & ->).
    destruct (decide (gid1 = gid)) as [->|Hne].
    + assert (g1 = g) as -> by congruence.
      destruct (same_shape_lookup g' g k c (same_shape_sym _ _ Hs) Hk) as (c0 & q & Hk0 & ->).
      exists gid, g', k, c0. by rewrite lookup_insert_eq.
    + exists gid1, g1, k, c. by rewrite lookup_insert_ne.
Qed.

Lemma serve_channel_shape {S} `{PowerSessions S} n (r r' : Round) :
  serve_channel n r = Some r' -> same_shape (r_group r) (r_group r').
Proof.
  unfold serve_channel. intros Hr. inv_some Hr; try done.
  unfold arr_get in *. unfold arr_set in *. split_matches. cbn [r_group].
  by apply (same_shape_slot (r_group r) (Z.to_nat n) s (mkQueue (q_valid (mChannelQueue s)) [] _)).
Qed.

Lemma flag_loop_shape {S} `{PowerSessions S} : forall fuel flag (r r' : Round),
  flag_loop fuel flag r = Some (Some r') -> same_shape (r_group r) (r_group r').
Proof.
  induction fuel as [|fuel IH]; intros flag r r'; simpl; case_match; try done; try (by intros [= <-]).
  destruct (serve_channel (countr_zero flag) r) as [r1|] eqn:Hs; [|done]. intros Hl.
  eapply same_shape_trans; [by eapply serve_channel_shape|by eapply IH].
Qed.

(** ** Lemmas: the manager *)

Lemma last_sorted (l : list Z) x :
  StronglySorted Z.le l -> last l = Some x -> forall y, y ∈ l -> y <= x.
Proof.
  intros Hs. induction Hs as [|z l Hs IH Hz]; [done|]. intros Hl y Hy.
  destruct l as [|w l]; [simpl in Hl; simplify_eq; apply list_elem_of_singleton in Hy; lia|].
  rewrite last_cons_cons in Hl. apply elem_of_cons in Hy as [->|Hy]; [|by apply IH].
  rewrite Forall_forall in Hz. apply Hz. by apply last_Some_elem_of.
Qed.

Lemma next_group_id_spec m id :
  chan_ok m -> next_group_id (mChannelGroups m) = Some id ->
  mChannelGroups m !! id = None /\ 0 <= id < 2 ^ 31.
Proof.
  intros Hok. unfold next_group_id. destruct (last _) as [x|] eqn:Hl.
  - case_decide as Hx; [|done]. intros [= <-].
    assert (x ∈ sorted_keys (mChannelGroups m)) as Hin by (by apply last_Some_elem_of).
    apply elem_of_sorted_keys in Hin as [g Hg].
    destruct (co_group m Hok x g Hg) as [[_ Hr _ _ _] _]. unfold in_s in Hx. simpl in *.
    split; [|lia]. destruct (mChannelGroups m !! (x + 1)) as [g'|] eqn:Hg'; [|done].
    pose proof (last_sorted _ _ (sorted_keys_StronglySorted _) Hl (x + 1)) as Hle.
    rewrite elem_of_sorted_keys in Hle. specialize (Hle ltac:(eauto)). lia.
  - intros [= <-]. split; [|lia]. apply last_None in Hl.
    destruct (mChannelGroups m !! 0) as [g|] eqn:Hg; [|done].
    assert (0 ∈ sorted_keys (mChannelGroups m)) as Hin by (apply elem_of_sorted_keys; eauto).
    rewrite Hl in Hin. by apply elem_of_nil in Hin.
Qed.

Lemma group_with_room_spec m :
  chan_ok m ->
  (exists g, mChannelGroups m !! group_with_room (mChannelGroups m) = Some g /\
     mLiveChannels g < kMaxChannels /\ group_with_room (mChannelGroups m) <> -1) \/
  group_with_room (mChannelGroups m) = -1.
Proof.
  intros Hok. unfold group_with_room. destruct (list_find _ _) as [[i id]|] eqn:Hf; [left|by right].
  apply list_find_Some in Hf as (_ & Hr & _). unfold has_room in Hr.
  destruct (mChannelGroups m !! id) as [g|] eqn:Hg; [|done]. exists g. apply Z.ltb_lt in Hr.
  destruct (co_group m Hok id g Hg) as [[_ Hr' _ _ _] _]. split_and!; [done|done|lia].
Qed.

(** The place a client's map entry points to. *)
Lemma mapped_channel m tgid uid v :
  chan_ok m -> in_s 32 tgid -> in_s 32 uid -> mChannelMap m !! union64 tgid uid = Some v ->
  exists gid g k c, mChannelGroups m !! gid = Some g /\ mChannels g !! k = Some (Some c) /\
    group_ok gid g /\ v = union64 gid (Z.of_nat k) /\ channel_at gid k c /\
    mTgid c = tgid /\ mUid c = uid.
Proof.
  intros Hok Ht Hu Hv. destruct (co_map m Hok _ _ Hv) as (gid & g & k & c & Hg & Hk & Hkey & ->).
  destruct (co_group m Hok gid g Hg) as [Hgo _]. pose proof (go_channels gid g Hgo k c Hk) as Hca.
  apply union64_inj in Hkey as [-> ->]; [|done|apply Hca].
  exists gid, g, k, c. split_and!; try done. apply Hca.
Qed.

(** What opening does to the manager: the client's channel [c] in slot [k] of
    group [gid]. *)
Record opened (m m' : ChannelManager) (tgid uid : Z) (c : SessionChannel) (gid : Z) (k : nat) : Prop := {
  op_ok : chan_ok m';
  op_group : exists g, mChannelGroups m' !! gid = Some g /\ mChannels g !! k = Some (Some c);
  op_map : mChannelMap m' = <[union64 tgid uid := union64 gid (Z.of_nat k)]> (mChannelMap m);
  op_client : mTgid c = tgid /\ mUid c = uid
}.

(** Adding a channel to a group that has room. *)
Lemma add_channel_ok groups0 m gid g tgid uid :
  chan_ok m -> in_s 32 tgid -> in_s 32 uid -> mChannelMap m !! union64 tgid uid = None ->
  groups0 !! gid = Some g -> group_ok gid g -> mLiveChannels g < kMaxChannels ->
  (forall id, id <> gid -> groups0 !! id = mChannelGroups m !! id) ->
  (mChannelGroups m !! gid = Some g \/ (mChannelGroups m !! gid = None /\ live (mChannels g) = [])) ->
  exists k c g', createChannel g tgid uid = Some (c, g') /\
    opened m (mkManager (<[gid := g']> groups0) (<[union64 tgid uid := mId c]> (mChannelMap m)))
      tgid uid c gid k.
Proof.
  intros Hok Ht Hu Hnone Hg Hgo Hroom Hother Hold.
  destruct (createChannel_ok gid g tgid uid Hgo Hroom Ht Hu)
    as (k & c & g' & Hc & Hgo' & Hk & Hl & Hct & Hcu & Hid & Hlive & _).
  pose proof (lookup_lt_Some _ _ _ Hk) as Hkl.
  exists k, c, g'. split; [done|].
  assert (forall j c', mChannels g' !! j = Some (Some c') ->
    (j = k /\ c' = c) \/ (j <> k /\ mChannels g !! j = Some (Some c'))) as Hslots.
  { intros j c'. rewrite Hl. intros [(<- & [= <-] & _)|[Hne Hj]]%list_lookup_insert_Some; auto. }
  assert (forall j c', mChannels g !! j = Some (Some c') -> mChannelGroups m !! gid = Some g) as Hin.
  { intros j c' Hj. destruct Hold as [?|[_ Hnil]]; [done|]. apply live_elem in Hj.
    rewrite Hnil in Hj. simpl in Hj. lia. }
  split; [split|..]; cbn [mChannelGroups mChannelMap].
  - intros id h [[<- <-]|[Hne Hh]]%lookup_insert_Some.
    + split; [done|]. destruct Hgo as [_ _ _ Hgl _]. lia.
    + rewrite Hother in Hh by done. by apply (co_group m Hok).
  - intros id h j c' [[<- <-]|[Hne Hh]]%lookup_insert_Some Hj.
    + destruct (Hslots j c' Hj) as [[-> ->]|[Hjk Hj0]].
      * by rewrite Hct, Hcu, lookup_insert_eq.
      * rewrite lookup_insert_ne; [exact (co_mapped m Hok gid g j c' (Hin j c' Hj0) Hj0)|].
        intros Heq. pose proof (co_mapped m Hok gid g j c' (Hin j c' Hj0) Hj0). congruence.
    + rewrite Hother in Hh by done. rewrite lookup_insert_ne; [by eapply (co_mapped m Hok id h)|].
      intros Heq. pose proof (co_mapped m Hok id h j c' Hh Hj). congruence.
  - intros key v [[<- <-]|[Hne Hv]]%lookup_insert_Some.
    + exists gid, g', k, c. rewrite lookup_insert_eq, Hl, list_lookup_insert_eq by done. by subst.
    + destruct (co_map m Hok key v Hv) as (id & h & j & c' & Hh & Hj & -> & ->).
      destruct (decide (id = gid)) as [->|Hne'].
      * destruct Hold as [Hm|[Hm _]]; [|congruence]. assert (h = g) as -> by congruence.
        exists gid, g', j, c'. rewrite lookup_insert_eq, Hl, list_lookup_insert_ne; [done|congruence].
      * exists id, h, j, c'. rewrite lookup_insert_ne, Hother by done. done.
  - exists g'. rewrite lookup_insert_eq, Hl, list_lookup_insert_eq by done. done.
  - by rewrite Hid.
  - done.
Qed.

Lemma group_new_ok gid : 0 <= gid < 2 ^ 31 -> group_ok gid (group_new gid).
Proof.
  intros Hr. split; [done|done|done|done|].
  intros k c [Hc _]%lookup_replicate. done.
Qed.

Lemma open_channel m tgid uid :
  chan_ok m -> in_s 32 tgid -> in_s 32 uid ->
  (getOrCreateChannel m tgid uid = None -> next_group_id (mChannelGroups m) = None) /\
  (forall c m', getOrCreateChannel m tgid uid = Some (c, m') ->
     exists gid k, opened m m' tgid uid c gid k /\
       (forall v, mChannelMap m !! union64 tgid uid = Some v -> m' = m)).
Proof.
  intros Hok Ht Hu. unfold getOrCreateChannel.
  destruct (mChannelMap m !! union64 tgid uid) as [v|] eqn:Hv.
  - destruct (mapped_channel m tgid uid v Hok Ht Hu Hv)
      as (gid & g & k & c & Hg & Hk & Hgo & -> & Hca & Hct & Hcu).
    rewrite union64_lo by (apply in_s_nonneg; apply Hgo). rewrite union64_hi, Hg.
    cbn [mbind option_bind]. unfold getChannel. rewrite arr_get_nat, Hk. cbn [mbind option_bind].
    split; [done|]. intros c' m' [= <- <-]. exists gid, k. split; [|done].
    split; [done|eauto| |done]. by rewrite insert_id.
  - destruct (group_with_room_spec m Hok) as [(g & Hg & Hroom & Hne)|Hfull].
    + rewrite (proj2 (Z.eqb_neq _ _) Hne). cbn [mbind option_bind]. rewrite Hg. cbn [mbind option_bind].
      destruct (co_group m Hok _ g Hg) as [Hgo _].
      destruct (add_channel_ok (mChannelGroups m) m _ g tgid uid Hok Ht Hu Hv Hg Hgo Hroom)
        as (k & c & g' & Hc & Hop); [done|by left|]. rewrite Hc. cbn [mbind option_bind].
      split; [done|]. intros c' m' [= <- <-]. eexists _, k. split; [exact Hop|done].
    + rewrite Hfull, Z.eqb_refl. destruct (next_group_id _) as [id|] eqn:Hid; [|done].
      cbn [mbind option_bind]. rewrite lookup_insert_eq. cbn [mbind option_bind].
      destruct (next_group_id_spec m id Hok Hid) as [Hnone Hr].
      destruct (add_channel_ok (<[id := group_new id]> (mChannelGroups m)) m id (group_new id) tgid uid
        Hok Ht Hu Hv) as (k & c & g' & Hc & Hop).
      * by rewrite lookup_insert_eq.
      * by apply group_new_ok.
      * done.
      * intros id' Hne. by rewrite lookup_insert_ne.
      * right. done.
      * rewrite Hc. cbn [mbind option_bind]. split; [done|]. intros c' m' [= <- <-]. eexists _, k. split; [exact Hop|done].
Qed.

Lemma close_channel m tgid uid v :
  chan_ok m -> in_s 32 tgid -> in_s 32 uid -> mChannelMap m !! union64 tgid uid = Some v ->
  exists m', closeChannel m tgid uid = Some (true, m') /\ chan_ok m' /\
    mChannelMap m' = delete (union64 tgid uid) (mChannelMap m).
Proof.
  intros Hok Ht Hu Hv. unfold closeChannel. rewrite Hv.
  destruct (mapped_channel m tgid uid v Hok Ht Hu Hv)
    as (gid & g & k & c & Hg & Hk & Hgo & -> & Hca & Hct & Hcu).
  rewrite union64_lo by (apply in_s_nonneg; apply Hgo). rewrite union64_hi, Hg.
  destruct (removeChannel_ok gid g k c Hgo Hk) as (g' & Hr & Hgo' & Hl & Hlive). rewrite Hr.
  cbn [mbind option_bind negb]. eexists. split; [done|]. split; [|done].
  set (groups' := if mLiveChannels g' =? 0 then _ else _).
  assert ((groups' !! gid = Some g' /\ 0 < mLiveChannels g') \/
          (groups' !! gid = None /\ live (mChannels g') = [])) as Hgid.
  { unfold groups'. destruct (Z.eqb_spec (mLiveChannels g') 0) as [Hz|Hz].
    - right. rewrite lookup_delete_eq. split; [done|]. destruct Hgo' as [_ _ _ Hl' _].
      apply nil_length_inv. lia.
    - left. rewrite lookup_insert_eq. destruct Hgo' as [_ _ _ Hl' _]. split; [done|lia]. }
  assert (forall id, id <> gid -> groups' !! id = mChannelGroups m !! id) as Hother.
  { intros id Hne. unfold groups'. case_match; [by rewrite lookup_delete_ne|by rewrite lookup_insert_ne]. }
  clearbody groups'. pose proof (lookup_lt_Some _ _ _ Hk) as Hkl.
  assert (forall id h j c', groups' !! id = Some h -> mChannels h !! j = Some (Some c') ->
    exists h0, mChannelGroups m !! id = Some h0 /\ mChannels h0 !! j = Some (Some c') /\
      (id = gid -> j <> k)) as Hback.
  { intros id h j c' Hh Hj. destruct (decide (id = gid)) as [->|Hne].
    - destruct Hgid as [[Hgid Hpos]|[Hgid _]]; [|congruence]. assert (h = g') as -> by congruence.
      rewrite Hl in Hj. apply list_lookup_insert_Some in Hj as [(_ & [=] & _)|[Hjk Hj]]. eauto.
    - rewrite Hother in Hh by done. exists h. done. }
  split; cbn [mChannelGroups mChannelMap].
  - intros id h Hh. destruct (decide (id = gid)) as [->|Hne].
    + destruct Hgid as [[Hgid Hpos]|[Hgid _]]; [|congruence]. assert (h = g') as -> by congruence.
      done.
    + rewrite Hother in Hh by done. by apply (co_group m Hok).
  - intros id h j c' Hh Hj. destruct (Hback id h j c' Hh Hj) as (h0 & Hh0 & Hj0 & Hnk).
    rewrite lookup_delete_ne; [by eapply (co_mapped m Hok id h0)|]. intros Heq.
    pose proof (co_mapped m Hok id h0 j c' Hh0 Hj0) as Hm. rewrite <-Heq, Hv in Hm.
    destruct (co_group m Hok id h0 Hh0) as [Hgo0 _].
    rewrite (ca_id id j c' (go_channels _ _ Hgo0 j c' Hj0)) in Hm. simplify_eq.
    apply union64_inj in Hm as [-> Hk']; [|apply in_s_nonneg; apply Hgo|apply in_s_nonneg; apply Hgo0].
    apply Hnk; [done|lia].
  - intros key w [Hne Hw]%lookup_delete_Some.
    destruct (co_map m Hok key w Hw) as (id & h & j & c' & Hh & Hj & -> & ->).
    destruct (decide (id = gid)) as [->|Hne'].
    + assert (h = g) as -> by congruence. 
      assert (j <> k) as Hjk by (intros ->; congruence).
      assert (mChannels g' !! j = Some (Some c')) as Hj'
        by (rewrite Hl, list_lookup_insert_ne; [done|congruence]).
      destruct Hgid as [[Hgid _]|[_ Hnil]]; [by exists gid, g', j, c'|].
      apply live_elem in Hj'. rewrite Hnil in Hj'. simpl in Hj'. lia.
    + exists id, h, j, c'. by rewrite Hother.
Qed.

(** ** Lemmas: the bits of the flag *)

(** [x & (x - 1)] drops the lowest set bit, the one [countr_zero] names. *)
Lemma clear_lowest p : forall i, 0 <= i ->
  Z.testbit (Z.land (Zpos p) (Zpos p - 1)) i = Z.testbit (Zpos p) i && negb (i =? pos_ctz p).
Proof.
  induction p as [q IH|q IH|]; intros i Hi; rewrite Z.land_spec.
  - replace (Zpos (xI q) - 1) with (2 * Zpos q) by lia. rewrite (Pos2Z.inj_xI q).
    destruct (decide (i = 0)) as [->|Hne].
    + rewrite Z.testbit_odd_0, Z.testbit_even_0. done.
    + replace i with (Z.succ (i - 1)) by lia.
      rewrite Z.testbit_odd_succ, Z.testbit_even_succ by lia. cbn [pos_ctz].
      rewrite (proj2 (Z.eqb_neq _ _)) by lia. by destruct (Z.testbit (Zpos q) (i - 1)).
  - replace (Zpos (xO q) - 1) with (2 * (Zpos q - 1) + 1) by lia. rewrite (Pos2Z.inj_xO q).
    destruct (decide (i = 0)) as [->|Hne].
    + by rewrite Z.testbit_even_0.
    + replace i with (Z.succ (i - 1)) by lia.
      rewrite Z.testbit_odd_succ, Z.testbit_even_succ by lia. rewrite <-Z.land_spec, IH by lia.
      cbn [pos_ctz]. f_equal. f_equal. 
      destruct (Z.eqb_spec (i - 1) (pos_ctz q)), (Z.eqb_spec (Z.succ (i - 1)) (1 + pos_ctz q)); lia.
  - cbn [pos_ctz]. destruct (decide (i = 0)) as [->|Hne]; [done|].
    rewrite (Z.bits_above_log2 1 i) by (simpl; lia). done.
Qed.

Lemma ctz_lowest p : 0 <= pos_ctz p /\ Z.testbit (Zpos p) (pos_ctz p) = true /\
  forall i, 0 <= i < pos_ctz p -> Z.testbit (Zpos p) i = false.
Proof.
  induction p as [q IH|q (H0 & Ht & Hf)|]; cbn [pos_ctz].
  - split; [lia|]. split; [done|]. intros i ?. lia.
  - rewrite (Pos2Z.inj_xO q). split; [lia|]. split.
    + replace (1 + pos_ctz q) with (Z.succ (pos_ctz q)) by lia. by rewrite Z.testbit_even_succ.
    + intros i Hi. destruct (decide (i = 0)) as [->|Hne]; [apply Z.testbit_even_0|].
      replace i with (Z.succ (i - 1)) by lia. rewrite Z.testbit_even_succ by lia. apply Hf. lia.
  - split; [lia|]. split; [done|]. intros i ?. lia.
Qed.

(** The channels whose bits are set, in increasing order. *)
Definition set_bits (flag : Z) : list Z := filter (fun i => Z.testbit flag i = true) (seqZ 0 16).

Lemma filter_ext_elem {A} (P Q : A -> Prop) `{forall x, Decision (P x), forall x, Decision (Q x)} (l : list A) :
  (forall x, x ∈ l -> P x <-> Q x) -> filter P l = filter Q l.
Proof.
  intros Hpq. induction l as [|x l IH]; [done|]. rewrite !filter_cons, IH.
  - destruct (decide (P x)) as [Hp|Hp], (decide (Q x)) as [Hq|Hq]; try done;
      exfalso; rewrite Hpq in Hp by apply list_elem_of_here; tauto.
  - intros y Hy. apply Hpq. by apply list_elem_of_further.
Qed.

Lemma filter_seqZ_ext (P Q : Z -> Prop) `{forall x, Decision (P x), forall x, Decision (Q x)} a n :
  (forall i, a <= i < a + n -> P i <-> Q i) -> filter P (seqZ a n) = filter Q (seqZ a n).
Proof. intros Hpq. apply filter_ext_elem. intros i Hi%elem_of_seqZ. apply Hpq. lia. Qed.

Lemma seqZ_split a b n : a <= b < a + n ->
  seqZ a n = seqZ a (b - a) ++ b :: seqZ (b + 1) (a + n - b - 1).
Proof.
  intros Hb. replace n with ((b - a) + (a + n - b)) at 1 by lia. rewrite seqZ_app by lia. f_equal.
  replace (a + (b - a)) with b by lia. rewrite seqZ_cons by lia.
  replace (Z.succ b) with (b + 1) by lia. done.
Qed.

Lemma set_bits_cons p :
  pos_ctz p < 16 -> set_bits (Zpos p) = pos_ctz p :: set_bits (Z.land (Zpos p) (Zpos p - 1)).
Proof.
  intros Hc. destruct (ctz_lowest p) as (H0 & Ht & Hf). unfold set_bits.
  rewrite (seqZ_split 0 (pos_ctz p) 16) by lia. rewrite !filter_app, !filter_cons.
  rewrite (decide_True _ _ Ht).
  rewrite (decide_False (P := Z.testbit (Z.land _ _) _ = true)).
  2:{ rewrite clear_lowest by lia. rewrite Z.eqb_refl, andb_false_r. done. }
  rewrite !(filter_none _ (seqZ 0 _)).
  - cbn [app]. f_equal. apply filter_seqZ_ext. intros i Hi. rewrite clear_lowest by lia.
    rewrite (proj2 (Z.eqb_neq _ _)) by lia. by rewrite andb_true_r.
  - intros i Hi%elem_of_seqZ. rewrite clear_lowest, Hf by lia. done.
  - intros i Hi%elem_of_seqZ. rewrite Hf by lia. done.
Qed.

Lemma land_below n a b : 0 <= n -> 0 <= a < 2 ^ n -> 0 <= Z.land a b < 2 ^ n.
Proof.
  intros Hn Ha. rewrite <-(Z.mod_small a (2 ^ n)), <-Z.land_ones by done.
  rewrite <-Z.land_assoc, (Z.land_comm (Z.ones n)), Z.land_assoc, Z.land_ones by done.
  apply Z.mod_pos_bound. lia.
Qed.

Section ThreadProofs.
Context {S : Type} `{PowerSessions S}.

Lemma flag_loop_spec : forall fuel flag (r : Round),
  0 <= flag < 2 ^ 16 -> (length (set_bits flag) <= fuel)%nat ->
  flag_loop fuel flag r = Some (foldl (fun acc n => acc ≫= serve_channel n) (Some r) (set_bits flag)).
Proof.
  assert (forall n flag (r : Round), set_bits flag = [] -> 0 <= flag < 2 ^ 16 ->
    flag_loop n flag r = Some (Some r)) as Hnil.
  { intros n flag r Hs Hf. assert ((countr_zero flag <? kMaxChannels) = false) as Hc.
    { apply Z.ltb_ge. destruct flag as [|p|p]; [done| |lia]. cbn [countr_zero].
      unfold kMaxChannels. destruct (decide (pos_ctz p < 16)) as [Hlt|Hge]; [|lia].
      rewrite (set_bits_cons p Hlt) in Hs. done. }
    destruct n; simpl; by rewrite Hc. }
  induction fuel as [|fuel IH]; intros flag r Hf Hfuel.
  - rewrite Hnil; [|apply nil_length_inv; lia|done].
    assert (set_bits flag = []) as -> by (apply nil_length_inv; lia). done.
  - destruct (set_bits flag) as [|b bs] eqn:Hs; [by apply Hnil|].
    destruct flag as [|p|p]; [done| |lia].
    assert (pos_ctz p < 16) as Hc.
    { assert (b ∈ set_bits (Zpos p)) as Hb by (rewrite Hs; apply list_elem_of_here).
      unfold set_bits in Hb. apply list_elem_of_filter in Hb as [Hb Hin%elem_of_seqZ].
      destruct (ctz_lowest p) as (_ & _ & Hlow). destruct (decide (pos_ctz p < 16)); [done|].
      rewrite Hlow in Hb by lia. done. }
    rewrite (set_bits_cons p Hc) in Hs. injection Hs as <- <-. cbn [flag_loop countr_zero].
    rewrite (proj2 (Z.ltb_lt _ _)) by (unfold kMaxChannels; lia). cbn [foldl mbind option_bind].
    destruct (serve_channel (pos_ctz p) r) as [r'|] eqn:Hr.
    + rewrite IH; [done|by apply land_below|simpl in Hfuel; lia].
    + f_equal. clear. induction (set_bits _); done.
Qed.

(** The run of work durations at the head of a list. *)
Lemma work_run_app sid run rest :
  Forall (fun x => is_Some (work_of sid x)) run ->
  match rest with [] => True | m :: _ => work_of sid m = None end ->
  work_run sid (run ++ rest) = omap (work_of sid) run.
Proof.
  intros Hrun Hrest. induction Hrun as [|x run [d Hd] Hrun IH].
  - simpl. destruct rest as [|m rest]; [done|]. simpl. by rewrite Hrest.
  - unfold omap in *. cbn [app work_run list_omap]. by rewrite Hd, IH.
Qed.

Lemma length_omap_work sid run :
  Forall (fun x => is_Some (work_of sid x)) run -> length (omap (work_of sid) run) = length run.
Proof.
  induction 1 as [|x run [d Hd] Hrun IH]; [done|].
  unfold omap in *. cbn [list_omap]. rewrite Hd. simpl. by f_equal.
Qed.

Lemma dispatch_skip n l s : dispatch n l s = dispatch 0 (drop n l) s.
Proof. revert l. induction n as [|n IH]; intros [|m l]; [done..|]. simpl. apply IH. Qed.

(** ** Properties *)

(** C7: Whatever channels are opened and closed, whatever clients write
    and the threads read, the channels and the table of clients correspond: no
    two clients share a channel, a channel in the table is alive, in its group,
    carries its client and has the write and read bit of its slot; and no group
    is empty.  This is so for any number of clients: the sixteenth and later
    share no slot, whatever the comment of [SessionChannel] says. *)
Theorem channels_reachable_ok (m : ChannelManager) :
  rtc chan_step (mkManager ∅ ∅) m ->
  chan_ok m /\
  (forall key1 key2 v, mChannelMap m !! key1 = Some v -> mChannelMap m !! key2 = Some v -> key1 = key2).
Proof.
  intros Hr. assert (chan_ok m) as Hok.
  { refine (rtc_invariant chan_step chan_ok _ _ _ Hr _).
    - intros m1 m2 Hstep Hok. destruct Hstep as [m1 tgid uid a m2 Ht Hu Hc|m1 tgid uid b m2 Ht Hu Hc|
        m1 gid g k c q Hg Hk|m1 gid g d flag bl w s r Hg Hround].
      + unfold getChannelConfig in Hc. apply bind_Some in Hc as ([c m'] & Hc & Hrest).
        destruct (open_channel m1 tgid uid Hok Ht Hu) as [_ Hopen].
        destruct (Hopen c m' Hc) as (gid & k & Hop & _). inv_some Hrest; apply Hop.
      + destruct (mChannelMap m1 !! union64 tgid uid) as [v|] eqn:Hv.
        * destruct (close_channel m1 tgid uid v Hok Ht Hu Hv) as (m' & Hm' & Hok' & _). congruence.
        * unfold closeChannel in Hc. rewrite Hv in Hc. congruence.
      + eapply same_shape_keeps; [done..|]. by apply same_shape_slot.
      + eapply same_shape_keeps; [done..|]. unfold group_round in Hround.
        destruct d; [by simplify_eq|]. destruct (flag_loop _ _ _) as [o|] eqn:Hl; simpl in Hround; [|done].
        subst o. apply flag_loop_shape in Hl. done.
    - split; cbn [mChannelGroups mChannelMap]; intros *; by rewrite lookup_empty. }
  split; [done|]. intros key1 key2 v H1 H2.
  destruct (co_map m Hok key1 v H1) as (gid1 & g1 & k1 & c1 & Hg1 & Hk1 & -> & ->).
  destruct (co_map m Hok key2 _ H2) as (gid2 & g2 & k2 & c2 & Hg2 & Hk2 & -> & Hid).
  destruct (co_group m Hok gid1 g1 Hg1) as [Hgo1 _]. destruct (co_group m Hok gid2 g2 Hg2) as [Hgo2 _].
  rewrite (ca_id _ _ _ (go_channels _ _ Hgo1 _ _ Hk1)), (ca_id _ _ _ (go_channels _ _ Hgo2 _ _ Hk2)) in Hid.
  apply union64_inj in Hid as [-> Hkk]; [|apply in_s_nonneg; apply Hgo1|apply in_s_nonneg; apply Hgo2].
  assert (k1 = k2) as -> by lia. assert (g1 = g2) as -> by congruence. congruence.
Qed.

(** A client that asks for a channel gets one while there is a group
    id left: its group, and the bits of a slot of it; asking again changes
    nothing and gives the same answer; closing then succeeds and leaves the
    table without the client; all other entries of the table stay as they
    were. *)
Lemma channel_open_close (m : ChannelManager) tgid uid :
  chan_ok m -> in_s 32 tgid -> in_s 32 uid -> is_Some (next_group_id (mChannelGroups m)) ->
  exists a m', getChannelConfig m tgid uid = Some (a, m') /\ chan_ok m' /\
    getChannelConfig m' tgid uid = Some (a, m') /\
    (forall gid r w, a = Some (gid, r, w) ->
       exists k, 0 <= k < 16 /\ w = 2 ^ k /\ r = 2 ^ (k + 16) /\
         mChannelMap m' = <[union64 tgid uid := union64 gid k]> (mChannelMap m)) /\
    exists m'', closeChannel m' tgid uid = Some (true, m'') /\ chan_ok m'' /\
      mChannelMap m'' = delete (union64 tgid uid) (mChannelMap m).
Proof.
  intros Hok Ht Hu [id Hid]. destruct (open_channel m tgid uid Hok Ht Hu) as [Hnone Hopen].
  destruct (getOrCreateChannel m tgid uid) as [[c m']|] eqn:Hc; [|rewrite Hnone in Hid; done].
  destruct (Hopen c m' eq_refl) as (gid & k & [Hok' (g & Hg & Hk) Hmap [<- <-]] & _).
  destruct (co_group m' Hok' gid g Hg) as [Hgo _].
  pose proof (go_channels gid g Hgo k c Hk) as Hca.
  assert (mChannelMap m' !! union64 (mTgid c) (mUid c) = Some (union64 gid (Z.of_nat k))) as Hme
    by (by rewrite Hmap, lookup_insert_eq).
  assert (getOrCreateChannel m' (mTgid c) (mUid c) = Some (c, m')) as Hagain.
  { unfold getOrCreateChannel. rewrite Hme, union64_lo by (apply in_s_nonneg; apply Hgo).
    rewrite union64_hi, Hg. cbn [mbind option_bind]. unfold getChannel. by rewrite arr_get_nat, Hk. }
  assert (mChannelGroups m' !! union_lo (mId c) = Some g) as Hg'.
  { rewrite (ca_id _ _ _ Hca), union64_lo by (apply in_s_nonneg; apply Hgo). done. }
  set (a := if negb (q_valid (mChannelQueue c)) then None else Some (mGroupId g, mReadMask c, mWriteMask c)).
  exists a, m'.
  assert (forall m1, getOrCreateChannel m1 (mTgid c) (mUid c) = Some (c, m') ->
    getChannelConfig m1 (mTgid c) (mUid c) = Some (a, m')) as Hans.
  { intros m1 Hm1. unfold getChannelConfig, a. rewrite Hm1. cbn [mbind option_bind]. rewrite Hg'.
    by destruct (q_valid _). }
  split; [exact (Hans m Hc)|]. split; [done|]. split; [by apply Hans|]. split.
  - intros gid' r w. unfold a. destruct (negb _); [done|]. intros [= <- <- <-].
    exists (Z.of_nat k). pose proof (lookup_lt_Some _ _ _ Hk) as Hlt. rewrite (go_length _ _ Hgo) in Hlt.
    rewrite (go_id _ _ Hgo). split_and!; [lia|lia|apply Hca|apply Hca|done].
  - destruct (close_channel m' (mTgid c) (mUid c) _ Hok' ltac:(apply Hca) ltac:(apply Hca) Hme)
      as (m'' & Hm'' & Hok'' & Hdel). exists m''. split; [done|]. split; [done|].
    rewrite Hdel, Hmap. apply delete_insert_eq.
Qed.

(** The loop over the flag ends and serves each channel whose write bit
    is set exactly once, in increasing order, and no other. *)
Lemma flag_loop_visits flag (r : Round) :
  group_round false flag r =
    foldl (fun acc n => acc ≫= serve_channel n) (Some r)
      (filter (fun i => Z.testbit flag i = true) (seqZ 0 16)).
Proof.
  unfold group_round.
  assert (0 <= Z.land flag kWriteBits < 2 ^ 16) as Hr.
  { change kWriteBits with (Z.ones 16). rewrite Z.land_ones by lia. by apply Z.mod_pos_bound. }
  rewrite flag_loop_spec; [|done|].
  - cbn [default]. unfold id. f_equal. unfold set_bits. apply filter_seqZ_ext. intros i Hi.
    change kWriteBits with (Z.ones 16). rewrite Z.land_spec, Z.ones_spec_low by lia. 
    by rewrite andb_true_r.
  - unfold set_bits. etransitivity; [apply length_filter|]. rewrite length_seqZ. simpl. lia.
Qed.

(** The message behind a run of work durations is lost: the thread
    reports the durations of the run and goes on behind that message, whatever
    it is and whichever session it is for. *)
Lemma message_after_durations_lost sid run m rest (s s1 : S) :
  run <> [] -> Forall (fun x => is_Some (work_of sid x)) run -> work_of sid m = None ->
  getSession sid s = (true, s1) ->
  dispatch 0 (run ++ m :: rest) s =
  dispatch 0 rest (reportActualWorkDuration sid (omap (work_of sid) run) s1).
Proof.
  intros Hne Hrun Hm Hs. pose proof (work_run_app sid run (m :: rest) Hrun Hm) as Hwork.
  pose proof (length_omap_work sid run Hrun) as Hlen.
  destruct run as [|x run]; [done|]. apply Forall_cons in Hrun as [[d Hd] Hrun].
  assert (sessionID x = sid) as Hx.
  { unfold work_of in Hd. destruct (data x); try done.
    destruct (Z.eqb_spec (sessionID x) sid); done. }
  cbn [app dispatch]. rewrite Hx, Hs.
  assert (exists d', data x = CWorkDuration d') as [d' ->]
    by (unfold work_of in Hd; destruct (data x); try done; eauto).
  cbn [app] in Hwork. rewrite Hwork, dispatch_skip, Hlen. f_equal.
  change (length (x :: run)) with (1 + length run)%nat.
  rewrite (drop_app_ge run) by lia. by replace (1 + length run - length run)%nat with 1%nat by lia.
Qed.
End ThreadProofs.

(** ** Witnesses *)

(** Sessions that only log what reaches them. *)
Definition demo_sessions : PowerSessions (list (Z * Contents)) := {|
  getSession sid l := (true, l);
  sendHint sid h l := l ++ [(sid, CHint h)];
  updateTargetWorkDuration sid d l := l ++ [(sid, CTargetDuration d)];
  reportActualWorkDuration sid ds l := l ++ ((fun d => (sid, CWorkDuration (durationNanos d))) <$> ds);
  setMode sid i b l := l ++ [(sid, CMode i b)]
|}.

Definition demo_group : ChannelGroup :=
  mkGroup 0 1 (<[0%nat := Some (mkChannel 100 1000 (union64 0 0) (2 ^ 16) 1 (mkQueue true [] true))]>
    (replicate 16 None)).

Definition demo_manager : ChannelManager :=
  mkManager {[ 0 := demo_group ]} {[ union64 100 1000 := union64 0 0 ]}.

Lemma demo_manager_opened :
  getChannelConfig (mkManager ∅ ∅) 100 1000 = Some (Some (0, 2 ^ 16, 1), demo_manager).
Proof. vm_compute. reflexivity. Qed.

Lemma demo_manager_steps : rtc (chan_step (S := list (Z * Contents)) (H := demo_sessions)) (mkManager ∅ ∅) demo_manager.
Proof.
  eapply rtc_l; [|apply rtc_refl].
  eapply (StepConfig (H := demo_sessions) (mkManager ∅ ∅) 100 1000); [vm_compute; done..|].
  exact demo_manager_opened.
Qed.

Lemma channels_reachable_ok_witness : chan_ok demo_manager.
Proof. apply (channels_reachable_ok (H := demo_sessions) demo_manager demo_manager_steps). Defined.

(** Seventeen clients, one after another: what each is given. *)
Fixpoint open_clients (n : nat) (m : ChannelManager) : option (list (option (Z * Z * Z)) * ChannelManager) :=
  match n with
  | O => Some ([], m)
  | S n' => '(cs, m1) ← open_clients n' m; '(c, m2) ← getChannelConfig m1 (100 + Z.of_nat n') 1000; Some (cs ++ [c], m2)
  end.

(** The sixteenth has a slot of its own, and the seventeenth the first slot of a second group, which has its own thread and queue of flags:
    none shares the last slot, as the comment of [SessionChannel] has it. *)
Example seventeen_clients :
  (fun x => (drop 14 x.1, map_to_list (mLiveChannels <$> mChannelGroups x.2))) <$> open_clients 17 (mkManager ∅ ∅) =
  Some ([Some (0, 2 ^ 30, 2 ^ 14); Some (0, 2 ^ 31, 2 ^ 15); Some (1, 2 ^ 16, 2 ^ 0)], [(1, 1); (0, 16)]).
Proof. vm_compute. reflexivity. Qed.

(** A report of two durations followed by a hint: the hint is gone. *)
