(* ===== verification/PowerHal.v ===== *)
(** * The power HAL put together: a channel's messages reach the kernel

    The group thread ([Channels]) finds a session by its id in the session
    manager ([SessionManager]) and calls it ([HintSession]) in the service's
    state ([PowerService]).  The thread's interface, class [PowerSessions], is
    implemented here by the service; [None] is a program that is undefined. *)

From S2P Require Import Prelude Channels Votes SessionRecords SessionTasks SessionManager HintSession PowerService.

Section Hal.
Context `{ServiceEnv}.

(** ** The service as the thread sees it *)

Definition thread_getSession (sid : Z) (s : option Power) : bool * option Power :=
  match s with
  | None => (false, None)
  | Some p =>
      match on_manager (SessionManager.getSession sid) p with
      | None => (false, None)
      | Some (obj, p') => (bool_decide (is_Some obj), Some p')
      end
  end.

(** A call on the session the id leads to. *)
Definition thread_call {A} (sid : Z) (m : St World A) (s : option Power) : option Power :=
  p ← s;
  obj ← mSessionMap (p_mgr p) !! wrap_s 32 sid;
  snd <$> on_session obj m p.

#[global] Instance service_sessions : PowerSessions (option Power) := {|
  Channels.getSession := thread_getSession;
  Channels.sendHint sid h := thread_call sid (hint_sendHint h);
  Channels.updateTargetWorkDuration sid d := thread_call sid (hint_updateTargetWorkDuration d);
  Channels.reportActualWorkDuration sid l := thread_call sid (hint_reportActualWorkDuration l);
  Channels.setMode sid m b := thread_call sid (hint_setMode m b)
|}.

(** A report of a session in a queue: one message for each duration. *)
Definition report_messages (sid : Z) (actual : list WorkDuration) : list ChannelMessage :=
  (fun d => mkMsg sid (timeStampNanos d) (CWorkDuration (durationNanos d))) <$> actual.

(** ** Lemmas *)

Lemma work_run_report sid actual rest :
  work_run sid rest = [] -> work_run sid (report_messages sid actual ++ rest) = actual.
Proof.
  intros Hrest. induction actual as [|[t d] actual IH]; [done|]. unfold report_messages in *. rewrite fmap_cons.
  cbn [app work_run]. unfold work_of at 1. cbn. rewrite Z.eqb_refl. f_equal. exact IH.
Qed.

(** A registered session whose object is alive is found, and nothing changes. *)
Lemma getSession_found sid obj p :
  mSessionMap (p_mgr p) !! wrap_s 32 sid = Some obj -> obj ∈ objects (p_mgr p) ->
  exists p', thread_getSession sid (Some p) = (true, Some p') /\ p' = p.
Proof.
  intros Hm Ho. unfold thread_getSession, on_manager, SessionManager.getSession, gets, mbind, St_bind.
  cbn beta iota. rewrite Hm, decide_True by done. eexists. split; [reflexivity|]. by destruct p.
Qed.

Lemma getSession_none sid p :
  mSessionMap (p_mgr p) !! wrap_s 32 sid = None ->
  exists p', thread_getSession sid (Some p) = (false, Some p') /\ p' = p.
Proof.
  intros Hm. unfold thread_getSession, on_manager, SessionManager.getSession, gets, mbind, St_bind.
  cbn beta iota. rewrite Hm. eexists. split; [reflexivity|]. by destruct p.
Qed.

(** Messages for a session that is gone. *)
Lemma dispatch_gone sid l p :
  mSessionMap (p_mgr p) !! wrap_s 32 sid = None -> Forall (fun m => sessionID m = sid) l ->
  dispatch 0 l (Some p) = Some p.
Proof.
  intros Hm. induction 1 as [|m l <- Hl IH]; [done|]. cbn [dispatch].
  destruct (getSession_none (sessionID m) p Hm) as (p' & Hg & ->).
  change (Channels.getSession (sessionID m) (Some p)) with (thread_getSession (sessionID m) (Some p)).
  by rewrite Hg.
Qed.

(** A report's messages are one call; the message behind them is passed over. *)
Lemma dispatch_report sid actual rest obj p :
  mSessionMap (p_mgr p) !! wrap_s 32 sid = Some obj -> obj ∈ objects (p_mgr p) -> actual <> [] ->
  work_run sid rest = [] ->
  dispatch 0 (report_messages sid actual ++ rest) (Some p) =
  dispatch 0 (drop 1 rest) (snd <$> on_session obj (hint_reportActualWorkDuration actual) p).
Proof.
  intros Hm Ho Hne Hrest. destruct actual as [|d actual]; [done|].
  pose proof (work_run_report sid (d :: actual) rest Hrest) as Hrun.
  unfold report_messages in *. rewrite fmap_cons in *. cbn [app] in *.
  cbn [dispatch]. change (Channels.getSession ?i ?s) with (thread_getSession i s). cbn [sessionID].
  destruct (getSession_found sid obj p Hm Ho) as (p' & -> & ->). cbn [data].
  rewrite dispatch_skip, Hrun. cbn [length]. rewrite drop_app, length_fmap, drop_ge by (rewrite length_fmap; lia).
  replace (S (length actual) - length actual)%nat with 1%nat by lia. cbn. by rewrite Hm.
Qed.
End Hal.

Section HalProofs.
Context `{ServiceEnv, !PowerEnvLaws}.

(** Making a session keeps the manager good. *)
Lemma create_ok idString pid_ uid_ l d tag p r p' :
  createHintSessionWithConfig idString pid_ uid_ l d tag p = Some (r, p') -> mgr_ok (p_mgr p) -> mgr_ok (p_mgr p').
Proof.
  intros Hr Hok. unfold createHintSessionWithConfig in Hr. destruct (negb IsAdpfSupported); [by injection Hr as _ <-|].
  destruct (decide (l = [])); [by injection Hr as _ <-|].
  unfold gets, of_option, modify, mbind, St_bind in Hr. cbn beta iota in Hr.
  destruct (session_init _ _ _ _ _ _ _ _) as [x|]; cbn [fmap option_fmap option_map] in Hr; [|done].
  unfold on_session at 1 in Hr. cbn [p_sessions with_session] in Hr. rewrite lookup_insert_eq in Hr.
  destruct (session_start _ _ _) as [[[] w]|] eqn:Hs; [|done]. apply session_start_sound in Hs.
  injection Hr as _ <-. cbn. destruct Hs as [Ht Hl]; [|by split]. cbn. by destruct Hok.
Qed.

(** ** Properties *)

(** C9: a report sent through a channel takes effect as one made by a call:
    when the thread serves a channel of a user that is not blocked, whose queue
    is readable and begins with the durations of a registered session that can act
    on them (the conditions of C1), the queue is emptied, the writer is woken,
    the session's clamp moves by the controller's output, and the kernel is asked
    to clamp each of its threads.  The thread goes on with the messages behind the
    report from there, but for the first of them, which it passes over. *)
Theorem channel_report_clamps (r : Round) n c sid actual rest p obj x config stale v entry e :
  arr_get (mChannels (r_group r)) n = Some (Some c) -> q_valid (mChannelQueue c) = true ->
  q_readable (mChannelQueue c) = true -> mUid c ∉ r_blocklist r ->
  q_messages (mChannelQueue c) = report_messages sid actual ++ rest -> work_run sid rest = [] ->
  r_sessions r = Some p ->
  mSessionMap (p_mgr p) !! wrap_s 32 sid = Some obj -> obj ∈ objects (p_mgr p) -> p_sessions p !! obj = Some x ->
  reportable (mkWorld x (p_mgr p)) config actual stale v entry e -> clamps_on ->
  targetNs (mDescriptor x) <> 0 ->
  exists r' p' x', serve_channel n r = Some r' /\ r_sessions r' = dispatch 0 (drop 1 rest) (Some p') /\
    r_woken r' = r_woken r ++ [mReadMask c] /\ arr_get (mChannels (r_group r')) n = Some (Some (drained c)) /\
    p_sessions p' !! obj = Some x' /\
    pidControlVariable (mDescriptor x') = next_min v (pidControlVariable (mDescriptor x)) /\
    in_effect (p_mgr p) (p_mgr p') entry e (next_min v (pidControlVariable (mDescriptor x))).
Proof.
  intros Hc Hv Hq Hu Hm Hrest Hp Hmap Hobj Hx Hrep Hon Ht.
  assert (actual <> []) as Hne by (exact (rp_some _ _ _ _ _ _ _ Hrep)).
  pose proof (report_spec _ _ _ _ _ _ _ Hrep Hon Ht) as Hrun.
  apply runs_some in Hrun as (res & w' & Hrun & -> & (_ & _ & _ & Hpid & _) & Heff).
  destruct (proj2 (arr_set_is_Some (mChannels (r_group r)) n (Some (drained c)))) as [l' Hl'].
  { apply arr_get_is_Some. eauto. }
  eexists _, (with_session p (sSessionIDCounter p) obj (w_session w') (w_mgr w')), (w_session w').
  split; [|split; [|split; [|split; [|split; [|split]]]]].
  - unfold serve_channel. rewrite Hc. cbn [mbind option_bind]. rewrite Hv. cbn [negb].
    rewrite bool_decide_eq_false_2 by done. rewrite Hm.
    assert ((length (report_messages sid actual ++ rest) =? 0)%nat = false) as -> by (by destruct actual).
    rewrite Hq. cbn [negb]. rewrite Hl'. cbn [mbind option_bind]. reflexivity.
  - cbn [r_sessions]. rewrite Hp, (dispatch_report sid actual rest obj p Hmap Hobj Hne Hrest).
    unfold on_session. rewrite Hx, Hrun. done.
  - done.
  - cbn [r_group mChannels]. by rewrite (arr_get_set _ _ _ _ _ Hl'), decide_True.
  - cbn. apply lookup_insert_eq.
  - exact Hpid.
  - exact Heff.
Qed.

(** Once the last reference to an open session is gone, its id leads
    nowhere: the manager has no such session, and any messages for it that are
    still in the channels change nothing. *)
Lemma destroyed_session_unreachable p obj x :
  p_sessions p !! obj = Some x -> mSessionClosed x = false -> mgr_ok (p_mgr p) ->
  runs (destroy obj) p (fun _ p' => p_sessions p' !! obj = None /\
    mSessions (mSessionTaskMap (p_mgr p')) !! mSessionId x = None /\
    forall l, Forall (fun m => sessionID m = mSessionId x) l -> dispatch 0 l (Some p') = Some p').
Proof.
  intros Hx Hopen Hok. unfold destroy. apply runs_bind. unfold runs, on_session. rewrite Hx.
  pose proof (close_spec (mkWorld x (p_mgr p)) Hopen Hok) as Hc.
  apply runs_some in Hc as (res & w' & Hc & -> & _ & _ & Hnone & Hmap). rewrite Hc.
  unfold modify. cbn [p_sessions with_session p_mgr].
  split_and!; [by apply lookup_delete_eq|exact Hnone|].
  intros l Hl. by apply (dispatch_gone (mSessionId x)).
Qed.
End HalProofs.

(** ** Witnesses *)

#[local] Existing Instances demo_power demo_power_laws demo_hint demo_service.

(** A session made by a call, and a channel with a report for it. *)
Definition demo_hal : Power := after (createHintSession "4000-10050-1" 4000 10050 [12; 13] 16000000) demo_idle.

Definition demo_object : Z := default 0 (mSessionMap (p_mgr demo_hal) !! 1).

Definition demo_session_object : PowerHintSession := default (w_session demo_world) (p_sessions demo_hal !! demo_object).

Lemma demo_hal_ok : mgr_ok (p_mgr demo_hal).
Proof.
  assert (mgr_ok (p_mgr demo_idle)) as Hidle by (split; [apply (mk_tasks _ (mgr_new_ok 1000))|by intros ? ? ?%elem_of_nil]).
  unfold demo_hal, after, createHintSession.
  destruct (createHintSessionWithConfig _ _ _ _ _ _ _) as [[r s']|] eqn:Hr; [by eapply create_ok|done].
Qed.

Definition demo_hal_entry : ValEntry := default (mkVal 0 []) (mSessions (mSessionTaskMap (p_mgr demo_hal)) !! 1).
Definition demo_hal_value : SessionValueEntry :=
  default (demo_session 0 0) (values (mSessionTaskMap (p_mgr demo_hal)) !! val demo_hal_entry).

Lemma demo_hal_reportable : exists st,
  reportable (mkWorld demo_session_object (p_mgr demo_hal)) false demo_report 320000000 (demo_verdict st)
    demo_hal_entry demo_hal_value.
Proof.
  destruct demo_output as [st Hst]. exists st.
  split; [vm_compute; reflexivity|vm_compute; reflexivity|done|reflexivity| | | | | | |].
  - split; [vm_compute; reflexivity|vm_compute; reflexivity|vm_compute; done|vm_compute; split; done|vm_compute; split; done].
  - vm_compute. split; done.
  - by apply JudgedOff.
  - exact Hst.
  - exact (RangePlain false LIGHT 0 eq_refl).
  - vm_compute. split; done.
  - split; [apply demo_hal_ok|vm_compute; reflexivity..|].
    assert (linkedTasks demo_hal_entry = [12; 13]) as -> by (vm_compute; reflexivity). apply demo_nodup.
Qed.

(** The report, and two hints: the first of them is lost. *)
Definition demo_behind : list ChannelMessage := [mkMsg 1 2000 (CHint 0); mkMsg 1 3000 (CHint 0)].

Definition demo_channel : SessionChannel :=
  mkChannel 4000 10050 0 (Z.shiftl 1 16) 1 (mkQueue true (report_messages 1 demo_report ++ demo_behind) true).

Definition demo_round : Round := mkRound (mkGroup 0 1 [Some demo_channel]) ∅ [] (Some demo_hal).

Lemma channel_report_clamps_witness :
  exists r' p' x', serve_channel 0 demo_round = Some r' /\
    r_sessions r' = dispatch 0 [mkMsg 1 3000 (CHint 0)] (Some p') /\ p_sessions p' !! demo_object = Some x' /\
    pidControlVariable (mDescriptor x') = 160 /\
    in_effect (p_mgr demo_hal) (p_mgr p') demo_hal_entry demo_hal_value 160.
Proof.
  destruct demo_hal_reportable as [st Hrep].
  destruct (channel_report_clamps demo_round 0 demo_channel 1 demo_report demo_behind demo_hal demo_object
    demo_session_object false 320000000 (demo_verdict st) demo_hal_entry demo_hal_value)
    as (r' & p' & x' & Hs & Hp & _ & _ & Hx & Hpid & Heff);
    [reflexivity|reflexivity|reflexivity|apply (bool_decide_unpack _); vm_compute; exact I|reflexivity|reflexivity
    |reflexivity|vm_compute; reflexivity|apply (bool_decide_unpack _); vm_compute; exact I|vm_compute; reflexivity
    |exact Hrep|apply demo_clamps_on|vm_compute; done|].
  exists r', p', x'. split_and!; [exact Hs|exact Hp|exact Hx|exact Hpid|exact Heff].
Defined.
