(* ===== verification/Vms.v ===== *)
(** * vehicle/common/src/VmsUtils.cpp, VmsUtils.h: Vehicle Map Service messages

    Building and parsing the values of VEHICLE_MAP_SERVICE.  The message types
    and the positions of the header fields are enumerators of the generated HIDL
    types: class [VmsAbi], with what the interface documents of them in
    [VmsAbiLaws].  Reading a [hidl_vec] out of range and leaving the range of
    [int] are undefined behaviour: [None].  Bytes of a packet are characters of
    a string on one side and bytes of the value on the other. *)

From S2P Require Import Prelude VehicleTypes.
From Stdlib Require Import Ascii.
#[local] Open Scope list_scope.
#[local] Open Scope Z_scope.

(** ** Interface constants *)

Class VmsAbi := {
  (* VmsMessageType *)
  SUBSCRIBE : Z; SUBSCRIBE_TO_PUBLISHER : Z; UNSUBSCRIBE : Z; UNSUBSCRIBE_TO_PUBLISHER : Z;
  OFFERING : Z; AVAILABILITY_REQUEST : Z; SUBSCRIPTIONS_REQUEST : Z;
  AVAILABILITY_RESPONSE : Z; AVAILABILITY_CHANGE : Z;
  SUBSCRIPTIONS_RESPONSE : Z; SUBSCRIPTIONS_CHANGE : Z; DATA : Z;
  PUBLISHER_ID_REQUEST : Z; PUBLISHER_ID_RESPONSE : Z; START_SESSION : Z;
  (* positions *)
  kMessageIndex : Z; kPublisherIdIndex : Z; kSubscriptionStateSequenceNumberIndex : Z;
  SUBS_NUMBER_OF_LAYERS : Z; SUBS_NUMBER_OF_ASSOCIATED_LAYERS : Z; SUBSCRIPTIONS_START : Z;
  kAvailabilitySequenceNumberIndex : Z;
  AVAIL_NUMBER_OF_ASSOCIATED_LAYERS : Z; LAYERS_START : Z;
  VEHICLE_MAP_SERVICE : Z
}.

(** The message types in the order of the enumeration. *)
Definition message_types `{VmsAbi} : list Z :=
  [SUBSCRIBE; SUBSCRIBE_TO_PUBLISHER; UNSUBSCRIBE; UNSUBSCRIBE_TO_PUBLISHER; OFFERING;
   AVAILABILITY_REQUEST; SUBSCRIPTIONS_REQUEST; AVAILABILITY_RESPONSE; AVAILABILITY_CHANGE;
   SUBSCRIPTIONS_RESPONSE; SUBSCRIPTIONS_CHANGE; DATA; PUBLISHER_ID_REQUEST;
   PUBLISHER_ID_RESPONSE; START_SESSION].

Class VmsAbiLaws `{VmsAbi} : Prop := {
  types_in_order : StronglySorted Z.lt message_types;
  message_first : kMessageIndex = 0;
  subs_layout : kSubscriptionStateSequenceNumberIndex = 1 /\ SUBS_NUMBER_OF_LAYERS = 2 /\
    SUBS_NUMBER_OF_ASSOCIATED_LAYERS = 3 /\ SUBSCRIPTIONS_START = 4;
  avail_layout : kAvailabilitySequenceNumberIndex = 1 /\
    AVAIL_NUMBER_OF_ASSOCIATED_LAYERS = 2 /\ LAYERS_START = 3
}.

Definition kMessageTypeSize : nat := 1.
Definition kPublisherIdSize : nat := 1.
Definition kLayerNumberSize : nat := 1.
Definition kLayerSize : nat := 3.
Definition kLayerAndPublisherSize : nat := 4.
Definition kSessionIdsSize : nat := 2.

(** ** Data *)

Record VmsLayer := mkLayer { type : Z; subtype : Z; version : Z }.

#[global] Instance VmsLayer_eq_dec : EqDecision VmsLayer.
Proof. solve_decision. Defined.

Record VmsLayerAndPublisher := mkLP { lp_layer : VmsLayer; lp_publisher_id : Z }.
Record VmsAssociatedLayer := mkAssoc { al_layer : VmsLayer; publisher_ids : list Z }.
Record VmsLayerOffering := mkOffering { lo_layer : VmsLayer; dependencies : list VmsLayer }.
Record VmsOffers := mkOffers { publisher_id : Z; offerings : list VmsLayerOffering }.

Inductive VmsSessionStatus := kNewServerSession | kAckToCurrentSession | kInvalidMessage.

(** Characters and bytes. *)
Definition byte_of (c : ascii) : Z := Z.of_nat (nat_of_ascii c).
Definition bytes_of (s : string) : list Z := byte_of <$> String.list_ascii_of_string s.
Definition string_of_bytes (l : list Z) : string :=
  String.string_of_list_ascii ((fun z => ascii_of_nat (Z.to_nat (wrap_u 8 z))) <$> l).

Section Vms.
Context `{VehicleAbi} `{VmsAbi}.

(** ** Creating *)

(** [None]: a null pointer is dereferenced. *)
Definition createBaseVmsMessage (junk : VehiclePropValue) (message_size : nat)
    : option VehiclePropValue :=
  result ← createVehiclePropValue junk T_INT32 message_size;
  Some (mkValue (timestamp result) A_GLOBAL VEHICLE_MAP_SERVICE (status result) (value result)).

Definition message (junk : VehiclePropValue) (size : nat) (ints : list Z) : option VehiclePropValue :=
  result ← createBaseVmsMessage junk size; Some (set_int32Values result ints).

Definition layer_ints (l : VmsLayer) : list Z := [type l; subtype l; version l].

Definition createSubscribeMessage junk (layer : VmsLayer) :=
  message junk (kMessageTypeSize + kLayerSize) (SUBSCRIBE :: layer_ints layer).

Definition createSubscribeToPublisherMessage junk (lp : VmsLayerAndPublisher) :=
  message junk (kMessageTypeSize + kLayerAndPublisherSize)
    (SUBSCRIBE_TO_PUBLISHER :: layer_ints (lp_layer lp) ++ [lp_publisher_id lp]).

Definition createUnsubscribeMessage junk (layer : VmsLayer) :=
  message junk (kMessageTypeSize + kLayerSize) (UNSUBSCRIBE :: layer_ints layer).

Definition createUnsubscribeToPublisherMessage junk (lp : VmsLayerAndPublisher) :=
  message junk (kMessageTypeSize + kLayerAndPublisherSize)
    (UNSUBSCRIBE_TO_PUBLISHER :: layer_ints (lp_layer lp) ++ [lp_publisher_id lp]).

(** The size computed first, and the integers of an offer. *)
Definition offering_message_size (offers : VmsOffers) : Z :=
  foldl (fun n o => wrap_s 32 (n + Z.of_nat (kLayerSize + kLayerNumberSize +
                                             length (dependencies o) * kLayerSize)))
    (Z.of_nat (kMessageTypeSize + kPublisherIdSize + kLayerNumberSize)) (offerings offers).

Definition offering_ints (o : VmsLayerOffering) : list Z :=
  layer_ints (lo_layer o) ++ [wrap_s 32 (Z.of_nat (length (dependencies o)))] ++
  (dependencies o ≫= layer_ints).

Definition createOfferingMessage junk (offers : VmsOffers) :=
  message junk (Z.to_nat (wrap_u 64 (offering_message_size offers)))
    ([OFFERING; publisher_id offers; wrap_s 32 (Z.of_nat (length (offerings offers)))] ++
     (offerings offers ≫= offering_ints)).

Definition createAvailabilityRequest junk := message junk kMessageTypeSize [AVAILABILITY_REQUEST].
Definition createSubscriptionsRequest junk := message junk kMessageTypeSize [SUBSCRIPTIONS_REQUEST].

Definition set_bytes (v : VehiclePropValue) (l : list Z) : VehiclePropValue :=
  mkValue (timestamp v) (areaId v) (prop v) (status v)
    (mkRaw (int32Values (value v)) (floatValues (value v)) (int64Values (value v)) l
       (stringValue (value v))).

Definition createDataMessageWithLayerPublisherInfo junk (lp : VmsLayerAndPublisher)
    (vms_packet : string) : option VehiclePropValue :=
  result ← message junk (kMessageTypeSize + kLayerAndPublisherSize)
             (DATA :: layer_ints (lp_layer lp) ++ [lp_publisher_id lp]);
  Some (set_bytes result (bytes_of vms_packet)).

Definition createPublisherIdRequest junk (description : string) : option VehiclePropValue :=
  result ← message junk kMessageTypeSize [PUBLISHER_ID_REQUEST];
  Some (set_bytes result (bytes_of description)).

Definition createStartSessionMessage junk (service_id client_id : Z) :=
  message junk (kMessageTypeSize + kSessionIdsSize) [START_SESSION; service_id; client_id].

(** ** Parsing *)

Definition ints (v : VehiclePropValue) : list Z := int32Values (value v).

Definition isValidVmsProperty (v : VehiclePropValue) : bool := bool_decide (prop v = VEHICLE_MAP_SERVICE).

Definition isValidVmsMessageType (v : VehiclePropValue) : option bool :=
  if (0 <? length (ints v))%nat then
    t ← arr_get (ints v) kMessageIndex;
    Some (bool_decide (SUBSCRIBE <= t) && bool_decide (t <= START_SESSION))
  else Some false.

Definition isValidVmsMessage (v : VehiclePropValue) : option bool :=
  if isValidVmsProperty v then isValidVmsMessageType v else Some false.

Definition parseMessageType (v : VehiclePropValue) : option Z := arr_get (ints v) kMessageIndex.

(** A valid message of one of the types, with more than [idx] integers:
    the guard all parsers share. *)
Definition guarded (v : VehiclePropValue) (types : list Z) (idx : Z) : option bool :=
  valid ← isValidVmsMessage v;
  if (valid : bool) then
    t ← parseMessageType v;
    Some (bool_decide (t ∈ types) && bool_decide (idx < Z.of_nat (length (ints v))))
  else Some false.

Definition parseData (v : VehiclePropValue) : option string :=
  valid ← isValidVmsMessage v;
  if (valid : bool) then
    t ← parseMessageType v;
    Some (if bool_decide (t = DATA) && (0 <? length (bytes (value v)))%nat
          then string_of_bytes (bytes (value v)) else EmptyString)
  else Some EmptyString.

Definition parsePublisherIdResponse (v : VehiclePropValue) : option Z :=
  ok ← guarded v [PUBLISHER_ID_RESPONSE] kPublisherIdIndex;
  if (ok : bool) then arr_get (ints v) kPublisherIdIndex else Some (-1).

Definition subs_types : list Z := [SUBSCRIPTIONS_CHANGE; SUBSCRIPTIONS_RESPONSE].
Definition avail_types : list Z := [AVAILABILITY_CHANGE; AVAILABILITY_RESPONSE].

Definition getSequenceNumberForSubscriptionsState (v : VehiclePropValue) : option Z :=
  ok ← guarded v subs_types kSubscriptionStateSequenceNumberIndex;
  if (ok : bool) then arr_get (ints v) kSubscriptionStateSequenceNumberIndex else Some (-1).

Definition isSequenceNumberNewer (v : VehiclePropValue) (last_seen : Z) : option bool :=
  ok ← guarded v subs_types kSubscriptionStateSequenceNumberIndex;
  if (ok : bool) then
    n ← arr_get (ints v) kSubscriptionStateSequenceNumberIndex; Some (last_seen <? n)
  else Some false.

Definition getSequenceNumberForAvailabilityState (v : VehiclePropValue) : option Z :=
  ok ← guarded v avail_types kAvailabilitySequenceNumberIndex;
  if (ok : bool) then arr_get (ints v) kAvailabilitySequenceNumberIndex else Some (-1).

Definition isAvailabilitySequenceNumberNewer (v : VehiclePropValue) (last_seen : Z) : option bool :=
  ok ← guarded v avail_types kAvailabilitySequenceNumberIndex;
  if (ok : bool) then
    n ← arr_get (ints v) kAvailabilitySequenceNumberIndex; Some (last_seen <? n)
  else Some false.

Definition hasServiceNewlyStarted (v : VehiclePropValue) : option bool :=
  ok ← guarded v [AVAILABILITY_CHANGE] kAvailabilitySequenceNumberIndex;
  if (ok : bool) then
    n ← arr_get (ints v) kAvailabilitySequenceNumberIndex; Some (bool_decide (n = 0))
  else Some false.

(** The status and [*new_service_id]. *)
Definition parseStartSessionMessage (v : VehiclePropValue) (current_service_id current_client_id : Z)
    : option (VmsSessionStatus * Z) :=
  valid ← isValidVmsMessage v;
  ok ← (if (valid : bool) then
          t ← parseMessageType v;
          Some (bool_decide (t = START_SESSION) && (length (ints v) =? kSessionIdsSize + 1)%nat)
        else Some false);
  if (ok : bool) then
    new_service_id ← arr_get (ints v) 1;
    new_client_id ← arr_get (ints v) 2;
    Some (if bool_decide (new_client_id <> current_client_id) then kNewServerSession
          else kAckToCurrentSession, new_service_id)
  else Some (kInvalidMessage, current_service_id).

(** A signed result outside [int] is undefined. *)
Definition i32 (z : Z) : option Z :=
  if decide (- 2 ^ 31 <= z < 2 ^ 31) then Some z else None.

(** [VmsLayer(v[i], v[i + 1], v[i + 2])]. *)
Definition read_layer (l : list Z) (i : Z) : option VmsLayer :=
  a ← arr_get l i; b ← arr_get l (i + 1); c ← arr_get l (i + 2); Some (mkLayer a b c).

(** The number of elements as the [int] the loops compare with. *)
Definition int_size (l : list Z) : Z := wrap_s 32 (Z.of_nat (length l)).

(** *** getAvailableLayers *)

(** The loop over the publisher ids of one layer: the ids and the index. *)
Fixpoint read_publishers (l : list Z) (n : nat) (i : Z) (ids : list Z) : option (list Z * Z) :=
  match n with
  | O => Some (ids, i)
  | S n' =>
      if i <? int_size l then
        x ← arr_get l i; read_publishers l n' (i + 1) (ids ++ [x])
      else read_publishers l n' i ids
  end.

Fixpoint read_available (l : list Z) (n : nat) (i : Z) (layers : list VmsAssociatedLayer)
    : option (list VmsAssociatedLayer) :=
  match n with
  | O => Some layers
  | S n' =>
      i3 ← i32 (i + Z.of_nat kLayerSize);
      if int_size l <? i3 then Some []
      else
        layer ← read_layer l i;
        '(ids, i') ←
          (if i3 <? int_size l then
             m ← arr_get l i3; read_publishers l (Z.to_nat m) (i3 + 1) []
           else Some ([], i3));
        read_available l n' i' (layers ++ [mkAssoc layer ids])
  end.

Definition getAvailableLayers (v : VehiclePropValue) : option (list VmsAssociatedLayer) :=
  ok ← guarded v avail_types AVAIL_NUMBER_OF_ASSOCIATED_LAYERS;
  if (ok : bool) then
    n ← arr_get (ints v) AVAIL_NUMBER_OF_ASSOCIATED_LAYERS;
    read_available (ints v) (Z.to_nat n) LAYERS_START []
  else Some [].

(** *** getSubscribedLayers *)

Definition offered (offers : VmsOffers) (layer : VmsLayer) : bool :=
  bool_decide (layer ∈ lo_layer <$> offerings offers).

(** The plain layers: [inl] is [return {}]. *)
Fixpoint read_layers (offers : VmsOffers) (l : list Z) (n : nat) (i : Z) (acc : list VmsLayer)
    : option (unit + list VmsLayer * Z) :=
  match n with
  | O => Some (inr (acc, i))
  | S n' =>
      i3 ← i32 (i + Z.of_nat kLayerSize);
      if int_size l <? i3 then Some (inl tt)
      else
        layer ← read_layer l i;
        read_layers offers l n' i3
          (if offered offers layer then acc ++ [layer] else acc)
  end.

(** The publisher ids of an associated layer; the index moves on even behind
    the end of the message. *)
Fixpoint match_publishers (l : list Z) (publisher : Z) (layer : VmsLayer) (n : nat) (i : Z)
    (acc : list VmsLayer) : option (list VmsLayer * Z) :=
  match n with
  | O => Some (acc, i)
  | S n' =>
      acc' ← (if i <? int_size l then
                x ← arr_get l i; Some (if bool_decide (x = publisher) then acc ++ [layer] else acc)
              else Some acc);
      i' ← i32 (i + 1);
      match_publishers l publisher layer n' i' acc'
  end.

Fixpoint read_associated (offers : VmsOffers) (l : list Z) (n : nat) (i : Z) (acc : list VmsLayer)
    : option (list VmsLayer) :=
  match n with
  | O => Some acc
  | S n' =>
      i3 ← i32 (i + Z.of_nat kLayerSize);
      if int_size l <? i3 then Some []
      else
        layer ← read_layer l i;
        if offered offers layer && (i3 <? int_size l) then
          m ← arr_get l i3;
          '(acc', i') ← match_publishers l (publisher_id offers) layer (Z.to_nat m) (i3 + 1) acc;
          read_associated offers l n' i' acc'
        else read_associated offers l n' i3 acc
  end.

Definition getSubscribedLayers (v : VehiclePropValue) (offers : VmsOffers) : option (list VmsLayer) :=
  ok ← guarded v subs_types SUBS_NUMBER_OF_LAYERS;
  if (ok : bool) then
    let l := ints v in
    n ← arr_get l SUBS_NUMBER_OF_LAYERS;
    r ← read_layers offers l (Z.to_nat n) SUBSCRIPTIONS_START [];
    match r with
    | inl _ => Some []
    | inr (acc, i) =>
        if SUBS_NUMBER_OF_ASSOCIATED_LAYERS <? int_size l then
          m ← arr_get l SUBS_NUMBER_OF_ASSOCIATED_LAYERS;
          read_associated offers l (Z.to_nat m) i acc
        else Some acc
    end
  else Some [].

(** ** What the messages mean *)

(** The integers of an availability and of a subscriptions message: the layout
    of the interface. *)
Definition assoc_ints (a : VmsAssociatedLayer) : list Z :=
  layer_ints (al_layer a) ++ Z.of_nat (length (publisher_ids a)) :: publisher_ids a.

Definition availability_ints (t seq : Z) (assocs : list VmsAssociatedLayer) : list Z :=
  [t; seq; Z.of_nat (length assocs)] ++ (assocs ≫= assoc_ints).

Definition subscriptions_ints (t seq : Z) (layers : list VmsLayer)
    (assocs : list VmsAssociatedLayer) : list Z :=
  [t; seq; Z.of_nat (length layers); Z.of_nat (length assocs)] ++
  (layers ≫= layer_ints) ++ (assocs ≫= assoc_ints).

(** A publisher is subscribed to the plain layers it offers, and to an
    associated layer it offers once for each time its id is listed. *)
Definition assoc_subscribed (offers : VmsOffers) (a : VmsAssociatedLayer) : list VmsLayer :=
  if offered offers (al_layer a)
  then replicate (length (filter (fun x => x = publisher_id offers) (publisher_ids a))) (al_layer a)
  else [].

Definition subscribed_spec (offers : VmsOffers) (layers : list VmsLayer)
    (assocs : list VmsAssociatedLayer) : list VmsLayer :=
  filter (fun l => offered offers l = true) layers ++ (assocs ≫= assoc_subscribed offers).

(** The messages the loops accept: every index they form is an [int]. *)
Definition fits (l : list Z) : Prop := Z.of_nat (length l) < 2 ^ 31 - 4.

(** ** Reading at a position *)

(** [rest] is what the message holds from index [i] on. *)
Definition at_pos (l : list Z) (i : Z) (rest : list Z) : Prop :=
  exists pre, l = pre ++ rest /\ i = Z.of_nat (length pre).

Lemma at_pos_start l pre rest : l = pre ++ rest -> at_pos l (Z.of_nat (length pre)) rest.
Proof. intros ->. by exists pre. Qed.

Lemma at_pos_app l i front rest :
  at_pos l i (front ++ rest) -> at_pos l (i + Z.of_nat (length front)) rest.
Proof.
  intros (pre & -> & ->). exists (pre ++ front). rewrite app_assoc, length_app. split; [done|lia].
Qed.

Lemma at_pos_cons l i x rest : at_pos l i (x :: rest) -> at_pos l (i + 1) rest.
Proof. apply (at_pos_app l i [x] rest). Qed.

Lemma at_pos_bound l i front rest :
  at_pos l i (front ++ rest) ->
  0 <= i /\ i + Z.of_nat (length front) + Z.of_nat (length rest) = Z.of_nat (length l).
Proof. intros (pre & -> & ->). rewrite !length_app. lia. Qed.

Lemma at_pos_get l i x rest : at_pos l i (x :: rest) -> arr_get l i = Some x.
Proof. intros (pre & -> & ->). rewrite arr_get_nat. by apply list_lookup_middle. Qed.

Lemma int_size_fits l : fits l -> int_size l = Z.of_nat (length l).
Proof. unfold fits, int_size. intros. apply wrap_s_id; unfold in_s; lia. Qed.

Lemma at_pos_lt l i x rest : fits l -> at_pos l i (x :: rest) -> (i <? int_size l) = true.
Proof.
  intros Hf Hat. apply (at_pos_bound l i [x]) in Hat. rewrite int_size_fits by done.
  apply Z.ltb_lt. cbn [length] in Hat. lia.
Qed.

Lemma i32_ok z : - 2 ^ 31 <= z < 2 ^ 31 -> i32 z = Some z.
Proof. intros. unfold i32. by rewrite decide_True. Qed.

Lemma at_pos_next l i rest : fits l -> at_pos l i rest -> i32 (i + 1) = Some (i + 1).
Proof.
  unfold fits. intros Hf Hat. apply (at_pos_bound l i []) in Hat. apply i32_ok. cbn [length] in Hat. lia.
Qed.

(** A layer of the message is inside it and read as such. *)
Lemma at_pos_layer l i x rest :
  fits l -> at_pos l i (layer_ints x ++ rest) ->
  i32 (i + Z.of_nat kLayerSize) = Some (i + Z.of_nat kLayerSize) /\
  (int_size l <? i + Z.of_nat kLayerSize) = false /\
  read_layer l i = Some x /\ at_pos l (i + Z.of_nat kLayerSize) rest.
Proof.
  intros Hf Hat. pose proof (at_pos_bound _ _ _ _ Hat) as Hb.
  change (length (layer_ints x)) with kLayerSize in Hb.
  split_and!.
  - unfold fits in Hf. apply i32_ok. lia.
  - rewrite int_size_fits by done. apply Z.ltb_ge. lia.
  - destruct x as [a b c]. unfold read_layer. cbn [layer_ints type subtype version app] in Hat.
    rewrite (at_pos_get _ _ _ _ Hat). apply at_pos_cons in Hat. cbn [mbind option_bind].
    rewrite (at_pos_get _ _ _ _ Hat). apply at_pos_cons in Hat. cbn [mbind option_bind].
    replace (i + 2) with (i + 1 + 1) by lia. by rewrite (at_pos_get _ _ _ _ Hat).
  - by apply (at_pos_app _ _ _ _ Hat).
Qed.

(** Consumes the layer at the position [Hat] speaks of, in a reading loop. *)
Ltac consume_layer Hf Hat :=
  let H1 := fresh in let H2 := fresh in let H3 := fresh in
  destruct (at_pos_layer _ _ _ _ Hf Hat) as (H1 & H2 & H3 & Hat');
  rewrite H1; cbn [mbind option_bind]; rewrite H2, H3; cbn [mbind option_bind];
  clear H1 H2 H3 Hat; rename Hat' into Hat.

Lemma read_publishers_at l ids rest i acc :
  fits l -> at_pos l i (ids ++ rest) ->
  exists i', read_publishers l (length ids) i acc = Some (acc ++ ids, i') /\ at_pos l i' rest.
Proof.
  intros Hf. revert i acc. induction ids as [|x ids IH]; intros i acc Hat.
  - exists i. by rewrite app_nil_r.
  - cbn [length read_publishers app] in *.
    rewrite (at_pos_lt _ _ _ _ Hf Hat), (at_pos_get _ _ _ _ Hat). cbn [mbind option_bind].
    apply at_pos_cons in Hat. destruct (IH _ (acc ++ [x]) Hat) as (i' & -> & Hi').
    exists i'. by rewrite <- app_assoc.
Qed.

Lemma bind_assocs x ids (assocs : list VmsAssociatedLayer) :
  (mkAssoc x ids :: assocs) ≫= assoc_ints =
  layer_ints x ++ Z.of_nat (length ids) :: ids ++ (assocs ≫= assoc_ints).
Proof. cbn [mbind list_bind]. unfold assoc_ints at 1. by rewrite <- app_assoc. Qed.

Lemma read_available_at l assocs i acc :
  fits l -> at_pos l i (assocs ≫= assoc_ints) ->
  read_available l (length assocs) i acc = Some (acc ++ assocs).
Proof.
  intros Hf. revert i acc. induction assocs as [|[x ids] assocs IH]; intros i acc Hat.
  - by rewrite app_nil_r.
  - rewrite bind_assocs in Hat. cbn [length read_available].
    consume_layer Hf Hat.
    rewrite (at_pos_lt _ _ _ _ Hf Hat), (at_pos_get _ _ _ _ Hat). cbn [mbind option_bind].
    rewrite Nat2Z.id. apply at_pos_cons in Hat.
    destruct (read_publishers_at _ _ _ _ [] Hf Hat) as (i' & -> & Hi'). cbn [mbind option_bind app].
    rewrite IH by done. by rewrite <- app_assoc.
Qed.

Lemma read_layers_at offers l layers rest i acc :
  fits l -> at_pos l i ((layers ≫= layer_ints) ++ rest) ->
  exists i', read_layers offers l (length layers) i acc =
      Some (inr (acc ++ filter (fun x => offered offers x = true) layers, i')) /\ at_pos l i' rest.
Proof.
  intros Hf. revert i acc. induction layers as [|x layers IH]; intros i acc Hat.
  - exists i. by rewrite app_nil_r.
  - cbn [length read_layers]. cbn [mbind list_bind] in Hat. rewrite <- app_assoc in Hat.
    consume_layer Hf Hat.
    destruct (IH _ (if offered offers x then acc ++ [x] else acc) Hat) as (i' & -> & Hi').
    exists i'. split; [|done]. rewrite filter_cons.
    destruct (offered offers x); [rewrite decide_True by done|by rewrite decide_False].
    by rewrite <- app_assoc.
Qed.

Lemma match_publishers_at l pub x ids rest i acc :
  fits l -> at_pos l i (ids ++ rest) ->
  exists i', match_publishers l pub x (length ids) i acc =
      Some (acc ++ replicate (length (filter (fun y => y = pub) ids)) x, i') /\ at_pos l i' rest.
Proof.
  intros Hf. revert i acc. induction ids as [|y ids IH]; intros i acc Hat.
  - exists i. by rewrite app_nil_r.
  - cbn [length match_publishers app] in *.
    rewrite (at_pos_lt _ _ _ _ Hf Hat), (at_pos_get _ _ _ _ Hat). cbn [mbind option_bind].
    rewrite (at_pos_next _ _ _ Hf Hat). cbn [mbind option_bind]. apply at_pos_cons in Hat.
    destruct (IH _ (if bool_decide (y = pub) then acc ++ [x] else acc) Hat) as (i' & -> & Hi').
    exists i'. split; [|done]. rewrite filter_cons.
    case_bool_decide; [rewrite decide_True by done|by rewrite decide_False].
    cbn [length replicate]. by rewrite <- app_assoc.
Qed.

Lemma read_associated_at offers l assocs i acc :
  fits l -> Forall (fun a => offered offers (al_layer a) = true) assocs ->
  at_pos l i (assocs ≫= assoc_ints) ->
  read_associated offers l (length assocs) i acc = Some (acc ++ (assocs ≫= assoc_subscribed offers)).
Proof.
  intros Hf Hoff. revert i acc. induction Hoff as [|[x ids] assocs Hx _ IH]; intros i acc Hat.
  - by rewrite app_nil_r.
  - rewrite bind_assocs in Hat. cbn [length read_associated].
    consume_layer Hf Hat. cbn [al_layer] in Hx.
    rewrite Hx, (at_pos_lt _ _ _ _ Hf Hat), (at_pos_get _ _ _ _ Hat). cbn [andb mbind option_bind].
    rewrite Nat2Z.id. apply at_pos_cons in Hat.
    destruct (match_publishers_at _ (publisher_id offers) x _ _ _ acc Hf Hat) as (i' & -> & Hi').
    cbn [mbind option_bind list_bind]. rewrite IH by done.
    unfold assoc_subscribed at 2. cbn [al_layer publisher_ids]. rewrite Hx. by rewrite <- app_assoc.
Qed.

(** ** The guards of the parsers *)

Context `{!VmsAbiLaws}.

(** The message types lie between the first and the last. *)
Lemma message_type_bounds t : t ∈ message_types -> SUBSCRIBE <= t <= START_SESSION.
Proof.
  pose proof types_in_order as Hs. unfold message_types in *.
  repeat (apply StronglySorted_inv in Hs as [Hs ?]). rewrite !Forall_cons in *. clear Hs.
  rewrite !elem_of_cons, elem_of_nil. intuition lia.
Qed.

Lemma subs_types_valid t : t ∈ subs_types -> t ∈ message_types.
Proof. unfold subs_types, message_types. rewrite !elem_of_cons, elem_of_nil. tauto. Qed.

Lemma avail_types_valid t : t ∈ avail_types -> t ∈ message_types.
Proof. unfold avail_types, message_types. rewrite !elem_of_cons, elem_of_nil. tauto. Qed.

(** A value of the property whose first integer is a message type. *)
Definition vms_value (v : VehiclePropValue) (t : Z) (rest : list Z) : Prop :=
  prop v = VEHICLE_MAP_SERVICE /\ ints v = t :: rest.

Lemma vms_value_valid v t rest :
  vms_value v t rest -> t ∈ message_types ->
  isValidVmsMessage v = Some true /\ parseMessageType v = Some t.
Proof.
  intros [Hp Hi] Ht. apply message_type_bounds in Ht.
  unfold isValidVmsMessage, isValidVmsProperty, isValidVmsMessageType, parseMessageType.
  rewrite Hp, Hi, message_first, bool_decide_eq_true_2 by done.
  change (arr_get (t :: rest) 0) with (Some t). cbn [length Nat.ltb mbind option_bind].
  rewrite !bool_decide_eq_true_2 by lia. done.
Qed.

Lemma guarded_true v t rest types idx :
  vms_value v t rest -> t ∈ message_types -> t ∈ types -> idx < Z.of_nat (length (ints v)) ->
  guarded v types idx = Some true.
Proof.
  intros Hv Hm Ht Hidx. unfold guarded.
  destruct (vms_value_valid v t rest Hv Hm) as [-> ->]. cbn [mbind option_bind].
  by rewrite !bool_decide_eq_true_2.
Qed.

(** No message makes the guards read outside it, and a message they accept has
    the integer asked for. *)
Lemma isValidVmsMessage_total v :
  exists b, isValidVmsMessage v = Some b /\ (b = true -> (0 < length (ints v))%nat).
Proof.
  unfold isValidVmsMessage, isValidVmsMessageType. rewrite message_first.
  destruct (isValidVmsProperty v); [|by exists false].
  destruct (ints v) as [|t rest]; [by exists false|].
  change (arr_get (t :: rest) 0) with (Some t). cbn [length Nat.ltb Nat.leb mbind option_bind].
  eexists. split; [done|]. lia.
Qed.

Lemma parseMessageType_total v : (0 < length (ints v))%nat -> exists t, parseMessageType v = Some t.
Proof.
  intros. unfold parseMessageType. rewrite message_first. apply arr_get_is_Some. lia.
Qed.

Lemma guarded_total v types idx :
  0 <= idx -> exists b, guarded v types idx = Some b /\ (b = true -> is_Some (arr_get (ints v) idx)).
Proof.
  intros Hidx. unfold guarded. destruct (isValidVmsMessage_total v) as (b & -> & Hb).
  cbn [mbind option_bind]. destruct b; [|by exists false].
  destruct (parseMessageType_total v (Hb eq_refl)) as (t & ->). cbn [mbind option_bind].
  eexists. split; [done|]. rewrite andb_true_iff, !bool_decide_eq_true, arr_get_is_Some. lia.
Qed.

(** ** No message makes the availability parsers read outside it *)

Lemma read_publishers_total l n i acc :
  fits l -> 0 <= i <= Z.of_nat (length l) ->
  exists ids i', read_publishers l n i acc = Some (ids, i') /\ i <= i' <= Z.of_nat (length l).
Proof.
  intros Hf. revert i acc. induction n as [|n IH]; intros i acc Hi; cbn [read_publishers].
  - exists acc, i. split; [done|lia].
  - rewrite int_size_fits by done. destruct (Z.ltb_spec i (Z.of_nat (length l))) as [Hlt|Hge].
    + destruct (proj2 (arr_get_is_Some l i)) as [x ->]; [lia|]. cbn [mbind option_bind].
      destruct (IH (i + 1) (acc ++ [x])) as (ids & i' & -> & ?); [lia|].
      exists ids, i'. split; [done|lia].
    + apply IH. lia.
Qed.

Lemma read_layer_total l i :
  0 <= i -> i + Z.of_nat kLayerSize <= Z.of_nat (length l) -> exists x, read_layer l i = Some x.
Proof.
  unfold kLayerSize. intros. unfold read_layer.
  destruct (proj2 (arr_get_is_Some l i)) as [a ->]; [lia|].
  destruct (proj2 (arr_get_is_Some l (i + 1))) as [b ->]; [lia|].
  destruct (proj2 (arr_get_is_Some l (i + 2))) as [c ->]; [lia|]. by eexists.
Qed.

Lemma read_available_total l n i acc :
  fits l -> 0 <= i <= Z.of_nat (length l) -> exists r, read_available l n i acc = Some r.
Proof.
  intros Hf. revert i acc. induction n as [|n IH]; intros i acc Hi; cbn [read_available]; [by eexists|].
  pose proof Hf as Hf'. unfold fits in Hf'. rewrite i32_ok by (unfold kLayerSize; lia).
  cbn [mbind option_bind]. rewrite int_size_fits by done.
  destruct (Z.ltb_spec (Z.of_nat (length l)) (i + Z.of_nat kLayerSize)) as [Hlt|Hge]; [by eexists|].
  destruct (read_layer_total l i) as [x ->]; [lia..|]. cbn [mbind option_bind].
  destruct (Z.ltb_spec (i + Z.of_nat kLayerSize) (Z.of_nat (length l))) as [Hlt|Hge'].
  - destruct (proj2 (arr_get_is_Some l (i + Z.of_nat kLayerSize))) as [m ->]; [lia|].
    cbn [mbind option_bind].
    destruct (read_publishers_total l (Z.to_nat m) (i + Z.of_nat kLayerSize + 1) [])
      as (ids & i' & -> & ?); [done|lia|]. cbn [mbind option_bind]. apply IH. lia.
  - cbn [mbind option_bind]. apply IH. lia.
Qed.

(** ** Theorems *)

(** Availability messages round trip: the integers of an
    AVAILABILITY_CHANGE or AVAILABILITY_RESPONSE with a sequence number and a
    list of associated layers, each with its publisher ids, are parsed back to
    exactly that sequence number and those layers; and on no message of
    admissible size, however malformed, does the parser read outside it or
    overflow its index. *)
Lemma vms_available_roundtrip :
  (forall v t seq assocs,
     prop v = VEHICLE_MAP_SERVICE -> t ∈ avail_types -> ints v = availability_ints t seq assocs ->
     fits (ints v) ->
     getAvailableLayers v = Some assocs /\
     getSequenceNumberForAvailabilityState v = Some seq /\
     (forall last, isAvailabilitySequenceNumberNewer v last = Some (last <? seq))) /\
  (forall v, fits (ints v) -> is_Some (getAvailableLayers v)).
Proof.
  destruct avail_layout as (Hseq & Hnum & Hstart). split.
  - intros v t seq assocs Hp Ht Hi Hf.
    assert (vms_value v t (seq :: Z.of_nat (length assocs) :: (assocs ≫= assoc_ints))) as Hv
      by by split.
    pose proof (avail_types_valid t Ht) as Hm.
    unfold getAvailableLayers, getSequenceNumberForAvailabilityState, isAvailabilitySequenceNumberNewer.
    rewrite Hseq, Hnum, Hstart.
    rewrite !(guarded_true v t _ avail_types _ Hv Hm Ht)
      by (rewrite Hi; unfold availability_ints; rewrite length_app; cbn [length]; lia).
    cbn [mbind option_bind]. rewrite Hi in *.
    change (arr_get (availability_ints t seq assocs) 1) with (Some seq).
    change (arr_get (availability_ints t seq assocs) 2) with (Some (Z.of_nat (length assocs))).
    cbn [mbind option_bind]. split_and!; [|done..].
    rewrite Nat2Z.id, read_available_at; [done|done|]. by apply (at_pos_start _ [t; seq; Z.of_nat (length assocs)]).
  - intros v Hf. unfold getAvailableLayers. rewrite Hnum, Hstart.
    destruct (guarded_total v avail_types 2) as (b & -> & Hb); [lia|]. cbn [mbind option_bind].
    destruct b; [|done]. destruct (Hb eq_refl) as [n Hn]. rewrite Hn. cbn [mbind option_bind].
    apply read_available_total; [done|]. apply mk_is_Some, arr_get_is_Some in Hn. lia.
Qed.

(** For a SUBSCRIPTIONS_CHANGE or SUBSCRIPTIONS_RESPONSE all of whose
    associated layers are offered by the publisher, getSubscribedLayers returns
    the plain layers the publisher offers, in order, and then each associated
    layer once for every time the publisher's id is listed with it. *)
Lemma vms_subscribed_spec v t seq layers assocs offers :
  prop v = VEHICLE_MAP_SERVICE -> t ∈ subs_types -> ints v = subscriptions_ints t seq layers assocs ->
  fits (ints v) ->
  Forall (fun a => offered offers (al_layer a) = true) assocs ->
  getSubscribedLayers v offers = Some (subscribed_spec offers layers assocs) /\
  getSequenceNumberForSubscriptionsState v = Some seq.
Proof.
  destruct subs_layout as (Hseq & Hnum & Hassoc & Hstart).
  intros Hp Ht Hi Hf Hoff.
  assert (vms_value v t (seq :: Z.of_nat (length layers) :: Z.of_nat (length assocs) ::
            (layers ≫= layer_ints) ++ (assocs ≫= assoc_ints))) as Hv by by split.
  pose proof (subs_types_valid t Ht) as Hm.
  unfold getSubscribedLayers, getSequenceNumberForSubscriptionsState.
  rewrite Hseq, Hnum, Hassoc, Hstart.
  rewrite !(guarded_true v t _ subs_types _ Hv Hm Ht)
    by (rewrite Hi; unfold subscriptions_ints; rewrite length_app; cbn [length]; lia).
  cbn [mbind option_bind]. rewrite Hi in *. set (l := subscriptions_ints t seq layers assocs) in *.
  change (arr_get l 1) with (Some seq). split; [|done].
  change (arr_get l 2) with (Some (Z.of_nat (length layers))).
  change (arr_get l 3) with (Some (Z.of_nat (length assocs))). cbn [mbind option_bind].
  rewrite !Nat2Z.id.
  destruct (read_layers_at offers l layers (assocs ≫= assoc_ints) 4 []) as (i & -> & Hat);
    [done|by apply (at_pos_start _ [t; seq; Z.of_nat (length layers); Z.of_nat (length assocs)])|].
  cbn [mbind option_bind app]. rewrite int_size_fits, (proj2 (Z.ltb_lt _ _))
    by (done || unfold l, subscriptions_ints; rewrite length_app; cbn [length]; lia).
  by apply read_associated_at.
Qed.

(** ** Where getSubscribedLayers goes wrong *)

Lemma match_publishers_overflow l pub x n i acc :
  fits l -> 0 <= i < 2 ^ 31 -> 2 ^ 31 <= i + Z.of_nat n -> match_publishers l pub x n i acc = None.
Proof.
  intros Hf. revert i acc. induction n as [|n IH]; intros i acc Hi Hn; [lia|].
  cbn [match_publishers].
  assert (exists acc', (if i <? int_size l then
      x0 ← arr_get l i; Some (if bool_decide (x0 = pub) then acc ++ [x] else acc)
    else Some acc) = Some acc') as [acc' ->].
  { destruct (Z.ltb_spec i (int_size l)) as [Hlt|]; [|by eexists].
    rewrite int_size_fits in Hlt by done.
    destruct (proj2 (arr_get_is_Some l i)) as [y ->]; [lia|]. by eexists. }
  cbn [mbind option_bind]. unfold i32. case_decide; [|done]. cbn [mbind option_bind]. apply IH; lia.
Qed.

(** The header of a subscriptions message without plain layers: the parser goes
    straight to the associated layers. *)
Lemma getSubscribedLayers_no_layers v t seq m rest offers :
  prop v = VEHICLE_MAP_SERVICE -> t ∈ subs_types -> ints v = t :: seq :: 0 :: m :: rest ->
  fits (ints v) ->
  getSubscribedLayers v offers = read_associated offers (ints v) (Z.to_nat m) 4 [].
Proof.
  destruct subs_layout as (_ & Hnum & Hassoc & Hstart). intros Hp Ht Hi Hf.
  unfold getSubscribedLayers. rewrite Hnum, Hassoc, Hstart.
  rewrite (guarded_true v t (seq :: 0 :: m :: rest)); [|by split|by apply subs_types_valid|done|].
  - rewrite Hi in *. cbn [mbind option_bind]. change (arr_get _ 2) with (Some 0).
    change (arr_get _ 3) with (Some m). cbn [mbind option_bind]. cbn [Z.to_nat read_layers].
    cbn [mbind option_bind].
    by rewrite int_size_fits, (proj2 (Z.ltb_lt _ _)) by (done || cbn [length]; lia).
  - rewrite Hi. cbn [length]. lia.
Qed.

Lemma offered_one pub A x : offered (mkOffers pub [mkOffering A []]) x = bool_decide (x = A).
Proof. unfold offered. apply bool_decide_ext. cbn. by rewrite list_elem_of_singleton. Qed.

(** GetSubscribedLayers skips the three integers of an associated layer
    the publisher does not offer but not its publisher ids, so that what
    follows is read out of step: a subscription to B from another publisher,
    listed before a subscription to the offered layer A from this publisher,
    hides the latter.  And a publisher count near INT_MAX, which nothing
    checks, overflows the index. *)
Lemma vms_subscribed_out_of_step (pub q seq t : Z) (A B : VmsLayer) v :
  prop v = VEHICLE_MAP_SERVICE -> t ∈ subs_types -> A <> B -> A <> mkLayer 1 q (type A) ->
  let offers := mkOffers pub [mkOffering A []] in
  let assocs := [mkAssoc B [q]; mkAssoc A [pub]] in
  (ints v = subscriptions_ints t seq [] assocs ->
     getSubscribedLayers v offers = Some [] /\ subscribed_spec offers [] assocs = [A]) /\
  (forall count, 2 ^ 31 - 8 <= count < 2 ^ 31 ->
     ints v = t :: seq :: 0 :: 1 :: layer_ints A ++ [count] -> getSubscribedLayers v offers = None).
Proof.
  intros Hp Ht HAB HA offers assocs. split.
  - intros Hi. assert (fits (ints v)) as Hf by (rewrite Hi; done). split.
    + rewrite (getSubscribedLayers_no_layers v t seq 2 (assocs ≫= assoc_ints)) by done.
      change (Z.to_nat 2) with 2%nat. cbn [read_associated].
      assert (at_pos (ints v) 4 (layer_ints B ++ (layer_ints (mkLayer 1 q (type A)) ++
                [subtype A; version A; 1; pub]))) as Hat
        by (rewrite Hi; by apply (at_pos_start _ [t; seq; 0; 2])).
      consume_layer Hf Hat. unfold offers at 1. rewrite offered_one, bool_decide_eq_false_2 by done.
      cbn [andb]. consume_layer Hf Hat.
      unfold offers at 1. by rewrite offered_one, bool_decide_eq_false_2.
    + unfold subscribed_spec, assocs. cbn [mbind list_bind filter list_filter app].
      unfold assoc_subscribed, offers. rewrite !offered_one. cbn [al_layer publisher_ids publisher_id].
      rewrite bool_decide_eq_false_2, bool_decide_eq_true_2 by done.
      rewrite filter_cons, decide_True by done. done.
  - intros count Hc Hi. assert (fits (ints v)) as Hf by (rewrite Hi; done).
    rewrite (getSubscribedLayers_no_layers v t seq 1 (layer_ints A ++ [count])) by done.
    change (Z.to_nat 1) with 1%nat. cbn [read_associated].
    assert (at_pos (ints v) 4 (layer_ints A ++ [count])) as Hat
      by (rewrite Hi; by apply (at_pos_start _ [t; seq; 0; 1])).
    consume_layer Hf Hat.
    unfold offers at 1. rewrite offered_one, bool_decide_eq_true_2 by done.
    rewrite (at_pos_lt _ _ _ _ Hf Hat), (at_pos_get _ _ _ _ Hat). cbn [andb mbind option_bind].
    rewrite match_publishers_overflow; [done|done|unfold kLayerSize; lia..].
Qed.

(** ** Messages that are created *)

Lemma string_of_bytes_of s : string_of_bytes (bytes_of s) = s.
Proof.
  unfold string_of_bytes, bytes_of. rewrite <- list_fmap_compose.
  rewrite <- (String.string_of_list_ascii_of_string s) at 2. f_equal.
  rewrite <- (list_fmap_id (String.list_ascii_of_string s)) at 2. apply list_fmap_ext.
  intros _ c _. cbn. unfold byte_of. pose proof (nat_ascii_bounded c) as Hc.
  rewrite wrap_u_id by (unfold in_u; lia). by rewrite Nat2Z.id, ascii_nat_embedding.
Qed.

Lemma message_Some junk size l :
  exists v, message junk size l = Some v /\ prop v = VEHICLE_MAP_SERVICE /\ ints v = l /\
    bytes (value v) = [].
Proof.
  unfold message, createBaseVmsMessage, createVehiclePropValue, is_int32_type.
  rewrite bool_decide_eq_true_2 by (rewrite !elem_of_cons; auto). by eexists.
Qed.

(** The length of an offering message, without bound. *)
Definition offering_length (offers : VmsOffers) : nat :=
  3 + sum_list_with (fun o => 4 + 3 * length (dependencies o))%nat (offerings offers).

Lemma length_bind_layers (ds : list VmsLayer) : length (ds ≫= layer_ints) = (3 * length ds)%nat.
Proof.
  induction ds as [|d ds IH]; [done|]. rewrite bind_cons, length_app, IH.
  change (length (layer_ints d)) with 3%nat. cbn [length]. lia.
Qed.

Lemma length_bind_offerings (os : list VmsLayerOffering) :
  length (os ≫= offering_ints) = sum_list_with (fun o => 4 + 3 * length (dependencies o))%nat os.
Proof.
  induction os as [|o os IH]; [done|]. rewrite bind_cons, length_app, IH.
  unfold offering_ints. rewrite !length_app, length_bind_layers.
  cbn [sum_list_with length layer_ints]. lia.
Qed.

Lemma offering_size_from k (os : list VmsLayerOffering) :
  Z.of_nat (k + sum_list_with (fun o => 4 + 3 * length (dependencies o))%nat os) < 2 ^ 31 ->
  foldl (fun n o => wrap_s 32 (n + Z.of_nat (kLayerSize + kLayerNumberSize +
                                             length (dependencies o) * kLayerSize)))
    (Z.of_nat k) os =
  Z.of_nat (k + sum_list_with (fun o => 4 + 3 * length (dependencies o))%nat os).
Proof.
  revert k. induction os as [|o os IH]; intros k Hk; cbn [foldl sum_list_with] in *; [f_equal; lia|].
  assert (forall d, kLayerSize + kLayerNumberSize + d * kLayerSize = 4 + 3 * d)%nat as Hs
    by (unfold kLayerSize, kLayerNumberSize; lia).
  rewrite Hs, wrap_s_id, <- Nat2Z.inj_add, IH by (unfold in_s; lia). lia.
Qed.

Lemma offering_message_size_length offers :
  Z.of_nat (offering_length offers) < 2 ^ 31 ->
  offering_message_size offers = Z.of_nat (offering_length offers).
Proof. apply (offering_size_from 3). Qed.

(** Every message the library creates is one its parsers accept: a DATA
    message gives back its packet, byte for byte; a START_SESSION message gives
    back the service id, and is an acknowledgement exactly when the client id
    is the current one; an OFFERING message has exactly the number of integers
    its size was computed for. *)
Lemma vms_created_roundtrip junk :
  (forall lp packet, exists v,
     createDataMessageWithLayerPublisherInfo junk lp packet = Some v /\
     isValidVmsMessage v = Some true /\ parseMessageType v = Some DATA /\ parseData v = Some packet) /\
  (forall service client current_service current_client, exists v,
     createStartSessionMessage junk service client = Some v /\
     parseStartSessionMessage v current_service current_client =
       Some (if bool_decide (client = current_client) then kAckToCurrentSession
             else kNewServerSession, service)) /\
  (forall offers, Z.of_nat (offering_length offers) < 2 ^ 31 -> exists v,
     createOfferingMessage junk offers = Some v /\ isValidVmsMessage v = Some true /\
     parseMessageType v = Some OFFERING /\
     length (ints v) = Z.to_nat (wrap_u 64 (offering_message_size offers))).
Proof.
  assert (forall t, t ∈ [DATA; START_SESSION; OFFERING] -> t ∈ message_types) as Hin
    by (intros t; unfold message_types; rewrite !elem_of_cons, elem_of_nil; tauto).
  split_and!.
  - intros lp packet. unfold createDataMessageWithLayerPublisherInfo.
    destruct (message_Some junk (kMessageTypeSize + kLayerAndPublisherSize)
      (DATA :: layer_ints (lp_layer lp) ++ [lp_publisher_id lp])) as (v & -> & Hp & Hi & _).
    eexists. split; [done|]. set (w := set_bytes _ _).
    destruct (vms_value_valid w DATA (layer_ints (lp_layer lp) ++ [lp_publisher_id lp]))
      as [Hval Hty]; [by split|apply Hin, list_elem_of_here|].
    split_and!; [done..|]. unfold parseData. rewrite Hval. cbn [mbind option_bind]. rewrite Hty.
    cbn [mbind option_bind]. rewrite bool_decide_eq_true_2 by done. f_equal.
    change (bytes (value w)) with (bytes_of packet).
    destruct (Nat.ltb_spec 0 (length (bytes_of packet))) as [|Hlen]; [apply string_of_bytes_of|].
    by destruct packet; [|cbn in Hlen; lia].
  - intros s c cs cc.
    destruct (message_Some junk (kMessageTypeSize + kSessionIdsSize) [START_SESSION; s; c])
      as (v & Hv & Hp & Hi & _). exists v. split; [done|].
    unfold parseStartSessionMessage.
    destruct (vms_value_valid v START_SESSION [s; c]) as [Hval Hty]; [by split|apply Hin; set_solver|].
    rewrite Hval. cbn [mbind option_bind]. rewrite Hty. cbn [mbind option_bind]. rewrite Hi.
    rewrite bool_decide_eq_true_2 by done.
    change (arr_get [START_SESSION; s; c] 1) with (Some s).
    change (arr_get [START_SESSION; s; c] 2) with (Some c). cbn. by repeat case_bool_decide.
  - intros offers Hlen. unfold createOfferingMessage.
    destruct (message_Some junk (Z.to_nat (wrap_u 64 (offering_message_size offers)))
      ([OFFERING; publisher_id offers; wrap_s 32 (Z.of_nat (length (offerings offers)))] ++
       (offerings offers ≫= offering_ints))) as (v & Hv & Hp & Hi & _).
    exists v. split; [done|].
    destruct (vms_value_valid v OFFERING (publisher_id offers ::
      wrap_s 32 (Z.of_nat (length (offerings offers))) :: (offerings offers ≫= offering_ints)))
      as [Hval Hty]; [by split|apply Hin; set_solver|].
    split_and!; [done..|]. rewrite Hi, length_app, length_bind_offerings.
    rewrite offering_message_size_length, wrap_u_id by (done || unfold in_u; lia).
    unfold offering_length. cbn [length]. lia.
Qed.

End Vms.

(** ** Witnesses *)

Definition aosp_vms_abi : VmsAbi := {|
  SUBSCRIBE := 1; SUBSCRIBE_TO_PUBLISHER := 2; UNSUBSCRIBE := 3; UNSUBSCRIBE_TO_PUBLISHER := 4;
  OFFERING := 5; AVAILABILITY_REQUEST := 6; SUBSCRIPTIONS_REQUEST := 7;
  AVAILABILITY_RESPONSE := 8; AVAILABILITY_CHANGE := 9; SUBSCRIPTIONS_RESPONSE := 10;
  SUBSCRIPTIONS_CHANGE := 11; DATA := 12; PUBLISHER_ID_REQUEST := 13;
  PUBLISHER_ID_RESPONSE := 14; START_SESSION := 17;
  kMessageIndex := 0; kPublisherIdIndex := 1; kSubscriptionStateSequenceNumberIndex := 1;
  SUBS_NUMBER_OF_LAYERS := 2; SUBS_NUMBER_OF_ASSOCIATED_LAYERS := 3; SUBSCRIPTIONS_START := 4;
  kAvailabilitySequenceNumberIndex := 1; AVAIL_NUMBER_OF_ASSOCIATED_LAYERS := 2;
  LAYERS_START := 3; VEHICLE_MAP_SERVICE := 0x11e00c00
|}.

Lemma aosp_vms_abi_laws : @VmsAbiLaws aosp_vms_abi.
Proof. split; cbn; [|done|done|done]. repeat constructor; lia. Qed.

Section VmsWitnesses.
#[local] Existing Instance aosp_abi.
#[local] Existing Instance aosp_vms_abi.
#[local] Existing Instance aosp_vms_abi_laws.

Definition vms_msg (l : list Z) : VehiclePropValue :=
  mkValue 0 0 0x11e00c00 0 (mkRaw l [] [] [] EmptyString).

Definition map_layer : VmsLayer := mkLayer 10 0 1.
Definition traffic_layer : VmsLayer := mkLayer 20 1 2.

End VmsWitnesses.
