(* ===== verification/Hwsecure.v ===== *)
(** * wv_trusty_client/lib/hwsecure_client.c: secure display pipes through Trusty

    The client of the Trusty service that switches the G2D engine (Widevine L1)
    or the display pipe of the secure input method to the secure world.  The
    transport, [tipc_connect], [tipc_close] and the [writev] and [readv] of the
    channel, is not under src/: class [Tipc], whose answers may depend on
    everything that happened before.  The calls made to it are logged, which is
    what the theorems speak of.  A null pointer is dereferenced when [malloc]
    fails: [None]. *)

From S2P Require Import Prelude.

(** ** Data *)

(** The build is for Widevine, for the secure input method, or for neither:
    with both macros the two declarations of [resp] clash and the file does not
    compile. *)
Inductive Support := SUPPORT_NONE | SUPPORT_WIDEVINE_L1 | SUPPORT_SECUREIME.

(** enum hwsecure_client_cmd *)
Definition HWSECURE_CLIENT_REQ_SHIFT : Z := 1.
Definition HWSECURE_CLIENT_RESP_BIT : Z := 1.
Definition ENABLE_G2D_SECURE_MODE : Z := Z.shiftl 1 HWSECURE_CLIENT_REQ_SHIFT.
Definition DISABLE_G2D_SECURE_MODE : Z := Z.shiftl 2 HWSECURE_CLIENT_REQ_SHIFT.
Definition GET_G2D_SECURE_MODE : Z := Z.shiftl 3 HWSECURE_CLIENT_REQ_SHIFT.
Definition SECURE_IME_ENABLE_SECURE_POLICY : Z := Z.shiftl 4 HWSECURE_CLIENT_REQ_SHIFT.
Definition SECURE_IME_DISABLE_SECURE_POLICY : Z := Z.shiftl 5 HWSECURE_CLIENT_REQ_SHIFT.
Definition SECURE_IME_GET_SECURE_MODE : Z := Z.shiftl 6 HWSECURE_CLIENT_REQ_SHIFT.

(** struct hwsecure_client_resp: three [uint32_t]; the two members of the union
    share their storage. *)
Record hwsecure_client_resp := mkResp { r_cmd : Z; r_result : Z; r_mode : Z }.

Definition resp_ok (r : hwsecure_client_resp) : Prop :=
  in_u 32 (r_cmd r) /\ in_u 32 (r_result r) /\ in_u 32 (r_mode r).

(** enum g2d_secure_mode *)
Definition SECURE : Z := 1.
Definition NON_SECURE : Z := 2.

(** ** The transport *)

Inductive Call :=
  | CConnect (rc : Z) | CWritev (h cmd rc : Z) | CReadv (h rc : Z) | CClose (h : Z).

(** What the platform answers after the calls of the log: whether [malloc]
    succeeds, the result of [tipc_connect], the result of [writev] and [readv]
    with the [errno] they leave, and the reply buffer after [readv]. *)
Class Tipc := {
  malloc_ok : list Call -> bool;
  tipc_connect : list Call -> Z;
  tipc_writev : list Call -> Z -> Z -> Z -> Z * Z;
  tipc_readv : list Call -> Z -> Z -> hwsecure_client_resp -> Z * Z * hwsecure_client_resp;
  EINVAL : Z
}.

(** The kernel leaves [errno] alone when a call succeeds, and replies are made
    of [uint32_t]s. *)
Class TipcLaws `{Tipc} : Prop := {
  readv_errno log h e buf : 0 <= (tipc_readv log h e buf).1.1 -> (tipc_readv log h e buf).1.2 = e;
  writev_errno log h c e : 0 <= (tipc_writev log h c e).1 -> (tipc_writev log h c e).2 = e;
  readv_resp log h e buf : resp_ok buf -> resp_ok (tipc_readv log h e buf).2
}.

(** [handle_], [errno] and the log. *)
Record Client := mkClient { handle_ : Z; errno : Z; log : list Call }.

Section Hwsecure.
Context `{Tipc}.

Definition logged (s : Client) (c : Call) : Client :=
  mkClient (handle_ s) (errno s) (log s ++ [c]).

(** ** Operations *)

(** The result, the reply buffer, the client. *)
Definition hwsecure_client_smc_call (s : Client) (cmd : Z) (rsp : hwsecure_client_resp)
    : option (Z * hwsecure_client_resp * Client) :=
  if handle_ s <? 0 then Some (- EINVAL, rsp, s)
  else if negb (malloc_ok (log s)) then None
  else
    let '(rc, e) := tipc_writev (log s) (handle_ s) cmd (errno s) in
    let s := mkClient (handle_ s) e (log s ++ [CWritev (handle_ s) cmd rc]) in
    if rc <? 0 then Some (wrap_s 32 (- errno s), rsp, s)
    else
      let '(rc, e, rsp) := tipc_readv (log s) (handle_ s) (errno s) rsp in
      let s := mkClient (handle_ s) e (log s ++ [CReadv (handle_ s) rc]) in
      if rc <? 0 then Some (wrap_s 32 (- errno s), rsp, s)
      else if negb (r_cmd rsp =? Z.lor cmd HWSECURE_CLIENT_RESP_BIT) then
        Some (wrap_s 32 (- errno s), rsp, s)
      else if r_result rsp <? 0 then Some (wrap_s 32 (- errno s), rsp, s)
      else Some (wrap_s 32 rc, rsp, s).

Definition hwsecure_connect (s : Client) : Z * Client :=
  let rc := tipc_connect (log s) in
  let s := logged s (CConnect rc) in
  if rc <? 0 then (rc, s) else (0, mkClient rc (errno s) (log s)).

Definition hwsecure_disconnect (s : Client) : Client :=
  let s := if 0 <=? handle_ s then logged s (CClose (handle_ s)) else s in
  mkClient (-1) (errno s) (log s).

(** Connect, send one command, disconnect: the body of each branch of the
    functions below; [inl] is the early return. *)
Definition hwsecure_session (s : Client) (cmd : Z) (resp : hwsecure_client_resp)
    : option (Client + hwsecure_client_resp * Client) :=
  let '(rc, s) := hwsecure_connect s in
  if negb (rc =? 0) then Some (inl s)
  else
    '(_, resp, s) ← hwsecure_client_smc_call s cmd resp;
    Some (inr (resp, hwsecure_disconnect s)).

(** [stack] is what the uninitialised [resp] holds. *)
Definition set_g2d_secure_pipe (b : Support) (stack : hwsecure_client_resp) (s : Client) (enable : Z)
    : option Client :=
  let run on off :=
    r ← hwsecure_session s (if negb (enable =? 0) then on else off) stack;
    Some (match r with inl s => s | inr (_, s) => s end) in
  match b with
  | SUPPORT_NONE => Some s
  | SUPPORT_WIDEVINE_L1 => run ENABLE_G2D_SECURE_MODE DISABLE_G2D_SECURE_MODE
  | SUPPORT_SECUREIME => run SECURE_IME_ENABLE_SECURE_POLICY SECURE_IME_DISABLE_SECURE_POLICY
  end.

Definition get_g2d_secure_pipe (b : Support) (stack : hwsecure_client_resp) (s : Client)
    : option (Z * Client) :=
  let run cmd :=
    r ← hwsecure_session s cmd (mkResp (r_cmd stack) (r_result stack) 0);
    Some (match r with inl s => (-1, s) | inr (resp, s) => (r_mode resp, s) end) in
  match b with
  | SUPPORT_NONE => Some (NON_SECURE, s)
  | SUPPORT_WIDEVINE_L1 => run GET_G2D_SECURE_MODE
  | SUPPORT_SECUREIME => run SECURE_IME_GET_SECURE_MODE
  end.

(** ** Specification *)

(** The calls of one session: a failed connection is alone; a connection is
    used for one write, one read if the write succeeded, and closed. *)
Inductive session_calls (cmd : Z) : list Call -> Prop :=
  | SessRefused rc : rc < 0 -> session_calls cmd [CConnect rc]
  | SessUnsent h w : 0 <= h -> w < 0 -> session_calls cmd [CConnect h; CWritev h cmd w; CClose h]
  | SessSent h w r : 0 <= h -> 0 <= w ->
      session_calls cmd [CConnect h; CWritev h cmd w; CReadv h r; CClose h].

(** The command each entry point sends. *)
Definition set_command (b : Support) (enable : bool) : option Z :=
  match b with
  | SUPPORT_NONE => None
  | SUPPORT_WIDEVINE_L1 => Some (if enable then ENABLE_G2D_SECURE_MODE else DISABLE_G2D_SECURE_MODE)
  | SUPPORT_SECUREIME =>
      Some (if enable then SECURE_IME_ENABLE_SECURE_POLICY else SECURE_IME_DISABLE_SECURE_POLICY)
  end.

Definition get_command (b : Support) : option Z :=
  match b with
  | SUPPORT_NONE => None
  | SUPPORT_WIDEVINE_L1 => Some GET_G2D_SECURE_MODE
  | SUPPORT_SECUREIME => Some SECURE_IME_GET_SECURE_MODE
  end.

Definition calls_of (c : option Z) (l : list Call) : Prop :=
  match c with None => l = [] | Some cmd => session_calls cmd l end.

(** ** Lemmas *)

(** A call on an open handle: what it logs, and what it returns for each
    outcome. *)
Lemma smc_call_spec s cmd rsp r :
  0 <= handle_ s -> hwsecure_client_smc_call s cmd rsp = Some r ->
  exists rc rsp' e l, r = (rc, rsp', mkClient (handle_ s) e (log s ++ l)) /\
    ((exists w, w < 0 /\ l = [CWritev (handle_ s) cmd w] /\ rsp' = rsp) \/
     (exists w rd, 0 <= w /\ l = [CWritev (handle_ s) cmd w; CReadv (handle_ s) rd])).
Proof.
  intros Hh. unfold hwsecure_client_smc_call.
  destruct (Z.ltb_spec (handle_ s) 0) as [|_]; [lia|]. destruct (negb (malloc_ok _)); [done|].
  destruct (tipc_writev _ _ _ _) as [w e]. cbn [handle_ errno log].
  destruct (Z.ltb_spec w 0) as [Hw|Hw].
  - intros [= <-]. do 4 eexists. split; [done|]. left. by exists w.
  - destruct (tipc_readv _ _ _ _) as [[rd e'] rsp']. cbn [handle_ errno log]. rewrite <- app_assoc.
    intros Hr. assert (exists rc, r = (rc, rsp',
      mkClient (handle_ s) e' (log s ++ [CWritev (handle_ s) cmd w] ++ [CReadv (handle_ s) rd])))
      as [rc ->] by (repeat case_match; simplify_eq; by eexists).
    do 4 eexists. split; [done|]. right. by exists w, rd.
Qed.

Lemma session_spec s cmd resp r :
  handle_ s = -1 -> hwsecure_session s cmd resp = Some r ->
  exists e l, session_calls cmd l /\
    match r with inl s' => s' | inr (_, s') => s' end = mkClient (-1) e (log s ++ l).
Proof.
  intros Hh. unfold hwsecure_session, hwsecure_connect.
  destruct (Z.ltb_spec (tipc_connect (log s)) 0) as [Hc|Hc].
  - rewrite (proj2 (Z.eqb_neq _ _)) by lia. cbn [negb]. intros [= <-].
    eexists _, _. split; [by apply (SessRefused _ _ Hc)|]. unfold logged. by rewrite Hh.
  - cbn [Z.eqb negb]. intros Hr.
    apply bind_Some in Hr as ([[rc rsp] s'] & Hcall & [= <-]).
    apply smc_call_spec in Hcall as (rc' & rsp' & e & l & [= -> -> ->] & Hl); [|done].
    cbn [handle_ log logged] in *. unfold hwsecure_disconnect. cbn [handle_].
    rewrite (proj2 (Z.leb_le _ _) Hc). unfold logged. cbn [handle_ errno log].
    eexists e, (CConnect _ :: l ++ [CClose _]). rewrite <- !app_assoc. split; [|done].
    destruct Hl as [(w & Hw & -> & _)|(w & rd & Hw & ->)]; by constructor.
Qed.

(** ** Theorems *)

(** Whatever the transport answers, an entry point called without an open
    connection ends without one, and the calls it makes are one session of
    its own command: a connection is refused, or it is used for exactly that
    command and closed. *)
Lemma hwsecure_session_closed b stack s :
  handle_ s = -1 ->
  (forall enable s', set_g2d_secure_pipe b stack s enable = Some s' ->
     handle_ s' = -1 /\
     exists l, log s' = log s ++ l /\ calls_of (set_command b (negb (enable =? 0))) l) /\
  (forall mode s', get_g2d_secure_pipe b stack s = Some (mode, s') ->
     handle_ s' = -1 /\ exists l, log s' = log s ++ l /\ calls_of (get_command b) l).
Proof.
  intros Hh. split.
  - intros enable s' Hs. unfold set_g2d_secure_pipe in Hs. destruct b.
    { simplify_eq. split; [done|]. exists []. by rewrite app_nil_r. }
    all: apply bind_Some in Hs as (r & Hr & [= Hs]);
      apply session_spec in Hr as (e & l & Hl & Heq); [|done];
      rewrite Heq in Hs; subst s'; split; [done|]; exists l; split; [done|];
      by destruct (negb (enable =? 0)).
  - intros mode s' Hs. unfold get_g2d_secure_pipe in Hs. destruct b.
    { simplify_eq. split; [done|]. exists []. by rewrite app_nil_r. }
    all: apply bind_Some in Hs as (r & Hr & [= Hs]);
      apply session_spec in Hr as (e & l & Hl & Heq); [|done];
      assert (s' = mkClient (-1) e (log s ++ l)) as -> by (destruct r as [|[]]; by simplify_eq);
      split; [done|]; by exists l.
Qed.

(** Errors of the secure service are lost.  When the exchange itself
    works: a reply to the command is a success with whatever [result] it
    carries, since an unsigned [result] is never negative; and a reply to
    another command is reported as minus an [errno] nobody set, which is
    0, no error, when none was pending. *)
Lemma hwsecure_errors_lost `{!TipcLaws} s cmd rsp :
  let w := tipc_writev (log s) (handle_ s) cmd (errno s) in
  let rd := tipc_readv (log s ++ [CWritev (handle_ s) cmd w.1]) (handle_ s) (errno s) rsp in
  0 <= handle_ s -> malloc_ok (log s) = true -> resp_ok rsp -> in_s 32 (errno s) ->
  0 <= w.1 -> 0 <= rd.1.1 < 2 ^ 31 ->
  exists rc s', hwsecure_client_smc_call s cmd rsp = Some (rc, rd.2, s') /\
    rc = (if r_cmd rd.2 =? Z.lor cmd HWSECURE_CLIENT_RESP_BIT then rd.1.1
          else wrap_s 32 (- errno s)) /\
    (errno s = 0 -> 0 <= rc).
Proof.
  intros w rd Hh Hm Hrsp He Hw Hrd. unfold hwsecure_client_smc_call.
  rewrite (proj2 (Z.ltb_ge _ _) Hh), Hm. cbn [negb].
  pose proof (writev_errno (log s) (handle_ s) cmd (errno s) Hw) as Hwe. fold w in Hwe |- *.
  destruct w as [wr we]. cbn [fst snd] in *. subst we.
  rewrite (proj2 (Z.ltb_ge _ _) Hw). cbn [handle_ errno log].
  pose proof (readv_errno _ _ _ _ (proj1 Hrd)) as Hre. fold rd in Hre |- *.
  pose proof (readv_resp (log s ++ [CWritev (handle_ s) cmd wr]) (handle_ s) (errno s) rsp Hrsp)
    as (_ & [Hres _] & _). fold rd in Hres.
  destruct rd as [[rr re] buf]. cbn [fst snd] in *. subst re.
  rewrite (proj2 (Z.ltb_ge rr 0)) by lia. rewrite (proj2 (Z.ltb_ge _ _) Hres).
  destruct (r_cmd buf =? Z.lor cmd HWSECURE_CLIENT_RESP_BIT); cbn [negb errno];
    eexists _, _; (split; [done|]); split.
  - apply wrap_s_id; unfold in_s; lia.
  - rewrite wrap_s_id; unfold in_s; lia.
  - done.
  - intros ->. done.
Qed.

End Hwsecure.

(** ** Witnesses *)

(** A service that accepts the connection as handle 3 and answers a command
    with an error in [result]. *)
Definition refusing_service : Tipc := {|
  malloc_ok _ := true;
  tipc_connect _ := 3;
  tipc_writev _ _ _ e := (4, e);
  tipc_readv _ _ e _ := (12, e, mkResp 3 0xffffffff 0);
  EINVAL := 22
|}.

Lemma refusing_service_laws : @TipcLaws refusing_service.
Proof. split; [done..|]. intros. cbn. repeat split; cbn; lia. Qed.

Definition idle_client : Client := mkClient (-1) 0 [].
