(* ===== verification/EleMsg.v ===== *)
(** * secure-enclave/lib: messages of the EdgeLock secure enclave

    The message unit transfers a [struct mu_msg]: four header bytes and 32 words
    of data, which the code views as bytes, as little-endian words or as one of
    the command structures of EleMessage.h.  A message is its list of bytes; a
    structure is its list of fields, from which offsets and sizes follow by the
    layout rules of C.  Access outside a buffer is [None].

    This file holds the layouts, the header, and the checksum; [EleOps] the
    operations of the client and [EleNvm] the storage service. *)

From S2P Require Import Prelude.

(** ** Bytes and little-endian integers *)

Fixpoint le_decode (l : list Z) : Z :=
  match l with [] => 0 | b :: r => b + 256 * le_decode r end.

Fixpoint le_encode (n : nat) (v : Z) : list Z :=
  match n with O => [] | S n' => v mod 256 :: le_encode n' (v / 256) end.

Definition get_le (n : nat) (l : list Z) (off : nat) : option Z :=
  if decide (off + n <= length l)%nat then Some (le_decode (take n (drop off l))) else None.

Definition set_le (n : nat) (l : list Z) (off : nat) (v : Z) : option (list Z) :=
  arr_copy l off (le_encode n v) n.

Lemma length_le_encode n v : length (le_encode n v) = n.
Proof. revert v. induction n as [|n IH]; intros v; simpl; [done|]. by rewrite IH. Qed.

Lemma pow256 n : 2 ^ (8 * Z.of_nat (S n)) = 256 * 2 ^ (8 * Z.of_nat n).
Proof.
  replace (8 * Z.of_nat (S n)) with (8 + 8 * Z.of_nat n) by lia. rewrite Z.pow_add_r by lia. done.
Qed.

Lemma le_decode_encode n v : le_decode (le_encode n v) = wrap_u (8 * Z.of_nat n) v.
Proof.
  unfold wrap_u. revert v. induction n as [|n IH]; intros v; cbn [le_encode le_decode].
  - by rewrite Z.mod_1_r.
  - rewrite IH, pow256. rewrite Z.rem_mul_r by lia. done.
Qed.

Lemma set_le_length n l off v l' : set_le n l off v = Some l' -> length l' = length l.
Proof. apply arr_copy_length. Qed.

Lemma set_le_is_Some n l off v : is_Some (set_le n l off v) <-> (off + n <= length l)%nat.
Proof.
  unfold set_le, arr_copy. rewrite length_le_encode. case_decide; split; (done || lia || eauto).
Qed.

Lemma get_le_is_Some n l off : is_Some (get_le n l off) <-> (off + n <= length l)%nat.
Proof. unfold get_le. case_decide; split; (done || lia || eauto). Qed.

Lemma set_le_split n l off v l' :
  set_le n l off v = Some l' ->
  (off + n <= length l)%nat /\ l' = take off l ++ le_encode n v ++ drop (off + n) l.
Proof.
  unfold set_le, arr_copy. case_decide as Hd; [|done]. intros [= <-]. split; [lia|].
  by rewrite (take_ge (le_encode n v)) by (rewrite length_le_encode; lia).
Qed.

Lemma get_set_same n l off v l' :
  set_le n l off v = Some l' -> get_le n l' off = Some (wrap_u (8 * Z.of_nat n) v).
Proof.
  intros Hs. pose proof (set_le_length _ _ _ _ _ Hs) as Hlen.
  apply set_le_split in Hs as [Hb ->]. unfold get_le.
  rewrite decide_True by lia. f_equal.
  rewrite drop_app_length' by (rewrite length_take; lia).
  rewrite take_app_length' by (by rewrite length_le_encode). apply le_decode_encode.
Qed.

Lemma get_set_other n l off v l' n' off' :
  set_le n l off v = Some l' -> (off + n <= off' \/ off' + n' <= off)%nat ->
  get_le n' l' off' = get_le n' l off'.
Proof.
  intros Hs Hd. pose proof (set_le_length _ _ _ _ _ Hs) as Hlen.
  apply set_le_split in Hs as [Hb ->]. unfold get_le. rewrite Hlen.
  case_decide as Hlt; [|done]. f_equal. f_equal. destruct Hd as [Hd|Hd].
  - rewrite drop_app_ge by (rewrite length_take; lia).
    rewrite drop_app_ge by (rewrite length_take, length_le_encode; lia).
    rewrite drop_drop, length_take, length_le_encode. do 2 f_equal. lia.
  - rewrite drop_app_le by (rewrite length_take; lia).
    rewrite take_app_le by (rewrite length_drop, length_take; lia).
    rewrite skipn_firstn_comm, take_take. f_equal. lia.
Qed.

(** ** Structures *)

Record field := F { fname : string; fwidth : nat; fcount : nat }.
Definition layout := list field.

Definition u8 (n : string) : field := F n 1 1.
Definition u16 (n : string) : field := F n 2 1.
Definition u32 (n : string) : field := F n 4 1.
Definition u8s (n : string) (k : nat) : field := F n 1 k.
Definition u32s (n : string) (k : nat) : field := F n 4 k.

(** A member that is itself a structure of the same alignment. *)
Definition inside (p : string) (s : layout) : layout :=
  (fun f => F (p +:+ "." +:+ fname f) (fwidth f) (fcount f)) <$> s.

(** The next multiple of [w]. *)
Definition align (w o : nat) : nat := ((o + w - 1) / w * w)%nat.

Fixpoint offset_from (o : nat) (s : layout) (n : string) : option (nat * nat) :=
  match s with
  | [] => None
  | F m w k :: r =>
      if String.eqb m n then Some (align w o, w) else offset_from (align w o + w * k) r n
  end.

Fixpoint size_from (o : nat) (s : layout) : nat :=
  match s with [] => o | F _ w k :: r => size_from (align w o + w * k) r end.

Definition alignof (s : layout) : nat := foldr Nat.max 1%nat (fwidth <$> s).
Definition offset_of (s : layout) (n : string) : option (nat * nat) := offset_from 0 s n.
Definition sizeof (s : layout) : nat := align (alignof s) (size_from 0 s).

(** What the layouts of the header have in common: widths of C integers, no
    name twice, no empty array. *)
Definition layout_ok (s : layout) : bool :=
  bool_decide (NoDup (fname <$> s)) &&
  forallb (fun f => bool_decide (fwidth f ∈ [1; 2; 4]%nat) && (0 <? fcount f)%nat) s.

Lemma align_ge w o : (0 < w)%nat -> (o <= align w o)%nat.
Proof.
  intros Hw. unfold align. pose proof (Nat.div_mod_eq (o + w - 1) w).
  pose proof (Nat.mod_upper_bound (o + w - 1) w). lia.
Qed.

Definition pos_fields (s : layout) : Prop := Forall (fun f => 0 < fwidth f /\ 0 < fcount f)%nat s.

Lemma layout_ok_pos s : layout_ok s = true -> pos_fields s.
Proof.
  unfold layout_ok. rewrite andb_true_iff, forallb_forall. intros [_ Hf].
  apply Forall_forall. intros f Hin. apply list_elem_of_In, Hf in Hin.
  rewrite andb_true_iff, bool_decide_eq_true, Nat.ltb_lt in Hin. destruct Hin as [Hw ?].
  split; [|done]. rewrite !elem_of_cons, elem_of_nil in Hw. lia.
Qed.

Lemma field_step w k o : (0 < w)%nat -> (0 < k)%nat -> (o + w <= align w o + w * k)%nat.
Proof. intros Hw Hk. pose proof (align_ge w o Hw). nia. Qed.

Lemma size_from_ge s o : pos_fields s -> (o <= size_from o s)%nat.
Proof.
  intros Hp. revert o. induction Hp as [|[m w k] s [Hw Hk] _ IH]; intros o; cbn [size_from]; [done|].
  cbn in Hw, Hk. specialize (IH (align w o + w * k)%nat). pose proof (field_step w k o Hw Hk). lia.
Qed.

Lemma offset_from_bounds s o n a w :
  pos_fields s -> offset_from o s n = Some (a, w) -> (o <= a /\ a + w <= size_from o s)%nat.
Proof.
  intros Hp. revert o. induction Hp as [|[m v k] s [Hw Hk] Hp IH]; intros o; cbn [offset_from]; [done|].
  cbn in Hw, Hk. pose proof (align_ge v o Hw). cbn [size_from].
  pose proof (size_from_ge s (align v o + v * k) Hp).
  destruct (String.eqb m n).
  - intros [= <- <-]. nia.
  - intros Ha. apply IH in Ha. nia.
Qed.

Lemma offset_from_width s o n a w :
  pos_fields s -> offset_from o s n = Some (a, w) -> (0 < w)%nat.
Proof.
  intros Hp. revert o. induction Hp as [|[m v k] s [Hw Hk] Hp IH]; intros o; cbn [offset_from]; [done|].
  destruct (String.eqb m n); [intros [= <- <-]; exact Hw|apply IH].
Qed.

(** Different fields do not overlap. *)
Lemma offset_from_disjoint s o n m a w b v :
  pos_fields s -> n <> m -> offset_from o s n = Some (a, w) -> offset_from o s m = Some (b, v) ->
  (a + w <= b \/ b + v <= a)%nat.
Proof.
  intros Hp Hne. revert o. induction Hp as [|[f x k] s [Hw Hk] Hp IH]; intros o; cbn [offset_from]; [done|].
  cbn in Hw, Hk.
  destruct (String.eqb_spec f n) as [Hn|_], (String.eqb_spec f m) as [Hm|_]; [congruence| | |apply IH].
  - intros [= <- <-] Hb. apply offset_from_bounds in Hb; [|done]. nia.
  - intros Ha [= <- <-]. apply offset_from_bounds in Ha; [|done]. nia.
Qed.

Lemma sizeof_ge s : pos_fields s -> (size_from 0 s <= sizeof s)%nat.
Proof.
  intros _. unfold sizeof. apply align_ge. unfold alignof.
  induction s as [|f s IH]; [cbn; lia|]. rewrite fmap_cons. cbn [foldr]. lia.
Qed.

Lemma offset_of_bounds s n a w :
  layout_ok s = true -> offset_of s n = Some (a, w) -> (a + w <= sizeof s)%nat.
Proof.
  intros Hp%layout_ok_pos Ha. apply offset_from_bounds in Ha; [|done].
  pose proof (sizeof_ge s Hp). lia.
Qed.

(** ** Constants *)

(** enum ErrorType: the codes of the library, then those of the enclave.  The
    code casts any 16-bit response code to the type, so it is an integer. *)
Definition ErrorType := Z.
Definition ELE_NO_ERROR : Z := 0.
Definition ELE_NOT_INITED : Z := 1.
Definition ELE_COMMUNICATION_ERROR : Z := 2.
Definition ELE_GENERAL_ERROR : Z := 3.
Definition ELE_INVALID_MU_TYPE : Z := 4.
Definition ELE_INVALID_MESSAGE : Z := 5.
Definition ELE_INVALID_ARGS : Z := 6.
Definition ELE_ERROR_RETRY : Z := 7.
Definition ELE_MEMORY_FAILURE : Z := 8.
Definition ELE_VERIFICATION_FAILURE : Z := 9.
Definition ELE_COMMAND_SUCCEED : Z := 0x00d6.
Definition ELE_COMMAND_ENCRYPTED_DATA : Z := 0x05d6.
Definition ELE_COMMAND_KEYSTORE_NOT_UPDATE : Z := 0x10d6.
Definition ELE_COMMAND_GENERAL_ERROR : Z := 0x0029.
Definition ELE_COMMAND_INVALID_ADDRESS : Z := 0x0229.
Definition ELE_COMMAND_INVALID_ID : Z := 0x0329.
Definition ELE_COMMAND_INVALID_PARAM : Z := 0x0429.
Definition ELE_COMMAND_NVM_ERROR : Z := 0x0529.
Definition ELE_COMMAND_OOM : Z := 0x0629.
Definition ELE_COMMAND_UNKNOWN_HANDLER : Z := 0x0729.
Definition ELE_COMMAND_KEYSTORE_AUTH_FAIL : Z := 0x0929.
Definition ELE_COMMAND_KEYSTORE_ERROR : Z := 0x0a29.
Definition ELE_COMMAND_ID_CONFLICT : Z := 0x0b29.
Definition ELE_COMMAND_RANDOM_FAIL : Z := 0x0c29.
Definition ELE_COMMAND_NOT_SUPPORT : Z := 0x0d29.
Definition ELE_COMMAND_INVALID_LC : Z := 0x0e29.
Definition ELE_COMMAND_KEYSTORE_CONFLICT : Z := 0x0f29.
Definition ELE_COMMAND_FEATURE_NOT_SUPPORT : Z := 0x1129.
Definition ELE_COMMAND_SERVICE_NOT_INITED : Z := 0x1329.
Definition ELE_COMMAND_FEATURE_DISABLED : Z := 0x1429.
Definition ELE_COMMAND_INVALID_CONTENT : Z := 0x1829.
Definition ELE_COMMAND_NO_SPACE : Z := 0x1929.
Definition ELE_COMMAND_KEY_GROUP_ERROR : Z := 0x1a29.
Definition ELE_COMMAND_KEY_NOT_SUPPORT : Z := 0x1b29.
Definition ELE_COMMAND_ERR_DELETE_PERMANENT_KEY : Z := 0x1c29.
Definition ELE_COMMAND_OUTPUT_TOO_SMALL : Z := 0x1d29.
Definition ELE_COMMAND_WRONG_SIZE : Z := 0x1e29.
Definition ELE_COMMAND_DATA_ALREADY_RETRIEVED : Z := 0x1f29.
Definition ELE_COMMAND_WRONG_CRC : Z := 0xb929.
Definition ELE_COMMAND_SIGNED_MESSAGE_ERROR : Z := 0xf029.
Definition ELE_COMMAND_SERVICE_DISABLED : Z := 0xf429.

(** Versions, tags, commands and status words of EleCommand.h. *)
Definition ELE_VERSION_BASELINE : Z := 0x06.
Definition ELE_VERSION_HSM : Z := 0x07.
Definition ELE_COMMAND_FAILED : Z := 0x29.
Definition ELE_REQUEST_TAG : Z := 0x17.
Definition ELE_RESPONSE_TAG : Z := 0xe1.
Definition ELE_AEAD_IV_OUTPUT_LEN : Z := 12.
Definition KEY_STORE_OPERATION_LOAD : Z := 0.
Definition SESSION_OPEN_REQ : Z := 0x10.
Definition SESSION_CLOSE_REQ : Z := 0x11.
Definition SESSION_GET_INFO : Z := 0x16.
Definition KEY_STORE_OPEN_REQ : Z := 0x30.
Definition KEY_STORE_CLOSE_REQ : Z := 0x31.
Definition KEY_STORE_PUBKEY_EXPORT : Z := 0x32.
Definition KEY_MANAGEMENT_OPEN_REQ : Z := 0x40.
Definition KEY_MANAGEMENT_CLOSE_REQ : Z := 0x41.
Definition KEY_GENERATE_KEY_REQ : Z := 0x42.
Definition KEY_GET_ATTRIBUTE_REQ : Z := 0x4C.
Definition KEY_DELETE_KEY_REQ : Z := 0x4E.
Definition KEY_IMPORT_KEY_REQ : Z := 0x4F.
Definition KEY_MAC_OPEN_REQ : Z := 0x50.
Definition KEY_MAC_CLOSE_REQ : Z := 0x51.
Definition KEY_MAC_OPERATION_REQ : Z := 0x52.
Definition KEY_CIPHER_OPEN_REQ : Z := 0x60.
Definition KEY_CIPHER_CLOSE_REQ : Z := 0x61.
Definition KEY_CIPHER_OPERATION_REQ : Z := 0x62.
Definition KEY_CIPHER_AEAD_OPERATION_REQ : Z := 0x65.
Definition KEY_SIGN_GENERATE_OPEN_REQ : Z := 0x70.
Definition KEY_SIGN_GENERATE_CLOSE_REQ : Z := 0x71.
Definition KEY_SIGN_GENERATE_REQ : Z := 0x72.
Definition KEY_SIGN_VERIFY_OPEN_REQ : Z := 0x80.
Definition KEY_SIGN_VERIFY_CLOSE_REQ : Z := 0x81.
Definition KEY_SIGN_VERIFY_REQ : Z := 0x82.
Definition DATA_STORAGE_OPEN_REQ : Z := 0xA0.
Definition DATA_STORAGE_CLOSE_REQ : Z := 0xA1.
Definition DATA_STORAGE_REQ : Z := 0xA2.
Definition DATA_ENC_STORAGE_REQ : Z := 0xA3.
Definition DATA_STORAGE_DELETE_REQ : Z := 0xA4.
Definition STORAGE_OPEN_REQ : Z := 0xE0.
Definition STORAGE_CLOSE_REQ : Z := 0xE1.
Definition STORAGE_MASTER_IMPORT_REQ : Z := 0xE2.
Definition STORAGE_MASTER_EXPORT_REQ : Z := 0xE3.
Definition STORAGE_EXPORT_FINISH_REQ : Z := 0xE4.
Definition STORAGE_CHUNK_EXPORT_REQ : Z := 0xE5.
Definition STORAGE_CHUNK_GET_REQ : Z := 0xE6.
Definition STORAGE_CHUNK_GET_DONE_REQ : Z := 0xE7.
Definition STORAGE_KEY_DB_REQ : Z := 0xE8.
Definition STORAGE_CHUNK_DELETE_REQ : Z := 0xE9.
Definition ELE_MU_IO_FLAGS_IS_OUTPUT : Z := 0x0.
Definition ELE_MU_IO_FLAGS_IS_INPUT : Z := 0x01.
Definition ELE_MU_IO_FLAGS_IS_IN_OUT : Z := 0x10.
Definition ELE_MU_IO_FLAGS_USE_SEC_MEM : Z := 0x02.
Definition ELE_MU_IO_FLAGS_USE_SHORT_ADDR : Z := 0x04.
Definition NVM_EXPORT_STATUS_SUCCESS : Z := 0xBA2CC2AB.
Definition NVM_CHUNK_GET_CHUNK_SUCCESS : Z := 0xCA3BB3AC.
Definition ELE_SIGNATURE_VERIFY_SUCCESS : Z := 0x5A3CC3A5.
Definition ELE_SIGNATURE_VERIFY_FAILURE : Z := 0x2B4DD4B2.
Definition ELE_MAC_VERIFY_SUCCESS : Z := 0x6C1AA1C6.
Definition STORAGE_NVM_LAST_CMD : Z := STORAGE_CHUNK_DELETE_REQ + 1.

(** Operation flags. *)
Definition IMPORT_SET_KEY_GROUP : Z := Z.shiftl 1 2.
Definition CIPHER_FLAGS_PLAINTEXT_KEY : Z := Z.shiftl 1 3.
Definition AEAD_FLAGS_FULL_IV : Z := Z.shiftl 1 1.
Definition AEAD_FLAGS_COUNTER_IV : Z := Z.shiftl 1 2.
Definition AEAD_FLAGS_PLAINTEXT_KEY : Z := Z.shiftl 1 3.
Definition AEAD_FLAGS_ONE_SHOT : Z := Z.shiftl 1 4.
Definition AEAD_FLAGS_MULTI_INIT : Z := Z.shiftl 1 8.
Definition AEAD_FLAGS_MULTI_UPDATE_AAD : Z := Z.shiftl 1 9.
Definition AEAD_FLAGS_MULTI_FINAL : Z := Z.shiftl 1 11.
Definition AEAD_FLAGS_MULTI_FINAL_VERIFY : Z := Z.shiftl 1 12.
Definition ELE_DATA_STORAGE_STORE : Z := Z.shiftl 1 1.
Definition MAC_ONE_GO_GENERATION : Z := Z.shiftl 1 0.

(** Sizes. *)
Definition ELE_MU_MSG_SIZE : nat := 32.
Definition STORAGE_NB_WORDS_MAX_NO_CRC : Z := 4.
Definition STORAGE_MAX_DATA_SIZE : Z := 16 * 1024.
Definition NVM_MAX_FILE_NAME_LEN : nat := 128.

(** ** The structures of EleMessage.h *)

Definition msg_hdr : layout := [u8 "ver"; u8 "size"; u8 "cmd"; u8 "tag"].
Definition mu_rsp : layout := [u8 "status"; u8 "rating"; u16 "rating_extension"].
Definition nvm_blob_id : layout := [u32 "metadata"; u32 "id"; u32 "ext"].
Definition nvm_header : layout := [u32 "size"; u32 "crc"] ++ inside "blob_id" nvm_blob_id.
Definition open_session_msg_cmd : layout :=
  [u8 "rsv1"; u8 "interrupt_num"; u16 "rsv2"; u8 "priority"; u8 "op_mode"; u16 "rsv3"].
Definition open_session_msg_rsp : layout := [u32 "rsp_code"; u32 "session_handle"].
Definition close_session_msg_cmd : layout := [u32 "session_handle"].
Definition close_session_msg_rsp : layout := [u32 "rsp_code"].
Definition key_store_open_msg_cmd : layout :=
  [u32 "session_handle"; u32 "id"; u32 "nonce"; u16 "rsv1"; u8 "flags"; u8 "rsv2"; u32 "crc"].
Definition key_store_open_msg_rsp : layout := [u32 "rsp_code"; u32 "key_store_handle"].
Definition key_store_close_msg_cmd : layout := [u32 "key_store_handle"].
Definition key_store_close_msg_rsp : layout := [u32 "rsp_code"].
Definition storage_open_msg_cmd : layout :=
  [u32 "session_handle"; u32 "msbi"; u32 "msbo"; u8 "flags"; u8s "rsv" 3; u32 "crc"].
Definition storage_open_msg_rsp : layout := [u32 "rsp_code"; u32 "nvm_storage_hdl"].
Definition storage_close_msg_cmd : layout := [u32 "nvm_storage_handle"].
Definition storage_close_msg_rsp : layout := [u32 "rsp_code"].
Definition storage_master_import_msg_cmd : layout :=
  [u32 "nvm_storage_handle"; u32 "master_data_lsb_addr"; u32 "master_data_size"].
Definition storage_master_import_msg_rsp : layout := [u32 "rsp_code"].
Definition storage_master_exp_msg_cmd : layout :=
  [u32 "nvm_storage_handle"; u32 "master_data_size"].
Definition storage_master_exp_msg_rsp : layout :=
  [u32 "nvm_storage_handle"; u32 "rsp_code"; u32 "master_data_addr"].
Definition storage_exp_finish_msg_cmd : layout := [u32 "nvm_storage_handle"; u32 "export_status"].
Definition storage_exp_finish_msg_rsp : layout := [u32 "nvm_storage_handle"; u32 "rsp_code"].
Definition storage_get_chunk_msg_cmd : layout :=
  [u32 "nvm_storage_handle"] ++ inside "blob_id" nvm_blob_id ++ [u32 "crc"].
Definition storage_get_chunk_msg_rsp : layout :=
  [u32 "chunk_size"; u32 "chunk_addr"; u32 "rsp_code"].
Definition storage_get_chunk_done_msg_cmd : layout := [u32 "nvm_storage_handle"; u32 "status"].
Definition storage_get_chunk_done_msg_rsp : layout := [u32 "rsp_code"].
Definition storage_chunk_exp_msg_cmd : layout :=
  [u32 "nvm_storage_handle"; u32 "chunk_size"] ++ inside "blob_id" nvm_blob_id ++ [u32 "crc"].
Definition storage_chunk_exp_msg_rsp : layout := [u32 "rsp_code"; u32 "chunk_blob_addr"].
Definition storage_chunk_delete_msg_cmd : layout :=
  [u32 "nvm_storage_handle"] ++ inside "blob_id" nvm_blob_id ++ [u32 "crc"].
Definition storage_chunk_delete_msg_rsp : layout := [u32 "rsp_code"].
Definition key_mgt_open_msg_cmd : layout :=
  [u32 "key_store_handle"; u32 "msbi"; u32 "msbo"; u8 "flags"; u8s "rsv" 3; u32 "crc"].
Definition key_mgt_open_msg_rsp : layout := [u32 "rsp_code"; u32 "key_mgt_handle"].
Definition key_mgt_close_msg_cmd : layout := [u32 "key_mgt_handle"].
Definition key_mgt_close_msg_rsp : layout := [u32 "rsp_code"].
Definition gen_key_msg_cmd : layout :=
  [u32 "key_mgt_handle"; u32 "key_id"; u16 "pub_key_size"; u16 "key_group"; u16 "type";
   u16 "size_bits"; u32 "lifetime"; u32 "usage"; u32 "permit_algo"; u32 "lifecycle"; u8 "flags";
   u8s "rsv" 3; u32 "pub_key_lsb_addr"; u32 "crc"].
Definition gen_key_msg_rsp : layout :=
  [u32 "rsp_code"; u32 "key_id"; u16 "pub_key_size"; u16 "rsv"].
Definition del_key_msg_cmd : layout :=
  [u32 "key_mgt_handle"; u32 "key_id"; u16 "rsv1"; u8 "flags"; u8 "rsv2"].
Definition del_key_msg_rsp : layout := [u32 "rsp_code"].
Definition get_key_attr_msg_cmd : layout := [u32 "key_mgt_handle"; u32 "key_id"; u32 "rsv"].
Definition get_key_attr_rsp : layout :=
  [u32 "rsp_code"; u16 "size_bits"; u16 "type"; u32 "lifetime"; u32 "usage"; u32 "permit_algo";
   u32 "lifecycle"; u32 "rsv"; u32 "crc"].
Definition cipher_open_msg_cmd : layout :=
  [u32 "key_store_handle"; u32 "msbi"; u32 "msbo"; u8 "flags"; u8s "rsv" 3; u32 "crc"].
Definition cipher_open_msg_rsp : layout := [u32 "rsp_code"; u32 "cipher_hdl"].
Definition cipher_close_msg_cmd : layout := [u32 "cipher_hdl"].
Definition cipher_close_msg_rsp : layout := [u32 "rsp_code"].
Definition cipher_msg_cmd : layout :=
  [u32 "cipher_hdl"; u32 "key_id"; u32 "iv_addr"; u16 "iv_size"; u16 "flags"; u32 "algo";
   u32 "input_addr"; u32 "output_addr"; u32 "input_size"; u32 "output_size"; u16 "key_size";
   u16 "key_type"; u32 "ctx"; u16 "ctx_size"; u16 "rsv1"; u32 "rsv2"; u32 "crc"].
Definition cipher_msg_rsp : layout := [u32 "rsp_code"; u32 "output_size"].
Definition cipher_aead_msg_cmd : layout :=
  [u32 "cipher_hdl"; u32 "algo"; u16 "flags"; u16 "iv_size"; u32 "iv_in_addr"; u32 "iv_out_addr";
   u32 "key_id"; u32 "tag_addr"; u16 "tag_size"; u16 "key_size"; u32 "aad_addr"; u32 "aad_size";
   u32 "input_addr"; u32 "input_size"; u32 "output_addr"; u32 "output_size"; u32 "ctx_addr";
   u16 "ctx_size"; u16 "key_type"; u32 "rsv"; u32 "crc"].
Definition cipher_aead_msg_rsp : layout := [u32 "rsp_code"; u32 "output_size"; u32 "verify_status"].
Definition sign_gen_open_msg_cmd : layout :=
  [u32 "key_store_handle"; u32 "msbi"; u32 "msbo"; u8 "flags"; u8s "rsv" 3; u32 "crc"].
Definition sign_gen_open_msg_rsp : layout := [u32 "rsp_code"; u32 "sign_gen_hdl"].
Definition sign_gen_close_msg_cmd : layout := [u32 "sign_gen_hdl"].
Definition sign_gen_close_msg_rsp : layout := [u32 "rsp_code"].
Definition gen_sign_msg_cmd : layout :=
  [u32 "sign_gen_hdl"; u32 "key_id"; u32 "msg_lsb_addr"; u32 "sign_lsb_addr"; u32 "msg_size";
   u16 "sign_size"; u8 "flags"; u8 "rsv1"; u32 "sign_scheme"; u16 "salt_len"; u16 "rsv2";
   u32 "crc"].
Definition gen_sign_msg_rsp : layout := [u32 "rsp_code"; u16 "signature_size"; u16 "rsv"].
Definition sign_verify_open_msg_cmd : layout :=
  [u32 "session_hdl"; u32 "msbi"; u32 "msbo"; u8 "flags"; u8s "rsv" 3; u32 "crc"].
Definition sign_verify_open_msg_rsp : layout := [u32 "rsp_code"; u32 "sign_verify_hdl"].
Definition sign_verify_close_msg_cmd : layout := [u32 "sign_verify_hdl"].
Definition sign_verify_close_msg_rsp : layout := [u32 "rsp_code"].
Definition verify_sign_msg_cmd : layout :=
  [u32 "sign_verify_hdl"; u32 "key_lsb_addr"; u32 "msg_lsb_addr"; u32 "sign_lsb_addr";
   u32 "msg_size"; u16 "sign_size"; u16 "key_size"; u16 "key_security_size"; u16 "key_type";
   u8 "flags"; u8s "rsv" 3; u32 "sign_scheme"; u16 "salt_len"; u16 "rsv2"; u32 "crc"].
Definition verify_sign_msg_rsp : layout := [u32 "rsp_code"; u32 "verify_status"].
Definition mac_open_msg_cmd : layout :=
  [u32 "key_store_handle"; u32 "msbi"; u32 "msbo"; u8 "flags"; u8s "rsv" 3; u32 "crc"].
Definition mac_open_msg_rsp : layout := [u32 "rsp_code"; u32 "mac_hdl"].
Definition mac_close_msg_cmd : layout := [u32 "mac_hdl"].
Definition mac_close_msg_rsp : layout := [u32 "rsp_code"].
Definition mac_operation_msg_cmd : layout :=
  [u32 "mac_hdl"; u32 "key_id"; u32 "payload_addr"; u32 "mac_addr"; u32 "payload_size";
   u16 "mac_size"; u8 "flags"; u8 "rsv"; u32 "algo"; u32 "crc"].
Definition mac_operation_msg_rsp : layout :=
  [u32 "rsp_code"; u32 "verify_status"; u16 "out_mac_size"; u16 "rsv"].
Definition get_info_msg_cmd : layout := [u32 "session_handle"].
Definition get_info_msg_rsp : layout :=
  [u32 "rsp_code"; u32 "user_sab_id"; u32 "uid_w0"; u32 "uid_w1"; u32 "uid_w2"; u32 "uid_w3";
   u16 "monotonic_counter"; u16 "lifecycle"; u32s "rsv" 2; u8 "fips_mode"; u8s "rsv1" 3;
   u32 "crc"].
Definition pubkey_recover_msg_cmd : layout :=
  [u32 "key_store_handle"; u32 "key_id"; u32 "out_key_msb"; u32 "out_key_lsb";
   u16 "out_key_size"; u16 "rsv"; u32 "crc"].
Definition pubkey_recover_msg_rsp : layout := [u32 "rsp_code"; u16 "out_key_size"; u16 "rsv"].
Definition import_key_msg_cmd : layout :=
  [u32 "key_mgt_handle"; u8 "flags"; u8s "rsv0" 3; u32 "input_addr"; u32 "input_size";
   u16 "key_group"; u16 "rsv2"; u32 "crc"].
Definition import_key_msg_rsp : layout := [u32 "rsp_code"; u32 "key_id"].
Definition data_storage_open_msg_cmd : layout :=
  [u32 "key_store_handle"; u32 "msbi"; u32 "msbo"; u8 "flags"; u8s "rsv" 3; u32 "crc"].
Definition data_storage_open_msg_rsp : layout := [u32 "rsp_code"; u32 "data_storage_hdl"].
Definition data_storage_close_msg_cmd : layout := [u32 "data_storage_hdl"].
Definition data_storage_close_msg_rsp : layout := [u32 "rsp_code"].
Definition data_storage_msg_cmd : layout :=
  [u32 "data_storage_hdl"; u8 "flags"; u8s "rsv" 3; u32 "data_id"; u32 "data_lsb_addr";
   u32 "data_size"; u32 "rsv2"; u32 "crc"].
Definition data_storage_msg_rsp : layout := [u32 "rsp_code"; u32 "data_size"].
Definition data_enc_storage_msg_cmd : layout :=
  [u32 "data_storage_hdl"; u32 "data_id"; u32 "data_addr"; u32 "data_size"; u32 "enc_algo";
   u32 "enc_key_id"; u32 "sign_algo"; u32 "sign_key_id"; u32 "iv_addr"; u16 "iv_size";
   u16 "flags"; u16 "lifecycle"; u16 "rsv"; u32 "crc"].
Definition data_enc_storage_msg_rsp : layout := [u32 "rsp_code"; u32 "data_size"].
Definition data_storage_delete_msg_cmd : layout := [u32 "data_storage_hdl"; u32 "data_id"].
Definition data_storage_delete_msg_rsp : layout := [u32 "rsp_code"].

Definition NVM_HEADER_SIZE : nat := sizeof nvm_header.

(** ** Messages *)

(** [struct mu_msg]: the header, and 32 words of data that the union lets the
    code view as words, half words or bytes. *)
Definition mu_msg := list Z.
Definition mu_msg_size : nat := sizeof msg_hdr + 4 * ELE_MU_MSG_SIZE.
Definition zero_msg : mu_msg := replicate mu_msg_size 0.

Definition get_hdr (m : mu_msg) (f : string) : option Z :=
  '(o, w) ← offset_of msg_hdr f; get_le w m o.
Definition set_hdr (m : mu_msg) (f : string) (v : Z) : option mu_msg :=
  '(o, w) ← offset_of msg_hdr f; set_le w m o v.

(** A member of the structure [s] laid over the data. *)
Definition get_data (s : layout) (m : mu_msg) (f : string) : option Z :=
  '(o, w) ← offset_of s f; get_le w m (sizeof msg_hdr + o).
Definition set_data (s : layout) (m : mu_msg) (f : string) (v : Z) : option mu_msg :=
  '(o, w) ← offset_of s f; set_le w m (sizeof msg_hdr + o) v.

(** SIZE_MSG and sizeMsg, with ROUND_UP. *)
Definition ROUND_UP (x alignment : Z) : Z := Z.land (x + alignment - 1) (Z.lnot (alignment - 1)).
Definition sizeMsg (len : Z) : Z := wrap_u 32 (wrap_u 32 (ROUND_UP len 4) + 4).
Definition SIZE_MSG (s : layout) : Z := sizeMsg (Z.of_nat (sizeof s)).

(** [calCRC((uint32_t * )(buf + off), len)] *)
Fixpoint calCRC_from (buf : list Z) (off : nat) (len : nat) (crc : Z) : option Z :=
  match len with
  | O => Some crc
  | S len' => w ← get_le 4 buf off; calCRC_from buf (off + 4) len' (Z.lxor crc w)
  end.

Definition calCRC (buf : list Z) (off : nat) (len : nat) : option Z := calCRC_from buf off len 0.

Definition buildMsgHeader (m : mu_msg) (cmd size tag : Z) : option mu_msg :=
  m ← set_hdr m "ver" ELE_VERSION_HSM;
  m ← set_hdr m "size" (Z.shiftr size 2);
  m ← set_hdr m "cmd" cmd;
  set_hdr m "tag" tag.

(** The checksum goes to the last word the header counts.  A message of fewer
    than two words makes the indices leave the array. *)
Definition addCRC (m : mu_msg) : option mu_msg :=
  size ← get_hdr m "size";
  if decide (size < 2) then None
  else
    crc ← calCRC m 0 (Z.to_nat (size - 1));
    set_le 4 m (sizeof msg_hdr + 4 * Z.to_nat (size - 2)) crc.

(** [memset(&msg, 0, sizeof(msg))], the members of [s] assigned, and the header:
    the shape of every request. *)
Fixpoint fill (s : layout) (m : mu_msg) (writes : list (string * Z)) : option mu_msg :=
  match writes with
  | [] => Some m
  | (f, v) :: r => m' ← set_data s m f v; fill s m' r
  end.

Definition request_msg (s : layout) (crc : bool) (cmd tag : Z) (writes : list (string * Z))
    : option mu_msg :=
  m ← fill s zero_msg writes;
  m ← buildMsgHeader m cmd (SIZE_MSG s) tag;
  if crc then addCRC m else Some m.

(** ** Lemmas *)

Definition bytes_ok (l : list Z) : Prop := Forall (in_u 8) l.

Lemma in_u_lxor w a b : 0 < w -> in_u w a -> in_u w b -> in_u w (Z.lxor a b).
Proof.
  unfold in_u. intros Hw Ha Hb. assert (0 <= Z.lxor a b) by (apply Z.lxor_nonneg; lia).
  split; [done|]. destruct (Z.eq_dec (Z.lxor a b) 0) as [->|Hne]; [lia|].
  apply Z.log2_lt_pow2; [lia|]. pose proof (Z.log2_lxor a b ltac:(lia) ltac:(lia)).
  assert (forall x, 0 <= x < 2 ^ w -> Z.log2 x < w) as Hl.
  { intros x Hx. destruct (Z.eq_dec x 0) as [->|]; [done|]. apply Z.log2_lt_pow2; lia. }
  pose proof (Hl a Ha). pose proof (Hl b Hb). lia.
Qed.

Lemma le_decode_range l : bytes_ok l -> in_u (8 * Z.of_nat (length l)) (le_decode l).
Proof.
  unfold in_u. induction 1 as [|b l Hb _ IH]; cbn [le_decode length]; [done|].
  unfold in_u in Hb. rewrite pow256. lia.
Qed.

(** The low bytes of an integer. *)
Lemma le_decode_take k l : bytes_ok l -> le_decode (take k l) = wrap_u (8 * Z.of_nat k) (le_decode l).
Proof.
  intros Hl. revert k. induction Hl as [|b l Hb Hl IH]; intros [|k]; cbn [take le_decode].
  - done.
  - unfold wrap_u. by rewrite Z.mod_0_l by lia.
  - unfold wrap_u. by rewrite Z.mod_1_r.
  - rewrite IH. unfold wrap_u. rewrite pow256, Z.rem_mul_r by lia. unfold in_u in Hb.
    rewrite (Z.mul_comm 256 (le_decode l)), Z.mod_add, Z.div_add by lia.
    rewrite (Z.mod_small b), (Z.div_small b) by lia. done.
Qed.

Lemma get_le_low k n l off v :
  bytes_ok l -> (k <= n)%nat -> get_le n l off = Some v ->
  get_le k l off = Some (wrap_u (8 * Z.of_nat k) v).
Proof.
  unfold get_le. intros Hl Hk. case_decide; [|done]. intros [= <-]. rewrite decide_True by lia.
  f_equal. rewrite <- le_decode_take by (apply Forall_take, Forall_drop, Hl).
  rewrite take_take. do 2 f_equal. lia.
Qed.

Lemma le_encode_ok n v : bytes_ok (le_encode n v).
Proof.
  revert v. induction n as [|n IH]; intros v; constructor; [|apply IH].
  change 256 with (2 ^ 8). apply (wrap_u_range 8). lia.
Qed.

Lemma get_le_range n l off v : bytes_ok l -> get_le n l off = Some v -> in_u (8 * Z.of_nat n) v.
Proof.
  unfold get_le. intros Hl. case_decide; [|done]. intros [= <-].
  assert (length (take n (drop off l)) = n) as Hn by (rewrite length_take, length_drop; lia).
  rewrite <- Hn at 1. apply le_decode_range. apply Forall_take, Forall_drop, Hl.
Qed.

Lemma set_le_ok n l off v l' : bytes_ok l -> set_le n l off v = Some l' -> bytes_ok l'.
Proof.
  intros Hl [_ ->]%set_le_split. apply Forall_app. split; [by apply Forall_take|].
  apply Forall_app. split; [apply le_encode_ok|by apply Forall_drop].
Qed.

Lemma calCRC_from_range l off n c v :
  bytes_ok l -> in_u 32 c -> calCRC_from l off n c = Some v -> in_u 32 v.
Proof.
  intros Hl. revert off c. induction n as [|n IH]; intros off c Hc; cbn [calCRC_from].
  - by intros [= <-].
  - intros (w & Hw & Hr)%bind_Some. apply (get_le_range 4) in Hw; [|done].
    eapply IH; [|exact Hr]. apply in_u_lxor; [lia|done|exact Hw].
Qed.

Lemma calCRC_from_is_Some l off n c :
  (off + 4 * n <= length l)%nat -> is_Some (calCRC_from l off n c).
Proof.
  revert off c. induction n as [|n IH]; intros off c Hn; cbn [calCRC_from]; [by eexists|].
  destruct (proj2 (get_le_is_Some 4 l off)) as [w ->]; [lia|]. apply IH. lia.
Qed.

(** The checksum of the words before one that changes stays. *)
Lemma calCRC_from_other l l' off n c k o v :
  set_le k l o v = Some l' -> (off + 4 * n <= o)%nat ->
  calCRC_from l' off n c = calCRC_from l off n c.
Proof.
  intros Hs. revert off c. induction n as [|n IH]; intros off c Hn; cbn [calCRC_from]; [done|].
  rewrite (get_set_other _ _ _ _ _ _ _ Hs) by lia.
  destruct (get_le 4 l off); cbn [mbind option_bind]; [|done]. apply IH. lia.
Qed.

(** ... and so does that of the words behind it. *)
Lemma calCRC_from_before l l' off n c k o v :
  set_le k l o v = Some l' -> (o + k <= off)%nat ->
  calCRC_from l' off n c = calCRC_from l off n c.
Proof.
  intros Hs. revert off c. induction n as [|n IH]; intros off c Hn; cbn [calCRC_from]; [done|].
  rewrite (get_set_other _ _ _ _ _ _ _ Hs) by lia.
  destruct (get_le 4 l off); cbn [mbind option_bind]; [|done]. apply IH. lia.
Qed.

(** Reading inside a prefix. *)
Lemma get_le_app n l r off : (off + n <= length l)%nat -> get_le n (l ++ r) off = get_le n l off.
Proof.
  intros Hn. unfold get_le. rewrite length_app, !decide_True by lia. do 2 f_equal.
  rewrite drop_app_le by lia. rewrite take_app_le by (rewrite length_drop; lia). done.
Qed.

Lemma get_le_take n k l off :
  (off + n <= k)%nat -> (k <= length l)%nat -> get_le n (take k l) off = get_le n l off.
Proof.
  intros Hk Hl. rewrite <- (take_drop k l) at 2. symmetry. apply get_le_app. rewrite length_take. lia.
Qed.

(** A message whose last word is the checksum of the others. *)
Definition crc_valid (m : mu_msg) : Prop :=
  exists n c, get_hdr m "size" = Some n /\ 2 <= n /\ calCRC m 0 (Z.to_nat (n - 1)) = Some c /\
    get_le 4 m (4 * Z.to_nat (n - 1)) = Some c.

Lemma get_hdr_other n l off v l' f o w :
  set_le n l off v = Some l' -> offset_of msg_hdr f = Some (o, w) ->
  (off + n <= o \/ o + w <= off)%nat -> get_hdr l' f = get_hdr l f.
Proof.
  intros Hs Ho Hd. unfold get_hdr. rewrite Ho. cbn [mbind option_bind].
  by apply (get_set_other _ _ _ _ _ _ _ Hs).
Qed.

Lemma get_hdr_data n l off v l' f :
  set_le n l off v = Some l' -> (4 <= off)%nat -> get_hdr l' f = get_hdr l f.
Proof.
  intros Hs Ho. unfold get_hdr.
  destruct (offset_of msg_hdr f) as [[o w]|] eqn:Hf; cbn [mbind option_bind]; [|done].
  apply (get_set_other _ _ _ _ _ _ _ Hs).
  apply (offset_of_bounds msg_hdr) in Hf; [|reflexivity]. change (sizeof msg_hdr) with 4%nat in Hf. lia.
Qed.

Lemma addCRC_spec m n :
  bytes_ok m -> get_hdr m "size" = Some n -> 2 <= n -> (4 * Z.to_nat n <= length m)%nat ->
  exists m', addCRC m = Some m' /\ length m' = length m /\ bytes_ok m' /\ crc_valid m' /\
    (forall f, get_hdr m' f = get_hdr m f) /\
    (forall k o, (o + k <= 4 * Z.to_nat (n - 1))%nat -> get_le k m' o = get_le k m o).
Proof.
  intros Hm Hn H2 Hlen. unfold addCRC. rewrite Hn. cbn [mbind option_bind].
  rewrite decide_False by lia.
  destruct (calCRC_from_is_Some m 0 (Z.to_nat (n - 1)) 0) as [c Hc]; [lia|].
  unfold calCRC. rewrite Hc. cbn [mbind option_bind]. change (sizeof msg_hdr) with 4%nat.
  assert (4 + 4 * Z.to_nat (n - 2) = 4 * Z.to_nat (n - 1))%nat as -> by lia.
  destruct (proj2 (set_le_is_Some 4 m (4 * Z.to_nat (n - 1)) c)) as [m' Hs]; [lia|].
  exists m'. split; [done|]. split; [by apply (set_le_length _ _ _ _ _ Hs)|].
  split; [by apply (set_le_ok _ _ _ _ _ Hm Hs)|].
  assert (forall f, get_hdr m' f = get_hdr m f) as Hhdr
    by (intros f; apply (get_hdr_data _ _ _ _ _ _ Hs); lia).
  split_and!; [|done|].
  - exists n, c. rewrite Hhdr. split_and!; [done|lia| |].
    + unfold calCRC. rewrite (calCRC_from_other _ _ _ _ _ _ _ _ Hs) by lia. exact Hc.
    + rewrite (get_set_same _ _ _ _ _ Hs). f_equal. apply wrap_u_id.
      by apply (calCRC_from_range m 0 (Z.to_nat (n - 1)) 0).
  - intros k o Ho. apply (get_set_other _ _ _ _ _ _ _ Hs). lia.
Qed.

Lemma buildMsgHeader_spec m cmd size tag :
  bytes_ok m -> length m = mu_msg_size ->
  exists m', buildMsgHeader m cmd size tag = Some m' /\ length m' = mu_msg_size /\ bytes_ok m' /\
    get_hdr m' "ver" = Some ELE_VERSION_HSM /\
    get_hdr m' "size" = Some (wrap_u 8 (Z.shiftr size 2)) /\
    get_hdr m' "cmd" = Some (wrap_u 8 cmd) /\ get_hdr m' "tag" = Some (wrap_u 8 tag) /\
    (forall k o, (4 <= o)%nat -> get_le k m' o = get_le k m o).
Proof.
  intros Hm Hlen. unfold buildMsgHeader.
  assert (forall f l v, length l = mu_msg_size -> bytes_ok l -> is_Some (offset_of msg_hdr f) ->
    exists o l', offset_of msg_hdr f = Some (o, 1%nat) /\ (o + 1 <= 4)%nat /\
      set_hdr l f v = Some l' /\ set_le 1 l o v = Some l' /\ length l' = mu_msg_size /\ bytes_ok l')
    as Hset.
  { intros f l v Hl Hb [[o w] Ho]. unfold set_hdr. rewrite Ho. cbn [mbind option_bind].
    assert (w = 1%nat) as ->.
    { unfold offset_of, msg_hdr in Ho. cbn [offset_from u8] in Ho. repeat case_match; by simplify_eq. }
    pose proof (offset_of_bounds msg_hdr f o 1 eq_refl Ho) as Hb4.
    change (sizeof msg_hdr) with 4%nat in Hb4.
    destruct (proj2 (set_le_is_Some 1 l o v)) as [l' Hs]; [rewrite Hl; change mu_msg_size with 132%nat; lia|].
    exists o, l'. split_and!; [done|lia|done|done| |].
    - by rewrite (set_le_length _ _ _ _ _ Hs).
    - by apply (set_le_ok _ _ _ _ _ Hb Hs). }
  destruct (Hset "ver" m ELE_VERSION_HSM) as (o1 & m1 & E1 & B1 & -> & S1 & L1 & K1); [done..|by eexists|].
  cbn [mbind option_bind].
  destruct (Hset "size" m1 (Z.shiftr size 2)) as (o2 & m2 & E2 & B2 & -> & S2 & L2 & K2); [done..|by eexists|].
  cbn [mbind option_bind].
  destruct (Hset "cmd" m2 cmd) as (o3 & m3 & E3 & B3 & -> & S3 & L3 & K3); [done..|by eexists|].
  cbn [mbind option_bind].
  destruct (Hset "tag" m3 tag) as (o4 & m4 & E4 & B4 & -> & S4 & L4 & K4); [done..|by eexists|].
  exists m4. cbv in E1, E2, E3, E4. simplify_eq.
  split_and!; [done..| | | | |].
  - unfold get_hdr. change (offset_of msg_hdr "ver") with (Some (0, 1)%nat). cbn [mbind option_bind].
    rewrite (get_set_other _ _ _ _ _ _ _ S4), (get_set_other _ _ _ _ _ _ _ S3),
      (get_set_other _ _ _ _ _ _ _ S2) by lia. by rewrite (get_set_same _ _ _ _ _ S1).
  - unfold get_hdr. change (offset_of msg_hdr "size") with (Some (1, 1)%nat). cbn [mbind option_bind].
    rewrite (get_set_other _ _ _ _ _ _ _ S4), (get_set_other _ _ _ _ _ _ _ S3) by lia.
    by rewrite (get_set_same _ _ _ _ _ S2).
  - unfold get_hdr. change (offset_of msg_hdr "cmd") with (Some (2, 1)%nat). cbn [mbind option_bind].
    rewrite (get_set_other _ _ _ _ _ _ _ S4) by lia. by rewrite (get_set_same _ _ _ _ _ S3).
  - unfold get_hdr. change (offset_of msg_hdr "tag") with (Some (3, 1)%nat). cbn [mbind option_bind].
    by rewrite (get_set_same _ _ _ _ _ S4).
  - intros k o Ho. rewrite (get_set_other _ _ _ _ _ _ _ S4), (get_set_other _ _ _ _ _ _ _ S3),
      (get_set_other _ _ _ _ _ _ _ S2), (get_set_other _ _ _ _ _ _ _ S1) by lia. done.
Qed.

(** ** Requests *)

(** What the structures and the calls of [addCRC] have to agree on: the data fit
    the message, a checksummed structure ends with its [crc] member, and one
    without checksum is short enough not to need one. *)
Definition req_ok (s : layout) (crc : bool) : bool :=
  layout_ok s && (sizeof s mod 4 =? 0)%nat && (4 <=? sizeof s)%nat &&
  (sizeof s <=? 4 * ELE_MU_MSG_SIZE)%nat &&
  if crc then bool_decide (offset_of s "crc" = Some (sizeof s - 4, 4)%nat)
  else (sizeof s + 4 <=? 4 * Z.to_nat STORAGE_NB_WORDS_MAX_NO_CRC)%nat.

(** The members a request may assign. *)
Definition members (s : layout) : list string :=
  filter (fun f => f <> "crc") (fname <$> s).

(** What the enclave can rely on. *)
Record request_wf (s : layout) (cmd tag : Z) (writes : list (string * Z)) (m : mu_msg) : Prop := {
  wf_length : length m = mu_msg_size;
  wf_bytes : bytes_ok m;
  wf_ver : get_hdr m "ver" = Some ELE_VERSION_HSM;
  wf_size : get_hdr m "size" = Some (SIZE_MSG s / 4);
  wf_cmd : get_hdr m "cmd" = Some cmd;
  wf_tag : get_hdr m "tag" = Some tag;
  wf_crc : STORAGE_NB_WORDS_MAX_NO_CRC < SIZE_MSG s / 4 -> crc_valid m;
  wf_fields f v : (f, v) ∈ writes ->
    exists o w, offset_of s f = Some (o, w) /\ get_data s m f = Some (wrap_u (8 * Z.of_nat w) v)
}.

Lemma offset_of_member s f : f ∈ fname <$> s -> is_Some (offset_of s f).
Proof.
  unfold offset_of. generalize 0%nat. induction s as [|[m w k] s IH]; intros o.
  - intros []%elem_of_nil.
  - rewrite fmap_cons, elem_of_cons. cbn [fname offset_from]. intros [->|Hin].
    + rewrite String.eqb_refl. by eexists.
    + destruct (String.eqb m f); [by eexists|]. by apply IH.
Qed.

Lemma fill_spec s writes m :
  layout_ok s = true -> (sizeof s <= 128)%nat -> bytes_ok m -> length m = mu_msg_size ->
  NoDup writes.*1 -> (forall f, f ∈ writes.*1 -> is_Some (offset_of s f)) ->
  exists m', fill s m writes = Some m' /\ length m' = mu_msg_size /\ bytes_ok m' /\
    (forall f v, (f, v) ∈ writes -> exists o w, offset_of s f = Some (o, w) /\
       get_le w m' (4 + o) = Some (wrap_u (8 * Z.of_nat w) v)) /\
    (forall f o w, f ∉ writes.*1 -> offset_of s f = Some (o, w) ->
       get_le w m' (4 + o) = get_le w m (4 + o)).
Proof.
  intros Hok Hsz. pose proof (layout_ok_pos s Hok) as Hpos.
  revert m. induction writes as [|[f v] writes IH]; intros m Hb Hlen Hnd Hin; cbn [fill].
  - exists m. split_and!; [done..| |done]. intros f v []%elem_of_nil.
  - rewrite fmap_cons, NoDup_cons in Hnd. destruct Hnd as [Hf Hnd]. cbn [fst] in Hf.
    destruct (Hin f) as [[o w] Ho]; [rewrite fmap_cons; apply list_elem_of_here|].
    unfold set_data. rewrite Ho. cbn [mbind option_bind]. change (sizeof msg_hdr) with 4%nat.
    pose proof (offset_of_bounds s f o w Hok Ho) as Hbnd.
    destruct (proj2 (set_le_is_Some w m (4 + o) v)) as [m1 Hs];
      [rewrite Hlen; change mu_msg_size with 132%nat; lia|].
    rewrite Hs. cbn [mbind option_bind].
    destruct (IH m1) as (m' & -> & Hlen' & Hb' & Hget & Hoth); [by apply (set_le_ok _ _ _ _ _ Hb Hs)| |done| |].
    { by rewrite (set_le_length _ _ _ _ _ Hs). }
    { intros g Hg. apply Hin. rewrite fmap_cons. by apply list_elem_of_further. }
    exists m'. split_and!; [done..| |].
    + intros g u [[= -> ->]|Hg]%elem_of_cons; [|by apply Hget].
      exists o, w. split; [done|]. rewrite (Hoth f o w Hf Ho). by apply (get_set_same _ _ _ _ _ Hs).
    + intros g o' w' Hg Ho'. rewrite fmap_cons, elem_of_cons in Hg.
      rewrite (Hoth g o' w') by tauto. apply (get_set_other _ _ _ _ _ _ _ Hs).
      destruct (offset_from_disjoint s 0 f g o w o' w' Hpos) as [|]; [cbn [fst] in Hg; by intros ->; tauto|done..| |]; lia.
Qed.

Lemma ROUND_UP_4 n : (n mod 4 = 0)%nat -> ROUND_UP (Z.of_nat n) 4 = Z.of_nat n.
Proof.
  intros Hn. unfold ROUND_UP. change (4 - 1) with (Z.ones 2). rewrite <- Z.ldiff_land, Z.ldiff_ones_r by lia.
  rewrite Z.shiftr_div_pow2, Z.shiftl_mul_pow2 by lia. change (2 ^ 2) with 4. 
  apply Nat.Div0.div_exact in Hn. rewrite Hn. rewrite Nat2Z.inj_mul. 
  replace (Z.of_nat 4 * Z.of_nat (n / 4) + 4 - 1) with (3 + Z.of_nat (n / 4) * 4) by lia.
  rewrite Z.div_add by lia. change (3 / 4) with 0. lia.
Qed.

Lemma SIZE_MSG_eq s :
  (sizeof s mod 4 = 0)%nat -> (sizeof s <= 128)%nat -> SIZE_MSG s = Z.of_nat (sizeof s) + 4.
Proof.
  intros Hm Hs. unfold SIZE_MSG, sizeMsg. rewrite ROUND_UP_4 by done.
  rewrite !wrap_u_id; unfold in_u; [done|lia|]. rewrite wrap_u_id; unfold in_u; lia.
Qed.

Lemma SIZE_MSG_words s :
  (sizeof s mod 4 = 0)%nat -> (sizeof s <= 128)%nat ->
  exists k, sizeof s = (4 * k)%nat /\ SIZE_MSG s = 4 * (Z.of_nat k + 1) /\
    SIZE_MSG s / 4 = Z.of_nat k + 1.
Proof.
  intros Hmod Hsz. pose proof (SIZE_MSG_eq s Hmod Hsz) as Hsm. apply Nat.Div0.div_exact in Hmod.
  exists (sizeof s / 4)%nat. split; [done|].
  assert (SIZE_MSG s = (Z.of_nat (sizeof s / 4) + 1) * 4) as -> by lia.
  split; [lia|]. by apply Z.div_mul.
Qed.

Lemma request_msg_spec s crc cmd tag writes :
  req_ok s crc = true -> in_u 8 cmd -> in_u 8 tag ->
  NoDup writes.*1 -> (forall f, f ∈ writes.*1 -> f ∈ members s) ->
  exists m, request_msg s crc cmd tag writes = Some m /\ request_wf s cmd tag writes m.
Proof.
  unfold req_ok. rewrite !andb_true_iff, Nat.eqb_eq, !Nat.leb_le.
  intros ((((Hok & Hmod) & H4) & Hsz) & Hcrc) Hc Ht Hnd Hin. unfold ELE_MU_MSG_SIZE in Hsz.
  assert (forall f, f ∈ writes.*1 -> f <> "crc" /\ is_Some (offset_of s f)) as Hmem.
  { intros f Hf. apply Hin in Hf. unfold members in Hf. apply list_elem_of_filter in Hf as [? ?].
    split; [done|]. by apply offset_of_member. }
  unfold request_msg.
  destruct (fill_spec s writes zero_msg) as (m0 & -> & L0 & B0 & F0 & _); [done..| |done|done| |].
  { apply Forall_replicate. done. }
  { intros f Hf. by apply Hmem. }
  cbn [mbind option_bind].
  destruct (SIZE_MSG_words s Hmod ltac:(lia)) as (k & Hk & Hsm & Hn).
  destruct (buildMsgHeader_spec m0 cmd (SIZE_MSG s) tag B0 L0)
    as (m1 & -> & L1 & B1 & Hver & Hsize & Hcmd & Htag & Hdata). cbn [mbind option_bind].
  rewrite (wrap_u_id 8 cmd) in Hcmd by done. rewrite (wrap_u_id 8 tag) in Htag by done.
  assert (wrap_u 8 (Z.shiftr (SIZE_MSG s) 2) = SIZE_MSG s / 4) as Hw.
  { rewrite Z.shiftr_div_pow2 by lia. change (2 ^ 2) with 4. apply wrap_u_id. unfold in_u. lia. }
  rewrite Hw, Hn in Hsize.
  assert (forall f v, (f, v) ∈ writes -> exists o w, offset_of s f = Some (o, w) /\ f <> "crc" /\
     get_le w m1 (4 + o) = Some (wrap_u (8 * Z.of_nat w) v)) as F1.
  { intros f v Hf. destruct (F0 f v Hf) as (o & w & Ho & Hg). exists o, w. split_and!; [done| |].
    - apply Hmem. apply list_elem_of_fmap. by exists (f, v).
    - rewrite Hdata by lia. done. }
  destruct crc.
  - apply bool_decide_eq_true in Hcrc.
    destruct (addCRC_spec m1 (Z.of_nat k + 1)) as (m2 & -> & L2 & B2 & Hcv & Hh & Hg);
      [done|done|lia|rewrite L1; change mu_msg_size with 132%nat; lia|].
    exists m2. split; [done|]. split; rewrite ?Hh, ?L2; [done..|congruence|done|done|done|].
    intros f v Hf. destruct (F1 f v Hf) as (o & w & Ho & Hne & Hv). exists o, w. split; [done|].
    unfold get_data. rewrite Ho. cbn [mbind option_bind]. change (sizeof msg_hdr) with 4%nat.
    rewrite Hg; [done|].
    pose proof (offset_of_bounds s f o w Hok Ho).
    pose proof (offset_from_width s 0 f o w (layout_ok_pos s Hok) Ho).
    pose proof (offset_from_disjoint s 0 f "crc" o w _ _ (layout_ok_pos s Hok) Hne Ho Hcrc). lia.
  - apply Nat.leb_le in Hcrc. change (4 * Z.to_nat STORAGE_NB_WORDS_MAX_NO_CRC)%nat with 16%nat in Hcrc.
    exists m1. split; [done|]. split; [done..|congruence|done|done| |].
    + rewrite Hn. unfold STORAGE_NB_WORDS_MAX_NO_CRC. lia.
    + intros f v Hf. destruct (F1 f v Hf) as (o & w & Ho & _ & Hv). exists o, w. split; [done|].
      unfold get_data. rewrite Ho. done.
Qed.
