(* ===== verification/EleOps.v ===== *)
(** * secure-enclave/lib/EleOperation.cpp: operations of the secure enclave client

    Every operation checks its arguments, builds a request, has the kernel
    exchange it for the response and reads the response.  The device node is
    class [EleDev]: its answers depend on all earlier calls, which are logged.
    Buffers are passed to the enclave by address only; an address is an
    integer, 0 the null pointer.  A pointer the code tests for null is an
    [option]; one it does not test is valid.  The mutex each call locks is a
    local variable of that call, so it orders nothing and is left out.

    An operation returns the error code and, where it has an output argument,
    what it stores there ([None] when it stores nothing). *)

From S2P Require Import Prelude EleMsg.

(** ** Data *)

(** [ele_mu_info], the members the code uses. *)
Record ele_mu_info := mkMuInfo { interrupt_idx : Z; cmd_tag : Z; rsp_tag : Z }.

Inductive MuType := MU_CHANNEL_INVALID | MU_CHANNEL_PLAT_HSM | MU_CHANNEL_PLAT_HSM_NVM.

Record gen_key_attribute := mkGenKey {
  gk_pub_key_size : Z; gk_key_group : Z; gk_type : Z; gk_size_bits : Z; gk_lifetime : Z;
  gk_usage : Z; gk_permit_algo : Z; gk_lifecycle : Z; gk_flags : Z; gk_pub_key_lsb_addr : Z
}.

Record key_attribute := mkKeyAttr {
  ka_size_bits : Z; ka_type : Z; ka_lifetime : Z; ka_usage : Z; ka_permit_algo : Z;
  ka_lifecycle : Z
}.

Record cipher_operation_attr := mkCipher {
  co_key_id : Z; co_iv_addr : Z; co_iv_size : Z; co_flags : Z; co_algo : Z; co_input_addr : Z;
  co_output_addr : Z; co_input_size : Z; co_output_size : Z
}.

Record cipher_aead_operation_attr := mkAead {
  ae_algo : Z; ae_flags : Z; ae_iv_size : Z; ae_iv_in_addr : Z; ae_iv_out_addr : Z;
  ae_key_id : Z; ae_tag_addr : Z; ae_tag_size : Z; ae_aad_addr : Z; ae_aad_size : Z;
  ae_input_addr : Z; ae_input_size : Z; ae_output_addr : Z; ae_output_size : Z
}.

Record gen_sign_attr := mkGenSign {
  gs_key_id : Z; gs_msg_lsb_addr : Z; gs_sign_lsb_addr : Z; gs_msg_size : Z; gs_sign_size : Z;
  gs_flags : Z; gs_sign_scheme : Z; gs_salt_len : Z
}.

Record verify_sign_attr := mkVerify {
  vs_key_lsb_addr : Z; vs_msg_lsb_addr : Z; vs_sign_lsb_addr : Z; vs_msg_size : Z;
  vs_sign_size : Z; vs_key_size : Z; vs_key_security_size : Z; vs_key_type : Z; vs_flags : Z;
  vs_sign_scheme : Z; vs_salt_len : Z
}.

Record mac_operation_attr := mkMac {
  mo_key_id : Z; mo_payload_addr : Z; mo_mac_addr : Z; mo_payload_size : Z; mo_mac_size : Z;
  mo_flags : Z; mo_algo : Z
}.

Record device_info := mkDevInfo {
  di_user_sab_id : Z; di_uid_w0 : Z; di_uid_w1 : Z; di_uid_w2 : Z; di_uid_w3 : Z;
  di_monotonic_counter : Z; di_lifecycle : Z; di_fips_mode : Z
}.

Record pubkey_export := mkPubkey { pe_key_id : Z; pe_out_key : Z; pe_out_key_size : Z }.

Record import_key_attr := mkImport {
  ik_flags : Z; ik_input_addr : Z; ik_input_size : Z; ik_key_group : Z
}.

Record data_storage_attr := mkStorage {
  ds_flags : Z; ds_data_id : Z; ds_data_lsb_addr : Z; ds_data_size : Z
}.

Record data_enc_storage_attr := mkEncStorage {
  es_data_id : Z; es_data_addr : Z; es_data_size : Z; es_enc_algo : Z; es_enc_key_id : Z;
  es_sign_algo : Z; es_sign_key_id : Z; es_iv_addr : Z; es_iv_size : Z; es_flags : Z;
  es_lifecycle : Z
}.

(** ** The device *)

Inductive Call :=
  | COpen (fd : Z) | CInfo (rc : Z) | CEnable (rc : Z) | CClose (fd : Z)
  | CSetup (buf size flag : Z)
  | CExchange (req : mu_msg) (req_len resp_len : Z).

(** [open], the ioctls GET_MU_INFO, ENABLE_CMD_RCV, SETUP_IOBUF (error and
    64-bit address) and CMD_SEND_RCV_RSP (result and the buffer afterwards). *)
Class EleDev := {
  dev_open : list Call -> Z;
  dev_get_info : list Call -> Z * ele_mu_info;
  dev_enable_rcv : list Call -> Z;
  dev_setup_iobuf : list Call -> Z -> Z -> Z -> Z * Z;
  dev_exchange : list Call -> mu_msg -> Z -> Z -> Z * mu_msg
}.

(** The tags of a message unit are bytes; the exchange leaves a message.  Its
    header may give any size. *)
Class EleDevLaws `{EleDev} : Prop := {
  info_bytes log : in_u 8 (cmd_tag (dev_get_info log).2) /\ in_u 8 (rsp_tag (dev_get_info log).2);
  exchange_msg log m a b : bytes_ok m -> length m = mu_msg_size ->
    bytes_ok (dev_exchange log m a b).2 /\ length (dev_exchange log m a b).2 = mu_msg_size
}.

Record EleOperation := mkEle {
  fd : Z; session_handle : Z; mu_type : MuType; mu_info : ele_mu_info; calls : list Call
}.

(** [EleOperation(type)]: the info is indeterminate. *)
Definition ele_new (junk : ele_mu_info) (type : MuType) : EleOperation := mkEle (-1) 0 type junk [].

(** ** The operations as state transformers *)

Definition M (A : Type) : Type := EleOperation -> option (A * EleOperation).

#[global] Instance M_ret : MRet M := fun A x s => Some (x, s).
#[global] Instance M_bind : MBind M :=
  fun A B f e s => match e s with Some (x, s') => f x s' | None => None end.

Definition lift {A} (o : option A) : M A := fun s => x ← o; Some (x, s).
Definition gets {A} (f : EleOperation -> A) : M A := fun s => Some (f s, s).
Definition call (c : Call) : M unit := fun s =>
  Some (tt, mkEle (fd s) (session_handle s) (mu_type s) (mu_info s) (calls s ++ [c])).
Definition set_fd (z : Z) : M unit := fun s =>
  Some (tt, mkEle z (session_handle s) (mu_type s) (mu_info s) (calls s)).
Definition set_session (z : Z) : M unit := fun s =>
  Some (tt, mkEle (fd s) z (mu_type s) (mu_info s) (calls s)).
Definition set_info (i : ele_mu_info) : M unit := fun s =>
  Some (tt, mkEle (fd s) (session_handle s) (mu_type s) i (calls s)).

Definition has (flags mask : Z) : bool := negb (Z.land flags mask =? 0).
Definition null (p : Z) : bool := p =? 0.

Section EleOps.
Context `{EleDev}.

(** ** Device node and transport *)

Definition eleOpenDeviceNode : M ErrorType :=
  f ← gets fd;
  if 0 <=? f then mret ELE_GENERAL_ERROR
  else
    f ← gets (fun s => dev_open (calls s));
    _ ← call (COpen f);
    _ ← set_fd f;
    if f <? 0 then mret ELE_COMMUNICATION_ERROR
    else
      '(error, info) ← gets (fun s => dev_get_info (calls s));
      _ ← call (CInfo error);
      _ ← set_info info;
      if negb (error =? 0) then
        _ ← call (CClose f); _ ← set_fd (-1); mret ELE_COMMUNICATION_ERROR
      else mret ELE_NO_ERROR.

Definition eleCloseDeviceNode : M ErrorType :=
  f ← gets fd;
  if negb (f =? -1) then _ ← call (CClose f); _ ← set_fd (-1); mret ELE_NO_ERROR
  else mret ELE_NO_ERROR.

Definition setChannelAsNVM : M ErrorType :=
  t ← gets mu_type;
  match t with
  | MU_CHANNEL_PLAT_HSM_NVM =>
      rc ← gets (fun s => dev_enable_rcv (calls s));
      _ ← call (CEnable rc);
      if negb (rc =? 0) then
        f ← gets fd; _ ← call (CClose f); _ ← set_fd (-1); mret ELE_COMMUNICATION_ERROR
      else mret ELE_NO_ERROR
  | _ => mret ELE_NO_ERROR
  end.

Definition retrivePhyAddress (src size flag : Z) : M Z :=
  '(error, addr) ← gets (fun s => dev_setup_iobuf (calls s) src size flag);
  _ ← call (CSetup src size flag);
  mret (Z.land (if negb (error =? 0) then 0 else addr) 0xffffffff).

Definition sendAndReceiveMuMsg (m : mu_msg) (reqLen respLen : Z) : M (ErrorType * mu_msg) :=
  '(ret, m') ← gets (fun s => dev_exchange (calls s) m reqLen respLen);
  _ ← call (CExchange m reqLen respLen);
  mret (if ret <? 0 then ELE_COMMUNICATION_ERROR else ELE_NO_ERROR, m').

(** The checks of a response: [None] when its size makes the checksum leave the
    message. *)
Definition check_response (m : mu_msg) : option ErrorType :=
  size ← get_hdr m "size";
  bad ← (if STORAGE_NB_WORDS_MAX_NO_CRC <? size then
           crc ← calCRC m 0 (Z.to_nat (size - 1));
           w ← get_le 4 m (sizeof msg_hdr + 4 * Z.to_nat (size - 2));
           Some (negb (crc =? w))
         else Some false);
  if (bad : bool) then Some ELE_INVALID_ARGS
  else
    tag ← get_hdr m "tag";
    if negb (tag =? ELE_RESPONSE_TAG) then Some ELE_INVALID_MESSAGE
    else
      status ← get_data mu_rsp m "status";
      if negb (status =? ELE_COMMAND_SUCCEED) then get_le 2 m (sizeof msg_hdr)
      else Some ELE_NO_ERROR.

(** The error and the message buffer, which holds the response. *)
Definition eleSendAndReciveMsg (m : mu_msg) (reqLen respLen : Z) : M (ErrorType * mu_msg) :=
  f ← gets fd;
  if f <? 0 then mret (ELE_NOT_INITED, m)
  else
    tag ← lift (get_hdr m "tag");
    if negb (tag =? ELE_REQUEST_TAG) then mret (ELE_INVALID_MESSAGE, m)
    else
      '(error, m') ← sendAndReceiveMuMsg m reqLen respLen;
      if negb (error =? ELE_NO_ERROR) then mret (error, m')
      else e ← lift (check_response m'); mret (e, m').

(** The common part of the operations: fill in the structure [s], build the
    header, add the checksum if the operation does, and exchange the message
    for a response of structure [rs]. *)
Definition request (cmd : Z) (s rs : layout) (crc : bool) (writes : list (string * Z))
    : M (ErrorType * mu_msg) :=
  tag ← gets (fun st => cmd_tag (mu_info st));
  m ← lift (request_msg s crc cmd tag writes);
  eleSendAndReciveMsg m (SIZE_MSG s) (SIZE_MSG rs).

Definition ok (e : ErrorType) : bool := e =? ELE_NO_ERROR.

(** Opening: the handle the response holds, unless it is 0. *)
Definition open_request (cmd : Z) (s rs : layout) (crc : bool) (writes : list (string * Z))
    (hdl : string) : M (ErrorType * option Z) :=
  '(error, m) ← request cmd s rs crc writes;
  if negb (ok error) then mret (error, None)
  else
    h ← lift (get_data rs m hdl);
    if h =? 0 then mret (ELE_INVALID_MESSAGE, None) else mret (ELE_NO_ERROR, Some h).

Definition close_request (cmd : Z) (s rs : layout) (writes : list (string * Z)) : M ErrorType :=
  '(error, _) ← request cmd s rs false writes; mret error.

(** ** Sessions and key stores *)

Definition eleOpenSession : M ErrorType :=
  h ← gets session_handle;
  if negb (h =? 0) then mret ELE_GENERAL_ERROR
  else
    irq ← gets (fun s => interrupt_idx (mu_info s));
    '(error, h) ← open_request SESSION_OPEN_REQ open_session_msg_cmd open_session_msg_rsp false
                    [("interrupt_num", irq)] "session_handle";
    match h with
    | Some h => _ ← set_session h; mret ELE_NO_ERROR
    | None => mret error
    end.

Definition eleCloseSession : M ErrorType :=
  h ← gets session_handle;
  if h =? 0 then mret ELE_GENERAL_ERROR
  else
    error ← close_request SESSION_CLOSE_REQ close_session_msg_cmd close_session_msg_rsp
              [("session_handle", h)];
    if negb (ok error) then mret error else _ ← set_session 0; mret ELE_NO_ERROR.

Definition eleGetDeviceInfo : M (ErrorType * option device_info) :=
  h ← gets session_handle;
  if h =? 0 then mret (ELE_GENERAL_ERROR, None)
  else
    '(error, m) ← request SESSION_GET_INFO get_info_msg_cmd get_info_msg_rsp false
                    [("session_handle", h)];
    if negb (ok error) then mret (error, None)
    else
      a ← lift (get_data get_info_msg_rsp m "user_sab_id");
      b ← lift (get_data get_info_msg_rsp m "uid_w0");
      c ← lift (get_data get_info_msg_rsp m "uid_w1");
      d ← lift (get_data get_info_msg_rsp m "uid_w2");
      e ← lift (get_data get_info_msg_rsp m "uid_w3");
      f ← lift (get_data get_info_msg_rsp m "monotonic_counter");
      g ← lift (get_data get_info_msg_rsp m "lifecycle");
      i ← lift (get_data get_info_msg_rsp m "fips_mode");
      mret (ELE_NO_ERROR, Some (mkDevInfo a b c d e f g i)).

Definition eleOpenKeyStore (keyStoreId nonce op : Z) : M (ErrorType * option Z) :=
  h ← gets session_handle;
  if h =? 0 then mret (ELE_GENERAL_ERROR, None)
  else open_request KEY_STORE_OPEN_REQ key_store_open_msg_cmd key_store_open_msg_rsp true
         [("session_handle", h); ("id", keyStoreId); ("nonce", nonce); ("flags", op)]
         "key_store_handle".

Definition eleCloseKeyStore (keyStoreHandler : Z) : M ErrorType :=
  if keyStoreHandler =? 0 then mret ELE_GENERAL_ERROR
  else close_request KEY_STORE_CLOSE_REQ key_store_close_msg_cmd key_store_close_msg_rsp
         [("key_store_handle", keyStoreHandler)].

(** The size is taken from the buffer whatever the exchange answered. *)
Definition elePubkeyExport (keyStoreHandler : Z) (a : pubkey_export)
    : M (ErrorType * option pubkey_export) :=
  if keyStoreHandler =? 0 then mret (ELE_GENERAL_ERROR, None)
  else if (pe_key_id a =? 0) || null (pe_out_key a) || (pe_out_key_size a =? 0) then
    mret (ELE_INVALID_ARGS, None)
  else
    addr ← retrivePhyAddress (pe_out_key a) (pe_out_key_size a) ELE_MU_IO_FLAGS_IS_OUTPUT;
    '(error, m) ← request KEY_STORE_PUBKEY_EXPORT pubkey_recover_msg_cmd pubkey_recover_msg_rsp true
                    [("key_store_handle", keyStoreHandler); ("key_id", pe_key_id a);
                     ("out_key_lsb", addr); ("out_key_size", pe_out_key_size a)];
    size ← lift (get_data pubkey_recover_msg_rsp m "out_key_size");
    mret (error, Some (mkPubkey (pe_key_id a) (pe_out_key a) size)).

Definition eleOpenStorage : M (ErrorType * option Z) :=
  h ← gets session_handle;
  if h =? 0 then mret (ELE_GENERAL_ERROR, None)
  else open_request STORAGE_OPEN_REQ storage_open_msg_cmd storage_open_msg_rsp true
         [("session_handle", h)] "nvm_storage_hdl".

Definition eleCloseStorage (nvmStorageHandle : Z) : M ErrorType :=
  if nvmStorageHandle =? 0 then mret ELE_GENERAL_ERROR
  else close_request STORAGE_CLOSE_REQ storage_close_msg_cmd storage_close_msg_rsp
         [("nvm_storage_handle", nvmStorageHandle)].

(** ** Keys *)

Definition eleOpenKeyManagement (keyStoreHandler : Z) : M (ErrorType * option Z) :=
  if keyStoreHandler =? 0 then mret (ELE_GENERAL_ERROR, None)
  else open_request KEY_MANAGEMENT_OPEN_REQ key_mgt_open_msg_cmd key_mgt_open_msg_rsp true
         [("key_store_handle", keyStoreHandler)] "key_mgt_handle".

Definition eleCloseKeyManagement (keyMgtHandle : Z) : M ErrorType :=
  if keyMgtHandle =? 0 then mret ELE_GENERAL_ERROR
  else close_request KEY_MANAGEMENT_CLOSE_REQ key_mgt_close_msg_cmd key_mgt_close_msg_rsp
         [("key_mgt_handle", keyMgtHandle)].

Definition eleGenerateKey (keyMgtHandle : Z) (keyId : option Z) (keyAttribute : option gen_key_attribute)
    : M (ErrorType * option Z) :=
  match keyId, keyAttribute with
  | Some keyId, Some a =>
      if keyMgtHandle =? 0 then mret (ELE_GENERAL_ERROR, None)
      else
        addr ← (if negb (null (gk_pub_key_lsb_addr a)) && negb (gk_pub_key_size a =? 0) then
                  retrivePhyAddress (gk_pub_key_lsb_addr a) (gk_pub_key_size a)
                    ELE_MU_IO_FLAGS_IS_OUTPUT
                else mret 0);
        '(error, m) ← request KEY_GENERATE_KEY_REQ gen_key_msg_cmd gen_key_msg_rsp true
          [("key_mgt_handle", keyMgtHandle); ("key_id", keyId);
           ("pub_key_size", gk_pub_key_size a); ("key_group", gk_key_group a);
           ("type", gk_type a); ("size_bits", gk_size_bits a); ("lifetime", gk_lifetime a);
           ("usage", gk_usage a); ("permit_algo", gk_permit_algo a);
           ("lifecycle", gk_lifecycle a); ("flags", gk_flags a); ("pub_key_lsb_addr", addr)];
        if negb (ok error) then mret (error, None)
        else
          size ← lift (get_data gen_key_msg_rsp m "pub_key_size");
          id ← lift (get_data gen_key_msg_rsp m "key_id");
          if negb (size =? gk_pub_key_size a) then mret (ELE_GENERAL_ERROR, None)
          else if negb (keyId =? 0) && negb (keyId =? id) then mret (ELE_GENERAL_ERROR, None)
          else if (id =? 0) || (0x7fffffff <? id) then mret (ELE_GENERAL_ERROR, None)
          else mret (ELE_NO_ERROR, Some id)
  | _, _ => mret (ELE_INVALID_MESSAGE, None)
  end.

Definition eleImportKey (keyMgtHandle : Z) (importKeyAttr : option import_key_attr) (keyId : bool)
    : M (ErrorType * option Z) :=
  match importKeyAttr with
  | Some a =>
      if negb keyId || null (ik_input_addr a) || (ik_input_size a =? 0) then
        mret (ELE_INVALID_MESSAGE, None)
      else if keyMgtHandle =? 0 then mret (ELE_GENERAL_ERROR, None)
      else
        addr ← retrivePhyAddress (ik_input_addr a) (ik_input_size a) ELE_MU_IO_FLAGS_IS_INPUT;
        '(error, m) ← request KEY_IMPORT_KEY_REQ import_key_msg_cmd import_key_msg_rsp true
          ([("key_mgt_handle", keyMgtHandle); ("flags", ik_flags a); ("input_addr", addr);
            ("input_size", ik_input_size a)] ++
           if has (ik_flags a) IMPORT_SET_KEY_GROUP then [("key_group", ik_key_group a)] else []);
        if negb (ok error) then mret (error, None)
        else
          id ← lift (get_data import_key_msg_rsp m "key_id");
          if id =? 0 then mret (ELE_GENERAL_ERROR, None) else mret (ELE_NO_ERROR, Some id)
  | None => mret (ELE_INVALID_MESSAGE, None)
  end.

Definition bad_key (keyMgtHandle keyId : Z) : bool :=
  (keyMgtHandle =? 0) || (keyId =? 0) || (0x7fffffff <? keyId).

Definition eleDeleteKey (keyMgtHandle keyId flags : Z) : M ErrorType :=
  if bad_key keyMgtHandle keyId then mret ELE_INVALID_MESSAGE
  else close_request KEY_DELETE_KEY_REQ del_key_msg_cmd del_key_msg_rsp
         [("key_mgt_handle", keyMgtHandle); ("key_id", keyId); ("flags", flags)].

Definition eleGetKeyAttr (keyMgtHandle keyId : Z) : M (ErrorType * option key_attribute) :=
  if bad_key keyMgtHandle keyId then mret (ELE_INVALID_MESSAGE, None)
  else
    '(error, m) ← request KEY_GET_ATTRIBUTE_REQ get_key_attr_msg_cmd get_key_attr_rsp false
                    [("key_mgt_handle", keyMgtHandle); ("key_id", keyId)];
    if negb (ok error) then mret (error, None)
    else
      t ← lift (get_data get_key_attr_rsp m "type");
      b ← lift (get_data get_key_attr_rsp m "size_bits");
      l ← lift (get_data get_key_attr_rsp m "lifetime");
      u ← lift (get_data get_key_attr_rsp m "usage");
      p ← lift (get_data get_key_attr_rsp m "permit_algo");
      c ← lift (get_data get_key_attr_rsp m "lifecycle");
      mret (ELE_NO_ERROR, Some (mkKeyAttr b t l u p c)).

(** ** Ciphers *)

Definition eleOpenCipher (keyStoreHandler : Z) : M (ErrorType * option Z) :=
  if keyStoreHandler =? 0 then mret (ELE_GENERAL_ERROR, None)
  else open_request KEY_CIPHER_OPEN_REQ cipher_open_msg_cmd cipher_open_msg_rsp true
         [("key_store_handle", keyStoreHandler)] "cipher_hdl".

Definition eleCloseCipher (cipherHandle : Z) : M ErrorType :=
  if cipherHandle =? 0 then mret ELE_GENERAL_ERROR
  else close_request KEY_CIPHER_CLOSE_REQ cipher_close_msg_cmd cipher_close_msg_rsp
         [("cipher_hdl", cipherHandle)].

Definition cipher_args_bad (a : cipher_operation_attr) : bool :=
  (co_key_id a =? 0) ||
  (null (co_iv_addr a) && negb (co_iv_size a =? 0) ||
   negb (null (co_iv_addr a)) && (co_iv_size a =? 0)) ||
  (null (co_input_addr a) || (co_input_size a =? 0) || null (co_output_addr a) ||
   (co_output_size a =? 0)) ||
  has (co_flags a) CIPHER_FLAGS_PLAINTEXT_KEY.

(** The output is the new output size. *)
Definition eleCipherOperation (cipherHandle : Z) (cipherAttr : option cipher_operation_attr)
    : M (ErrorType * option Z) :=
  match cipherAttr with
  | Some a =>
      if (cipherHandle =? 0) || cipher_args_bad a then mret (ELE_INVALID_MESSAGE, None)
      else
        iv ← (if negb (co_iv_size a =? 0) then
                addr ← retrivePhyAddress (co_iv_addr a) (co_iv_size a) ELE_MU_IO_FLAGS_IS_INPUT;
                mret [("iv_addr", addr); ("iv_size", co_iv_size a)]
              else mret []);
        input ← retrivePhyAddress (co_input_addr a) (co_input_size a) ELE_MU_IO_FLAGS_IS_INPUT;
        output ← retrivePhyAddress (co_output_addr a) (co_output_size a) ELE_MU_IO_FLAGS_IS_OUTPUT;
        '(error, m) ← request KEY_CIPHER_OPERATION_REQ cipher_msg_cmd cipher_msg_rsp true
          ([("cipher_hdl", cipherHandle); ("key_id", co_key_id a)] ++ iv ++
           [("flags", co_flags a); ("algo", co_algo a); ("input_addr", input);
            ("input_size", co_input_size a); ("output_addr", output);
            ("output_size", co_output_size a)]);
        if negb (ok error) then mret (error, None)
        else
          size ← lift (get_data cipher_msg_rsp m "output_size");
          mret (ELE_NO_ERROR, Some size)
  | None => mret (ELE_INVALID_MESSAGE, None)
  end.

(** The argument checks of eleCipherAeadOperation, in their order. *)
Definition aead_iv_bad (a : cipher_aead_operation_attr) : bool :=
  has (ae_flags a) (Z.lor AEAD_FLAGS_ONE_SHOT AEAD_FLAGS_MULTI_INIT) &&
  ((if has (ae_flags a) AEAD_FLAGS_FULL_IV && negb (ae_iv_size a =? 0) then true
    else if has (ae_flags a) AEAD_FLAGS_COUNTER_IV &&
            (negb (ae_iv_size a =? 4) || null (ae_iv_in_addr a)) then true
    else negb (ae_iv_size a =? 12) || null (ae_iv_in_addr a)) ||
   has (ae_flags a) (Z.lor AEAD_FLAGS_FULL_IV AEAD_FLAGS_COUNTER_IV) && null (ae_iv_out_addr a)).

Definition aead_args_bad (a : cipher_aead_operation_attr) : bool :=
  (ae_key_id a =? 0) || has (ae_flags a) AEAD_FLAGS_PLAINTEXT_KEY || aead_iv_bad a ||
  has (ae_flags a) (Z.lor (Z.lor AEAD_FLAGS_MULTI_FINAL AEAD_FLAGS_MULTI_FINAL_VERIFY)
                      AEAD_FLAGS_ONE_SHOT) &&
    (null (ae_tag_addr a) || (ae_tag_size a <? 16)) ||
  has (ae_flags a) (Z.lor AEAD_FLAGS_ONE_SHOT AEAD_FLAGS_MULTI_UPDATE_AAD) &&
    (null (ae_aad_addr a) || (ae_aad_size a =? 0)) ||
  (null (ae_input_addr a) || (ae_input_size a =? 0) || null (ae_output_addr a) ||
   (ae_output_size a =? 0)).

(** An address for a buffer that is given, with the members it fills. *)
Definition optional_buffer (given : bool) (buf size flag : Z) (writes : Z -> list (string * Z))
    : M (list (string * Z)) :=
  if given then addr ← retrivePhyAddress buf size flag; mret (writes addr) else mret [].

Definition eleCipherAeadOperation (cipherHandle : Z) (attr : option cipher_aead_operation_attr)
    : M (ErrorType * option Z) :=
  match attr with
  | Some a =>
      if (cipherHandle =? 0) || aead_args_bad a then mret (ELE_INVALID_MESSAGE, None)
      else
        iv ← optional_buffer (negb (ae_iv_size a =? 0)) (ae_iv_in_addr a) (ae_iv_size a)
               ELE_MU_IO_FLAGS_IS_INPUT
               (fun p => [("iv_in_addr", p); ("iv_size", ae_iv_size a)]);
        ivo ← optional_buffer (negb (null (ae_iv_out_addr a))) (ae_iv_out_addr a)
                ELE_AEAD_IV_OUTPUT_LEN ELE_MU_IO_FLAGS_IS_OUTPUT (fun p => [("iv_out_addr", p)]);
        tag ← optional_buffer (negb (null (ae_tag_addr a))) (ae_tag_addr a) (ae_tag_size a)
                ELE_MU_IO_FLAGS_IS_IN_OUT
                (fun p => [("tag_addr", p); ("tag_size", ae_tag_size a)]);
        aad ← optional_buffer (negb (null (ae_aad_addr a))) (ae_aad_addr a) (ae_aad_size a)
                ELE_MU_IO_FLAGS_IS_INPUT
                (fun p => [("aad_addr", p); ("aad_size", ae_aad_size a)]);
        input ← retrivePhyAddress (ae_input_addr a) (ae_input_size a) ELE_MU_IO_FLAGS_IS_INPUT;
        output ← retrivePhyAddress (ae_output_addr a) (ae_output_size a) ELE_MU_IO_FLAGS_IS_OUTPUT;
        '(error, m) ← request KEY_CIPHER_AEAD_OPERATION_REQ cipher_aead_msg_cmd cipher_aead_msg_rsp
          true
          ([("cipher_hdl", cipherHandle); ("algo", ae_algo a); ("flags", ae_flags a)] ++ iv ++ ivo ++
           [("key_id", ae_key_id a)] ++ tag ++ aad ++
           [("input_addr", input); ("input_size", ae_input_size a); ("output_addr", output);
            ("output_size", ae_output_size a)]);
        size ← lift (get_data cipher_aead_msg_rsp m "output_size");
        if negb (ok error) then
          mret (error, if error =? ELE_COMMAND_OUTPUT_TOO_SMALL then Some size else None)
        else
          status ← lift (get_data cipher_aead_msg_rsp m "verify_status");
          if status =? ELE_SIGNATURE_VERIFY_FAILURE then mret (ELE_VERIFICATION_FAILURE, Some size)
          else mret (ELE_NO_ERROR, Some size)
  | None => mret (ELE_INVALID_MESSAGE, None)
  end.

(** ** Signatures *)

Definition eleSignGenerateOpen (keyStoreHandler : Z) : M (ErrorType * option Z) :=
  if keyStoreHandler =? 0 then mret (ELE_GENERAL_ERROR, None)
  else open_request KEY_SIGN_GENERATE_OPEN_REQ sign_gen_open_msg_cmd sign_gen_open_msg_rsp true
         [("key_store_handle", keyStoreHandler)] "sign_gen_hdl".

Definition eleSignGenerateClose (signGenHandle : Z) : M ErrorType :=
  if signGenHandle =? 0 then mret ELE_GENERAL_ERROR
  else close_request KEY_SIGN_GENERATE_CLOSE_REQ sign_gen_close_msg_cmd sign_gen_close_msg_rsp
         [("sign_gen_hdl", signGenHandle)].

Definition eleSignGenerate (signGenHandle : Z) (genSignAttr : option gen_sign_attr)
    : M (ErrorType * option Z) :=
  match genSignAttr with
  | Some a =>
      if (signGenHandle =? 0) || (gs_key_id a =? 0) ||
         (null (gs_msg_lsb_addr a) || (gs_msg_size a =? 0) || null (gs_sign_lsb_addr a) ||
          (gs_sign_size a =? 0)) then mret (ELE_INVALID_MESSAGE, None)
      else
        pm ← retrivePhyAddress (gs_msg_lsb_addr a) (gs_msg_size a) ELE_MU_IO_FLAGS_IS_INPUT;
        ps ← retrivePhyAddress (gs_sign_lsb_addr a) (gs_sign_size a) ELE_MU_IO_FLAGS_IS_OUTPUT;
        '(error, m) ← request KEY_SIGN_GENERATE_REQ gen_sign_msg_cmd gen_sign_msg_rsp true
          [("sign_gen_hdl", signGenHandle); ("key_id", gs_key_id a); ("msg_lsb_addr", pm);
           ("sign_lsb_addr", ps); ("msg_size", gs_msg_size a); ("sign_size", gs_sign_size a);
           ("flags", gs_flags a); ("sign_scheme", gs_sign_scheme a); ("salt_len", gs_salt_len a)];
        size ← lift (get_data gen_sign_msg_rsp m "signature_size");
        if negb (ok error) then
          mret (error, if error =? ELE_COMMAND_OUTPUT_TOO_SMALL then Some size else None)
        else mret (ELE_NO_ERROR, Some size)
  | None => mret (ELE_INVALID_MESSAGE, None)
  end.

Definition eleSignVerifyOpen : M (ErrorType * option Z) :=
  h ← gets session_handle;
  if h =? 0 then mret (ELE_GENERAL_ERROR, None)
  else open_request KEY_SIGN_VERIFY_OPEN_REQ sign_verify_open_msg_cmd sign_verify_open_msg_rsp true
         [("session_hdl", h)] "sign_verify_hdl".

Definition eleSignVerifyClose (signVerifyHandle : Z) : M ErrorType :=
  if signVerifyHandle =? 0 then mret ELE_GENERAL_ERROR
  else close_request KEY_SIGN_VERIFY_CLOSE_REQ sign_verify_close_msg_cmd sign_verify_close_msg_rsp
         [("sign_verify_hdl", signVerifyHandle)].

Definition eleSignVerify (signVerifyHandle : Z) (verifySignAttr : option verify_sign_attr)
    : M ErrorType :=
  match verifySignAttr with
  | Some a =>
      if (signVerifyHandle =? 0) ||
         (null (vs_key_lsb_addr a) || (vs_key_size a =? 0) || null (vs_msg_lsb_addr a) ||
          (vs_msg_size a =? 0) || null (vs_sign_lsb_addr a) || (vs_sign_size a =? 0))
      then mret ELE_INVALID_MESSAGE
      else
        pk ← retrivePhyAddress (vs_key_lsb_addr a) (vs_key_size a) ELE_MU_IO_FLAGS_IS_INPUT;
        pm ← retrivePhyAddress (vs_msg_lsb_addr a) (vs_msg_size a) ELE_MU_IO_FLAGS_IS_INPUT;
        ps ← retrivePhyAddress (vs_sign_lsb_addr a) (vs_sign_size a) ELE_MU_IO_FLAGS_IS_INPUT;
        '(error, m) ← request KEY_SIGN_VERIFY_REQ verify_sign_msg_cmd verify_sign_msg_rsp true
          [("sign_verify_hdl", signVerifyHandle); ("key_lsb_addr", pk); ("key_size", vs_key_size a);
           ("msg_lsb_addr", pm); ("msg_size", vs_msg_size a); ("sign_lsb_addr", ps);
           ("sign_size", vs_sign_size a); ("key_security_size", vs_key_security_size a);
           ("key_type", vs_key_type a); ("flags", vs_flags a);
           ("sign_scheme", vs_sign_scheme a); ("salt_len", vs_salt_len a)];
        if negb (ok error) then mret error
        else
          status ← lift (get_data verify_sign_msg_rsp m "verify_status");
          if negb (status =? ELE_SIGNATURE_VERIFY_SUCCESS) then mret ELE_VERIFICATION_FAILURE
          else mret ELE_NO_ERROR
  | None => mret ELE_INVALID_MESSAGE
  end.

(** ** Message authentication *)

Definition eleMacOpen (keyStoreHandler : Z) : M (ErrorType * option Z) :=
  if keyStoreHandler =? 0 then mret (ELE_GENERAL_ERROR, None)
  else open_request KEY_MAC_OPEN_REQ mac_open_msg_cmd mac_open_msg_rsp true
         [("key_store_handle", keyStoreHandler)] "mac_hdl".

Definition eleMacClose (macHandle : Z) : M ErrorType :=
  if macHandle =? 0 then mret ELE_GENERAL_ERROR
  else close_request KEY_MAC_CLOSE_REQ mac_close_msg_cmd mac_close_msg_cmd [("mac_hdl", macHandle)].

Definition eleMacOperation (macHandle : Z) (attr : option mac_operation_attr)
    : M (ErrorType * option Z) :=
  match attr with
  | Some a =>
      if (macHandle =? 0) ||
         (null (mo_payload_addr a) || (mo_payload_size a =? 0) || null (mo_mac_addr a) ||
          (mo_mac_size a =? 0)) then mret (ELE_INVALID_MESSAGE, None)
      else
        pp ← retrivePhyAddress (mo_payload_addr a) (mo_payload_size a) ELE_MU_IO_FLAGS_IS_INPUT;
        pm ← retrivePhyAddress (mo_mac_addr a) (mo_mac_size a) ELE_MU_IO_FLAGS_IS_IN_OUT;
        '(error, m) ← request KEY_MAC_OPERATION_REQ mac_operation_msg_cmd mac_operation_msg_rsp true
          [("mac_hdl", macHandle); ("key_id", mo_key_id a); ("payload_addr", pp); ("mac_addr", pm);
           ("payload_size", mo_payload_size a); ("mac_size", mo_mac_size a);
           ("flags", mo_flags a); ("algo", mo_algo a)];
        if negb (ok error) then mret (error, None)
        else if has (mo_flags a) MAC_ONE_GO_GENERATION then
          size ← lift (get_data mac_operation_msg_rsp m "out_mac_size");
          mret (ELE_NO_ERROR, Some size)
        else
          status ← lift (get_data mac_operation_msg_rsp m "verify_status");
          if negb (status =? ELE_MAC_VERIFY_SUCCESS) then mret (ELE_VERIFICATION_FAILURE, None)
          else mret (ELE_NO_ERROR, None)
  | None => mret (ELE_INVALID_MESSAGE, None)
  end.

(** ** Data storage *)

Definition eleDataStorageOpen (keyStoreHandler : Z) (dataStorageHandle : bool)
    : M (ErrorType * option Z) :=
  if (keyStoreHandler =? 0) || negb dataStorageHandle then mret (ELE_GENERAL_ERROR, None)
  else open_request DATA_STORAGE_OPEN_REQ data_storage_open_msg_cmd data_storage_open_msg_rsp true
         [("key_store_handle", keyStoreHandler)] "data_storage_hdl".

Definition eleDataStorageClose (dataStorageHandle : Z) : M ErrorType :=
  if dataStorageHandle =? 0 then mret ELE_GENERAL_ERROR
  else close_request DATA_STORAGE_CLOSE_REQ data_storage_close_msg_cmd data_storage_close_msg_rsp
         [("data_storage_hdl", dataStorageHandle)].

Definition eleDataStorage (dataStorageHandle : Z) (attr : option data_storage_attr)
    : M (ErrorType * option Z) :=
  match attr with
  | Some a =>
      if (dataStorageHandle =? 0) || (null (ds_data_lsb_addr a) || (ds_data_size a =? 0)) then
        mret (ELE_INVALID_MESSAGE, None)
      else
        addr ← retrivePhyAddress (ds_data_lsb_addr a) (ds_data_size a)
                 (if has (ds_flags a) ELE_DATA_STORAGE_STORE then ELE_MU_IO_FLAGS_IS_INPUT
                  else ELE_MU_IO_FLAGS_IS_OUTPUT);
        '(error, m) ← request DATA_STORAGE_REQ data_storage_msg_cmd data_storage_msg_rsp true
          [("data_storage_hdl", dataStorageHandle); ("flags", ds_flags a);
           ("data_id", ds_data_id a); ("data_lsb_addr", addr); ("data_size", ds_data_size a)];
        size ← lift (get_data data_storage_msg_rsp m "data_size");
        if negb (ok error) then
          mret (error, if error =? ELE_COMMAND_OUTPUT_TOO_SMALL then Some size else None)
        else mret (ELE_NO_ERROR, Some size)
  | None => mret (ELE_INVALID_MESSAGE, None)
  end.

Definition eleDataEncStorage (dataStorageHandle : Z) (attr : option data_enc_storage_attr)
    (storedSize : bool) : M (ErrorType * option Z) :=
  match attr with
  | Some a =>
      if (dataStorageHandle =? 0) ||
         ((es_data_id a =? 0) || null (es_data_addr a) || (es_data_size a =? 0) || negb storedSize)
      then mret (ELE_INVALID_MESSAGE, None)
      else
        addr ← retrivePhyAddress (es_data_addr a) (es_data_size a) ELE_MU_IO_FLAGS_IS_INPUT;
        iv ← (if negb (null (es_iv_addr a)) then
                p ← retrivePhyAddress (es_iv_addr a) (es_iv_size a) ELE_MU_IO_FLAGS_IS_INPUT;
                mret (p, es_iv_size a)
              else mret (0, 0));
        '(error, m) ← request DATA_ENC_STORAGE_REQ data_enc_storage_msg_cmd data_enc_storage_msg_rsp
          true
          [("data_storage_hdl", dataStorageHandle); ("data_id", es_data_id a); ("data_addr", addr);
           ("data_size", es_data_size a); ("enc_algo", es_enc_algo a);
           ("enc_key_id", es_enc_key_id a); ("sign_algo", es_sign_algo a);
           ("sign_key_id", es_sign_key_id a); ("iv_addr", iv.1); ("iv_size", iv.2);
           ("flags", es_flags a); ("lifecycle", es_lifecycle a)];
        if negb (ok error) then mret (error, Some 0)
        else
          size ← lift (get_data data_enc_storage_msg_rsp m "data_size");
          mret (ELE_NO_ERROR, Some size)
  | None => mret (ELE_INVALID_MESSAGE, None)
  end.

Definition eleDataStorageDelete (dataStorageHandle dataId : Z) : M ErrorType :=
  if (dataStorageHandle =? 0) || (dataId =? 0) then mret ELE_GENERAL_ERROR
  else close_request DATA_STORAGE_DELETE_REQ data_storage_delete_msg_cmd
         data_storage_delete_msg_rsp [("data_storage_hdl", dataStorageHandle); ("data_id", dataId)].

(** ** Programs of operations *)

Inductive ele_op :=
  | OpOpenDeviceNode | OpCloseDeviceNode | OpSetChannelAsNVM | OpOpenSession | OpCloseSession
  | OpGetDeviceInfo | OpOpenKeyStore (id nonce op : Z) | OpCloseKeyStore (h : Z)
  | OpPubkeyExport (h : Z) (a : pubkey_export) | OpOpenStorage | OpCloseStorage (h : Z)
  | OpOpenKeyManagement (h : Z) | OpCloseKeyManagement (h : Z)
  | OpGenerateKey (h : Z) (k : option Z) (a : option gen_key_attribute)
  | OpImportKey (h : Z) (a : option import_key_attr) (k : bool)
  | OpDeleteKey (h k f : Z) | OpGetKeyAttr (h k : Z)
  | OpOpenCipher (h : Z) | OpCloseCipher (h : Z)
  | OpCipher (h : Z) (a : option cipher_operation_attr)
  | OpAead (h : Z) (a : option cipher_aead_operation_attr)
  | OpSignGenerateOpen (h : Z) | OpSignGenerateClose (h : Z)
  | OpSignGenerate (h : Z) (a : option gen_sign_attr)
  | OpSignVerifyOpen | OpSignVerifyClose (h : Z) | OpSignVerify (h : Z) (a : option verify_sign_attr)
  | OpMacOpen (h : Z) | OpMacClose (h : Z) | OpMac (h : Z) (a : option mac_operation_attr)
  | OpDataStorageOpen (h : Z) (p : bool) | OpDataStorageClose (h : Z)
  | OpDataStorage (h : Z) (a : option data_storage_attr)
  | OpDataEncStorage (h : Z) (a : option data_enc_storage_attr) (p : bool)
  | OpDataStorageDelete (h i : Z).

Definition drop_out {A} (c : M (ErrorType * A)) : M ErrorType := '(e, _) ← c; mret e.

Definition run (o : ele_op) : M ErrorType :=
  match o with
  | OpOpenDeviceNode => eleOpenDeviceNode
  | OpCloseDeviceNode => eleCloseDeviceNode
  | OpSetChannelAsNVM => setChannelAsNVM
  | OpOpenSession => eleOpenSession
  | OpCloseSession => eleCloseSession
  | OpGetDeviceInfo => drop_out eleGetDeviceInfo
  | OpOpenKeyStore i n op => drop_out (eleOpenKeyStore i n op)
  | OpCloseKeyStore h => eleCloseKeyStore h
  | OpPubkeyExport h a => drop_out (elePubkeyExport h a)
  | OpOpenStorage => drop_out eleOpenStorage
  | OpCloseStorage h => eleCloseStorage h
  | OpOpenKeyManagement h => drop_out (eleOpenKeyManagement h)
  | OpCloseKeyManagement h => eleCloseKeyManagement h
  | OpGenerateKey h k a => drop_out (eleGenerateKey h k a)
  | OpImportKey h a k => drop_out (eleImportKey h a k)
  | OpDeleteKey h k f => eleDeleteKey h k f
  | OpGetKeyAttr h k => drop_out (eleGetKeyAttr h k)
  | OpOpenCipher h => drop_out (eleOpenCipher h)
  | OpCloseCipher h => eleCloseCipher h
  | OpCipher h a => drop_out (eleCipherOperation h a)
  | OpAead h a => drop_out (eleCipherAeadOperation h a)
  | OpSignGenerateOpen h => drop_out (eleSignGenerateOpen h)
  | OpSignGenerateClose h => eleSignGenerateClose h
  | OpSignGenerate h a => drop_out (eleSignGenerate h a)
  | OpSignVerifyOpen => drop_out eleSignVerifyOpen
  | OpSignVerifyClose h => eleSignVerifyClose h
  | OpSignVerify h a => eleSignVerify h a
  | OpMacOpen h => drop_out (eleMacOpen h)
  | OpMacClose h => eleMacClose h
  | OpMac h a => drop_out (eleMacOperation h a)
  | OpDataStorageOpen h p => drop_out (eleDataStorageOpen h p)
  | OpDataStorageClose h => eleDataStorageClose h
  | OpDataStorage h a => drop_out (eleDataStorage h a)
  | OpDataEncStorage h a p => drop_out (eleDataEncStorage h a p)
  | OpDataStorageDelete h i => eleDataStorageDelete h i
  end.

Fixpoint run_all (ops : list ele_op) : M unit :=
  match ops with [] => mret tt | o :: r => _ ← run o; run_all r end.

(** ** Invariant *)

(** A message the enclave accepts: sent with its own length, tagged as a
    request, with a valid checksum when it is longer than four words. *)
Definition wf_call (c : Call) : Prop :=
  match c with
  | CExchange m len _ =>
      length m = mu_msg_size /\ get_hdr m "ver" = Some ELE_VERSION_HSM /\
      get_hdr m "tag" = Some ELE_REQUEST_TAG /\
      exists n, get_hdr m "size" = Some n /\ 2 <= n /\ len = 4 * n /\
        len <= Z.of_nat mu_msg_size /\ (STORAGE_NB_WORDS_MAX_NO_CRC < n -> crc_valid m)
  | _ => True
  end.

Definition ele_inv (s : EleOperation) : Prop :=
  in_u 8 (cmd_tag (mu_info s)) /\ in_u 8 (rsp_tag (mu_info s)) /\ Forall wf_call (calls s).

(** The device answers a well-formed message, sent after other well-formed ones,
    with a header that gives more words than a message has. *)
Definition answers_too_long : Prop :=
  exists log m a b n, Forall wf_call (log ++ [CExchange m a b]) /\ 0 <= (dev_exchange log m a b).1 /\
    get_hdr (dev_exchange log m a b).2 "size" = Some n /\ 1 + Z.of_nat ELE_MU_MSG_SIZE < n.

(** A computation that keeps the invariant, with a result that satisfies [P]; it
    is only undefined when the device answers too long. *)
Definition safe {A} (c : M A) (P : A -> Prop) : Prop :=
  forall s, ele_inv s -> (exists x s', c s = Some (x, s') /\ ele_inv s' /\ P x) \/ (c s = None /\ answers_too_long).

Lemma safe_bind {A B} (c : M A) (f : A -> M B) P Q :
  safe c P -> (forall x, P x -> safe (f x) Q) -> safe (mbind f c) Q.
Proof.
  intros Hc Hf s Hs. unfold mbind, M_bind.
  destruct (Hc s Hs) as [(x & s' & -> & Hs' & Hx)|[-> ?]]; [|by right]. by apply Hf.
Qed.

Lemma safe_ret {A} (x : A) (P : A -> Prop) : P x -> safe (mret x) P.
Proof. intros Hx s Hs. left. by exists x, s. Qed.

Lemma safe_gets {A} (f : EleOperation -> A) P : (forall s, ele_inv s -> P (f s)) -> safe (gets f) P.
Proof. intros Hf s Hs. left. exists (f s), s. auto. Qed.

Lemma safe_lift {A} (o : option A) P : (exists x, o = Some x /\ P x) -> safe (lift o) P.
Proof. intros (x & -> & Hx) s Hs. left. by exists x, s. Qed.

Lemma safe_lift_long {A} (o : option A) : answers_too_long -> safe (lift o) (fun _ => True).
Proof. intros Hl s Hs. destruct o as [x|]; [left; by exists x, s|by right]. Qed.

Lemma safe_call c : wf_call c -> safe (call c) (fun _ => True).
Proof.
  intros Hc s (H1 & H2 & H3). left. eexists _, _. split; [done|]. split; [|done].
  split_and!; [done..|]. cbn [calls]. apply Forall_app. split; [done|]. by constructor.
Qed.

Lemma safe_set_fd z : safe (set_fd z) (fun _ => True).
Proof. intros s Hs. left. by eexists _, _. Qed.

Lemma safe_set_session z : safe (set_session z) (fun _ => True).
Proof. intros s Hs. left. by eexists _, _. Qed.

Lemma safe_set_info i : in_u 8 (cmd_tag i) -> in_u 8 (rsp_tag i) -> safe (set_info i) (fun _ => True).
Proof. intros H1 H2 s (_ & _ & H3). left. by eexists _, _. Qed.

Lemma safe_weaken {A} (c : M A) (P Q : A -> Prop) : safe c P -> (forall x, P x -> Q x) -> safe c Q.
Proof. intros Hc HPQ s Hs. destruct (Hc s Hs) as [(x & s' & ? & ? & ?)|?]; [left|by right]. eauto 10. Qed.

Context `{!EleDevLaws}.

(** A message in memory. *)
Definition is_msg (m : mu_msg) : Prop := bytes_ok m /\ length m = mu_msg_size.

Lemma get_hdr_Some m f : is_msg m -> is_Some (offset_of msg_hdr f) -> is_Some (get_hdr m f).
Proof.
  intros [_ Hm] [[o w] Ho]. unfold get_hdr. rewrite Ho. cbn [mbind option_bind].
  apply get_le_is_Some. apply (offset_of_bounds msg_hdr) in Ho; [|done].
  change (sizeof msg_hdr) with 4%nat in Ho. rewrite Hm. change mu_msg_size with 132%nat. lia.
Qed.

Lemma get_data_Some s m f :
  is_msg m -> layout_ok s = true -> (sizeof s <=? 128)%nat = true -> is_Some (offset_of s f) ->
  is_Some (get_data s m f).
Proof.
  intros [_ Hm] Hok Hsz%Nat.leb_le [[o w] Ho]. unfold get_data. rewrite Ho. cbn [mbind option_bind].
  apply get_le_is_Some. apply (offset_of_bounds s) in Ho; [|done].
  change (sizeof msg_hdr) with 4%nat. rewrite Hm. change mu_msg_size with 132%nat. lia.
Qed.

Lemma check_response_Some m :
  is_msg m -> (forall n, get_hdr m "size" = Some n -> n <= 33) -> is_Some (check_response m).
Proof.
  intros Hm Hsz. unfold check_response.
  destruct (get_hdr_Some m "size" Hm) as [n Hn]; [by eexists|]. rewrite Hn. cbn [mbind option_bind].
  specialize (Hsz n Hn).
  assert (exists bad : bool, (if STORAGE_NB_WORDS_MAX_NO_CRC <? n then
     crc ← calCRC m 0 (Z.to_nat (n - 1)); w ← get_le 4 m (sizeof msg_hdr + 4 * Z.to_nat (n - 2));
     Some (negb (crc =? w)) else Some false) = Some bad) as [bad ->].
  { destruct (Z.ltb_spec STORAGE_NB_WORDS_MAX_NO_CRC n) as [Hlt|]; [|by eexists].
    unfold STORAGE_NB_WORDS_MAX_NO_CRC in Hlt. destruct Hm as [_ Hm].
    destruct (calCRC_from_is_Some m 0 (Z.to_nat (n - 1)) 0) as [c Hc];
      [rewrite Hm; change mu_msg_size with 132%nat; lia|].
    unfold calCRC. rewrite Hc. cbn [mbind option_bind].
    destruct (proj2 (get_le_is_Some 4 m (sizeof msg_hdr + 4 * Z.to_nat (n - 2)))) as [w ->];
      [rewrite Hm; change mu_msg_size with 132%nat; change (sizeof msg_hdr) with 4%nat; lia|].
    by eexists. }
  cbn [mbind option_bind]. destruct bad; [by eexists|].
  destruct (get_hdr_Some m "tag" Hm) as [t ->]; [by eexists|]. cbn [mbind option_bind].
  destruct (negb (t =? ELE_RESPONSE_TAG)); [by eexists|].
  destruct (get_data_Some mu_rsp m "status" Hm) as [st ->]; [done|done|by eexists|].
  cbn [mbind option_bind]. destruct (negb (st =? ELE_COMMAND_SUCCEED)); [|by eexists].
  apply get_le_is_Some. destruct Hm as [_ Hm]. rewrite Hm. change mu_msg_size with 132%nat.
  change (sizeof msg_hdr) with 4%nat. lia.
Qed.

Lemma safe_phys src size flag : safe (retrivePhyAddress src size flag) (fun _ => True).
Proof.
  unfold retrivePhyAddress. eapply safe_bind; [apply (safe_gets _ (fun _ => True)); done|].
  intros [e a] _. eapply safe_bind; [by apply safe_call|]. intros _ _. by apply safe_ret.
Qed.

(** The transport, on a message the enclave accepts. *)
Lemma safe_send s cmd tag writes m len :
  request_wf s cmd tag writes m -> (sizeof s mod 4 =? 0)%nat = true -> (4 <=? sizeof s)%nat = true ->
  (sizeof s <=? 128)%nat = true ->
  safe (eleSendAndReciveMsg m (SIZE_MSG s) len) (fun r => is_msg r.2).
Proof.
  intros Hwf Hmod%Nat.eqb_eq H4%Nat.leb_le Hsz%Nat.leb_le.
  assert (is_msg m) as Hm by (split; [apply (wf_bytes _ _ _ _ _ Hwf)|apply (wf_length _ _ _ _ _ Hwf)]).
  unfold eleSendAndReciveMsg. eapply safe_bind; [apply (safe_gets _ (fun _ => True)); done|].
  intros f _. destruct (f <? 0); [by apply safe_ret|].
  eapply safe_bind; [apply (safe_lift _ (fun x => x = tag)); exists tag; split;
    [apply (wf_tag _ _ _ _ _ Hwf)|done]|]. intros ? ->.
  destruct (Z.eqb_spec tag ELE_REQUEST_TAG) as [->|]; cbn [negb]; [|by apply safe_ret].
  assert (wf_call (CExchange m (SIZE_MSG s) len)) as Hcall.
  { destruct (SIZE_MSG_words s Hmod ltac:(lia)) as (k & Hk & Hsm & Hn).
    split_and!; [apply Hm|apply (wf_ver _ _ _ _ _ Hwf)|apply (wf_tag _ _ _ _ _ Hwf)|].
    exists (SIZE_MSG s / 4). split_and!;
      [apply (wf_size _ _ _ _ _ Hwf)|lia|lia| |apply (wf_crc _ _ _ _ _ Hwf)].
    rewrite Hsm. change mu_msg_size with 132%nat. lia. }
  eapply safe_bind with (P := fun r => is_msg r.2 /\
    (r.1 = ELE_NO_ERROR -> (forall n, get_hdr r.2 "size" = Some n -> n <= 33) \/ answers_too_long)).
  - unfold sendAndReceiveMuMsg. eapply safe_bind with (P := fun r => is_msg r.2 /\
      (0 <= r.1 -> (forall n, get_hdr r.2 "size" = Some n -> n <= 33) \/ answers_too_long)).
    + apply safe_gets. intros st (_ & _ & Hst). split; [apply (exchange_msg _ m); apply Hm|].
      intros Hr. destruct (get_hdr (dev_exchange (calls st) m (SIZE_MSG s) len).2 "size") as [n|] eqn:Hn; [|by left].
      destruct (Z.le_gt_cases n 33) as [?|Hlong]; [left; by intros ? [= <-]|]. right.
      exists (calls st), m, (SIZE_MSG s), len, n. split_and!; [|done|done|exact Hlong].
      apply Forall_app. split; [done|]. by constructor.
    + intros [ret m'] [Hm' Hs]. eapply safe_bind; [by apply safe_call|]. intros _ _. apply safe_ret. split; [done|]. cbn [fst snd].
      destruct (Z.ltb_spec ret 0); [done|]. intros _. by apply Hs.
  - intros [e m'] [Hm' Hs]. cbn [fst snd] in *.
    destruct (Z.eqb_spec e ELE_NO_ERROR) as [->|]; cbn [negb]; [|by apply safe_ret].
    eapply safe_bind with (P := fun _ => True); [|intros y _; by apply safe_ret].
    destruct (Hs eq_refl) as [Hfit|Hlong]; [|by apply safe_lift_long].
    destruct (check_response_Some m' Hm' Hfit) as [x Hx]. apply (safe_lift _ (fun _ => True)). by eauto.
Qed.

(** The decidable conditions of a request. *)
Definition writes_ok (s : layout) (writes : list (string * Z)) : bool :=
  bool_decide (NoDup writes.*1) && forallb (fun f => bool_decide (f ∈ members s)) writes.*1.

Lemma writes_ok_spec s writes :
  writes_ok s writes = true -> NoDup writes.*1 /\ (forall f, f ∈ writes.*1 -> f ∈ members s).
Proof.
  unfold writes_ok. rewrite andb_true_iff, bool_decide_eq_true, forallb_forall.
  intros [Hnd Hf]. split; [done|]. intros f Hin. apply list_elem_of_In, Hf in Hin.
  by apply bool_decide_eq_true in Hin.
Qed.

Lemma safe_request cmd s rs crc writes :
  req_ok s crc = true -> writes_ok s writes = true -> 0 <= cmd < 256 ->
  safe (request cmd s rs crc writes) (fun r => is_msg r.2).
Proof.
  intros Hok [Hnd Hin]%writes_ok_spec Hcmd. unfold request.
  eapply safe_bind; [apply (safe_gets _ (in_u 8)); by intros st [? _]|]. intros tag Htag.
  destruct (request_msg_spec s crc cmd tag writes Hok Hcmd Htag Hnd Hin) as (m & Hm & Hwf).
  eapply safe_bind; [apply (safe_lift _ (fun x => x = m)); by eauto|]. intros ? ->.
  unfold req_ok in Hok. rewrite !andb_true_iff in Hok. destruct Hok as ((((_ & ?) & ?) & ?) & _).
  by apply (safe_send s cmd tag writes).
Qed.

Lemma safe_get rs f m :
  is_msg m -> layout_ok rs = true -> (sizeof rs <=? 128)%nat = true -> is_Some (offset_of rs f) ->
  safe (lift (get_data rs m f)) (fun _ => True).
Proof.
  intros Hm Hok Hs Hf. apply safe_lift. destruct (get_data_Some rs m f Hm Hok Hs Hf) as [x ->]. eauto.
Qed.

(** ** Automation: walking through an operation *)

Ltac ele_side := first [done | vm_compute; reflexivity | by eexists | lia | by vm_compute].

Ltac ele_step :=
  match goal with
  | |- safe (mret _) _ => apply safe_ret; ele_side
  | |- safe (if ?b then _ else _) _ => destruct b
  | |- safe (match ?o with Some _ => _ | None => _ end) _ => destruct o
  | |- safe (match ?p with (_, _) => _ end) _ => destruct p; cbn [fst snd] in *
  | |- safe (mbind _ (request _ _ _ _ _)) _ =>
      eapply safe_bind; [apply safe_request; ele_side|intros [? ?] ?; cbn [fst snd] in *]
  | |- safe (mbind _ (lift (get_data _ _ _))) _ =>
      eapply safe_bind; [apply safe_get; ele_side|intros ? _]
  | |- safe (mbind _ (gets _)) _ =>
      eapply safe_bind; [apply (safe_gets _ (fun _ => True)); done|intros ? _]
  | |- safe (mbind _ (call _)) _ => eapply safe_bind; [by apply safe_call|intros _ _]
  | |- safe (mbind _ (set_fd _)) _ => eapply safe_bind; [apply safe_set_fd|intros _ _]
  | |- safe (mbind _ (set_session _)) _ => eapply safe_bind; [apply safe_set_session|intros _ _]
  | |- safe (mbind _ (retrivePhyAddress _ _ _)) _ => eapply safe_bind; [apply safe_phys|intros ? _]
  end.

Lemma safe_open_request cmd s rs crc writes hdl :
  req_ok s crc = true -> writes_ok s writes = true -> 0 <= cmd < 256 ->
  layout_ok rs = true -> (sizeof rs <=? 128)%nat = true -> is_Some (offset_of rs hdl) ->
  safe (open_request cmd s rs crc writes hdl) (fun _ => True).
Proof. intros. unfold open_request. repeat ele_step. Qed.

Lemma safe_close_request cmd s rs writes :
  req_ok s false = true -> writes_ok s writes = true -> 0 <= cmd < 256 ->
  safe (close_request cmd s rs writes) (fun _ => True).
Proof. intros. unfold close_request. repeat ele_step. Qed.

Lemma safe_drop_out {A} (c : M (ErrorType * A)) : safe c (fun _ => True) -> safe (drop_out c) (fun _ => True).
Proof. intros Hc. unfold drop_out. eapply safe_bind; [exact Hc|]. intros [e x] _. by apply safe_ret. Qed.

Lemma safe_optional_buffer g b sz fl w (P : list (string * Z) -> Prop) :
  P [] -> (forall p, P (w p)) -> safe (optional_buffer g b sz fl w) P.
Proof. intros. unfold optional_buffer. destruct g; [ele_step; by apply safe_ret|by apply safe_ret]. Qed.

Ltac ele_walk :=
  repeat first
    [ ele_step
    | match goal with
      | |- safe (open_request _ _ _ _ _ _) _ => apply safe_open_request; ele_side
      | |- safe (close_request _ _ _ _) _ => apply safe_close_request; ele_side
      | |- safe (mbind _ (open_request _ _ _ _ _ _)) _ =>
          eapply safe_bind; [apply safe_open_request; ele_side|intros [? ?] _]
      | |- safe (mbind _ (close_request _ _ _ _)) _ =>
          eapply safe_bind; [apply safe_close_request; ele_side|intros ? _]
      end ].

Lemma safe_open_device : safe eleOpenDeviceNode (fun _ => True).
Proof.
  unfold eleOpenDeviceNode. do 2 ele_step; [by apply safe_ret|]. do 4 ele_step; [by apply safe_ret|].
  eapply safe_bind; [apply (safe_gets _ (fun r => in_u 8 (cmd_tag r.2) /\ in_u 8 (rsp_tag r.2)));
    intros st _; apply info_bytes|].
  intros [e i] [H1 H2]. ele_step. eapply safe_bind; [by apply safe_set_info|]. intros _ _. ele_walk.
Qed.

Lemma safe_generate_key h k a : safe (eleGenerateKey h k a) (fun _ => True).
Proof.
  unfold eleGenerateKey. destruct k, a; [|by apply safe_ret..]. ele_step; [by apply safe_ret|].
  eapply safe_bind with (P := fun _ => True); [destruct (_ && _); [apply safe_phys|by apply safe_ret]|].
  intros addr _. ele_walk.
Qed.

Lemma safe_cipher h a : safe (eleCipherOperation h a) (fun _ => True).
Proof.
  unfold eleCipherOperation. destruct a as [a|]; [|by apply safe_ret]. ele_step; [by apply safe_ret|].
  eapply safe_bind with (P := fun iv => iv = [] \/ exists x y, iv = [("iv_addr", x); ("iv_size", y)]).
  { ele_step; [|apply safe_ret; auto]. ele_step. apply safe_ret. eauto. }
  intros iv Hiv. ele_step. ele_step.
  eapply safe_bind; [apply safe_request; [ele_side| |ele_side]|intros [? ?] ?; cbn [fst snd] in *].
  { destruct Hiv as [->|(? & ? & ->)]; ele_side. }
  ele_walk.
Qed.

Lemma safe_aead h a : safe (eleCipherAeadOperation h a) (fun _ => True).
Proof.
  unfold eleCipherAeadOperation. destruct a as [a|]; [|by apply safe_ret].
  ele_step; [by apply safe_ret|].
  eapply safe_bind; [apply (safe_optional_buffer _ _ _ _ _
    (fun l => l.*1 = [] \/ l.*1 = ["iv_in_addr"; "iv_size"])); auto|intros ? ?].
  eapply safe_bind; [apply (safe_optional_buffer _ _ _ _ _
    (fun l => l.*1 = [] \/ l.*1 = ["iv_out_addr"])); auto|intros ? ?].
  eapply safe_bind; [apply (safe_optional_buffer _ _ _ _ _
    (fun l => l.*1 = [] \/ l.*1 = ["tag_addr"; "tag_size"])); auto|intros ? ?].
  eapply safe_bind; [apply (safe_optional_buffer _ _ _ _ _
    (fun l => l.*1 = [] \/ l.*1 = ["aad_addr"; "aad_size"])); auto|intros ? ?].
  ele_step. ele_step.
  eapply safe_bind; [apply safe_request; [ele_side| |ele_side]|intros [? ?] ?; cbn [fst snd] in *].
  { cbn beta in *. unfold writes_ok. rewrite !fmap_app.
    repeat match goal with H : _ = [] \/ _ = _ |- _ => destruct H as [->| ->] end; ele_side. }
  ele_walk.
Qed.

Lemma safe_import_key h a k : safe (eleImportKey h a k) (fun _ => True).
Proof.
  unfold eleImportKey. destruct a as [a|]; [|by apply safe_ret]. do 2 (ele_step; [by apply safe_ret|]).
  ele_step. eapply safe_bind; [apply safe_request; [ele_side| |ele_side]|intros [? ?] ?; cbn [fst snd] in *].
  { destruct (has _ _); ele_side. }
  ele_walk.
Qed.

Lemma safe_enc_storage h a p : safe (eleDataEncStorage h a p) (fun _ => True).
Proof.
  unfold eleDataEncStorage. destruct a as [a|]; [|by apply safe_ret]. ele_step; [by apply safe_ret|].
  ele_step. eapply safe_bind with (P := fun _ => True).
  { ele_step; [|by apply safe_ret]. ele_step. by apply safe_ret. }
  intros iv _. ele_walk.
Qed.

Lemma safe_run o : safe (run o) (fun _ => True).
Proof.
  destruct o; cbn [run]; try apply safe_drop_out;
    try first [apply safe_open_device | apply safe_generate_key | apply safe_cipher | apply safe_aead |
               apply safe_import_key | apply safe_enc_storage].
  all: unfold eleCloseDeviceNode, setChannelAsNVM, eleOpenSession, eleCloseSession, eleGetDeviceInfo,
    eleOpenKeyStore, eleCloseKeyStore, elePubkeyExport, eleOpenStorage, eleCloseStorage,
    eleOpenKeyManagement, eleCloseKeyManagement, eleDeleteKey, eleGetKeyAttr, eleOpenCipher,
    eleCloseCipher, eleSignGenerateOpen, eleSignGenerateClose, eleSignGenerate, eleSignVerifyOpen,
    eleSignVerifyClose, eleSignVerify, eleMacOpen, eleMacClose, eleMacOperation, eleDataStorageOpen,
    eleDataStorageClose, eleDataStorage, eleDataStorageDelete; ele_walk.
  match goal with x : MuType |- _ => destruct x; ele_walk end.
Qed.

Lemma safe_run_all ops : safe (run_all ops) (fun _ => True).
Proof.
  induction ops as [|o ops IH]; cbn [run_all]; [by apply safe_ret|].
  eapply safe_bind; [apply safe_run|]. intros _ _. exact IH.
Qed.

(** ** Theorems *)

(** C26: A program of client operations, with any arguments, whatever the device
    answers, is defined (no access outside a message or a structure), unless the
    device answers one of its messages with a header that gives more words than a
    message has.  Every message it has the kernel send, the one that is answered
    so included, is one the enclave accepts: right version and request tag, sent
    with exactly the length its header gives, inside the message buffer, and with
    a valid checksum whenever it is longer than the four words that need none. *)
Theorem ele_requests_wf junk type ops :
  in_u 8 (cmd_tag junk) -> in_u 8 (rsp_tag junk) ->
  (exists s', run_all ops (ele_new junk type) = Some (tt, s') /\ Forall wf_call (calls s')) \/
  (run_all ops (ele_new junk type) = None /\ answers_too_long).
Proof.
  intros H1 H2. destruct (safe_run_all ops (ele_new junk type)) as [([] & s' & Hr & (_ & _ & Hc) & _)|?].
  - split_and!; [done..|constructor].
  - left. by exists s'.
  - by right.
Qed.

(** A response is accepted exactly when its checksum is right (if it is
    longer than four words), its tag is that of a response, and its status is
    success, or its first half word is 0: a response with status 0 and rating 0
    passes for success, because the half word is returned as the error. *)
Lemma ele_response_accepted m n :
  is_msg m -> get_hdr m "size" = Some n -> n <= 1 + Z.of_nat ELE_MU_MSG_SIZE ->
  check_response m = Some ELE_NO_ERROR <->
  (STORAGE_NB_WORDS_MAX_NO_CRC < n -> crc_valid m) /\ get_hdr m "tag" = Some ELE_RESPONSE_TAG /\
  (get_data mu_rsp m "status" = Some ELE_COMMAND_SUCCEED \/ get_le 2 m 4 = Some 0).
Proof.
  intros Hm Hn Hle. change (1 + Z.of_nat ELE_MU_MSG_SIZE) with 33 in Hle. unfold check_response.
  rewrite Hn. cbn [mbind option_bind].
  destruct (get_hdr_Some m "tag" Hm) as [t Ht]; [by eexists|]. rewrite Ht.
  destruct (get_data_Some mu_rsp m "status" Hm) as [st Hst]; [done|done|by eexists|]. rewrite Hst.
  assert ((if STORAGE_NB_WORDS_MAX_NO_CRC <? n then
     crc ← calCRC m 0 (Z.to_nat (n - 1)); w ← get_le 4 m (sizeof msg_hdr + 4 * Z.to_nat (n - 2));
     Some (negb (crc =? w)) else Some false) = Some false /\ (STORAGE_NB_WORDS_MAX_NO_CRC < n -> crc_valid m) \/
    (if STORAGE_NB_WORDS_MAX_NO_CRC <? n then
     crc ← calCRC m 0 (Z.to_nat (n - 1)); w ← get_le 4 m (sizeof msg_hdr + 4 * Z.to_nat (n - 2));
     Some (negb (crc =? w)) else Some false) = Some true /\ ~ (STORAGE_NB_WORDS_MAX_NO_CRC < n -> crc_valid m))
    as [[-> Hc]|[-> Hc]].
  { destruct (Z.ltb_spec STORAGE_NB_WORDS_MAX_NO_CRC n) as [Hlt|]; [|left; split; [done|lia]].
    unfold STORAGE_NB_WORDS_MAX_NO_CRC in Hlt |- *. destruct Hm as [_ Hm].
    change (sizeof msg_hdr) with 4%nat.
    assert (4 + 4 * Z.to_nat (n - 2) = 4 * Z.to_nat (n - 1))%nat as -> by lia.
    destruct (calCRC_from_is_Some m 0 (Z.to_nat (n - 1)) 0) as [c Hc];
      [rewrite Hm; change mu_msg_size with 132%nat; lia|].
    destruct (proj2 (get_le_is_Some 4 m (4 * Z.to_nat (n - 1)))) as [w Hw];
      [rewrite Hm; change mu_msg_size with 132%nat; lia|].
    unfold calCRC. rewrite Hc, Hw. cbn [mbind option_bind].
    destruct (Z.eqb_spec c w) as [->|Hne]; cbn [negb]; [left|right]; (split; [done|]).
    - intros _. exists n, w. split_and!; (done || lia).
    - intros Hv. destruct (Hv Hlt) as (n' & c' & Hn' & _ & Hc' & Hw').
      rewrite Hn in Hn'. simplify_eq. unfold calCRC in Hc'. congruence. }
  2: { cbn [mbind option_bind]. by split; [|intros [? _]]. }
  cbn [mbind option_bind].
  destruct (Z.eqb_spec t ELE_RESPONSE_TAG) as [->|Hne]; cbn [negb];
    [|split; [done|intros (_ & [=] & _); done]].
  destruct (Z.eqb_spec st ELE_COMMAND_SUCCEED) as [->|Hne]; cbn [negb]; [tauto|].
  change (sizeof msg_hdr) with 4%nat. unfold ELE_NO_ERROR.
  split; [intros ->; auto|]. intros (_ & _ & [[=]|?]); done.
Qed.

(** The initialisation vector of an AEAD operation can only be supplied by
    the caller: asking the enclave to generate all of it or its counter part,
    as the flags AEAD_FLAGS_FULL_IV and AEAD_FLAGS_COUNTER_IV are for, is
    refused with ELE_INVALID_MESSAGE for every combination of arguments,
    because the check for a vector of 12 bytes applies to these cases too. *)
Lemma aead_generated_iv_refused h a s :
  has (ae_flags a) (Z.lor AEAD_FLAGS_ONE_SHOT AEAD_FLAGS_MULTI_INIT) = true ->
  has (ae_flags a) AEAD_FLAGS_FULL_IV = true \/ has (ae_flags a) AEAD_FLAGS_COUNTER_IV = true ->
  eleCipherAeadOperation h (Some a) s = Some ((ELE_INVALID_MESSAGE, None), s).
Proof.
  intros H1 H2. unfold eleCipherAeadOperation.
  assert (aead_iv_bad a = true) as Hiv.
  { unfold aead_iv_bad. rewrite H1. cbn [andb].
    destruct (Z.eqb_spec (ae_iv_size a) 12) as [E12|N12]; [rewrite E12|];
      destruct H2 as [H2|H2]; rewrite H2; cbn [andb negb orb Z.eqb]; repeat case_match; done. }
  unfold aead_args_bad. rewrite Hiv. by rewrite !orb_true_r.
Qed.

(** When a public key export fails before any exchange, because the device
    node is not open, the error is reported, but the caller's key size is
    replaced by the low half of the key id, read from the request that is still
    in the message buffer. *)
Lemma pubkey_export_failure_size s h a :
  h <> 0 -> in_u 32 (pe_key_id a) -> pe_key_id a <> 0 -> pe_out_key a <> 0 -> pe_out_key_size a <> 0 ->
  in_u 8 (cmd_tag (mu_info s)) -> fd s < 0 ->
  exists s', elePubkeyExport h a s =
    Some ((ELE_NOT_INITED, Some (mkPubkey (pe_key_id a) (pe_out_key a) (pe_key_id a mod 2 ^ 16))), s').
Proof.
  intros Hh Hid Hk Ho Hs Htag Hfd. unfold elePubkeyExport, null.
  rewrite (proj2 (Z.eqb_neq h 0) Hh), (proj2 (Z.eqb_neq _ 0) Hk), (proj2 (Z.eqb_neq _ 0) Ho),
    (proj2 (Z.eqb_neq _ 0) Hs). cbn [orb].
  unfold mbind at 1, M_bind at 1, retrivePhyAddress.
  unfold mbind at 1, M_bind at 1, gets at 1.
  destruct (dev_setup_iobuf _ _ _ _) as [e p]. unfold mbind at 1, M_bind at 1, call at 1.
  unfold mret at 1, M_ret at 1. set (addr := Z.land _ _). set (st := mkEle _ _ _ _ _).
  unfold request. unfold mbind at 1, M_bind at 1. unfold mbind at 1, M_bind at 1, gets at 1.
  cbn [mu_info st]. unfold mbind at 1, M_bind at 1, lift at 1.
  destruct (request_msg_spec pubkey_recover_msg_cmd true KEY_STORE_PUBKEY_EXPORT
    (cmd_tag (mu_info s)) [("key_store_handle", h); ("key_id", pe_key_id a); ("out_key_lsb", addr);
      ("out_key_size", pe_out_key_size a)]) as (m & -> & Hwf);
    [reflexivity|done|done|apply (writes_ok_spec pubkey_recover_msg_cmd); reflexivity..|].
  cbn [mbind option_bind]. unfold eleSendAndReciveMsg, mbind at 1, M_bind at 1, gets at 1.
  cbn [fd st]. rewrite (proj2 (Z.ltb_lt _ _) Hfd). unfold mret at 1, M_ret at 1.
  destruct (wf_fields _ _ _ _ _ Hwf "key_id" (pe_key_id a)) as (o & w & How & Hget);
    [apply list_elem_of_further, list_elem_of_here|].
  cbv in How. simplify_eq.
  unfold get_data in Hget. change (offset_of pubkey_recover_msg_cmd "key_id") with (Some (4, 4)%nat) in Hget.
  cbn [mbind option_bind] in Hget. rewrite wrap_u_id in Hget by exact Hid.
  apply (get_le_low 2) in Hget; [|apply (wf_bytes _ _ _ _ _ Hwf)|lia].
  unfold mbind at 1, M_bind at 1, lift at 1, get_data at 1.
  change (offset_of pubkey_recover_msg_rsp "out_key_size") with (Some (4, 2)%nat).
  cbn [mbind option_bind]. rewrite Hget. cbn [mbind option_bind]. by eexists.
Qed.

(** A request that succeeds was sent, with what the operation assigned. *)
Lemma request_sent cmd s rs crc writes st m st' :
  req_ok s crc = true -> writes_ok s writes = true -> in_u 8 cmd -> in_u 8 (cmd_tag (mu_info st)) ->
  request cmd s rs crc writes st = Some ((ELE_NO_ERROR, m), st') ->
  exists req, calls st' = calls st ++ [CExchange req (SIZE_MSG s) (SIZE_MSG rs)] /\
    request_wf s cmd ELE_REQUEST_TAG writes req /\ is_msg m.
Proof.
  intros Hok [Hnd Hin]%writes_ok_spec Hcmd Htag. unfold request.
  unfold mbind at 1, M_bind at 1, gets at 1. unfold mbind at 1, M_bind at 1, lift at 1.
  destruct (request_msg_spec s crc cmd (cmd_tag (mu_info st)) writes Hok Hcmd Htag Hnd Hin)
    as (req & -> & Hwf). cbn [mbind option_bind].
  unfold eleSendAndReciveMsg. unfold mbind at 1, M_bind at 1, gets at 1.
  destruct (fd st <? 0); [intros [=]|].
  unfold mbind at 1, M_bind at 1, lift at 1. rewrite (wf_tag _ _ _ _ _ Hwf). cbn [mbind option_bind].
  destruct (Z.eqb_spec (cmd_tag (mu_info st)) ELE_REQUEST_TAG) as [Heq|]; cbn [negb]; [|intros [=]].
  rewrite Heq in Hwf. unfold mbind at 1, M_bind at 1, sendAndReceiveMuMsg.
  unfold mbind at 1, M_bind at 1, gets at 1.
  pose proof (exchange_msg (calls st) req (SIZE_MSG s) (SIZE_MSG rs) (wf_bytes _ _ _ _ _ Hwf)
    (wf_length _ _ _ _ _ Hwf)) as Hm'. destruct (dev_exchange _ _ _ _) as [ret m'].
  unfold mbind at 1, M_bind at 1, call at 1. unfold mret at 1, M_ret at 1.
  destruct (ret <? 0); cbn [Z.eqb ELE_COMMUNICATION_ERROR ELE_NO_ERROR negb]; [intros [=]|].
  unfold mbind at 1, M_bind at 1, lift at 1. destruct (check_response m') as [x|]; [|intros [=]].
  cbn [mbind option_bind]. intros [= _ <- <-]. cbn [calls]. by exists req.
Qed.

(** The members of a key generation request. *)
Definition gen_key_writes (h k addr : Z) (a : gen_key_attribute) : list (string * Z) :=
  [("key_mgt_handle", h); ("key_id", k); ("pub_key_size", gk_pub_key_size a);
   ("key_group", gk_key_group a); ("type", gk_type a); ("size_bits", gk_size_bits a);
   ("lifetime", gk_lifetime a); ("usage", gk_usage a); ("permit_algo", gk_permit_algo a);
   ("lifecycle", gk_lifecycle a); ("flags", gk_flags a); ("pub_key_lsb_addr", addr)].

Lemma generate_key_inv h k a s id s' :
  eleGenerateKey h (Some k) (Some a) s = Some ((ELE_NO_ERROR, Some id), s') ->
  exists addr st front m, calls st = calls s ++ front /\ mu_info st = mu_info s /\
    request KEY_GENERATE_KEY_REQ gen_key_msg_cmd gen_key_msg_rsp true (gen_key_writes h k addr a) st =
      Some ((ELE_NO_ERROR, m), s') /\
    get_data gen_key_msg_rsp m "key_id" = Some id /\ id <> 0 /\ id <= 0x7fffffff /\ (k <> 0 -> id = k).
Proof.
  unfold eleGenerateKey. destruct (h =? 0); [intros [=]|]. unfold mbind at 1, M_bind at 1.
  set (pre := if _ && _ then _ else _).
  assert (exists addr st front, pre s = Some (addr, st) /\ calls st = calls s ++ front /\
    mu_info st = mu_info s) as (addr & st & front & -> & Hcalls & Hinfo).
  { unfold pre. destruct (_ && _).
    - unfold retrivePhyAddress, mbind, M_bind, gets, call, mret, M_ret.
      destruct (dev_setup_iobuf _ _ _ _) as [e p]. eexists _, _, _. split; [done|]. done.
    - exists 0, s, []. by rewrite app_nil_r. }
  unfold mbind at 1, M_bind at 1. fold (gen_key_writes h k addr a).
  destruct (request _ _ _ _ _ st) as [[[error m] st1]|] eqn:Hreq; [|intros [=]].
  unfold ok. destruct (Z.eqb_spec error ELE_NO_ERROR) as [->|Hne]; cbn [negb];
    [|intros [= -> _]; done].
  unfold mbind at 1, M_bind at 1, lift at 1.
  destruct (get_data gen_key_msg_rsp m "pub_key_size") as [size|]; [|intros [=]]. cbn [mbind option_bind].
  unfold mbind at 1, M_bind at 1, lift at 1.
  destruct (get_data gen_key_msg_rsp m "key_id") as [id'|] eqn:Hid; [|intros [=]]. cbn [mbind option_bind].
  destruct (negb (size =? gk_pub_key_size a)); [intros [=]|].
  destruct (negb (k =? 0) && negb (k =? id')) eqn:Hk; [intros [=]|].
  destruct ((id' =? 0) || (0x7fffffff <? id')) eqn:Hr; [intros [=]|]. intros [= <- <-].
  exists addr, st, front, m. split_and!; [done..| | |];
    apply orb_false_iff in Hr as [?%Z.eqb_neq ?%Z.ltb_ge]; [done|done|].
  intros Hk0. rewrite (proj2 (Z.eqb_neq _ _) Hk0) in Hk. cbn in Hk.
  apply negb_false_iff, Z.eqb_eq in Hk. done.
Qed.

(** When key generation succeeds, the key id is in the valid range
    1..0x7fffffff and the one asked for, if one was; and the last call was an
    exchange of a well-formed KEY_GENERATE_KEY_REQ, checksummed, that carries
    the handle and every attribute of the caller at the width of its member. *)
Lemma generate_key_spec h k a s id s' :
  in_u 8 (cmd_tag (mu_info s)) ->
  eleGenerateKey h (Some k) (Some a) s = Some ((ELE_NO_ERROR, Some id), s') ->
  1 <= id <= 0x7fffffff /\ (k <> 0 -> id = k) /\
  exists addr front req len,
    calls s' = calls s ++ front ++ [CExchange req (SIZE_MSG gen_key_msg_cmd) len] /\
    get_hdr req "cmd" = Some KEY_GENERATE_KEY_REQ /\ crc_valid req /\
    forall f v, (f, v) ∈ gen_key_writes h k addr a ->
      exists o w, offset_of gen_key_msg_cmd f = Some (o, w) /\
        get_data gen_key_msg_cmd req f = Some (wrap_u (8 * Z.of_nat w) v).
Proof.
  intros Htag Hgen. apply generate_key_inv in Hgen
    as (addr & st & front & m & Hcalls & Hinfo & Hreq & Hid & Hz & Hr & Hk).
  assert (req_ok gen_key_msg_cmd true = true) as H1 by (vm_compute; reflexivity).
  assert (writes_ok gen_key_msg_cmd (gen_key_writes h k addr a) = true) as H2
    by (vm_compute; reflexivity).
  assert (in_u 8 KEY_GENERATE_KEY_REQ) as H3 by (split; [discriminate|reflexivity]).
  assert (in_u 8 (cmd_tag (mu_info st))) as H4 by (rewrite Hinfo; exact Htag).
  destruct (request_sent _ _ _ _ _ _ _ _ H1 H2 H3 H4 Hreq) as (req & Hst & Hwf & [Hm _]).
  unfold get_data in Hid. change (offset_of gen_key_msg_rsp "key_id") with (Some (4, 4)%nat) in Hid.
  cbn [mbind option_bind] in Hid. apply (get_le_range 4) in Hid; [|done]. unfold in_u in Hid.
  split; [lia|]. split; [done|].
  eexists addr, front, req, _. split; [by rewrite Hst, Hcalls, <- app_assoc|].
  split; [apply (wf_cmd _ _ _ _ _ Hwf)|]. split; [apply (wf_crc _ _ _ _ _ Hwf); by vm_compute|].
  apply (wf_fields _ _ _ _ _ Hwf).
Qed.

End EleOps.

(** ** Witnesses *)

(** A device whose enclave answers every request with success and handle 9. *)
Definition demo_response : mu_msg := [7; 4; 0; 0xe1; 0xd6; 0; 0; 0; 9; 0; 0; 0] ++ replicate 120 0.

Definition demo_dev : EleDev := {|
  dev_open _ := 5;
  dev_get_info _ := (0, mkMuInfo 1 0x17 0xe1);
  dev_enable_rcv _ := 0;
  dev_setup_iobuf _ _ _ _ := (0, 0x80001000);
  dev_exchange _ _ _ _ := (0, demo_response)
|}.

Lemma demo_response_msg : is_msg demo_response.
Proof. split; [|reflexivity]. unfold bytes_ok. repeat constructor; cbn; lia. Qed.

Lemma demo_dev_laws : @EleDevLaws demo_dev.
Proof.
  split.
  - intros log. cbn. unfold in_u. lia.
  - intros. apply demo_response_msg.
Qed.

(** Its answers have four words. *)
Lemma demo_answers_fit : ~ @answers_too_long demo_dev.
Proof. intros (log & m & a & b & n & _ & _ & Hn & Hlong). vm_compute in Hn. injection Hn as <-. vm_compute in Hlong. discriminate. Qed.

(** A device whose answer gives 34 words: the checksum is read behind the message. *)
Definition long_dev : EleDev := {|
  dev_open _ := 5;
  dev_get_info _ := (0, mkMuInfo 1 0x17 0xe1);
  dev_enable_rcv _ := 0;
  dev_setup_iobuf _ _ _ _ := (0, 0x80001000);
  dev_exchange _ _ _ _ := (0, [7; 34; 0; 0xe1; 0xd6; 0; 0; 0; 9; 0; 0; 0] ++ replicate 120 0)
|}.

Example long_answer_undefined :
  @run_all long_dev [OpOpenDeviceNode; OpOpenSession] (ele_new (mkMuInfo 1 0x17 0xe1) MU_CHANNEL_PLAT_HSM) = None.
Proof. vm_compute. reflexivity. Qed.

Definition demo_info : ele_mu_info := mkMuInfo 1 0x17 0xe1.
Definition demo_ele : EleOperation := mkEle 5 9 MU_CHANNEL_PLAT_HSM demo_info [].
Definition aes_attr : gen_key_attribute := mkGenKey 0 1 0x2400 256 1 0x300 0x04404000 1 0 0.

Lemma ele_requests_wf_witness :
  exists s', @run_all demo_dev [OpOpenDeviceNode; OpOpenSession; OpOpenKeyStore 1 2 1]
    (ele_new demo_info MU_CHANNEL_PLAT_HSM) = Some (tt, s') /\ Forall wf_call (calls s').
Proof.
  destruct (@ele_requests_wf demo_dev demo_dev_laws demo_info MU_CHANNEL_PLAT_HSM [OpOpenDeviceNode; OpOpenSession; OpOpenKeyStore 1 2 1])
    as [Hr|[_ Hl]]; [vm_compute; intuition discriminate..|exact Hr|]. by apply demo_answers_fit in Hl.
Defined.
