(* ===== verification/EleNvm.v ===== *)
(** * secure-enclave/lib/EleOperation.cpp: the storage service of the enclave

    The enclave keeps its key store outside: it sends storage requests to this
    service, which answers them from files.  An export is two requests: the
    first announces a size and gets the address of a buffer, the enclave
    writes the data there, and the second, "export finish", makes the service
    write the buffer to a file, behind a header with size, checksum and blob
    id.  A chunk is read back by "get chunk", which is closed by "get chunk
    done".

    One call of [eleHandleNVMRequest] takes what the environment answers during
    it as an [nvm_io]: the message read from the device, the results of
    [malloc], the address of the buffer, and the results of the file
    operations.  A buffer is its bytes; buffers that are allocated and
    forgotten are counted.  Null dereference and access outside a buffer are
    [None]. *)

From S2P Require Import Prelude EleMsg EleOps.
From Stdlib Require Import Ascii.

(** ** Data *)

Record nvm_context := mkNvm {
  nvm_handle : Z; prev_command : Z; next_command : Z; last_data : option (list Z);
  nvm_master_name : option string; nvm_chunk_path : string
}.

Record nvm_io := mkIo {
  rx_ret : Z; rx_msg : mu_msg;     (* read(fd, cmd, sizeof(cmd)) *)
  name_ok : bool; buf_ok : bool;   (* malloc of the file name and of the buffer *)
  heap : list Z;                   (* what the buffer holds when it is allocated *)
  phys : Z;                        (* retrivePhyAddress of the buffer *)
  rd_ok : bool;                    (* the file can be opened and read *)
  wr_len : option nat;             (* bytes written, [None] if open or write fails *)
  rm_ok : bool;                    (* remove of a file that exists *)
  tx_ok : bool                     (* the response is written completely *)
}.

Record nvm_state := mkNvmState {
  ctx : nvm_context; files : gmap string (list Z); leaked : nat
}.

Definition set_next (c : nvm_context) (next : Z) : nvm_context :=
  mkNvm (nvm_handle c) (prev_command c) next (last_data c) (nvm_master_name c) (nvm_chunk_path c).
Definition set_prev (c : nvm_context) (prev : Z) : nvm_context :=
  mkNvm (nvm_handle c) prev (next_command c) (last_data c) (nvm_master_name c) (nvm_chunk_path c).
Definition set_last (c : nvm_context) (b : option (list Z)) : nvm_context :=
  mkNvm (nvm_handle c) (prev_command c) (next_command c) b (nvm_master_name c) (nvm_chunk_path c).

(** Members of the [struct nvm_header] at the start of a buffer. *)
Definition get_nvm (b : list Z) (f : string) : option Z :=
  '(o, w) ← offset_of nvm_header f; get_le w b o.
Definition set_nvm (b : list Z) (f : string) (v : Z) : option (list Z) :=
  '(o, w) ← offset_of nvm_header f; set_le w b o v.

(** [blob_size + NVM_HEADER_SIZE] as a [uint32_t]. *)
Definition data_len (size : Z) : Z := wrap_u 32 (size + Z.of_nat NVM_HEADER_SIZE).

(** [malloc(n)]: [n] bytes of whatever memory holds. *)
Definition malloc (io : nvm_io) (n : Z) : list Z :=
  take (Z.to_nat n) (heap io) ++ replicate (Z.to_nat n - length (heap io)) 0.

(** ** Files *)

Definition hex_digit (d : Z) : ascii :=
  ascii_of_nat (Z.to_nat (if d <? 10 then 48 + d else 87 + d)).

(** [%0*x] with width [2 * n]. *)
Fixpoint hex (n : nat) (v : Z) : string :=
  match n with
  | O => EmptyString
  | S n' => hex n' (v / 16) +:+ String (hex_digit (v mod 16)) EmptyString
  end.

(** The file of a blob; [snprintf] keeps what fits its buffer. *)
Definition chunk_name (path : string) (ext id metadata : Z) : string :=
  String.substring 0 (NVM_MAX_FILE_NAME_LEN - 1) (path +:+ hex 8 ext +:+ hex 8 id +:+ hex 8 metadata).

(** The number of bytes read, and the bytes; 0 for failure. *)
Definition readStorageFile (io : nvm_io) (fs : gmap string (list Z)) (name : string) (size : Z)
    : Z * list Z :=
  if size =? 0 then (0, [])
  else
    match fs !! name with
    | Some data =>
        if rd_ok io then (Z.of_nat (length (take (Z.to_nat size) data)), take (Z.to_nat size) data)
        else (0, [])
    | None => (0, [])
    end.

(** The file is opened without truncation.  The empty name cannot be opened. *)
Definition writeStorageFile (io : nvm_io) (fs : gmap string (list Z)) (name : string) (src : list Z)
    (size : Z) : Z * gmap string (list Z) :=
  if size =? 0 then (0, fs)
  else if String.eqb name EmptyString then (0, fs)
  else
    match wr_len io with
    | Some n =>
        let n := Nat.min n (Z.to_nat size) in
        (Z.of_nat n, <[name := take n src ++ drop n (default [] (fs !! name))]> fs)
    | None => (0, fs)
    end.

(** ** Handlers *)

(** The error, the response and its length, and the new state. *)
Definition handled : Type := ErrorType * mu_msg * Z * nvm_state.

(** The checks the handlers share: [Some e] is a [break] with that error. *)
Definition bad_request (c : nvm_context) (s : layout) (cmd : mu_msg) (cmdLen rspMsgInfo : Z)
    : option bool :=
  if negb (rspMsgInfo =? ELE_COMMAND_SUCCEED) then Some true
  else if negb (cmdLen =? SIZE_MSG s) then Some true
  else h ← get_data s cmd "nvm_storage_handle"; Some (negb (h =? nvm_handle c)).

(** What [rsp_code] is when these checks fail. *)
Definition refused_code (rspMsgInfo : Z) : Z :=
  if negb (rspMsgInfo =? ELE_COMMAND_SUCCEED) then rspMsgInfo else ELE_COMMAND_GENERAL_ERROR.

(** The buffer of an export: size and blob id in the header. *)
Definition export_buffer (io : nvm_io) (size metadata id ext : Z) : option (list Z) :=
  b ← set_nvm (malloc io (data_len size)) "size" size;
  b ← set_nvm b "blob_id.metadata" metadata;
  b ← set_nvm b "blob_id.id" id;
  set_nvm b "blob_id.ext" ext.

Definition eleHandleMasterExportReq (io : nvm_io) (cmd : mu_msg) (cmdLen : Z) (resp : mu_msg)
    (rspMsgInfo : Z) (s : nvm_state) : option handled :=
  let req := storage_master_exp_msg_cmd in
  let rsp := storage_master_exp_msg_rsp in
  c ← get_hdr cmd "cmd";
  let c0 := set_next (set_prev (ctx s) c) STORAGE_NVM_LAST_CMD in
  bad ← bad_request c0 req cmd cmdLen rspMsgInfo;
  '(error, resp, c1) ←
    (if (bad : bool) then
       r ← set_data rsp resp "rsp_code" (refused_code rspMsgInfo); Some (ELE_INVALID_MESSAGE, r, c0)
     else
       r ← set_data rsp resp "rsp_code" ELE_COMMAND_GENERAL_ERROR;
       size ← get_data req cmd "master_data_size";
       if (size =? 0) || (STORAGE_MAX_DATA_SIZE <? data_len size) then Some (ELE_INVALID_MESSAGE, r, c0)
       else if buf_ok io then
         b ← export_buffer io size 0 0 0;
         r ← set_data rsp r "master_data_addr" (phys io);
         r ← set_data rsp r "rsp_code" ELE_COMMAND_SUCCEED;
         Some (ELE_NO_ERROR, r, set_last (set_next c0 STORAGE_EXPORT_FINISH_REQ) (Some b))
       else
         r ← set_data rsp r "master_data_addr" 0; Some (ELE_NO_ERROR, r, c0));
  resp ← set_data rsp resp "nvm_storage_handle" (nvm_handle c1);
  Some (error, resp, SIZE_MSG rsp, mkNvmState c1 (files s) (leaked s)).

Definition eleHandleChunkExportReq (io : nvm_io) (cmd : mu_msg) (cmdLen : Z) (resp : mu_msg)
    (rspMsgInfo : Z) (s : nvm_state) : option handled :=
  let req := storage_chunk_exp_msg_cmd in
  let rsp := storage_chunk_exp_msg_rsp in
  c ← get_hdr cmd "cmd";
  let c0 := set_next (set_prev (ctx s) c) STORAGE_NVM_LAST_CMD in
  bad ← bad_request c0 req cmd cmdLen rspMsgInfo;
  '(error, resp, c1) ←
    (if (bad : bool) then
       r ← set_data rsp resp "rsp_code" (refused_code rspMsgInfo); Some (ELE_INVALID_MESSAGE, r, c0)
     else
       r ← set_data rsp resp "rsp_code" ELE_COMMAND_GENERAL_ERROR;
       size ← get_data req cmd "chunk_size";
       if (size =? 0) || (STORAGE_MAX_DATA_SIZE <? data_len size) then Some (ELE_INVALID_MESSAGE, r, c0)
       else if buf_ok io then
         m ← get_data req cmd "blob_id.metadata";
         i ← get_data req cmd "blob_id.id";
         e ← get_data req cmd "blob_id.ext";
         b ← export_buffer io size m i e;
         r ← set_data rsp r "chunk_blob_addr" (phys io);
         r ← set_data rsp r "rsp_code" ELE_COMMAND_SUCCEED;
         Some (ELE_NO_ERROR, r, set_last (set_next c0 STORAGE_EXPORT_FINISH_REQ) (Some b))
       else
         r ← set_data rsp r "chunk_blob_addr" 0; Some (ELE_NO_ERROR, r, c0));
  Some (error, resp, SIZE_MSG rsp, mkNvmState c1 (files s) (leaked s)).

(** The name an export is written to: [strncpy] of the master name, which is
    not terminated when it fills the buffer, or the name of the chunk. *)
Definition export_name (c : nvm_context) (b : list Z) : option (unit + string) :=
  if prev_command c =? STORAGE_MASTER_EXPORT_REQ then
    match nvm_master_name c with
    | Some n => if (String.length n <? NVM_MAX_FILE_NAME_LEN)%nat then Some (inr n) else None
    | None => Some (inr EmptyString)
    end
  else if prev_command c =? STORAGE_CHUNK_EXPORT_REQ then
    m ← get_nvm b "blob_id.metadata"; i ← get_nvm b "blob_id.id"; e ← get_nvm b "blob_id.ext";
    Some (inr (chunk_name (nvm_chunk_path c) e i m))
  else Some (inl tt).

Definition eleHandleExportFinish (io : nvm_io) (cmd : mu_msg) (cmdLen : Z) (resp : mu_msg)
    (rspMsgInfo : Z) (s : nvm_state) : option handled :=
  let req := storage_exp_finish_msg_cmd in
  let rsp := storage_exp_finish_msg_rsp in
  let c0 := set_next (ctx s) STORAGE_NVM_LAST_CMD in
  bad ← bad_request c0 req cmd cmdLen rspMsgInfo;
  '(error, code, c1, fs) ←
    (if (bad : bool) then Some (ELE_INVALID_MESSAGE, refused_code rspMsgInfo, c0, files s)
     else
       status ← get_data req cmd "export_status";
       if negb (status =? NVM_EXPORT_STATUS_SUCCESS) then
         Some (ELE_INVALID_MESSAGE, ELE_COMMAND_SUCCEED, c0, files s)
       else
         b ← last_data c0;
         size ← get_nvm b "size";
         crc ← calCRC b NVM_HEADER_SIZE (Z.to_nat (Z.shiftr size 2));
         b ← set_nvm b "crc" crc;
         let c1 := set_last c0 (Some b) in
         if negb (name_ok io) then
           Some (ELE_MEMORY_FAILURE, ELE_COMMAND_GENERAL_ERROR, c1, files s)
         else
           name ← export_name c1 b;
           match name with
           | inl _ => Some (ELE_INVALID_MESSAGE, ELE_COMMAND_GENERAL_ERROR, c1, files s)
           | inr name =>
               let '(n, fs) := writeStorageFile io (files s) name b (data_len size) in
               if n =? data_len size then Some (ELE_NO_ERROR, ELE_COMMAND_SUCCEED, c1, fs)
               else Some (ELE_GENERAL_ERROR, ELE_COMMAND_GENERAL_ERROR, c1, fs)
           end);
  r ← set_data rsp resp "rsp_code" code;
  r ← set_data rsp r "nvm_storage_handle" (nvm_handle c1);
  Some (error, r, SIZE_MSG rsp, mkNvmState c1 fs (leaked s)).

(** Reading a blob: the error that ends the attempt and the buffers it loses,
    or the buffer, which starts with the header. *)
Definition load_blob (io : nvm_io) (fs : gmap string (list Z)) (name : string)
    : option (ErrorType * nat + Z * list Z) :=
  let '(n, hdr) := readStorageFile io fs name (Z.of_nat NVM_HEADER_SIZE) in
  if negb (n =? Z.of_nat NVM_HEADER_SIZE) then Some (inl (ELE_GENERAL_ERROR, 0%nat))
  else
    size ← get_nvm hdr "size";
    stored ← get_nvm hdr "crc";
    if negb (buf_ok io) then Some (inl (ELE_MEMORY_FAILURE, 0%nat))
    else
      let '(n, data) := readStorageFile io fs name (data_len size) in
      if negb (n =? data_len size) then Some (inl (ELE_GENERAL_ERROR, 1%nat))
      else
        crc ← calCRC data NVM_HEADER_SIZE (Z.to_nat (Z.shiftr size 2));
        if negb (crc =? stored) then Some (inl (ELE_GENERAL_ERROR, 1%nat))
        else Some (inr (size, data)).

Definition eleHandleChunkGetReq (io : nvm_io) (cmd : mu_msg) (cmdLen : Z) (resp : mu_msg)
    (rspMsgInfo : Z) (s : nvm_state) : option handled :=
  let req := storage_get_chunk_msg_cmd in
  let rsp := storage_get_chunk_msg_rsp in
  c ← get_hdr cmd "cmd";
  let c0 := set_next (set_prev (ctx s) c) STORAGE_NVM_LAST_CMD in
  bad ← bad_request c0 req cmd cmdLen rspMsgInfo;
  '(error, resp, c1, lost) ←
    (if (bad : bool) then
       r ← set_data rsp resp "rsp_code" (refused_code rspMsgInfo);
       Some (ELE_INVALID_MESSAGE, r, c0, 0%nat)
     else
       r ← set_data rsp resp "rsp_code" ELE_COMMAND_GENERAL_ERROR;
       if negb (name_ok io) then Some (ELE_MEMORY_FAILURE, r, c0, 0%nat)
       else
         m ← get_data req cmd "blob_id.metadata";
         i ← get_data req cmd "blob_id.id";
         e ← get_data req cmd "blob_id.ext";
         blob ← load_blob io (files s) (chunk_name (nvm_chunk_path c0) e i m);
         match blob with
         | inl (error, lost) => Some (error, r, c0, lost)
         | inr (size, b) =>
             r ← set_data rsp r "rsp_code" ELE_COMMAND_SUCCEED;
             r ← set_data rsp r "chunk_size" size;
             r ← set_data rsp r "chunk_addr" (phys io);
             Some (ELE_NO_ERROR, r, set_last (set_next c0 STORAGE_CHUNK_GET_DONE_REQ) (Some b), 0%nat)
         end);
  Some (error, resp, SIZE_MSG rsp, mkNvmState c1 (files s) (leaked s + lost)).

Definition eleHandleChunkGetDone (cmd : mu_msg) (cmdLen : Z) (resp : mu_msg)
    (rspMsgInfo : Z) (s : nvm_state) : option handled :=
  let req := storage_get_chunk_done_msg_cmd in
  let rsp := storage_get_chunk_done_msg_rsp in
  let c0 := set_next (ctx s) STORAGE_NVM_LAST_CMD in
  bad ← bad_request c0 req cmd cmdLen rspMsgInfo;
  '(error, code) ←
    (if (bad : bool) then Some (ELE_INVALID_MESSAGE, refused_code rspMsgInfo)
     else
       status ← get_data req cmd "status";
       Some (if negb (status =? NVM_CHUNK_GET_CHUNK_SUCCESS)
             then (ELE_INVALID_MESSAGE, ELE_COMMAND_GENERAL_ERROR)
             else (ELE_NO_ERROR, ELE_COMMAND_SUCCEED)));
  r ← set_data rsp resp "rsp_code" code;
  Some (error, r, SIZE_MSG rsp, mkNvmState c0 (files s) (leaked s)).

(** The handle is not checked here. *)
Definition eleHandleChunkDelete (io : nvm_io) (cmd : mu_msg) (cmdLen : Z) (resp : mu_msg)
    (rspMsgInfo : Z) (s : nvm_state) : option handled :=
  let req := storage_chunk_delete_msg_cmd in
  let rsp := storage_chunk_delete_msg_rsp in
  let c0 := set_next (ctx s) STORAGE_NVM_LAST_CMD in
  '(error, code, fs) ←
    (if negb (rspMsgInfo =? ELE_COMMAND_SUCCEED) then Some (ELE_INVALID_MESSAGE, rspMsgInfo, files s)
     else if negb (cmdLen =? SIZE_MSG req) then
       Some (ELE_INVALID_MESSAGE, ELE_COMMAND_GENERAL_ERROR, files s)
     else if negb (name_ok io) then Some (ELE_MEMORY_FAILURE, ELE_COMMAND_GENERAL_ERROR, files s)
     else
       m ← get_data req cmd "blob_id.metadata";
       i ← get_data req cmd "blob_id.id";
       e ← get_data req cmd "blob_id.ext";
       let name := chunk_name (nvm_chunk_path c0) e i m in
       match files s !! name with
       | None => Some (ELE_GENERAL_ERROR, ELE_COMMAND_INVALID_ID, files s)
       | Some _ =>
           if rm_ok io then Some (ELE_NO_ERROR, ELE_COMMAND_SUCCEED, delete name (files s))
           else Some (ELE_GENERAL_ERROR, ELE_COMMAND_GENERAL_ERROR, files s)
       end);
  r ← set_data rsp resp "rsp_code" code;
  Some (error, r, SIZE_MSG rsp, mkNvmState c0 fs (leaked s)).

(** ** The service *)

(** receiveNVMRequest, with receiveMuMsg: the length and the command, or
    failure. *)
Definition receiveNVMRequest (io : nvm_io) : option (option (Z * Z)) :=
  let ret := if rx_ret io <=? 0 then 0 else rx_ret io in
  size ← get_hdr (rx_msg io) "size";
  cmd ← get_hdr (rx_msg io) "cmd";
  if (ret =? 0) || negb (ret =? Z.shiftl size 2) then Some None else Some (Some (Z.shiftl size 2, cmd)).

(** What the handlers are told of the request, and the context then. *)
Definition message_info (c : nvm_context) (cmd : mu_msg) (cmd_len cmd_id : Z)
    : option (Z * nvm_context) :=
  if negb (next_command c =? STORAGE_NVM_LAST_CMD) && negb (cmd_id =? next_command c) then
    Some (ELE_COMMAND_SERVICE_DISABLED, set_next c STORAGE_NVM_LAST_CMD)
  else
    let words := Z.shiftr cmd_len 2 in
    if STORAGE_NB_WORDS_MAX_NO_CRC <? words then
      w ← get_le 4 cmd (4 * Z.to_nat (words - 1));
      crc ← calCRC cmd 0 (Z.to_nat (words - 1));
      Some (if negb (w =? crc) then ELE_COMMAND_WRONG_CRC else ELE_COMMAND_SUCCEED, c)
    else Some (ELE_COMMAND_SUCCEED, c).

Definition dispatch (io : nvm_io) (cmd_id : Z) (cmd : mu_msg) (cmd_len info : Z) (s : nvm_state)
    : option handled :=
  if cmd_id =? STORAGE_MASTER_EXPORT_REQ then eleHandleMasterExportReq io cmd cmd_len zero_msg info s
  else if cmd_id =? STORAGE_EXPORT_FINISH_REQ then eleHandleExportFinish io cmd cmd_len zero_msg info s
  else if cmd_id =? STORAGE_CHUNK_EXPORT_REQ then eleHandleChunkExportReq io cmd cmd_len zero_msg info s
  else if cmd_id =? STORAGE_CHUNK_GET_REQ then eleHandleChunkGetReq io cmd cmd_len zero_msg info s
  else if cmd_id =? STORAGE_CHUNK_GET_DONE_REQ then eleHandleChunkGetDone cmd cmd_len zero_msg info s
  else if cmd_id =? STORAGE_CHUNK_DELETE_REQ then eleHandleChunkDelete io cmd cmd_len zero_msg info s
  else Some (ELE_INVALID_ARGS, zero_msg, 0, s).

(** The memory is freed when no request is expected next. *)
Definition free_last (s : nvm_state) : nvm_state :=
  if next_command (ctx s) =? STORAGE_NVM_LAST_CMD
  then mkNvmState (set_last (ctx s) None) (files s) (leaked s) else s.

(** The error, the state and the response that is sent. *)
Definition eleHandleNVMRequest (io : nvm_io) (rsp_tag : Z) (s : nvm_state)
    : option (ErrorType * nvm_state * option (mu_msg * Z)) :=
  received ← receiveNVMRequest io;
  match received with
  | None => Some (ELE_ERROR_RETRY, free_last s, None)
  | Some (cmd_len, cmd_id) =>
      if (cmd_id <? STORAGE_OPEN_REQ) || (STORAGE_NVM_LAST_CMD <=? cmd_id) then
        Some (ELE_NO_ERROR, free_last s, None)
      else
        '(info, c) ← message_info (ctx s) (rx_msg io) cmd_len cmd_id;
        '(_, resp, resp_len, s) ← dispatch io cmd_id (rx_msg io) cmd_len info
                                    (mkNvmState c (files s) (leaked s));
        if Z.of_nat mu_msg_size <? resp_len then Some (ELE_GENERAL_ERROR, free_last s, None)
        else
          resp ← buildMsgHeader resp cmd_id resp_len rsp_tag;
          resp ← (if STORAGE_NB_WORDS_MAX_NO_CRC <? Z.shiftr resp_len 2 then addCRC resp
                  else Some resp);
          Some (if tx_ok io then ELE_NO_ERROR else ELE_COMMUNICATION_ERROR, free_last s,
                Some (resp, resp_len))
  end.

Section MasterImport.
Context `{EleDev}.

(** Import of the storage master at start; [addr] is the address of the
    buffer. *)
Definition eleNvmMasterImport (io : nvm_io) (fs : gmap string (list Z)) (addr : Z) (c : nvm_context)
    : M ErrorType :=
  match nvm_master_name c with
  | None => mret ELE_NO_ERROR
  | Some name =>
      if negb ((readStorageFile io fs name (Z.of_nat NVM_HEADER_SIZE)).1 =? Z.of_nat NVM_HEADER_SIZE)
      then mret ELE_NO_ERROR
      else
        blob ← lift (load_blob io fs name);
        match blob with
        | inl (error, _) => mret error
        | inr (size, _) =>
            if nvm_handle c =? 0 then mret ELE_GENERAL_ERROR
            else
              p ← retrivePhyAddress (addr + Z.of_nat NVM_HEADER_SIZE) size ELE_MU_IO_FLAGS_IS_INPUT;
              if p =? 0 then mret ELE_GENERAL_ERROR
              else
                '(error, _) ← request STORAGE_MASTER_IMPORT_REQ storage_master_import_msg_cmd
                                storage_master_import_msg_rsp false
                                [("nvm_storage_handle", nvm_handle c); ("master_data_lsb_addr", p);
                                 ("master_data_size", size)];
                mret (if ok error then ELE_NO_ERROR else ELE_GENERAL_ERROR)
        end
  end.

End MasterImport.

(** ** Behaviour over time *)

(** The enclave writes the data of an export behind the header of the buffer. *)
Definition dma (s : nvm_state) (payload : list Z) : nvm_state :=
  mkNvmState (set_last (ctx s) ((fun b => take NVM_HEADER_SIZE b ++ payload) <$> last_data (ctx s)))
    (files s) (leaked s).

Inductive nvm_step : nvm_state -> nvm_state -> Prop :=
  | NvmRequest io tag s e s' r : eleHandleNVMRequest io tag s = Some (e, s', r) -> nvm_step s s'
  | NvmDma s payload : nvm_step s (dma s payload).

Definition nvm_init (h : Z) (master : option string) (path : string) (fs : gmap string (list Z))
    : nvm_state := mkNvmState (mkNvm h STORAGE_NVM_LAST_CMD STORAGE_NVM_LAST_CMD None master path) fs 0.

(** A buffer is held exactly while the second request of a pair is expected. *)
Definition nvm_inv (s : nvm_state) : Prop :=
  next_command (ctx s) = STORAGE_NVM_LAST_CMD <-> last_data (ctx s) = None.

(** ** Lemmas *)

Lemma free_last_inv s :
  (next_command (ctx s) <> STORAGE_NVM_LAST_CMD -> last_data (ctx s) <> None) -> nvm_inv (free_last s).
Proof.
  intros Hs. unfold nvm_inv, free_last.
  destruct (Z.eqb_spec (next_command (ctx s)) STORAGE_NVM_LAST_CMD) as [He|Hne]; cbn [ctx].
  - done.
  - split; [done|]. intros Hn. by destruct (Hs Hne).
Qed.

(** A handler leaves a buffer, or nothing to wait for. *)
Definition settled (r : handled) : Prop :=
  next_command (ctx r.2) <> STORAGE_NVM_LAST_CMD -> last_data (ctx r.2) <> None.

Ltac settle :=
  unfold settled, handled in *;
  repeat first
    [ progress simplify_eq
    | match goal with
      | H : mbind _ _ = Some _ |- _ => apply bind_Some in H as (? & ? & H)
      | H : (if ?b then _ else _) = Some _ |- _ => destruct b
      | H : (let '(_, _) := ?p in _) = Some _ |- _ => destruct p
      | H : match ?p with inl _ => _ | inr _ => _ end = Some _ |- _ => destruct p
      | H : match ?p with (_, _) => _ end = Some _ |- _ => destruct p
      | H : match ?p with Some _ => _ | None => _ end = Some _ |- _ => destruct p
      end ];
  cbn; done.

Lemma dispatch_settled io cmd_id cmd len info s r :
  (next_command (ctx s) <> STORAGE_NVM_LAST_CMD -> last_data (ctx s) <> None) ->
  dispatch io cmd_id cmd len info s = Some r -> settled r.
Proof.
  intros Hs. unfold dispatch.
  repeat match goal with |- context [if ?b then _ else _] => destruct b end.
  - unfold eleHandleMasterExportReq. intros Hr. settle.
  - unfold eleHandleExportFinish. intros Hr. settle.
  - unfold eleHandleChunkExportReq. intros Hr. settle.
  - unfold eleHandleChunkGetReq. intros Hr. settle.
  - unfold eleHandleChunkGetDone. intros Hr. settle.
  - unfold eleHandleChunkDelete. intros Hr. settle.
  - intros [= <-]. exact Hs.
Qed.

Lemma message_info_settled c cmd len id info c' :
  message_info c cmd len id = Some (info, c') ->
  (next_command c <> STORAGE_NVM_LAST_CMD -> last_data c <> None) ->
  next_command c' <> STORAGE_NVM_LAST_CMD -> last_data c' <> None.
Proof.
  unfold message_info. intros Hm Hc.
  destruct (negb _ && negb _); [by simplify_eq|].
  destruct (_ <? _); [|by simplify_eq].
  apply bind_Some in Hm as (w & _ & Hm). apply bind_Some in Hm as (crc & _ & Hm). by simplify_eq.
Qed.

Lemma nvm_step_inv s s' : nvm_step s s' -> nvm_inv s -> nvm_inv s'.
Proof.
  intros [io tag s1 e s2 r Hr|s1 payload] Hinv.
  - assert (next_command (ctx s1) <> STORAGE_NVM_LAST_CMD -> last_data (ctx s1) <> None) as Hs
      by (unfold nvm_inv in Hinv; tauto).
    unfold eleHandleNVMRequest in Hr. apply bind_Some in Hr as (rcv & _ & Hr).
    destruct rcv as [[len id]|]; [|simplify_eq; by apply free_last_inv].
    destruct (_ || _); [simplify_eq; by apply free_last_inv|].
    apply bind_Some in Hr as ([info c] & Hi & Hr). apply bind_Some in Hr as ([[[e' resp] rl] s3] & Hd & Hr).
    apply dispatch_settled in Hd; [|apply (message_info_settled _ _ _ _ _ _ Hi Hs)].
    unfold settled in Hd. cbn [snd] in Hd.
    destruct (_ <? _); [simplify_eq; by apply free_last_inv|].
    apply bind_Some in Hr as (r1 & _ & Hr). apply bind_Some in Hr as (r2 & _ & Hr).
    simplify_eq. by apply free_last_inv.
  - unfold nvm_inv in *. cbn. destruct (last_data (ctx s1)); cbn; [|done].
    split; [intros Hn; by apply Hinv in Hn|done].
Qed.

Lemma nvm_reachable_inv h master path fs s : rtc nvm_step (nvm_init h master path fs) s -> nvm_inv s.
Proof. intros Hr. by apply (rtc_invariant nvm_step nvm_inv nvm_step_inv _ _ Hr). Qed.

(** *** Requests of the enclave *)

(** A well-formed storage request with these members was read. *)
Definition asks (io : nvm_io) (s : layout) (cmd : Z) (writes : list (string * Z)) : Prop :=
  (exists tag, request_wf s cmd tag writes (rx_msg io)) /\ rx_ret io = SIZE_MSG s.

(** The structures of the requests the service knows. *)
Definition storage_request (s : layout) : bool :=
  layout_ok s && (sizeof s mod 4 =? 0)%nat && (4 <=? sizeof s)%nat && (sizeof s <=? 128)%nat.

Lemma asks_received io s cmd writes :
  storage_request s = true -> asks io s cmd writes ->
  receiveNVMRequest io = Some (Some (SIZE_MSG s, cmd)).
Proof.
  unfold storage_request. rewrite !andb_true_iff, Nat.eqb_eq, !Nat.leb_le.
  intros (((_ & Hmod) & H4) & Hsz) [[tag Hwf] Hret].
  destruct (SIZE_MSG_words s Hmod Hsz) as (k & Hk & Hsm & Hn).
  unfold receiveNVMRequest. rewrite (wf_size _ _ _ _ _ Hwf), (wf_cmd _ _ _ _ _ Hwf).
  cbn [mbind option_bind]. rewrite Hret, Z.shiftl_mul_pow2, Hn, Hsm by lia. change (2 ^ 2) with 4.
  destruct (Z.leb_spec (4 * (Z.of_nat k + 1)) 0); [lia|].
  rewrite (proj2 (Z.eqb_neq _ 0)) by lia.
  rewrite (Z.mul_comm (Z.of_nat k + 1) 4), Z.eqb_refl. done.
Qed.

Lemma asks_info io s cmd writes c :
  storage_request s = true -> asks io s cmd writes ->
  next_command c = STORAGE_NVM_LAST_CMD \/ next_command c = cmd ->
  message_info c (rx_msg io) (SIZE_MSG s) cmd = Some (ELE_COMMAND_SUCCEED, c).
Proof.
  unfold storage_request. rewrite !andb_true_iff, Nat.eqb_eq, !Nat.leb_le.
  intros (((_ & Hmod) & H4) & Hsz) [[tag Hwf] _] Hnext. unfold message_info.
  destruct (SIZE_MSG_words s Hmod Hsz) as (k & Hk & Hsm & Hn).
  assert (negb (next_command c =? STORAGE_NVM_LAST_CMD) && negb (cmd =? next_command c) = false) as ->.
  { destruct Hnext as [->| ->]; [done|]. rewrite Z.eqb_refl. apply andb_false_r. }
  rewrite Z.shiftr_div_pow2 by lia. change (2 ^ 2) with 4. rewrite Hn.
  destruct (Z.ltb_spec STORAGE_NB_WORDS_MAX_NO_CRC (Z.of_nat k + 1)) as [Hlt|]; [|done].
  destruct (wf_crc _ _ _ _ _ Hwf) as (n & crc & Hsize & _ & Hcrc & Hw); [by rewrite Hn|].
  rewrite (wf_size _ _ _ _ _ Hwf), Hn in Hsize. simplify_eq. rewrite Hw, Hcrc.
  cbn [mbind option_bind]. by rewrite Z.eqb_refl.
Qed.

(** What a member of the request holds. *)
Lemma asks_get io s cmd writes f v o :
  asks io s cmd writes -> (f, v) ∈ writes -> offset_of s f = Some (o, 4%nat) -> in_u 32 v ->
  get_data s (rx_msg io) f = Some v.
Proof.
  intros [[tag Hwf] _] Hin Ho Hv. destruct (wf_fields _ _ _ _ _ Hwf f v Hin) as (o' & w & Ho' & Hg).
  rewrite Ho in Ho'. simplify_eq. by rewrite wrap_u_id in Hg.
Qed.

(** *** The blob header *)

Lemma set_nvm_spec b f v o :
  bytes_ok b -> offset_of nvm_header f = Some (o, 4%nat) -> (NVM_HEADER_SIZE <= length b)%nat ->
  in_u 32 v ->
  exists b', set_nvm b f v = Some b' /\ set_le 4 b o v = Some b' /\ length b' = length b /\
    bytes_ok b' /\ get_nvm b' f = Some v /\
    (forall g, g <> f -> get_nvm b' g = get_nvm b g) /\ drop NVM_HEADER_SIZE b' = drop NVM_HEADER_SIZE b.
Proof.
  intros Hb Ho Hlen Hv. unfold set_nvm. rewrite Ho. cbn [mbind option_bind].
  pose proof (offset_of_bounds nvm_header f o 4 eq_refl Ho) as Hbnd. change (sizeof nvm_header) with 20%nat in Hbnd.
  change NVM_HEADER_SIZE with 20%nat in *.
  destruct (proj2 (set_le_is_Some 4 b o v)) as [b' Hs]; [lia|]. rewrite Hs.
  exists b'. split_and!; [done|done|by apply (set_le_length _ _ _ _ _ Hs)|by apply (set_le_ok _ _ _ _ _ Hb Hs)| | |].
  - unfold get_nvm. rewrite Ho. cbn [mbind option_bind]. rewrite (get_set_same _ _ _ _ _ Hs).
    f_equal. by apply wrap_u_id.
  - intros g Hg. unfold get_nvm. destruct (offset_of nvm_header g) as [[o' w']|] eqn:Ho'; [|done].
    cbn [mbind option_bind]. apply (get_set_other _ _ _ _ _ _ _ Hs).
    apply (offset_from_disjoint nvm_header 0 f g o 4 o' w'); [apply layout_ok_pos; reflexivity|congruence|done..].
  - apply set_le_split in Hs as [_ ->]. rewrite app_assoc, drop_app_ge by (rewrite length_app, length_take, length_le_encode; lia).
    rewrite drop_drop, length_app, length_take, length_le_encode. f_equal. lia.
Qed.

(** The buffer of an export, in range. *)
Lemma export_buffer_spec io size m i e :
  bytes_ok (heap io) -> 0 < size -> data_len size <= STORAGE_MAX_DATA_SIZE -> size < 2 ^ 32 - 20 ->
  in_u 32 m -> in_u 32 i -> in_u 32 e ->
  exists b, export_buffer io size m i e = Some b /\ bytes_ok b /\
    length b = (NVM_HEADER_SIZE + Z.to_nat size)%nat /\ get_nvm b "size" = Some size /\
    get_nvm b "blob_id.metadata" = Some m /\ get_nvm b "blob_id.id" = Some i /\
    get_nvm b "blob_id.ext" = Some e.
Proof.
  intros Hh Hpos Hmax Hr Hm Hi He. unfold export_buffer.
  assert (data_len size = size + 20) as Hdl.
  { unfold data_len. change NVM_HEADER_SIZE with 20%nat. apply wrap_u_id. unfold in_u. lia. }
  set (b0 := malloc io (data_len size)).
  assert (length b0 = (NVM_HEADER_SIZE + Z.to_nat size)%nat) as L0.
  { unfold b0, malloc. rewrite length_app, length_take, length_replicate, Hdl.
    change NVM_HEADER_SIZE with 20%nat. lia. }
  assert (bytes_ok b0) as B0.
  { unfold b0, malloc. apply Forall_app. split; [by apply Forall_take|by apply Forall_replicate]. }
  assert (in_u 32 size) as Hs by (unfold in_u; lia).
  destruct (set_nvm_spec b0 "size" size 0) as (b1 & -> & _ & L1 & B1 & G1 & O1 & _); [done|done|lia|done|].
  cbn [mbind option_bind].
  destruct (set_nvm_spec b1 "blob_id.metadata" m 8) as (b2 & -> & _ & L2 & B2 & G2 & O2 & _); [done|done|lia|done|].
  cbn [mbind option_bind].
  destruct (set_nvm_spec b2 "blob_id.id" i 12) as (b3 & -> & _ & L3 & B3 & G3 & O3 & _); [done|done|lia|done|].
  cbn [mbind option_bind].
  destruct (set_nvm_spec b3 "blob_id.ext" e 16) as (b4 & -> & _ & L4 & B4 & G4 & O4 & _); [done|done|lia|done|].
  exists b4. split_and!; [done|done|congruence| | | |done].
  - by rewrite O4, O3, O2 by done.
  - by rewrite O4, O3 by done.
  - by rewrite O4 by done.
Qed.

(** Out of range, the size wraps around and the header does not fit. *)
Lemma export_buffer_overflow io size m i e :
  2 ^ 32 - 20 <= size < 2 ^ 32 -> export_buffer io size m i e = None.
Proof.
  intros Hs. destruct (export_buffer io size m i e) as [b|] eqn:Hb; [|done]. exfalso.
  unfold export_buffer in Hb.
  apply bind_Some in Hb as (b1 & E1 & Hb). apply bind_Some in Hb as (b2 & E2 & Hb).
  apply bind_Some in Hb as (b3 & E3 & Hb). unfold set_nvm in *.
  change (offset_of nvm_header "size") with (Some (0, 4)%nat) in E1.
  change (offset_of nvm_header "blob_id.metadata") with (Some (8, 4)%nat) in E2.
  change (offset_of nvm_header "blob_id.id") with (Some (12, 4)%nat) in E3.
  change (offset_of nvm_header "blob_id.ext") with (Some (16, 4)%nat) in Hb.
  cbn [mbind option_bind] in *.
  apply set_le_length in E1, E2, E3. apply mk_is_Some, set_le_is_Some in Hb.
  assert (data_len size = size + 20 - 2 ^ 32) as Hdl.
  { unfold data_len, wrap_u. change NVM_HEADER_SIZE with 20%nat. symmetry.
    apply (Z.mod_unique _ _ 1); lia. }
  unfold malloc in E1. rewrite length_app, length_take, length_replicate, Hdl in E1. lia.
Qed.

(** *** Responses *)

Lemma set_data_spec l r f v o :
  is_msg r -> layout_ok l = true -> (sizeof l <=? 128)%nat = true -> offset_of l f = Some (o, 4%nat) ->
  in_u 32 v ->
  exists r', set_data l r f v = Some r' /\ is_msg r' /\ get_data l r' f = Some v /\
    (forall g, g <> f -> get_data l r' g = get_data l r g).
Proof.
  intros [Hb Hlen] Hok Hsz%Nat.leb_le Ho Hv. unfold set_data. rewrite Ho. cbn [mbind option_bind].
  pose proof (offset_of_bounds l f o 4 Hok Ho) as Hbnd. change (sizeof msg_hdr) with 4%nat.
  destruct (proj2 (set_le_is_Some 4 r (4 + o) v)) as [r' Hs];
    [rewrite Hlen; change mu_msg_size with 132%nat; lia|].
  exists r'. split; [done|]. split.
  { split; [by apply (set_le_ok _ _ _ _ _ Hb Hs)|by rewrite (set_le_length _ _ _ _ _ Hs)]. }
  unfold get_data. rewrite Ho. cbn [mbind option_bind]. change (sizeof msg_hdr) with 4%nat. split.
  - rewrite (get_set_same _ _ _ _ _ Hs). f_equal. by apply wrap_u_id.
  - intros g Hg. destruct (offset_of l g) as [[o' w']|] eqn:Ho'; [|done]. cbn [mbind option_bind].
    apply (get_set_other _ _ _ _ _ _ _ Hs).
    destruct (offset_from_disjoint l 0 f g o 4 o' w' (layout_ok_pos l Hok)) as [|]; [congruence|done..| |]; lia.
Qed.

Lemma zero_msg_msg : is_msg zero_msg.
Proof. split; [by apply Forall_replicate|apply length_replicate]. Qed.

(** One request, given what its handler does. *)
Lemma handle_dispatch io rt s l cmd writes e resp len s' :
  storage_request l = true -> asks io l cmd writes -> STORAGE_OPEN_REQ <= cmd < STORAGE_NVM_LAST_CMD ->
  next_command (ctx s) = STORAGE_NVM_LAST_CMD \/ next_command (ctx s) = cmd ->
  dispatch io cmd (rx_msg io) (SIZE_MSG l) ELE_COMMAND_SUCCEED s = Some (e, resp, len, s') ->
  is_msg resp -> 0 <= len <= 16 ->
  exists err r, eleHandleNVMRequest io rt s = Some (err, free_last s', Some (r, len)) /\
    forall rl f, get_data rl r f = get_data rl resp f.
Proof.
  intros Hl Ha Hcmd Hnext Hd [Hb Hlen] Hl16. unfold eleHandleNVMRequest.
  rewrite (asks_received io l cmd writes Hl Ha). cbn [mbind option_bind].
  rewrite (proj2 (Z.ltb_ge _ _)), (proj2 (Z.leb_gt _ _)) by lia. cbn [orb].
  rewrite (asks_info io l cmd writes (ctx s) Hl Ha Hnext). cbn [mbind option_bind].
  destruct s as [c fs lk]. cbn [ctx files leaked] in *. rewrite Hd. cbn [mbind option_bind].
  destruct (Z.ltb_spec (Z.of_nat mu_msg_size) len) as [Hbig|_];
    [change mu_msg_size with 132%nat in Hbig; lia|].
  destruct (buildMsgHeader_spec resp cmd len rt Hb Hlen) as (r & -> & _ & _ & _ & _ & _ & _ & Hg).
  cbn [mbind option_bind].
  destruct (Z.ltb_spec STORAGE_NB_WORDS_MAX_NO_CRC (Z.shiftr len 2)) as [Hw|_].
  { exfalso. rewrite Z.shiftr_div_pow2 in Hw by lia. change (2 ^ 2) with 4 in Hw.
    unfold STORAGE_NB_WORDS_MAX_NO_CRC in Hw. pose proof (Z.div_le_mono len 16 4). change (16 / 4) with 4 in *. lia. }
  cbn [mbind option_bind]. eexists _, r. split; [done|].
  intros rl f. unfold get_data. destruct (offset_of rl f) as [[o w]|]; [|done]. cbn [mbind option_bind].
  apply Hg. change (sizeof msg_hdr) with 4%nat. lia.
Qed.

Lemma handle_crash io rt s l cmd writes :
  storage_request l = true -> asks io l cmd writes -> STORAGE_OPEN_REQ <= cmd < STORAGE_NVM_LAST_CMD ->
  next_command (ctx s) = STORAGE_NVM_LAST_CMD \/ next_command (ctx s) = cmd ->
  dispatch io cmd (rx_msg io) (SIZE_MSG l) ELE_COMMAND_SUCCEED s = None ->
  eleHandleNVMRequest io rt s = None.
Proof.
  intros Hl Ha Hcmd Hnext Hd. unfold eleHandleNVMRequest.
  rewrite (asks_received io l cmd writes Hl Ha). cbn [mbind option_bind].
  rewrite (proj2 (Z.ltb_ge _ _)), (proj2 (Z.leb_gt _ _)) by lia. cbn [orb].
  rewrite (asks_info io l cmd writes (ctx s) Hl Ha Hnext). cbn [mbind option_bind].
  destruct s as [c fs lk]. cbn [ctx files leaked] in *. by rewrite Hd.
Qed.

(** The shared checks pass for the handle of the context. *)
Lemma bad_request_ok io l cmd writes c h o :
  asks io l cmd writes -> ("nvm_storage_handle", h) ∈ writes ->
  offset_of l "nvm_storage_handle" = Some (o, 4%nat) -> in_u 32 h -> nvm_handle c = h ->
  bad_request c l (rx_msg io) (SIZE_MSG l) ELE_COMMAND_SUCCEED = Some false.
Proof.
  intros Ha Hin Ho Hh Hc. unfold bad_request. rewrite !Z.eqb_refl. cbn [negb].
  rewrite (asks_get _ _ _ _ _ _ _ Ha Hin Ho Hh). cbn [mbind option_bind]. by rewrite Hc, Z.eqb_refl.
Qed.

(** *** The three requests of a chunk's life *)

Definition blob_args (m i e : Z) : list (string * Z) :=
  [("blob_id.metadata", m); ("blob_id.id", i); ("blob_id.ext", e)].

Definition ask_export (io : nvm_io) (h n m i e : Z) : Prop :=
  asks io storage_chunk_exp_msg_cmd STORAGE_CHUNK_EXPORT_REQ
    ([("nvm_storage_handle", h); ("chunk_size", n)] ++ blob_args m i e).

Definition ask_finish (io : nvm_io) (h : Z) : Prop :=
  asks io storage_exp_finish_msg_cmd STORAGE_EXPORT_FINISH_REQ
    [("nvm_storage_handle", h); ("export_status", NVM_EXPORT_STATUS_SUCCESS)].

Definition ask_get (io : nvm_io) (h m i e : Z) : Prop :=
  asks io storage_get_chunk_msg_cmd STORAGE_CHUNK_GET_REQ
    ([("nvm_storage_handle", h)] ++ blob_args m i e).

(** Closes the side conditions about one member of a request. *)
Ltac member := first [apply list_elem_of_here | apply list_elem_of_further; member].

Lemma chunk_export_step io rt s h n m i e :
  ask_export io h n m i e -> nvm_handle (ctx s) = h -> next_command (ctx s) = STORAGE_NVM_LAST_CMD ->
  in_u 32 h -> in_u 32 m -> in_u 32 i -> in_u 32 e -> in_u 32 (phys io) -> bytes_ok (heap io) ->
  buf_ok io = true -> 0 < n -> n + Z.of_nat NVM_HEADER_SIZE <= STORAGE_MAX_DATA_SIZE ->
  exists err r b, eleHandleNVMRequest io rt s = Some (err,
      mkNvmState (mkNvm h STORAGE_CHUNK_EXPORT_REQ STORAGE_EXPORT_FINISH_REQ (Some b)
                    (nvm_master_name (ctx s)) (nvm_chunk_path (ctx s))) (files s) (leaked s),
      Some (r, SIZE_MSG storage_chunk_exp_msg_rsp)) /\
    get_data storage_chunk_exp_msg_rsp r "rsp_code" = Some ELE_COMMAND_SUCCEED /\
    get_data storage_chunk_exp_msg_rsp r "chunk_blob_addr" = Some (phys io) /\
    bytes_ok b /\ length b = (NVM_HEADER_SIZE + Z.to_nat n)%nat /\ get_nvm b "size" = Some n /\
    get_nvm b "blob_id.metadata" = Some m /\ get_nvm b "blob_id.id" = Some i /\
    get_nvm b "blob_id.ext" = Some e.
Proof.
  intros Ha Hh Hnext H32 Hm Hi He Hp Hheap Hbuf Hpos Hmax.
  change (Z.of_nat NVM_HEADER_SIZE) with 20 in Hmax. unfold STORAGE_MAX_DATA_SIZE in Hmax.
  assert (data_len n = n + 20) as Hdl by (unfold data_len; apply wrap_u_id; unfold in_u;
    change (Z.of_nat NVM_HEADER_SIZE) with 20; lia).
  destruct (export_buffer_spec io n m i e) as (b & Hb & Hbspec);
    [done|done|rewrite Hdl; unfold STORAGE_MAX_DATA_SIZE; lia|lia|done..|].
  destruct (set_data_spec storage_chunk_exp_msg_rsp zero_msg "rsp_code" ELE_COMMAND_GENERAL_ERROR 0)
    as (r1 & R1 & M1 & _ & _); [apply zero_msg_msg|done..|].
  destruct (set_data_spec storage_chunk_exp_msg_rsp r1 "chunk_blob_addr" (phys io) 4)
    as (r2 & R2 & M2 & G2 & _); [done..|].
  destruct (set_data_spec storage_chunk_exp_msg_rsp r2 "rsp_code" ELE_COMMAND_SUCCEED 0)
    as (r3 & R3 & M3 & G3 & O3); [done..|].
  destruct (handle_dispatch io rt s storage_chunk_exp_msg_cmd STORAGE_CHUNK_EXPORT_REQ _
    ELE_NO_ERROR r3 (SIZE_MSG storage_chunk_exp_msg_rsp)
    (mkNvmState (set_last (set_next (set_next (set_prev (ctx s) STORAGE_CHUNK_EXPORT_REQ)
       STORAGE_NVM_LAST_CMD) STORAGE_EXPORT_FINISH_REQ) (Some b)) (files s) (leaked s)) eq_refl Ha)
    as (err & r & Hr & Hg); [done|by left| |done|done|].
  - change (dispatch io STORAGE_CHUNK_EXPORT_REQ) with
      (fun cmd len info s => eleHandleChunkExportReq io cmd len zero_msg info s). cbn beta.
    unfold eleHandleChunkExportReq. destruct Ha as [[tag Hwf] Hret].
    rewrite (wf_cmd _ _ _ _ _ Hwf). cbn [mbind option_bind].
    assert (ask_export io h n m i e) as Ha by (split; [by exists tag|done]).
    rewrite (bad_request_ok io _ _ _ _ h 0 Ha) by (done || member). cbn [mbind option_bind].
    rewrite R1. cbn [mbind option_bind].
    rewrite (asks_get io _ _ _ "chunk_size" n 4 Ha) by (done || member || (unfold in_u; lia)).
    cbn [mbind option_bind].
    rewrite (proj2 (Z.eqb_neq n 0)), Hdl, (proj2 (Z.ltb_ge _ _)), Hbuf
      by (unfold STORAGE_MAX_DATA_SIZE; lia). cbn [orb].
    rewrite (asks_get io _ _ _ "blob_id.metadata" m 8 Ha) by (done || member).
    rewrite (asks_get io _ _ _ "blob_id.id" i 12 Ha) by (done || member).
    rewrite (asks_get io _ _ _ "blob_id.ext" e 16 Ha) by (done || member).
    cbn [mbind option_bind]. rewrite Hb. cbn [mbind option_bind]. rewrite R2. cbn [mbind option_bind].
    rewrite R3. done.
  - eexists err, r, b. split; [rewrite Hr, <- Hh; reflexivity|]. rewrite !Hg. split; [done|]. split; [|done].
    by rewrite O3.
Qed.

(** A file that starts with the blob [payload] behind a correct header. *)
Definition stores (fs : gmap string (list Z)) (name : string) (payload : list Z) : Prop :=
  exists b tail c, fs !! name = Some (b ++ tail) /\ bytes_ok b /\
    length b = (NVM_HEADER_SIZE + length payload)%nat /\
    get_nvm b "size" = Some (Z.of_nat (length payload)) /\ get_nvm b "crc" = Some c /\
    calCRC b NVM_HEADER_SIZE (Z.to_nat (Z.shiftr (Z.of_nat (length payload)) 2)) = Some c /\
    drop NVM_HEADER_SIZE b = payload.

Lemma hex_nonempty n v : hex (S n) v <> EmptyString.
Proof. cbn [hex]. by destruct (hex n (v / 16)). Qed.

Lemma chunk_name_nonempty path e i m : chunk_name path e i m <> EmptyString.
Proof.
  unfold chunk_name, NVM_MAX_FILE_NAME_LEN. change (128 - 1)%nat with (S 126).
  destruct path as [|c path]; [|done]. pose proof (hex_nonempty 7 e) as Hne.
  change (EmptyString +:+ hex 8 e +:+ hex 8 i +:+ hex 8 m) with (hex 8 e +:+ hex 8 i +:+ hex 8 m).
  by destruct (hex 8 e).
Qed.

Lemma chunk_finish_step io rt s h b payload m i e master path k :
  ask_finish io h ->
  ctx s = mkNvm h STORAGE_CHUNK_EXPORT_REQ STORAGE_EXPORT_FINISH_REQ (Some b) master path ->
  in_u 32 h -> bytes_ok b -> length b = (NVM_HEADER_SIZE + length payload)%nat ->
  Z.of_nat (length b) <= STORAGE_MAX_DATA_SIZE -> drop NVM_HEADER_SIZE b = payload ->
  get_nvm b "size" = Some (Z.of_nat (length payload)) -> get_nvm b "blob_id.metadata" = Some m ->
  get_nvm b "blob_id.id" = Some i -> get_nvm b "blob_id.ext" = Some e ->
  name_ok io = true -> wr_len io = Some k -> (length b <= k)%nat ->
  exists err fs r, eleHandleNVMRequest io rt s = Some (err,
      mkNvmState (mkNvm h STORAGE_CHUNK_EXPORT_REQ STORAGE_NVM_LAST_CMD None master path) fs (leaked s),
      Some (r, SIZE_MSG storage_exp_finish_msg_rsp)) /\
    get_data storage_exp_finish_msg_rsp r "rsp_code" = Some ELE_COMMAND_SUCCEED /\
    stores fs (chunk_name path e i m) payload /\
    (forall name, name <> chunk_name path e i m -> fs !! name = files s !! name).
Proof.
  intros Ha Hctx Hh Hb Hlen Hmax Hpay Hsize Hm Hi He Hname Hwr Hk.
  change NVM_HEADER_SIZE with 20%nat in *. unfold STORAGE_MAX_DATA_SIZE in Hmax.
  set (n := Z.of_nat (length payload)) in *.
  assert (data_len n = n + 20) as Hdl by (unfold data_len; apply wrap_u_id; unfold in_u;
    change (Z.of_nat NVM_HEADER_SIZE) with 20; unfold n; lia).
  assert (4 * Z.to_nat (Z.shiftr n 2) <= length payload)%nat as Hwords.
  { rewrite Z.shiftr_div_pow2 by lia. change (2 ^ 2) with 4. pose proof (Z.mul_div_le n 4). unfold n in *. lia. }
  destruct (calCRC_from_is_Some b 20 (Z.to_nat (Z.shiftr n 2)) 0) as [c Hc]; [lia|].
  pose proof (calCRC_from_range b 20 _ 0 c Hb ltac:(done) Hc) as Hc32.
  destruct (set_nvm_spec b "crc" c 4) as (b' & Sb & Sl & Lb & Bb & Gb & Ob & Db); [done|done|change NVM_HEADER_SIZE with 20%nat; lia|done|].
  destruct (set_data_spec storage_exp_finish_msg_rsp zero_msg "rsp_code" ELE_COMMAND_SUCCEED 4)
    as (r1 & R1 & M1 & G1 & _); [apply zero_msg_msg|done..|].
  destruct (set_data_spec storage_exp_finish_msg_rsp r1 "nvm_storage_handle" h 0)
    as (r2 & R2 & M2 & _ & O2); [done..|].
  set (name := chunk_name path e i m) in *.
  set (fs := <[name := b' ++ drop (length b) (default [] (files s !! name))]> (files s)).
  destruct (handle_dispatch io rt s storage_exp_finish_msg_cmd STORAGE_EXPORT_FINISH_REQ _
    ELE_NO_ERROR r2 (SIZE_MSG storage_exp_finish_msg_rsp)
    (mkNvmState (set_last (set_next (ctx s) STORAGE_NVM_LAST_CMD) (Some b')) fs (leaked s)) eq_refl Ha)
    as (err & r & Hr & Hg); [done|right; by rewrite Hctx| |done|done|].
  - change (dispatch io STORAGE_EXPORT_FINISH_REQ) with
      (fun cmd len info s => eleHandleExportFinish io cmd len zero_msg info s). cbn beta.
    unfold eleHandleExportFinish. rewrite Hctx. cbn [set_next nvm_handle last_data].
    rewrite (bad_request_ok io _ _ _ _ h 0 Ha) by (done || member). cbn [mbind option_bind].
    rewrite (asks_get io _ _ _ "export_status" NVM_EXPORT_STATUS_SUCCESS 4 Ha) by (done || member).
    cbn [mbind option_bind]. rewrite Z.eqb_refl. cbn [negb]. rewrite Hsize. cbn [mbind option_bind].
    unfold calCRC. change NVM_HEADER_SIZE with 20%nat. rewrite Hc. cbn [mbind option_bind].
    rewrite Sb. cbn [mbind option_bind]. rewrite Hname. cbn [negb set_last].
    unfold export_name. cbn [prev_command nvm_chunk_path nvm_handle set_last set_next].
    rewrite !Ob, Hm, Hi, He by done.
    change (STORAGE_CHUNK_EXPORT_REQ =? STORAGE_MASTER_EXPORT_REQ) with false.
    change (STORAGE_CHUNK_EXPORT_REQ =? STORAGE_CHUNK_EXPORT_REQ) with true. cbn [mbind option_bind].
    fold name. unfold writeStorageFile. rewrite Hdl, (proj2 (Z.eqb_neq (n + 20) 0)), Hwr by (unfold n; lia).
    destruct (String.eqb_spec name EmptyString) as [Hem|_]; [by destruct (chunk_name_nonempty path e i m)|].
    assert (Nat.min k (Z.to_nat (n + 20)) = length b) as -> by (unfold n; lia).
    rewrite (proj2 (Z.eqb_eq (Z.of_nat (length b)) (n + 20))) by (unfold n; lia). cbn [mbind option_bind].
    rewrite (take_ge b') by lia. rewrite R1. cbn [mbind option_bind nvm_handle].
    change (nvm_handle _) with h. by rewrite R2.
  - eexists err, fs, r. split_and!.
    + rewrite Hr. rewrite Hctx. reflexivity.
    + rewrite Hg, O2; done.
    + exists b', (drop (length b) (default [] (files s !! name))), c. change NVM_HEADER_SIZE with 20%nat.
      split_and!; [apply lookup_insert_eq|done|lia|by rewrite Ob|done| |by rewrite <- Hpay].
      unfold calCRC. fold n. rewrite (calCRC_from_before _ _ _ _ _ _ _ _ Sl) by lia. exact Hc.
    + intros nm Hnm. unfold fs. by rewrite lookup_insert_ne.
Qed.

Lemma read_blob io fs name payload :
  stores fs name payload -> buf_ok io = true -> rd_ok io = true ->
  Z.of_nat (length payload) + 20 < 2 ^ 32 ->
  exists b, load_blob io fs name = Some (inr (Z.of_nat (length payload), b)) /\
    drop NVM_HEADER_SIZE b = payload.
Proof.
  intros (b & tail & c & Hf & Hb & Hlen & Hsize & Hcrc & Hcal & Hpay) Hbuf Hrd Hbig.
  unfold load_blob. change NVM_HEADER_SIZE with 20%nat in *. set (n := Z.of_nat (length payload)) in *.
  assert (data_len n = n + 20) as Hdl by (unfold data_len; apply wrap_u_id; unfold in_u;
    change (Z.of_nat NVM_HEADER_SIZE) with 20; unfold n; lia).
  unfold readStorageFile at 1. rewrite Hf, Hrd. change (Z.to_nat (Z.of_nat 20)) with 20%nat.
  change (Z.of_nat 20 =? 0) with false. cbn match.
  rewrite take_app_le, length_take by lia. rewrite Nat.min_l by lia. rewrite Z.eqb_refl. cbn [negb].
  assert (forall f, is_Some (offset_of nvm_header f) -> get_nvm (take 20 b) f = get_nvm b f) as Hget.
  { intros f [[o w] Ho]. unfold get_nvm. rewrite Ho. cbn [mbind option_bind].
    apply (offset_of_bounds nvm_header) in Ho; [|done]. change (sizeof nvm_header) with 20%nat in Ho.
    apply get_le_take; lia. }
  rewrite (Hget "size"), (Hget "crc"), Hsize, Hcrc by (by eexists). cbn [mbind option_bind].
  rewrite Hbuf. cbn [negb]. unfold readStorageFile. rewrite Hf, Hrd, Hdl.
  rewrite (proj2 (Z.eqb_neq (n + 20) 0)) by (unfold n; lia).
  assert (take (Z.to_nat (n + 20)) (b ++ tail) = b) as ->
    by (rewrite take_app_le, take_ge by (unfold n; lia); done).
  rewrite (proj2 (Z.eqb_eq (Z.of_nat (length b)) (n + 20))) by (unfold n; lia). cbn [negb].
  rewrite Hcal. cbn [mbind option_bind]. rewrite Z.eqb_refl. cbn [negb]. by exists b.
Qed.

Lemma chunk_get_step io rt s h payload m i e :
  ask_get io h m i e -> nvm_handle (ctx s) = h -> next_command (ctx s) = STORAGE_NVM_LAST_CMD ->
  in_u 32 h -> in_u 32 m -> in_u 32 i -> in_u 32 e -> in_u 32 (phys io) ->
  name_ok io = true -> buf_ok io = true -> rd_ok io = true ->
  Z.of_nat (length payload) + 20 < 2 ^ 32 ->
  stores (files s) (chunk_name (nvm_chunk_path (ctx s)) e i m) payload ->
  exists err r b, eleHandleNVMRequest io rt s = Some (err,
      mkNvmState (mkNvm h STORAGE_CHUNK_GET_REQ STORAGE_CHUNK_GET_DONE_REQ (Some b)
                    (nvm_master_name (ctx s)) (nvm_chunk_path (ctx s))) (files s) (leaked s),
      Some (r, SIZE_MSG storage_get_chunk_msg_rsp)) /\
    get_data storage_get_chunk_msg_rsp r "rsp_code" = Some ELE_COMMAND_SUCCEED /\
    get_data storage_get_chunk_msg_rsp r "chunk_size" = Some (Z.of_nat (length payload)) /\
    get_data storage_get_chunk_msg_rsp r "chunk_addr" = Some (phys io) /\
    drop NVM_HEADER_SIZE b = payload.
Proof.
  intros Ha Hh Hnext H32 Hm Hi He Hp Hname Hbuf Hrd Hbig Hst.
  destruct (read_blob io (files s) _ payload Hst Hbuf Hrd Hbig) as (b & Hload & Hpay).
  destruct (set_data_spec storage_get_chunk_msg_rsp zero_msg "rsp_code" ELE_COMMAND_GENERAL_ERROR 8)
    as (r0 & R0 & M0 & _ & _); [apply zero_msg_msg|done..|].
  destruct (set_data_spec storage_get_chunk_msg_rsp r0 "rsp_code" ELE_COMMAND_SUCCEED 8)
    as (r1 & R1 & M1 & G1 & _); [done..|].
  destruct (set_data_spec storage_get_chunk_msg_rsp r1 "chunk_size" (Z.of_nat (length payload)) 0)
    as (r2 & R2 & M2 & G2 & O2); [done..|unfold in_u; lia|].
  destruct (set_data_spec storage_get_chunk_msg_rsp r2 "chunk_addr" (phys io) 4)
    as (r3 & R3 & M3 & G3 & O3); [done..|].
  destruct (handle_dispatch io rt s storage_get_chunk_msg_cmd STORAGE_CHUNK_GET_REQ _
    ELE_NO_ERROR r3 (SIZE_MSG storage_get_chunk_msg_rsp)
    (mkNvmState (set_last (set_next (set_next (set_prev (ctx s) STORAGE_CHUNK_GET_REQ)
       STORAGE_NVM_LAST_CMD) STORAGE_CHUNK_GET_DONE_REQ) (Some b)) (files s) (leaked s + 0)) eq_refl Ha)
    as (err & r & Hr & Hg); [done|by left| |done|done|].
  - change (dispatch io STORAGE_CHUNK_GET_REQ) with
      (fun cmd len info s => eleHandleChunkGetReq io cmd len zero_msg info s). cbn beta.
    unfold eleHandleChunkGetReq. destruct Ha as [[tag Hwf] Hret].
    rewrite (wf_cmd _ _ _ _ _ Hwf). cbn [mbind option_bind].
    assert (ask_get io h m i e) as Ha by (split; [by exists tag|done]).
    rewrite (bad_request_ok io _ _ _ _ h 0 Ha) by (done || member). cbn [mbind option_bind].
    rewrite R0. cbn [mbind option_bind]. rewrite Hname. cbn [negb].
    rewrite (asks_get io _ _ _ "blob_id.metadata" m 4 Ha) by (done || member).
    rewrite (asks_get io _ _ _ "blob_id.id" i 8 Ha) by (done || member).
    rewrite (asks_get io _ _ _ "blob_id.ext" e 12 Ha) by (done || member).
    cbn [mbind option_bind]. change (nvm_chunk_path (set_next _ _)) with (nvm_chunk_path (ctx s)).
    rewrite Hload. cbn [mbind option_bind]. rewrite R1. cbn [mbind option_bind]. rewrite R2.
    cbn [mbind option_bind]. rewrite R3. done.
  - eexists err, r, b. rewrite Nat.add_0_r in Hr. split; [rewrite Hr, <- Hh; reflexivity|].
    rewrite !Hg. split_and!; [rewrite O3, O2; done|by rewrite O3|done|done].
Qed.

(** ** Theorems *)

(** C13: A chunk survives storage.  From a state in which no request is
    pending: the enclave asks to export a chunk of any admissible size, writes
    the data to the buffer it is given, and finishes the export; if the write
    succeeds, the same chunk asked for again, in any later state with those
    files, comes back with its size and exactly its data.  No other file
    changes, and the buffer of the export is freed. *)
Theorem nvm_chunk_roundtrip s rt h m i e payload io1 io2 io3 k :
  let n := Z.of_nat (length payload) in
  nvm_handle (ctx s) = h -> next_command (ctx s) = STORAGE_NVM_LAST_CMD ->
  in_u 32 h -> in_u 32 m -> in_u 32 i -> in_u 32 e -> bytes_ok payload ->
  0 < n -> n + Z.of_nat NVM_HEADER_SIZE <= STORAGE_MAX_DATA_SIZE ->
  ask_export io1 h n m i e -> buf_ok io1 = true -> in_u 32 (phys io1) -> bytes_ok (heap io1) ->
  ask_finish io2 h -> name_ok io2 = true -> wr_len io2 = Some k ->
  n + Z.of_nat NVM_HEADER_SIZE <= Z.of_nat k ->
  ask_get io3 h m i e -> name_ok io3 = true -> buf_ok io3 = true -> rd_ok io3 = true ->
  in_u 32 (phys io3) ->
  exists e1 s1 r1 e2 s2 r2,
    eleHandleNVMRequest io1 rt s = Some (e1, s1, Some r1) /\
    eleHandleNVMRequest io2 rt (dma s1 payload) = Some (e2, s2, Some r2) /\
    last_data (ctx s2) = None /\ leaked s2 = leaked s /\
    (forall name, name <> chunk_name (nvm_chunk_path (ctx s)) e i m -> files s2 !! name = files s !! name) /\
    forall s3, files s3 = files s2 -> ctx s3 = ctx s2 ->
      exists e3 s4 r3 l3 b, eleHandleNVMRequest io3 rt s3 = Some (e3, s4, Some (r3, l3)) /\
        get_data storage_get_chunk_msg_rsp r3 "rsp_code" = Some ELE_COMMAND_SUCCEED /\
        get_data storage_get_chunk_msg_rsp r3 "chunk_size" = Some n /\
        last_data (ctx s4) = Some b /\ drop NVM_HEADER_SIZE b = payload.
Proof.
  intros n Hh Hnext H32 Hm Hi He Hpb Hpos Hmax A1 B1 P1 K1 A2 N2 W2 Hk A3 N3 B3 D3 P3.
  destruct (chunk_export_step io1 rt s h n m i e) as (e1 & r1 & b & E1 & _ & _ & Hb & Lb & Sb & Mb & Ib & Eb);
    [done..|].
  set (s1 := mkNvmState _ _ _) in E1.
  assert (Z.to_nat n = length payload) as Hn by (unfold n; lia).
  set (b1 := take NVM_HEADER_SIZE b ++ payload).
  assert (length (take NVM_HEADER_SIZE b) = NVM_HEADER_SIZE) as Ht by (rewrite length_take; lia).
  assert (forall f, is_Some (offset_of nvm_header f) -> get_nvm b1 f = get_nvm b f) as Hget.
  { intros f [[o w] Ho]. unfold get_nvm. rewrite Ho. cbn [mbind option_bind].
    apply (offset_of_bounds nvm_header) in Ho; [|done]. change (sizeof nvm_header) with NVM_HEADER_SIZE in Ho.
    unfold b1. rewrite get_le_app by lia. apply get_le_take; lia. }
  destruct (chunk_finish_step io2 rt (dma s1 payload) h b1 payload m i e (nvm_master_name (ctx s))
    (nvm_chunk_path (ctx s)) k) as (e2 & fs & r2 & E2 & _ & Hst & Hoth).
  1-3: done.
  1: { apply Forall_app. split; [by apply Forall_take|done]. }
  1: { unfold b1. rewrite length_app, Ht. done. }
  1: { unfold b1. rewrite length_app, Ht. fold n in Hmax |- *. lia. }
  1: { unfold b1. by rewrite drop_app_length'. }
  1-4: rewrite Hget by (by eexists); done.
  1-2: done.
  1: { unfold b1. rewrite length_app, Ht. unfold n in Hk. lia. }
  eexists e1, s1, _, e2, _, _. split_and!; [exact E1|exact E2|done|done|exact Hoth|].
  intros s3 Hf Hc. cbn [files ctx] in Hf, Hc.
  destruct (chunk_get_step io3 rt s3 h payload m i e) as (e3 & r3 & b3 & E3 & G1 & G2 & _ & Hpay);
    rewrite ?Hc, ?Hf; try done.
  { change (Z.of_nat NVM_HEADER_SIZE) with 20 in Hmax. unfold STORAGE_MAX_DATA_SIZE in Hmax. fold n. lia. }
  eexists e3, _, r3, _, b3. rewrite E3. done.
Qed.

(** In every reachable state in which no second request is awaited, an
    "export finish" of the enclave with the right handle and a success status
    makes the service dereference a null pointer: nothing checks that an export
    preceded it. *)
Lemma nvm_finish_without_export h master path fs s io rt :
  rtc nvm_step (nvm_init h master path fs) s -> next_command (ctx s) = STORAGE_NVM_LAST_CMD ->
  in_u 32 (nvm_handle (ctx s)) -> ask_finish io (nvm_handle (ctx s)) ->
  eleHandleNVMRequest io rt s = None.
Proof.
  intros Hr Hnext H32 Ha. apply nvm_reachable_inv in Hr. apply Hr in Hnext as Hnull.
  apply (handle_crash io rt s storage_exp_finish_msg_cmd STORAGE_EXPORT_FINISH_REQ _ eq_refl Ha);
    [done|by left|].
  change (dispatch io STORAGE_EXPORT_FINISH_REQ) with
    (fun cmd len info s => eleHandleExportFinish io cmd len zero_msg info s). cbn beta.
  unfold eleHandleExportFinish.
  rewrite (bad_request_ok io _ _ _ _ (nvm_handle (ctx s)) 0 Ha) by (done || member).
  cbn [mbind option_bind].
  rewrite (asks_get io _ _ _ "export_status" NVM_EXPORT_STATUS_SUCCESS 4 Ha) by (done || member).
  cbn [mbind option_bind]. rewrite Z.eqb_refl. cbn [negb]. cbn [set_next last_data]. by rewrite Hnull.
Qed.

(** The size check of an export is made after an addition that wraps
    around: a chunk size within 20 of 2^32 passes it, the buffer allocated is
    smaller than the blob header, and the header is written outside it. *)
Lemma nvm_export_size_overflow s io rt h n m i e :
  nvm_handle (ctx s) = h -> next_command (ctx s) = STORAGE_NVM_LAST_CMD ->
  in_u 32 h -> in_u 32 m -> in_u 32 i -> in_u 32 e -> 2 ^ 32 - 20 <= n < 2 ^ 32 ->
  ask_export io h n m i e -> buf_ok io = true ->
  eleHandleNVMRequest io rt s = None.
Proof.
  intros Hh Hnext H32 Hm Hi He Hn Ha Hbuf.
  apply (handle_crash io rt s storage_chunk_exp_msg_cmd STORAGE_CHUNK_EXPORT_REQ _ eq_refl Ha);
    [done|by left|].
  change (dispatch io STORAGE_CHUNK_EXPORT_REQ) with
    (fun cmd len info s => eleHandleChunkExportReq io cmd len zero_msg info s). cbn beta.
  unfold eleHandleChunkExportReq. destruct Ha as [[tag Hwf] Hret].
  rewrite (wf_cmd _ _ _ _ _ Hwf). cbn [mbind option_bind].
  assert (ask_export io h n m i e) as Ha by (split; [by exists tag|done]).
  rewrite (bad_request_ok io _ _ _ _ h 0 Ha) by (done || member). cbn [mbind option_bind].
  destruct (set_data_spec storage_chunk_exp_msg_rsp zero_msg "rsp_code" ELE_COMMAND_GENERAL_ERROR 0)
    as (r1 & -> & _); [apply zero_msg_msg|done..|]. cbn [mbind option_bind].
  rewrite (asks_get io _ _ _ "chunk_size" n 4 Ha) by (done || member || (unfold in_u; lia)).
  cbn [mbind option_bind].
  assert (data_len n = n + 20 - 2 ^ 32) as Hdl.
  { unfold data_len, wrap_u. change (Z.of_nat NVM_HEADER_SIZE) with 20. symmetry.
    apply (Z.mod_unique _ _ 1); lia. }
  rewrite (proj2 (Z.eqb_neq n 0)), Hdl, (proj2 (Z.ltb_ge _ _)), Hbuf
    by (unfold STORAGE_MAX_DATA_SIZE; lia). cbn [orb].
  rewrite (asks_get io _ _ _ "blob_id.metadata" m 8 Ha) by (done || member).
  rewrite (asks_get io _ _ _ "blob_id.id" i 12 Ha) by (done || member).
  rewrite (asks_get io _ _ _ "blob_id.ext" e 16 Ha) by (done || member).
  cbn [mbind option_bind]. by rewrite export_buffer_overflow.
Qed.

(** ** Witnesses *)

Definition demo_io (s : layout) (crc : bool) (cmd : Z) (writes : list (string * Z)) : nvm_io :=
  mkIo (SIZE_MSG s) (default zero_msg (request_msg s crc cmd 0x17 writes)) true true [] 0x9000 true
    (Some 64%nat) true true.

Lemma demo_asks s crc cmd writes :
  req_ok s crc = true -> in_u 8 cmd -> NoDup writes.*1 ->
  forallb (fun f => bool_decide (f ∈ members s)) writes.*1 = true ->
  asks (demo_io s crc cmd writes) s cmd writes.
Proof.
  intros Hs Hc Hnd Hin. rewrite forallb_forall in Hin.
  destruct (request_msg_spec s crc cmd 0x17 writes) as (m & Hm & Hwf); try done.
  { intros f Hf. specialize (Hin f). rewrite bool_decide_eq_true in Hin. by apply Hin, list_elem_of_In. }
  split; [|done]. exists 0x17. cbn [rx_msg demo_io]. by rewrite Hm.
Qed.

Definition demo_nvm : nvm_state := nvm_init 7 None "/data/" ∅.
Definition demo_export (n : Z) : nvm_io :=
  demo_io storage_chunk_exp_msg_cmd true STORAGE_CHUNK_EXPORT_REQ
    ([("nvm_storage_handle", 7); ("chunk_size", n)] ++ blob_args 1 2 3).
Definition demo_finish : nvm_io :=
  demo_io storage_exp_finish_msg_cmd false STORAGE_EXPORT_FINISH_REQ
    [("nvm_storage_handle", 7); ("export_status", NVM_EXPORT_STATUS_SUCCESS)].
Definition demo_get : nvm_io :=
  demo_io storage_get_chunk_msg_cmd true STORAGE_CHUNK_GET_REQ
    ([("nvm_storage_handle", 7)] ++ blob_args 1 2 3).

Ltac demo_request :=
  unfold ask_export, ask_finish, ask_get, demo_export, demo_finish, demo_get; apply demo_asks;
  [vm_compute; reflexivity
  |split; [vm_compute; discriminate|vm_compute; reflexivity]
  |apply (bool_decide_unpack _); vm_compute; exact I
  |vm_compute; reflexivity].

Lemma demo_export_asks n : ask_export (demo_export n) 7 n 1 2 3.
Proof. demo_request. Qed.
Lemma demo_finish_asks : ask_finish demo_finish 7.
Proof. demo_request. Qed.
Lemma demo_get_asks : ask_get demo_get 7 1 2 3.
Proof. demo_request. Qed.

Lemma nvm_chunk_roundtrip_witness :
  exists e1 s1 r1 e2 s2 r2,
    eleHandleNVMRequest (demo_export 6) 0xe1 demo_nvm = Some (e1, s1, Some r1) /\
    eleHandleNVMRequest demo_finish 0xe1 (dma s1 [10; 20; 30; 40; 50; 60]) = Some (e2, s2, Some r2) /\
    exists e3 s4 r3 l3 b, eleHandleNVMRequest demo_get 0xe1 s2 = Some (e3, s4, Some (r3, l3)) /\
      last_data (ctx s4) = Some b /\ drop NVM_HEADER_SIZE b = [10; 20; 30; 40; 50; 60].
Proof.
  assert (forall v, 0 <= v < 16 -> in_u 32 v) as Hv by (unfold in_u; lia).
  destruct (nvm_chunk_roundtrip demo_nvm 0xe1 7 1 2 3 [10; 20; 30; 40; 50; 60] (demo_export 6)
    demo_finish demo_get 64 eq_refl eq_refl)
    as (e1 & s1 & r1 & e2 & s2 & r2 & H1 & H2 & _ & _ & _ & H3);
    [apply Hv; lia|apply Hv; lia|apply Hv; lia|apply Hv; lia|repeat constructor; lia|reflexivity|vm_compute; discriminate|apply demo_export_asks
    |reflexivity|split; [vm_compute; discriminate|reflexivity]|constructor|apply demo_finish_asks
    |reflexivity|reflexivity|vm_compute; discriminate|apply demo_get_asks|reflexivity|reflexivity
    |reflexivity|split; [vm_compute; discriminate|reflexivity]|].
  destruct (H3 s2 eq_refl eq_refl) as (e3 & s4 & r3 & l3 & b & E3 & _ & _ & Hl & Hd).
  exists e1, s1, r1, e2, s2, r2. split; [exact H1|]. split; [exact H2|].
  exists e3, s4, r3, l3, b. auto.
Defined.
