(* ===== verification/NvmDaemon.v ===== *)
(** * secure-enclave/nvmd/nvmd.cpp: the storage daemon of the enclave

    The daemon opens the device, a session and the storage service, imports the
    storage master, turns the channel into the storage channel and answers
    requests until a signal ends it; then it closes what it opened.  The
    requests it answers before the signal are a list of [nvm_io].  The context
    is a local variable, so the storage handle is indeterminate ([junk]) until
    the service is opened. *)

From S2P Require Import Prelude EleMsg EleOps EleNvm.

Definition GENERAL_FAILURE : Z := -1.
Definition GENERAL_SUCCESS : Z := 0.

Definition ele_nvmd_path : string := "/data/vendor/ele/".
Definition ele_nvm_master_name : string := "/data/vendor/ele/master".

(** The loop: as many requests as come before [daemon_done] is set. *)
Fixpoint nvm_loop (rsp : Z) (ios : list nvm_io) (s : nvm_state) : option nvm_state :=
  match ios with
  | [] => Some s
  | io :: r => '(_, s', _) ← eleHandleNVMRequest io rsp s; nvm_loop rsp r s'
  end.

Definition daemon_init (h : Z) (fs : gmap string (list Z)) : nvm_state :=
  nvm_init h (Some ele_nvm_master_name) ele_nvmd_path fs.

Section Daemon.
Context `{EleDev}.

(** The body of [do { ... } while (false)]: the result, the handle in the
    context and the files. *)
Definition nvm_session (junk : Z) (io : nvm_io) (addr : Z) (ios : list nvm_io)
    (fs : gmap string (list Z)) : M (Z * Z * gmap string (list Z)) :=
  '(_, h) ← eleOpenStorage;
  match h with
  | None => mret (GENERAL_FAILURE, junk, fs)
  | Some h =>
      error ← eleNvmMasterImport io fs addr (ctx (daemon_init h fs));
      if negb (ok error) then mret (GENERAL_FAILURE, h, fs)
      else
        error ← setChannelAsNVM;
        if negb (ok error) then mret (GENERAL_FAILURE, h, fs)
        else
          rsp ← gets (fun s => rsp_tag (mu_info s));
          s ← lift (nvm_loop rsp ios (daemon_init h fs));
          mret (GENERAL_SUCCESS, h, files s)
  end.

(** The destructor of the client closes the device on every return. *)
Definition nvm_manager (junk : Z) (io : nvm_io) (addr : Z) (ios : list nvm_io)
    (fs : gmap string (list Z)) : M (Z * gmap string (list Z)) :=
  error ← eleOpenDeviceNode;
  if negb (ok error) then _ ← eleCloseDeviceNode; mret (GENERAL_FAILURE, fs)
  else
    error ← eleOpenSession;
    if negb (ok error) then _ ← eleCloseDeviceNode; mret (GENERAL_FAILURE, fs)
    else
      '(ret, h, fs) ← nvm_session junk io addr ios fs;
      _ ← (if negb (h =? 0) then eleCloseStorage h else mret ELE_NO_ERROR);
      _ ← eleCloseSession;
      _ ← eleCloseDeviceNode;
      mret (ret, fs).

(** ** Lemmas *)

Context `{!EleDevLaws}.

Lemma safe_master_import io fs addr c :
  (forall name, nvm_master_name c = Some name -> is_Some (load_blob io fs name)) ->
  safe (eleNvmMasterImport io fs addr c) (fun _ => True).
Proof.
  intros Hb. unfold eleNvmMasterImport. destruct (nvm_master_name c) as [name|]; [|by apply safe_ret].
  destruct (negb _); [by apply safe_ret|]. destruct (Hb name eq_refl) as [r Hr].
  eapply safe_bind; [apply (safe_lift _ (fun _ => True)); eauto|].
  intros [[e k]|[size b]] _; [by apply safe_ret|].
  destruct (nvm_handle c =? 0); [by apply safe_ret|].
  eapply safe_bind; [apply safe_phys|]. intros p _. destruct (p =? 0); [by apply safe_ret|].
  eapply safe_bind; [apply safe_request; [reflexivity|reflexivity|vm_compute; split; [discriminate|reflexivity]]|]. intros [e m] _.
  by apply safe_ret.
Qed.

(** The operations of the daemon as operations of [run]. *)
Lemma safe_open_storage : safe eleOpenStorage (fun _ => True).
Proof.
  unfold eleOpenStorage. eapply safe_bind; [by apply (safe_gets _ (fun _ => True))|]. intros h _.
  destruct (h =? 0); [by apply safe_ret|]. apply safe_open_request;
    [reflexivity|reflexivity|vm_compute; split; [discriminate|reflexivity]|reflexivity|reflexivity|by eexists].
Qed.

(** What the daemon answers: a failure leaves the files alone, a success has
    answered all requests before the signal. *)
Definition served (ios : list nvm_io) (fs : gmap string (list Z)) (r : Z) (fs' : gmap string (list Z))
    : Prop :=
  r = GENERAL_FAILURE /\ fs' = fs \/
  r = GENERAL_SUCCESS /\ exists h rsp s, nvm_loop rsp ios (daemon_init h fs) = Some s /\ fs' = files s.

Lemma safe_session junk io addr ios fs :
  is_Some (load_blob io fs ele_nvm_master_name) ->
  (forall h rsp, is_Some (nvm_loop rsp ios (daemon_init h fs))) ->
  safe (nvm_session junk io addr ios fs) (fun r => served ios fs r.1.1 r.2).
Proof.
  intros Hb Hloop. unfold nvm_session. eapply safe_bind; [apply safe_open_storage|].
  intros [e [h|]] _; [|apply safe_ret; by left].
  eapply safe_bind; [apply safe_master_import; by intros ? [= <-]|]. intros e1 _.
  destruct (negb (ok e1)); [apply safe_ret; by left|].
  eapply safe_bind; [apply (safe_run OpSetChannelAsNVM)|]. intros e2 _.
  destruct (negb (ok e2)); [apply safe_ret; by left|]. 
  eapply safe_bind; [by apply (safe_gets _ (fun _ => True))|]. intros rsp _.
  destruct (Hloop h rsp) as [s Hs].
  eapply safe_bind; [apply (safe_lift _ (fun y => y = s)); eauto|]. intros ? ->.
  apply safe_ret. right. cbn. eauto 10.
Qed.

(** When the storage cannot be opened the handle stays what memory held, and
    the cleanup closes that. *)
Lemma session_junk junk io addr ios fs s e s' :
  eleOpenStorage s = Some ((e, None), s') ->
  nvm_session junk io addr ios fs s = Some ((GENERAL_FAILURE, junk, fs), s').
Proof. unfold nvm_session, mbind, M_bind. by intros ->. Qed.

(** A computation that keeps the invariant and ends with the device closed, and is
    only undefined when the device answers too long. *)
Definition closes {A} (c : M A) (P : A -> Prop) : Prop :=
  forall s, ele_inv s -> (exists x s', c s = Some (x, s') /\ ele_inv s' /\ fd s' = -1 /\ P x) \/ (c s = None /\ answers_too_long).

Lemma closes_bind {A B} (c : M A) (f : A -> M B) P Q :
  safe c P -> (forall x, P x -> closes (f x) Q) -> closes (mbind f c) Q.
Proof.
  intros Hc Hf s Hs. unfold mbind, M_bind.
  destruct (Hc s Hs) as [(x & s' & -> & Hs' & Hx)|[-> ?]]; [|by right]. by apply Hf.
Qed.

Lemma closes_close {A} (x : A) (P : A -> Prop) : P x -> closes (_ ← eleCloseDeviceNode; mret x) P.
Proof.
  intros Hx s Hs. destruct (safe_run OpCloseDeviceNode s Hs) as [(e & s' & He & Hs' & _)|[He ?]];
    unfold mbind, M_bind; cbn [run] in He; rewrite He; [left|by right].
  exists x, s'. split_and!; [done..| |done].
  revert He. unfold eleCloseDeviceNode, mbind, M_bind, gets, call, set_fd, mret, M_ret.
  destruct (Z.eqb_spec (fd s) (-1)) as [E|E]; cbn [negb]; intros Hc; by simplify_eq/=.
Qed.

Lemma closes_manager junk io addr ios fs :
  is_Some (load_blob io fs ele_nvm_master_name) ->
  (forall h rsp, is_Some (nvm_loop rsp ios (daemon_init h fs))) ->
  closes (nvm_manager junk io addr ios fs) (fun r => served ios fs r.1 r.2).
Proof.
  intros Hb Hloop. unfold nvm_manager.
  eapply closes_bind; [apply safe_open_device|]. intros e _.
  destruct (negb (ok e)); [apply closes_close; by left|].
  eapply closes_bind; [apply (safe_run OpOpenSession)|]. intros e1 _.
  destruct (negb (ok e1)); [apply closes_close; by left|].
  eapply closes_bind; [by apply safe_session|]. intros [[r h] fs'] Hr.
  eapply closes_bind with (P := fun _ => True).
  { destruct (negb (h =? 0)); [apply (safe_run (OpCloseStorage h))|by apply safe_ret]. }
  intros _ _. eapply closes_bind; [apply (safe_run OpCloseSession)|]. intros _ _.
  by apply closes_close.
Qed.

(** ** Theorems *)

(** The daemon returns with the device closed, provided the enclave's answers have
    no more words than a message, the stored master does not make it read outside
    its buffer and no request it serves crashes it; every message it sent was
    well-formed; and it reports failure with the files untouched, or success after
    it answered every request that came before the signal. *)
Lemma daemon_exit_clean junk_info junk io addr ios fs :
  in_u 8 (cmd_tag junk_info) -> in_u 8 (rsp_tag junk_info) ->
  is_Some (load_blob io fs ele_nvm_master_name) ->
  (forall h rsp, is_Some (nvm_loop rsp ios (daemon_init h fs))) ->
  (exists r fs' s', nvm_manager junk io addr ios fs (ele_new junk_info MU_CHANNEL_PLAT_HSM_NVM) =
      Some ((r, fs'), s') /\
    fd s' = -1 /\ Forall wf_call (calls s') /\ served ios fs r fs') \/ answers_too_long.
Proof.
  intros H1 H2 Hb Hloop.
  destruct (closes_manager junk io addr ios fs Hb Hloop (ele_new junk_info MU_CHANNEL_PLAT_HSM_NVM))
    as [([r fs'] & s' & He & (_ & _ & Hc) & Hfd & Hr)|[_ ?]]; [split_and!; [done..|constructor]| |by right].
  left. by exists r, fs', s'.
Qed.

End Daemon.

(** ** Witnesses *)

(** A daemon without a stored master that is sent one malformed message. *)
Definition idle_io : nvm_io := mkIo 0 zero_msg true true [] 0x9000 true (Some 64%nat) true true.

Lemma idle_loop h rsp fs : nvm_loop rsp [idle_io] (daemon_init h fs) = Some (daemon_init h fs).
Proof. reflexivity. Qed.
