(* ===== verification/Edid.v ===== *)
(** * libedid/Edid.{h,cpp}: the display's EDID and its HDR metadata

    The constructor asks the DRM driver for the EDID blob of a connector, checks
    its checksum, looks for the first CEA extension block and walks the data
    blocks in it for the HDR static metadata.  A pointer into the blob is an
    offset; reading outside the blob is undefined behaviour, [None].  The answers
    of libdrm are the record [Drm]; the EOTF codes of drm_mode.h and the HDR
    codes of the graphics HAL are the class [HdrAbi]. *)

From S2P Require Import Prelude.

(** ** Constants and data *)

Definition EDID_LENGTH : Z := 128.
Definition CEA_EXTENSION : Z := 0x02.
Definition DATA_BLOCK_EXTENDED_TAG : Z := 0x07.
Definition HDR_STATIC_METADATA_BLOCK : Z := 0x06.
Definition SDR_DEFAULT_LUMINANCE : Z := 100.
Definition EXTENSION_NUM : Z := 0x7e.
Definition LEN_MASK : Z := 0x1f.
Definition TAG_SHIFT : Z := 5.

Class HdrAbi := { SMPTE_ST2084 : Z; BT_2100_HLG : Z; HAL_HDR_HDR10 : Z; HAL_HDR_HLG : Z }.

Record HdrMetaData := mkHdr {
  eotf : Z; max_cll : spec_float; max_fall : spec_float; min_cll : spec_float
}.

Record Edid := mkEdid {
  mIsHdrSupported : bool; mHdrMetaData : HdrMetaData; mIsValid : bool; mRawData : list Z
}.

(** What libdrm answers: the properties of the connector with their values
    ([None] for a null pointer, also for the property at one index), and the
    blob behind an id. *)
Record Drm := mkDrm {
  drm_properties : option (list (option string * Z));
  drm_blob : Z -> option (list Z)
}.

(** ** Operations *)

Definition byte_float (b : Z) : spec_float := Binary32.of_Z b.

(** [n] bytes from [p] on, added in an unsigned char. *)
Fixpoint sum_bytes (m : list Z) (p : Z) (n : nat) (sum : Z) : option Z :=
  match n with
  | O => Some sum
  | S n => b ← arr_get m p; sum_bytes m (p + 1) n (wrap_u 8 (sum + b))
  end.

Definition isEdidValid (m : list Z) (edid : option Z) : option bool :=
  match edid with
  | None => Some false
  | Some p =>
      check ← arr_get m (p + (EDID_LENGTH - 1));
      sum ← sum_bytes m p (Z.to_nat (EDID_LENGTH - 1)) 0;
      Some (wrap_u 8 (check + sum) =? 0)
  end.

(** The search from block [i] on, [n] blocks to go. *)
Fixpoint find_cea (m : list Z) (i : Z) (n : nat) : option (option Z) :=
  match n with
  | O => Some None
  | S n =>
      let edidExt := EDID_LENGTH * i in
      valid ← isEdidValid m (Some edidExt);
      if negb valid then Some None
      else
        tag ← arr_get m edidExt;
        if negb (tag =? CEA_EXTENSION) then find_cea m (i + 1) n else Some (Some edidExt)
  end.

Definition getCeaExtensionData (m : list Z) : option (option Z) :=
  extension_num ← arr_get m EXTENSION_NUM;
  find_cea m 1 (Z.to_nat extension_num).

Definition getDataBlockLen (m : list Z) (db : Z) : option Z :=
  b ← arr_get m db; Some (Z.land b LEN_MASK).

Definition isHdrMetadataBlock (m : list Z) (db : Z) : option bool :=
  b ← arr_get m db;
  if negb (Z.shiftr b TAG_SHIFT =? DATA_BLOCK_EXTENDED_TAG) then Some false
  else c ← arr_get m (db + 1); Some (c =? HDR_STATIC_METADATA_BLOCK).

Definition parseHdrMetadataBlock (m : list Z) (db : Z) (h : HdrMetaData) : option HdrMetaData :=
  len ← getDataBlockLen m db;
  e ← arr_get m (db + 2);
  if len =? 6 then
    cll ← arr_get m (db + 4); fall ← arr_get m (db + 5); low ← arr_get m (db + 6);
    Some (mkHdr e (byte_float cll) (byte_float fall) (byte_float low))
  else if len =? 5 then
    cll ← arr_get m (db + 4); fall ← arr_get m (db + 5);
    Some (mkHdr e (byte_float cll) (byte_float fall) (min_cll h))
  else if len =? 4 then
    cll ← arr_get m (db + 4); Some (mkHdr e (byte_float cll) (max_fall h) (min_cll h))
  else if len =? 3 then
    if negb (Z.land e 1 =? 0) then
      let d := byte_float SDR_DEFAULT_LUMINANCE in Some (mkHdr e d d d)
    else Some (mkHdr e (max_cll h) (max_fall h) (min_cll h))
  else Some (mkHdr e (max_cll h) (max_fall h) (min_cll h)).

Definition hdr_state : Type := bool * HdrMetaData.

(** The body of the loop of [parseCeaExtData] at the block at [db]: the
    length of the block and the state after it. *)
Definition cea_block (m : list Z) (db : Z) (st : hdr_state) : option (Z * hdr_state) :=
  len ← getDataBlockLen m db;
  hdr ← isHdrMetadataBlock m db;
  if (hdr : bool) then h ← parseHdrMetadataBlock m db st.2; Some (len, (true, h)) else Some (len, st).

(** The loop, with fuel; the outer [None] is fuel that ran out. *)
Fixpoint cea_loop (fuel : nat) (m : list Z) (p i ceaDbLen : Z) (st : hdr_state)
    : option (option hdr_state) :=
  if i <? ceaDbLen then
    match fuel with
    | O => None
    | S fuel =>
        match cea_block m (p + i) st with
        | None => Some None
        | Some (len, st') => cea_loop fuel m p (i + (len + 1)) ceaDbLen st'
        end
    end
  else Some (Some st).

Definition parseCeaExtData (m : list Z) (edidExt : option Z) (st : hdr_state) : option hdr_state :=
  valid ← isEdidValid m edidExt;
  if negb valid then Some st
  else
    p ← edidExt;
    ceaDbLen ← arr_get m (p + 2);
    default None (cea_loop (Z.to_nat (ceaDbLen - 4)) m p 4 ceaDbLen st).

(** The id of the EDID blob, in 32 bits: the last property of that name, 0 for
    none. *)
Definition edid_blob_id (props : list (option string * Z)) : option Z :=
  foldl (fun acc prop =>
           id ← acc; name ← prop.1; Some (if String.eqb name "EDID" then wrap_u 32 prop.2 else id))
    (Some 0) props.

Definition getEdidDataFromDrm (drm : Drm) (s : Edid) : option Edid :=
  match drm_properties drm with
  | None => Some s
  | Some props =>
      edidBlobId ← edid_blob_id props;
      match drm_blob drm edidBlobId with
      | None => Some s
      | Some edid =>
          valid ← isEdidValid edid (Some 0);
          if (valid : bool) then
            edidExt ← getCeaExtensionData edid;
            '(supported, h) ← parseCeaExtData edid edidExt (mIsHdrSupported s, mHdrMetaData s);
            raw ← arr_copy (mRawData s) 0 edid (Z.to_nat EDID_LENGTH);
            Some (mkEdid supported h true raw)
          else Some s
      end
  end.

(** The members before the constructor's call; [junk] is what the raw data
    array, which the constructor does not set, holds. *)
Definition edid_init (junk : list Z) : Edid :=
  mkEdid false (mkHdr 0 (byte_float 0) (byte_float 0) (byte_float 0)) false junk.

Definition edid_new (drm : Drm) (junk : list Z) : option Edid :=
  getEdidDataFromDrm drm (edid_init junk).

Definition isHdrSupported (s : Edid) : bool := mIsHdrSupported s.

(** The result, and what a non-null pointer receives. *)
Definition getHdrMetaData (EINVAL : Z) (s : Edid) (non_null : bool) : Z * option HdrMetaData :=
  if non_null then (0, Some (mHdrMetaData s)) else (- EINVAL, None).

(** [buf] is null or the caller's buffer. *)
Definition getEdidRawData (s : Edid) (buf : option (list Z)) (size : Z) : option (Z * option (list Z)) :=
  match buf with
  | None => Some (-1, None)
  | Some b =>
      if (size <? EDID_LENGTH) || negb (mIsValid s) then Some (-1, Some b)
      else b' ← arr_copy b 0 (mRawData s) (Z.to_nat EDID_LENGTH); Some (EDID_LENGTH, Some b')
  end.

(** [1 << n] on 32-bit ints. *)
Definition bit32 (n : Z) : option Z :=
  if decide (0 <= n < 32) then Some (wrap_s 32 (Z.shiftl 1 n)) else None.

Definition isHdrEotfSupported (s : Edid) (e : Z) : option bool :=
  b ← bit32 e; Some (negb (Z.land (eotf (mHdrMetaData s)) b =? 0)).

Section Types.
Context `{HdrAbi}.

Definition hdrTable : list (Z * Z) := [(SMPTE_ST2084, HAL_HDR_HDR10); (BT_2100_HLG, HAL_HDR_HLG)].

(** The types found, in the order they are written to [hdrTypes]; their
    number is [*numTypes]. *)
Definition getHdrSupportTypes (s : Edid) : option (list Z) :=
  foldl (fun acc row =>
           types ← acc;
           b ← bit32 row.1;
           Some (if negb (Z.land (eotf (mHdrMetaData s)) b =? 0) then types ++ [row.2] else types))
    (Some []) hdrTable.
End Types.

(** ** Specification: data blocks *)

(** A data block is its tag and its payload; the first byte of an extended
    block's payload is the extended tag. *)
Definition data_block : Type := Z * list Z.

Definition encode_block (b : data_block) : list Z :=
  Z.lor (Z.shiftl b.1 TAG_SHIFT) (Z.of_nat (length b.2)) :: b.2.

Definition encode_blocks (bs : list data_block) : list Z := concat (encode_block <$> bs).

Definition is_hdr_block (b : data_block) : bool :=
  (b.1 =? DATA_BLOCK_EXTENDED_TAG) && (nth 0 b.2 0 =? HDR_STATIC_METADATA_BLOCK).

(** An extended block holds its extended tag, an HDR block its EOTF byte. *)
Definition block_ok (b : data_block) : Prop :=
  0 <= b.1 < 8 /\ (length b.2 < 32)%nat /\
  (b.1 = DATA_BLOCK_EXTENDED_TAG -> (1 <= length b.2)%nat) /\
  (is_hdr_block b = true -> (2 <= length b.2)%nat).

(** The metadata of a payload: the EOTF byte, then as many of the three
    luminances as the block is long enough for. *)
Definition hdr_of (payload : list Z) (h : HdrMetaData) : HdrMetaData :=
  let e := nth 1 payload 0 in
  let lum k := byte_float (nth k payload 0) in
  match length payload with
  | 6%nat => mkHdr e (lum 3%nat) (lum 4%nat) (lum 5%nat)
  | 5%nat => mkHdr e (lum 3%nat) (lum 4%nat) (min_cll h)
  | 4%nat => mkHdr e (lum 3%nat) (max_fall h) (min_cll h)
  | 3%nat =>
      if negb (Z.land e 1 =? 0) then mkHdr e (byte_float 100) (byte_float 100) (byte_float 100)
      else mkHdr e (max_cll h) (max_fall h) (min_cll h)
  | _ => mkHdr e (max_cll h) (max_fall h) (min_cll h)
  end.

Definition apply_block (st : hdr_state) (b : data_block) : hdr_state :=
  if is_hdr_block b then (true, hdr_of b.2 st.2) else st.

(** The bytes [l] stand in the blob at [p]. *)
Definition holds (m : list Z) (p : Z) (l : list Z) : Prop :=
  forall i x, l !! i = Some x -> arr_get m (p + Z.of_nat i) = Some x.

(** Block [k] is the first CEA extension, and every block up to it is valid. *)
Definition first_cea (m : list Z) (k : Z) : Prop :=
  1 <= k /\ isEdidValid m (Some (EDID_LENGTH * k)) = Some true /\
  arr_get m (EDID_LENGTH * k) = Some CEA_EXTENSION /\
  forall j, 1 <= j < k ->
    isEdidValid m (Some (EDID_LENGTH * j)) = Some true /\
    exists tag, arr_get m (EDID_LENGTH * j) = Some tag /\ tag <> CEA_EXTENSION.

(** ** Lemmas *)

Lemma holds_app m p l1 l2 :
  holds m p (l1 ++ l2) <-> holds m p l1 /\ holds m (p + Z.of_nat (length l1)) l2.
Proof.
  unfold holds. split.
  - intros Hl. split; intros i x Hi.
    + apply Hl. by apply lookup_app_l_Some.
    + rewrite <-Z.add_assoc, <-Nat2Z.inj_add. apply Hl.
      rewrite lookup_app_r by lia. by replace (length l1 + i - length l1)%nat with i by lia.
  - intros [H1 H2] i x [Hi|[Hlen Hi]]%lookup_app_Some; [by apply H1|].
    rewrite <-(H2 _ _ Hi). f_equal. lia.
Qed.

Lemma holds_get m p l k :
  holds m p l -> (k < length l)%nat -> arr_get m (p + Z.of_nat k) = Some (nth k l 0).
Proof.
  intros Hl Hk. apply Hl. destruct (lookup_lt_is_Some_2 l k Hk) as [x Hx].
  by rewrite Hx, (nth_lookup_Some _ _ _ _ Hx).
Qed.

Lemma getDataBlockLen_bounds m db len : getDataBlockLen m db = Some len -> 0 <= len < 32.
Proof.
  unfold getDataBlockLen. intros (b & _ & [= <-])%bind_Some.
  change LEN_MASK with (Z.ones 5). rewrite Z.land_ones by lia. apply Z.mod_pos_bound. lia.
Qed.

Lemma cea_block_len m db st len st' : cea_block m db st = Some (len, st') -> 0 <= len < 32.
Proof.
  unfold cea_block. intros (l & Hl & H)%bind_Some. apply bind_Some in H as ([] & _ & H);
    [apply bind_Some in H as (h & _ & H)|]; simplify_eq; by eapply getDataBlockLen_bounds.
Qed.

(** The loop never runs out of the fuel it is given. *)
Lemma cea_loop_fuel m p e : forall fuel i st,
  (Z.to_nat (e - i) <= fuel)%nat -> cea_loop fuel m p i e st <> None.
Proof.
  induction fuel as [|fuel IH]; intros i st Hf; simpl; destruct (Z.ltb_spec i e); try done; [lia|].
  destruct (cea_block m (p + i) st) as [[len st']|] eqn:Hb; [|done].
  apply cea_block_len in Hb. apply IH. lia.
Qed.

Lemma header_byte b :
  block_ok b ->
  Z.shiftr (nth 0 (encode_block b) 0) TAG_SHIFT = b.1 /\
  Z.land (nth 0 (encode_block b) 0) LEN_MASK = Z.of_nat (length b.2).
Proof.
  intros (Ht & Hl & _). unfold encode_block, TAG_SHIFT. cbn [nth].
  change LEN_MASK with (Z.ones 5). split; [apply packed_high|apply packed_low]; lia.
Qed.

Lemma parseHdr_spec m p b h :
  block_ok b -> is_hdr_block b = true -> holds m p (encode_block b) ->
  parseHdrMetadataBlock m p h = Some (hdr_of b.2 h).
Proof.
  intros Hok Hhdr Hm. destruct (header_byte b Hok) as [_ Hlen].
  destruct Hok as (_ & H32 & _ & H2). specialize (H2 Hhdr).
  assert (forall k, (k < length b.2)%nat -> arr_get m (p + Z.of_nat (S k)) = Some (nth k b.2 0)) as Hget.
  { intros k Hk. rewrite (holds_get m p (encode_block b)); [done..|]. simpl. lia. }
  unfold parseHdrMetadataBlock, getDataBlockLen.
  pose proof (holds_get m p (encode_block b) 0 Hm) as H0. rewrite Z.add_0_r in H0.
  rewrite H0 by (simpl; lia). cbn [mbind option_bind]. rewrite Hlen.
  pose proof (Hget 1%nat ltac:(lia)) as He. change (Z.of_nat 2) with 2 in He. rewrite He.
  cbn [mbind option_bind]. unfold hdr_of.
  pose proof (Hget 3%nat) as G3. pose proof (Hget 4%nat) as G4. pose proof (Hget 5%nat) as G5.
  change (Z.of_nat 4) with 4 in G3. change (Z.of_nat 5) with 5 in G4. change (Z.of_nat 6) with 6 in G5.
  destruct (length b.2) as [|[|[|[|[|[|[|n]]]]]]] eqn:Hn; try lia;
    [..|by rewrite !(proj2 (Z.eqb_neq _ _)) by lia].
  all: cbn; rewrite ?(G3 ltac:(lia)), ?(G4 ltac:(lia)), ?(G5 ltac:(lia)); cbn; try done.
  simpl. by case_match.
Qed.

(** One turn of the loop over a well-formed block. *)
Lemma cea_block_spec m p b st :
  block_ok b -> holds m p (encode_block b) ->
  cea_block m p st = Some (Z.of_nat (length b.2), apply_block st b).
Proof.
  intros Hok Hm. destruct (header_byte b Hok) as [Htag Hlen].
  pose proof (holds_get m p (encode_block b) 0 Hm) as Hhead. rewrite Z.add_0_r in Hhead.
  specialize (Hhead ltac:(simpl; lia)).
  unfold cea_block, getDataBlockLen at 1, isHdrMetadataBlock. rewrite Hhead.
  cbn [mbind option_bind]. rewrite Hlen, Htag. unfold apply_block.
  destruct (is_hdr_block b) eqn:Hhdr.
  - pose proof (parseHdr_spec m p b st.2 Hok Hhdr Hm) as Hp.
    apply andb_true_iff in Hhdr as [Ht Hc]. rewrite Ht. cbn [negb].
    destruct Hok as (_ & _ & Hne & _). apply Z.eqb_eq in Ht. specialize (Hne Ht).
    pose proof (holds_get m p (encode_block b) 1 Hm) as H1. change (Z.of_nat 1) with 1 in H1.
    rewrite H1 by (simpl; lia). cbn [mbind option_bind]. cbn [encode_block nth]. rewrite Hc. cbn.
    by rewrite Hp.
  - unfold is_hdr_block in Hhdr. destruct (b.1 =? DATA_BLOCK_EXTENDED_TAG) eqn:Ht; [|done].
    cbn [negb]. destruct Hok as (_ & _ & Hne & _). apply Z.eqb_eq in Ht. specialize (Hne Ht).
    pose proof (holds_get m p (encode_block b) 1 Hm) as H1. change (Z.of_nat 1) with 1 in H1.
    rewrite H1 by (simpl; lia). cbn [mbind option_bind]. cbn [encode_block nth].
    simpl in Hhdr. by rewrite Hhdr.
Qed.

Lemma length_encode_block b : length (encode_block b) = S (length b.2).
Proof. done. Qed.

Lemma cea_loop_spec m p e : forall bs fuel i st,
  Forall block_ok bs -> holds m (p + i) (encode_blocks bs) ->
  e = i + Z.of_nat (length (encode_blocks bs)) -> (Z.to_nat (e - i) <= fuel)%nat ->
  cea_loop fuel m p i e st = Some (Some (foldl apply_block st bs)).
Proof.
  induction bs as [|b bs IH]; intros fuel i st Hok Hm He Hf.
  - unfold encode_blocks in He. simpl in He. destruct fuel; simpl; by rewrite (proj2 (Z.ltb_ge i e)) by lia.
  - apply Forall_cons in Hok as [Hb Hok]. unfold encode_blocks in *. cbn [fmap list_fmap concat] in *.
    apply holds_app in Hm as [Hm1 Hm2]. rewrite length_app, length_encode_block in He.
    destruct fuel as [|fuel]; simpl; rewrite (proj2 (Z.ltb_lt i e)) by lia; [lia|].
    rewrite (cea_block_spec m (p + i) b st Hb Hm1). apply IH; [done| |lia|lia].
    rewrite length_encode_block in Hm2. replace (p + (i + _)) with (p + i + Z.of_nat (S (length b.2))) by lia.
    done.
Qed.

Lemma find_cea_spec m k n : first_cea m k -> k <= n -> 
  find_cea m 1 (Z.to_nat n) = Some (Some (EDID_LENGTH * k)).
Proof.
  intros (Hk & Hv & Ht & Hj) Hn.
  assert (forall c i, 1 <= i <= k -> k < i + Z.of_nat c ->
    find_cea m i c = Some (Some (EDID_LENGTH * k))) as Hgen; [|apply Hgen; lia].
  induction c as [|c IH]; intros i Hi Hc; [lia|]. cbn [find_cea].
  destruct (decide (i = k)) as [->|Hne].
  - rewrite Hv. cbn. rewrite Ht. cbn. done.
  - destruct (Hj i ltac:(lia)) as (Hvi & tag & Htag & Htne). rewrite Hvi. cbn [mbind option_bind negb].
    rewrite Htag. cbn [mbind option_bind]. rewrite (proj2 (Z.eqb_neq _ _) Htne). cbn [negb].
    apply IH; lia.
Qed.

(** ** Lemmas: a blob that is long enough is never read outside *)

Lemma sum_bytes_Some m : forall n p sum,
  0 <= p -> p + Z.of_nat n <= Z.of_nat (length m) -> is_Some (sum_bytes m p n sum).
Proof.
  induction n as [|n IH]; intros p sum Hp Hl; simpl; [done|].
  destruct (proj2 (arr_get_is_Some m p) ltac:(lia)) as [b Hb]. rewrite Hb. simpl. apply IH; lia.
Qed.

Lemma isEdidValid_Some m p :
  0 <= p -> p + EDID_LENGTH <= Z.of_nat (length m) -> is_Some (isEdidValid m (Some p)).
Proof.
  unfold isEdidValid, EDID_LENGTH. intros Hp Hl.
  destruct (proj2 (arr_get_is_Some m (p + (128 - 1))) ltac:(lia)) as [b Hb]. rewrite Hb. cbn.
  destruct (sum_bytes_Some m (Z.to_nat (128 - 1)) p 0) as [s Hs]; [lia..|].
  change (Pos.to_nat 127) with (Z.to_nat (128 - 1)). rewrite Hs. simpl. eauto.
Qed.

Lemma find_cea_Some m : forall n i,
  1 <= i -> EDID_LENGTH * (i + Z.of_nat n) <= Z.of_nat (length m) ->
  exists r, find_cea m i n = Some r /\
    forall p, r = Some p -> exists j, i <= j < i + Z.of_nat n /\ p = EDID_LENGTH * j.
Proof.
  unfold EDID_LENGTH. induction n as [|n IH]; intros i Hi Hl; cbn [find_cea]; [by exists None|].
  destruct (isEdidValid_Some m (EDID_LENGTH * i)) as [v Hv]; [unfold EDID_LENGTH; lia..|]. rewrite Hv.
  cbn [mbind option_bind]. destruct v; cbn [negb]; [|by exists None].
  destruct (proj2 (arr_get_is_Some m (EDID_LENGTH * i)) ltac:(unfold EDID_LENGTH; lia)) as [t Ht].
  rewrite Ht. cbn [mbind option_bind]. destruct (t =? CEA_EXTENSION); cbn [negb].
  - eexists. split; [done|]. intros p [= <-]. exists i. unfold EDID_LENGTH. lia.
  - destruct (IH (i + 1)) as (r & Hr & Hp); [lia..|]. exists r. split; [done|].
    intros p Hrp. destruct (Hp p Hrp) as (j & ? & ?). exists j. lia.
Qed.

(** Whatever the bytes are, a block at least six bytes before the end of the
    blob can be read. *)
Lemma cea_block_Some m db st :
  0 <= db -> db + 6 < Z.of_nat (length m) -> is_Some (cea_block m db st).
Proof.
  intros Hdb Hl.
  assert (forall k, 0 <= k <= 6 -> exists b, arr_get m (db + k) = Some b) as Hget.
  { intros k Hk. destruct (proj2 (arr_get_is_Some m (db + k)) ltac:(lia)) as [b Hb]. eauto. }
  destruct (Hget 0 ltac:(lia)) as [b0 H0]. rewrite Z.add_0_r in H0.
  destruct (Hget 1 ltac:(lia)) as [b1 H1]. destruct (Hget 2 ltac:(lia)) as [b2 H2].
  destruct (Hget 4 ltac:(lia)) as [b4 H4]. destruct (Hget 5 ltac:(lia)) as [b5 H5].
  destruct (Hget 6 ltac:(lia)) as [b6 H6].
  unfold cea_block, isHdrMetadataBlock, parseHdrMetadataBlock, getDataBlockLen.
  rewrite H0, H1, H2, H4, H5, H6. cbn.
  repeat case_match; simplify_eq; cbn [mbind option_bind]; try case_match; eauto.
Qed.

Lemma cea_loop_Some m p e : forall fuel i st,
  0 <= p -> 0 <= i -> e <= 122 -> p + EDID_LENGTH <= Z.of_nat (length m) ->
  (Z.to_nat (e - i) <= fuel)%nat -> exists st', cea_loop fuel m p i e st = Some (Some st').
Proof.
  unfold EDID_LENGTH. induction fuel as [|fuel IH]; intros i st Hp Hi He Hl Hf; simpl;
    destruct (Z.ltb_spec i e); try lia; eauto.
  destruct (cea_block_Some m (p + i) st) as [[len st'] Hb]; [lia..|]. rewrite Hb.
  apply cea_block_len in Hb. apply IH; lia.
Qed.

(** ** Properties *)

(** C12: When the blob is valid, its first CEA extension (block [k]) is reached
    through valid blocks, and the data block collection of the extension holds
    the blocks [bs], the display is valid with the base block as its raw data,
    HDR is supported exactly if one of [bs] is an HDR metadata block, and the
    metadata is that of the HDR blocks in order, the last one's in the end. *)
Theorem edid_hdr_spec (drm : Drm) (s : Edid) props id m n k bs :
  drm_properties drm = Some props -> edid_blob_id props = Some id -> drm_blob drm id = Some m ->
  length (mRawData s) = 128%nat -> isEdidValid m (Some 0) = Some true ->
  arr_get m EXTENSION_NUM = Some n -> first_cea m k -> k <= n -> Forall block_ok bs ->
  arr_get m (EDID_LENGTH * k + 2) = Some (4 + Z.of_nat (length (encode_blocks bs))) ->
  holds m (EDID_LENGTH * k + 4) (encode_blocks bs) ->
  exists s', getEdidDataFromDrm drm s = Some s' /\ mIsValid s' = true /\ mRawData s' = take 128 m /\
    mIsHdrSupported s' = mIsHdrSupported s || existsb is_hdr_block bs /\
    mHdrMetaData s' =
      foldl (fun h b => hdr_of b.2 h) (mHdrMetaData s) (filter (fun b => is_hdr_block b = true) bs).
Proof.
  intros Hprops Hid Hblob Hraw Hvalid Hn Hcea Hkn Hok Hlen Hm.
  unfold getEdidDataFromDrm. rewrite Hprops, Hid. cbn [mbind option_bind]. rewrite Hblob, Hvalid.
  cbn [mbind option_bind]. unfold getCeaExtensionData. rewrite Hn. cbn [mbind option_bind].
  rewrite (find_cea_spec m k n Hcea Hkn). cbn [mbind option_bind]. unfold parseCeaExtData.
  destruct Hcea as (Hk & Hv & _). rewrite Hv. cbn [mbind option_bind negb]. rewrite Hlen.
  cbn [mbind option_bind].
  rewrite (cea_loop_spec m _ _ bs _ 4 _ Hok) by (done || lia). cbn [default].
  assert (128 <= length m)%nat as Hl.
  { unfold isEdidValid in Hv. apply bind_Some in Hv as (c & Hc & _).
    assert (is_Some (arr_get m (EDID_LENGTH * k + (EDID_LENGTH - 1)))) as Hx by eauto.
    apply arr_get_is_Some in Hx. unfold EDID_LENGTH in Hx. lia. }
  destruct (foldl apply_block _ bs) as [sup h] eqn:Hf. cbn [mbind option_bind].
  unfold arr_copy. rewrite decide_True by (rewrite Hraw; unfold EDID_LENGTH; lia).
  eexists. split; [done|]. cbn [mIsValid mRawData mIsHdrSupported mHdrMetaData].
  split; [done|]. split.
  { rewrite drop_ge by (rewrite Hraw; unfold EDID_LENGTH; lia). cbn [take app]. by rewrite app_nil_r. }
  revert Hf. generalize (mIsHdrSupported s) (mHdrMetaData s). clear.
  induction bs as [|b bs IH]; intros b0 h0; cbn [foldl existsb].
  - intros [= <- <-]. by rewrite orb_false_r.
  - rewrite filter_cons. unfold apply_block at 2. destruct (is_hdr_block b); intros Hf.
    + destruct (IH _ _ Hf) as [-> ->]. by rewrite decide_True, orb_true_r.
    + destruct (IH _ _ Hf) as [-> ->]. by rewrite decide_False.
Qed.

(** C31: The parser always ends, and when the blob has the extension blocks
    its base block announces and no extension announces data blocks beyond byte
    122, whatever else the bytes are it reads nothing outside the blob: the
    display is constructed.  The bound is sharp up to the longest block: see
    [edid_overrun]. *)
Theorem edid_parse_safe (drm : Drm) junk props id m n :
  drm_properties drm = Some props -> Forall (fun prop => is_Some prop.1) props ->
  edid_blob_id props = Some id -> drm_blob drm id = Some m -> length junk = 128%nat ->
  arr_get m EXTENSION_NUM = Some n -> 0 <= n -> Z.of_nat (length m) = EDID_LENGTH * (1 + n) ->
  (forall j b, 1 <= j <= n -> arr_get m (EDID_LENGTH * j + 2) = Some b -> b <= 122) ->
  is_Some (edid_new drm junk) /\
  (forall p i e st fuel, (Z.to_nat (e - i) <= fuel)%nat -> cea_loop fuel m p i e st <> None).
Proof.
  intros Hprops Hnames Hid Hblob Hjunk Hn Hpos Hl Hbound.
  split; [|intros p i e st fuel; apply cea_loop_fuel].
  unfold edid_new, getEdidDataFromDrm. rewrite Hprops, Hid. cbn [mbind option_bind]. rewrite Hblob.
  destruct (isEdidValid_Some m 0) as [v Hv]; [unfold EDID_LENGTH in *; lia..|]. rewrite Hv.
  cbn [mbind option_bind]. destruct v; [|eauto]. unfold getCeaExtensionData. rewrite Hn.
  cbn [mbind option_bind].
  destruct (find_cea_Some m (Z.to_nat n) 1) as (r & Hr & Hp); [lia|unfold EDID_LENGTH in *; lia|].
  rewrite Hr. cbn [mbind option_bind]. 
  assert (is_Some (parseCeaExtData m r (mIsHdrSupported (edid_init junk), mHdrMetaData (edid_init junk))))
    as [[sup h] Hparse].
  { unfold parseCeaExtData. destruct r as [p|]; [|eauto].
    destruct (Hp p eq_refl) as (j & Hj & ->).
    destruct (isEdidValid_Some m (EDID_LENGTH * j)) as [v Hvj]; [unfold EDID_LENGTH in *; lia..|].
    rewrite Hvj. cbn [mbind option_bind]. destruct v; cbn [negb]; [|eauto].
    destruct (proj2 (arr_get_is_Some m (EDID_LENGTH * j + 2))) as [b Hb];
      [unfold EDID_LENGTH in *; lia|]. rewrite Hb. cbn [mbind option_bind].
    destruct (cea_loop_Some m (EDID_LENGTH * j) b (Z.to_nat (b - 4)) 4
      (mIsHdrSupported (edid_init junk), mHdrMetaData (edid_init junk))) as [st Hst];
      [unfold EDID_LENGTH in *; lia|lia|eapply Hbound; [|done]; lia|unfold EDID_LENGTH in *; lia|lia|].
    rewrite Hst. simpl. eauto. }
  rewrite Hparse. cbn [mbind option_bind]. unfold arr_copy.
  rewrite decide_True by (unfold edid_init, EDID_LENGTH in *; cbn [mRawData]; lia). simpl. eauto.
Qed.

(** ** Witnesses *)

(** The last byte of a block of 127 bytes: all add up to 0. *)
Definition with_checksum (l : list Z) : list Z := l ++ [wrap_u 8 (- foldr Z.add 0 l)].

Definition zeros (n : nat) : list Z := replicate n 0.

(** A base block that announces one extension. *)
Definition demo_base : list Z := with_checksum (zeros 126 ++ [1]).

(** A vendor block of two bytes and the HDR block of a display that has PQ. *)
Definition demo_blocks : list data_block := [(3, [1; 2]); (7, [6; 5; 1; 120; 90; 10])].

Definition demo_blob (collection : list Z) (e : Z) : list Z :=
  demo_base ++ with_checksum ([2; 3; e; 0] ++ collection ++ zeros (123 - length collection)).

Definition demo_drm (m : list Z) : Drm :=
  mkDrm (Some [(Some "DPMS", 3); (Some "EDID", 7)]) (fun id => if id =? 7 then Some m else None).

Definition demo_m : list Z := demo_blob (encode_blocks demo_blocks) 14.

Lemma edid_hdr_spec_witness :
  exists s', edid_new (demo_drm demo_m) (zeros 128) = Some s' /\ mIsHdrSupported s' = true /\
    mHdrMetaData s' = mkHdr 5 (byte_float 120) (byte_float 90) (byte_float 10).
Proof.
  destruct (edid_hdr_spec (demo_drm demo_m) (edid_init (zeros 128))
    [(Some "DPMS", 3); (Some "EDID", 7)] 7 demo_m 1 1 demo_blocks)
    as (s' & Hs & _ & _ & Hsup & Hmeta).
  - reflexivity.
  - reflexivity.
  - reflexivity.
  - reflexivity.
  - vm_compute. reflexivity.
  - vm_compute. reflexivity.
  - split; [lia|]. split_and!; [vm_compute; reflexivity|vm_compute; reflexivity|]. intros j Hj. lia.
  - lia.
  - repeat constructor; simpl; try lia; discriminate.
  - vm_compute. reflexivity.
  - intros i x. destruct i as [|[|[|[|[|[|[|[|[|[|i]]]]]]]]]]; [intros [= <-]; reflexivity..|].
    intros Hi. apply lookup_lt_Some in Hi. simpl in Hi. lia.
  - exists s'. split; [exact Hs|]. split; [exact Hsup|exact Hmeta].
Defined.

(** An extension whose data blocks reach to byte 127: the header of the last
    one, an extended block, is byte 126, and the checksum behind it is the tag
    of the HDR metadata.  The parser reads past the end of the blob. *)
Definition overrun_m : list Z :=
  demo_base ++ [2; 3; 127; 0] ++
  encode_blocks [(1, zeros 31); (1, zeros 31); (1, zeros 31); (1, 159 :: zeros 24)] ++
  [Z.lor (Z.shiftl 7 5) 1; 6].

Example edid_overrun :
  isEdidValid overrun_m (Some 128) = Some true /\ length overrun_m = 256%nat /\
  edid_new (demo_drm overrun_m) (zeros 128) = None.
Proof. vm_compute. auto. Qed.

Lemma edid_parse_safe_witness : is_Some (edid_new (demo_drm demo_m) (zeros 128)).
Proof.
  apply (edid_parse_safe (demo_drm demo_m) (zeros 128) [(Some "DPMS", 3); (Some "EDID", 7)] 7 demo_m 1).
  - reflexivity.
  - repeat constructor; eexists; reflexivity.
  - reflexivity.
  - reflexivity.
  - reflexivity.
  - vm_compute. reflexivity.
  - lia.
  - reflexivity.
  - intros j b Hj. assert (j = 1) as -> by lia. vm_compute. intros [= <-]. discriminate.
Defined.
