(* ===== verification/ThermalConfig.v ===== *)
(** * thermal/utils/config_parser.{h,cpp}: the configuration of the thermal HAL

    A JSON file names the sensors with their thresholds and the cooling devices.
    Any fault in a list makes its parser return the empty map.  The enumerations
    of the generated interface are the class [ThermalAbi], their values with
    their names; a severity is its number.  The outer [None] is an exception, the
    inner one a fault that was found. *)

From Stdlib Require Import String.
From S2P Require Import Prelude CppText Json.

Class ThermalAbi := {
  TemperatureType_range : list (Z * string); TT_UNKNOWN : Z; TT_CPU : Z;
  CoolingType_range : list (Z * string); CT_BATTERY : Z;
  SEV_NONE : nat; SEV_SHUTDOWN : nat; kThrottlingSeverityCount : nat
}.

(** The severities are numbered from 0 to SHUTDOWN. *)
Class ThermalAbiLaws `{ThermalAbi} := {
  sev_none : SEV_NONE = 0%nat;
  sev_count : kThrottlingSeverityCount = S SEV_SHUTDOWN;
  tt_cpu_range : forall z s, (z, s) ∈ TemperatureType_range -> s = "CPU"%string <-> z = TT_CPU;
  tt_types : NoDup TemperatureType_range.*1
}.

(** The content of a file, if it can be read. *)
Definition files : Type := string -> option string.

Record SensorInfo := mkSensor {
  type_ : Z; hot_thresholds : list spec_float; cold_thresholds : list spec_float;
  hot_hysteresis : list spec_float; cold_hysteresis : list spec_float;
  multiplier : spec_float; is_monitor : bool
}.

(** A step that may find a fault. *)
Definition and_then {A B} (m : option (option A)) (k : A -> option (option B)) : option (option B) :=
  match m with Some (Some a) => k a | Some None => Some None | None => None end.

Notation "x <-? m ; k" := (and_then m (fun x => k)) (at level 100, m at next level, right associativity) : imx_scope.

Section Parser.
Context `{ThermalAbi} {J : Type} `{!JsonCpp J}.

Definition getTypeFromString (range : list (Z * string)) (str : string) : option Z :=
  (fun p => p.2.1) <$> list_find (fun p => p.2 = str) range.

Definition getFloatFromValue (value : J) : option spec_float :=
  if isString value then s ← asString value; stof s else asFloat value.

(** One array of thresholds, each compared with the last number before it. *)
Fixpoint read_thresholds (fault : spec_float -> spec_float -> bool) (values : J) (js : list nat)
    (bound : spec_float) : option (option (list spec_float)) :=
  match js with
  | [] => Some (Some [])
  | j :: js' =>
      v ← element values j;
      x ← getFloatFromValue v;
      if negb (is_nan x) && fault x bound then Some None
      else l <-? read_thresholds fault values js' (if is_nan x then bound else x); Some (Some (x :: l))
  end.

Fixpoint read_hysteresis (values : J) (js : list nat) : option (option (list spec_float)) :=
  match js with
  | [] => Some (Some [])
  | j :: js' =>
      v ← element values j;
      x ← getFloatFromValue v;
      if is_nan x then Some None else l <-? read_hysteresis values js'; Some (Some (x :: l))
  end.

Definition indices : list nat := seq 0 kThrottlingSeverityCount.

Definition full (values : J) : bool := bool_decide (jsize values = kThrottlingSeverityCount).

Definition hysteresis_of (sensor : J) (name : string) : option (option (list spec_float)) :=
  values ← member sensor name;
  if full values then read_hysteresis values indices
  else Some (Some (replicate kThrottlingSeverityCount (S754_zero false))).

Definition hot_of (sensor : J) : option (option (list spec_float)) :=
  values ← member sensor "HotThreshold";
  if full values then read_thresholds SFltb values indices FLT_MIN else Some None.

Definition cold_of (sensor : J) : option (option (list spec_float)) :=
  values ← member sensor "ColdThreshold";
  if full values then read_thresholds SFgtb values indices FLT_MAX
  else Some (Some (replicate kThrottlingSeverityCount S754_nan)).

Definition monitor_of (sensor : J) : option bool :=
  j ← member sensor "Monitor";
  if jempty j || negb (isBool j) then Some false else asBool j.

(** A sensor that is not yet among [seen]. *)
Definition parse_sensor (sensor : J) (seen : gset string) : option (option (string * SensorInfo)) :=
  jn ← member sensor "Name";
  name ← asString jn;
  if String.eqb name "" then Some None
  else if decide (name ∈ seen) then Some None
  else
    jt ← member sensor "Type";
    ts ← asString jt;
    match getTypeFromString TemperatureType_range ts with
    | None => Some None
    | Some sensor_type =>
        hot <-? hot_of sensor;
        hhyst <-? hysteresis_of sensor "HotHysteresis";
        cold <-? cold_of sensor;
        chyst <-? hysteresis_of sensor "ColdHysteresis";
        jm ← member sensor "Multiplier";
        mult ← asFloat jm;
        mon ← monitor_of sensor;
        Some (Some (name, mkSensor sensor_type hot cold hhyst chyst mult mon))
    end.

(** The loop over the array; the names seen are those of the map. *)
Fixpoint parse_sensors (sensors : J) (todo : list nat) (parsed : gmap string SensorInfo)
    : option (gmap string SensorInfo) :=
  match todo with
  | [] => Some parsed
  | i :: todo' =>
      sensor ← element sensors i;
      r ← parse_sensor sensor (dom parsed);
      match r with
      | None => Some ∅
      | Some (name, info) => parse_sensors sensors todo' (<[name := info]> parsed)
      end
  end.

Definition read_root (fs : files) (config_path : string) : option J := doc ← fs config_path; parse doc.

Definition ParseSensorInfo (fs : files) (config_path : string) : option (gmap string SensorInfo) :=
  match read_root fs config_path with
  | None => Some ∅
  | Some root =>
      sensors ← member root "Sensors";
      parse_sensors sensors (seq 0 (jsize sensors)) ∅
  end.

Fixpoint parse_cooling (devices : J) (todo : list nat) (parsed : gmap string Z) : option (gmap string Z) :=
  match todo with
  | [] => Some parsed
  | i :: todo' =>
      device ← element devices i;
      jn ← member device "Name";
      name ← asString jn;
      if String.eqb name "" then Some ∅
      else if decide (name ∈ (dom parsed : gset string)) then Some ∅
      else
        jt ← member device "Type";
        ts ← asString jt;
        match getTypeFromString CoolingType_range ts with
        | None => Some ∅
        | Some t => parse_cooling devices todo' (<[name := t]> parsed)
        end
  end.

Definition ParseCoolingDevice (fs : files) (config_path : string) : option (gmap string Z) :=
  match read_root fs config_path with
  | None => Some ∅
  | Some root =>
      devices ← member root "CoolingDevices";
      parse_cooling devices (seq 0 (jsize devices)) ∅
  end.

Fixpoint parse_hotplug (cpus : J) (js : list nat) (parsed : list string) : option (list string) :=
  match js with
  | [] => Some parsed
  | j :: js' =>
      v ← element cpus j;
      cpu ← asString v;
      if String.eqb cpu "" then Some [] else parse_hotplug cpus js' (parsed ++ [cpu])
  end.

Definition ParseHotplugCPUInfo (fs : files) (config_path : string) : option (list string) :=
  match read_root fs config_path with
  | None => Some []
  | Some root =>
      cpus ← member root "HotplugCPUs";
      if decide (jsize cpus < 1)%nat then Some []
      else parse_hotplug cpus (seq 0 (jsize cpus)) []
  end.

(** ** What the parser accepts *)

(** The numbers among the thresholds are ordered; [worse a b]: [b] must not
    follow [a]. *)
Definition ordered (worse : spec_float -> spec_float -> bool) (l : list spec_float) : Prop :=
  forall j k x y, (j < k)%nat -> l !! j = Some x -> l !! k = Some y ->
    is_nan x = false -> is_nan y = false -> worse y x = false.

Record sensor_ok (i : SensorInfo) : Prop := {
  so_type : exists s, (type_ i, s) ∈ TemperatureType_range;
  so_lengths : length (hot_thresholds i) = kThrottlingSeverityCount /\
    length (cold_thresholds i) = kThrottlingSeverityCount /\
    length (hot_hysteresis i) = kThrottlingSeverityCount /\
    length (cold_hysteresis i) = kThrottlingSeverityCount;
  so_hot : ordered SFltb (hot_thresholds i) /\
    Forall (fun x => is_nan x = false -> SFltb x FLT_MIN = false) (hot_thresholds i);
  so_cold : ordered SFgtb (cold_thresholds i);
  so_hysteresis : Forall (fun x => is_nan x = false) (hot_hysteresis i ++ cold_hysteresis i)
}.

(** Both comparisons are transitive in the direction the loop uses them. *)
Definition chained (worse : spec_float -> spec_float -> bool) : Prop :=
  forall x y z, is_nan x = false -> is_nan y = false -> is_nan z = false ->
    worse y x = false -> worse z y = false -> worse z x = false.

Lemma chained_lt : chained SFltb.
Proof. exact SFnotlt_trans. Qed.

Lemma chained_gt : chained SFgtb.
Proof. intros x y z Hx Hy Hz H1 H2. unfold SFgtb in *. by eapply (SFnotlt_trans z y x). Qed.

Lemma and_then_Some {A B} (m : option (option A)) (k : A -> option (option B)) b :
  and_then m k = Some (Some b) -> exists a, m = Some (Some a) /\ k a = Some (Some b).
Proof. destruct m as [[a|]|]; cbn; [eauto|done..]. Qed.

Lemma read_thresholds_ok worse values js bound l :
  chained worse -> is_nan bound = false -> read_thresholds worse values js bound = Some (Some l) ->
  length l = length js /\ Forall (fun x => is_nan x = false -> worse x bound = false) l /\ ordered worse l.
Proof.
  intros Hch. revert bound l. induction js as [|j js IH]; intros bound l Hb Hr; cbn in Hr.
  { simplify_eq. split_and!; [done|constructor|]. intros j k x y _ Hj. done. }
  destruct (element values j) as [v|]; cbn in Hr; [|done].
  destruct (getFloatFromValue v) as [x|]; cbn in Hr; [|done].
  destruct (negb (is_nan x) && worse x bound) eqn:Hw; [done|].
  apply and_then_Some in Hr as (l' & Hr & [= <-]).
  destruct (is_nan x) eqn:Hx; cbn in Hw; (apply IH in Hr as (Hlen & Hall & Hord); [|done]).
  - split_and!; [cbn; lia|by constructor; [rewrite Hx|]|].
    intros j' k y z Hlt Hj Hk Hy Hz. destruct k as [|k]; [lia|]. destruct j' as [|j']; cbn in Hj; [congruence|].
    by eapply (Hord j' k); [lia| | | |].
  - split_and!; [cbn; lia| |].
    + constructor; [done|]. eapply Forall_impl; [exact Hall|]. intros y Hy Hn. by apply (Hch bound x y); [| | | |apply Hy].
    + intros j' k y z Hlt Hj Hk Hy Hz. destruct k as [|k]; [lia|]. destruct j' as [|j']; cbn in Hj.
      * simplify_eq. rewrite Forall_lookup in Hall. by eapply Hall.
      * by eapply (Hord j' k); [lia| | | |].
Qed.

Lemma read_hysteresis_ok values js l :
  read_hysteresis values js = Some (Some l) -> length l = length js /\ Forall (fun x => is_nan x = false) l.
Proof.
  revert l. induction js as [|j js IH]; intros l Hr; cbn in Hr; [by simplify_eq|].
  destruct (element values j) as [v|]; cbn in Hr; [|done].
  destruct (getFloatFromValue v) as [x|]; cbn in Hr; [|done].
  destruct (is_nan x) eqn:Hx; [done|]. apply and_then_Some in Hr as (l' & Hr & [= <-]).
  apply IH in Hr as [Hlen Hall]. split; [cbn; lia|by constructor].
Qed.

Lemma hysteresis_of_ok sensor name l :
  hysteresis_of sensor name = Some (Some l) ->
  length l = kThrottlingSeverityCount /\ Forall (fun x => is_nan x = false) l.
Proof.
  unfold hysteresis_of. destruct (member sensor name) as [v|]; cbn; [|done]. case_match.
  - intros Hr. apply read_hysteresis_ok in Hr as [Hl Ha]. unfold indices in Hl. by rewrite length_seq in Hl.
  - intros [= <-]. rewrite length_replicate. split; [done|]. by apply Forall_replicate.
Qed.

Lemma hot_of_ok sensor l :
  hot_of sensor = Some (Some l) ->
  length l = kThrottlingSeverityCount /\ ordered SFltb l /\ Forall (fun x => is_nan x = false -> SFltb x FLT_MIN = false) l.
Proof.
  unfold hot_of. destruct (member sensor "HotThreshold") as [v|]; cbn; [|done]. case_match; [|done].
  intros Hr. apply read_thresholds_ok in Hr as (Hl & Ha & Ho); [|apply chained_lt|done].
  unfold indices in Hl. by rewrite length_seq in Hl.
Qed.

Lemma cold_of_ok sensor l :
  cold_of sensor = Some (Some l) -> length l = kThrottlingSeverityCount /\ ordered SFgtb l.
Proof.
  unfold cold_of. destruct (member sensor "ColdThreshold") as [v|]; cbn; [|done]. case_match.
  - intros Hr. apply read_thresholds_ok in Hr as (Hl & Ha & Ho); [|apply chained_gt|done].
    unfold indices in Hl. by rewrite length_seq in Hl.
  - intros [= <-]. rewrite length_replicate. split; [done|].
    intros j k x y _ Hj%lookup_replicate_1 _ Hx. by destruct Hj as [-> _].
Qed.

Lemma parse_sensor_ok sensor seen name i :
  parse_sensor sensor seen = Some (Some (name, i)) -> name <> ""%string /\ name ∉ seen /\ sensor_ok i.
Proof.
  unfold parse_sensor. destruct (member sensor "Name") as [jn|]; cbn; [|done].
  destruct (asString jn) as [n|]; cbn; [|done].
  destruct (String.eqb_spec n ""); [done|]. case_decide; [done|].
  destruct (member sensor "Type") as [jt|]; cbn; [|done].
  destruct (asString jt) as [ts|]; cbn; [|done].
  destruct (getTypeFromString TemperatureType_range ts) as [t|] eqn:Ht; [|done].
  intros Hr. apply and_then_Some in Hr as (hot & Hhot & Hr). apply and_then_Some in Hr as (hh & Hhh & Hr).
  apply and_then_Some in Hr as (cold & Hcold & Hr). apply and_then_Some in Hr as (ch & Hch & Hr).
  destruct (member sensor "Multiplier") as [jm|]; cbn in Hr; [|done].
  destruct (asFloat jm) as [mult|]; cbn in Hr; [|done].
  destruct (monitor_of sensor) as [mon|]; cbn in Hr; [|done]. simplify_eq.
  apply hot_of_ok in Hhot as (? & ? & ?). apply cold_of_ok in Hcold as (? & ?).
  apply hysteresis_of_ok in Hhh as (? & ?). apply hysteresis_of_ok in Hch as (? & ?).
  split_and!; [done|done|]. split; cbn; [|done|done|done|by apply Forall_app].
  unfold getTypeFromString in Ht. apply fmap_Some in Ht as ([k [t' s]] & Hf & ->). cbn.
  apply list_find_Some in Hf as (Hk & _). exists s. by eapply list_elem_of_lookup_2.
Qed.

Lemma parse_sensors_ok sensors todo parsed m :
  map_Forall (fun name i => name <> ""%string /\ sensor_ok i) parsed ->
  parse_sensors sensors todo parsed = Some m ->
  map_Forall (fun name i => name <> ""%string /\ sensor_ok i) m.
Proof.
  revert parsed. induction todo as [|i todo IH]; intros parsed Hp Hr; cbn in Hr; [by simplify_eq|].
  destruct (element sensors i) as [s|]; cbn in Hr; [|done].
  destruct (parse_sensor s (dom parsed)) as [[[name info]|]|] eqn:Hs; cbn in Hr; [| |done].
  - apply parse_sensor_ok in Hs as (? & ? & ?). eapply IH; [|exact Hr]. by apply map_Forall_insert_2.
  - simplify_eq. apply map_Forall_empty.
Qed.

(** Whatever the file holds, the sensors the parser returns are well formed:
    named, of a known type, with as many thresholds and hystereses as there are
    severities, the numbers among the hot thresholds in increasing and those
    among the cold ones in decreasing order, the hot ones at least the smallest
    positive normal [float], and no hysteresis is NaN. *)
Lemma thermal_config_wf fs path m :
  ParseSensorInfo fs path = Some m -> map_Forall (fun name i => name <> ""%string /\ sensor_ok i) m.
Proof.
  unfold ParseSensorInfo. destruct (read_root fs path) as [root|].
  - destruct (member root "Sensors") as [s|]; cbn; [|done]. apply parse_sensors_ok, map_Forall_empty.
  - intros [= <-]. apply map_Forall_empty.
Qed.
End Parser.

(** ** Witnesses *)

(** The values and names of the published interface. *)
Definition demo_thermal_abi : ThermalAbi := {|
  TemperatureType_range := [(-1, "UNKNOWN"%string); (0, "CPU"%string); (1, "GPU"%string); (2, "BATTERY"%string);
    (3, "SKIN"%string)];
  TT_UNKNOWN := -1; TT_CPU := 0;
  CoolingType_range := [(0, "FAN"%string); (1, "BATTERY"%string); (2, "CPU"%string)]; CT_BATTERY := 1;
  SEV_NONE := 0; SEV_SHUTDOWN := 6; kThrottlingSeverityCount := 7
|}.

Lemma demo_thermal_abi_laws : @ThermalAbiLaws demo_thermal_abi.
Proof.
  split; [done|done| |apply (bool_decide_unpack _); vm_compute; exact I].
  intros z s Hin. cbn in Hin. rewrite !elem_of_cons, elem_of_nil in Hin.
  destruct Hin as [[= -> ->]|[[= -> ->]|[[= -> ->]|[[= -> ->]|[[= -> ->]|[]]]]]]; done.
Qed.

Definition demo_row (l : list string) : demo_json := DArr (DStr <$> l).

Definition demo_sensor (name : string) (hot hyst : list string) : demo_json :=
  DObj [("Name", DStr name); ("Type", DStr "CPU"); ("HotThreshold", demo_row hot);
        ("HotHysteresis", demo_row hyst); ("Multiplier", DNum 1); ("Monitor", DBool true)]%string.

Definition demo_thermal_file (sensors : list demo_json) : demo_json :=
  DObj [("Sensors", DArr sensors); ("HotplugCPUs", demo_row ["cpu3"])]%string.

Definition demo_thermal_reader (s : string) : option demo_json :=
  if String.eqb s "good" then
    Some (demo_thermal_file [demo_sensor "cpu0" ["NAN"; "NAN"; "70"; "85"; "90"; "NAN"; "95"] ["0"; "0"; "5"; "5"; "5"; "0"; "0"]]%string)
  else if String.eqb s "bad" then
    Some (demo_thermal_file [demo_sensor "cpu0" ["NAN"; "-5"; "70"; "85"; "90"; "NAN"; "95"] ["0"; "0"; "5"; "5"; "5"; "0"; "0"]]%string)
  else None.

Definition demo_files : files := fun path => if String.eqb path "etc/thermal.json" then Some "good"%string else None.

Definition demo_info : gmap string SensorInfo :=
  default ∅ (@ParseSensorInfo demo_thermal_abi demo_json (demo_jsoncpp demo_thermal_reader) demo_files "etc/thermal.json").

Lemma thermal_config_wf_witness :
  size demo_info = 1%nat /\ map_Forall (fun name i => name <> ""%string /\ @sensor_ok demo_thermal_abi i) demo_info.
Proof.
  split; [vm_compute; reflexivity|].
  apply (@thermal_config_wf demo_thermal_abi demo_json (demo_jsoncpp demo_thermal_reader) demo_files "etc/thermal.json").
  vm_compute. reflexivity.
Defined.

(** A negative threshold is below [numeric_limits<float>::min()], the smallest
    positive number, and no sensor is left. *)
Example negative_threshold_rejected :
  @ParseSensorInfo demo_thermal_abi demo_json (demo_jsoncpp demo_thermal_reader) (fun _ => Some "bad"%string) "x" = Some ∅.
Proof. vm_compute. reflexivity. Qed.
