(* ===== verification/ThermalHelper.v ===== *)
(** * thermal/thermal-helper.{h,cpp}, utils/thermal_files, utils/thermal_watcher

    The helper reads the temperatures the configuration names, grades them
    against the thresholds with hysteresis, and is called by the watcher, a
    thread that waits for kernel events or polls.  An operation is given the
    content of the files it reads ([files]); what it writes is in its result.
    [None] is an exception or undefined behaviour.  [android::base] is not in the
    repository: its functions are the class [AndroidBase]. *)

From Stdlib Require Import Ascii String.
From S2P Require Import Prelude CppText Json ThermalConfig.

Class AndroidBase := {
  Trim : string -> string;
  Split : string -> string -> list string;
  GetProperty : string -> string -> string
}.

(** ** Constants and data *)

Definition kCpuOnlineRoot : string := "/sys/devices/system/cpu".
Definition kThermalSensorsRoot : string := "/sys/devices/virtual/thermal".
Definition kCpuUsageFile : string := "/proc/stat".
Definition kCpuOnlineFileSuffix : string := "online".
Definition kCpuPresentFile : string := "/sys/devices/system/cpu/present".
Definition kSensorPrefix : string := "thermal_zone".
Definition kCoolingDevicePrefix : string := "cooling_device".
Definition kThermalNameFile : string := "type".
Definition kSensorPolicyFile : string := "policy".
Definition kSensorTempSuffix : string := "temp".
Definition kSensorTripPointTempZeroFile : string := "trip_point_0_temp".
Definition kSensorTripPointHystZeroFile : string := "trip_point_0_hyst".
Definition kUserSpaceSuffix : string := "step_wise".
Definition kCoolingDeviceCurStateSuffix : string := "cur_state".
Definition kConfigProperty : string := "vendor.thermal.config".
Definition kSocType : string := "ro.boot.soc_type".

Definition slash (a b : string) : string := (a ++ "/" ++ b)%string.

Record SensorStatus := mkStatus { severity : nat; prev_hot_severity : nat; prev_cold_severity : nat }.

Record CpuUsage := mkUsage { cpu_name : string; active : Z; total : Z; isOnline : bool }.

Record Temperature := mkTemp {
  t_type : Z; t_name : string; t_value : spec_float; throttlingStatus : nat
}.

Record TemperatureThreshold := mkThreshold {
  th_type : Z; th_name : string;
  hotThrottlingThresholds : list spec_float; coldThrottlingThresholds : list spec_float
}.

Record CoolingDevice := mkCooling { cd_type : Z; cd_name : string; cd_value : Z }.

(** The helper, with the members of its watcher in the last three fields. *)
Record ThermalHelper := mkHelper {
  thermal_sensors_ : gmap string string; cooling_devices_ : gmap string string; is_initialized_ : bool;
  cooling_device_info_map_ : gmap string Z; sensor_info_map_ : gmap string SensorInfo;
  sensor_status_map_ : gmap string SensorStatus;
  monitored_sensors_ : gset string; thermal_triggered_ : bool; is_polling_ : bool
}.

(** ** thermal_files.cpp *)

Definition getThermalFilePath (m : gmap string string) (thermal_name : string) : string := default ""%string (m !! thermal_name).

Definition addThermalFile (m : gmap string string) (thermal_name path : string) : bool * gmap string string :=
  match m !! thermal_name with Some _ => (false, m) | None => (true, <[thermal_name := path]> m) end.

Definition readThermalFile `{AndroidBase} (fs : files) (m : gmap string string) (thermal_name : string) : bool * string :=
  let file_path := getThermalFilePath m thermal_name in
  if String.eqb file_path "" then (false, ""%string)
  else match fs file_path with Some reading => (true, Trim reading) | None => (false, ""%string) end.

Section Helper.
Context `{ThermalAbi, AndroidBase}.

(** ** CPUs *)

Definition getNumberOfCores (fs : files) : option Z :=
  match fs kCpuPresentFile with
  | None => Some 0
  | Some file =>
      match Split file "-" with
      | [p0; p1] =>
          min_core ← stoul p0; max_core ← stoul p1;
          Some (if max_core <? min_core then 0 else wrap_u 64 (max_core - min_core + 1))
      | _ => Some 0
      end
  end.

(** The lines [std::getline] gives. *)
Fixpoint lines (s : list ascii) (line : list ascii) : list string :=
  match s with
  | [] => if decide (line = []) then [] else [text (rev line)]
  | c :: s' => if code c =? 10 then text (rev line) :: lines s' [] else lines s' (c :: line)
  end.

Definition is_cpu_line (line : string) : bool :=
  String.prefix "cpu" line &&
  match String.get 3 line with Some c => isdigit c | None => false end.

(** The loop over the lines; it ends early at a CPU it cannot place. *)
Fixpoint parse_cpu_lines (fs : files) (kMaxCpus : Z) (ls : list string) (usages : list CpuUsage)
    : option (list CpuUsage) :=
  match ls with
  | [] => Some usages
  | line :: ls' =>
      if is_cpu_line line then
        let words := Split line " " in
        name ← words !! 0%nat;
        cpu_num ← wrap_u 64 <$> stoi (String.substring 3 (String.length name) name);
        if cpu_num <? kMaxCpus then
          w1 ← words !! 1%nat; user ← wrap_u 64 <$> stoi w1;
          w2 ← words !! 2%nat; nice ← wrap_u 64 <$> stoi w2;
          w3 ← words !! 3%nat; system ← wrap_u 64 <$> stoi w3;
          w4 ← words !! 4%nat; idle ← wrap_u 64 <$> stoi w4;
          match fs (slash kCpuOnlineRoot (slash name kCpuOnlineFileSuffix)) with
          | None => Some usages
          | Some online =>
              let u := mkUsage name (wrap_u 64 (user + nice + system)) (wrap_u 64 (user + nice + system + idle))
                         (String.eqb (Trim online) "1") in
              usages' ← arr_set usages cpu_num u;
              parse_cpu_lines fs kMaxCpus ls' usages'
          end
        else Some usages
      else parse_cpu_lines fs kMaxCpus ls' usages
  end.

(** The vector is sized for the CPUs before; kMaxCpus is read when the service
    starts. *)
Definition fillCpuUsages (fs : files) (kMaxCpus : Z) : option (list CpuUsage) :=
  let usages := replicate (Z.to_nat kMaxCpus) (mkUsage EmptyString 0 0 false) in
  match fs kCpuUsageFile with
  | None => Some usages
  | Some data => parse_cpu_lines fs kMaxCpus (lines (chars data) []) usages
  end.

(** An attempt to switch a CPU: its file could not be opened, or not written to,
    or [sizeof("1")] bytes were written, with the NUL. *)
Inductive attempt_result := OPEN_FAILED | WRITE_FAILED | WRITTEN.
Record cpu_attempt := mkAttempt { at_path : string; at_data : string; at_result : attempt_result }.

Definition enableCPU (open_ok : string -> bool) (write_ok : string -> string -> bool) (cpu : string) (enable : bool)
    : cpu_attempt :=
  let path := ("/sys/devices/system/cpu/" ++ cpu ++ "/online")%string in
  let data := String (if enable then "1" else "0")%char (String Ascii.zero EmptyString) in
  mkAttempt path data
    (if negb (open_ok path) then OPEN_FAILED else if write_ok path data then WRITTEN else WRITE_FAILED).

(** ** Severities *)

(** An element of a [std::array] of all severities. *)
Definition at_ (a : list spec_float) (i : nat) : spec_float := default S754_nan (a !! i).

Definition severities : Type := nat * nat * nat * nat.

(** One turn of the loop: [ret_hot], [ret_hot_hysteresis], [ret_cold] and
    [ret_cold_hysteresis]. *)
Definition severity_step (hot cold hot_hyst cold_hyst : list spec_float) (value : spec_float)
    (r : severities) (i : nat) : severities :=
  let '(rh, rhh, rc, rch) := r in
  let first (p : bool) (acc : nat) := if p && (acc =? SEV_NONE)%nat then i else acc in
  (first (negb (is_nan (at_ hot i)) && SFleb (at_ hot i) value) rh,
   first (negb (is_nan (at_ hot i)) && SFltb (Binary32.sub (at_ hot i) (at_ hot_hyst i)) value) rhh,
   first (negb (is_nan (at_ cold i)) && SFleb value (at_ cold i)) rc,
   first (negb (is_nan (at_ cold i)) && SFltb value (Binary32.add (at_ cold i) (at_ cold_hyst i))) rch).

Definition getSeverityFromThresholds (hot cold hot_hyst cold_hyst : list spec_float)
    (prev_hot prev_cold : nat) (value : spec_float) : nat * nat :=
  let '(rh, rhh, rc, rch) :=
    foldl (severity_step hot cold hot_hyst cold_hyst value) (SEV_NONE, SEV_NONE, SEV_NONE, SEV_NONE)
      (rev (seq (S SEV_NONE) (SEV_SHUTDOWN - SEV_NONE))) in
  (if (rh <? prev_hot)%nat then rhh else rh, if (rc <? prev_cold)%nat then rch else rc).

(** ** Reading *)

Definition readCoolingDevice (fs : files) (h : ThermalHelper) (name : string) : option (option CoolingDevice) :=
  let '(ok, data) := readThermalFile fs (cooling_devices_ h) name in
  if negb ok then Some None
  else
    type ← cooling_device_info_map_ h !! name;
    value ← stoi data;
    Some (Some (mkCooling type name value)).

(** The temperature and the pair of hot and cold severity. *)
Definition readTemperature (fs : files) (h : ThermalHelper) (name : string)
    : option (option (Temperature * (nat * nat))) :=
  let '(ok, temp) := readThermalFile fs (thermal_sensors_ h) name in
  if negb ok then Some None
  else if String.eqb temp "" then Some None
  else
    info ← sensor_info_map_ h !! name;
    t ← stof temp;
    let value := Binary32.mul t (multiplier info) in
    status ← (if is_monitor info then
                st ← sensor_status_map_ h !! name;
                Some (getSeverityFromThresholds (hot_thresholds info) (cold_thresholds info)
                        (hot_hysteresis info) (cold_hysteresis info)
                        (prev_hot_severity st) (prev_cold_severity st) value)
              else Some (SEV_NONE, SEV_NONE));
    Some (Some (mkTemp (type_ info) name value
                  (if (status.2 <? status.1)%nat then status.1 else status.2), status)).

Definition readTemperatureThreshold (h : ThermalHelper) (name : string) : option TemperatureThreshold :=
  (fun info => mkThreshold (type_ info) name (hot_thresholds info) (cold_thresholds info)) <$>
    sensor_info_map_ h !! name.

Fixpoint fill_temperatures (fs : files) (h : ThermalHelper) (filterType filterCallback : bool) (type : Z)
    (names : list string) : option (list Temperature) :=
  match names with
  | [] => Some []
  | name :: names' =>
      info ← sensor_info_map_ h !! name;
      if filterType && negb (type_ info =? type) then fill_temperatures fs h filterType filterCallback type names'
      else if filterCallback then fill_temperatures fs h filterType filterCallback type names'
      else
        r ← readTemperature fs h name;
        rest ← fill_temperatures fs h filterType filterCallback type names';
        Some (match r with Some (t, _) => t :: rest | None => rest end)
  end.

(** Whether there are any, and what is left in the result. *)
Definition fillCurrentTemperatures (fs : files) (h : ThermalHelper) (filterType filterCallback : bool) (type : Z)
    : option (bool * list Temperature) :=
  ret ← fill_temperatures fs h filterType filterCallback type (sorted_names (sensor_info_map_ h));
  Some (negb (bool_decide (ret = [])), ret).

Fixpoint fill_thresholds (h : ThermalHelper) (filterType : bool) (type : Z) (names : list string)
    : option (option (list TemperatureThreshold)) :=
  match names with
  | [] => Some (Some [])
  | name :: names' =>
      info ← sensor_info_map_ h !! name;
      if filterType && negb (type_ info =? type) then fill_thresholds h filterType type names'
      else
        match readTemperatureThreshold h name with
        | None => Some None
        | Some t => rest <-? fill_thresholds h filterType type names'; Some (Some (t :: rest))
        end
  end.

(** On a fault the result keeps what it held, here nothing. *)
Definition fillTemperatureThresholds (h : ThermalHelper) (filterType : bool) (type : Z)
    : option (bool * list TemperatureThreshold) :=
  r ← fill_thresholds h filterType type (sorted_names (sensor_info_map_ h));
  Some (match r with Some ret => (negb (bool_decide (ret = [])), ret) | None => (false, []) end).

Fixpoint fill_cooling (fs : files) (h : ThermalHelper) (filterType : bool) (type : Z) (names : list string)
    : option (option (list CoolingDevice)) :=
  match names with
  | [] => Some (Some [])
  | name :: names' =>
      t ← cooling_device_info_map_ h !! name;
      if filterType && negb (t =? type) then fill_cooling fs h filterType type names'
      else
        d <-? readCoolingDevice fs h name;
        rest <-? fill_cooling fs h filterType type names';
        Some (Some (d :: rest))
  end.

Definition fillCurrentCoolingDevices (fs : files) (h : ThermalHelper) (filterType : bool) (type : Z)
    : option (bool * list CoolingDevice) :=
  r ← fill_cooling fs h filterType type (sorted_names (cooling_device_info_map_ h));
  Some (match r with Some ret => (negb (bool_decide (ret = [])), ret) | None => (false, []) end).

(** ** The watcher's callback *)

(** The loop's state: the statuses, the temperatures to report, and whether a
    sensor triggers. *)
Record Watch := mkWatch { w_status : gmap string SensorStatus; w_temps : list Temperature; w_triggered : bool }.

Definition with_status (h : ThermalHelper) (m : gmap string SensorStatus) : ThermalHelper :=
  mkHelper (thermal_sensors_ h) (cooling_devices_ h) (is_initialized_ h) (cooling_device_info_map_ h)
    (sensor_info_map_ h) m (monitored_sensors_ h) (thermal_triggered_ h) (is_polling_ h).

Definition watch_one (fs : files) (h : ThermalHelper) (uevent_sensors : gset string) (name : string) (w : Watch)
    : option Watch :=
  status ← w_status w !! name;
  info ← sensor_info_map_ h !! name;
  if negb (is_monitor info) then Some w
  else if bool_decide (uevent_sensors <> ∅) && negb (bool_decide (name ∈ uevent_sensors)) then
    Some (if (severity status =? SEV_NONE)%nat then w else mkWatch (w_status w) (w_temps w) true)
  else
    r ← readTemperature fs (with_status h (w_status w)) name;
    match r with
    | None => Some w
    | Some (temp, throttling_status) =>
        match readTemperatureThreshold h name with
        | None => Some w
        | Some _ =>
            Some (mkWatch (<[name := mkStatus (throttlingStatus temp) throttling_status.1 throttling_status.2]> (w_status w))
                    (w_temps w ++ [temp]) true)
        end
    end.

Fixpoint watch_loop (fs : files) (h : ThermalHelper) (uevent_sensors : gset string) (names : list string) (w : Watch)
    : option Watch :=
  match names with
  | [] => Some w
  | name :: names' => w' ← watch_one fs h uevent_sensors name w; watch_loop fs h uevent_sensors names' w'
  end.

(** The temperatures for [cb_], which is called if there are any, the result,
    and the helper. *)
Definition thermalWatcherCallbackFunc (fs : files) (h : ThermalHelper) (uevent_sensors : gset string)
    : option (list Temperature * bool * ThermalHelper) :=
  w ← watch_loop fs h uevent_sensors (sorted_names (sensor_status_map_ h))
        (mkWatch (sensor_status_map_ h) [] false);
  Some (w_temps w, w_triggered w, with_status h (w_status w)).

(** ** The watcher *)

Definition kUeventMsgLen : Z := 2048.
Definition kMinPollIntervalMs : Z := 2000.
Definition kUeventPollTimeoutMs : Z := 300000.

(** A message of the uevent socket: its length and its strings. *)
Record Uevent := mkUevent { msg_length : Z; msg_fields : list string }.

(** The fields of a message up to the first empty one; [thermal_event] stays
    as the last message left it. *)
Fixpoint parse_fields (monitored : gset string) (fields : list string) (thermal_event : bool) (set_ : gset string)
    : bool * gset string :=
  match fields with
  | [] => (thermal_event, set_)
  | uevent :: fields' =>
      if String.eqb uevent "" then (thermal_event, set_)
      else if negb thermal_event then
        match String.index 0 "SUBSYSTEM=" uevent with
        | Some O =>
            match String.index 0 "SUBSYSTEM=thermal" uevent with
            | Some _ => parse_fields monitored fields' true set_
            | None => (thermal_event, set_)
            end
        | _ => parse_fields monitored fields' thermal_event set_
        end
      else
        match String.index 0 "NAME=" uevent with
        | Some start_pos =>
            let name := String.substring (start_pos + 5) (String.length uevent) uevent in
            (thermal_event, if decide (name ∈ monitored) then {[name]} ∪ set_ else set_)
        | None => parse_fields monitored fields' thermal_event set_
        end
  end.

Fixpoint parse_messages (monitored : gset string) (msgs : list Uevent) (thermal_event : bool) (set_ : gset string)
    : gset string :=
  match msgs with
  | [] => set_
  | m :: msgs' =>
      if msg_length m <=? 0 then set_
      else if kUeventMsgLen <=? msg_length m then parse_messages monitored msgs' thermal_event set_
      else
        let '(te, set') := parse_fields monitored (msg_fields m) thermal_event set_ in
        parse_messages monitored msgs' te set'
  end.

Definition parseUevent (h : ThermalHelper) (msgs : list Uevent) : gset string :=
  parse_messages (monitored_sensors_ h) msgs false ∅.

(** What [pollOnce] found: nothing in time (or a wake-up), another descriptor,
    or the uevent socket with its messages. *)
Inductive poll := PollNone | PollOther | PollUevent (msgs : list Uevent).

Definition poll_timeout (h : ThermalHelper) : Z :=
  if thermal_triggered_ h || is_polling_ h then kMinPollIntervalMs else kUeventPollTimeoutMs.

Definition with_triggered (h : ThermalHelper) (b : bool) : ThermalHelper :=
  mkHelper (thermal_sensors_ h) (cooling_devices_ h) (is_initialized_ h) (cooling_device_info_map_ h)
    (sensor_info_map_ h) (sensor_status_map_ h) (monitored_sensors_ h) b (is_polling_ h).

(** One turn of [threadLoop]: the temperatures it hands on. *)
Definition threadLoop (fs : files) (h : ThermalHelper) (p : poll) : option (list Temperature * ThermalHelper) :=
  let call sensors :=
    '(temps, triggered, h') ← thermalWatcherCallbackFunc fs h sensors;
    Some (temps, with_triggered h' triggered) in
  match p with
  | PollNone => call ∅
  | PollOther => Some ([], h)
  | PollUevent msgs =>
      let sensors := parseUevent h msgs in
      if decide (sensors = ∅) then Some ([], h) else call sensors
  end.

(** ** Initialisation *)

(** The entries of the sensors' directory, and which are directories;
    [emplace] keeps the first of a name. *)
Definition parseThermalPathMap (fs : files) (dir : option (list (string * bool))) (prefix : string) : gmap string string :=
  foldl (fun path_map '(d_name, is_dir) =>
      if negb is_dir then path_map
      else if negb (String.prefix prefix d_name) then path_map
      else
        let dp := slash kThermalSensorsRoot d_name in
        match fs (slash dp kThermalNameFile) with
        | None => path_map
        | Some name => match path_map !! Trim name with Some _ => path_map | None => <[Trim name := dp]> path_map end
        end) ∅ (default [] dir).

(** The files of the names that have a path. *)
Definition add_files {A} (infos : gmap string A) (path_map : gmap string string) (suffix : string) : gmap string string :=
  foldl (fun m name =>
      match path_map !! name with
      | None => m
      | Some p => (addThermalFile m name (slash p suffix)).2
      end) ∅ (sorted_names infos).

Definition initializeSensorMap (infos : gmap string SensorInfo) (path_map : gmap string string) : bool * gmap string string :=
  let m := add_files infos path_map kSensorTempSuffix in (bool_decide (size infos = size m), m).

Definition initializeCoolingDevices (infos : gmap string Z) (path_map : gmap string string) : bool * gmap string string :=
  let m := add_files infos path_map kCoolingDeviceCurStateSuffix in (bool_decide (size infos = size m), m).

(** [static_cast<int>(a / b)]. *)
Definition to_trip (a b : spec_float) : option string :=
  z ← SF_trunc (Binary32.div a b); to_string <$> checked_s 32 z.

(** The first severity with a threshold: what is written to the trip point. *)
Fixpoint trip_loop (info : SensorInfo) (tz_path : string) (is_ : list nat) : option (bool * list (string * string)) :=
  match is_ with
  | [] => Some (true, [])
  | i :: is' =>
      if negb (is_nan (at_ (hot_thresholds info) i)) && negb (is_nan (at_ (hot_hysteresis info) i)) then
        threshold ← to_trip (at_ (hot_thresholds info) i) (multiplier info);
        hyst ← to_trip (at_ (hot_hysteresis info) i) (multiplier info);
        Some (true, [(slash tz_path kSensorTripPointTempZeroFile, threshold);
                     (slash tz_path kSensorTripPointHystZeroFile, hyst)])
      else if decide (i = kThrottlingSeverityCount - 1)%nat then Some (false, [])
      else trip_loop info tz_path is'
  end.

(** Whether all monitored sensors can send events, and what was written. *)
Fixpoint initializeTrip (fs : files) (infos : gmap string SensorInfo) (path_map : gmap string string)
    (names : list string) : option (bool * list (string * string)) :=
  match names with
  | [] => Some (true, [])
  | name :: names' =>
      info ← infos !! name;
      if is_monitor info then
        tz_path ← path_map !! name;
        match fs (slash tz_path kSensorPolicyFile) with
        | None => Some (false, [])
        | Some tz_policy =>
            if negb (String.eqb (Trim tz_policy) kUserSpaceSuffix) then Some (false, [])
            else
              match trip_loop info tz_path (seq 0 kThrottlingSeverityCount) with
              | None => None
              | Some (false, w) => Some (false, w)
              | Some (true, w) => prod_map id (app w) <$> initializeTrip fs infos path_map names'
              end
        end
      else initializeTrip fs infos path_map names'
  end.

(** [registerFilesToWatch]: polling unless the events can be received. *)
Definition registerFilesToWatch (h : ThermalHelper) (sensors : gset string) (uevent_monitor socket_ok : bool) : ThermalHelper :=
  let events := uevent_monitor && socket_ok in
  mkHelper (thermal_sensors_ h) (cooling_devices_ h) (is_initialized_ h) (cooling_device_info_map_ h)
    (sensor_info_map_ h) (sensor_status_map_ h) (monitored_sensors_ h ∪ sensors)
    (if events then true else thermal_triggered_ h) (negb events).

Definition with_initialized (h : ThermalHelper) (b : bool) : ThermalHelper :=
  mkHelper (thermal_sensors_ h) (cooling_devices_ h) b (cooling_device_info_map_ h)
    (sensor_info_map_ h) (sensor_status_map_ h) (monitored_sensors_ h) (thermal_triggered_ h) (is_polling_ h).

Definition monitored (infos : gmap string SensorInfo) : gset string :=
  list_to_set ((fun p => if is_monitor p.2 then p.1 else ""%string) <$> map_to_list infos).

Definition config_path : string :=
  ("/vendor/etc/configs/" ++ GetProperty kConfigProperty
     ("thermal_info_config" ++ "_" ++ GetProperty kSocType "" ++ ".json"))%string.

(** The constructor: the helper, and what it wrote.  [socket_ok]: the event
    socket works; [thread_ok]: the watcher's thread starts. *)
Definition helper_new {J} `{!JsonCpp J} (fs : files) (dir : option (list (string * bool))) (socket_ok thread_ok : bool)
    : option (ThermalHelper * list (string * string)) :=
  cooling ← ParseCoolingDevice fs config_path;
  sensors ← ParseSensorInfo fs config_path;
  let statuses := (fun _ => mkStatus SEV_NONE SEV_NONE SEV_NONE) <$> sensors in
  let tz_map := parseThermalPathMap fs dir kSensorPrefix in
  let cdev_map := parseThermalPathMap fs dir kCoolingDevicePrefix in
  let '(sensors_ok, tfiles) := initializeSensorMap sensors tz_map in
  let '(cooling_ok, cfiles) := if sensors_ok then initializeCoolingDevices cooling cdev_map else (false, ∅) in
  let h := mkHelper tfiles cfiles (sensors_ok && cooling_ok) cooling sensors statuses ∅ false true in
  if negb (is_initialized_ h) then Some (h, [])
  else
    '(uevents, w) ← initializeTrip fs sensors tz_map (sorted_names sensors);
    Some (with_initialized (registerFilesToWatch h (monitored sensors) uevents socket_ok) thread_ok, w).

(** ** The severities found *)

(** The highest of 1 to [n] that satisfies [p], or 0. *)
Fixpoint highest (p : nat -> bool) (n : nat) : nat :=
  match n with O => O | S m => if p n then n else highest p m end.

Lemma highest_le p n : (highest p n <= n)%nat.
Proof. induction n as [|n IH]; cbn; [lia|]. case_match; lia. Qed.

Lemma highest_ge p n i : p i = true -> (1 <= i <= n)%nat -> (i <= highest p n)%nat.
Proof.
  intros Hp. induction n as [|n IH]; cbn; intros Hi; [lia|].
  destruct (p (S n)) eqn:Hn; [lia|]. apply IH. destruct (decide (i = S n)); [congruence|lia].
Qed.

Lemma highest_holds p n : highest p n = 0%nat \/ p (highest p n) = true.
Proof. induction n as [|n IH]; cbn; [by left|]. destruct (p (S n)) eqn:Hn; [by right|done]. Qed.

Lemma highest_is p n k : (1 <= k <= n)%nat -> p k = true -> (forall i, (k < i <= n)%nat -> p i = false) -> highest p n = k.
Proof.
  intros Hk Hp Hno. pose proof (highest_ge p n k Hp Hk). pose proof (highest_le p n).
  destruct (highest_holds p n) as [Hz|Hh]; [lia|].
  destruct (decide (highest p n = k)); [done|]. rewrite Hno in Hh by lia. done.
Qed.

(** A threshold is reached, or held by the hysteresis. *)
Definition reached (hot : list spec_float) (value : spec_float) (i : nat) : bool :=
  negb (is_nan (at_ hot i)) && SFleb (at_ hot i) value.
Definition held (hot hyst : list spec_float) (value : spec_float) (i : nat) : bool :=
  negb (is_nan (at_ hot i)) && SFltb (Binary32.sub (at_ hot i) (at_ hyst i)) value.
Definition cold_reached (cold : list spec_float) (value : spec_float) (i : nat) : bool :=
  negb (is_nan (at_ cold i)) && SFleb value (at_ cold i).
Definition cold_held (cold hyst : list spec_float) (value : spec_float) (i : nat) : bool :=
  negb (is_nan (at_ cold i)) && SFltb value (Binary32.add (at_ cold i) (at_ hyst i)).

Definition graded (p q : nat -> bool) (prev : nat) : nat :=
  let r := highest p SEV_SHUTDOWN in if (r <? prev)%nat then highest q SEV_SHUTDOWN else r.

Lemma severity_loop `{!ThermalAbiLaws} hot cold hh ch v n a b c d :
  foldl (severity_step hot cold hh ch v) (a, b, c, d) (rev (seq 1 n)) =
  (if (a =? 0)%nat then highest (reached hot v) n else a,
   if (b =? 0)%nat then highest (held hot hh v) n else b,
   if (c =? 0)%nat then highest (cold_reached cold v) n else c,
   if (d =? 0)%nat then highest (cold_held cold ch v) n else d).
Proof.
  revert a b c d. induction n as [|n IH]; intros a b c d; [by destruct a, b, c, d|].
  rewrite seq_S, rev_app_distr. cbn [rev app foldl Nat.add]. unfold severity_step at 2. rewrite IH, sev_none.
  fold (reached hot v (S n)) (held hot hh v (S n)) (cold_reached cold v (S n)) (cold_held cold ch v (S n)).
  cbn [highest].
  destruct (reached hot v (S n)), (held hot hh v (S n)), (cold_reached cold v (S n)), (cold_held cold ch v (S n)),
    a, b, c, d; done.
Qed.

Lemma severity_graded `{!ThermalAbiLaws} hot cold hh ch ph pc v :
  getSeverityFromThresholds hot cold hh ch ph pc v =
  (graded (reached hot v) (held hot hh v) ph, graded (cold_reached cold v) (cold_held cold ch v) pc).
Proof.
  unfold getSeverityFromThresholds. rewrite sev_none, Nat.sub_0_r, severity_loop. done.
Qed.

(** A severity stays while its threshold is held and no higher one is reached
    or held. *)
Lemma graded_stays p q k :
  (1 <= k <= SEV_SHUTDOWN)%nat -> q k = true ->
  (forall i, (k < i <= SEV_SHUTDOWN)%nat -> p i = false /\ q i = false) -> graded p q k = k.
Proof.
  intros Hk Hq Hno. unfold graded. destruct (Nat.ltb_spec (highest p SEV_SHUTDOWN) k).
  - apply highest_is; [done|done|]. intros i Hi. by apply Hno.
  - pose proof (highest_le p SEV_SHUTDOWN). destruct (highest_holds p SEV_SHUTDOWN) as [Hz|Hh]; [lia|].
    destruct (decide (highest p SEV_SHUTDOWN = k)); [done|].
    destruct (Hno (highest p SEV_SHUTDOWN)) as [Hp _]; [lia|]. congruence.
Qed.

Lemma graded_enters p q prev k :
  (1 <= k <= SEV_SHUTDOWN)%nat -> (prev <= k)%nat -> p k = true ->
  (forall i, (k < i <= SEV_SHUTDOWN)%nat -> p i = false) -> graded p q prev = k.
Proof.
  intros Hk Hprev Hp Hno. unfold graded. rewrite (highest_is p SEV_SHUTDOWN k) by done.
  destruct (Nat.ltb_spec k prev); [lia|done].
Qed.

(** ** The callback *)

Definition sensor_text (fs : files) (h : ThermalHelper) (name text_ : string) : Prop :=
  readThermalFile fs (thermal_sensors_ h) name = (true, text_) /\ text_ <> ""%string.

(** Every sensor that can be read gives a number. *)
Definition readable (fs : files) (h : ThermalHelper) : Prop :=
  forall name t, sensor_text fs h name t -> is_Some (stof t).

(** What the reading [x] of a sensor becomes. *)
Definition grade (info : SensorInfo) (st : SensorStatus) (value : spec_float) : nat * nat :=
  getSeverityFromThresholds (hot_thresholds info) (cold_thresholds info) (hot_hysteresis info) (cold_hysteresis info)
    (prev_hot_severity st) (prev_cold_severity st) value.

Definition worse_of (s : nat * nat) : nat := if (s.2 <? s.1)%nat then s.1 else s.2.

Record updated (fs : files) (h : ThermalHelper) (name : string) (info : SensorInfo) (st : SensorStatus)
    (w w' : Watch) (t : string) (x : spec_float) : Prop := {
  up_text : sensor_text fs h name t; up_number : stof t = Some x; up_monitored : is_monitor info = true;
  up_status : let s := grade info st (Binary32.mul x (multiplier info)) in
    w_status w' = <[name := mkStatus (worse_of s) s.1 s.2]> (w_status w) /\
    w_temps w' = w_temps w ++ [mkTemp (type_ info) name (Binary32.mul x (multiplier info)) (worse_of s)];
  up_triggered : w_triggered w' = true
}.

(** A turn for one sensor leaves the statuses and the temperatures, or grades
    the sensor's reading. *)
Lemma watch_one_cases fs h ue name w st info :
  readable fs h -> w_status w !! name = Some st -> sensor_info_map_ h !! name = Some info ->
  exists w', watch_one fs h ue name w = Some w' /\
    (w_status w' = w_status w /\ w_temps w' = w_temps w /\ (w_triggered w = true -> w_triggered w' = true) \/
     exists t x, updated fs h name info st w w' t x).
Proof.
  intros Hr Hst Hinfo. unfold watch_one. rewrite Hst. cbn. rewrite Hinfo. cbn.
  destruct (is_monitor info) eqn:Hmon; cbn; [|eexists; split; [done|by left]].
  case_match eqn:Hue.
  { eexists; split; [done|]. left. by case_match. }
  unfold readTemperature. cbn [thermal_sensors_ with_status sensor_info_map_ sensor_status_map_].
  destruct (readThermalFile fs (thermal_sensors_ h) name) as [[] t] eqn:Ht; cbn;
    [|eexists; split; [done|by left]].
  destruct (String.eqb_spec t "") as [->|Hne]; [eexists; split; [done|by left]|].
  destruct (Hr name t) as [x Hx]; [done|]. rewrite Hinfo, Hx. cbn. rewrite Hmon. cbn. rewrite Hst. cbn.
  unfold readTemperatureThreshold. rewrite Hinfo. cbn.
  eexists. split; [reflexivity|]. right. exists t, x. by split.
Qed.

(** What every turn keeps, the loop keeps. *)
Lemma watch_loop_keeps fs h ue names w (I : Watch -> Prop) :
  (forall name w1, name ∈ names -> I w1 -> exists w2, watch_one fs h ue name w1 = Some w2 /\ I w2) ->
  I w -> exists w', watch_loop fs h ue names w = Some w' /\ I w'.
Proof.
  revert w. induction names as [|name names IH]; intros w Hone Hw; [by exists w|].
  destruct (Hone name w) as (w1 & Hw1 & HI); [apply list_elem_of_here|done|].
  cbn. rewrite Hw1. cbn. apply IH; [|done]. intros n w2 Hn. apply Hone. by apply list_elem_of_further.
Qed.

Definition helper_ok (h : ThermalHelper) : Prop :=
  dom (sensor_status_map_ h) = (dom (sensor_info_map_ h) : gset string).

(** The reading [v] keeps severity [k]: its threshold is held, none above is. *)
Definition in_band (info : SensorInfo) (k : nat) (v : spec_float) : Prop :=
  held (hot_thresholds info) (hot_hysteresis info) v k = true /\
  forall i, (k < i <= SEV_SHUTDOWN)%nat ->
    reached (hot_thresholds info) v i = false /\ held (hot_thresholds info) (hot_hysteresis info) v i = false.

(** Whatever can be read of the sensor is in the band. *)
Definition stays_in_band (fs : files) (h : ThermalHelper) (name : string) (info : SensorInfo) (k : nat) : Prop :=
  forall t x, sensor_text fs h name t -> stof t = Some x -> in_band info k (Binary32.mul x (multiplier info)).

(** The invariant of a pass for one sensor at severity [k]. *)
Record at_level (h : ThermalHelper) (name : string) (k : nat) (w : Watch) : Prop := {
  al_dom : dom (w_status w) = (dom (sensor_info_map_ h) : gset string);
  al_prev : exists st, w_status w !! name = Some st /\ prev_hot_severity st = k;
  al_temps : forall t, t ∈ w_temps w -> t_name t = name -> (k <= throttlingStatus t)%nat
}.

Lemma worse_of_ge s : (s.1 <= worse_of s)%nat.
Proof. unfold worse_of. destruct (Nat.ltb_spec s.2 s.1); lia. Qed.

Lemma watch_one_level `{!ThermalAbiLaws} fs h ue name0 name k info w :
  readable fs h -> sensor_info_map_ h !! name = Some info -> (1 <= k <= SEV_SHUTDOWN)%nat ->
  stays_in_band fs h name info k -> name0 ∈ (dom (sensor_info_map_ h) : gset string) -> at_level h name k w ->
  exists w', watch_one fs h ue name0 w = Some w' /\ at_level h name k w'.
Proof.
  intros Hr Hinfo Hk Hband Hin [Hdom (st & Hst & Hprev) Htemps].
  assert (is_Some (w_status w !! name0)) as [st0 Hst0] by (apply elem_of_dom; by rewrite Hdom).
  apply elem_of_dom in Hin as [info0 Hinfo0].
  destruct (watch_one_cases fs h ue name0 w st0 info0) as (w' & Hw' & Hcases); [done..|].
  exists w'. split; [done|]. destruct Hcases as [(Hs & Ht & _)|(t & x & [Htext Hx Hmon (Hs & Ht) _])].
  { split; rewrite ?Hs, ?Ht; eauto. }
  assert (dom (w_status w') = (dom (sensor_info_map_ h) : gset string)) as Hdom'.
  { rewrite Hs, dom_insert_L, Hdom. apply elem_of_dom_2 in Hinfo0.
    by apply subseteq_union_1_L, singleton_subseteq_l. }
  destruct (decide (name0 = name)) as [->|Hne].
  - assert (info0 = info) as -> by congruence. assert (st0 = st) as -> by congruence.
    specialize (Hband t x Htext Hx) as [Hheld Hno].
    assert ((grade info st (Binary32.mul x (multiplier info))).1 = k) as Hg.
    { unfold grade. rewrite severity_graded, Hprev. by apply graded_stays. }
    split; [done| |].
    + rewrite Hs. eexists. split; [apply lookup_insert_eq|done].
    + intros t'. rewrite Ht, elem_of_app, list_elem_of_singleton. intros [Hin|Heq] Hname; [by apply Htemps|].
      rewrite Heq. cbn [throttlingStatus]. rewrite <- Hg at 1. apply worse_of_ge.
  - split; [done| |].
    + rewrite Hs, lookup_insert_ne by done. eauto.
    + intros t'. rewrite Ht, elem_of_app, list_elem_of_singleton. intros [Hin|Heq] Hname; [by apply Htemps|].
      rewrite Heq in Hname. cbn in Hname. congruence.
Qed.

(** What is to be reported of a sensor by a pass for the sensors [ue], or for
    all of them: its reading, if it is looked at and can be read. *)
Definition looked_at (ue : gset string) (name : string) : bool := bool_decide (ue = ∅ \/ name ∈ ue).

Definition sensor_value (fs : files) (h : ThermalHelper) (name : string) (info : SensorInfo) : option spec_float :=
  let '(ok, t) := readThermalFile fs (thermal_sensors_ h) name in
  if ok && negb (String.eqb t "") then (fun x => Binary32.mul x (multiplier info)) <$> stof t else None.

Definition pass_reports (fs : files) (h : ThermalHelper) (ue : gset string) (name : string) (info : SensorInfo)
    : list spec_float :=
  if is_monitor info && looked_at ue name then option_list (sensor_value fs h name info) else [].

(** The values reported of a sensor. *)
Definition values_of (name : string) (temps : list Temperature) : list spec_float :=
  t_value <$> filter (fun t => t_name t = name) temps.

Lemma values_of_app name l1 l2 : values_of name (l1 ++ l2) = values_of name l1 ++ values_of name l2.
Proof. unfold values_of. by rewrite filter_app, fmap_app. Qed.

Lemma watch_one_reports fs h ue name0 name info w w' :
  readable fs h -> sensor_info_map_ h !! name = Some info -> is_Some (sensor_info_map_ h !! name0) ->
  is_Some (w_status w !! name0) -> watch_one fs h ue name0 w = Some w' ->
  values_of name (w_temps w') =
    values_of name (w_temps w) ++ if decide (name0 = name) then pass_reports fs h ue name info else [].
Proof.
  intros Hr Hinfo [info0 Hinfo0] [st0 Hst0] Hw. case_decide as Hn.
  - subst name0. assert (info0 = info) as -> by congruence. unfold watch_one in Hw.
    rewrite Hst0 in Hw. cbn in Hw. rewrite Hinfo in Hw. cbn in Hw. unfold pass_reports, looked_at.
    destruct (is_monitor info) eqn:Hmon; cbn in *; [|injection Hw as <-; by rewrite app_nil_r].
    assert (bool_decide (ue <> ∅) && negb (bool_decide (name ∈ ue)) = negb (bool_decide (ue = ∅ \/ name ∈ ue))) as Hb.
    { destruct (decide (ue = ∅)), (decide (name ∈ ue));
        repeat first [rewrite bool_decide_eq_true_2 by tauto|rewrite bool_decide_eq_false_2 by tauto]; done. }
    rewrite Hb in Hw. destruct (bool_decide (ue = ∅ \/ name ∈ ue)); cbn in *.
    2: { injection Hw as <-. rewrite app_nil_r. by case_match. }
    unfold readTemperature in Hw. cbn [thermal_sensors_ with_status sensor_info_map_ sensor_status_map_] in Hw.
    unfold sensor_value. destruct (readThermalFile fs (thermal_sensors_ h) name) as [[] t] eqn:Ht; cbn in *;
      [|injection Hw as <-; by rewrite app_nil_r].
    destruct (String.eqb_spec t "") as [->|Hne]; cbn in *; [injection Hw as <-; by rewrite app_nil_r|].
    destruct (Hr name t) as [x Hx]; [done|]. rewrite Hinfo, Hx in Hw. rewrite Hx. cbn in Hw.
    rewrite Hmon, Hst0 in Hw. cbn in Hw. unfold readTemperatureThreshold in Hw. rewrite Hinfo in Hw. cbn in Hw.
    injection Hw as <-. cbn [w_temps]. rewrite values_of_app. f_equal. unfold values_of. rewrite filter_cons. cbn.
    by rewrite decide_True.
  - destruct (watch_one_cases fs h ue name0 w st0 info0) as (w1 & Hw1 & Hcases); [done..|].
    rewrite Hw in Hw1. injection Hw1 as <-. rewrite app_nil_r.
    destruct Hcases as [(_ & -> & _)|(t & x & [_ _ _ (_ & ->) _])]; [done|].
    rewrite values_of_app. unfold values_of at 2. rewrite filter_cons. cbn. rewrite decide_False by done. apply app_nil_r.
Qed.

Lemma watch_one_dom fs h ue name0 w w' :
  readable fs h -> dom (w_status w) = (dom (sensor_info_map_ h) : gset string) -> name0 ∈ (dom (sensor_info_map_ h) : gset string) ->
  watch_one fs h ue name0 w = Some w' -> dom (w_status w') = (dom (sensor_info_map_ h) : gset string).
Proof.
  intros Hr Hd Hin Hw. assert (is_Some (w_status w !! name0)) as [st0 Hst0] by (apply elem_of_dom; by rewrite Hd).
  pose proof Hin as [info0 Hinfo0]%elem_of_dom.
  destruct (watch_one_cases fs h ue name0 w st0 info0) as (w1 & Hw1 & Hcases); [done..|].
  rewrite Hw in Hw1. injection Hw1 as <-. destruct Hcases as [(-> & _)|(t & x & [_ _ _ (-> & _) _])]; [done|].
  rewrite dom_insert_L, Hd. by apply subseteq_union_1_L, singleton_subseteq_l.
Qed.

(** A pass reports what it should of the sensor. *)
Lemma watch_loop_reports fs h ue name info names w w' :
  readable fs h -> sensor_info_map_ h !! name = Some info -> NoDup names ->
  (forall n, n ∈ names -> n ∈ (dom (sensor_info_map_ h) : gset string)) ->
  dom (w_status w) = (dom (sensor_info_map_ h) : gset string) -> watch_loop fs h ue names w = Some w' ->
  values_of name (w_temps w') =
    values_of name (w_temps w) ++ if decide (name ∈ names) then pass_reports fs h ue name info else [].
Proof.
  intros Hr Hinfo. revert w. induction names as [|n names IH]; intros w Hnd Hin Hd Hw; cbn in Hw.
  { injection Hw as <-. by rewrite decide_False, app_nil_r by (by intros ?%elem_of_nil). }
  apply bind_Some in Hw as (w1 & H1 & Hw). apply NoDup_cons in Hnd as [Hnot Hnd].
  assert (n ∈ (dom (sensor_info_map_ h) : gset string)) as Hn by (apply Hin, list_elem_of_here).
  rewrite (IH w1); [|done|by intros m Hm; apply Hin, list_elem_of_further|by eapply watch_one_dom|done].
  rewrite (watch_one_reports fs h ue n name info w w1);
    [|done|done|by apply elem_of_dom|apply elem_of_dom; by rewrite Hd|done].
  rewrite <- (assoc_L (++)). f_equal. destruct (decide (n = name)) as [->|Hne].
  - rewrite (decide_False (P := name ∈ names)), (decide_True (P := name ∈ name :: names)) by (done || apply list_elem_of_here).
    apply app_nil_r.
  - destruct (decide (name ∈ names)) as [Hi|Hi].
    + by rewrite decide_True by (by apply list_elem_of_further).
    + rewrite decide_False; [done|]. by intros [->|?]%elem_of_cons.
Qed.

(** What is to be reported of the sensor by a turn of the watcher. *)
Definition turn_reports (h : ThermalHelper) (name : string) (info : SensorInfo) (fp : files * poll) : list spec_float :=
  match fp.2 with
  | PollNone => pass_reports fp.1 h ∅ name info
  | PollOther => []
  | PollUevent msgs =>
      if decide (parseUevent h msgs = ∅) then [] else pass_reports fp.1 h (parseUevent h msgs) name info
  end.

Lemma threadLoop_reports fs p h name info temps h' :
  helper_ok h -> readable fs h -> sensor_info_map_ h !! name = Some info -> threadLoop fs h p = Some (temps, h') ->
  values_of name temps = turn_reports h name info (fs, p) /\ monitored_sensors_ h' = monitored_sensors_ h.
Proof.
  intros Hok Hr Hinfo. assert (forall ue, ('(temps, triggered, h') ← thermalWatcherCallbackFunc fs h ue;
      Some (temps, with_triggered h' triggered)) = Some (temps, h') ->
      values_of name temps = pass_reports fs h ue name info /\ monitored_sensors_ h' = monitored_sensors_ h) as Hcall.
  { intros ue Hc. unfold thermalWatcherCallbackFunc in Hc.
    destruct (watch_loop fs h ue (sorted_names (sensor_status_map_ h)) (mkWatch (sensor_status_map_ h) [] false))
      as [w|] eqn:Hw; cbn in Hc; [|done]. injection Hc as <- <-. split; [|done].
    pose proof (watch_loop_reports fs h ue name info (sorted_names (sensor_status_map_ h))
      (mkWatch (sensor_status_map_ h) [] false) w Hr Hinfo
      (NoDup_sorted_names _)) as Hrep. rewrite Hrep; [|..|exact Hw].
    - cbn. rewrite decide_True; [done|]. apply elem_of_sorted_names, elem_of_dom. rewrite Hok. by eapply elem_of_dom_2.
    - intros n Hn%elem_of_sorted_names. rewrite <- Hok. by apply elem_of_dom.
    - exact Hok. }
  unfold threadLoop, turn_reports. cbn [fst snd]. destruct p as [| |msgs]; [apply Hcall|by intros [= <- <-]|].
  case_decide; [by intros [= <- <-]|apply Hcall].
Qed.

Lemma callback_level `{!ThermalAbiLaws} fs h ue name k info st :
  helper_ok h -> readable fs h -> sensor_info_map_ h !! name = Some info -> (1 <= k <= SEV_SHUTDOWN)%nat ->
  sensor_status_map_ h !! name = Some st -> prev_hot_severity st = k -> stays_in_band fs h name info k ->
  exists temps b w, thermalWatcherCallbackFunc fs h ue = Some (temps, b, with_status h (w_status w)) /\
    at_level h name k w /\ w_temps w = temps.
Proof.
  intros Hok Hr Hinfo Hk Hst Hprev Hband. unfold thermalWatcherCallbackFunc.
  edestruct (watch_loop_keeps fs h ue (sorted_names (sensor_status_map_ h)) (mkWatch (sensor_status_map_ h) [] false)
    (at_level h name k)) as (w & Hw & Hl).
  - intros n w1 Hn. eapply watch_one_level; [done..|]. apply elem_of_sorted_names in Hn. rewrite <- Hok. by apply elem_of_dom.
  - split; cbn; [done|eauto|]. intros t Ht. by apply elem_of_nil in Ht.
  - rewrite Hw. cbn. eauto 10.
Qed.

(** The turns of the watcher's thread. *)
Fixpoint turns (l : list (files * poll)) (h : ThermalHelper) : option (list Temperature * ThermalHelper) :=
  match l with
  | [] => Some ([], h)
  | (fs, p) :: l' =>
      match threadLoop fs h p with
      | None => None
      | Some (temps, h') => prod_map (app temps) id <$> turns l' h'
      end
  end.

Lemma threadLoop_level `{!ThermalAbiLaws} fs p h name k info st :
  helper_ok h -> readable fs h -> sensor_info_map_ h !! name = Some info -> (1 <= k <= SEV_SHUTDOWN)%nat ->
  sensor_status_map_ h !! name = Some st -> prev_hot_severity st = k -> stays_in_band fs h name info k ->
  exists temps h', threadLoop fs h p = Some (temps, h') /\
    helper_ok h' /\ sensor_info_map_ h' = sensor_info_map_ h /\ thermal_sensors_ h' = thermal_sensors_ h /\
    (exists st', sensor_status_map_ h' !! name = Some st' /\ prev_hot_severity st' = k) /\
    forall t, t ∈ temps -> t_name t = name -> (k <= throttlingStatus t)%nat.
Proof.
  intros Hok Hr Hinfo Hk Hst Hprev Hband.
  assert (exists h', Some ([], h) = Some ([] : list Temperature, h') /\ helper_ok h' /\
    sensor_info_map_ h' = sensor_info_map_ h /\ thermal_sensors_ h' = thermal_sensors_ h /\
    (exists st', sensor_status_map_ h' !! name = Some st' /\ prev_hot_severity st' = k)) as (h0 & Hs & Hh0).
  { eexists. split; [done|]. split_and!; eauto. }
  assert (forall t, t ∈ ([] : list Temperature) -> t_name t = name -> (k <= throttlingStatus t)%nat) as Hnil.
  { intros t Ht. by apply elem_of_nil in Ht. }
  assert (forall ue, exists temps h', ('(temps, triggered, h') ← thermalWatcherCallbackFunc fs h ue;
      Some (temps, with_triggered h' triggered)) = Some (temps, h') /\
    helper_ok h' /\ sensor_info_map_ h' = sensor_info_map_ h /\ thermal_sensors_ h' = thermal_sensors_ h /\
    (exists st', sensor_status_map_ h' !! name = Some st' /\ prev_hot_severity st' = k) /\
    forall t, t ∈ temps -> t_name t = name -> (k <= throttlingStatus t)%nat) as Hcall.
  { intros ue. destruct (callback_level fs h ue name k info st) as (temps & b & w & Hc & [Hdom Hp Ht] & Hw); [done..|].
    rewrite Hc. cbn. eexists _, _. split; [reflexivity|]. rewrite <- Hw. split_and!; try done. }
  unfold threadLoop. destruct p as [| |msgs].
  - apply Hcall.
  - eexists [], h0. split; [done|]. by split_and!; try apply Hh0.
  - case_decide; [|apply Hcall]. eexists [], h0. split; [done|]. by split_and!; try apply Hh0.
Qed.

(** C33: no chatter.  Once a monitored sensor has a hot severity, it keeps it
    through any turns of the watcher, by events or by polling, as long as its
    readings stay above the severity's threshold less its hysteresis and below
    the bands of the higher severities.  Meanwhile each turn that looks at the sensor
    and can read it reports its reading, once, with at least that severity, and no
    other turn reports it.  The watcher does not fail. *)
Theorem severity_no_chatter `{!ThermalAbiLaws} l h name k info st :
  helper_ok h -> sensor_info_map_ h !! name = Some info -> (1 <= k <= SEV_SHUTDOWN)%nat ->
  sensor_status_map_ h !! name = Some st -> prev_hot_severity st = k ->
  Forall (fun fp => readable fp.1 h /\ stays_in_band fp.1 h name info k) l ->
  exists temps h', turns l h = Some (temps, h') /\
    (exists st', sensor_status_map_ h' !! name = Some st' /\ prev_hot_severity st' = k) /\
    values_of name temps = l ≫= turn_reports h name info /\
    forall t, t ∈ temps -> t_name t = name -> (k <= throttlingStatus t)%nat.
Proof.
  revert h st. induction l as [|[fs p] l IH]; intros h st Hok Hinfo Hk Hst Hprev Hall; cbn.
  { eexists [], h. split; [done|]. split_and!; [eauto|done|]. intros t Ht. by apply elem_of_nil in Ht. }
  apply Forall_cons in Hall as [[Hr Hband] Hall].
  destruct (threadLoop_level fs p h name k info st) as (temps & h1 & Hl & Hok1 & Hi1 & Hs1 & (st1 & Hst1 & Hp1) & Ht1);
    [done..|]. destruct (threadLoop_reports fs p h name info temps h1 Hok Hr Hinfo Hl) as [Hv Hm1].
  destruct (IH h1 st1) as (temps2 & h2 & Hl2 & Hst2 & Hv2 & Ht2); [done|by rewrite Hi1|done..| |].
  { eapply Forall_impl; [exact Hall|]. intros [fs' p']. cbn. unfold readable, stays_in_band, sensor_text. by rewrite Hs1. }
  rewrite Hl, Hl2. cbn. eexists _, _. split; [done|]. split_and!; [done| |intros t [Ht|Ht]%elem_of_app; auto].
  rewrite values_of_app, Hv, Hv2. f_equal. apply list_bind_ext; [|done]. intros [fs' p'].
  unfold turn_reports, parseUevent, pass_reports, sensor_value. cbn. by rewrite Hm1, Hs1.
Qed.

(** The two ways the grading goes wrong at its edges.  When the band of a
    higher severity reaches below the threshold of the present one, the severity
    goes up as the temperature goes down.  And a reading that is exactly a
    threshold without hysteresis takes the severity from above to none, and the
    same reading the next time back up to that threshold's. *)
Lemma severity_anomalies `{!ThermalAbiLaws} info st v k j :
  (k < prev_hot_severity st)%nat -> (1 <= k)%nat -> (prev_hot_severity st <= SEV_SHUTDOWN)%nat ->
  reached (hot_thresholds info) v k = true ->
  (forall i, (k < i <= SEV_SHUTDOWN)%nat -> reached (hot_thresholds info) v i = false) ->
  ((prev_hot_severity st < j <= SEV_SHUTDOWN)%nat -> held (hot_thresholds info) (hot_hysteresis info) v j = true ->
     (prev_hot_severity st < (grade info st v).1)%nat) /\
  ((forall i, (1 <= i <= SEV_SHUTDOWN)%nat -> held (hot_thresholds info) (hot_hysteresis info) v i = false) ->
     (grade info st v).1 = 0%nat /\
     forall st', prev_hot_severity st' = 0%nat -> (grade info st' v).1 = k).
Proof.
  intros Hprev Hk Hmax Hreach Hno. unfold grade. setoid_rewrite severity_graded. cbn [fst].
  assert (highest (reached (hot_thresholds info) v) SEV_SHUTDOWN = k) as Hhigh.
  { apply highest_is; [lia|done|]. intros i Hi. apply Hno. lia. }
  unfold graded. rewrite Hhigh. destruct (Nat.ltb_spec k (prev_hot_severity st)); [|lia]. split.
  - intros Hj Hheld. pose proof (highest_ge _ SEV_SHUTDOWN j Hheld ltac:(lia)). lia.
  - intros Hnone. split.
    + destruct (highest_holds (held (hot_thresholds info) (hot_hysteresis info) v) SEV_SHUTDOWN) as [|Hh]; [done|].
      pose proof (highest_le (held (hot_thresholds info) (hot_hysteresis info) v) SEV_SHUTDOWN) as Hle.
      destruct (highest (held _ _ v) SEV_SHUTDOWN) as [|n] eqn:Hn; [done|]. rewrite Hnone in Hh by lia. done.
    + intros st' ->. by destruct (Nat.ltb_spec k 0); [lia|].
Qed.
(** A sensor that was read makes the watcher poll every two seconds, whatever
    its severity. *)
Lemma callback_triggers fs h ue name info st :
  helper_ok h -> readable fs h -> sensor_info_map_ h !! name = Some info -> is_monitor info = true ->
  sensor_status_map_ h !! name = Some st -> ue = ∅ \/ name ∈ ue -> (exists t, sensor_text fs h name t) ->
  exists temps h', thermalWatcherCallbackFunc fs h ue = Some (temps, true, h') /\
    poll_timeout (with_triggered h' true) = kMinPollIntervalMs.
Proof.
  intros Hok Hr Hinfo Hmon Hst Hue Htext. unfold thermalWatcherCallbackFunc.
  set (names := sorted_names (sensor_status_map_ h)).
  assert (name ∈ names) as Hin by (apply elem_of_sorted_names; eauto).
  enough (exists w', watch_loop fs h ue names (mkWatch (sensor_status_map_ h) [] false) = Some w' /\ w_triggered w' = true)
    as (w' & -> & Ht) by (cbn; rewrite Ht; eauto).
  assert (forall n w, n ∈ names -> dom (w_status w) = (dom (sensor_info_map_ h) : gset string) ->
    exists w', watch_one fs h ue n w = Some w' /\ dom (w_status w') = (dom (sensor_info_map_ h) : gset string) /\
      (w_triggered w = true \/ n = name -> w_triggered w' = true)) as Hone.
  { intros n w Hn Hd. apply elem_of_sorted_names in Hn. pose proof Hn as Hn2. apply elem_of_dom in Hn. rewrite Hok in Hn.
    assert (is_Some (w_status w !! n)) as [st1 Hst1] by (apply elem_of_dom; by rewrite Hd).
    pose proof Hn as Hn3. apply elem_of_dom in Hn3 as [info1 Hinfo1].
    destruct (watch_one_cases fs h ue n w st1 info1) as (w' & Hw' & Hcases); [done..|].
    exists w'. split; [done|]. destruct Hcases as [(Hs & Ht & Hb)|(t & x & [Htx Hx _ (Hs & Ht) Hb])].
    - split; [by rewrite Hs|]. intros [Hb'| ->]; [auto|]. exfalso.
      destruct Htext as [t [Ht1 Ht2]]. destruct (Hr name t) as [x Hx]; [done|].
      unfold watch_one in Hw'. rewrite Hst1 in Hw'. cbn in Hw'. rewrite Hinfo in Hw'. cbn in Hw'. rewrite Hmon in Hw'. cbn in Hw'.
      rewrite (proj2 (andb_false_iff _ _)) in Hw' by (destruct Hue as [->|Hi]; [by left|right; by rewrite bool_decide_eq_true_2]).
      unfold readTemperature in Hw'. cbn [thermal_sensors_ with_status sensor_info_map_ sensor_status_map_] in Hw'.
      rewrite Ht1 in Hw'. cbn in Hw'. destruct (String.eqb_spec t ""); [done|].
      rewrite Hinfo, Hx in Hw'. cbn in Hw'. rewrite Hmon, Hst1 in Hw'. cbn in Hw'.
      unfold readTemperatureThreshold in Hw'. rewrite Hinfo in Hw'. cbn in Hw'. injection Hw' as <-. cbn in Ht.
      apply (f_equal length) in Ht. rewrite length_app in Ht. cbn in Ht. lia.
    - split; [|done]. rewrite Hs, dom_insert_L, Hd. by apply subseteq_union_1_L, singleton_subseteq_l. }
  clearbody names.
  enough (forall w, dom (w_status w) = (dom (sensor_info_map_ h) : gset string) -> w_triggered w = true \/ name ∈ names ->
    exists w', watch_loop fs h ue names w = Some w' /\ w_triggered w' = true) as Hall by (apply Hall; [exact Hok|by right]).
  clear Hin. induction names as [|n names IH]; intros w Hd Hw.
  - exists w. split; [done|]. destruct Hw as [|Hw]; [done|]. by apply elem_of_nil in Hw.
  - destruct (Hone n w) as (w1 & Hw1 & Hd1 & Ht1); [apply list_elem_of_here|done|].
    cbn. rewrite Hw1. cbn. apply IH; [|done|].
    + intros n' w' Hn'. apply Hone. by apply list_elem_of_further.
    + destruct Hw as [Hw|[Hw|Hw]%elem_of_cons]; auto.
Qed.

(** A counter of /proc/stat above the largest [int] ends the service: the
    counters are read with [std::stoi]. *)
Lemma cpu_counter_aborts fs n line ls usages w0 w1 num :
  is_cpu_line line = true -> Split line " " !! 0%nat = Some w0 -> Split line " " !! 1%nat = Some w1 ->
  stoi (String.substring 3 (String.length w0) w0) = Some num -> 0 <= num < n -> num < 2 ^ 31 ->
  stoi w1 = None -> parse_cpu_lines fs n (line :: ls) usages = None.
Proof.
  intros Hl Hw0 Hw1 Hnum Hn Hb Hw. cbn [parse_cpu_lines]. rewrite Hl. cbn. rewrite Hw0. cbn. rewrite Hnum. cbn.
  rewrite wrap_u_id by (unfold in_u; lia). rewrite (proj2 (Z.ltb_lt _ _)) by lia. rewrite Hw1. cbn. by rewrite Hw.
Qed.

(** A configuration that was rejected leaves a service that is initialised,
    with no sensor. *)
Lemma rejected_config_initialises {J} `{!JsonCpp J} fs dir socket :
  ParseCoolingDevice fs config_path = Some ∅ -> ParseSensorInfo fs config_path = Some ∅ ->
  exists h, helper_new fs dir socket true = Some (h, []) /\ is_initialized_ h = true /\ sensor_info_map_ h = ∅ /\
    forall fs' ft fc t, fillCurrentTemperatures fs' h ft fc t = Some (false, []).
Proof. intros Hc Hs. unfold helper_new. rewrite Hc, Hs. cbn. eauto. Qed.
End Helper.

(** ** Witnesses *)

Fixpoint demo_split (delim : ascii) (s : list ascii) (acc : list ascii) : list string :=
  match s with
  | [] => [text (rev acc)]
  | c :: s' => if Ascii.eqb c delim then text (rev acc) :: demo_split delim s' [] else demo_split delim s' (c :: acc)
  end.

Definition demo_base : AndroidBase := {|
  Trim s := text (rev (skip_space (rev (skip_space (chars s)))));
  Split s d := match chars d with [c] => demo_split c (chars s) [] | _ => [s] end;
  GetProperty _ d := d
|}.

Definition demo_cpu_info : SensorInfo :=
  mkSensor 0 [S754_nan; S754_nan; Binary32.of_Z 70; Binary32.of_Z 80; Binary32.of_Z 90; S754_nan; Binary32.of_Z 95]
    (replicate 7 S754_nan)
    (Binary32.of_Z <$> [0; 0; 0; 5; 15; 0; 0]) (replicate 7 (S754_zero false)) (Binary32.of_Z 1) true.

Definition demo_band_info : SensorInfo :=
  mkSensor 0 (hot_thresholds demo_cpu_info) (cold_thresholds demo_cpu_info)
    (Binary32.of_Z <$> [0; 0; 0; 5; 5; 0; 0]) (cold_hysteresis demo_cpu_info) (Binary32.of_Z 1) true.

Definition demo_helper (prev : nat) : ThermalHelper :=
  mkHelper {["cpu0" := "/tz0/temp"]}%string ∅ true ∅ {["cpu0" := demo_band_info]}%string
    {["cpu0" := mkStatus prev prev 0]}%string {["cpu0"]}%string true false.

Definition constant (s : string) : files := fun _ => Some s.

Definition demo_pass (t : string) (v : Z) : Prop :=
  stof t = Some (Binary32.of_Z v) /\ @Trim demo_base t = t /\
  @in_band demo_thermal_abi demo_band_info 3 (Binary32.mul (Binary32.of_Z v) (Binary32.of_Z 1)).

Lemma demo_pass_ok t v : demo_pass t v ->
  @readable demo_base (constant t) (demo_helper 3) /\
  @stays_in_band demo_thermal_abi demo_base (constant t) (demo_helper 3) "cpu0" demo_band_info 3.
Proof.
  intros (Hv & Ht & Hb).
  assert (forall name t', @sensor_text demo_base (constant t) (demo_helper 3) name t' -> t' = t) as Heq.
  { intros name t' [Hr _]. unfold readThermalFile in Hr. case_match; [done|]. unfold constant in Hr.
    rewrite Ht in Hr. congruence. }
  split.
  - intros name t' Hs%Heq. subst t'. eauto.
  - intros t' x Hs%Heq Hx. subst t'. rewrite Hv in Hx. by injection Hx as <-.
Qed.

Ltac demo_band := split_and!; [vm_compute; reflexivity..|]; split; [vm_compute; reflexivity|];
  intros i Hi; change (@SEV_SHUTDOWN demo_thermal_abi) with 6%nat in Hi;
  assert (i = 4 \/ i = 5 \/ i = 6)%nat as [->|[->| ->]] by lia; split; vm_compute; reflexivity.

(** At severity 3 (80 degrees), down to 76 and up to 84: it stays. *)
Lemma severity_no_chatter_witness :
  exists temps h', @turns demo_thermal_abi demo_base
    [(constant "76", PollNone); (constant "84", PollUevent [mkUevent 60 ["SUBSYSTEM=thermal"; "NAME=cpu0"]]);
     (constant "76", PollOther)]%string (demo_helper 3) = Some (temps, h') /\
    values_of "cpu0" temps = [Binary32.of_Z 76; Binary32.of_Z 84] /\
    (exists st', sensor_status_map_ h' !! "cpu0"%string = Some st' /\ prev_hot_severity st' = 3%nat) /\
    forall t, t ∈ temps -> t_name t = "cpu0"%string -> (3 <= throttlingStatus t)%nat.
Proof.
  destruct (@severity_no_chatter demo_thermal_abi demo_base demo_thermal_abi_laws
    [(constant "76", PollNone); (constant "84", PollUevent [mkUevent 60 ["SUBSYSTEM=thermal"; "NAME=cpu0"]]);
     (constant "76", PollOther)]%string (demo_helper 3) "cpu0" 3 demo_band_info (mkStatus 3 3 0))
    as (temps & h' & Hr & Hst & Hv & Ht).
  - apply (bool_decide_unpack _). vm_compute. exact I.
  - vm_compute. reflexivity.
  - split; [lia|]. cbn. lia.
  - vm_compute. reflexivity.
  - reflexivity.
  - apply Forall_cons; split; [apply (demo_pass_ok "76" 76); demo_band|].
    apply Forall_cons; split; [apply (demo_pass_ok "84" 84); demo_band|].
    apply Forall_cons; split; [apply (demo_pass_ok "76" 76); demo_band|constructor].
  - exists temps, h'. split; [exact Hr|]. split; [|split; [exact Hst|exact Ht]]. rewrite Hv. vm_compute. reflexivity.
Defined.
