(* ===== verification/ThermalHal.v ===== *)
(** * thermal/Thermal.{h,cpp}: the thermal service

    The service answers calls from the helper, keeps the callbacks of its
    clients, and is called by the watcher with the temperatures of each pass: it
    takes CPUs offline when a CPU is hot and notifies the callbacks.  A second
    thread, the looper, runs the notifications queued by a registration.

    What the service does to the system is its [history].  Whether a callback
    is still alive and whether a CPU's file can be opened and written to, each time
    it is tried, are the class [ThermalEnv], whose answers are functions of what
    happened before.  A step of the system is what one thread does under the
    callbacks' lock. *)

From Stdlib Require Import Ascii String.
From S2P Require Import Prelude CppText Json ThermalConfig ThermalHelper.

(** A pointer to a client's interface object. *)
Record iface := mkIface { ptr : Z; isRemote : bool; asBinder : Z }.

#[global] Instance iface_eq_dec : EqDecision iface.
Proof. solve_decision. Defined.

Record CallbackSetting := mkCallback { callback : iface; is_filter_type : bool; cb_type : Z }.

#[global] Instance CallbackSetting_eq_dec : EqDecision CallbackSetting.
Proof. solve_decision. Defined.

(** What the service does to the system. *)
Inductive thermal_effect :=
  | NotifyThrottling (i : iface) (t : Temperature)
  | SwitchCpu (a : cpu_attempt).

Class ThermalEnv := {
  notifyThrottling_ok : list thermal_effect -> iface -> Temperature -> bool;
  cpu_open_ok : list thermal_effect -> string -> bool;
  cpu_write_ok : list thermal_effect -> string -> string -> bool;
  kMaxCpus : Z
}.

Inductive thermal_status :=
  | T_OK | T_NOT_INITIALIZED | T_CANNOT_READ | T_NULL_CALLBACK | T_ALREADY_REGISTERED | T_NOT_REGISTERED | T_UNSUPPORTED.

(** [CPUInfo] and [tempThrottling] are the static variables of
    [sendThermalChangedCallback]. *)
Record Thermal := mkThermal {
  thermal_helper_ : ThermalHelper; callbacks_ : list CallbackSetting; cdev_callbacks_ : list CallbackSetting;
  events_ : list CallbackSetting; CPUInfo : list string; tempThrottling : bool; t_history : list thermal_effect
}.

Definition interfacesEqual (left right : option iface) : bool :=
  match left, right with
  | Some l, Some r =>
      if negb (isRemote l) || negb (isRemote r) then ptr l =? ptr r else asBinder l =? asBinder r
  | None, None => true
  | _, _ => false
  end.

(** ** State access *)

Definition with_callbacks (s : Thermal) (l : list CallbackSetting) : Thermal :=
  mkThermal (thermal_helper_ s) l (cdev_callbacks_ s) (events_ s) (CPUInfo s) (tempThrottling s) (t_history s).
Definition with_cdev (s : Thermal) (l : list CallbackSetting) : Thermal :=
  mkThermal (thermal_helper_ s) (callbacks_ s) l (events_ s) (CPUInfo s) (tempThrottling s) (t_history s).
Definition with_events (s : Thermal) (l : list CallbackSetting) : Thermal :=
  mkThermal (thermal_helper_ s) (callbacks_ s) (cdev_callbacks_ s) l (CPUInfo s) (tempThrottling s) (t_history s).
Definition with_throttling (s : Thermal) (cpus : list string) (b : bool) : Thermal :=
  mkThermal (thermal_helper_ s) (callbacks_ s) (cdev_callbacks_ s) (events_ s) cpus b (t_history s).
Definition with_helper (s : Thermal) (h : ThermalHelper) : Thermal :=
  mkThermal h (callbacks_ s) (cdev_callbacks_ s) (events_ s) (CPUInfo s) (tempThrottling s) (t_history s).
Definition with_effects (s : Thermal) (l : list thermal_effect) : Thermal :=
  mkThermal (thermal_helper_ s) (callbacks_ s) (cdev_callbacks_ s) (events_ s) (CPUInfo s) (tempThrottling s)
    (t_history s ++ l).

Definition t_emit (e : thermal_effect) : St Thermal unit := modify (fun s => with_effects s [e]).

Section Service.
Context `{ThermalAbi, AndroidBase, ThermalEnv}.

Definition thermal_new (h : ThermalHelper) : Thermal := mkThermal h [] [] [] [] false [].

(** ** Queries *)

Definition getFilteredTemperatures (fs : files) (s : Thermal) (filterType : bool) (type : Z)
    : option (thermal_status * list Temperature) :=
  if negb (is_initialized_ (thermal_helper_ s)) then Some (T_NOT_INITIALIZED, [])
  else
    '(ok, l) ← fillCurrentTemperatures fs (thermal_helper_ s) filterType false type;
    Some (if ok : bool then T_OK else T_CANNOT_READ, l).

Definition getTemperatures (fs : files) (s : Thermal) := getFilteredTemperatures fs s false TT_UNKNOWN.
Definition getTemperaturesWithType (fs : files) (s : Thermal) (type : Z) := getFilteredTemperatures fs s true type.

Definition getFilteredCoolingDevices (fs : files) (s : Thermal) (filterType : bool) (type : Z)
    : option (thermal_status * list CoolingDevice) :=
  if negb (is_initialized_ (thermal_helper_ s)) then Some (T_NOT_INITIALIZED, [])
  else
    '(ok, l) ← fillCurrentCoolingDevices fs (thermal_helper_ s) filterType type;
    Some (if ok : bool then T_OK else T_CANNOT_READ, l).

Definition getCoolingDevices (fs : files) (s : Thermal) := getFilteredCoolingDevices fs s false CT_BATTERY.
Definition getCoolingDevicesWithType (fs : files) (s : Thermal) (type : Z) := getFilteredCoolingDevices fs s true type.

Definition getFilteredTemperatureThresholds (s : Thermal) (filterType : bool) (type : Z)
    : option (thermal_status * list TemperatureThreshold) :=
  if negb (is_initialized_ (thermal_helper_ s)) then Some (T_NOT_INITIALIZED, [])
  else
    '(ok, l) ← fillTemperatureThresholds (thermal_helper_ s) filterType type;
    Some (if ok : bool then T_OK else T_CANNOT_READ, l).

Definition getTemperatureThresholds (s : Thermal) := getFilteredTemperatureThresholds s false TT_UNKNOWN.
Definition getTemperatureThresholdsWithType (s : Thermal) (type : Z) := getFilteredTemperatureThresholds s true type.

Definition forecastSkinTemperature : thermal_status := T_UNSUPPORTED.

(** ** Callbacks *)

Definition same_callback (cb : option iface) (c : CallbackSetting) : bool := interfacesEqual (Some (callback c)) cb.

Definition register_callback (cb : option iface) (filterType : bool) (type : Z) : St Thermal thermal_status :=
  match cb with
  | None => mret T_NULL_CALLBACK
  | Some i =>
      h ← gets thermal_helper_;
      if negb (is_initialized_ h) then mret T_NOT_INITIALIZED
      else
        l ← gets callbacks_;
        if existsb (same_callback cb) l then mret T_ALREADY_REGISTERED
        else
          let c := mkCallback i filterType type in
          modify (fun s => with_callbacks s (l ++ [c])) ;;
          modify (fun s => with_events s (events_ s ++ [c])) ;;
          mret T_OK
  end.

Definition registerThermalChangedCallback (cb : option iface) := register_callback cb false TT_UNKNOWN.
Definition registerThermalChangedCallbackWithType (cb : option iface) (type : Z) := register_callback cb true type.

Definition erase_callback (cb : option iface) (l : list CallbackSetting) : list CallbackSetting :=
  filter (fun c => same_callback cb c = false) l.

Definition unregisterThermalChangedCallback (cb : option iface) : St Thermal thermal_status :=
  match cb with
  | None => mret T_NULL_CALLBACK
  | Some _ =>
      l ← gets callbacks_;
      modify (fun s => with_callbacks s (erase_callback cb l)) ;;
      mret (if existsb (same_callback cb) l then T_OK else T_NOT_REGISTERED)
  end.

Definition registerCoolingDeviceChangedCallbackWithType (cb : option iface) (type : Z) : St Thermal thermal_status :=
  match cb with
  | None => mret T_NULL_CALLBACK
  | Some i =>
      h ← gets thermal_helper_;
      if negb (is_initialized_ h) then mret T_NOT_INITIALIZED
      else
        l ← gets cdev_callbacks_;
        if existsb (same_callback cb) l then mret T_ALREADY_REGISTERED
        else modify (fun s => with_cdev s (l ++ [mkCallback i true type])) ;; mret T_OK
  end.

Definition unregisterCoolingDeviceChangedCallback (cb : option iface) : St Thermal thermal_status :=
  match cb with
  | None => mret T_NULL_CALLBACK
  | Some _ =>
      l ← gets cdev_callbacks_;
      modify (fun s => with_cdev s (erase_callback cb l)) ;;
      mret (if existsb (same_callback cb) l then T_OK else T_NOT_REGISTERED)
  end.

(** The handler a registration queues: [fillCurrentTemperatures] with
    [filterCallback] set. *)
Definition looper_handler (fs : files) (c : CallbackSetting) : St Thermal unit :=
  h ← gets thermal_helper_;
  r ← of_option (fillCurrentTemperatures fs h (is_filter_type c) true (cb_type c));
  if r.1 : bool then
    for_each r.2 (fun t =>
      if negb (is_filter_type c) || (t_type t =? cb_type c) then t_emit (NotifyThrottling (callback c) t) else mret tt)
  else mret tt.

(** ** The temperatures of a pass *)

Definition is_cpu (t : Temperature) : bool :=
  existsb (fun p => (p.1 =? t_type t) && String.eqb p.2 "CPU") TemperatureType_range.

Definition enable_cpus (cpus : list string) (enable : bool) : St Thermal unit :=
  for_each cpus (fun cpu =>
    h ← gets t_history;
    t_emit (SwitchCpu (enableCPU (cpu_open_ok h) (cpu_write_ok h) cpu enable))).

(** The part for a CPU; [false]: the function returns. *)
Definition hotplug {J} `{!JsonCpp J} (fs : files) (t : Temperature) : St Thermal bool :=
  _ ← of_option (fillCpuUsages fs kMaxCpus);
  h ← gets thermal_helper_;
  r ← of_option (fillTemperatureThresholds h true TT_CPU);
  if negb r.1 then mret false
  else
    tempThreshold ← of_option (r.2 !! 0%nat);
    thr3 ← of_option (hotThrottlingThresholds tempThreshold !! 3%nat);
    throttling ← gets tempThrottling;
    if SFleb thr3 (t_value t) && negb throttling then
      cpus ← of_option (ParseHotplugCPUInfo fs config_path);
      modify (fun s => with_throttling s cpus false) ;;
      enable_cpus cpus false ;;
      modify (fun s => with_throttling s cpus true) ;; mret true
    else
      thr2 ← of_option (hotThrottlingThresholds tempThreshold !! 2%nat);
      if SFltb (t_value t) thr2 && throttling then
        cpus ← gets CPUInfo;
        enable_cpus cpus true ;;
        modify (fun s => with_throttling s cpus false) ;; mret true
      else mret true.

(** [std::remove_if]: the callbacks that stay. *)
Fixpoint notify_all (t : Temperature) (l : list CallbackSetting) : St Thermal (list CallbackSetting) :=
  match l with
  | [] => mret []
  | c :: l' =>
      if negb (is_filter_type c) || (t_type t =? cb_type c) then
        h ← gets t_history;
        t_emit (NotifyThrottling (callback c) t) ;;
        rest ← notify_all t l';
        mret (if notifyThrottling_ok h (callback c) t then c :: rest else rest)
      else rest ← notify_all t l'; mret (c :: rest)
  end.

Fixpoint sendThermalChangedCallback {J} `{!JsonCpp J} (fs : files) (temps : list Temperature) : St Thermal unit :=
  match temps with
  | [] => mret tt
  | t :: temps' =>
      go_on ← (if is_cpu t then hotplug fs t else mret true);
      if go_on : bool then
        l ← gets callbacks_;
        l' ← notify_all t l;
        modify (fun s => with_callbacks s l') ;;
        sendThermalChangedCallback fs temps'
      else mret tt
  end.

(** ** The system *)

(** [pending]: the temperatures of the watcher's last pass, not yet sent. *)
Record System := mkSystem { sys_thermal : Thermal; sys_pending : list Temperature }.

Inductive client_op : St Thermal thermal_status -> Prop :=
  | OpRegister cb filterType type : client_op (register_callback cb filterType type)
  | OpUnregister cb : client_op (unregisterThermalChangedCallback cb)
  | OpRegisterCooling cb type : client_op (registerCoolingDeviceChangedCallbackWithType cb type)
  | OpUnregisterCooling cb : client_op (unregisterCoolingDeviceChangedCallback cb).

(** A step; the label: the files and the temperatures of a pass that is sent. *)
Inductive hal_step {J} `{!JsonCpp J} : option (files * list Temperature) -> System -> System -> Prop :=
  | StepClient op s r s' pending : client_op op -> op s = Some (r, s') ->
      hal_step None (mkSystem s pending) (mkSystem s' pending)
  | StepTurn fs p s temps h : threadLoop fs (thermal_helper_ s) p = Some (temps, h) ->
      hal_step None (mkSystem s []) (mkSystem (with_helper s h) temps)
  | StepSend fs s temps s' : temps <> [] -> sendThermalChangedCallback fs temps s = Some (tt, s') ->
      hal_step (Some (fs, temps)) (mkSystem s temps) (mkSystem s' [])
  | StepLooper fs s c rest s' pending : events_ s = c :: rest ->
      looper_handler fs c (with_events s rest) = Some (tt, s') ->
      hal_step None (mkSystem s pending) (mkSystem s' pending).

(** Steps, with the passes that were sent. *)
Inductive hal_run {J} `{!JsonCpp J} : list (files * list Temperature) -> System -> System -> Prop :=
  | RunNil s : hal_run [] s s
  | RunStep l o s1 s2 s3 : hal_run l s1 s2 -> hal_step o s2 s3 -> hal_run (l ++ option_list o) s1 s3.

(** ** Specification: which CPUs are to be offline *)

(** The thresholds of the first CPU sensor. *)
Definition cpu_thresholds (h : ThermalHelper) : option (list spec_float) :=
  match fillTemperatureThresholds h true TT_CPU with
  | Some (true, th :: _) => Some (hotThrottlingThresholds th)
  | _ => None
  end.

(** The CPUs to be offline after the temperature [t], where those before were
    [st]: at threshold 3 those the configuration file names, and below threshold 2
    none. *)
Definition cpu_spec {J} `{!JsonCpp J} (h : ThermalHelper) (fs : files) (st : option (list string)) (t : Temperature)
    : option (list string) :=
  if is_cpu t then
    match cpu_thresholds h, st with
    | None, _ => st
    | Some thr, None =>
        match thr !! 3%nat with
        | Some thr3 => if SFleb thr3 (t_value t) then ParseHotplugCPUInfo fs config_path else None
        | None => None
        end
    | Some thr, Some cpus =>
        match thr !! 2%nat with Some thr2 => if SFltb (t_value t) thr2 then None else st | None => st end
    end
  else st.

Definition cpu_passes {J} `{!JsonCpp J} (h : ThermalHelper) (st : option (list string))
    (l : list (files * list Temperature)) : option (list string) :=
  foldl (fun st ft => foldl (cpu_spec h ft.1) st ft.2) st l.

(** ** The CPUs' files *)

Definition cpu_path (cpu : string) : string := ("/sys/devices/system/cpu/" ++ cpu ++ "/online")%string.

Definition cpu_data (enable : bool) : string :=
  String (if enable then "1" else "0")%char (String Ascii.zero EmptyString).

Definition apply_effect (m : gmap string string) (e : thermal_effect) : gmap string string :=
  match e with
  | SwitchCpu (mkAttempt p d WRITTEN) => <[p := d]> m
  | SwitchCpu _ | NotifyThrottling _ _ => m
  end.

(** What each file was last set to. *)
Definition cpu_state (h : list thermal_effect) : gmap string string := foldl apply_effect ∅ h.

Definition apply_attempt (m : gmap string cpu_attempt) (e : thermal_effect) : gmap string cpu_attempt :=
  match e with SwitchCpu a => <[at_path a := a]> m | NotifyThrottling _ _ => m end.

(** The last attempt to switch each CPU. *)
Definition last_attempts (h : list thermal_effect) : gmap string cpu_attempt := foldl apply_attempt ∅ h.

Fixpoint cpu_attempts (h : list thermal_effect) (cpus : list string) (enable : bool) : list thermal_effect :=
  match cpus with
  | [] => []
  | cpu :: cpus' =>
      let e := SwitchCpu (enableCPU (cpu_open_ok h) (cpu_write_ok h) cpu enable) in
      e :: cpu_attempts (h ++ [e]) cpus' enable
  end.

Lemma with_effects_app s h1 h2 : with_effects (with_effects s h1) h2 = with_effects s (h1 ++ h2).
Proof. unfold with_effects. cbn. by rewrite (assoc_L (++)). Qed.

Lemma with_effects_nil s : with_effects s [] = s.
Proof. unfold with_effects. rewrite app_nil_r. by destruct s. Qed.

Lemma enable_cpus_runs cpus b s : enable_cpus cpus b s = Some (tt, with_effects s (cpu_attempts (t_history s) cpus b)).
Proof.
  revert s. induction cpus as [|cpu cpus IH]; intros s; [by rewrite with_effects_nil|].
  unfold enable_cpus in *. cbn [for_each]. unfold mbind, St_bind, gets, t_emit, modify in *.
  cbn beta iota. rewrite IH, with_effects_app. done.
Qed.

(** The attempts for a list of CPUs are the last ones for those, and leave the
    others as they were. *)
Lemma cpu_attempts_last cpus b p : forall h m,
  (p ∈ cpu_path <$> cpus -> exists a, foldl apply_attempt m (cpu_attempts h cpus b) !! p = Some a /\ at_data a = cpu_data b) /\
  ((p ∉ cpu_path <$> cpus) -> foldl apply_attempt m (cpu_attempts h cpus b) !! p = m !! p).
Proof.
  induction cpus as [|cpu cpus IH]; intros h m; [split; [by intros ?%elem_of_nil|done]|].
  cbn [cpu_attempts foldl apply_attempt]. rewrite fmap_cons.
  set (a := enableCPU _ _ cpu b). set (e := SwitchCpu a).
  destruct (IH (h ++ [e]) (<[at_path a := a]> m)) as [IH1 IH2]. split.
  - intros Hin. destruct (decide (p ∈ cpu_path <$> cpus)) as [Hp|Hp]; [by apply IH1|].
    rewrite IH2 by done. apply elem_of_cons in Hin as [->|?]; [|done]. exists a. split; [apply lookup_insert_eq|done].
  - intros [Hne Hp]%not_elem_of_cons. rewrite IH2 by done. by apply lookup_insert_ne.
Qed.

(** What the attempts say agrees with the files. *)
Definition files_agree (m : gmap string cpu_attempt) (f : gmap string string) : Prop :=
  forall p, (m !! p = None -> f !! p = None) /\
    (forall a, m !! p = Some a -> at_path a = p /\ (at_result a = WRITTEN -> f !! p = Some (at_data a))).

Lemma apply_agree m f e : files_agree m f -> files_agree (apply_attempt m e) (apply_effect f e).
Proof.
  intros Hok. destruct e as [i t|[q d r]]; [done|]. intros p. cbn. destruct (decide (q = p)) as [->|Hne].
  - rewrite lookup_insert_eq. split; [done|]. intros a [= <-]. cbn. split; [done|]. intros ->. apply lookup_insert_eq.
  - rewrite lookup_insert_ne by done. assert ((match r with WRITTEN => <[q := d]> f | _ => f end) !! p = f !! p) as ->
      by (destruct r; [done..|by apply lookup_insert_ne]). apply Hok.
Qed.

Lemma history_agree h : files_agree (last_attempts h) (cpu_state h).
Proof.
  induction h as [|e h IH] using rev_ind; [done|]. unfold last_attempts, cpu_state. rewrite !foldl_app.
  by apply apply_agree.
Qed.

Definition named (st : option (list string)) (p : string) : Prop := p ∈ cpu_path <$> default [] st.

#[local] Instance named_dec st p : Decision (named st p).
Proof. unfold named. exact _. Defined.

(** What was last tried: to switch off the CPUs in [st], to switch on all
    others. *)
Definition tried (st : option (list string)) (h : list thermal_effect) : Prop :=
  forall p, (named st p -> exists a, last_attempts h !! p = Some a /\ at_data a = cpu_data false) /\
    (~ named st p -> forall a, last_attempts h !! p = Some a -> at_data a = cpu_data true).

(** The CPUs that are to be offline are, but for those whose last attempt
    failed, and no others are, but for those whose last attempt to switch them on
    failed. *)
Record hotplug_ok (st : option (list string)) (s : Thermal) : Prop := {
  hp_flag : tempThrottling s = bool_decide (is_Some st);
  hp_cpus : forall cpus, st = Some cpus -> CPUInfo s = cpus;
  hp_off : forall p, named st p -> cpu_state (t_history s) !! p = Some (cpu_data false) \/
    exists a, last_attempts (t_history s) !! p = Some a /\ at_data a = cpu_data false /\ at_result a <> WRITTEN;
  hp_on : forall p, cpu_state (t_history s) !! p = Some (cpu_data false) -> named st p \/
    exists a, last_attempts (t_history s) !! p = Some a /\ at_data a = cpu_data true /\ at_result a <> WRITTEN
}.

Lemma attempt_result_dec (a : cpu_attempt) : at_result a = WRITTEN \/ at_result a <> WRITTEN.
Proof. destruct (at_result a); [by right|by right|by left]. Qed.

Lemma tried_ok st s :
  tempThrottling s = bool_decide (is_Some st) -> (forall cpus, st = Some cpus -> CPUInfo s = cpus) ->
  tried st (t_history s) -> hotplug_ok st s.
Proof.
  intros Hf Hc Ht. split; [done|done| |]; intros p Hp; destruct (Ht p) as [Hoff Hon];
    destruct (history_agree (t_history s) p) as [Hnone Hsome].
  - destruct (Hoff Hp) as (a & Ha & Hd). destruct (Hsome a Ha) as [_ Hw].
    destruct (attempt_result_dec a) as [Hr|Hr]; [left|right; by exists a]. by rewrite Hw, Hd.
  - destruct (decide (named st p)) as [Hn|Hn]; [by left|]. right.
    destruct (last_attempts (t_history s) !! p) as [a|] eqn:Ha; [|by rewrite Hnone in Hp].
    exists a. specialize (Hon Hn a eq_refl). split_and!; [done..|]. intros Hr.
    destruct (Hsome a eq_refl) as [_ Hw]. rewrite (Hw Hr), Hon in Hp. by injection Hp.
Qed.

(** The invariant of the part for CPUs. *)
Record cpus_ok (st : option (list string)) (s : Thermal) : Prop := {
  cs_flag : tempThrottling s = bool_decide (is_Some st);
  cs_cpus : forall cpus, st = Some cpus -> CPUInfo s = cpus;
  cs_tried : tried st (t_history s)
}.

(** ** Distinct callbacks *)

Fixpoint distinct (l : list CallbackSetting) : Prop :=
  match l with
  | [] => True
  | c :: l' => Forall (fun d => interfacesEqual (Some (callback c)) (Some (callback d)) = false) l' /\ distinct l'
  end.

Lemma distinct_sublist l k : sublist l k -> distinct k -> distinct l.
Proof.
  induction 1 as [|c l k Hs IH|c l k Hs IH]; cbn; [done| |].
  - intros [Hf Hd]. split; [|auto]. rewrite Forall_forall in *. intros d Hin. apply Hf.
    by eapply elem_of_sublist.
  - intros [_ Hd]. auto.
Qed.

Lemma distinct_snoc l c :
  distinct l -> existsb (same_callback (Some (callback c))) l = false -> distinct (l ++ [c]).
Proof.
  induction l as [|d l IH]; cbn; [done|]. intros [Hf Hd] [Hh Ht]%orb_false_iff. split; [|auto].
  apply Forall_app. split; [done|]. by constructor.
Qed.

Lemma erase_distinct cb l : distinct l -> distinct (erase_callback cb l).
Proof. apply distinct_sublist, sublist_filter. Qed.

Lemma interfacesEqual_refl i : interfacesEqual i i = true.
Proof. destruct i as [i|]; [|done]. cbn. case_match; apply Z.eqb_refl. Qed.

(** ** Notifying *)

Definition matches (t : Temperature) (c : CallbackSetting) : bool := negb (is_filter_type c) || (t_type t =? cb_type c).

(** What was sent to one client. *)
Definition notes (i : iface) (h : list thermal_effect) : list Temperature :=
  omap (fun e => match e with NotifyThrottling j t => if decide (j = i) then Some t else None | _ => None end) h.

Lemma notes_app i h1 h2 : notes i (h1 ++ h2) = notes i h1 ++ notes i h2.
Proof. apply omap_app. Qed.

Lemma notes_cons i j t h :
  notes i (NotifyThrottling j t :: h) = if decide (j = i) then t :: notes i h else notes i h.
Proof. unfold notes. cbn. by case_decide. Qed.

Lemma notes_attempts i cpus b h : notes i (cpu_attempts h cpus b) = [].
Proof. revert h. induction cpus as [|cpu cpus IH]; intros h; [done|]. cbn. apply IH. Qed.

(** What [notify_all] does: the callbacks that match are notified, once each,
    and stay if they answer. *)
Record notified (t : Temperature) (l l' : list CallbackSetting) (s s' : Thermal) (h : list thermal_effect) : Prop := {
  nt_state : s' = with_effects s h;
  nt_writes : forall m, foldl apply_attempt m h = m;
  nt_kept : sublist l' l;
  nt_lost : forall c, c ∈ l -> c ∉ l' -> matches t c = true /\ exists h0, notifyThrottling_ok h0 (callback c) t = false;
  nt_notes : forall c, c ∈ l -> notes (callback c) h = if matches t c then [t] else [];
  nt_others : forall i, (forall c, c ∈ l -> callback c <> i) -> notes i h = []
}.

Lemma distinct_callback c l d : Forall (fun d => interfacesEqual (Some (callback c)) (Some (callback d)) = false) l ->
  d ∈ l -> callback d <> callback c.
Proof.
  intros Hf Hin Heq. rewrite Forall_forall in Hf. specialize (Hf d Hin). rewrite Heq in Hf.
  by rewrite interfacesEqual_refl in Hf.
Qed.

Lemma notify_pass_spec t l s : distinct l -> exists l' s' h, notify_all t l s = Some (l', s') /\ notified t l l' s s' h.
Proof.
  revert s. induction l as [|c l IH]; intros s; cbn.
  { intros _. exists [], s, []. split; [done|]. split; try done; [by rewrite with_effects_nil|..];
      intros c Hc; by apply elem_of_nil in Hc. }
  intros [Hf Hd]. fold (matches t c). unfold gets, t_emit, modify, mbind, St_bind, mret, St_ret.
  destruct (matches t c) eqn:Hm.
  - destruct (IH (with_effects s [NotifyThrottling (callback c) t]) Hd) as (l' & s' & h & Hr & [Hs Hw Hk Hl Hn Ho]).
    rewrite Hr.
    exists (if notifyThrottling_ok (t_history s) (callback c) t then c :: l' else l'), s',
      (NotifyThrottling (callback c) t :: h).
    split; [done|]. assert (notes (callback c) h = []) as Hnone.
    { apply Ho. intros d Hin. by eapply distinct_callback. }
    split.
    + by rewrite Hs, with_effects_app.
    + intros m. apply Hw.
    + destruct (notifyThrottling_ok (t_history s) (callback c) t); by constructor.
    + intros d [->|Hin]%elem_of_cons Hnot.
      * split; [done|]. exists (t_history s). destruct (notifyThrottling_ok (t_history s) (callback c) t); [|done].
        destruct Hnot. apply list_elem_of_here.
      * apply Hl; [done|]. intros Hin'. apply Hnot. case_match; [by apply list_elem_of_further|done].
    + intros d [->|Hin]%elem_of_cons; rewrite notes_cons.
      * rewrite decide_True by done. by rewrite Hm, Hnone.
      * rewrite decide_False by (intros Heq; by eapply distinct_callback). by apply Hn.
    + intros i Hi. rewrite notes_cons, decide_False by (apply Hi, list_elem_of_here).
      apply Ho. intros d Hin. apply Hi. by apply list_elem_of_further.
  - destruct (IH s Hd) as (l' & s' & h & Hr & [Hs Hw Hk Hl Hn Ho]).
    rewrite Hr. exists (c :: l'), s', h. split; [done|]. split; [done|done| | | |].
    + by constructor.
    + intros d [->|Hin]%elem_of_cons Hnot; [destruct Hnot; apply list_elem_of_here|].
      apply Hl; [done|]. intros Hin'. apply Hnot. by apply list_elem_of_further.
    + intros d [->|Hin]%elem_of_cons; [|by apply Hn]. rewrite Hm. apply Ho. intros d Hin. by eapply distinct_callback.
    + intros i Hi. apply Ho. intros d Hin. apply Hi. by apply list_elem_of_further.
Qed.

(** ** A pass *)

(** The service can handle a hot CPU: the usages can be read, the first CPU
    sensor has the thresholds 2 and 3, the configuration can be parsed. *)
Record cpu_ready {J} `{!JsonCpp J} (fs : files) (h : ThermalHelper) (thr2 thr3 : spec_float) (cpus : list string) : Prop := {
  cr_usages : is_Some (fillCpuUsages fs kMaxCpus);
  cr_thresholds : exists th rest, fillTemperatureThresholds h true TT_CPU = Some (true, th :: rest) /\
    hotThrottlingThresholds th !! 2%nat = Some thr2 /\ hotThrottlingThresholds th !! 3%nat = Some thr3;
  cr_cpus : ParseHotplugCPUInfo fs config_path = Some cpus
}.

(** The two moves of the hotplug part. *)
Lemma hotplug_runs {J} `{!JsonCpp J} fs t s thr2 thr3 cpus :
  cpu_ready fs (thermal_helper_ s) thr2 thr3 cpus ->
  hotplug fs t s = Some (true,
    if SFleb thr3 (t_value t) && negb (tempThrottling s)
    then with_throttling (with_effects s (cpu_attempts (t_history s) cpus false)) cpus true
    else if SFltb (t_value t) thr2 && tempThrottling s
    then with_throttling (with_effects s (cpu_attempts (t_history s) (CPUInfo s) true)) (CPUInfo s) false else s).
Proof.
  intros [[u Hu] (th & rest & Hth & H2' & H3') Hc]. unfold hotplug, mbind, St_bind, of_option, gets, modify, mret, St_ret.
  rewrite Hu. cbn. rewrite Hth. cbn. rewrite H3'. cbn.
  destruct (SFleb thr3 (t_value t) && negb (tempThrottling s)) eqn:Hhot; [rewrite Hc; cbn; by rewrite enable_cpus_runs|].
  rewrite H2'. cbn. destruct (SFltb (t_value t) thr2 && tempThrottling s); [by rewrite enable_cpus_runs|done].
Qed.

Lemma tried_off cpus s : tried None (t_history s) ->
  tried (Some cpus) (t_history s ++ cpu_attempts (t_history s) cpus false).
Proof.
  intros Ht p. unfold last_attempts. rewrite foldl_app. fold (last_attempts (t_history s)).
  destruct (cpu_attempts_last cpus false p (t_history s) (last_attempts (t_history s))) as [Hin Hout].
  split; [exact Hin|]. intros Hn a. rewrite Hout by done. apply Ht. by intros ?%elem_of_nil.
Qed.

Lemma tried_on cpus s : tried (Some cpus) (t_history s) ->
  tried None (t_history s ++ cpu_attempts (t_history s) cpus true).
Proof.
  intros Ht p. unfold last_attempts. rewrite foldl_app. fold (last_attempts (t_history s)).
  destruct (cpu_attempts_last cpus true p (t_history s) (last_attempts (t_history s))) as [Hin Hout].
  split; [by intros ?%elem_of_nil|]. intros _ a Ha. destruct (decide (p ∈ cpu_path <$> cpus)) as [Hp|Hp].
  - destruct (Hin Hp) as (a' & Ha' & Hd). congruence.
  - rewrite Hout in Ha by done. by apply (proj2 (Ht p)) in Ha.
Qed.

(** The part for one CPU's temperature does what the specification says; if
    it ends the function, no CPU's temperature has any effect. *)
Lemma hotplug_spec {J} `{!JsonCpp J} fs t s b s' st :
  is_cpu t = true -> cpus_ok st s -> hotplug fs t s = Some (b, s') ->
  callbacks_ s' = callbacks_ s /\ cdev_callbacks_ s' = cdev_callbacks_ s /\ thermal_helper_ s' = thermal_helper_ s /\
  cpus_ok (cpu_spec (thermal_helper_ s) fs st t) s' /\ (b = false -> cpu_thresholds (thermal_helper_ s) = None).
Proof.
  intros Hcpu [Hflag Hinfo Htried]. unfold hotplug, cpu_spec, cpu_thresholds. rewrite Hcpu.
  unfold mbind, St_bind, of_option, gets, modify, mret, St_ret.
  destruct (fillCpuUsages fs kMaxCpus); cbn; [|done].
  destruct (fillTemperatureThresholds (thermal_helper_ s) true TT_CPU) as [[[] ths]|]; cbn; [|by intros [= <- <-]|done].
  destruct ths as [|th ths]; cbn; [done|].
  destruct (hotThrottlingThresholds th !! 3%nat) as [thr3|]; cbn; [|done].
  destruct st as [cpus|]; cbn [is_Some] in Hflag.
  - rewrite bool_decide_eq_true_2 in Hflag by eauto. rewrite Hflag, andb_false_r.
    destruct (hotThrottlingThresholds th !! 2%nat) as [thr2|]; cbn; [|done]. rewrite andb_true_r.
    destruct (SFltb (t_value t) thr2); [|intros [= <- <-]; split_and!; try done; split; try done; by rewrite bool_decide_eq_true_2 by eauto].
    rewrite enable_cpus_runs. intros [= <- <-]. cbn. split_and!; try done. split; cbn; [done|done|].
    rewrite (Hinfo cpus eq_refl). by apply tried_on.
  - rewrite bool_decide_eq_false_2 in Hflag by (by intros [? ?]). rewrite Hflag, andb_true_r.
    destruct (SFleb thr3 (t_value t)).
    + destruct (ParseHotplugCPUInfo fs config_path) as [cpus|]; cbn; [|done]. rewrite enable_cpus_runs.
      intros [= <- <-]. cbn. split_and!; try done. split; cbn; [done|by intros ? [= <-]|by apply tried_off].
    + destruct (hotThrottlingThresholds th !! 2%nat) as [thr2|]; cbn; [|done]. rewrite andb_false_r.
      intros [= <- <-]. split_and!; try done.
Qed.

(** No sensor of a CPU: nothing happens to the CPUs. *)
Lemma cpu_spec_none {J} `{!JsonCpp J} h fs st temps : cpu_thresholds h = None -> foldl (cpu_spec h fs) st temps = st.
Proof.
  intros Hn. revert st. induction temps as [|t temps IH]; intros st; [done|]. cbn. rewrite IH.
  unfold cpu_spec. rewrite Hn. by destruct (is_cpu t).
Qed.

Lemma notified_keeps t l l' s s' h st :
  notified t l l' s s' h -> (cpus_ok st s -> cpus_ok st (with_callbacks s' l')) /\ cdev_callbacks_ s' = cdev_callbacks_ s /\
  thermal_helper_ s' = thermal_helper_ s.
Proof.
  intros [-> Hw _ _ _ _]. split_and!; [|done..]. intros [Hf Hc Ht]. split; [done|done|]. cbn.
  unfold tried, last_attempts in *. by rewrite foldl_app, Hw.
Qed.

(** The invariant of the callbacks. *)
Record service_ok (s : Thermal) : Prop := { ok_callbacks : distinct (callbacks_ s); ok_cdev : distinct (cdev_callbacks_ s) }.

Lemma send_ok {J} `{!JsonCpp J} fs temps s s' st :
  service_ok s -> cpus_ok st s -> sendThermalChangedCallback fs temps s = Some (tt, s') ->
  service_ok s' /\ thermal_helper_ s' = thermal_helper_ s /\
  cpus_ok (foldl (cpu_spec (thermal_helper_ s) fs) st temps) s'.
Proof.
  revert s st. induction temps as [|t temps IH]; intros s st Hok Hcp Hr; cbn in Hr; [by injection Hr as <-|].
  unfold mbind, St_bind in Hr.
  assert (exists b s1, (if is_cpu t then hotplug fs t else mret true) s = Some (b, s1) /\ service_ok s1 /\
    thermal_helper_ s1 = thermal_helper_ s /\ cpus_ok (cpu_spec (thermal_helper_ s) fs st t) s1 /\
    (b = false -> cpu_thresholds (thermal_helper_ s) = None)) as (b & s1 & Hs1 & Hok1 & Hh1 & Hcp1 & Hb).
  { destruct Hok as [Hc Hd]. destruct (is_cpu t) eqn:Hcpu.
    - destruct (hotplug fs t s) as [[b s1]|] eqn:Hp; [|done]. exists b, s1. split; [done|].
      destruct (hotplug_spec fs t s b s1 st Hcpu Hcp Hp) as (Hp1 & Hp2 & Hp3 & Hp4 & Hp5).
      split_and!; [split; [by rewrite Hp1|by rewrite Hp2]|done..].
    - exists true, s. unfold cpu_spec. rewrite Hcpu. by split_and!. }
  rewrite Hs1 in Hr. cbn [foldl]. destruct b.
  2: { injection Hr as <-. split_and!; [done|done|]. by rewrite cpu_spec_none by auto. }
  destruct Hok1 as [Hc Hd]. cbn in Hr.
  destruct (notify_pass_spec t (callbacks_ s1) s1 Hc) as (l' & s2 & h & Hn & Hnt). rewrite Hn in Hr. cbn in Hr.
  destruct (notified_keeps _ _ _ _ _ _ (cpu_spec (thermal_helper_ s) fs st t) Hnt) as (Hk & Hk2 & Hk3).
  destruct (IH (with_callbacks s2 l') (cpu_spec (thermal_helper_ s) fs st t)) as (H1' & H2' & H3'); [|by apply Hk|exact Hr|].
  - destruct Hnt as [-> _ Hsub _ _ _]. split; [by eapply distinct_sublist|done].
  - cbn in H2', H3'. rewrite Hk3, Hh1 in H2', H3'. by split_and!.
Qed.

Lemma fill_temperatures_filtered fs h ft ty names l :
  fill_temperatures fs h ft true ty names = Some l -> l = [].
Proof.
  revert l. induction names as [|n names IH]; intros l; cbn; [by intros [= <-]|].
  destruct (sensor_info_map_ h !! n); cbn; [|done]. case_match; auto.
Qed.

Lemma fill_temperatures_total fs h ft ty :
  fillCurrentTemperatures fs h ft true ty = Some (false, []).
Proof.
  unfold fillCurrentTemperatures.
  enough (forall names, (forall n, n ∈ names -> is_Some (sensor_info_map_ h !! n)) ->
    fill_temperatures fs h ft true ty names = Some []) as Hall.
  { rewrite Hall; [done|]. intros n. apply elem_of_sorted_names. }
  induction names as [|n names IH]; intros Hn; cbn; [done|].
  destruct (Hn n) as [i ->]; [apply list_elem_of_here|]. cbn.
  rewrite IH by (intros m Hm; apply Hn; by apply list_elem_of_further). by destruct (ft && negb (type_ i =? ty)).
Qed.

Lemma looper_handler_nothing fs c s : looper_handler fs c s = Some (tt, s).
Proof.
  unfold looper_handler, mbind, St_bind, gets, of_option. by rewrite fill_temperatures_total.
Qed.

(** The notification promised to a new callback is never sent: whenever the
    handler that a successful registration queues is run, on whatever state and
    with whatever the sensors read, it does nothing, since it asks for the
    temperatures with [filterCallback] set, for which every sensor is skipped. *)
Lemma initial_notification_never_sent i ft ty s s1 :
  register_callback (Some i) ft ty s = Some (T_OK, s1) ->
  exists c, events_ s1 = events_ s ++ [c] /\ callback c = i /\ forall fs s2, looper_handler fs c s2 = Some (tt, s2).
Proof.
  cbn. unfold mbind, St_bind, gets, modify, mret, St_ret. cbn.
  destruct (is_initialized_ (thermal_helper_ s)); cbn; [|done].
  destruct (existsb (same_callback (Some i)) (callbacks_ s)); [done|]. intros [= <-]. cbn.
  eexists. split; [done|]. split; [done|]. intros fs s2. apply looper_handler_nothing.
Qed.

(** The thresholds are of the configuration, which no turn changes. *)
Lemma fill_thresholds_info h h' ft ty names : sensor_info_map_ h' = sensor_info_map_ h ->
  fill_thresholds h' ft ty names = fill_thresholds h ft ty names.
Proof.
  intros Hi. induction names as [|n names IH]; [done|]. cbn [fill_thresholds]. unfold readTemperatureThreshold.
  by rewrite Hi, IH.
Qed.

Lemma cpu_thresholds_info h h' : sensor_info_map_ h' = sensor_info_map_ h -> cpu_thresholds h' = cpu_thresholds h.
Proof.
  intros Hi. unfold cpu_thresholds, fillTemperatureThresholds. by rewrite (fill_thresholds_info h h'), Hi.
Qed.

Lemma threadLoop_info fs h p temps h' :
  threadLoop fs h p = Some (temps, h') -> sensor_info_map_ h' = sensor_info_map_ h.
Proof.
  assert (forall ue, ('(temps, triggered, h') ← thermalWatcherCallbackFunc fs h ue;
      Some (temps, with_triggered h' triggered)) = Some (temps, h') -> sensor_info_map_ h' = sensor_info_map_ h) as Hcall.
  { intros ue. unfold thermalWatcherCallbackFunc. destruct (watch_loop _ _ _ _ _); cbn; [|done]. by intros [= <- <-]. }
  unfold threadLoop. destruct p; [apply Hcall|by intros [= <- <-]|]. case_decide; [by intros [= <- <-]|apply Hcall].
Qed.

(** The invariant of the system after the passes [l]. *)
Record hal_ok {J} `{!JsonCpp J} (h : ThermalHelper) (l : list (files * list Temperature)) (s : Thermal) : Prop := {
  ho_service : service_ok s;
  ho_info : sensor_info_map_ (thermal_helper_ s) = sensor_info_map_ h;
  ho_cpus : cpus_ok (cpu_passes h None l) s
}.

Lemma hal_step_ok {J} `{!JsonCpp J} h l o s s' :
  hal_step o s s' -> hal_ok h l (sys_thermal s) -> hal_ok h (l ++ option_list o) (sys_thermal s').
Proof.
  intros [op s1 r s2 pending Hop Hr|fs p s1 temps h1 Ht|fs s1 temps s2 Hne Hr|fs s1 c rest s2 pending He Hr] [[Hc Hd] Hi Hcp];
    cbn [sys_thermal option_list] in *; rewrite ?app_nil_r.
  - destruct Hop as [[i|] ft ty|[i|]|[i|] ty|[i|]]; cbn in Hr; unfold mbind, St_bind, gets, modify, mret, St_ret in Hr; cbn in Hr;
      try (by injection Hr as <- <-).
    + destruct (is_initialized_ (thermal_helper_ s1)); cbn in Hr; [|by injection Hr as <- <-].
      destruct (existsb (same_callback (Some i)) (callbacks_ s1)) eqn:He; injection Hr as <- <-; [done|].
      split; [split; [by apply distinct_snoc|done]|done|by destruct Hcp].
    + injection Hr as <- <-. split; [split; [by apply erase_distinct|done]|done|by destruct Hcp].
    + destruct (is_initialized_ (thermal_helper_ s1)); cbn in Hr; [|by injection Hr as <- <-].
      destruct (existsb (same_callback (Some i)) (cdev_callbacks_ s1)) eqn:He; injection Hr as <- <-; [done|].
      split; [split; [done|by apply distinct_snoc]|done|by destruct Hcp].
    + injection Hr as <- <-. split; [split; [done|by apply erase_distinct]|done|by destruct Hcp].
  - split; [done|cbn; by rewrite (threadLoop_info _ _ _ _ _ Ht)|by destruct Hcp].
  - destruct (send_ok fs temps s1 s2 _ (Build_service_ok _ Hc Hd) Hcp Hr) as (Hs & Hh & Hcp2).
    split; [done|by rewrite Hh|]. unfold cpu_passes in *. rewrite foldl_app. cbn.
    unfold cpu_spec in *. by rewrite (cpu_thresholds_info h (thermal_helper_ s1) Hi) in Hcp2.
  - rewrite looper_handler_nothing in Hr. injection Hr as <-. split; [done|done|by destruct Hcp].
Qed.

Lemma distinct_inj l c d : distinct l -> c ∈ l -> d ∈ l -> callback c = callback d -> c = d.
Proof.
  induction l as [|e l IH]; [by intros _ ?%elem_of_nil|]. intros [Hf Hd] [->|Hc]%elem_of_cons [->|Hdl]%elem_of_cons Heq;
    [done|by destruct (distinct_callback e l d Hf Hdl)|by destruct (distinct_callback e l c Hf Hc)|auto].
Qed.

(** The first part of a pass for one temperature. *)
Lemma hotplug_quiet {J} `{!JsonCpp J} fs t s thr2 thr3 cpus :
  cpu_ready fs (thermal_helper_ s) thr2 thr3 cpus ->
  exists s1 h1, (if is_cpu t then hotplug fs t else mret true) s = Some (true, s1) /\
    t_history s1 = t_history s ++ h1 /\ (forall i, notes i h1 = []) /\
    callbacks_ s1 = callbacks_ s /\ thermal_helper_ s1 = thermal_helper_ s.
Proof.
  intros Hr. destruct (is_cpu t); [|exists s, []; by rewrite app_nil_r].
  rewrite (hotplug_runs fs t s thr2 thr3 cpus Hr). case_match; [|case_match].
  - eexists _, (cpu_attempts (t_history s) cpus false). split_and!; [done|done| |done|done]. intros i. apply notes_attempts.
  - eexists _, (cpu_attempts (t_history s) (CPUInfo s) true). split_and!; [done|done| |done|done]. intros i.
    apply notes_attempts.
  - exists s, []. by rewrite app_nil_r.
Qed.

(** The fate of one callback in a pass: it stays and is told every temperature
    it asked for, in order; or it is told them up to the first it does not
    answer, and is removed. *)
Definition served (temps : list Temperature) (kept : list CallbackSetting) (h : list thermal_effect) (c : CallbackSetting) : Prop :=
  (c ∈ kept /\ notes (callback c) h = filter (fun t => matches t c = true) temps) \/
  ((c ∉ kept) /\ exists l1 t l2 h0, temps = l1 ++ t :: l2 /\ matches t c = true /\
     notifyThrottling_ok h0 (callback c) t = false /\
     notes (callback c) h = filter (fun t => matches t c = true) (l1 ++ [t])).

Lemma send_serves {J} `{!JsonCpp J} fs temps s thr2 thr3 cpus :
  cpu_ready fs (thermal_helper_ s) thr2 thr3 cpus -> distinct (callbacks_ s) ->
  exists s' h, sendThermalChangedCallback fs temps s = Some (tt, s') /\ t_history s' = t_history s ++ h /\
    sublist (callbacks_ s') (callbacks_ s) /\ (forall i, (forall c, c ∈ callbacks_ s -> callback c <> i) -> notes i h = []) /\
    forall c, c ∈ callbacks_ s -> served temps (callbacks_ s') h c.
Proof.
  revert s. induction temps as [|t temps IH]; intros s Hready Hd.
  { exists s, []. rewrite app_nil_r. split_and!; try done. intros c Hc. by left. }
  destruct (hotplug_quiet fs t s thr2 thr3 cpus Hready) as (s1 & h1 & Hs1 & Hh1 & Hn1 & Hc1 & Hhelp).
  destruct (notify_pass_spec t (callbacks_ s) s1 Hd) as (l' & s2 & h2 & Hna & [-> Hw Hsub Hlost Hnotes Hothers]).
  destruct (IH (with_callbacks (with_effects s1 h2) l')) as (s3 & h3 & Hr & Hh3 & Hsub3 & Ho3 & Hs3).
  { cbn. by rewrite Hhelp. } { by eapply distinct_sublist. }
  cbn in Hh3, Hsub3, Ho3, Hs3. exists s3, (h1 ++ h2 ++ h3). split_and!.
  - cbn. unfold mbind, St_bind, gets, modify. rewrite Hs1. cbn. rewrite Hc1, Hna. exact Hr.
  - by rewrite Hh3, Hh1, !(assoc_L (++)).
  - by etrans.
  - intros i Hi. rewrite !notes_app, Hn1, Hothers by done. apply Ho3. intros c Hc. apply Hi. by eapply elem_of_sublist.
  - intros c Hc. specialize (Hnotes c Hc). specialize (Hlost c Hc). unfold served. rewrite !notes_app, Hn1, Hnotes, filter_cons.
    destruct (decide (c ∈ l')) as [Hin|Hnot].
    + destruct (Hs3 c Hin) as [[Hk ->]|(Hk & l1 & t' & l2 & h0 & -> & Hm & Hnok & ->)]; [left|right]; (split; [done|]).
      * by destruct (matches t c).
      * exists (t :: l1), t', l2, h0. split_and!; [done..|]. cbn [app]. rewrite filter_cons. by destruct (matches t c).
    + destruct (Hlost Hnot) as [Hm [h0 Hnok]]. right. split.
      * intros Hin. apply Hnot. by eapply elem_of_sublist.
      * exists [], t, temps, h0. split_and!; [done..|]. rewrite Hm, Ho3; [by cbn; rewrite Hm|]. intros d Hdl Heq. apply Hnot.
        rewrite <- (distinct_inj (callbacks_ s) d c Hd (elem_of_sublist _ _ _ Hdl Hsub) Hc Heq). done.
Qed.

Lemma hal_run_ok {J} `{!JsonCpp J} h l s1 s2 :
  hal_run l s1 s2 -> s1 = mkSystem (thermal_new h) [] -> hal_ok h l (sys_thermal s2).
Proof.
  intros Hr ->. remember (mkSystem (thermal_new h) []) as s0 eqn:Hs0.
  induction Hr as [s|l o s1 s2 s3 Hr IH Hs].
  - subst s. split; [done|done|]. split; [done|done|]. intros p. split; [by intros ?%elem_of_nil|done].
  - eapply hal_step_ok; [exact Hs|]. by apply IH.
Qed.

(** C34: whatever calls the clients make and however they interleave with the
    watcher and the looper, no client is registered twice for the same thing,
    and the CPUs that the configuration file named when a CPU last reached
    threshold 3, until one is below threshold 2, are offline, but for those whose
    last attempt failed; no others are, but for those whose last attempt to bring
    them back failed. *)
Theorem thermal_reachable_ok {J} `{!JsonCpp J} h l s :
  hal_run l (mkSystem (thermal_new h) []) s ->
  service_ok (sys_thermal s) /\ hotplug_ok (cpu_passes h None l) (sys_thermal s).
Proof.
  intros Hr. destruct (hal_run_ok h l _ s Hr eq_refl) as [Hs _ [Hf Hc Ht]]. split; [done|]. by apply tried_ok.
Qed.

(** Every pass of the watcher reaches the clients: each registered callback
    is told, in order and once each, every temperature of the type it asked for;
    one that does not answer is removed at once and told nothing more. *)
Lemma pass_reaches_callbacks {J} `{!JsonCpp J} fs temps s thr2 thr3 cpus :
  cpu_ready fs (thermal_helper_ s) thr2 thr3 cpus -> service_ok s ->
  exists s' h, sendThermalChangedCallback fs temps s = Some (tt, s') /\ t_history s' = t_history s ++ h /\
    sublist (callbacks_ s') (callbacks_ s) /\ forall c, c ∈ callbacks_ s -> served temps (callbacks_ s') h c.
Proof.
  intros Hready [Hd _]. destruct (send_serves fs temps s thr2 thr3 cpus Hready Hd) as (s' & h & Hr & Hh & Hs & _ & Hc).
  by exists s', h.
Qed.

(** The thresholds for taking CPUs offline are those of the first CPU
    sensor, but they are compared with every CPU sensor of a pass.  With one hot
    and, behind it, one cool sensor each pass takes the CPUs offline and straight
    back online, and ends as it started. *)
Lemma hotplug_flaps {J} `{!JsonCpp J} fs t1 t2 s thr2 thr3 cpus :
  cpu_ready fs (thermal_helper_ s) thr2 thr3 cpus -> callbacks_ s = [] -> tempThrottling s = false ->
  is_cpu t1 = true -> is_cpu t2 = true -> SFleb thr3 (t_value t1) = true -> SFltb (t_value t2) thr2 = true ->
  exists s', sendThermalChangedCallback fs [t1; t2] s = Some (tt, s') /\
    (let off := cpu_attempts (t_history s) cpus false in
     t_history s' = t_history s ++ off ++ cpu_attempts (t_history s ++ off) cpus true) /\ tempThrottling s' = false.
Proof.
  intros Hready Hc Hthr Ht1 Ht2 Hhot Hcold. cbn. rewrite Ht1, Ht2.
  unfold mbind, St_bind, gets, modify, mret, St_ret. rewrite (hotplug_runs fs t1 s thr2 thr3 cpus Hready), Hhot, Hthr. cbn.
  rewrite Hc. cbn. erewrite hotplug_runs by exact Hready. cbn. rewrite Hcold, andb_false_r. cbn.
  eexists. split; [done|]. cbn. split; [|done]. by rewrite <- (assoc_L (++)).
Qed.
End Service.

(** ** Witnesses *)

#[local] Existing Instances demo_thermal_abi demo_thermal_abi_laws demo_base.

Definition demo_client (n : Z) : iface := mkIface n true n.

(** Client 2 is gone; one CPU, whose file can be opened. *)
Definition demo_thermal_env : ThermalEnv := {|
  notifyThrottling_ok _ i _ := negb (ptr i =? 2);
  cpu_open_ok _ _ := true; cpu_write_ok _ _ _ := true; kMaxCpus := 0
|}.

#[local] Existing Instance demo_thermal_env.

Definition demo_json_reader : JsonCpp demo_json := demo_jsoncpp demo_thermal_reader.

#[local] Existing Instance demo_json_reader.

(** The configuration file, and nothing in the proc file. *)
Definition demo_thermal_files : files := fun path =>
  if String.eqb path kCpuUsageFile then None else Some "good"%string.

Definition demo_service : Thermal := thermal_new (demo_helper 0).

Lemma demo_ready (s : Thermal) : thermal_helper_ s = demo_helper 0 ->
  cpu_ready demo_thermal_files (thermal_helper_ s) (Binary32.of_Z 70) (Binary32.of_Z 80) ["cpu3"%string].
Proof.
  intros ->. split.
  - eexists. vm_compute. reflexivity.
  - eexists _, _. split; [vm_compute; reflexivity|]. split; vm_compute; reflexivity.
  - vm_compute. reflexivity.
Qed.

Definition demo_temp (v : Z) : Temperature := mkTemp 0 "cpu0"%string (Binary32.of_Z v) 0.

Definition demo_with (l : list CallbackSetting) : Thermal := with_events (with_callbacks demo_service l) l.

Definition demo_registered : Thermal :=
  demo_with [mkCallback (demo_client 1) false (-1); mkCallback (demo_client 2) true 0; mkCallback (demo_client 3) true 1].

Lemma demo_step l n ft ty :
  existsb (same_callback (Some (demo_client n))) l = false ->
  hal_step None (mkSystem (demo_with l) []) (mkSystem (demo_with (l ++ [mkCallback (demo_client n) ft ty])) []).
Proof.
  intros He. eapply (StepClient _ _ T_OK); [apply (OpRegister (Some (demo_client n)) ft ty)|].
  assert (is_initialized_ (demo_helper 0) = true) as Hi by (by vm_compute).
  unfold register_callback, mbind, St_bind, gets, modify, mret, St_ret, demo_with, demo_service, thermal_new.
  cbn [thermal_helper_ callbacks_ with_events with_callbacks]. rewrite Hi. cbn [negb].
  match goal with |- context [existsb _ ?x] => change x with l end. by rewrite He.
Qed.

(** A turn reads 81 degrees, and the pass is sent. *)
Definition demo_hot_files : files := fun path =>
  if String.eqb path kCpuUsageFile then None else if String.eqb path "/tz0/temp" then Some "81"%string else Some "good"%string.

Definition demo_turned : list Temperature * ThermalHelper :=
  default ([], demo_helper 0) (threadLoop demo_hot_files (demo_helper 0) PollNone).

Definition demo_hot : Thermal := with_helper (demo_with [mkCallback (demo_client 1) false (-1)]) demo_turned.2.

Definition demo_sent : Thermal :=
  match sendThermalChangedCallback demo_hot_files demo_turned.1 demo_hot with Some (_, s) => s | None => demo_hot end.

Lemma demo_hot_run : hal_run [(demo_hot_files, demo_turned.1)] (mkSystem demo_service []) (mkSystem demo_sent []).
Proof.
  change [(demo_hot_files, demo_turned.1)] with
    ((([] ++ option_list None) ++ option_list None) ++ option_list (Some (demo_hot_files, demo_turned.1))).
  eapply RunStep; [eapply RunStep; [eapply RunStep; [apply RunNil|by apply (demo_step [] 1 false (-1))]|]|].
  - eapply (StepTurn demo_hot_files PollNone _ demo_turned.1 demo_turned.2). vm_compute. reflexivity.
  - apply StepSend; [by vm_compute|]. vm_compute. reflexivity.
Qed.

Lemma initial_notification_never_sent_witness :
  exists c, [mkCallback (demo_client 1) false (-1)] = [] ++ [c] /\ callback c = demo_client 1 /\
    forall fs s2, looper_handler fs c s2 = Some (tt, s2).
Proof.
  apply (initial_notification_never_sent (demo_client 1) false (-1) demo_service
    (with_events (with_callbacks demo_service [mkCallback (demo_client 1) false (-1)]) [mkCallback (demo_client 1) false (-1)])).
  reflexivity.
Defined.

(** The CPU the configuration names is offline. *)
Lemma thermal_reachable_ok_witness :
  service_ok demo_sent /\ hotplug_ok (Some ["cpu3"%string]) demo_sent /\
  cpu_state (t_history demo_sent) !! cpu_path "cpu3" = Some (cpu_data false).
Proof.
  destruct (thermal_reachable_ok (demo_helper 0) _ (mkSystem demo_sent []) demo_hot_run) as [Hs Hh].
  split; [exact Hs|]. split; [|vm_compute; reflexivity].
  assert (cpu_passes (demo_helper 0) None [(demo_hot_files, demo_turned.1)] = Some ["cpu3"%string]) as <-
    by (vm_compute; reflexivity). exact Hh.
Defined.

Lemma hotplug_flaps_witness :
  exists s', sendThermalChangedCallback demo_thermal_files [demo_temp 81; demo_temp 60] demo_service = Some (tt, s') /\
    t_history s' = [SwitchCpu (mkAttempt (cpu_path "cpu3") (cpu_data false) WRITTEN);
      SwitchCpu (mkAttempt (cpu_path "cpu3") (cpu_data true) WRITTEN)] /\
    tempThrottling s' = false.
Proof.
  destruct (hotplug_flaps demo_thermal_files (demo_temp 81) (demo_temp 60) demo_service (Binary32.of_Z 70)
    (Binary32.of_Z 80) ["cpu3"%string]) as (s' & Hr & Hh & Ht); [by apply demo_ready|reflexivity..|].
  exists s'. split; [exact Hr|]. split; [|exact Ht]. rewrite Hh. vm_compute. reflexivity.
Defined.
