(* ===== verification/AudioWorker.v ===== *)
(** * audio/default/Stream.cpp, include/core-impl/Stream.h: the worker of an audio stream

    Every stream has a worker thread that takes commands of the client from a
    message queue, drives the device and answers each command.  Drivers that play
    from their own buffer report progress on a thread of theirs
    ([onBufferStateChange], [onClipStateChange]), and the two threads share the
    atomic fields [mState] and [mDrainState]; the binder threads set
    [mIsConnected].

    A piece of code is a [Prog]: a tree of atomic actions, each at most one access
    of a shared field.  [exec] runs it alone, [sys_step] interleaves the actions of
    the threads.  An action that gives [None] is undefined behaviour; a [Wait]
    blocks.  The driver, the clocks and the client's callback are the class
    [AudioDriver], whose answers are functions of everything that happened before;
    the constants of the generated interface are [StreamAbi]. *)

From S2P Require Import Prelude.

(** ** Data *)

Inductive StreamState :=
  | STANDBY | IDLE | ACTIVE | PAUSED | DRAINING | DRAIN_PAUSED | TRANSFERRING | TRANSFER_PAUSED | ERROR
  | STATE_CLOSED.

Definition state_eqb (s t : StreamState) : bool :=
  match s, t with
  | STANDBY, STANDBY | IDLE, IDLE | ACTIVE, ACTIVE | PAUSED, PAUSED | DRAINING, DRAINING
  | DRAIN_PAUSED, DRAIN_PAUSED | TRANSFERRING, TRANSFERRING | TRANSFER_PAUSED, TRANSFER_PAUSED
  | ERROR, ERROR | STATE_CLOSED, STATE_CLOSED => true
  | _, _ => false
  end.

Inductive DrainState := DRAIN_NONE | ALL | EN | EN_SENT.

Definition drain_eqb (s t : DrainState) : bool :=
  match s, t with
  | DRAIN_NONE, DRAIN_NONE | ALL, ALL | EN, EN | EN_SENT, EN_SENT => true
  | _, _ => false
  end.

Inductive DrainMode := DRAIN_UNSPECIFIED | DRAIN_ALL | DRAIN_EARLY_NOTIFY.

Definition is_nil {A} (l : list A) : bool := match l with [] => true | _ => false end.

Definition is_unspecified (mode : DrainMode) : bool := match mode with DRAIN_UNSPECIFIED => true | _ => false end.

Inductive Command :=
  | CExit (cookie : Z) | CGetStatus | CStart | CBurst (fmqByteCount : Z) | CDrain (mode : DrainMode)
  | CStandby | CPause | CFlush.

Inductive reply_status := STATUS_OK | STATUS_BAD_VALUE | STATUS_INVALID_OPERATION | STATUS_NOT_ENOUGH_DATA.

Record Position := mkPosition { frames : Z; timeNs : Z }.

Record Reply := mkReply {
  r_status : reply_status; r_byteCount : Z; observable : Position; hardware : Position; latencyMs : Z; r_state : StreamState
}.

Class StreamAbi := { POSITION_UNKNOWN : Z; LATENCY_UNKNOWN : Z; default_reply : Reply }.

(** The calls of the driver other than [transfer], and what happens outside. *)
Inductive driver_call := DInit | DDrain (mode : DrainMode) | DFlush | DPause | DStandby | DStart | DShutdown.

Inductive audio_effect :=
  | Driver (c : driver_call)
  | TransferOut (data : list Z)
  | TransferIn (frameCount : Z)
  | TransferMmap
  | Processed (data : list Z)
  | TransferReady
  | DrainReady.

Class AudioDriver := {
  driver_ok : list audio_effect -> driver_call -> bool;
  (** Success, [actualFrameCount], latency. *)
  transfer_out : list audio_effect -> list Z -> bool * Z * Z;
  (** Success, the bytes written to the buffer, [actualFrameCount], latency. *)
  transfer_in : list audio_effect -> Z -> bool * list Z * Z * Z;
  transfer_mmap : list audio_effect -> bool * Z;
  refinePosition : list audio_effect -> Position -> option Position;
  getMmapPositionAndLatency : list audio_effect -> option (Position * Z);
  has_data_processor : list audio_effect -> bool;
  uptimeNanos : list audio_effect -> Z;
  steady_clock : list audio_effect -> Z;
  command_read_ok : list audio_effect -> bool;
  reply_write_ok : list audio_effect -> bool
}.

(** The context of a stream; the message queues it owns are in [World].
    [sc_frameSize]: the result of [getFrameSize]; [sc_bufferSize]: the size of the
    data queue in bytes; [sc_hasDataMQ]: the pointer [mDataMQ] is not null. *)
Record StreamContext := mkContext {
  mInternalCommandCookie : Z; sc_frameSize : Z; sc_bufferSize : nat; sc_isMmap : bool; sc_hasDataMQ : bool;
  mNominalLatencyMs : Z; sc_async : bool; transientStateDelayMs : Z;
  forceTransientBurst : bool; forceSynchronousDrain : bool; reply_capacity : nat
}.

(** The fields of the worker, the queues, and what happened. *)
Record World := mkWorld {
  mState : StreamState; mStatePriorToClosing : StreamState; mIsConnected : bool; mDrainState : DrainState;
  mTransientStateStart : Z; mDataBuffer : list Z; mFrameCount : Z;
  commandMQ : list Command; replyMQ : list Reply; dataMQ : list Z; history : list audio_effect
}.

Definition with_state (w : World) (s : StreamState) : World :=
  mkWorld s (mStatePriorToClosing w) (mIsConnected w) (mDrainState w) (mTransientStateStart w) (mDataBuffer w)
    (mFrameCount w) (commandMQ w) (replyMQ w) (dataMQ w) (history w).
Definition with_prior (w : World) (s : StreamState) : World :=
  mkWorld (mState w) s (mIsConnected w) (mDrainState w) (mTransientStateStart w) (mDataBuffer w)
    (mFrameCount w) (commandMQ w) (replyMQ w) (dataMQ w) (history w).
Definition with_connected (w : World) (b : bool) : World :=
  mkWorld (mState w) (mStatePriorToClosing w) b (mDrainState w) (mTransientStateStart w) (mDataBuffer w)
    (mFrameCount w) (commandMQ w) (replyMQ w) (dataMQ w) (history w).
Definition with_drain (w : World) (d : DrainState) : World :=
  mkWorld (mState w) (mStatePriorToClosing w) (mIsConnected w) d (mTransientStateStart w) (mDataBuffer w)
    (mFrameCount w) (commandMQ w) (replyMQ w) (dataMQ w) (history w).
Definition with_start (w : World) (t : Z) : World :=
  mkWorld (mState w) (mStatePriorToClosing w) (mIsConnected w) (mDrainState w) t (mDataBuffer w)
    (mFrameCount w) (commandMQ w) (replyMQ w) (dataMQ w) (history w).
Definition with_buffer (w : World) (b : list Z) : World :=
  mkWorld (mState w) (mStatePriorToClosing w) (mIsConnected w) (mDrainState w) (mTransientStateStart w) b
    (mFrameCount w) (commandMQ w) (replyMQ w) (dataMQ w) (history w).
Definition with_frames (w : World) (n : Z) : World :=
  mkWorld (mState w) (mStatePriorToClosing w) (mIsConnected w) (mDrainState w) (mTransientStateStart w) (mDataBuffer w)
    n (commandMQ w) (replyMQ w) (dataMQ w) (history w).
Definition with_commands (w : World) (q : list Command) : World :=
  mkWorld (mState w) (mStatePriorToClosing w) (mIsConnected w) (mDrainState w) (mTransientStateStart w) (mDataBuffer w)
    (mFrameCount w) q (replyMQ w) (dataMQ w) (history w).
Definition with_replies (w : World) (q : list Reply) : World :=
  mkWorld (mState w) (mStatePriorToClosing w) (mIsConnected w) (mDrainState w) (mTransientStateStart w) (mDataBuffer w)
    (mFrameCount w) (commandMQ w) q (dataMQ w) (history w).
Definition with_data (w : World) (q : list Z) : World :=
  mkWorld (mState w) (mStatePriorToClosing w) (mIsConnected w) (mDrainState w) (mTransientStateStart w) (mDataBuffer w)
    (mFrameCount w) (commandMQ w) (replyMQ w) q (history w).
Definition logged (w : World) (e : audio_effect) : World :=
  mkWorld (mState w) (mStatePriorToClosing w) (mIsConnected w) (mDrainState w) (mTransientStateStart w) (mDataBuffer w)
    (mFrameCount w) (commandMQ w) (replyMQ w) (dataMQ w) (history w ++ [e]).

(** ** Programs of atomic actions *)

Inductive Prog (A : Type) : Type :=
  | Ret (a : A)
  | Act {X : Type} (m : St World X) (k : X -> Prog A)
  | Wait (g : World -> bool) (k : Prog A).
Arguments Ret {A} _.
Arguments Act {A X} _ _.
Arguments Wait {A} _ _.

Fixpoint prog_bind {A B} (k : A -> Prog B) (p : Prog A) : Prog B :=
  match p with
  | Ret a => k a
  | Act m k' => Act m (fun x => prog_bind k (k' x))
  | Wait g p' => Wait g (prog_bind k p')
  end.

#[global] Instance Prog_ret : MRet Prog := @Ret.
#[global] Instance Prog_bind : MBind Prog := @prog_bind.

Fixpoint exec {A} (p : Prog A) : St World A :=
  match p with
  | Ret a => mret a
  | Act m k => fun w => match m w with Some (x, w') => exec (k x) w' | None => None end
  | Wait g p' => fun w => if g w then exec p' w else None
  end.

Definition act {X} (m : St World X) : Prog X := Act m Ret.
Definition wait (g : World -> bool) : Prog unit := Wait g (Ret tt).

Definition load_state : Prog StreamState := act (gets mState).
Definition store_state (s : StreamState) : Prog unit := act (modify (fun w => with_state w s)).
Definition load_drain : Prog DrainState := act (gets mDrainState).
Definition store_drain (d : DrainState) : Prog unit := act (modify (fun w => with_drain w d)).
Definition load_connected : Prog bool := act (gets mIsConnected).

(** [mState == s1 || mState == s2 || ...], a load for each comparison. *)
Fixpoint state_in (l : list StreamState) : Prog bool :=
  match l with
  | [] => mret false
  | s :: l' => t ← load_state; if state_eqb t s then mret true else state_in l'
  end.

Section Worker.
Context `{!StreamAbi, !AudioDriver}.
Variables (ctx : StreamContext) (tid : Z).

(** ** Common parts *)

Definition call (c : driver_call) : Prog bool :=
  act (fun w => Some (driver_ok (history w) c, logged w (Driver c))).

Definition kUnknownPosition : Position := mkPosition POSITION_UNKNOWN POSITION_UNKNOWN.

Definition populate (reply : Reply) (isConnected : bool) (w : World) : Reply :=
  let obs :=
    if isConnected
    then default kUnknownPosition (refinePosition (history w) (mkPosition (mFrameCount w) (uptimeNanos (history w))))
    else kUnknownPosition in
  let hw := if isConnected then hardware reply else kUnknownPosition in
  let '(hw, lat) :=
    if sc_isMmap ctx then default (kUnknownPosition, LATENCY_UNKNOWN) (getMmapPositionAndLatency (history w))
    else (hw, latencyMs reply) in
  mkReply STATUS_OK (r_byteCount reply) obs hw lat (r_state reply).

Definition populateReply (reply : Reply) (isConnected : bool) : Prog Reply := act (gets (populate reply isConnected)).

Definition populateReplyWrongState (reply : Reply) : Reply :=
  mkReply STATUS_INVALID_OPERATION (r_byteCount reply) (observable reply) (hardware reply) (latencyMs reply) (r_state reply).

Definition with_status (reply : Reply) (s : reply_status) : Reply :=
  mkReply s (r_byteCount reply) (observable reply) (hardware reply) (latencyMs reply) (r_state reply).
Definition with_latency (reply : Reply) (l : Z) : Reply :=
  mkReply (r_status reply) (r_byteCount reply) (observable reply) (hardware reply) l (r_state reply).
Definition add_bytes (reply : Reply) (n : Z) : Reply :=
  mkReply (r_status reply) (wrap_s 32 (r_byteCount reply + n)) (observable reply) (hardware reply) (latencyMs reply) (r_state reply).
Definition with_reply_state (reply : Reply) (s : StreamState) : Reply :=
  mkReply (r_status reply) (r_byteCount reply) (observable reply) (hardware reply) (latencyMs reply) s.

Definition switchToTransientState (s : StreamState) : Prog unit :=
  store_state s ;; act (modify (fun w => with_start w (steady_clock (history w)))).

(** The exchange of the state, and the state prior to closing. *)
Definition closed (w : World) : World :=
  let w' := if state_eqb (mState w) STATE_CLOSED then w else with_prior w (mState w) in
  with_state w' STATE_CLOSED.

Definition setClosed : Prog StreamState :=
  act (fun w => Some (mStatePriorToClosing (closed w), closed w)).

Definition advanceFrameCount (n : Z) : Prog unit := act (modify (fun w => with_frames w (mFrameCount w + n))).

(** [byteCount / frameSize]. *)
Definition to_frames (n : Z) : Prog Z :=
  act (of_option (if sc_frameSize ctx =? 0 then None else Some (n / sc_frameSize ctx))).

(** [init]: [true] for the empty error message.  The arguments say which queues
    there are, the element size of the data queue, and whether the buffer could be
    allocated. *)
Definition worker_init (has_command has_reply has_data : bool) (quantumSize : Z) (new_ok : bool) : Prog bool :=
  if negb has_command || negb has_reply then mret false
  else if negb (sc_isMmap ctx) && (negb has_data || negb (quantumSize =? 1) || negb new_ok) then mret false
  else
    (if sc_isMmap ctx then mret tt
     else act (modify (fun w => with_buffer w (replicate (sc_bufferSize ctx) 0)))) ;;
    call DInit.

(** A command, or [None] when the queue is broken. *)
Definition read_command : Prog (option Command) :=
  wait (fun w => negb (is_nil (commandMQ w))) ;;
  act (fun w =>
    match commandMQ w with
    | c :: q => Some (if command_read_ok (history w) then Some c else None, with_commands w q)
    | [] => Some (None, w)
    end).

Definition write_reply (reply : Reply) : Prog bool :=
  wait (fun w => (length (replyMQ w) <? reply_capacity ctx)%nat) ;;
  act (fun w =>
    if reply_write_ok (history w) then Some (true, with_replies w (replyMQ w ++ [reply])) else Some (false, w)).

Inductive Status := CONTINUE | EXIT | ABORT.

(** What a command leads to: a reply, or the end of the cycle without one. *)
Inductive outcome := Answer (reply : Reply) | Leave (s : Status).

Definition handle_exit (cookie : Z) (reply : Reply) : Prog outcome :=
  st ← (if cookie =? Z.lxor (mInternalCommandCookie ctx) tid then call DShutdown ;; setClosed ;; mret EXIT
        else mret CONTINUE);
  mret (if negb (cookie =? 0) then Leave st else Answer reply).

Definition answer_status (reply : Reply) : Prog Reply := c ← load_connected; populateReply reply c.

(** [standby] of both directions. *)
Definition handle_standby (reply : Reply) : Prog Reply :=
  idle ← state_in [IDLE];
  if negb idle then mret (populateReplyWrongState reply)
  else
    r ← answer_status reply;
    ok ← call DStandby;
    store_state (if ok : bool then STANDBY else ERROR) ;; mret r.

Definition reply_of (p : Prog Reply) : Prog outcome := r ← p; mret (Answer r).

(** The end of a cycle: [reply.state = mState], and the reply is written. *)
Definition finish (o : outcome) : Prog Status :=
  match o with
  | Leave st => mret st
  | Answer reply =>
      s ← load_state;
      ok ← write_reply (with_reply_state reply s);
      if ok : bool then mret CONTINUE else store_state ERROR ;; mret ABORT
  end.

Definition command_loop (handle : Command -> Reply -> Prog outcome) : Prog Status :=
  c ← read_command;
  match c with
  | None => store_state ERROR ;; mret ABORT
  | Some c => o ← handle c (with_status default_reply STATUS_BAD_VALUE); finish o
  end.

(** [mmap]: the driver is only asked to go on. *)
Definition transferMmap (reply : Reply) : Prog (bool * Reply) :=
  r ← act (fun w => Some (transfer_mmap (history w), logged w TransferMmap));
  let '(ok, latency) := r in
  if ok : bool then
    r ← answer_status reply; mret (true, with_latency r latency)
  else mret (false, reply).

(** An access of the data queue through its pointer. *)
Definition with_queue {X} (f : World -> X) : Prog X :=
  act (fun w => if sc_hasDataMQ ctx then Some (f w, w) else None).

(** ** Input *)

Definition read_in (clientSize : Z) (reply : Reply) : Prog (bool * Reply) :=
  available ← with_queue (fun w => Z.of_nat (sc_bufferSize ctx) - Z.of_nat (length (dataMQ w)));
  size ← act (gets (fun w => Z.of_nat (length (mDataBuffer w))));
  let byteCount := Z.min clientSize (Z.min available size) in
  isConnected ← load_connected;
  n ← to_frames byteCount;
  r ← (if isConnected : bool then
         act (fun w =>
           let '(ok, data, actual, latency) := transfer_in (history w) n in
           if (length (mDataBuffer w) <? length data)%nat then None
           else Some ((negb ok, actual, latency),
                      logged (with_buffer w (data ++ drop (length data) (mDataBuffer w))) (TransferIn n)))
       else
         act (fun w => Some ((false, n, mNominalLatencyMs ctx),
           with_buffer w (replicate (Z.to_nat byteCount) 0 ++ drop (Z.to_nat byteCount) (mDataBuffer w)))));
  let '(fatal, actualFrameCount, latency) := r in
  let actualByteCount := actualFrameCount * sc_frameSize ctx in
  success ← act (fun w =>
    if actualByteCount <=? 0 then Some (true, w)
    else if Z.of_nat (length (mDataBuffer w)) <? actualByteCount then None
    else if actualByteCount <=? Z.of_nat (sc_bufferSize ctx) - Z.of_nat (length (dataMQ w))
    then Some (true, with_data w (dataMQ w ++ take (Z.to_nat actualByteCount) (mDataBuffer w)))
    else Some (false, w));
  reply ← (if success : bool then
             advanceFrameCount actualFrameCount ;;
             populateReply (add_bytes reply actualByteCount) isConnected
           else mret (with_status reply STATUS_NOT_ENOUGH_DATA));
  mret (negb fatal, with_latency reply latency).

Definition in_start (reply : Reply) : Prog Reply :=
  good ← state_in [STANDBY; DRAINING];
  if negb good then mret (populateReplyWrongState reply)
  else
    ok ← call DStart;
    if ok : bool then
      r ← answer_status reply;
      s ← load_state;
      store_state (if state_eqb s STANDBY then IDLE else ACTIVE) ;; mret r
    else store_state ERROR ;; mret reply.

Definition in_burst (fmqByteCount : Z) (reply : Reply) : Prog Reply :=
  if fmqByteCount <? 0 then mret reply
  else
    good ← state_in [IDLE; ACTIVE; PAUSED; DRAINING];
    if negb good then mret (populateReplyWrongState reply)
    else
      r ← (if sc_isMmap ctx then transferMmap reply else read_in fmqByteCount reply);
      let '(ok, reply) := r in
      (if ok : bool then mret tt else store_state ERROR) ;;
      go ← state_in [IDLE; PAUSED];
      (if go : bool then store_state ACTIVE
       else d ← state_in [DRAINING]; if d : bool then store_state STANDBY else mret tt) ;;
      mret reply.

Definition in_drain (mode : DrainMode) (reply : Reply) : Prog Reply :=
  if negb (is_unspecified mode) then mret reply
  else
    good ← state_in [ACTIVE];
    if negb good then mret (populateReplyWrongState reply)
    else
      ok ← call (DDrain mode);
      if ok : bool then r ← answer_status reply; store_state DRAINING ;; mret r
      else store_state ERROR ;; mret reply.

Definition in_pause (reply : Reply) : Prog Reply :=
  good ← state_in [ACTIVE];
  if negb good then mret (populateReplyWrongState reply)
  else
    ok ← call DPause;
    if ok : bool then r ← answer_status reply; store_state PAUSED ;; mret r
    else store_state ERROR ;; mret reply.

Definition in_flush (reply : Reply) : Prog Reply :=
  good ← state_in [PAUSED];
  if negb good then mret (populateReplyWrongState reply)
  else
    ok ← call DFlush;
    if ok : bool then
      ok ← call DStandby;
      if ok : bool then r ← answer_status reply; store_state STANDBY ;; mret r
      else store_state ERROR ;; mret reply
    else store_state ERROR ;; mret reply.

Definition in_handle (c : Command) (reply : Reply) : Prog outcome :=
  match c with
  | CExit cookie => handle_exit cookie reply
  | CGetStatus => reply_of (answer_status reply)
  | CStart => reply_of (in_start reply)
  | CBurst n => reply_of (in_burst n reply)
  | CDrain mode => reply_of (in_drain mode reply)
  | CStandby => reply_of (handle_standby reply)
  | CPause => reply_of (in_pause reply)
  | CFlush => reply_of (in_flush reply)
  end.

(** [StreamInWorkerLogic::cycle]. *)
Definition in_cycle : Prog Status := command_loop in_handle.

(** ** Output *)

Definition notify (e : audio_effect) : Prog unit :=
  if sc_async ctx then act (modify (fun w => logged w e)) else mret tt.

Definition onBufferStateChange (bufferFramesLeft : Z) : Prog unit :=
  state ← load_state;
  drainState ← load_drain;
  if state_eqb state TRANSFERRING || drain_eqb drainState EN_SENT then
    (if state_eqb state TRANSFERRING then store_state ACTIVE else mret tt) ;;
    notify TransferReady
  else mret tt.

Definition onClipStateChange (clipFramesLeft : Z) (hasNextClip : bool) : Prog unit :=
  drainState ← load_drain;
  if negb (drain_eqb drainState DRAIN_NONE) && (clipFramesLeft =? 0) then
    store_state (if hasNextClip then TRANSFERRING else IDLE) ;;
    store_drain DRAIN_NONE ;;
    (if drain_eqb drainState ALL || drain_eqb drainState EN_SENT then notify DrainReady else mret tt)
  else if drain_eqb drainState EN && (0 <? clipFramesLeft) then
    store_drain EN_SENT ;; notify DrainReady
  else mret tt.

(** The end of a synchronous drain, at the start of a cycle. *)
Definition drain_timeout : Prog unit :=
  draining ← state_in [DRAINING];
  if (draining : bool) && negb (sc_async ctx) then
    over ← act (gets (fun w =>
      transientStateDelayMs ctx <=? (steady_clock (history w) - mTransientStateStart w) ÷ 1000000));
    if over : bool then store_state IDLE else mret tt
  else mret tt.

Definition write_out (clientSize : Z) (reply : Reply) : Prog (bool * Reply) :=
  readByteCount ← with_queue (fun w => length (dataMQ w));
  got ← act (fun w =>
    if (length (dataMQ w) <? readByteCount)%nat then Some (false, w)
    else if (length (mDataBuffer w) <? readByteCount)%nat then None
    else Some (true, with_data (with_buffer w (take readByteCount (dataMQ w) ++ drop readByteCount (mDataBuffer w)))
                       (drop readByteCount (dataMQ w))));
  if got : bool then
    isConnected ← load_connected;
    size ← act (gets (fun w => Z.of_nat (length (mDataBuffer w))));
    let byteCount := Z.min clientSize (Z.min (Z.of_nat readByteCount) size) in
    let byteCount :=
      if (sc_frameSize ctx <=? byteCount) && forceTransientBurst ctx then byteCount - sc_frameSize ctx else byteCount in
    n ← to_frames byteCount;
    r ← (if isConnected : bool then
           r ← act (fun w =>
             let data := take (Z.to_nat (n * sc_frameSize ctx)) (mDataBuffer w) in
             Some (transfer_out (history w) data, logged w (TransferOut data)));
           let '(ok, actual, latency) := r in
           act (fun w =>
             if has_data_processor (history w)
             then Some (tt, logged w (Processed (take (Z.to_nat (actual * sc_frameSize ctx)) (mDataBuffer w))))
             else Some (tt, w)) ;;
           mret (negb ok, actual, latency)
         else mret (false, n, mNominalLatencyMs ctx));
    let '(fatal, actualFrameCount, latency) := r in
    advanceFrameCount actualFrameCount ;;
    reply ← populateReply (add_bytes reply (actualFrameCount * sc_frameSize ctx)) isConnected;
    mret (negb (fatal : bool), with_latency reply latency)
  else mret (true, with_latency (with_status reply STATUS_NOT_ENOUGH_DATA) (mNominalLatencyMs ctx)).

Definition out_start (reply : Reply) : Prog Reply :=
  s ← load_state;
  match s with
  | STANDBY | PAUSED | DRAIN_PAUSED | TRANSFER_PAUSED =>
      ok ← call DStart;
      if ok : bool then
        r ← answer_status reply;
        match s with
        | STANDBY => store_state IDLE
        | PAUSED => store_state ACTIVE
        | DRAIN_PAUSED => switchToTransientState DRAINING
        | _ => switchToTransientState TRANSFERRING
        end ;; mret r
      else store_state ERROR ;; mret reply
  | _ => mret (populateReplyWrongState reply)
  end.

(** The state after the data was written. *)
Definition out_burst_next (fmqByteCount : Z) (reply : Reply) : Prog unit :=
  paused ← state_in [STANDBY; DRAIN_PAUSED; PAUSED];
  if paused : bool then
    p ← (if sc_async ctx then d ← state_in [DRAIN_PAUSED]; mret (negb d) else mret true);
    store_state (if p : bool then PAUSED else TRANSFER_PAUSED)
  else
    a ← state_in [IDLE; ACTIVE];
    a ← (if a : bool then mret true
         else d ← state_in [DRAINING];
              if d : bool then ds ← load_drain; mret (negb (drain_eqb ds EN_SENT)) else mret false);
    if a : bool then
      if negb (sc_async ctx) || (r_byteCount reply =? fmqByteCount) then store_state ACTIVE
      else switchToTransientState TRANSFERRING
    else mret tt.

Definition out_burst (fmqByteCount : Z) (reply : Reply) : Prog Reply :=
  if fmqByteCount <? 0 then mret reply
  else
    bad ← state_in [ERROR; TRANSFERRING; TRANSFER_PAUSED];
    if bad : bool then mret (populateReplyWrongState reply)
    else
      r ← (if sc_isMmap ctx then transferMmap reply else write_out fmqByteCount reply);
      let '(ok, reply) := r in
      (if ok : bool then mret tt else store_state ERROR) ;;
      out_burst_next fmqByteCount reply ;;
      mret reply.

Definition out_drain (mode : DrainMode) (reply : Reply) : Prog Reply :=
  if is_unspecified mode then mret reply
  else
    good ← state_in [ACTIVE; TRANSFERRING];
    if good : bool then
      ok ← call (DDrain mode);
      if ok : bool then
        r ← answer_status reply;
        sync ← state_in [ACTIVE];
        (if (sync : bool) && forceSynchronousDrain ctx then store_state IDLE
         else switchToTransientState DRAINING ;;
              store_drain (match mode with DRAIN_EARLY_NOTIFY => EN | _ => ALL end)) ;;
        mret r
      else store_state ERROR ;; mret reply
    else
      tp ← state_in [TRANSFER_PAUSED];
      if tp : bool then store_state DRAIN_PAUSED ;; answer_status reply
      else mret (populateReplyWrongState reply).

Definition out_pause (reply : Reply) : Prog Reply :=
  s ← load_state;
  match s with
  | ACTIVE | DRAINING | TRANSFERRING =>
      ok ← call DPause;
      if ok : bool then
        r ← answer_status reply;
        store_state (match s with ACTIVE => PAUSED | DRAINING => DRAIN_PAUSED | _ => TRANSFER_PAUSED end) ;; mret r
      else store_state ERROR ;; mret reply
  | _ => mret (populateReplyWrongState reply)
  end.

Definition out_flush (reply : Reply) : Prog Reply :=
  good ← state_in [PAUSED; DRAIN_PAUSED; TRANSFER_PAUSED];
  if negb good then mret (populateReplyWrongState reply)
  else
    ok ← call DFlush;
    if ok : bool then r ← answer_status reply; store_state IDLE ;; mret r
    else store_state ERROR ;; mret reply.

Definition out_handle (c : Command) (reply : Reply) : Prog outcome :=
  match c with
  | CExit cookie => handle_exit cookie reply
  | CGetStatus => reply_of (answer_status reply)
  | CStart => reply_of (out_start reply)
  | CBurst n => reply_of (out_burst n reply)
  | CDrain mode => reply_of (out_drain mode reply)
  | CStandby => reply_of (handle_standby reply)
  | CPause => reply_of (out_pause reply)
  | CFlush => reply_of (out_flush reply)
  end.

(** [StreamOutWorkerLogic::cycle]. *)
Definition out_cycle : Prog Status := drain_timeout ;; command_loop out_handle.
End Worker.

(** ** The threads *)

(** The next action of a program. *)
Definition prog_next {A} (p : Prog A) (w : World) : option (Prog A * World) :=
  match p with
  | Ret _ => None
  | Act m k => '(x, w') ← m w; Some (k x, w')
  | Wait g p' => if g w then Some (p', w) else None
  end.

(** The code each thread is in; [Ret tt]: the driver's thread is not in a
    callback. *)
Record System := mkSystem { sys_world : World; sys_worker : Prog Status; sys_driver : Prog unit }.

Section System.
Context `{!StreamAbi, !AudioDriver}.
Variables (ctx : StreamContext) (tid : Z) (is_input : bool).

Definition cycle : Prog Status := if is_input then in_cycle ctx tid else out_cycle ctx tid.

(** The callbacks of [StreamWorkerCommonLogic] do nothing. *)
Inductive callback : Prog unit -> Prop :=
  | CallbackNone : is_input = true -> callback (Ret tt)
  | CallbackBuffer n : is_input = false -> callback (onBufferStateChange ctx n)
  | CallbackClip n b : is_input = false -> callback (onClipStateChange ctx n b).

Inductive sys_step : System -> System -> Prop :=
  | StepWorker w p p' w' d : prog_next p w = Some (p', w') -> sys_step (mkSystem w p d) (mkSystem w' p' d)
  | StepCycle w d : sys_step (mkSystem w (Ret CONTINUE) d) (mkSystem w cycle d)
  | StepDriver w p d d' w' : prog_next d w = Some (d', w') -> sys_step (mkSystem w p d) (mkSystem w' p d')
  | StepCallback w p d : callback d -> sys_step (mkSystem w p (Ret tt)) (mkSystem w p d)
  | StepConnected w p d b : sys_step (mkSystem w p d) (mkSystem (with_connected w b) p d)
  | StepCommand w p d c : sys_step (mkSystem w p d) (mkSystem (with_commands w (commandMQ w ++ [c])) p d)
  | StepReply w p d r q : replyMQ w = r :: q -> sys_step (mkSystem w p d) (mkSystem (with_replies w q) p d)
  | StepData w p d data :
      (if is_input then exists taken, dataMQ w = taken ++ data
       else exists new, data = dataMQ w ++ new /\ (length data <= sc_bufferSize ctx)%nat) ->
      sys_step (mkSystem w p d) (mkSystem (with_data w data) p d).
End System.

(** ** Running alone *)

Lemma exec_bind {A B} (p : Prog A) (k : A -> Prog B) w :
  exec (p ≫= k) w = match exec p w with Some (a, w') => exec (k a) w' | None => None end.
Proof.
  revert w. induction p as [a|X m k' IH|g p IH]; intros w; [done| |].
  - cbn. unfold mbind, St_bind. destruct (m w) as [[x w1]|]; [apply IH|done].
  - cbn. destruct (g w); [apply IH|done].
Qed.

Lemma runs_exec {A B} (p : Prog A) (k : A -> Prog B) w Q :
  runs (exec (p ≫= k)) w Q <-> runs (exec p) w (fun a w' => runs (exec (k a)) w' Q).
Proof. unfold runs at 1 2. rewrite exec_bind. by destruct (exec p w) as [[a w']|]. Qed.

(** A driver call that failed between two points of the history. *)
Definition failed `{!AudioDriver} (h : list audio_effect) (e : audio_effect) : bool :=
  match e with
  | Driver c => negb (driver_ok h c)
  | TransferOut data => negb (transfer_out h data).1.1
  | TransferIn n => negb (transfer_in h n).1.1.1
  | TransferMmap => negb (transfer_mmap h).1
  | _ => false
  end.

Definition driver_failed `{!AudioDriver} (h h' : list audio_effect) : Prop :=
  exists l1 e l2, h' = h ++ l1 ++ e :: l2 /\ failed (h ++ l1) e = true.

(** The protocol of the streams, as the interface has it. *)
Inductive out_machine (async force : bool) : StreamState -> Command -> StreamState -> Prop :=
  | out_status s : out_machine async force s CGetStatus s
  | out_start_standby : out_machine async force STANDBY CStart IDLE
  | out_start_paused : out_machine async force PAUSED CStart ACTIVE
  | out_start_drain : out_machine async force DRAIN_PAUSED CStart DRAINING
  | out_start_transfer : out_machine async force TRANSFER_PAUSED CStart TRANSFERRING
  | out_burst_paused n s : s = STANDBY \/ s = PAUSED \/ (s = DRAIN_PAUSED /\ async = false) ->
      out_machine async force s (CBurst n) PAUSED
  | out_burst_transfer_paused n : async = true -> out_machine async force DRAIN_PAUSED (CBurst n) TRANSFER_PAUSED
  | out_burst_active n s : s = IDLE \/ s = ACTIVE \/ s = DRAINING -> out_machine async force s (CBurst n) ACTIVE
  | out_burst_transferring n s : async = true -> s = IDLE \/ s = ACTIVE \/ s = DRAINING ->
      out_machine async force s (CBurst n) TRANSFERRING
  | out_burst_draining n : out_machine async force DRAINING (CBurst n) DRAINING
  | out_drain_start m s : s = ACTIVE \/ s = TRANSFERRING -> m <> DRAIN_UNSPECIFIED ->
      out_machine async force s (CDrain m) DRAINING
  | out_drain_sync m : force = true -> m <> DRAIN_UNSPECIFIED -> out_machine async force ACTIVE (CDrain m) IDLE
  | out_drain_paused m : m <> DRAIN_UNSPECIFIED -> out_machine async force TRANSFER_PAUSED (CDrain m) DRAIN_PAUSED
  | out_standby : out_machine async force IDLE CStandby STANDBY
  | out_pause_active : out_machine async force ACTIVE CPause PAUSED
  | out_pause_draining : out_machine async force DRAINING CPause DRAIN_PAUSED
  | out_pause_transferring : out_machine async force TRANSFERRING CPause TRANSFER_PAUSED
  | out_flushed s : s = PAUSED \/ s = DRAIN_PAUSED \/ s = TRANSFER_PAUSED -> out_machine async force s CFlush IDLE.

Inductive in_machine : StreamState -> Command -> StreamState -> Prop :=
  | in_status s : in_machine s CGetStatus s
  | in_start_standby : in_machine STANDBY CStart IDLE
  | in_start_draining : in_machine DRAINING CStart ACTIVE
  | in_burst_active n s : s = IDLE \/ s = ACTIVE \/ s = PAUSED -> in_machine s (CBurst n) ACTIVE
  | in_burst_drained n : in_machine DRAINING (CBurst n) STANDBY
  | in_drained : in_machine ACTIVE (CDrain DRAIN_UNSPECIFIED) DRAINING
  | in_standby : in_machine IDLE CStandby STANDBY
  | in_paused : in_machine ACTIVE CPause PAUSED
  | in_flushed : in_machine PAUSED CFlush STANDBY.

(** The arguments that are refused whatever the state. *)
Definition out_bad (c : Command) : bool :=
  match c with CBurst n => n <? 0 | CDrain m => is_unspecified m | _ => false end.
Definition in_bad (c : Command) : bool :=
  match c with CBurst n => n <? 0 | CDrain m => negb (is_unspecified m) | _ => false end.

Record Protocol := mkProtocol { p_bad : Command -> bool; p_machine : StreamState -> Command -> StreamState -> Prop }.

Definition out_protocol (async force : bool) : Protocol := mkProtocol out_bad (out_machine async force).
Definition in_protocol : Protocol := mkProtocol in_bad in_machine.

(** What an answer [r] says about a command that took [w] to [w'].  Exactly if
    the argument is bad, it is refused for that; exactly if the protocol has no such
    command in the state, it is refused for that; and nothing has happened.  A
    command that the protocol has is done as it says, or the driver failed and the
    stream is in error. *)
Inductive answered `{!AudioDriver} (p : Protocol) (c : Command) (w w' : World) (r : Reply) : Prop :=
  | AnsweredOk : p_bad p c = false -> r_status r = STATUS_OK -> p_machine p (mState w) c (mState w') ->
      answered p c w w' r
  | AnsweredBad : p_bad p c = true -> r_status r = STATUS_BAD_VALUE -> w' = w -> answered p c w w' r
  | AnsweredRefused : p_bad p c = false -> (forall s, ~ p_machine p (mState w) c s) ->
      r_status r = STATUS_INVALID_OPERATION -> w' = w -> answered p c w w' r
  | AnsweredFailed : p_bad p c = false -> (exists s, p_machine p (mState w) c s) -> mState w' = ERROR ->
      driver_failed (history w) (history w') -> answered p c w w' r.

Section Alone.
Context `{!StreamAbi, !AudioDriver}.
Variables (ctx : StreamContext) (tid : Z).

(** The documented behaviour of a driver's [transfer]: no more than was asked for. *)
Class AudioDriverLaws := {
  transfer_out_law : forall h data, let '(_, actual, _) := transfer_out h data in
    0 <= actual /\ actual * sc_frameSize ctx <= Z.of_nat (length data);
  transfer_in_law : forall h n, let '(_, data, actual, _) := transfer_in h n in
    0 <= n -> 0 <= actual <= n /\ Z.of_nat (length data) = actual * sc_frameSize ctx
}.

(** A stream that is not mmap has a data queue. *)
Definition context_ok : Prop := 0 < sc_frameSize ctx /\ (sc_isMmap ctx = false -> sc_hasDataMQ ctx = true).

Record worker_ok (w : World) : Prop := {
  wk_context : context_ok;
  wk_buffer : length (mDataBuffer w) = sc_bufferSize ctx;
  wk_data : (length (dataMQ w) <= sc_bufferSize ctx)%nat
}.

Lemma failed_once h e : failed h e = true -> driver_failed h (h ++ [e]).
Proof. intros He. exists [], e, []. by rewrite app_nil_r. Qed.

Lemma failed_twice h e e' : failed (h ++ [e]) e' = true -> driver_failed h ((h ++ [e]) ++ [e']).
Proof. intros He. exists [e], e', []. by rewrite <- (assoc_L (++)). Qed.

(** Two worlds with the same command and reply queues. *)
Definition same_queues (w w' : World) : Prop := commandMQ w' = commandMQ w /\ replyMQ w' = replyMQ w.

Definition answers (machine : Protocol) (c : Command) (p : Prog Reply) (w : World) : Prop :=
  runs (exec p) w (fun r w' => answered machine c w w' r /\ same_queues w w').

Lemma populate_status reply conn w : r_status (populate ctx reply conn w) = STATUS_OK.
Proof. unfold populate. by repeat case_match. Qed.

Lemma populate_bytes reply conn w : r_byteCount (populate ctx reply conn w) = r_byteCount reply.
Proof. unfold populate. by repeat case_match. Qed.

Ltac alone :=
  repeat match goal with
  | |- context [driver_ok ?h ?c] => let E := fresh "E" in destruct (driver_ok h c) eqn:E; cbn
  | |- context [if sc_async ctx then _ else _] => let E := fresh "Ha" in destruct (sc_async ctx) eqn:E; cbn
  | |- context [if forceSynchronousDrain ctx then _ else _] => let E := fresh "Hf" in destruct (forceSynchronousDrain ctx) eqn:E; cbn
  end.

(** Does the protocol have the command: all its rules are tried. *)
Ltac allowed := cbn; eexists; constructor; try done; tauto.
Ltac not_allowed := cbn; intros ? Hm; inversion Hm; try done; intuition congruence.

Ltac answer :=
  split; [|done];
  first [ apply AnsweredOk; [done|cbn; first [done|apply populate_status]|cbn; first [done|constructor; try done; tauto]]
        | apply AnsweredBad; done
        | apply AnsweredRefused; [done|not_allowed|done|done]
        | apply AnsweredFailed; [done|allowed|done|cbn; first [apply failed_once|apply failed_twice]; cbn; by repeat match goal with E : driver_ok ?h ?c = false |- context [driver_ok ?h ?c] => rewrite E end] ].

Lemma out_start_answers reply w : answers (out_protocol (sc_async ctx) (forceSynchronousDrain ctx)) CStart (out_start ctx reply) w.
Proof. destruct w as [[] prior conn dr t buf n cq rq dq h]; unfold answers, runs; cbn; alone; answer. Qed.

Lemma out_pause_answers reply w : answers (out_protocol (sc_async ctx) (forceSynchronousDrain ctx)) CPause (out_pause ctx reply) w.
Proof. destruct w as [[] prior conn dr t buf n cq rq dq h]; unfold answers, runs; cbn; alone; answer. Qed.

Lemma out_drain_answers mode reply w : r_status reply = STATUS_BAD_VALUE ->
  answers (out_protocol (sc_async ctx) (forceSynchronousDrain ctx)) (CDrain mode) (out_drain ctx mode reply) w.
Proof. intros Hr. destruct w as [[] prior conn dr t buf n cq rq dq h], mode; unfold answers, runs; cbn; alone; answer. Qed.

Lemma handle_standby_answers machine reply w : (forall s s', p_machine machine s CStandby s' <-> s = IDLE /\ s' = STANDBY) ->
  p_bad machine CStandby = false ->
  answers machine CStandby (handle_standby ctx reply) w.
Proof.
  intros Hm Hb. destruct w as [[] prior conn dr t buf n cq rq dq h]; unfold answers, runs; cbn; alone; (split; [|done]).
  all: first [ apply AnsweredOk; [done|apply populate_status|by apply Hm]
             | apply AnsweredRefused; [done|intros ? [? _]%Hm; done|done|done]
             | apply AnsweredFailed; [done|exists STANDBY; by apply Hm|done|apply failed_once; cbn; by rewrite E] ].
Qed.

Lemma answer_status_answers machine reply w : (forall s, p_machine machine s CGetStatus s) ->
  p_bad machine CGetStatus = false -> answers machine CGetStatus (answer_status ctx reply) w.
Proof.
  intros Hm Hb. destruct w as [st prior conn dr t buf n cq rq dq h]; unfold answers, runs; cbn. split; [|done].
  apply AnsweredOk; [done|apply populate_status|apply Hm].
Qed.

Lemma in_start_answers reply w : answers in_protocol CStart (in_start ctx reply) w.
Proof. destruct w as [[] prior conn dr t buf n cq rq dq h]; unfold answers, runs; cbn; alone; answer. Qed.

Lemma in_drain_answers mode reply w : r_status reply = STATUS_BAD_VALUE -> answers in_protocol (CDrain mode) (in_drain ctx mode reply) w.
Proof. intros Hr. destruct w as [[] prior conn dr t buf n cq rq dq h], mode; unfold answers, runs; cbn; alone; answer. Qed.

Lemma in_pause_answers reply w : answers in_protocol CPause (in_pause ctx reply) w.
Proof. destruct w as [[] prior conn dr t buf n cq rq dq h]; unfold answers, runs; cbn; alone; answer. Qed.

Lemma in_flush_answers reply w : answers in_protocol CFlush (in_flush ctx reply) w.
Proof. destruct w as [[] prior conn dr t buf n cq rq dq h]; unfold answers, runs; cbn; alone; answer. Qed.

Lemma out_flush_answers reply w : answers (out_protocol (sc_async ctx) (forceSynchronousDrain ctx)) CFlush (out_flush ctx reply) w.
Proof. destruct w as [[] prior conn dr t buf n cq rq dq h]; unfold answers, runs; cbn; alone; answer. Qed.

(** The frames of the queue a burst of [n] bytes hands to the driver. *)
Definition burst_frames (n : Z) (w : World) : Z :=
  let b := Z.min n (Z.of_nat (length (dataMQ w))) in
  (if (sc_frameSize ctx <=? b) && forceTransientBurst ctx then b - sc_frameSize ctx else b) / sc_frameSize ctx.

Definition burst_data (n : Z) (w : World) : list Z :=
  take (Z.to_nat (burst_frames n w * sc_frameSize ctx)) (dataMQ w).

(** What a burst does: the queue is emptied, the driver is given the frames, and
    what it took is counted and answered. *)
Record burst_done (n : Z) (reply : Reply) (w w' : World) (ok : bool) (r : Reply) : Prop := {
  bd_state : mState w' = mState w;
  bd_drain : mDrainState w' = mDrainState w;
  bd_queues : same_queues w w';
  bd_data : dataMQ w' = [];
  bd_buffer : length (mDataBuffer w') = length (mDataBuffer w);
  bd_status : r_status r = STATUS_OK;
  bd_taken : exists actual,
    mFrameCount w' = mFrameCount w + actual /\
    r_byteCount r = wrap_s 32 (r_byteCount reply + actual * sc_frameSize ctx) /\
    if mIsConnected w
    then (transfer_out (history w) (burst_data n w)).1 = (ok, actual) /\
         exists l, history w' = history w ++ TransferOut (burst_data n w)   :: l /\
           (l = [] \/ l = [Processed (take (Z.to_nat (actual * sc_frameSize ctx)) (burst_data n w))])
    else ok = true /\ actual = burst_frames n w /\ history w' = history w
}.

Lemma burst_frames_bounds n w : 0 < sc_frameSize ctx -> 0 <= n ->
  0 <= burst_frames n w /\ burst_frames n w * sc_frameSize ctx <= Z.of_nat (length (dataMQ w)).
Proof.
  intros Hf Hn. unfold burst_frames. set (b := Z.min n _). assert (0 <= b <= Z.of_nat (length (dataMQ w))) as Hb by lia.
  destruct ((sc_frameSize ctx <=? b) && forceTransientBurst ctx) eqn:E.
  - apply andb_true_iff in E as [?%Z.leb_le _]. split; [apply Z.div_pos; lia|].
    pose proof (Z.mul_div_le (b - sc_frameSize ctx) (sc_frameSize ctx)). lia.
  - split; [apply Z.div_pos; lia|]. pose proof (Z.mul_div_le b (sc_frameSize ctx)). lia.
Qed.

#[local] Arguments Nat.ltb : simpl never.
#[local] Arguments Z.mul : simpl never.
#[local] Arguments Z.min : simpl never.
#[local] Arguments Z.leb : simpl never.
#[local] Arguments Z.eqb : simpl never.
#[local] Arguments take : simpl never.

Lemma write_out_spec `{!AudioDriverLaws} n reply w : worker_ok w -> sc_isMmap ctx = false -> 0 <= n ->
  runs (exec (write_out ctx n reply)) w (fun r w' => burst_done n reply w w' r.1 r.2).
Proof.
  intros [[Hf Hmq] Hb Hd] Hmm Hn. destruct (burst_frames_bounds n w Hf Hn) as [Hk Hkm]. unfold runs, write_out, with_queue. cbn.
  rewrite (Hmq Hmm).
  rewrite Nat.ltb_irrefl. destruct (Nat.ltb_spec (length (mDataBuffer w)) (length (dataMQ w))) as [?|_]; [lia|]. cbn.
  rewrite firstn_all, length_app, length_drop.
  replace (Z.min (Z.of_nat (length (dataMQ w))) (Z.of_nat (length (dataMQ w) + (length (mDataBuffer w) - length (dataMQ w)))))
    with (Z.of_nat (length (dataMQ w))) by lia.
  destruct (Z.eqb_spec (sc_frameSize ctx) 0) as [?|_]; [lia|]. cbn.
  fold (burst_frames n w).
  assert (forall k, k <= Z.of_nat (length (dataMQ w)) -> take (Z.to_nat k) (dataMQ w ++ drop (length (dataMQ w)) (mDataBuffer w)) =
    take (Z.to_nat k) (dataMQ w)) as Htake by (intros k Hk'; apply take_app_le; lia).
  destruct (mIsConnected w) eqn:Hc; cbn.
  - rewrite Htake by done. fold (burst_data n w). pose proof (transfer_out_law (history w) (burst_data n w)) as Hlaw.
    destruct (transfer_out (history w) (burst_data n w)) as [[ok actual] lat] eqn:Ht. cbn. destruct Hlaw as [Ha Hal].
    assert (Z.of_nat (length (burst_data n w)) <= Z.of_nat (length (dataMQ w))) by (unfold burst_data; rewrite length_take; lia).
    destruct (has_data_processor _); cbn.
    all: split; cbn; rewrite ?populate_status, ?populate_bytes, ?drop_all, ?length_app, ?length_drop; try done; try lia.
    all: exists actual; split_and!; [done|done|]; rewrite Hc, Ht; split; [by rewrite negb_involutive|].
    + eexists. rewrite <- (assoc_L (++)). split; [done|]. right. rewrite Htake by lia. unfold burst_data.
      rewrite take_take. do 3 f_equal. unfold burst_data in Hal. rewrite length_take in Hal. lia.
    + exists []. by split; [|left].
  - split; cbn; rewrite ?populate_status, ?populate_bytes, ?drop_all, ?length_app, ?length_drop; try done; try lia.
    exists (burst_frames n w). by rewrite Hc.
Qed.

(** A step that leaves the state to the caller, and says whether the driver
    worked. *)
Record handled (w w' : World) (ok : bool) (r : Reply) : Prop := {
  hd_state : mState w' = mState w;
  hd_queues : same_queues w w';
  hd_ok : ok = true -> r_status r = STATUS_OK;
  hd_failed : ok = false -> driver_failed (history w) (history w')
}.

Lemma burst_done_handled n reply w w' ok r : burst_done n reply w w' ok r -> handled w w' ok r.
Proof.
  intros [Hs Hd Hq _ _ Hr (actual & _ & _ & Ht)]. split; [done..|]. intros ->. destruct (mIsConnected w); [|by destruct Ht].
  destruct Ht as [Ht (l & -> & _)]. exists [], (TransferOut (burst_data n w)), l. split; [done|]. cbn.
  rewrite app_nil_r. destruct (transfer_out _ _) as [[ok actual'] lat]. cbn in Ht. by injection Ht as -> _.
Qed.

Lemma transferMmap_handled reply w : runs (exec (transferMmap ctx reply)) w (fun r w' => handled w w' r.1 r.2).
Proof.
  unfold runs. cbn. destruct (transfer_mmap (history w)) as [ok lat] eqn:E. destruct ok; cbn.
  - split; try done. cbn. intros _. apply populate_status.
  - split; try done. intros _. apply failed_once. cbn. by rewrite E.
Qed.

Lemma runs_state_in l w Q : runs (exec (state_in l)) w Q <-> Q (existsb (state_eqb (mState w)) l) w.
Proof.
  induction l as [|s l IH]; [done|]. unfold runs in *. cbn. destruct (state_eqb (mState w) s) eqn:E; [done|]. exact IH.
Qed.

Lemma runs_act {X} (m : St World X) w Q : runs (exec (act m)) w Q <-> runs m w Q.
Proof. unfold runs. cbn. by destruct (m w) as [[x w']|]. Qed.

(** The states a burst is refused in. *)
Lemma out_burst_refused async force n st :
  st = ERROR \/ st = TRANSFERRING \/ st = TRANSFER_PAUSED -> forall s', ~ out_machine async force st (CBurst n) s'.
Proof. intros [->|[->| ->]] s' Hm; inversion Hm; intuition congruence. Qed.

Lemma out_burst_allowed async force n st :
  existsb (state_eqb st) [ERROR; TRANSFERRING; TRANSFER_PAUSED] = false -> st <> STATE_CLOSED ->
  exists s', out_machine async force st (CBurst n) s'.
Proof.
  destruct st; try done; intros _ _; try (eexists; by apply out_burst_active; tauto);
    try (eexists; apply out_burst_paused; tauto).
  destruct async; eexists; [by apply out_burst_transfer_paused|apply out_burst_paused; tauto].
Qed.

Lemma state_in_true st l : existsb (state_eqb st) l = true -> st ∈ l.
Proof.
  intros (x & Hx & He)%existsb_exists. apply list_elem_of_In in Hx. by destruct st, x.
Qed.

Lemma out_burst_next_spec n reply w : mState w <> STATE_CLOSED ->
  runs (exec (out_burst_next ctx n reply)) w (fun _ w' =>
    same_queues w w' /\ history w' = history w /\ (mState w = ERROR -> mState w' = ERROR) /\
    (existsb (state_eqb (mState w)) [ERROR; TRANSFERRING; TRANSFER_PAUSED] = false ->
     out_machine (sc_async ctx) (forceSynchronousDrain ctx) (mState w) (CBurst n) (mState w'))).
Proof.
  intros Hc. destruct w as [[] prior conn dr t buf fr cq rq dq h]; try done; unfold runs, out_burst_next; cbn;
    destruct (sc_async ctx) eqn:Ha; cbn; try destruct (r_byteCount reply =? n); try destruct dr; cbn;
    split_and!; try done; intros _; constructor; tauto.
Qed.

Lemma out_burst_answers `{!AudioDriverLaws} n reply w : worker_ok w -> mState w <> STATE_CLOSED -> r_status reply = STATUS_BAD_VALUE ->
  answers (out_protocol (sc_async ctx) (forceSynchronousDrain ctx)) (CBurst n) (out_burst ctx n reply) w.
Proof.
  intros Hw Hcl Hr. unfold answers, out_burst. destruct (Z.ltb_spec n 0) as [Hneg|Hn].
  { apply runs_ret. split; [|done]. apply AnsweredBad; [by apply Z.ltb_lt|done|done]. }
  assert (out_bad (CBurst n) = false) as Hgood by (by apply Z.ltb_ge).
  rewrite runs_exec, runs_state_in.
  destruct (existsb _ [ERROR; TRANSFERRING; TRANSFER_PAUSED]) eqn:Hbad.
  { apply runs_ret. split; [|done]. apply AnsweredRefused; [done| |done|done]. apply out_burst_refused.
    apply state_in_true in Hbad. set_solver. }
  pose proof (out_burst_allowed (sc_async ctx) (forceSynchronousDrain ctx) n _ Hbad Hcl) as Hallow.
  rewrite runs_exec.
  apply (runs_mono _ _ (fun r w' => handled w w' r.1 r.2)).
  2: { destruct (sc_isMmap ctx) eqn:Hmm; [apply transferMmap_handled|].
       eapply runs_mono, write_out_spec; [|done..]. intros r w'. apply burst_done_handled. }
  intros [ok r] w1 [Hs [Hc1 Hr1] Hok Hfail]. cbn [fst snd] in *. rewrite runs_exec.
  destruct ok.
  - apply runs_ret. rewrite runs_exec. eapply runs_mono, out_burst_next_spec; [|by rewrite Hs].
    intros _ w2 ([Hc2 Hr2] & Hh & _ & Hm). apply runs_ret. split; [|split; congruence].
    apply AnsweredOk; [done|by apply Hok|]. cbn. rewrite <- Hs. apply Hm. by rewrite Hs.
  - apply runs_act, runs_modify. rewrite runs_exec. eapply runs_mono, out_burst_next_spec; [|done].
    intros _ w2 ([Hc2 Hr2] & Hh & He & _). apply runs_ret. cbn in *. split; [|split; congruence].
    apply AnsweredFailed; [done|exact Hallow|by apply He|]. rewrite Hh. by apply Hfail.
Qed.

(** The frames a burst of [n] bytes asks the driver of an input stream for. *)
Definition read_frames (n : Z) (w : World) : Z :=
  Z.min n (Z.of_nat (sc_bufferSize ctx) - Z.of_nat (length (dataMQ w))) / sc_frameSize ctx.

Record read_done (n : Z) (reply : Reply) (w w' : World) (ok : bool) (r : Reply) : Prop := {
  rd_state : mState w' = mState w;
  rd_queues : same_queues w w';
  rd_buffer : length (mDataBuffer w') = length (mDataBuffer w);
  rd_status : r_status r = STATUS_OK;
  rd_read : exists data actual,
    dataMQ w' = dataMQ w ++ data /\
    mFrameCount w' = mFrameCount w + actual /\
    Z.of_nat (length data) = actual * sc_frameSize ctx /\
    r_byteCount r = wrap_s 32 (r_byteCount reply + Z.of_nat (length data)) /\
    if mIsConnected w
    then (transfer_in (history w) (read_frames n w)).1 = (ok, data, actual) /\
         history w' = history w ++ [TransferIn (read_frames n w)]
    else ok = true /\ data = replicate (length data) 0 /\ actual = read_frames n w /\ history w' = history w
}.

Lemma read_frames_bounds n w : 0 < sc_frameSize ctx -> 0 <= n -> (length (dataMQ w) <= sc_bufferSize ctx)%nat ->
  0 <= read_frames n w /\
  read_frames n w * sc_frameSize ctx <= Z.of_nat (sc_bufferSize ctx) - Z.of_nat (length (dataMQ w)).
Proof.
  intros Hf Hn Hd. unfold read_frames. set (b := Z.min n _). split; [apply Z.div_pos; lia|].
  pose proof (Z.mul_div_le b (sc_frameSize ctx)). lia.
Qed.

Lemma read_in_spec `{!AudioDriverLaws} n reply w : worker_ok w -> sc_isMmap ctx = false -> 0 <= n ->
  runs (exec (read_in ctx n reply)) w (fun r w' => read_done n reply w w' r.1 r.2).
Proof.
  intros [[Hf Hmq] Hb Hd] Hmm Hn. destruct (read_frames_bounds n w Hf Hn Hd) as [Hk Hkm]. unfold runs, read_in, with_queue. cbn.
  rewrite (Hmq Hmm).
  rewrite (Z.min_l (_ - _)) by lia. destruct (Z.eqb_spec (sc_frameSize ctx) 0) as [?|_]; [lia|]. cbn.
  fold (read_frames n w). destruct (mIsConnected w) eqn:Hc; cbn.
  - pose proof (transfer_in_law (history w) (read_frames n w)) as Hlaw.
    destruct (transfer_in (history w) (read_frames n w)) as [[[ok data] actual] lat] eqn:Ht. cbn.
    destruct (Hlaw Hk) as [Ha Hl]. assert (actual * sc_frameSize ctx <= read_frames n w * sc_frameSize ctx) by nia.
    destruct (Nat.ltb_spec (length (mDataBuffer w)) (length data)) as [?|_]; [lia|]. cbn.
    assert (take (Z.to_nat (actual * sc_frameSize ctx)) (data ++ drop (length data) (mDataBuffer w)) = data) as Htk
      by (rewrite take_app_le, take_ge by lia; done).
    destruct (Z.leb_spec (actual * sc_frameSize ctx) 0) as [Hz|Hz]; cbn.
    + split; cbn; rewrite ?populate_status, ?populate_bytes, ?length_app, ?length_drop; try done; try lia.
      exists data, actual. rewrite Hc, Ht, <- Hl, negb_involutive. destruct data as [|? data']; [|cbn in Hl; lia].
      by rewrite app_nil_r.
    + destruct (Z.ltb_spec (Z.of_nat (length (data ++ drop (length data) (mDataBuffer w)))) (actual * sc_frameSize ctx)) as [Hx|_];
        [rewrite length_app, length_drop in Hx; lia|].
      destruct (Z.leb_spec (actual * sc_frameSize ctx) (Z.of_nat (sc_bufferSize ctx) - Z.of_nat (length (dataMQ w)))) as [_|?]; [|lia].
      split; cbn; rewrite ?populate_status, ?populate_bytes, ?length_app, ?length_drop; try done; try lia.
      exists data, actual. by rewrite Hc, Ht, <- Hl, negb_involutive, Hl, Htk.
  - set (b := Z.min n _). set (m := length (mDataBuffer w)).
    assert (0 <= b /\ read_frames n w * sc_frameSize ctx <= b) as [Hb0 Hkb].
    { split; [lia|]. unfold read_frames. fold b. pose proof (Z.mul_div_le b (sc_frameSize ctx)). lia. }
    set (k := read_frames n w * sc_frameSize ctx) in *. assert (0 <= k) by nia.
    assert (take (Z.to_nat k) (replicate (Z.to_nat b) 0 ++ drop (Z.to_nat b) (mDataBuffer w)) = replicate (Z.to_nat k) 0) as Htk.
    { rewrite take_app_le by (rewrite length_replicate; lia). by rewrite take_replicate, Nat.min_l by lia. }
    assert (length (replicate (Z.to_nat b) 0 ++ drop (Z.to_nat b) (mDataBuffer w)) = m) as Hlen.
    { rewrite length_app, length_replicate, length_drop. lia. }
    destruct (Z.leb_spec k 0) as [Hz|Hz]; cbn.
    + split; cbn; rewrite ?populate_status, ?populate_bytes; try done.
      exists [], (read_frames n w). rewrite Hc, app_nil_r. cbn. fold k. replace k with 0 by lia. done.
    + rewrite Hlen. destruct (Z.ltb_spec (Z.of_nat m) k) as [?|_]; [lia|].
      destruct (Z.leb_spec k (Z.of_nat (sc_bufferSize ctx) - Z.of_nat (length (dataMQ w)))) as [_|?]; [|lia]. cbn.
      split; cbn; rewrite ?populate_status, ?populate_bytes; try done.
      exists (replicate (Z.to_nat k) 0), (read_frames n w). rewrite Htk, Hc, length_replicate. fold k. rewrite Z2Nat.id by lia. done.
Qed.

Lemma read_done_handled n reply w w' ok r : read_done n reply w w' ok r -> handled w w' ok r.
Proof.
  intros [Hs Hq _ Hr (data & actual & _ & _ & _ & _ & Ht)]. split; [done..|]. intros ->.
  destruct (mIsConnected w); [|by destruct Ht]. destruct Ht as [Ht ->]. apply failed_once. cbn.
  destruct (transfer_in _ _) as [[[ok data'] actual'] lat]. cbn in Ht. by injection Ht as -> _ _.
Qed.

Lemma in_burst_answers `{!AudioDriverLaws} n reply w : worker_ok w -> r_status reply = STATUS_BAD_VALUE ->
  answers in_protocol (CBurst n) (in_burst ctx n reply) w.
Proof.
  intros Hw Hr. unfold answers, in_burst. destruct (Z.ltb_spec n 0) as [Hneg|Hn].
  { apply runs_ret. split; [|done]. apply AnsweredBad; [by apply Z.ltb_lt|done|done]. }
  assert (in_bad (CBurst n) = false) as Hb by (by apply Z.ltb_ge).
  rewrite runs_exec, runs_state_in.
  destruct (existsb _ [IDLE; ACTIVE; PAUSED; DRAINING]) eqn:Hgood; cbn [negb].
  2: { apply runs_ret. split; [|done]. apply AnsweredRefused; [done| |done|done].
       cbn. intros s' Hm. destruct (mState w); try done; inversion Hm; intuition congruence. }
  assert (exists s', in_machine (mState w) (CBurst n) s') as Hallow.
  { destruct (mState w); try done; try (eexists; apply in_burst_active; tauto). eexists. apply in_burst_drained. }
  rewrite runs_exec.
  apply (runs_mono _ _ (fun r w' => handled w w' r.1 r.2)).
  2: { destruct (sc_isMmap ctx) eqn:Hmm; [apply transferMmap_handled|].
       eapply runs_mono, read_in_spec; [|done..]. intros r w'. apply read_done_handled. }
  intros [ok r] w1 [Hs [Hc1 Hr1] Hok Hfail]. cbn [fst snd] in *. rewrite runs_exec.
  destruct ok.
  - apply runs_ret. destruct w as [st prior conn dr t buf fr cq rq dq h]. cbn in Hs. destruct w1. cbn in Hs. subst.
    destruct st; try done; unfold runs; cbn; (split; [|done]); (apply AnsweredOk; [done|by apply Hok|]); cbn; constructor; tauto.
  - apply runs_act, runs_modify. unfold runs. cbn. split; [|done]. apply AnsweredFailed; [done|exact Hallow|done|].
    cbn. by apply Hfail.
Qed.

(** The machine of the direction. *)
Definition machine (is_input : bool) : Protocol :=
  if is_input then in_protocol else out_protocol (sc_async ctx) (forceSynchronousDrain ctx).

(** A handler's answer. *)
Definition answers_command (is_input : bool) (c : Command) (p : Prog outcome) (w : World) : Prop :=
  runs (exec p) w (fun o w' => exists r, o = Answer r /\ answered (machine is_input) c w w' r /\ same_queues w w').

Lemma reply_of_answers is_input c p w : answers (machine is_input) c p w -> answers_command is_input c (reply_of p) w.
Proof.
  intros Hp. unfold answers_command, reply_of. rewrite runs_exec. eapply runs_mono, Hp.
  intros r w' Hr. apply runs_ret. by exists r.
Qed.

Definition is_exit (c : Command) : bool := match c with CExit _ => true | _ => false end.

Lemma handle_answers `{!AudioDriverLaws} is_input c reply w :
  worker_ok w -> mState w <> STATE_CLOSED -> r_status reply = STATUS_BAD_VALUE -> is_exit c = false ->
  answers_command is_input c ((if is_input then in_handle else out_handle) ctx tid c reply) w.
Proof.
  intros Hw Hcl Hr He. destruct is_input, c as [ | | |n|m| | | ]; try done; apply reply_of_answers; unfold machine.
  - by apply answer_status_answers; [constructor|].
  - apply in_start_answers.
  - by apply in_burst_answers.
  - by apply in_drain_answers.
  - apply handle_standby_answers; [|done]. intros s s'. split; [by inversion 1|intros [-> ->]; constructor].
  - apply in_pause_answers.
  - apply in_flush_answers.
  - by apply answer_status_answers; [constructor|].
  - apply out_start_answers.
  - by apply out_burst_answers.
  - by apply out_drain_answers.
  - apply handle_standby_answers; [|done]. intros s s'. split; [by inversion 1|intros [-> ->]; constructor].
  - apply out_pause_answers.
  - apply out_flush_answers.
Qed.

(** The world at the start of a cycle: a synchronous drain may be over. *)
Definition timed_out (is_input : bool) (w : World) : World :=
  if negb is_input && state_eqb (mState w) DRAINING && negb (sc_async ctx) &&
     (transientStateDelayMs ctx <=? (steady_clock (history w) - mTransientStateStart w) ÷ 1000000)
  then with_state w IDLE else w.

Lemma drain_timeout_spec w Q : runs (exec (drain_timeout ctx)) w Q <-> Q tt (timed_out false w).
Proof.
  unfold drain_timeout, timed_out. rewrite runs_exec, runs_state_in. cbn [existsb negb andb].
  rewrite orb_false_r. destruct (state_eqb (mState w) DRAINING && negb (sc_async ctx)); cbn [andb]; [|done].
  unfold runs. cbn. by destruct (_ <=? _).
Qed.

(** The queues let the worker go on. *)
Record queues_ready (w : World) : Prop := {
  qr_read : command_read_ok (history w) = true;
  qr_room : (length (replyMQ w) < reply_capacity ctx)%nat;
  qr_write : forall h, reply_write_ok h = true
}.

Lemma command_loop_spec is_input handle c q w :
  commandMQ w = c :: q -> queues_ready w ->
  answers_command is_input c (handle c (with_status default_reply STATUS_BAD_VALUE)) (with_commands w q) ->
  runs (exec (command_loop ctx handle)) w (fun st w' => st = CONTINUE /\ exists r w1,
    answered (machine is_input) c (with_commands w q) w1 r /\ commandMQ w1 = q /\
    w' = with_replies w1 (replyMQ w ++ [with_reply_state r (mState w1)])).
Proof.
  intros Hc [Hread Hroom Hwrite] Ha. unfold command_loop. rewrite runs_exec.
  unfold runs at 1. cbn. rewrite Hc. cbn. rewrite Hread. rewrite runs_exec. eapply runs_mono, Ha.
  intros o w1 (r & -> & Hans & Hcq & Hrq). cbn in Hcq, Hrq. unfold runs. cbn. rewrite Hrq.
  destruct (Nat.ltb_spec (length (replyMQ w)) (reply_capacity ctx)) as [_|?]; [|lia]. cbn.
  rewrite Hwrite. split; [done|]. by exists r, w1.
Qed.

Lemma timed_out_keeps is_input w :
  (worker_ok w -> worker_ok (timed_out is_input w)) /\ commandMQ (timed_out is_input w) = commandMQ w /\
  replyMQ (timed_out is_input w) = replyMQ w /\ history (timed_out is_input w) = history w /\
  (mState w <> STATE_CLOSED -> mState (timed_out is_input w) <> STATE_CLOSED).
Proof. unfold timed_out. case_match; [|done]. split_and!; try done. by intros [? ? ?]. Qed.

(** A cycle with a command to answer. *)
Lemma worker_answers `{!AudioDriverLaws} is_input c q w :
  worker_ok w -> mState w <> STATE_CLOSED -> commandMQ w = c :: q -> is_exit c = false -> queues_ready w ->
  exists w' r w1, exec (cycle ctx tid is_input) w = Some (CONTINUE, w') /\
    answered (machine is_input) c (with_commands (timed_out is_input w) q) w1 r /\ commandMQ w1 = q /\
    w' = with_replies w1 (replyMQ w ++ [with_reply_state r (mState w1)]).
Proof.
  intros Hw Hcl Hc He Hq. destruct (timed_out_keeps is_input w) as (Hk1 & Hk2 & Hk3 & Hk4 & Hk5).
  enough (runs (exec (cycle ctx tid is_input)) w (fun st w' => st = CONTINUE /\ exists r w1,
    answered (machine is_input) c (with_commands (timed_out is_input w) q) w1 r /\ commandMQ w1 = q /\
    w' = with_replies w1 (replyMQ w ++ [with_reply_state r (mState w1)]))) as Hr.
  { apply runs_some in Hr as (st & w' & Hr & -> & r & w1 & ?). by exists w', r, w1. }
  rewrite <- Hk3. assert (queues_ready (timed_out is_input w)) as Hq'.
  { destruct Hq. by split; rewrite ?Hk3, ?Hk4. }
  assert (worker_ok (with_commands (timed_out is_input w) q)) as Hw' by (by destruct (Hk1 Hw)).
  destruct is_input; unfold cycle.
  - apply (command_loop_spec true); [by rewrite Hk2|done|]. apply (handle_answers true); first [done|by apply Hk5].
  - unfold out_cycle. rewrite runs_exec, drain_timeout_spec.
    apply (command_loop_spec false); [by rewrite Hk2|done|]. apply (handle_answers false); first [done|by apply Hk5].
Qed.


(** ** Safety of interleaved programs

    [safe I p Q]: in any world with [I], the actions of [p] are defined and keep
    [I], whatever other threads that keep [I] do in between, and its result
    satisfies [Q]. *)
Fixpoint safe {A} (I : World -> Prop) (p : Prog A) (Q : A -> Prop) : Prop :=
  match p with
  | Ret a => Q a
  | Act m k => forall w, I w -> match m w with Some (x, w') => I w' /\ safe I (k x) Q | None => False end
  | Wait _ p' => safe I p' Q
  end.

Lemma safe_prog_bind {A B} I (p : Prog A) (k : A -> Prog B) (Q : A -> Prop) (R : B -> Prop) :
  safe I p Q -> (forall a, Q a -> safe I (k a) R) -> safe I (p ≫= k) R.
Proof.
  intros Hp Hk. induction p as [a|X m k' IH|g p IH]; cbn in *; [by apply Hk| |by apply IH].
  intros w Hw. specialize (Hp w Hw). destruct (m w) as [[x w']|]; [|done]. destruct Hp as [? Hp]. split; [done|]. by apply IH.
Qed.

Lemma safe_act {X} I (m : St World X) (Q : X -> Prop) :
  (forall w, I w -> match m w with Some (x, w') => I w' /\ Q x | None => False end) -> safe I (act m) Q.
Proof. intros Hm w Hw. specialize (Hm w Hw). by destruct (m w) as [[x w']|]. Qed.

Lemma safe_mono_true {A} I (p : Prog A) (Q : A -> Prop) : safe I p Q -> safe I p (fun _ => True).
Proof.
  induction p as [a|X m k IH|g p IH]; cbn; [done| |done]. intros Hp w Hw. specialize (Hp w Hw).
  destruct (m w) as [[x w']|]; [|done]. destruct Hp. split; [done|]. by apply IH.
Qed.

Lemma safe_then {A B} I (p : Prog A) (k : A -> Prog B) (R : B -> Prop) :
  safe I p (fun _ => True) -> (forall a, safe I (k a) R) -> safe I (p ≫= k) R.
Proof. intros Hp Hk. eapply safe_prog_bind; [exact Hp|auto]. Qed.

Lemma safe_exec {A} I (p : Prog A) Q w a w' : safe I p Q -> I w -> exec p w = Some (a, w') -> I w' /\ Q a.
Proof.
  revert w. induction p as [b|X m k IH|g p IH]; intros w Hp Hw; cbn in *.
  - by intros [= <- <-].
  - specialize (Hp w Hw). destruct (m w) as [[x w1]|]; [|done]. destruct Hp as [? Hp]. by apply IH.
  - destruct (g w); [by apply IH|done].
Qed.

(** An action that only changes what [worker_ok] does not speak of. *)
Lemma harmless {X} (m : St World X) :
  (forall w, match m w with Some (_, w') => length (mDataBuffer w') = length (mDataBuffer w) /\ dataMQ w' = dataMQ w | None => False end) ->
  safe worker_ok (act m) (fun _ => True).
Proof.
  intros Hm. apply safe_act. intros w [Hf Hb Hd]. specialize (Hm w). destruct (m w) as [[x w']|]; [|done].
  destruct Hm as [Hb' Hd']. split; [|done]. split; [done|by rewrite Hb'|by rewrite Hd'].
Qed.

Ltac is_innermost b := lazymatch b with context [match _ with _ => _ end] => fail | _ => idtac end.

Ltac harmless :=
  apply harmless; intros w; cbn;
  repeat match goal with
  | |- context [if ?b then _ else _] => is_innermost b; destruct b; cbn
  | |- context [match ?l with [] => _ | _ => _ end] => is_innermost l; destruct l; cbn
  end; by split.

Lemma safe_state_in l : safe worker_ok (state_in l) (fun _ => True).
Proof. induction l as [|s l IH]; [done|]. cbn [state_in]. apply safe_then; [harmless|]. intros t. by destruct (state_eqb t s). Qed.

Ltac safely :=
  repeat match goal with
  | |- forall _, _ => intros
  | |- safe _ (state_in _) _ => apply safe_state_in
  | |- safe _ (mret _) _ => exact I
  | |- safe _ (wait _) _ => exact I
  | |- safe _ (_ ≫= _) _ => apply safe_then
  | |- safe _ (if ?b then _ else _) _ => destruct b
  | |- safe _ (match ?x with _ => _ end) _ => destruct x
  | |- safe _ (answer_status _ _) _ => unfold answer_status
  | |- safe _ (switchToTransientState _) _ => unfold switchToTransientState
  | |- safe _ (notify _ _) _ => unfold notify
  | |- safe _ _ _ => harmless
  end.

Lemma safe_onBufferStateChange n : safe worker_ok (onBufferStateChange ctx n) (fun _ => True).
Proof. unfold onBufferStateChange. safely. Qed.

Lemma safe_onClipStateChange n b : safe worker_ok (onClipStateChange ctx n b) (fun _ => True).
Proof. unfold onClipStateChange. safely. Qed.

Lemma safe_to_frames n : 0 < sc_frameSize ctx ->
  safe worker_ok (to_frames ctx n) (fun k => k = n / sc_frameSize ctx).
Proof. intros Hf. apply safe_act. intros w Hw. unfold of_option. by destruct (Z.eqb_spec (sc_frameSize ctx) 0); [lia|]. Qed.

Lemma safe_transferMmap reply : safe worker_ok (transferMmap ctx reply) (fun _ => True).
Proof. unfold transferMmap. safely. Qed.

Lemma safe_write_out `{!AudioDriverLaws} n reply : 0 < sc_frameSize ctx -> sc_hasDataMQ ctx = true ->
  safe worker_ok (write_out ctx n reply) (fun _ => True).
Proof.
  intros Hf Hq. unfold write_out, with_queue. rewrite Hq.
  eapply (safe_prog_bind _ _ _ (fun m => (m <= sc_bufferSize ctx)%nat)).
  { apply safe_act. intros w Hw. by destruct Hw. }
  intros m Hm. apply safe_then.
  { apply safe_act. intros w [_ Hb Hd]. destruct (Nat.ltb_spec (length (dataMQ w)) m) as [?|Hx]; [done|].
    destruct (Nat.ltb_spec (length (mDataBuffer w)) m) as [?|_]; [lia|].
    split; [|done]. split; cbn; [done| |]; rewrite ?length_app, ?length_take, ?length_drop; lia. }
  intros got. destruct got; [|exact I]. apply safe_then; [harmless|]. intros conn. apply safe_then; [harmless|]. intros size.
  apply safe_then; [eapply safe_mono_true, safe_to_frames; done|]. safely.
Qed.

Lemma safe_read_in `{!AudioDriverLaws} n reply : 0 < sc_frameSize ctx -> sc_hasDataMQ ctx = true -> 0 <= n ->
  safe worker_ok (read_in ctx n reply) (fun _ => True).
Proof.
  intros Hf Hq Hn. unfold read_in, with_queue. rewrite Hq. eapply (safe_prog_bind _ _ _ (fun x => 0 <= x <= Z.of_nat (sc_bufferSize ctx))).
  { apply safe_act. intros w Hw. split; [done|]. destruct Hw. lia. }
  intros available Hav. eapply (safe_prog_bind _ _ _ (fun x => x = Z.of_nat (sc_bufferSize ctx))).
  { apply safe_act. intros w Hw. split; [done|]. by destruct Hw as [_ -> _]. }
  intros size ->. set (byteCount := Z.min n _). assert (0 <= byteCount <= Z.of_nat (sc_bufferSize ctx)) as Hbc by lia.
  apply safe_then; [harmless|]. intros conn. eapply safe_prog_bind; [by apply safe_to_frames|]. intros k ->.
  assert (0 <= byteCount / sc_frameSize ctx) by (apply Z.div_pos; lia).
  assert (byteCount / sc_frameSize ctx * sc_frameSize ctx <= byteCount) by (rewrite Z.mul_comm; apply Z.mul_div_le; lia).
  set (k := byteCount / sc_frameSize ctx) in *.
  eapply (safe_prog_bind _ _ _ (fun r => r.1.2 * sc_frameSize ctx <= Z.of_nat (sc_bufferSize ctx))).
  { destruct conn; apply safe_act; intros w [_ Hb Hd].
    - pose proof (transfer_in_law (history w) k) as Hlaw. destruct (transfer_in (history w) k) as [[[ok data] actual] lat].
      destruct Hlaw as [Ha Hl]; [done|]. assert (actual * sc_frameSize ctx <= k * sc_frameSize ctx) by nia.
      destruct (Nat.ltb_spec (length (mDataBuffer w)) (length data)) as [?|_]; [lia|].
      split; [|cbn; lia]. split; cbn; [done| |done]. rewrite length_app, length_drop. lia.
    - split; [|cbn; lia]. split; cbn; [done| |done]. rewrite length_app, length_replicate, length_drop. lia. }
  intros [[fatal actual] lat] Ha. cbn in Ha. apply safe_then.
  { apply safe_act. intros w [_ Hb Hd]. destruct (Z.leb_spec (actual * sc_frameSize ctx) 0) as [?|Hpos]; [done|].
    destruct (Z.ltb_spec (Z.of_nat (length (mDataBuffer w))) (actual * sc_frameSize ctx)) as [?|_]; [lia|].
    destruct (Z.leb_spec (actual * sc_frameSize ctx) (Z.of_nat (sc_bufferSize ctx) - Z.of_nat (length (dataMQ w)))) as [Hr|?]; [|done].
    split; [|done]. split; cbn; [done|done|]. rewrite length_app, length_take. lia. }
  safely.
Qed.

Lemma safe_handle `{!AudioDriverLaws} (is_input : bool) c reply : context_ok ->
  safe worker_ok ((if is_input then in_handle else out_handle) ctx tid c reply) (fun _ => True).
Proof.
  intros [Hf Hq]. destruct is_input, c as [cookie| | |n|m| | | ]; cbn [in_handle out_handle];
    unfold handle_exit, reply_of, setClosed, in_start, in_burst, in_drain, in_pause, in_flush, handle_standby,
      out_start, out_burst, out_burst_next, out_drain, out_pause, out_flush; try solve [safely].
  - destruct (Z.ltb_spec n 0); [exact I|]. apply safe_then; [|safely]. apply safe_then; [apply safe_state_in|].
    intros good. destruct (negb good); [exact I|]. apply safe_then; [|safely].
    destruct (sc_isMmap ctx) eqn:Hmm; [apply safe_transferMmap|apply safe_read_in; auto].
  - destruct (Z.ltb_spec n 0); [exact I|]. apply safe_then; [|safely]. apply safe_then; [apply safe_state_in|].
    intros bad. destruct bad; [exact I|]. apply safe_then; [|safely].
    destruct (sc_isMmap ctx) eqn:Hmm; [apply safe_transferMmap|apply safe_write_out; auto].
Qed.

Lemma safe_cycle `{!AudioDriverLaws} is_input : context_ok -> safe worker_ok (cycle ctx tid is_input) (fun _ => True).
Proof.
  intros Hf. assert (forall is_input : bool, safe worker_ok (command_loop ctx ((if is_input then in_handle else out_handle) ctx tid)) (fun _ => True)) as Hl.
  { intros is_in. unfold command_loop, read_command. apply safe_then; [safely|]. intros [c|]; [|safely].
    apply safe_then; [by apply (safe_handle is_in)|]. unfold finish, write_reply. safely. }
  unfold cycle. destruct is_input; [apply (Hl true)|]. unfold out_cycle. apply safe_then; [|intros _; apply (Hl false)].
  unfold drain_timeout. safely.
Qed.

(** ** The threads together *)

Definition undefined {A} (p : Prog A) (w : World) : Prop := match p with Act m _ => m w = None | _ => False end.

Lemma safe_next {A} I (p p' : Prog A) Q w w' : safe I p Q -> I w -> prog_next p w = Some (p', w') -> safe I p' Q /\ I w'.
Proof.
  destruct p as [a|X m k|g p]; cbn; [done| |].
  - intros Hp Hw. specialize (Hp w Hw). destruct (m w) as [[x w1]|]; [|done]. cbn. destruct Hp. by intros [= <- <-].
  - destruct (g w); [|done]. by intros Hp Hw [= <- <-].
Qed.

Lemma safe_defined {A} I (p : Prog A) Q w : safe I p Q -> I w -> ~ undefined p w.
Proof. destruct p as [a|X m k|g p]; cbn; [intros _ _ []| |intros _ _ []]. intros Hp Hw Hu. specialize (Hp w Hw). by rewrite Hu in Hp. Qed.

Record system_ok (s : System) : Prop := {
  so_world : worker_ok (sys_world s);
  so_worker : safe worker_ok (sys_worker s) (fun _ => True);
  so_driver : safe worker_ok (sys_driver s) (fun _ => True)
}.

Lemma stream_step_ok `{!AudioDriverLaws} is_input s s' : sys_step ctx tid is_input s s' -> system_ok s -> system_ok s'.
Proof.
  intros Hs [Hw Hp Hd]. destruct Hs as [w p p' w' d Hn|w d|w p d d' w' Hn|w p d Hc|w p d b|w p d c|w p d r q Hr|w p d data Hdata]; cbn in *.
  - destruct (safe_next _ _ _ _ _ _ Hp Hw Hn). by split.
  - split; [done| |done]. apply safe_cycle. by destruct Hw.
  - destruct (safe_next _ _ _ _ _ _ Hd Hw Hn). by split.
  - split; [done..|]. destruct Hc; [done|apply safe_onBufferStateChange|apply safe_onClipStateChange].
  - split; [|done..]. by destruct Hw.
  - split; [|done..]. by destruct Hw.
  - split; [|done..]. by destruct Hw.
  - split; [|done..]. destruct Hw as [Hf Hb Hl]. split; [done..|]. cbn. destruct is_input.
    + destruct Hdata as [taken Heq]. rewrite Heq, length_app in Hl. lia.
    + by destruct Hdata as (new & -> & ?).
Qed.


(** C36: a burst of a connected output stream that is not mmap hands the driver a prefix of what the client
    queued, in whole frames, takes it all from the queue, and counts and answers
    the frames the driver took. *)
Theorem burst_plays_prefix `{!AudioDriverLaws} n reply w :
  worker_ok w -> sc_isMmap ctx = false -> 0 <= n -> mIsConnected w = true ->
  exists ok r w' actual l,
    exec (write_out ctx n reply) w = Some ((ok, r), w') /\ dataMQ w' = [] /\
    history w' = history w ++ TransferOut (burst_data n w) :: l /\ burst_data n w `prefix_of` dataMQ w /\
    (transfer_out (history w) (burst_data n w)).1 = (ok, actual) /\ mFrameCount w' = mFrameCount w + actual /\
    r_byteCount r = wrap_s 32 (r_byteCount reply + actual * sc_frameSize ctx) /\ r_status r = STATUS_OK.
Proof.
  intros Hw Hmm Hn Hc. pose proof (write_out_spec n reply w Hw Hmm Hn) as Hr. apply runs_some in Hr as ([ok r] & w' & Hr & Hd).
  destruct Hd as [_ _ _ Hd _ Hs (actual & Hf & Hb & Ht)]. cbn in Ht. rewrite Hc in Ht. destruct Ht as [Ht (l & Hl & _)].
  exists ok, r, w', actual, l. split_and!; try done. apply prefix_take.
Qed.

(** [n] actions of the worker. *)
Fixpoint advance {A} (n : nat) (p : Prog A) (w : World) : option (Prog A * World) :=
  match n with
  | O => Some (p, w)
  | S n' => match prog_next p w with Some (p', w') => advance n' p' w' | None => None end
  end.

Lemma advance_steps is_input n p w p' w' d : advance n p w = Some (p', w') ->
  rtc (sys_step ctx tid is_input) (mkSystem w p d) (mkSystem w' p' d).
Proof.
  revert p w. induction n as [|n IH]; intros p w; cbn; [intros [= <- <-]; apply rtc_refl|].
  destruct (prog_next p w) as [[p1 w1]|] eqn:E; [|done]. intros Hn. eapply rtc_l; [by apply StepWorker|]. by apply IH.
Qed.

(** ** Drains that are lost *)

(** The end of a drain can be missed.  The worker tells the driver to drain
    before it notes that it is draining: if the driver reports the end of the clip
    in between, the report has no effect, and the stream is left draining with no
    notification to come. *)
Lemma drain_ready_lost m w q :
  mState w = ACTIVE -> mDrainState w = DRAIN_NONE -> commandMQ w = CDrain m :: q -> is_unspecified m = false ->
  sc_async ctx = true -> forceSynchronousDrain ctx = false -> driver_ok (history w) (DDrain m) = true -> queues_ready w ->
  exists w1 p1 w2,
    rtc (sys_step ctx tid false) (mkSystem w (cycle ctx tid false) (Ret tt)) (mkSystem w1 p1 (Ret tt)) /\
    history w1 = history w ++ [Driver (DDrain m)] /\
    exec (onClipStateChange ctx 0 false) w1 = Some (tt, w1) /\
    rtc (sys_step ctx tid false) (mkSystem w1 p1 (Ret tt)) (mkSystem w2 (Ret CONTINUE) (Ret tt)) /\
    mState w2 = DRAINING /\ history w2 = history w1.
Proof.
  intros Hs Hd Hc Hm Ha Hf Hok [Hread Hroom Hwrite].
  assert ((length (replyMQ w) <? reply_capacity ctx)%nat = true) as Hroom' by (by apply Nat.ltb_lt).
  destruct w as [st prior conn dr t buf fr cq rq dq h]. cbn in *. subst.
  destruct m; [done|..]; (eexists _, _, _; split_and!;
    [ apply (advance_steps false 5); cbn; rewrite Hread; cbn; rewrite Hok; reflexivity
    | reflexivity | reflexivity
    | apply (advance_steps false 9); cbn; rewrite Hf; cbn; rewrite Hroom'; cbn; rewrite Hwrite; reflexivity
    | reflexivity | reflexivity ]).
Qed.

(** A cycle whose handler is known. *)
Lemma cycle_answer is_input c q w r w1 :
  commandMQ w = c :: q -> queues_ready w -> timed_out is_input w = w ->
  exec ((if is_input then in_handle else out_handle) ctx tid c (with_status default_reply STATUS_BAD_VALUE)) (with_commands w q) =
    Some (Answer r, w1) ->
  replyMQ w1 = replyMQ w ->
  exec (cycle ctx tid is_input) w = Some (CONTINUE, with_replies w1 (replyMQ w ++ [with_reply_state r (mState w1)])).
Proof.
  intros Hc [Hread Hroom Hwrite] Ht Hh Hr. apply Nat.ltb_lt in Hroom.
  assert (forall handle, exec (handle c (with_status default_reply STATUS_BAD_VALUE)) (with_commands w q) = Some (Answer r, w1) ->
    exec (command_loop ctx handle) w = Some (CONTINUE, with_replies w1 (replyMQ w ++ [with_reply_state r (mState w1)]))) as Hloop.
  { intros handle Hh'. unfold command_loop. rewrite exec_bind. cbn. rewrite Hc. cbn. rewrite Hread, exec_bind, Hh'. cbn.
    rewrite Hr, Hroom. cbn. by rewrite Hwrite. }
  unfold cycle. destruct is_input; [by apply Hloop|]. unfold out_cycle. rewrite exec_bind.
  pose proof (drain_timeout_spec w (fun _ w' => w' = timed_out false w)) as [_ Hd]. specialize (Hd eq_refl).
  apply runs_some in Hd as ([] & w' & -> & ->). rewrite Ht. by apply Hloop.
Qed.

Lemma clip_ignored n b w : mDrainState w = DRAIN_NONE -> exec (onClipStateChange ctx n b) w = Some (tt, w).
Proof. intros Hd. unfold onClipStateChange. rewrite exec_bind. cbn. by rewrite Hd. Qed.

(** A drain asked for while a transfer is paused is answered OK, but the driver
    is not told and nothing is noted: when the client goes on, the stream drains
    for ever, whatever the driver reports. *)
Lemma paused_drain_never_ends m w q :
  mState w = TRANSFER_PAUSED -> mDrainState w = DRAIN_NONE -> commandMQ w = CDrain m :: CStart :: q ->
  is_unspecified m = false -> sc_async ctx = true -> driver_ok (history w) DStart = true ->
  queues_ready w -> (S (length (replyMQ w)) < reply_capacity ctx)%nat ->
  exists w1 w2, exec (cycle ctx tid false) w = Some (CONTINUE, w1) /\ exec (cycle ctx tid false) w1 = Some (CONTINUE, w2) /\
    (r_status <$> replyMQ w2) = (r_status <$> replyMQ w) ++ [STATUS_OK; STATUS_OK] /\
    mState w2 = DRAINING /\ history w2 = history w ++ [Driver DStart] /\
    forall n b, exec (onClipStateChange ctx n b) w2 = Some (tt, w2).
Proof.
  intros Hs Hd Hc Hm Ha Hok Hq Hroom2.
  destruct w as [st prior conn dr t buf fr cq rq dq h]. cbn in Hs, Hd, Hc, Hok, Hroom2. subst st dr cq.
  eexists _, _. split_and!.
  - eapply (cycle_answer false); [reflexivity|done|reflexivity| |].
    + cbn. unfold out_drain. rewrite Hm. reflexivity.
    + reflexivity.
  - eapply (cycle_answer false); [reflexivity| |reflexivity| |].
    + destruct Hq. split; cbn; [done|rewrite length_app; cbn; lia|done].
    + cbn. rewrite Hok. cbn. reflexivity.
    + cbn. reflexivity.
  - cbn. rewrite !fmap_app, <- (assoc_L (++)). cbn. unfold with_reply_state. cbn. by rewrite !populate_status.
  - reflexivity.
  - reflexivity.
  - intros n b. by apply clip_ignored.
Qed.

(** A flush forgets to end the drain it interrupts: the stream is idle, and the
    end of whatever it plays next is taken for the end of that drain. *)
Lemma flush_keeps_drain d w q :
  mState w = DRAIN_PAUSED -> mDrainState w = d -> d <> DRAIN_NONE -> commandMQ w = CFlush :: q ->
  driver_ok (history w) DFlush = true -> queues_ready w ->
  (exists w1, exec (cycle ctx tid false) w = Some (CONTINUE, w1) /\ mState w1 = IDLE /\ mDrainState w1 = d) /\
  forall w2, mState w2 = ACTIVE -> mDrainState w2 = d ->
    exists w3, exec (onClipStateChange ctx 0 false) w2 = Some (tt, w3) /\ mState w3 = IDLE /\
      history w3 = history w2 ++ (if sc_async ctx && negb (drain_eqb d EN) then [DrainReady] else []).
Proof.
  intros Hs Hd Hnone Hc Hok Hq. split.
  - assert (timed_out false w = w) as Ht by (unfold timed_out; by rewrite Hs).
    destruct w as [st prior conn dr t buf fr cq rq dq h]. cbn in Hs, Hd, Hc, Hok. subst st dr cq.
    eexists. split; [eapply (cycle_answer false); [reflexivity|done|done| |]|].
    + cbn. rewrite Hok. reflexivity.
    + reflexivity.
    + done.
  - intros w2 Hs2 Hd2. destruct w2 as [st prior conn dr t buf fr cq rq dq h]. cbn in Hs2, Hd2. subst st dr.
    destruct d; [done|..]; unfold onClipStateChange, notify; cbn; rewrite Z.eqb_refl; cbn; destruct (sc_async ctx); cbn; eexists; (split; [reflexivity|]); cbn; by rewrite ?app_nil_r.
Qed.
End Alone.

(** ** Witnesses *)

Definition demo_stream_abi : StreamAbi := {|
  POSITION_UNKNOWN := -1; LATENCY_UNKNOWN := -1;
  default_reply := mkReply STATUS_OK 0 (mkPosition (-1) (-1)) (mkPosition (-1) (-1)) (-1) ERROR
|}.

#[local] Existing Instance demo_stream_abi.

(** A driver that plays all it is given and records as much as it is asked for. *)
Definition demo_driver : AudioDriver := {|
  driver_ok _ _ := true;
  transfer_out _ data := (true, Z.of_nat (length data) / 2, 10);
  transfer_in _ n := (true, replicate (Z.to_nat (n * 2)) 7, n, 5);
  transfer_mmap _ := (true, 1);
  refinePosition _ p := Some p;
  getMmapPositionAndLatency _ := None;
  has_data_processor _ := false;
  uptimeNanos h := Z.of_nat (length h);
  steady_clock h := Z.of_nat (length h);
  command_read_ok _ := true;
  reply_write_ok _ := true
|}.

#[local] Existing Instance demo_driver.

Definition demo_context : StreamContext := mkContext 5 2 8 false true 20 true 0 false false 2.

#[local] Instance demo_audio_laws : AudioDriverLaws demo_context.
Proof.
  split.
  - intros h data. cbn. split; [apply Z.div_pos; lia|]. pose proof (Z.mul_div_le (Z.of_nat (length data)) 2). lia.
  - intros h n. cbn. intros Hn. rewrite length_replicate. lia.
Defined.

Definition demo_world (s : StreamState) (d : DrainState) (q : list Command) (data : list Z) : World :=
  mkWorld s STANDBY true d 0 (replicate 8 0) 0 q [] data [].

Lemma demo_worker_ok s d q data : (length data <= 8)%nat -> worker_ok demo_context (demo_world s d q data).
Proof. intros Hd. by split. Qed.

Lemma demo_queues_ready s d q data : queues_ready demo_context (demo_world s d q data).
Proof. split; [done|cbn; lia|done]. Qed.



Lemma burst_plays_prefix_witness :
  exists w', exec (write_out demo_context 4 default_reply) (demo_world IDLE DRAIN_NONE [] [1; 2; 3; 4; 5]) =
      Some ((true, mkReply STATUS_OK 4 (mkPosition 2 1) (mkPosition (-1) (-1)) 10 ERROR), w') /\
    dataMQ w' = [] /\ history w' = [TransferOut [1; 2; 3; 4]] /\ mFrameCount w' = 2.
Proof.
  destruct (burst_plays_prefix demo_context 4 default_reply (demo_world IDLE DRAIN_NONE [] [1; 2; 3; 4; 5]))
    as (ok & r & w' & actual & l & Hr & Hd & _); [apply demo_worker_ok; cbn; lia|done|lia|done|].
  exists w'. vm_compute in Hr. injection Hr as <- <- <-. done.
Defined.

Lemma paused_drain_never_ends_witness :
  exists w1 w2, exec (cycle demo_context 3 false) (demo_world TRANSFER_PAUSED DRAIN_NONE [CDrain DRAIN_ALL; CStart] []) = Some (CONTINUE, w1) /\
    exec (cycle demo_context 3 false) w1 = Some (CONTINUE, w2) /\
    r_status <$> replyMQ w2 = [STATUS_OK; STATUS_OK] /\ mState w2 = DRAINING /\ history w2 = [Driver DStart] /\
    forall n b, exec (onClipStateChange demo_context n b) w2 = Some (tt, w2).
Proof.
  apply (paused_drain_never_ends demo_context 3 DRAIN_ALL (demo_world TRANSFER_PAUSED DRAIN_NONE [CDrain DRAIN_ALL; CStart] []) []);
    try done; [apply demo_queues_ready|cbn; lia].
Defined.

(** A paused drain is flushed; the next clip's end is taken for the drain's. *)
Lemma flush_keeps_drain_witness :
  exists w1, exec (cycle demo_context 3 false) (demo_world DRAIN_PAUSED ALL [CFlush] []) = Some (CONTINUE, w1) /\
    mState w1 = IDLE /\ mDrainState w1 = ALL.
Proof.
  apply (flush_keeps_drain demo_context 3 ALL (demo_world DRAIN_PAUSED ALL [CFlush] []) []); try done. apply demo_queues_ready.
Defined.
