(* ===== verification/AudioStream.v ===== *)
(** * audio/default/Stream.cpp, include/core-impl/Stream.h: streams

    [StreamCommonImpl] owns the worker of a stream: it starts the thread, stops and
    joins it when the client closes the stream, and keeps the metadata and the
    connected devices.  [StreamIn] and [StreamOut] add gains, volumes, microphones
    and offload metadata; [Streams] is the module's collection of open streams.
    The thread's loop (of the common library, not part of the repository) runs
    cycles of the worker until one does not say [CONTINUE]. *)

From S2P Require Import Prelude AudioWorker.

(** A result of a binder call. *)
Inductive stream_status := S_OK | S_ILLEGAL_STATE | S_ILLEGAL_ARGUMENT | S_UNSUPPORTED.

(** ** The context *)

(** What [isValid] looks at: the queues, if there are any, with whether they are
    valid, and the mmap descriptor. *)
Record ContextQueues := mkQueues {
  q_command : option bool; q_reply : option bool; q_data : option bool;
  mmap_fd : Z; mmap_size : Z; mmap_burstSizeFrames : Z
}.

Definition present_invalid (q : option bool) : bool := match q with Some valid => negb valid | None => false end.

(** The last case only writes to the log. *)
Definition isValid (ctx : StreamContext) (q : ContextQueues) : bool :=
  if present_invalid (q_command q) then false
  else if present_invalid (q_reply q) then false
  else if sc_frameSize ctx =? 0 then false
  else if negb (sc_isMmap ctx) && present_invalid (q_data q) then false
  else true.

(** [quanta]: the count and size of the quanta of the data queue. *)
Definition getBufferSizeInFrames (ctx : StreamContext) (q : ContextQueues) (quanta : Z * Z) : option Z :=
  if sc_frameSize ctx =? 0 then None
  else Some (match q_data q with Some _ => quanta.1 * quanta.2 | None => mmap_size q end / sc_frameSize ctx).

(** ** StreamCommonImpl *)

Section Stream.
Context `{!StreamAbi, !AudioDriver}.
Variables (ctx : StreamContext) (tid : Z) (is_input : bool).
Context {Metadata Device : Type} (meta_index : Metadata -> Z).

(** [s_reset]: the context was reset, the queues are gone.  [s_closed_in]: the
    state handed to [onClose]. *)
Record Stream := mkStream {
  s_world : World; mWorkerStopIssued : bool; mMetadata : Metadata; mConnectedDevices : list Device; s_reset : bool;
  s_closed_in : option StreamState
}.

Definition isClosed (s : Stream) : bool := state_eqb (mState (s_world s)) STATE_CLOSED.

Definition with_world (s : Stream) (w : World) : Stream :=
  mkStream w (mWorkerStopIssued s) (mMetadata s) (mConnectedDevices s) (s_reset s) (s_closed_in s).

(** The thread: cycles until one ends it; [None] also when it still waits. *)
Fixpoint thread_loop (fuel : nat) (w : World) : option World :=
  match fuel with
  | O => None
  | S fuel' =>
      match exec (cycle ctx tid is_input) w with
      | Some (CONTINUE, w') => thread_loop fuel' w'
      | Some (_, w') => Some w'
      | None => None
      end
  end.

Definition exit_cookie : Z := Z.lxor (mInternalCommandCookie ctx) tid.

Definition stopWorker (s : Stream) : Stream :=
  let w := s_world s in
  mkStream (if s_reset s then w else with_commands w (commandMQ w ++ [CExit exit_cookie])) true
    (mMetadata s) (mConnectedDevices s) (s_reset s) (s_closed_in s).

Definition stopAndJoinWorker (fuel : nat) (s : Stream) : option Stream :=
  let s1 := stopWorker s in w ← thread_loop fuel (s_world s1); Some (with_world s1 w).

(** [onClose] of the streams resets the context. *)
Definition close (fuel : nat) (s : Stream) : option (stream_status * Stream) :=
  if isClosed s then Some (S_ILLEGAL_STATE, s)
  else
    s1 ← stopAndJoinWorker fuel s;
    let w := closed (s_world s1) in
    Some (S_OK, mkStream w (mWorkerStopIssued s1) (mMetadata s1) (mConnectedDevices s1) true (Some (mStatePriorToClosing w))).

Definition prepareToClose (s : Stream) : stream_status := if isClosed s then S_ILLEGAL_STATE else S_OK.

Definition cleanupWorker (fuel : nat) (s : Stream) : option Stream :=
  if isClosed s then Some s else stopAndJoinWorker fuel s.

(** The destructor of [StreamCommonImpl]; [None]: the process is aborted. *)
Definition destroyed (s : Stream) : option unit :=
  if negb (mWorkerStopIssued s) && negb (isClosed s) then None else Some tt.

Definition updateMetadataCommon (metadata : Metadata) (s : Stream) : option (stream_status * Stream) :=
  if isClosed s then Some (S_ILLEGAL_STATE, s)
  else if negb (meta_index metadata =? meta_index (mMetadata s)) then None
  else Some (S_OK, mkStream (s_world s) (mWorkerStopIssued s) metadata (mConnectedDevices s) (s_reset s) (s_closed_in s)).

Definition setConnectedDevices (devices : list Device) (s : Stream) : stream_status * Stream :=
  (S_OK, mkStream (with_connected (s_world s) (negb (is_nil devices))) (mWorkerStopIssued s) (mMetadata s) devices
           (s_reset s) (s_closed_in s)).

(** ** Closing a stream *)

Lemma machine_stays_open s c s' : p_machine (machine ctx is_input) s c s' -> s <> STATE_CLOSED -> s' <> STATE_CLOSED.
Proof. unfold machine. destruct is_input; destruct 1; naive_solver. Qed.

Lemma answered_open c w w' r :
  answered (machine ctx is_input) c w w' r -> mState w <> STATE_CLOSED -> mState w' <> STATE_CLOSED.
Proof. intros [_ _ Hm|_ _ ->|_ _ _ ->|_ _ He _] Hs; [by eapply machine_stays_open|done|done|by rewrite He]. Qed.

(** The queues never fail, and there is room for [n] replies. *)
Definition queues_good (n : nat) (w : World) : Prop :=
  (forall h, command_read_ok h = true) /\ (forall h, reply_write_ok h = true) /\
  (length (replyMQ w) + n <= reply_capacity ctx)%nat.

Lemma queues_good_ready n w : queues_good (S n) w -> queues_ready ctx w.
Proof. intros (? & ? & ?). split; [auto|lia|auto]. Qed.

Lemma exit_cycle w q :
  commandMQ w = CExit exit_cookie :: q -> exit_cookie <> 0 -> (forall h, command_read_ok h = true) ->
  exists w', exec (cycle ctx tid is_input) w = Some (EXIT, w') /\ mState w' = STATE_CLOSED /\
    replyMQ w' = replyMQ w /\ history w' = history w ++ [Driver DShutdown].
Proof.
  intros Hc Hne Hread.
  assert (forall (is_in : bool) w, commandMQ w = CExit exit_cookie :: q ->
    exists w', exec (command_loop ctx ((if is_in then in_handle else out_handle) ctx tid)) w = Some (EXIT, w') /\
      mState w' = STATE_CLOSED /\ replyMQ w' = replyMQ w /\ history w' = history w ++ [Driver DShutdown]) as Hloop.
  { clear w Hc. intros is_in w Hc. unfold command_loop. rewrite exec_bind. cbn. rewrite Hc. cbn. rewrite Hread, exec_bind.
    replace (exec ((if is_in then in_handle else out_handle) ctx tid (CExit exit_cookie) (with_status default_reply STATUS_BAD_VALUE)))
      with (exec (handle_exit ctx tid exit_cookie (with_status default_reply STATUS_BAD_VALUE))) by (by destruct is_in).
    unfold handle_exit. rewrite exec_bind. unfold exit_cookie at 1. rewrite Z.eqb_refl. cbn.
    apply Z.eqb_neq in Hne. rewrite Hne. cbn. eexists. split; [reflexivity|]. unfold closed. cbn. by destruct (state_eqb (mState w) STATE_CLOSED). }
  unfold cycle. destruct is_input; [by apply (Hloop true)|]. unfold out_cycle.
  destruct (timed_out_keeps ctx false w) as (_ & Hk2 & Hk3 & Hk4 & _).
  destruct (Hloop false (timed_out ctx false w)) as (w' & Hr & Hs & Hrq & Hh); [by rewrite Hk2|].
  exists w'. rewrite exec_bind. pose proof (drain_timeout_spec ctx w (fun _ w' => w' = timed_out ctx false w)) as [_ Hd].
  specialize (Hd eq_refl). apply runs_some in Hd as ([] & w1 & -> & ->). rewrite <- Hk3, <- Hk4. done.
Qed.

Lemma thread_loop_exits `{!AudioDriverLaws ctx} q w :
  worker_ok ctx w -> mState w <> STATE_CLOSED -> commandMQ w = q ++ [CExit exit_cookie] -> exit_cookie <> 0 ->
  Forall (fun c => is_exit c = false) q -> queues_good (length q) w ->
  exists w', thread_loop (S (length q)) w = Some w' /\ mState w' = STATE_CLOSED /\
    length (replyMQ w') = (length (replyMQ w) + length q)%nat /\ exists h, history w' = h ++ [Driver DShutdown].
Proof.
  revert w. induction q as [|c q IH]; intros w Hw Hs Hc Hne Hq Hg.
  - destruct (exit_cycle w [] Hc Hne) as (w' & Hr & Hcl & Hrq & Hh); [apply Hg|].
    exists w'. cbn. rewrite Hr, Hcl, Hrq. split_and!; [done|done|lia|by eexists].
  - apply Forall_cons in Hq as [Hce Hq]. pose proof (queues_good_ready _ _ Hg) as Hqr.
    destruct (worker_answers ctx tid is_input c (q ++ [CExit exit_cookie]) w Hw Hs Hc Hce Hqr)
      as (w' & r & w1 & Hr & Ha & Hcq & ->).
    change (thread_loop (S (length (c :: q))) w) with
      (match exec (cycle ctx tid is_input) w with
       | Some (CONTINUE, w') => thread_loop (S (length q)) w' | Some (_, w') => Some w' | None => None end).
    rewrite Hr. set (w2 := with_replies w1 (replyMQ w ++ [with_reply_state r (mState w1)])).
    destruct (IH w2) as (w' & Hr' & Hcl & Hrq & Hh); try done.
    + assert (context_ok ctx) as Hf by (by destruct Hw).
      by destruct (safe_exec _ _ _ _ _ _ (safe_cycle ctx tid is_input Hf) Hw Hr).
    + cbn. eapply answered_open; [exact Ha|]. by apply timed_out_keeps.
    + destruct Hg as (? & ? & ?). split_and!; try done. cbn. rewrite length_app. cbn in *. lia.
    + exists w'. rewrite Hr', Hcl, Hrq. split_and!; try done. cbn. rewrite length_app. cbn. lia.
Qed.

(** C37: when the queues work, the reply queue has room for an answer to every
    command that is pending, none of them is an exit command, and the cookie of the
    exit command is not the 0 of the tests, then [close] gives back a closed
    stream: the worker answers the pending commands, shuts the driver down as the
    last thing it does, and ends; closing again is an error. *)
Theorem close_completes `{!AudioDriverLaws ctx} s :
  worker_ok ctx (s_world s) -> isClosed s = false -> s_reset s = false -> exit_cookie <> 0 ->
  Forall (fun c => is_exit c = false) (commandMQ (s_world s)) ->
  queues_good (length (commandMQ (s_world s))) (s_world s) ->
  exists s' h, close (S (length (commandMQ (s_world s)))) s = Some (S_OK, s') /\ isClosed s' = true /\
    length (replyMQ (s_world s')) = (length (replyMQ (s_world s)) + length (commandMQ (s_world s)))%nat /\
    history (s_world s') = h ++ [Driver DShutdown] /\
    (forall fuel, close fuel s' = Some (S_ILLEGAL_STATE, s')) /\ prepareToClose s' = S_ILLEGAL_STATE /\ destroyed s' = Some tt.
Proof.
  intros Hw Hcl Hr Hne Hq Hg. unfold close at 1. rewrite Hcl. unfold stopAndJoinWorker, stopWorker. rewrite Hr. cbn [s_world].
  destruct (thread_loop_exits (commandMQ (s_world s)) (with_commands (s_world s) (commandMQ (s_world s) ++ [CExit exit_cookie])))
    as (w' & Hl & Hc & Hrq & h & Hh); try done.
  { by destruct Hw. }
  { unfold isClosed in Hcl. intros Hs. cbn in Hs. by rewrite Hs in Hcl. }
  rewrite Hl. cbn. eexists _, h. split; [reflexivity|].
  assert (mState (closed w') = STATE_CLOSED) as Hc' by done.
  unfold isClosed, prepareToClose, destroyed, close, isClosed. cbn [s_world]. rewrite Hc'. cbn.
  unfold closed. rewrite Hc. cbn. split_and!; try done.
Qed.

#[local] Arguments Nat.ltb : simpl never.

(** A client that does not read its replies keeps [close] from returning: with a
    full reply queue and a command before the request to exit, the worker waits for
    ever, and so does the thread that joins it. *)
Lemma unread_reply_hangs_close `{!AudioDriverLaws ctx} fuel s c q :
  worker_ok ctx (s_world s) -> isClosed s = false -> s_reset s = false -> commandMQ (s_world s) = c :: q ->
  is_exit c = false -> (reply_capacity ctx <= length (replyMQ (s_world s)))%nat ->
  (forall h, command_read_ok h = true) -> close fuel s = None.
Proof.
  intros Hw Hcl Hr Hc He Hfull Hread. unfold close. rewrite Hcl. unfold stopAndJoinWorker, stopWorker. rewrite Hr. cbn [s_world].
  destruct fuel as [|fuel]; [done|]. cbn [thread_loop].
  set (w := with_commands (s_world s) (commandMQ (s_world s) ++ [CExit exit_cookie])).
  assert (mState w <> STATE_CLOSED) as Hs.
  { unfold isClosed in Hcl. intros Hs. cbn in Hs. by rewrite Hs in Hcl. }
  assert (worker_ok ctx w) as Hw' by (by destruct Hw).
  enough (exec (cycle ctx tid is_input) w = None) as -> by done.
  assert (forall (is_in : bool) w, commandMQ w = c :: q ++ [CExit exit_cookie] -> worker_ok ctx w -> mState w <> STATE_CLOSED ->
    (reply_capacity ctx <= length (replyMQ w))%nat ->
    exec (command_loop ctx ((if is_in then in_handle else out_handle) ctx tid)) w = None) as Hloop.
  { clear -Hread He AudioDriverLaws0. intros is_in w Hc Hw Hs Hfull. unfold command_loop. rewrite exec_bind. cbn. rewrite Hc. cbn.
    rewrite Hread, exec_bind.
    assert (answers_command ctx is_in c ((if is_in then in_handle else out_handle) ctx tid c (with_status default_reply STATUS_BAD_VALUE))
      (with_commands w (q ++ [CExit exit_cookie]))) as Ha by (apply handle_answers; [exact _|by destruct Hw|exact Hs|done|exact He]).
    apply runs_some in Ha as (o & w1 & -> & r & -> & _ & _ & Hrq).
    cbn in *. rewrite Hrq. destruct (Nat.ltb_spec (length (replyMQ w)) (reply_capacity ctx)); [lia|done]. }
  unfold cycle. destruct is_input; [apply (Hloop true); [cbn; by rewrite Hc|exact Hw'|exact Hs|exact Hfull]|].
  unfold out_cycle. rewrite exec_bind.
  pose proof (drain_timeout_spec ctx w (fun _ w' => w' = timed_out ctx false w)) as [_ Hd].
  specialize (Hd eq_refl). apply runs_some in Hd as ([] & w1 & -> & ->).
  destruct (timed_out_keeps ctx false w) as (Hk1 & Hk2 & Hk3 & _ & Hk5).
  apply (Hloop false); [rewrite Hk2; cbn; by rewrite Hc|by apply Hk1|by apply Hk5|by rewrite Hk3].
Qed.
End Stream.

(** ** Gains and volumes

    [StreamInHwGainHelper] and [StreamOutHwVolumeHelper]: a value per channel.
    The bounds are constants of the interface, 32-bit floats. *)

Class GainAbi := { GAIN_MIN : spec_float; GAIN_MAX : spec_float }.

Section Gains.
Context `{!GainAbi}.

Record Gains := mkGains { mChannelCount : nat; mHwGains : list spec_float }.

(** [getHwGainImpl], [getHwVolumeImpl]. *)
Definition getHwGainImpl (g : Gains) : list spec_float * Gains :=
  let gains := if is_nil (mHwGains g) then replicate (mChannelCount g) (S754_zero false) else mHwGains g in
  (gains, mkGains (mChannelCount g) gains).

Definition gain_out_of_range (gain : spec_float) : bool := SFltb gain GAIN_MIN || SFltb GAIN_MAX gain.

(** [setHwGainImpl], [setHwVolumeImpl]. *)
Definition setHwGainImpl (in_channelGains : list spec_float) (g : Gains) : stream_status * Gains :=
  if negb (length in_channelGains =? mChannelCount g)%nat then (S_ILLEGAL_ARGUMENT, g)
  else if existsb gain_out_of_range in_channelGains then (S_ILLEGAL_ARGUMENT, g)
  else (S_OK, mkGains (mChannelCount g) in_channelGains).

Record gains_ok (g : Gains) : Prop := {
  gk_count : mHwGains g = [] \/ length (mHwGains g) = mChannelCount g;
  gk_range : Forall (fun x => gain_out_of_range x = false) (mHwGains g)
}.

(** Gains that were accepted are answered; a list that is refused changes nothing. *)
Lemma gain_set_get l g : (0 < mChannelCount g)%nat ->
  (setHwGainImpl l g = (S_OK, mkGains (mChannelCount g) l) /\ gains_ok (setHwGainImpl l g).2 /\
   (getHwGainImpl (setHwGainImpl l g).2).1 = l) \/
  setHwGainImpl l g = (S_ILLEGAL_ARGUMENT, g).
Proof.
  intros Hc. unfold setHwGainImpl. destruct (Nat.eqb_spec (length l) (mChannelCount g)) as [Hl|Hl]; cbn [negb]; [|by right].
  destruct (existsb gain_out_of_range l) eqn:He; [by right|]. left. split; [done|]. cbn.
  split; [split; cbn|by destruct l; [cbn in Hl; lia|]].
  - by right.
  - apply Forall_forall. intros x Hx. destruct (gain_out_of_range x) eqn:Hg; [|done].
    assert (existsb gain_out_of_range l = true) as Ht; [|congruence].
    apply existsb_exists. exists x. split; [by apply list_elem_of_In|done].
Qed.

(** Both comparisons are false for a NaN: it is accepted as a gain. *)
Lemma nan_gain_accepted g : mChannelCount g = 1%nat -> setHwGainImpl [S754_nan] g = (S_OK, mkGains 1 [S754_nan]).
Proof. intros Hc. unfold setHwGainImpl. rewrite Hc. unfold gain_out_of_range, SFltb. cbn. destruct GAIN_MAX; done. Qed.
End Gains.

(** ** Output and input streams *)

Record AudioOffloadMetadata := mkOffload { sampleRate : Z; averageBitRatePerSecond : Z; delayFrames : Z; paddingFrames : Z }.

Record OffloadState := mkOffloadState { os_closed : bool; has_offloadInfo : bool; mOffloadMetadata : option AudioOffloadMetadata }.

Definition updateOffloadMetadata (m : AudioOffloadMetadata) (s : OffloadState) : stream_status * OffloadState :=
  if os_closed s then (S_ILLEGAL_STATE, s)
  else if negb (has_offloadInfo s) then (S_UNSUPPORTED, s)
  else if sampleRate m <? 0 then (S_ILLEGAL_ARGUMENT, s)
  else if averageBitRatePerSecond m <? 0 then (S_ILLEGAL_ARGUMENT, s)
  else if delayFrames m <? 0 then (S_ILLEGAL_ARGUMENT, s)
  else if paddingFrames m <? 0 then (S_ILLEGAL_ARGUMENT, s)
  else (S_OK, mkOffloadState (os_closed s) (has_offloadInfo s) (Some m)).

(** [getActiveMicrophones]: the microphones of the connected devices. *)
Fixpoint getActiveMicrophones {Device : Type} (mics : Device -> option string) (devices : list Device) : list string :=
  match devices with
  | [] => []
  | d :: devices' => match mics d with Some i => i :: getActiveMicrophones mics devices' | None => getActiveMicrophones mics devices' end
  end.

(** [setWorkerThreadPriority]: the priority asked for, if any. *)
Definition kRTPriorityMin : Z := 1.
Definition kRTPriorityMax : Z := 3.

Definition worker_priority (input fast spatializer : bool) (spatializer_property : Z) : option Z :=
  if input || fast || spatializer then
    if negb input && spatializer then
      if (kRTPriorityMin <=? spatializer_property) && (spatializer_property <=? kRTPriorityMax)
      then Some spatializer_property else None
    else Some kRTPriorityMax
  else None.

(** ** The collection of streams

    A [multimap] in the order of its keys, those with equal keys in the order of
    insertion; a stream is named by a number, its state is in a store.  A stream
    that was destroyed is not in the store. *)
Section Streams.

Record StreamEntry := mkEntry { e_open : bool; e_devices : list Z; e_gain_ok : bool; e_bt_ok : bool }.

Definition isStreamOpen (store : gmap Z StreamEntry) (sw : Z) : bool :=
  match store !! sw with Some e => e_open e | None => false end.

(** [count] first erases the streams that are closed. *)
Definition streams_count (store : gmap Z StreamEntry) (id : Z) (l : list (Z * Z)) : nat * list (Z * Z) :=
  let l := filter (fun p => isStreamOpen store p.2 = true) l in
  (length (filter (fun p => p.1 = id) l), l).

Fixpoint multimap_insert (k v : Z) (l : list (Z * Z)) : list (Z * Z) :=
  match l with
  | [] => [(k, v)]
  | p :: l' => if p.1 <=? k then p :: multimap_insert k v l' else (k, v) :: p :: l'
  end.

Definition streams_insert (portId portConfigId sw : Z) (l : list (Z * Z)) : list (Z * Z) :=
  multimap_insert portId sw (multimap_insert portConfigId sw l).

Definition streams_find (id : Z) (l : list (Z * Z)) : option Z := snd <$> find (fun p => p.1 =? id) l.

Definition setStreamConnectedDevices (portConfigId : Z) (devices : list Z) (l : list (Z * Z)) (store : gmap Z StreamEntry)
    : gmap Z StreamEntry :=
  match streams_find portConfigId l with
  | Some sw => alter (fun e => mkEntry (e_open e) devices (e_gain_ok e) (e_bt_ok e)) sw store
  | None => store
  end.

(** Every entry is asked, so a stream is asked once for each of its two keys. *)
Definition bluetoothParametersUpdated (l : list (Z * Z)) (store : gmap Z StreamEntry) : stream_status :=
  if forallb (fun p => match store !! p.2 with Some e => e_bt_ok e | None => true end) l then S_OK else S_UNSUPPORTED.

Definition streams_setGain (portId : Z) (l : list (Z * Z)) (store : gmap Z StreamEntry) : stream_status :=
  match streams_find portId l with
  | Some sw => match store !! sw with Some e => if e_gain_ok e then S_OK else S_UNSUPPORTED | None => S_OK end
  | None => S_OK
  end.

(** The number of entries with a key. *)
Definition key_count (id : Z) (l : list (Z * Z)) : nat := length (filter (fun p => p.1 = id) l).

Lemma key_count_insert id k v l : key_count id (multimap_insert k v l) = (key_count id l + if decide (k = id) then 1 else 0)%nat.
Proof.
  unfold key_count. induction l as [|p l IH]; cbn [multimap_insert].
  - rewrite filter_cons, filter_nil. cbn [fst]. case_decide; done.
  - destruct (p.1 <=? k); rewrite !filter_cons; cbn [fst].
    + destruct (decide (p.1 = id)); cbn [length]; rewrite IH; lia.
    + destruct (decide (p.1 = id)), (decide (k = id)); cbn [length]; lia.
Qed.

Lemma key_count_closed store l id :
  (forall p, p ∈ l -> isStreamOpen store p.2 = true) -> streams_count store id l = (key_count id l, l).
Proof.
  intros Ho. unfold streams_count, key_count. replace (filter (fun p => isStreamOpen store p.2 = true) l) with l; [done|].
  induction l as [|p l IH]; [done|]. rewrite filter_cons, decide_True by (apply Ho, list_elem_of_here).
  f_equal. apply IH. intros q Hq. by apply Ho, list_elem_of_further.
Qed.

(** A stream counts once for its port and once for its port configuration. *)
Lemma streams_insert_count port config sw l id : port <> config ->
  key_count id (streams_insert port config sw l) =
  (key_count id l + if decide (id = port \/ id = config) then 1 else 0)%nat.
Proof.
  intros Hne. unfold streams_insert. rewrite !key_count_insert. destruct (decide (port = id)) as [->|], (decide (config = id)) as [->|]; case_decide; try lia; naive_solver.
Qed.
End Streams.

(** ** Witnesses *)

#[local] Existing Instances demo_stream_abi demo_driver demo_audio_laws.

Definition demo_stream (s : StreamState) (q : list Command) : @Stream Z Z :=
  mkStream (demo_world s DRAIN_NONE q []) false 0 [] false None.

Lemma close_completes_witness :
  exists s' h, close demo_context 3 false 2 (demo_stream ACTIVE [CPause]) = Some (S_OK, s') /\
    length (replyMQ (s_world s')) = 1%nat /\ history (s_world s') = h ++ [Driver DShutdown] /\
    s_closed_in s' = Some PAUSED.
Proof.
  destruct (close_completes demo_context 3 false (demo_stream ACTIVE [CPause])) as (s' & h & Hr & _ & Hn & Hh & _).
  - apply demo_worker_ok. cbn. lia.
  - done.
  - done.
  - done.
  - by repeat constructor.
  - split; [done|]. split; [done|cbn; lia].
  - exists s', h. split_and!; try done. vm_compute in Hr. by injection Hr as <-.
Defined.

(** Two commands, and the client reads nothing: two replies fill the queue. *)
Lemma unread_reply_hangs_close_witness :
  forall fuel, close demo_context 3 false fuel (mkStream (with_replies (demo_world ACTIVE DRAIN_NONE [CGetStatus] [])
    [default_reply; default_reply]) false 0 (@nil Z) false None) = None.
Proof.
  intros fuel. eapply (unread_reply_hangs_close demo_context 3 false); [split|..]; try done; cbn; try lia.
Defined.
