(* ===== verification/SubmixRoute.v ===== *)
(** * audio/default/r_submix: the remote submix

    A route connects the output streams of a device address with the input streams
    of the same address through a pipe.  Routes are shared objects, found through a
    static map; [StreamRemoteSubmix] is the driver ([DriverInterface]) of one
    stream and keeps a pointer to its route.  Routes, pipes and streams are named
    by numbers.

    The pipe ([MonoPipe], [MonoPipeReader] of libnbaio) is not part of the
    repository: its contents are the class [MonoPipeOps], whose answers are
    functions of all earlier accesses to pipes; whether it is shut down is a flag.
    Its two ends, [mSink] and [mSource], are set and cleared together.  Frames are
    counted, not copied.  [None] is a fatal error or undefined behaviour, and for
    [outWrite] also a loop that does not end.

    A call holds the lock only in its sections: calls are programs of sections
    ([Call]), a [System] interleaves those of all streams, and what is reachable
    there keeps its counts ([counted]).  That an open input end has a pipe holds
    only of calls that are not interrupted ([whole_calls_ok]). *)

From S2P Require Import Prelude.

Definition kDefaultSampleRateHz : Z := 48000.
Definition kDefaultPipePeriodCount : Z := 4.
Definition kDefaultPipeSizeInFrames : Z := 1024 * kDefaultPipePeriodCount.
Definition MICROS_PER_SECOND : Z := 1000000.
Definition kReadAttemptSleepUs : Z := 5000.

Record AudioConfig := mkAudio {
  ac_sampleRate : Z; ac_format : Z; ac_channelLayout : Z; ac_frameSize : Z; ac_frameCount : Z
}.

(** What is done with pipes, and the sleeps of a transfer. *)
Inductive pipe_event :=
  | PipeWrite (pipe frameCount : Z)
  | PipeRead (pipe frameCount : Z)
  | Sleep (us : Z).

Class MonoPipeOps := {
  (** [maxFrames] of a pipe of a size for a sample rate, a channel layout and a
      format, or [None] when the format has no legacy counterpart. *)
  pipe_maxFrames : Z -> Z -> Z -> Z -> option Z;
  availableToWrite : list pipe_event -> Z -> Z;
  availableToRead : list pipe_event -> Z -> Z;
  (** The frames written, or a negative error. *)
  pipe_write : list pipe_event -> Z -> Z -> Z;
  pipe_read : list pipe_event -> Z -> Z -> Z;
  NEGOTIATE : Z;
  submix_uptimeNanos : list pipe_event -> Z
}.

Record SubmixRoute := mkRoute {
  mPipeConfig : AudioConfig; mStreamInOpen : bool; mInputRefCount : Z; mStreamInStandby : bool;
  mStreamOutStandbyTransition : bool; mStreamOutOpen : bool; mStreamOutStandby : bool; mReadCounterFrames : Z;
  mPipe : option Z
}.

(** A stream; [ss_route]: [mCurrentRoute]. *)
Record SubmixStream := mkSubmixStream {
  mDeviceAddress : Z; ss_isInput : bool; mStreamConfig : AudioConfig; mCurrentRoute : option Z;
  mStartTimeNs : Z; mFramesSinceStart : Z
}.

(** The static map, the routes, the pipes with their shutdown flags, the streams
    that exist, and the next unused number. *)
Record Submix := mkSubmix {
  submixRoutes : gmap Z Z; route_objects : gmap Z SubmixRoute; pipe_shutdown : gmap Z bool;
  submix_streams : gmap Z SubmixStream; submix_next : Z; submix_history : list pipe_event
}.

Definition with_map (s : Submix) (m : gmap Z Z) : Submix :=
  mkSubmix m (route_objects s) (pipe_shutdown s) (submix_streams s) (submix_next s) (submix_history s).
Definition with_objects (s : Submix) (m : gmap Z SubmixRoute) : Submix :=
  mkSubmix (submixRoutes s) m (pipe_shutdown s) (submix_streams s) (submix_next s) (submix_history s).
Definition with_pipes (s : Submix) (m : gmap Z bool) : Submix :=
  mkSubmix (submixRoutes s) (route_objects s) m (submix_streams s) (submix_next s) (submix_history s).
Definition with_streams (s : Submix) (m : gmap Z SubmixStream) : Submix :=
  mkSubmix (submixRoutes s) (route_objects s) (pipe_shutdown s) m (submix_next s) (submix_history s).
Definition with_next (s : Submix) (n : Z) : Submix :=
  mkSubmix (submixRoutes s) (route_objects s) (pipe_shutdown s) (submix_streams s) n (submix_history s).
Definition with_event (s : Submix) (e : pipe_event) : Submix :=
  mkSubmix (submixRoutes s) (route_objects s) (pipe_shutdown s) (submix_streams s) (submix_next s) (submix_history s ++ [e]).

Definition route_flags (r : SubmixRoute) (in_open : bool) (refs : Z) (in_standby out_transition out_open out_standby : bool)
    (counter : Z) : SubmixRoute :=
  mkRoute (mPipeConfig r) in_open refs in_standby out_transition out_open out_standby counter (mPipe r).

Definition with_pipe (r : SubmixRoute) (cfg : AudioConfig) (p : option Z) : SubmixRoute :=
  mkRoute cfg (mStreamInOpen r) (mInputRefCount r) (mStreamInStandby r) (mStreamOutStandbyTransition r)
    (mStreamOutOpen r) (mStreamOutStandby r) (mReadCounterFrames r) p.

Definition new_route : SubmixRoute :=
  mkRoute (mkAudio kDefaultSampleRateHz 0 0 0 0) false 0 true false false true 0 None.

(** ** Calls in progress

    A call gives up the lock between its sections, and any other thread may run
    there.  [Locked n m]: the next section, which gives the rest of the call;
    [n] notes that it opens or closes the caller's end of a route.  What a
    thread does to its own stream, or with a pipe it holds, is a section too. *)
Inductive note := Quiet | Opens (isInput : bool) (r : Z) | Closes.

Inductive Call (A : Type) : Type :=
  | Returned (a : A)
  | Locked (n : note) (m : Submix -> option (Call A * Submix)).
Arguments Returned {A} a.
Arguments Locked {A} n m.

Fixpoint call_bind {A B} (k : A -> Call B) (c : Call A) : Call B :=
  match c with
  | Returned a => k a
  | Locked n m => Locked n (fun s => match m s with Some (c', s') => Some (call_bind k c', s') | None => None end)
  end.

#[global] Instance Call_ret : MRet Call := fun A a => Returned a.
#[global] Instance Call_bind : MBind Call := @call_bind.

Definition locked_as {A} (n : note) (m : St Submix A) : Call A := Locked n (a ← m; mret (Returned a)).
Definition locked {A} (m : St Submix A) : Call A := locked_as Quiet m.
Definition stuck {A} : Call A := Locked Quiet ub.

(** A call that is not interrupted. *)
Fixpoint call_run {A} (c : Call A) : St Submix A :=
  match c with
  | Returned a => mret a
  | Locked _ m => fun s => match m s with Some (c', s') => call_run c' s' | None => None end
  end.

Section Submix.
Context `{!MonoPipeOps}.

(** ** Routes *)

(** The route a pointer refers to. *)
Definition route_of (r : Z) : St Submix SubmixRoute := s ← gets route_objects; of_option (s !! r).
Definition set_route (r : Z) (f : SubmixRoute -> SubmixRoute) : St Submix unit :=
  modify (fun s => with_objects s (alter f r (route_objects s))).

Definition set_shutdown (p : Z) (b : bool) : St Submix unit :=
  modify (fun s => with_pipes s (<[p := b]> (pipe_shutdown s))).
Definition isShutdown (p : Z) : St Submix bool := gets (fun s => default false (pipe_shutdown s !! p)).

(** What a stream asks of a route, one section under [mLock] each. *)
Definition isStreamInOpen (r : Z) : St Submix bool := x ← route_of r; mret (mStreamInOpen x).
Definition isStreamOutOpen (r : Z) : St Submix bool := x ← route_of r; mret (mStreamOutOpen x).
Definition hasAtleastOneStreamOpen (r : Z) : St Submix bool := x ← route_of r; mret (mStreamInOpen x || mStreamOutOpen x).
Definition getPipeConfig (r : Z) : St Submix AudioConfig := x ← route_of r; mret (mPipeConfig x).
(** [getSink] and [getSource]: the two ends of the pipe of the moment. *)
Definition getSink (r : Z) : St Submix (option Z) := x ← route_of r; mret (mPipe x).
Definition getSource (r : Z) : St Submix (option Z) := x ← route_of r; mret (mPipe x).

Definition isStreamConfigCompatible (r : Z) (cfg : AudioConfig) : St Submix bool :=
  x ← route_of r;
  mret ((ac_channelLayout cfg =? ac_channelLayout (mPipeConfig x)) && (ac_sampleRate cfg =? ac_sampleRate (mPipeConfig x)) &&
    (ac_format cfg =? ac_format (mPipeConfig x))).

Definition shouldBlockWrite (r : Z) : St Submix bool :=
  x ← route_of r; mret (mStreamInOpen x && (negb (mStreamInStandby x) || (mReadCounterFrames x =? 0))).

Definition updateReadCounterFrames (r : Z) (frameCount : Z) : St Submix unit :=
  set_route r (fun x => route_flags x (mStreamInOpen x) (mInputRefCount x) (mStreamInStandby x)
    (mStreamOutStandbyTransition x) (mStreamOutOpen x) (mStreamOutStandby x) (mReadCounterFrames x + frameCount)).

Definition openStream (r : Z) (isInput : bool) : St Submix unit :=
  x ← route_of r;
  if isInput then
    set_route r (fun x => route_flags x true (if mStreamInOpen x then mInputRefCount x + 1 else 1) true
      (mStreamOutStandbyTransition x) (mStreamOutOpen x) (mStreamOutStandby x) 0) ;;
    match mPipe x with Some p => set_shutdown p false | None => mret tt end
  else
    set_route r (fun x => route_flags x (mStreamInOpen x) (mInputRefCount x) (mStreamInStandby x)
      (mStreamOutStandbyTransition x) true (mStreamOutStandby x) (mReadCounterFrames x)).

Definition closeStream (r : Z) (isInput : bool) : St Submix unit :=
  x ← route_of r;
  if isInput then
    let refs := mInputRefCount x - 1 in
    set_route r (fun x => route_flags x (if refs =? 0 then false else mStreamInOpen x) refs (mStreamInStandby x)
      (mStreamOutStandbyTransition x) (mStreamOutOpen x) (mStreamOutStandby x) (mReadCounterFrames x)) ;;
    match mPipe x with Some p => if refs =? 0 then set_shutdown p true else mret tt | None => mret tt end
  else
    set_route r (fun x => route_flags x (mStreamInOpen x) (mInputRefCount x) (mStreamInStandby x)
      (mStreamOutStandbyTransition x) false (mStreamOutStandby x) (mReadCounterFrames x)).

Definition pipeSizeInFrames (cfg : AudioConfig) : option Z :=
  size ← SF_trunc (Binary32.mul (Binary32.of_Z kDefaultPipeSizeInFrames)
    (Binary32.div (Binary32.of_Z (ac_sampleRate cfg)) (Binary32.of_Z kDefaultSampleRateHz)));
  checked_u 64 size.

(** [false]: the format could not be converted. *)
Definition createPipe (r : Z) (cfg : AudioConfig) : St Submix bool :=
  size ← of_option (pipeSizeInFrames cfg);
  match pipe_maxFrames size (ac_sampleRate cfg) (ac_channelLayout cfg) (ac_format cfg) with
  | None => mret false
  | Some frames =>
      p ← gets submix_next;
      modify (fun s => with_next s (p + 1)) ;;
      set_shutdown p false ;;
      set_route r (fun x => with_pipe x
        (mkAudio (ac_sampleRate cfg) (ac_format cfg) (ac_channelLayout cfg) (ac_frameSize cfg) frames) (Some p)) ;;
      mret true
  end.

Definition releasePipe (r : Z) : St Submix AudioConfig :=
  x ← route_of r; set_route r (fun x => with_pipe x (mPipeConfig x) None) ;; mret (mPipeConfig x).

Definition route_standby (r : Z) (isInput : bool) : St Submix unit :=
  set_route r (fun x =>
    if isInput then route_flags x (mStreamInOpen x) (mInputRefCount x) true (mStreamOutStandbyTransition x)
                      (mStreamOutOpen x) (mStreamOutStandby x) (mReadCounterFrames x)
    else if negb (mStreamOutStandby x) then route_flags x (mStreamInOpen x) (mInputRefCount x) (mStreamInStandby x) true
                      (mStreamOutOpen x) true (mReadCounterFrames x)
    else x).

Definition exitStandby (r : Z) (isInput : bool) : St Submix unit :=
  set_route r (fun x =>
    if isInput then
      if mStreamInStandby x || mStreamOutStandbyTransition x
      then route_flags x (mStreamInOpen x) (mInputRefCount x) false false (mStreamOutOpen x) (mStreamOutStandby x) 0
      else x
    else if mStreamOutStandby x then route_flags x (mStreamInOpen x) (mInputRefCount x) (mStreamInStandby x) true
                      (mStreamOutOpen x) false (mReadCounterFrames x)
    else x).

Definition findRoute (addr : Z) : St Submix (option Z) := gets (fun s => submixRoutes s !! addr).

Definition findOrCreateRoute (addr : Z) (cfg : AudioConfig) : St Submix (option Z) :=
  found ← findRoute addr;
  match found with
  | Some r => mret (Some r)
  | None =>
      r ← gets submix_next;
      modify (fun s => with_next (with_objects s (<[r := new_route]> (route_objects s))) (r + 1)) ;;
      ok ← createPipe r cfg;
      if ok : bool then modify (fun s => with_map s (<[addr := r]> (submixRoutes s))) ;; mret (Some r)
      else mret None
  end.

Definition removeRoute (addr : Z) : St Submix unit := modify (fun s => with_map s (delete addr (submixRoutes s))).

(** ** Calls of a stream, section by section *)

Definition stream_of (sid : Z) : St Submix SubmixStream := m ← gets submix_streams; of_option (m !! sid).
Definition set_stream (sid : Z) (f : SubmixStream -> SubmixStream) : St Submix unit :=
  modify (fun s => with_streams s (alter f sid (submix_streams s))).

Definition with_route (x : SubmixStream) (r : option Z) : SubmixStream :=
  mkSubmixStream (mDeviceAddress x) (ss_isInput x) (mStreamConfig x) r (mStartTimeNs x) (mFramesSinceStart x).
Definition with_time (x : SubmixStream) (t n : Z) : SubmixStream :=
  mkSubmixStream (mDeviceAddress x) (ss_isInput x) (mStreamConfig x) (mCurrentRoute x) t n.

Definition current_route (sid : Z) : St Submix Z := x ← stream_of sid; of_option (mCurrentRoute x).

(** [isStreamConfigValid]: up to three sections. *)
Definition isStreamConfigValid (r : Z) (isInput : bool) (cfg : AudioConfig) : Call bool :=
  out_open ← (if isInput then mret false else locked (isStreamOutOpen r));
  if out_open : bool then mret false
  else
    any ← locked (hasAtleastOneStreamOpen r);
    if any : bool then locked (isStreamConfigCompatible r cfg) else mret true.

Definition resetPipe (r : Z) : Call bool := cfg ← locked (releasePipe r); locked (createPipe r cfg).

(** [init]; the stream gets its route first. *)
Definition submix_init (sid : Z) : Call bool :=
  x ← locked (stream_of sid);
  found ← locked (found ← findOrCreateRoute (mDeviceAddress x) (mStreamConfig x);
                  set_stream sid (fun x => with_route x found) ;; mret found);
  match found with
  | None => mret false
  | Some r =>
      valid ← isStreamConfigValid r (ss_isInput x) (mStreamConfig x);
      if negb valid then mret false
      else
        sink ← locked (getSink r);
        match sink with
        | None => mret false
        | Some sink =>
            ask ← (if ss_isInput x then locked (isStreamInOpen r) else mret true);
            down ← (if ask : bool then locked (isShutdown sink) else mret false);
            ok ← (if down : bool then resetPipe r else mret true);
            if negb ok then mret false
            else locked_as (Opens (ss_isInput x) r) (openStream r (ss_isInput x)) ;; mret true
        end
  end.

Definition submix_standby (sid : Z) : Call unit :=
  locked (x ← stream_of sid; r ← current_route sid; route_standby r (ss_isInput x)).

Definition submix_flush (sid : Z) : Call unit :=
  x ← locked (stream_of sid); if ss_isInput x then submix_standby sid else mret tt.

Definition submix_start (sid : Z) : Call unit :=
  locked (x ← stream_of sid; r ← current_route sid; exitStandby r (ss_isInput x)) ;;
  t ← locked (gets (fun s => submix_uptimeNanos (submix_history s)));
  locked (set_stream sid (fun x => with_time x t 0)).

(** [prepareToClose]; a null sink is logged, and then dereferenced. *)
Definition submix_prepareToClose (sid : Z) : Call unit :=
  x ← locked (stream_of sid);
  if ss_isInput x then mret tt
  else
    found ← locked (findRoute (mDeviceAddress x));
    match found with
    | Some r =>
        sink ← locked (getSink r);
        locked (sink ← of_option sink; set_shutdown sink true) ;;
        locked (closeStream r false)
    | None => mret tt
    end.

Definition submix_shutdown (sid : Z) : Call unit :=
  x ← locked (stream_of sid);
  r ← locked (current_route sid);
  locked_as Closes (closeStream r (ss_isInput x)) ;;
  any ← locked (hasAtleastOneStreamOpen r);
  (if any : bool then mret tt else locked (releasePipe r) ;; locked (removeRoute (mDeviceAddress x))) ;;
  locked (set_stream sid (fun x => with_route x None)).

Definition getDelayInUsForFrameCount (x : SubmixStream) (frameCount : Z) : option Z :=
  if ac_sampleRate (mStreamConfig x) =? 0 then None else Some (frameCount * MICROS_PER_SECOND ÷ ac_sampleRate (mStreamConfig x)).

Definition getStreamPipeSizeInFrames (x : SubmixStream) (pipeConfig : AudioConfig) : option Z :=
  let maxFrameSize := Z.max (ac_frameSize (mStreamConfig x)) (ac_frameSize pipeConfig) in
  if maxFrameSize =? 0 then None
  else Some (ac_frameCount pipeConfig * ac_frameSize pipeConfig / maxFrameSize).

Definition read_pipe (p n : Z) : St Submix Z :=
  got ← gets (fun s => pipe_read (submix_history s) p n); modify (fun s => with_event s (PipeRead p n)) ;; mret got.

Definition write_pipe (p n : Z) : St Submix Z :=
  got ← gets (fun s => pipe_write (submix_history s) p n); modify (fun s => with_event s (PipeWrite p n)) ;; mret got.

(** The loop that makes room in the pipe: 64 bytes at a time; [None]: a source
    that is not there. *)
Definition kFlushBufferSize : Z := 64.

Fixpoint flush_loop (fuel : nat) (source : option Z) (framesToFlush flushBufferSizeFrames : Z) : Call unit :=
  if framesToFlush =? 0 then mret tt
  else
    match fuel with
    | O => stuck
    | S fuel' =>
        let flushSize := Z.min framesToFlush flushBufferSizeFrames in
        locked (p ← of_option source; read_pipe p flushSize) ;;
        flush_loop fuel' source (framesToFlush - flushSize) flushBufferSizeFrames
    end.

Inductive write_status := W_OK | W_DEAD_OBJECT | W_UNKNOWN_ERROR.

(** [outWrite]: the status and [actualFrameCount].  [fuel] bounds the flushing. *)
Definition outWrite (fuel : nat) (sid frameCount : Z) : Call (write_status * Z) :=
  x ← locked (stream_of sid);
  sink ← locked (r ← current_route sid; getSink r);
  sink ← locked (of_option sink);
  down ← locked (isShutdown sink);
  if down : bool then mret (W_DEAD_OBJECT, frameCount)
  else
    block ← locked (r ← current_route sid; shouldBlockWrite r);
    available ← locked (gets (fun s => availableToWrite (submix_history s) sink));
    source ← locked (r ← current_route sid; getSource r);
    (if negb block && (available <? frameCount) then
       if ac_frameSize (mStreamConfig x) =? 0 then stuck
       else flush_loop fuel source (frameCount - available) (kFlushBufferSize / ac_frameSize (mStreamConfig x))
     else mret tt) ;;
    available ← locked (gets (fun s => availableToWrite (submix_history s) sink));
    let n := if negb block && (available <? frameCount) then available else frameCount in
    written ← locked (write_pipe sink n);
    if written <? 0 then
      if written =? NEGOTIATE then mret (W_UNKNOWN_ERROR, 0)
      else
        written ← locked (write_pipe sink n);
        mret (if written <? 0 then (W_UNKNOWN_ERROR, 0) else (W_OK, written))
    else mret (W_OK, written).

(** The reading loop of [inRead]: [remaining] frames until the deadline; [fuel]
    bounds the attempts.  The frames that are missing stay silent. *)
Fixpoint read_loop (fuel : nat) (p remaining deadline : Z) : Call unit :=
  if remaining <=? 0 then mret tt
  else
    match fuel with
    | O => stuck
    | S fuel' =>
        got ← locked (read_pipe p remaining);
        let remaining := if 0 <? got then remaining - got else remaining in
        now ← locked (gets (fun s => submix_uptimeNanos (submix_history s)));
        if deadline <=? now then mret tt
        else
          (if got <=? 0 then locked (modify (fun s => with_event s (Sleep kReadAttemptSleepUs))) else mret tt) ;;
          read_loop fuel' p remaining deadline
    end.

Definition inRead (fuel : nat) (sid frameCount : Z) : Call Z :=
  x ← locked (stream_of sid);
  source ← locked (r ← current_route sid; getSource r);
  match source with
  | None => mret frameCount
  | Some p =>
      sink ← locked (r ← current_route sid; getSink r);
      match sink with
      | None => mret frameCount
      | Some _ =>
          delay ← locked (of_option (getDelayInUsForFrameCount x frameCount));
          now ← locked (gets (fun s => submix_uptimeNanos (submix_history s)));
          read_loop fuel p frameCount (now + Z.max 0 (delay - kReadAttemptSleepUs) * 1000) ;;
          locked (r ← current_route sid; updateReadCounterFrames r frameCount) ;;
          mret frameCount
      end
  end.

(** The time a transfer still sleeps. *)
Definition transfer_sleep (x : SubmixStream) (actual now : Z) : option Z :=
  let rate := ac_sampleRate (mStreamConfig x) in
  if rate =? 0 then None
  else
    let offset := mFramesSinceStart x * MICROS_PER_SECOND ÷ rate - (now - mStartTimeNs x) ÷ 1000 in
    Some (if 0 <? offset then Z.min offset (actual * MICROS_PER_SECOND ÷ rate) else 0).

(** [transfer]: success, [actualFrameCount] and [latencyMs]. *)
Definition submix_transfer (fuel : nat) (sid frameCount : Z) : Call (bool * Z * Z) :=
  x ← locked (stream_of sid);
  pipeConfig ← locked (r ← current_route sid; getPipeConfig r);
  latency ← locked (size ← of_option (getStreamPipeSizeInFrames x pipeConfig); of_option (getDelayInUsForFrameCount x size));
  locked (r ← current_route sid; exitStandby r (ss_isInput x)) ;;
  res ← (if ss_isInput x then n ← inRead fuel sid frameCount; mret (W_OK, n) else outWrite fuel sid frameCount);
  let '(status, actual) := res in
  match status with
  | W_UNKNOWN_ERROR => mret (false, actual, latency ÷ 1000)
  | _ =>
      locked (set_stream sid (fun x => with_time x (mStartTimeNs x) (mFramesSinceStart x + actual))) ;;
      match status, ss_isInput x with
      | W_OK, false => mret (true, actual, latency ÷ 1000)
      | _, _ =>
          x ← locked (stream_of sid);
          now ← locked (gets (fun s => submix_uptimeNanos (submix_history s)));
          us ← locked (of_option (transfer_sleep x actual now));
          (if 0 <? us then locked (modify (fun s => with_event s (Sleep us))) else mret tt) ;;
          mret (true, actual, latency ÷ 1000)
      end
  end.

(** [refinePosition]: the frames, or [None] for [NO_INIT]. *)
Definition submix_refinePosition (sid frames : Z) : Call (option Z) :=
  x ← locked (stream_of sid);
  source ← locked (r ← current_route sid; getSource r);
  match source with
  | None => mret None
  | Some p =>
      n ← locked (gets (fun s => availableToRead (submix_history s) p));
      mret (Some (if n <=? 0 then frames
                  else if ss_isInput x then frames + n
                  else if n <=? frames then frames - n else frames))
  end.

(** ** Calls one at a time *)

Inductive submix_op :=
  | OpOpen (sid addr : Z) (isInput : bool) (cfg : AudioConfig)
  | OpPrepareToClose (sid : Z) | OpShutdown (sid : Z) | OpStandby (sid : Z) | OpStart (sid : Z)
  | OpTransfer (fuel : nat) (sid frameCount : Z).

Definition new_stream (sid addr : Z) (isInput : bool) (cfg : AudioConfig) (s : Submix) : Submix :=
  with_streams s (<[sid := mkSubmixStream addr isInput cfg None 0 0]> (submix_streams s)).
Definition drop_stream (sid : Z) (s : Submix) : Submix := with_streams s (delete sid (submix_streams s)).

(** A new stream, with its driver initialised; it is gone if that fails. *)
Definition open_stream (sid addr : Z) (isInput : bool) (cfg : AudioConfig) : St Submix bool :=
  modify (new_stream sid addr isInput cfg) ;;
  ok ← call_run (submix_init sid);
  (if ok : bool then mret tt else modify (drop_stream sid)) ;;
  mret ok.

Definition run_op (op : submix_op) : St Submix unit :=
  match op with
  | OpOpen sid addr isInput cfg =>
      taken ← gets (fun s => bool_decide (is_Some (submix_streams s !! sid)));
      if taken : bool then mret tt else open_stream sid addr isInput cfg ;; mret tt
  | OpPrepareToClose sid => call_run (submix_prepareToClose sid)
  | OpShutdown sid => call_run (submix_shutdown sid) ;; modify (drop_stream sid)
  | OpStandby sid => call_run (submix_standby sid)
  | OpStart sid => call_run (submix_start sid)
  | OpTransfer fuel sid n => call_run (submix_transfer fuel sid n) ;; mret tt
  end.

Definition submix_empty : Submix := mkSubmix ∅ ∅ ∅ ∅ 0 [].

Inductive submix_step : Submix -> Submix -> Prop :=
  | SubmixStep op s s' : run_op op s = Some (tt, s') -> submix_step s s'.

(** ** Interleaved calls

    The worker thread of a stream runs its driver's calls one after the other,
    [shutdown] last; the client's thread calls [prepareToClose] meanwhile.  A
    thread may be interrupted after every section of its call.  [opened] keeps,
    from the notes of the sections, which streams have opened their end of which
    route and not closed it yet. *)
Record System := mkSystem {
  sys_submix : Submix; workers : gmap Z (option (Call bool)); closers : list (Call unit);
  opened : gmap Z (bool * option Z)
}.

Definition noted (sid : Z) (n : note) (m : gmap Z (bool * option Z)) : gmap Z (bool * option Z) :=
  match n with Quiet => m | Opens isInput r => <[sid := (isInput, Some r)]> m | Closes => delete sid m end.

Inductive worker_call :=
  | CallStandby | CallFlush | CallStart | CallTransfer (fuel : nat) (frameCount : Z) | CallRefine (frames : Z)
  | CallShutdown.

(** A call of the worker of [sid]; [false]: the stream is gone afterwards. *)
Definition worker_calls (sid : Z) (c : worker_call) : Call bool :=
  match c with
  | CallStandby => submix_standby sid ;; mret true
  | CallFlush => submix_flush sid ;; mret true
  | CallStart => submix_start sid ;; mret true
  | CallTransfer fuel n => submix_transfer fuel sid n ;; mret true
  | CallRefine n => submix_refinePosition sid n ;; mret true
  | CallShutdown => submix_shutdown sid ;; mret false
  end.

Inductive sys_op :=
  | NewStream (sid addr : Z) (isInput : bool) (cfg : AudioConfig)
  | StartCall (sid : Z) (c : worker_call) | PrepareToClose (sid : Z)
  | WorkerStep (sid : Z) | CloserStep (i : nat).

(** One step of a thread, [None] when it cannot be taken: its section is
    undefined, or there is no such thread. *)
Definition sys_do (op : sys_op) (y : System) : option System :=
  match op with
  | NewStream sid addr isInput cfg =>
      match workers y !! sid with
      | Some _ => None
      | None => Some (mkSystem (new_stream sid addr isInput cfg (sys_submix y)) (<[sid := Some (submix_init sid)]> (workers y))
                        (closers y) (opened y))
      end
  | StartCall sid c =>
      match workers y !! sid with
      | Some None => Some (mkSystem (sys_submix y) (<[sid := Some (worker_calls sid c)]> (workers y)) (closers y) (opened y))
      | _ => None
      end
  | PrepareToClose sid =>
      match workers y !! sid with
      | Some _ => Some (mkSystem (sys_submix y) (workers y) (closers y ++ [submix_prepareToClose sid]) (opened y))
      | None => None
      end
  | WorkerStep sid =>
      match workers y !! sid with
      | Some (Some (Returned keep)) =>
          Some (if keep : bool then mkSystem (sys_submix y) (<[sid := None]> (workers y)) (closers y) (opened y)
                else mkSystem (drop_stream sid (sys_submix y)) (delete sid (workers y)) (closers y) (opened y))
      | Some (Some (Locked n m)) =>
          '(c, s) ← m (sys_submix y);
          Some (mkSystem s (<[sid := Some c]> (workers y)) (closers y) (noted sid n (opened y)))
      | _ => None
      end
  | CloserStep i =>
      match closers y !! i with
      | Some (Locked _ m) => '(c, s) ← m (sys_submix y); Some (mkSystem s (workers y) (<[i := c]> (closers y)) (opened y))
      | _ => None
      end
  end.

Definition sys_step (y y' : System) : Prop := exists op, sys_do op y = Some y'.

Definition sys_empty : System := mkSystem submix_empty ∅ [] ∅.

(** A schedule; steps that cannot be taken are passed over. *)
Definition sys_run (ops : list sys_op) (y : System) : System := fold_left (fun y op => default y (sys_do op y)) ops y.
End Submix.

(** ** The routes in every reachable state *)

Section Invariant.
Context `{!MonoPipeOps}.

(** What is said of pipes holds when no call is interrupted. *)
Variable whole : Prop.

(** The direction and the route of every stream. *)
Definition links (s : Submix) : gmap Z (bool * option Z) :=
  (fun x => (ss_isInput x, mCurrentRoute x)) <$> submix_streams s.

(** The input streams on a route. *)
Definition inputs (r : Z) (lk : gmap Z (bool * option Z)) : nat := size (filter (fun p => p.2 = (true, Some r)) lk).

Definition convertible (cfg : AudioConfig) : Prop :=
  exists size frames, pipeSizeInFrames cfg = Some size /\
    pipe_maxFrames size (ac_sampleRate cfg) (ac_channelLayout cfg) (ac_format cfg) = Some frames.

Record route_ok (lk : gmap Z (bool * option Z)) (r : Z) (x : SubmixRoute) : Prop := {
  ro_refs : mInputRefCount x = Z.of_nat (inputs r lk);
  ro_open : mStreamInOpen x = bool_decide (0 < inputs r lk)%nat;
  ro_pipe : whole -> mStreamInOpen x = true -> is_Some (mPipe x);
  ro_convertible : whole -> is_Some (mPipe x) -> convertible (mPipeConfig x)
}.

Record routes_ok (lk : gmap Z (bool * option Z)) (s : Submix) : Prop := {
  rs_routes : forall r x, route_objects s !! r = Some x -> route_ok lk r x;
  rs_links : forall sid b o, lk !! sid = Some (b, o) -> exists r, o = Some r /\ is_Some (route_objects s !! r);
  rs_map : forall addr r, submixRoutes s !! addr = Some r -> is_Some (route_objects s !! r);
  rs_next : forall r, is_Some (route_objects s !! r) -> r < submix_next s
}.

Definition submix_ok (s : Submix) : Prop := routes_ok (links s) s.

(** Uninterrupted calls, their sections one after the other. *)
Lemma call_run_bind {A B} (c : Call A) (k : A -> Call B) s : call_run (c ≫= k) s = (call_run c ≫= fun a => call_run (k a)) s.
Proof.
  revert c s. fix IH 1. intros [a|n m] s; [done|]. cbn. unfold mbind, St_bind. cbn.
  destruct (m s) as [[c' s']|]; [apply IH|done].
Qed.

Lemma call_run_locked {A} n (m : St Submix A) s : call_run (locked_as n m) s = m s.
Proof. unfold locked_as. cbn. unfold mbind, St_bind. by destruct (m s) as [[a s']|]. Qed.

Lemma call_bind_inv {A B} (c : Call A) (k : A -> Call B) s b s' :
  call_run (c ≫= k) s = Some (b, s') -> exists a s1, call_run c s = Some (a, s1) /\ call_run (k a) s1 = Some (b, s').
Proof. rewrite call_run_bind. apply st_bind_inv. Qed.

Lemma locked_inv {A B} n (m : St Submix A) (k : A -> Call B) s b s' :
  call_run (locked_as n m ≫= k) s = Some (b, s') -> exists a s1, m s = Some (a, s1) /\ call_run (k a) s1 = Some (b, s').
Proof. intros (a & s1 & Hm & Hk)%call_bind_inv. rewrite call_run_locked in Hm. eauto. Qed.

(** [keeps m]: the routes stay well formed, and the links as they are. *)
Definition keeps {A} (m : St Submix A) : Prop :=
  forall s a s', m s = Some (a, s') -> links s' = links s /\ forall lk, routes_ok lk s -> routes_ok lk s'.

Lemma keeps_links_bind {A B} (m : St Submix A) (k : A -> St Submix B) : keeps m -> (forall a, keeps (k a)) -> keeps (m ≫= k).
Proof.
  intros Hm Hk s b s' Hr. unfold mbind, St_bind in Hr. destruct (m s) as [[a s1]|] eqn:E; [|done].
  destruct (Hm _ _ _ E) as [Hl1 H1'], (Hk _ _ _ _ Hr) as [Hl2 H2']. split; [congruence|auto].
Qed.

Lemma keeps_same {A} (m : St Submix A) : (forall s a s', m s = Some (a, s') -> s' = s) -> keeps m.
Proof. intros Hm s a s' Hr. by rewrite (Hm _ _ _ Hr). Qed.

Lemma keeps_links_ret {A} (a : A) : keeps (mret a).
Proof. apply keeps_same. by intros s b s' [= _ ->]. Qed.
Lemma keeps_links_gets {A} (f : Submix -> A) : keeps (gets f).
Proof. apply keeps_same. by intros s b s' [= _ ->]. Qed.
Lemma keeps_links_of_option {A} (o : option A) : keeps (of_option o).
Proof. apply keeps_same. intros s b s' Hr. unfold of_option in Hr. destruct o; [|done]. by injection Hr as _ ->. Qed.
Lemma keeps_ub {A} : keeps (ub : St Submix A).
Proof. by intros s a s' Hr. Qed.

(** Changes of what the invariant does not mention. *)
Lemma keeps_modify f :
  (forall s, submixRoutes (f s) = submixRoutes s /\ route_objects (f s) = route_objects s /\ links (f s) = links s /\
     submix_next (f s) = submix_next s) -> keeps (modify f).
Proof.
  intros Hf s [] s' [= <-]. destruct (Hf s) as (H1 & H2 & H3 & H4). split; [done|].
  intros lk [Hr Hl Hm Hn]. split; by rewrite ?H1, ?H2, ?H4.
Qed.

Lemma keeps_shutdown p b : keeps (set_shutdown p b).
Proof. by apply keeps_modify. Qed.
Lemma keeps_event e : keeps (modify (fun s => with_event s e)).
Proof. by apply keeps_modify. Qed.

Lemma keeps_set_stream sid f :
  (forall x, ss_isInput (f x) = ss_isInput x /\ mCurrentRoute (f x) = mCurrentRoute x) -> keeps (set_stream sid f).
Proof.
  intros Hf. apply keeps_modify. intros s. split_and!; try done. unfold links. cbn.
  apply map_eq. intros k. rewrite !lookup_fmap. destruct (decide (k = sid)) as [->|Hne];
    [rewrite lookup_alter_eq|by rewrite lookup_alter_ne].
  destruct (submix_streams s !! sid) as [x|]; [|done]. cbn. by destruct (Hf x) as [-> ->].
Qed.

Lemma alter_dom (s : Submix) r f k : is_Some (alter f r (route_objects s) !! k) <-> is_Some (route_objects s !! k).
Proof. destruct (decide (k = r)) as [->|Hne]; [rewrite lookup_alter_eq; apply fmap_is_Some|by rewrite lookup_alter_ne]. Qed.

(** A change of a route that its invariant allows, whatever the links. *)
Lemma routes_ok_alter lk s r f :
  (forall x, route_objects s !! r = Some x -> route_ok lk r x -> route_ok lk r (f x)) ->
  routes_ok lk s -> routes_ok lk (with_objects s (alter f r (route_objects s))).
Proof.
  intros Hf [Hr Hl Hm Hn].
  pose proof (alter_dom s r f) as Hdom.
  split; cbn.
  - intros k x. destruct (decide (k = r)) as [->|Hne]; [|rewrite lookup_alter_ne by done; apply Hr].
    rewrite lookup_alter_eq. intros (y & Hy & ->)%fmap_Some_1. by apply Hf, Hr.
  - intros sid b o Ho. destruct (Hl sid b o Ho) as (k & -> & Hk). exists k. by rewrite Hdom.
  - intros addr k Hk. apply Hdom. by eapply Hm.
  - intros k Hk%Hdom. by apply Hn.
Qed.

(** The same when a link of that route alone goes. *)
Lemma routes_ok_alter_only lk lk' s r f :
  routes_ok lk s -> (forall k, k <> r -> inputs k lk = inputs k lk') ->
  (forall sid b o, lk' !! sid = Some (b, o) -> lk !! sid = Some (b, o)) ->
  (forall x, route_objects s !! r = Some x -> route_ok lk' r (f x)) ->
  routes_ok lk' (with_objects s (alter f r (route_objects s))).
Proof.
  intros [Hr Hl Hm Hn] Hin Hsub Hf. pose proof (alter_dom s r f) as Hdom. split; cbn.
  - intros k x. destruct (decide (k = r)) as [->|Hne].
    + rewrite lookup_alter_eq. intros (y & Hy & ->)%fmap_Some_1. by apply Hf.
    + rewrite lookup_alter_ne by done. intros Hk. destruct (Hr k x Hk) as [Ha Hb Hc Hd].
      split; rewrite <- ?(Hin k Hne); done.
  - intros sid b o Ho%Hsub. destruct (Hl sid b o Ho) as (k & -> & Hk). exists k. by rewrite Hdom.
  - intros addr k Hk. apply Hdom. by eapply Hm.
  - intros k Hk%Hdom. by apply Hn.
Qed.

Lemma keeps_route r f :
  (forall x, mInputRefCount (f x) = mInputRefCount x /\ mStreamInOpen (f x) = mStreamInOpen x /\
     mPipe (f x) = mPipe x /\ mPipeConfig (f x) = mPipeConfig x) -> keeps (set_route r f).
Proof.
  intros Hf s [] s' [= <-]. split; [done|]. intros lk. apply routes_ok_alter. intros x _ [H1 H2 H3 H4].
  destruct (Hf x) as (Hf1 & Hf2 & Hf3 & Hf4). split; rewrite ?Hf1, ?Hf2, ?Hf3, ?Hf4; done.
Qed.

(** [quiet c]: a call of such sections only, that opens and closes nothing. *)
Fixpoint quiet {A} (c : Call A) : Prop :=
  match c with
  | Returned _ => True
  | Locked n m => n = Quiet /\ forall s, match m s with
      | Some (c', s') => (links s' = links s /\ forall lk, routes_ok lk s -> routes_ok lk s') /\ quiet c'
      | None => True
      end
  end.

Lemma quiet_bind {A B} (c : Call A) (k : A -> Call B) : quiet c -> (forall a, quiet (k a)) -> quiet (c ≫= k).
Proof.
  intros Hc Hk. revert c Hc. fix IH 1. intros [a|n m] Hc; [apply Hk|]. destruct Hc as [-> Hc]. split; [done|].
  intros s. specialize (Hc s). destruct (m s) as [[c' s']|]; [|done]. destruct Hc as [H1 H2]. split; [done|by apply IH].
Qed.

Lemma quiet_locked {A} (m : St Submix A) : keeps m -> quiet (locked m).
Proof.
  intros Hm. split; [done|]. intros s. unfold mbind, St_bind. destruct (m s) as [[a s']|] eqn:E; [|done]. cbn.
  split; [by apply (Hm s a s')|done].
Qed.

Lemma quiet_stuck {A} : quiet (stuck : Call A).
Proof. done. Qed.

(** Run alone, such a call keeps the routes too. *)
Lemma quiet_keeps {A} (c : Call A) : quiet c -> keeps (call_run c).
Proof.
  revert c. fix IH 1. intros [a|n m] Hc s b s' Hr; [injection Hr as _ <-; by split|]. cbn in Hr. destruct Hc as [-> Hc]. specialize (Hc s).
  destruct (m s) as [[c' s1]|]; [|done]. destruct Hc as [[Hl1 H1] H2]. destruct (IH c' H2 _ _ _ Hr) as [Hl2 H3].
  split; [congruence|auto].
Qed.

Ltac keep :=
  repeat match goal with
  | |- forall _, _ => intros
  | |- keeps (_ ≫= _) => apply keeps_links_bind
  | |- keeps (mret _) => apply keeps_links_ret
  | |- keeps (gets _) => apply keeps_links_gets
  | |- keeps (of_option _) => apply keeps_links_of_option
  | |- keeps ub => apply keeps_ub
  | |- keeps (set_shutdown _ _) => apply keeps_shutdown
  | |- keeps (modify (fun s => with_event s _)) => apply keeps_event
  | |- keeps (set_route _ _) => apply keeps_route; intros ?; cbn; repeat case_match; done
  | |- keeps (set_stream _ _) => apply keeps_set_stream; done
  | |- keeps (if ?b then _ else _) => destruct b
  | |- keeps (match ?x with _ => _ end) => destruct x
  | |- keeps (route_of _) => unfold route_of
  | |- keeps (stream_of _) => unfold stream_of
  | |- keeps (current_route _) => unfold current_route
  | |- keeps (isShutdown _) => unfold isShutdown
  | |- keeps (findRoute _) => unfold findRoute
  | |- keeps (isStreamInOpen _) => unfold isStreamInOpen
  | |- keeps (isStreamOutOpen _) => unfold isStreamOutOpen
  | |- keeps (hasAtleastOneStreamOpen _) => unfold hasAtleastOneStreamOpen
  | |- keeps (isStreamConfigCompatible _ _) => unfold isStreamConfigCompatible
  | |- keeps (getPipeConfig _) => unfold getPipeConfig
  | |- keeps (getSink _) => unfold getSink
  | |- keeps (getSource _) => unfold getSource
  | |- keeps (shouldBlockWrite _) => unfold shouldBlockWrite
  | |- keeps (read_pipe _ _) => unfold read_pipe
  | |- keeps (write_pipe _ _) => unfold write_pipe
  | |- keeps (exitStandby _ _) => unfold exitStandby
  | |- keeps (route_standby _ _) => unfold route_standby
  | |- keeps (updateReadCounterFrames _ _) => unfold updateReadCounterFrames
  | |- quiet (_ ≫= _) => apply quiet_bind
  | |- quiet (mret _) => exact I
  | |- quiet stuck => apply quiet_stuck
  | |- quiet (locked _) => apply quiet_locked
  | |- quiet (if ?b then _ else _) => destruct b
  | |- quiet (match ?x with _ => _ end) => destruct x
  end.

Lemma quiet_flush fuel p n m : quiet (flush_loop fuel p n m).
Proof. revert n. induction fuel as [|fuel IH]; intros n; cbn [flush_loop]; keep. apply IH. Qed.

Lemma quiet_read_loop fuel p n d : quiet (read_loop fuel p n d).
Proof. revert n. induction fuel as [|fuel IH]; intros n; cbn [read_loop]; keep; apply IH. Qed.

Lemma quiet_transfer fuel sid n : quiet (submix_transfer fuel sid n).
Proof. unfold submix_transfer, inRead, outWrite. keep; first [apply quiet_read_loop|apply quiet_flush]. Qed.

Lemma quiet_refine sid n : quiet (submix_refinePosition sid n).
Proof. unfold submix_refinePosition. keep. Qed.

Lemma quiet_standby sid : quiet (submix_standby sid).
Proof. unfold submix_standby. keep. Qed.

Lemma quiet_flush_call sid : quiet (submix_flush sid).
Proof. unfold submix_flush. keep. apply quiet_standby. Qed.

Lemma quiet_start sid : quiet (submix_start sid).
Proof. unfold submix_start. keep. Qed.

Lemma keeps_close_out r : keeps (closeStream r false).
Proof. unfold closeStream. keep. Qed.

Lemma quiet_prepare sid : quiet (submix_prepareToClose sid).
Proof. unfold submix_prepareToClose. keep. apply keeps_close_out. Qed.

(** Counting the input streams of a route. *)
Lemma inputs_insert r sid l lk : lk !! sid = None ->
  inputs r (<[sid := l]> lk) = (inputs r lk + if decide (l = (true, Some r)) then 1 else 0)%nat.
Proof.
  intros Hn. unfold inputs. destruct (decide (l = (true, Some r))) as [Hl|Hl].
  - rewrite map_filter_insert_True by done. rewrite map_size_insert_None; [lia|]. apply map_lookup_filter_None. by left.
  - rewrite map_filter_insert_False by done. rewrite delete_id by done. lia.
Qed.

Lemma inputs_delete r sid l lk : lk !! sid = Some l ->
  inputs r lk = (inputs r (delete sid lk) + if decide (l = (true, Some r)) then 1 else 0)%nat.
Proof.
  intros Hl. rewrite <- (inputs_insert r sid l (delete sid lk)) by apply lookup_delete_eq. by rewrite insert_delete_id.
Qed.

Lemma inputs_zero r lk : (forall sid, lk !! sid <> Some (true, Some r)) -> inputs r lk = 0%nat.
Proof.
  intros Hn. unfold inputs. apply map_size_empty_iff, map_empty. intros sid. apply map_lookup_filter_None. right.
  intros l Hl Hp. cbn in Hp. subst l. by apply (Hn sid).
Qed.

Lemma inputs_pos r sid lk : lk !! sid = Some (true, Some r) -> (0 < inputs r lk)%nat.
Proof. intros Hl. rewrite (inputs_delete r sid _ lk Hl). rewrite decide_True by done. lia. Qed.

Lemma inputs_new lk r s : routes_ok lk s -> route_objects s !! r = None -> inputs r lk = 0%nat.
Proof.
  intros [_ Hl _ _] Hr. apply inputs_zero. intros sid Hs. destruct (Hl _ _ _ Hs) as (k & [= <-] & Hk). rewrite Hr in Hk. by destruct Hk.
Qed.

(** What [createPipe] does to its route and to the others. *)
Record pipe_made (r : Z) (x : SubmixRoute) (ok : bool) (lk : gmap Z (bool * option Z)) (s s' : Submix) : Prop := {
  pm_links : links s' = links s;
  pm_ok : routes_ok lk s';
  pm_map : submixRoutes s' = submixRoutes s;
  pm_route : exists x', route_objects s' !! r = Some x' /\ mStreamInOpen x' = mStreamInOpen x /\
    mInputRefCount x' = mInputRefCount x /\ mStreamOutOpen x' = mStreamOutOpen x /\ (ok = true -> is_Some (mPipe x'))
}.

Lemma createPipe_spec lk r x cfg s ok s' :
  createPipe r cfg s = Some (ok, s') -> route_objects s !! r = Some x -> routes_ok lk s ->
  pipe_made r x ok lk s s' /\ (convertible cfg -> ok = true).
Proof.
  intros Hr Hx Hs. apply st_bind_inv in Hr as (size & s0 & H0 & Hr). unfold of_option in H0.
  destruct (pipeSizeInFrames cfg) as [size'|] eqn:Esz; [|done]. injection H0 as -> ->.
  destruct (pipe_maxFrames _ _ _ _) as [frames|] eqn:Ef.
  - injection Hr as <- <-. split; [|done]. split; [done| |done|].
    + set (s1 := with_pipes (with_next s0 (submix_next s0 + 1)) (<[submix_next s0 := false]> (pipe_shutdown s0))).
      apply (routes_ok_alter lk s1).
      * intros y _ [Ha Hb Hc Hd]. split; cbn; [done|done|eauto|]. intros _ _. by exists size, frames.
      * destruct Hs as [H1 H2 H3 H4]. split; cbn; [done..|]. intros k Hk. specialize (H4 k Hk). lia.
    + cbn. rewrite lookup_alter_eq, Hx. cbn. eexists. split; [done|]. cbn. eauto.
  - injection Hr as <- <-. split; [split; [done..|]|].
    + exists x. done.
    + intros (? & ? & [=] & ?). congruence.
Qed.

Lemma alter_alter (f g : SubmixRoute -> SubmixRoute) k (m : gmap Z SubmixRoute) : alter f k (alter g k m) = alter (f ∘ g) k m.
Proof.
  apply map_eq. intros j. destruct (decide (j = k)) as [->|Hne]; [|by rewrite !lookup_alter_ne].
  rewrite !lookup_alter_eq. by destruct (m !! k).
Qed.

(** [resetPipe] succeeds on a route with a pipe: the format was converted before. *)
Lemma resetPipe_spec lk r x s ok s' : whole ->
  call_run (resetPipe r) s = Some (ok, s') -> route_objects s !! r = Some x -> is_Some (mPipe x) -> routes_ok lk s ->
  ok = true /\ pipe_made r x ok lk s s'.
Proof.
  intros Hw Hr Hx Hp Hs. destruct (ro_convertible _ _ _ (rs_routes _ _ Hs r x Hx) Hw Hp) as (size & frames & Hsz & Hf).
  unfold resetPipe in Hr. apply locked_inv in Hr as (cfg & s0 & H0 & Hr). unfold locked in Hr. rewrite call_run_locked in Hr.
  unfold releasePipe, set_route, route_of, gets, of_option, mbind, St_bind, mret, St_ret, modify in H0.
  rewrite Hx in H0. cbn in H0. injection H0 as <- <-.
  unfold createPipe, set_route, route_of, gets, of_option, mbind, St_bind, mret, St_ret, modify in Hr.
  rewrite Hsz in Hr. cbn in Hr. rewrite Hf in Hr. cbn in Hr. injection Hr as <- <-.
  split; [done|].
  set (s1 := with_pipes (with_next s (submix_next s + 1)) (<[submix_next s := false]> (pipe_shutdown s))).
  split; cbn; [done| |done|].
  - rewrite alter_alter. apply (routes_ok_alter lk s1).
    + intros y _ [Ha Hb Hc Hd]. split; cbn; [done|done|eauto|]. intros _ _. by exists size, frames.
    + destruct Hs as [H1 H2 H3 H4]. split; cbn; [done..|]. intros k Hk. specialize (H4 k Hk). lia.
  - rewrite alter_alter, lookup_alter_eq, Hx. cbn. eexists. split; [done|]. cbn. eauto.
Qed.

Lemma findOrCreateRoute_spec lk addr cfg s found s' :
  findOrCreateRoute addr cfg s = Some (found, s') -> routes_ok lk s ->
  links s' = links s /\ routes_ok lk s' /\ (forall r, found = Some r -> is_Some (route_objects s' !! r)).
Proof.
  intros Hr Hs. unfold findOrCreateRoute in Hr. apply st_bind_inv in Hr as (o & s0 & [= <- <-] & Hr).
  destruct (submixRoutes s !! addr) as [r|] eqn:Em.
  { injection Hr as <- <-. split_and!; [done..|]. intros r' [= <-]. by eapply rs_map. }
  apply st_bind_inv in Hr as (r & s0 & [= <- <-] & Hr). apply st_bind_inv in Hr as ([] & s1 & [= <-] & Hr).
  apply st_bind_inv in Hr as (ok & s2 & Hc & Hr).
  set (s1 := with_next (with_objects s (<[submix_next s := new_route]> (route_objects s))) (submix_next s + 1)) in Hc.
  assert (route_objects s !! submix_next s = None) as Hfree.
  { apply eq_None_not_Some. intros Hk%(rs_next _ _ Hs). lia. }
  assert (routes_ok lk s1) as Hs1.
  { assert (inputs (submix_next s) lk = 0%nat) as H0 by (by apply (inputs_new _ _ s)).
    destruct Hs as [H1 H2 H3 H4]. split; cbn.
    - intros k x [[<- <-]|[Hne Hk]]%lookup_insert_Some; [|auto]. split; cbn; [by rewrite H0|by rewrite H0|done|by intros _ []].
    - intros sid b o Ho. destruct (H2 sid b o Ho) as (k & -> & Hk). exists k. split; [done|]. apply lookup_insert_is_Some'. by right.
    - intros a k Hk. apply lookup_insert_is_Some'. right. by eapply H3.
    - intros k [<-|Hk]%lookup_insert_is_Some'; [lia|]. specialize (H4 k Hk). lia. }
  destruct (createPipe_spec lk _ new_route _ _ _ _ Hc (lookup_insert_eq _ _ _) Hs1) as [[Hl Hok Hm (x' & Hx' & _)] _].
  destruct ok; injection Hr as <- <-; cycle 1.
  { by split_and!. }
  split_and!; [done| |intros ? [= <-]; cbn; by rewrite Hx'].
  destruct Hok as [H1 H2 H3 H4]. split; cbn; [done..| |done].
  intros a k [[<- <-]|[Hne Hk]]%lookup_insert_Some; [by rewrite Hx'|by eapply H3].
Qed.

(** Opening a stream on a route counts it. *)
Lemma routes_ok_open lk sid r b x y s :
  routes_ok lk s -> lk !! sid = None -> route_objects s !! r = Some x ->
  route_ok (<[sid := (b, Some r)]> lk) r y ->
  forall f, f x = y -> routes_ok (<[sid := (b, Some r)]> lk) (with_objects s (alter f r (route_objects s))).
Proof.
  intros [H1 H2 H3 H4] Hn Hx Hy f Hf.
  pose proof (alter_dom s r f) as Hdom.
  split; cbn.
  - intros k z. destruct (decide (k = r)) as [->|Hne].
    + rewrite lookup_alter_eq, Hx. cbn. rewrite Hf. by intros [= <-].
    + rewrite lookup_alter_ne by done. intros Hk. destruct (H1 k z Hk) as [Ha Hb Hc Hd].
      assert (inputs k (<[sid := (b, Some r)]> lk) = inputs k lk) as E.
      { rewrite inputs_insert by done. rewrite decide_False by congruence. lia. }
      split; [by rewrite E|by rewrite E|done|done].
  - intros i c o [[<- [= <- <-]]|[Hne Ho]]%lookup_insert_Some.
    + exists r. by rewrite Hdom, Hx.
    + destruct (H2 i c o Ho) as (k & -> & Hk). exists k. by rewrite Hdom.
  - intros a k Hk. apply Hdom. by eapply H3.
  - intros k Hk%Hdom. by apply H4.
Qed.

Lemma openStream_spec lk sid r b x s u s' :
  openStream r b s = Some (u, s') -> routes_ok lk s -> lk !! sid = None -> route_objects s !! r = Some x ->
  (whole -> is_Some (mPipe x)) -> links s' = links s /\ routes_ok (<[sid := (b, Some r)]> lk) s'.
Proof.
  intros Hr Hs Hn Hx Hp. unfold openStream, route_of, gets, of_option, mbind, St_bind in Hr. rewrite Hx in Hr. cbn in Hr.
  pose proof (rs_routes _ _ Hs r x Hx) as [Ha Hb Hc Hd].
  assert (inputs r (<[sid := (b, Some r)]> lk) = inputs r lk + if b then 1 else 0)%nat as E.
  { rewrite inputs_insert by done. destruct b; [by rewrite decide_True|by rewrite decide_False]. }
  destruct b.
  - assert (forall f, mInputRefCount (f x) = (if mStreamInOpen x then mInputRefCount x + 1 else 1) -> mStreamInOpen (f x) = true ->
      mPipe (f x) = mPipe x -> mPipeConfig (f x) = mPipeConfig x ->
      routes_ok (<[sid := (true, Some r)]> lk) (with_objects s (alter f r (route_objects s)))) as Hopen.
    { intros f H1 H2 H3 H4. eapply routes_ok_open; [done|done|done| |reflexivity].
      split; [|rewrite H2, E, bool_decide_true by lia; done|rewrite H3; auto|rewrite H3, H4; done].
      rewrite H1, E, Hb, Ha. case_bool_decide; lia. }
    destruct (mPipe x) as [p|] eqn:Ep; injection Hr as <- <-; (split; [done|]).
    + refine (proj2 (keeps_shutdown p false (with_objects s _) tt _ eq_refl) _ _). apply Hopen; cbn; congruence.
    + apply Hopen; cbn; congruence.
  - injection Hr as <- <-. split; [done|]. eapply routes_ok_open; [done|done|done| |reflexivity].
    rewrite Nat.add_0_r in E. split; cbn; [by rewrite E|by rewrite E|done|done].
Qed.

(** What only looks at the state. *)
Definition reads {A} (m : St Submix A) : Prop := forall s a s', m s = Some (a, s') -> s' = s.

Lemma reads_route {A} r (f : SubmixRoute -> A) : reads (x ← route_of r; mret (f x)).
Proof.
  intros s a s' (x & s1 & Hx & [= _ <-])%st_bind_inv. unfold route_of, gets, of_option, mbind, St_bind in Hx.
  destruct (route_objects s !! r); [|done]. cbn in Hx. by injection Hx as _ <-.
Qed.

Lemma reads_valid r b cfg : reads (call_run (isStreamConfigValid r b cfg)).
Proof.
  intros s v s' Hr. unfold isStreamConfigValid in Hr. apply call_bind_inv in Hr as (out & s1 & Ho & Hr).
  assert (s1 = s) as ->.
  { destruct b; [by injection Ho as _ <-|]. unfold locked in Ho. rewrite call_run_locked in Ho. by eapply reads_route. }
  destruct out; [by injection Hr as _ <-|]. apply locked_inv in Hr as (any & s1 & Ha & Hr).
  assert (s1 = s) as -> by (unfold hasAtleastOneStreamOpen in Ha; by apply reads_route in Ha). destruct any; [|by injection Hr as _ <-].
  unfold locked in Hr. rewrite call_run_locked in Hr. unfold isStreamConfigCompatible in Hr. by apply reads_route in Hr.
Qed.

(** The first section of [init]: the stream has its route. *)
Lemma found_route_spec lk sid x addr cfg s found s' :
  (found ← findOrCreateRoute addr cfg; set_stream sid (fun x => with_route x found) ;; mret found) s =
    Some (found, s') ->
  submix_streams s !! sid = Some x -> routes_ok lk s ->
  routes_ok lk s' /\ (forall r, found = Some r -> is_Some (route_objects s' !! r)) /\
  links s' = <[sid := (ss_isInput x, found)]> (links s).
Proof.
  intros Hr Hx Hs. apply st_bind_inv in Hr as (found' & s1 & Hf & Hr).
  destruct (findOrCreateRoute_spec lk _ _ _ _ _ Hf Hs) as (Hl1 & Hs1 & Hsome).
  apply st_bind_inv in Hr as ([] & s2 & [= <-] & [= <- <-]).
  split; [by destruct Hs1|]. split; [exact Hsome|]. apply map_eq. intros k. rewrite <- Hl1. unfold links. cbn.
  destruct (decide (k = sid)) as [->|Hk].
  - rewrite lookup_fmap, lookup_alter_eq, lookup_insert_eq.
    apply (f_equal (.!! sid)) in Hl1. unfold links in Hl1. rewrite !lookup_fmap, Hx in Hl1.
    destruct (submix_streams s1 !! sid) as [z|]; [|done]. cbn in *. by injection Hl1 as -> _.
  - by rewrite lookup_insert_ne, !lookup_fmap, lookup_alter_ne by done.
Qed.

Lemma submix_init_spec lk sid x s ok s' : whole ->
  call_run (submix_init sid) s = Some (ok, s') -> submix_streams s !! sid = Some x -> lk !! sid = None -> routes_ok lk s ->
  (forall k, k <> sid -> links s' !! k = links s !! k) /\
  if ok then exists r, links s' !! sid = Some (ss_isInput x, Some r) /\ routes_ok (<[sid := (ss_isInput x, Some r)]> lk) s'
  else routes_ok lk s'.
Proof.
  intros Hw Hr Hx Hn Hs. unfold submix_init in Hr. apply locked_inv in Hr as (y & s0 & Hy & Hr).
  unfold stream_of, gets, of_option, mbind, St_bind in Hy. rewrite Hx in Hy. injection Hy as <- <-.
  apply locked_inv in Hr as (found & s2 & Hf & Hr).
  destruct (found_route_spec lk sid x _ _ s found s2 Hf Hx Hs) as (Hs2 & Hsome & Hl2).
  assert (forall k, k <> sid -> links s2 !! k = links s !! k) as Hother by (intros k Hk; by rewrite Hl2, lookup_insert_ne).
  apply (f_equal (.!! sid)) in Hl2. rewrite lookup_insert_eq in Hl2.
  destruct found as [r|]; [|by injection Hr as <- <-].
  destruct (Hsome r eq_refl) as [rt Hrt].
  apply call_bind_inv in Hr as (valid & s3 & Hv & Hr). apply reads_valid in Hv as ->.
  destruct valid; [|by injection Hr as <- <-]. cbn [negb] in Hr.
  apply locked_inv in Hr as (sink & s3 & Hp & Hr). assert (s3 = s2) as -> by (by eapply reads_route).
  assert (sink = mPipe rt) as ->.
  { unfold getSink, route_of, gets, of_option, mbind, St_bind in Hp. rewrite Hrt in Hp. cbn in Hp. by injection Hp. }
  destruct (mPipe rt) as [sink|] eqn:Ep; [|by injection Hr as <- <-].
  apply call_bind_inv in Hr as (ask & s3 & Ha & Hr).
  assert (s3 = s2) as ->.
  { destruct (ss_isInput x); [|by injection Ha as _ <-]. unfold locked in Ha. rewrite call_run_locked in Ha. by eapply reads_route. }
  apply call_bind_inv in Hr as (down & s3 & Hd & Hr).
  assert (s3 = s2) as ->.
  { destruct ask; [|by injection Hd as _ <-]. unfold locked in Hd. rewrite call_run_locked in Hd. by injection Hd as _ <-. }
  apply call_bind_inv in Hr as (ok1 & s3 & Hreset & Hr).
  assert (links s3 = links s2 /\ routes_ok lk s3 /\ ok1 = true /\ exists rt', route_objects s3 !! r = Some rt' /\ is_Some (mPipe rt'))
    as (Hl3 & Hs3 & -> & rt' & Hrt' & Hp').
  { destruct down.
    - destruct (resetPipe_spec lk r rt _ _ _ Hw Hreset) as (-> & [Hl Hok Hm (rt' & H1 & H2 & H3 & H4 & H5)]); [done|by rewrite Ep|done|].
      split_and!; [done..|]. exists rt'. split; [done|auto].
    - injection Hreset as <- <-. split_and!; [done..|]. exists rt. by rewrite Ep. }
  cbn [negb] in Hr. apply locked_inv in Hr as ([] & s4 & Hopen & [= <- <-]).
  destruct (openStream_spec lk sid r _ rt' _ _ _ Hopen Hs3 Hn Hrt' (fun _ => Hp')) as [Hl4 Hs4].
  rewrite Hl4, Hl3. split; [done|]. by exists r.
Qed.

Lemma open_stream_ok sid addr b cfg s ok s' : whole ->
  open_stream sid addr b cfg s = Some (ok, s') -> submix_streams s !! sid = None -> submix_ok s -> submix_ok s'.
Proof.
  intros Hw Hr Hfree Hs. unfold open_stream in Hr. apply st_bind_inv in Hr as ([] & s1 & [= <-] & Hr).
  apply st_bind_inv in Hr as (ok1 & s2 & Hi & Hr).
  set (x := mkSubmixStream addr b cfg None 0 0) in Hi. set (s1 := new_stream _ _ _ _ s) in Hi.
  assert (links s !! sid = None) as Hn by (unfold links; by rewrite lookup_fmap, Hfree).
  assert (forall k, k <> sid -> links s1 !! k = links s !! k) as Hl1.
  { intros k Hk. unfold links, s1. cbn. by rewrite !lookup_fmap, lookup_insert_ne. }
  destruct (submix_init_spec (links s) sid x s1 ok1 s2 Hw Hi) as [Hl2 Hok]; [apply lookup_insert_eq|done|by destruct Hs|].
  destruct ok1; injection Hr as <- <-.
  - destruct Hok as (r & Hr & Hok). unfold submix_ok.
    replace (links s2) with (<[sid := (b, Some r)]> (links s)); [done|].
    apply map_eq. intros k. destruct (decide (k = sid)) as [->|Hk]; [by rewrite lookup_insert_eq, Hr|].
    by rewrite lookup_insert_ne, Hl2, Hl1.
  - unfold submix_ok. replace (links _) with (links s); [by destruct Hok|].
    apply map_eq. intros k. unfold links at 2. cbn. rewrite lookup_fmap.
    destruct (decide (k = sid)) as [->|Hk]; [by rewrite lookup_delete_eq|].
    rewrite lookup_delete_ne by done. rewrite <- Hl1, <- Hl2 by done. unfold links. by rewrite lookup_fmap.
Qed.

(** Closing a stream on its route uncounts it. *)
Lemma closeStream_spec lk sid r b s s' u :
  closeStream r b s = Some (u, s') -> routes_ok lk s -> lk !! sid = Some (b, Some r) ->
  links s' = links s /\ routes_ok (delete sid lk) s'.
Proof.
  intros Hr Hs Hl. set (lk' := delete sid lk).
  assert (lk' !! sid = None) as Hn by apply lookup_delete_eq.
  assert (lk = <[sid := (b, Some r)]> lk') as E by (unfold lk'; by rewrite insert_delete_id).
  destruct (rs_links _ _ Hs sid b (Some r) Hl) as (r' & [= <-] & [x Hx]).
  unfold closeStream in Hr. apply st_bind_inv in Hr as (x' & s0 & H0 & Hr).
  unfold route_of, gets, of_option, mbind, St_bind in H0. rewrite Hx in H0. injection H0 as <- <-.
  assert (forall f, (forall y, y = x -> route_ok lk' r (f y)) ->
    routes_ok lk' (with_objects s (alter f r (route_objects s)))) as Halter.
  { intros f Hf. apply (routes_ok_alter_only lk lk' s r f); [done| | |].
    - intros k Hk. rewrite E, inputs_insert by done. rewrite decide_False by congruence. lia.
    - intros i c o Ho. rewrite E. destruct (decide (i = sid)) as [->|Hi]; [congruence|]. by rewrite lookup_insert_ne.
    - intros y Hy. apply Hf. congruence. }
  pose proof (rs_routes _ _ Hs r x Hx) as [Ha Hb Hc Hd].
  assert (inputs r lk = inputs r lk' + if b then 1 else 0)%nat as Ei.
  { rewrite E at 1. rewrite inputs_insert by done. destruct b; [by rewrite decide_True|by rewrite decide_False]. }
  destruct b.
  - set (g := fun y => route_flags y (if mInputRefCount x - 1 =? 0 then false else mStreamInOpen y)
      (mInputRefCount x - 1) (mStreamInStandby y) (mStreamOutStandbyTransition y) (mStreamOutOpen y)
      (mStreamOutStandby y) (mReadCounterFrames y)) in Hr.
    assert (links s' = links s /\ exists pd, s' = with_pipes (with_objects s (alter g r (route_objects s))) pd) as (Hl' & pd & ->).
    { destruct (mPipe x); [destruct (_ =? 0)|]; injection Hr as _ <-; (split; [done|]);
        [by eexists|by exists (pipe_shutdown s)..]. }
    split; [done|]. destruct (Halter g) as [H1 H2 H3 H4]; [|by split].
    intros y ->. split; cbn; [lia| |intros Hw Hi; apply Hc; [done|by case_match]|done].
    rewrite Hb. case_bool_decide; case_bool_decide; destruct (Z.eqb_spec (mInputRefCount x - 1) 0); (done || lia).
  - injection Hr as _ <-. split; [done|]. apply Halter. intros y ->. rewrite Nat.add_0_r in Ei. split; cbn; by rewrite <- ?Ei.
Qed.

(** The pipe goes when the input end is closed, or when nothing is said of pipes. *)
Lemma releasePipe_spec lk r s cfg s' : releasePipe r s = Some (cfg, s') ->
  (whole -> exists x, route_objects s !! r = Some x /\ mStreamInOpen x = false) -> routes_ok lk s ->
  links s' = links s /\ routes_ok lk s'.
Proof.
  intros Hr Ho Hs. unfold releasePipe, route_of, gets, of_option, mbind, St_bind, set_route, modify in Hr.
  destruct (route_objects s !! r) as [x|] eqn:Hx; [|done]. cbn in Hr. injection Hr as _ <-. split; [done|].
  apply (routes_ok_alter lk s); [|done]. intros z Hz [Ha Hb Hc Hd]. rewrite Hx in Hz. injection Hz as <-.
  split; cbn; [done|done| |by intros _ []]. intros Hw Hi. destruct (Ho Hw) as (y & [= <-] & Hy). congruence.
Qed.

Lemma keeps_remove addr : keeps (removeRoute addr).
Proof.
  intros s u s' [= _ <-]. split; [done|]. intros lk [H1 H2 H3 H4]. split; cbn; [done|done| |done].
  intros a r [_ Hr]%lookup_delete_Some. by eapply H3.
Qed.

Lemma submix_shutdown_ok sid s u s' : whole ->
  (call_run (submix_shutdown sid) ;; modify (drop_stream sid)) s = Some (u, s') -> submix_ok s -> submix_ok s'.
Proof.
  intros Hw Hr Hs. apply st_bind_inv in Hr as ([] & s9 & Hr & [= _ <-]). unfold submix_shutdown in Hr.
  apply locked_inv in Hr as (x & s0 & H0 & Hr).
  unfold stream_of, gets, of_option, mbind, St_bind in H0. destruct (submix_streams s !! sid) as [y|] eqn:Hx; [|done].
  injection H0 as -> ->. apply locked_inv in Hr as (r & s1 & H1 & Hr).
  unfold current_route, stream_of, gets, of_option, mbind, St_bind in H1. rewrite Hx in H1. cbn in H1.
  destruct (mCurrentRoute x) as [r'|] eqn:Ecr; [|done]. injection H1 as -> ->.
  apply locked_inv in Hr as ([] & s2 & Hc & Hr).
  assert (links s1 !! sid = Some (ss_isInput x, Some r)) as Hl by (unfold links; rewrite lookup_fmap, Hx; cbn; by rewrite Ecr).
  destruct (closeStream_spec _ _ _ _ _ _ _ Hc Hs Hl) as [Hl2 Hs2].
  apply locked_inv in Hr as (any & s3 & H3 & Hr). unfold hasAtleastOneStreamOpen, route_of, gets, of_option, mbind, St_bind in H3.
  destruct (route_objects s2 !! r) as [rt|] eqn:Hrt; [|done]. injection H3 as <- <-.
  apply call_bind_inv in Hr as ([] & s4 & Hrel & Hr). unfold locked in Hr. rewrite call_run_locked in Hr. injection Hr as <-.
  assert (links s4 = links s2 /\ routes_ok (delete sid (links s1)) s4) as [Hl4 Hs4].
  { destruct (mStreamInOpen rt || mStreamOutOpen rt) eqn:Eo; [by injection Hrel as <-|].
    apply locked_inv in Hrel as (cfg & s5 & Hrel & Hrm). unfold locked in Hrm. rewrite call_run_locked in Hrm.
    apply orb_false_iff in Eo as [Eo _].
    destruct (releasePipe_spec _ _ _ _ _ Hrel (fun _ => ex_intro _ rt (conj Hrt Eo)) Hs2) as [Hl5 Hs5].
    destruct (keeps_remove _ _ _ _ Hrm) as [Hl6 Hs6]. split; [congruence|auto]. }
  unfold submix_ok. replace (links _) with (delete sid (links s1)); [by destruct Hs4|].
  rewrite <- Hl2, <- Hl4. apply map_eq. intros k. unfold links. cbn.
  destruct (decide (k = sid)) as [->|Hk]; [by rewrite lookup_fmap, !lookup_delete_eq|].
  by rewrite lookup_delete_ne, !lookup_fmap, lookup_delete_ne, lookup_alter_ne by done.
Qed.

(** Calls that are not interrupted, in any order. *)
Lemma whole_calls_ok s : whole -> rtc submix_step submix_empty s -> submix_ok s.
Proof.
  intros Hw Hr. remember submix_empty as s0 eqn:E0. assert (submix_ok s0) as H0.
  { subst s0. split; cbn; [intros r x|intros sid b o|intros a r|intros r []]; by rewrite ?lookup_empty. }
  clear E0. induction Hr as [|s s1 s2 [op s' s1' Hop] _ IH]; [done|]. apply IH.
  assert (forall c : Call unit, quiet c -> call_run c s' = Some (tt, s1') -> submix_ok s1') as Hkeep.
  { intros c Hc%quiet_keeps Hr. destruct (Hc _ _ _ Hr) as [Hl Hk]. unfold submix_ok. rewrite Hl. by apply Hk. }
  destruct op as [sid addr b cfg|sid|sid|sid|sid|fuel sid n]; cbn [run_op] in Hop.
  - apply st_bind_inv in Hop as (taken & s3 & [= <- <-] & Hop). case_bool_decide as Ht; [by injection Hop as <-|].
    apply st_bind_inv in Hop as (ok & s3 & Ho & [= <-]). eapply open_stream_ok; [done|exact Ho| |exact H0].
    by apply eq_None_not_Some.
  - eapply Hkeep; [apply quiet_prepare|done].
  - by eapply submix_shutdown_ok.
  - eapply Hkeep; [apply quiet_standby|done].
  - eapply Hkeep; [apply quiet_start|done].
  - apply (Hkeep (submix_transfer fuel sid n ;; mret tt)); [|by rewrite call_run_bind].
    apply quiet_bind; [apply quiet_transfer|done].
Qed.
End Invariant.

(** ** Interleaved calls *)

Section Interleaving.
Context `{!MonoPipeOps}.

Definition noted_own (n : note) (o : option (bool * option Z)) : option (bool * option Z) :=
  match n with Quiet => o | Opens isInput r => Some (isInput, Some r) | Closes => None end.

Lemma noted_eq sid n lk : noted sid n lk !! sid = noted_own n (lk !! sid).
Proof. destruct n; cbn; [done|apply lookup_insert_eq|apply lookup_delete_eq]. Qed.
Lemma noted_ne sid n lk k : k <> sid -> noted sid n lk !! k = lk !! k.
Proof. intros Hk. destruct n; cbn; [done|by rewrite lookup_insert_ne|by rewrite lookup_delete_ne]. Qed.

(** What a call of the worker of [sid] keeps in each of its sections, whatever the
    other threads did before it, and what holds at its end: [l] is the direction
    and the route of its stream, [o] what the stream has open. *)
Fixpoint wp {A} (sid : Z) (Q : A -> bool * option Z -> option (bool * option Z) -> Prop) (c : Call A) (l : bool * option Z)
    (o : option (bool * option Z)) : Prop :=
  match c with
  | Returned a => Q a l o
  | Locked n m => forall s lk, routes_ok False lk s -> links s !! sid = Some l -> lk !! sid = o ->
      match m s with
      | Some (c', s') => exists l', links s' = <[sid := l']> (links s) /\ routes_ok False (noted sid n lk) s' /\
          wp sid Q c' l' (noted_own n o)
      | None => True
      end
  end.

Lemma wp_quiet_bind {A B} sid Q (c : Call A) (k : A -> Call B) l o :
  quiet False c -> (forall a, wp sid Q (k a) l o) -> wp sid Q (c ≫= k) l o.
Proof.
  intros Hc Hk. revert c Hc. fix IH 1. intros [a|n m] Hc; [apply Hk|]. destruct Hc as [-> Hc].
  intros s lk Hs Hl Ho. specialize (Hc s). destruct (m s) as [[c' s']|]; [|done]. destruct Hc as [[H1 H2] Hq].
  exists l. split; [by rewrite insert_id|]. split; [by apply H2|]. by apply IH.
Qed.

Lemma wp_locked_bind {A B} sid Q n (m : St Submix A) (k : A -> Call B) l o :
  (forall s lk a s', routes_ok False lk s -> links s !! sid = Some l -> lk !! sid = o -> m s = Some (a, s') ->
     exists l', links s' = <[sid := l']> (links s) /\ routes_ok False (noted sid n lk) s' /\ wp sid Q (k a) l' (noted_own n o)) ->
  wp sid Q (locked_as n m ≫= k) l o.
Proof.
  intros Hm s lk Hs Hl Ho. unfold mbind, St_bind. destruct (m s) as [[a s']|] eqn:E; [|done]. by apply (Hm s lk a s').
Qed.

(** Looking at the own stream. *)
Lemma wp_stream_bind {A} sid Q (k : SubmixStream -> Call A) b r o :
  (forall x, ss_isInput x = b -> mCurrentRoute x = r -> wp sid Q (k x) (b, r) o) ->
  wp sid Q (locked (stream_of sid) ≫= k) (b, r) o.
Proof.
  intros Hk. apply wp_locked_bind. intros s lk x s' Hs Hl Ho Hx. exists (b, r).
  unfold stream_of, gets, of_option, mbind, St_bind in Hx. unfold links in Hl. rewrite lookup_fmap in Hl.
  destruct (submix_streams s !! sid) as [y|] eqn:Hy; [|done]. injection Hx as -> ->. injection Hl as Hb Hr.
  split; [|by split; [|apply Hk]]. rewrite insert_id; [done|]. unfold links. rewrite lookup_fmap, Hy. cbn. by rewrite Hb, Hr.
Qed.

Lemma wp_current_bind {A} sid Q (k : Z -> Call A) b r o :
  wp sid Q (k r) (b, Some r) o -> wp sid Q (locked (current_route sid) ≫= k) (b, Some r) o.
Proof.
  intros Hk. apply wp_locked_bind. intros s lk r' s' Hs Hl Ho Hx. exists (b, Some r).
  unfold current_route, stream_of, gets, of_option, mbind, St_bind in Hx. assert (Hl' := Hl). unfold links in Hl. rewrite lookup_fmap in Hl.
  destruct (submix_streams s !! sid) as [y|] eqn:Hy; [|done]. cbn in Hx, Hl. injection Hl as Hb Hr. rewrite Hr in Hx.
  injection Hx as <- <-. split; [by rewrite insert_id|done].
Qed.

Lemma keeps_release r : keeps False (releasePipe r).
Proof.
  intros s cfg s' Hr. split; [|intros lk]; [|intros Hs; by eapply releasePipe_spec].
  unfold releasePipe in Hr. apply st_bind_inv in Hr as (x & s1 & Hx & [= _ <-]).
  unfold route_of, gets, of_option, mbind, St_bind in Hx. destruct (route_objects s !! r); [|done]. cbn in Hx. by injection Hx as _ <-.
Qed.

Lemma keeps_create r cfg : keeps False (createPipe r cfg).
Proof.
  intros s ok s' Hr. apply st_bind_inv in Hr as (size & s0 & H0 & Hr). unfold of_option in H0.
  destruct (pipeSizeInFrames cfg) as [size'|]; [|done]. injection H0 as -> ->.
  destruct (pipe_maxFrames _ _ _ _) as [frames|]; [|by injection Hr as _ <-].
  injection Hr as _ <-. split; [done|]. intros lk Hs.
  set (s1 := with_pipes (with_next s0 (submix_next s0 + 1)) (<[submix_next s0 := false]> (pipe_shutdown s0))).
  apply (routes_ok_alter False lk s1).
  - intros y _ [Ha Hb Hc Hd]. split; cbn; [done|done|by intros []..].
  - destruct Hs as [H1 H2 H3 H4]. split; cbn; [done..|]. intros k Hk. specialize (H4 k Hk). lia.
Qed.

Lemma quiet_reset r : quiet False (resetPipe r).
Proof. apply quiet_bind; [apply quiet_locked, keeps_release|intros cfg; apply quiet_locked, keeps_create]. Qed.

Lemma quiet_reads {A} (m : St Submix A) : reads m -> quiet False (locked m).
Proof. intros Hm. apply quiet_locked. intros s a s' Hr. by rewrite (Hm _ _ _ Hr). Qed.

Lemma quiet_valid r b cfg : quiet False (isStreamConfigValid r b cfg).
Proof.
  unfold isStreamConfigValid. apply quiet_bind; [destruct b; [done|apply quiet_reads, reads_route]|intros []; [done|]].
  apply quiet_bind; [apply quiet_reads, (reads_route r (fun x => mStreamInOpen x || mStreamOutOpen x))|intros []; [|done]].
  apply quiet_reads. unfold isStreamConfigCompatible. intros s a s' Hr. by apply reads_route in Hr.
Qed.

Lemma quiet_down p : quiet False (locked (isShutdown p)).
Proof. apply quiet_reads. by intros s a s' [= _ <-]. Qed.

(** At the end of a call that keeps its stream, the stream has its end of its route open; at the end of one that
    does not, it has nothing open. *)
Definition idle (keep : bool) (l : bool * option Z) (o : option (bool * option Z)) : Prop :=
  if keep then (exists r, l.2 = Some r) /\ o = Some l else o = None.

Lemma wp_init sid b r : wp sid idle (submix_init sid) (b, r) None.
Proof.
  unfold submix_init. apply wp_stream_bind. intros x <- _. apply wp_locked_bind. intros s lk found s' Hs Hl Ho Hf.
  exists (ss_isInput x, found).
  assert (exists y, submix_streams s !! sid = Some y /\ ss_isInput y = ss_isInput x) as (y & Hy & Hyx).
  { unfold links in Hl. rewrite lookup_fmap in Hl. destruct (submix_streams s !! sid) as [y|]; [|done]. exists y. split; [done|].
    by injection Hl. }
  destruct (found_route_spec False lk sid y _ _ _ _ _ Hf Hy Hs) as (Hs' & _ & Hl'). rewrite Hyx in Hl'.
  split; [done|]. split; [done|]. cbn [noted_own]. destruct found as [k|]; [|done].
  apply wp_quiet_bind; [apply quiet_valid|intros []; [|done]]. cbn [negb].
  apply wp_quiet_bind; [apply quiet_reads, reads_route|intros [sink|]; [|done]].
  apply wp_quiet_bind; [destruct (ss_isInput x); [apply quiet_reads, reads_route|done]|intros ask].
  apply wp_quiet_bind; [destruct ask; [apply quiet_down|done]|intros down].
  apply wp_quiet_bind; [destruct down; [apply quiet_reset|done]|intros []; [|done]]. cbn [negb].
  apply wp_locked_bind. intros s1 lk1 u s1' Hs1 Hl1 Ho1 Hopen. exists (ss_isInput x, Some k).
  assert (exists z, route_objects s1 !! k = Some z) as [z Hz].
  { unfold openStream, route_of, gets, of_option, mbind, St_bind in Hopen. destruct (route_objects s1 !! k); [by eexists|done]. }
  destruct (openStream_spec False lk1 sid k _ z _ _ _ Hopen Hs1 Ho1 Hz ltac:(done)) as [E1 E2].
  split; [by rewrite E1, insert_id|]. split; [done|]. split; [by eexists|done].
Qed.

Lemma wp_bind {A B} sid Q' Q (c : Call A) (k : A -> Call B) l o :
  wp sid Q' c l o -> (forall a l o, Q' a l o -> wp sid Q (k a) l o) -> wp sid Q (c ≫= k) l o.
Proof.
  intros Hc Hk. revert c l o Hc. fix IH 1. intros [a|n m] l o Hc; [by apply Hk|]. cbn in Hc.
  intros s lk Hs Hl Ho. specialize (Hc s lk Hs Hl Ho). destruct (m s) as [[c' s']|]; [|done].
  destruct Hc as (l' & H1 & H2 & H3). exists l'. split; [done|]. split; [done|]. by apply IH.
Qed.

Lemma wp_shutdown sid b r : wp sid (fun _ _ o => o = None) (submix_shutdown sid) (b, Some r) (Some (b, Some r)).
Proof.
  unfold submix_shutdown. apply wp_stream_bind. intros x <- _. apply wp_current_bind. apply wp_locked_bind.
  intros s lk [] s' Hs Hl Ho Hc. exists (ss_isInput x, Some r).
  destruct (closeStream_spec False lk sid r _ _ _ _ Hc Hs Ho) as [E1 E2]. split; [by rewrite E1, insert_id|]. split; [done|].
  cbn [noted_own]. apply wp_quiet_bind; [apply quiet_reads, (reads_route r (fun x => mStreamInOpen x || mStreamOutOpen x))|].
  intros any. apply wp_quiet_bind.
  { destruct any; [done|]. apply quiet_bind; [apply quiet_locked, keeps_release|intros _; apply quiet_locked, keeps_remove]. }
  intros []. intros s1 lk1 Hs1 Hl1 Ho1. cbn. exists (ss_isInput x, None). split; [|split; [by destruct Hs1|done]].
  apply map_eq. intros k. unfold links in *. cbn. rewrite lookup_fmap in *.
  destruct (decide (k = sid)) as [->|Hk]; [|by rewrite lookup_insert_ne, lookup_alter_ne, lookup_fmap].
  rewrite lookup_alter_eq, lookup_insert_eq. destruct (submix_streams s1 !! sid); [|done]. cbn in *. by injection Hl1 as -> _.
Qed.

Lemma wp_worker_call sid c l : (exists r, l.2 = Some r) -> wp sid idle (worker_calls sid c) l (Some l).
Proof.
  destruct l as [b o]. intros [r E]. cbn in E. subst o.
  assert (forall A (m : Call A), quiet False m -> wp sid idle (m ;; mret true) (b, Some r) (Some (b, Some r))) as Hq.
  { intros A m Hm. apply wp_quiet_bind; [done|intros _]. split; [by eexists|done]. }
  destruct c; cbn [worker_calls]; try apply Hq.
  - apply quiet_standby.
  - apply quiet_flush_call.
  - apply quiet_start.
  - apply quiet_transfer.
  - apply quiet_refine.
  - eapply wp_bind; [apply wp_shutdown|]. by intros _ l o ->.
Qed.

(** What every step keeps. *)
Definition worker_ok (y : System) (sid : Z) (w : option (Call bool)) : Prop :=
  exists l, links (sys_submix y) !! sid = Some l /\
    match w with Some c => wp sid idle c l (opened y !! sid) | None => idle true l (opened y !! sid) end.

Record sys_ok (y : System) : Prop := {
  so_routes : routes_ok False (opened y) (sys_submix y);
  so_workers : forall sid w, workers y !! sid = Some w -> worker_ok y sid w;
  so_gone : forall sid, workers y !! sid = None -> opened y !! sid = None;
  so_closers : Forall (quiet False) (closers y)
}.

(** A step of the worker of [sid] leaves the other workers as they are. *)
Lemma workers_other y sid w s' ws' cs' op' :
  (forall k, k <> sid -> links s' !! k = links (sys_submix y) !! k) -> (forall k, k <> sid -> op' !! k = opened y !! k) ->
  (forall k w, workers y !! k = Some w -> worker_ok y k w) -> worker_ok (mkSystem s' ws' cs' op') sid w ->
  forall k v, <[sid := w]> (workers y) !! k = Some v -> worker_ok (mkSystem s' ws' cs' op') k v.
Proof.
  intros Hl Ho Hw Hsid k v [[<- <-]|[Hk Hv]]%lookup_insert_Some; [done|]. destruct (Hw k v Hv) as (l & H1 & H2).
  exists l. cbn. by rewrite Hl, Ho.
Qed.

Lemma gone_insert (ws : gmap Z (option (Call bool))) (op : gmap Z (bool * option Z)) sid w :
  (forall k, ws !! k = None -> op !! k = None) -> forall k, <[sid := w]> ws !! k = None -> op !! k = None.
Proof. intros Hg k [Hk _]%lookup_insert_None. auto. Qed.

Lemma threads_new_ok y sid addr b cfg y' : sys_do (NewStream sid addr b cfg) y = Some y' -> sys_ok y -> sys_ok y'.
Proof.
  intros Hd [H1 H2 H3 H4]. cbn in Hd. destruct (workers y !! sid) eqn:Hw; [done|]. injection Hd as <-.
  assert (forall k, links (new_stream sid addr b cfg (sys_submix y)) !! k =
    if decide (k = sid) then Some (b, None) else links (sys_submix y) !! k) as Hl.
  { intros k. unfold links. cbn. rewrite fmap_insert. case_decide as Hk; [subst k; by rewrite lookup_insert_eq|by rewrite lookup_insert_ne]. }
  split; cbn; [by destruct H1| |by apply gone_insert|done]. apply workers_other; [|done|done|].
  - intros k Hk. by rewrite Hl, decide_False.
  - exists (b, None). cbn. rewrite Hl, decide_True by done. split; [done|]. rewrite (H3 sid Hw). apply wp_init.
Qed.

Lemma threads_worker_ok y sid y' : sys_do (WorkerStep sid) y = Some y' -> sys_ok y -> sys_ok y'.
Proof.
  intros Hd [H1 H2 H3 H4]. cbn in Hd. destruct (workers y !! sid) as [[[keep|n m]|]|] eqn:Hw; [| |done|done].
  - destruct (H2 sid _ Hw) as (l & Hl & Hq). injection Hd as <-. destruct keep.
    + split; cbn; [done| |by apply gone_insert|done]. apply workers_other; [done|done|done|]. by exists l.
    + split; cbn; [by destruct H1| | |done].
      * intros k w [Hk Hkw]%lookup_delete_Some. destruct (H2 k w Hkw) as (l' & E1 & E2). exists l'. split; [|done].
        unfold links. cbn. rewrite lookup_fmap, lookup_delete_ne by done. unfold links in E1. by rewrite lookup_fmap in E1.
      * intros k [<-|Hk]%lookup_delete_None; [exact Hq|by apply H3].
  - destruct (m (sys_submix y)) as [[c s']|] eqn:Em; [|done]. cbn in Hd. injection Hd as <-.
    destruct (H2 sid _ Hw) as (l & Hl & Hq). specialize (Hq _ _ H1 Hl eq_refl). rewrite Em in Hq.
    destruct Hq as (l' & Hl' & Hs' & Hc). split; cbn; [done| | |done].
    + apply workers_other; [|by intros; apply noted_ne|done|].
      * intros k Hk. by rewrite Hl', lookup_insert_ne.
      * exists l'. cbn. by rewrite Hl', lookup_insert_eq, noted_eq.
    + intros k [Hk Hne]%lookup_insert_None. rewrite noted_ne by done. by apply H3.
Qed.

Lemma threads_step_ok y y' : sys_step y y' -> sys_ok y -> sys_ok y'.
Proof.
  intros [[sid addr b cfg|sid c|sid|sid|i] Hd]; [by eapply threads_new_ok| | |by eapply threads_worker_ok|]; intros [H1 H2 H3 H4]; cbn in Hd.
  - destruct (workers y !! sid) as [[|]|] eqn:Hw; [done| |done]. injection Hd as <-.
    split; cbn; [done| |by apply gone_insert|done]. apply workers_other; [done|done|done|].
    destruct (H2 sid _ Hw) as (l & Hl & Hr & Ho). exists l. cbn. rewrite Ho. split; [done|by apply wp_worker_call].
  - destruct (workers y !! sid) eqn:Hw; [|done]. injection Hd as <-. split; cbn; [done..|].
    apply Forall_app_2; [done|]. apply Forall_singleton, quiet_prepare.
  - destruct (closers y !! i) as [[|n m]|] eqn:Hi; [done| |done].
    destruct (m (sys_submix y)) as [[c s']|] eqn:Em; [|done]. cbn in Hd. injection Hd as <-.
    assert (Hq := Forall_lookup_1 _ _ _ _ H4 Hi). destruct Hq as [-> Hq]. specialize (Hq (sys_submix y)). rewrite Em in Hq.
    destruct Hq as [[Hl Hs] Hc]. split; cbn; [by apply Hs| |done|by apply Forall_insert].
    intros sid w Hw. destruct (H2 sid w Hw) as (l & E1 & E2). exists l. cbn. by rewrite Hl.
Qed.

(** What the bookkeeping of the routes means, in terms of the streams. *)
Record counted (y : System) : Prop := {
  cn_routes : forall r x, route_objects (sys_submix y) !! r = Some x ->
    mInputRefCount x = Z.of_nat (inputs r (opened y)) /\ mStreamInOpen x = bool_decide (0 < inputs r (opened y))%nat;
  cn_map : forall addr r, submixRoutes (sys_submix y) !! addr = Some r -> is_Some (route_objects (sys_submix y) !! r);
  (** A stream whose worker is between two calls has its end of its own route open. *)
  cn_idle : forall sid, workers y !! sid = Some None -> exists x r,
    submix_streams (sys_submix y) !! sid = Some x /\ mCurrentRoute x = Some r /\ is_Some (route_objects (sys_submix y) !! r) /\
    opened y !! sid = Some (ss_isInput x, Some r);
  cn_gone : forall sid, workers y !! sid = None -> opened y !! sid = None
}.

End Interleaving.

(** ** Two output streams of one address *)

Section Streams.
Context `{!MonoPipeOps}.

Lemma call_run_step {A B} n (m : St Submix A) (k : A -> Call B) s a s1 :
  m s = Some (a, s1) -> call_run (locked_as n m ≫= k) s = call_run (k a) s1.
Proof. intros Hm. rewrite call_run_bind. unfold mbind, St_bind. by rewrite call_run_locked, Hm. Qed.

Lemma call_run_none {A B} n (m : St Submix A) (k : A -> Call B) s : m s = None -> call_run (locked_as n m ≫= k) s = None.
Proof. intros Hm. rewrite call_run_bind. unfold mbind, St_bind. by rewrite call_run_locked, Hm. Qed.

(** C38: an output stream that was prepared to close no longer counts as open, so a second one can be opened on its
    address; when the first one is shut down afterwards, it closes the output end again, now that of the second
    stream: with no input stream open the pipe is released, the route leaves the map, and the next transfer of the
    second stream is a fatal error. *)
Theorem old_stream_shutdown_kills_new s a b xa xb r x :
  a <> b -> submix_streams s !! a = Some xa -> submix_streams s !! b = Some xb -> ss_isInput xa = false ->
  ss_isInput xb = false -> mCurrentRoute xa = Some r -> mCurrentRoute xb = Some r -> route_objects s !! r = Some x ->
  mStreamInOpen x = false ->
  exists s', call_run (submix_shutdown a) s = Some (tt, s') /\ submixRoutes s' !! mDeviceAddress xa = None /\
    submix_streams s' !! b = Some xb /\ forall fuel n, call_run (submix_transfer fuel b n) s' = None.
Proof.
  intros Hab Ha Hb Hia Hib Hra Hrb Hx Hin.
  set (x1 := route_flags x false (mInputRefCount x) (mStreamInStandby x) (mStreamOutStandbyTransition x) false
    (mStreamOutStandby x) (mReadCounterFrames x)).
  set (x2 := with_pipe x1 (mPipeConfig x1) None).
  assert (exists s', call_run (submix_shutdown a) s = Some (tt, s') /\ submixRoutes s' !! mDeviceAddress xa = None /\
    submix_streams s' !! b = Some xb /\ route_objects s' !! r = Some x2) as (s' & H1 & H2 & H3 & H4).
  { unfold submix_shutdown, locked.
    rewrite (call_run_step _ _ _ s xa s) by (unfold stream_of, gets, of_option, mbind, St_bind; by rewrite Ha).
    rewrite (call_run_step _ _ _ s r s)
      by (unfold current_route, stream_of, gets, of_option, mbind, St_bind; rewrite Ha; cbn; by rewrite Hra).
    set (s1 := with_objects s (alter (fun x => route_flags x (mStreamInOpen x) (mInputRefCount x) (mStreamInStandby x)
      (mStreamOutStandbyTransition x) false (mStreamOutStandby x) (mReadCounterFrames x)) r (route_objects s))).
    assert (route_objects s1 !! r = Some x1) as Hx1 by (unfold s1; cbn; rewrite lookup_alter_eq, Hx; cbn; unfold x1; by rewrite <- Hin).
    rewrite (call_run_step _ _ _ s tt s1)
      by (unfold closeStream, route_of, gets, of_option, mbind, St_bind; rewrite Hx, Hia; reflexivity).
    rewrite (call_run_step _ _ _ s1 false s1)
      by (unfold hasAtleastOneStreamOpen, route_of, gets, of_option, mbind, St_bind; by rewrite Hx1).
    rewrite call_run_bind. unfold mbind at 1, St_bind at 1.
    rewrite (call_run_step _ _ _ s1 (mPipeConfig x1) (with_objects s1 (alter (fun y => with_pipe y (mPipeConfig y) None) r (route_objects s1))))
      by (unfold releasePipe, route_of, gets, of_option, mbind, St_bind; by rewrite Hx1).
    unfold locked. rewrite !call_run_locked. unfold removeRoute, modify. cbv beta iota. rewrite call_run_locked.
    eexists. split; [reflexivity|]. cbn. rewrite lookup_delete_eq, lookup_alter_ne by done. split_and!; [done..|].
    by rewrite lookup_alter_eq, lookup_alter_eq, Hx; cbn; rewrite Hin. }
  exists s'. split_and!; [done..|]. intros fuel n. unfold submix_transfer, locked.
  rewrite (call_run_step _ _ _ s' xb s') by (unfold stream_of, gets, of_option, mbind, St_bind; by rewrite H3).
  assert (current_route b s' = Some (r, s')) as Hcr.
  { unfold current_route, stream_of, gets, of_option, mbind, St_bind. rewrite H3. cbn. by rewrite Hrb. }
  rewrite (call_run_step _ _ _ s' (mPipeConfig x) s')
    by (rewrite (st_bind_run _ _ _ r s' Hcr); unfold getPipeConfig, route_of, gets, of_option, mbind, St_bind; by rewrite H4).
  destruct (getStreamPipeSizeInFrames xb (mPipeConfig x)) as [size|] eqn:Es; [|by apply call_run_none].
  destruct (getDelayInUsForFrameCount xb size) as [d|] eqn:Ed;
    [|apply call_run_none; unfold of_option, mbind, St_bind; cbn; by rewrite Ed].
  rewrite (call_run_step _ _ _ s' d s') by (unfold of_option, mbind, St_bind; cbn; by rewrite Ed).
  rewrite Hib. erewrite call_run_step; [|rewrite (st_bind_run _ _ _ r s' Hcr); reflexivity].
  rewrite call_run_bind. unfold mbind at 1, St_bind at 1. set (s2 := with_objects _ _).
  assert (call_run (outWrite fuel b n) s2 = None) as ->; [|done]. unfold outWrite, locked.
  assert (submix_streams s2 !! b = Some xb) as H3' by done.
  assert (exists z, route_objects s2 !! r = Some z /\ mPipe z = None) as (z & H4' & Hz).
  { unfold s2. cbn. rewrite lookup_alter_eq, H4. eexists. split; [done|]. cbn. by destruct (mStreamOutStandby x). }
  clearbody s2. rewrite (call_run_step _ _ _ s2 xb s2) by (unfold stream_of, gets, of_option, mbind, St_bind; by rewrite H3').
  rewrite (call_run_step _ _ _ s2 None s2); [done|].
  unfold current_route, getSink, stream_of, route_of, gets, of_option, mbind, St_bind. rewrite H3'. cbn. rewrite Hrb. cbn.
  rewrite H4'. cbn. by rewrite Hz.
Qed.

(** ** Making room in the pipe *)

Lemma flush_loop_ends fuel p n m s : 0 <= n <= Z.of_nat fuel -> 0 < m ->
  exists s', call_run (flush_loop fuel (Some p) n m) s = Some (tt, s').
Proof.
  intros Hn Hm. revert n s Hn. induction fuel as [|fuel IH]; intros n s Hn; cbn [flush_loop]; destruct (Z.eqb_spec n 0) as [->|Hne];
    [by eexists|lia|by eexists|]. unfold locked. erewrite call_run_step by reflexivity. apply IH. lia.
Qed.

(** With frames of more than 64 bytes the 64-byte buffer holds none: nothing is flushed, for ever. *)
Lemma flush_loop_stuck fuel p n s : 0 < n -> call_run (flush_loop fuel (Some p) n 0) s = None.
Proof.
  intros Hn. revert s. induction fuel as [|fuel IH]; intros s; cbn [flush_loop]; destruct (Z.eqb_spec n 0) as [->|Hne];
    [lia|done|lia|]. unfold locked. erewrite call_run_step by reflexivity. replace (n - Z.min n 0) with n by lia. apply IH.
Qed.

(** What a write that is not interrupted does when the pipe has less room than the buffer and no reader is waiting:
    with frames of 1 to 64 bytes the missing room is flushed and the write returns; with larger frames, it never
    does. *)
Lemma write_flush_terminates s sid n x r rt p :
  submix_streams s !! sid = Some x -> mCurrentRoute x = Some r -> route_objects s !! r = Some rt -> mPipe rt = Some p ->
  pipe_shutdown s !! p = Some false -> shouldBlockWrite r s = Some (false, s) ->
  0 <= availableToWrite (submix_history s) p < n -> 0 < ac_frameSize (mStreamConfig x) ->
  (ac_frameSize (mStreamConfig x) <= 64 -> exists res s', call_run (outWrite (Z.to_nat n) sid n) s = Some (res, s')) /\
  (64 < ac_frameSize (mStreamConfig x) -> forall fuel, call_run (outWrite fuel sid n) s = None).
Proof.
  intros Hx Hr Hrt Hp Hd Hblock Ha Hf.
  assert (current_route sid s = Some (r, s)) as Hcr.
  { unfold current_route, stream_of, gets, of_option, mbind, St_bind. rewrite Hx. cbn. by rewrite Hr. }
  assert (forall fuel, exists k : unit -> Call (write_status * Z), (forall s1, exists res s', call_run (k tt) s1 = Some (res, s')) /\
    call_run (outWrite fuel sid n) s =
    (call_run (flush_loop fuel (Some p) (n - availableToWrite (submix_history s) p) (kFlushBufferSize / ac_frameSize (mStreamConfig x))) ≫=
     fun u => call_run (k u)) s) as E.
  { intros fuel. unfold outWrite, locked.
    rewrite (call_run_step _ _ _ s x s) by (unfold stream_of, gets, of_option, mbind, St_bind; by rewrite Hx).
    rewrite (call_run_step _ _ _ s (Some p) s)
      by (rewrite (st_bind_run _ _ _ r s Hcr); unfold getSink, route_of, gets, of_option, mbind, St_bind; rewrite Hrt; cbn; by rewrite Hp).
    rewrite (call_run_step _ _ _ s p s) by done.
    rewrite (call_run_step _ _ _ s false s) by (unfold isShutdown, gets; by rewrite Hd). cbn iota.
    rewrite (call_run_step _ _ _ s false s) by (by rewrite (st_bind_run _ _ _ r s Hcr)).
    rewrite (call_run_step _ _ _ s (availableToWrite (submix_history s) p) s) by done.
    rewrite (call_run_step _ _ _ s (Some p) s)
      by (rewrite (st_bind_run _ _ _ r s Hcr); unfold getSource, route_of, gets, of_option, mbind, St_bind; rewrite Hrt; cbn; by rewrite Hp).
    cbn [negb andb]. destruct (Z.ltb_spec (availableToWrite (submix_history s) p) n); [|lia].
    destruct (Z.eqb_spec (ac_frameSize (mStreamConfig x)) 0); [lia|].
    eexists. split; cycle 1; [apply call_run_bind|]. intros s1. cbn beta. erewrite call_run_step by reflexivity. erewrite call_run_step by reflexivity.
    repeat case_match; try (by do 2 eexists); erewrite call_run_step by reflexivity; by do 2 eexists. }
  split.
  - intros Hle. destruct (E (Z.to_nat n)) as (k & Hk & ->). destruct (flush_loop_ends (Z.to_nat n) p (n - availableToWrite (submix_history s) p)
      (kFlushBufferSize / ac_frameSize (mStreamConfig x)) s) as [s1 H1]; [lia| |].
    { apply Z.div_str_pos. unfold kFlushBufferSize. lia. }
    unfold mbind, St_bind. rewrite H1. apply Hk.
  - intros Hgt fuel. destruct (E fuel) as (k & _ & ->). rewrite Z.div_small by (unfold kFlushBufferSize; lia).
    unfold mbind, St_bind. by rewrite flush_loop_stuck by lia.
Qed.

Lemma sys_run_rtc ops y : rtc sys_step y (sys_run ops y).
Proof.
  revert y. induction ops as [|op ops IH]; intros y; cbn; [done|]. destruct (sys_do op y) as [y'|] eqn:E; [|apply IH].
  eapply rtc_l; [by exists op|apply IH].
Qed.

Lemma run_ops_rtc ops s u s' : for_each ops run_op s = Some (u, s') -> rtc submix_step s s'.
Proof.
  revert s. induction ops as [|op ops IH]; intros s Hr; [by injection Hr as _ <-|].
  cbn in Hr. apply st_bind_inv in Hr as ([] & s1 & H1 & Hr). eapply rtc_l; [by econstructor|by apply IH].
Qed.
End Streams.

(** ** Examples: a pipe that is always full, and takes and gives what it is asked for *)

#[local] Instance full_pipe : MonoPipeOps :=
  Build_MonoPipeOps (fun size _ _ _ => Some size) (fun _ _ => 0) (fun _ _ => 0) (fun _ _ n => n) (fun _ _ n => n) (-5)
    (fun h => Z.of_nat (length h)).

Definition stereo_config (frameSize : Z) : AudioConfig := mkAudio 48000 1 3 frameSize 480.

Definition after_ops (ops : list submix_op) : Submix := from_option snd submix_empty (for_each ops run_op submix_empty).

Definition in_and_out : list submix_op :=
  [OpOpen 1 7 false (stereo_config 4); OpOpen 2 7 true (stereo_config 4); OpOpen 3 7 true (stereo_config 4); OpStart 1;
   OpTransfer 480 1 480; OpTransfer 1 2 480; OpShutdown 2; OpStandby 3].

Example in_and_out_route :
  (fun x => (mInputRefCount x, mStreamInOpen x, mStreamOutOpen x, ac_frameCount (mPipeConfig x))) <$>
    (route_objects (after_ops in_and_out) !! 0) = Some (1, true, true, 4096).
Proof. vm_compute. reflexivity. Qed.

Example in_and_out_whole : submix_ok True (after_ops in_and_out).
Proof. apply whole_calls_ok; [done|]. apply (run_ops_rtc in_and_out submix_empty tt). vm_compute. reflexivity. Qed.

(** Three streams of one address are opened at the same time; then an input stream is shut down while the output
    stream writes. *)
Definition turns (n : nat) : list sys_op := concat (repeat [WorkerStep 1; WorkerStep 2; WorkerStep 3] n).

Definition threads : System :=
  sys_run ([NewStream 1 7 false (stereo_config 4); NewStream 2 7 true (stereo_config 4); NewStream 3 7 true (stereo_config 4)] ++
    turns 12 ++ [StartCall 1 (CallTransfer 480 480); StartCall 2 CallShutdown] ++ turns 3) sys_empty.


(** Between the question whether a stream is open and the release of the pipe another stream can open: its pipe is
    released and its route leaves the map, and its next transfer is a fatal error. *)
Definition close_race : System :=
  sys_run ([NewStream 1 7 false (stereo_config 4)] ++ repeat (WorkerStep 1) 12 ++ [StartCall 1 CallShutdown] ++
    repeat (WorkerStep 1) 4 ++ [NewStream 2 7 false (stereo_config 4)] ++ repeat (WorkerStep 2) 12 ++ repeat (WorkerStep 1) 12)
    sys_empty.

Example close_race_loses_pipe :
  opened close_race !! 2 = Some (false, Some 0) /\ submixRoutes (sys_submix close_race) !! 7 = None /\
  (fun x => (mStreamOutOpen x, mPipe x)) <$> (route_objects (sys_submix close_race) !! 0) = Some (true, None) /\
  call_run (submix_transfer 480 2 480) (sys_submix close_race) = None.
Proof. vm_compute. by split_and!. Qed.

Definition two_outputs : list submix_op :=
  [OpOpen 1 7 false (stereo_config 4); OpPrepareToClose 1; OpOpen 2 7 false (stereo_config 4)].

Example old_stream_shutdown_kills_new_witness :
  rtc submix_step submix_empty (after_ops two_outputs) /\
  exists s', call_run (submix_shutdown 1) (after_ops two_outputs) = Some (tt, s') /\ submixRoutes s' !! 7 = None /\
    submix_streams s' !! 2 = Some (mkSubmixStream 7 false (stereo_config 4) (Some 0) 0 0) /\
    forall fuel n, call_run (submix_transfer fuel 2 n) s' = None.
Proof.
  split; [apply (run_ops_rtc two_outputs submix_empty tt); vm_compute; reflexivity|].
  apply (old_stream_shutdown_kills_new (after_ops two_outputs) 1 2 (mkSubmixStream 7 false (stereo_config 4) (Some 0) 0 0)
    (mkSubmixStream 7 false (stereo_config 4) (Some 0) 0 0) 0
    (mkRoute (mkAudio 48000 1 3 4 4096) false 0 true false true true 0 (Some 2))); [lia|vm_compute; reflexivity..].
Defined.

Example write_flush_terminates_witness :
  (exists res s', call_run (outWrite 480 1 480) (after_ops [OpOpen 1 7 false (stereo_config 4)]) = Some (res, s')) /\
  forall fuel, call_run (outWrite fuel 1 480) (after_ops [OpOpen 1 7 false (stereo_config 96)]) = None.
Proof.
  split.
  - refine (proj1 (write_flush_terminates (after_ops [OpOpen 1 7 false (stereo_config 4)]) 1 480
      (mkSubmixStream 7 false (stereo_config 4) (Some 0) 0 0) 0
      (mkRoute (mkAudio 48000 1 3 4 4096) false 0 true false true true 0 (Some 1)) 1 _ _ _ _ _ _ _ _) _);
      [vm_compute; reflexivity..|cbn; lia|cbn; lia|cbn; lia].
  - refine (proj2 (write_flush_terminates (after_ops [OpOpen 1 7 false (stereo_config 96)]) 1 480
      (mkSubmixStream 7 false (stereo_config 96) (Some 0) 0 0) 0
      (mkRoute (mkAudio 48000 1 3 96 4096) false 0 true false true true 0 (Some 1)) 1 _ _ _ _ _ _ _ _) _);
      [vm_compute; reflexivity..|cbn; lia|cbn; lia|cbn; lia].
Defined.
