(* ===== verification/HwcLayer.v ===== *)
(** * display/hwcomposer3: layers, rectangles, configurations and changes

    What the parts of the composer pass around: [Layer] (Layer.h, Layer.cpp), the
    rectangle functions of Common.cpp and Common.h, [DisplayConfig] and
    [DisplayChanges].  A native handle is a number, a null one [None]; the
    information gralloc keeps about a buffer ([getInfoFromHandle]) and the constants
    of the interfaces are the class [HwcAbi].  Fences are not followed: waiting for
    one has no effect on the state. *)

From S2P Require Import Prelude.

(** [HWC3::Error]. *)
Inductive Error :=
  | NoError | BadConfig | BadDisplay | BadLayer | BadParameter | NoResources | NotValidated | Unsupported
  | SeamlessNotAllowed | SeamlessNotPossible.

Definition is_ok (e : Error) : bool := match e with NoError => true | _ => false end.

(** ** Rectangles *)

Record Rect := mkRect { r_left : Z; r_top : Z; r_right : Z; r_bottom : Z }.

Definition checkRectOverlap (masked src : Rect) : bool :=
  negb ((r_right src <=? r_left masked) || (r_right masked <=? r_left src) || (r_bottom src <=? r_top masked) ||
        (r_bottom masked <=? r_top src)).

Definition mergeRect (masked src : Rect) : Rect :=
  mkRect (if r_left masked <=? r_left src then r_left masked else r_left src)
    (if r_top masked <=? r_top src then r_top masked else r_top src)
    (if r_right src <=? r_right masked then r_right masked else r_right src)
    (if r_bottom src <=? r_bottom masked then r_bottom masked else r_bottom src).

Definition isRectEmpty (rect : Rect) : bool := (r_right rect <=? r_left rect) || (r_bottom rect <=? r_top rect).

Definition rectIntersect (with_ result : Rect) : bool * Rect :=
  let r := mkRect (Z.max (r_left result) (r_left with_)) (Z.max (r_top result) (r_top with_))
             (Z.min (r_right result) (r_right with_)) (Z.min (r_bottom result) (r_bottom with_)) in
  (negb (isRectEmpty r), r).

(** [rect.right - rect.left] and [rect.bottom - rect.top], in [int32_t]. *)
Definition rect_width (r : Rect) : option Z := checked_s 32 (r_right r - r_left r).
Definition rect_height (r : Rect) : option Z := checked_s 32 (r_bottom r - r_top r).

(** The mask covers the display; the height is only computed when it is wide enough. *)
Definition mask_covers (mask : Rect) (width height : Z) : option bool :=
  w ← rect_width mask;
  if width <=? w then h ← rect_height mask; Some (height <=? h) else Some false.

(** ** Layers *)

Inductive Composition :=
  | INVALID | CLIENT | DEVICE | SOLID_COLOR | CURSOR | SIDEBAND | DISPLAY_DECORATION | REFRESH_RATE_INDICATOR
  | NXP_PRIVATE.

#[global] Instance Composition_eq_dec : EqDecision Composition.
Proof. solve_decision. Defined.

Definition is_device (c : Composition) : bool := match c with DEVICE => true | _ => false end.
Definition is_client (c : Composition) : bool := match c with CLIENT => true | _ => false end.
Definition is_private (c : Composition) : bool := match c with NXP_PRIVATE => true | _ => false end.
Definition is_decoration (c : Composition) : bool := match c with DISPLAY_DECORATION => true | _ => false end.

(** What [getInfoFromHandle] tells about a buffer. *)
Record HandleInfo := mkInfo {
  hi_fd : Z; hi_width : Z; hi_height : Z; hi_format : Z; hi_drm_format : Z; hi_modifier : Z; hi_usage : Z
}.

Class HwcAbi := {
  getInfoFromHandle : Z -> option HandleInfo;
  (** [common::PixelFormat::RGBA_8888] and [BGRA_8888]. *)
  PixelFormat_RGBA_8888 : Z;
  PixelFormat_BGRA_8888 : Z;
  (** The bits of the usage: [PROTECTED], [PRIVATE_3], [HW_COMPOSER], [HW_FB]. *)
  USAGE_PROTECTED : Z;
  USAGE_PRIVATE_3 : Z;
  USAGE_HW_COMPOSER : Z;
  USAGE_HW_FB : Z;
  MOD_AMPHION_TILED : Z;
  FORMAT_R8 : Z;
  FORMAT_NV12 : Z;
  FORMAT_ABGR2101010 : Z;
  (** The formats with a minimal width of 64 and of 32. *)
  FORMATS_64 : list Z;
  FORMATS_32 : list Z;
  DATASPACE_RANGE_MASK : Z;
  DATASPACE_RANGE_FULL : Z;
  TRANSFORM_NONE : Z
}.

Inductive HdrState := HDR_NONE | HDR_ADDED | HDR_PROCESSED.

Record Color := mkColor { c_r : spec_float; c_g : spec_float; c_b : spec_float; c_a : spec_float }.
Record FRect := mkFRect { f_left : spec_float; f_top : spec_float; f_right : spec_float; f_bottom : spec_float }.

(** [l_edid] is a pointer to a parser the display owns. *)
Record Layer := mkLayer {
  l_id : Z; mCursorPosition : Z * Z; l_buffer : option Z; mBlendMode : Z; mColor : Color; mCompositionType : Composition;
  mDataspace : Z; mDisplayFrame : Rect; mPlaneAlpha : spec_float; mSourceCrop : FRect; mTransform : Z;
  mVisibleRegion : list Rect; mZOrder : Z; l_colorTransform : option (list spec_float); mBrightness : spec_float;
  mHasLuts : bool; l_edid : option Z; mHdrMetadataState : HdrState;
  mHdrMetadata : Z (* the contents of the structure *)
}.

Definition float (z : Z) : spec_float := Binary32.of_Z z.

(** The constructor; [sNextId] is the counter of all layers.  The layer and the counter. *)
Definition layer_new (edidParser : option Z) (inLayerId sNextId : Z) : Layer * Z :=
  (mkLayer (if 0 <? inLayerId then inLayerId else sNextId) (0, 0) None 1 (mkColor (float 0) (float 0) (float 0) (float 0))
     INVALID 0 (mkRect 0 0 (-1) (-1)) (float 0) (mkFRect (float 0) (float 0) (float (-1)) (float (-1))) 0 [] 0 None
     (float 1) false edidParser HDR_NONE 0,
   if 0 <? inLayerId then sNextId else sNextId + 1).

Definition with_composition (l : Layer) (c : Composition) : Layer :=
  mkLayer (l_id l) (mCursorPosition l) (l_buffer l) (mBlendMode l) (mColor l) c (mDataspace l) (mDisplayFrame l)
    (mPlaneAlpha l) (mSourceCrop l) (mTransform l) (mVisibleRegion l) (mZOrder l) (l_colorTransform l) (mBrightness l)
    (mHasLuts l) (l_edid l) (mHdrMetadataState l) (mHdrMetadata l).

Definition with_hdr (l : Layer) (h : HdrState) : Layer :=
  mkLayer (l_id l) (mCursorPosition l) (l_buffer l) (mBlendMode l) (mColor l) (mCompositionType l) (mDataspace l)
    (mDisplayFrame l) (mPlaneAlpha l) (mSourceCrop l) (mTransform l) (mVisibleRegion l) (mZOrder l) (l_colorTransform l)
    (mBrightness l) (mHasLuts l) (l_edid l) h (mHdrMetadata l).

Definition with_metadata (l : Layer) (m : Z) : Layer :=
  mkLayer (l_id l) (mCursorPosition l) (l_buffer l) (mBlendMode l) (mColor l) (mCompositionType l) (mDataspace l)
    (mDisplayFrame l) (mPlaneAlpha l) (mSourceCrop l) (mTransform l) (mVisibleRegion l) (mZOrder l) (l_colorTransform l)
    (mBrightness l) (mHasLuts l) (l_edid l) (mHdrMetadataState l) m.

(** *** The setters *)

Inductive layer_command :=
  | SetCursorPosition (x y : Z) | SetBuffer (buffer : option Z) | SetBlendMode (mode : Z) | SetColor (c : Color)
  | SetCompositionType (c : Composition) | SetDataspace (d : Z) | SetDisplayFrame (r : Rect) | SetPlaneAlpha (a : spec_float)
  | SetSourceCrop (r : FRect) | SetTransform (t : Z) | SetVisibleRegion (rs : list (option Rect)) | SetZOrder (z : Z)
  | SetColorTransform (m : list spec_float) | SetBrightness (b : spec_float) | SetLuts (fd : Z).

Definition setCursorPosition (x y : Z) (l : Layer) : Error * Layer :=
  match mCompositionType l with
  | CURSOR =>
      (NoError,
       mkLayer (l_id l) (x, y) (l_buffer l) (mBlendMode l) (mColor l) (mCompositionType l) (mDataspace l) (mDisplayFrame l)
         (mPlaneAlpha l) (mSourceCrop l) (mTransform l) (mVisibleRegion l) (mZOrder l) (l_colorTransform l) (mBrightness l)
         (mHasLuts l) (l_edid l) (mHdrMetadataState l) (mHdrMetadata l))
  | _ => (BadLayer, l)
  end.

Definition setBuffer (buffer : option Z) (l : Layer) : Error * Layer :=
  match buffer with
  | None => (BadParameter, l)
  | Some _ =>
      (NoError,
       mkLayer (l_id l) (mCursorPosition l) buffer (mBlendMode l) (mColor l) (mCompositionType l) (mDataspace l)
         (mDisplayFrame l) (mPlaneAlpha l) (mSourceCrop l) (mTransform l) (mVisibleRegion l) (mZOrder l) (l_colorTransform l)
         (mBrightness l) (mHasLuts l) (l_edid l) (mHdrMetadataState l) (mHdrMetadata l))
  end.

Definition setColorTransform (colorTransform : list spec_float) (l : Layer) : Error * Layer :=
  if (length colorTransform <? 16)%nat then (BadParameter, l)
  else
    (NoError,
     mkLayer (l_id l) (mCursorPosition l) (l_buffer l) (mBlendMode l) (mColor l) (mCompositionType l) (mDataspace l)
       (mDisplayFrame l) (mPlaneAlpha l) (mSourceCrop l) (mTransform l) (mVisibleRegion l) (mZOrder l)
       (Some (take 16 colorTransform)) (mBrightness l) (mHasLuts l) (l_edid l) (mHdrMetadataState l) (mHdrMetadata l)).

Definition is_nan (x : spec_float) : bool := match x with S754_nan => true | _ => false end.

Definition setBrightness (brightness : spec_float) (l : Layer) : Error * Layer :=
  if is_nan brightness || SFltb brightness (float 0) || SFltb (float 1) brightness then (BadParameter, l)
  else
    (NoError,
     mkLayer (l_id l) (mCursorPosition l) (l_buffer l) (mBlendMode l) (mColor l) (mCompositionType l) (mDataspace l)
       (mDisplayFrame l) (mPlaneAlpha l) (mSourceCrop l) (mTransform l) (mVisibleRegion l) (mZOrder l) (l_colorTransform l)
       brightness (mHasLuts l) (l_edid l) (mHdrMetadataState l) (mHdrMetadata l)).

Definition apply_layer_command (c : layer_command) (l : Layer) : Error * Layer :=
  let set blend color dataspace frame alpha crop transform region z luts :=
    (NoError,
     mkLayer (l_id l) (mCursorPosition l) (l_buffer l) blend color (mCompositionType l) dataspace frame alpha crop transform
       region z (l_colorTransform l) (mBrightness l) luts (l_edid l) (mHdrMetadataState l) (mHdrMetadata l)) in
  let blend := mBlendMode l in let color := mColor l in let ds := mDataspace l in let frame := mDisplayFrame l in
  let alpha := mPlaneAlpha l in let crop := mSourceCrop l in let tr := mTransform l in let reg := mVisibleRegion l in
  let z := mZOrder l in let luts := mHasLuts l in
  match c with
  | SetCursorPosition x y => setCursorPosition x y l
  | SetBuffer b => setBuffer b l
  | SetBlendMode m => set m color ds frame alpha crop tr reg z luts
  | SetColor c => set blend c ds frame alpha crop tr reg z luts
  | SetCompositionType c => (NoError, with_composition l c)
  | SetDataspace d => set blend color d frame alpha crop tr reg z luts
  | SetDisplayFrame r => set blend color ds r alpha crop tr reg z luts
  | SetPlaneAlpha a => set blend color ds frame a crop tr reg z luts
  | SetSourceCrop r => set blend color ds frame alpha r tr reg z luts
  | SetTransform t => set blend color ds frame alpha crop t reg z luts
  | SetVisibleRegion rs => set blend color ds frame alpha crop tr (omap id rs) z luts
  | SetZOrder z => set blend color ds frame alpha crop tr reg z luts
  | SetColorTransform m => setColorTransform m l
  | SetBrightness b => setBrightness b l
  | SetLuts fd => set blend color ds frame alpha crop tr reg z (0 <=? fd)
  end.

(** A conversion of a coordinate that does not fit is undefined. *)
Definition to_int (x : spec_float) : option Z := z ← SF_trunc x; checked_s 32 z.

Definition getSourceCropInt (l : Layer) : option Rect :=
  a ← to_int (f_left (mSourceCrop l)); b ← to_int (f_top (mSourceCrop l)); c ← to_int (f_right (mSourceCrop l));
  d ← to_int (f_bottom (mSourceCrop l)); Some (mkRect a b c d).

(** ** Changes a validation asks for *)

(** [displayRequestChanges] is never set in the sources. *)
Record DisplayChanges := mkChanges { compositionChanges : option (Z * list (Z * Composition)); displayRequestChanges : bool }.

Definition changes_empty : DisplayChanges := mkChanges None false.

Definition addLayerCompositionChange (displayId layerId : Z) (c : Composition) (ch : DisplayChanges) : DisplayChanges :=
  match compositionChanges ch with
  | None => mkChanges (Some (displayId, [(layerId, c)])) (displayRequestChanges ch)
  | Some (d, l) => mkChanges (Some (d, l ++ [(layerId, c)])) (displayRequestChanges ch)
  end.

Definition hasAnyChanges (ch : DisplayChanges) : bool :=
  match compositionChanges ch with Some _ => true | None => displayRequestChanges ch end.

Definition changed_layers (ch : DisplayChanges) : list (Z * Composition) :=
  match compositionChanges ch with Some (_, l) => l | None => [] end.

(** ** Configurations *)

Inductive DisplayAttribute := WIDTH | HEIGHT | DPI_X | DPI_Y | VSYNC_PERIOD | CONFIG_GROUP.

(** [mConfigGroup] has no initial value. *)
Record DisplayConfig := mkConfig {
  cfg_id : Z; mWidth : Z; mHeight : Z; mDpiX : Z; mDpiY : Z; mVsyncPeriodNanos : Z; mConfigGroup : option Z
}.

Definition setAttribute (a : DisplayAttribute) (value : Z) (c : DisplayConfig) : DisplayConfig :=
  match a with
  | WIDTH => mkConfig (cfg_id c) value (mHeight c) (mDpiX c) (mDpiY c) (mVsyncPeriodNanos c) (mConfigGroup c)
  | HEIGHT => mkConfig (cfg_id c) (mWidth c) value (mDpiX c) (mDpiY c) (mVsyncPeriodNanos c) (mConfigGroup c)
  | DPI_X => mkConfig (cfg_id c) (mWidth c) (mHeight c) value (mDpiY c) (mVsyncPeriodNanos c) (mConfigGroup c)
  | DPI_Y => mkConfig (cfg_id c) (mWidth c) (mHeight c) (mDpiX c) value (mVsyncPeriodNanos c) (mConfigGroup c)
  | VSYNC_PERIOD => mkConfig (cfg_id c) (mWidth c) (mHeight c) (mDpiX c) (mDpiY c) value (mConfigGroup c)
  | CONFIG_GROUP => mkConfig (cfg_id c) (mWidth c) (mHeight c) (mDpiX c) (mDpiY c) (mVsyncPeriodNanos c) (Some value)
  end.

Definition getAttribute (a : DisplayAttribute) (c : DisplayConfig) : option Z :=
  match a with
  | WIDTH => Some (mWidth c)
  | HEIGHT => Some (mHeight c)
  | DPI_X => checked_s 32 (mDpiX c * 1000)
  | DPI_Y => checked_s 32 (mDpiY c * 1000)
  | VSYNC_PERIOD => Some (mVsyncPeriodNanos c)
  | CONFIG_GROUP => mConfigGroup c
  end.

Section Groups.
(** [std::hash<int>]. *)
Variable hash_int : Z -> Z.

Definition hashCombine (hash value : Z) : Z :=
  Z.lxor hash (⟦hash_int value + 0x9e3779b9 + ⟦Z.shiftl hash 6⟧u 64 + Z.shiftr hash 2⟧u 64).

Definition ConfigForGroupHash (c : DisplayConfig) : Z :=
  hashCombine (hashCombine (hashCombine (hashCombine 0 (mWidth c)) (mHeight c)) (mDpiX c)) (mDpiY c).

(** Despite its name, an order. *)
Definition ConfigForGroupEq (a b : DisplayConfig) : bool :=
  if negb (mWidth a =? mWidth b) then mWidth a <? mWidth b
  else if negb (mHeight a =? mHeight b) then mHeight a <? mHeight b
  else if negb (mDpiX a =? mDpiX b) then mDpiX a <? mDpiX b
  else mDpiY a <? mDpiY b.

(** An unordered map compares keys of equal hashes only. *)
Definition group_of (c : DisplayConfig) (groups : list (DisplayConfig * Z)) : option Z :=
  snd <$> find (fun g => (ConfigForGroupHash g.1 =? ConfigForGroupHash c) && ConfigForGroupEq g.1 c) groups.

Fixpoint add_groups (groups : list (DisplayConfig * Z)) (configs : list DisplayConfig) : list DisplayConfig :=
  match configs with
  | [] => []
  | c :: configs' =>
      match group_of c groups with
      | Some g => setAttribute CONFIG_GROUP g c :: add_groups groups configs'
      | None =>
          let g := Z.of_nat (length groups) in
          setAttribute CONFIG_GROUP g c :: add_groups (groups ++ [(c, g)]) configs'
      end
  end.

Definition addConfigGroups (configs : list DisplayConfig) : list DisplayConfig := add_groups [] configs.
End Groups.

(** ** Rectangles that merge *)

Lemma overlap_merge_l masked src r : checkRectOverlap masked r = true -> checkRectOverlap (mergeRect masked src) r = true.
Proof.
  unfold checkRectOverlap, mergeRect. cbn. rewrite !negb_true_iff, !orb_false_iff, !Z.leb_gt.
  intros [[[? ?] ?] ?]. repeat match goal with |- context [if ?b then _ else _] => destruct b eqn:? end; lia.
Qed.

Lemma overlap_merge_r masked src r : checkRectOverlap src r = true -> checkRectOverlap (mergeRect masked src) r = true.
Proof.
  unfold checkRectOverlap, mergeRect. cbn. rewrite !negb_true_iff, !orb_false_iff, !Z.leb_gt.
  intros [[[? ?] ?] ?]. repeat match goal with |- context [if ?b then _ else _] => destruct b eqn:? end; lia.
Qed.

Lemma overlap_sym a b : checkRectOverlap a b = checkRectOverlap b a.
Proof.
  unfold checkRectOverlap. f_equal.
  destruct (Z.leb_spec (r_right b) (r_left a)), (Z.leb_spec (r_right a) (r_left b)), (Z.leb_spec (r_bottom b) (r_top a)),
    (Z.leb_spec (r_bottom a) (r_top b)); done.
Qed.

(** Two rectangles overlap iff they have a point in common, for rectangles that have points. *)
Definition in_rect (x y : Z) (r : Rect) : Prop := r_left r <= x < r_right r /\ r_top r <= y < r_bottom r.

Lemma overlap_point a b : isRectEmpty a = false -> isRectEmpty b = false ->
  checkRectOverlap a b = true <-> exists x y, in_rect x y a /\ in_rect x y b.
Proof.
  unfold isRectEmpty, checkRectOverlap, in_rect. rewrite !orb_false_iff, !Z.leb_gt, !negb_true_iff, !orb_false_iff, !Z.leb_gt.
  intros [? ?] [? ?]. split.
  - intros [[[? ?] ?] ?]. exists (Z.max (r_left a) (r_left b)), (Z.max (r_top a) (r_top b)). lia.
  - intros (x & y & ? & ?). lia.
Qed.

Lemma intersect_spec a b : fst (rectIntersect a b) = checkRectOverlap a b \/ isRectEmpty a = true \/ isRectEmpty b = true.
Proof.
  unfold rectIntersect, isRectEmpty, checkRectOverlap. cbn. rewrite !orb_true_iff, !Z.leb_le.
  destruct (decide (r_right a <= r_left a)); [tauto|]. destruct (decide (r_bottom a <= r_top a)); [tauto|].
  destruct (decide (r_right b <= r_left b)); [tauto|]. destruct (decide (r_bottom b <= r_top b)); [tauto|]. left. f_equal.
  destruct (Z.leb_spec (Z.min (r_right b) (r_right a)) (Z.max (r_left b) (r_left a))),
    (Z.leb_spec (Z.min (r_bottom b) (r_bottom a)) (Z.max (r_top b) (r_top a))), (Z.leb_spec (r_right b) (r_left a)),
    (Z.leb_spec (r_right a) (r_left b)), (Z.leb_spec (r_bottom b) (r_top a)), (Z.leb_spec (r_bottom a) (r_top b)); (done || lia).
Qed.

(** ** Configuration groups *)

Definition attributes (c : DisplayConfig) : Z * Z * Z * Z := (mWidth c, mHeight c, mDpiX c, mDpiY c).

Lemma same_attributes_not_eq a b : attributes a = attributes b -> ConfigForGroupEq a b = false.
Proof. intros [= E1 E2 E3 E4]. unfold ConfigForGroupEq. rewrite E1, E2, E3, E4, !Z.eqb_refl. cbn. apply Z.ltb_irrefl. Qed.

(** A group is meant for configurations that differ in the vsync period only; unless two of different sizes have the same
    hash, every configuration gets a group of its own. *)
Lemma groups_all_distinct hash_int configs :
  (forall a b, a ∈ configs -> b ∈ configs ->
     ConfigForGroupHash hash_int a = ConfigForGroupHash hash_int b -> attributes a = attributes b) ->
  addConfigGroups hash_int configs = imap (fun i c => setAttribute CONFIG_GROUP (Z.of_nat i) c) configs.
Proof.
  intros Hinj. unfold addConfigGroups.
  assert (forall done todo groups, configs = done ++ todo -> groups.*1 = done ->
    add_groups hash_int groups todo = imap (fun i c => setAttribute CONFIG_GROUP (Z.of_nat (length done + i)) c) todo) as H.
  { intros dn todo. revert dn. induction todo as [|c todo IH]; intros dn groups E Hg; [done|]. cbn [add_groups imap].
    assert (group_of hash_int c groups = None) as ->.
    { unfold group_of. destruct (find _ groups) as [g|] eqn:F; [|done]. exfalso.
      apply find_some in F as [Hin Hb]. apply andb_true_iff in Hb as [Hh He]. apply Z.eqb_eq in Hh.
      apply Hinj in Hh; [by rewrite same_attributes_not_eq in He| |]; rewrite E, elem_of_app; [left|right; left].
      rewrite <- Hg. apply list_elem_of_fmap. exists g. split; [done|]. by apply list_elem_of_In. }
    rewrite <- Hg at 1. rewrite length_fmap, Nat.add_0_r. f_equal.
    rewrite (IH (dn ++ [c])); [|by rewrite <- app_assoc|by rewrite fmap_app, Hg].
    apply imap_ext. intros i x _. cbn. do 2 f_equal. rewrite length_app. cbn. lia. }
  by apply (H [] configs []).
Qed.
