(* ===== verification/FrameComposer.v ===== *)
(** * display/hwcomposer3/ClientFrameComposer.cpp: who composes which layer

    The composer decides at [validateDisplay] which layers of a display get a plane
    of the display controller, which the 2D engine composes, and which are left to
    the client; [presentDisplay] puts the result on the display.  In between it keeps
    pointers to the layers ([ValidatedLayers]).  Layers and DRM buffers are objects in
    stores, named by addresses; using a pointer to a layer that is gone is undefined
    behaviour ([None]).

    The display hardware is behind the interface [DeviceClient] (DeviceClient.h),
    whose promises are [DeviceClientLaws]; the 2D engine and the allocator are the
    class [DeviceComposerOps].  Fences, HDCP threads and the sleep until the expected
    time are left out: they do not change what is shown. *)

From S2P Require Import Prelude HwcLayer.

Inductive BufferType := DRM_BUFFER_NONE | DRM_BUFFER_FB | DRM_BUFFER_PLANE.

(** [db_handle] is the handle the kernel gives the memory ([mPlaneHandles[0]]). *)
Record DrmBuffer := mkDrmBuffer {
  db_handle : Z; mDrmFramebuffer : Z; db_frame : Rect; db_crop : Rect; mZpos : Z
}.

Definition set_zpos (x : DrmBuffer) (z : Z) : DrmBuffer :=
  mkDrmBuffer (db_handle x) (mDrmFramebuffer x) (db_frame x) (db_crop x) z.

(** The buffers of a display; a plane can be given a null pointer.  [dummyDrmBuffer]
    never holds more than one buffer. *)
Record DisplayBuffer := mkDisplayBuffer {
  clientTargetDrmBuffer : option nat; planeDrmBuffer : gmap Z (option nat); dummyDrmBuffer : option (Z * nat)
}.

Record ValidatedLayers := mkValidated {
  layersForOverlayPlane : gmap Z Z; layersForComposition : list Z; compositionPlaneId : option Z;
  layersForNxpPrivate : list Z; luckyLayer : option Z
}.

Definition no_layers : ValidatedLayers := mkValidated ∅ [] None [] None.
Definition no_buffers : DisplayBuffer := mkDisplayBuffer None ∅ None.

(** What the composer asks of a display. *)
Record DisplayView := mkView {
  dv_id : Z; dv_hwc : Z; dv_ordered : list Z; dv_width : Z; dv_height : Z; dv_identity : bool; dv_target : option Z
}.

(** *** The interface of the display hardware *)

Class DeviceClient (C : Type) := {
  isOverlaySupport : Z -> C -> bool;
  (** [true]: no limitation. *)
  checkOverlayLimitation : Z -> Layer -> C -> option bool;
  (** With the plane for the user interface, if one is asked for and there is one. *)
  prepareDrmPlanesForValidate : Z -> bool -> C -> option Z * C;
  getPlaneForLayerBuffer : Z -> option Z -> C -> option Z * C;
  (** The address of the buffer, or nothing if it cannot be made. *)
  create : option Z -> Rect -> Rect -> BufferType -> C * list DrmBuffer -> option (option nat * (C * list DrmBuffer));
  partialCleanCacheBuffer : Z -> C -> option C;
  flushToDisplay : Z -> DisplayBuffer -> list DrmBuffer -> C -> option (Error * C);
  (** With the number of requests the allocator has had. *)
  getComposerTarget : Z -> bool -> nat * C -> option ((Error + Z) * (nat * C));
  (** The metadata of a layer, or the end of HDR. *)
  setHdrMetadata : Z -> option Z -> C -> C;
  client_setActiveConfigId : Z -> Z -> C -> Error * C;
  client_resetDisplayConfig : Z -> C -> Error * C
}.

Definition sane_rect (r : Rect) : Prop :=
  - 2 ^ 14 <= r_left r < 2 ^ 14 /\ - 2 ^ 14 <= r_right r < 2 ^ 14 /\ - 2 ^ 14 <= r_top r < 2 ^ 14 /\
  - 2 ^ 14 <= r_bottom r < 2 ^ 14.

(** A layer whose rectangles do not overflow, and whose z order has a successor. *)
Definition sane_layer (l : Layer) : Prop :=
  sane_rect (mDisplayFrame l) /\ exists c, getSourceCropInt l = Some c /\ sane_rect c /\ mZOrder l < 2 ^ 31 - 1.

(** The buffers of a display that the hardware can be given. *)
Definition flushable (bs : list DrmBuffer) (b : DisplayBuffer) : Prop :=
  (forall n, clientTargetDrmBuffer b = Some n -> exists x, bs !! n = Some x /\ sane_rect (db_frame x) /\ sane_rect (db_crop x)) /\
  (forall p o, planeDrmBuffer b !! p = Some o ->
     exists n x, o = Some n /\ bs !! n = Some x /\ sane_rect (db_frame x) /\ sane_rect (db_crop x) /\ mZpos x < 2 ^ 31 - 1).

Class DeviceClientLaws (C : Type) `{!DeviceClient C} := {
  client_ok : Z -> C -> Prop;
  (** The planes of a display that are still free. *)
  free_planes : Z -> C -> list Z;
  check_defined d l c : client_ok d c -> sane_layer l -> is_Some (checkOverlayLimitation d l c);
  prepare_ok d b c o c' : prepareDrmPlanesForValidate d b c = (o, c') -> client_ok d c ->
    client_ok d c' /\ NoDup (free_planes d c') /\
    (b = true -> isOverlaySupport d c = true -> exists p, o = Some p /\ p ∉ free_planes d c');
  plane_ok d h c o c' : getPlaneForLayerBuffer d h c = (o, c') -> client_ok d c ->
    client_ok d c' /\
    match o with
    | Some p => exists l1 l2, free_planes d c = l1 ++ p :: l2 /\ free_planes d c' = l1 ++ l2
    | None => free_planes d c' = free_planes d c
    end;
  (** The memory a handle stands for. *)
  buffer_key : Z -> option Z;
  (** The buffers a client keeps and makes again for the same memory. *)
  cached : C -> BufferType -> nat -> Prop;
  (** What a client keeps fits the buffers there are. *)
  buffers_ok : C -> list DrmBuffer -> Prop;
  buffers_same c bs bs' : buffers_ok c bs -> db_handle <$> bs' = db_handle <$> bs -> buffers_ok c bs';
  prepare_keeps d b c :
    (forall bs, buffers_ok c bs -> buffers_ok (prepareDrmPlanesForValidate d b c).2 bs) /\
    (forall t m, cached (prepareDrmPlanesForValidate d b c).2 t m -> cached c t m);
  plane_keeps d h c :
    (forall bs, buffers_ok c bs -> buffers_ok (getPlaneForLayerBuffer d h c).2 bs) /\
    (forall t m, cached (getPlaneForLayerBuffer d h c).2 t m -> cached c t m);
  cached_type c bs t t' n : buffers_ok c bs -> cached c t n -> cached c t' n -> t = t';
  cached_bound c bs t n : buffers_ok c bs -> cached c t n -> (n < length bs)%nat;
  create_ok d h frame crop t c bs : client_ok d c -> buffers_ok c bs ->
    exists o c' bs', create h frame crop t (c, bs) = Some (o, (c', bs')) /\ client_ok d c' /\ buffers_ok c' bs' /\
      match o with
      | None => bs' = bs /\ forall t' m, cached c' t' m -> cached c t' m
      | Some n => exists x, bs' !! n = Some x /\ (h ≫= buffer_key) = Some (db_handle x) /\ db_frame x = frame /\ db_crop x = crop /\
          (forall m, m <> n -> bs' !! m = bs !! m) /\
          (forall t' m, cached c' t' m -> cached c t' m \/ (t' = t /\ m = n)) /\
          ((length bs <= n)%nat \/ (cached c t n /\ db_handle <$> bs !! n = Some (db_handle x)))
      end;
  clean_ok d n c c' : partialCleanCacheBuffer n c = Some c' -> client_ok d c ->
    client_ok d c' /\ (forall bs, buffers_ok c bs -> buffers_ok c' bs) /\ (forall t m, cached c' t m -> cached c t m);
  hdr_ok d b c : client_ok d c ->
    client_ok d (setHdrMetadata d b c) /\ (forall bs, buffers_ok c bs -> buffers_ok (setHdrMetadata d b c) bs) /\
    (forall t m, cached (setHdrMetadata d b c) t m -> cached c t m);
  target_ok d b made c : client_ok d c ->
    exists r made' c', getComposerTarget d b (made, c) = Some (r, (made', c')) /\ client_ok d c' /\
      (forall bs, buffers_ok c bs -> buffers_ok c' bs) /\ (forall t m, cached c' t m -> cached c t m) /\
      r <> inl NoError;
  flush_ok d b bs c : client_ok d c -> buffers_ok c bs -> flushable bs b ->
    exists e c', flushToDisplay d b bs c = Some (e, c') /\ client_ok d c' /\ buffers_ok c' bs
}.

(** *** The 2D engine *)

(** The build options [G2D_LIMITATION_PXP] and [G2D_LIMITATION_VIV], and what the
    library and the property say. *)
Class DeviceComposerOps := {
  g2d_isValid : bool;
  G2D_LIMITATION_PXP : bool;
  G2D_LIMITATION_VIV : bool;
  mG2dPrefered : bool;
  rotationCap : bool;
  (** [GraphicBufferAllocator]: a new buffer of a width, height and format, secure or
      not, if there is memory; after a number of requests. *)
  allocate : nat -> Z -> Z -> Z -> bool -> option Z
}.

Section DeviceComposer.
Context `{!HwcAbi, !DeviceComposerOps}.

Definition has_usage (usage bits : Z) : bool := negb (Z.land usage bits =? 0).

Definition checkMustDeviceComposition (l : Layer) : bool :=
  match l_buffer l with
  | None => false
  | Some h =>
      match getInfoFromHandle h with
      | None => false
      | Some info =>
          (hi_modifier info =? MOD_AMPHION_TILED) || has_usage (hi_usage info) USAGE_PROTECTED ||
          (hi_drm_format info =? FORMAT_R8)
      end
  end.

Definition checkDeviceComposition (l : Layer) : bool :=
  if negb mG2dPrefered then false
  else
    match l_buffer l with
    | None => true
    | Some h =>
        match getInfoFromHandle h with
        | None => false
        | Some info =>
            if negb G2D_LIMITATION_PXP &&
               (is_client (mCompositionType l) || (match l_colorTransform l with Some _ => true | None => false end) ||
                (negb (mTransform l =? TRANSFORM_NONE) && negb rotationCap)) then false
            else if G2D_LIMITATION_VIV &&
               ((hi_drm_format info =? FORMAT_ABGR2101010) ||
                ((hi_drm_format info =? FORMAT_NV12) &&
                 (Z.land (mDataspace l) DATASPACE_RANGE_MASK =? DATASPACE_RANGE_FULL))) then false
            else
              has_usage (hi_usage info) (Z.lor USAGE_PROTECTED (Z.lor USAGE_PRIVATE_3 (Z.lor USAGE_HW_COMPOSER USAGE_HW_FB)))
        end
    end.

(** If it is out of memory, the buffers it has got are left to the caller. *)
Fixpoint prepareDeviceFrameBuffer (made : nat) (width height format : Z) (count : nat) (secure : bool) (buffers : list Z) :
    bool * list Z * nat :=
  match count with
  | O => (true, buffers, made)
  | S count' =>
      match allocate made width height format secure with
      | None => (false, buffers, S made)
      | Some h => prepareDeviceFrameBuffer (S made) width height format count' secure (buffers ++ [h])
      end
  end.
End DeviceComposer.

(** What reaches the hardware. *)
Inductive composer_event :=
  | Composed (layers : list Layer) (target : Z)
  | Flushed (display : Z) (target : option DrmBuffer) (planes : gmap Z DrmBuffer)
  | Powered (display : Z) (on : bool)
  | Backlight (display : Z) (brightness : spec_float).

(** The buffers a display is given, in the store of buffers. *)
Definition shown_target (bs : list DrmBuffer) (b : DisplayBuffer) : option DrmBuffer := n ← clientTargetDrmBuffer b; bs !! n.
Definition shown_planes (bs : list DrmBuffer) (b : DisplayBuffer) : gmap Z DrmBuffer :=
  omap (fun o => n ← o; bs !! n) (planeDrmBuffer b).

Section Composer.
Context `{!HwcAbi, !DeviceComposerOps, !DeviceClient C}.

Record World := mkWorld {
  w_layers : gmap Z Layer; mDeviceClients : gmap Z C; mDisplayBuffers : gmap Z DisplayBuffer;
  mDisplayLayers : gmap Z ValidatedLayers; w_buffers : list DrmBuffer; w_history : list composer_event;
  w_made : nat (* the requests the allocator has had *)
}.

Definition with_layers (w : World) (m : gmap Z Layer) : World :=
  mkWorld m (mDeviceClients w) (mDisplayBuffers w) (mDisplayLayers w) (w_buffers w) (w_history w) (w_made w).
Definition with_clients (w : World) (m : gmap Z C) : World :=
  mkWorld (w_layers w) m (mDisplayBuffers w) (mDisplayLayers w) (w_buffers w) (w_history w) (w_made w).
Definition with_display_buffers (w : World) (m : gmap Z DisplayBuffer) : World :=
  mkWorld (w_layers w) (mDeviceClients w) m (mDisplayLayers w) (w_buffers w) (w_history w) (w_made w).
Definition with_display_layers (w : World) (m : gmap Z ValidatedLayers) : World :=
  mkWorld (w_layers w) (mDeviceClients w) (mDisplayBuffers w) m (w_buffers w) (w_history w) (w_made w).
Definition with_buffers (w : World) (l : list DrmBuffer) : World :=
  mkWorld (w_layers w) (mDeviceClients w) (mDisplayBuffers w) (mDisplayLayers w) l (w_history w) (w_made w).
Definition emitted (w : World) (e : composer_event) : World :=
  mkWorld (w_layers w) (mDeviceClients w) (mDisplayBuffers w) (mDisplayLayers w) (w_buffers w) (w_history w ++ [e]) (w_made w).
Definition with_made (w : World) (n : nat) : World :=
  mkWorld (w_layers w) (mDeviceClients w) (mDisplayBuffers w) (mDisplayLayers w) (w_buffers w) (w_history w) n.

(** The layer a pointer refers to. *)
Definition layer_at (a : Z) : St World Layer := m ← gets w_layers; of_option (m !! a).
Definition set_layer (a : Z) (f : Layer -> Layer) : St World unit := modify (fun w => with_layers w (alter f a (w_layers w))).

(** [mDisplayLayers[displayId]], which adds what is missing. *)
Definition validated (d : Z) : St World ValidatedLayers := m ← gets mDisplayLayers; mret (default no_layers (m !! d)).
Definition set_validated (d : Z) (v : ValidatedLayers) : St World unit :=
  modify (fun w => with_display_layers w (<[d := v]> (mDisplayLayers w))).
Definition set_display_buffer (d : Z) (b : DisplayBuffer) : St World unit :=
  modify (fun w => with_display_buffers w (<[d := b]> (mDisplayBuffers w))).

(** The client with the greatest base id up to the display's: the last candidate of
    the loop over the ordered map. *)
Definition getDeviceClient (displayId : Z) : St World (option Z) :=
  m ← gets mDeviceClients;
  mret (foldl (fun o k => if k <=? displayId then Some k else o) None (sorted_keys m)).

(** A call of a client. *)
Definition client_call {A} (k : Z) (f : C -> A * C) : St World A :=
  m ← gets mDeviceClients;
  c ← of_option (m !! k);
  modify (fun w => with_clients w (<[k := (f c).2]> (mDeviceClients w))) ;; mret (f c).1.

Definition client_ask {A} (k : Z) (f : C -> A) : St World A :=
  m ← gets mDeviceClients; c ← of_option (m !! k); mret (f c).

Definition client_create (k : Z) (handle : option Z) (frame crop : Rect) (type : BufferType) : St World (option nat) :=
  m ← gets mDeviceClients;
  c ← of_option (m !! k);
  bs ← gets w_buffers;
  r ← of_option (create handle frame crop type (c, bs));
  let '(b, (c', bs')) := r in
  modify (fun w => with_buffers (with_clients w (<[k := c']> (mDeviceClients w))) bs') ;; mret b.

Definition client_target (k d : Z) (secure : bool) : St World (Error + Z) :=
  m ← gets mDeviceClients;
  c ← of_option (m !! k);
  made ← gets w_made;
  r ← of_option (getComposerTarget d secure (made, c));
  let '(target, (made', c')) := r in
  modify (fun w => with_made (with_clients w (<[k := c']> (mDeviceClients w))) made') ;; mret target.

Definition client_clean (k : Z) (overlays : Z) : St World unit :=
  m ← gets mDeviceClients;
  c ← of_option (m !! k);
  c' ← of_option (partialCleanCacheBuffer overlays c);
  modify (fun w => with_clients w (<[k := c']> (mDeviceClients w))).

Definition client_flush (k d : Z) (b : DisplayBuffer) : St World Error :=
  m ← gets mDeviceClients;
  c ← of_option (m !! k);
  bs ← gets w_buffers;
  r ← of_option (flushToDisplay d b bs c);
  let '(e, c') := r in
  modify (fun w => with_clients w (<[k := c']> (mDeviceClients w))) ;; mret e.

(** ** validateDisplay *)

(** The private layers, or nothing when a layer is a decoration. *)
Fixpoint scan_private (layers acc : list Z) : St World (option (list Z)) :=
  match layers with
  | [] => mret (Some acc)
  | a :: layers' =>
      l ← layer_at a;
      let acc := if is_private (mCompositionType l) then acc ++ [a] else acc in
      if is_decoration (mCompositionType l) then mret None else scan_private layers' acc
  end.

(** The plane for the user interface, when a single private layer does not cover the
    display.  If the client does not name one, an uninitialised id is kept. *)
Definition prepare_planes (k : Z) (dv : DisplayView) (overlaySupported : bool) (private : list Z) : St World (option Z) :=
  match private with
  | [a] =>
      if overlaySupported then
        l ← layer_at a;
        w ← of_option (rect_width (mDisplayFrame l));
        small ← (if w <? dv_width dv then mret true
                 else h ← of_option (rect_height (mDisplayFrame l)); mret (h <? dv_height dv));
        if small : bool then
          p ← client_call k (prepareDrmPlanesForValidate (dv_id dv) true); p ← of_option p; mret (Some p)
        else client_call k (prepareDrmPlanesForValidate (dv_id dv) false) ;; mret None
      else client_call k (prepareDrmPlanesForValidate (dv_id dv) false) ;; mret None
  | _ => client_call k (prepareDrmPlanesForValidate (dv_id dv) false) ;; mret None
  end.

(** The variables of the loop over the layers. *)
Record ValidateLoop := mkLoop {
  uiMaskedRect : Rect; layerSkiped : bool; deviceComposition : bool; mustDeviceComposition : bool; fallBackToClient : bool;
  v_overlay : gmap Z Z; v_composition : list Z; v_changes : DisplayChanges
}.

(** A layer that gets no plane. *)
Definition compose_layer (a : Z) (l : Layer) (s : ValidateLoop) : ValidateLoop :=
  mkLoop (uiMaskedRect s) (layerSkiped s)
    (if g2d_isValid then deviceComposition s && checkDeviceComposition l else deviceComposition s)
    (if g2d_isValid then mustDeviceComposition s || checkMustDeviceComposition l else mustDeviceComposition s)
    (fallBackToClient s || mHasLuts l) (v_overlay s) (v_composition s ++ [a]) (v_changes s).

Definition with_mask (s : ValidateLoop) (mask : Rect) (skip : bool) : ValidateLoop :=
  mkLoop mask skip (deviceComposition s) (mustDeviceComposition s) (fallBackToClient s) (v_overlay s) (v_composition s)
    (v_changes s).

(** [emplace] keeps an entry that is already there. *)
Definition emplace (p a : Z) (m : gmap Z Z) : gmap Z Z := match m !! p with Some _ => m | None => <[p := a]> m end.

Definition overlay_layer (dv : DisplayView) (p a : Z) (l : Layer) (s : ValidateLoop) : ValidateLoop :=
  mkLoop (uiMaskedRect s) (layerSkiped s) (deviceComposition s) (mustDeviceComposition s) (fallBackToClient s)
    (emplace p a (v_overlay s)) (v_composition s)
    (if is_device (mCompositionType l) then v_changes s
     else addLayerCompositionChange (dv_hwc dv) (l_id l) DEVICE (v_changes s)).

Definition validate_layer (k : Z) (dv : DisplayView) (overlaySupported : bool) (a : Z) (s : ValidateLoop) : St World ValidateLoop :=
  l ← layer_at a;
  let frame := mDisplayFrame l in
  match mCompositionType l with
  | NXP_PRIVATE | INVALID => mret s
  | type =>
      if overlaySupported && negb (layerSkiped s) then
        bad ← (if checkRectOverlap (uiMaskedRect s) frame then mret true
               else
                 ok ← client_ask k (checkOverlayLimitation (dv_id dv) l);
                 ok ← of_option ok;
                 mret (negb ok || (negb (is_device type) && negb (is_client type))));
        if bad : bool then mret (compose_layer a l (with_mask s (mergeRect (uiMaskedRect s) frame) (layerSkiped s)))
        else
          plane ← client_call k (getPlaneForLayerBuffer (dv_id dv) (l_buffer l));
          match plane with
          | Some p => mret (overlay_layer dv p a l s)
          | None =>
              let mask := mergeRect (uiMaskedRect s) frame in
              skip ← of_option (mask_covers mask (dv_width dv) (dv_height dv));
              mret (compose_layer a l (with_mask s mask (if skip : bool then true else layerSkiped s)))
          end
      else mret (compose_layer a l s)
  end.

Fixpoint validate_layers (k : Z) (dv : DisplayView) (overlaySupported : bool) (layers : list Z) (s : ValidateLoop) :
    St World ValidateLoop :=
  match layers with
  | [] => mret s
  | a :: layers' => s ← validate_layer k dv overlaySupported a s; validate_layers k dv overlaySupported layers' s
  end.

(** Asks for a change of the layers that satisfy [from]. *)
Fixpoint change_layers (hwc : Z) (from : Composition -> bool) (to : Composition) (layers : list Z) (ch : DisplayChanges) :
    St World DisplayChanges :=
  match layers with
  | [] => mret ch
  | a :: layers' =>
      l ← layer_at a;
      change_layers hwc from to layers'
        (if from (mCompositionType l) then addLayerCompositionChange hwc (l_id l) to ch else ch)
  end.

(** The single layer left to the client that could be shown as it is. *)
Definition find_lucky (layers : list Z) (old : option Z) : St World (option Z) :=
  match layers with
  | [a] => l ← layer_at a; mret (if is_device (mCompositionType l) && bool_decide (is_Some (l_buffer l)) then Some a else old)
  | _ => mret old
  end.

Definition leave_to_client (dv : DisplayView) (s : ValidateLoop) : bool :=
  negb g2d_isValid ||
  (negb (mustDeviceComposition s) && (negb (deviceComposition s) || fallBackToClient s || negb (dv_identity dv))).

(** The lists still hold what an earlier validation put there if it was not presented. *)
Definition validateDisplay (dv : DisplayView) (ch : DisplayChanges) : St World (Error * DisplayChanges) :=
  let d := dv_id dv in
  bufs ← gets mDisplayBuffers;
  match bufs !! d with
  | None => mret (BadDisplay, ch)
  | Some _ =>
      client ← getDeviceClient d;
      match client with
      | None => mret (BadDisplay, ch)
      | Some k =>
          v ← validated d;
          overlaySupported ← client_ask k (isOverlaySupport d);
          private ← scan_private (dv_ordered dv) (layersForNxpPrivate v);
          match private with
          | None =>
              set_validated d (mkValidated (layersForOverlayPlane v) (layersForComposition v) (compositionPlaneId v) []
                                 (luckyLayer v)) ;;
              mret (Unsupported, ch)
          | Some private =>
              plane ← prepare_planes k dv overlaySupported private;
              let compositionPlane := match plane with Some p => Some p | None => compositionPlaneId v end in
              s ← validate_layers k dv overlaySupported (dv_ordered dv)
                    (mkLoop (mkRect (dv_width dv) (dv_height dv) 0 0) false true false false (layersForOverlayPlane v)
                       (layersForComposition v) ch);
              if leave_to_client dv s then
                ch ← change_layers (dv_hwc dv) (fun c => negb (is_client c)) CLIENT (v_composition s) (v_changes s);
                lucky ← find_lucky (v_composition s) (luckyLayer v);
                set_validated d (mkValidated (v_overlay s) [] compositionPlane private lucky) ;;
                mret (NoError, ch)
              else
                ch ← change_layers (dv_hwc dv) is_client DEVICE (v_composition s) (v_changes s);
                set_validated d (mkValidated (v_overlay s) (v_composition s) compositionPlane private (luckyLayer v)) ;;
                mret (NoError, ch)
          end
      end
  end.

(** ** presentDisplay *)

(** The planes, in the order of [map_to_list] (the map of the code is not ordered).
    [false]: a buffer could not be made. *)
Fixpoint present_overlays (k d : Z) (planes : list (Z * Z)) (b : DisplayBuffer) : St World (bool * DisplayBuffer) :=
  match planes with
  | [] => mret (true, b)
  | (p, a) :: planes' =>
      l ← layer_at a;
      crop ← of_option (getSourceCropInt l);
      buf ← client_create k (l_buffer l) (mDisplayFrame l) crop DRM_BUFFER_PLANE;
      match buf with
      | None => mret (false, b)
      | Some n =>
          modify (fun w => with_buffers w (alter (fun x => set_zpos x (mZOrder l)) n (w_buffers w))) ;;
          (match mHdrMetadataState l with
           | HDR_ADDED => client_call k (fun c => (tt, setHdrMetadata d (Some (mHdrMetadata l)) c)) ;; set_layer a (fun l => with_hdr l HDR_PROCESSED)
           | _ => mret tt
           end) ;;
          let b := mkDisplayBuffer (clientTargetDrmBuffer b) (<[p := Some n]> (planeDrmBuffer b)) (dummyDrmBuffer b) in
          set_display_buffer d b ;;
          present_overlays k d planes' b
      end
  end.

Fixpoint layers_of (addrs : list Z) : St World (list Layer) :=
  match addrs with [] => mret [] | a :: addrs' => l ← layer_at a; ls ← layers_of addrs'; mret (l :: ls) end.

Definition is_secure (l : Layer) : bool :=
  match l_buffer l with
  | Some h => match getInfoFromHandle h with Some info => has_usage (hi_usage info) USAGE_PROTECTED | None => false end
  | None => false
  end.

Definition with_target (b : DisplayBuffer) (n : option nat) : DisplayBuffer :=
  mkDisplayBuffer n (planeDrmBuffer b) (dummyDrmBuffer b).

(** The frame buffer: composed, the client's, or the lucky layer's. *)
Definition present_target (k : Z) (dv : DisplayView) (v : ValidatedLayers) (b : DisplayBuffer) : St World (Error * DisplayBuffer) :=
  let d := dv_id dv in
  match layersForComposition v with
  | _ :: _ =>
      ls ← layers_of (layersForComposition v);
      target ← client_target k d (existsb is_secure ls);
      match target with
      | inl e => mret (e, b)
      | inr target =>
          modify (fun w => emitted w (Composed ls target)) ;;
          let frame := mkRect 0 0 (dv_width dv) (dv_height dv) in
          buf ← client_create k (Some target) frame frame DRM_BUFFER_FB;
          match buf with
          | None => mret (NoResources, b)
          | Some n => set_display_buffer d (with_target b (Some n)) ;; mret (NoError, with_target b (Some n))
          end
      end
  | [] =>
      match clientTargetDrmBuffer b, luckyLayer v with
      | None, Some a =>
          l ← layer_at a;
          crop ← of_option (getSourceCropInt l);
          buf ← client_create k (l_buffer l) (mDisplayFrame l) crop DRM_BUFFER_NONE;
          match buf with
          | None => mret (NoResources, b)
          | Some n => set_display_buffer d (with_target b (Some n)) ;; mret (NoError, with_target b (Some n))
          end
      | _, _ => mret (NoError, b)
      end
  end.

(** A single private layer takes the primary plane; the frame buffer moves to an overlay. *)
Definition present_private (k : Z) (dv : DisplayView) (v : ValidatedLayers) (b : DisplayBuffer) : St World (Error * DisplayBuffer) :=
  let d := dv_id dv in
  match layersForNxpPrivate v with
  | [a] =>
      let b :=
        match compositionPlaneId v with
        | None => b
        | Some p => mkDisplayBuffer None (<[p := clientTargetDrmBuffer b]> (planeDrmBuffer b)) (dummyDrmBuffer b)
        end in
      match dummyDrmBuffer b with
      | Some (_, n) => set_display_buffer d (with_target b (Some n)) ;; mret (NoError, with_target b (Some n))
      | None =>
          l ← layer_at a;
          let frame := mDisplayFrame l in
          crop ← of_option (getSourceCropInt l);
          width ← of_option (rect_width frame);
          height ← of_option (rect_height frame);
          made ← gets w_made;
          let '(_, buffers, made) :=
            prepareDeviceFrameBuffer made (⟦width⟧u 32) (⟦height⟧u 32) PixelFormat_RGBA_8888 1 false [] in
          modify (fun w => with_made w made) ;;
          h ← of_option (head buffers);
          buf ← client_create k (Some h) frame crop DRM_BUFFER_NONE;
          match buf with
          | None => set_display_buffer d b ;; mret (NoResources, b)
          | Some n =>
              let b := mkDisplayBuffer (Some n) (planeDrmBuffer b) (Some (h, n)) in
              set_display_buffer d b ;; mret (NoError, b)
          end
      end
  | _ =>
      let b := mkDisplayBuffer (clientTargetDrmBuffer b) (planeDrmBuffer b) None in set_display_buffer d b ;; mret (NoError, b)
  end.

(** The error and the layers that get a release fence. *)
Definition presentDisplay (dv : DisplayView) : St World (Error * list Z) :=
  let d := dv_id dv in
  bufs ← gets mDisplayBuffers;
  match bufs !! d with
  | None => mret (BadDisplay, [])
  | Some b =>
      v ← validated d;
      client ← getDeviceClient d;
      match client with
      | None => mret (BadDisplay, [])
      | Some k =>
          let planes := map_to_list (layersForOverlayPlane v) in
          (match planes with
           | [] => mret tt
           | _ =>
               client_clean k (Z.of_nat (length planes))
           end) ;;
          r ← present_overlays k d planes b;
          let '(ok, b) := r in
          if negb ok then mret (NoResources, [])
          else
            r ← present_target k dv v b;
            let '(e, b) := r in
            if negb (is_ok e) then mret (e, [])
            else
              r ← present_private k dv v b;
              let '(e, b) := r in
              if negb (is_ok e) then mret (e, [])
              else
                match clientTargetDrmBuffer b, map_to_list (planeDrmBuffer b), dummyDrmBuffer b with
                | None, [], None => mret (NoError, [])
                | _, _, _ =>
                    bs ← gets w_buffers;
                    e ← client_flush k d b;
                    modify (fun w => emitted w (Flushed d (shown_target bs b) (shown_planes bs b))) ;;
                    ls ← layers_of planes.*2;
                    set_display_buffer d (mkDisplayBuffer None ∅ (dummyDrmBuffer b)) ;;
                    set_validated d no_layers ;;
                    mret (e, l_id <$> ls)
                end
      end
  end.

(** ** The rest of the composer *)

Definition onDisplayCreate (d : Z) : St World Error :=
  client ← getDeviceClient d;
  match client with
  | None => mret BadDisplay
  | Some _ =>
      m ← gets mDisplayBuffers;
      (match m !! d with Some _ => mret tt | None => set_display_buffer d no_buffers end) ;;
      m ← gets mDisplayLayers;
      (match m !! d with Some _ => mret tt | None => set_validated d no_layers end) ;;
      mret NoError
  end.

Definition onDisplayDestroy (d : Z) : St World Error :=
  m ← gets mDisplayBuffers;
  match m !! d with
  | None => mret BadDisplay
  | Some _ =>
      client ← getDeviceClient d;
      match client with
      | None => mret BadDisplay
      | Some k =>
          client_call k (client_resetDisplayConfig d) ;;
          modify (fun w => with_display_buffers w (delete d (mDisplayBuffers w))) ;; mret NoError
      end
  end.

Definition onActiveConfigChange (d configId : Z) : St World Error :=
  client ← getDeviceClient d;
  match client with
  | None => mret BadDisplay
  | Some k => client_call k (client_setActiveConfigId d configId) ;; mret NoError
  end.

(** What the client answers is only logged. *)
Definition composer_setPowerMode (d : Z) (on : bool) : St World Error :=
  client ← getDeviceClient d;
  match client with
  | None => mret BadDisplay
  | Some _ => modify (fun w => emitted w (Powered d on)) ;; mret NoError
  end.

Definition setDisplayBrightness (d : Z) (brightness : spec_float) : St World Error :=
  client ← getDeviceClient d;
  match client with
  | None => mret BadDisplay
  | Some _ => modify (fun w => emitted w (Backlight d brightness)) ;; mret NoError
  end.

(** The pointers in [mDisplayLayers] stay. *)
Definition onDisplayLayerDestroy (d a : Z) : St World Error :=
  client ← getDeviceClient d;
  match client with
  | None => mret BadDisplay
  | Some k =>
      l ← layer_at a;
      (match mHdrMetadataState l with HDR_PROCESSED => client_call k (fun c => (tt, setHdrMetadata d None c)) | _ => mret tt end) ;;
      mret NoError
  end.

Definition onDisplayClientTargetSet (dv : DisplayView) : St World Error :=
  let d := dv_id dv in
  m ← gets mDisplayBuffers;
  match m !! d with
  | None => mret BadDisplay
  | Some b =>
      client ← getDeviceClient d;
      match client with
      | None => mret BadDisplay
      | Some k =>
          let frame := mkRect 0 0 (dv_width dv) (dv_height dv) in
          buf ← client_create k (dv_target dv) frame frame DRM_BUFFER_FB;
          match buf with
          | None => mret NoResources
          | Some n => set_display_buffer d (with_target b (Some n)) ;; mret NoError
          end
      end
  end.
End Composer.


Arguments World : clear implicits.
(** ** What a validation decides *)

Definition change_of (ch : DisplayChanges) (id : Z) : option Composition :=
  snd <$> find (fun p => p.1 =? id) (changed_layers ch).

(** The composition type of a layer once the changes are accepted. *)
Definition changed_type (ch : DisplayChanges) (l : Layer) : Composition := default (mCompositionType l) (change_of ch (l_id l)).

(** The layers the composer looks at. *)
Definition shown (l : Layer) : Prop := mCompositionType l <> NXP_PRIVATE /\ mCompositionType l <> INVALID.

Lemma change_of_add d id c ch id' :
  change_of (addLayerCompositionChange d id c ch) id' =
  match change_of ch id' with Some x => Some x | None => if id =? id' then Some c else None end.
Proof.
  unfold change_of, addLayerCompositionChange, changed_layers. destruct (compositionChanges ch) as [[d' l]|]; cbn.
  - induction l as [|[i x] l IH]; cbn; [by destruct (id =? id')|]. by destruct (i =? id').
  - by destruct (id =? id').
Qed.

Lemma changed_layers_add d id c ch : changed_layers (addLayerCompositionChange d id c ch) = changed_layers ch ++ [(id, c)].
Proof. unfold addLayerCompositionChange, changed_layers. by destruct (compositionChanges ch) as [[]|]. Qed.

Lemma change_of_None ch id : change_of ch id = None <-> id ∉ (changed_layers ch).*1.
Proof.
  unfold change_of. induction (changed_layers ch) as [|[i c] l IH]; cbn; [split; [intros _ ?%elem_of_nil|]; done|].
  rewrite elem_of_cons. destruct (Z.eqb_spec i id) as [->|Hne]; cbn; [split; [done|tauto]|].
  rewrite IH. split; [intros ? [?|?]; [congruence|done]|tauto].
Qed.

(** A layer is asked to change once. *)
Definition changed_once (ch : DisplayChanges) : Prop := NoDup (changed_layers ch).*1.

Lemma changed_once_add d id c ch : changed_once ch -> change_of ch id = None -> changed_once (addLayerCompositionChange d id c ch).
Proof.
  unfold changed_once. intros Hn Hid. rewrite changed_layers_add, fmap_app. apply NoDup_app. split_and!; [done| |apply NoDup_singleton].
  intros x Hx ->%list_elem_of_singleton. by apply change_of_None in Hid.
Qed.

(** A mask: the empty one, or the union of rectangles that do not overflow. *)
Definition mask_ok (m : Rect) : Prop :=
  - 2 ^ 30 <= r_left m < 2 ^ 31 /\ 0 <= r_right m < 2 ^ 30 /\ - 2 ^ 30 <= r_top m < 2 ^ 31 /\ 0 <= r_bottom m < 2 ^ 30.

Lemma mask_merge m r : mask_ok m -> sane_rect r -> mask_ok (mergeRect m r).
Proof.
  unfold mask_ok, sane_rect, mergeRect. cbn. intros (? & ? & ? & ?) (? & ? & ? & ?).
  repeat match goal with |- context [if ?b then _ else _] => destruct b eqn:? end; lia.
Qed.

Lemma mask_covers_defined m r w h : mask_ok m -> sane_rect r -> is_Some (mask_covers (mergeRect m r) w h).
Proof.
  intros Hm Hr. pose proof (mask_merge m r Hm Hr) as (? & ? & ? & ?).
  assert (r_left (mergeRect m r) < 2 ^ 30 /\ r_top (mergeRect m r) < 2 ^ 30) as [? ?].
  { destruct Hr as (? & ? & ? & ?). unfold mergeRect. cbn.
    repeat match goal with |- context [if ?b then _ else _] => destruct b eqn:? end; lia. }
  unfold mask_covers, rect_width, rect_height, checked_s. rewrite !decide_True by lia. cbn. destruct (_ <=? _); by eexists.
Qed.

Section Validation.
Context `{!HwcAbi, !DeviceComposerOps, !DeviceClient C, !DeviceClientLaws C}.
Context (w0 : World C) (dv : DisplayView) (k : Z) (ov : bool).
Abbreviation L := (w_layers w0).
Abbreviation d := (dv_id dv).

(** The world in a validation: only the client changes. *)
Definition client_world (c : C) : World C := with_clients w0 (<[k := c]> (mDeviceClients w0)).

Record loop_inv (dn : list Z) (s : ValidateLoop) (w : World C) : Prop := {
  li_world : exists c, w = client_world c /\ client_ok d c /\ NoDup (free_planes d c) /\
    forall p, is_Some (v_overlay s !! p) -> p ∉ free_planes d c;
  li_mask : mask_ok (uiMaskedRect s);
  li_split : forall a l, a ∈ dn -> L !! a = Some l -> shown l ->
    (a ∈ v_composition s /\ change_of (v_changes s) (l_id l) = None) \/
    ((exists p, v_overlay s !! p = Some a) /\ changed_type (v_changes s) l = DEVICE);
  li_comp : sublist (v_composition s) dn;
  li_overlay : forall p a, v_overlay s !! p = Some a -> (a ∈ dn) /\ (a ∉ v_composition s) /\ (forall q, v_overlay s !! q = Some a -> q = p);
  li_change : forall id, is_Some (change_of (v_changes s) id) -> exists a l, a ∈ dn /\ L !! a = Some l /\ id = l_id l;
  li_covered : ov = true -> layerSkiped s = false -> forall a l r, a ∈ v_composition s -> L !! a = Some l ->
    checkRectOverlap (mDisplayFrame l) r = true -> checkRectOverlap (uiMaskedRect s) r = true;
  li_order : forall i j a b la lb p, dn !! i = Some a -> dn !! j = Some b -> (i < j)%nat -> a ∈ v_composition s ->
    v_overlay s !! p = Some b -> L !! a = Some la -> L !! b = Some lb ->
    checkRectOverlap (mDisplayFrame la) (mDisplayFrame lb) = false;
  li_once : changed_once (v_changes s);
  li_shown : forall a l, a ∈ v_composition s -> L !! a = Some l -> shown l
}.

(** Ids name layers. *)
Definition distinct_ids (layers : list Z) : Prop := forall i j a b la lb, layers !! i = Some a -> layers !! j = Some b ->
  L !! a = Some la -> L !! b = Some lb -> l_id la = l_id lb -> i = j.

Lemma fresh_id dn a l todo : distinct_ids (dn ++ a :: todo) -> L !! a = Some l ->
  forall b lb, b ∈ dn -> L !! b = Some lb -> l_id lb <> l_id l.
Proof.
  intros Hd Hl b lb [i Hi]%list_elem_of_lookup Hb E.
  assert (i = length dn); [|by apply lookup_lt_Some in Hi; lia].
  apply (Hd i (length dn) b a lb l); [by apply lookup_app_l_Some| |done..].
  by apply list_lookup_middle.
Qed.

Lemma fresh_change dn s w a l todo : loop_inv dn s w -> distinct_ids (dn ++ a :: todo) -> L !! a = Some l ->
  change_of (v_changes s) (l_id l) = None.
Proof.
  intros Hs Hd Hl. apply eq_None_not_Some. intros (b & lb & Hb & Hlb & E)%(li_change _ _ _ Hs).
  by apply (fresh_id dn a l todo Hd Hl b lb).
Qed.

Lemma fresh_address dn a l todo : distinct_ids (dn ++ a :: todo) -> L !! a = Some l -> a ∉ dn.
Proof. intros Hd Hl Ha. by apply (fresh_id dn a l todo Hd Hl a l). Qed.

Lemma snoc_lookup {A} (l : list A) (x y : A) i : (l ++ [x]) !! i = Some y -> (l !! i = Some y /\ (i < length l)%nat) \/ (i = length l /\ y = x).
Proof.
  intros [Hi|[Hi Hx]]%lookup_app_Some; [left; split; [done|by eapply lookup_lt_Some]|right].
  apply list_lookup_singleton_Some in Hx as [Hx ->]. split; [lia|done].
Qed.

(** A pair of positions of [dn ++ [a]] whose second layer is in [dn]: both are. *)
Lemma order_old dn s w a l todo i j x y p : loop_inv dn s w -> distinct_ids (dn ++ a :: todo) -> L !! a = Some l ->
  (dn ++ [a]) !! i = Some x -> (dn ++ [a]) !! j = Some y -> (i < j)%nat -> v_overlay s !! p = Some y ->
  dn !! i = Some x /\ dn !! j = Some y.
Proof.
  intros Hs Hd Hl Hi Hj Hij Hy. apply snoc_lookup in Hj as [[Hj Hj']|[-> ->]].
  - apply snoc_lookup in Hi as [[Hi Hi']|[-> ->]]; [done|lia].
  - destruct (li_overlay _ _ _ Hs p a Hy) as (Ha & _). by destruct (fresh_address dn a l todo Hd Hl).
Qed.

(** A layer that is skipped. *)
Lemma inv_skip dn s w a l todo : loop_inv dn s w -> distinct_ids (dn ++ a :: todo) -> L !! a = Some l -> ~ shown l ->
  loop_inv (dn ++ [a]) s w.
Proof.
  intros Hs Hd Hl Hn. pose proof (order_old dn s w a l todo) as Hold. pose proof Hs as [H1 H2 H3 H4 H5 H6 H7 H8 H9 H10].
  split; [done|done| | | | |done| |done..].
  - intros b lb [Hb| ->%list_elem_of_singleton]%elem_of_app Hlb Hsh; [by apply (H3 b)|congruence].
  - by apply sublist_inserts_r.
  - intros p b Hp. destruct (H5 p b Hp) as (Hb & Hc & Hq). split; [rewrite elem_of_app; by left|done].
  - intros id Hid. destruct (H6 id Hid) as (b & lb & Hb & ?). exists b, lb. split; [rewrite elem_of_app; by left|done].
  - intros i j x y lx ly p Hi Hj Hij Hx Hy. destruct (Hold i j x y p) as [Hi' Hj']; [done..|]. eauto.
Qed.

(** A layer without a plane, and the mask it leaves. *)
Lemma inv_compose dn s w a l todo mask skip : loop_inv dn s w -> distinct_ids (dn ++ a :: todo) -> L !! a = Some l -> shown l ->
  mask_ok mask -> (layerSkiped s = true -> skip = true) ->
  (ov = true -> skip = false -> forall r, checkRectOverlap (uiMaskedRect s) r = true \/ checkRectOverlap (mDisplayFrame l) r = true ->
     checkRectOverlap mask r = true) ->
  loop_inv (dn ++ [a]) (compose_layer a l (with_mask s mask skip)) w.
Proof.
  intros Hs Hd Hl Hsh0 Hm Hskip Hmask. pose proof (order_old dn s w a l todo) as Hold.
  pose proof (fresh_change dn s w a l todo Hs Hd Hl) as Hfresh. pose proof (fresh_address dn a l todo Hd Hl) as Hna.
  pose proof Hs as [H1 H2 H3 H4 H5 H6 H7 H8 H9 H10]. split; cbn [compose_layer with_mask v_overlay v_composition v_changes uiMaskedRect layerSkiped].
  - done.
  - done.
  - intros b lb [Hb| ->%list_elem_of_singleton]%elem_of_app Hlb Hsh.
    + destruct (H3 b lb Hb Hlb Hsh) as [[Hc He]|Ho]; [left; split; [rewrite elem_of_app; by left|done]|by right].
    + left. split; [rewrite elem_of_app; right; by apply list_elem_of_singleton|]. congruence.
  - by apply sublist_app.
  - intros p b Hp. destruct (H5 p b Hp) as (Hb & Hc & Hq). split_and!; [rewrite elem_of_app; by left| |done].
    rewrite elem_of_app, list_elem_of_singleton. intros [?| ->]; done.
  - intros id Hid. destruct (H6 id Hid) as (b & lb & Hb & ?). exists b, lb. split; [rewrite elem_of_app; by left|done].
  - intros Hov Hsk b lb r [Hb| ->%list_elem_of_singleton]%elem_of_app Hlb Hr; apply Hmask; try done.
    + left. eapply H7; try done. destruct (layerSkiped s); [|done]. by rewrite Hskip in Hsk.
    + right. congruence.
  - intros i j x y lx ly p Hi Hj Hij [Hx| ->%list_elem_of_singleton]%elem_of_app Hy.
    + destruct (Hold i j x y p) as [Hi' Hj']; [done..|]. eauto.
    + destruct (Hold i j a y p) as [Hi' Hj']; [done..|]. exfalso. apply Hna. by eapply list_elem_of_lookup_2.
  - done.
  - intros b lb [Hb| ->%list_elem_of_singleton]%elem_of_app Hlb; [by apply (H10 b)|congruence].
Qed.

(** A layer that gets the plane [p]. *)
Lemma inv_overlay dn s w a l todo p c0 c : loop_inv dn s (client_world c0) -> distinct_ids (dn ++ a :: todo) -> L !! a = Some l ->
  client_ok d c0 -> v_overlay s !! p = None ->
  w = client_world c -> client_ok d c -> NoDup (free_planes d c) -> p ∉ free_planes d c ->
  (forall q, is_Some (v_overlay s !! q) -> q ∉ free_planes d c) ->
  ov = true -> layerSkiped s = false -> checkRectOverlap (uiMaskedRect s) (mDisplayFrame l) = false ->
  loop_inv (dn ++ [a]) (overlay_layer dv p a l s) w.
Proof.
  intros Hs Hd Hl Hok0 Hp -> Hok Hnd Hpf Hq Hov Hsk Hno. pose proof (order_old dn s (client_world c0) a l todo) as Hold.
  pose proof (fresh_change dn s _ a l todo Hs Hd Hl) as Hfresh. pose proof (fresh_address dn a l todo Hd Hl) as Hna.
  pose proof Hs as [_ H2 H3 H4 H5 H6 H7 H8 H9 H10].
  assert (forall id x, change_of (v_changes s) id = Some x -> change_of (v_changes (overlay_layer dv p a l s)) id = Some x) as Hkeep.
  { intros id x Hx. cbn. destruct (is_device _); [done|]. by rewrite change_of_add, Hx. }
  assert (emplace p a (v_overlay s) = <[p := a]> (v_overlay s)) as Ee by (unfold emplace; by rewrite Hp).
  assert (forall b, b ∈ v_composition s -> b ∈ dn) as Hsub by (intros b Hb; by eapply elem_of_sublist).
  split; cbn [overlay_layer v_overlay v_composition uiMaskedRect layerSkiped]; rewrite ?Ee.
  - exists c. split_and!; [done..|]. intros q Hq'. apply lookup_insert_is_Some in Hq' as [<-|[_ ?]]; auto.
  - done.
  - intros b lb [Hb| ->%list_elem_of_singleton]%elem_of_app Hlb Hsh.
    + destruct (H3 b lb Hb Hlb Hsh) as [[Hc He]|[[q Hqb] Ht]].
      * left. split; [done|]. cbn. destruct (is_device _); [done|]. rewrite change_of_add, He.
        destruct (Z.eqb_spec (l_id l) (l_id lb)) as [E|]; [|done]. by destruct (fresh_id dn a l todo Hd Hl b lb Hb Hlb).
      * right. split.
        -- exists q. rewrite lookup_insert_ne; [done|]. intros ->. congruence.
        -- unfold changed_type in *. destruct (change_of (v_changes s) (l_id lb)) as [x|] eqn:E; [by rewrite (Hkeep _ _ E)|].
           cbn in *. destruct (is_device (mCompositionType l)); [by rewrite E|]. rewrite change_of_add, E.
           destruct (Z.eqb_spec (l_id l) (l_id lb)) as [E'|]; [|done]. by destruct (fresh_id dn a l todo Hd Hl b lb Hb Hlb).
    + right. split; [exists p; apply lookup_insert_eq|]. rewrite Hl in Hlb. injection Hlb as <-. unfold changed_type. cbn.
      destruct (is_device (mCompositionType l)) eqn:Ed; [rewrite Hfresh; by destruct (mCompositionType l)|].
      by rewrite change_of_add, Hfresh, Z.eqb_refl.
  - by apply sublist_inserts_r.
  - intros q b [[<- <-]|[Hne Hqb]]%lookup_insert_Some.
    + split_and!; [rewrite elem_of_app; right; by apply list_elem_of_singleton|by intros ?%Hsub|].
      intros q [[<- _]|[_ Hqa]]%lookup_insert_Some; [done|]. by destruct (H5 q a Hqa).
    + destruct (H5 q b Hqb) as (Hb & Hc & Hu). split_and!; [rewrite elem_of_app; by left|done|].
      intros q' [[<- ->]|[_ Hq']]%lookup_insert_Some; [done|by apply Hu].
  - intros id Hid. cbn in Hid. destruct (is_device _).
    + destruct (H6 id Hid) as (b & lb & Hb & ?). exists b, lb. split; [rewrite elem_of_app; by left|done].
    + rewrite change_of_add in Hid. destruct (change_of (v_changes s) id) eqn:E.
      * destruct (H6 id) as (b & lb & Hb & ?); [by rewrite E|]. exists b, lb. split; [rewrite elem_of_app; by left|done].
      * destruct (Z.eqb_spec (l_id l) id) as [<-|]; [|by destruct Hid]. exists a, l.
        split; [rewrite elem_of_app; right; by apply list_elem_of_singleton|done].
  - done.
  - intros i j x y lx ly q Hi Hj Hij Hx [[<- <-]|[Hne Hy]]%lookup_insert_Some Hlx Hly.
    + rewrite Hl in Hly. injection Hly as <-. apply not_true_iff_false. intros Ho.
      rewrite (H7 Hov Hsk x lx (mDisplayFrame l)) in Hno; done.
    + destruct (Hold i j x y q) as [Hi' Hj']; [done..|]. eauto.
  - cbn. destruct (is_device _); [done|by apply changed_once_add].
  - done.
Qed.

Lemma client_world_insert c c' : with_clients (client_world c) (<[k := c']> (mDeviceClients (client_world c))) = client_world c'.
Proof. unfold client_world, with_clients. cbn. by rewrite insert_insert_eq. Qed.

Lemma client_call_runs {A} (f : C -> A * C) c Q :
  Q (f c).1 (client_world (f c).2) -> runs (client_call k f) (client_world c) Q.
Proof.
  intros HQ. unfold client_call. apply runs_bind, runs_gets, runs_bind, runs_of_option.
  exists c. split; [apply lookup_insert_eq|]. apply runs_bind, runs_modify, runs_ret. by rewrite client_world_insert.
Qed.

Lemma client_ask_runs {A} (f : C -> A) c Q : Q (f c) (client_world c) -> runs (client_ask k f) (client_world c) Q.
Proof.
  intros HQ. unfold client_ask. apply runs_bind, runs_gets, runs_bind, runs_of_option.
  exists c. split; [apply lookup_insert_eq|done].
Qed.

Lemma layer_at_runs a l c Q : L !! a = Some l -> Q l (client_world c) -> runs (layer_at a) (client_world c) Q.
Proof. intros Hl HQ. apply runs_bind, runs_gets, runs_of_option. by exists l. Qed.

Lemma compose_runs dn s w a l todo : loop_inv dn s w -> distinct_ids (dn ++ a :: todo) -> L !! a = Some l -> shown l ->
  (ov = true -> layerSkiped s = true) -> loop_inv (dn ++ [a]) (compose_layer a l s) w.
Proof.
  intros Hs Hd Hl Hsh Hov. replace s with (with_mask s (uiMaskedRect s) (layerSkiped s)) by (by destruct s).
  eapply inv_compose; [done..|by apply Hs|done|]. intros ? E. rewrite Hov in E; done.
Qed.

Lemma merge_runs dn s w a l todo skip : loop_inv dn s w -> distinct_ids (dn ++ a :: todo) -> L !! a = Some l -> shown l ->
  sane_rect (mDisplayFrame l) -> (layerSkiped s = true -> skip = true) ->
  loop_inv (dn ++ [a]) (compose_layer a l (with_mask s (mergeRect (uiMaskedRect s) (mDisplayFrame l)) skip)) w.
Proof.
  intros Hs Hd Hl Hsh Hsane Hskip. eapply inv_compose; [done..| |done|].
  - apply mask_merge; [by apply Hs|done].
  - intros _ _ r [Hr|Hr]; [by apply overlap_merge_l|by apply overlap_merge_r].
Qed.

Lemma plane_runs dn s c a l todo : loop_inv dn s (client_world c) -> distinct_ids (dn ++ a :: todo) -> L !! a = Some l -> shown l ->
  client_ok d c -> NoDup (free_planes d c) -> (forall q, is_Some (v_overlay s !! q) -> q ∉ free_planes d c) ->
  ov = true -> layerSkiped s = false -> sane_rect (mDisplayFrame l) ->
  checkRectOverlap (uiMaskedRect s) (mDisplayFrame l) = false ->
  runs (plane ← client_call k (getPlaneForLayerBuffer d (l_buffer l));
        match plane with
        | Some p => mret (overlay_layer dv p a l s)
        | None =>
            let mask := mergeRect (uiMaskedRect s) (mDisplayFrame l) in
            skip ← of_option (mask_covers mask (dv_width dv) (dv_height dv));
            mret (compose_layer a l (with_mask s mask (if skip : bool then true else layerSkiped s)))
        end) (client_world c) (loop_inv (dn ++ [a])).
Proof.
  intros Hs Hd Hl Hsh Hok Hnd Hfree Hov Hsk Hsane Hno. apply runs_bind, client_call_runs.
  destruct (getPlaneForLayerBuffer d (l_buffer l) c) as [o c'] eqn:E. cbn [fst snd].
  destruct (plane_ok d _ c o c' E Hok) as [Hok' Hp]. destruct o as [p|].
  - destruct Hp as (l1 & l2 & H1 & H2). rewrite H1 in Hnd, Hfree. apply runs_ret.
    apply NoDup_app in Hnd as (Hn1 & Hn12 & Hn2). apply NoDup_cons in Hn2 as [Hpn Hn2].
    eapply (inv_overlay dn s _ a l todo p c c'); try done; rewrite ?H2.
    + apply eq_None_not_Some. intros Hp. apply (Hfree p Hp). rewrite elem_of_app, elem_of_cons. auto.
    + apply NoDup_app. split_and!; [done| |done]. intros x Hx Hx2. apply (Hn12 x Hx). rewrite elem_of_cons. auto.
    + rewrite elem_of_app. intros [Hx|Hx]; [|done]. apply (Hn12 p Hx). rewrite elem_of_cons. auto.
    + intros q Hq Hin. apply (Hfree q Hq). rewrite elem_of_app, elem_of_cons in *. tauto.
  - cbn zeta. apply runs_bind, runs_of_option.
    destruct (mask_covers_defined (uiMaskedRect s) (mDisplayFrame l) (dv_width dv) (dv_height dv)) as [skip Hskip];
      [by apply Hs|done|].
    exists skip. split; [done|]. apply runs_ret. eapply merge_runs; [|done|done|done|done|by destruct skip].
    destruct Hs as [_ H2 H3 H4 H5 H6 H7 H8 H9 H10]. split; try done. exists c'. by rewrite Hp.
Qed.

Lemma validate_layer_runs dn s w a l todo : loop_inv dn s w -> distinct_ids (dn ++ a :: todo) -> L !! a = Some l -> sane_layer l ->
  runs (validate_layer k dv ov a s) w (loop_inv (dn ++ [a])).
Proof.
  intros Hs Hd Hl Hsane. pose proof (li_world _ _ _ Hs) as (c & -> & Hok & Hnd & Hfree).
  unfold validate_layer. apply runs_bind, (layer_at_runs a l c); [done|].
  assert (mCompositionType l = INVALID \/ mCompositionType l = NXP_PRIVATE -> loop_inv (dn ++ [a]) s (client_world c)) as Hskip.
  { intros Ht. eapply inv_skip; [done..|]. intros [? ?]. by destruct Ht. }
  assert (mCompositionType l <> INVALID -> mCompositionType l <> NXP_PRIVATE -> forall type,
    runs (if ov && negb (layerSkiped s) then
        bad ← (if checkRectOverlap (uiMaskedRect s) (mDisplayFrame l) then mret true
               else
                 ok ← client_ask k (checkOverlayLimitation d l);
                 ok ← of_option ok;
                 mret (negb ok || (negb (is_device type) && negb (is_client type))));
        if bad : bool then mret (compose_layer a l (with_mask s (mergeRect (uiMaskedRect s) (mDisplayFrame l)) (layerSkiped s)))
        else
          plane ← client_call k (getPlaneForLayerBuffer d (l_buffer l));
          match plane with
          | Some p => mret (overlay_layer dv p a l s)
          | None =>
              let mask := mergeRect (uiMaskedRect s) (mDisplayFrame l) in
              skip ← of_option (mask_covers mask (dv_width dv) (dv_height dv));
              mret (compose_layer a l (with_mask s mask (if skip : bool then true else layerSkiped s)))
          end
      else mret (compose_layer a l s)) (client_world c) (loop_inv (dn ++ [a]))) as Hgo.
  { intros Hne1 Hne2 type. assert (shown l) as Hsh by done. destruct ov eqn:Eov; cbn [andb]; [|apply runs_ret; eapply compose_runs; [done..|congruence]].
    destruct (layerSkiped s) eqn:Esk; cbn [negb]; [apply runs_ret; by eapply compose_runs|].
    assert (sane_rect (mDisplayFrame l)) as Hr by apply Hsane.
    assert (loop_inv (dn ++ [a]) (compose_layer a l (with_mask s (mergeRect (uiMaskedRect s) (mDisplayFrame l)) false)) (client_world c))
      as Hmerge by (eapply merge_runs; [done..|intros E; congruence]).
    apply runs_bind. destruct (checkRectOverlap (uiMaskedRect s) (mDisplayFrame l)) eqn:Eo; [by apply runs_ret|].
    apply runs_bind, client_ask_runs, runs_bind, runs_of_option.
    destruct (check_defined d l c Hok Hsane) as [ok Hc]. exists ok. split; [done|]. apply runs_ret.
    destruct (_ || _); [by apply runs_ret|]. rewrite <- Esk. eapply plane_runs; done. }
  destruct (mCompositionType l) eqn:Et; try (by apply Hskip; auto); by apply Hgo.
Qed.

Lemma validate_layers_runs todo dn s w : loop_inv dn s w -> distinct_ids (dn ++ todo) ->
  (forall a, a ∈ todo -> exists l, L !! a = Some l /\ sane_layer l) ->
  runs (validate_layers k dv ov todo s) w (loop_inv (dn ++ todo)).
Proof.
  revert dn s w. induction todo as [|a todo IH]; intros dn s w Hs Hd Hl; cbn; [by rewrite app_nil_r|].
  destruct (Hl a) as (l & Ha & Hsane); [apply list_elem_of_here|]. apply runs_bind.
  eapply runs_mono; [|by eapply validate_layer_runs]. intros s1 w1 Hs1.
  replace (dn ++ a :: todo) with ((dn ++ [a]) ++ todo) in * by (by rewrite <- app_assoc). apply IH; [done..|].
  intros b Hb. apply Hl. by apply list_elem_of_further.
Qed.

Lemma scan_private_runs layers acc w : w_layers w = L ->
  (forall a, a ∈ layers -> exists l, L !! a = Some l /\ mCompositionType l <> DISPLAY_DECORATION) ->
  runs (scan_private (C := C) layers acc) w (fun r w' => w' = w /\ exists ps, r = Some (acc ++ ps) /\
    forall a, a ∈ ps -> a ∈ layers /\ exists l, L !! a = Some l /\ mCompositionType l = NXP_PRIVATE).
Proof.
  intros Hw. revert acc. induction layers as [|a layers IH]; intros acc Hl; cbn.
  { split; [done|]. exists []. split; [by rewrite app_nil_r|]. by intros a ?%elem_of_nil. }
  destruct (Hl a) as (l & Ha & Hd); [apply list_elem_of_here|].
  apply runs_bind, runs_bind, runs_gets, runs_of_option. exists l. rewrite Hw. split; [done|].
  assert (is_decoration (mCompositionType l) = false) as -> by (by destruct (mCompositionType l)).
  eapply runs_mono; [|apply IH; intros b Hb; apply Hl; by apply list_elem_of_further].
  intros r w' (-> & ps & -> & Hps). split; [done|]. destruct (is_private _) eqn:Ep.
  - exists (a :: ps). split; [by rewrite <- app_assoc|]. intros b [->|Hb]%elem_of_cons.
    + split; [apply list_elem_of_here|]. exists l. split; [done|]. by destruct (mCompositionType l).
    + destruct (Hps b Hb). split; [by apply list_elem_of_further|done].
  - exists ps. split; [done|]. intros b Hb. destruct (Hps b Hb). split; [by apply list_elem_of_further|done].
Qed.

Lemma sane_width r : sane_rect r -> is_Some (rect_width r) /\ is_Some (rect_height r).
Proof. intros (? & ? & ? & ?). unfold rect_width, rect_height, checked_s. rewrite !decide_True by lia. split; by eexists. Qed.

Lemma prepare_planes_runs private c : client_ok d c -> ov = isOverlaySupport d c ->
  (forall a, a ∈ private -> exists l, L !! a = Some l /\ sane_layer l) ->
  runs (prepare_planes k dv ov private) (client_world c)
    (fun _ w' => exists c', w' = client_world c' /\ client_ok d c' /\ NoDup (free_planes d c')).
Proof.
  intros Hok Hov Hl.
  assert (runs (client_call k (prepareDrmPlanesForValidate d false) ;; mret (None : option Z)) (client_world c)
    (fun _ w' => exists c', w' = client_world c' /\ client_ok d c' /\ NoDup (free_planes d c'))) as Hplain.
  { apply runs_bind, client_call_runs. destruct (prepareDrmPlanesForValidate d false c) as [o c'] eqn:E. cbn.
    destruct (prepare_ok d _ c o c' E Hok) as (? & ? & _). by exists c'. }
  unfold prepare_planes. destruct private as [|a [|b private]]; [done| |done]. destruct ov; [|done].
  destruct (Hl a) as (l & Ha & [Hr _]); [apply list_elem_of_here|]. destruct (sane_width _ Hr) as [[w Hw] [h Hh]].
  apply runs_bind, (layer_at_runs a l c); [done|]. apply runs_bind, runs_of_option. exists w. split; [done|].
  apply runs_bind. eapply (runs_mono _ _ (fun _ w' => w' = client_world c)).
  2:{ destruct (_ <? _); [by apply runs_ret|]. apply runs_bind, runs_of_option. exists h. split; [done|by apply runs_ret]. }
  intros small w' ->. destruct small; [|done]. apply runs_bind, client_call_runs.
  destruct (prepareDrmPlanesForValidate d true c) as [o c'] eqn:E. cbn.
  destruct (prepare_ok d _ c o c' E Hok) as (? & ? & Hp). destruct (Hp eq_refl (eq_sym Hov)) as (p & -> & _).
  apply runs_bind, runs_of_option. exists p. split; [done|]. apply runs_ret. by exists c'.
Qed.

Lemma change_layers_runs hwc from to layers ch w : w_layers w = L -> (forall a, a ∈ layers -> is_Some (L !! a)) ->
  runs (change_layers (C := C) hwc from to layers ch) w (fun ch' w' => w' = w /\
    (forall id x, change_of ch id = Some x -> change_of ch' id = Some x) /\
    (forall id x, change_of ch' id = Some x -> change_of ch id = Some x \/
       (x = to /\ exists a l, a ∈ layers /\ L !! a = Some l /\ l_id l = id /\ from (mCompositionType l) = true)) /\
    (forall a l, a ∈ layers -> L !! a = Some l -> from (mCompositionType l) = true -> is_Some (change_of ch' (l_id l)))).
Proof.
  intros Hw. revert ch. induction layers as [|a layers IH]; intros ch Hl; cbn.
  { split_and!; [done|done|auto|]. by intros a l ?%elem_of_nil. }
  destruct (Hl a) as [l Ha]; [apply list_elem_of_here|].
  apply runs_bind, runs_bind, runs_gets, runs_of_option. exists l. rewrite Hw. split; [done|].
  set (ch1 := if from (mCompositionType l) then addLayerCompositionChange hwc (l_id l) to ch else ch).
  assert (forall id, change_of ch1 id = match change_of ch id with Some x => Some x | None =>
    if from (mCompositionType l) && (l_id l =? id) then Some to else None end) as Hch1.
  { intros id. unfold ch1. destruct (from _); [by rewrite change_of_add|]. by destruct (change_of ch id). }
  eapply runs_mono; [|apply IH; intros b Hb; apply Hl; by apply list_elem_of_further].
  intros ch' w' (-> & H1 & H2 & H3). split_and!; [done| | |].
  - intros id x Hx. apply H1. by rewrite Hch1, Hx.
  - intros id x [Hx|(-> & b & lb & Hb & Hx)]%H2.
    + rewrite Hch1 in Hx. destruct (change_of ch id) eqn:E; [by left|]. destruct (from _) eqn:Ef; [|done]. cbn in Hx.
      destruct (Z.eqb_spec (l_id l) id); [|done]. injection Hx as <-. right. split; [done|]. exists a, l.
      split; [apply list_elem_of_here|done].
    + right. split; [done|]. exists b, lb. split; [by apply list_elem_of_further|done].
  - intros b lb [->|Hb]%elem_of_cons Hlb Hf; [|by apply (H3 b)].
    rewrite Ha in Hlb. injection Hlb as <-. destruct (change_of ch1 (l_id l)) as [x|] eqn:E; [rewrite (H1 _ _ E); by eexists|].
    rewrite Hch1, Hf, Z.eqb_refl in E. by destruct (change_of ch (l_id l)).
Qed.

(** Layers that have no change yet get one at most. *)
Lemma change_layers_once hwc from to layers ch w : w_layers w = L -> NoDup layers -> (forall a, a ∈ layers -> is_Some (L !! a)) ->
  (forall a b la lb, a ∈ layers -> L !! a = Some la -> L !! b = Some lb -> b ∈ layers -> l_id la = l_id lb -> a = b) ->
  (forall a l, a ∈ layers -> L !! a = Some l -> change_of ch (l_id l) = None) -> changed_once ch ->
  runs (change_layers (C := C) hwc from to layers ch) w (fun ch' w' => changed_once ch').
Proof.
  intros Hw. revert ch. induction layers as [|a layers IH]; intros ch Hnd Hl Hd Hn Ho; cbn; [done|].
  apply NoDup_cons in Hnd as [Ha Hnd]. destruct (Hl a) as [l Hla]; [apply list_elem_of_here|].
  apply runs_bind, runs_bind, runs_gets, runs_of_option. exists l. rewrite Hw. split; [done|].
  assert (change_of ch (l_id l) = None) as Hc by (by apply (Hn a); [apply list_elem_of_here|]).
  apply IH; [done|intros b Hb; apply Hl; by apply list_elem_of_further| | |].
  - intros x y lx ly Hx Hlx Hly Hy. apply (Hd x y lx ly); [by apply list_elem_of_further|done|done|by apply list_elem_of_further].
  - intros b lb Hb Hlb. assert (change_of ch (l_id lb) = None) as Hcb by (apply (Hn b); [by apply list_elem_of_further|done]).
    destruct (from _); [|done]. rewrite change_of_add, Hcb. destruct (Z.eqb_spec (l_id l) (l_id lb)) as [E|]; [|done].
    destruct Ha. assert (a = b) as -> by (by apply (Hd a b l lb); [apply list_elem_of_here| | |apply list_elem_of_further|]). done.
  - destruct (from _); [by apply changed_once_add|done].
Qed.

(** A list of layers whose types are changed, each layer once. *)
Lemma change_layers_type hwc from to layers ch w : w_layers w = L -> (forall a, a ∈ layers -> is_Some (L !! a)) ->
  (forall a b la lb, a ∈ layers -> L !! a = Some la -> L !! b = Some lb -> b ∈ layers -> l_id la = l_id lb -> a = b) ->
  runs (change_layers (C := C) hwc from to layers ch) w (fun ch' w' => w' = w /\
    (forall a l, a ∈ layers -> L !! a = Some l -> change_of ch (l_id l) = None ->
       changed_type ch' l = if from (mCompositionType l) then to else mCompositionType l) /\
    (forall l, (forall a la, a ∈ layers -> L !! a = Some la -> l_id la <> l_id l) -> changed_type ch' l = changed_type ch l)).
Proof.
  intros Hw Hl Hd. eapply runs_mono; [|by apply change_layers_runs]. intros ch' w' (-> & H1 & H2 & H3). split_and!; [done| |].
  - intros a l Ha Hla Hn. unfold changed_type. destruct (from (mCompositionType l)) eqn:Ef.
    + destruct (H3 a l Ha Hla Ef) as [x Hx]. rewrite Hx. cbn. destruct (H2 _ _ Hx) as [?|[-> _]]; [congruence|done].
    + destruct (change_of ch' (l_id l)) as [x|] eqn:E; [|done]. destruct (H2 _ _ E) as [?|(-> & b & lb & Hb & Hlb & Hid & Hf)]; [congruence|].
      assert (b = a) as -> by (by apply (Hd b a lb l)). congruence.
  - intros l Hn. unfold changed_type. f_equal. destruct (change_of ch (l_id l)) as [x|] eqn:E; [by apply H1|].
    apply eq_None_not_Some. intros [x Hx]. destruct (H2 _ _ Hx) as [?|(_ & b & lb & Hb & Hlb & Hid & _)]; [congruence|].
    by apply (Hn b lb).
Qed.
End Validation.

(** ** The decisions of a validation *)

Section Decisions.
Context `{!HwcAbi, !DeviceComposerOps, !DeviceClient C, !DeviceClientLaws C}.

(** A display whose last validation was presented, with layers that exist and have ids of their own. *)
Record validate_ready (w : World C) (dv : DisplayView) (k : Z) (c : C) : Prop := {
  vr_buffers : is_Some (mDisplayBuffers w !! dv_id dv);
  vr_client : getDeviceClient (dv_id dv) w = Some (Some k, w);
  vr_state : mDeviceClients w !! k = Some c;
  vr_ok : client_ok (dv_id dv) c;
  vr_clean : default no_layers (mDisplayLayers w !! dv_id dv) = no_layers;
  vr_layers : forall a, a ∈ dv_ordered dv -> exists l, w_layers w !! a = Some l /\ sane_layer l /\ mCompositionType l <> DISPLAY_DECORATION;
  vr_ids : distinct_ids w (dv_ordered dv);
  vr_size : 0 <= dv_width dv < 2 ^ 31 /\ 0 <= dv_height dv < 2 ^ 31
}.

Lemma client_world_same (w : World C) k c : mDeviceClients w !! k = Some c -> client_world w k c = w.
Proof. intros Hk. unfold client_world, with_clients. rewrite insert_id by done. by destruct w. Qed.

Lemma distinct_ids_inj (w : World C) layers a b la lb : distinct_ids w layers -> a ∈ layers -> b ∈ layers ->
  w_layers w !! a = Some la -> w_layers w !! b = Some lb -> l_id la = l_id lb -> a = b.
Proof.
  intros Hd [i Hi]%list_elem_of_lookup [j Hj]%list_elem_of_lookup Ha Hb E.
  assert (i = j) by (by apply (Hd i j a b la lb)). congruence.
Qed.

(** The state of the loop before the first layer. *)
Definition loop_start (dv : DisplayView) : ValidateLoop :=
  mkLoop (mkRect (dv_width dv) (dv_height dv) 0 0) false true false false ∅ [] changes_empty.

Lemma loop_start_ok w dv k ov c : client_ok (dv_id dv) c -> NoDup (free_planes (dv_id dv) c) ->
  0 <= dv_width dv < 2 ^ 31 /\ 0 <= dv_height dv < 2 ^ 31 ->
  loop_inv w dv k ov [] (loop_start dv) (client_world w k c).
Proof.
  intros Hok Hnd [Hw Hh]. split; cbn.
  - exists c. split_and!; [done..|]. intros p. rewrite lookup_empty. by intros [].
  - unfold mask_ok. cbn. lia.
  - by intros a l ?%elem_of_nil.
  - constructor.
  - intros p a. by rewrite lookup_empty.
  - intros id. by intros [].
  - by intros _ _ a l r ?%elem_of_nil.
  - intros i j a b la lb p Hi. by rewrite lookup_nil in Hi.
  - constructor.
  - by intros a l ?%elem_of_nil.
Qed.

(** What is decided about the layers of a display. *)
Record decided (w : World C) (dv : DisplayView) (ch : DisplayChanges) (v : ValidatedLayers) : Prop := {
  de_composition : sublist (layersForComposition v) (dv_ordered dv);
  de_plane : forall p a, layersForOverlayPlane v !! p = Some a -> (a ∈ dv_ordered dv) /\
    (forall q, layersForOverlayPlane v !! q = Some a -> q = p);
  de_layer : forall a l, a ∈ dv_ordered dv -> w_layers w !! a = Some l -> shown l ->
    ((exists p, layersForOverlayPlane v !! p = Some a) /\ (a ∉ layersForComposition v) /\ changed_type ch l = DEVICE) \/
    ((forall p, layersForOverlayPlane v !! p <> Some a) /\ a ∈ layersForComposition v /\ changed_type ch l <> CLIENT) \/
    ((forall p, layersForOverlayPlane v !! p <> Some a) /\ layersForComposition v = [] /\ changed_type ch l = CLIENT);
  de_order : forall i j a b la lb p, dv_ordered dv !! i = Some a -> dv_ordered dv !! j = Some b -> (i < j)%nat ->
    w_layers w !! a = Some la -> w_layers w !! b = Some lb -> shown la ->
    (forall q, layersForOverlayPlane v !! q <> Some a) -> layersForOverlayPlane v !! p = Some b ->
    checkRectOverlap (mDisplayFrame la) (mDisplayFrame lb) = false;
  de_once : changed_once ch;
  de_lucky : forall a, luckyLayer v = Some a -> a ∈ dv_ordered dv;
  de_private : forall a, a ∈ layersForNxpPrivate v -> exists l, w_layers w !! a = Some l /\ mCompositionType l = NXP_PRIVATE /\ a ∈ dv_ordered dv
}.

(** A layer that has no plane is in the list of the loop. *)
Lemma loop_composition w dv k ov s w' a l : loop_inv w dv k ov (dv_ordered dv) s w' -> a ∈ dv_ordered dv ->
  w_layers w !! a = Some l -> shown l -> (forall p, v_overlay s !! p <> Some a) -> a ∈ v_composition s.
Proof. intros Hs Ha Hl Hsh Hno. destruct (li_split _ _ _ _ _ _ _ Hs a l Ha Hl Hsh) as [[? _]|[[p Hp] _]]; [done|by destruct (Hno p)]. Qed.

(** The decision from the result of the loop, whoever composes the layers without a plane. *)
Lemma decide_layers w dv k ov s w' ch plane private lucky (client : bool) :
  loop_inv w dv k ov (dv_ordered dv) s w' ->
  (forall a l, a ∈ v_composition s -> w_layers w !! a = Some l -> shown l -> change_of (v_changes s) (l_id l) = None ->
     if client then changed_type ch l = CLIENT else changed_type ch l <> CLIENT) ->
  (forall l, (forall a la, a ∈ v_composition s -> w_layers w !! a = Some la -> l_id la <> l_id l) ->
     changed_type ch l = changed_type (v_changes s) l) ->
  distinct_ids w (dv_ordered dv) -> changed_once ch ->
  (forall a, lucky = Some a -> a ∈ dv_ordered dv) ->
  (forall a, a ∈ private -> exists l, w_layers w !! a = Some l /\ mCompositionType l = NXP_PRIVATE /\ a ∈ dv_ordered dv) ->
  decided w dv ch (mkValidated (v_overlay s) (if client then [] else v_composition s) plane private lucky).
Proof.
  intros Hs Hcomp Hother Hd Honce Hlucky Hprivate. pose proof Hs as [H1 H2 H3 H4 H5 H6 H7 H8 H9 H10]. split; cbn; [| | | |done..].
  - destruct client; [apply sublist_nil_l|done].
  - intros p a Hp. destruct (H5 p a Hp) as (? & ? & ?). done.
  - intros a l Ha Hl Hsh. destruct (H3 a l Ha Hl Hsh) as [[Hc Hn]|[[p Hp] Ht]].
    + assert (forall p, v_overlay s !! p <> Some a) as Hno by (intros p Hp; by destruct (H5 p a Hp) as (_ & ? & _)).
      specialize (Hcomp a l Hc Hl Hsh Hn). right. destruct client; [right|left]; done.
    + left. destruct (H5 p a Hp) as (_ & Hc & _). split_and!; [by exists p|by destruct client; [apply not_elem_of_nil|]|].
      rewrite Hother; [done|]. intros b lb Hb Hlb E.
      assert (b = a) as -> by (eapply distinct_ids_inj; [exact Hd|by eapply elem_of_sublist|exact Ha|done..]). done.
  - intros i j a b la lb p Hi Hj Hij Hla Hlb Hsh Hno Hp. eapply (H8 i j a b la lb p); try done.
    eapply loop_composition; try done. by eapply list_elem_of_lookup_2.
Qed.

(** A validation of a display with existing layers whose last validation was presented succeeds and assigns every
    layer to exactly one place: a plane of its own (its type becomes DEVICE), the 2D engine (its type is not CLIENT), or
    the client (its type becomes CLIENT, and then the 2D engine composes none); and a layer on a plane overlaps no layer
    below it that is not on a plane. *)
Lemma validate_assigns_every_layer w dv k c : validate_ready w dv k c ->
  exists ch w' v, validateDisplay dv changes_empty w = Some ((NoError, ch), w') /\ w_layers w' = w_layers w /\
    mDisplayLayers w' !! dv_id dv = Some v /\ decided w dv ch v.
Proof.
  intros Hready. pose proof Hready as [[b Hb] Hk Hc Hok Hclean Hl Hd Hsize].
  set (ov := isOverlaySupport (dv_id dv) c).
  assert (runs (validateDisplay dv changes_empty) w (fun r w' => r.1 = NoError /\ w_layers w' = w_layers w /\
    exists v, mDisplayLayers w' !! dv_id dv = Some v /\ decided w dv r.2 v)) as Hruns.
  { unfold validateDisplay. apply runs_bind, runs_gets. rewrite Hb. apply runs_bind. unfold runs at 1. rewrite Hk.
    apply runs_bind. apply runs_bind, runs_gets, runs_ret. rewrite Hclean. cbn [no_layers layersForOverlayPlane layersForComposition layersForNxpPrivate compositionPlaneId luckyLayer].
    apply runs_bind. rewrite <- (client_world_same w k c Hc) at 1. apply client_ask_runs. fold ov. rewrite (client_world_same w k c Hc).
    apply runs_bind. eapply runs_mono; [|apply (scan_private_runs w); [done|]].
    2:{ intros a Ha. destruct (Hl a Ha) as (l & ? & _ & ?). by exists l. }
    intros r w1 (-> & ps & -> & Hps). cbn [app]. apply runs_bind.
    rewrite <- (client_world_same w k c Hc) at 1. eapply runs_mono; [|apply (prepare_planes_runs w dv k ov ps c Hok eq_refl)].
    2:{ intros a Ha. destruct (Hps a Ha) as [Ha' _]. destruct (Hl a Ha') as (l & ? & ? & ?). by exists l. }
    assert (forall a, a ∈ ps -> exists l, w_layers w !! a = Some l /\ mCompositionType l = NXP_PRIVATE /\ a ∈ dv_ordered dv) as Hprivate.
    { intros a Ha. destruct (Hps a Ha) as (? & l & ? & ?). by exists l. }
    intros plane w1 (c1 & -> & Hok1 & Hnd1). apply runs_bind.
    eapply runs_mono; [|apply (validate_layers_runs w dv k ov (dv_ordered dv) [] (loop_start dv)); [by apply loop_start_ok|done|]].
    2:{ intros a Ha. destruct (Hl a Ha) as (l & ? & ? & ?). by exists l. }
    intros s w1 Hs. rewrite app_nil_l in Hs. pose proof (li_world _ _ _ _ _ _ _ Hs) as (c2 & -> & _).
    assert (forall a, a ∈ v_composition s -> a ∈ dv_ordered dv) as Hsub
      by (intros a Ha; eapply elem_of_sublist; [done|apply Hs]).
    assert (forall a, a ∈ v_composition s -> is_Some (w_layers w !! a)) as Hlive.
    { intros a Ha%Hsub. destruct (Hl a Ha) as (l & -> & _). by eexists. }
    assert (forall a b la lb, a ∈ v_composition s -> w_layers w !! a = Some la -> w_layers w !! b = Some lb ->
      b ∈ v_composition s -> l_id la = l_id lb -> a = b) as Hinj.
    { intros a b' la lb Ha%Hsub Hla Hlb Hb'%Hsub. by apply (distinct_ids_inj w (dv_ordered dv) a b' la lb). }
    assert (NoDup (v_composition s)) as Hnodup.
    { eapply sublist_NoDup; [|apply Hs]. apply NoDup_alt. intros i j a Hi Hj. destruct (Hl a) as (l & Ha & _); [by eapply list_elem_of_lookup_2|].
      by apply (Hd i j a a l l). }
    assert (forall a l, a ∈ v_composition s -> w_layers w !! a = Some l -> change_of (v_changes s) (l_id l) = None) as Hnone.
    { intros a l Ha Hla. destruct (li_split _ _ _ _ _ _ _ Hs a l (Hsub a Ha) Hla) as [[_ ?]|[[p Hp] _]]; [by eapply li_shown|done|].
      by destruct (li_overlay _ _ _ _ _ _ _ Hs p a Hp) as (_ & ? & _). }
    pose proof (li_once _ _ _ _ _ _ _ Hs) as Honce0.
    destruct (leave_to_client dv s).
    - apply runs_bind. eapply runs_mono; [|apply runs_and; [by apply (change_layers_type w)|by apply (change_layers_once w)]].
      intros ch w1 [(-> & H1 & H2) Honce]. apply runs_bind. eapply (runs_mono _ _ (fun lucky w' => w' = client_world w k c2 /\ forall a, lucky = Some a -> a ∈ dv_ordered dv)).
      2:{ unfold find_lucky. destruct (v_composition s) as [|a [|a' l']]; [done| |done]. destruct (Hlive a) as [l Hla]; [apply list_elem_of_here|].
          apply runs_bind, (layer_at_runs w k a l c2); [done|]. apply runs_ret. split; [done|]. intros x Hx. apply Hsub.
          destruct (_ && _); [injection Hx as <-; apply list_elem_of_here|done]. }
      intros lucky w1 [-> Hlucky]. apply runs_bind, runs_modify, runs_ret. split_and!; [done..|]. eexists. split; [apply lookup_insert_eq|].
      apply (decide_layers w dv k ov s (client_world w k c2) ch _ _ _ true Hs); [|done..].
      intros a l Ha Hla _ Hn. rewrite (H1 a l Ha Hla Hn). by destruct (mCompositionType l).
    - apply runs_bind. eapply runs_mono; [|apply runs_and; [by apply (change_layers_type w)|by apply (change_layers_once w)]].
      intros ch w1 [(-> & H1 & H2) Honce]. apply runs_bind, runs_modify, runs_ret. split_and!; [done..|]. eexists. split; [apply lookup_insert_eq|].
      apply (decide_layers w dv k ov s (client_world w k c2) ch _ _ _ false Hs); [|done..].
      intros a l Ha Hla _ Hn. rewrite (H1 a l Ha Hla Hn). by destruct (mCompositionType l). }
  apply runs_some in Hruns as ([e ch] & w' & Hr & He & Hlay & v & Hv & Hdec). cbn in *. subst e. by exists ch, w', v.
Qed.
End Decisions.

(** ** What a presentation shows *)

Section Presentation.
Context `{!HwcAbi, !DeviceComposerOps, !DeviceClient C, !DeviceClientLaws C}.

(** A buffer that shows a layer. *)
Record shows (l : Layer) (x : DrmBuffer) : Prop := {
  sh_buffer : (l_buffer l ≫= buffer_key) = Some (db_handle x);
  sh_frame : db_frame x = mDisplayFrame l;
  sh_crop : getSourceCropInt l = Some (db_crop x);
  sh_z : mZpos x = mZOrder l
}.

(** The buffer at an address, which the client reuses for one type at most. *)
Definition keeps (c : C) (bs : list DrmBuffer) (t : BufferType) (n : nat) (x : DrmBuffer) : Prop :=
  bs !! n = Some x /\ forall t', cached c t' n -> t' = t.

(** A buffer has been made: what was kept for another type or for another memory is as it was. *)
Record made (h : option Z) (frame crop : Rect) (t : BufferType) (c : C) (bs : list DrmBuffer) (n : nat) (x : DrmBuffer) (c' : C)
    (bs' : list DrmBuffer) : Prop := {
  ma_key : (h ≫= buffer_key) = Some (db_handle x);
  ma_frame : db_frame x = frame;
  ma_crop : db_crop x = crop;
  ma_new : keeps c' bs' t n x;
  ma_other : forall t1 n1 x1, keeps c bs t1 n1 x1 -> t1 <> t \/ db_handle x1 <> db_handle x -> n1 <> n /\ keeps c' bs' t1 n1 x1
}.

Lemma create_made d h frame crop t c bs : client_ok d c -> buffers_ok c bs ->
  exists o c' bs', create h frame crop t (c, bs) = Some (o, (c', bs')) /\ client_ok d c' /\ buffers_ok c' bs' /\
    match o with None => True | Some n => exists x, made h frame crop t c bs n x c' bs' end.
Proof.
  intros Hok Hb. destruct (create_ok d h frame crop t c bs Hok Hb) as (o & c' & bs' & E & Hok' & Hb' & Ho).
  exists o, c', bs'. split_and!; [done..|]. destruct o as [n|]; [|done].
  destruct Ho as (x & Hx & Hkey & Hf & Hc & Hsame & Hcached & Hn). exists x. split; [done|done|done| |].
  - split; [done|]. intros t' [Hc'|[-> _]]%Hcached; [|done].
    destruct Hn as [Hn|[Hn _]]; [pose proof (cached_bound _ _ _ _ Hb Hc'); lia|]. by eapply (cached_type c bs).
  - intros t1 n1 x1 [Hx1 Ht1] Hor. assert (n1 <> n) as Hne.
    { intros ->. destruct Hn as [Hn|[Hn Hd]]; [apply lookup_lt_Some in Hx1; lia|]. rewrite Hx1 in Hd. injection Hd as Hd.
      destruct Hor as [Ht|Hk]; [by destruct Ht; rewrite (Ht1 _ Hn)|done]. }
    split; [done|]. split; [by rewrite Hsame|]. intros t' [Hc'|[-> ->]]%Hcached; [by apply Ht1|done].
Qed.

Lemma keeps_zpos c bs n z t1 n1 x1 : n1 <> n -> keeps c bs t1 n1 x1 ->
  keeps c (alter (fun x => set_zpos x z) n bs) t1 n1 x1.
Proof. intros Hne [H1 H2]. split; [by rewrite list_lookup_alter_ne|done]. Qed.

Lemma handles_zpos n z (bs : list DrmBuffer) : db_handle <$> alter (fun x => set_zpos x z) n bs = db_handle <$> bs.
Proof.
  apply list_eq. intros i. rewrite !list_lookup_fmap. destruct (decide (i = n)) as [->|Hne].
  - rewrite list_lookup_alter_eq. by destruct (bs !! n).
  - by rewrite list_lookup_alter_ne.
Qed.

Context (w0 : World C) (dv : DisplayView) (k : Z).
Abbreviation d := (dv_id dv).

(** The world in a presentation. *)
Record pworld (c : C) (w : World C) : Prop := {
  pw_client : mDeviceClients w !! k = Some c;
  pw_ok : client_ok d c;
  pw_buffers : buffers_ok c (w_buffers w);
  pw_layers : forall a l, w_layers w0 !! a = Some l -> exists h, w_layers w !! a = Some (with_hdr l h)
}.

Lemma client_create_runs c w h frame crop t Q : pworld c w ->
  (forall o c' bs', pworld c' (with_buffers (with_clients w (<[k := c']> (mDeviceClients w))) bs') ->
     match o with None => True | Some n => exists x, made h frame crop t c (w_buffers w) n x c' bs' end ->
     Q o (with_buffers (with_clients w (<[k := c']> (mDeviceClients w))) bs')) ->
  runs (client_create k h frame crop t) w Q.
Proof.
  intros [H1 H2 H3 H4] HQ. unfold client_create. apply runs_bind, runs_gets, runs_bind, runs_of_option. exists c. split; [done|].
  apply runs_bind, runs_gets. destruct (create_made d h frame crop t c (w_buffers w) H2 H3) as (o & c' & bs' & E & ? & ? & Ho).
  apply runs_bind, runs_of_option. exists (o, (c', bs')). split; [done|]. apply runs_bind, runs_modify, runs_ret.
  apply HQ; [|done]. split; cbn; [apply lookup_insert_eq|done..].
Qed.

Lemma layer_at_pworld c w a l Q : pworld c w -> w_layers w0 !! a = Some l ->
  (forall h, Q (with_hdr l h) w) -> runs (layer_at a) w Q.
Proof.
  intros Hw Hl HQ. destruct (pw_layers _ _ Hw a l Hl) as [h Hh]. apply runs_bind, runs_gets, runs_of_option. by eexists.
Qed.

(** The planes that have a buffer so far, and the frame buffer, if there is one. *)
Record planes_inv (dn : list (Z * Z)) (b : DisplayBuffer) (c : C) (w : World C) : Prop := {
  pl_world : pworld c w;
  pl_target : forall n, clientTargetDrmBuffer b = Some n ->
    exists t x, t <> DRM_BUFFER_PLANE /\ keeps c (w_buffers w) t n x /\ sane_rect (db_frame x) /\ sane_rect (db_crop x);
  pl_made : forall p a, (p, a) ∈ dn -> exists l n x, w_layers w0 !! a = Some l /\ planeDrmBuffer b !! p = Some (Some n) /\
    keeps c (w_buffers w) DRM_BUFFER_PLANE n x /\ shows l x;
  pl_only : forall p, is_Some (planeDrmBuffer b !! p) -> p ∈ dn.*1
}.

(** The layers on the planes exist, and have buffers in different memory. *)
Definition planes_ready (planes : list (Z * Z)) : Prop :=
  NoDup planes.*1 /\
  (forall p a, (p, a) ∈ planes -> exists l, w_layers w0 !! a = Some l /\ sane_layer l) /\
  (forall p a q b la lb, (p, a) ∈ planes -> (q, b) ∈ planes -> p <> q -> w_layers w0 !! a = Some la ->
     w_layers w0 !! b = Some lb -> (l_buffer la ≫= buffer_key) <> (l_buffer lb ≫= buffer_key)).

Lemma with_hdr_twice l h h' : with_hdr (with_hdr l h) h' = with_hdr l h'.
Proof. done. Qed.

(** The HDR metadata of a layer: the client and the layer change. *)
Lemma hdr_runs c w a st m Q : pworld c w ->
  (forall c' w', pworld c' w' -> w_buffers w' = w_buffers w -> w_history w' = w_history w ->
     (forall t m, cached c' t m -> cached c t m) -> Q tt w') ->
  runs (match st with
        | HDR_ADDED => client_call k (fun c => (tt, setHdrMetadata d (Some m) c)) ;; set_layer a (fun l => with_hdr l HDR_PROCESSED)
        | _ => mret tt
        end) w Q.
Proof.
  intros [H1 H2 H3 H4] HQ. destruct st; [by apply runs_ret, (HQ c)| |by apply runs_ret, (HQ c)].
  apply runs_bind. unfold client_call. apply runs_bind, runs_gets, runs_bind, runs_of_option. exists c. split; [done|].
  apply runs_bind, runs_modify, runs_ret, runs_modify. cbn. destruct (hdr_ok d (Some m) c H2) as (? & ? & ?).
  apply (HQ (setHdrMetadata d (Some m) c)); [|done..]. split; cbn; [apply lookup_insert_eq|done|by auto|].
  intros a' l Hl. destruct (H4 a' l Hl) as [h Hh]. destruct (decide (a' = a)) as [->|Hne].
  - rewrite lookup_alter_eq, Hh. by eexists.
  - rewrite lookup_alter_ne by done. by eexists.
Qed.

(** One more plane. *)
Lemma plane_made dn p a l b c w n x c1 bs1 c2 w2 : planes_inv dn b c w -> (p ∉ dn.*1) ->
  (forall q a' l', (q, a') ∈ dn -> w_layers w0 !! a' = Some l' -> (l_buffer l ≫= buffer_key) <> (l_buffer l' ≫= buffer_key)) ->
  w_layers w0 !! a = Some l -> getSourceCropInt l = Some (db_crop x) ->
  made (l_buffer l) (mDisplayFrame l) (db_crop x) DRM_BUFFER_PLANE c (w_buffers w) n x c1 bs1 ->
  pworld c2 w2 -> w_buffers w2 = alter (fun x => set_zpos x (mZOrder l)) n bs1 -> (forall t m, cached c2 t m -> cached c1 t m) ->
  planes_inv (dn ++ [(p, a)]) (mkDisplayBuffer (clientTargetDrmBuffer b) (<[p := Some n]> (planeDrmBuffer b)) (dummyDrmBuffer b)) c2 w2.
Proof.
  intros [Hw Ht Hm Hon] Hp Hdist Hl Hcrop Hma Hw2 Hbs Hca. pose proof Hma as [Hkey Hframe _ [Hx Hxt] Hother].
  assert (forall t1 n1 x1, keeps c (w_buffers w) t1 n1 x1 -> t1 <> DRM_BUFFER_PLANE \/ db_handle x1 <> db_handle x ->
    keeps c2 (w_buffers w2) t1 n1 x1) as Hkeep.
  { intros t1 n1 x1 Hk Hor. destruct (Hother t1 n1 x1 Hk Hor) as [Hne Hk']. rewrite Hbs.
    apply (keeps_zpos c1 bs1 n (mZOrder l)) in Hk' as [? Hc1]; [|done]. split; [done|]. intros t' ?%Hca. by apply Hc1. }
  split; cbn [clientTargetDrmBuffer planeDrmBuffer].
  - done.
  - intros m Hm'. destruct (Ht m Hm') as (t & y & ? & ? & ?). exists t, y. split_and!; [done| |tauto..]. apply Hkeep; auto.
  - intros q a' [Hq|[= -> ->]%list_elem_of_singleton]%elem_of_app.
    + destruct (Hm q a' Hq) as (l' & n' & x' & Hl' & Hn' & Hk & Hs). exists l', n', x'.
      assert (q <> p) by (intros ->; apply Hp, list_elem_of_fmap; by exists (p, a')).
      split_and!; [done|by rewrite lookup_insert_ne| |done]. apply Hkeep; [done|]. right. intros E.
      apply (Hdist q a' l' Hq Hl'). destruct Hs as [Hs _ _ _]. rewrite Hkey, Hs, E. done.
    + exists l, n, (set_zpos x (mZOrder l)). split_and!; [done|by rewrite lookup_insert_eq| |].
      * split; [rewrite Hbs, list_lookup_alter_eq, Hx; done|]. intros t' ?%Hca. by apply Hxt.
      * split; [done|done|done|done].
  - intros q [<-|[_ Hq]]%lookup_insert_is_Some; rewrite fmap_app, elem_of_app; [right; by left|left; by apply Hon].
Qed.

Lemma present_overlays_runs planes : forall dn b c w, planes_inv dn b c w -> planes_ready (dn ++ planes) ->
  runs (present_overlays k d planes b) w (fun r w' => w_history w' = w_history w /\
    (r.1 = true -> exists c', planes_inv (dn ++ planes) r.2 c' w')).
Proof.
  induction planes as [|[p a] planes IH]; intros dn b c w Hinv Hready; cbn [present_overlays].
  { apply runs_ret. split; [done|]. intros _. exists c. by rewrite app_nil_r. }
  pose proof Hready as (Hnd & Hlive & Hdist). assert ((p, a) ∈ dn ++ (p, a) :: planes) as Hin by (rewrite elem_of_app; right; by left).
  destruct (Hlive p a Hin) as (l & Hl & Hsane). pose proof Hinv as [Hw _ _ _].
  apply runs_bind, (layer_at_pworld c w a l _ Hw Hl). intros h. destruct Hsane as [_ (crop & Hcrop & _)].
  apply runs_bind, runs_of_option. exists crop. split; [done|]. cbn [with_hdr l_buffer mDisplayFrame mZOrder mHdrMetadataState].
  apply runs_bind, (client_create_runs c w); [done|]. intros o c1 bs1 Hw1 Ho. destruct o as [n|]; [|by apply runs_ret].
  destruct Ho as [x Hx]. apply runs_bind, runs_modify, runs_bind.
  set (w1 := with_buffers _ (alter _ n _)).
  assert (pworld c1 w1) as Hw1'.
  { destruct Hw1 as [? ? ? ?]. split; cbn in *; [done..| |done]. eapply buffers_same; [done|]. apply (handles_zpos n (mZOrder l)). }
  apply (hdr_runs c1 w1); [done|]. intros c2 w2 Hw2 Hbs Hh Hc. apply runs_bind, runs_modify.
  eapply runs_mono; [|apply (IH (dn ++ [(p, a)]) _ c2)].
  - intros r w' [Hhist Hr]. split; [by rewrite Hhist|]. by rewrite <- app_assoc in Hr.
  - eapply (plane_made dn p a l b c w n x c1 bs1); [done| | |done| | | |done|done].
    + rewrite fmap_app in Hnd. apply NoDup_app in Hnd as (_ & Hn & _). intros Hp. apply (Hn p Hp). by left.
    + intros q a' l' Hq Hl'. apply (Hdist p a q a'); [done|rewrite elem_of_app; by left| |done..].
      intros ->. rewrite fmap_app in Hnd. apply NoDup_app in Hnd as (_ & Hn & _). apply (Hn q); [|by left].
      apply list_elem_of_fmap. by exists (q, a').
    + by rewrite (ma_crop _ _ _ _ _ _ _ _ _ _ Hx).
    + by rewrite (ma_crop _ _ _ _ _ _ _ _ _ _ Hx).
    + destruct Hw2 as [? ? ? ?]. by split.
  - by rewrite <- app_assoc.
Qed.

(** A client that keeps no more than before. *)
Lemma planes_client dn b c w c' w' : planes_inv dn b c w -> pworld c' w' -> w_buffers w' = w_buffers w ->
  (forall t m, cached c' t m -> cached c t m) -> planes_inv dn b c' w'.
Proof.
  intros [Hw Ht Hm Ho] Hw' Hb Hc.
  assert (forall t n x, keeps c (w_buffers w) t n x -> keeps c' (w_buffers w') t n x) as Hk.
  { intros t n x [Hx Hx']. rewrite Hb. split; [done|]. intros t' ?%Hc. by apply Hx'. }
  split; [done| | |done].
  - intros n Hn. destruct (Ht n Hn) as (t & x & ? & ? & ?). exists t, x. split_and!; [done|by apply Hk|tauto..].
  - intros p a Hp. destruct (Hm p a Hp) as (l & n & x & ? & ? & ? & ?). exists l, n, x. split_and!; [done..|by apply Hk|done].
Qed.

(** A new frame buffer. *)
Lemma target_made dn b c w h frame crop t n x c1 bs1 w1 : planes_inv dn b c w -> t <> DRM_BUFFER_PLANE ->
  made h frame crop t c (w_buffers w) n x c1 bs1 -> pworld c1 w1 -> w_buffers w1 = bs1 -> sane_rect frame -> sane_rect crop ->
  planes_inv dn (with_target b (Some n)) c1 w1.
Proof.
  intros [Hw Ht Hm Ho] Hne [Hkey Hf Hc Hnew Hother] Hw1 <- Hsf Hsc. split; [done| | |done]; cbn.
  - intros m [= <-]. exists t, x. rewrite Hf, Hc. done.
  - intros p a Hp. destruct (Hm p a Hp) as (l & n' & x' & ? & ? & ? & ?). exists l, n', x'. split_and!; [done..| |done].
    eapply Hother; [done|]. left. congruence.
Qed.

Lemma layers_of_runs c w addrs Q : pworld c w -> (forall a, a ∈ addrs -> is_Some (w_layers w0 !! a)) ->
  (forall ls, Forall2 (fun a l => exists l0 h, w_layers w0 !! a = Some l0 /\ l = with_hdr l0 h) addrs ls -> Q ls w) ->
  runs (layers_of addrs) w Q.
Proof.
  intros Hw. revert Q. induction addrs as [|a addrs IH]; intros Q Hl HQ; cbn; [by apply runs_ret, HQ|].
  destruct (Hl a) as [l0 Hl0]; [by left|]. apply runs_bind, (layer_at_pworld c w a l0); [done..|]. intros h.
  apply runs_bind, IH; [intros b Hb; apply Hl; by right|]. intros ls Hls. apply runs_ret, HQ. constructor; [|done]. by eexists _, _.
Qed.

(** What a validation has decided can be presented. *)
Record present_ready (b : DisplayBuffer) (c : C) (v : ValidatedLayers) : Prop := {
  rd_buffers : mDisplayBuffers w0 !! d = Some b;
  rd_client : getDeviceClient d w0 = Some (Some k, w0);
  rd_layers : mDisplayLayers w0 !! d = Some v;
  rd_world : planes_inv [] b c w0;
  rd_clean : layersForOverlayPlane v <> ∅ -> is_Some (partialCleanCacheBuffer (Z.of_nat (size (layersForOverlayPlane v))) c);
  rd_planes : planes_ready (map_to_list (layersForOverlayPlane v));
  rd_composition : forall a, a ∈ layersForComposition v -> is_Some (w_layers w0 !! a);
  rd_lucky : forall a, luckyLayer v = Some a -> exists l, w_layers w0 !! a = Some l /\ sane_layer l;
  rd_private : length (layersForNxpPrivate v) <> 1%nat;
  rd_size : 0 <= dv_width dv < 2 ^ 14 /\ 0 <= dv_height dv < 2 ^ 14
}.

(** The 2D engine has composed the layers it was given, into the buffer the display gets. *)
Definition composed (v : ValidatedLayers) (target : option DrmBuffer) (h : list composer_event) : Prop :=
  match layersForComposition v with
  | [] => h = []
  | addrs => exists ls t x, h = [Composed ls t] /\ target = Some x /\ buffer_key t = Some (db_handle x) /\
      db_frame x = mkRect 0 0 (dv_width dv) (dv_height dv) /\
      Forall2 (fun a l => exists l0 s, w_layers w0 !! a = Some l0 /\ l = with_hdr l0 s) addrs ls
  end.

Lemma present_target_runs b c w v dn b0 c0 : present_ready b0 c0 v -> planes_inv dn b c w ->
  runs (present_target k dv v b) w (fun r w' => r.1 = NoError -> exists c' h, planes_inv dn r.2 c' w' /\
    w_history w' = w_history w ++ h /\ composed v (shown_target (w_buffers w') r.2) h).
Proof.
  intros Hready Hinv. pose proof (pl_world _ _ _ _ Hinv) as Hw. pose proof (rd_size _ _ _ Hready) as [Hwd Hht].
  assert (sane_rect (mkRect 0 0 (dv_width dv) (dv_height dv))) as Hsane by (unfold sane_rect; cbn; lia).
  unfold present_target, composed. pose proof (rd_composition _ _ _ Hready) as Hcomp.
  destruct (layersForComposition v) as [|a addrs] eqn:Ec.
  - assert (exists c' h, planes_inv dn b c' w /\ w_history w = w_history w ++ h /\ h = []) as Hsame.
    { exists c, []. by rewrite app_nil_r. }
    destruct (clientTargetDrmBuffer b) as [n|]; [by apply runs_ret|].
    destruct (luckyLayer v) as [a|] eqn:El; [|by apply runs_ret].
    destruct (rd_lucky _ _ _ Hready a El) as (l & Hl & Hfr & crop & Hcrop & Hcr & _).
    apply runs_bind, (layer_at_pworld c w a l); [done..|]. intros h. apply runs_bind, runs_of_option. exists crop. split; [done|].
    apply runs_bind, (client_create_runs c w); [done|]. intros o c1 bs1 Hw1 Ho. destruct o as [n|]; [|by apply runs_ret].
    destruct Ho as [x Hx]. apply runs_bind, runs_modify, runs_ret. intros _. exists c1, []. split_and!; [|by rewrite app_nil_r|done].
    eapply target_made; [done| |done| |done..]; [done|]. by destruct Hw1; split.
  - apply runs_bind, (layers_of_runs c w); [done..|]. intros ls Hls. apply runs_bind. unfold client_target.
    destruct Hw as [Hk Hok Hbk Hlay]. apply runs_bind, runs_gets, runs_bind, runs_of_option. exists c. split; [done|].
    apply runs_bind, runs_gets. destruct (target_ok d (existsb is_secure ls) (w_made w) c Hok) as (r & made' & c1 & E & Hok1 & Hbk1 & Hc1 & Hr).
    apply runs_bind, runs_of_option. exists (r, (made', c1)). split; [done|]. apply runs_bind, runs_modify, runs_ret.
    destruct r as [e|t]; [apply runs_ret; cbn; intros ->; done|]. apply runs_bind, runs_modify.
    set (w1 := emitted _ _). assert (planes_inv dn b c1 w1) as Hinv1.
    { eapply planes_client; [done| |done|done]. split; cbn; [apply lookup_insert_eq|done|by apply Hbk1|done]. }
    apply runs_bind, (client_create_runs c1 w1); [by apply Hinv1|]. intros o c2 bs2 Hw2 Ho. destruct o as [n|]; [|by apply runs_ret].
    destruct Ho as [x Hx]. apply runs_bind, runs_modify, runs_ret. intros _. exists c2, [Composed ls t]. split_and!; [|done|].
    + eapply target_made; [done| |done| |done..]; [done|]. by destruct Hw2; split.
    + exists ls, t, x. destruct Hx as [Hkey Hf _ [Hx _] _]. split_and!; [done|done|by cbn in Hkey|done..].
Qed.

(** Without a private layer only the dummy buffer goes. *)
Lemma present_private_runs b c w v dn b0 c0 Q : present_ready b0 c0 v -> planes_inv dn b c w ->
  (forall w', planes_inv dn (mkDisplayBuffer (clientTargetDrmBuffer b) (planeDrmBuffer b) None) c w' ->
     w_history w' = w_history w -> w_buffers w' = w_buffers w ->
     Q (NoError, mkDisplayBuffer (clientTargetDrmBuffer b) (planeDrmBuffer b) None) w') ->
  runs (present_private k dv v b) w Q.
Proof.
  intros Hready Hinv HQ. unfold present_private. pose proof (rd_private _ _ _ Hready).
  destruct (layersForNxpPrivate v) as [|? [|? ?]]; [|done|]; apply runs_bind, runs_modify, runs_ret, HQ; try done;
    destruct Hinv as [[? ? ? ?] ? ? ?]; by split.
Qed.

(** A display gets, for every plane the validation gave to a layer, the buffer of this layer where the layer is, and
    nothing on other planes; the frame buffer is what the 2D engine has composed, if it had layers to compose. *)
Definition presented (v : ValidatedLayers) (h : list composer_event) : Prop :=
  exists target planes h0, h = h0 ++ [Flushed d target planes] /\ composed v target h0 /\
    forall p, match layersForOverlayPlane v !! p with
      | Some a => exists l x, w_layers w0 !! a = Some l /\ planes !! p = Some x /\ shows l x
      | None => planes !! p = None
      end.

Lemma planes_flushable dn b c w : planes_inv dn b c w -> planes_ready dn -> flushable (w_buffers w) b.
Proof.
  intros [_ Ht Hm Ho] (_ & Hl & _). split.
  - intros n Hn. destruct (Ht n Hn) as (t & x & _ & [Hx _] & ?). by exists x.
  - intros p o Hp. assert (p ∈ dn.*1) as ([q a] & -> & Hq)%list_elem_of_fmap by (apply Ho; by eexists).
    destruct (Hm q a Hq) as (l & n & x & Hla & Hn & [Hx _] & [_ Hf Hc Hz]). cbn in *. rewrite Hn in Hp. injection Hp as <-.
    destruct (Hl q a Hq) as (l' & Hl' & Hs1 & crop & Hc' & Hs2). rewrite Hla in Hl'. injection Hl' as <-.
    rewrite Hc in Hc'. injection Hc' as <-. exists n, x. rewrite Hf, Hz. destruct Hs2. done.
Qed.

Lemma planes_shown v b c w : planes_inv (map_to_list (layersForOverlayPlane v)) b c w ->
  forall p, match layersForOverlayPlane v !! p with
    | Some a => exists l x, w_layers w0 !! a = Some l /\ shown_planes (w_buffers w) b !! p = Some x /\ shows l x
    | None => shown_planes (w_buffers w) b !! p = None
    end.
Proof.
  intros [_ _ Hm Ho] p. unfold shown_planes. rewrite lookup_omap. destruct (layersForOverlayPlane v !! p) as [a|] eqn:Hp.
  - destruct (Hm p a) as (l & n & x & Hl & Hn & [Hx _] & Hs); [by apply elem_of_map_to_list|]. exists l, x.
    split_and!; [done| |done]. rewrite Hn. cbn. by rewrite Hx.
  - destruct (planeDrmBuffer b !! p) as [o|] eqn:Hb; [|done]. exfalso.
    assert (p ∈ (map_to_list (layersForOverlayPlane v)).*1) as ([q a] & -> & Hq)%list_elem_of_fmap by (apply Ho; by eexists).
    apply elem_of_map_to_list in Hq. cbn in *. congruence.
Qed.

Lemma client_clean_runs c w n Q : pworld c w -> is_Some (partialCleanCacheBuffer n c) ->
  (forall c' w', pworld c' w' -> w_buffers w' = w_buffers w -> w_history w' = w_history w ->
     (forall t m, cached c' t m -> cached c t m) -> Q tt w') ->
  runs (client_clean k n) w Q.
Proof.
  intros [H1 H2 H3 H4] [c' Hc] HQ. unfold client_clean. apply runs_bind, runs_gets, runs_bind, runs_of_option. exists c.
  split; [done|]. apply runs_bind, runs_of_option. exists c'. split; [done|]. apply runs_modify.
  destruct (clean_ok d n c c' Hc H2) as (? & ? & ?). apply (HQ c'); [|done..]. split; cbn; [apply lookup_insert_eq|done|by auto|done].
Qed.

(** The last steps: the buffers go to the display, and the lists are cleared. *)
Lemma flush_runs v b c w : planes_inv (map_to_list (layersForOverlayPlane v)) b c w ->
  planes_ready (map_to_list (layersForOverlayPlane v)) ->
  runs (bs ← gets w_buffers;
        e ← client_flush k d b;
        modify (fun w => emitted w (Flushed d (shown_target bs b) (shown_planes bs b))) ;;
        ls ← layers_of (map_to_list (layersForOverlayPlane v)).*2;
        set_display_buffer d (mkDisplayBuffer None ∅ (dummyDrmBuffer b)) ;;
        set_validated d no_layers ;;
        mret (e, l_id <$> ls)) w
    (fun r w' => w_history w' = w_history w ++ [Flushed d (shown_target (w_buffers w) b) (shown_planes (w_buffers w) b)] /\
       (forall p a l, layersForOverlayPlane v !! p = Some a -> w_layers w0 !! a = Some l -> l_id l ∈ r.2) /\
       mDisplayLayers w' !! d = Some no_layers).
Proof.
  intros Hinv Hready. destruct (pl_world _ _ _ _ Hinv) as [Hk Hok Hb Hl]. apply runs_bind, runs_gets, runs_bind.
  unfold client_flush. apply runs_bind, runs_gets, runs_bind, runs_of_option. exists c. split; [done|]. apply runs_bind, runs_gets.
  destruct (flush_ok d b (w_buffers w) c Hok Hb) as (e & c' & E & Hok' & Hb'); [by eapply planes_flushable|].
  apply runs_bind, runs_of_option. exists (e, c'). split; [done|]. apply runs_bind, runs_modify, runs_ret, runs_bind, runs_modify.
  set (w1 := emitted _ _).
  assert (pworld c' w1) as Hw1 by (split; cbn; [apply lookup_insert_eq|done..]).
  apply runs_bind, (layers_of_runs c' w1); [done| |].
  - intros a ([q a'] & -> & Hq)%list_elem_of_fmap. destruct Hready as (_ & Hlive & _).
    destruct (Hlive q a' Hq) as (l & ? & _). by exists l.
  - intros ls Hls. apply runs_bind, runs_modify, runs_bind, runs_modify, runs_ret. cbn. split_and!; [done| |apply lookup_insert_eq].
    intros p a l Hp Ha. apply elem_of_map_to_list in Hp. assert (a ∈ (map_to_list (layersForOverlayPlane v)).*2) as Hin
      by (apply list_elem_of_fmap; by exists (p, a)).
    apply list_elem_of_lookup in Hin as [i Hi]. destruct (Forall2_lookup_l _ _ _ _ _ Hls Hi) as (l' & Hi' & l0 & s & Hl0 & ->).
    rewrite Ha in Hl0. injection Hl0 as <-. apply list_elem_of_fmap. exists (with_hdr l s).
    split; [done|by eapply list_elem_of_lookup_2].
Qed.

(** Presenting what was validated never fails to run, and if it reports no error it hands the hardware the frame the
    validation decided: every overlay layer's buffer on its plane with its frame, crop and position, the other device
    layers composed in order into the target, a fence for each overlay layer, and nothing left over for the next frame. *)
Lemma present_shows_validated b c v : present_ready b c v ->
  exists e fences w', presentDisplay dv w0 = Some ((e, fences), w') /\
    (e = NoError -> layersForOverlayPlane v <> ∅ \/ layersForComposition v <> [] ->
     (exists h, w_history w' = w_history w0 ++ h /\ presented v h) /\
     (forall p a l, layersForOverlayPlane v !! p = Some a -> w_layers w0 !! a = Some l -> l_id l ∈ fences) /\
     mDisplayLayers w' !! d = Some no_layers).
Proof.
  intros Hready. pose proof Hready as [Hb Hk Hv Hw Hclean Hplanes _ _ _ _].
  set (planes := map_to_list (layersForOverlayPlane v)) in *.
  assert (runs (presentDisplay dv) w0 (fun r w' =>
    (r.1 = NoError -> layersForOverlayPlane v <> ∅ \/ layersForComposition v <> [] ->
     (exists h, w_history w' = w_history w0 ++ h /\ presented v h) /\
     (forall p a l, layersForOverlayPlane v !! p = Some a -> w_layers w0 !! a = Some l -> l_id l ∈ r.2) /\
     mDisplayLayers w' !! d = Some no_layers))) as Hruns;
    [|apply runs_some in Hruns as ([e f] & w' & ? & ?); by exists e, f, w'].
  unfold presentDisplay. apply runs_bind, runs_gets. rewrite Hb. apply runs_bind. apply runs_bind, runs_gets, runs_ret.
  rewrite Hv. cbn [default from_option id]. apply runs_bind. unfold runs at 1. rewrite Hk. fold planes. apply runs_bind.
  apply (runs_mono _ _ (fun _ w1 => w_history w1 = w_history w0 /\ exists c1, planes_inv [] b c1 w1)).
  2:{ assert (planes <> [] -> runs (client_clean k (Z.of_nat (length planes))) w0
        (fun _ w1 => w_history w1 = w_history w0 /\ exists c1, planes_inv [] b c1 w1)) as Hcl.
      { intros Hne. apply (client_clean_runs c); [by apply Hw| |].
        - unfold planes. rewrite length_map_to_list. apply Hclean. intros E. apply Hne. unfold planes. by rewrite E, map_to_list_empty.
        - intros c' w' Hw' Hbs Hh Hc. split; [done|]. exists c'. by eapply planes_client. }
      destruct planes; [apply runs_ret; eauto|by apply Hcl]. }
  intros _ w1 (Hh1 & c1 & Hw1). apply runs_bind. eapply runs_mono; [|by apply (present_overlays_runs planes [] b c1 w1)].
  intros [ok b1] w2 [Hh2 Hr]. cbn in *. destruct ok; [|by apply runs_ret]. destruct (Hr eq_refl) as [c2 Hw2]. cbn [negb].
  apply runs_bind. eapply runs_mono; [|by apply (present_target_runs b1 c2 w2 v planes b c)].
  intros [e b2] w3 Ht. cbn in Ht. destruct e; try by (apply runs_ret). destruct (Ht eq_refl) as (c3 & h & Hw3 & Hh3 & Hcomp).
  cbn [is_ok negb]. apply runs_bind, (present_private_runs b2 c3 w3 v planes b c); [done..|]. intros w4 Hw4 Hh4 Hbs4.
  cbn [is_ok negb clientTargetDrmBuffer planeDrmBuffer dummyDrmBuffer].
  pose proof (planes_shown v _ _ _ Hw4) as Hshown. rewrite Hbs4 in Hshown.
  match goal with |- context [runs (match _ with _ => _ end) w4 ?Q] =>
    assert (runs (bs ← gets w_buffers; e ← client_flush k d (mkDisplayBuffer (clientTargetDrmBuffer b2) (planeDrmBuffer b2) None);
        modify (fun w => emitted w (Flushed d (shown_target bs (mkDisplayBuffer (clientTargetDrmBuffer b2) (planeDrmBuffer b2) None))
          (shown_planes bs (mkDisplayBuffer (clientTargetDrmBuffer b2) (planeDrmBuffer b2) None)))) ;;
        ls ← layers_of planes.*2; set_display_buffer d (mkDisplayBuffer None ∅ None) ;; set_validated d no_layers ;;
        mret (e, l_id <$> ls)) w4 Q) as Hflush end.
  { eapply runs_mono; [|exact (flush_runs v (mkDisplayBuffer (clientTargetDrmBuffer b2) (planeDrmBuffer b2) None) c3 w4 Hw4 Hplanes)]. intros [e f] w5 (Hh5 & Hf & Hc5) _ _.
    split_and!; [|done|done]. exists (h ++ [Flushed d (shown_target (w_buffers w4) b2) (shown_planes (w_buffers w4) b2)]).
    split; [rewrite Hh5, Hh4, Hh3, Hh2, Hh1; by rewrite <- app_assoc|].
    rewrite Hbs4. eexists _, _, h. split_and!; [done|done|done]. }
  destruct (clientTargetDrmBuffer b2) as [n|] eqn:Et; [done|].
  destruct (map_to_list (planeDrmBuffer b2)) eqn:Ep; [|done]. apply runs_ret. intros _ [Hne|Hne]; exfalso.
  - apply map_to_list_empty_iff in Ep. apply map_choose in Hne as (p & a & Hp). specialize (Hshown p). rewrite Hp in Hshown.
    destruct Hshown as (l & x & _ & Hx & _). unfold shown_planes in Hx. cbn in Hx. rewrite Ep in Hx. by rewrite lookup_omap in Hx.
  - unfold composed in Hcomp. destruct (layersForComposition v); [done|]. destruct Hcomp as (ls & t & x & _ & Hx & _).
    unfold shown_target in Hx. by rewrite Et in Hx.
Qed.
End Presentation.

(** ** What can go wrong in between *)

Section Between.
Context `{!HwcAbi, !DeviceComposerOps, !DeviceClient C}.

(** A validation whose result is not presented leaves its planes in the map; a layer that then gets such a plane is
    neither shown on it nor composed, and its type becomes DEVICE. *)
Lemma stale_plane_drops_layer dv p a0 a l (s : ValidateLoop) : v_overlay s !! p = Some a0 -> change_of (v_changes s) (l_id l) = None ->
  let s' := overlay_layer dv p a l s in
  v_overlay s' = v_overlay s /\ v_composition s' = v_composition s /\ changed_type (v_changes s') l = DEVICE.
Proof.
  intros Hp Hn. cbn. unfold emplace. rewrite Hp. split_and!; [done..|]. unfold changed_type.
  destruct (is_device _) eqn:E; [rewrite Hn; by destruct (mCompositionType l)|by rewrite change_of_add, Hn, Z.eqb_refl].
Qed.

#[local] Ltac unfold_st := unfold mbind, St_bind, gets, mret, St_ret, of_option, modify in *; cbn in *.

(** The pointers to a layer that is destroyed stay in the lists. *)
Lemma layer_destroy_keeps (w : World C) d a e w1 : onDisplayLayerDestroy d a w = Some (e, w1) ->
  mDisplayLayers w1 = mDisplayLayers w /\ mDisplayBuffers w1 = mDisplayBuffers w /\ w_layers w1 = w_layers w.
Proof.
  unfold onDisplayLayerDestroy, getDeviceClient, layer_at, client_call. unfold_st.
  match goal with |- context [foldl ?f ?x ?y] => destruct (foldl f x y) as [k|] end; cbn; [|intros ?; by simplify_eq].
  destruct (w_layers w !! a) as [l|]; cbn; [|done]. destruct (mHdrMetadataState l); cbn; [intros ?; by simplify_eq..|].
  destruct (mDeviceClients w !! k); cbn; [|done]. intros ?; by simplify_eq.
Qed.

Lemma client_clean_layers k n (w w1 : World C) u : client_clean k n w = Some (u, w1) -> w_layers w1 = w_layers w.
Proof.
  unfold client_clean. unfold_st. destruct (mDeviceClients w !! k) as [c|]; cbn; [|done].
  destruct (partialCleanCacheBuffer n c); cbn; [|done]. intros ?; by simplify_eq.
Qed.

(** A layer on a plane that is destroyed before the presentation is still used by it. *)
Lemma dangling_layer_presented (w : World C) dv k a p b v : mDisplayBuffers w !! dv_id dv = Some b ->
  getDeviceClient (dv_id dv) w = Some (Some k, w) -> mDisplayLayers w !! dv_id dv = Some v ->
  layersForOverlayPlane v = {[p := a]} -> w_layers w !! a = None -> presentDisplay dv w = None.
Proof.
  intros Hb Hk Hv Hp Ha. unfold presentDisplay, validated. unfold_st. rewrite Hb. unfold_st. rewrite Hv, Hk. cbn. rewrite Hp, map_to_list_singleton.
  destruct (client_clean k _ w) as [[u w1]|] eqn:Ec; [|done]. apply client_clean_layers in Ec. cbn [present_overlays]. unfold layer_at. unfold_st. by rewrite Ec, Ha.
Qed.
End Between.

(** ** An example *)

Section Demo.
(** Handles name their memory; every buffer is an opaque RGB one. *)
#[local] Instance demo_abi : HwcAbi := {
  getInfoFromHandle h := Some (mkInfo h 64 64 1 875713112 0 0);
  PixelFormat_RGBA_8888 := 1; PixelFormat_BGRA_8888 := 5; USAGE_PROTECTED := 16384; USAGE_PRIVATE_3 := 8;
  USAGE_HW_COMPOSER := 2048; USAGE_HW_FB := 4096; MOD_AMPHION_TILED := 1; FORMAT_R8 := 2; FORMAT_NV12 := 3;
  FORMAT_ABGR2101010 := 4; FORMATS_64 := []; FORMATS_32 := []; DATASPACE_RANGE_MASK := 939524096;
  DATASPACE_RANGE_FULL := 134217728; TRANSFORM_NONE := 0
}.
#[local] Instance demo_composer : DeviceComposerOps := {
  g2d_isValid := true; G2D_LIMITATION_PXP := false; G2D_LIMITATION_VIV := true; mG2dPrefered := true; rotationCap := true;
  allocate n _ _ _ _ := Some (1000 + Z.of_nat n)
}.

(** A client with the planes of a display and those that are free; it keeps no buffers. *)
Definition demo_client : Type := list Z * list Z.
#[local] Instance demo_device : DeviceClient demo_client := {
  isOverlaySupport _ _ := true;
  checkOverlayLimitation _ _ _ := Some true;
  prepareDrmPlanesForValidate _ b c :=
    match c.1 with p :: ps => if b then (Some p, (c.1, ps)) else (None, (c.1, c.1)) | [] => (None, c) end;
  getPlaneForLayerBuffer _ _ c := match c.2 with p :: ps => (Some p, (c.1, ps)) | [] => (None, c) end;
  create h frame crop _ s :=
    match h with
    | Some h => Some (Some (length s.2), (s.1, s.2 ++ [mkDrmBuffer h (Z.of_nat (length s.2)) frame crop 0]))
    | None => Some (None, s)
    end;
  partialCleanCacheBuffer _ c := Some c;
  flushToDisplay _ _ _ c := Some (NoError, c);
  getComposerTarget _ _ s := Some (inr 2000, s);
  setHdrMetadata _ _ c := c;
  client_setActiveConfigId _ _ c := (NoError, c);
  client_resetDisplayConfig _ c := (NoError, c)
}.

#[local] Instance demo_laws : DeviceClientLaws demo_client.
Proof.
  refine {| client_ok := fun _ c => NoDup c.1 /\ c.1 <> [] /\ NoDup c.2; free_planes := fun _ c => c.2; buffer_key := Some;
    cached := fun _ _ _ => False; buffers_ok := fun _ _ => True |}.
  all: try done.
  - intros d b [all fr] o c' E (Hn & Hne & Hf). cbn in *. destruct all as [|p ps]; [done|]. pose proof Hn as [? ?]%NoDup_cons.
    destruct b; injection E as <- <-; cbn; split_and!; try done. intros _ _. by exists p.
  - intros d h [all fr] o c' E (Hn & Hne & Hf). cbn in *. destruct fr as [|p ps]; injection E as <- <-; cbn; [done|].
    apply NoDup_cons in Hf as [? ?]. split_and!; [done..|]. by exists [], ps.
  - intros d h frame crop t c bs Hok _. cbn. destruct h as [h|]; [|by eexists _, _, _]. exists (Some (length bs)), c, (bs ++ [mkDrmBuffer h (Z.of_nat (length bs)) frame crop 0]).
    destruct Hok as (? & ? & ?). split_and!; [done..|]. eexists. split; [apply list_lookup_middle; done|]. cbn. split_and!; [done..| |by intros|by left].
    intros m Hm. destruct (decide (m < length bs)%nat); [by rewrite lookup_app_l|].
    rewrite lookup_app_r, lookup_ge_None_2, (lookup_ge_None_2 bs) by (cbn; lia). done.
  - intros d n c c' [= <-] Hok. done.
  - intros d b made c Hok. exists (inr 2000), made, c. done.
  - intros d b bs c Hok _ _. exists NoError, c. done.
Defined.

Definition demo_layer (id z : Z) (frame : Rect) (c : Composition) (handle : Z) : Layer :=
  mkLayer id (0, 0) (Some handle) 1 (mkColor (float 0) (float 0) (float 0) (float 0)) c 0 frame (float 1)
    (mkFRect (float 0) (float 0) (float 64) (float 64)) 0 [] z None (float 1) false None HDR_NONE 0.

(** Three layers, one plane for them: the highest is composed, being over the one without a plane. *)
Definition demo_layers : gmap Z Layer :=
  {[1 := demo_layer 11 0 (mkRect 0 0 64 64) CLIENT 101; 2 := demo_layer 12 1 (mkRect 100 0 164 64) DEVICE 102;
    3 := demo_layer 13 2 (mkRect 120 0 184 64) DEVICE 103]}.
Definition demo_view : DisplayView := mkView 0 0 [1; 2; 3] 1920 1080 true None.
Definition demo_world (v : ValidatedLayers) : World demo_client :=
  mkWorld demo_layers {[0 := ([31], [31])]} {[0 := no_buffers]} {[0 := v]} [] [] 0.
Definition demo_validated : ValidatedLayers := mkValidated {[31 := 1]} [2; 3] None [] None.

Lemma demo_sane a l : demo_layers !! a = Some l -> sane_layer l.
Proof.
  unfold demo_layers. rewrite !lookup_insert_Some, lookup_singleton_Some.
  intros [[_ <-]|[_ [[_ <-]|[_ [_ <-]]]]]; (split; [unfold sane_rect; cbn; lia|]; exists (mkRect 0 0 64 64);
    split; [by vm_compute|unfold sane_rect; cbn; lia]).
Qed.

Lemma validate_assigns_every_layer_witness :
  exists ch w' v, validateDisplay demo_view changes_empty (demo_world no_layers) = Some ((NoError, ch), w') /\
    w_layers w' = demo_layers /\ mDisplayLayers w' !! 0 = Some v /\ decided (demo_world no_layers) demo_view ch v.
Proof.
  apply (validate_assigns_every_layer (demo_world no_layers) demo_view 0 ([31], [31])). split.
  - by eexists.
  - by vm_compute.
  - done.
  - cbn. split_and!; [|done|]; apply NoDup_singleton.
  - done.
  - intros a Ha. change (a ∈ [1; 2; 3]) in Ha. rewrite !elem_of_cons, elem_of_nil in Ha.
    destruct Ha as [->|[->|[->|[]]]];
      match goal with |- exists l, _ !! ?a = _ /\ _ => eexists; split; [reflexivity|split; [by apply (demo_sane a)|done]] end.
  - intros i j a b la lb Hi Hj Ha Hb E. cbn in Hi, Hj.
    destruct i as [|[|[|i]]], j as [|[|[|j]]]; try done; injection Hi as <-; injection Hj as <-; vm_compute in Ha, Hb;
      injection Ha as <-; injection Hb as <-; done.
  - cbn. lia.
Defined.

Lemma present_shows_validated_witness :
  exists e fences w', presentDisplay demo_view (demo_world demo_validated) = Some ((e, fences), w') /\
    (e = NoError -> layersForOverlayPlane demo_validated <> ∅ \/ layersForComposition demo_validated <> [] ->
     (exists h, w_history w' = [] ++ h /\ presented (demo_world demo_validated) demo_view demo_validated h) /\
     (forall p a l, layersForOverlayPlane demo_validated !! p = Some a -> demo_layers !! a = Some l -> l_id l ∈ fences) /\
     mDisplayLayers w' !! 0 = Some no_layers).
Proof.
  apply (present_shows_validated (demo_world demo_validated) demo_view 0 no_buffers ([31], [31])). split.
  - done.
  - by vm_compute.
  - done.
  - split; [split; [done| |done|]|done| |]; cbn.
    + split_and!; [|done|]; apply NoDup_singleton.
    + intros a l Hl. exists HDR_NONE. destruct l. cbn. pose proof Hl as Hl'. unfold demo_layers in Hl'.
      rewrite !lookup_insert_Some, lookup_singleton_Some in Hl'. rewrite Hl. by destruct Hl' as [[_ [=]]|[_ [[_ [=]]|[_ [_ [=]]]]]]; subst.
    + by intros p a ?%elem_of_nil.
    + intros p. rewrite lookup_empty. by intros [].
  - by eexists.
  - cbn [demo_validated layersForOverlayPlane]. rewrite map_to_list_singleton. split_and!; [apply NoDup_singleton| |].
    + intros p a [= -> ->]%list_elem_of_singleton. eexists. split; [reflexivity|by apply (demo_sane 1)].
    + intros p a q b la lb [= -> ->]%list_elem_of_singleton [= -> ->]%list_elem_of_singleton. done.
  - intros a Ha. cbn in Ha. rewrite !elem_of_cons, elem_of_nil in Ha. destruct Ha as [->|[->|[]]]; by eexists.
  - done.
  - done.
  - cbn. lia.
Defined.
End Demo.
