(* ===== verification/HwcProperties.v ===== *)
(** * display/hwcomposer3/Common.cpp: the boot properties of a display

    How the properties [ro.boot.gui_resolution], [ro.boot.displaymode] and
    [ro.boot.display_port] are read.  A property is a string; [None] is an exception of
    [std::stoul], which nothing catches. *)

From Stdlib Require Import Ascii String.
From S2P Require Import Prelude CppText.

#[local] Open Scope string_scope.
#[local] Open Scope Z_scope.

Definition UI_SCALE_NONE : Z := 0.
Definition UI_SCALE_SOFTWARE : Z := 1.
Definition UI_SCALE_HARDWARE : Z := 2.

(** [strncmp(s, p, strlen(p)) == 0]. *)
Definition begins (p s : string) : bool := String.prefix p s.

(** [%[0-9]]: one digit at least. *)
Fixpoint scan_digits (s : list ascii) : list ascii * list ascii :=
  match s with
  | c :: s' => if isdigit c then let '(d, r) := scan_digits s' in (c :: d, r) else ([], s)
  | [] => ([], [])
  end.

(** [sscanf(value, "shw%[0-9]x%[0-9]", ...) == 2] behind the prefix of three characters. *)
Definition scan_size (s : list ascii) : option (string * string) :=
  match scan_digits s with
  | (_ :: _ as w, c :: r) =>
      if code c =? 120 then
        match scan_digits r with (_ :: _ as h, _) => Some (text w, text h) | _ => None end
      else None
  | _ => None
  end.

Definition named_sizes : list (string * Z * Z) := [("4k", 3840, 2160); ("1080p", 1920, 1080); ("720p", 1280, 720); ("480p", 640, 480)].

Definition find_size (value : string) : option (Z * Z) :=
  (fun e => (e.1.2, e.2)) <$> find (fun e => begins e.1.1 value) named_sizes.

(** Whether the size changes, the size, and the type of scaling. *)
Definition customizeGUIResolution (value : string) (width height uiType : Z) : option (bool * (Z * Z) * Z) :=
  let scaled type p :=
    let '(w_buf, h_buf) := p in w ← stoul w_buf; h ← stoul h_buf; Some (true, ⟦w⟧u 32, ⟦h⟧u 32, type) in
  let body := scan_size (drop 3 (chars value)) in
  '(ret, w, h, uiType) ←
    match (if begins "shw" value then body else None), (if begins "ssw" value then body else None) with
    | Some p, _ => scaled UI_SCALE_HARDWARE p
    | None, Some p => scaled UI_SCALE_SOFTWARE p
    | None, None =>
        let '(ret, w, h) := match find_size value with Some (w, h) => (true, w, h) | None => (false, 0, 0) end in
        Some (if width <? height then (ret, h, w, uiType) else (ret, w, h, uiType))
    end;
  Some
    (if (0 <? w) && (0 <? h) then
       if (width <=? w) && (height <=? h) then (false, (width, height), uiType)
       else (ret, (if w <? width then w else width, if h <? height then h else height), uiType)
     else (ret, (width, height), uiType)).

(** *** The display mode *)

Definition gDisplayModes : list (string * (Z * Z * Z)) :=
  [("4kp60", (3840, 2160, 60)); ("4kp50", (3840, 2160, 50)); ("4kp30", (3840, 2160, 30));
   ("1080p60", (1920, 1080, 60)); ("1080p50", (1920, 1080, 50)); ("1080p30", (1920, 1080, 30));
   ("720p60", (1280, 720, 60)); ("720p50", (1280, 720, 50)); ("720p30", (1280, 720, 30));
   ("480p60", (640, 480, 60)); ("480p50", (640, 480, 50)); ("480p30", (640, 480, 30));
   ("4k", (3840, 2160, 60)); ("1080p", (1920, 1080, 60)); ("720p", (1280, 720, 60)); ("480p", (640, 480, 60))].

(** [strsep] with the delimiters x and p. *)
Definition is_delim (c : ascii) : bool := (code c =? 120) || (code c =? 112).

Fixpoint strsep (s token : list ascii) : list (list ascii) :=
  match s with
  | [] => [rev token]
  | c :: s' => if is_delim c then rev token :: strsep s' [] else strsep s' (c :: token)
  end.

(** The numbers of at most [n] tokens, up to one that is zero. *)
Fixpoint mode_numbers (n : nat) (tokens : list (list ascii)) : option (bool * list Z) :=
  match n, tokens with
  | S n', t :: tokens' =>
      v ← stoul (text t);
      let v := ⟦v⟧u 32 in
      if v <=? 0 then Some (false, [v])
      else '(ok, l) ← mode_numbers n' tokens'; Some (ok, v :: l)
  | _, _ => Some (true, [])
  end.

(** Width, height, refresh rate and whether the preferred mode is to be taken. *)
Definition parseDisplayMode (value : string) : option (Z * Z * Z * Z) :=
  match find (fun e => begins e.1 value) gDisplayModes with
  | Some (_, m) => Some (m, 0)
  | None =>
      '(ok, l) ←
        (if existsb (fun c => code c =? 120) (chars value) && existsb (fun c => code c =? 112) (chars value) then
           mode_numbers 3 (strsep (chars value) [])
         else Some (false, []));
      Some (if (ok : bool) then (nth 0 l 0, nth 1 l 0, nth 2 l 0, 0) else (1920, 1080, 60, 1))
  end.

(** *** The port *)

(** [substr(pos, count)]; no count is the rest. *)
Definition substr (pos : nat) (count : option nat) (s : string) : string :=
  substring pos (match count with Some n => n | None => String.length s - pos end) s.

Definition isxdigit (c : ascii) : bool := bool_decide (is_Some (digit_of c)).

(** [std::stoul] of digits in a base. *)
Definition stoul_base (base : Z) (s : string) : option Z :=
  let '(v, n, _) := take_digits base (chars s) 0 in
  if decide (n = 0%nat) then None else checked_u 64 v.

(** The port, if one is named; the first occurrence of the name anywhere in the list counts. *)
Definition getDisplayPortFromProperty (ports connector_name : string) : option (option Z) :=
  if (String.length ports =? 0)%nat then Some None
  else
    match index 0 (connector_name ++ ":") ports with
    | None => Some None
    | Some pos =>
        match index pos ":" ports with
        | None => Some None
        | Some colon =>
            let count := (fun comma => comma - colon - 1)%nat <$> index colon "," ports in
            let port_str := substr (colon + 1) count ports in
            let '(base, port_str) :=
              match index 0 "0x" port_str with Some prefix => (16, substr (prefix + 2) None port_str) | None => (10, port_str) end in
            if forallb isxdigit (chars port_str) then port ← stoul_base base port_str; Some (Some (⟦port⟧u 32)) else Some None
        end
    end.

(** ** Numbers in decimal *)

Definition digit_value (c : ascii) : Z := code c - 48.

Lemma code_digit d : 0 <= d < 10 -> code (ascii_of_N (Z.to_N (48 + d))) = 48 + d.
Proof. intros Hd. unfold code. rewrite N_ascii_embedding by lia. lia. Qed.

Lemma isdigit_spec c : isdigit c = true <-> 48 <= code c <= 57.
Proof. unfold isdigit. apply bool_decide_eq_true. Qed.

Lemma digit_of_digit c : isdigit c = true -> digit_of c = Some (digit_value c).
Proof. intros Hc%isdigit_spec. unfold digit_of. by rewrite decide_True. Qed.

(** [take_digits] stops at the first character that is no hexadecimal digit. *)
Lemma take_digits_app l r acc : Forall (fun c => isdigit c = true) l ->
  match r with [] => True | c :: _ => digit_of c = None end ->
  take_digits 10 (l ++ r) acc = (foldl (fun a c => 10 * a + digit_value c) acc l, length l, r).
Proof.
  intros Hl Hr. revert acc. induction Hl as [|c l Hc Hl IH]; intros acc; cbn.
  - destruct r as [|c r]; [done|]. cbn. by rewrite Hr.
  - rewrite digit_of_digit by done. apply isdigit_spec in Hc. unfold digit_value at 1.
    destruct (Z.ltb_spec (code c - 48) 10); [|lia]. by rewrite IH.
Qed.

Lemma digits_rev_spec n z : 0 <= z < 10 ^ Z.of_nat n ->
  Forall (fun c => isdigit c = true) (digits_rev n z) /\
  foldr (fun c a => 10 * a + digit_value c) 0 (digits_rev n z) = z.
Proof.
  revert z. induction n as [|n IH]; intros z Hz; [cbn in *; split; [done|lia]|].
  rewrite Nat2Z.inj_succ, Z.pow_succ_r in Hz by lia. cbn [digits_rev].
  pose proof (Z.mod_pos_bound z 10 ltac:(lia)). pose proof (Z.div_mod z 10 ltac:(lia)).
  assert (code (ascii_of_N (Z.to_N (48 + z mod 10))) = 48 + z mod 10) as Hc by by apply code_digit.
  assert (0 <= z / 10 < 10 ^ Z.of_nat n) as Hq by (split; [apply Z.div_pos|apply Z.div_lt_upper_bound]; lia).
  destruct (IH (z / 10) Hq) as [H1 H2]. split.
  - constructor; [apply isdigit_spec; lia|]. destruct (z <? 10); [constructor|done].
  - assert (digit_value (ascii_of_N (Z.to_N (48 + z mod 10))) = z mod 10) as Hv by (unfold digit_value; lia).
    cbn [foldr]. rewrite Hv. destruct (Z.ltb_spec z 10).
    + cbn. rewrite Z.mod_small by lia. lia.
    + rewrite H2. lia.
Qed.

Lemma foldl_rev {A B} (f : B -> A -> B) b l : foldl f b (rev l) = foldr (fun x y => f y x) b l.
Proof. induction l as [|x l IH]; [done|]. cbn. by rewrite foldl_app, IH. Qed.

(** The digits of a number, and what they are read back as. *)
Lemma to_string_digits z : 0 <= z ->
  exists l, chars (to_string z) = l /\ l <> [] /\ Forall (fun c => isdigit c = true) l /\
    foldl (fun a c => 10 * a + digit_value c) 0 l = z.
Proof.
  intros Hz. unfold to_string. destruct (Z.ltb_spec z 0); [lia|]. rewrite Z.abs_eq by done.
  set (n := S (Z.to_nat (Z.log2 z))). unfold chars, text. rewrite list_ascii_of_string_of_list_ascii.
  destruct (digits_rev_spec n z) as [H1 H2].
  { split; [done|]. destruct (decide (z = 0)) as [->|]; [apply Z.pow_pos_nonneg; lia|].
    pose proof (Z.log2_spec z ltac:(lia)) as [_ Hl]. unfold n. rewrite Nat2Z.inj_succ, Z2Nat.id by apply Z.log2_nonneg.
    eapply Z.lt_le_trans; [done|]. apply Z.pow_le_mono_l. lia. }
  exists (rev (digits_rev n z)). split_and!; [done| | |].
  - intros E%(f_equal length). by rewrite length_rev in E.
  - by apply Forall_rev.
  - by rewrite foldl_rev.
Qed.

Lemma stoul_to_string z : 0 <= z < 2 ^ 64 -> stoul (to_string z) = Some z.
Proof.
  intros Hz. destruct (to_string_digits z) as (l & Hl & Hne & Hd & Hv); [lia|]. unfold stoul. rewrite Hl.
  destruct l as [|c l]; [done|]. pose proof Hd as [Hc _]%Forall_cons. apply isdigit_spec in Hc.
  assert (skip_space (c :: l) = c :: l) as ->.
  { cbn. unfold isspace. rewrite bool_decide_false by lia. by destruct (Z.eqb_spec (code c) 32); [lia|]. }
  assert (take_sign (c :: l) = (false, c :: l)) as ->.
  { cbn. destruct (Z.eqb_spec (code c) 45); [lia|]. by destruct (Z.eqb_spec (code c) 43); [lia|]. }
  pose proof (take_digits_app (c :: l) [] 0 Hd I) as E. rewrite app_nil_r, Hv in E. rewrite E.
  rewrite decide_False by done. unfold checked_u. by rewrite decide_True.
Qed.

(** ** The resolution of the user interface *)

#[local] Arguments find_size : simpl never.

(** The resolution never grows, and stays positive; without a change it is the display's. *)
Lemma gui_resolution_bounds value width height t ret w h t' :
  customizeGUIResolution value width height t = Some (ret, (w, h), t') ->
  w <= width /\ h <= height /\ (0 < width -> 0 < w) /\ (0 < height -> 0 < h) /\ (ret = false -> w = width /\ h = height).
Proof.
  unfold customizeGUIResolution.
  set (body := scan_size _).
  match goal with |- ?m ≫= _ = _ -> _ => destruct m as [[[[ret0 w0] h0] t0]|] eqn:E end; [|done]. cbn.
  intros Heq. injection Heq as Heq.
  destruct ((0 <? w0) && (0 <? h0)) eqn:Epos.
  - apply andb_true_iff in Epos as [?%Z.ltb_lt ?%Z.ltb_lt].
    assert (ret0 = true) as ->.
    { destruct (begins "shw" value), (begins "ssw" value), body as [[? ?]|]; cbn in E;
        repeat match type of E with context [stoul ?x] => destruct (stoul x); cbn in E end; try done;
        try (by simplify_eq/=); destruct (find_size value) as [[? ?]|], (width <? height); simplify_eq/=; done || lia. }
    destruct ((width <=? w0) && (height <=? h0)) eqn:Ebig; injection Heq as <- <- <- _; [lia|].
    destruct (Z.ltb_spec w0 width), (Z.ltb_spec h0 height); lia || (split_and!; try lia; done).
  - injection Heq as <- <- <- _. lia.
Qed.

(** ** The display mode *)

(** A text has one way to start with digits. *)
Lemma digits_prefix_unique l1 l2 c1 c2 r1 r2 : Forall (fun c => isdigit c = true) l1 -> Forall (fun c => isdigit c = true) l2 ->
  isdigit c1 = false -> isdigit c2 = false ->
  (l1 ++ c1 :: r1 = l2 ++ c2 :: r2)%list -> c1 = c2.
Proof.
  intros H1. revert l2. induction H1 as [|c l1 Hc H1 IH]; intros [|c' l2] H2 E1 E2 E; cbn in E; injection E as E' E.
  - done.
  - subst. apply Forall_cons in H2 as [H2 _]. congruence.
  - subst. congruence.
  - apply Forall_cons in H2 as [_ H2]. by apply (IH l2).
Qed.

Lemma chars_app a b : chars (a ++ b) = (chars a ++ chars b)%list.
Proof.
  induction a as [|c a IH]; [done|]. change (c :: chars (a ++ b) = c :: (chars a ++ chars b)%list). by rewrite IH.
Qed.

Lemma begins_chars p s : begins p s = true -> exists r, chars s = (chars p ++ r)%list.
Proof.
  unfold begins. revert s. induction p as [|c p IH]; intros [|c' s]; cbn; try done; [by eexists..|].
  destruct (ascii_dec c c') as [->|]; [|done]. intros (r & Hr)%IH. exists r. cbn. by rewrite Hr.
Qed.

(** The name of a mode starts with digits, but an x does not follow them. *)
Definition names_no_x (name : string) : bool :=
  let '(_, r) := scan_digits (chars name) in match r with c :: _ => negb (isdigit c) && negb (code c =? 120) | [] => false end.

Lemma scan_digits_spec s : exists r, s = ((scan_digits s).1 ++ r)%list /\ (scan_digits s).2 = r /\
  Forall (fun c => isdigit c = true) (scan_digits s).1.
Proof.
  induction s as [|c s IH]; cbn; [by exists []|]. destruct (isdigit c) eqn:E; [|by exists (c :: s)].
  destruct IH as (r & H1 & H2 & H3). destruct (scan_digits s) as [d r']. cbn in *. exists r. rewrite H1 at 1.
  split_and!; [done|done|by constructor].
Qed.

Lemma no_mode_name name l rest : names_no_x name = true -> Forall (fun c => isdigit c = true) l ->
  begins name (text (l ++ "x"%char :: rest)%list) = false.
Proof.
  intros Hn Hl. apply not_true_iff_false. intros (r & Hr)%begins_chars. unfold names_no_x in Hn.
  destruct (scan_digits_spec (chars name)) as (r' & H1 & H2 & H3). destruct (scan_digits (chars name)) as [d r'']. cbn in *. subst r''.
  destruct r' as [|c r']; [done|]. apply andb_true_iff in Hn as [Hc Hx]. apply negb_true_iff in Hc.
  unfold chars, text in Hr. rewrite list_ascii_of_string_of_list_ascii in Hr. unfold chars in H1. rewrite H1, <- app_assoc in Hr. cbn in Hr.
  assert ("x"%char = c) as <- by (eapply (digits_prefix_unique l d); [done..|reflexivity|done|exact Hr]). done.
Qed.

Lemma strsep_token l c rest acc : Forall (fun c => isdigit c = true) l -> is_delim c = true ->
  strsep (l ++ c :: rest)%list acc = (rev acc ++ l)%list :: strsep rest [].
Proof.
  intros Hl Hc. revert acc. induction Hl as [|a l Ha Hl IH]; intros acc; cbn; [by rewrite Hc, app_nil_r|].
  apply isdigit_spec in Ha. assert (is_delim a = false) as ->.
  { unfold is_delim. destruct (Z.eqb_spec (code a) 120); [lia|]. by destruct (Z.eqb_spec (code a) 112); [lia|]. }
  rewrite IH. cbn. by rewrite <- app_assoc.
Qed.

Lemma strsep_last l acc : Forall (fun c => isdigit c = true) l -> strsep l acc = [(rev acc ++ l)%list].
Proof.
  intros Hl. revert acc. induction Hl as [|a l Ha Hl IH]; intros acc; cbn; [by rewrite app_nil_r|].
  apply isdigit_spec in Ha. assert (is_delim a = false) as ->.
  { unfold is_delim. destruct (Z.eqb_spec (code a) 120); [lia|]. by destruct (Z.eqb_spec (code a) 112); [lia|]. }
  rewrite IH. cbn. by rewrite <- app_assoc.
Qed.

(** A mode that is written as width, height and refresh rate, as the boot arguments give it, is read back, whatever the
    numbers are, and is not taken for one of the named modes. *)
Lemma display_mode_roundtrip w h f : 0 < w < 2 ^ 32 -> 0 < h < 2 ^ 32 -> 0 < f < 2 ^ 32 ->
  parseDisplayMode (to_string w ++ "x" ++ to_string h ++ "p" ++ to_string f) = Some (w, h, f, 0).
Proof.
  intros Hw Hh Hf. destruct (to_string_digits w) as (lw & Ew & _ & Dw & _); [lia|].
  destruct (to_string_digits h) as (lh & Eh & _ & Dh & _); [lia|]. destruct (to_string_digits f) as (lf & Ef & _ & Df & _); [lia|].
  set (value := _ ++ _). assert (chars value = (lw ++ "x"%char :: lh ++ "p"%char :: lf)%list) as Ev.
  { unfold value. rewrite !chars_app, Ew, Eh, Ef. done. }
  assert (value = text (lw ++ "x"%char :: lh ++ "p"%char :: lf)%list) as Et.
  { rewrite <- Ev. unfold text, chars. by rewrite string_of_list_ascii_of_string. }
  unfold parseDisplayMode. assert (find (fun e => begins e.1 value) gDisplayModes = None) as ->.
  { unfold gDisplayModes. cbn [find fst]. rewrite Et, !no_mode_name by done. done. }
  rewrite !Ev, strsep_token, strsep_token, strsep_last by done.
  assert (forall c a b, existsb (fun d => code d =? code c) (a ++ c :: b)%list = true) as Hex.
  { intros c a b. rewrite existsb_app. cbn. by rewrite Z.eqb_refl, orb_true_r. }
  rewrite (Hex "x"%char lw), app_comm_cons, app_assoc, (Hex "p"%char (lw ++ "x"%char :: lh)%list). cbn [andb rev app mode_numbers].
  rewrite <- Ew, <- Eh, <- Ef. unfold text, chars. rewrite !string_of_list_ascii_of_string, !stoul_to_string by lia.
  cbn. rewrite !wrap_u_id by (unfold in_u; lia). destruct (Z.leb_spec w 0); [lia|]. cbn. destruct (Z.leb_spec h 0); [lia|]. cbn.
  by destruct (Z.leb_spec f 0); [lia|].
Qed.

(** Without the refresh rate the last token is empty, and [std::stoul] throws. *)
Lemma display_mode_needs_rate : parseDisplayMode "1920x1200p" = None.
Proof. by vm_compute. Qed.

(** ** The port *)

(** The name of one connector can be the end of another's, whose port is then taken. *)
Lemma port_of_other_connector : getDisplayPortFromProperty "eDP-1:0x12,DP-1:0x11" "DP-1" = Some (Some 18).
Proof. by vm_compute. Qed.
