(* ===== verification/DrmDisplay.v ===== *)
(** * display/hwcomposer3: a display of the DRM device

    [DrmConnector.cpp], [DrmPlane.cpp], [DrmDisplay.cpp] and the part of
    [DrmClient::flushToDisplay] that builds the atomic request of a frame.  What the
    kernel answers is an argument of the operation that asks for it.  The planes of a
    display are a list: the order in which the map of the code is walked.  Fences, file
    descriptors and the memory for a request are left out.  [None] is undefined
    behaviour or an exception. *)

From Stdlib Require Import Ascii String.
From S2P Require Import Prelude HwcLayer FrameComposer HwcProperties.

(** ** Planes *)

Record DrmProperty := mkProperty { pr_id : Z; pr_value : Z; pr_flags : Z }.

Definition invalid_property : DrmProperty := mkProperty (2 ^ 32 - 1) (2 ^ 64 - 1) 0.
Definition isValid (p : DrmProperty) : bool := negb (pr_id p =? 2 ^ 32 - 1).
Definition DRM_MODE_PROP_IMMUTABLE : Z := 4.

Inductive PlaneState := PLANE_STATE_NONE | PLANE_STATE_ACTIVE | PLANE_STATE_DISABLED.

Definition DRM_PLANE_TYPE_OVERLAY : Z := 0.
Definition DRM_PLANE_TYPE_PRIMARY : Z := 1.

Record DrmPlane := mkPlane {
  plane_id : Z; mType : Z; mPossibleCrtcsMask : Z; mDrmFormats : list Z; mFormatModifiers : list (Z * list Z);
  plane_zpos : DrmProperty; mState : PlaneState
}.

Definition isPrimary (p : DrmPlane) : bool := mType p =? DRM_PLANE_TYPE_PRIMARY.
Definition isOverlay (p : DrmPlane) : bool := mType p =? DRM_PLANE_TYPE_OVERLAY.

Definition checkFormat (p : DrmPlane) (format modifier : Z) : bool :=
  existsb (fun e => (e.1 =? format) && existsb (Z.eqb modifier) e.2) (mFormatModifiers p).

Definition checkFormatSupported (p : DrmPlane) (format : Z) : bool := existsb (Z.eqb format) (mDrmFormats p).

Definition with_state (p : DrmPlane) (s : PlaneState) : DrmPlane :=
  mkPlane (plane_id p) (mType p) (mPossibleCrtcsMask p) (mDrmFormats p) (mFormatModifiers p) (plane_zpos p) s.

(** ** Connectors *)

Record DrmMode := mkMode { hdisplay : Z; vdisplay : Z; htotal : Z; vtotal : Z; md_clock : Z; md_type : Z; md_blob : Z }.

Inductive Connection := DRM_MODE_CONNECTED | DRM_MODE_DISCONNECTED | DRM_MODE_UNKNOWNCONNECTION.

#[global] Instance Connection_eq_dec : EqDecision Connection.
Proof. solve_decision. Defined.

Record DrmConnector := mkConnector {
  cn_id : Z; cn_edid_prop : bool; cn_hdr_prop : bool; mStatus : Connection; mEdidReload : bool; mWidthMillimeters : Z;
  mHeightMillimeters : Z; mModes : list DrmMode; mEdid : option (list Z)
}.

Definition isConnected (c : DrmConnector) : bool := bool_decide (mStatus c = DRM_MODE_CONNECTED).

(** What the kernel says of a connector; a mode without a blob is [None]. *)
Record ConnectorInfo := mkConnectorInfo { ci_connection : Connection; ci_modes : list (option DrmMode); ci_width : Z; ci_height : Z }.

(** The size of the picture is in a descriptor of the EDID. *)
Definition loadEdid (blob : option (list Z)) (c : DrmConnector) : option (bool * DrmConnector) :=
  if negb (cn_edid_prop c) then Some (true, c)
  else
    match blob with
    | None => Some (false, c)
    | Some data =>
        let with_size w h :=
          mkConnector (cn_id c) (cn_edid_prop c) (cn_hdr_prop c) (mStatus c) (mEdidReload c) w h (mModes c) (Some data) in
        d0 ← data !! 54%nat; d1 ← data !! 55%nat;
        if (d0 =? 0) && (d1 =? 0) then Some (false, with_size (mWidthMillimeters c) (mHeightMillimeters c))
        else
          w_mm_lsb ← data !! 66%nat; h_mm_lsb ← data !! 67%nat; msb ← data !! 68%nat;
          Some (true, with_size (Z.lor w_mm_lsb (Z.shiftl (Z.land msb 0xf0) 4)) (Z.lor h_mm_lsb (Z.shiftl (Z.land msb 0xf) 8)))
    end.

(** The modes up to the first without a blob, and whether there is such a one. *)
Fixpoint take_modes (l : list (option DrmMode)) : list DrmMode * bool :=
  match l with
  | [] => ([], true)
  | None :: _ => ([], false)
  | Some m :: l' => let '(ms, ok) := take_modes l' in (m :: ms, ok)
  end.

Definition update (info : option ConnectorInfo) (blob : option (list Z)) (c : DrmConnector) : option (bool * DrmConnector) :=
  match info with
  | None => Some (false, c)
  | Some i =>
      if decide (ci_connection i = mStatus c) then Some (true, c)
      else
        let '(modes, ok) := take_modes (ci_modes i) in
        let set s reload w h ms edid := mkConnector (cn_id c) (cn_edid_prop c) (cn_hdr_prop c) s reload w h ms edid in
        if negb ok then
          Some (false, set (ci_connection i) (mEdidReload c) (mWidthMillimeters c) (mHeightMillimeters c) modes (mEdid c))
        else
          let c1 := set (ci_connection i) (mEdidReload c) (ci_width i) (ci_height i) modes (mEdid c) in
          c2 ← (match ci_connection i with
                | DRM_MODE_CONNECTED =>
                    '(loaded, c2) ← loadEdid blob c1;
                    Some (if (loaded : bool) then c2
                          else set (mStatus c2) true (mWidthMillimeters c2) (mHeightMillimeters c2) (mModes c2) (mEdid c2))
                | _ => Some c1
                end);
          Some (true,
                match mModes c2 with
                | [] => set DRM_MODE_DISCONNECTED (mEdidReload c2) (mWidthMillimeters c2) (mHeightMillimeters c2) [] (mEdid c2)
                | _ => c2
                end)
  end.

Definition getEdid (blob : option (list Z)) (c : DrmConnector) : option (option (list Z) * DrmConnector) :=
  if isConnected c && mEdidReload c then
    '(ok, c) ← loadEdid blob c;
    if (ok : bool) then
      Some (mEdid c, mkConnector (cn_id c) (cn_edid_prop c) (cn_hdr_prop c) (mStatus c) false (mWidthMillimeters c)
                       (mHeightMillimeters c) (mModes c) (mEdid c))
    else Some (None, c)
  else Some (mEdid c, c).

(** *** The configurations of a connector *)

Record HalDisplayConfig := mkHal {
  hc_width : Z; hc_height : Z; hc_dpiX : Z; hc_dpiY : Z; refreshRateHz : Z; blobId : Z; modeType : Z; modeWidth : Z; modeHeight : Z
}.

Abbreviation HalConfig := (gmap Z HalDisplayConfig).

(** [25.4f]. *)
Definition kMillimetersPerInch : spec_float := Binary32.div (float 254) (float 10).

Definition to_uint32 (x : spec_float) : option Z := z ← SF_trunc x; checked_u 32 z.

Definition dpi (pixels mm : Z) : option Z :=
  if mm =? 0 then Some 160 else to_uint32 (Binary32.mul (Binary32.div (float pixels) (float mm)) kMillimetersPerInch).

Definition mode_config (c : DrmConnector) (m : DrmMode) : option HalDisplayConfig :=
  x ← dpi (hdisplay m) (mWidthMillimeters c);
  y ← dpi (vdisplay m) (mHeightMillimeters c);
  rate ← to_uint32 (Binary32.add
                      (Binary32.div (Binary32.mul (float 1000) (float (md_clock m)))
                         (Binary32.mul (float (vtotal m)) (float (htotal m)))) (Binary32.div (float 1) (float 2)));
  Some (mkHal (hdisplay m) (vdisplay m) x y rate (md_blob m) (md_type m) (hdisplay m) (vdisplay m)).

Definition same_config (a b : HalDisplayConfig) : bool :=
  (hc_width a =? hc_width b) && (hc_height a =? hc_height b) && (refreshRateHz a =? refreshRateHz b).

(** Each mode that is not yet there gets the next id. *)
Fixpoint build_configs (c : DrmConnector) (modes : list DrmMode) (configId : Z) (configs : HalConfig) : option HalConfig :=
  match modes with
  | [] => Some configs
  | m :: modes' =>
      config ← mode_config c m;
      if existsb (fun e => same_config e.2 config) (map_to_list configs) then build_configs c modes' configId configs
      else build_configs c modes' (⟦configId + 1⟧u 32) (<[configId := config]> configs)
  end.

Definition buildConfigs (c : DrmConnector) (configs : HalConfig) (startConfigId : Z) : option (bool * HalConfig) :=
  match mModes c with
  | [] => Some (false, configs)
  | modes => configs ← build_configs c modes startConfigId configs; Some (true, configs)
  end.

(** ** The display *)

Record DrmDisplay := mkDisplay {
  mIsPrimary : bool; mHwcId : Z; mOriginalHwcId : Z; mId : Z; mPort : Z; mConnector : DrmConnector;
  crtc_id : Z; crtc_xfer : bool (* a low power display *); mPlanes : list DrmPlane;
  mPreviousBuffers : DisplayBuffer; mTempBuffers : DisplayBuffer;
  mActiveConfigId : Z; mInitActiveConfigId : Z; mStartConfigId : Z; mActiveConfig : HalDisplayConfig; mConfigs : HalConfig;
  mUiScaleType : Z; mFbFormat : Z; mPlaneIdPool : list Z; mOverlayPlaneNum : Z; mModeSet : bool; mOverlayMaxZpos : Z;
  mCommitRetryCnt : nat; mHdrMetadataBlobId : Z
}.

Definition MAX_COMMIT_RETRY_COUNT : nat := 32.
Definition DEFAULT_HWC_PRIMARY_DISPLAY_ID : Z := 0.

Definition with_planes (d : DrmDisplay) (planes : list DrmPlane) (temp : DisplayBuffer) (zpos : Z) : DrmDisplay :=
  mkDisplay (mIsPrimary d) (mHwcId d) (mOriginalHwcId d) (mId d) (mPort d) (mConnector d) (crtc_id d) (crtc_xfer d) planes
    (mPreviousBuffers d) temp (mActiveConfigId d) (mInitActiveConfigId d) (mStartConfigId d) (mActiveConfig d) (mConfigs d)
    (mUiScaleType d) (mFbFormat d) (mPlaneIdPool d) (mOverlayPlaneNum d) (mModeSet d) zpos (mCommitRetryCnt d)
    (mHdrMetadataBlobId d).

Definition with_pool (d : DrmDisplay) (pool : list Z) (num : Z) : DrmDisplay :=
  mkDisplay (mIsPrimary d) (mHwcId d) (mOriginalHwcId d) (mId d) (mPort d) (mConnector d) (crtc_id d) (crtc_xfer d) (mPlanes d)
    (mPreviousBuffers d) (mTempBuffers d) (mActiveConfigId d) (mInitActiveConfigId d) (mStartConfigId d) (mActiveConfig d)
    (mConfigs d) (mUiScaleType d) (mFbFormat d) pool num (mModeSet d) (mOverlayMaxZpos d) (mCommitRetryCnt d)
    (mHdrMetadataBlobId d).

(** [modeset] is the new [mModeSet]. *)
Definition with_configs (d : DrmDisplay) (active init start : Z) (config : HalDisplayConfig) (configs : HalConfig) (ui : Z)
    (modeset : bool) : DrmDisplay :=
  mkDisplay (mIsPrimary d) (mHwcId d) (mOriginalHwcId d) (mId d) (mPort d) (mConnector d) (crtc_id d) (crtc_xfer d) (mPlanes d)
    (mPreviousBuffers d) (mTempBuffers d) active init start config configs ui (mFbFormat d) (mPlaneIdPool d)
    (mOverlayPlaneNum d) modeset (mOverlayMaxZpos d) (mCommitRetryCnt d) (mHdrMetadataBlobId d).

Definition with_connector (d : DrmDisplay) (c : DrmConnector) : DrmDisplay :=
  mkDisplay (mIsPrimary d) (mHwcId d) (mOriginalHwcId d) (mId d) (mPort d) c (crtc_id d) (crtc_xfer d) (mPlanes d)
    (mPreviousBuffers d) (mTempBuffers d) (mActiveConfigId d) (mInitActiveConfigId d) (mStartConfigId d) (mActiveConfig d)
    (mConfigs d) (mUiScaleType d) (mFbFormat d) (mPlaneIdPool d) (mOverlayPlaneNum d) (mModeSet d) (mOverlayMaxZpos d)
    (mCommitRetryCnt d) (mHdrMetadataBlobId d).

Definition setDisplayAsPrimary (enable : bool) (d : DrmDisplay) : DrmDisplay :=
  let set primary hwc orig :=
    mkDisplay primary hwc orig (mId d) (mPort d) (mConnector d) (crtc_id d) (crtc_xfer d) (mPlanes d) (mPreviousBuffers d)
      (mTempBuffers d) (mActiveConfigId d) (mInitActiveConfigId d) (mStartConfigId d) (mActiveConfig d) (mConfigs d)
      (mUiScaleType d) (mFbFormat d) (mPlaneIdPool d) (mOverlayPlaneNum d) (mModeSet d) (mOverlayMaxZpos d)
      (mCommitRetryCnt d) (mHdrMetadataBlobId d) in
  if enable then set true DEFAULT_HWC_PRIMARY_DISPLAY_ID (mHwcId d) else set false (mOriginalHwcId d) (mOriginalHwcId d).

Definition setHdrMetadataBlobId (blob : Z) (d : DrmDisplay) : DrmDisplay :=
  mkDisplay (mIsPrimary d) (mHwcId d) (mOriginalHwcId d) (mId d) (mPort d) (mConnector d) (crtc_id d) (crtc_xfer d) (mPlanes d)
    (mPreviousBuffers d) (mTempBuffers d) (mActiveConfigId d) (mInitActiveConfigId d) (mStartConfigId d) (mActiveConfig d)
    (mConfigs d) (mUiScaleType d) (mFbFormat d) (mPlaneIdPool d) (mOverlayPlaneNum d) true (mOverlayMaxZpos d)
    (mCommitRetryCnt d) blob.

(** *** The planes of a validation *)

(** The overlays, and the id of the one with the greatest zpos, [2^32 - 1] if none has a zpos. *)
Fixpoint overlay_pool (planes : list DrmPlane) (maxZpos top : Z) : list Z * Z :=
  match planes with
  | [] => ([], top)
  | p :: planes' =>
      if isOverlay p then
        let '(pool, top) :=
          if isValid (plane_zpos p) && (maxZpos <=? pr_value (plane_zpos p)) then
            overlay_pool planes' (⟦pr_value (plane_zpos p)⟧u 32) (plane_id p)
          else overlay_pool planes' maxZpos top in
        (plane_id p :: pool, top)
      else overlay_pool planes' maxZpos top
  end.

Definition buildPlaneIdPool (d : DrmDisplay) : Z * DrmDisplay :=
  let '(pool, top) := overlay_pool (mPlanes d) 0 (2 ^ 32 - 1) in (top, with_pool d pool (Z.of_nat (length pool))).

Fixpoint erase_first (f : Z -> bool) (l : list Z) : option Z * list Z :=
  match l with
  | [] => (None, [])
  | x :: l' => if f x then (Some x, l') else let '(o, r) := erase_first f l' in (o, x :: r)
  end.

Definition reservePlaneId (planeId : Z) (d : DrmDisplay) : DrmDisplay :=
  with_pool d (erase_first (Z.eqb planeId) (mPlaneIdPool d)).2 (mOverlayPlaneNum d).

Definition find_plane (planeId : Z) (planes : list DrmPlane) : option DrmPlane := find (fun p => plane_id p =? planeId) planes.

Section Find.
Context `{!HwcAbi}.
(** The build option [OVERLAY_LIMITATION_DPU]. *)
Variable OVERLAY_LIMITATION_DPU : bool.

(** 0 if there is none; ids of the pool are ids of planes. *)
Definition findDrmPlane (handle : option Z) (d : DrmDisplay) : Z * DrmDisplay :=
  match mPlaneIdPool d with
  | [] => (0, d)
  | pool =>
      if OVERLAY_LIMITATION_DPU && (3 <=? ⟦mOverlayPlaneNum d - Z.of_nat (length pool)⟧u 64) then (0, d)
      else
        match h ← handle; getInfoFromHandle h with
        | None => (0, d)
        | Some info =>
            let fits id :=
              match find_plane id (mPlanes d) with Some p => checkFormat p (hi_drm_format info) (hi_modifier info) | None => false end in
            let '(o, rest) := erase_first fits pool in
            (default 0 o, with_pool d rest (mOverlayPlaneNum d))
        end
  end.
End Find.

(** The last primary plane of the map. *)
Definition getPrimaryPlaneId (d : DrmDisplay) : Z :=
  foldl (fun id p => if isPrimary p then plane_id p else id) 0 (mPlanes d).

(** *** The request of a frame *)

Inductive Prop_name :=
  | P_CRTC_ID | P_FB_ID | P_CRTC_X | P_CRTC_Y | P_CRTC_W | P_CRTC_H | P_SRC_X | P_SRC_Y | P_SRC_W | P_SRC_H | P_ZPOS
  | P_HDR_OUTPUT_METADATA | P_ACTIVE | P_MODE_ID | P_OUT_FENCE_PTR.

Record Request := mkRequest { rq_set : list (Z * Prop_name * Z); rq_modeset : bool }.

Definition request_new : Request := mkRequest [] false.

Definition Set_props (l : list (Z * Prop_name * Z)) (r : Request) : Request := mkRequest (rq_set r ++ l) (rq_modeset r).

(** [static_cast<uint32_t>(x) * mode / width], in [uint32_t]. *)
Definition scaled_to (x mode width : Z) : option Z := if width =? 0 then None else Some (⟦⟦x⟧u 32 * mode⟧u 32 / width).

(** A difference of two [int]s, as [uint32_t]. *)
Definition extent (a b : Z) : option Z := z ← checked_s 32 (a - b); Some (⟦z⟧u 32).

(** The zpos of a plane that has one that can be set. *)
Definition zpos_setting (p : DrmPlane) (z : Z) : list (Z * Prop_name * Z) :=
  if isValid (plane_zpos p) && (Z.land (pr_flags (plane_zpos p)) DRM_MODE_PROP_IMMUTABLE =? 0) then
    [(plane_id p, P_ZPOS, ⟦z⟧u 64)]
  else [].

Definition ALIGN_PIXEL_2 (x : Z) : Z := Z.land (⟦x + 1⟧u 32) (2 ^ 32 - 2).

Definition set_active (planeId : Z) (planes : list DrmPlane) : list DrmPlane :=
  (fun p => if plane_id p =? planeId then with_state p PLANE_STATE_ACTIVE else p) <$> planes.

(** A configuration that is missing is added with a width of zero, and divided by. *)
Definition active_entry (d : DrmDisplay) : option HalDisplayConfig := mConfigs d !! ⟦mActiveConfigId d⟧u 32.

Definition flushOverlay (planeId : Z) (request : option Request) (buffer : option nat) (bs : list DrmBuffer) (d : DrmDisplay) :
    option (Error * option Request * DrmDisplay) :=
  match find_plane planeId (mPlanes d) with
  | None => Some (BadParameter, request, d)
  | Some plane =>
      let request := default request_new request in
      config ← active_entry d;
      x ← (n ← buffer; bs !! n);
      let F := db_frame x in let S := db_crop x in
      x0 ← scaled_to (r_left F) (modeWidth config) (hc_width config);
      y0 ← scaled_to (r_top F) (modeHeight config) (hc_height config);
      w ← extent (r_right F) (r_left F); wF ← scaled_to w (modeWidth config) (hc_width config);
      h ← extent (r_bottom F) (r_top F); hF ← scaled_to h (modeHeight config) (hc_height config);
      wS ← extent (r_right S) (r_left S);
      hS ← extent (r_bottom S) (r_top S);
      let align z := ALIGN_PIXEL_2 (⟦z - 1⟧u 32) in
      let shift z := ⟦⟦Z.shiftl z 16⟧s 32⟧u 64 in
      let ushift z := ⟦Z.shiftl z 16⟧u 32 in
      let request :=
        Set_props ([(planeId, P_CRTC_ID, crtc_id d); (planeId, P_FB_ID, mDrmFramebuffer x); (planeId, P_CRTC_X, x0);
                    (planeId, P_CRTC_Y, y0); (planeId, P_CRTC_W, align wF); (planeId, P_CRTC_H, align hF);
                    (planeId, P_SRC_X, shift (r_left S)); (planeId, P_SRC_Y, shift (r_top S));
                    (planeId, P_SRC_W, ushift (align wS)); (planeId, P_SRC_H, ushift (align hS))]
                   ++ zpos_setting plane (mZpos x)) request in
      let temp :=
        mkDisplayBuffer (clientTargetDrmBuffer (mTempBuffers d)) (<[planeId := buffer]> (planeDrmBuffer (mTempBuffers d)))
          (dummyDrmBuffer (mTempBuffers d)) in
      Some (NoError, Some request,
            with_planes d (set_active planeId (mPlanes d)) temp (if mOverlayMaxZpos d <? mZpos x then mZpos x else mOverlayMaxZpos d))
  end.

Definition clearTempBuffer (overlaynum : Z) (d : DrmDisplay) : DrmDisplay :=
  let t := mTempBuffers d in
  if overlaynum <? Z.of_nat (size (planeDrmBuffer t)) then
    with_planes d (mPlanes d) (mkDisplayBuffer (clientTargetDrmBuffer t) ∅ (dummyDrmBuffer t)) (mOverlayMaxZpos d)
  else d.

Definition flushPrimary (planeId : Z) (request : option Request) (n : nat) (bs : list DrmBuffer) (d : DrmDisplay) :
    option (Error * option Request * DrmDisplay) :=
  match find_plane planeId (mPlanes d) with
  | None => Some (BadParameter, request, d)
  | Some plane =>
      let request := default request_new request in
      config ← active_entry d;
      x ← bs !! n;
      let F := db_frame x in let S := db_crop x in
      frameX ← scaled_to (r_left F) (modeWidth config) (hc_width config);
      frameY ← scaled_to (r_top F) (modeHeight config) (hc_height config);
      w ← extent (r_right F) (r_left F); frameWidth ← scaled_to w (modeWidth config) (hc_width config);
      h ← extent (r_bottom F) (r_top F); frameHeight ← scaled_to h (modeHeight config) (hc_height config);
      sourceWidth ← extent (r_right S) (r_left S);
      sourceHeight ← extent (r_bottom S) (r_top S);
      let '(sx, sy, sw, sh) :=
        if mUiScaleType d =? UI_SCALE_SOFTWARE then (0, 0, modeWidth config, modeHeight config)
        else (⟦r_left S⟧u 32, ⟦r_top S⟧u 32, sourceWidth, sourceHeight) in
      let '(dx, dy, dw, dh) :=
        if mUiScaleType d =? UI_SCALE_SOFTWARE then (0, 0, modeWidth config, modeHeight config)
        else if mUiScaleType d =? UI_SCALE_HARDWARE then (0, 0, hc_width config, hc_height config)
        else (frameX, frameY, frameWidth, frameHeight) in
      zset ← (match zpos_setting plane 0 with
              | [] => Some []
              | _ => z ← checked_s 32 (mOverlayMaxZpos d + 1); Some (zpos_setting plane z)
              end);
      let ushift z := ⟦Z.shiftl z 16⟧u 32 in
      let request :=
        Set_props ([(planeId, P_CRTC_ID, crtc_id d); (planeId, P_FB_ID, mDrmFramebuffer x); (planeId, P_CRTC_X, dx);
                    (planeId, P_CRTC_Y, dy); (planeId, P_CRTC_W, dw); (planeId, P_CRTC_H, dh);
                    (planeId, P_SRC_X, ushift sx); (planeId, P_SRC_Y, ushift sy); (planeId, P_SRC_W, ushift sw);
                    (planeId, P_SRC_H, ushift sh)]
                   ++ zset) request in
      let temp := mkDisplayBuffer (Some n) (planeDrmBuffer (mTempBuffers d)) (dummyDrmBuffer (mTempBuffers d)) in
      Some (NoError, Some request, with_planes d (set_active planeId (mPlanes d)) temp (mOverlayMaxZpos d))
  end.

(** *** The commit *)

(** Active planes are left alone; planes of the last frame are turned off, and forgotten. *)
Fixpoint disable_planes (planes : list DrmPlane) : list DrmPlane * list (Z * Prop_name * Z) :=
  match planes with
  | [] => ([], [])
  | p :: planes' =>
      let '(ps, sets) := disable_planes planes' in
      match mState p with
      | PLANE_STATE_DISABLED =>
          (with_state p PLANE_STATE_NONE :: ps, [(plane_id p, P_CRTC_ID, 0); (plane_id p, P_FB_ID, 0)] ++ sets)
      | _ => (p :: ps, sets)
      end
  end.

Definition EBUSY : Z := 16.

(** The first answer that is not [-EBUSY], or the last one. *)
Fixpoint commit_loop (answer : nat -> Z) (i retries : nat) : Z :=
  match retries with
  | O => answer i
  | S retries' => if answer i =? - EBUSY then commit_loop answer (S i) retries' else answer i
  end.

(** The settings of a mode set. *)
Definition modeset_settings (d : DrmDisplay) : option (list (Z * Prop_name * Z)) :=
  blob ← (if 0 <=? mActiveConfigId d then Some (blobId (mActiveConfig d)) else md_blob <$> head (mModes (mConnector d)));
  Some ([(cn_id (mConnector d), P_CRTC_ID, crtc_id d)]
        ++ (if cn_hdr_prop (mConnector d) then [(cn_id (mConnector d), P_HDR_OUTPUT_METADATA, mHdrMetadataBlobId d)] else [])
        ++ [(crtc_id d, P_ACTIVE, 1); (crtc_id d, P_MODE_ID, blob)]).

Definition turn_off (p : DrmPlane) : DrmPlane :=
  match mState p with PLANE_STATE_ACTIVE => with_state p PLANE_STATE_DISABLED | _ => p end.

(** The error, the request the kernel gets, and the display. *)
Definition commit (answer : nat -> Z) (request : option Request) (d : DrmDisplay) : option (Error * Request * DrmDisplay) :=
  let request := default request_new request in
  let '(planes, off) := disable_planes (mPlanes d) in
  let request := Set_props off request in
  request ← (if mModeSet d then
               sets ← modeset_settings d; Some (mkRequest (rq_set request ++ sets) true)
             else Some request);
  let request := Set_props [(crtc_id d, P_OUT_FENCE_PTR, 0)] request in
  if refreshRateHz (mActiveConfig d) =? 0 then None
  else
    let d1 := with_planes d planes (mTempBuffers d) (mOverlayMaxZpos d) in
    if commit_loop answer 0 (mCommitRetryCnt d) =? 0 then
      let t := mTempBuffers d in
      let p := mPreviousBuffers d in
      Some (NoError, request,
            mkDisplay (mIsPrimary d) (mHwcId d) (mOriginalHwcId d) (mId d) (mPort d) (mConnector d) (crtc_id d) (crtc_xfer d)
              (turn_off <$> planes) (mkDisplayBuffer (clientTargetDrmBuffer t) (planeDrmBuffer t) (dummyDrmBuffer p)) t
              (mActiveConfigId d) (mInitActiveConfigId d) (mStartConfigId d) (mActiveConfig d) (mConfigs d) (mUiScaleType d)
              (mFbFormat d) (mPlaneIdPool d) (mOverlayPlaneNum d) false 0
              (if mModeSet d then MAX_COMMIT_RETRY_COUNT * 4 else MAX_COMMIT_RETRY_COUNT)%nat (mHdrMetadataBlobId d))
    else Some (NoResources, request, d1).

(** ** [flushToDisplay] on a connected display *)

Fixpoint flush_overlays (planes : list (Z * option nat)) (request : option Request) (bs : list DrmBuffer) (d : DrmDisplay) :
    option (bool * option Request * DrmDisplay) :=
  match planes with
  | [] => Some (true, request, d)
  | (p, n) :: planes' =>
      '(e, request, d) ← flushOverlay p request n bs d;
      if is_ok e then flush_overlays planes' request bs d else Some (false, None, d)
  end.

(** The error, the request the kernel gets, if any, and the display.  A plane without a buffer is a null pointer. *)
Definition flush_display (answer : nat -> Z) (buffer : DisplayBuffer) (bs : list DrmBuffer) (d : DrmDisplay) :
    option (Error * option Request * DrmDisplay) :=
  let d := clearTempBuffer (Z.of_nat (size (planeDrmBuffer buffer))) d in
  '(ok, request, d) ← flush_overlays (map_to_list (planeDrmBuffer buffer)) None bs d;
  if negb ok then Some (NoResources, None, d)
  else
    '(e, request, d) ←
      (match clientTargetDrmBuffer buffer with
       | Some n => flushPrimary (getPrimaryPlaneId d) request n bs d
       | None => Some (NoError, request, d)
       end);
    if is_ok e then '(e, request, d) ← commit answer request d; Some (e, Some request, d)
    else Some (NoResources, None, d).

(** ** Configurations and hot plugging *)

Section Configs.
(** The properties [ro.boot.displaymode] and [ro.boot.gui_resolution]. *)
Variables (displaymode gui_resolution : string).
(** The configuration of a display that is not connected: [MAX_DRM_CONFIG_4K], [MAX_DRM_CONFIG_720P] or neither. *)
Variables (placeholder_width placeholder_height : Z).

Definition zero_config : HalDisplayConfig := mkHal 0 0 0 0 0 0 0 0 0.
Definition DRM_MODE_TYPE_PREFERRED : Z := 8.

Definition abs_diff (a b : Z) : option Z := z ← checked_s 32 (⟦a⟧s 32 - ⟦b⟧s 32); checked_s 32 (Z.abs z).

(** The index of the mode that is nearest; [start + i] are the ids of the configurations. *)
Fixpoint best_mode (dst_width dst_height dst_vrefresh : Z) (prefered : bool) (start : Z) (configs : HalConfig) (n : nat) (i index delta : Z) :
    option Z :=
  match n with
  | O => Some index
  | S n' =>
      let at_index k := default zero_config (configs !! ⟦start + k⟧u 32) in
      let cfg := at_index i in
      if prefered && negb (Z.land (modeType cfg) DRM_MODE_TYPE_PREFERRED =? 0) then Some i
      else
        x ← abs_diff dst_width (hc_width cfg); y ← abs_diff dst_height (hc_height cfg);
        rdelta ← checked_s 32 (x + y);
        let continue := best_mode dst_width dst_height dst_vrefresh prefered start configs n' (i + 1) in
        if rdelta <? delta then continue i rdelta
        else if rdelta =? delta then
          a ← abs_diff dst_vrefresh (refreshRateHz cfg);
          b ← abs_diff dst_vrefresh (refreshRateHz (at_index index));
          continue (if a <? b then i else index) delta
        else continue index delta
  end.

(** The greatest id. *)
Definition id_max (configs : HalConfig) : Z := foldr (fun e m => Z.max e.1 m) 0 (map_to_list configs).

(** [mUiScaleType] is written even if the resolution stays.  The ids stay far below [2^31]. *)
Definition updateActiveConfig (configs : HalConfig) (d : DrmDisplay) : option DrmDisplay :=
  '(w, h, v, prefered) ← parseDisplayMode displaymode;
  index ← best_mode w h v (prefered =? 1) (mStartConfigId d) configs (size configs) 0 0 (2 ^ 32 - 1);
  let active := mStartConfigId d + index in
  let activeConfig := default zero_config (configs !! active) in
  let configs := filter (fun e => refreshRateHz e.2 = refreshRateHz activeConfig) configs in
  '(custom, (width, height), ui) ← customizeGUIResolution gui_resolution (hc_width activeConfig) (hc_height activeConfig) (mUiScaleType d);
  let '(active, configs) :=
    if (custom : bool) then
      let id := mStartConfigId d + id_max configs + 1 in
      let newConfig :=
        mkHal width height 160 160 (refreshRateHz activeConfig) (blobId activeConfig) 0 (hc_width activeConfig) (hc_height activeConfig) in
      (id, <[id := newConfig]> configs)
    else (active, configs) in
  Some (with_configs d active active (mStartConfigId d) (default zero_config (configs !! active)) configs ui (mModeSet d)).

Definition updateDisplayConfigs (d : DrmDisplay) : option DrmDisplay :=
  let start := mStartConfigId d + id_max (mConfigs d) + 1 in
  '(ok, configs) ← buildConfigs (mConnector d) ∅ start;
  let d := with_configs d (mActiveConfigId d) (mInitActiveConfigId d) start (mActiveConfig d) configs (mUiScaleType d) (mModeSet d) in
  if (ok : bool) then updateActiveConfig configs d else Some d.

(** The next id counts the configurations. *)
Definition placeholderDisplayConfigs (d : DrmDisplay) : option DrmDisplay :=
  let start := mStartConfigId d + Z.of_nat (size (mConfigs d)) in
  newConfig ←
    (if 0 <=? mActiveConfigId d then
       let c := mActiveConfig d in
       Some (mkHal (hc_width c) (hc_height c) (hc_dpiX c) (hc_dpiY c) (refreshRateHz c) 0 (modeType c) 0 0)
     else
       '(custom, (width, height), _) ← customizeGUIResolution gui_resolution placeholder_width placeholder_height UI_SCALE_NONE;
       let '(w, h) := if (custom : bool) then (width, height) else (placeholder_width, placeholder_height) in
       Some (mkHal w h 160 160 60 0 0 0 0));
  Some (with_configs d start start start newConfig {[start := newConfig]} (mUiScaleType d) (mModeSet d)).

Definition setActiveConfigId (configId : Z) (d : DrmDisplay) : bool * DrmDisplay :=
  match mConfigs d !! ⟦configId⟧u 32 with
  | None => (false, d)
  | Some c => (true, with_configs d configId (mInitActiveConfigId d) (mStartConfigId d) c (mConfigs d) (mUiScaleType d) true)
  end.

Definition resetDisplayConfig (d : DrmDisplay) : bool * DrmDisplay := setActiveConfigId (mInitActiveConfigId d) d.

Definition onConnect (d : DrmDisplay) : option DrmDisplay :=
  d ← updateDisplayConfigs d;
  Some (with_configs d (mActiveConfigId d) (mInitActiveConfigId d) (mStartConfigId d) (mActiveConfig d) (mConfigs d) (mUiScaleType d) true).

Definition onDisconnect (d : DrmDisplay) : DrmDisplay :=
  let d :=
    mkDisplay (mIsPrimary d) (mHwcId d) (mOriginalHwcId d) (mId d) (mPort d) (mConnector d) (crtc_id d) (crtc_xfer d) (mPlanes d)
      (mkDisplayBuffer None ∅ (dummyDrmBuffer (mPreviousBuffers d))) (mTempBuffers d) (mActiveConfigId d) (mInitActiveConfigId d)
      (mStartConfigId d) (mActiveConfig d) (mConfigs d) (mUiScaleType d) (mFbFormat d) (mPlaneIdPool d) (mOverlayPlaneNum d)
      (mModeSet d) (mOverlayMaxZpos d) (mCommitRetryCnt d) (mHdrMetadataBlobId d) in
  if mIsPrimary d then d
  else with_configs d (-1) (mInitActiveConfigId d) (mStartConfigId d) (mActiveConfig d) ∅ (mUiScaleType d) (mModeSet d).

Inductive DrmHotplugChange := kNoChange | kConnected | kDisconnected.

Definition checkAndHandleHotplug (info : option ConnectorInfo) (blob : option (list Z)) (d : DrmDisplay) :
    option (DrmHotplugChange * DrmDisplay) :=
  let old := isConnected (mConnector d) in
  '(_, c) ← update info blob (mConnector d);
  let d := with_connector d c in
  if Bool.eqb old (isConnected c) then Some (kNoChange, d)
  else if isConnected c then d ← onConnect d; Some (kConnected, d)
  else Some (kDisconnected, onDisconnect d).
End Configs.

(** *** The format of the frame buffer *)

Definition getFramebufferInfo (d : DrmDisplay) : Z * Z * Z :=
  if mUiScaleType d =? UI_SCALE_SOFTWARE then (modeWidth (mActiveConfig d), modeHeight (mActiveConfig d), mFbFormat d)
  else (hc_width (mActiveConfig d), hc_height (mActiveConfig d), mFbFormat d).

(** A display of the device before its configurations are read. *)
Definition display_new (id port : Z) (c : DrmConnector) (crtc : Z) (xfer : bool) (planes : list DrmPlane) (format : Z) : DrmDisplay :=
  mkDisplay false id id id port c crtc xfer planes no_buffers no_buffers (-1) (-1) 0 zero_config ∅ UI_SCALE_NONE format [] 0
    true 0 MAX_COMMIT_RETRY_COUNT 0.

(** ** What the hardware shows *)

(** A plane shows a frame buffer, or is off: the effect of a request. *)
Definition apply_setting (hw : gmap Z Z) (s : Z * Prop_name * Z) : gmap Z Z :=
  match s.1.2 with P_FB_ID => if s.2 =? 0 then delete s.1.1 hw else <[s.1.1 := s.2]> hw | _ => hw end.

Definition apply_settings (l : list (Z * Prop_name * Z)) (hw : gmap Z Z) : gmap Z Z := foldl apply_setting hw l.

Definition apply_request (r : Request) (hw : gmap Z Z) : gmap Z Z := apply_settings (rq_set r) hw.

Lemma apply_settings_app l1 l2 hw : apply_settings (l1 ++ l2) hw = apply_settings l2 (apply_settings l1 hw).
Proof. apply foldl_app. Qed.

(** Settings of properties other than the frame buffer. *)
Definition no_fb (l : list (Z * Prop_name * Z)) : Prop := Forall (fun s => s.1.2 <> P_FB_ID) l.

Lemma apply_no_fb l hw : no_fb l -> apply_settings l hw = hw.
Proof. intros Hl. induction Hl as [|s l Hs Hl IH]; [done|]. cbn. unfold apply_setting at 2. by destruct (s.1.2). Qed.

(** The settings of a plane with a frame buffer. *)
Lemma apply_chunk id c fb s hw : fb <> 0 -> no_fb s ->
  apply_settings ((id, P_CRTC_ID, c) :: (id, P_FB_ID, fb) :: s) hw = <[id := fb]> hw.
Proof.
  intros Hne Hs. change (apply_settings s (apply_setting hw (id, P_FB_ID, fb)) = <[id := fb]> hw).
  rewrite apply_no_fb by done. unfold apply_setting. cbn. by destruct (Z.eqb_spec fb 0).
Qed.

Lemma zpos_no_fb p z : no_fb (zpos_setting p z).
Proof. unfold zpos_setting. destruct (_ && _); repeat constructor; done. Qed.

Lemma modeset_no_fb d l : modeset_settings d = Some l -> no_fb l.
Proof.
  unfold modeset_settings. destruct (if 0 <=? _ then _ else _) as [b|]; [|done]. intros [= <-].
  destruct (cn_hdr_prop _); cbn; repeat constructor; done.
Qed.

(** The frame buffer of a buffer. *)
Definition fb_of (bs : list DrmBuffer) (o : option nat) : option Z := n ← o; mDrmFramebuffer <$> bs !! n.

(** The planes a frame shows. *)
Definition frame (bs : list DrmBuffer) (b : DisplayBuffer) (primary : Z) : gmap Z Z :=
  match clientTargetDrmBuffer b with
  | Some n => partial_alter (fun _ => fb_of bs (Some n)) primary (omap (fb_of bs) (planeDrmBuffer b))
  | None => omap (fb_of bs) (planeDrmBuffer b)
  end.

(** The planes with the state ACTIVE added. *)
Definition activate (ids : list Z) (planes : list DrmPlane) : list DrmPlane :=
  (fun p => if bool_decide (plane_id p ∈ ids) then with_state p PLANE_STATE_ACTIVE else p) <$> planes.

Lemma activate_ids ids planes : plane_id <$> activate ids planes = plane_id <$> planes.
Proof. unfold activate. rewrite <- list_fmap_compose. apply list_fmap_ext. intros i p _. cbn. by destruct (bool_decide _). Qed.

Lemma activate_cons i ids planes : activate (i :: ids) planes = activate ids (set_active i planes).
Proof.
  unfold activate, set_active. rewrite <- list_fmap_compose. apply list_fmap_ext. intros k p _. cbn.
  destruct (Z.eqb_spec (plane_id p) i) as [->|Hne]; cbn.
  - rewrite bool_decide_true by (by left). destruct (bool_decide _); by destruct p.
  - rewrite (bool_decide_ext _ (plane_id p ∈ ids)); [done|]. rewrite elem_of_cons. tauto.
Qed.

(** What stays of a display while a frame is built. *)
Definition same_frame (d d' : DrmDisplay) : Prop :=
  mModeSet d' = mModeSet d /\ mCommitRetryCnt d' = mCommitRetryCnt d /\ mActiveConfig d' = mActiveConfig d.

Section Frames.
Context (bs : list DrmBuffer).
Hypothesis Hfb : forall n x, bs !! n = Some x -> mDrmFramebuffer x <> 0.

Definition settings (r : option Request) : list (Z * Prop_name * Z) := rq_set (default request_new r).


Lemma flushOverlay_effect p r o d e r' d' : flushOverlay p r o bs d = Some (e, r', d') ->
  is_ok e = true ->
  mPlanes d' = set_active p (mPlanes d) /\ same_frame d d' /\ (exists q, q ∈ mPlanes d /\ plane_id q = p) /\
  is_Some (fb_of bs o) /\
  forall hw, apply_settings (settings r') hw = partial_alter (fun _ => fb_of bs o) p (apply_settings (settings r) hw).
Proof.
  unfold flushOverlay. destruct (find_plane p (mPlanes d)) as [q|] eqn:Eq; [|by intros [= <- _ _]].
  destruct (active_entry d) as [c|]; [|done]. cbn [mbind option_bind].
  destruct (n ← o; bs !! n) as [x|] eqn:Ex; [|done]. cbn [mbind option_bind].
  repeat match goal with |- context [scaled_to ?a ?b ?c] => destruct (scaled_to a b c); cbn [mbind option_bind]; [|done] 
    | |- context [extent ?a ?b] => destruct (extent a b); cbn [mbind option_bind]; [|done] end.
  intros [= <- <- <-] _.
  assert (fb_of bs o = Some (mDrmFramebuffer x)) as Hf.
  { destruct o as [n|]; [|done]. cbn in *. by rewrite Ex. }
  split_and!; [done|done| |by rewrite Hf|].
  - apply find_some in Eq as [Hq Hid]. exists q. split; [by apply list_elem_of_In|by apply Z.eqb_eq].
  - intros hw. unfold settings at 1. cbn [default from_option id Set_props rq_set]. rewrite apply_settings_app. fold (settings r).
    rewrite Hf, apply_chunk; [done| |repeat (constructor; [discriminate|]); apply zpos_no_fb].
    destruct o as [n|]; [|done]. cbn in Ex. by apply (Hfb n x).
Qed.

Lemma flushPrimary_effect p r n d e r' d' : flushPrimary p r n bs d = Some (e, r', d') ->
  is_ok e = true ->
  mPlanes d' = set_active p (mPlanes d) /\ same_frame d d' /\ (exists q, q ∈ mPlanes d /\ plane_id q = p) /\
  is_Some (fb_of bs (Some n)) /\
  forall hw, apply_settings (settings r') hw = partial_alter (fun _ => fb_of bs (Some n)) p (apply_settings (settings r) hw).
Proof.
  unfold flushPrimary. destruct (find_plane p (mPlanes d)) as [q|] eqn:Eq; [|by intros [= <- _ _]].
  destruct (active_entry d) as [c|]; [|done]. cbn [mbind option_bind].
  destruct (bs !! n) as [x|] eqn:Ex; [|done]. cbn [mbind option_bind].
  repeat match goal with |- context [scaled_to ?a ?b ?c] => destruct (scaled_to a b c); cbn [mbind option_bind]; [|done] 
    | |- context [extent ?a ?b] => destruct (extent a b); cbn [mbind option_bind]; [|done] end.
  destruct (if mUiScaleType d =? UI_SCALE_SOFTWARE then (0, 0, modeWidth c, modeHeight c) else _) as [[[sx sy] sw] sh].
  destruct (if mUiScaleType d =? UI_SCALE_SOFTWARE then (0, 0, modeWidth c, modeHeight c) else _) as [[[dx dy] dw] dh].
  set (zset := match zpos_setting q 0 with [] => _ | _ :: _ => _ end). assert (forall l, zset = Some l -> no_fb l) as Hz.
  { unfold zset. intros l. destruct (zpos_setting q 0); [intros [= <-]; constructor|].
    destruct (checked_s _ _); cbn; [|done]. intros [= <-]. apply zpos_no_fb. }
  clearbody zset. destruct zset as [zl|]; cbn [mbind option_bind]; [|done]. specialize (Hz zl eq_refl).
  intros [= <- <- <-] _.
  assert (fb_of bs (Some n) = Some (mDrmFramebuffer x)) as Hf by (cbn; by rewrite Ex).
  split_and!; [done|done| |by rewrite Hf|].
  - apply find_some in Eq as [Hq Hid]. exists q. split; [by apply list_elem_of_In|by apply Z.eqb_eq].
  - intros hw. unfold settings at 1. cbn [default from_option id Set_props rq_set]. rewrite apply_settings_app. fold (settings r).
    rewrite Hf, apply_chunk; [done|by apply (Hfb n x)|repeat (constructor; [discriminate|]); done].
Qed.

Lemma flush_overlays_effect l : forall r d ok r' d', flush_overlays l r bs d = Some (ok, r', d') -> ok = true -> NoDup l.*1 ->
  mPlanes d' = activate l.*1 (mPlanes d) /\ same_frame d d' /\
  (forall p, p ∈ l.*1 -> p ∈ plane_id <$> mPlanes d) /\
  (forall p o, (p, o) ∈ l -> is_Some (fb_of bs o)) /\
  forall hw p, apply_settings (settings r') hw !! p =
    match (list_to_map l : gmap Z (option nat)) !! p with Some o => fb_of bs o | None => apply_settings (settings r) hw !! p end.
Proof.
  induction l as [|[p o] l IH]; intros r d ok r' d' H Hok Hnd; cbn [flush_overlays] in H.
  - injection H as <- <- <-. split_and!; [|done|by intros p ?%elem_of_nil|by intros p o ?%elem_of_nil|done].
    unfold activate. cbn. rewrite <- (list_fmap_id (mPlanes d)) at 1. by apply list_fmap_ext.
  - destruct (flushOverlay p r o bs d) as [[[e r1] d1]|] eqn:E; cbn in H; [|done].
    destruct (is_ok e) eqn:Ee; [|by injection H as <- _ _]. apply NoDup_cons in Hnd as [Hp Hnd].
    destruct (flushOverlay_effect p r o d e r1 d1 E Ee) as (Hpl & (Hm1 & Hc1 & Ha1) & (q & Hq & Hqid) & Hf & Hap).
    destruct (IH r1 d1 ok r' d' H Hok Hnd) as (Hpl' & (Hm2 & Hc2 & Ha2) & Hin & Hall & Hap'). split_and!.
    + cbn. by rewrite activate_cons, Hpl', Hpl.
    + split_and!; congruence.
    + intros i [->|Hi]%elem_of_cons; [apply list_elem_of_fmap; by exists q|].
      specialize (Hin i Hi). rewrite Hpl in Hin. unfold set_active in Hin. rewrite <- list_fmap_compose in Hin.
      apply list_elem_of_fmap in Hin as (x & -> & Hx). cbn. apply list_elem_of_fmap. exists x.
      split; [by destruct (plane_id x =? p)|done].
    + intros i o' [[= -> ->]|Hi]%elem_of_cons; [done|by eapply Hall].
    + intros hw i. rewrite Hap', Hap. cbn. destruct (decide (i = p)) as [->|Hne].
      * rewrite lookup_insert_eq, not_elem_of_list_to_map_1 by done. by rewrite lookup_partial_alter_eq.
      * rewrite lookup_insert_ne by done. by rewrite lookup_partial_alter_ne.
Qed.

Definition is_disabled (p : DrmPlane) : bool := match mState p with PLANE_STATE_DISABLED => true | _ => false end.

(** The plane after the settings of a commit are made. *)
Definition forget (p : DrmPlane) : DrmPlane := if is_disabled p then with_state p PLANE_STATE_NONE else p.

Lemma disable_planes_effect planes : forall planes' sets, disable_planes planes = (planes', sets) ->
  planes' = (forget <$> planes) /\
  forall hw q, apply_settings sets hw !! q =
    if existsb (fun p => (plane_id p =? q) && is_disabled p) planes then None else hw !! q.
Proof.
  induction planes as [|p planes IH]; intros planes' sets E; cbn in E; [by injection E as <- <-|].
  destruct (disable_planes planes) as [ps s]. destruct (IH ps s eq_refl) as [-> Hs]. rewrite fmap_cons. cbn [existsb].
  assert (is_disabled p = match mState p with PLANE_STATE_DISABLED => true | _ => false end) as Hd by done.
  assert (forget p = if is_disabled p then with_state p PLANE_STATE_NONE else p) as -> by done. rewrite Hd.
  destruct (mState p) eqn:Ep; injection E as <- <-; (split; [done|]); intros hw q; rewrite ?andb_false_r, ?andb_true_r; cbn [orb].
  1, 2: by apply Hs.
  change (apply_settings s (delete (plane_id p) hw) !! q =
    if (plane_id p =? q) || existsb (fun p => (plane_id p =? q) && is_disabled p) planes then None else hw !! q).
  rewrite Hs. destruct (existsb _ planes); [by rewrite orb_true_r|]. rewrite orb_false_r.
  destruct (Z.eqb_spec (plane_id p) q) as [->|]; [apply lookup_delete_eq|by apply lookup_delete_ne].
Qed.

(** The planes that are on are those of the last frame, which are to be turned off. *)
Record tracks (hw : gmap Z Z) (planes : list DrmPlane) : Prop := {
  tr_ids : NoDup (plane_id <$> planes);
  tr_on : forall p, p ∈ planes -> is_disabled p = true <-> is_Some (hw !! plane_id p);
  tr_idle : forall p, p ∈ planes -> mState p <> PLANE_STATE_ACTIVE;
  tr_only : forall q, is_Some (hw !! q) -> q ∈ plane_id <$> planes
}.

Lemma commit_effect answer r d e r' d' : commit answer r d = Some (e, r', d') ->
  (forall hw q, apply_request r' hw !! q =
     if existsb (fun p => (plane_id p =? q) && is_disabled p) (mPlanes d) then None else apply_settings (settings r) hw !! q) /\
  ((e = NoError /\ mPlanes d' = (fun p => turn_off (forget p)) <$> mPlanes d) \/
   (e = NoResources /\ mPlanes d' = forget <$> mPlanes d)).
Proof.
  unfold commit. destruct (disable_planes (mPlanes d)) as [planes off] eqn:Ed.
  destruct (disable_planes_effect _ _ _ Ed) as [-> Hoff]. set (r1 := Set_props off _).
  assert (forall r2, (if mModeSet d then sets ← modeset_settings d; Some (mkRequest (rq_set r1 ++ sets) true) else Some r1) = Some r2 ->
    forall hw, apply_settings (rq_set r2) hw = apply_settings off (apply_settings (settings r) hw)) as Hset.
  { intros r2 H2 hw. destruct (mModeSet d).
    - destruct (modeset_settings d) as [sets|] eqn:Em; cbn in H2; [|done]. injection H2 as <-. unfold r1. cbn [Set_props rq_set].
      rewrite !apply_settings_app, (apply_no_fb sets) by (by eapply modeset_no_fb). done.
    - injection H2 as <-. unfold r1. cbn [Set_props rq_set]. by rewrite apply_settings_app. }
  destruct (if mModeSet d then _ else Some r1) as [r2|]; cbn [mbind option_bind]; [|done]. specialize (Hset r2 eq_refl).
  destruct (_ =? 0); [done|].
  assert (forall hw q, apply_request (Set_props [(crtc_id d, P_OUT_FENCE_PTR, 0)] r2) hw !! q =
    if existsb (fun p => (plane_id p =? q) && is_disabled p) (mPlanes d) then None else apply_settings (settings r) hw !! q) as Hreq.
  { intros hw q. unfold apply_request. cbn [Set_props rq_set]. rewrite apply_settings_app, (apply_no_fb [_]) by (repeat constructor; done).
    by rewrite Hset, Hoff. }
  destruct (_ =? 0); intros [= <- <- <-]; (split; [exact Hreq|]).
  - left. split; [done|]. cbn. by rewrite <- list_fmap_compose.
  - by right.
Qed.

Lemma activate_app a b planes : activate (a ++ b) planes = activate b (activate a planes).
Proof. revert planes. induction a as [|i a IH]; intros planes; [cbn; f_equal; symmetry; apply list_fmap_id|]. cbn. by rewrite !activate_cons, IH. Qed.

(** The primary plane does not depend on the states. *)
Lemma primary_map f d d' : mPlanes d' = f <$> mPlanes d -> (forall p, plane_id (f p) = plane_id p /\ mType (f p) = mType p) ->
  getPrimaryPlaneId d' = getPrimaryPlaneId d.
Proof.
  unfold getPrimaryPlaneId. intros -> Hf. generalize 0. induction (mPlanes d) as [|p l IH]; intros z; [done|].
  rewrite fmap_cons. cbn. rewrite IH. unfold isPrimary. by destruct (Hf p) as [-> ->].
Qed.

Lemma primary_activate ids d d' : mPlanes d' = activate ids (mPlanes d) -> getPrimaryPlaneId d' = getPrimaryPlaneId d.
Proof. intros H. eapply primary_map; [exact H|]. intros p. cbn. by case_match. Qed.

(** The planes a frame names. *)
Definition frame_ids (b : DisplayBuffer) (d : DrmDisplay) : list Z :=
  (map_to_list (planeDrmBuffer b)).*1 ++ match clientTargetDrmBuffer b with Some _ => [getPrimaryPlaneId d] | None => [] end.

Lemma disabled_activate ids planes q :
  existsb (fun p => (plane_id p =? q) && is_disabled p) (activate ids planes) =
  existsb (fun p => (plane_id p =? q) && is_disabled p) planes && bool_decide (q ∉ ids).
Proof.
  induction planes as [|p planes IH]; [done|]. unfold activate in *. rewrite fmap_cons. cbn [existsb]. rewrite IH.
  destruct (bool_decide (plane_id p ∈ ids)) eqn:E; cbn.
  - apply bool_decide_eq_true in E. destruct (Z.eqb_spec (plane_id p) q) as [<-|]; cbn; [|done].
    rewrite (bool_decide_false (plane_id p ∉ ids)) by tauto. by rewrite !andb_false_r.
  - apply bool_decide_eq_false in E. destruct (Z.eqb_spec (plane_id p) q) as [<-|]; cbn; [|done].
    rewrite (bool_decide_true (plane_id p ∉ ids)) by done. by rewrite !andb_true_r.
Qed.

(** A request that is built from the buffers of a frame, before the commit. *)
Lemma flush_frame_effect b d r1 d1 e r2 d2 : 
  flush_overlays (map_to_list (planeDrmBuffer b)) None bs d = Some (true, r1, d1) ->
  (match clientTargetDrmBuffer b with
   | Some n => flushPrimary (getPrimaryPlaneId d1) r1 n bs d1
   | None => Some (NoError, r1, d1)
   end) = Some (e, r2, d2) -> is_ok e = true ->
  mPlanes d2 = activate (frame_ids b d) (mPlanes d) /\
  (forall q, q ∈ frame_ids b d -> q ∈ plane_id <$> mPlanes d /\ is_Some (frame bs b (getPrimaryPlaneId d) !! q)) /\
  (forall q, q ∉ frame_ids b d -> frame bs b (getPrimaryPlaneId d) !! q = None) /\
  forall hw q, apply_settings (settings r2) hw !! q =
    if bool_decide (q ∈ frame_ids b d) then frame bs b (getPrimaryPlaneId d) !! q else hw !! q.
Proof.
  intros H1 H2 He. destruct (flush_overlays_effect _ _ _ _ _ _ H1 eq_refl) as (Hp1 & _ & Hin1 & Hfb1 & Hap1); [apply NoDup_fst_map_to_list|].
  pose proof (primary_activate _ _ _ Hp1) as Hprim.
  assert (forall q, q ∈ (map_to_list (planeDrmBuffer b)).*1 <-> is_Some (planeDrmBuffer b !! q)) as Hdom.
  { intros q. rewrite list_elem_of_fmap. split.
    - intros ([q' o] & -> & Hq). apply elem_of_map_to_list in Hq. by exists o.
    - intros [o Ho]. exists (q, o). split; [done|by apply elem_of_map_to_list]. }
  assert (forall q, omap (fb_of bs) (planeDrmBuffer b) !! q = match planeDrmBuffer b !! q with Some o => fb_of bs o | None => None end) as Hom.
  { intros q. rewrite lookup_omap. by destruct (planeDrmBuffer b !! q). }
  assert (forall q o, planeDrmBuffer b !! q = Some o -> is_Some (fb_of bs o)) as Hall.
  { intros q o Ho. apply (Hfb1 q). by apply elem_of_map_to_list. }
  assert (forall hw q, apply_settings (settings r1) hw !! q = match planeDrmBuffer b !! q with Some o => fb_of bs o | None => hw !! q end) as Hap.
  { intros hw q. rewrite Hap1, list_to_map_to_list. done. }
  unfold frame_ids, frame. destruct (clientTargetDrmBuffer b) as [n|].
  - rewrite Hprim in H2. destruct (flushPrimary_effect _ _ _ _ _ _ _ H2 He) as (Hp2 & _ & (x & Hx & Hxid) & Hf & Hap2).
    set (prim := getPrimaryPlaneId d) in *.
    assert (set_active prim (mPlanes d1) = activate [prim] (mPlanes d1)) as Hone.
    { rewrite activate_cons. unfold activate. cbn. by rewrite list_fmap_id. }
    split_and!.
    + by rewrite Hp2, Hone, activate_app, Hp1.
    + intros q [Hq|Hq%list_elem_of_singleton]%elem_of_app.
      * split; [by apply Hin1|]. destruct (decide (q = prim)) as [->|Hne]; [by rewrite lookup_partial_alter_eq|].
        rewrite lookup_partial_alter_ne, Hom by done. apply Hdom in Hq as [o Ho]. rewrite Ho. by eapply Hall.
      * subst q. rewrite lookup_partial_alter_eq. split; [|done]. rewrite <- Hxid.
        rewrite <- (activate_ids (map_to_list (planeDrmBuffer b)).*1), <- Hp1. apply list_elem_of_fmap. by exists x.
    + intros q Hq. rewrite elem_of_app, list_elem_of_singleton, Hdom in Hq. assert (q <> prim) by (intros ->; apply Hq; by right).
      rewrite lookup_partial_alter_ne, Hom by done. destruct (planeDrmBuffer b !! q); [|done]. destruct Hq. left. by eexists.
    + intros hw q. rewrite Hap2. destruct (decide (q = prim)) as [->|Hne].
      * rewrite bool_decide_true by (rewrite elem_of_app, list_elem_of_singleton; tauto). by rewrite !lookup_partial_alter_eq.
      * rewrite !lookup_partial_alter_ne, Hap, Hom by done. destruct (planeDrmBuffer b !! q) as [o|] eqn:Eq.
        -- rewrite bool_decide_true; [done|]. rewrite elem_of_app, Hdom, Eq. left. by eexists.
        -- rewrite bool_decide_false; [done|]. rewrite elem_of_app, Hdom, Eq, list_elem_of_singleton. intros [[]|]; done.
  - injection H2 as <- <- <-. rewrite app_nil_r. split_and!.
    + done.
    + intros q Hq. split; [by apply Hin1|]. rewrite Hom. apply Hdom in Hq as [o Ho]. rewrite Ho. by eapply Hall.
    + intros q Hq. rewrite Hdom in Hq. rewrite Hom. destruct (planeDrmBuffer b !! q); [|done]. destruct Hq. by eexists.
    + intros hw q. rewrite Hap, Hom. destruct (planeDrmBuffer b !! q) as [o|] eqn:Eq.
      * rewrite bool_decide_true; [done|]. rewrite Hdom, Eq. by eexists.
      * rewrite bool_decide_false; [done|]. rewrite Hdom, Eq. by intros [].
Qed.

(** What the request of a frame does to the hardware, and how the display remembers it. *)
Lemma flush_display_effect answer b d e r d' : flush_display answer b bs d = Some (e, Some r, d') ->
  (forall hw q, apply_request r hw !! q =
     if bool_decide (q ∈ frame_ids b d) then frame bs b (getPrimaryPlaneId d) !! q
     else if existsb (fun p => (plane_id p =? q) && is_disabled p) (mPlanes d) then None else hw !! q) /\
  (forall q, q ∈ frame_ids b d -> q ∈ plane_id <$> mPlanes d /\ is_Some (frame bs b (getPrimaryPlaneId d) !! q)) /\
  (forall q, q ∉ frame_ids b d -> frame bs b (getPrimaryPlaneId d) !! q = None) /\
  ((e = NoError /\
    mPlanes d' = (fun p => if bool_decide (plane_id p ∈ frame_ids b d) then with_state p PLANE_STATE_DISABLED else turn_off (forget p)) <$> mPlanes d) \/
   (e = NoResources /\
    mPlanes d' = (fun p => if bool_decide (plane_id p ∈ frame_ids b d) then with_state p PLANE_STATE_ACTIVE else forget p) <$> mPlanes d)).
Proof.
  unfold flush_display. set (d0 := clearTempBuffer _ d).
  assert (mPlanes d0 = mPlanes d) as Hd0 by (unfold d0, clearTempBuffer; by destruct (_ <? _)).
  assert (getPrimaryPlaneId d0 = getPrimaryPlaneId d) as Hprim by (unfold getPrimaryPlaneId; by rewrite Hd0).
  assert (frame_ids b d0 = frame_ids b d) as Hids by (unfold frame_ids; by rewrite Hprim).
  destruct (flush_overlays _ _ _ _) as [[[ok r1] d1]|] eqn:H1; cbn; [|done]. destruct ok; cbn; [|done].
  destruct (match clientTargetDrmBuffer b with Some n => flushPrimary (getPrimaryPlaneId d1) r1 n bs d1 | None => Some (NoError, r1, d1) end)
    as [[[e2 r2] d2]|] eqn:H2; cbn; [|done]. destruct (is_ok e2) eqn:He; [|done].
  destruct (commit answer r2 d2) as [[[e3 r3] d3]|] eqn:H3; cbn; [|done]. intros [= -> -> ->].
  destruct (flush_frame_effect b d0 r1 d1 e2 r2 d2 H1 H2 He) as (Hp & Hin & Hout & Hap). rewrite Hprim, Hids, Hd0 in *.
  destruct (commit_effect _ _ _ _ _ _ H3) as [Hreq Hend]. rewrite Hp in *. split_and!; [|done|done|].
  - intros hw q. rewrite Hreq, disabled_activate, Hap. destruct (decide (q ∈ frame_ids b d)) as [Hq|Hq].
    + rewrite (bool_decide_true (q ∈ frame_ids b d)) by done. rewrite (bool_decide_false (q ∉ frame_ids b d)) by (by intros []).
      by rewrite andb_false_r.
    + rewrite (bool_decide_false (q ∈ frame_ids b d)) by done. rewrite (bool_decide_true (q ∉ frame_ids b d)) by done.
      by rewrite andb_true_r.
  - destruct Hend as [[-> ->]|[-> ->]]; [left|right]; (split; [done|]); unfold activate; rewrite <- list_fmap_compose;
      apply list_fmap_ext; intros i p _; cbn; by destruct (bool_decide _).
Qed.
End Frames.

(** *** Frame after frame *)

Lemma mapped_plane (f : DrmPlane -> DrmPlane) (planes : list DrmPlane) p' : p' ∈ f <$> planes -> exists p, p ∈ planes /\ p' = f p.
Proof. intros (p & -> & Hp)%list_elem_of_fmap. by exists p. Qed.

Lemma plane_of_id q (planes : list DrmPlane) : q ∈ plane_id <$> planes -> exists p, p ∈ planes /\ plane_id p = q.
Proof. intros (p & -> & Hp)%list_elem_of_fmap. by exists p. Qed.

Lemma existsb_disabled q planes : existsb (fun p => (plane_id p =? q) && is_disabled p) planes = true <->
  exists p, p ∈ planes /\ plane_id p = q /\ is_disabled p = true.
Proof.
  rewrite existsb_exists. split.
  - intros (p & Hp & [Hq%Z.eqb_eq Hd]%andb_true_iff). exists p. split; [by apply list_elem_of_In|done].
  - intros (p & Hp & <- & Hd). exists p. split; [by apply list_elem_of_In|]. by rewrite Z.eqb_refl.
Qed.

(** C20: if the display remembers which planes are on, a frame that the kernel takes leaves exactly the planes of the frame
    on, each with its frame buffer, and the display remembers them. *)
Theorem display_shows_frame bs answer b d r d' hw : (forall n x, bs !! n = Some x -> mDrmFramebuffer x <> 0) ->
  tracks hw (mPlanes d) -> flush_display answer b bs d = Some (NoError, Some r, d') ->
  apply_request r hw = frame bs b (getPrimaryPlaneId d) /\ tracks (apply_request r hw) (mPlanes d').
Proof.
  intros Hfb [Hids Hon Hidle Honly] H. destruct (flush_display_effect bs Hfb _ _ _ _ _ _ H) as (Hreq & Hin & Hout & [[_ Hp]|[? _]]); [|done].
  assert (apply_request r hw = frame bs b (getPrimaryPlaneId d)) as E.
  { apply map_eq. intros q. rewrite Hreq. destruct (decide (q ∈ frame_ids b d)) as [Hq|Hq]; [by rewrite bool_decide_true|].
    rewrite bool_decide_false, Hout by done. destruct (existsb _ _) eqn:Ex; [done|]. apply eq_None_not_Some. intros Hs.
    apply not_true_iff_false in Ex. apply Ex, existsb_disabled. destruct (plane_of_id _ _ (Honly q Hs)) as (p & Hp' & <-).
    exists p. split_and!; [done..|]. by apply Hon. }
  split; [done|]. rewrite E, Hp. split.
  - rewrite <- list_fmap_compose. erewrite list_fmap_ext; [exact Hids|]. intros i p _. cbn.
    destruct (bool_decide _); [done|]. unfold turn_off, forget. destruct (is_disabled p); cbn; [done|]. by destruct (mState p).
  - intros p' (p & Hpl & ->)%mapped_plane. destruct (decide (plane_id p ∈ frame_ids b d)) as [Hq|Hq].
    + rewrite bool_decide_true by done. cbn. split; [|done]. intros _. by apply Hin.
    + rewrite bool_decide_false by done. specialize (Hidle p Hpl). unfold turn_off, forget, is_disabled.
      destruct (mState p) eqn:Es; [|done|]; cbn; rewrite ?Es; cbn; rewrite ?Es, Hout by done; by split; [|intros []].
  - intros p' (p & Hpl & ->)%mapped_plane. destruct (bool_decide _); [done|]. specialize (Hidle p Hpl).
    unfold turn_off, forget, is_disabled. destruct (mState p) eqn:Es; cbn; rewrite ?Es; cbn; rewrite ?Es; done.
  - intros q Hq. destruct (decide (q ∈ frame_ids b d)) as [Hqi|Hqi]; [|by rewrite Hout in Hq; [destruct Hq|]].
    destruct (Hin q Hqi) as [(p & Hpl & <-)%plane_of_id _]. apply list_elem_of_fmap. eexists. split; [|by apply list_elem_of_fmap_2].
    destruct (bool_decide _); [done|]. unfold turn_off, forget. destruct (is_disabled p); cbn; [done|]. by destruct (mState p).
Qed.

(** C39: a plane of the last frame is forgotten by a commit that fails: the kernel has not turned it off, and no later
    request will. *)
Theorem failed_commit_leaves_plane bs a1 a2 b1 b2 d r1 d1 e2 r2 d2 p hw :
  (forall n x, bs !! n = Some x -> mDrmFramebuffer x <> 0) -> NoDup (plane_id <$> mPlanes d) -> p ∈ mPlanes d ->
  is_disabled p = true -> (plane_id p ∉ frame_ids b1 d) -> (plane_id p ∉ frame_ids b2 d) ->
  flush_display a1 b1 bs d = Some (NoResources, Some r1, d1) -> flush_display a2 b2 bs d1 = Some (e2, Some r2, d2) ->
  apply_request r2 hw !! plane_id p = hw !! plane_id p.
Proof.
  intros Hfb Hnd Hp Hdis Hn1 Hn2 H1 H2. destruct (flush_display_effect bs Hfb _ _ _ _ _ _ H1) as (_ & _ & _ & [[? _]|[_ Hp1]]); [done|].
  assert (getPrimaryPlaneId d1 = getPrimaryPlaneId d) as Hprim.
  { eapply primary_map; [exact Hp1|]. intros x. cbn. case_match; [done|]. unfold forget. by destruct (is_disabled x). }
  destruct (flush_display_effect bs Hfb _ _ _ _ _ _ H2) as (Hreq & _).
  assert (frame_ids b2 d1 = frame_ids b2 d) as Hids by (unfold frame_ids; by rewrite Hprim).
  rewrite Hreq, Hids, bool_decide_false by done. destruct (existsb _ _) eqn:Ex; [|done]. exfalso.
  apply existsb_disabled in Ex as (p' & Hp' & Hid & Hd'). rewrite Hp1 in Hp'. apply mapped_plane in Hp' as (p0 & Hp0 & ->).
  assert (plane_id p0 = plane_id p) as Hid0.
  { rewrite <- Hid. destruct (bool_decide _); [done|]. unfold forget. by destruct (is_disabled p0). }
  assert (p0 = p) as ->.
  { apply list_elem_of_lookup in Hp0 as [i Hi], Hp as [j Hj]. assert (i = j) as ->; [|congruence].
    eapply NoDup_lookup; [exact Hnd| |]; rewrite list_lookup_fmap; [by rewrite Hi|by rewrite Hj; cbn; rewrite Hid0]. }
  rewrite bool_decide_false in Hd' by done. unfold forget in Hd'. rewrite Hdis in Hd'. done.
Qed.

(** ** A display that works *)

Definition config_ok (c : HalDisplayConfig) : Prop :=
  0 < hc_width c < 2 ^ 14 /\ 0 < hc_height c < 2 ^ 14 /\ 0 < refreshRateHz c /\ 0 <= modeWidth c < 2 ^ 14 /\ 0 <= modeHeight c < 2 ^ 14.

(** A display with an active configuration; an overlay among its planes can be at the top. *)
Record display_ok (d : DrmDisplay) : Prop := {
  ok_ids : NoDup (plane_id <$> mPlanes d);
  ok_plane : forall p, p ∈ mPlanes d -> 0 < plane_id p < 2 ^ 32 - 1;
  ok_overlay : (1 < length (mPlanes d))%nat -> exists p, p ∈ mPlanes d /\ isOverlay p = true;
  ok_zpos : forall p, p ∈ mPlanes d -> isOverlay p = true -> isValid (plane_zpos p) = true /\ 0 <= pr_value (plane_zpos p);
  ok_active : 0 <= mActiveConfigId d < 2 ^ 31;
  ok_entry : mConfigs d !! mActiveConfigId d = Some (mActiveConfig d);
  ok_config : config_ok (mActiveConfig d);
  ok_max : 0 <= mOverlayMaxZpos d < 2 ^ 31 - 1;
  ok_pool : NoDup (mPlaneIdPool d)
}.

(** *** Defined frames *)

Lemma scaled_to_defined x m w : w <> 0 -> is_Some (scaled_to x m w).
Proof. unfold scaled_to. intros Hw. destruct (Z.eqb_spec w 0); [done|by eexists]. Qed.

Lemma extent_defined r : sane_rect r -> is_Some (extent (r_right r) (r_left r)) /\ is_Some (extent (r_bottom r) (r_top r)).
Proof. unfold sane_rect, extent, checked_s. intros ?. rewrite !decide_True by lia. split; by eexists. Qed.

Lemma active_entry_ok d : display_ok d -> active_entry d = Some (mActiveConfig d).
Proof. intros [_ _ _ _ Ha He _ _ _]. unfold active_entry. by rewrite wrap_u_id by (unfold in_u; lia). Qed.

Ltac defined := match goal with |- is_Some (?m ≫= _) =>
  let H := fresh in assert (is_Some m) as [? H]; [|rewrite H; cbn [mbind option_bind]; clear H] end.

(** A display of which only the states of the planes, the pool and the buffers have changed. *)
Lemma display_ok_planes d f temp z : display_ok d -> (forall p, plane_id (f p) = plane_id p /\ mType (f p) = mType p /\ plane_zpos (f p) = plane_zpos p) ->
  0 <= z < 2 ^ 31 - 1 -> display_ok (with_planes d (f <$> mPlanes d) temp z).
Proof.
  intros [H1 H2 H3 H4 H5 H6 H7 H8 H9] Hf Hz. split; cbn [with_planes mPlanes mActiveConfigId mActiveConfig mConfigs mOverlayMaxZpos mPlaneIdPool]; try done.
  - rewrite <- list_fmap_compose. erewrite list_fmap_ext; [exact H1|]. intros i p _. apply Hf.
  - intros p' (p & Hp & ->)%mapped_plane. destruct (Hf p) as [-> _]. by apply H2.
  - rewrite length_fmap. intros (p & Hp & Ho)%H3. exists (f p). split; [by apply list_elem_of_fmap_2|].
    unfold isOverlay. by destruct (Hf p) as (_ & -> & _).
  - intros p' (p & Hp & ->)%mapped_plane. unfold isOverlay. destruct (Hf p) as (_ & -> & ->). by apply H4.
Qed.

Lemma set_active_shape i p : let p' := if plane_id p =? i then with_state p PLANE_STATE_ACTIVE else p in
  plane_id p' = plane_id p /\ mType p' = mType p /\ plane_zpos p' = plane_zpos p.
Proof. cbn. by destruct (_ =? _). Qed.

Lemma flushOverlay_defined p r n x bs d : display_ok d -> bs !! n = Some x -> sane_rect (db_frame x) -> sane_rect (db_crop x) ->
  mZpos x < 2 ^ 31 - 1 -> exists e r' d', flushOverlay p r (Some n) bs d = Some (e, r', d') /\ display_ok d'.
Proof.
  intros Hd Hx Hf Hc Hz. unfold flushOverlay. destruct (find_plane p (mPlanes d)) as [q|]; [|by eexists _, _, _].
  pose proof (ok_config d Hd) as (? & ? & _). destruct (extent_defined _ Hf) as [[w Hw] [h Hh]], (extent_defined _ Hc) as [[ws Hws] [hs Hhs]].
  rewrite active_entry_ok by done. cbn [mbind option_bind]. rewrite Hx. cbn [mbind option_bind]. rewrite Hw, Hh, Hws, Hhs.
  repeat match goal with |- context [scaled_to ?a ?b ?c] =>
    let H := fresh in destruct (scaled_to_defined a b c) as [? H]; [lia|rewrite H; cbn [mbind option_bind]; clear H] end.
  eexists _, _, _. split; [done|]. apply display_ok_planes; [done|intros; apply set_active_shape|].
  pose proof (ok_max d Hd). destruct (Z.ltb_spec (mOverlayMaxZpos d) (mZpos x)); lia.
Qed.

Lemma flushPrimary_defined p r n x bs d : display_ok d -> bs !! n = Some x -> sane_rect (db_frame x) -> sane_rect (db_crop x) ->
  exists e r' d', flushPrimary p r n bs d = Some (e, r', d') /\ display_ok d'.
Proof.
  intros Hd Hx Hf Hc. unfold flushPrimary. destruct (find_plane p (mPlanes d)) as [q|]; [|by eexists _, _, _].
  pose proof (ok_config d Hd) as (? & ? & _). destruct (extent_defined _ Hf) as [[w Hw] [h Hh]], (extent_defined _ Hc) as [[ws Hws] [hs Hhs]].
  rewrite active_entry_ok by done. cbn [mbind option_bind]. rewrite Hx. cbn [mbind option_bind]. rewrite Hw, Hh, Hws, Hhs.
  repeat match goal with |- context [scaled_to ?a ?b ?c] =>
    let H := fresh in destruct (scaled_to_defined a b c) as [? H]; [lia|rewrite H; cbn [mbind option_bind]; clear H] end.
  destruct (if mUiScaleType d =? UI_SCALE_SOFTWARE then (0, 0, modeWidth (mActiveConfig d), modeHeight (mActiveConfig d)) else _) as [[[sx sy] sw] sh].
  destruct (if mUiScaleType d =? UI_SCALE_SOFTWARE then (0, 0, modeWidth (mActiveConfig d), modeHeight (mActiveConfig d)) else _) as [[[dx dy] dw] dh].
  pose proof (ok_max d Hd). assert (checked_s 32 (mOverlayMaxZpos d + 1) = Some (mOverlayMaxZpos d + 1)) as ->.
  { unfold checked_s. by rewrite decide_True by lia. }
  cbn [mbind option_bind]. destruct (zpos_setting q 0); cbn [mbind option_bind]; eexists _, _, _; (split; [done|]);
    (apply display_ok_planes; [done|intros; apply set_active_shape|done]).
Qed.

Definition shape_kept (f : DrmPlane -> DrmPlane) : Prop :=
  forall p, plane_id (f p) = plane_id p /\ mType (f p) = mType p /\ plane_zpos (f p) = plane_zpos p.

Lemma forget_shape : shape_kept forget.
Proof. intros p. unfold forget. by destruct (is_disabled p). Qed.

Lemma turn_off_shape : shape_kept turn_off.
Proof. intros p. unfold turn_off. by destruct (mState p). Qed.

Lemma flush_overlays_defined bs l : forall r d, display_ok d ->
  (forall p o, (p, o) ∈ l -> exists n x, o = Some n /\ bs !! n = Some x /\ sane_rect (db_frame x) /\ sane_rect (db_crop x) /\ mZpos x < 2 ^ 31 - 1) ->
  exists ok r' d', flush_overlays l r bs d = Some (ok, r', d') /\ display_ok d'.
Proof.
  induction l as [|[p o] l IH]; intros r d Hd Hl; cbn [flush_overlays]; [by eexists _, _, _|].
  destruct (Hl p o) as (n & x & -> & Hx & Hf & Hc & Hz); [by left|].
  destruct (flushOverlay_defined p r n x bs d Hd Hx Hf Hc Hz) as (e & r' & d' & -> & Hd'). cbn. destruct (is_ok e); [|by eexists _, _, _].
  apply IH; [done|]. intros p' o' Hp. apply (Hl p'). by right.
Qed.

Lemma commit_defined answer r d : display_ok d -> exists e r' d', commit answer r d = Some (e, r', d') /\ display_ok d'.
Proof.
  intros Hd. unfold commit. destruct (disable_planes (mPlanes d)) as [planes off] eqn:Ed.
  destruct (disable_planes_effect _ _ _ Ed) as [-> _]. pose proof (ok_active d Hd) as [? _]. pose proof (ok_config d Hd) as (_ & _ & ? & _).
  assert (exists s, modeset_settings d = Some s) as [s Hs].
  { unfold modeset_settings. destruct (Z.leb_spec 0 (mActiveConfigId d)); [|lia]. cbn. by eexists. }
  match goal with |- context [@mbind option _ _ _ _ ?m] => destruct m as [r2|] eqn:E2 end; cbn [mbind option_bind].
  2:{ destruct (mModeSet d); [|done]. by rewrite Hs in E2. }
  destruct (Z.eqb_spec (refreshRateHz (mActiveConfig d)) 0); [lia|].
  assert (display_ok (with_planes d (forget <$> mPlanes d) (mTempBuffers d) (mOverlayMaxZpos d))) as H1
    by (apply display_ok_planes; [done|apply forget_shape|by apply Hd]).
  destruct (_ =? 0); eexists _, _, _; (split; [done|]); [|done].
  assert (display_ok (with_planes d ((fun p => turn_off (forget p)) <$> mPlanes d) (mTempBuffers d) 0)) as [? ? ? ? ? ? ? ? ?].
  { apply display_ok_planes; [done| |lia]. intros p. destruct (turn_off_shape (forget p)) as (-> & -> & ->). apply forget_shape. }
  rewrite <- list_fmap_compose. by split.
Qed.

Lemma flush_display_defined answer b bs d : display_ok d -> flushable bs b ->
  exists e r d', flush_display answer b bs d = Some (e, r, d') /\ display_ok d'.
Proof.
  intros Hd [Ht Hp]. unfold flush_display. set (d0 := clearTempBuffer _ d).
  assert (display_ok d0) as Hd0.
  { unfold d0, clearTempBuffer. destruct (_ <? _); [|done]. rewrite <- (list_fmap_id (mPlanes d)).
    apply (display_ok_planes d id); [done|done|by apply Hd]. }
  destruct (flush_overlays_defined bs (map_to_list (planeDrmBuffer b)) None d0 Hd0) as (ok & r & d1 & -> & Hd1).
  { intros p o Ho. apply elem_of_map_to_list in Ho. by apply (Hp p). }
  cbn. destruct ok; cbn; [|by eexists _, _, _].
  assert (exists e r' d2, match clientTargetDrmBuffer b with Some n => flushPrimary (getPrimaryPlaneId d1) r n bs d1 | None => Some (NoError, r, d1) end
    = Some (e, r', d2) /\ display_ok d2) as (e & r' & d2 & -> & Hd2).
  { destruct (clientTargetDrmBuffer b) as [n|]; [|by eexists _, _, _]. destruct (Ht n eq_refl) as (x & Hx & Hf & Hc).
    by apply (flushPrimary_defined _ _ n x). }
  cbn. destruct (is_ok e); [|by eexists _, _, _].
  destruct (commit_defined answer r' d2 Hd2) as (e' & r2 & d3 & -> & Hd3). cbn. by eexists _, _, _.
Qed.

(** *** The planes of a validation *)

Lemma erase_first_spec f l : match erase_first f l with
  | (Some x, r) => f x = true /\ exists l1 l2, l = l1 ++ x :: l2 /\ r = l1 ++ l2
  | (None, r) => r = l /\ Forall (fun x => f x = false) l
  end.
Proof.
  induction l as [|x l IH]; [done|]. cbn. destruct (f x) eqn:Hx; [split; [done|]; by exists [], l|].
  destruct (erase_first f l) as [[y|] r].
  - destruct IH as (Hy & l1 & l2 & -> & ->). split; [done|]. by exists (x :: l1), l2.
  - destruct IH as [-> H]. split; [done|by constructor].
Qed.

Lemma overlay_pool_spec planes : forall m top pool top', overlay_pool planes m top = (pool, top') ->
  pool = plane_id <$> filter (fun p => isOverlay p = true) planes /\ (top' = top \/ top' ∈ pool) /\
  (forall p, p ∈ planes -> isOverlay p = true -> isValid (plane_zpos p) = true -> m <= pr_value (plane_zpos p) -> top' ∈ pool).
Proof.
  induction planes as [|p planes IH]; intros m top pool top' E; cbn in E.
  { injection E as <- <-. split_and!; [done|by left|]. by intros p ?%elem_of_nil. }
  rewrite filter_cons. destruct (isOverlay p) eqn:Ho.
  - rewrite decide_True, fmap_cons by done. destruct (isValid (plane_zpos p) && (m <=? pr_value (plane_zpos p))) eqn:Ez.
    + destruct (overlay_pool planes _ _) as [pool' top0] eqn:E0. injection E as <- <-. destruct (IH _ _ _ _ E0) as (-> & Ht & _).
      split_and!; [done| |]; [right|intros _ _ _ _ _]; (destruct Ht as [->|Ht]; [by left|by right]).
    + destruct (overlay_pool planes _ _) as [pool' top0] eqn:E0. injection E as <- <-. destruct (IH _ _ _ _ E0) as (-> & Ht & Hp).
      split_and!; [done|destruct Ht as [->|Ht]; [by left|right; by right]|]. intros q [->|Hq]%elem_of_cons Hqo Hv Hm.
      * rewrite Hv in Ez. destruct (Z.leb_spec m (pr_value (plane_zpos p))); [done|lia].
      * right. by eapply Hp.
  - rewrite decide_False by (by intros ?; congruence). destruct (IH _ _ _ _ E) as (-> & Ht & Hp). split_and!; [done|done|].
    intros q [->|Hq]%elem_of_cons Hqo Hv Hm; [congruence|by eapply Hp].
Qed.

Lemma overlay_ids_NoDup planes : NoDup (plane_id <$> planes) -> NoDup (plane_id <$> filter (fun p => isOverlay p = true) planes).
Proof. intros H. eapply sublist_NoDup; [exact H|apply fmap_sublist, sublist_filter]. Qed.

(** ** The ids of the configurations *)

Definition consecutive (m : HalConfig) (start n : Z) : Prop := forall i, is_Some (m !! i) <-> start <= i < start + n.

Lemma consecutive_size (m : gmap Z HalDisplayConfig) start n : 0 <= n -> consecutive m start n -> Z.of_nat (size m) = n.
Proof.
  intros Hn Hm. rewrite <- (size_dom (D := gset Z) m).
  assert (dom m = list_to_set (seqZ start n) :> gset Z) as Hdom.
  { apply set_eq. intros i. rewrite elem_of_dom, elem_of_list_to_set, elem_of_seqZ. apply Hm. }
  rewrite Hdom, size_list_to_set by apply NoDup_seqZ. rewrite length_seqZ. lia.
Qed.

Lemma build_configs_ids c modes : forall id configs configs' start, consecutive configs start (id - start) -> 0 <= start <= id ->
  id + Z.of_nat (length modes) < 2 ^ 32 -> build_configs c modes id configs = Some configs' ->
  exists n, consecutive configs' start n /\ id - start <= n <= id - start + Z.of_nat (length modes) /\ (modes <> [] -> 0 < n).
Proof.
  induction modes as [|m modes IH]; intros id configs configs' start Hc Hs Hlen H; cbn [build_configs] in H.
  { injection H as <-. exists (id - start). cbn. split_and!; [done|lia|lia|done]. }
  destruct (mode_config c m) as [config|]; cbn [mbind option_bind] in H; [|done]. cbn [length] in Hlen.
  destruct (existsb _ _) eqn:Ex.
  - destruct (IH id configs configs' start Hc Hs ltac:(lia) H) as (n & Hn & Hb & _). exists n. split_and!; [done|lia|cbn [length]; lia|].
    intros _. apply existsb_exists in Ex as ([i x] & Hi & _). apply list_elem_of_In, elem_of_map_to_list in Hi.
    assert (start <= i < start + (id - start)) by (apply Hc; by eexists). lia.
  - rewrite wrap_u_id in H by (unfold in_u; lia).
    destruct (IH (id + 1) (<[id := config]> configs) configs' start) as (n & Hn & Hb & _); [|lia|lia|done|].
    + intros i. rewrite lookup_insert_is_Some', (Hc i). lia.
    + exists n. cbn [length]. split_and!; [done|lia|lia|]. intros _. lia.
Qed.

Lemma best_mode_bound w h v p start configs n : forall i index delta r, best_mode w h v p start configs n i index delta = Some r ->
  0 <= i -> 0 <= index < i + Z.of_nat n -> 0 <= r < i + Z.of_nat n.
Proof.
  induction n as [|n IH]; intros i index delta r H Hi Hx; cbn [best_mode] in H; [injection H as <-; lia|].
  destruct (p && _); [injection H as <-; lia|]. rewrite Nat2Z.inj_succ in *.
  repeat match type of H with context [abs_diff ?a ?b] => destruct (abs_diff a b); cbn [mbind option_bind] in H; [|done]
    | context [checked_s ?a ?b] => destruct (checked_s a b); cbn [mbind option_bind] in H; [|done] end.
  repeat match type of H with context [if ?b then _ else _] => destruct b
    | context [abs_diff ?a ?b] => destruct (abs_diff a b); cbn [mbind option_bind] in H; [|done] end;
  apply IH in H; lia.
Qed.

Lemma id_max_bound configs i x : configs !! i = Some x -> i <= id_max configs.
Proof.
  intros Hi. apply elem_of_map_to_list in Hi. unfold id_max. induction (map_to_list configs) as [|e l IH]; [by apply elem_of_nil in Hi|].
  apply elem_of_cons in Hi as [<-|Hi]; cbn; [lia|]. specialize (IH Hi). lia.
Qed.

(** The configurations of a display with a valid active one: all have its refresh rate. *)
Record configs_valid (d : DrmDisplay) : Prop := {
  cv_entry : mConfigs d !! mActiveConfigId d = Some (mActiveConfig d);
  cv_rate : forall i c, mConfigs d !! i = Some c -> refreshRateHz c = refreshRateHz (mActiveConfig d) /\ mStartConfigId d <= i
}.

Lemma updateActiveConfig_valid mode gui d d' n : consecutive (mConfigs d) (mStartConfigId d) n -> 0 < n ->
  0 <= mStartConfigId d -> updateActiveConfig mode gui (mConfigs d) d = Some d' ->
  configs_valid d' /\ mStartConfigId d' = mStartConfigId d /\ mStartConfigId d <= mActiveConfigId d'.
Proof.
  intros Hc Hn Hs. unfold updateActiveConfig. destruct (parseDisplayMode mode) as [[[[w h] v] p]|]; cbn [mbind option_bind]; [|done].
  destruct (best_mode _ _ _ _ _ _ _ _ _ _) as [index|] eqn:Eb; cbn [mbind option_bind]; [|done].
  apply best_mode_bound in Eb; [|done|rewrite (consecutive_size _ _ n) by (done || lia); lia].
  rewrite (consecutive_size _ _ n) in Eb by (done || lia). set (active := mStartConfigId d + index).
  assert (is_Some (mConfigs d !! active)) as [a Ha] by (apply Hc; unfold active; lia). rewrite Ha. cbn [default from_option id].
  set (configs := filter _ _).
  assert (forall i c, configs !! i = Some c -> refreshRateHz c = refreshRateHz a /\ mStartConfigId d <= i) as Hrate.
  { intros i c [Hi Hr]%map_lookup_filter_Some. split; [done|]. assert (is_Some (mConfigs d !! i)) as Hsome by by eexists. apply Hc in Hsome. lia. }
  assert (configs !! active = Some a) as Hactive by by apply map_lookup_filter_Some.
  destruct (customizeGUIResolution _ _ _ _) as [[[custom [width height]] ui]|]; cbn [mbind option_bind]; [|done].
  destruct custom; intros [= <-]; cbn.
  - pose proof (id_max_bound configs active a Hactive). rewrite lookup_insert_eq. cbn. split_and!; [|done|unfold active in *; lia]. split; cbn.
    + by rewrite lookup_insert_eq.
    + intros i c [[<- <-]|[_ Hi]]%lookup_insert_Some; [cbn; split; [done|unfold active in *; lia]|by apply Hrate].
  - rewrite Hactive. cbn. split_and!; [|done|unfold active; lia]. split; cbn; [done|exact Hrate].
Qed.

(** When a display is plugged in, the configurations of its modes get ids that none of the old configurations has, the
    active one is one of them, and all have its refresh rate. *)
Lemma update_configs_fresh mode gui d d' : 0 <= mStartConfigId d -> (forall i, is_Some (mConfigs d !! i) -> 0 <= i) ->
  mModes (mConnector d) <> [] -> mStartConfigId d + id_max (mConfigs d) + 1 + Z.of_nat (length (mModes (mConnector d))) < 2 ^ 31 ->
  updateDisplayConfigs mode gui d = Some d' ->
  configs_valid d' /\ forall i j, is_Some (mConfigs d !! i) -> is_Some (mConfigs d' !! j) -> i < j.
Proof.
  intros Hs Hpos Hm Hlen. unfold updateDisplayConfigs, buildConfigs. set (start := mStartConfigId d + _ + 1).
  destruct (mModes (mConnector d)) as [|m modes] eqn:Em; [done|].
  destruct (build_configs _ _ _ _) as [configs|] eqn:Eb; cbn [mbind option_bind]; [|done]. intros H.
  assert (0 <= id_max (mConfigs d)) as Hmax by (unfold id_max; induction (map_to_list (mConfigs d)) as [|e l IH]; cbn; lia).
  apply (build_configs_ids _ _ start ∅ configs start) in Eb as (n & Hc & Hb & Hn); [|intros i; rewrite lookup_empty; split; [by intros []|lia]|lia|unfold start; lia].
  apply updateActiveConfig_valid with (n := n) in H as (Hv & Hst & _); [|done|by apply Hn|cbn; lia].
  split; [done|]. intros i j [x Hi] [y Hj]. apply id_max_bound in Hi. destruct (cv_rate _ Hv j y Hj) as [_ Hj']. rewrite Hst in Hj'. cbn in Hj'. lia.
Qed.

(** The id of a placeholder counts the configurations that are left, and can be an id that a configuration had. *)
Definition two_modes : DrmConnector :=
  mkConnector 1 false false DRM_MODE_CONNECTED false 0 0
    [mkMode 1920 1080 2200 1125 148500 0 50; mkMode 1280 720 1650 750 37125 0 51; mkMode 1280 720 1650 750 74250 0 52] None.

Lemma placeholder_reuses_id :
  let d := display_new 0 0 two_modes 5 false [] 1 in
  exists d1 d2, updateDisplayConfigs "p" "p" d = Some d1 /\ placeholderDisplayConfigs "p" 1920 1080 (setActiveConfigId 1 d1).2 = Some d2 /\
    mActiveConfigId d2 = 3 /\ (hc_width <$> mConfigs d1 !! 3) = Some 1280 /\ (hc_width <$> mConfigs d2 !! 3) = Some 1920.
Proof. eexists _, _. vm_compute. done. Qed.

(** ** An example: a primary and two overlay planes *)

Section Demo.
Definition demo_config : HalDisplayConfig := mkHal 1920 1080 160 160 60 50 0 1920 1080.
Definition demo_plane (id type : Z) (s : PlaneState) : DrmPlane := mkPlane id type 1 [1] [(1, [0])] (mkProperty 9 1 0) s.
Definition demo_display (s : PlaneState) : DrmDisplay :=
  with_configs (display_new 0 0 two_modes 5 false [demo_plane 30 1 PLANE_STATE_NONE; demo_plane 31 0 s; demo_plane 32 0 PLANE_STATE_NONE] 1)
    1 1 1 demo_config {[1 := demo_config]} UI_SCALE_NONE true.
Definition demo_buffers : list DrmBuffer :=
  [mkDrmBuffer 7 500 (mkRect 0 0 1920 1080) (mkRect 0 0 1920 1080) 0; mkDrmBuffer 8 501 (mkRect 100 100 164 164) (mkRect 0 0 64 64) 2].
Definition demo_frame : DisplayBuffer := mkDisplayBuffer (Some 0%nat) {[31 := Some 1%nat]} None.
Definition demo_plain : DisplayBuffer := mkDisplayBuffer (Some 0%nat) ∅ None.

Lemma demo_fb n x : demo_buffers !! n = Some x -> mDrmFramebuffer x <> 0.
Proof. destruct n as [|[|n]]; cbn; by intros [= <-]. Qed.

Lemma demo_ids s : NoDup (plane_id <$> mPlanes (demo_display s)).
Proof. apply (bool_decide_unpack _). vm_compute. exact I. Qed.

Lemma display_shows_frame_witness :
  exists r d', flush_display (fun _ => 0) demo_frame demo_buffers (demo_display PLANE_STATE_NONE) = Some (NoError, Some r, d') /\
    apply_request r ∅ = frame demo_buffers demo_frame 30 /\ tracks (apply_request r ∅) (mPlanes d').
Proof.
  eexists _, _. split; [vm_compute; reflexivity|].
  apply (display_shows_frame demo_buffers (fun _ => 0) demo_frame (demo_display PLANE_STATE_NONE)).
  - exact demo_fb.
  - split; [apply demo_ids| | |].
    + intros p Hp. rewrite lookup_empty. cbn in Hp. rewrite !elem_of_cons, elem_of_nil in Hp.
      destruct Hp as [->|[->|[->|[]]]]; split; [done|by intros []|done|by intros []|done|by intros []].
    + intros p Hp. cbn in Hp. rewrite !elem_of_cons, elem_of_nil in Hp. by destruct Hp as [->|[->|[->|[]]]].
    + intros q. rewrite lookup_empty. by intros [].
  - vm_compute. reflexivity.
Defined.

(** The overlay 31 is on; two frames without it follow, the first fails. *)
Lemma failed_commit_leaves_plane_witness :
  exists r1 d1 r2 d2, flush_display (fun _ => -22) demo_plain demo_buffers (demo_display PLANE_STATE_DISABLED) = Some (NoResources, Some r1, d1) /\
    flush_display (fun _ => 0) demo_plain demo_buffers d1 = Some (NoError, Some r2, d2) /\
    apply_request r2 {[31 := 501]} !! 31 = ({[31 := 501]} : gmap Z Z) !! 31.
Proof.
  eexists _, _, _, _. split; [vm_compute; reflexivity|]. split; [vm_compute; reflexivity|].
  eapply (failed_commit_leaves_plane demo_buffers (fun _ => -22) (fun _ => 0) demo_plain demo_plain (demo_display PLANE_STATE_DISABLED) _ _ NoError _ _
    (demo_plane 31 0 PLANE_STATE_DISABLED) {[31 := 501]}).
  - exact demo_fb.
  - apply demo_ids.
  - right. left.
  - done.
  - apply (bool_decide_unpack _). vm_compute. exact I.
  - apply (bool_decide_unpack _). vm_compute. exact I.
  - vm_compute. reflexivity.
  - vm_compute. reflexivity.
Defined.
End Demo.
