(* ===== verification/DrmClient.v ===== *)
(** * display/hwcomposer3/DrmClient.cpp: the client of a DRM device

    The displays of one device, the caches of DRM buffers, the targets of the 2D engine,
    HDR metadata, HDCP and the backlight.  [DrmClient] is an instance of the interface
    [DeviceClient] and keeps its laws, so the theorems of [FrameComposer] are theorems
    about a composer on such a device.

    The kernel and the clock are the class [DrmKernel]; requests to the kernel are
    numbered by [c_calls].  A cache is the [LruCache], its values addresses of buffers.
    Reading the device at the start ([init], [loadDrmDisplays]) is not modelled. *)

From S2P Require Import Prelude LruCache HwcLayer FrameComposer HwcProperties DrmDisplay.

(** The build options, the properties, and what the kernel answers to the request of a number. *)
Class DrmKernel := {
  IsOverlayUserDisabled : bool;
  OVERLAY_LIMITATION_DCSS : bool;
  OVERLAY_LIMITATION_DPU : bool;
  mMaxComposerTargetsPerDisplay : nat;
  (** The handle of the memory behind a file descriptor. *)
  drmPrimeFDToHandle : Z -> option Z;
  (** [drmModeAddFB2]: the id of a frame buffer. *)
  drmModeAddFB2 : nat -> HandleInfo -> option Z;
  (** [drmModeCreatePropertyBlob]. *)
  drmModeCreatePropertyBlob : nat -> Z -> option Z;
  (** [drmModeAtomicCommit]: the answer to each attempt. *)
  drmModeAtomicCommit : nat -> nat -> Z
}.

Abbreviation DrmBufferCache := (LruCache.LruCache (K := Z) (V := nat)).

Record G2dComposerTargets := mkTargets { tg_handles : list Z; tg_index : Z; tg_security : bool; tg_valid : bool }.

Record DrmClient := mkClient {
  mDisplays : gmap Z DrmDisplay; mFramebufferCache : DrmBufferCache;
  mPlaneBufferCache : option DrmBufferCache (* there is one if its size is positive *);
  mLastPlaneBufferPresentTime : Z; mComposerTargets : gmap Z G2dComposerTargets; mExpiredTargets : gmap Z (list Z);
  mHdrMetadatas : gmap Z (Z * Z) (* the last metadata and its blob *); mSecureMode : gmap Z Z;
  mLastOverlayCount : Z; mCheckOverlayTime : Z; c_now : Z (* the clock *); c_calls : nat
}.

Definition with_displays (c : DrmClient) (m : gmap Z DrmDisplay) : DrmClient :=
  mkClient m (mFramebufferCache c) (mPlaneBufferCache c) (mLastPlaneBufferPresentTime c) (mComposerTargets c) (mExpiredTargets c)
    (mHdrMetadatas c) (mSecureMode c) (mLastOverlayCount c) (mCheckOverlayTime c) (c_now c) (c_calls c).
Definition with_caches (c : DrmClient) (fb : DrmBufferCache) (planes : option DrmBufferCache) : DrmClient :=
  mkClient (mDisplays c) fb planes (mLastPlaneBufferPresentTime c) (mComposerTargets c) (mExpiredTargets c) (mHdrMetadatas c)
    (mSecureMode c) (mLastOverlayCount c) (mCheckOverlayTime c) (c_now c) (c_calls c).
Definition with_targets (c : DrmClient) (targets : gmap Z G2dComposerTargets) (expired : gmap Z (list Z)) : DrmClient :=
  mkClient (mDisplays c) (mFramebufferCache c) (mPlaneBufferCache c) (mLastPlaneBufferPresentTime c) targets expired
    (mHdrMetadatas c) (mSecureMode c) (mLastOverlayCount c) (mCheckOverlayTime c) (c_now c) (c_calls c).
Definition with_metadata (c : DrmClient) (m : gmap Z (Z * Z)) : DrmClient :=
  mkClient (mDisplays c) (mFramebufferCache c) (mPlaneBufferCache c) (mLastPlaneBufferPresentTime c) (mComposerTargets c)
    (mExpiredTargets c) m (mSecureMode c) (mLastOverlayCount c) (mCheckOverlayTime c) (c_now c) (c_calls c).
Definition with_secure (c : DrmClient) (m : gmap Z Z) : DrmClient :=
  mkClient (mDisplays c) (mFramebufferCache c) (mPlaneBufferCache c) (mLastPlaneBufferPresentTime c) (mComposerTargets c)
    (mExpiredTargets c) (mHdrMetadatas c) m (mLastOverlayCount c) (mCheckOverlayTime c) (c_now c) (c_calls c).
Definition with_times (c : DrmClient) (present count check : Z) : DrmClient :=
  mkClient (mDisplays c) (mFramebufferCache c) (mPlaneBufferCache c) present (mComposerTargets c) (mExpiredTargets c)
    (mHdrMetadatas c) (mSecureMode c) count check (c_now c) (c_calls c).
(** One more request to the kernel. *)
Definition called (c : DrmClient) : DrmClient :=
  mkClient (mDisplays c) (mFramebufferCache c) (mPlaneBufferCache c) (mLastPlaneBufferPresentTime c) (mComposerTargets c)
    (mExpiredTargets c) (mHdrMetadatas c) (mSecureMode c) (mLastOverlayCount c) (mCheckOverlayTime c) (c_now c) (S (c_calls c)).

Section Client.
Context `{!HwcAbi, !DeviceComposerOps, !DrmKernel}.

(** ** Buffers *)

Definition getInfo (handle : option Z) : option HandleInfo := h ← handle; getInfoFromHandle h.

(** The cache of a type of buffers, and the client with another one. *)
Definition cache_of (type : BufferType) (c : DrmClient) : option DrmBufferCache :=
  match type with
  | DRM_BUFFER_FB => Some (mFramebufferCache c)
  | DRM_BUFFER_PLANE => mPlaneBufferCache c
  | DRM_BUFFER_NONE => None
  end.

Definition with_cache (type : BufferType) (c : DrmClient) (cache : DrmBufferCache) : DrmClient :=
  match type with
  | DRM_BUFFER_FB => with_caches c cache (mPlaneBufferCache c)
  | DRM_BUFFER_PLANE => with_caches c (mFramebufferCache c) (Some cache)
  | DRM_BUFFER_NONE => c
  end.

Definition drm_create (handle : option Z) (frame crop : Rect) (type : BufferType) (s : DrmClient * list DrmBuffer) :
    option (option nat * (DrmClient * list DrmBuffer)) :=
  let '(c, bs) := s in
  match getInfo handle with
  | None => Some (None, s)
  | Some info =>
      match drmPrimeFDToHandle (hi_fd info) with
      | None => Some (None, s)
      | Some primeHandle =>
          '(found, c) ←
            (match cache_of type c with
             | Some cache => '(v, cache) ← LruCache.get cache primeHandle; Some (v, with_cache type c cache)
             | None => Some (None, c)
             end);
          match found with
          | Some n => Some (Some n, (c, alter (fun x => mkDrmBuffer (db_handle x) (mDrmFramebuffer x) frame crop (mZpos x)) n bs))
          | None =>
              let answer := drmModeAddFB2 (c_calls c) info in
              let c := called c in
              match answer with
              | None => Some (None, (c, bs))
              | Some fb =>
                  let n := length bs in
                  c ← (match cache_of type c with
                       | Some cache => cache ← LruCache.set cache primeHandle n; Some (with_cache type c cache)
                       | None => Some c
                       end);
                  Some (Some n, (c, bs ++ [mkDrmBuffer primeHandle fb frame crop 0]))
              end
          end
      end
  end.

(** With fewer overlays than before for more than half a second, six buffers are kept for each. *)
Definition drm_partialCleanCacheBuffer (overlayNum : Z) (c : DrmClient) : option DrmClient :=
  match mPlaneBufferCache c with
  | Some cache =>
      if (0 <? LruCache.getSize cache)%nat then
        if overlayNum <? mLastOverlayCount c then
          if mCheckOverlayTime c + 500000000 <? c_now c then
            cache ← LruCache.partialClearCache cache (Z.to_nat (⟦overlayNum * 6⟧u 32));
            Some (with_caches (with_times c (mLastPlaneBufferPresentTime c) overlayNum (mCheckOverlayTime c)) (mFramebufferCache c) (Some cache))
          else Some c
        else Some (with_times c (mLastPlaneBufferPresentTime c) overlayNum (c_now c))
      else Some c
  | None => Some c
  end.

(** ** Planes *)

Definition drm_isOverlaySupport (displayId : Z) (c : DrmClient) : bool :=
  match mDisplays c !! displayId with
  | None => false
  | Some d => negb IsOverlayUserDisabled && (1 <? length (mPlanes d))%nat
  end.

(** The size of a frame on the display, in [int]: the product and the quotient. *)
Definition on_display (size mode width : Z) : option Z :=
  p ← checked_s 32 (size * ⟦mode⟧s 32);
  if ⟦width⟧s 32 =? 0 then None else checked_s 32 (Z.quot p (⟦width⟧s 32)).

Definition sub_int (a b : Z) : option Z := checked_s 32 (a - b).

Definition dcss_limited (info : HandleInfo) (srcW srcH w h : Z) : option bool :=
  sw ← checked_s 32 (srcW * 7);
  sh ← (if sw <? w then Some 0 else checked_s 32 (srcH * 7));
  Some ((sw <? w) || (sh <? h) ||
        ((srcW <? 64) && existsb (Z.eqb (hi_drm_format info)) FORMATS_64) ||
        ((srcW <? 32) && existsb (Z.eqb (hi_drm_format info)) FORMATS_32) || (srcW <? 16) || (srcH <? 8)).

Definition dpu_limited (info : HandleInfo) (srcW srcH w h : Z) : bool :=
  (w <? srcW) || (h <? srcH) || (8192 <? hi_width info) || (8192 <? hi_height info) || (hi_width info <? 60) || (hi_height info <? 60).

Definition drm_checkOverlayLimitation (displayId : Z) (l : Layer) (c : DrmClient) : option bool :=
  match mDisplays c !! displayId with
  | None => Some false
  | Some d =>
      if negb (mTransform l =? TRANSFORM_NONE) then Some false
      else
        match getInfo (l_buffer l) with
        | None => Some false
        | Some info =>
            if (PixelFormat_RGBA_8888 <=? hi_format info) && (hi_format info <=? PixelFormat_BGRA_8888) then Some false
            else
              let rect := mDisplayFrame l in
              let config := mActiveConfig d in
              dx ← sub_int (r_right rect) (r_left rect); w ← on_display dx (modeWidth config) (hc_width config);
              dy ← sub_int (r_bottom rect) (r_top rect); h ← on_display dy (modeHeight config) (hc_height config);
              srect ← getSourceCropInt l;
              srcW ← sub_int (r_right srect) (r_left srect);
              srcH ← sub_int (r_bottom srect) (r_top srect);
              dcss ← (if OVERLAY_LIMITATION_DCSS then dcss_limited info srcW srcH w h else Some false);
              Some (negb dcss && negb (OVERLAY_LIMITATION_DPU && dpu_limited info srcW srcH w h))
        end
  end.

Definition drm_prepareDrmPlanesForValidate (displayId : Z) (ui : bool) (c : DrmClient) : option Z * DrmClient :=
  match mDisplays c !! displayId with
  | None => (None, c)
  | Some d =>
      let '(top, d) := buildPlaneIdPool d in
      if ui && negb (top =? 2 ^ 32 - 1) then (Some top, with_displays c (<[displayId := reservePlaneId top d]> (mDisplays c)))
      else (None, with_displays c (<[displayId := d]> (mDisplays c)))
  end.

Definition drm_getPlaneForLayerBuffer (displayId : Z) (handle : option Z) (c : DrmClient) : option Z * DrmClient :=
  match mDisplays c !! displayId, handle with
  | Some d, Some _ =>
      let '(planeId, d) := findDrmPlane OVERLAY_LIMITATION_DPU handle d in
      (if 0 <? planeId then Some planeId else None, with_displays c (<[displayId := d]> (mDisplays c)))
  | _, _ => (None, c)
  end.

(** ** A frame *)

(** The cache of planes is dropped two seconds after the last frame with an overlay. *)
Definition age_planes (overlays : nat) (c : DrmClient) : DrmClient :=
  match mPlaneBufferCache c with
  | Some cache =>
      if (0 <? LruCache.getSize cache)%nat then
        if (0 <? overlays)%nat then with_times c (c_now c) (mLastOverlayCount c) (mCheckOverlayTime c)
        else if mLastPlaneBufferPresentTime c + 2000000000 <? c_now c then with_caches c (mFramebufferCache c) (Some (LruCache.clear cache))
        else c
      else c
  | None => c
  end.

Definition drm_flushToDisplay (displayId : Z) (buffer : DisplayBuffer) (bs : list DrmBuffer) (c : DrmClient) : option (Error * DrmClient) :=
  match mDisplays c !! displayId with
  | None => Some (BadDisplay, c)
  | Some d =>
      let c := age_planes (size (planeDrmBuffer buffer)) c in
      if negb (isConnected (mConnector d)) then Some (NoError, c)
      else
        '(e, request, d) ← flush_display (drmModeAtomicCommit (c_calls c)) buffer bs d;
        let c := with_displays (called c) (<[displayId := d]> (mDisplays c)) in
        match request with
        | None => Some (e, c)
        | Some _ => Some (e, with_targets c (mComposerTargets c) (delete displayId (mExpiredTargets c)))
        end
  end.

(** The next target, or new targets if security or size have changed; targets that are expired already stay. *)
Definition drm_getComposerTarget (displayId : Z) (secure : bool) (s : nat * DrmClient) : option ((Error + Z) * (nat * DrmClient)) :=
  let '(made, c) := s in
  match mDisplays c !! displayId with
  | None => Some (inl BadDisplay, (made, c))
  | Some d =>
      let fresh :=
        let c :=
          match mComposerTargets c !! displayId with
          | Some t =>
              with_targets c (delete displayId (mComposerTargets c))
                (match mExpiredTargets c !! displayId with
                 | Some _ => mExpiredTargets c
                 | None => <[displayId := tg_handles t]> (mExpiredTargets c)
                 end)
          | None => c
          end in
        let '(width, height, format) := getFramebufferInfo d in
        let '(ok, handles, made) := prepareDeviceFrameBuffer made width height format mMaxComposerTargetsPerDisplay secure [] in
        if (ok : bool) then
          h ← head handles;
          Some (inr h, (made, with_targets c (<[displayId := mkTargets handles 0 secure true]> (mComposerTargets c)) (mExpiredTargets c)))
        else Some (inl NoResources, (made, c)) in
      match mComposerTargets c !! displayId with
      | Some t =>
          if tg_valid t && Bool.eqb (tg_security t) secure then
            let index := ⟦tg_index t + 1⟧u 32 in
            let index := if Z.of_nat mMaxComposerTargetsPerDisplay <=? index then 0 else index in
            h ← tg_handles t !! Z.to_nat index;
            Some (inr h, (made, with_targets c (<[displayId := mkTargets (tg_handles t) index (tg_security t) (tg_valid t)]> (mComposerTargets c))
                                  (mExpiredTargets c)))
          else fresh
      | None => fresh
      end
  end.

(** ** HDR metadata, HDCP and configurations *)

Definition on_displays (displayId : Z) (f : DrmDisplay -> DrmDisplay) (c : DrmClient) : DrmClient :=
  with_displays c (alter f displayId (mDisplays c)).

(** After [erase], the subscript adds an entry of zeros, whose blob is the one that is destroyed. *)
Definition drm_setHdrMetadata (displayId : Z) (metadata : option Z) (c : DrmClient) : DrmClient :=
  match mDisplays c !! displayId with
  | None => c
  | Some _ =>
      let set (c : DrmClient) :=
        match metadata with
        | Some m =>
            let answer := drmModeCreatePropertyBlob (c_calls c) m in
            let c := called c in
            match answer with
            | None => c
            | Some blob => on_displays displayId (setHdrMetadataBlobId blob) (with_metadata c (<[displayId := (m, blob)]> (mHdrMetadatas c)))
            end
        | None => on_displays displayId (setHdrMetadataBlobId 0) c
        end in
      match mHdrMetadatas c !! displayId, metadata with
      | Some _, None => set (with_metadata c (<[displayId := (0, 0)]> (mHdrMetadatas c)))
      | Some (prev, _), Some m => if prev =? m then c else set c
      | None, None => c
      | None, Some _ => set c
      end
  end.

(** The HDCP property of the connector: whether there is one, and whether it was on at the start. *)
Definition setSecureMode (hdcp : option bool) (displayId : Z) (secure : bool) (c : DrmClient) : Error * option bool * DrmClient :=
  match mDisplays c !! displayId with
  | None => (BadDisplay, None, c)
  | Some _ =>
      let value := if secure then 1 else 0 in
      let state :=
        match mSecureMode c !! displayId with
        | Some s => s
        | None => match hdcp with None => -1 | Some true => 1 | Some false => 0 end
        end in
      if (state =? -1) || (state =? value) then (NoError, None, with_secure c (<[displayId := state]> (mSecureMode c)))
      else (NoError, Some secure, with_secure c (<[displayId := value]> (mSecureMode c)))
  end.

(** Another size makes the targets of the 2D engine invalid. *)
Definition change_config (displayId : Z) (f : DrmDisplay -> bool * DrmDisplay) (strict : bool) (c : DrmClient) : Error * DrmClient :=
  match mDisplays c !! displayId with
  | None => (BadDisplay, c)
  | Some d =>
      let '(ok, d') := f d in
      let c1 := with_displays c (<[displayId := d']> (mDisplays c)) in
      if strict && negb ok then (BadParameter, c1)
      else
        let '(w, h, _) := getFramebufferInfo d in
        let '(w', h', _) := getFramebufferInfo d' in
        if negb (w =? w') || negb (h =? h') then
          (NoError, with_targets c1 (alter (fun t => mkTargets (tg_handles t) (tg_index t) (tg_security t) false) displayId (mComposerTargets c1))
                      (mExpiredTargets c1))
        else (NoError, c1)
  end.

Definition drm_setActiveConfigId (displayId configId : Z) : DrmClient -> Error * DrmClient :=
  change_config displayId (setActiveConfigId configId) true.
Definition drm_resetDisplayConfig (displayId : Z) : DrmClient -> Error * DrmClient := change_config displayId resetDisplayConfig false.

(** The value the backlight is set to, if it is set. *)
Definition backlight_value (maxBrightness : Z) (low_power : bool) (brightness : spec_float) : option (option Z) :=
  v ← SF_trunc (Binary32.mul (float maxBrightness) brightness);
  value ← checked_s 32 v;
  if (value =? 0) && low_power then Some None
  else Some (Some (if SFltb (Binary64.div (Binary64.of_Z 1) (Binary64.of_Z 100000)) brightness && (value =? 0) then 1 else value)).
End Client.

#[global] Instance drm_client `{!HwcAbi, !DeviceComposerOps, !DrmKernel} : DeviceClient DrmClient := {
  isOverlaySupport := drm_isOverlaySupport;
  checkOverlayLimitation := drm_checkOverlayLimitation;
  prepareDrmPlanesForValidate := drm_prepareDrmPlanesForValidate;
  getPlaneForLayerBuffer := drm_getPlaneForLayerBuffer;
  create := drm_create;
  partialCleanCacheBuffer := drm_partialCleanCacheBuffer;
  flushToDisplay := drm_flushToDisplay;
  getComposerTarget := drm_getComposerTarget;
  setHdrMetadata := drm_setHdrMetadata;
  client_setActiveConfigId := drm_setActiveConfigId;
  client_resetDisplayConfig := drm_resetDisplayConfig
}.

(** ** The caches *)

(** A cache that can take buffers; its entries are buffers with the handle of their key. *)
Record cache_ok (cache : DrmBufferCache) (bs : list DrmBuffer) : Prop := {
  ca_wf : LruCache.wf cache;
  ca_size : (0 < LruCache.m_maxSize cache)%nat;
  ca_entry : forall key n, (key, n) ∈ LruCache.abs cache -> db_handle <$> bs !! n = Some key
}.

Lemma spec_get_in (l : list (Z * nat)) key r l' : LruCache.spec_get l key = (r, l') ->
  (forall e, e ∈ l' -> e ∈ l) /\ (forall n, r = Some n -> (key, n) ∈ l).
Proof.
  unfold LruCache.spec_get, LruCache.spec_find, LruCache.spec. destruct (list_find _ l) as [[i [k n]]|] eqn:E; intros [= <- <-]; [|done].
  apply list_find_Some in E as (Hi & Hk & _). cbn in Hk. subst k. apply list_elem_of_lookup_2 in Hi. split.
  - intros e [->|He]%elem_of_cons; [done|by apply list_elem_of_delete_inv in He].
  - by intros m [= <-].
Qed.

Lemma spec_set_in n (l : list (Z * nat)) key v e : e ∈ LruCache.spec_set n l key v -> e = (key, v) \/ e ∈ l.
Proof.
  unfold LruCache.spec_set, LruCache.spec_find, LruCache.spec. intros [->|He]%elem_of_cons; [by left|]. right.
  destruct (list_find _ l) as [[i kv]|]; [by apply list_elem_of_delete_inv in He|]. destruct (_ <=? _)%nat; [|done].
  rewrite removelast_delete in He. by apply list_elem_of_delete_inv in He.
Qed.

Lemma cache_get cache bs key : cache_ok cache bs ->
  exists r cache', LruCache.get cache key = Some (r, cache') /\ cache_ok cache' bs /\
    (forall e, e ∈ LruCache.abs cache' -> e ∈ LruCache.abs cache) /\ (forall n, r = Some n -> (key, n) ∈ LruCache.abs cache).
Proof.
  intros [Hwf Hs He]. destruct (LruCache.lru_get_refines cache key Hwf) as (r & cache' & Hg & Hwf' & _ & Habs & Hmax).
  symmetry in Habs. apply spec_get_in in Habs as [Hin Hr]. exists r, cache'. split_and!; [done| |done|done].
  split; [done|lia|]. intros k n Hk. by apply He, Hin.
Qed.

Lemma cache_set cache bs key n : cache_ok cache bs -> db_handle <$> bs !! n = Some key ->
  exists cache', LruCache.set cache key n = Some cache' /\ cache_ok cache' bs /\
    (forall e, e ∈ LruCache.abs cache' -> e = (key, n) \/ e ∈ LruCache.abs cache).
Proof.
  intros [Hwf Hs He] Hn. destruct (LruCache.set_step cache key n Hwf Hs) as (cache' & Hset & Hwf' & Hmax & Habs).
  assert (forall e, e ∈ LruCache.abs cache' -> e = (key, n) \/ e ∈ LruCache.abs cache) as Hin
    by (intros e Hin; rewrite Habs in Hin; by apply spec_set_in in Hin).
  exists cache'. split_and!; [done| |done]. split; [done|lia|]. intros k m [[= -> ->]|Hk]%Hin; [done|by apply He].
Qed.

Lemma cache_partial cache bs n cache' : cache_ok cache bs -> LruCache.partialClearCache cache n = Some cache' ->
  cache_ok cache' bs /\ (forall e, e ∈ LruCache.abs cache' -> e ∈ LruCache.abs cache).
Proof.
  intros [Hwf Hs He] Hp. assert (n <= LruCache.getSize cache)%nat as Hn.
  { unfold LruCache.partialClearCache in Hp. destruct (decide _); [|done]. unfold LruCache.getSize. by rewrite (LruCache.wf_size cache Hwf). }
  destruct (LruCache.lru_partialClear_refines cache n Hwf Hn) as (c2 & Hp2 & Hwf' & _ & Habs). rewrite Hp in Hp2. injection Hp2 as <-.
  assert (forall e, e ∈ LruCache.abs cache' -> e ∈ LruCache.abs cache) as Hin.
  { intros e. rewrite Habs. intros Hin. eapply elem_of_take in Hin as (i & Hi & _). by eapply list_elem_of_lookup_2. }
  split; [|done]. split; [done| |intros k m Hk; by apply He, Hin].
  unfold LruCache.partialClearCache in Hp. destruct (decide _); [|done]. by injection Hp as <-.
Qed.

Lemma cache_same cache bs bs' : cache_ok cache bs -> db_handle <$> bs' = db_handle <$> bs -> cache_ok cache bs'.
Proof.
  intros [Hwf Hs He] Hb. split; [done..|]. intros k n Hk. rewrite <- list_lookup_fmap, Hb, list_lookup_fmap. by apply He.
Qed.

Lemma cache_more cache bs l : cache_ok cache bs -> cache_ok cache (bs ++ l).
Proof.
  intros [Hwf Hs He] . split; [done..|]. intros k n Hk. specialize (He k n Hk).
  destruct (bs !! n) as [x|] eqn:Hx; [|done]. by rewrite (lookup_app_l_Some _ _ _ _ Hx).
Qed.

#[global] Instance BufferType_eq_dec : EqDecision BufferType.
Proof. solve_decision. Defined.

Lemma cache_of_with t t' c cache old : cache_of t c = Some old ->
  cache_of t' (with_cache t c cache) = if decide (t' = t) then Some cache else cache_of t' c.
Proof. by destruct t, t'. Qed.

(** The buffers of the caches exist, and no buffer is in two caches. *)
Record caches_ok (c : DrmClient) (bs : list DrmBuffer) : Prop := {
  cs_cache : forall t cache, cache_of t c = Some cache -> cache_ok cache bs;
  cs_one : forall t t' ca ca' k k' n, cache_of t c = Some ca -> cache_of t' c = Some ca' -> (k, n) ∈ LruCache.abs ca ->
    (k', n) ∈ LruCache.abs ca' -> t = t'
}.

Definition in_cache (c : DrmClient) (t : BufferType) (n : nat) : Prop :=
  exists cache key, cache_of t c = Some cache /\ (key, n) ∈ LruCache.abs cache.

(** A cache is replaced by one with no other entries than it had, or a new one. *)
Lemma caches_with c bs bs' t old cache key n : caches_ok c bs -> cache_of t c = Some old ->
  (forall t' ca, cache_of t' c = Some ca -> cache_ok ca bs') -> cache_ok cache bs' ->
  (forall e, e ∈ LruCache.abs cache -> e = (key, n) \/ e ∈ LruCache.abs old) -> (forall t', in_cache c t' n -> t' = t) ->
  caches_ok (with_cache t c cache) bs' /\ (forall t' m, in_cache (with_cache t c cache) t' m -> in_cache c t' m \/ (t' = t /\ m = n)).
Proof.
  intros [H1 H2] Hold Hall Hok Hin Hn.
  assert (forall t' m, in_cache (with_cache t c cache) t' m -> in_cache c t' m \/ (t' = t /\ m = n)) as Hsub.
  { intros t' m (ca & k & Hca & Hk). rewrite (cache_of_with _ _ _ _ old) in Hca by done. destruct (decide (t' = t)) as [->|].
    - injection Hca as <-. apply Hin in Hk as [[= _ ->]|Hk]; [by right|left; by exists old, k].
    - left. by exists ca, k. }
  split; [|done]. split.
  - intros t' ca. rewrite (cache_of_with _ _ _ _ old) by done. destruct (decide (t' = t)); [by intros [= <-]|apply Hall].
  - intros t1 t2 ca1 ca2 k1 k2 m Hc1 Hc2 Hk1 Hk2.
    assert (in_cache (with_cache t c cache) t1 m) as I1 by by exists ca1, k1.
    assert (in_cache (with_cache t c cache) t2 m) as I2 by by exists ca2, k2.
    apply Hsub in I1 as [I1|[E1 M1]], I2 as [I2|[E2 M2]]; subst.
    + destruct I1 as (a1 & x1 & ? & ?), I2 as (a2 & x2 & ? & ?). by eapply (H2 t1 t2 a1 a2 x1 x2 m).
    + by apply Hn.
    + symmetry. by apply Hn.
    + done.
Qed.

(** ** The laws of the interface *)

Section Laws.
Context `{!HwcAbi, !DeviceComposerOps, !DrmKernel}.

Definition targets_ok (c : DrmClient) : Prop := forall d t, mComposerTargets c !! d = Some t ->
  length (tg_handles t) = mMaxComposerTargetsPerDisplay /\ 0 <= tg_index t < Z.of_nat mMaxComposerTargetsPerDisplay.

(** A client with a display that works. *)
Definition drm_ok (d : Z) (c : DrmClient) : Prop :=
  (exists x, mDisplays c !! d = Some x /\ display_ok x) /\ targets_ok c /\ 0 < Z.of_nat mMaxComposerTargetsPerDisplay < 2 ^ 32 - 1.

Definition drm_free (d : Z) (c : DrmClient) : list Z := match mDisplays c !! d with Some x => mPlaneIdPool x | None => [] end.

Definition drm_key (h : Z) : option Z := info ← getInfoFromHandle h; drmPrimeFDToHandle (hi_fd info).

Lemma drm_ok_display d c x : drm_ok d c -> display_ok x -> drm_ok d (with_displays c (<[d := x]> (mDisplays c))).
Proof. intros (_ & Ht & Hm) Hx. split_and!; [|done|lia..]. exists x. split; [apply lookup_insert_eq|done]. Qed.

Lemma with_pool_ok x pool num : display_ok x -> NoDup pool -> display_ok (with_pool x pool num).
Proof. intros [? ? ? ? ? ? ? ? ?] Hp. by split. Qed.

(** *** The buffers *)

Lemma caches_same c c' bs : (forall t, cache_of t c' = cache_of t c) -> caches_ok c bs ->
  caches_ok c' bs /\ (forall t m, in_cache c' t m -> in_cache c t m).
Proof.
  intros E [Hc Hone]. split; [split|].
  - intros t ca Hca. rewrite E in Hca. by eapply Hc.
  - intros t t' ca ca' k k' n Ha Hb. rewrite E in Ha, Hb. by eapply Hone.
  - intros t m (ca & k & Hca & Hk). rewrite E in Hca. by exists ca, k.
Qed.

Lemma in_cache_bound c bs t n : caches_ok c bs -> in_cache c t n -> (n < length bs)%nat.
Proof.
  intros [Hc _] (ca & k & Hca & Hk). specialize (Hc t ca Hca). apply (ca_entry _ _ Hc) in Hk.
  destruct (bs !! n) eqn:E; [|done]. by apply lookup_lt_Some in E.
Qed.

Lemma drm_ok_same d c c' : mDisplays c' = mDisplays c -> mComposerTargets c' = mComposerTargets c -> drm_ok d c -> drm_ok d c'.
Proof. unfold drm_ok, targets_ok. by intros -> ->. Qed.

Lemma drm_ok_cache d c t cache : drm_ok d c -> drm_ok d (with_cache t c cache).
Proof. by apply drm_ok_same; destruct t. Qed.

(** What [create] gives: a buffer for the memory of the handle, new or from the cache of its type. *)
Lemma drm_create_ok d h frame crop t c bs : drm_ok d c -> caches_ok c bs ->
  exists o c' bs', drm_create h frame crop t (c, bs) = Some (o, (c', bs')) /\ drm_ok d c' /\ caches_ok c' bs' /\
    match o with
    | None => bs' = bs /\ forall t' m, in_cache c' t' m -> in_cache c t' m
    | Some n => exists x, bs' !! n = Some x /\ (h ≫= drm_key) = Some (db_handle x) /\ db_frame x = frame /\ db_crop x = crop /\
        (forall m, m <> n -> bs' !! m = bs !! m) /\
        (forall t' m, in_cache c' t' m -> in_cache c t' m \/ (t' = t /\ m = n)) /\
        ((length bs <= n)%nat \/ (in_cache c t n /\ db_handle <$> bs !! n = Some (db_handle x)))
    end.
Proof.
  intros Hok Hb. unfold drm_create, getInfo. destruct h as [h|]; cbn [mbind option_bind]; [|by exists None, c, bs].
  unfold drm_key. destruct (getInfoFromHandle h) as [info|]; cbn [mbind option_bind]; [|by exists None, c, bs].
  destruct (drmPrimeFDToHandle (hi_fd info)) as [prime|]; [|by exists None, c, bs].
  (* A buffer that is not in the cache. *)
  assert (forall c1, drm_ok d c1 -> caches_ok c1 bs -> (forall t' m, in_cache c1 t' m -> in_cache c t' m) ->
    exists o c' bs',
      match drmModeAddFB2 (c_calls c1) info with
      | None => Some (None, (called c1, bs))
      | Some fb =>
          c2 ← (match cache_of t (called c1) with
                | Some cache => cache ← LruCache.set cache prime (length bs); Some (with_cache t (called c1) cache)
                | None => Some (called c1)
                end);
          Some (Some (length bs), (c2, bs ++ [mkDrmBuffer prime fb frame crop 0]))
      end = Some (o, (c', bs')) /\ drm_ok d c' /\ caches_ok c' bs' /\
      match o with
      | None => bs' = bs /\ forall t' m, in_cache c' t' m -> in_cache c t' m
      | Some n => exists x, bs' !! n = Some x /\ Some prime = Some (db_handle x) /\ db_frame x = frame /\ db_crop x = crop /\
          (forall m, m <> n -> bs' !! m = bs !! m) /\
          (forall t' m, in_cache c' t' m -> in_cache c t' m \/ (t' = t /\ m = n)) /\
          ((length bs <= n)%nat \/ (in_cache c t n /\ db_handle <$> bs !! n = Some (db_handle x)))
      end) as Hnew.
  { intros c1 Hok1 Hb1 Hsub. assert (drm_ok d (called c1)) as Hok1' by by apply (drm_ok_same d c1).
    destruct (caches_same c1 (called c1) bs) as [Hb1' Hsub1]; [by intros []|done|].
    destruct (drmModeAddFB2 (c_calls c1) info) as [fb|].
    2:{ exists None, (called c1), bs. split_and!; [done..|]. auto. }
    set (x := mkDrmBuffer prime fb frame crop 0). set (n := length bs).
    assert ((bs ++ [x]) !! n = Some x) as Hx by by apply list_lookup_middle.
    assert (forall m, m <> n -> (bs ++ [x]) !! m = bs !! m) as Hother.
    { intros m Hm. destruct (decide (m < n)%nat) as [Hl|Hl]; [by apply lookup_app_l|].
      rewrite (lookup_ge_None_2 bs), lookup_ge_None_2; [done|rewrite length_app; cbn; lia|lia]. }
    assert (forall t' ca, cache_of t' (called c1) = Some ca -> cache_ok ca (bs ++ [x])) as Hall.
    { intros t' ca Hca. apply cache_more. by eapply (cs_cache _ _ Hb1'). }
    destruct (cache_of t (called c1)) as [old|] eqn:Et; cbn [mbind option_bind].
    - destruct (cache_set old (bs ++ [x]) prime n) as (cache & -> & Hca & Hin); [by eapply Hall|by rewrite Hx|]. cbn [mbind option_bind].
      destruct (caches_with (called c1) bs (bs ++ [x]) t old cache prime n) as [Hb2 Hsub2]; [done..| |].
      { intros t' Hn. pose proof (in_cache_bound _ _ _ _ Hb1' Hn). unfold n in *. lia. }
      exists (Some n), (with_cache t (called c1) cache), (bs ++ [x]). split_and!; [done|by apply drm_ok_cache|done|].
      exists x. split_and!; [done..| |by left]. intros t' m [Hm|Hm]%Hsub2; [left; auto|by right].
    - exists (Some n), (called c1), (bs ++ [x]). split_and!; [done|done| |].
      + split; [done|]. by apply (cs_one _ _ Hb1').
      + exists x. split_and!; [done..| |by left]. intros t' m Hm. left. auto. }
  destruct (cache_of t c) as [cache|] eqn:Et; cbn [mbind option_bind]; [|by apply Hnew].
  destruct (cache_get cache bs prime) as (r & cache' & -> & Hca & Hin & Hr); [by eapply (cs_cache _ _ Hb)|]. cbn [mbind option_bind].
  destruct r as [n|].
  - specialize (Hr n eq_refl). assert (db_handle <$> bs !! n = Some prime) as Hn.
    { eapply (ca_entry cache); [by eapply (cs_cache _ _ Hb)|done]. }
    destruct (bs !! n) as [x|] eqn:Hx; [|done]. injection Hn as Hn.
    assert (in_cache c t n) as Hcn by by exists cache, prime.
    set (g := fun x => mkDrmBuffer (db_handle x) (mDrmFramebuffer x) frame crop (mZpos x)).
    assert (db_handle <$> alter g n bs = db_handle <$> bs) as Hh.
    { apply list_eq. intros i. rewrite !list_lookup_fmap. destruct (decide (i = n)) as [->|Hne].
      - rewrite list_lookup_alter_eq. by destruct (bs !! n).
      - by rewrite list_lookup_alter_ne. }
    destruct (caches_with c bs (alter g n bs) t cache cache' prime n) as [Hb2 Hsub2]; [done..| | | | |].
    + intros t' ca Hca'. eapply cache_same; [|done]. by eapply (cs_cache _ _ Hb).
    + by eapply cache_same.
    + intros e He. right. by apply Hin.
    + intros t' (ca & k & Hca' & Hk). by eapply (cs_one _ _ Hb t' t ca cache).
    + exists (Some n), (with_cache t c cache'), (alter g n bs). split_and!; [done|by apply drm_ok_cache|done|].
      exists (g x). rewrite list_lookup_alter_eq, Hx. split_and!; [done|by rewrite <- Hn|done|done| |done|].
      * intros m Hm. by apply list_lookup_alter_ne.
      * by right.
  - destruct (caches_with c bs bs t cache cache' prime (length bs)) as [Hb2 Hsub2]; [done|done|by apply Hb|done| | |].
    + intros e He. right. by apply Hin.
    + intros t' Hn. pose proof (in_cache_bound _ _ _ _ Hb Hn). lia.
    + apply Hnew; [by apply drm_ok_cache|done|]. intros t' m (ca & k & Hca' & Hk).
      rewrite (cache_of_with _ _ _ _ cache) in Hca' by done. destruct (decide (t' = t)) as [->|]; [|by exists ca, k].
      injection Hca' as <-. exists cache, k. split; [done|by apply Hin].
Qed.

(** *** The planes *)

Lemma sane_small r : sane_rect r -> is_Some (sub_int (r_right r) (r_left r)) /\ is_Some (sub_int (r_bottom r) (r_top r)) /\
  forall z, sub_int (r_right r) (r_left r) = Some z \/ sub_int (r_bottom r) (r_top r) = Some z -> - 2 ^ 15 < z < 2 ^ 15.
Proof.
  unfold sane_rect, sub_int, checked_s. intros ?. rewrite !decide_True by lia. split_and!; [by eexists..|].
  intros z [[= <-]|[= <-]]; lia.
Qed.

Lemma on_display_defined z mode width : - 2 ^ 15 < z < 2 ^ 15 -> 0 <= mode < 2 ^ 14 -> 0 < width < 2 ^ 14 ->
  is_Some (on_display z mode width).
Proof.
  intros Hz Hm Hw. unfold on_display. rewrite !wrap_s_id by (unfold in_s; lia). unfold checked_s.
  assert (- 2 ^ 29 <= z * mode <= 2 ^ 29) as Hp by nia. rewrite decide_True by lia. cbn [mbind option_bind].
  destruct (Z.eqb_spec width 0); [lia|]. rewrite decide_True; [by eexists|].
  pose proof (Z.quot_abs (z * mode) width ltac:(lia)). pose proof (Z.quot_le_upper_bound (Z.abs (z * mode)) (Z.abs width) (2 ^ 29)).
  assert (Z.abs (z * mode) ÷ Z.abs width <= 2 ^ 29) by (apply Z.quot_le_upper_bound; nia). lia.
Qed.

Lemma drm_check_defined d l c : drm_ok d c -> sane_layer l -> is_Some (drm_checkOverlayLimitation d l c).
Proof.
  intros ((x & Hx & Hok) & _) (Hr & s & Hs & Hsr & _). unfold drm_checkOverlayLimitation. rewrite Hx.
  destruct (negb _); [by eexists|]. destruct (getInfo (l_buffer l)) as [info|]; [|by eexists]. destruct (_ && _); [by eexists|].
  destruct (ok_config x Hok) as (Hw & Hh & _ & Hmw & Hmh). destruct (sane_small _ Hr) as ([dx Hdx] & [dy Hdy] & Hb).
  destruct (sane_small _ Hsr) as ([sw Hsw] & [sh Hsh] & Hsb).
  destruct (on_display_defined dx (modeWidth (mActiveConfig x)) (hc_width (mActiveConfig x))) as [w Ew]; [by apply Hb; left|lia|lia|].
  destruct (on_display_defined dy (modeHeight (mActiveConfig x)) (hc_height (mActiveConfig x))) as [h Eh]; [by apply Hb; right|lia|lia|].
  rewrite Hdx. cbn [mbind option_bind]. rewrite Ew. cbn [mbind option_bind]. rewrite Hdy. cbn [mbind option_bind]. rewrite Eh.
  cbn [mbind option_bind]. rewrite Hs. cbn [mbind option_bind]. rewrite Hsw. cbn [mbind option_bind]. rewrite Hsh. cbn [mbind option_bind].
  pose proof (Hsb sw (or_introl Hsw)). pose proof (Hsb sh (or_intror Hsh)).
  destruct OVERLAY_LIMITATION_DCSS; [|by eexists]. unfold dcss_limited, checked_s. rewrite !decide_True by lia. cbn [mbind option_bind].
  destruct (_ <? w); by eexists.
Qed.

Lemma drm_prepare_ok d b c o c' : drm_prepareDrmPlanesForValidate d b c = (o, c') -> drm_ok d c ->
  drm_ok d c' /\ NoDup (drm_free d c') /\
  (b = true -> drm_isOverlaySupport d c = true -> exists p, o = Some p /\ p ∉ drm_free d c').
Proof.
  intros E Hok. pose proof Hok as ((x & Hx & Hxok) & _). unfold drm_prepareDrmPlanesForValidate in E. rewrite Hx in E.
  unfold buildPlaneIdPool in E. destruct (overlay_pool (mPlanes x) 0 (2 ^ 32 - 1)) as [pool top] eqn:Ep.
  destruct (overlay_pool_spec _ _ _ _ _ Ep) as (-> & Htop & Hmax). set (pool := plane_id <$> filter _ _) in *.
  assert (NoDup pool) as Hnd by (apply overlay_ids_NoDup, Hxok).
  assert (forall q, q ∈ pool -> q < 2 ^ 32 - 1) as Hlt.
  { intros q (p & -> & [_ Hp]%list_elem_of_filter)%list_elem_of_fmap. apply (ok_plane x Hxok p Hp). }
  set (x1 := with_pool x pool (Z.of_nat (length pool))). assert (display_ok x1) as Hx1 by by apply with_pool_ok.
  unfold drm_isOverlaySupport. rewrite Hx.
  destruct (b && negb (top =? 2 ^ 32 - 1)) eqn:Eb; injection E as <- <-; unfold drm_free; cbn [with_displays mDisplays]; rewrite lookup_insert_eq.
  - pose proof (erase_first_spec (Z.eqb top) pool) as Hsp. unfold reservePlaneId. cbn [x1 with_pool mPlaneIdPool mOverlayPlaneNum].
    destruct (erase_first (Z.eqb top) pool) as [[y|] r]; cbn [snd].
    + destruct Hsp as (Hy%Z.eqb_eq & l1 & l2 & Hl & Hr). subst y. rewrite Hl in Hnd. apply NoDup_app in Hnd as (Hn1 & Hn12 & Hn2).
      apply NoDup_cons in Hn2 as [Ht2 Hn2].
      assert (NoDup r) as Hrn. { rewrite Hr. apply NoDup_app. split_and!; [done| |done]. intros z Hz Hz2. apply (Hn12 z Hz). by right. }
      assert (top ∉ r) as Htr. { rewrite Hr, elem_of_app. intros [Hz|Hz]; [|done]. apply (Hn12 top Hz). by left. }
      split_and!; [apply drm_ok_display; [done|by apply with_pool_ok]|done|]. intros _ _. by exists top.
    + destruct Hsp as [_ Hsp]. assert (top ∈ pool) as Hin.
      { destruct Htop as [->|?]; [|done]. apply andb_true_iff in Eb as [_ Eb]. by rewrite Z.eqb_refl in Eb. }
      rewrite Forall_forall in Hsp. specialize (Hsp top Hin). by rewrite Z.eqb_refl in Hsp.
  - split_and!; [by apply drm_ok_display|done|]. intros -> [_ Hlen%Nat.ltb_lt]%andb_true_iff. exfalso.
    destruct (ok_overlay x Hxok Hlen) as (p & Hp & Ho). destruct (ok_zpos x Hxok p Hp Ho) as [Hv Hz].
    assert (top ∈ pool) as Hin by by eapply Hmax. specialize (Hlt top Hin). cbn in Eb. destruct (Z.eqb_spec top (2 ^ 32 - 1)); [lia|done].
Qed.

Lemma drm_plane_ok d h c o c' : drm_getPlaneForLayerBuffer d h c = (o, c') -> drm_ok d c ->
  drm_ok d c' /\
  match o with
  | Some p => exists l1 l2, drm_free d c = l1 ++ p :: l2 /\ drm_free d c' = l1 ++ l2
  | None => drm_free d c' = drm_free d c
  end.
Proof.
  intros E Hok. pose proof Hok as ((x & Hx & Hxok) & _). unfold drm_getPlaneForLayerBuffer in E. rewrite Hx in E.
  destruct h as [h|]; [|by injection E as <- <-]. unfold findDrmPlane in E.
  assert (drm_free d c = mPlaneIdPool x) as Hfree by (unfold drm_free; by rewrite Hx).
  assert (forall p y, (if 0 <? 0 then Some 0 else None, with_displays c (<[d := x]> (mDisplays c))) = (p, y) -> p = None /\ y = c) as Hsame.
  { intros p y [= <- <-]. split; [done|]. rewrite insert_id by done. by destruct c. }
  destruct (mPlaneIdPool x) as [|i l] eqn:El.
  { apply Hsame in E as [-> ->]. done. }
  rewrite <- El in *. destruct (OVERLAY_LIMITATION_DPU && _); [apply Hsame in E as [-> ->]; done|].
  destruct (h ← Some h; getInfoFromHandle h) as [info|]; [|apply Hsame in E as [-> ->]; done]. clear Hsame.
  set (fits := fun id => _) in E. pose proof (erase_first_spec fits (mPlaneIdPool x)) as Hsp.
  destruct (erase_first fits (mPlaneIdPool x)) as [[p|] r]; cbn [default from_option id] in E.
  - destruct Hsp as (Hfit & l1 & l2 & Hl & Hr).
    assert (0 < p) as Hp.
    { unfold fits in Hfit. destruct (find_plane p (mPlanes x)) as [q|] eqn:Eq; [|done].
      apply find_some in Eq as [Hq Hid%Z.eqb_eq]. subst p. by apply (ok_plane x Hxok), list_elem_of_In. }
    destruct (Z.ltb_spec 0 p); [|lia]. injection E as <- <-. pose proof (ok_pool x Hxok) as Hnd. rewrite Hl in Hnd.
    apply NoDup_app in Hnd as (Hn1 & Hn12 & Hn2). apply NoDup_cons in Hn2 as [Ht2 Hn2]. split.
    + apply drm_ok_display; [done|]. apply with_pool_ok; [done|]. rewrite Hr. apply NoDup_app. split_and!; [done| |done].
      intros z Hz Hz2. apply (Hn12 z Hz). by right.
    + exists l1, l2. rewrite Hfree. split; [done|]. unfold drm_free. cbn. by rewrite lookup_insert_eq.
  - destruct Hsp as [-> _]. cbn in E. injection E as <- <-. split; [apply drm_ok_display; [done|apply with_pool_ok; [done|by apply Hxok]]|].
    unfold drm_free. cbn. by rewrite lookup_insert_eq, Hx.
Qed.

(** Choosing planes leaves the caches alone. *)
Lemma caches_keep c c' : (forall t, cache_of t c' = cache_of t c) ->
  (forall bs, caches_ok c bs -> caches_ok c' bs) /\ (forall t n, in_cache c' t n -> in_cache c t n).
Proof. intros Hc. split; [intros bs Hb; by apply (caches_same c)|]. intros t n (ca & k & Hca & Hk). rewrite Hc in Hca. by exists ca, k. Qed.

Lemma drm_prepare_keeps d b c : let c' := (drm_prepareDrmPlanesForValidate d b c).2 in
  (forall bs, caches_ok c bs -> caches_ok c' bs) /\ (forall t n, in_cache c' t n -> in_cache c t n).
Proof.
  apply caches_keep. intros t. unfold drm_prepareDrmPlanesForValidate. destruct (mDisplays c !! d) as [x|]; [|done].
  destruct (buildPlaneIdPool x) as [? ?]. case_match; by destruct t.
Qed.

Lemma drm_plane_keeps d h c : let c' := (drm_getPlaneForLayerBuffer d h c).2 in
  (forall bs, caches_ok c bs -> caches_ok c' bs) /\ (forall t n, in_cache c' t n -> in_cache c t n).
Proof.
  apply caches_keep. intros t. unfold drm_getPlaneForLayerBuffer. destruct (mDisplays c !! d) as [x|]; [|done].
  destruct h as [h|]; [|done]. repeat case_match; by destruct t.
Qed.

(** *** Frames, targets and metadata *)

Lemma drm_clean_ok d n c c' : drm_partialCleanCacheBuffer n c = Some c' -> drm_ok d c ->
  drm_ok d c' /\ (forall bs, caches_ok c bs -> caches_ok c' bs) /\ (forall t m, in_cache c' t m -> in_cache c t m).
Proof.
  intros E Hok. unfold drm_partialCleanCacheBuffer in E.
  destruct (mPlaneBufferCache c) as [cache|] eqn:Ec; [|by injection E as <-]. destruct (_ <? _)%nat; [|by injection E as <-].
  destruct (n <? _); [|injection E as <-; split_and!; [done|intros bs Hb; apply (caches_same c)|intros t m Ht; exact Ht]; [by intros []|done]].
  destruct (_ <? c_now c); [|by injection E as <-].
  destruct (LruCache.partialClearCache cache _) as [cache'|] eqn:Ep; cbn [mbind option_bind] in E; [|done]. injection E as <-.
  assert (forall t, cache_of t (with_caches (with_times c (mLastPlaneBufferPresentTime c) n (mCheckOverlayTime c)) (mFramebufferCache c) (Some cache'))
    = cache_of t (with_cache DRM_BUFFER_PLANE c cache')) as Hsame by by intros [].
  split; [done|]. split.
  - intros bs Hb. apply (caches_same (with_cache DRM_BUFFER_PLANE c cache')); [done|].
    destruct (cache_partial cache bs _ cache' (cs_cache _ _ Hb DRM_BUFFER_PLANE cache Ec) Ep) as [Hca Hin].
    eapply (caches_with c bs bs DRM_BUFFER_PLANE cache cache' 0 (length bs)); [done|done|apply Hb|done|by auto|].
    intros t' Hn. pose proof (in_cache_bound _ _ _ _ Hb Hn). lia.
  - intros t m (ca & k & Hca & Hk). rewrite Hsame, (cache_of_with _ _ _ _ cache) in Hca by done.
    destruct (decide (t = DRM_BUFFER_PLANE)) as [->|]; [|by exists ca, k]. injection Hca as <-. exists cache, k. split; [done|].
    unfold LruCache.partialClearCache in Ep. destruct (decide _); [|done]. injection Ep as <-.
    unfold LruCache.abs in *. cbn in Hk. rewrite fmap_take in Hk. eapply elem_of_take in Hk as (i & Hi & _). by eapply list_elem_of_lookup_2.
Qed.

Lemma drm_ok_on_displays d e f c : drm_ok d c -> (forall x, display_ok x -> display_ok (f x)) -> drm_ok d (on_displays e f c).
Proof.
  intros ((x & Hx & Hxok) & Ht & Hm) Hf. split_and!; [|done|lia..]. unfold on_displays. cbn. destruct (decide (d = e)) as [->|].
  - exists (f x). rewrite lookup_alter_eq, Hx. by split; [|apply Hf].
  - exists x. by rewrite lookup_alter_ne.
Qed.

Lemma hdr_blob_ok blob x : display_ok x -> display_ok (setHdrMetadataBlobId blob x).
Proof. intros [? ? ? ? ? ? ? ? ?]. by split. Qed.

Lemma drm_hdr_ok d m c : drm_ok d c ->
  drm_ok d (drm_setHdrMetadata d m c) /\ (forall bs, caches_ok c bs -> caches_ok (drm_setHdrMetadata d m c) bs) /\
  (forall t n, in_cache (drm_setHdrMetadata d m c) t n -> in_cache c t n).
Proof.
  intros Hok.
  assert ((forall t, cache_of t (drm_setHdrMetadata d m c) = cache_of t c) /\ drm_ok d (drm_setHdrMetadata d m c)) as [Hc Hok'].
  { unfold drm_setHdrMetadata. destruct (mDisplays c !! d); [|done]. destruct (mHdrMetadatas c !! d) as [[prev blob]|], m as [m|].
    - destruct (prev =? m); [done|]. destruct (drmModeCreatePropertyBlob _ _); [|by split; [intros []|]].
      split; [by intros []|]. apply drm_ok_on_displays; [done|apply hdr_blob_ok].
    - split; [by intros []|]. apply drm_ok_on_displays; [done|apply hdr_blob_ok].
    - destruct (drmModeCreatePropertyBlob _ _); [|by split; [intros []|]].
      split; [by intros []|]. apply drm_ok_on_displays; [done|apply hdr_blob_ok].
    - done. }
  split; [done|]. split; [intros bs Hb; by apply (caches_same c)|]. intros t n (ca & k & Hca & Hk). rewrite Hc in Hca. by exists ca, k.
Qed.

Lemma prepare_frames made w h f n secure acc ok l made' : prepareDeviceFrameBuffer made w h f n secure acc = (ok, l, made') ->
  ok = true -> length l = (length acc + n)%nat.
Proof.
  revert made acc. induction n as [|n IH]; intros made acc E Hok; cbn in E; [injection E as _ <- _; lia|].
  destruct (allocate _ _ _ _ _) as [b|]; [|by injection E as <- _ _]. rewrite (IH _ _ E Hok), length_app. cbn. lia.
Qed.

Lemma drm_ok_targets d c e t : drm_ok d c -> 
  (forall i u, t !! i = Some u -> length (tg_handles u) = mMaxComposerTargetsPerDisplay /\ 0 <= tg_index u < Z.of_nat mMaxComposerTargetsPerDisplay) ->
  drm_ok d (with_targets c t e).
Proof. intros (Hx & _ & Hm) Ht. split; [done|by split]. Qed.

Lemma drm_target_ok d b made c : drm_ok d c ->
  exists r made' c', drm_getComposerTarget d b (made, c) = Some (r, (made', c')) /\ drm_ok d c' /\
    (forall bs, caches_ok c bs -> caches_ok c' bs) /\ (forall t m, in_cache c' t m -> in_cache c t m) /\ r <> inl NoError.
Proof.
  intros Hok. pose proof Hok as ((x & Hx & Hxok) & Ht & Hm). unfold drm_getComposerTarget. rewrite Hx.
  assert (forall (r : Error + Z) (made' : nat) c', (forall t, cache_of t c' = cache_of t c) -> drm_ok d c' -> r <> inl NoError ->
    exists r0 made0 c0, Some (r, (made', c')) = Some (r0, (made0, c0)) /\ drm_ok d c0 /\ (forall bs, caches_ok c bs -> caches_ok c0 bs) /\
      (forall t m, in_cache c0 t m -> in_cache c t m) /\ r0 <> inl NoError) as Hend.
  { intros r made' c' Hc Hok' Hr. exists r, made', c'. split_and!; [done|done|intros bs Hb; by apply (caches_same c)| |done].
    intros t m (ca & k & Hca & Hk). rewrite Hc in Hca. by exists ca, k. }
  set (c1 := match mComposerTargets c !! d with Some t => _ | None => c end).
  assert ((forall t, cache_of t c1 = cache_of t c) /\ drm_ok d c1) as [Hc1 Hok1].
  { unfold c1. destruct (mComposerTargets c !! d); [|done]. split; [by intros []|]. apply drm_ok_targets; [done|].
    intros i u [_ Hu]%lookup_delete_Some. by eapply Ht. }
  match goal with |- exists _ _ _, match _ with Some t => if _ then _ else ?f | None => _ end = _ /\ _ => set (fresh := f) end.
  assert (exists r made' c', fresh = Some (r, (made', c')) /\ drm_ok d c' /\ (forall bs, caches_ok c bs -> caches_ok c' bs) /\
    (forall t m, in_cache c' t m -> in_cache c t m) /\ r <> inl NoError) as Hfresh.
  { unfold fresh. destruct (getFramebufferInfo x) as [[w h] f].
    destruct (prepareDeviceFrameBuffer _ _ _ _ _ _ _) as [[ok handles] made'] eqn:Ep. destruct ok; [|by apply Hend].
    apply prepare_frames in Ep; [|done]. cbn in Ep. destruct handles as [|a handles]; [cbn in Ep; lia|]. cbn [head hd_error mbind option_bind].
    apply Hend; [intros t; rewrite <- Hc1; by destruct t| |done]. apply drm_ok_targets; [done|].
    intros i u [[_ <-]|[_ Hu]]%lookup_insert_Some; [cbn in *; lia|]. destruct Hok1 as (_ & Ht1 & _). by eapply Ht1. }
  destruct (mComposerTargets c !! d) as [t|] eqn:Et; [|done]. destruct (tg_valid t && _); [|done].
  destruct (Ht d t Et) as [Hlen Hi]. rewrite wrap_u_id by (unfold in_u; lia).
  set (index := if _ <=? _ then 0 else _). assert (0 <= index < Z.of_nat mMaxComposerTargetsPerDisplay) as Hidx.
  { unfold index. destruct (Z.leb_spec (Z.of_nat mMaxComposerTargetsPerDisplay) (tg_index t + 1)); lia. }
  destruct (lookup_lt_is_Some_2 (tg_handles t) (Z.to_nat index)) as [a Ha]; [lia|]. rewrite Ha. cbn [mbind option_bind].
  apply Hend; [by intros []| |done]. apply drm_ok_targets; [done|]. intros i u [[_ <-]|[_ Hu]]%lookup_insert_Some; [done|by eapply Ht].
Qed.

Lemma age_planes_ok d n c bs : drm_ok d c -> caches_ok c bs ->
  drm_ok d (age_planes n c) /\ caches_ok (age_planes n c) bs /\ mDisplays (age_planes n c) = mDisplays c.
Proof.
  intros Hok Hb. unfold age_planes. destruct (mPlaneBufferCache c) as [cache|] eqn:Ec; [|done]. destruct (_ <? _)%nat; [|done].
  destruct (_ <? n)%nat; [split_and!; [done|apply (caches_same c); [by intros []|done]|done]|].
  destruct (_ <? c_now c); [|done]. split_and!; [done| |done].
  apply (caches_same (with_cache DRM_BUFFER_PLANE c (LruCache.clear cache))); [by intros []|].
  destruct (cs_cache _ _ Hb DRM_BUFFER_PLANE cache Ec) as [Hwf Hs He].
  eapply (caches_with c bs bs DRM_BUFFER_PLANE cache (LruCache.clear cache) 0 (length bs)); [done|done|apply Hb| | |].
  - split; [apply LruCache.wf_clear|done|]. by intros k n' ?%elem_of_nil.
  - by intros e ?%elem_of_nil.
  - intros t' Hn. pose proof (in_cache_bound _ _ _ _ Hb Hn). lia.
Qed.

Lemma drm_flush_ok d b bs c : drm_ok d c -> caches_ok c bs -> flushable bs b ->
  exists e c', drm_flushToDisplay d b bs c = Some (e, c') /\ drm_ok d c' /\ caches_ok c' bs.
Proof.
  intros Hok Hb Hf. pose proof Hok as ((x & Hx & Hxok) & _). unfold drm_flushToDisplay. rewrite Hx.
  destruct (age_planes_ok d (size (planeDrmBuffer b)) c bs Hok Hb) as (Hok1 & Hb1 & Hd1). set (c1 := age_planes _ c) in *.
  destruct (negb _); [by exists NoError, c1|].
  destruct (flush_display_defined (drmModeAtomicCommit (c_calls c1)) b bs x Hxok Hf) as (e & r & x' & -> & Hx'). cbn [mbind option_bind].
  set (c2 := with_displays (called c1) _). assert (drm_ok d c2) as Hok2 by by apply (drm_ok_display d (called c1)).
  assert (caches_ok c2 bs) as Hb2 by (apply (caches_same c1); [by intros []|done]).
  destruct r; eexists _, _; (split; [done|]); [|done]. split; [|by apply (caches_same c2); [intros []|]].
  apply drm_ok_targets; [done|]. apply Hok2.
Qed.
Lemma caches_handles c bs bs' : caches_ok c bs -> db_handle <$> bs' = db_handle <$> bs -> caches_ok c bs'.
Proof. intros [Hc Hone] E. split; [|exact Hone]. intros t cache Hca. eapply cache_same; [by eapply Hc|done]. Qed.

Lemma in_cache_type c bs t t' n : caches_ok c bs -> in_cache c t n -> in_cache c t' n -> t = t'.
Proof. intros [_ Hone] (ca & k & Hca & Hk) (ca' & k' & Hca' & Hk'). by eapply (Hone t t' ca ca'). Qed.
End Laws.

(** A client of a DRM device keeps the laws of the interface. *)
#[global] Instance drm_laws `{!HwcAbi, !DeviceComposerOps, !DrmKernel} : DeviceClientLaws DrmClient := {
  client_ok := drm_ok;
  free_planes := drm_free;
  check_defined := drm_check_defined;
  prepare_ok := drm_prepare_ok;
  plane_ok := drm_plane_ok;
  buffer_key := drm_key;
  cached := in_cache;
  buffers_ok := caches_ok;
  create_ok := drm_create_ok;
  clean_ok := drm_clean_ok;
  hdr_ok := drm_hdr_ok;
  target_ok := drm_target_ok;
  flush_ok := drm_flush_ok;
  prepare_keeps := drm_prepare_keeps;
  plane_keeps := drm_plane_keeps;
  buffers_same := caches_handles;
  cached_type := in_cache_type;
  cached_bound := in_cache_bound
}.

(** ** The targets of the 2D engine *)

Section Targets.
Context `{!HwcAbi, !DeviceComposerOps, !DrmKernel}.

(** [k] more targets are asked for. *)
Fixpoint ask_targets (k : nat) (d : Z) (secure : bool) (s : nat * DrmClient) : option (list (Error + Z) * (nat * DrmClient)) :=
  match k with
  | O => Some ([], s)
  | S k' => '(r, s) ← drm_getComposerTarget d secure s; '(rs, s) ← ask_targets k' d secure s; Some (r :: rs, s)
  end.

(** As long as security and size stay, the targets of a display are used in turn, so that a target is not used again
    before all others have been. *)
Lemma targets_rotate k d secure made c t : is_Some (mDisplays c !! d) -> mComposerTargets c !! d = Some t ->
  tg_valid t = true -> tg_security t = secure -> targets_ok c -> Z.of_nat mMaxComposerTargetsPerDisplay < 2 ^ 32 - 1 ->
  exists c', ask_targets k d secure (made, c) =
    Some ((fun i => inr (nth (Z.to_nat ((tg_index t + 1 + Z.of_nat i) mod Z.of_nat mMaxComposerTargetsPerDisplay)) (tg_handles t) 0)) <$> seq 0 k,
          (made, c')).
Proof.
  set (n := Z.of_nat mMaxComposerTargetsPerDisplay). intros Hd Ht Hv Hs Hok Hn.
  revert c t Hd Ht Hv Hs Hok. induction k as [|k IH]; intros c t Hd Ht Hv Hs Hok; [by exists c|].
  destruct (Hok d t Ht) as [Hlen Hi]. fold n in Hi. destruct Hd as [x Hx]. cbn [ask_targets].
  set (index := (tg_index t + 1) mod n). assert (0 <= index < n) as Hidx by (apply Z.mod_pos_bound; lia).
  set (t' := mkTargets (tg_handles t) index (tg_security t) (tg_valid t)).
  set (c1 := with_targets c (<[d := t']> (mComposerTargets c)) (mExpiredTargets c)).
  assert (drm_getComposerTarget d secure (made, c) = Some (inr (nth (Z.to_nat index) (tg_handles t) 0), (made, c1))) as ->.
  { unfold drm_getComposerTarget. rewrite Hx, Ht, Hv, Hs, eqb_reflx. cbn [andb]. rewrite wrap_u_id by (unfold in_u; lia). fold n.
    assert ((if n <=? tg_index t + 1 then 0 else tg_index t + 1) = index) as ->.
    { unfold index. destruct (Z.leb_spec n (tg_index t + 1)).
      - assert (tg_index t + 1 = n) as -> by lia. by rewrite Z.mod_same by lia.
      - by rewrite Z.mod_small by lia. }
    destruct (lookup_lt_is_Some_2 (tg_handles t) (Z.to_nat index)) as [a Ha]; [lia|]. rewrite Ha. cbn [mbind option_bind].
    rewrite nth_lookup, Ha. unfold c1, t'. by rewrite Hv, Hs. }
  cbn [mbind option_bind]. destruct (IH c1 t') as [c' ->].
  - by exists x.
  - apply lookup_insert_eq.
  - done.
  - done.
  - intros i u Hu. cbn in Hu. apply lookup_insert_Some in Hu as [[_ <-]|[_ Hu]]; [done|by eapply Hok].
  - exists c'. cbn [mbind option_bind seq]. rewrite fmap_cons, Z.add_0_r, <- fmap_S_seq, <- list_fmap_compose. fold index. do 3 f_equal.
    apply list_fmap_ext. intros i j _. cbn. unfold index, n. do 3 f_equal. rewrite <- Z.add_assoc, Z.add_mod_idemp_l by lia. f_equal. lia.
Qed.

(** Targets that are replaced while older ones wait for their frame are freed by nobody. *)
Lemma expired_targets_lost d secure made c t old r made' c' : mComposerTargets c !! d = Some t -> mExpiredTargets c !! d = Some old ->
  tg_security t <> secure -> drm_getComposerTarget d secure (made, c) = Some (inr r, (made', c')) ->
  mExpiredTargets c' !! d = Some old /\ exists t', mComposerTargets c' !! d = Some t' /\ tg_security t' = secure.
Proof.
  intros Ht Hold Hs. unfold drm_getComposerTarget. destruct (mDisplays c !! d) as [x|]; [|done]. rewrite Ht.
  destruct (tg_valid t && _) eqn:E; [apply andb_true_iff in E as [_ E%eqb_prop]; done|]. rewrite Hold.
  destruct (getFramebufferInfo x) as [[w h] f]. destruct (prepareDeviceFrameBuffer _ _ _ _ _ _ _) as [[ok l] m].
  destruct ok; [|done]. destruct (head l) as [a|]; cbn [mbind option_bind]; [|done]. intros [= <- <- <-]. cbn. split; [done|].
  eexists. split; [apply lookup_insert_eq|done].
Qed.

(** ** What is not as it should be *)

(** Half a second after the overlays became fewer, six buffers for each are kept; if the cache has not that many, the end of
    its list is passed. *)
Lemma partial_clear_undefined n c cache : mPlaneBufferCache c = Some cache -> (0 < LruCache.getSize cache)%nat ->
  0 <= n < 2 ^ 16 -> n < mLastOverlayCount c -> mCheckOverlayTime c + 500000000 < c_now c ->
  (length (LruCache.m_elements cache) < Z.to_nat (6 * n))%nat -> drm_partialCleanCacheBuffer n c = None.
Proof.
  intros Hc Hs Hn Hl Ht Hlen. unfold drm_partialCleanCacheBuffer. rewrite Hc. destruct (Nat.ltb_spec 0 (LruCache.getSize cache)); [|lia].
  destruct (Z.ltb_spec n (mLastOverlayCount c)); [|lia]. destruct (Z.ltb_spec (mCheckOverlayTime c + 500000000) (c_now c)); [|lia].
  rewrite wrap_u_id by (unfold in_u; lia). unfold LruCache.partialClearCache. by rewrite decide_False by lia.
Qed.

(** The end of HDR leaves an entry, with the blob 0; the next end of HDR is not ignored. *)
Lemma hdr_end_leaves_entry d c m : is_Some (mDisplays c !! d) -> mHdrMetadatas c !! d = Some m ->
  mHdrMetadatas (drm_setHdrMetadata d None c) !! d = Some (0, 0).
Proof.
  intros [x Hx] Hm. unfold drm_setHdrMetadata. rewrite Hx, Hm. destruct m. apply lookup_insert_eq.
Qed.
End Targets.

(** ** An example *)

Section Demo.
#[local] Instance demo_abi : HwcAbi := {
  getInfoFromHandle h := Some (mkInfo h 64 64 100 875713112 0 0);
  PixelFormat_RGBA_8888 := 1; PixelFormat_BGRA_8888 := 5; USAGE_PROTECTED := 16384; USAGE_PRIVATE_3 := 8;
  USAGE_HW_COMPOSER := 2048; USAGE_HW_FB := 4096; MOD_AMPHION_TILED := 1; FORMAT_R8 := 2; FORMAT_NV12 := 3;
  FORMAT_ABGR2101010 := 4; FORMATS_64 := []; FORMATS_32 := []; DATASPACE_RANGE_MASK := 939524096;
  DATASPACE_RANGE_FULL := 134217728; TRANSFORM_NONE := 0
}.
#[local] Instance demo_composer : DeviceComposerOps := {
  g2d_isValid := true; G2D_LIMITATION_PXP := false; G2D_LIMITATION_VIV := true; mG2dPrefered := true; rotationCap := true;
  allocate n _ _ _ _ := Some (1000 + Z.of_nat n)
}.
#[local] Instance demo_kernel : DrmKernel := {
  IsOverlayUserDisabled := false; OVERLAY_LIMITATION_DCSS := true; OVERLAY_LIMITATION_DPU := false;
  mMaxComposerTargetsPerDisplay := 3; drmPrimeFDToHandle fd := Some (fd + 1); drmModeAddFB2 n _ := Some (500 + Z.of_nat n);
  drmModeCreatePropertyBlob n _ := Some (900 + Z.of_nat n); drmModeAtomicCommit _ _ := 0
}.

Definition demo_client : DrmClient :=
  mkClient {[0 := display_new 0 0 two_modes 5 false [] 1]} (LruCache.lru_new 3) (Some (LruCache.lru_new 18)) 0
    {[0 := mkTargets [11; 12; 13] 1 false true]} ∅ ∅ ∅ 0 0 0 0.

(** Two layers with the same buffer share one DRM buffer: the second moves the first. *)
Lemma shared_buffer_moves :
  let f1 := mkRect 0 0 64 64 in let f2 := mkRect 100 0 164 64 in
  exists c1 bs1 c2 bs2, drm_create (Some 7) f1 f1 DRM_BUFFER_PLANE (demo_client, []) = Some (Some 0%nat, (c1, bs1)) /\
    db_frame <$> bs1 !! 0%nat = Some f1 /\
    drm_create (Some 7) f2 f1 DRM_BUFFER_PLANE (c1, bs1) = Some (Some 0%nat, (c2, bs2)) /\ db_frame <$> bs2 !! 0%nat = Some f2.
Proof. eexists _, _, _, _. split_and!; vm_compute; reflexivity. Qed.
End Demo.
