(* ===== verification/HwcEdid.v ===== *)
(** * display/hwcomposer3/Edid.{h,cpp}: the EDID parser of the composer

    The parser of [Edid] (libedid) over the bytes a display was given: it stops
    at the size of the blob, counts the HDR types, and turns the metadata of a
    layer into the structure the kernel takes.  The functions the two files
    share word for word are those of [Edid]. *)

From S2P Require Import Prelude CppText Edid.

(** The metadata [hdr_output_metadata] the kernel takes, all in 16 bits: the EOTF, the
    coordinates of the primaries and of the white point, and the four luminances (its two type members
    are always 0 and 1). *)
Record HdrOutput := mkHdrOutput { ho_eotf : Z; ho_fields : list Z }.

(** The keys in the order of the fields they set. *)
Inductive PerFrameMetadataKey :=
  | DISPLAY_RED_PRIMARY_X | DISPLAY_RED_PRIMARY_Y | DISPLAY_GREEN_PRIMARY_X | DISPLAY_GREEN_PRIMARY_Y
  | DISPLAY_BLUE_PRIMARY_X | DISPLAY_BLUE_PRIMARY_Y | WHITE_POINT_X | WHITE_POINT_Y
  | MAX_LUMINANCE | MIN_LUMINANCE | MAX_CONTENT_LIGHT_LEVEL | MAX_FRAME_AVERAGE_LIGHT_LEVEL | HDR10_PLUS_SEI.

Definition key_field (k : PerFrameMetadataKey) : option nat :=
  match k with
  | DISPLAY_RED_PRIMARY_X => Some 0 | DISPLAY_RED_PRIMARY_Y => Some 1 | DISPLAY_GREEN_PRIMARY_X => Some 2
  | DISPLAY_GREEN_PRIMARY_Y => Some 3 | DISPLAY_BLUE_PRIMARY_X => Some 4 | DISPLAY_BLUE_PRIMARY_Y => Some 5
  | WHITE_POINT_X => Some 6 | WHITE_POINT_Y => Some 7 | MAX_LUMINANCE => Some 8 | MIN_LUMINANCE => Some 9
  | MAX_CONTENT_LIGHT_LEVEL => Some 10 | MAX_FRAME_AVERAGE_LIGHT_LEVEL => Some 11 | HDR10_PLUS_SEI => None
  end%nat.

(** [metadata * 50000] and the like, in [float]. *)
Definition key_factor (k : PerFrameMetadataKey) : option Z :=
  match k with
  | MAX_LUMINANCE | MAX_CONTENT_LIGHT_LEVEL | MAX_FRAME_AVERAGE_LIGHT_LEVEL | HDR10_PLUS_SEI => None
  | MIN_LUMINANCE => Some 10000
  | _ => Some 50000
  end.

(** The codes of the data space: [HAL_DATASPACE_TRANSFER_MASK] and [HAL_DATASPACE_TRANSFER_HLG]. *)
Class DataspaceAbi := { HAL_DATASPACE_TRANSFER_MASK : Z; HAL_DATASPACE_TRANSFER_HLG : Z }.

Record HwcEdid := mkHwcEdid { he_edid : Edid; mNumTypes : Z }.

Section Parser.
Context `{!HdrAbi, !DataspaceAbi}.

(** The search from block [i] on, [n] blocks to go, in a blob of [size] bytes. *)
Fixpoint hwc_find_cea (m : list Z) (size i : Z) (n : nat) : option (option Z) :=
  match n with
  | O => Some None
  | S n =>
      if size <? ⟦EDID_LENGTH * (i + 1)⟧u 32 then Some None
      else
        let edidExt := EDID_LENGTH * i in
        valid ← isEdidValid m (Some edidExt);
        if negb valid then Some None
        else
          tag ← arr_get m edidExt;
          if negb (tag =? CEA_EXTENSION) then hwc_find_cea m size (i + 1) n else Some (Some edidExt)
  end.

Definition hwc_getCeaExtensionData (m : list Z) (size : Z) : option (option Z) :=
  extension_num ← arr_get m EXTENSION_NUM;
  hwc_find_cea m size 1 (Z.to_nat extension_num).

Definition type_count (e : Z) : option Z :=
  types ← getHdrSupportTypes (mkEdid true (mkHdr e (byte_float 0) (byte_float 0) (byte_float 0)) true []);
  Some (Z.of_nat (length types)).

(** The body of the loop: the types are counted again at every HDR block. *)
Definition hwc_cea_block (m : list Z) (db : Z) (st : hdr_state * Z) : option (Z * (hdr_state * Z)) :=
  '(len, st') ← cea_block m db st.1;
  hdr ← isHdrMetadataBlock m db;
  if (hdr : bool) then n ← type_count (eotf st'.2); Some (len, (st', n)) else Some (len, (st', st.2)).

Fixpoint hwc_cea_loop (fuel : nat) (m : list Z) (p i ceaDbLen : Z) (st : hdr_state * Z) : option (option (hdr_state * Z)) :=
  if i <? ceaDbLen then
    match fuel with
    | O => None
    | S fuel =>
        match hwc_cea_block m (p + i) st with
        | None => Some None
        | Some (len, st') => hwc_cea_loop fuel m p (i + (len + 1)) ceaDbLen st'
        end
    end
  else Some (Some st).

Definition hwc_parseCeaExtData (m : list Z) (edidExt : option Z) (st : hdr_state * Z) : option (hdr_state * Z) :=
  valid ← isEdidValid m edidExt;
  if negb valid then Some st
  else
    p ← edidExt;
    ceaDbLen ← arr_get m (p + 2);
    default None (hwc_cea_loop (Z.to_nat (ceaDbLen - 4)) m p 4 ceaDbLen st).

(** The constructor; the data of an empty vector may be a null pointer. *)
Definition hwc_edid_new (m junk : list Z) : option HwcEdid :=
  let data := match m with [] => None | _ => Some 0 end in
  let init := edid_init junk in
  valid ← isEdidValid m data;
  if (valid : bool) then
    edidExt ← hwc_getCeaExtensionData m (⟦Z.of_nat (length m)⟧u 32);
    '((supported, h), n) ← (match edidExt with
                            | Some _ => hwc_parseCeaExtData m edidExt ((false, mHdrMetaData init), 0)
                            | None => Some ((false, mHdrMetaData init), 0)
                            end);
    raw ← arr_copy junk 0 m (Z.to_nat EDID_LENGTH);
    Some (mkHwcEdid (mkEdid supported h true raw) n)
  else Some (mkHwcEdid init 0).

Definition getHdrTypeCount (s : HwcEdid) : Z := mNumTypes s.

(** The luminances and the types. *)
Definition getHdrCapabilities (s : HwcEdid) : option (HdrMetaData * list Z) :=
  types ← getHdrSupportTypes (he_edid s); Some (mHdrMetaData (he_edid s), types).

Definition getPerFrameMetadataKeys : list PerFrameMetadataKey :=
  [DISPLAY_RED_PRIMARY_X; DISPLAY_RED_PRIMARY_Y; DISPLAY_GREEN_PRIMARY_X; DISPLAY_GREEN_PRIMARY_Y;
   DISPLAY_BLUE_PRIMARY_X; DISPLAY_BLUE_PRIMARY_Y; WHITE_POINT_X; WHITE_POINT_Y;
   MAX_LUMINANCE; MIN_LUMINANCE; MAX_CONTENT_LIGHT_LEVEL; MAX_FRAME_AVERAGE_LIGHT_LEVEL].

(** The field of a key gets its value, scaled and cut to [uint16_t]; out of its range that is undefined. *)
Definition set_metadata (k : PerFrameMetadataKey) (value : spec_float) (h : HdrOutput) : option HdrOutput :=
  match key_field k with
  | None => Some h
  | Some i =>
      let scaled := match key_factor k with Some f => Binary32.mul value (Binary32.of_Z f) | None => value end in
      z ← SF_trunc scaled;
      v ← checked_u 16 z;
      Some (mkHdrOutput (ho_eotf h) (<[i := v]> (ho_fields h)))
  end.

(** The elements of the vector are optional, and read without a test. *)
Fixpoint set_all_metadata (l : list (option (PerFrameMetadataKey * spec_float))) (h : HdrOutput) : option HdrOutput :=
  match l with
  | [] => Some h
  | None :: _ => None
  | Some (k, v) :: l' => h ← set_metadata k v h; set_all_metadata l' h
  end.

(** Fields without a key keep what they have. *)
Definition setPerFrameMetadata (l : list (option (PerFrameMetadataKey * spec_float))) (dataspace : Z) (h : HdrOutput) : option HdrOutput :=
  set_all_metadata l
    (mkHdrOutput (if HAL_DATASPACE_TRANSFER_HLG =? Z.land dataspace HAL_DATASPACE_TRANSFER_MASK then BT_2100_HLG else SMPTE_ST2084)
       (ho_fields h)).
End Parser.

(** *** As a number

    The fields as digits of 16 bits, the form in which a layer keeps the structure. *)
Definition metadata_pack (h : HdrOutput) : Z := foldr (fun x acc => x + 2 ^ 16 * acc) 0 (ho_eotf h :: ho_fields h).

Fixpoint digits16 (n : nat) (z : Z) : list Z :=
  match n with O => [] | S n' => z mod 2 ^ 16 :: digits16 n' (z / 2 ^ 16) end.

Definition metadata_unpack (z : Z) : HdrOutput := mkHdrOutput (z mod 2 ^ 16) (digits16 12 (z / 2 ^ 16)).

(** ** Properties *)

Lemma metadata_pack_unpack h : in_u 16 (ho_eotf h) -> length (ho_fields h) = 12%nat -> Forall (in_u 16) (ho_fields h) ->
  metadata_unpack (metadata_pack h) = h.
Proof.
  destruct h as [e l]. cbn. unfold in_u. intros He Hl Hf. unfold metadata_unpack, metadata_pack. cbn [foldr ho_eotf ho_fields].
  rewrite (Z.mul_comm (2 ^ 16)), Z.mod_add, Z.mod_small, Z.div_add, Z.div_small by lia. f_equal. rewrite Z.add_0_l, <- Hl. clear Hl.
  induction Hf as [|x l Hx _ IH]; cbn [digits16 foldr length]; [done|].
  rewrite (Z.mul_comm (2 ^ 16)), Z.mod_add, Z.mod_small, Z.div_add, Z.div_small by (unfold in_u in Hx; lia). by rewrite Z.add_0_l, IH.
Qed.

Section Safe.
Context `{!HdrAbi, !DataspaceAbi}.

(** The two EOTF codes are bits of a byte. *)
Class HdrCodes := { hdr_smpte : 0 <= SMPTE_ST2084 < 8; hdr_hlg : 0 <= BT_2100_HLG < 8 }.

Lemma type_count_Some `{!HdrCodes} e : exists n, type_count e = Some n /\ 0 <= n <= 2.
Proof.
  pose proof hdr_smpte. pose proof hdr_hlg. unfold type_count, getHdrSupportTypes, hdrTable. cbn. unfold bit32.
  rewrite !decide_True by lia. cbn. eexists. split; [done|]. repeat case_match; cbn; lia.
Qed.

Lemma hwc_find_cea_Some m : Z.of_nat (length m) < 2 ^ 31 -> forall n i, 1 <= i -> EDID_LENGTH * (i + Z.of_nat n) < 2 ^ 31 ->
  exists r, hwc_find_cea m (Z.of_nat (length m)) i n = Some r /\
    forall p, r = Some p -> exists j, 1 <= j /\ p = EDID_LENGTH * j /\ p + EDID_LENGTH <= Z.of_nat (length m).
Proof.
  unfold EDID_LENGTH. intros Hm. induction n as [|n IH]; intros i Hi Hb; cbn [hwc_find_cea]; [by exists None|].
  unfold EDID_LENGTH. rewrite wrap_u_id by (unfold in_u; lia). destruct (Z.ltb_spec (Z.of_nat (length m)) (128 * (i + 1))); [by exists None|].
  destruct (isEdidValid_Some m (128 * i)) as [v Hv]; [unfold EDID_LENGTH; lia..|]. rewrite Hv. cbn [mbind option_bind].
  destruct v; cbn [negb]; [|by exists None]. destruct (proj2 (arr_get_is_Some m (128 * i)) ltac:(lia)) as [t Ht]. rewrite Ht.
  cbn [mbind option_bind]. destruct (t =? CEA_EXTENSION); cbn [negb]; [|apply IH; lia].
  eexists. split; [done|]. intros p [= <-]. exists i. lia.
Qed.

Lemma hwc_cea_loop_Some `{!HdrCodes} m p e : forall fuel i st, 0 <= p -> 0 <= i -> e <= 122 ->
  p + EDID_LENGTH <= Z.of_nat (length m) -> (Z.to_nat (e - i) <= fuel)%nat -> exists st', hwc_cea_loop fuel m p i e st = Some (Some st').
Proof.
  unfold EDID_LENGTH. induction fuel as [|fuel IH]; intros i st Hp Hi He Hl Hf; simpl; destruct (Z.ltb_spec i e); try lia; eauto.
  unfold hwc_cea_block. destruct (cea_block_Some m (p + i) st.1) as [[len st'] Hb]; [lia..|]. rewrite Hb. cbn [mbind option_bind].
  pose proof Hb as Hb'. unfold cea_block in Hb'. apply bind_Some in Hb' as (len' & _ & Hb'). apply bind_Some in Hb' as (hdr & Hhdr & _).
  rewrite Hhdr. cbn [mbind option_bind]. apply cea_block_len in Hb.
  destruct hdr; [|apply IH; lia]. destruct (type_count_Some (eotf st'.2)) as (n & -> & _). cbn [mbind option_bind]. apply IH; lia.
Qed.

Lemma hwc_parse_Some `{!HdrCodes} m r st :
  (forall p, r = Some p -> exists j, 1 <= j /\ p = EDID_LENGTH * j /\ p + EDID_LENGTH <= Z.of_nat (length m)) ->
  (forall j b, 1 <= j -> arr_get m (EDID_LENGTH * j + 2) = Some b -> b <= 122) -> is_Some (hwc_parseCeaExtData m r st).
Proof.
  intros Hp Hbound. unfold hwc_parseCeaExtData. destruct r as [p|]; [|eauto]. destruct (Hp p eq_refl) as (j & Hj & -> & Hl).
  destruct (isEdidValid_Some m (EDID_LENGTH * j)) as [v Hv]; [unfold EDID_LENGTH in *; lia..|]. rewrite Hv.
  cbn [mbind option_bind]. destruct v; cbn [negb]; [|eauto].
  destruct (proj2 (arr_get_is_Some m (EDID_LENGTH * j + 2))) as [b Hb]; [unfold EDID_LENGTH in *; lia|]. rewrite Hb. cbn [mbind option_bind].
  destruct (hwc_cea_loop_Some m (EDID_LENGTH * j) b (Z.to_nat (b - 4)) 4 st) as [st' ->]; [unfold EDID_LENGTH in *; lia|lia| |done|lia|eauto].
  by eapply Hbound.
Qed.

(** A blob of one block or more can be parsed whatever its base block announces, as long as no block's extension announces
    data blocks beyond byte 122. *)
Lemma hwc_edid_safe `{!HdrCodes} m junk : 128 <= Z.of_nat (length m) < 2 ^ 31 -> Forall (in_u 8) m -> length junk = 128%nat ->
  (forall j b, 1 <= j -> arr_get m (EDID_LENGTH * j + 2) = Some b -> b <= 122) -> is_Some (hwc_edid_new m junk).
Proof.
  intros Hm Hbytes Hjunk Hbound. unfold hwc_edid_new.
  replace (match m with [] => None | _ => Some 0 end) with (Some 0) by (destruct m; [cbn in Hm; lia|done]).
  destruct (isEdidValid_Some m 0) as [v Hv]; [unfold EDID_LENGTH; lia..|]. rewrite Hv. cbn [mbind option_bind]. destruct v; [|eauto].
  rewrite wrap_u_id by (unfold in_u; lia). unfold hwc_getCeaExtensionData.
  destruct (proj2 (arr_get_is_Some m EXTENSION_NUM) ltac:(unfold EXTENSION_NUM; lia)) as [n Hn]. rewrite Hn. cbn [mbind option_bind].
  assert (in_u 8 n) as Hn256.
  { unfold arr_get in Hn. case_decide; [|done]. by eapply Forall_lookup_1 in Hn. }
  unfold in_u in Hn256.
  destruct (hwc_find_cea_Some m ltac:(lia) (Z.to_nat n) 1) as (r & Hr & Hp); [lia|unfold EDID_LENGTH; lia|]. rewrite Hr. cbn [mbind option_bind].
  destruct (hwc_parse_Some m r ((false, mHdrMetaData (edid_init junk)), 0) Hp Hbound) as [[[sup h] c] Hparse].
  destruct r as [p|]; [rewrite Hparse|]; cbn [mbind option_bind]; unfold arr_copy;
    rewrite decide_True by (unfold EDID_LENGTH; lia); cbn; eauto.
Qed.
End Safe.

(** ** Examples *)

#[local] Instance demo_hdr : HdrAbi := {| SMPTE_ST2084 := 2; BT_2100_HLG := 3; HAL_HDR_HDR10 := 2; HAL_HDR_HLG := 3 |}.
#[local] Instance demo_dataspace : DataspaceAbi := {| HAL_DATASPACE_TRANSFER_MASK := Z.shiftl 31 22; HAL_DATASPACE_TRANSFER_HLG := Z.shiftl 8 22 |}.

(** The base block announces an extension that did not arrive: this parser stops where [Edid] reads on. *)
Example hwc_edid_short : hwc_edid_new demo_base (zeros 128) <> None /\ edid_new (demo_drm demo_base) (zeros 128) = None.
Proof. split; vm_compute; [discriminate|reflexivity]. Qed.

(** The two HDR types of the demonstration's block. *)
Example hwc_edid_types : (s ← hwc_edid_new demo_m (zeros 128); Some (getHdrTypeCount s, snd <$> getHdrCapabilities s)) = Some (1, Some [2]).
Proof. vm_compute. reflexivity. Qed.

(** A luminance of 70000 is not a [uint16_t], and a hole in the vector is read. *)
Example metadata_undefined :
  setPerFrameMetadata [Some (MAX_LUMINANCE, Binary32.of_Z 70000)] 0 (mkHdrOutput 0 (replicate 12 0)) = None /\
  setPerFrameMetadata [None] 0 (mkHdrOutput 0 (replicate 12 0)) = None.
Proof. split; vm_compute; reflexivity. Qed.
