(* ===== verification/HwcDisplay.v ===== *)
(** * display/hwcomposer3/Display.{h,cpp}, VsyncThread.cpp, Device.cpp: a display of the composer

    A [Display] owns the layers and the EDID parser, knows the configurations, drives
    the frame composer through validate, accept and present, and has a thread that
    sends the vertical syncs and takes late configuration changes into effect.  An
    operation runs on the display together with what all displays share ([Shared]):
    the frame composer with its stores of layers and buffers ([World]), the counter of
    layer ids, the store of parsers, the file of persistent values and the calls made
    back to the framework.  Layers and parsers are objects at addresses that are never
    used again; using an address that holds nothing is undefined ([None]).

    The steps of the thread and the operations interleave at the locks; what the
    hardware answers to a wait for a sync and the clock are arguments of the steps.  The
    HDCP thread and the dumps are left out. *)

From Stdlib Require Import Ascii String.
From S2P Require Import Prelude CppText Edid HwcEdid HwcLayer FrameComposer.

(** ** Enumerations of the interface *)

Inductive ColorMode :=
  | NATIVE | STANDARD_BT601_625 | STANDARD_BT601_625_UNADJUSTED | STANDARD_BT601_525 | STANDARD_BT601_525_UNADJUSTED
  | STANDARD_BT709 | DCI_P3 | SRGB | ADOBE_RGB | DISPLAY_P3 | BT2020 | BT2100_PQ | BT2100_HLG | DISPLAY_BT2020
  | UnknownColorMode (code : Z).

Inductive RenderIntent :=
  | COLORIMETRIC | ENHANCE | TONE_MAP_COLORIMETRIC | TONE_MAP_ENHANCE | UnknownIntent (code : Z).

Inductive PowerMode := OFF | DOZE | DOZE_SUSPEND | ON | ON_SUSPEND | UnknownPower (code : Z).

Inductive DisplayCapability := BRIGHTNESS | OtherCapability (code : Z).

#[global] Instance ColorMode_eq_dec : EqDecision ColorMode.
Proof. solve_decision. Defined.
#[global] Instance PowerMode_eq_dec : EqDecision PowerMode.
Proof. solve_decision. Defined.

Definition isValidColorMode (mode : ColorMode) : bool := match mode with UnknownColorMode _ => false | _ => true end.
Definition isValidRenderIntent (intent : RenderIntent) : bool := match intent with UnknownIntent _ => false | _ => true end.
Definition isValidPowerMode (mode : PowerMode) : bool := match mode with UnknownPower _ => false | _ => true end.

(** ** The vertical syncs *)

(** The next time after [now] that is a number of periods from the last one. *)
Definition GetNextVsyncInPhase (vsyncPeriod previousVsync now : Z) : option Z :=
  elapsed ← checked_s 64 (now - previousVsync);
  if vsyncPeriod =? 0 then None
  else
    nextMultiple ← checked_s 64 (Z.quot elapsed vsyncPeriod + 1);
    offset ← checked_s 64 (nextMultiple * vsyncPeriod);
    checked_s 64 (previousVsync + offset).

Record PendingUpdate := mkPending { pu_period : Z; pu_updateAfter : Z; pu_configId : Z }.

(** Where the thread is: before its first statement, at the head of the loop, asleep,
    before the lock with the time of the sync, and after it. *)
Inductive vsync_pc := NotStarted | Starting | Looking | Sleeping (until : Z) | Updating (vsyncTime : Z) | Notifying.

(** [vt_local] is the thread's own [vsyncPeriod]. *)
Record VsyncThread := mkVsync {
  vt_pc : vsync_pc; vt_local : Z; vt_callbacks : bool; mVsyncEnabled : bool; mVsyncPeriod : Z; mPreviousVsync : Z;
  mPendingUpdate : option PendingUpdate
}.

Definition vsync_new : VsyncThread := mkVsync NotStarted 0 false false 16600000 0 None.

Definition vt_at (v : VsyncThread) (pc : vsync_pc) : VsyncThread :=
  mkVsync pc (vt_local v) (vt_callbacks v) (mVsyncEnabled v) (mVsyncPeriod v) (mPreviousVsync v) (mPendingUpdate v).

Definition vsync_start (vsyncPeriodNanos now : Z) (v : VsyncThread) : option VsyncThread :=
  previous ← checked_s 64 (now - vsyncPeriodNanos);
  Some (mkVsync Starting (vt_local v) (vt_callbacks v) (mVsyncEnabled v) vsyncPeriodNanos previous (mPendingUpdate v)).

Definition vsync_setCallbacks (callback : bool) (v : VsyncThread) : VsyncThread :=
  mkVsync (vt_pc v) (vt_local v) callback (mVsyncEnabled v) (mVsyncPeriod v) (mPreviousVsync v) (mPendingUpdate v).

Definition vsync_setVsyncEnabled (enabled : bool) (v : VsyncThread) : VsyncThread :=
  mkVsync (vt_pc v) (vt_local v) (vt_callbacks v) enabled (mVsyncPeriod v) (mPreviousVsync v) (mPendingUpdate v).

Definition vt_with_period (v : VsyncThread) (period : Z) : VsyncThread :=
  mkVsync (vt_pc v) (vt_local v) (vt_callbacks v) (mVsyncEnabled v) period (mPreviousVsync v) (mPendingUpdate v).

Definition vt_with_pending (v : VsyncThread) (u : option PendingUpdate) : VsyncThread :=
  mkVsync (vt_pc v) (vt_local v) (vt_callbacks v) (mVsyncEnabled v) (mVsyncPeriod v) (mPreviousVsync v) u.

(** ** The display *)

Inductive PresentFlowState := WAITING_FOR_VALIDATE | WAITING_FOR_ACCEPT | WAITING_FOR_PRESENT.

Record Flow := mkFlow {
  mPresentFlowState : PresentFlowState; mPendingChanges : DisplayChanges; mLayers : gmap Z Z; mOrderedLayers : list Z
}.

Record Configs := mkConfigs { mActiveConfigId : option Z; mConfigs : gmap Z DisplayConfig }.

(** [mColorTransformHint] is whether it is the identity. *)
Record ColorState := mkColorState {
  mActiveColorMode : ColorMode; mColorTransform : option (list spec_float); mColorTransformHint : bool
}.

Record EdidState := mkEdidState { mEdid : list Z; mEdidParser : option Z; mIsLegacyEdid : bool }.

Record Display := mkDisplay {
  mId : Z; mDisplayId : Z; mPort : Z; mCallbacks : bool; mPowerMode : PowerMode; mVsyncStarted : bool;
  mVsyncThread : VsyncThread; mClientTarget : option Z; mReadbackBuffer : option Z; mExpectedPresentTime : option Z;
  d_flow : Flow; d_configs : Configs; d_color : ColorState; d_edid : EdidState; mDisplayCapabilities : list DisplayCapability
}.

Definition mColorModes : list ColorMode := [NATIVE].

Section Setters.
Variable d : Display.
Definition d_with_callbacks (b : bool) : Display :=
  mkDisplay (mId d) (mDisplayId d) (mPort d) b (mPowerMode d) (mVsyncStarted d) (mVsyncThread d) (mClientTarget d)
    (mReadbackBuffer d) (mExpectedPresentTime d) (d_flow d) (d_configs d) (d_color d) (d_edid d) (mDisplayCapabilities d).
Definition d_with_power (m : PowerMode) : Display :=
  mkDisplay (mId d) (mDisplayId d) (mPort d) (mCallbacks d) m (mVsyncStarted d) (mVsyncThread d) (mClientTarget d)
    (mReadbackBuffer d) (mExpectedPresentTime d) (d_flow d) (d_configs d) (d_color d) (d_edid d) (mDisplayCapabilities d).
Definition d_with_vsync (started : bool) (v : VsyncThread) : Display :=
  mkDisplay (mId d) (mDisplayId d) (mPort d) (mCallbacks d) (mPowerMode d) started v (mClientTarget d)
    (mReadbackBuffer d) (mExpectedPresentTime d) (d_flow d) (d_configs d) (d_color d) (d_edid d) (mDisplayCapabilities d).
Definition d_with_target (b : option Z) : Display :=
  mkDisplay (mId d) (mDisplayId d) (mPort d) (mCallbacks d) (mPowerMode d) (mVsyncStarted d) (mVsyncThread d) b
    (mReadbackBuffer d) (mExpectedPresentTime d) (d_flow d) (d_configs d) (d_color d) (d_edid d) (mDisplayCapabilities d).
Definition d_with_readback (b : option Z) : Display :=
  mkDisplay (mId d) (mDisplayId d) (mPort d) (mCallbacks d) (mPowerMode d) (mVsyncStarted d) (mVsyncThread d) (mClientTarget d)
    b (mExpectedPresentTime d) (d_flow d) (d_configs d) (d_color d) (d_edid d) (mDisplayCapabilities d).
Definition d_with_expected (t : option Z) : Display :=
  mkDisplay (mId d) (mDisplayId d) (mPort d) (mCallbacks d) (mPowerMode d) (mVsyncStarted d) (mVsyncThread d) (mClientTarget d)
    (mReadbackBuffer d) t (d_flow d) (d_configs d) (d_color d) (d_edid d) (mDisplayCapabilities d).
Definition d_with_flow (f : Flow) : Display :=
  mkDisplay (mId d) (mDisplayId d) (mPort d) (mCallbacks d) (mPowerMode d) (mVsyncStarted d) (mVsyncThread d) (mClientTarget d)
    (mReadbackBuffer d) (mExpectedPresentTime d) f (d_configs d) (d_color d) (d_edid d) (mDisplayCapabilities d).
Definition d_with_configs (c : Configs) : Display :=
  mkDisplay (mId d) (mDisplayId d) (mPort d) (mCallbacks d) (mPowerMode d) (mVsyncStarted d) (mVsyncThread d) (mClientTarget d)
    (mReadbackBuffer d) (mExpectedPresentTime d) (d_flow d) c (d_color d) (d_edid d) (mDisplayCapabilities d).
Definition d_with_color (c : ColorState) : Display :=
  mkDisplay (mId d) (mDisplayId d) (mPort d) (mCallbacks d) (mPowerMode d) (mVsyncStarted d) (mVsyncThread d) (mClientTarget d)
    (mReadbackBuffer d) (mExpectedPresentTime d) (d_flow d) (d_configs d) c (d_edid d) (mDisplayCapabilities d).
Definition d_with_edid (e : EdidState) : Display :=
  mkDisplay (mId d) (mDisplayId d) (mPort d) (mCallbacks d) (mPowerMode d) (mVsyncStarted d) (mVsyncThread d) (mClientTarget d)
    (mReadbackBuffer d) (mExpectedPresentTime d) (d_flow d) (d_configs d) (d_color d) e (mDisplayCapabilities d).
Definition d_with_caps (l : list DisplayCapability) : Display :=
  mkDisplay (mId d) (mDisplayId d) (mPort d) (mCallbacks d) (mPowerMode d) (mVsyncStarted d) (mVsyncThread d) (mClientTarget d)
    (mReadbackBuffer d) (mExpectedPresentTime d) (d_flow d) (d_configs d) (d_color d) (d_edid d) l.
End Setters.

Definition f_with_state (f : Flow) (s : PresentFlowState) : Flow := mkFlow s (mPendingChanges f) (mLayers f) (mOrderedLayers f).
Definition f_with_changes (f : Flow) (ch : DisplayChanges) : Flow := mkFlow (mPresentFlowState f) ch (mLayers f) (mOrderedLayers f).
Definition f_with_layers (f : Flow) (m : gmap Z Z) : Flow := mkFlow (mPresentFlowState f) (mPendingChanges f) m (mOrderedLayers f).
Definition f_with_ordered (f : Flow) (l : list Z) : Flow := mkFlow (mPresentFlowState f) (mPendingChanges f) (mLayers f) l.

(** [setLegacyEdid] *)
Definition defaultEdid : list Z :=
  [0x00] ++ replicate 6 0xFF ++ [0x00; 0x3B; 0x10] ++ replicate 6 0x00 ++ [0x01; 0x1D; 0x01; 0x03] ++ replicate 18 0x00 ++
  replicate 16 0x01 ++ [0x64] ++ replicate 20 0x00 ++
  [0xFC; 0x00; 0x4E; 0x58; 0x50; 0x20; 0x41; 0x6E; 0x64; 0x72; 0x6F; 0x69; 0x64; 0x0A; 0x0A] ++ replicate 3 0x00 ++ [0x10] ++
  replicate 17 0x00 ++ [0x10] ++ replicate 15 0x00 ++ [0x1E].

Definition display_new (id displayId port : Z) : Display :=
  mkDisplay id displayId port false OFF false vsync_new None None None
    (mkFlow WAITING_FOR_VALIDATE changes_empty ∅ []) (mkConfigs None ∅) (mkColorState NATIVE None true)
    (mkEdidState defaultEdid None true) [].

(** ** What the displays share *)

(** jsoncpp and the property service.  The dictionary holds the strings the composer
    puts there; a file that is no dictionary is not parsed. *)
Class DeviceOps := {
  json_parse : string -> option (gmap string string);
  toStyledString : gmap string string -> string;
  (** [android::base::ParseInt]. *)
  ParseInt : string -> option Z;
  (** What the array [mRawData] of a new parser holds. *)
  edid_junk : list Z
}.

(** The file [ro.vendor.hwcomposer.pmem] names, if it does; whether it can be written. *)
Record Pmem := mkPmem { pm_path : bool; pm_content : option string; pm_writable : bool }.

Inductive callback :=
  | OnVsync (display timestamp period : Z)
  | OnRefresh (display : Z)
  | OnHotplug (display : Z) (connected : bool).

Record Shared (C : Type) := mkShared {
  sh_world : World C; sNextId : Z; sh_heap : Z (* the next address *); sh_parsers : gmap Z HwcEdid; sh_pmem : Pmem;
  sh_calls : list callback
}.
Arguments mkShared {C}.
Arguments sh_world {C}.
Arguments sNextId {C}.
Arguments sh_heap {C}.
Arguments sh_parsers {C}.
Arguments sh_pmem {C}.
Arguments sh_calls {C}.

Record DState (C : Type) := mkDState { ds_display : Display; ds_shared : Shared C }.
Arguments mkDState {C}.
Arguments ds_display {C}.
Arguments ds_shared {C}.

(** *** Device.cpp *)

Section Device.
Context `{!DeviceOps}.

Definition persistentKeyValueEnabled (p : Pmem) : bool := pm_path p.

Definition starts_nul (s : string) : bool := match s with String c _ => Ascii.eqb c Ascii.zero | EmptyString => false end.

Definition loadPersistentKeyValues (p : Pmem) : Error * gmap string string :=
  if negb (pm_path p) then (NoResources, ∅)
  else
    match pm_content p with
    | None => (NoResources, ∅)
    | Some content =>
        if String.eqb content EmptyString || starts_nul content then (NoError, ∅)
        else match json_parse content with None => (NoResources, ∅) | Some dictionary => (NoError, dictionary) end
    end.

Definition savePersistentKeyValues (dictionary : gmap string string) (p : Pmem) : Error * Pmem :=
  if negb (pm_path p) then (NoResources, p)
  else if negb (pm_writable p) then (NoResources, p)
  else (NoError, mkPmem (pm_path p) (Some (toStyledString dictionary)) (pm_writable p)).

(** The default is the value, whether there is an entry or not. *)
Definition getPersistentKeyValue (key defaultValue : string) (p : Pmem) : Error * string :=
  let '(error, dictionary) := loadPersistentKeyValues p in
  if negb (is_ok error) then (error, EmptyString)
  else match dictionary !! key with None => (NoError, defaultValue) | Some _ => (NoError, defaultValue) end.

Definition setPersistentKeyValue (key value : string) (p : Pmem) : Error * Pmem :=
  let '(error, dictionary) := loadPersistentKeyValues p in
  if negb (is_ok error) then (error, p) else savePersistentKeyValues (<[key := value]> dictionary) p.
End Device.

(** ** Operations *)

Section Operations.
Context `{!HwcAbi, !DeviceComposerOps, !DeviceClient C, !HdrAbi, !DataspaceAbi, !DeviceOps}.

Definition display_get {A} (f : Display -> A) : St (DState C) A := gets (fun s => f (ds_display s)).
Definition display_set (f : Display -> Display) : St (DState C) unit :=
  modify (fun s => mkDState (f (ds_display s)) (ds_shared s)).
Definition flow_set (f : Flow -> Flow) : St (DState C) unit := display_set (fun d => d_with_flow d (f (d_flow d))).
Definition shared_get {A} (f : Shared C -> A) : St (DState C) A := gets (fun s => f (ds_shared s)).
Definition shared_set (f : Shared C -> Shared C) : St (DState C) unit :=
  modify (fun s => mkDState (ds_display s) (f (ds_shared s))).

(** A call of the frame composer. *)
Definition in_world {A} (m : St (World C) A) : St (DState C) A := fun s =>
  let sh := ds_shared s in
  match m (sh_world sh) with
  | Some (a, w) =>
      Some (a, mkDState (ds_display s) (mkShared w (sNextId sh) (sh_heap sh) (sh_parsers sh) (sh_pmem sh) (sh_calls sh)))
  | None => None
  end.

Definition call_back (e : callback) : St (DState C) unit :=
  shared_set (fun sh => mkShared (sh_world sh) (sNextId sh) (sh_heap sh) (sh_parsers sh) (sh_pmem sh) (sh_calls sh ++ [e])).

Definition set_pmem (p : Pmem) : St (DState C) unit :=
  shared_set (fun sh => mkShared (sh_world sh) (sNextId sh) (sh_heap sh) (sh_parsers sh) p (sh_calls sh)).

(** A new object: its address. *)
Definition new_address : St (DState C) Z :=
  a ← shared_get sh_heap;
  shared_set (fun sh => mkShared (sh_world sh) (sNextId sh) (a + 1) (sh_parsers sh) (sh_pmem sh) (sh_calls sh)) ;; mret a.

Definition set_parsers (f : gmap Z HwcEdid -> gmap Z HwcEdid) : St (DState C) unit :=
  shared_set (fun sh => mkShared (sh_world sh) (sNextId sh) (sh_heap sh) (f (sh_parsers sh)) (sh_pmem sh) (sh_calls sh)).

Definition set_next (z : Z) : St (DState C) unit :=
  shared_set (fun sh => mkShared (sh_world sh) z (sh_heap sh) (sh_parsers sh) (sh_pmem sh) (sh_calls sh)).

Definition hasConfig (d : Display) (configId : Z) : bool := bool_decide (is_Some (mConfigs (d_configs d) !! configId)).
Definition getConfig (d : Display) (configId : Z) : option DisplayConfig := mConfigs (d_configs d) !! configId.
Definition d_displayAttribute (d : Display) (configId : Z) (f : DisplayConfig -> Z) (old : Z) : Z :=
  match getConfig d configId with Some c => f c | None => old end.

Definition INT_MAX : Z := 2 ^ 31 - 1.

(** What the composer sees of a display when it validates; without an active configuration its size is [INT_MAX]. *)
Definition display_view (d : Display) : DisplayView :=
  let size f := match mActiveConfigId (d_configs d) with Some id => d_displayAttribute d id f INT_MAX | None => INT_MAX end in
  mkView (mDisplayId d) (mId d) (mOrderedLayers (d_flow d)) (size mWidth) (size mHeight) (mColorTransformHint (d_color d))
    (mClientTarget d).

(** When it presents, it takes no notice of negative configuration ids. *)
Definition present_view (d : Display) : DisplayView :=
  let size f := match mActiveConfigId (d_configs d) with
                | Some id => if 0 <=? id then d_displayAttribute d id f INT_MAX else INT_MAX
                | None => INT_MAX
                end in
  mkView (mDisplayId d) (mId d) (mOrderedLayers (d_flow d)) (size mWidth) (size mHeight) (mColorTransformHint (d_color d))
    (mClientTarget d).

(** *** Configurations *)

Definition getBootConfigId : St (DState C) (option Z) :=
  p ← shared_get sh_pmem;
  if negb (persistentKeyValueEnabled p) then mret None
  else
    id ← display_get mId;
    let '(error, val) := getPersistentKeyValue (to_string id) EmptyString p in
    if negb (is_ok error) then mret None
    else if String.eqb val EmptyString then mret None
    else
      match ParseInt val with
      | None => mret None
      | Some configId => ok ← display_get (fun d => hasConfig d configId); mret (if ok : bool then Some configId else None)
      end.

Definition setBootConfig (configId : Z) : St (DState C) Error :=
  newConfig ← display_get (fun d => getConfig d configId);
  match newConfig with
  | None => mret BadConfig
  | Some _ =>
      id ← display_get mId;
      p ← shared_get sh_pmem;
      let '(error, p') := setPersistentKeyValue (to_string id) (to_string configId) p in
      set_pmem p' ;; mret error
  end.

Definition clearBootConfig : St (DState C) Error :=
  id ← display_get mId;
  p ← shared_get sh_pmem;
  let '(error, p') := setPersistentKeyValue (to_string id) EmptyString p in
  set_pmem p' ;; mret error.

(** [min_element] of nothing is the end of the vector, which is read. *)
Definition getPreferredBootConfig : St (DState C) (Error * Z) :=
  ids ← display_get (fun d => sorted_keys (mConfigs (d_configs d)));
  id ← of_option (head ids);
  mret (NoError, id).

(** The parser is replaced; the layers made with the old one keep its address. *)
Definition new_parser : St (DState C) unit :=
  e ← display_get d_edid;
  parser ← of_option (hwc_edid_new (mEdid e) edid_junk);
  a ← new_address;
  set_parsers (fun m => <[a := parser]> (match mEdidParser e with Some old => delete old m | None => m end)) ;;
  display_set (fun d => d_with_edid d (mkEdidState (mEdid e) (Some a) (mIsLegacyEdid e))).

Definition take_edid (edid : option (list Z)) : St (DState C) unit :=
  match edid with
  | None => mret tt
  | Some data => display_set (fun d => d_with_edid d (mkEdidState data (mEdidParser (d_edid d)) false))
  end.

(** [emplace] keeps the first configuration of an id. *)
Definition config_map (configs : list DisplayConfig) : gmap Z DisplayConfig :=
  foldl (fun m c => match m !! cfg_id c with Some _ => m | None => <[cfg_id c := c]> m end) ∅ configs.

(** [init]; [now] is the clock when the thread starts. *)
Definition display_init (now : Z) (configs : list DisplayConfig) (activeConfigId : Z) (edid : option (list Z)) :
    St (DState C) Error :=
  display_set (fun d => d_with_configs d (mkConfigs (Some activeConfigId) (config_map configs))) ;;
  boot ← getBootConfigId;
  let active := match boot with Some b => b | None => activeConfigId end in
  display_set (fun d => d_with_configs d (mkConfigs (Some active) (mConfigs (d_configs d)))) ;;
  take_edid edid ;;
  new_parser ;;
  config ← display_get (fun d => getConfig d active);
  match config with
  | None => mret NoResources
  | Some c =>
      started ← display_get mVsyncStarted;
      (if started : bool then mret tt
       else
         v ← display_get mVsyncThread;
         v ← of_option (vsync_start (mVsyncPeriodNanos c) now v);
         display_set (fun d => d_with_vsync d true v)) ;;
      mret NoError
  end.

(** The division is in [uint32_t]. *)
Definition updateParameters (width height dpiX dpiY refreshRateHz : Z) (edid : option (list Z)) : St (DState C) Error :=
  active ← display_get (fun d => mActiveConfigId (d_configs d));
  id ← of_option active;
  config ← display_get (fun d => getConfig d id);
  match config with
  | None => mret NoResources
  | Some c =>
      period ← of_option (if refreshRateHz =? 0 then None else Some (1000000000 / refreshRateHz));
      let c' := setAttribute DPI_Y (⟦dpiY⟧s 32) (setAttribute DPI_X (⟦dpiX⟧s 32) (setAttribute HEIGHT (⟦height⟧s 32)
                  (setAttribute WIDTH (⟦width⟧s 32) (setAttribute VSYNC_PERIOD period c)))) in
      display_set (fun d => d_with_configs d (mkConfigs (mActiveConfigId (d_configs d)) (<[id := c']> (mConfigs (d_configs d))))) ;;
      take_edid edid ;;
      mret NoError
  end.

Definition setEdid (edid : list Z) : St (DState C) Error :=
  display_set (fun d => d_with_edid d (mkEdidState edid (mEdidParser (d_edid d)) (mIsLegacyEdid (d_edid d)))) ;;
  new_parser ;;
  display_set (fun d => d_with_edid d (mkEdidState (mEdid (d_edid d)) (mEdidParser (d_edid d)) false)) ;;
  mret NoError.

(** Called by [scheduleVsyncUpdate] and by the thread. *)
Definition takeEffectConfig (configId : Z) : St (DState C) Error :=
  display_set (fun d => d_with_configs d (mkConfigs (Some configId) (mConfigs (d_configs d)))) ;;
  id ← display_get mDisplayId;
  in_world (onActiveConfigChange id configId).

Definition vsync_set (f : VsyncThread -> VsyncThread) : St (DState C) unit :=
  display_set (fun d => d_with_vsync d (mVsyncStarted d) (f (mVsyncThread d))).

(** The error and [newVsyncAppliedTimeNanos]. *)
Definition scheduleVsyncUpdate (configId newVsyncPeriod desiredTimeNanos : Z) : St (DState C) (Error * option Z) :=
  updateTime ←
    (if desiredTimeNanos =? 0 then
       vsync_set (fun v => vt_with_period v newVsyncPeriod) ;;
       takeEffectConfig configId ;;
       display_get (fun d => mPreviousVsync (mVsyncThread d))
     else
       vsync_set (fun v => vt_with_pending v (Some (mkPending newVsyncPeriod desiredTimeNanos configId))) ;;
       mret desiredTimeNanos);
  v ← display_get mVsyncThread;
  nextVsync ← of_option (GetNextVsyncInPhase (mVsyncPeriod v) (mPreviousVsync v) updateTime);
  mret (NoError, Some nextVsync).

Definition setActiveConfigWithConstraints (configId desiredTimeNanos : Z) (seamlessRequired : bool) :
    St (DState C) (Error * option Z) :=
  d ← display_get id;
  if bool_decide (mActiveConfigId (d_configs d) = Some configId) then mret (NoError, None)
  else
    match getConfig d configId with
    | None => mret (BadConfig, None)
    | Some newConfig =>
        if seamlessRequired then
          match mActiveConfigId (d_configs d) with
          | None => mret (SeamlessNotPossible, None)
          | Some old =>
              match getConfig d old with
              | None => mret (NoResources, None)
              | Some oldConfig =>
                  n ← of_option (mConfigGroup newConfig);
                  o ← of_option (mConfigGroup oldConfig);
                  mret (if n =? o then SeamlessNotPossible else SeamlessNotAllowed, None)
              end
          end
        else scheduleVsyncUpdate configId (mVsyncPeriodNanos newConfig) desiredTimeNanos
    end.

Definition setActiveConfig (configId : Z) : St (DState C) Error :=
  r ← setActiveConfigWithConstraints configId 0 false; mret r.1.

(** *** Layers *)

Definition getLayer (layerId : Z) : St (DState C) (option Z) := display_get (fun d => mLayers (d_flow d) !! layerId).

Definition free_layer (a : Z) : St (DState C) unit := in_world (modify (fun w => with_layers w (delete a (w_layers w)))).

(** [presetId] is what the caller has put in [*outLayerId].  If the id is taken, [emplace] keeps the old layer and the new one is
    destroyed. *)
Definition createLayer (presetId : Z) : St (DState C) (Error * Z) :=
  layers ← display_get (fun d => mLayers (d_flow d));
  if (0 <? presetId) && bool_decide (is_Some (layers !! presetId)) then mret (BadLayer, presetId)
  else
    parser ← display_get (fun d => mEdidParser (d_edid d));
    next ← shared_get sNextId;
    let '(layer, next') := layer_new parser presetId next in
    set_next next' ;;
    a ← new_address;
    in_world (modify (fun w => with_layers w (<[a := layer]> (w_layers w)))) ;;
    (match layers !! l_id layer with
     | Some _ => free_layer a
     | None => flow_set (fun f => f_with_layers f (<[l_id layer := a]> (mLayers f)))
     end) ;;
    mret (NoError, l_id layer).

(** The layers at some addresses, which must be there. *)
Fixpoint resolve (addrs : list Z) : St (DState C) (list (Z * Layer)) :=
  match addrs with
  | [] => mret []
  | a :: addrs' => l ← in_world (layer_at a); ls ← resolve addrs'; mret ((a, l) :: ls)
  end.

Definition destroyLayer (layerId : Z) : St (DState C) Error :=
  found ← getLayer layerId;
  match found with
  | None => mret BadLayer
  | Some a =>
      l ← in_world (layer_at a);
      let refresh := is_private (mCompositionType l) in
      id ← display_get mDisplayId;
      in_world (onDisplayLayerDestroy id a) ;;
      ordered ← display_get (fun d => mOrderedLayers (d_flow d));
      ls ← resolve ordered;
      flow_set (fun f => f_with_ordered f (filter (fun p => l_id p.2 <> layerId) ls).*1) ;;
      free_layer a ;;
      flow_set (fun f => f_with_layers f (delete layerId (mLayers f))) ;;
      hwc ← display_get mId;
      callbacks ← display_get mCallbacks;
      (if callbacks && refresh then call_back (OnRefresh hwc) else mret tt) ;;
      mret NoError
  end.

(** A command for a layer. *)
Definition layer_command (layerId : Z) (c : HwcLayer.layer_command) : St (DState C) Error :=
  found ← getLayer layerId;
  match found with
  | None => mret BadLayer
  | Some a =>
      l ← in_world (layer_at a);
      let '(e, l') := apply_layer_command c l in
      in_world (set_layer a (fun _ => l')) ;; mret e
  end.

(** [Layer::setPerFrameMetadata], through the parser the layer was made with. *)
Definition layer_setPerFrameMetadata (layerId : Z) (m : list (option (PerFrameMetadataKey * spec_float))) : St (DState C) Error :=
  found ← getLayer layerId;
  match found with
  | None => mret BadLayer
  | Some a =>
      l ← in_world (layer_at a);
      p ← of_option (l_edid l);
      parsers ← shared_get sh_parsers;
      parser ← of_option (parsers !! p);
      if 0 <? getHdrTypeCount parser then
        h ← of_option (setPerFrameMetadata m (mDataspace l) (metadata_unpack (mHdrMetadata l)));
        in_world (set_layer a (fun l => with_hdr (with_metadata l (metadata_pack h)) HDR_ADDED)) ;; mret NoError
      else mret NoError
  end.

(** *** Frames *)

Definition layer_le (p q : Z * Layer) : Prop :=
  mZOrder p.2 < mZOrder q.2 \/ (mZOrder p.2 = mZOrder q.2 /\ l_id p.2 <= l_id q.2).
#[global] Instance layer_le_dec p q : Decision (layer_le p q).
Proof. unfold layer_le. solve_decision. Defined.

Definition validate : St (DState C) (Error * DisplayChanges) :=
  flow_set (fun f => f_with_changes f changes_empty) ;;
  layers ← display_get (fun d => (map_to_list (mLayers (d_flow d))).*2);
  ls ← resolve layers;
  flow_set (fun f => f_with_ordered f (merge_sort layer_le ls).*1) ;;
  dv ← display_get display_view;
  changes ← display_get (fun d => mPendingChanges (d_flow d));
  r ← in_world (validateDisplay dv changes);
  flow_set (fun f => f_with_changes f r.2) ;;
  if negb (is_ok r.1) then mret (r.1, changes_empty)
  else
    flow_set (fun f => f_with_state f (if hasAnyChanges r.2 then WAITING_FOR_ACCEPT else WAITING_FOR_PRESENT)) ;;
    mret (NoError, r.2).

(** A layer that is gone is passed over. *)
Fixpoint accept_changes (l : list (Z * Composition)) : St (DState C) unit :=
  match l with
  | [] => mret tt
  | (layerId, c) :: l' =>
      found ← getLayer layerId;
      (match found with None => mret tt | Some a => in_world (set_layer a (fun l => with_composition l c)) end) ;;
      accept_changes l'
  end.

Definition acceptChanges : St (DState C) Error :=
  f ← display_get d_flow;
  match mPresentFlowState f with
  | WAITING_FOR_VALIDATE => mret NotValidated
  | _ =>
      accept_changes (changed_layers (mPendingChanges f)) ;;
      flow_set (fun f => f_with_state (f_with_changes f changes_empty) WAITING_FOR_PRESENT) ;;
      mret NoError
  end.

(** Whatever the state is, it presents. *)
Definition present : St (DState C) (Error * list Z) :=
  flow_set (fun f => f_with_state f WAITING_FOR_VALIDATE) ;;
  dv ← display_get present_view;
  in_world (presentDisplay dv).

(** What the composer answers is ignored. *)
Definition setClientTarget (buffer : option Z) : St (DState C) Error :=
  display_set (fun d => d_with_target d buffer) ;;
  dv ← display_get display_view;
  in_world (onDisplayClientTargetSet dv) ;;
  mret NoError.

Definition setExpectedPresentTime (expectedPresentTime : option Z) : St (DState C) Error :=
  match expectedPresentTime with
  | None => mret NoError
  | Some t => display_set (fun d => d_with_expected d (Some t)) ;; mret NoError
  end.

Definition setOutputBuffer : Error := NoError.

(** *** Properties of the display *)

Definition setColorMode (mode : ColorMode) (intent : RenderIntent) : St (DState C) Error :=
  if negb (isValidColorMode mode) then mret BadParameter
  else if negb (isValidRenderIntent intent) then mret BadParameter
  else if bool_decide (mode ∈ mColorModes) then
    display_set (fun d => d_with_color d (mkColorState mode (mColorTransform (d_color d)) (mColorTransformHint (d_color d)))) ;;
    mret NoError
  else mret Unsupported.

Definition setPowerMode (mode : PowerMode) : St (DState C) Error :=
  match mode with
  | UnknownPower _ => mret BadParameter
  | DOZE | DOZE_SUSPEND | ON_SUSPEND => mret Unsupported
  | OFF | ON =>
      id ← display_get mDisplayId;
      error ← in_world (composer_setPowerMode id (match mode with OFF => false | _ => true end));
      if negb (is_ok error) then mret error else display_set (fun d => d_with_power d mode) ;; mret NoError
  end.

Definition setReadbackBuffer (buffer : option Z) : St (DState C) Error :=
  display_set (fun d => d_with_readback d buffer) ;; mret Unsupported.

Definition setVsyncEnabled (enabled : bool) : St (DState C) Error :=
  vsync_set (vsync_setVsyncEnabled enabled) ;; mret NoError.

Definition kIdentity : list spec_float :=
  float <$> [1; 0; 0; 0; 0; 1; 0; 0; 0; 0; 1; 0; 0; 0; 0; 1].

(** [std::equal] over all of the first list; reading past the second is undefined. *)
Fixpoint std_equal (l m : list spec_float) : option bool :=
  match l, m with
  | [], _ => Some true
  | _ :: _, [] => None
  | x :: l', y :: m' => if SFeqb x y then std_equal l' m' else Some false
  end.

Definition display_setColorTransform (transformMatrix : list spec_float) : St (DState C) Error :=
  if (length transformMatrix <? 16)%nat then mret BadParameter
  else
    isIdentity ← of_option (std_equal transformMatrix kIdentity);
    display_set (fun d => d_with_color d (mkColorState (mActiveColorMode (d_color d)) (Some (take 16 transformMatrix)) isIdentity)) ;;
    mret NoError.

(** NaN passes both comparisons. *)
Definition display_setBrightness (brightness : spec_float) : St (DState C) Error :=
  caps ← display_get mDisplayCapabilities;
  if negb (existsb (fun c => match c with BRIGHTNESS => true | _ => false end) caps) then mret Unsupported
  else
    let brightness := if SFeqb brightness (float (-1)) then float 0 else brightness in
    if SFltb brightness (float 0) || SFltb (float 1) brightness then mret BadParameter
    else
      id ← display_get mDisplayId;
      in_world (setDisplayBrightness id brightness) ;;
      mret NoError.

Definition registerCallback : St (DState C) Error :=
  vsync_set (vsync_setCallbacks true) ;;
  display_set (fun d => d_with_callbacks d true) ;;
  mret Unsupported.

Definition setDisplayCapabilities (caps : list DisplayCapability) : St (DState C) Error :=
  display_set (fun d => d_with_caps d (mDisplayCapabilities d ++ caps)) ;; mret NoError.

(** *** What a display tells *)

Definition getActiveConfig (d : Display) : Error * option Z :=
  match mActiveConfigId (d_configs d) with None => (BadConfig, None) | Some id => (NoError, Some id) end.

(** [None] is undefined: an attribute that overflows or was never set. *)
Definition getDisplayAttribute (d : Display) (configId : Z) (a : DisplayAttribute) : option (Error * option Z) :=
  match getConfig d configId with
  | None => Some (BadConfig, None)
  | Some config => v ← getAttribute a config; Some (NoError, Some v)
  end.

Definition getDisplayConfigs (d : Display) : list Z := (map_to_list (mConfigs (d_configs d))).*1.

Definition getDisplayVsyncPeriod (d : Display) : Error * option Z :=
  match mActiveConfigId (d_configs d) with
  | None => (BadConfig, None)
  | Some id => match getConfig d id with None => (BadConfig, None) | Some c => (NoError, Some (mVsyncPeriodNanos c)) end
  end.

Definition getDisplayIdentificationData (d : Display) : Z * list Z := (⟦mPort d⟧s 8, mEdid (d_edid d)).

(** The parser of the display; [None] before [init] made one. *)
Definition display_parser (s : DState C) : option HwcEdid :=
  p ← mEdidParser (d_edid (ds_display s)); sh_parsers (ds_shared s) !! p.

Definition display_getHdrCapabilities (s : DState C) : option (option (HdrMetaData * list Z)) :=
  parser ← display_parser s;
  if mIsHdrSupported (he_edid parser) then c ← getHdrCapabilities parser; Some (Some c) else Some None.

Definition display_getPerFrameMetadataKeys (s : DState C) : option (Error * list PerFrameMetadataKey) :=
  parser ← display_parser s;
  Some (if 0 <? getHdrTypeCount parser then (NoError, getPerFrameMetadataKeys) else (Unsupported, [])).

Definition getRenderIntents (mode : ColorMode) : Error * list RenderIntent :=
  if isValidColorMode mode then (NoError, [COLORIMETRIC]) else (BadParameter, []).

(** Width, height, the two densities, the group (never set: undefined), the period. *)
Definition getDisplayConfigurations (d : Display) : option (list (Z * (Z * Z) * (spec_float * spec_float) * Z * Z)) :=
  mapM (fun p => group ← mConfigGroup p.2;
                 Some (p.1, (mWidth p.2, mHeight p.2), (float (mDpiX p.2), float (mDpiY p.2)), group, mVsyncPeriodNanos p.2))
    (map_to_list (mConfigs (d_configs d))).

(** *** The thread *)

Definition updateVsyncPeriodLocked (now : Z) : St (DState C) Z :=
  v ← display_get mVsyncThread;
  (match mPendingUpdate v with
   | Some u =>
       if pu_updateAfter u <? now then
         vsync_set (fun v => vt_with_period v (pu_period u)) ;;
         takeEffectConfig (pu_configId u) ;;
         vsync_set (fun v => vt_with_pending v None)
       else mret tt
   | None => mret tt
   end) ;;
  display_get (fun d => mVsyncPeriod (mVsyncThread d)).

(** One step of [threadLoop] at the time [now]; [hardware] is the time stamp of the driver, if it can wait for a sync. *)
Definition threadLoop (now : Z) (hardware : option Z) : St (DState C) unit :=
  v ← display_get mVsyncThread;
  match vt_pc v with
  | NotStarted => mret tt
  | Starting =>
      vsync_set (fun v => mkVsync Looking (mVsyncPeriod v) (vt_callbacks v) (mVsyncEnabled v) (mVsyncPeriod v) (mPreviousVsync v)
                            (mPendingUpdate v))
  | Looking =>
      match (if mVsyncEnabled v then hardware else None) with
      | Some timestamp => vsync_set (fun v => vt_at v (Updating (if timestamp =? 0 then now else timestamp)))
      | None =>
          nextVsync ← of_option (GetNextVsyncInPhase (vt_local v) (mPreviousVsync v) now);
          vsync_set (fun v => vt_at v (Sleeping nextVsync))
      end
  | Sleeping t => if t <=? now then vsync_set (fun v => vt_at v (Updating t)) else mret tt
  | Updating t =>
      vsync_set (fun v => mkVsync (vt_pc v) (vt_local v) (vt_callbacks v) (mVsyncEnabled v) (mVsyncPeriod v) t (mPendingUpdate v)) ;;
      period ← updateVsyncPeriodLocked t;
      vsync_set (fun v => mkVsync Notifying period (vt_callbacks v) (mVsyncEnabled v) (mVsyncPeriod v) (mPreviousVsync v)
                            (mPendingUpdate v))
  | Notifying =>
      hwc ← display_get mId;
      (if mVsyncEnabled v && vt_callbacks v then call_back (OnVsync hwc (mPreviousVsync v) (⟦vt_local v⟧s 32)) else mret tt) ;;
      vsync_set (fun v => vt_at v Looking)
  end.

(** The destructor: joining a thread that was never started throws, which ends the service. *)
Definition display_delete : St (DState C) unit :=
  d ← display_get id;
  match vt_pc (mVsyncThread d) with
  | NotStarted => ub
  | _ =>
      in_world (modify (fun w => with_layers w (foldr delete (w_layers w) (map_to_list (mLayers (d_flow d))).*2))) ;;
      set_parsers (fun m => match mEdidParser (d_edid d) with Some p => delete p m | None => m end) ;;
      vsync_set (fun v => vt_at v NotStarted)
  end.
End Operations.

(** ** What operations keep *)

(** The id of the layer at an address, if there is one. *)
Definition layer_ids {C} (w : World C) (a : Z) : option Z := l_id <$> w_layers w !! a.

Section Kept.
Context `{!HwcAbi, !DeviceComposerOps, !DeviceClient C}.

(** The frame composer makes and frees no layers. *)
Definition layers_kept (w w' : World C) : Prop := forall a, layer_ids w' a = layer_ids w a.

#[global] Instance layers_kept_refl : Reflexive layers_kept.
Proof. by intros w. Qed.
#[global] Instance layers_kept_trans : Transitive layers_kept.
Proof. unfold layers_kept. intros w1 w2 w3 H1 H2 a. by rewrite H2. Qed.

Lemma kept_modify (f : World C -> World C) : (forall w, w_layers (f w) = w_layers w) -> all_runs (modify f) layers_kept.
Proof. intros Hf. apply all_runs_modify. intros w a. unfold layer_ids. by rewrite Hf. Qed.

Lemma kept_set_layer a (f : Layer -> Layer) : (forall l, l_id (f l) = l_id l) -> all_runs (set_layer a f) layers_kept.
Proof.
  intros Hf. apply all_runs_modify. intros w b. unfold layer_ids. cbn. destruct (decide (a = b)) as [->|Hne]; [|by rewrite lookup_alter_ne].
  rewrite lookup_alter_eq. destruct (w_layers w !! b); cbn; [by rewrite Hf|done].
Qed.

#[local] Hint Extern 1 (all_runs (modify _) _) => (apply kept_modify; done) : all_runs.
#[local] Hint Extern 1 (all_runs (set_layer _ _) _) => (apply kept_set_layer; done) : all_runs.
#[local] Ltac kept_unfold := unfold layer_at, validated, set_validated, set_display_buffer, getDeviceClient, client_call, client_ask, client_create,
  client_target, client_clean, client_flush.
#[local] Ltac kept := kept_unfold; all_runs.

Lemma kept_layer_at a : all_runs (layer_at a) layers_kept.
Proof. kept. Qed.
Lemma kept_onDisplayCreate d : all_runs (onDisplayCreate d) layers_kept.
Proof. unfold onDisplayCreate. kept. Qed.
Lemma kept_onDisplayDestroy d : all_runs (onDisplayDestroy d) layers_kept.
Proof. unfold onDisplayDestroy. kept. Qed.
Lemma kept_onActiveConfigChange d c : all_runs (onActiveConfigChange d c) layers_kept.
Proof. unfold onActiveConfigChange. kept. Qed.
Lemma kept_composer_setPowerMode d b : all_runs (composer_setPowerMode d b) layers_kept.
Proof. unfold composer_setPowerMode. kept. Qed.
Lemma kept_setDisplayBrightness d b : all_runs (setDisplayBrightness d b) layers_kept.
Proof. unfold setDisplayBrightness. kept. Qed.
Lemma kept_onDisplayLayerDestroy d a : all_runs (onDisplayLayerDestroy d a) layers_kept.
Proof. unfold onDisplayLayerDestroy. kept. Qed.
Lemma kept_onDisplayClientTargetSet dv : all_runs (onDisplayClientTargetSet dv) layers_kept.
Proof. unfold onDisplayClientTargetSet. kept. Qed.

Lemma kept_scan_private l acc : all_runs (scan_private l acc) layers_kept.
Proof. revert acc. induction l as [|a l IH]; intros acc; cbn [scan_private]; kept. Qed.
Lemma kept_validate_layers k dv b l s : all_runs (validate_layers k dv b l s) layers_kept.
Proof. revert s. induction l as [|a l IH]; intros s; cbn [validate_layers]; unfold validate_layer; kept. Qed.
Lemma kept_change_layers hwc from to l ch : all_runs (change_layers hwc from to l ch) layers_kept.
Proof. revert ch. induction l as [|a l IH]; intros ch; cbn [change_layers]; kept. Qed.
#[local] Hint Resolve kept_scan_private kept_validate_layers kept_change_layers : all_runs.

Lemma kept_validateDisplay dv ch : all_runs (validateDisplay dv ch) layers_kept.
Proof. unfold validateDisplay, prepare_planes, find_lucky. kept. Qed.

Lemma kept_layers_of l : all_runs (layers_of l) layers_kept.
Proof. induction l as [|a l IH]; cbn [layers_of]; kept. Qed.
Lemma kept_present_overlays k d planes b : all_runs (present_overlays k d planes b) layers_kept.
Proof. revert b. induction planes as [|[p a] planes IH]; intros b; cbn [present_overlays]; kept. Qed.
#[local] Hint Resolve kept_layers_of kept_present_overlays : all_runs.

Lemma kept_presentDisplay dv : all_runs (presentDisplay dv) layers_kept.
Proof. unfold presentDisplay, present_target, present_private. kept. Qed.
End Kept.
#[export] Hint Resolve kept_onDisplayCreate kept_onDisplayDestroy kept_onActiveConfigChange kept_composer_setPowerMode
  kept_setDisplayBrightness kept_onDisplayLayerDestroy kept_onDisplayClientTargetSet kept_validateDisplay
  kept_presentDisplay kept_layer_at : all_runs.

Section Invariant.
Context `{!HwcAbi, !DeviceComposerOps, !DeviceClient C, !HdrAbi, !DataspaceAbi, !DeviceOps}.
Implicit Types s : DState C.

Abbreviation flow s := (d_flow (ds_display s)).
Abbreviation heap s := (sh_heap (ds_shared s)).
Abbreviation ids s := (layer_ids (sh_world (ds_shared s))).
Abbreviation pending s := (mPendingUpdate (mVsyncThread (ds_display s))).

(** The layers of a display are live and known by their ids; the ordered layers, which the composer works on, are among them. *)
Record layers_ok s : Prop := {
  lo_live : forall id a, mLayers (flow s) !! id = Some a -> ids s a = Some id;
  lo_ordered : forall a, a ∈ mOrderedLayers (flow s) -> exists id, mLayers (flow s) !! id = Some a;
  lo_nodup : NoDup (mOrderedLayers (flow s));
  lo_heap : forall id a, mLayers (flow s) !! id = Some a -> a < heap s
}.

(** The active configuration exists, and so does the one that is to follow it. *)
Definition configs_ok s : Prop :=
  let c := d_configs (ds_display s) in
  (exists id, mActiveConfigId c = Some id /\ is_Some (mConfigs c !! id)) /\
  forall u, pending s = Some u -> is_Some (mConfigs c !! pu_configId u).

Definition owns s (a : Z) : Prop := exists id, mLayers (flow s) !! id = Some a.

(** What an operation does to the layers: those of other displays stay, and a new one gets a new address. *)
Record op_ok s s' : Prop := {
  ok_heap : heap s <= heap s';
  ok_other : forall a, a < heap s -> ~ owns s a -> ids s' a = ids s a;
  ok_owned : forall a, owns s' a -> owns s a \/ heap s <= a;
  ok_layers : layers_ok s -> layers_ok s'
}.

#[global] Instance op_ok_refl : Reflexive op_ok.
Proof. intros s. split; [done|done|by left|done]. Qed.
#[global] Instance op_ok_trans : Transitive op_ok.
Proof.
  intros s1 s2 s3 [F1 F2 F3 F4] [K1 K2 K3 K4]. split; [lia| | |by auto].
  - intros a Ha Hn. rewrite K2, F2; [done..|lia|]. by intros [?|?]%F3; [|lia].
  - intros a [[?|?]%F3|?]%K3; [by left|by right|right; lia].
Qed.

(** An operation that leaves the layers and the configurations alone. *)
Record quiet s s' : Prop := {
  qu_layers : mLayers (flow s') = mLayers (flow s);
  qu_ordered : mOrderedLayers (flow s') = mOrderedLayers (flow s);
  qu_ids : forall a, ids s' a = ids s a;
  qu_heap : heap s <= heap s';
  qu_configs : d_configs (ds_display s') = d_configs (ds_display s);
  qu_pending : pending s' = pending s
}.

#[global] Instance quiet_refl : Reflexive quiet.
Proof. by intros s. Qed.
#[global] Instance quiet_trans : Transitive quiet.
Proof. intros s1 s2 s3 [F1 F2 F3 F4 F5 F6] [K1 K2 K3 K4 K5 K6]. split; [congruence..| |lia|congruence|congruence]. intros a. by rewrite K3. Qed.

(** The same but for the configurations. *)
Record still s s' : Prop := {
  st_layers : mLayers (flow s') = mLayers (flow s);
  st_ordered : mOrderedLayers (flow s') = mOrderedLayers (flow s);
  st_ids : forall a, ids s' a = ids s a;
  st_heap : heap s <= heap s'
}.

#[global] Instance still_refl : Reflexive still.
Proof. by intros s. Qed.
#[global] Instance still_trans : Transitive still.
Proof. intros s1 s2 s3 [F1 F2 F3 F4] [K1 K2 K3 K4]. split; [congruence..| |lia]. intros a. by rewrite K3. Qed.

Lemma quiet_still s s' : quiet s s' -> still s s'.
Proof. by intros [? ? ? ? _ _]. Qed.

Lemma still_op s s' : still s s' -> op_ok s s'.
Proof.
  intros [F1 F2 F3 F4]. split; [done|by intros; rewrite F3|unfold owns; rewrite F1; by left|].
  intros [L1 L2 L3 L4]. split; rewrite ?F1, ?F2; [|done..|].
  - intros id a Ha. rewrite F3. by apply L1.
  - intros id a Ha%L4. lia.
Qed.

Lemma quiet_configs s s' : quiet s s' -> configs_ok s -> configs_ok s'.
Proof. intros [_ _ _ _ F5 F6]. unfold configs_ok. by rewrite F5, F6. Qed.

(** *** Quiet steps *)

Lemma quiet_display_set (f : Display -> Display) : (forall d, mLayers (d_flow (f d)) = mLayers (d_flow d)) ->
  (forall d, mOrderedLayers (d_flow (f d)) = mOrderedLayers (d_flow d)) -> (forall d, d_configs (f d) = d_configs d) ->
  (forall d, mPendingUpdate (mVsyncThread (f d)) = mPendingUpdate (mVsyncThread d)) -> all_runs (display_set f) quiet.
Proof. intros F1 F2 F3 F4. apply all_runs_modify. intros s. by split; cbn. Qed.

Lemma quiet_in_world {A} (m : St (World C) A) : all_runs m layers_kept -> all_runs (in_world m) quiet.
Proof.
  intros Hm s a s'. unfold in_world. destruct (m (sh_world (ds_shared s))) as [[b w]|] eqn:E; [|done]. intros [= <- <-].
  split; try done. intros a'. by apply (Hm _ _ _ E).
Qed.

Lemma quiet_shared_set (f : Shared C -> Shared C) : (forall sh, sh_world (f sh) = sh_world sh) ->
  (forall sh, sh_heap sh <= sh_heap (f sh)) -> all_runs (shared_set f) quiet.
Proof. intros F1 F2. apply all_runs_modify. intros s. split; cbn; try done. by rewrite F1. Qed.

#[local] Hint Extern 1 (all_runs (display_set _) _) => (apply quiet_display_set; by intros) : all_runs.
#[local] Hint Extern 1 (all_runs (shared_set _) _) => (apply quiet_shared_set; intros; cbn; lia || done) : all_runs.
#[local] Hint Extern 1 (all_runs (in_world _) _) =>
  (apply quiet_in_world; first [solve [eauto with all_runs] | solve [apply kept_set_layer; by intros]]) : all_runs.
#[local] Ltac quiet := unfold display_get, shared_get, flow_set, vsync_set, call_back, set_pmem, set_parsers, set_next, getLayer; all_runs.

Lemma quiet_new_address : all_runs new_address quiet.
Proof. intros s a s' [= <- <-]. split; cbn; (done || lia). Qed.
#[local] Hint Resolve quiet_new_address : all_runs.

Lemma quiet_new_parser : all_runs new_parser quiet.
Proof. unfold new_parser. quiet. Qed.
Lemma quiet_take_edid e : all_runs (take_edid e) quiet.
Proof. unfold take_edid. quiet. Qed.
Lemma quiet_resolve l : all_runs (resolve l) quiet.
Proof. induction l as [|a l IH]; cbn [resolve]; quiet. Qed.
Lemma quiet_accept l : all_runs (accept_changes l) quiet.
Proof. induction l as [|[a c] l IH]; cbn [accept_changes]; quiet. Qed.
#[local] Hint Resolve quiet_new_parser quiet_take_edid quiet_resolve quiet_accept : all_runs.

Lemma quiet_getBootConfigId : all_runs getBootConfigId quiet.
Proof. unfold getBootConfigId. quiet. Qed.
Lemma quiet_setBootConfig c : all_runs (setBootConfig c) quiet.
Proof. unfold setBootConfig. quiet. Qed.
Lemma quiet_clearBootConfig : all_runs clearBootConfig quiet.
Proof. unfold clearBootConfig. quiet. Qed.
Lemma quiet_setEdid e : all_runs (setEdid e) quiet.
Proof. unfold setEdid. quiet. Qed.

Lemma apply_command_id c l e l' : apply_layer_command c l = (e, l') -> l_id l' = l_id l.
Proof.
  destruct c; cbn; unfold setCursorPosition, setBuffer, setColorTransform, setBrightness; intros E; repeat case_match; by simplify_eq.
Qed.

(** *** The configurations *)

Lemma still_display_set (f : Display -> Display) : (forall d, mLayers (d_flow (f d)) = mLayers (d_flow d)) ->
  (forall d, mOrderedLayers (d_flow (f d)) = mOrderedLayers (d_flow d)) -> all_runs (display_set f) still.
Proof. intros F1 F2. apply all_runs_modify. intros s. by split; cbn. Qed.

Lemma still_quiet {A} (m : St (DState C) A) : all_runs m quiet -> all_runs m still.
Proof. apply all_runs_mono, quiet_still. Qed.

#[local] Hint Resolve quiet_setBootConfig quiet_getBootConfigId quiet_clearBootConfig quiet_setEdid : all_runs.
#[local] Hint Extern 2 (all_runs (display_set _) still) => (apply still_display_set; by intros) : all_runs.
#[local] Hint Extern 3 (all_runs _ still) => (apply still_quiet; solve [eauto with all_runs]) : all_runs.
#[local] Ltac still := unfold display_get, shared_get, flow_set, vsync_set, call_back, set_pmem, set_parsers, set_next, getLayer; all_runs.

Lemma still_takeEffectConfig c : all_runs (takeEffectConfig c) still.
Proof. unfold takeEffectConfig. still. Qed.
#[local] Hint Resolve still_takeEffectConfig : all_runs.

Lemma still_init now configs active edid : all_runs (display_init now configs active edid) still.
Proof. unfold display_init. still. Qed.
Lemma still_updateParameters w h x y r edid : all_runs (updateParameters w h x y r edid) still.
Proof. unfold updateParameters. still. Qed.
Lemma still_setActiveConfig c t seamless : all_runs (setActiveConfigWithConstraints c t seamless) still.
Proof. unfold setActiveConfigWithConstraints, scheduleVsyncUpdate. still. Qed.
Lemma still_threadLoop now hw : all_runs (threadLoop now hw) still.
Proof. unfold threadLoop, updateVsyncPeriodLocked. still. Qed.

(** Taking a configuration that exists into effect. *)
Lemma takeEffect_ok c : all_runs (takeEffectConfig c) (fun s s' =>
  mActiveConfigId (d_configs (ds_display s')) = Some c /\ mConfigs (d_configs (ds_display s')) = mConfigs (d_configs (ds_display s)) /\
  mVsyncThread (ds_display s') = mVsyncThread (ds_display s)).
Proof.
  unfold takeEffectConfig. intros s a s'. unfold mbind, St_bind. cbn.
  unfold in_world. destruct (onActiveConfigChange _ _ _) as [[e w]|]; [|done]. by intros [= <- <-].
Qed.

Definition keeps_configs s s' : Prop := configs_ok s -> configs_ok s'.
#[local] Instance keeps_configs_refl : Reflexive keeps_configs.
Proof. by intros s Hs. Qed.
#[local] Instance keeps_configs_trans : Transitive keeps_configs.
Proof. unfold keeps_configs. auto. Qed.

Lemma keeps_quiet {A} (m : St (DState C) A) : all_runs m quiet -> all_runs m keeps_configs.
Proof. apply all_runs_mono. intros s s'. exact (quiet_configs s s'). Qed.
#[local] Hint Extern 3 (all_runs _ keeps_configs) => (apply keeps_quiet; solve [eauto with all_runs]) : all_runs.
#[local] Ltac keeps := unfold display_get, shared_get, flow_set, vsync_set, call_back, set_pmem, set_parsers, set_next, getLayer; all_runs.

Lemma configs_setActive c t seamless : all_runs (setActiveConfigWithConstraints c t seamless) keeps_configs.
Proof.
  unfold setActiveConfigWithConstraints. intros s r s' E. apply st_bind_inv in E as (d & s0 & [= <- <-] & E).
  case_bool_decide; [by injection E as <- <-|]. destruct (getConfig _ c) as [n|] eqn:Ec; [|by injection E as <- <-]. cbn in Ec.
  destruct seamless.
  { match type of E with ?m _ = _ => assert (all_runs m keeps_configs) as Hm by keeps end. by eapply Hm. }
  unfold scheduleVsyncUpdate in E. apply st_bind_inv in E as (u & s1 & Eu & E). intros Hok.
  assert (configs_ok s1) as Hok1.
  { destruct (t =? 0).
    - apply st_bind_inv in Eu as ([] & s2 & [= <-] & Eu). apply st_bind_inv in Eu as (e & s3 & Et & [= <- <-]).
      destruct (takeEffect_ok c _ _ _ Et) as (Ha & Hm & Hp). cbn in *. destruct Hok as [_ Hok]. split; rewrite ?Ha, Hm, ?Hp; [by eauto|done].
    - apply st_bind_inv in Eu as ([] & s2 & [= <-] & [= <- <-]). destruct Hok as [Hok _]. split; [done|]. cbn. intros p [= <-]. by eauto. }
  revert Hok1. revert E. match goal with |- ?m s1 = _ -> _ => assert (all_runs m keeps_configs) as Hm by keeps end. apply Hm.
Qed.

Lemma configs_threadLoop now hw : all_runs (threadLoop now hw) keeps_configs.
Proof.
  unfold threadLoop. apply all_runs_bind; [apply _|keeps|intros v]. destruct (vt_pc v) as [| | |t|t|]; [keeps..| |keeps].
  apply all_runs_bind; [apply _|keeps|intros _]. apply all_runs_bind; [apply _| |keeps]. unfold updateVsyncPeriodLocked.
  intros s r s' E. apply st_bind_inv in E as (v1 & s0 & [= <- <-] & E). apply st_bind_inv in E as ([] & s1 & Eu & [= <- <-]).
  destruct (pending s) as [u|] eqn:Hu; [|by injection Eu as <-]. destruct (pu_updateAfter u <? t); [|by injection Eu as <-].
  apply st_bind_inv in Eu as ([] & s2 & [= <-] & Eu). apply st_bind_inv in Eu as (e & s3 & Et & [= <-]). intros [_ Hok].
  destruct (takeEffect_ok _ _ _ _ Et) as (Ha & Hm & Hp). split; cbn; [|done]. rewrite Ha, Hm. eexists. split; [done|]. by apply Hok.
Qed.

Lemma configs_updateParameters w h x y r edid : all_runs (updateParameters w h x y r edid) keeps_configs.
Proof.
  unfold updateParameters. intros s e s' E. apply st_bind_inv in E as (o & s0 & [= <- <-] & E). apply st_bind_inv in E as (id & s0 & Eo & E).
  unfold of_option in Eo. destruct (mActiveConfigId _) as [id'|] eqn:Ha; [|done]. injection Eo as <- <-.
  apply st_bind_inv in E as (o & s0 & [= <- <-] & E). destruct (getConfig _ id') as [c|] eqn:Ec; [|by injection E as <- <-].
  apply st_bind_inv in E as (p & s0 & Ep & E). assert (s0 = s) as -> by (unfold of_option in Ep; destruct (r =? 0); by simplify_eq/=).
  apply st_bind_inv in E as ([] & s1 & [= <-] & E). intros [Hok1 Hok2].
  match type of E with _ ?s1 = _ => assert (configs_ok s1) as Hok end.
  { split; cbn.
    - rewrite Ha. eexists. split; [done|]. rewrite lookup_insert_eq. eauto.
    - intros u Hu%Hok2. destruct (decide (id' = pu_configId u)) as [->|Hne]; [rewrite lookup_insert_eq|rewrite lookup_insert_ne by done]; eauto. }
  revert Hok. revert E. match goal with |- ?m ?s1 = _ -> _ => assert (all_runs m keeps_configs) as Hm by keeps end. apply Hm.
Qed.

(** *** The layers *)

Lemma ids_live s a id : ids s a = Some id <-> exists l, w_layers (sh_world (ds_shared s)) !! a = Some l /\ l_id l = id.
Proof. unfold layer_ids. rewrite fmap_Some. split; intros (l & ? & ?); exists l; by subst. Qed.

Lemma owns_inj s a id id' : layers_ok s -> mLayers (flow s) !! id = Some a -> mLayers (flow s) !! id' = Some a -> id = id'.
Proof. intros [Hl _ _ _] F1%Hl F2%Hl. congruence. Qed.

Lemma createLayer_op presetId : all_runs (createLayer presetId) op_ok.
Proof.
  unfold createLayer. intros s r s' E. apply st_bind_inv in E as (ls & s0 & [= <- <-] & E).
  destruct (_ && _) eqn:Eb; [by injection E as <- <-|]. apply st_bind_inv in E as (p & s0 & [= <- <-] & E).
  apply st_bind_inv in E as (n & s0 & [= <- <-] & E). destruct (layer_new _ _ _) as [l n'] eqn:El.
  apply st_bind_inv in E as ([] & s1 & [= <-] & E). apply st_bind_inv in E as (a & s2 & [= <- <-] & E).
  apply st_bind_inv in E as ([] & s3 & [= <-] & E). apply st_bind_inv in E as ([] & s4 & E4 & [= <- <-]).
  assert (forall b, b < heap s -> layer_ids (with_layers (sh_world (ds_shared s)) (<[heap s := l]> (w_layers (sh_world (ds_shared s))))) b = ids s b) as Hb.
  { intros b Hb. unfold layer_ids. cbn. by rewrite lookup_insert_ne by lia. }
  destruct (mLayers (flow s) !! l_id l) as [a0|] eqn:Ea; injection E4 as <-.
  - assert (forall b, b < heap s -> l_id <$> delete (heap s) (<[heap s := l]> (w_layers (sh_world (ds_shared s)))) !! b = ids s b) as Hd.
    { intros b Hlt. rewrite lookup_delete_ne by lia. by apply Hb. }
    split; cbn; [lia|by intros; apply Hd|by left|]. intros [L1 L2 L3 L4]. split; cbn; [|done..|].
    + intros id b Hid. rewrite <- (L1 id b Hid). apply Hd. by eapply L4.
    + intros id b Hid%L4. lia.
  - split; cbn; [lia|by intros; apply Hb| |].
    + intros b (id & Hid). cbn in Hid. apply lookup_insert_Some in Hid as [[_ <-]|[_ Hid]]; [by right|left; by exists id].
    + intros [L1 L2 L3 L4]. split; cbn.
      * intros id b [[<- <-]|[_ Hid]]%lookup_insert_Some; [unfold layer_ids; cbn; by rewrite lookup_insert_eq|].
        rewrite <- (L1 id b Hid). apply Hb. by eapply L4.
      * intros b (id & Hid)%L2. exists id. rewrite lookup_insert_ne; [done|]. intros E. by rewrite E, Hid in Ea.
      * done.
      * intros id b [[_ <-]|[_ Hid%L4]]%lookup_insert_Some; lia.
Qed.

(** What [resolve] finds. *)
Lemma resolve_Some l s ls s' : resolve l s = Some (ls, s') -> s' = s /\ ls.*1 = l /\ forall p, p ∈ ls -> w_layers (sh_world (ds_shared s)) !! p.1 = Some p.2.
Proof.
  revert ls s'. induction l as [|a l IH]; intros ls s' E; cbn [resolve] in E; [injection E as <- <-; split_and!; [done..|]; by intros p ?%elem_of_nil|].
  apply st_bind_inv in E as (x & s0 & Ex & E). unfold in_world, layer_at, mbind, St_bind, gets, of_option in Ex.
  destruct (w_layers _ !! a) as [x'|] eqn:Ea; cbn in Ex; [|done]. injection Ex as <- <-.
  apply st_bind_inv in E as (ls' & s1 & El & [= <- <-]). destruct s as [d [w n h ps pm cs]]. cbn in *.
  destruct (IH _ _ El) as (-> & F1 & F2). cbn in *. split_and!; [done|by rewrite F1|].
  intros p [->|Hp]%elem_of_cons; [done|by apply F2].
Qed.

Lemma destroyLayer_op layerId : all_runs (destroyLayer layerId) op_ok.
Proof.
  unfold destroyLayer. intros s r s' E. apply st_bind_inv in E as (o & s0 & [= <- <-] & E).
  destruct (mLayers (flow s) !! layerId) as [a|] eqn:Ea; [|by injection E as <- <-].
  apply st_bind_inv in E as (x & s0 & Ex & E). assert (all_runs (in_world (layer_at a)) quiet) as Hq by (apply quiet_in_world; eauto with all_runs).
  specialize (Hq _ _ _ Ex). apply st_bind_inv in E as (did & s1 & [= <- <-] & E). apply st_bind_inv in E as (e & s1 & Ec & E).
  assert (all_runs (in_world (onDisplayLayerDestroy (mDisplayId (ds_display s0)) a)) quiet) as Hq1 by (apply quiet_in_world; eauto with all_runs).
  specialize (Hq1 _ _ _ Ec). pose proof (quiet_still _ _ (transitivity Hq Hq1)) as Hst. clear Hq Hq1 Ex Ec.
  transitivity s1; [by apply still_op|].
  assert (mLayers (flow s1) !! layerId = Some a) as Ea1 by (rewrite (st_layers _ _ Hst); done). clear Hst Ea s s0 e.
  apply st_bind_inv in E as (ord & s & [= <- <-] & E). apply st_bind_inv in E as (ls & s & Er & E).
  apply resolve_Some in Er as (-> & Hord & Hls). apply st_bind_inv in E as ([] & s2 & [= <-] & E).
  apply st_bind_inv in E as ([] & s3 & [= <-] & E). apply st_bind_inv in E as ([] & s4 & [= <-] & E).
  match type of E with _ ?s = _ => set (s4 := s) in E end. transitivity s4.
  2:{ apply still_op, quiet_still. match type of E with ?m _ = _ => assert (all_runs m quiet) as Hm by quiet end. by eapply Hm. }
  split; [done| | |].
  - intros b _ Hb. unfold layer_ids. cbn. rewrite lookup_delete_ne; [done|]. intros <-. apply Hb. by exists layerId.
  - intros b (id & Hid). cbn in Hid. apply lookup_delete_Some in Hid as [_ Hid]. left. by exists id.
  - intros Hok. pose proof Hok as [L1 L2 L3 L4]. split; cbn.
    + intros id b [Hne Hid]%lookup_delete_Some. unfold layer_ids. cbn. rewrite lookup_delete_ne; [by apply L1|].
      intros <-. apply Hne. by eapply owns_inj.
    + intros b ([b' l] & -> & [Hne Hin]%list_elem_of_filter)%list_elem_of_fmap. cbn in *.
      destruct (L2 b') as (id & Hid); [rewrite <- Hord; by apply (list_elem_of_fmap_2 fst _ (b', l))|].
      exists id. rewrite lookup_delete_ne; [done|]. apply Hls in Hin. apply L1, ids_live in Hid as (l' & Hl' & <-). cbn in Hin. congruence.
    + eapply sublist_NoDup; [exact (eq_rect_r NoDup L3 Hord)|]. apply fmap_sublist, sublist_filter.
    + intros id b [_ Hid]%lookup_delete_Some. by eapply L4.
Qed.

Lemma NoDup_layers s : layers_ok s -> NoDup (map_to_list (mLayers (flow s))).*2.
Proof.
  intros Hok. apply NoDup_fmap_2_strong; [|apply NoDup_map_to_list].
  intros [i a] [j b] Hi%elem_of_map_to_list Hj%elem_of_map_to_list E. cbn in E. subst b. f_equal. by eapply owns_inj.
Qed.

(** The layers of the display in the order of the frame. *)
Lemma validate_order s ls : layers_ok s -> ls.*1 = (map_to_list (mLayers (flow s))).*2 ->
  (merge_sort layer_le ls).*1 ≡ₚ (map_to_list (mLayers (flow s))).*2 /\ NoDup (merge_sort layer_le ls).*1.
Proof.
  intros Hok E. assert ((merge_sort layer_le ls).*1 ≡ₚ (map_to_list (mLayers (flow s))).*2) as Hp by (by rewrite merge_sort_Permutation, E).
  split; [done|]. rewrite Hp. by apply NoDup_layers.
Qed.

Lemma validate_op : all_runs validate op_ok.
Proof.
  unfold validate. intros s r s' E. apply st_bind_inv in E as ([] & s1 & E1 & E).
  transitivity s1. { apply still_op, quiet_still. revert E1. match goal with |- ?m _ = _ -> _ => assert (all_runs m quiet) as Hm by quiet end. apply Hm. }
  clear E1 s. apply st_bind_inv in E as (l & s & [= <- <-] & E). apply st_bind_inv in E as (ls & s0 & Er & E).
  apply resolve_Some in Er as (-> & Hl & Hls). apply st_bind_inv in E as ([] & s2 & [= <-] & E).
  match type of E with _ ?s = _ => set (s4 := s) in E end. transitivity s4.
  - split; [done..|by left|]. intros Hok. destruct (validate_order s1 ls Hok Hl) as [Hp Hn]. pose proof Hok as [L1 L2 L3 L4]. split; cbn; [done| |done..].
    intros a Ha. rewrite Hp, list_elem_of_fmap in Ha. destruct Ha as ([id a'] & -> & Hid%elem_of_map_to_list). by exists id.
  - apply still_op, quiet_still. match type of E with ?m _ = _ => assert (all_runs m quiet) as Hm by quiet end. by eapply Hm.
Qed.

Lemma layer_command_quiet id c : all_runs (layer_command id c) quiet.
Proof.
  unfold layer_command. apply all_runs_bind; [apply _|unfold getLayer, display_get; all_runs|intros [a|]]; [|all_runs].
  intros s r s' E. apply st_bind_inv in E as (l & s0 & El & E). unfold in_world, layer_at, mbind, St_bind, gets, of_option in El.
  destruct (w_layers _ !! a) as [l0|] eqn:Ea; cbn in El; [|done]. injection El as <- <-.
  destruct (apply_layer_command c l0) as [e l'] eqn:Ec. apply apply_command_id in Ec.
  apply st_bind_inv in E as ([] & s1 & [= <-] & [= <- <-]). split; cbn; try done. intros b. unfold layer_ids. cbn.
  destruct (decide (a = b)) as [<-|Hne]; [|by rewrite lookup_alter_ne]. by rewrite lookup_alter_eq, Ea; cbn; rewrite Ec.
Qed.
End Invariant.

(** *** A display in use *)

Inductive display_op :=
  | OpInit (now : Z) (configs : list DisplayConfig) (activeConfigId : Z) (edid : option (list Z))
  | OpUpdateParameters (width height dpiX dpiY refreshRateHz : Z) (edid : option (list Z))
  | OpCreateLayer (presetId : Z)
  | OpDestroyLayer (layerId : Z)
  | OpLayerCommand (layerId : Z) (c : HwcLayer.layer_command)
  | OpPerFrameMetadata (layerId : Z) (m : list (option (PerFrameMetadataKey * spec_float)))
  | OpSetActiveConfig (configId desiredTimeNanos : Z) (seamlessRequired : bool)
  | OpSetBootConfig (configId : Z)
  | OpClearBootConfig
  | OpSetEdid (edid : list Z)
  | OpSetColorMode (mode : ColorMode) (intent : RenderIntent)
  | OpSetPowerMode (mode : PowerMode)
  | OpSetReadbackBuffer (buffer : option Z)
  | OpSetVsyncEnabled (enabled : bool)
  | OpSetColorTransform (m : list spec_float)
  | OpSetBrightness (b : spec_float)
  | OpSetClientTarget (buffer : option Z)
  | OpSetExpectedPresentTime (t : option Z)
  | OpRegisterCallback
  | OpSetDisplayCapabilities (caps : list DisplayCapability)
  | OpValidate
  | OpAcceptChanges
  | OpPresent
  | OpThread (now : Z) (hardware : option Z).

Definition is_init (o : display_op) : bool := match o with OpInit _ _ _ _ => true | _ => false end.

Section Reachable.
Context `{!HwcAbi, !DeviceComposerOps, !DeviceClient C, !HdrAbi, !DataspaceAbi, !DeviceOps}.
Implicit Types s : DState C.

Definition display_exec (o : display_op) : St (DState C) unit :=
  match o with
  | OpInit now configs active edid => display_init now configs active edid ;; mret tt
  | OpUpdateParameters w h x y r edid => updateParameters w h x y r edid ;; mret tt
  | OpCreateLayer id => createLayer id ;; mret tt
  | OpDestroyLayer id => destroyLayer id ;; mret tt
  | OpLayerCommand id c => layer_command id c ;; mret tt
  | OpPerFrameMetadata id m => layer_setPerFrameMetadata id m ;; mret tt
  | OpSetActiveConfig c t b => setActiveConfigWithConstraints c t b ;; mret tt
  | OpSetBootConfig c => setBootConfig c ;; mret tt
  | OpClearBootConfig => clearBootConfig ;; mret tt
  | OpSetEdid e => setEdid e ;; mret tt
  | OpSetColorMode m i => setColorMode m i ;; mret tt
  | OpSetPowerMode m => setPowerMode m ;; mret tt
  | OpSetReadbackBuffer b => setReadbackBuffer b ;; mret tt
  | OpSetVsyncEnabled b => setVsyncEnabled b ;; mret tt
  | OpSetColorTransform m => display_setColorTransform m ;; mret tt
  | OpSetBrightness b => display_setBrightness b ;; mret tt
  | OpSetClientTarget b => setClientTarget b ;; mret tt
  | OpSetExpectedPresentTime t => setExpectedPresentTime t ;; mret tt
  | OpRegisterCallback => registerCallback ;; mret tt
  | OpSetDisplayCapabilities l => setDisplayCapabilities l ;; mret tt
  | OpValidate => validate ;; mret tt
  | OpAcceptChanges => acceptChanges ;; mret tt
  | OpPresent => present ;; mret tt
  | OpThread now hw => threadLoop now hw
  end.

#[local] Hint Extern 1 (all_runs (display_set _) _) => (apply quiet_display_set; by intros) : all_runs.
#[local] Hint Extern 1 (all_runs (shared_set _) _) => (apply quiet_shared_set; intros; cbn; lia || done) : all_runs.
#[local] Hint Extern 1 (all_runs (in_world _) _) =>
  (apply quiet_in_world; first [solve [eauto with all_runs] | solve [apply kept_set_layer; by intros]]) : all_runs.
#[local] Hint Resolve quiet_setBootConfig quiet_getBootConfigId quiet_clearBootConfig quiet_setEdid quiet_accept layer_command_quiet : all_runs.
#[local] Ltac quiet_ops := unfold layer_setPerFrameMetadata, setColorMode, setPowerMode, setReadbackBuffer, setVsyncEnabled,
  display_setColorTransform, display_setBrightness, setClientTarget, setExpectedPresentTime, registerCallback, setDisplayCapabilities,
  acceptChanges, present, display_get, shared_get, flow_set, vsync_set, call_back, set_pmem, set_parsers, set_next, getLayer.

(** The operations that do not touch the list of layers or the configurations. *)
Definition is_quiet (o : display_op) : bool :=
  match o with
  | OpInit _ _ _ _ | OpUpdateParameters _ _ _ _ _ _ | OpCreateLayer _ | OpDestroyLayer _ | OpSetActiveConfig _ _ _ | OpValidate
  | OpThread _ _ => false
  | _ => true
  end.

Lemma quiet_exec o : is_quiet o = true -> all_runs (display_exec o) quiet.
Proof. destruct o; intros [=]; cbn [display_exec]; quiet_ops; all_runs. Qed.

Lemma then_ret {A} (m : St (DState C) A) R `{!Reflexive R, !Transitive R} : all_runs m R -> all_runs (m ;; mret tt) R.
Proof. intros Hm. apply all_runs_bind; [done|done|intros _]. by apply all_runs_ret. Qed.

Lemma exec_op o : all_runs (display_exec o) op_ok.
Proof.
  destruct (is_quiet o) eqn:Eq; [eapply all_runs_mono; [|by apply quiet_exec]; intros s s' Hq; by apply still_op, quiet_still|].
  assert (forall A (m : St (DState C) A), all_runs m still -> all_runs m op_ok) as Hs by (intros A m; apply all_runs_mono, still_op).
  destruct o; try done; cbn [display_exec]; first [apply then_ret; [apply _..|]|idtac].
  - apply Hs, still_init.
  - apply Hs, still_updateParameters.
  - apply createLayer_op.
  - apply destroyLayer_op.
  - apply Hs, still_setActiveConfig.
  - apply validate_op.
  - apply Hs, still_threadLoop.
Qed.

(** *** Operations on layers leave the configurations alone *)

Definition same_configs s s' : Prop :=
  d_configs (ds_display s') = d_configs (ds_display s) /\
  mPendingUpdate (mVsyncThread (ds_display s')) = mPendingUpdate (mVsyncThread (ds_display s)).
#[local] Instance same_configs_refl : Reflexive same_configs.
Proof. by intros s. Qed.
#[local] Instance same_configs_trans : Transitive same_configs.
Proof. intros s1 s2 s3 [? ?] [? ?]. split; congruence. Qed.

Lemma same_display_set (f : Display -> Display) : (forall d, d_configs (f d) = d_configs d) ->
  (forall d, mPendingUpdate (mVsyncThread (f d)) = mPendingUpdate (mVsyncThread d)) -> all_runs (display_set f) same_configs.
Proof. intros F1 F2. apply all_runs_modify. intros s. by split; cbn. Qed.

Lemma same_in_world {A} (m : St (World C) A) : all_runs (in_world m) same_configs.
Proof. intros s a s'. unfold in_world. destruct (m _) as [[b w]|]; [|done]. by intros [= <- <-]. Qed.

Lemma same_shared_set (f : Shared C -> Shared C) : all_runs (shared_set f) same_configs.
Proof. by apply all_runs_modify. Qed.

#[local] Hint Extern 1 (all_runs (display_set _) same_configs) => (apply same_display_set; by intros) : all_runs.
#[local] Hint Extern 1 (all_runs _ same_configs) => (apply same_in_world || apply same_shared_set) : all_runs.

Lemma same_resolve l : all_runs (resolve l) same_configs.
Proof. induction l as [|a l IH]; cbn [resolve]; all_runs. Qed.
#[local] Hint Resolve same_resolve : all_runs.

Lemma same_layer_ops o : match o with OpCreateLayer _ | OpDestroyLayer _ | OpValidate => true | _ => false end = true ->
  all_runs (display_exec o) same_configs.
Proof.
  destruct o; intros [=]; cbn [display_exec]; unfold createLayer, destroyLayer, validate, new_address, free_layer; quiet_ops; all_runs.
Qed.

Lemma exec_configs o : is_init o = false -> all_runs (display_exec o) keeps_configs.
Proof.
  intros Hi. destruct (is_quiet o) eqn:Eq; [eapply all_runs_mono; [|by apply quiet_exec]; intros s s'; exact (quiet_configs s s')|].
  assert (forall A (m : St (DState C) A), all_runs m keeps_configs -> all_runs (m ;; mret tt) keeps_configs) as Ht.
  { intros A m Hm s [] s' E. apply st_bind_inv in E as (a & s1 & E & [= <-]). by eapply Hm. }
  assert (forall m : St (DState C) unit, all_runs m same_configs -> all_runs m keeps_configs) as Hs.
  { intros m. apply all_runs_mono. intros s s' [F1 F2]. unfold keeps_configs, configs_ok. by rewrite F1, F2. }
  destruct o; try done; try (by apply Hs, same_layer_ops); cbn [display_exec].
  - apply Ht, configs_updateParameters.
  - apply Ht, configs_setActive.
  - apply configs_threadLoop.
Qed.

(** A display that has been set up has an active configuration, if nothing was pending. *)
Lemma init_configs now configs active edid s s' : mPendingUpdate (mVsyncThread (ds_display s)) = None ->
  display_init now configs active edid s = Some (NoError, s') -> configs_ok s'.
Proof.
  intros Hp E. unfold display_init in E. apply st_bind_inv in E as ([] & s1 & [= <-] & E).
  apply st_bind_inv in E as (boot & s2 & Eb & E). apply quiet_getBootConfigId in Eb.
  apply st_bind_inv in E as ([] & s3 & [= <-] & E). apply st_bind_inv in E as ([] & s4 & Et & E). apply quiet_take_edid in Et.
  apply st_bind_inv in E as ([] & s5 & En & E). apply quiet_new_parser in En.
  apply st_bind_inv in E as (o & s6 & [= <- <-] & E).
  destruct (getConfig _ _) as [c|] eqn:Ec; [|done].
  assert (configs_ok s5) as Hok.
  { assert (mPendingUpdate (mVsyncThread (ds_display s2)) = None) as Hp2 by (by rewrite (qu_pending _ _ Eb)). split.
    - unfold getConfig in Ec. rewrite (qu_configs _ _ En), (qu_configs _ _ Et) in *. cbn in *. eexists. split; [done|]. by eexists.
    - rewrite (qu_pending _ _ En), (qu_pending _ _ Et). cbn. intros u. by rewrite Hp2. }
  revert Hok. revert E. match goal with |- ?m _ = _ -> _ => assert (all_runs m keeps_configs) as Hm end; [|apply Hm].
  intros sa ra sb E. apply st_bind_inv in E as (st & s6 & [= <- <-] & E). apply st_bind_inv in E as ([] & s7 & E & [= <- <-]).
  destruct (mVsyncStarted _); [injection E as <-; by intros ?|]. apply st_bind_inv in E as (v & s8 & [= <- <-] & E).
  apply st_bind_inv in E as (v & s8 & Ev & [= <-]). unfold of_option in Ev. destruct (vsync_start _ _ _) as [v'|] eqn:Es; [|done].
  injection Ev as <- <-. unfold vsync_start in Es. apply bind_Some in Es as (p & _ & [= <-]). by intros [? ?].
Qed.

Lemma run_ops ops : all_runs (for_each ops display_exec) op_ok.
Proof. induction ops as [|o ops IH]; cbn [for_each]; [all_runs|]. apply all_runs_bind; [apply _|apply exec_op|by intros []]. Qed.

(** C18: Whatever is asked of a display that has been set up, and however the steps of its thread fall in between: the layers it
    knows are live and have the ids they are known by, the ordered layers it hands to the composer are among them, each once, and
    every layer that was there before the display still is, under the same id.  Unless the display is set up anew on the way, its
    active configuration, and the one that is to follow, exist. *)
Theorem display_reachable_ok id displayId port (sh : Shared C) now configs active edid s1 ops s2 :
  display_init now configs active edid (mkDState (display_new id displayId port) sh) = Some (NoError, s1) ->
  for_each ops display_exec s1 = Some (tt, s2) ->
  layers_ok s2 /\
  (Forall (fun o => is_init o = false) ops -> configs_ok s2) /\
  (forall a, a < sh_heap sh -> layer_ids (sh_world (ds_shared s2)) a = layer_ids (sh_world sh) a).
Proof.
  set (s0 := mkDState (display_new id displayId port) sh). intros Ei Eo.
  assert (op_ok s0 s2) as Hop.
  { transitivity s1; [by eapply still_op, still_init|by eapply run_ops]. }
  assert (forall a, ~ owns s0 a) as Hno by (intros a (i & Hi); cbn in Hi; by rewrite lookup_empty in Hi). split_and!.
  - apply (ok_layers _ _ Hop). split; cbn; [by intros ??; rewrite lookup_empty|by intros a ?%elem_of_nil|constructor|by intros ??; rewrite lookup_empty].
  - intros Hf. apply init_configs in Ei; [|done]. clear Hop Hno s0. revert s1 Ei Eo.
    induction Hf as [|o ops Ho _ IH]; intros s1 Hok Eo; cbn [for_each] in Eo; [by injection Eo as <-|].
    apply st_bind_inv in Eo as ([] & s & E & Eo). eapply IH; [|done]. by eapply (exec_configs o).
  - intros a Ha. by apply (ok_other _ _ Hop).
Qed.
End Reachable.

(** ** An example *)

(** A file with one entry. *)
Definition demo_ops : DeviceOps := {|
  json_parse s := Some {[ "0"%string := s ]};
  toStyledString d := default EmptyString (d !! "0"%string);
  ParseInt s := stoi s;
  edid_junk := replicate 128 0
|}.

Definition demo_configs : list DisplayConfig :=
  [mkConfig 1 1920 1080 160 160 16666666 (Some 0); mkConfig 2 1920 1080 160 160 20000000 (Some 0);
   mkConfig 3 1280 720 160 160 16666666 (Some 1)].

Definition demo_shared : Shared demo_client :=
  mkShared (mkWorld ∅ {[0 := ([31], [31])]} {[0 := no_buffers]} ∅ [] [] 0) 1 1 ∅ (mkPmem true (Some EmptyString) true) [].

Section Demo.
#[local] Existing Instances demo_abi demo_composer demo_device demo_hdr demo_dataspace demo_ops.

(** A display set up with the first configuration at the time 100000000. *)
Definition demo_started : option (Error * DState demo_client) :=
  display_init 100000000 demo_configs 1 None (mkDState (display_new 0 0 5) demo_shared).

Definition demo_state : DState demo_client :=
  match demo_started with Some (_, s) => s | None => mkDState (display_new 0 0 5) demo_shared end.

Definition demo_requests : list display_op :=
  [OpRegisterCallback; OpSetVsyncEnabled true; OpCreateLayer 11; OpCreateLayer 12;
   OpLayerCommand 11 (SetCompositionType CLIENT); OpLayerCommand 12 (SetCompositionType CLIENT); OpLayerCommand 12 (SetZOrder (-1));
   OpValidate; OpAcceptChanges; OpPresent; OpSetActiveConfig 2 150000000 false; OpDestroyLayer 11;
   OpThread 101000000 None; OpThread 101000000 None; OpThread 117000000 None; OpThread 117000000 None; OpThread 117000000 None].

Definition demo_after : option (unit * DState demo_client) := for_each demo_requests display_exec demo_state.

Example demo_runs : bool_decide (is_Some demo_after) = true.
Proof. vm_compute. reflexivity. Qed.

Lemma display_reachable_ok_witness : exists s2, for_each demo_requests display_exec demo_state = Some (tt, s2) /\ layers_ok s2 /\ configs_ok s2.
Proof.
  destruct (for_each demo_requests display_exec demo_state) as [[[] s2]|] eqn:E; [|vm_compute in E; discriminate].
  destruct (display_reachable_ok 0 0 5 demo_shared 100000000 demo_configs 1 None demo_state demo_requests s2) as (Hl & Hc & _).
  - vm_compute. reflexivity.
  - exact E.
  - exists s2. split; [reflexivity|]. split; [exact Hl|]. apply Hc. repeat constructor.
Defined.

(** The layers in the order of the frame. *)
Example demo_order :
  (s ← demo_after; Some (mOrderedLayers (d_flow (ds_display s.2)), sh_calls (ds_shared s.2))) =
  Some ([3], [OnVsync 0 116666666 16666666]).
Proof. vm_compute. reflexivity. Qed.
End Demo.
