(* ===== verification/HwcVsync.v ===== *)
(** * The vertical syncs of a display, and its configuration changes

    Properties of [HwcDisplay] over time: the syncs a display reports when its hardware
    has none are in phase and in order, whatever else is asked of the display; and what
    the handling of configurations loses. *)

From Stdlib Require Import Ascii String.
From S2P Require Import Prelude CppText Edid HwcEdid HwcLayer FrameComposer HwcDisplay.

(** ** The next sync *)

(** The next sync is later than now, by a period at most, and in phase. *)
Lemma next_vsync P previous now : 0 < P < 2 ^ 31 -> - 2 ^ 61 <= previous <= now -> now < 2 ^ 61 ->
  exists t, GetNextVsyncInPhase P previous now = Some t /\ now < t <= now + P /\ (t - previous) mod P = 0.
Proof.
  intros HP Hprev Hnow. unfold GetNextVsyncInPhase, checked_s. rewrite decide_True by lia. cbn [mbind option_bind].
  rewrite (proj2 (Z.eqb_neq P 0)) by lia. rewrite Z.quot_div_nonneg by lia.
  pose proof (Z.div_mod (now - previous) P ltac:(lia)) as E. pose proof (Z.mod_pos_bound (now - previous) P ltac:(lia)).
  assert (0 <= (now - previous) / P <= now - previous) by (split; [apply Z.div_pos; lia|apply Z.div_le_upper_bound; nia]).
  rewrite decide_True by lia. cbn [mbind option_bind]. rewrite decide_True by nia. cbn [mbind option_bind]. rewrite decide_True by nia.
  eexists. split; [done|]. split; [nia|]. replace (previous + _ - previous) with (((now - previous) / P + 1) * P) by lia.
  apply Z.mod_mul. lia.
Qed.

(** The comment over the function promises 550. *)
Example next_vsync_at_sync : GetNextVsyncInPhase 50 500 550 = Some 600 /\ GetNextVsyncInPhase 50 500 510 = Some 550 /\
  GetNextVsyncInPhase 50 300 510 = Some 550.
Proof. done. Qed.

(** ** The syncs a display reports *)

Definition vsyncs (hwc : Z) (calls : list callback) : list Z :=
  omap (fun e => match e with OnVsync h t _ => if h =? hwc then Some t else None | _ => None end) calls.

Lemma vsyncs_snoc hwc calls e : vsyncs hwc (calls ++ [e]) = vsyncs hwc calls ++ vsyncs hwc [e].
Proof. apply omap_app. Qed.

(** Requests that leave the period alone, on a display without hardware syncs, with a clock that does not go back. *)
Fixpoint calm_run (clock : Z) (ops : list display_op) : Prop :=
  match ops with
  | [] => True
  | OpThread now hw :: ops' => clock <= now < 2 ^ 61 /\ hw = None /\ calm_run now ops'
  | (OpInit _ _ _ _ | OpSetActiveConfig _ _ _) :: _ => False
  | _ :: ops' => calm_run clock ops'
  end.

(** The last time the thread has seen. *)
Fixpoint last_clock (clock : Z) (ops : list display_op) : Z :=
  match ops with [] => clock | OpThread now _ :: ops' => last_clock now ops' | _ :: ops' => last_clock clock ops' end.

Section Syncs.
Context `{!HwcAbi, !DeviceComposerOps, !DeviceClient C, !HdrAbi, !DataspaceAbi, !DeviceOps}.
Implicit Types s : DState C.
Abbreviation thread s := (mVsyncThread (ds_display s)).
Abbreviation calls s := (sh_calls (ds_shared s)).
Abbreviation hwc s := (mId (ds_display s)).

(** Nothing but whether syncs are wanted changes. *)
Record same_thread s s' : Prop := {
  sm_pc : vt_pc (thread s') = vt_pc (thread s);
  sm_local : vt_local (thread s') = vt_local (thread s);
  sm_period : mVsyncPeriod (thread s') = mVsyncPeriod (thread s);
  sm_previous : mPreviousVsync (thread s') = mPreviousVsync (thread s);
  sm_pending : mPendingUpdate (thread s') = mPendingUpdate (thread s);
  sm_hwc : hwc s' = hwc s;
  sm_calls : forall h, vsyncs h (calls s') = vsyncs h (calls s)
}.
#[local] Instance same_thread_refl : Reflexive same_thread.
Proof. by intros s. Qed.
#[local] Instance same_thread_trans : Transitive same_thread.
Proof. intros s1 s2 s3 [] []. split; congruence. Qed.

Lemma same_thread_display (f : Display -> Display) : (forall s, same_thread s (mkDState (f (ds_display s)) (ds_shared s))) ->
  all_runs (display_set f) same_thread.
Proof. intros Hf. by apply all_runs_modify. Qed.

Lemma same_thread_in_world {A} (m : St (World C) A) : all_runs (in_world m) same_thread.
Proof. intros s a s'. unfold in_world. destruct (m _) as [[b w]|]; [|done]. by intros [= <- <-]. Qed.

Lemma same_thread_shared (f : Shared C -> Shared C) : (forall sh, sh_calls (f sh) = sh_calls sh) -> all_runs (shared_set f) same_thread.
Proof. intros Hf. apply all_runs_modify. intros s. split; try done. cbn. by rewrite Hf. Qed.

Lemma same_thread_refresh h : all_runs (call_back (OnRefresh h)) same_thread.
Proof. apply all_runs_modify. intros s. split; try done. intros h0. cbn [calls ds_shared sh_calls]. rewrite vsyncs_snoc. cbn. by rewrite app_nil_r. Qed.

#[local] Hint Extern 1 (all_runs (display_set _) _) => (apply same_thread_display; by intros) : all_runs.
#[local] Hint Extern 1 (all_runs (shared_set _) _) => (apply same_thread_shared; by intros) : all_runs.
#[local] Hint Resolve same_thread_in_world same_thread_refresh : all_runs.

Lemma same_thread_resolve l : all_runs (resolve l) same_thread.
Proof. induction l as [|a l IH]; cbn [resolve]; all_runs. Qed.
Lemma same_thread_accept l : all_runs (accept_changes l) same_thread.
Proof. induction l as [|[a c] l IH]; cbn [accept_changes]; unfold getLayer, display_get; all_runs. Qed.
#[local] Hint Resolve same_thread_resolve same_thread_accept : all_runs.

Lemma same_thread_exec o : match o with OpInit _ _ _ _ | OpSetActiveConfig _ _ _ | OpThread _ _ => false | _ => true end = true ->
  all_runs (display_exec o) same_thread.
Proof.
  destruct o; intros [=]; cbn [display_exec]; unfold updateParameters, createLayer, destroyLayer, validate, layer_command, setBootConfig,
    clearBootConfig, setEdid, new_parser, take_edid, free_layer, new_address, layer_setPerFrameMetadata, setColorMode, setPowerMode,
    setReadbackBuffer, setVsyncEnabled, display_setColorTransform, display_setBrightness, setClientTarget, setExpectedPresentTime,
    registerCallback, setDisplayCapabilities, acceptChanges, present, flow_set, vsync_set, set_pmem, set_parsers, set_next, getLayer,
    display_get, shared_get; all_runs.
Qed.

(** The thread between two steps, with the period [P] and the phase [p0], at the time [clock]; [vs] is what was reported. *)
Record ticking (P p0 clock : Z) (vs : list Z) s : Prop := {
  ti_period : mVsyncPeriod (thread s) = P;
  ti_local : vt_pc (thread s) <> Starting -> vt_local (thread s) = P;
  ti_pending : mPendingUpdate (thread s) = None;
  ti_phase : (mPreviousVsync (thread s) - p0) mod P = 0;
  ti_low : p0 <= mPreviousVsync (thread s) <= clock;
  ti_pc : match vt_pc (thread s) with
          | NotStarted => False
          | Starting | Looking => True
          | Sleeping t => mPreviousVsync (thread s) < t /\ (t - p0) mod P = 0
          | Updating t => mPreviousVsync (thread s) < t <= clock /\ (t - p0) mod P = 0
          | Notifying => Forall (fun t => t < mPreviousVsync (thread s)) vs /\ p0 < mPreviousVsync (thread s)
          end;
  ti_sorted : StronglySorted Z.lt vs;
  ti_vs : Forall (fun t => p0 < t <= mPreviousVsync (thread s) /\ (t - p0) mod P = 0) vs
}.

Lemma ticking_later P p0 clock clock' vs s : clock <= clock' -> ticking P p0 clock vs s -> ticking P p0 clock' vs s.
Proof. intros Hle [? ? ? ? [] Hpc ? ?]. split; try done; [lia|]. destruct (vt_pc _); try done. lia. Qed.

Lemma ticking_same P p0 clock vs s s' : same_thread s s' -> ticking P p0 clock vs s -> ticking P p0 clock vs s'.
Proof. intros [F1 F2 F3 F4 F5 _ _] []. by split; rewrite ?F1, ?F2, ?F3, ?F4, ?F5. Qed.

Lemma mod_step P a b p0 : 0 < P -> (a - b) mod P = 0 -> (b - p0) mod P = 0 -> (a - p0) mod P = 0.
Proof. intros HP F1 F2. replace (a - p0) with ((a - b) + (b - p0)) by lia. by rewrite Z.add_mod, F1, F2 by lia. Qed.

(** A step of the thread is defined and reports at most one sync. *)
Lemma ticking_step P p0 clock vs now s : 0 < P < 2 ^ 31 -> - 2 ^ 61 <= p0 -> clock <= now < 2 ^ 61 -> ticking P p0 clock vs s ->
  exists s' vs', threadLoop now None s = Some (tt, s') /\ ticking P p0 now (vs ++ vs') s' /\ hwc s' = hwc s /\
    vsyncs (hwc s) (calls s') = vsyncs (hwc s) (calls s) ++ vs'.
Proof.
  intros HP Hp0 Hnow Ht. pose proof (ticking_later P p0 clock now vs s ltac:(lia) Ht) as Ht'. clear Ht.
  destruct s as [d sh]. destruct d as [hid did port cbk pw st [pc loc cb en per prev pen] tgt rb ex fl cf co ed caps].
  pose proof Ht' as [T1 T2 T3 T4 T5 T6 T7 T8]. cbn in *. subst per pen. set (d := mkDisplay _ _ _ _ _ _ _ _ _ _ _ _ _ _ _) in *.
  assert (forall s' vs', threadLoop now None (mkDState d sh) = Some (tt, s') -> ticking P p0 now (vs ++ vs') s' -> hwc s' = hid ->
    vsyncs hid (calls s') = vsyncs hid (sh_calls sh) ++ vs' -> exists s' vs', threadLoop now None (mkDState d sh) = Some (tt, s') /\
    ticking P p0 now (vs ++ vs') s' /\ hwc s' = hid /\ vsyncs hid (calls s') = vsyncs hid (sh_calls sh) ++ vs') as Hex by eauto 10.
  unfold d in *. clear d. unfold threadLoop, updateVsyncPeriodLocked, mbind, St_bind in *. cbn in *.
  destruct pc as [| | |t|t|]; try done; cbn; cbn in T2, T6.
  - eapply (Hex _ []); rewrite ?app_nil_r; [done| |done..]. split; cbn; try done.
  - destruct (next_vsync P prev now) as (t & Hn & Hlt & Hm); [lia..|]. rewrite T2, Hn in * by done. replace (if en then None else None) with (@None Z) in * by (by destruct en).
    cbn in *. eapply (Hex _ []); rewrite ?app_nil_r; [done| |done..]. split; cbn; try done.
    split; [lia|]. by eapply mod_step; [lia|exact Hm|].
  - destruct (Z.leb_spec t now); cbn in *; (eapply (Hex _ []); rewrite ?app_nil_r; [done| |done..]; split; cbn; try done); first [lia | intros _; by apply T2].
  - eapply (Hex _ []); rewrite ?app_nil_r; [done| |done..]. split; cbn; try done; [lia..| |].
    + split; [|lia]. eapply Forall_impl; [exact T8|]. cbn. lia.
    + eapply Forall_impl; [exact T8|]. cbn. intros x [? ?]. split; [lia|done].
  - rewrite T2 in * by done. destruct T6 as [T6 T6'].
    assert (StronglySorted Z.lt (vs ++ [prev])) as Hsort.
    { clear - T6 T7. induction T7 as [|x l Hl IH Hf]; cbn; [repeat constructor|]. apply Forall_cons in T6 as [Hx T6].
      constructor; [by apply IH|]. apply Forall_app. split; [done|by constructor]. }
    assert (Forall (fun t => p0 < t <= prev /\ (t - p0) mod P = 0) (vs ++ [prev])) as Hall.
    { apply Forall_app. split; [done|]. constructor; [|done]. split; [lia|done]. }
    destruct (en && cb) eqn:Eb; cbn in *.
    + eapply (Hex _ [prev]); [done| |done|cbn [ds_shared sh_calls]; rewrite vsyncs_snoc; cbn; by rewrite Z.eqb_refl]. by split; cbn.
    + eapply (Hex _ []); rewrite ?app_nil_r; [done| |done..]. by split; cbn.
Qed.

(** C40: A display without hardware syncs that runs with a period reports syncs in strictly increasing order, each one a whole number
    of periods after the start and none before its time, in any run that keeps the period: without a change of configuration and
    without setting the display up anew, whatever else is asked between the steps of the thread, while the clock does not go
    back. *)
Theorem vsyncs_in_phase P p0 clock vs0 ops s s' : 0 < P < 2 ^ 31 -> - 2 ^ 61 <= p0 -> ticking P p0 clock vs0 s -> calm_run clock ops ->
  for_each ops display_exec s = Some (tt, s') ->
  exists vs, vsyncs (hwc s) (calls s') = vsyncs (hwc s) (calls s) ++ vs /\ StronglySorted Z.lt (vs0 ++ vs) /\
    Forall (fun t => p0 < t <= last_clock clock ops /\ (t - p0) mod P = 0) vs.
Proof.
  intros HP Hp0. assert (forall clock ops vs0 s, ticking P p0 clock vs0 s -> calm_run clock ops -> for_each ops display_exec s = Some (tt, s') ->
    exists vs, vsyncs (hwc s) (calls s') = vsyncs (hwc s) (calls s) ++ vs /\ ticking P p0 (last_clock clock ops) (vs0 ++ vs) s') as Hgen.
  { clear s. clear clock vs0 ops. intros clock ops. revert clock. induction ops as [|o ops IH]; intros clock vs0 s Ht Hc E.
    { injection E as <-. exists []. by rewrite !app_nil_r. }
    cbn [for_each] in E. apply st_bind_inv in E as ([] & s1 & E1 & E).
    destruct (match o with OpInit _ _ _ _ | OpSetActiveConfig _ _ _ | OpThread _ _ => false | _ => true end) eqn:Eo.
    - pose proof (same_thread_exec o Eo _ _ _ E1) as Hs. destruct (IH clock vs0 s1) as (vs & Hv & Htk);
        [by eapply ticking_same|by destruct o|done|]. rewrite (sm_hwc _ _ Hs), (sm_calls _ _ Hs) in Hv. exists vs. split; [done|]. by destruct o.
    - destruct o as [| | | | | | | | | | | | | | | | | | | | | | |now hw]; try done. destruct Hc as (Hnow & -> & Hc).
      destruct (ticking_step P p0 clock vs0 now s) as (s2 & vs1 & E2 & Ht2 & Hh & Hv1); [done..|]. cbn [display_exec] in E1. rewrite E2 in E1. injection E1 as <-.
      destruct (IH now _ s2 Ht2 Hc E) as (vs & Hv & Htk). exists (vs1 ++ vs). rewrite Hh, Hv1 in Hv. by rewrite !app_assoc, <- (app_assoc vs0) in *. }
  intros Ht Hc E. destruct (Hgen _ _ _ _ Ht Hc E) as (vs & Hv & [T1 T2 T3 T4 T5 T6 T7 T8]). exists vs. split_and!; [done..|].
  apply Forall_app in T8 as [_ T8]. eapply Forall_impl; [exact T8|]. cbn. intros t [? ?]. split; [lia|done].
Qed.

(** A display whose syncs are wanted reports one within a period, once its thread has run on past it. *)
Lemma sync_arrives P p0 clock vs now later s : 0 < P < 2 ^ 31 -> - 2 ^ 61 <= p0 -> clock <= now -> now + P <= later < 2 ^ 61 ->
  ticking P p0 clock vs s -> vt_pc (thread s) = Looking -> mVsyncEnabled (thread s) = true -> vt_callbacks (thread s) = true ->
  exists s' t, for_each [OpThread now None; OpThread later None; OpThread later None; OpThread later None] display_exec s = Some (tt, s') /\
    vsyncs (hwc s) (calls s') = vsyncs (hwc s) (calls s) ++ [t] /\ now < t <= now + P /\ (t - p0) mod P = 0.
Proof.
  intros HP Hp0 Hnow Hlater [T1 T2 T3 T4 T5 _ _ _] Hpc He Hcb.
  destruct s as [d sh]. destruct d as [hid did port cbk pw st [pc loc cb en per prev pen] tgt rb ex fl cf co ed caps]. cbn in *. subst.
  destruct (next_vsync P prev now) as (t & Hn & Hlt & Hm); [lia..|]. specialize (T2 ltac:(done)). subst loc.
  unfold threadLoop, updateVsyncPeriodLocked, mbind, St_bind. cbn. rewrite Hn. cbn. rewrite (proj2 (Z.leb_le t later)) by lia. cbn.
  eexists _, t. split; [done|]. split; [cbn [ds_shared sh_calls]; rewrite vsyncs_snoc; cbn; by rewrite Z.eqb_refl|].
  split; [done|]. by eapply mod_step; [lia|exact Hm|].
Qed.

(** ** Configurations *)

(** The entry of the file is never looked at. *)
Lemma boot_config_never_read s : getBootConfigId s = Some (None, s).
Proof.
  unfold getBootConfigId, mbind, St_bind. cbn. destruct (persistentKeyValueEnabled _); cbn; [|done].
  unfold getPersistentKeyValue. destruct (loadPersistentKeyValues _) as [e m]. destruct (is_ok e) eqn:Ei; cbn; [by destruct (m !! _)|by rewrite Ei].
Qed.

(** A configuration that is to come later is still to come after one was taken at once. *)
Lemma pending_survives c s r s' : setActiveConfigWithConstraints c 0 false s = Some (r, s') ->
  mPendingUpdate (thread s') = mPendingUpdate (thread s).
Proof.
  unfold setActiveConfigWithConstraints. intros E. apply st_bind_inv in E as (d & s0 & [= <- <-] & E).
  case_bool_decide; [by injection E as <- <-|]. destruct (getConfig _ c) as [n|]; [|by injection E as <- <-].
  unfold scheduleVsyncUpdate in E. cbn [Z.eqb] in E. apply st_bind_inv in E as (u & s1 & Eu & E).
  apply st_bind_inv in Eu as ([] & s2 & [= <-] & Eu). apply st_bind_inv in Eu as (e & s3 & Et & [= <- <-]).
  apply takeEffect_ok in Et as (_ & _ & Ht). apply st_bind_inv in E as (v & s4 & [= <- <-] & E).
  apply st_bind_inv in E as (t & s4 & Ev & [= <- <-]). unfold of_option in Ev. destruct (GetNextVsyncInPhase _ _ _); [|done].
  injection Ev as <- <-. by rewrite Ht.
Qed.

(** The configuration of the next boot has no effect on how a display is set up. *)
Lemma boot_config_lost now configs active edid s e s' : display_init now configs active edid s = Some (e, s') ->
  mActiveConfigId (d_configs (ds_display s')) = Some active.
Proof.
  intros E. unfold display_init in E. apply st_bind_inv in E as ([] & s1 & [= <-] & E).
  apply st_bind_inv in E as (boot & s2 & Eb & E). rewrite boot_config_never_read in Eb. injection Eb as <- <-.
  apply st_bind_inv in E as ([] & s3 & [= <-] & E). apply st_bind_inv in E as ([] & s4 & Et & E). apply quiet_take_edid in Et.
  apply st_bind_inv in E as ([] & s5 & En & E). apply quiet_new_parser in En.
  apply st_bind_inv in E as (o & s6 & [= <- <-] & E).
  assert (mActiveConfigId (d_configs (ds_display s5)) = Some active) as Ha by (by rewrite (qu_configs _ _ En), (qu_configs _ _ Et)).
  destruct (getConfig _ _) as [c|]; [|by injection E as <- <-]. apply st_bind_inv in E as (st & s6 & [= <- <-] & E).
  apply st_bind_inv in E as ([] & s7 & E & [= <- <-]). destruct (mVsyncStarted _); [by injection E as <-|].
  apply st_bind_inv in E as (v & s8 & [= <- <-] & E). apply st_bind_inv in E as (v & s8 & Ev & [= <-]).
  unfold of_option in Ev. by destruct (vsync_start _ _ _); [injection Ev as <- <-|].
Qed.
End Syncs.

(** ** Examples *)

Section Demo.
#[local] Existing Instances demo_abi demo_composer demo_device demo_hdr demo_dataspace demo_ops.

Definition demo_syncs : list display_op :=
  [OpThread 100000000 None; OpRegisterCallback; OpThread 100000000 None; OpSetVsyncEnabled true; OpThread 116666666 None;
   OpThread 116666666 None; OpCreateLayer 11; OpThread 116700000 None; OpThread 120000000 None; OpValidate; OpThread 140000000 None;
   OpThread 140000000 None; OpThread 140000000 None].

Definition demo_syncs_after : DState demo_client :=
  match for_each demo_syncs display_exec demo_state with Some (_, s) => s | None => demo_state end.

Lemma vsyncs_in_phase_witness : exists vs, vsyncs 0 (sh_calls (ds_shared demo_syncs_after)) = [] ++ vs /\ StronglySorted Z.lt ([] ++ vs) /\
  Forall (fun t => 83333334 < t <= 140000000 /\ (t - 83333334) mod 16666666 = 0) vs.
Proof.
  apply (vsyncs_in_phase 16666666 83333334 100000000 [] demo_syncs demo_state demo_syncs_after).
  - lia.
  - lia.
  - split.
    + vm_compute. reflexivity.
    + intros E. destruct E. vm_compute. reflexivity.
    + vm_compute. reflexivity.
    + vm_compute. reflexivity.
    + vm_compute. split; discriminate.
    + vm_compute. exact I.
    + constructor.
    + constructor.
  - repeat first [split | lia | reflexivity].
  - vm_compute. reflexivity.
Defined.

Example demo_syncs_reported : vsyncs 0 (sh_calls (ds_shared demo_syncs_after)) = [116666666; 133333332].
Proof. vm_compute. reflexivity. Qed.

(** Configuration 2 is to follow at 150000000; configuration 3 is taken at once, and at the next sync 2 replaces it. *)
Example pending_replaces_later_choice :
  (s ← for_each [OpSetActiveConfig 2 150000000 false; OpSetActiveConfig 3 0 false; OpThread 100000000 None; OpThread 160000000 None;
                 OpThread 170000000 None; OpThread 170000000 None] display_exec demo_state;
   Some (mActiveConfigId (d_configs (ds_display s.2)))) = Some (Some 2).
Proof. vm_compute. reflexivity. Qed.

(** A display that is set up again has a new parser; the metadata of an old layer goes to the old one, and what was pending
    takes effect although the display has no such configuration any more. *)
Example reinit_frees_parser :
  bool_decide (is_Some (for_each [OpCreateLayer 11; OpInit 1 demo_configs 1 None] display_exec demo_state)) = true /\
  for_each [OpCreateLayer 11; OpInit 1 demo_configs 1 None; OpPerFrameMetadata 11 []] display_exec demo_state = None /\
  (s ← for_each [OpSetActiveConfig 2 150000000 false; OpInit 1 [mkConfig 7 640 480 160 160 16666666 (Some 0)] 7 None; OpThread 100000000 None;
                 OpThread 160000000 None; OpThread 170000000 None; OpThread 170000000 None] display_exec demo_state;
   Some (getDisplayVsyncPeriod (ds_display s.2))) = Some (BadConfig, None).
Proof. split_and!; vm_compute; reflexivity. Qed.

(** A matrix that begins like the identity and is longer is compared beyond the identity's end. *)
Example long_matrix_undefined : display_setColorTransform (kIdentity ++ [float 1]) demo_state = None.
Proof. vm_compute. reflexivity. Qed.

(** NaN is a brightness. *)
Example nan_brightness :
  (s ← for_each [OpSetDisplayCapabilities [BRIGHTNESS]; OpSetBrightness S754_nan] display_exec demo_state;
   Some (w_history (sh_world (ds_shared s.2)))) = Some [Backlight 0 S754_nan].
Proof. vm_compute. reflexivity. Qed.

(** The id of a layer may be taken; the answer is then the id of the old layer. *)
Example generated_id_taken :
  (s ← for_each [OpCreateLayer 1] display_exec demo_state; r ← createLayer 0 s.2;
   Some (r.1, map_to_list (mLayers (d_flow (ds_display r.2))))) = Some ((NoError, 1), [(1, 2)]).
Proof. vm_compute. reflexivity. Qed.

(** A display whose active configuration is missing cannot be destroyed. *)
Example failed_display_ends_service :
  (r ← display_init 1 [] 1 None (mkDState (display_new 0 0 5) demo_shared); Some r.1) = Some NoResources /\
  (r ← display_init 1 [] 1 None (mkDState (display_new 0 0 5) demo_shared); display_delete r.2) = None.
Proof. split; vm_compute; reflexivity. Qed.
End Demo.
