(* ===== verification/HwcFrame.v ===== *)
(** * A frame from the layers to the hardware

    [Display::validate], [acceptChanges] and [present] together, over any display
    hardware that keeps the laws of [DeviceClient]: the layers the framework has set
    reach the hardware the way the validation decided. *)

From S2P Require Import Prelude CppText Edid HwcEdid HwcLayer FrameComposer HwcDisplay.

(** ** What a validation leaves as it is *)

Section Validation.
Context `{!HwcAbi, !DeviceComposerOps, !DeviceClient C, !DeviceClientLaws C}.
Implicit Types w : World C.

(** A client after some choices of planes. *)
Definition client_kept (d : Z) (c c' : C) : Prop :=
  (client_ok d c -> client_ok d c') /\ (forall bs, buffers_ok c bs -> buffers_ok c' bs) /\ (forall t m, cached c' t m -> cached c t m).

Record validation_frame (d : Z) w w' : Prop := {
  vf_layers : w_layers w' = w_layers w;
  vf_display_buffers : mDisplayBuffers w' = mDisplayBuffers w;
  vf_buffers : w_buffers w' = w_buffers w;
  vf_history : w_history w' = w_history w;
  vf_clients : forall k, match mDeviceClients w !! k with
    | Some c => exists c', mDeviceClients w' !! k = Some c' /\ client_kept d c c'
    | None => mDeviceClients w' !! k = None
    end
}.

#[local] Instance validation_frame_refl d : Reflexive (validation_frame d).
Proof. intros w. split; try done. intros k. destruct (mDeviceClients w !! k) as [c|]; [|done]. by exists c. Qed.

#[local] Instance validation_frame_trans d : Transitive (validation_frame d).
Proof.
  intros w1 w2 w3 [E1 E2 E3 E4 E5] [F1 F2 F3 F4 F5]. split; try congruence. intros k. specialize (E5 k). specialize (F5 k).
  destruct (mDeviceClients w1 !! k) as [c|]; [|by rewrite E5 in F5]. destruct E5 as (c2 & E5 & G1 & G2 & G3). rewrite E5 in F5.
  destruct F5 as (c3 & F5 & K1 & K2 & K3). exists c3. split; [done|]. split_and!; auto.
Qed.

Lemma frame_set_validated d x v : all_runs (set_validated (C := C) x v) (validation_frame d).
Proof.
  apply all_runs_modify. intros w. split; try done. intros k. cbn. destruct (mDeviceClients w !! k) as [c|]; [|done]. by exists c.
Qed.

Lemma frame_call {A} d k (f : C -> A * C) : (forall c, client_kept d c (f c).2) -> all_runs (client_call k f) (validation_frame d).
Proof.
  intros Hf w a w' E. unfold client_call in E. apply st_bind_inv in E as (m & w1 & [= <- <-] & E).
  apply st_bind_inv in E as (c & w1 & Ec & E). unfold of_option in Ec. destruct (mDeviceClients w !! k) as [c0|] eqn:Hc; [|done].
  injection Ec as <- <-. apply st_bind_inv in E as ([] & w1 & [= <-] & [= <- <-]). split; try done. intros k'. cbn.
  destruct (decide (k' = k)) as [->|Hne]; [rewrite Hc, lookup_insert_eq|rewrite lookup_insert_ne by done]; [by exists (f c0).2|].
  destruct (mDeviceClients w !! k') as [c|]; [|done]. by exists c.
Qed.

Lemma kept_prepare d b c : client_kept d c (prepareDrmPlanesForValidate d b c).2.
Proof.
  destruct (prepare_keeps d b c) as [? ?]. split; [|done]. intros Hok. destruct (prepareDrmPlanesForValidate d b c) as [o c'] eqn:E.
  by destruct (prepare_ok d b c o c' E Hok).
Qed.

Lemma kept_plane d h c : client_kept d c (getPlaneForLayerBuffer d h c).2.
Proof.
  destruct (plane_keeps d h c) as [? ?]. split; [|done]. intros Hok. destruct (getPlaneForLayerBuffer d h c) as [o c'] eqn:E.
  by destruct (plane_ok d h c o c' E Hok).
Qed.

#[local] Hint Resolve frame_set_validated : all_runs.
#[local] Hint Extern 1 (all_runs (client_call _ _) _) => (apply frame_call; intros; first [apply kept_prepare | apply kept_plane]) : all_runs.

Lemma frame_scan d l acc : all_runs (scan_private (C := C) l acc) (validation_frame d).
Proof. revert acc. induction l as [|a l IH]; intros acc; cbn [scan_private]; unfold layer_at; all_runs. Qed.
Lemma frame_layers k dv b l s : all_runs (validate_layers (C := C) k dv b l s) (validation_frame (dv_id dv)).
Proof.
  revert s. induction l as [|a l IH]; intros s; cbn [validate_layers]; unfold validate_layer, layer_at, client_ask; all_runs.
Qed.
Lemma frame_change d hwc from to l ch : all_runs (change_layers (C := C) hwc from to l ch) (validation_frame d).
Proof. revert ch. induction l as [|a l IH]; intros ch; cbn [change_layers]; unfold layer_at; all_runs. Qed.
#[local] Hint Resolve frame_scan frame_layers frame_change : all_runs.

Lemma validate_frame dv ch : all_runs (validateDisplay (C := C) dv ch) (validation_frame (dv_id dv)).
Proof.
  unfold validateDisplay, prepare_planes, find_lucky, validated, getDeviceClient, client_ask, layer_at. all_runs.
Qed.

(** The client of a display depends on the ids of the clients only. *)
Lemma getDeviceClient_frame d dd w w' o : validation_frame dd w w' -> getDeviceClient d w = Some (o, w) -> getDeviceClient d w' = Some (o, w').
Proof.
  intros Hf. unfold getDeviceClient, mbind, St_bind. cbn.
  assert (sorted_keys (mDeviceClients w') = sorted_keys (mDeviceClients w)) as ->; [|by intros [= <-]].
  apply (StronglySorted_unique Z.le); [apply sorted_keys_StronglySorted..|].
  apply NoDup_Permutation; [apply NoDup_sorted_keys..|]. intros k. rewrite !elem_of_sorted_keys.
  pose proof (vf_clients _ _ _ Hf k) as Hk. destruct (mDeviceClients w !! k) as [c|]; [|by rewrite Hk].
  destruct Hk as (c' & -> & _). split; by eexists.
Qed.
End Validation.

(** ** From the display *)

Section Frame.
Context `{!HwcAbi, !DeviceComposerOps, !DeviceClient C, !DeviceClientLaws C, !HdrAbi, !DataspaceAbi, !DeviceOps}.
Implicit Types s : DState C.
Abbreviation world s := (sh_world (ds_shared s)).
Abbreviation flow s := (d_flow (ds_display s)).
Abbreviation did s := (mDisplayId (ds_display s)).

(** A display between two frames, with layers that can be shown: each has a buffer of its own and rectangles of a sane size, none
    is a decoration or private. *)
Record frame_ready s (k : Z) (c : C) (b : DisplayBuffer) : Prop := {
  fr_layers : layers_ok s;
  fr_layer : forall id a l, mLayers (flow s) !! id = Some a -> w_layers (world s) !! a = Some l ->
    sane_layer l /\ mCompositionType l <> DISPLAY_DECORATION /\ mCompositionType l <> NXP_PRIVATE;
  fr_memory : forall id a l id' a' l', mLayers (flow s) !! id = Some a -> mLayers (flow s) !! id' = Some a' -> id <> id' ->
    w_layers (world s) !! a = Some l -> w_layers (world s) !! a' = Some l' -> (l_buffer l ≫= buffer_key) <> (l_buffer l' ≫= buffer_key);
  fr_buffers : mDisplayBuffers (world s) !! did s = Some b;
  fr_client : getDeviceClient (did s) (world s) = Some (Some k, world s);
  fr_state : mDeviceClients (world s) !! k = Some c;
  fr_ok : client_ok (did s) c;
  fr_made : buffers_ok c (w_buffers (world s));
  fr_clean : default no_layers (mDisplayLayers (world s) !! did s) = no_layers;
  fr_target : forall n, clientTargetDrmBuffer b = Some n -> exists t x, t <> DRM_BUFFER_PLANE /\ keeps c (w_buffers (world s)) t n x /\
    sane_rect (db_frame x) /\ sane_rect (db_crop x);
  fr_planes : planeDrmBuffer b = ∅;
  fr_config : exists id cfg, mActiveConfigId (d_configs (ds_display s)) = Some id /\ 0 <= id /\ mConfigs (d_configs (ds_display s)) !! id = Some cfg /\
    0 <= mWidth cfg < 2 ^ 14 /\ 0 <= mHeight cfg < 2 ^ 14
}.

Lemma resolve_runs l s : (forall a, a ∈ l -> is_Some (w_layers (world s) !! a)) -> exists ls, resolve l s = Some (ls, s).
Proof.
  induction l as [|a l IH]; intros Hl; cbn [resolve]; [by exists []|]. destruct (Hl a) as [x Hx]; [apply list_elem_of_here|].
  destruct IH as [ls Hls]; [intros b Hb; apply Hl; by apply list_elem_of_further|]. exists ((a, x) :: ls).
  unfold mbind, St_bind, in_world, layer_at, gets, of_option. cbn. unfold mbind, St_bind. rewrite Hx. cbn. destruct s as [d [w n h ps pm cs]]. cbn in *. by rewrite Hls.
Qed.

(** The layers of a display in the order of the frame. *)
Definition in_frame_order (w : World C) (l : list Z) : Prop :=
  forall i j a b la lb, l !! i = Some a -> l !! j = Some b -> (i < j)%nat -> w_layers w !! a = Some la -> w_layers w !! b = Some lb ->
    layer_le (a, la) (b, lb).

#[local] Instance layer_le_trans : Transitive layer_le.
Proof. unfold layer_le. intros [x1 x] [y1 y] [z1 z]. cbn. lia. Qed.
#[local] Instance layer_le_total : Total layer_le.
Proof. unfold layer_le. intros [x1 x] [y1 y]. cbn. lia. Qed.

Lemma sorted_frame_order (w : World C) ls : (forall p, p ∈ ls -> w_layers w !! p.1 = Some p.2) -> in_frame_order w (merge_sort layer_le ls).*1.
Proof.
  intros Hls i j a b la lb Hi Hj Hij Ha Hb. pose proof (StronglySorted_merge_sort layer_le ls) as Hs.
  rewrite list_lookup_fmap_Some in Hi, Hj. destruct Hi as ([a' la'] & -> & Hi), Hj as ([b' lb'] & -> & Hj). cbn in *.
  assert (forall p n, merge_sort layer_le ls !! n = Some p -> p ∈ ls) as Hin.
  { intros p n Hp. rewrite <- (merge_sort_Permutation layer_le). by eapply list_elem_of_lookup_2. }
  pose proof (Hls _ (Hin _ _ Hi)) as E1. pose proof (Hls _ (Hin _ _ Hj)) as E2. cbn in E1, E2. rewrite Ha in E1. rewrite Hb in E2. simplify_eq.
  revert i j Hi Hj Hij. clear -Hs. induction Hs as [|p l Hs IH Hf]; intros i j Hi Hj Hij; [by rewrite lookup_nil in Hi|].
  destruct j as [|j]; [lia|]. cbn in Hj. destruct i as [|i]; [|by eapply (IH i j); [..|lia]].
  cbn in Hi. injection Hi as ->. rewrite Forall_forall in Hf. apply Hf. by eapply list_elem_of_lookup_2.
Qed.

(** A validation of such a display. *)
Record validated_as s (dv : DisplayView) (ch : DisplayChanges) (v : ValidatedLayers) s1 : Prop := {
  va_display : exists st, st <> WAITING_FOR_VALIDATE /\
    ds_display s1 = d_with_flow (ds_display s) (mkFlow st ch (mLayers (flow s)) (dv_ordered dv));
  va_order : dv_ordered dv ≡ₚ (map_to_list (mLayers (flow s))).*2 /\ in_frame_order (world s) (dv_ordered dv);
  va_view : dv = display_view (ds_display s1);
  va_world : validation_frame (did s) (world s) (world s1);
  va_validated : mDisplayLayers (world s1) !! did s = Some v;
  va_decided : decided (world s) dv ch v
}.

Lemma view_size s k c b : frame_ready s k c b -> forall l, let dv := display_view (d_with_flow (ds_display s) l) in
  0 <= dv_width dv < 2 ^ 14 /\ 0 <= dv_height dv < 2 ^ 14 /\ present_view (d_with_flow (ds_display s) l) = dv.
Proof.
  intros Hr l. destruct (fr_config _ _ _ _ Hr) as (id & cfg & Ha & Hid & Hc & Hw & Hh). unfold display_view, present_view, d_displayAttribute, getConfig. cbn.
  rewrite Ha, Hc, (proj2 (Z.leb_le 0 id) Hid). done.
Qed.

Lemma frame_ids s k c b l : frame_ready s k c b -> l ≡ₚ (map_to_list (mLayers (flow s))).*2 -> distinct_ids (world s) l.
Proof.
  intros Hr Hl i j a b' la lb Hi Hj Ha Hb E. pose proof (fr_layers _ _ _ _ Hr) as Hok.
  assert (NoDup l) as Hnd by (rewrite Hl; by apply NoDup_layers).
  assert (forall x n, l !! n = Some x -> exists id, mLayers (flow s) !! id = Some x) as Hin.
  { intros x n Hx%list_elem_of_lookup_2. rewrite Hl, list_elem_of_fmap in Hx. destruct Hx as ([id y] & -> & Hx%elem_of_map_to_list). by exists id. }
  destruct (Hin _ _ Hi) as [ia Hia], (Hin _ _ Hj) as [ib Hib].
  pose proof (lo_live _ Hok _ _ Hia) as Ea. pose proof (lo_live _ Hok _ _ Hib) as Eb. unfold layer_ids in Ea, Eb. rewrite Ha in Ea. rewrite Hb in Eb.
  cbn in Ea, Eb. assert (ia = ib) as -> by congruence. rewrite Hia in Hib. injection Hib as <-. by eapply NoDup_lookup.
Qed.

Lemma validate_runs s k c b : frame_ready s k c b ->
  exists dv ch v s1, validate s = Some ((NoError, ch), s1) /\ validated_as s dv ch v s1.
Proof.
  intros Hr. pose proof (fr_layers _ _ _ _ Hr) as Hok. set (addrs := (map_to_list (mLayers (flow s))).*2).
  set (s0 := mkDState (d_with_flow (ds_display s) (f_with_changes (flow s) changes_empty)) (ds_shared s)).
  destruct (resolve_runs addrs s0) as [ls Hls].
  { intros a Ha. unfold addrs in Ha. apply list_elem_of_fmap in Ha as ([id a'] & -> & Hid%elem_of_map_to_list).
    apply (lo_live _ Hok), ids_live in Hid as (l & Hl & _). by exists l. }
  pose proof (resolve_Some _ _ _ _ Hls) as (_ & Hfst & Hin). set (ord := (merge_sort layer_le ls).*1).
  destruct (validate_order s ls Hok Hfst) as [Hperm Hnd]. fold ord in Hperm, Hnd.
  set (fl := f_with_ordered (f_with_changes (flow s) changes_empty) ord). set (dv := display_view (d_with_flow (ds_display s) fl)).
  destruct (view_size s k c b Hr fl) as (Hw & Hh & _). fold dv in Hw, Hh.
  assert (forall a, a ∈ ord -> exists id, mLayers (flow s) !! id = Some a) as Hown.
  { intros a Ha. rewrite Hperm, list_elem_of_fmap in Ha. destruct Ha as ([id a'] & -> & Hid%elem_of_map_to_list). by exists id. }
  destruct (validate_assigns_every_layer (world s) dv k c) as (ch & w' & v & E & _ & Hv & Hdec).
  { split; cbn.
    - exists b. apply Hr.
    - apply Hr.
    - apply Hr.
    - apply Hr.
    - apply Hr.
    - intros a (id & Hid)%Hown. pose proof (lo_live _ Hok _ _ Hid) as Hl. apply ids_live in Hl as (l & Hl & _). exists l.
      destruct (fr_layer _ _ _ _ Hr id a l Hid Hl) as (? & ? & ?). done.
    - by eapply frame_ids.
    - cbn in Hw, Hh. lia. }
  exists dv, ch, v. unfold validate, flow_set, display_set, display_get, modify, gets, mbind, St_bind. cbn.
  unfold addrs, s0 in Hls. rewrite Hls. cbn. fold ord. unfold in_world. cbn.
  match goal with |- context [validateDisplay ?x changes_empty] => change x with dv end. rewrite E. cbn. eexists. split; [done|].
  assert (validation_frame (did s) (world s) w') as Hfr by exact (validate_frame dv changes_empty _ _ _ E).
  split; cbn; [|split; [done|by apply sorted_frame_order]|done..].
  eexists. split; [|done]. by destruct (hasAnyChanges ch).
Qed.

Definition asked_type (l : list (Z * Composition)) (x : Layer) : Composition :=
  default (mCompositionType x) (snd <$> find (fun p => p.1 =? l_id x) l).

Lemma find_fst_None (l : list (Z * Composition)) i : i ∉ l.*1 -> find (fun p => p.1 =? i) l = None.
Proof.
  induction l as [|[j c] l IH]; [done|]. cbn [fmap list_fmap find fst]. intros [Hne Hi]%not_elem_of_cons.
  rewrite (proj2 (Z.eqb_neq j i)) by congruence. by apply IH.
Qed.

Lemma with_same_composition x : with_composition x (mCompositionType x) = x.
Proof. by destruct x. Qed.

(** Accepting changes gives each layer the type asked for; layers that are gone are passed over. *)
Lemma accept_runs l : forall s, layers_ok s -> NoDup l.*1 ->
  exists s' m, accept_changes l s = Some (tt, s') /\ ds_display s' = ds_display s /\ world s' = with_layers (world s) m /\
    forall id a x, mLayers (flow s) !! id = Some a -> w_layers (world s) !! a = Some x -> m !! a = Some (with_composition x (asked_type l x)).
Proof.
  induction l as [|[i c] l IH]; intros s Hok Hnd.
  { exists s, (w_layers (world s)). split_and!; [done|done|by destruct (world s)|]. intros id a x _ Hx. unfold asked_type. cbn. by rewrite with_same_composition. }
  cbn in Hnd. apply NoDup_cons in Hnd as [Hi Hnd]. cbn [accept_changes]. unfold getLayer, display_get, gets, mbind, St_bind. cbn.
  destruct (mLayers (flow s) !! i) as [a0|] eqn:Ea0.
  - set (s1 := mkDState (ds_display s) (mkShared (with_layers (world s) (alter (fun x => with_composition x c) a0 (w_layers (world s))))
      (sNextId (ds_shared s)) (sh_heap (ds_shared s)) (sh_parsers (ds_shared s)) (sh_pmem (ds_shared s)) (sh_calls (ds_shared s)))).
    assert (in_world (set_layer a0 (fun x => with_composition x c)) s = Some (tt, s1)) as -> by done.
    assert (layers_ok s1) as Hok1.
    { apply (ok_layers s s1); [|done]. apply still_op, quiet_still. apply (quiet_in_world (set_layer a0 (fun x => with_composition x c)) (kept_set_layer a0 (fun x => with_composition x c) (fun _ => eq_refl)) s tt). done. }
    destruct (IH s1 Hok1 Hnd) as (s' & m & E & Hd & Hw & Hm). exists s', m. split_and!; [done|done|by rewrite Hw|].
    intros id a x Hid Hx. pose proof (lo_live _ Hok _ _ Hid) as Hlive. unfold layer_ids in Hlive. rewrite Hx in Hlive. cbn in Hlive. injection Hlive as Hlive.
    unfold asked_type. cbn [find fst]. destruct (Z.eqb_spec i (l_id x)) as [->|Hne]; cbn [snd fmap option_fmap option_map default].
    + rewrite Hlive in Ea0. rewrite Hid in Ea0. injection Ea0 as <-.
      rewrite (Hm id a (with_composition x c)); [|done|cbn; by rewrite lookup_alter_eq, Hx]. f_equal. unfold asked_type. cbn [l_id with_composition mCompositionType].
      by rewrite find_fst_None.
    + rewrite (Hm id a x); [done|done|]. cbn. rewrite lookup_alter_ne; [done|]. intros <-. apply Hne. rewrite Hlive. by eapply owns_inj.
  - destruct (IH s Hok Hnd) as (s' & m & E & Hd & Hw & Hm). exists s', m. split_and!; [done..|].
    intros id a x Hid Hx. rewrite (Hm id a x Hid Hx). do 2 f_equal. unfold asked_type. cbn [find fst].
    destruct (Z.eqb_spec i (l_id x)) as [->|]; [|done]. pose proof (lo_live _ Hok _ _ Hid) as Hlive. unfold layer_ids in Hlive. rewrite Hx in Hlive.
    cbn in Hlive. congruence.
Qed.
(** A display's layer, in the world in which its changes are accepted. *)
Definition accepted (s : DState C) (ch : DisplayChanges) (m : gmap Z Layer) : Prop := forall id a x,
  mLayers (flow s) !! id = Some a -> w_layers (world s) !! a = Some x -> m !! a = Some (with_composition x (changed_type ch x)).

Lemma ordered_layer s k c b l a : frame_ready s k c b -> l ≡ₚ (map_to_list (mLayers (flow s))).*2 -> a ∈ l ->
  exists id x, mLayers (flow s) !! id = Some a /\ w_layers (world s) !! a = Some x /\ sane_layer x /\
    mCompositionType x <> DISPLAY_DECORATION /\ mCompositionType x <> NXP_PRIVATE.
Proof.
  intros Hr Hl Ha. rewrite Hl, list_elem_of_fmap in Ha. destruct Ha as ([id a'] & -> & Hid%elem_of_map_to_list). exists id.
  pose proof (lo_live _ (fr_layers _ _ _ _ Hr) _ _ Hid) as (x & Hx & _)%ids_live. exists x. split; [done|]. split; [done|].
  by eapply (fr_layer _ _ _ _ Hr).
Qed.

(** The layers the validation put on planes. *)
Lemma accepted_planes s k c b dv ch v w2 : frame_ready s k c b -> decided (world s) dv ch v ->
  dv_ordered dv ≡ₚ (map_to_list (mLayers (flow s))).*2 -> accepted s ch (w_layers w2) ->
  planes_ready w2 (map_to_list (layersForOverlayPlane v)).
Proof.
  intros Hr Hdec Hperm Hm. split_and!; [apply NoDup_fst_map_to_list| |].
  - intros p a Hp%elem_of_map_to_list. destruct (de_plane _ _ _ _ Hdec p a Hp) as [Ha _].
    destruct (ordered_layer _ _ _ _ _ _ Hr Hperm Ha) as (id & x & Hid & Hx & Hs & _). exists (with_composition x (changed_type ch x)).
    split; [by eapply Hm|done].
  - intros p a q a' la lb Hp%elem_of_map_to_list Hq%elem_of_map_to_list Hne Hla Hlb.
    destruct (de_plane _ _ _ _ Hdec p a Hp) as [Ha Hpa]. destruct (de_plane _ _ _ _ Hdec q a' Hq) as [Ha' _].
    destruct (ordered_layer _ _ _ _ _ _ Hr Hperm Ha) as (id & x & Hid & Hx & _).
    destruct (ordered_layer _ _ _ _ _ _ Hr Hperm Ha') as (id' & x' & Hid' & Hx' & _).
    rewrite (Hm id a x Hid Hx) in Hla. rewrite (Hm id' a' x' Hid' Hx') in Hlb. injection Hla as <-. injection Hlb as <-. cbn.
    apply (fr_memory _ _ _ _ Hr id a x id' a' x'); [done..| |done|done]. intros ->. rewrite Hid in Hid'. injection Hid' as <-.
    apply Hne. symmetry. by apply Hpa.
Qed.

(** What the validation decided can be presented by the world in which the changes are accepted: the same layers, but for their
    types. *)
Lemma presentable s k c b dv ch v s1 m c' : frame_ready s k c b -> validated_as s dv ch v s1 -> accepted s ch m ->
  mDeviceClients (world s1) !! k = Some c' -> is_Some (partialCleanCacheBuffer (Z.of_nat (size (layersForOverlayPlane v))) c') ->
  present_ready (with_layers (world s1) m) dv k b c' v.
Proof.
  intros Hr [(st & Hst & Hd) [Hperm _] Hview Hfr Hv Hdec] Hm Hc' Hclean.
  assert (dv_id dv = did s) as Hid by (by rewrite Hview, Hd).
  destruct (view_size s k c b Hr (mkFlow st ch (mLayers (flow s)) (dv_ordered dv))) as (Hwd & Hht & _). rewrite <- Hd, <- Hview in Hwd, Hht.
  pose proof (getDeviceClient_frame _ _ _ _ _ Hfr (fr_client _ _ _ _ Hr)) as Hgd.
  destruct Hfr as [Hlay Hdb Hbuf Hhist Hcl]. pose proof (Hcl k) as Hck. rewrite (fr_state _ _ _ _ Hr), Hc' in Hck.
  destruct Hck as (c1 & [= <-] & Hok & Hbk & Hcd). split; try rewrite Hid; cbn.
  - by rewrite Hdb; apply Hr.
  - unfold getDeviceClient, mbind, St_bind in *. cbn in *. by injection Hgd as ->.
  - done.
  - split; [split; cbn|..].
    + done.
    + rewrite Hid. by apply Hok, Hr.
    + rewrite Hbuf. by apply Hbk, Hr.
    + intros a l Hl. exists (mHdrMetadataState l). rewrite Hl. by destruct l.
    + intros n (t & x & Ht & [Hx Hx'] & Hs)%(fr_target _ _ _ _ Hr). exists t, x. cbn. rewrite Hbuf. split; [done|]. split; [|done]. split; [done|].
      intros t' Ht'%Hcd. by apply Hx'.
    + by intros p a ?%elem_of_nil.
    + intros p. rewrite (fr_planes _ _ _ _ Hr), lookup_empty. by intros [].
  - done.
  - by eapply accepted_planes.
  - intros a Ha. pose proof (elem_of_sublist _ _ _ Ha (de_composition _ _ _ _ Hdec)) as Ha'.
    destruct (ordered_layer _ _ _ _ _ _ Hr Hperm Ha') as (id & x & Hi & Hx & _). eexists. by eapply Hm.
  - intros a Ha%(de_lucky _ _ _ _ Hdec). destruct (ordered_layer _ _ _ _ _ _ Hr Hperm Ha) as (id & x & Hi & Hx & Hs & _).
    eexists. split; [by eapply Hm|done].
  - destruct (layersForNxpPrivate v) as [|a l] eqn:E; [done|]. destruct (de_private _ _ _ _ Hdec a) as (x & Hx & Hp & Ha); [rewrite E; by left|].
    destruct (ordered_layer _ _ _ _ _ _ Hr Hperm Ha) as (id & x' & Hi & Hx' & _ & _ & Hn). congruence.
  - done.
Qed.

(** Accepting what was validated. *)
Lemma acceptChanges_runs s dv ch v s1 : layers_ok s1 -> validated_as s dv ch v s1 ->
  exists s2 m, acceptChanges s1 = Some (NoError, s2) /\ present_view (ds_display s2) = present_view (ds_display s1) /\
    world s2 = with_layers (world s1) m /\ accepted s ch m.
Proof.
  intros Hok [(st & Hst & Hd) _ _ Hfr _ Hdec].
  destruct (accept_runs (changed_layers ch) s1 Hok (de_once _ _ _ _ Hdec)) as (s2 & m & E & Hd2 & Hw & Hm).
  unfold acceptChanges, flow_set, display_set, display_get, modify, gets, mbind, St_bind. cbn. rewrite Hd. cbn.
  destruct st; [done|rewrite E..]; cbn; eexists _, m; (split; [done|]); cbn; (split; [by rewrite Hd2, Hd|]); (split; [done|]);
    intros id a x Hid Hx; apply (Hm id a x); rewrite ?Hd, ?(vf_layers _ _ _ Hfr); done.
Qed.

(** A display with showable layers, whose last frame was presented, goes through a whole frame: [validate] succeeds and
    gives every layer one place, in the order of the z orders; [acceptChanges] succeeds and gives each layer the type decided;
    then [present] runs, and if it reports no error the hardware has got the frame decided: each overlay layer's buffer on its
    plane where the layer is, nothing on other planes, the 2D engine's result as frame buffer if it had layers to compose, a
    fence for each overlay layer, and nothing left over for the next frame. *)
Lemma frame_reaches_hardware s k c b : frame_ready s k c b -> exists dv ch v s1 s2 c',
  validate s = Some ((NoError, ch), s1) /\ validated_as s dv ch v s1 /\
  acceptChanges s1 = Some (NoError, s2) /\ accepted s ch (w_layers (world s2)) /\
  world s2 = with_layers (world s1) (w_layers (world s2)) /\ mDeviceClients (world s2) !! k = Some c' /\
  (is_Some (partialCleanCacheBuffer (Z.of_nat (size (layersForOverlayPlane v))) c') -> exists e fences s3,
    present s2 = Some ((e, fences), s3) /\
    (e = NoError -> layersForOverlayPlane v <> ∅ \/ layersForComposition v <> [] ->
     (exists h, w_history (world s3) = w_history (world s) ++ h /\ presented (world s2) dv v h) /\
     (forall p a l, layersForOverlayPlane v !! p = Some a -> w_layers (world s) !! a = Some l -> l_id l ∈ fences) /\
     mDisplayLayers (world s3) !! did s = Some no_layers)).
Proof.
  intros Hr. destruct (validate_runs s k c b Hr) as (dv & ch & v & s1 & Ev & Hva).
  pose proof (ok_layers _ _ (validate_op _ _ _ Ev) (fr_layers _ _ _ _ Hr)) as Hok.
  destruct (acceptChanges_runs s dv ch v s1 Hok Hva) as (s2 & m & Ea & Hview & Hw & Hacc).
  pose proof Hva as [(st & Hst & Hd) [Hperm _] Hdv Hfr _ Hdec].
  pose proof (vf_clients _ _ _ Hfr k) as Hc. rewrite (fr_state _ _ _ _ Hr) in Hc. destruct Hc as (c' & Hc' & _).
  exists dv, ch, v, s1, s2, c'. rewrite Hw. split_and!; [done..|]. intros Hclean.
  pose proof (presentable s k c b dv ch v s1 m c' Hr Hva Hacc Hc' Hclean) as Hpr. rewrite <- Hw in Hpr.
  destruct (present_shows_validated _ _ _ _ _ _ Hpr) as (e & fences & w' & E & Hshow).
  exists e, fences. unfold present, flow_set, display_set, display_get, modify, gets, mbind, St_bind. cbn. unfold in_world. cbn.
  assert (present_view (d_with_flow (ds_display s2) (f_with_state (flow s2) WAITING_FOR_VALIDATE)) = dv) as ->.
  { change (present_view (ds_display s2) = dv). rewrite Hview, Hdv, Hd. by destruct (view_size s k c b Hr (mkFlow st ch (mLayers (flow s)) (dv_ordered dv))) as (_ & _ & ->). }
  rewrite E. eexists. split; [done|]. cbn. intros He Hne. destruct (Hshow He Hne) as (Hhist & Hf & Hdl). split_and!.
  - destruct Hhist as (h & Hh & Hp). exists h. split; [|by rewrite <- Hw]. by rewrite Hh, Hw, <- (vf_history _ _ _ Hfr).
  - intros p a l Hp Hl. destruct (de_plane _ _ _ _ Hdec p a Hp) as [Ha _].
    destruct (ordered_layer _ _ _ _ _ _ Hr Hperm Ha) as (id & x & Hi & Hx & _). rewrite Hl in Hx. injection Hx as <-.
    apply (Hf p a (with_composition l (changed_type ch l)) Hp). rewrite Hw. by eapply Hacc.
  - rewrite Hdv, Hd in Hdl. done.
Qed.
End Frame.

(** ** An example *)

Section Demo.
#[local] Existing Instances demo_abi demo_composer demo_device demo_laws demo_hdr demo_dataspace demo_ops.

(** Two layers on a display with one plane beside the one for the user interface. *)
Definition demo_frame_requests : list display_op :=
  [OpCreateLayer 11; OpCreateLayer 12;
   OpLayerCommand 11 (SetBuffer (Some 101)); OpLayerCommand 11 (SetDisplayFrame (mkRect 0 0 64 64));
   OpLayerCommand 11 (SetSourceCrop (mkFRect (float 0) (float 0) (float 64) (float 64)));
   OpLayerCommand 11 (SetCompositionType DEVICE); OpLayerCommand 11 (SetZOrder 1);
   OpLayerCommand 12 (SetBuffer (Some 102)); OpLayerCommand 12 (SetDisplayFrame (mkRect 100 0 164 64));
   OpLayerCommand 12 (SetSourceCrop (mkFRect (float 0) (float 0) (float 64) (float 64)));
   OpLayerCommand 12 (SetCompositionType CLIENT); OpLayerCommand 12 (SetZOrder 0)].

Definition demo_frame_state : DState demo_client :=
  match for_each demo_frame_requests display_exec demo_state with Some (_, s) => s | None => demo_state end.


Lemma demo_frame_layers : layers_ok demo_frame_state.
Proof.
  destruct (for_each demo_frame_requests display_exec demo_state) as [[[] s2]|] eqn:E; [|vm_compute in E; discriminate].
  assert (demo_frame_state = s2) as -> by (unfold demo_frame_state; by rewrite E).
  apply (ok_layers _ _ (run_ops demo_frame_requests demo_state tt s2 E)). clear.
  destruct demo_started as [[e s1]|] eqn:E; [|vm_compute in E; discriminate].
  assert (demo_state = s1) as -> by (unfold demo_state; by rewrite E). unfold demo_started in E.
  apply (ok_layers _ _ (still_op _ _ (still_init 100000000 demo_configs 1 None (mkDState (display_new 0 0 5) demo_shared) e s1 E))). clear.
  split; cbn; [by intros ??; rewrite lookup_empty|by intros a ?%elem_of_nil|constructor|by intros ??; rewrite lookup_empty].
Qed.

(** The layers and the world of the example. *)
Lemma demo_frame_ready : frame_ready demo_frame_state 0 ([31], [31]) no_buffers.
Proof.
  assert (mLayers (d_flow (ds_display demo_frame_state)) = {[11 := 2; 12 := 3]}) as Hl by (vm_compute; reflexivity).
  assert (forall id a l, mLayers (d_flow (ds_display demo_frame_state)) !! id = Some a ->
    w_layers (sh_world (ds_shared demo_frame_state)) !! a = Some l ->
    sane_layer l /\ mCompositionType l <> DISPLAY_DECORATION /\ mCompositionType l <> NXP_PRIVATE /\ l_buffer l = Some (id + 90)) as Hlay.
  { intros id a l. rewrite Hl, lookup_insert_Some, lookup_singleton_Some. clear Hl. intros [[<- <-]|[_ [<- <-]]] Hx; vm_compute in Hx; injection Hx as <-;
      (split; [split; [unfold sane_rect; cbn; lia|]|done]; exists (mkRect 0 0 64 64); split; [by vm_compute|unfold sane_rect; cbn; lia]). }
  clear Hl. split.
  - exact demo_frame_layers.
  - intros id a l Hid Hx. destruct (Hlay id a l Hid Hx) as (H1 & H2 & H3 & _). exact (conj H1 (conj H2 H3)).
  - intros id a l id' a' l' Hid Hid' Hne Hx Hx'. pose proof (Hlay _ _ _ Hid Hx) as (_ & _ & _ & E).
    pose proof (Hlay _ _ _ Hid' Hx') as (_ & _ & _ & E'). clear -E E' Hne. rewrite E, E'. cbn. intros [=]. lia.
  - vm_compute. reflexivity.
  - vm_compute. reflexivity.
  - vm_compute. reflexivity.
  - cbn. split_and!; [|done|]; apply NoDup_singleton.
  - exact I.
  - vm_compute. reflexivity.
  - discriminate.
  - reflexivity.
  - exists 1, (mkConfig 1 1920 1080 160 160 16666666 (Some 0)). split; [vm_compute; reflexivity|]. split; [lia|].
    split; [vm_compute; reflexivity|cbn; lia].
Qed.
End Demo.
