(* ===== verification/HwcClient.v ===== *)
(** * display/hwcomposer3/ComposerClient.{h,cpp}, ComposerResources.cpp: the client of the composer

    The client keeps the displays, turns the commands of the framework into
    operations of displays and layers, and handles the displays that are plugged
    in and out.  The table of imported buffers is a library of the platform, the
    class [ComposerResourcesImpl].  A call of the client, a step of the thread of a
    display and a hotplug are each one step; the source holds the lock of the table
    of displays only while it looks a display up, so a hotplug may also fall into
    the middle of a call, which is not modelled.  Fences are left out: every layer
    that is presented gets one. *)

From S2P Require Import Prelude CppText Edid HwcEdid HwcLayer FrameComposer HwcDisplay.
From S2P Require DrmDisplay.

(** ** The table of imported buffers *)

Inductive Hwc2Error :=
  | HWC2_NONE | HWC2_BAD_CONFIG | HWC2_BAD_DISPLAY | HWC2_BAD_LAYER | HWC2_BAD_PARAMETER | HWC2_NO_RESOURCES | HWC2_NOT_VALIDATED
  | HWC2_UNSUPPORTED.

Definition toHwc3Error (error : Hwc2Error) : Error :=
  match error with
  | HWC2_NONE => NoError | HWC2_BAD_CONFIG => BadConfig | HWC2_BAD_DISPLAY => BadDisplay | HWC2_BAD_LAYER => BadLayer
  | HWC2_BAD_PARAMETER => BadParameter | HWC2_NO_RESOURCES => NoResources | HWC2_NOT_VALIDATED => NotValidated
  | HWC2_UNSUPPORTED => Unsupported
  end.

Definition toHwc2Display (displayId : Z) : Z := ⟦displayId⟧u 64.
Definition toHwc2Layer (layerId : Z) : Z := ⟦layerId⟧u 64.

(** [V2_2::hal::ComposerResources]: displays and layers by their ids, a cache of buffers by slots for each; a handle is null
    or a number.  A function with an out-parameter gives what it writes there, if it writes at all. *)
Class ComposerResourcesImpl (R : Type) := {
  impl_addPhysicalDisplay : Z -> R -> Hwc2Error * R;
  impl_removeDisplay : Z -> R -> Hwc2Error * R;
  impl_setDisplayClientTargetCacheSize : Z -> Z -> R -> Hwc2Error * R;
  impl_addLayer : Z -> Z -> Z -> R -> Hwc2Error * R;
  impl_removeLayer : Z -> Z -> R -> Hwc2Error * R;
  impl_setDisplayMustValidateState : Z -> bool -> R -> R;
  impl_mustValidateDisplay : Z -> R -> bool;
  impl_getDisplayReadbackBuffer : Z -> option Z -> R -> Hwc2Error * option (option Z) * R;
  impl_getDisplayClientTarget : Z -> Z -> bool -> option Z -> R -> Hwc2Error * option (option Z) * R;
  impl_getDisplayOutputBuffer : Z -> Z -> bool -> option Z -> R -> Hwc2Error * option (option Z) * R;
  impl_getLayerBuffer : Z -> Z -> Z -> bool -> option Z -> R -> Hwc2Error * option (option Z) * R;
  impl_getLayerSidebandStream : Z -> Z -> option Z -> R -> Hwc2Error * option (option Z) * R
}.

(** A display need not be validated again once that was said. *)
Class ComposerResourcesLaws (R : Type) `{!ComposerResourcesImpl R} :=
  must_validate_set d r : impl_mustValidateDisplay d (impl_setDisplayMustValidateState d false r) = false.

Record Buffer := mkBuffer { bf_slot : Z; bf_handle : option Z }.

Section Resources.
Context `{!ComposerResourcesImpl R}.

(** An error and the new table; with the handle for the caller, whose own is null before. *)
Definition converted (r : Hwc2Error * R) : Error * R := (toHwc3Error r.1, r.2).
Definition imported (r : Hwc2Error * option (option Z) * R) : (Error * option Z) * R := ((toHwc3Error r.1.1, mjoin r.1.2), r.2).

Definition addPhysicalDisplay (displayId : Z) (r : R) : Error * R := converted (impl_addPhysicalDisplay (toHwc2Display displayId) r).
Definition removeDisplay (displayId : Z) (r : R) : Error * R := converted (impl_removeDisplay (toHwc2Display displayId) r).
Definition setDisplayClientTargetCacheSize (displayId size : Z) (r : R) : Error * R :=
  converted (impl_setDisplayClientTargetCacheSize (toHwc2Display displayId) size r).
Definition addLayer (displayId layerId bufferCacheSize : Z) (r : R) : Error * R :=
  converted (impl_addLayer (toHwc2Display displayId) (toHwc2Layer layerId) bufferCacheSize r).
Definition removeLayer (displayId layerId : Z) (r : R) : Error * R :=
  converted (impl_removeLayer (toHwc2Display displayId) (toHwc2Layer layerId) r).
Definition setDisplayMustValidateState (displayId : Z) (mustValidate : bool) (r : R) : unit * R :=
  (tt, impl_setDisplayMustValidateState (toHwc2Display displayId) mustValidate r).
Definition mustValidateDisplay (displayId : Z) (r : R) : bool * R := (impl_mustValidateDisplay (toHwc2Display displayId) r, r).

Definition getDisplayReadbackBuffer (displayId : Z) (handle : option Z) (r : R) : (Error * option Z) * R :=
  imported (impl_getDisplayReadbackBuffer (toHwc2Display displayId) handle r).

(** A buffer without a handle is one that was sent before, for the same slot. *)
Definition useCache (b : Buffer) : bool := match bf_handle b with Some _ => false | None => true end.

Definition getDisplayClientTarget (displayId : Z) (b : Buffer) (r : R) : (Error * option Z) * R :=
  imported (impl_getDisplayClientTarget (toHwc2Display displayId) (⟦bf_slot b⟧u 32) (useCache b) (bf_handle b) r).
Definition getDisplayOutputBuffer (displayId : Z) (b : Buffer) (r : R) : (Error * option Z) * R :=
  imported (impl_getDisplayOutputBuffer (toHwc2Display displayId) (⟦bf_slot b⟧u 32) (useCache b) (bf_handle b) r).
Definition getLayerBuffer (displayId layerId : Z) (b : Buffer) (r : R) : (Error * option Z) * R :=
  imported (impl_getLayerBuffer (toHwc2Display displayId) (toHwc2Layer layerId) (⟦bf_slot b⟧u 32) (useCache b) (bf_handle b) r).

(** The handle of the caller is kept when none is written. *)
Definition getLayerInternalBuffer (displayId layerId slot : Z) (fromCache : bool) (rawHandle outHandle : option Z) (r : R) :
    (Error * option Z) * R :=
  let '(e, o, r') := impl_getLayerBuffer (toHwc2Display displayId) (toHwc2Layer layerId) slot fromCache rawHandle r in
  ((toHwc3Error e, default outHandle o), r').
Definition getLayerSidebandStream (displayId layerId : Z) (handle : option Z) (r : R) : (Error * option Z) * R :=
  imported (impl_getLayerSidebandStream (toHwc2Display displayId) (toHwc2Layer layerId) handle r).
End Resources.

(** ** The client *)

Inductive Capability := LAYER_LIFECYCLE_BATCH_COMMAND | BOOT_DISPLAY_CONFIG | OtherClientCapability (code : Z).

(** [sPrivateLayerId] is a global of the process. *)
Record ComposerClient (C R : Type) := mkClient {
  mDisplays : gmap Z Display; cl_callbacks : bool; mResources : R; mCapabilities : list Capability; mBatchCommandSupported : bool;
  sPrivateLayerId : Z; cl_shared : Shared C
}.
Arguments mkClient {C R}.
Arguments mDisplays {C R}.
Arguments cl_callbacks {C R}.
Arguments mResources {C R}.
Arguments mCapabilities {C R}.
Arguments mBatchCommandSupported {C R}.
Arguments sPrivateLayerId {C R}.
Arguments cl_shared {C R}.

(** *** Commands *)

Inductive LayerLifecycle := MODIFY | CREATE | DESTROY.

(** The fields of a command for a layer; those that only check nothing and change nothing ([damage], [perFrameMetadataBlob],
    [blockingRegion]) are left out. *)
Record LayerCommand := mkLayerCommand {
  lc_layer : Z; layerLifecycleBatchCommandType : LayerLifecycle; newBufferSlotCount : Z; lc_cursorPosition : option (Z * Z);
  lc_buffer : option Buffer; lc_blendMode : option Z; lc_color : option Color; lc_composition : option Composition;
  lc_dataspace : option Z; lc_displayFrame : option Rect; lc_planeAlpha : option spec_float; lc_sidebandStream : option (option Z);
  lc_sourceCrop : option FRect; lc_transform : option Z; lc_visibleRegion : option (list (option Rect)); lc_z : option Z;
  lc_colorTransform : option (list spec_float); lc_brightness : option spec_float;
  lc_perFrameMetadata : option (list (option (PerFrameMetadataKey * spec_float))); lc_bufferSlotsToClear : option (list Z);
  lc_luts : option Z
}.

Record DisplayCommand := mkDisplayCommand {
  dc_display : Z; dc_layers : list LayerCommand; dc_brightness : option spec_float; dc_colorTransformMatrix : option (list spec_float);
  dc_clientTarget : option Buffer; dc_virtualDisplayOutputBuffer : option Buffer; dc_validateDisplay : bool;
  dc_expectedPresentTime : option Z; dc_acceptDisplayChanges : bool; dc_presentDisplay : bool; dc_presentOrValidateDisplay : bool
}.

(** What the client answers.  The property of the client target comes from the hardware. *)
Inductive CommandResultPayload :=
  | CommandError (commandIndex : Z) (errorCode : Error)
  | ChangedCompositionTypes (display : Z) (layers : list (Z * Composition))
  | ReleaseFences (display : Z) (layers : list Z)
  | ClientTargetProperty (display : Z)
  | PresentOrValidateResult (display : Z).

Record CommandResultWriter := mkWriter { mIndex : Z; mResults : list CommandResultPayload }.

Record Executing (C R : Type) := mkExecuting { ex_client : ComposerClient C R; ex_writer : CommandResultWriter }.
Arguments mkExecuting {C R}.
Arguments ex_client {C R}.
Arguments ex_writer {C R}.

(** *** Displays that are plugged in *)

Record HalMultiConfigs := mkMulti {
  hm_hwcId : Z; hm_displayId : Z; hm_port : Z; hm_activeConfigId : Z; hm_configs : gmap Z DrmDisplay.HalDisplayConfig
}.

Definition HertzToPeriodNanos (hertz : Z) : option Z := if hertz =? 0 then None else Some (1000000000 / hertz).

(** The configurations of a display; the groups are added after. *)
Definition hal_config (p : Z * DrmDisplay.HalDisplayConfig) : option DisplayConfig :=
  period ← HertzToPeriodNanos (DrmDisplay.refreshRateHz p.2);
  Some (mkConfig (⟦p.1⟧s 32) (⟦DrmDisplay.hc_width p.2⟧s 32) (⟦DrmDisplay.hc_height p.2⟧s 32) (⟦DrmDisplay.hc_dpiX p.2⟧s 32)
          (⟦DrmDisplay.hc_dpiY p.2⟧s 32) period None).

Definition is_create (t : LayerLifecycle) : bool := match t with CREATE => true | _ => false end.
Definition is_destroy (t : LayerLifecycle) : bool := match t with DESTROY => true | _ => false end.

Section Client.
Context `{!HwcAbi, !DeviceComposerOps, !DeviceClient C, !HdrAbi, !DataspaceAbi, !DeviceOps, !ComposerResourcesImpl R}.
(** [std::hash<int>], for the groups of configurations. *)
Variable hash_int : Z -> Z.

Abbreviation Client := (St (ComposerClient C R)).

Definition with_displays (s : ComposerClient C R) (m : gmap Z Display) : ComposerClient C R :=
  mkClient m (cl_callbacks s) (mResources s) (mCapabilities s) (mBatchCommandSupported s) (sPrivateLayerId s) (cl_shared s).
Definition with_resources (s : ComposerClient C R) (r : R) : ComposerClient C R :=
  mkClient (mDisplays s) (cl_callbacks s) r (mCapabilities s) (mBatchCommandSupported s) (sPrivateLayerId s) (cl_shared s).
Definition with_shared (s : ComposerClient C R) (sh : Shared C) : ComposerClient C R :=
  mkClient (mDisplays s) (cl_callbacks s) (mResources s) (mCapabilities s) (mBatchCommandSupported s) (sPrivateLayerId s) sh.

(** A call of the table of buffers. *)
Definition resources {A} (f : R -> A * R) : Client A :=
  r ← gets mResources; modify (fun s => with_resources s (f r).2) ;; mret (f r).1.

(** Operations of a display that is not, or not yet, in the table. *)
Definition run_display {A} (d : Display) (m : St (DState C) A) : Client (A * Display) := fun s =>
  match m (mkDState d (cl_shared s)) with
  | Some (a, s') => Some ((a, ds_display s'), with_shared s (ds_shared s'))
  | None => None
  end.

(** Operations of a display of the table. *)
Definition in_display {A} (hwcId : Z) (m : St (DState C) A) : Client A :=
  displays ← gets mDisplays;
  d ← of_option (displays !! hwcId);
  r ← run_display d m;
  modify (fun s => with_displays s (<[hwcId := r.2]> (mDisplays s))) ;; mret r.1.

Definition getDisplay (hwcId : Z) : Client bool := displays ← gets mDisplays; mret (bool_decide (is_Some (displays !! hwcId))).

(** [GET_DISPLAY_OR_RETURN_ERROR] *)
Definition on_display {A} (hwcId : Z) (error : Error -> A) (m : Client A) : Client A :=
  found ← getDisplay hwcId; if (found : bool) then m else mret (error BadDisplay).

Definition call_framework (e : callback) : Client unit :=
  modify (fun s => let sh := cl_shared s in
                   with_shared s (mkShared (sh_world sh) (sNextId sh) (sh_heap sh) (sh_parsers sh) (sh_pmem sh) (sh_calls sh ++ [e]))).

(** *** Layers *)

(** Layers that are not made by a batch get ids of their own. *)
Definition preset_id : Client Z :=
  batch ← gets mBatchCommandSupported;
  if batch : bool then
    i ← gets sPrivateLayerId;
    modify (fun s => mkClient (mDisplays s) (cl_callbacks s) (mResources s) (mCapabilities s) (mBatchCommandSupported s) (⟦i + 1⟧s 64)
                       (cl_shared s)) ;;
    mret i
  else mret 0.

Definition client_createLayer (hwcId bufferSlotCount : Z) : Client (Error * option Z) :=
  on_display hwcId (fun e => (e, None))
    (preset ← preset_id;
     r ← in_display hwcId (createLayer preset);
     if negb (is_ok r.1) then mret (r.1, None)
     else error ← resources (addLayer hwcId r.2 (⟦bufferSlotCount⟧u 32)); mret (error, Some r.2)).

Definition client_destroyLayer (hwcId layerId : Z) : Client Error :=
  on_display hwcId id
    (error ← in_display hwcId (destroyLayer layerId);
     if negb (is_ok error) then mret error else resources (removeLayer hwcId layerId)).

(** *** What only passes a request on *)

Definition client_setActiveConfigWithConstraints (hwcId configId desiredTimeNanos : Z) (seamlessRequired : bool) :
    Client (Error * option Z) :=
  on_display hwcId (fun e => (e, None)) (in_display hwcId (setActiveConfigWithConstraints configId desiredTimeNanos seamlessRequired)).
Definition client_setActiveConfig (hwcId configId : Z) : Client Error := on_display hwcId id (in_display hwcId (setActiveConfig configId)).
Definition client_setColorMode (hwcId : Z) (mode : ColorMode) (intent : RenderIntent) : Client Error :=
  on_display hwcId id (in_display hwcId (setColorMode mode intent)).
Definition client_setPowerMode (hwcId : Z) (mode : PowerMode) : Client Error := on_display hwcId id (in_display hwcId (setPowerMode mode)).
Definition client_setVsyncEnabled (hwcId : Z) (enabled : bool) : Client Error :=
  on_display hwcId id (in_display hwcId (setVsyncEnabled enabled)).
Definition setClientTargetSlotCount (hwcId count : Z) : Client Error :=
  on_display hwcId id (resources (setDisplayClientTargetCacheSize hwcId (⟦count⟧u 32))).

(** The boot configuration is a capability of its own. *)
Definition boot_supported : Client bool :=
  caps ← gets mCapabilities; mret (existsb (fun c => match c with BOOT_DISPLAY_CONFIG => true | _ => false end) caps).
Definition setBootDisplayConfig (hwcId configId : Z) : Client Error :=
  on_display hwcId id (ok ← boot_supported; if negb ok then mret Unsupported else in_display hwcId (setBootConfig configId)).
Definition clearBootDisplayConfig (hwcId : Z) : Client Error :=
  on_display hwcId id (ok ← boot_supported; if negb ok then mret Unsupported else in_display hwcId clearBootConfig).
Definition getPreferredBootDisplayConfig (hwcId : Z) : Client (Error * option Z) :=
  on_display hwcId (fun e => (e, None))
    (ok ← boot_supported;
     if negb ok then mret (Unsupported, None) else r ← in_display hwcId getPreferredBootConfig; mret (r.1, Some r.2)).

Definition client_setReadbackBuffer (hwcId : Z) (buffer : option Z) : Client Error :=
  on_display hwcId id
    (r ← resources (getDisplayReadbackBuffer hwcId buffer);
     if negb (is_ok r.1) then mret r.1 else in_display hwcId (setReadbackBuffer r.2)).

(** *** Commands for layers *)

Abbreviation Exec := (St (Executing C R)).

Definition lift {A} (m : Client A) : Exec A := fun x =>
  match m (ex_client x) with Some (a, s) => Some (a, mkExecuting s (ex_writer x)) | None => None end.

Definition write (l : list CommandResultPayload) : Exec unit :=
  modify (fun x => mkExecuting (ex_client x) (mkWriter (mIndex (ex_writer x)) (mResults (ex_writer x) ++ l))).
Definition addError (e : Error) : Exec unit := i ← gets (fun x => mIndex (ex_writer x)); write [CommandError i e].
Definition nextCommand : Exec unit :=
  i ← gets (fun x => mIndex (ex_writer x));
  j ← of_option (checked_s 32 (i + 1));
  modify (fun x => mkExecuting (ex_client x) (mkWriter j (mResults (ex_writer x)))).
Definition addChanges (ch : DisplayChanges) : Exec unit :=
  match compositionChanges ch with Some (d, l) => write [ChangedCompositionTypes d l] | None => mret tt end.

(** An error is reported; without one nothing is. *)
Definition report (e : Error) : Exec unit := if is_ok e then mret tt else addError e.

(** [DISPATCH_LAYER_COMMAND] and [DISPATCH_DISPLAY_COMMAND] *)
Definition dispatch {X} (field : option X) (f : X -> Exec unit) : Exec unit :=
  match field with Some x => f x | None => mret tt end.

Section Layer.
Variables hwcId layerId : Z.

Definition executeLayerCommandSet (c : HwcLayer.layer_command) : Exec unit :=
  e ← lift (in_display hwcId (layer_command layerId c)); report e.

Definition executeLayerCommandSetLayerBuffer (b : Buffer) : Exec unit :=
  r ← lift (resources (getLayerBuffer hwcId layerId b));
  if negb (is_ok r.1) then addError r.1 else executeLayerCommandSet (SetBuffer r.2).

(** A private layer makes the framework draw again. *)
Definition executeLayerCommandSetLayerComposition (c : Composition) : Exec unit :=
  executeLayerCommandSet (SetCompositionType c) ;;
  callbacks ← lift (gets cl_callbacks);
  if callbacks && is_private c then lift (call_framework (OnRefresh hwcId)) else mret tt.

(** What the library imports is not used. *)
Definition executeLayerCommandSetLayerSidebandStream (handle : option Z) : Exec unit :=
  r ← lift (resources (getLayerSidebandStream hwcId layerId handle)); report r.1.

Definition executeLayerCommandSetLayerPerFrameMetadata (m : list (option (PerFrameMetadataKey * spec_float))) : Exec unit :=
  e ← lift (in_display hwcId (layer_setPerFrameMetadata layerId m)); report e.

(** The buffers of some slots: the handles, the slot each was last seen at, and whether no error has ended the loop. *)
Fixpoint cached_buffers (slots : list Z) (cachedBuffer : option Z) (buffers : list Z) (handle2Slots : gmap Z Z) :
    Exec (option (list Z * gmap Z Z)) :=
  match slots with
  | [] => mret (Some (buffers, handle2Slots))
  | slot :: slots' =>
      r ← lift (resources (getLayerInternalBuffer hwcId layerId (⟦slot⟧u 32) true None cachedBuffer));
      let '(buffers, m) := match r.2 with
                           | Some h => (buffers ++ [h], <[h := slot]> handle2Slots)
                           | None => (buffers, handle2Slots)
                           end in
      if negb (is_ok r.1) then addError r.1 ;; mret None else cached_buffers slots' r.2 buffers m
  end.

(** The handle that comes back is not used. *)
Fixpoint clear_slots (buffers : list Z) (handle2Slots : gmap Z Z) : Exec unit :=
  match buffers with
  | [] => mret tt
  | h :: buffers' =>
      let slot := default 0 (handle2Slots !! h) in
      r ← lift (resources (getLayerInternalBuffer hwcId layerId (⟦slot⟧u 32) false None None));
      if negb (is_ok r.1) then addError r.1 else clear_slots buffers' handle2Slots
  end.

(** Only for a display that is off; every buffer found is cleared ([uncacheLayerBuffers] gives them all back). *)
Definition executeLayerCommandSetLayerBufferSlotsToClear (bufferSlotsToClear : list Z) : Exec unit :=
  powerMode ← lift (in_display hwcId (display_get mPowerMode));
  match powerMode with
  | OFF =>
      r ← cached_buffers bufferSlotsToClear None [] ∅;
      match r with
      | None => mret tt
      | Some (buffers, handle2Slots) => clear_slots buffers handle2Slots
      end
  | _ => mret tt
  end.
End Layer.

Definition executeLayerCommand (hwcId : Z) (c : LayerCommand) : Exec unit :=
  let id := lc_layer c in
  let set := executeLayerCommandSet hwcId id in
  layer ← lift (in_display hwcId (getLayer id));
  match layer with
  | None => addError BadLayer
  | Some _ =>
      dispatch (lc_cursorPosition c) (fun p => set (SetCursorPosition p.1 p.2)) ;;
      dispatch (lc_buffer c) (executeLayerCommandSetLayerBuffer hwcId id) ;;
      dispatch (lc_blendMode c) (fun m => set (SetBlendMode m)) ;;
      dispatch (lc_color c) (fun x => set (SetColor x)) ;;
      dispatch (lc_composition c) (executeLayerCommandSetLayerComposition hwcId id) ;;
      dispatch (lc_dataspace c) (fun d => set (SetDataspace d)) ;;
      dispatch (lc_displayFrame c) (fun r => set (SetDisplayFrame r)) ;;
      dispatch (lc_planeAlpha c) (fun a => set (SetPlaneAlpha a)) ;;
      dispatch (lc_sidebandStream c) (executeLayerCommandSetLayerSidebandStream hwcId id) ;;
      dispatch (lc_sourceCrop c) (fun r => set (SetSourceCrop r)) ;;
      dispatch (lc_transform c) (fun t => set (SetTransform t)) ;;
      dispatch (lc_visibleRegion c) (fun r => set (SetVisibleRegion r)) ;;
      dispatch (lc_z c) (fun z => set (SetZOrder z)) ;;
      dispatch (lc_colorTransform c) (fun m => set (SetColorTransform m)) ;;
      dispatch (lc_brightness c) (fun b => set (SetBrightness b)) ;;
      dispatch (lc_perFrameMetadata c) (executeLayerCommandSetLayerPerFrameMetadata hwcId id) ;;
      dispatch (lc_bufferSlotsToClear c) (executeLayerCommandSetLayerBufferSlotsToClear hwcId id) ;;
      dispatch (lc_luts c) (fun fd => set (SetLuts fd))
  end.

(** *** Commands for displays *)

Definition dispatchBatchCreateDestroyLayerCommand (hwcId : Z) (c : LayerCommand) : Exec unit :=
  match layerLifecycleBatchCommandType c with
  | CREATE =>
      r ← lift (in_display hwcId (createLayer (lc_layer c)));
      if negb (is_ok r.1) then addError r.1
      else error ← lift (resources (addLayer hwcId r.2 (⟦newBufferSlotCount c⟧u 32))); report error
  | DESTROY =>
      layer ← lift (in_display hwcId (getLayer (lc_layer c)));
      match layer with
      | None => addError BadLayer
      | Some _ =>
          error ← lift (in_display hwcId (destroyLayer (lc_layer c)));
          if negb (is_ok error) then addError error
          else error ← lift (resources (removeLayer hwcId (lc_layer c))); report error
      end
  | MODIFY => mret tt
  end.

Definition executeDisplayCommandSetColorTransform (hwcId : Z) (matrix : list spec_float) : Exec unit :=
  error ← lift (in_display hwcId (display_setColorTransform matrix)); report error.

Definition executeDisplayCommandSetBrightness (hwcId : Z) (brightness : spec_float) : Exec unit :=
  error ← lift (in_display hwcId (display_setBrightness brightness)); report error.

Definition executeDisplayCommandSetClientTarget (hwcId : Z) (clientTarget : Buffer) : Exec unit :=
  r ← lift (resources (getDisplayClientTarget hwcId clientTarget));
  if negb (is_ok r.1) then addError r.1 else error ← lift (in_display hwcId (setClientTarget r.2)); report error.

Definition executeDisplayCommandSetOutputBuffer (hwcId : Z) (buffer : Buffer) : Exec unit :=
  r ← lift (resources (getDisplayOutputBuffer hwcId buffer));
  if negb (is_ok r.1) then addError r.1 else report setOutputBuffer.

Definition executeDisplayCommandValidateDisplay (hwcId : Z) (expectedPresentTime : option Z) : Exec unit :=
  error ← lift (in_display hwcId (setExpectedPresentTime expectedPresentTime));
  report error ;;
  r ← lift (in_display hwcId validate);
  (if negb (is_ok r.1) then addError r.1 else addChanges r.2) ;;
  lift (resources (setDisplayMustValidateState hwcId false)).

Definition executeDisplayCommandAcceptDisplayChanges (hwcId : Z) : Exec unit :=
  error ← lift (in_display hwcId acceptChanges); report error.

(** It always validates. *)
Definition executeDisplayCommandPresentOrValidateDisplay (hwcId : Z) (expectedPresentTime : option Z) : Exec unit :=
  error ← lift (in_display hwcId (setExpectedPresentTime expectedPresentTime));
  report error ;;
  r ← lift (in_display hwcId validate);
  (if negb (is_ok r.1) then addError r.1
   else addChanges r.2 ;; write [ClientTargetProperty hwcId; PresentOrValidateResult hwcId]) ;;
  lift (resources (setDisplayMustValidateState hwcId false)).

Definition executeDisplayCommandPresentDisplay (hwcId : Z) : Exec unit :=
  must ← lift (resources (mustValidateDisplay hwcId));
  if must : bool then addError NotValidated
  else
    r ← lift (in_display hwcId present);
    if negb (is_ok r.1) then addError r.1 else write [ReleaseFences hwcId r.2].

Definition when (b : bool) (m : Exec unit) : Exec unit := if b then m else mret tt.

Definition executeDisplayCommand (c : DisplayCommand) : Exec unit :=
  let hwcId := dc_display c in
  found ← lift (getDisplay hwcId);
  if negb found then addError BadDisplay
  else
    for_each (dc_layers c) (dispatchBatchCreateDestroyLayerCommand hwcId) ;;
    dispatch (dc_brightness c) (executeDisplayCommandSetBrightness hwcId) ;;
    for_each (dc_layers c) (fun l => when (negb (is_destroy (layerLifecycleBatchCommandType l))) (executeLayerCommand hwcId l)) ;;
    dispatch (dc_colorTransformMatrix c) (executeDisplayCommandSetColorTransform hwcId) ;;
    dispatch (dc_clientTarget c) (executeDisplayCommandSetClientTarget hwcId) ;;
    dispatch (dc_virtualDisplayOutputBuffer c) (executeDisplayCommandSetOutputBuffer hwcId) ;;
    when (dc_validateDisplay c) (executeDisplayCommandValidateDisplay hwcId (dc_expectedPresentTime c)) ;;
    when (dc_acceptDisplayChanges c) (executeDisplayCommandAcceptDisplayChanges hwcId) ;;
    when (dc_presentDisplay c) (executeDisplayCommandPresentDisplay hwcId) ;;
    when (dc_presentOrValidateDisplay c) (executeDisplayCommandPresentOrValidateDisplay hwcId (dc_expectedPresentTime c)).

(** Every command is carried out, whatever became of those before. *)
Definition executeCommands (commands : list DisplayCommand) : Client (Error * list CommandResultPayload) := fun s =>
  match for_each commands (fun c => executeDisplayCommand c ;; nextCommand) (mkExecuting s (mkWriter 0 [])) with
  | Some (_, x) => Some ((NoError, mResults (ex_writer x)), ex_client x)
  | None => None
  end.

(** *** The table of displays *)

Definition client_registerCallback : Client unit :=
  first ← gets (fun s => negb (cl_callbacks s));
  modify (fun s => mkClient (mDisplays s) true (mResources s) (mCapabilities s) (mBatchCommandSupported s) (sPrivateLayerId s)
                     (cl_shared s)) ;;
  hwcIds ← gets (fun s => sorted_keys (mDisplays s));
  for_each hwcIds (fun hwcId => in_display hwcId registerCallback ;; mret tt) ;;
  if first : bool then for_each hwcIds (fun hwcId => call_framework (OnHotplug hwcId true)) else mret tt.

(** The part of [createDisplayLocked] that is about the display. *)
Definition set_up (now : Z) (configs : list DisplayConfig) (activeConfigId : Z) : St (DState C) Error :=
  error ← display_init now configs activeConfigId None;
  if negb (is_ok error) then mret error
  else
    id ← display_get mDisplayId;
    error ← in_world (onDisplayCreate id);
    if negb (is_ok error) then mret error else setPowerMode ON ;; mret NoError.

(** A new display that cannot be set up is deleted at once; one that is there stays as far as it came. *)
Definition createDisplayLocked (hwcId displayId port now activeConfigId : Z) (configs : list DisplayConfig) : Client Error :=
  old ← gets (fun s => mDisplays s !! hwcId);
  match old with
  | Some d =>
      r ← run_display d (set_up now configs activeConfigId);
      modify (fun s => with_displays s (<[hwcId := r.2]> (mDisplays s))) ;; mret r.1
  | None =>
      r ← run_display (display_new hwcId displayId port) (set_up now configs activeConfigId);
      if negb (is_ok r.1) then run_display r.2 display_delete ;; mret r.1
      else
        modify (fun s => with_displays s (<[hwcId := r.2]> (mDisplays s))) ;;
        resources (addPhysicalDisplay hwcId)
  end.

(** What the composer and the table of buffers answer is ignored. *)
Definition destroyDisplayLocked (hwcId : Z) : Client Error :=
  displays ← gets mDisplays;
  match displays !! hwcId with
  | None => mret BadDisplay
  | Some d =>
      r ← run_display d (setPowerMode OFF ;; id ← display_get mDisplayId; in_world (onDisplayDestroy id));
      resources (removeDisplay hwcId) ;;
      run_display r.2 display_delete ;;
      modify (fun s => with_displays s (delete hwcId (mDisplays s))) ;;
      mret NoError
  end.

Definition destroyDisplaysLocked : Client unit :=
  hwcIds ← gets (fun s => sorted_keys (mDisplays s));
  for_each hwcIds (fun hwcId => destroyDisplayLocked hwcId ;; mret tt).

(** Without callbacks a hotplug is forgotten.  Whether the display could be made does not matter to what the framework is told. *)
Definition handleHotplug (connected : bool) (now : Z) (h : HalMultiConfigs) : Client Error :=
  callbacks ← gets cl_callbacks;
  if negb callbacks then mret NoError
  else if connected then
    configs ← of_option (mapM hal_config (map_to_list (hm_configs h)));
    createDisplayLocked (hm_hwcId h) (hm_displayId h) (hm_port h) now (hm_activeConfigId h) (addConfigGroups hash_int configs) ;;
    call_framework (OnHotplug (hm_hwcId h) true) ;;
    mret NoError
  else
    call_framework (OnHotplug (hm_hwcId h) false) ;;
    destroyDisplayLocked (hm_hwcId h) ;;
    mret NoError.

(** [createDisplaysLocked], with what [findDisplays] has found. *)
Fixpoint createDisplaysLocked (now : Z) (displays : list (Z * Z * Z * Z * list DisplayConfig)) : Client Error :=
  match displays with
  | [] => mret NoError
  | (hwcId, displayId, port, activeConfigId, configs) :: displays' =>
      error ← createDisplayLocked hwcId displayId port now activeConfigId configs;
      if negb (is_ok error) then mret error else createDisplaysLocked now displays'
  end.

(** A new client over the table of buffers [r]. *)
Definition client_new (r : R) (nextPrivate : Z) (sh : Shared C) : ComposerClient C R := mkClient ∅ false r [] false nextPrivate sh.

Definition client_init (now : Z) (displays : list (Z * Z * Z * Z * list DisplayConfig)) : Client Error :=
  error ← createDisplaysLocked now displays;
  if negb (is_ok error) then mret error
  else
    modify (fun s => mkClient (mDisplays s) (cl_callbacks s) (mResources s) (mCapabilities s ++ [LAYER_LIFECYCLE_BATCH_COMMAND]) true
                       (sPrivateLayerId s) (cl_shared s)) ;;
    mret NoError.

(** A step of the thread of a display, if it is there. *)
Definition client_thread (hwcId now : Z) (hardware : option Z) : Client unit :=
  found ← getDisplay hwcId; if found : bool then in_display hwcId (threadLoop now hardware) else mret tt.
End Client.

(** *** A client in use *)

Inductive client_op :=
  | ClCreateLayer (hwcId bufferSlotCount : Z)
  | ClDestroyLayer (hwcId layerId : Z)
  | ClExecuteCommands (commands : list DisplayCommand)
  | ClSetActiveConfig (hwcId configId desiredTimeNanos : Z) (seamlessRequired : bool)
  | ClSetColorMode (hwcId : Z) (mode : ColorMode) (intent : RenderIntent)
  | ClSetPowerMode (hwcId : Z) (mode : PowerMode)
  | ClSetVsyncEnabled (hwcId : Z) (enabled : bool)
  | ClSetClientTargetSlotCount (hwcId count : Z)
  | ClSetBootDisplayConfig (hwcId configId : Z)
  | ClClearBootDisplayConfig (hwcId : Z)
  | ClGetPreferredBootDisplayConfig (hwcId : Z)
  | ClSetReadbackBuffer (hwcId : Z) (buffer : option Z)
  | ClRegisterCallback
  | ClHotplug (connected : bool) (now : Z) (h : HalMultiConfigs)
  | ClThread (hwcId now : Z) (hardware : option Z).

Section Reachable.
Context `{!HwcAbi, !DeviceComposerOps, !DeviceClient C, !HdrAbi, !DataspaceAbi, !DeviceOps, !ComposerResourcesImpl R}.
Variable hash_int : Z -> Z.
Implicit Types s : ComposerClient C R.

Definition client_exec (o : client_op) : St (ComposerClient C R) unit :=
  match o with
  | ClCreateLayer h n => client_createLayer h n ;; mret tt
  | ClDestroyLayer h l => client_destroyLayer h l ;; mret tt
  | ClExecuteCommands l => executeCommands l ;; mret tt
  | ClSetActiveConfig h c t b => client_setActiveConfigWithConstraints h c t b ;; mret tt
  | ClSetColorMode h m i => client_setColorMode h m i ;; mret tt
  | ClSetPowerMode h m => client_setPowerMode h m ;; mret tt
  | ClSetVsyncEnabled h b => client_setVsyncEnabled h b ;; mret tt
  | ClSetClientTargetSlotCount h n => setClientTargetSlotCount h n ;; mret tt
  | ClSetBootDisplayConfig h c => setBootDisplayConfig h c ;; mret tt
  | ClClearBootDisplayConfig h => clearBootDisplayConfig h ;; mret tt
  | ClGetPreferredBootDisplayConfig h => getPreferredBootDisplayConfig h ;; mret tt
  | ClSetReadbackBuffer h b => client_setReadbackBuffer h b ;; mret tt
  | ClRegisterCallback => client_registerCallback
  | ClHotplug b now h => handleHotplug hash_int b now h ;; mret tt
  | ClThread h now hw => client_thread h now hw
  end.
End Reachable.
