(* ===== verification/HwcPlug.v ===== *)
(** * The displays of a client, over all that is asked of it

    What holds of the displays of [HwcClient] in every state that requests, hotplugs and
    the steps of the threads lead to, and what a display that is plugged in late misses. *)

From S2P Require Import Prelude CppText Edid HwcEdid HwcLayer FrameComposer HwcDisplay HwcVsync HwcClient.

(** ** What an operation does to its display *)

Section Calm.
Context `{!HwcAbi, !DeviceComposerOps, !DeviceClient C, !HdrAbi, !DataspaceAbi, !DeviceOps}.
Implicit Types s : DState C.
Abbreviation thread s := (mVsyncThread (ds_display s)).
Abbreviation calls s := (sh_calls (ds_shared s)).

Definition started (d : Display) : Prop := vt_pc (mVsyncThread d) <> NotStarted.

(** The display stays what it is, its thread goes on, and it reports no syncs of other displays, nor any without callbacks. *)
Record attached s s' : Prop := {
  at_id : mId (ds_display s') = mId (ds_display s);
  at_started : started (ds_display s) -> started (ds_display s');
  at_calls : forall h, h <> mId (ds_display s) \/ vt_callbacks (thread s) = false -> vsyncs h (calls s') = vsyncs h (calls s);
  at_deaf : vt_callbacks (thread s) = false -> vt_callbacks (thread s') = false
}.
#[global] Instance attached_refl : Reflexive attached.
Proof. by intros s. Qed.
#[global] Instance attached_trans : Transitive attached.
Proof.
  intros s1 s2 s3 [F1 F2 F3 F4] [K1 K2 K3 K4]. split; [congruence|by auto| |by auto].
  intros h [Hh|Hc]; [rewrite K3, F3; [done|by left|left; congruence]|rewrite K3, F3; [done|by right|right; by apply F4]].
Qed.

Lemma attached_display (f : Display -> Display) : (forall d, mId (f d) = mId d) -> (forall d, started d -> started (f d)) ->
  (forall d, vt_callbacks (mVsyncThread d) = false -> vt_callbacks (mVsyncThread (f d)) = false) -> all_runs (display_set f) attached.
Proof. intros F1 F2 F3. apply all_runs_modify. intros s. split; cbn; auto. Qed.

Lemma attached_in_world {A} (m : St (World C) A) : all_runs (in_world m) attached.
Proof. intros s a s'. unfold in_world. destruct (m _) as [[b w]|]; [|done]. by intros [= <- <-]. Qed.

Lemma attached_shared (f : Shared C -> Shared C) : (forall sh, sh_calls (f sh) = sh_calls sh) -> all_runs (shared_set f) attached.
Proof. intros Hf. apply all_runs_modify. intros s. split; try done. intros h _. cbn. by rewrite Hf. Qed.

Lemma attached_refresh h : all_runs (call_back (OnRefresh h)) attached.
Proof. apply all_runs_modify. intros s. split; try done. intros h0 _. cbn [ds_shared sh_calls]. rewrite vsyncs_snoc. cbn. by rewrite app_nil_r. Qed.

#[local] Hint Extern 1 (all_runs (display_set _) _) => (apply attached_display; by intros) : all_runs.
#[local] Hint Extern 1 (all_runs (shared_set _) _) => (apply attached_shared; by intros) : all_runs.
#[local] Hint Resolve attached_in_world attached_refresh : all_runs.

Lemma attached_resolve l : all_runs (resolve l) attached.
Proof. induction l as [|a l IH]; cbn [resolve]; all_runs. Qed.
Lemma attached_accept l : all_runs (accept_changes l) attached.
Proof. induction l as [|[a c] l IH]; cbn [accept_changes]; unfold getLayer, display_get; all_runs. Qed.
#[local] Hint Resolve attached_resolve attached_accept : all_runs.

#[local] Ltac attached := unfold display_init, updateParameters, createLayer, destroyLayer, validate, layer_command, setBootConfig, getBootConfigId,
  clearBootConfig, setEdid, new_parser, take_edid, free_layer, new_address, layer_setPerFrameMetadata, setColorMode, setPowerMode,
  setReadbackBuffer, setVsyncEnabled, display_setColorTransform, display_setBrightness, setClientTarget, setExpectedPresentTime,
  setDisplayCapabilities, acceptChanges, present, setActiveConfigWithConstraints, scheduleVsyncUpdate, takeEffectConfig,
  updateVsyncPeriodLocked, flow_set, vsync_set, set_pmem, set_parsers, set_next, getLayer, display_get, shared_get; all_runs.

Lemma attached_threadLoop now hw : all_runs (threadLoop now hw) attached.
Proof.
  unfold threadLoop. intros s a s' E. apply st_bind_inv in E as (v & s0 & [= <- <-] & E). destruct (vt_pc (thread s)) eqn:Epc.
  6:{ apply st_bind_inv in E as (h & s0 & [= <- <-] & E). apply st_bind_inv in E as ([] & s1 & Ec & [= <- <-]).
      transitivity s1; [|split; done]. destruct (mVsyncEnabled (thread s) && vt_callbacks (thread s)) eqn:Eb; [|by injection Ec as <-].
      apply andb_true_iff in Eb as [_ Eb]. injection Ec as <-. split; try done. intros h [Hh|Hc]; cbn [ds_shared sh_calls]; [|congruence].
      rewrite vsyncs_snoc. unfold vsyncs at 2. cbn. rewrite (proj2 (Z.eqb_neq _ _)) by congruence. by rewrite app_nil_r. }
  all: match type of E with ?m _ = _ => assert (all_runs m attached) as Hm by attached end; by eapply Hm.
Qed.

Lemma attached_init now configs active edid : all_runs (display_init now configs active edid) attached.
Proof.
  unfold display_init. repeat (apply all_runs_bind; [apply _|attached|intros ?]). case_match; [|by apply all_runs_ret].
  apply all_runs_bind; [apply _|attached|intros st]. apply all_runs_bind; [apply _| |intros; by apply all_runs_ret].
  destruct st; [by apply all_runs_ret|]. intros s a' s' E. apply st_bind_inv in E as (v & s0 & [= <- <-] & E).
  apply st_bind_inv in E as (v & s0 & Ev & [= <- <-]). unfold of_option, vsync_start in Ev.
  destruct (checked_s 64 _) as [p|]; [|done]. injection Ev as <- <-. by split; cbn; auto.
Qed.

(** What a request does to the layers and to the display. *)
Definition calm s s' : Prop := op_ok s s' /\ attached s s'.
#[global] Instance calm_refl : Reflexive calm.
Proof. by intros s. Qed.
#[global] Instance calm_trans : Transitive calm.
Proof. intros s1 s2 s3 [F1 F2] [K1 K2]. split; by etrans. Qed.

Definition is_register (o : display_op) : bool := match o with OpRegisterCallback => true | _ => false end.

Lemma attached_exec o : is_register o = false -> all_runs (display_exec o) attached.
Proof.
  destruct o; intros [=]; cbn [display_exec]; first [apply then_ret; [apply _..|]|idtac]; [apply attached_init|attached..|apply attached_threadLoop].
Qed.

Lemma calm_exec {A} o (m : St (DState C) A) : display_exec o = (m ;; mret tt) -> is_register o = false -> all_runs m calm.
Proof.
  intros E Ho s a s' Em. assert (display_exec o s = Some (tt, s')) as Eo by (rewrite E; unfold mbind, St_bind; by rewrite Em).
  split; [by eapply exec_op|by eapply attached_exec].
Qed.

(** What a request to a display does to others: it makes room and frees its own. *)
Record apart s s' : Prop := {
  ap_heap : sh_heap (ds_shared s) <= sh_heap (ds_shared s');
  ap_other : forall a, a < sh_heap (ds_shared s) -> ~ owns s a ->
    layer_ids (sh_world (ds_shared s')) a = layer_ids (sh_world (ds_shared s)) a
}.

Lemma op_apart s s' : op_ok s s' -> apart s s'.
Proof. intros [F1 F2 _ _]. by split. Qed.

Lemma apart_after s s1 s2 : op_ok s s1 -> apart s1 s2 -> apart s s2.
Proof.
  intros [F1 F2 F3 _] [K1 K2]. split; [lia|]. intros a Ha Hn. rewrite K2, F2; [done..|lia|]. by intros [?|?]%F3; [|lia].
Qed.

Lemma apart_delete s a s' : display_delete s = Some (a, s') -> apart s s'.
Proof.
  unfold display_delete. intros E. apply st_bind_inv in E as (d & s0 & [= <- <-] & E). cbn in E.
  destruct (vt_pc _); [done|..]; (apply st_bind_inv in E as ([] & s1 & [= <-] & E); apply st_bind_inv in E as ([] & s2 & [= <-] & [= <- <-]);
    split; cbn; [done|]; intros b _ Hb; unfold layer_ids; cbn; f_equal;
    assert (b ∉ (map_to_list (mLayers (d_flow (ds_display s)))).*2) as Hn
      by (intros ([id b'] & -> & Hid%elem_of_map_to_list)%list_elem_of_fmap; apply Hb; by exists id);
    revert Hn; generalize (map_to_list (mLayers (d_flow (ds_display s)))).*2; intros l; induction l as [|c l IH]; [done|];
    intros [? ?]%not_elem_of_cons; cbn; rewrite lookup_delete_ne by done; by apply IH).
Qed.

(** A thread that was started can be joined. *)
Lemma delete_defined s : started (ds_display s) -> is_Some (display_delete s).
Proof. unfold started, display_delete, mbind, St_bind. cbn. destruct (vt_pc _); [done|..]; intros _; by eexists. Qed.

(** *** The displays of a table *)

Record displays_ok (ds : gmap Z Display) (sh : Shared C) : Prop := {
  do_display : forall h d, ds !! h = Some d -> mId d = h /\ layers_ok (mkDState d sh) /\ started d;
  do_apart : forall h h' d d' i i' a, ds !! h = Some d -> ds !! h' = Some d' -> mLayers (d_flow d) !! i = Some a ->
    mLayers (d_flow d') !! i' = Some a -> h = h'
}.

(** A display of the table, or a new one. *)
Definition candidate (ds : gmap Z Display) (h : Z) (d : Display) : Prop :=
  ds !! h = Some d \/ (ds !! h = None /\ mLayers (d_flow d) = ∅ /\ mOrderedLayers (d_flow d) = []).

Lemma candidate_layers ds sh h d : displays_ok ds sh -> candidate ds h d -> layers_ok (mkDState d sh).
Proof.
  intros Hok [Hd|(_ & Hl & Ho)]; [by destruct (do_display _ _ Hok h d Hd) as (_ & ? & _)|].
  split; cbn; rewrite ?Hl, ?Ho; [by intros ??; rewrite lookup_empty|by intros a ?%elem_of_nil|constructor|by intros ??; rewrite lookup_empty].
Qed.

Lemma candidate_apart ds sh h d h' d' i i' a : displays_ok ds sh -> candidate ds h d -> ds !! h' = Some d' -> h' <> h ->
  mLayers (d_flow d) !! i = Some a -> mLayers (d_flow d') !! i' = Some a -> False.
Proof.
  intros Hok [Hd|(_ & Hl & _)] Hd' Hne Hi Hi'; [|by rewrite Hl, lookup_empty in Hi]. apply Hne. by eapply (do_apart _ _ Hok h' h).
Qed.

(** The layers of the others stay as they are. *)
Lemma displays_other ds sh h d s1 h' d' : displays_ok ds sh -> candidate ds h d -> apart (mkDState d sh) s1 ->
  ds !! h' = Some d' -> h' <> h -> layers_ok (mkDState d' (ds_shared s1)).
Proof.
  intros Hok Hc [K1 K2] Hd' Hne. destruct (do_display _ _ Hok h' d' Hd') as (_ & [L1 L2 L3 L4] & _). cbn in *. split; cbn; [|done..|].
  - intros id a Hid. rewrite K2; [by apply L1|by eapply L4|]. intros (i & Hi). by eapply candidate_apart.
  - intros id a Hid%L4. lia.
Qed.

Lemma displays_put ds sh h d s1 : displays_ok ds sh -> candidate ds h d -> op_ok (mkDState d sh) s1 -> mId (ds_display s1) = h ->
  started (ds_display s1) -> displays_ok (<[h := ds_display s1]> ds) (ds_shared s1).
Proof.
  intros Hok Hc Hop Hid Hst. split.
  - intros h' d'. rewrite lookup_insert_Some. intros [[<- <-]|[Hne Hd']].
    + split; [done|]. split; [|done]. destruct s1 as [d1 sh1]. apply (ok_layers _ _ Hop). by eapply candidate_layers.
    + destruct (do_display _ _ Hok h' d' Hd') as (? & _ & ?). split; [done|]. split; [|done].
      by eapply displays_other; [..|apply op_apart|exact Hd'|].
  - assert (forall h' d' i i' a, ds !! h' = Some d' -> h' <> h -> mLayers (d_flow (ds_display s1)) !! i = Some a ->
      mLayers (d_flow d') !! i' = Some a -> False) as Hap.
    { intros h' d' i i' a Hd' Hne Hi Hi'. destruct (ok_owned _ _ Hop a (ex_intro _ i Hi)) as [(j & Hj)|Hle]; [by eapply candidate_apart|].
      destruct (do_display _ _ Hok h' d' Hd') as (_ & Hl & _). pose proof (lo_heap _ Hl _ _ Hi'). cbn in *. lia. }
    intros h1 h2 d1 d2 i i' a. rewrite !lookup_insert_Some. intros [[<- <-]|[Hne1 Hd1]] [[<- <-]|[Hne2 Hd2]] Hi Hi'; [done|..].
    + exfalso. by eapply (Hap h2).
    + exfalso. by eapply (Hap h1).
    + by eapply (do_apart _ _ Hok h1 h2).
Qed.

Lemma displays_drop ds sh h d s1 : displays_ok ds sh -> candidate ds h d -> apart (mkDState d sh) s1 ->
  displays_ok (delete h ds) (ds_shared s1).
Proof.
  intros Hok Hc Hap. split.
  - intros h' d' [Hne Hd']%lookup_delete_Some. destruct (do_display _ _ Hok h' d' Hd') as (? & _ & ?). split; [done|]. split; [|done].
    by eapply displays_other.
  - intros h1 h2 d1 d2 i i' a [_ ?]%lookup_delete_Some [_ ?]%lookup_delete_Some. by eapply (do_apart _ _ Hok).
Qed.

Lemma displays_calls ds sh sh' : sh_world sh' = sh_world sh -> sh_heap sh' = sh_heap sh -> displays_ok ds sh -> displays_ok ds sh'.
Proof.
  intros Hw Hh [F1 F2]. split; [|done]. intros h d Hd. destruct (F1 h d Hd) as (? & [L1 L2 L3 L4] & ?). split; [done|]. split; [|done].
  split; cbn in *; rewrite ?Hw, ?Hh; done.
Qed.
End Calm.

(** ** The client *)

Section Plug.
Context `{!HwcAbi, !DeviceComposerOps, !DeviceClient C, !HdrAbi, !DataspaceAbi, !DeviceOps, !ComposerResourcesImpl R}.
Variable hash_int : Z -> Z.
Implicit Types s : ComposerClient C R.
Abbreviation calls s := (sh_calls (cl_shared s)).

(** The displays of the table are set up, their threads run, and no layer belongs to two of them. *)
Definition client_inv s : Prop := displays_ok (mDisplays s) (cl_shared s).

(** A display nobody listens to. *)
Definition unheard h s : Prop := forall d, mDisplays s !! h = Some d -> vt_callbacks (mVsyncThread d) = false.

Definition keeps_inv s s' : Prop := client_inv s -> client_inv s'.
Definition stays_unheard h s s' : Prop :=
  client_inv s -> unheard h s -> client_inv s' /\ unheard h s' /\ vsyncs h (calls s') = vsyncs h (calls s).

(** Steps that leave the displays alone. *)
Record bookkeeping s s' : Prop := {
  bk_displays : mDisplays s' = mDisplays s;
  bk_world : sh_world (cl_shared s') = sh_world (cl_shared s);
  bk_heap : sh_heap (cl_shared s') = sh_heap (cl_shared s);
  bk_calls : forall h, vsyncs h (calls s') = vsyncs h (calls s)
}.

(** What is kept by every step of a client but the registration of callbacks. *)
Class Kept (K : ComposerClient C R -> ComposerClient C R -> Prop) := {
  kept_refl : Reflexive K;
  kept_trans : Transitive K;
  kept_book s s' : bookkeeping s s' -> K s s';
  kept_put s h d (s1 : DState C) : candidate (mDisplays s) h d -> (mDisplays s !! h = None -> vt_callbacks (mVsyncThread d) = false) ->
    (client_inv s -> mId d = h) -> calm (mkDState d (cl_shared s)) s1 -> (client_inv s -> started (ds_display s1)) ->
    K s (with_displays (with_shared s (ds_shared s1)) (<[h := ds_display s1]> (mDisplays s)));
  kept_drop s h d (s1 s2 : DState C) : candidate (mDisplays s) h d -> (mDisplays s !! h = None -> vt_callbacks (mVsyncThread d) = false) ->
    (client_inv s -> mId d = h) -> calm (mkDState d (cl_shared s)) s1 -> apart s1 s2 -> sh_calls (ds_shared s2) = sh_calls (ds_shared s1) ->
    K s (with_displays (with_shared s (ds_shared s2)) (delete h (mDisplays s)))
}.

#[global] Instance keeps_inv_kept : Kept keeps_inv.
Proof.
  split; unfold keeps_inv, client_inv.
  - by intros s.
  - intros s1 s2 s3; auto.
  - intros s s' [F1 F2 F3 _]. rewrite F1. by apply displays_calls.
  - intros s h d s1 Hc _ Hid [Hop Hat] Hst Hinv. cbn. eapply displays_put; [done..| |by apply Hst]. rewrite (at_id _ _ Hat). by apply Hid.
  - intros s h d s1 s2 Hc _ Hid [Hop Hat] Hap _ Hinv. cbn. eapply displays_drop; [done..|]. by eapply apart_after.
Qed.

#[global] Instance stays_unheard_kept h0 : Kept (stays_unheard h0).
Proof.
  split; unfold stays_unheard.
  - by intros s.
  - intros s1 s2 s3 F K Hi Hu. destruct (F Hi Hu) as (? & ? & ?). destruct (K ltac:(done) ltac:(done)) as (? & ? & ?). split_and!; [done..|congruence].
  - intros s s' Hb Hi Hu. pose proof Hb as [F1 _ _ F4]. split_and!; [by apply (kept_book (K := keeps_inv) s s')|by unfold unheard; rewrite F1|done].
  - intros s h d s1 Hc Hnew Hid Hcalm Hst Hi Hu. pose proof Hcalm as [_ [_ _ K3 K4]]. split_and!; [by eapply (kept_put (K := keeps_inv))|..].
    + intros d'. cbn. rewrite lookup_insert_Some. intros [[-> <-]|[_ Hd']]; [|by apply Hu]. apply K4. cbn.
      destruct Hc as [Hc|[Hc _]]; [by apply Hu|by apply Hnew].
    + cbn. apply K3. cbn. destruct (decide (h0 = h)) as [->|]; [right|left; cbn in *; rewrite Hid; done]. destruct Hc as [Hc|[Hc _]]; [by apply Hu|by apply Hnew].
  - intros s h d s1 s2 Hc Hnew Hid Hcalm Hap Hcalls Hi Hu. pose proof Hcalm as [_ [_ _ K3 K4]]. split_and!; [by eapply (kept_drop (K := keeps_inv))|..].
    + intros d'. cbn. intros [_ Hd']%lookup_delete_Some. by apply Hu.
    + cbn. rewrite Hcalls. apply K3. cbn. destruct (decide (h0 = h)) as [->|]; [right|left; cbn in *; rewrite Hid; done].
      destruct Hc as [Hc|[Hc _]]; [by apply Hu|by apply Hnew].
Qed.

Section Walk.
Context (K : ComposerClient C R -> ComposerClient C R -> Prop) `{!Kept K}.
#[local] Existing Instances kept_refl kept_trans.

Lemma in_display_inv {A} h (m : St (DState C) A) s a s' : in_display h m s = Some (a, s') -> exists d (s1 : DState C),
  mDisplays s !! h = Some d /\ m (mkDState d (cl_shared s)) = Some (a, s1) /\
  s' = with_displays (with_shared s (ds_shared s1)) (<[h := ds_display s1]> (mDisplays s)).
Proof.
  intros E. unfold in_display in E. apply st_bind_inv in E as (ds & s0 & [= <- <-] & E). apply st_bind_inv in E as (d & s0 & Ed & E).
  unfold of_option in Ed. destruct (mDisplays s !! h) as [d0|] eqn:Hd; [|done]. injection Ed as <- <-.
  apply st_bind_inv in E as ([b d1] & s1 & Er & E). apply st_bind_inv in E as ([] & s2 & [= <-] & [= <- <-]).
  unfold run_display in Er. destruct (m _) as [[a s3]|] eqn:Em; [|done]. injection Er as <- <- <-. by exists d0, s3.
Qed.

Lemma in_display_kept {A} h (m : St (DState C) A) : all_runs m calm -> all_runs (in_display h m) K.
Proof.
  intros Hm s a s' (d & s1 & Hd & Em & ->)%in_display_inv. pose proof (Hm _ _ _ Em) as Hc. apply (kept_put s h d s1); [by left|congruence| |done|].
  - intros Hi. by destruct (do_display _ _ Hi h d Hd).
  - intros Hi. apply (at_started _ _ (proj2 Hc)). by destruct (do_display _ _ Hi h d Hd) as (_ & _ & ?).
Qed.

Lemma book_modify (f : ComposerClient C R -> ComposerClient C R) : (forall s, bookkeeping s (f s)) -> all_runs (modify f) K.
Proof. intros Hf. apply all_runs_modify. intros s. by apply kept_book. Qed.

Lemma book_call e : match e with OnVsync _ _ _ => False | _ => True end -> all_runs (call_framework (R := R) e) K.
Proof.
  intros He. apply book_modify. intros s. split; try done. intros h. cbn [cl_shared with_shared sh_calls]. rewrite vsyncs_snoc.
  by destruct e; [|cbn; rewrite app_nil_r..].
Qed.

#[local] Hint Extern 1 (all_runs (modify _) _) => (apply book_modify; by intros) : all_runs.
#[local] Hint Extern 1 (all_runs (call_framework _) _) => (apply book_call; done) : all_runs.

Lemma resources_kept {A} (f : R -> A * R) : all_runs (resources (C := C) f) K.
Proof. unfold resources. all_runs. Qed.

Lemma calm_refl_gets {A} (f : Display -> A) : all_runs (display_get (C := C) f) calm.
Proof. apply all_runs_gets, _. Qed.

(** The requests of a client, each an operation of a display. *)
#[local] Ltac op o := exact (calm_exec o _ eq_refl eq_refl).
Lemma calm_createLayer i : all_runs (createLayer i) (calm (C := C)). Proof. op (OpCreateLayer i). Qed.
Lemma calm_destroyLayer i : all_runs (destroyLayer i) (calm (C := C)). Proof. op (OpDestroyLayer i). Qed.
Lemma calm_layer_command i c : all_runs (layer_command i c) (calm (C := C)). Proof. op (OpLayerCommand i c). Qed.
Lemma calm_metadata i m : all_runs (layer_setPerFrameMetadata i m) (calm (C := C)). Proof. op (OpPerFrameMetadata i m). Qed.
Lemma calm_setActive c t b : all_runs (setActiveConfigWithConstraints c t b) (calm (C := C)). Proof. op (OpSetActiveConfig c t b). Qed.
Lemma calm_setBoot c : all_runs (setBootConfig c) (calm (C := C)). Proof. op (OpSetBootConfig c). Qed.
Lemma calm_clearBoot : all_runs clearBootConfig (calm (C := C)). Proof. op OpClearBootConfig. Qed.
Lemma calm_setColorMode m i : all_runs (setColorMode m i) (calm (C := C)). Proof. op (OpSetColorMode m i). Qed.
Lemma calm_setPowerMode m : all_runs (setPowerMode m) (calm (C := C)). Proof. op (OpSetPowerMode m). Qed.
Lemma calm_setReadback b : all_runs (setReadbackBuffer b) (calm (C := C)). Proof. op (OpSetReadbackBuffer b). Qed.
Lemma calm_setVsync b : all_runs (setVsyncEnabled b) (calm (C := C)). Proof. op (OpSetVsyncEnabled b). Qed.
Lemma calm_setTransform m : all_runs (display_setColorTransform m) (calm (C := C)). Proof. op (OpSetColorTransform m). Qed.
Lemma calm_setBrightness b : all_runs (display_setBrightness b) (calm (C := C)). Proof. op (OpSetBrightness b). Qed.
Lemma calm_setTarget b : all_runs (setClientTarget b) (calm (C := C)). Proof. op (OpSetClientTarget b). Qed.
Lemma calm_setExpected t : all_runs (setExpectedPresentTime t) (calm (C := C)). Proof. op (OpSetExpectedPresentTime t). Qed.
Lemma calm_validate : all_runs validate (calm (C := C)). Proof. op OpValidate. Qed.
Lemma calm_accept : all_runs acceptChanges (calm (C := C)). Proof. op OpAcceptChanges. Qed.
Lemma calm_present : all_runs present (calm (C := C)). Proof. op OpPresent. Qed.
Lemma calm_init now configs active edid : all_runs (display_init now configs active edid) (calm (C := C)). Proof. op (OpInit now configs active edid). Qed.
#[local] Hint Resolve calm_createLayer calm_destroyLayer calm_layer_command calm_metadata calm_setActive calm_setBoot calm_clearBoot
  calm_setColorMode calm_setPowerMode calm_setReadback calm_setVsync calm_setTransform calm_setBrightness calm_setTarget
  calm_setExpected calm_validate calm_accept calm_present calm_init calm_refl_gets resources_kept : all_runs.
#[local] Hint Extern 1 (all_runs (in_display _ _) _) => (apply in_display_kept; solve [eauto with all_runs]) : all_runs.

Lemma calm_threadLoop now hw : all_runs (threadLoop now hw) (calm (C := C)).
Proof. intros s a s' E. split; [by eapply (exec_op (OpThread now hw))|by eapply attached_threadLoop]. Qed.
Lemma calm_preferred : all_runs getPreferredBootConfig (calm (C := C)).
Proof. unfold getPreferredBootConfig, display_get. all_runs. Qed.
Lemma calm_getLayer i : all_runs (getLayer i) (calm (C := C)).
Proof. apply calm_refl_gets. Qed.
#[local] Hint Resolve calm_threadLoop calm_preferred calm_getLayer : all_runs.

Lemma for_each_kept {S X} (Q : S -> S -> Prop) `{!Reflexive Q, !Transitive Q} (l : list X) (f : X -> St S unit) :
  (forall x, all_runs (f x) Q) -> all_runs (for_each l f) Q.
Proof. intros Hf. induction l as [|x l IH]; cbn [for_each]; [by apply all_runs_ret|by apply all_runs_bind]. Qed.

(** *** Commands *)

Definition exec_kept (x x' : Executing C R) : Prop := K (ex_client x) (ex_client x').
#[local] Instance exec_kept_refl : Reflexive exec_kept.
Proof. intros x. unfold exec_kept. reflexivity. Qed.
#[local] Instance exec_kept_trans : Transitive exec_kept.
Proof. intros x y z. unfold exec_kept. apply kept_trans. Qed.

Lemma lift_kept {A} (m : St (ComposerClient C R) A) : all_runs m K -> all_runs (lift m) exec_kept.
Proof. intros Hm x a x'. unfold lift. destruct (m _) as [[b s]|] eqn:E; [|done]. intros [= <- <-]. by eapply Hm. Qed.

Lemma writer_kept (f : Executing C R -> Executing C R) : (forall x, ex_client (f x) = ex_client x) -> all_runs (modify f) exec_kept.
Proof. intros Hf. apply all_runs_modify. intros x. unfold exec_kept. by rewrite Hf. Qed.

#[local] Hint Extern 2 (all_runs (lift _) _) => (apply lift_kept; first [solve [eauto with all_runs]|apply all_runs_gets; tc_solve]) : all_runs.
#[local] Hint Extern 2 (all_runs (modify _) exec_kept) => (apply writer_kept; by intros) : all_runs.

Lemma report_kept e : all_runs (report (C := C) (R := R) e) exec_kept.
Proof. unfold report, addError, write. all_runs. Qed.
Lemma addError_kept e : all_runs (addError (C := C) (R := R) e) exec_kept.
Proof. unfold addError, write. all_runs. Qed.
Lemma write_kept l : all_runs (write (C := C) (R := R) l) exec_kept.
Proof. unfold write. all_runs. Qed.
Lemma addChanges_kept ch : all_runs (addChanges (C := C) (R := R) ch) exec_kept.
Proof. unfold addChanges, write. all_runs. Qed.
#[local] Hint Resolve report_kept addError_kept write_kept addChanges_kept : all_runs.

Lemma dispatch_kept {X} (o : option X) f : (forall x, all_runs (f x) exec_kept) -> all_runs (dispatch (C := C) (R := R) o f) exec_kept.
Proof. intros Hf. destruct o; cbn; all_runs. Qed.
Lemma when_kept b m : all_runs m exec_kept -> all_runs (when (C := C) (R := R) b m) exec_kept.
Proof. intros Hm. destruct b; cbn; all_runs. Qed.

Lemma set_kept h i c : all_runs (executeLayerCommandSet h i c) exec_kept.
Proof. unfold executeLayerCommandSet. all_runs. Qed.
#[local] Hint Resolve set_kept : all_runs.

Lemma clear_slots_kept h i m l : all_runs (clear_slots h i l m) exec_kept.
Proof. induction l as [|x l IH]; cbn [clear_slots]; all_runs. Qed.
Lemma cached_buffers_kept h i l : forall o b m, all_runs (cached_buffers h i l o b m) exec_kept.
Proof. induction l as [|x l IH]; intros o b m; cbn [cached_buffers]; all_runs. Qed.
#[local] Hint Resolve clear_slots_kept cached_buffers_kept : all_runs.

Lemma layer_kept h c : all_runs (executeLayerCommand h c) exec_kept.
Proof.
  unfold executeLayerCommand, executeLayerCommandSetLayerBuffer, executeLayerCommandSetLayerComposition,
    executeLayerCommandSetLayerSidebandStream, executeLayerCommandSetLayerPerFrameMetadata, executeLayerCommandSetLayerBufferSlotsToClear.
  all_runs; apply dispatch_kept; intros; all_runs.
Qed.

Lemma batch_kept h c : all_runs (dispatchBatchCreateDestroyLayerCommand h c) exec_kept.
Proof. unfold dispatchBatchCreateDestroyLayerCommand. all_runs. Qed.

Lemma display_kept c : all_runs (executeDisplayCommand c) exec_kept.
Proof.
  unfold executeDisplayCommand, executeDisplayCommandSetBrightness, executeDisplayCommandSetColorTransform,
    executeDisplayCommandSetClientTarget, executeDisplayCommandSetOutputBuffer, executeDisplayCommandValidateDisplay,
    executeDisplayCommandAcceptDisplayChanges, executeDisplayCommandPresentDisplay, executeDisplayCommandPresentOrValidateDisplay, getDisplay.
  repeat first [apply dispatch_kept; intros | apply when_kept | apply (for_each_kept exec_kept); intros | apply batch_kept | apply layer_kept
    | progress all_runs].
Qed.

Lemma executeCommands_kept l : all_runs (executeCommands l) K.
Proof.
  intros s a s'. unfold executeCommands. destruct (for_each _ _ _) as [[[] x]|] eqn:E; [|done]. intros [= <- <-].
  assert (all_runs (for_each l (fun c => executeDisplayCommand c ;; nextCommand)) exec_kept) as Hm
    by (apply (for_each_kept exec_kept); intros c; apply all_runs_bind; [apply _|apply display_kept|intros _; unfold nextCommand; all_runs]).
  exact (Hm _ _ _ E).
Qed.

(** *** Displays that come and go *)

Lemma set_up_calm now configs active : all_runs (set_up now configs active) (calm (C := C)).
Proof.
  unfold set_up. all_runs. intros t r t' E. split.
  - apply still_op, quiet_still. eapply quiet_in_world; [|exact E]. apply kept_onDisplayCreate.
  - by eapply attached_in_world.
Qed.

(** A display that has been set up has a thread. *)
Lemma init_started now configs active (s s' : DState C) : display_init now configs active None s = Some (NoError, s') ->
  mVsyncStarted (ds_display s) = false -> started (ds_display s').
Proof.
  intros E Hs. unfold display_init in E. apply st_bind_inv in E as ([] & s1 & [= <-] & E).
  apply st_bind_inv in E as (boot & s2 & Eb & E). rewrite boot_config_never_read in Eb. injection Eb as <- <-.
  apply st_bind_inv in E as ([] & s3 & [= <-] & E). apply st_bind_inv in E as ([] & s4 & [= <-] & E).
  apply st_bind_inv in E as ([] & s5 & En & E). assert (mVsyncStarted (ds_display s5) = false) as Hs5.
  { unfold new_parser in En. apply st_bind_inv in En as (e & s6 & [= <- <-] & En). apply st_bind_inv in En as (p & s6 & Ep & En).
    unfold of_option in Ep. destruct (hwc_edid_new _ _); [|done]. injection Ep as <- <-. by injection En as <-. }
  apply st_bind_inv in E as (o & s6 & [= <- <-] & E). destruct (getConfig _ _) as [c|]; [|done].
  apply st_bind_inv in E as (st & s6 & [= <- <-] & E). rewrite Hs5 in E.
  apply st_bind_inv in E as ([] & s7 & E & [= <-]). apply st_bind_inv in E as (v & s8 & [= <- <-] & E).
  apply st_bind_inv in E as (v & s8 & Ev & [= <-]). unfold of_option, vsync_start in Ev. destruct (checked_s 64 _); [|done].
  by injection Ev as <- <-.
Qed.

Lemma set_up_started now configs active (s s' : DState C) : set_up now configs active s = Some (NoError, s') ->
  mVsyncStarted (ds_display s) = false -> started (ds_display s').
Proof.
  unfold set_up. intros E Hs. apply st_bind_inv in E as (e & s1 & Ei & E). destruct e; try done; cbn in E.
  pose proof (init_started _ _ _ _ _ Ei Hs) as Hst. eapply (at_started s1); [|done].
  match type of E with ?m _ = _ => assert (all_runs m attached) as Hm end; [|by eapply Hm].
  unfold display_get. apply all_runs_bind; [apply _|all_runs|intros i]. apply all_runs_bind; [apply _|apply attached_in_world|intros e].
  case_match; [all_runs|]. apply all_runs_bind; [apply _| |intros; all_runs]. intros t a t' Et. by apply (calm_setPowerMode ON t a t') in Et as [].
Qed.

Lemma run_display_inv {A} d (m : St (DState C) A) s a d' s' : run_display d m s = Some ((a, d'), s') -> exists s1 : DState C,
  m (mkDState d (cl_shared s)) = Some (a, s1) /\ d' = ds_display s1 /\ s' = with_shared s (ds_shared s1).
Proof. unfold run_display. destruct (m _) as [[b s1]|]; [|done]. intros [= <- <- <-]. by exists s1. Qed.

Lemma delete_calls (s : DState C) a (s' : DState C) : display_delete s = Some (a, s') -> sh_calls (ds_shared s') = sh_calls (ds_shared s).
Proof.
  unfold display_delete. intros E. apply st_bind_inv in E as (d & s0 & [= <- <-] & E). cbn in E.
  destruct (vt_pc _); [done|..]; (apply st_bind_inv in E as ([] & s1 & [= <-] & E); apply st_bind_inv in E as ([] & s2 & [= <-] & [= <- <-]); done).
Qed.

Lemma create_kept h did port now active configs : all_runs (createDisplayLocked h did port now active configs) K.
Proof.
  intros s e s' E. unfold createDisplayLocked in E. apply st_bind_inv in E as (old & s0 & [= <- <-] & E).
  destruct (mDisplays s !! h) as [d|] eqn:Hd.
  - apply st_bind_inv in E as ([a d1] & s1 & Er & E). apply run_display_inv in Er as (s2 & Em & -> & ->).
    apply st_bind_inv in E as ([] & s3 & [= <-] & [= <- <-]). pose proof (set_up_calm _ _ _ _ _ _ Em) as Hc.
    apply (kept_put s h d s2); [by left|congruence| |done|].
    + intros Hi. by destruct (do_display _ _ Hi h d Hd).
    + intros Hi. apply (at_started _ _ (proj2 Hc)). by destruct (do_display _ _ Hi h d Hd) as (_ & _ & ?).
  - apply st_bind_inv in E as ([a d1] & s1 & Er & E). apply run_display_inv in Er as (s2 & Em & -> & ->).
    pose proof (set_up_calm _ _ _ _ _ _ Em) as Hc. assert (candidate (mDisplays s) h (display_new h did port)) as Hcand by by right.
    cbn in E. destruct (is_ok a) eqn:Ea; cbn in E.
    + apply st_bind_inv in E as ([] & s3 & [= <-] & E). transitivity (with_displays (with_shared s (ds_shared s2)) (<[h := ds_display s2]> (mDisplays s))).
      * apply (kept_put s h (display_new h did port) s2); [done..|]. intros _. destruct a; try done. by eapply set_up_started.
      * by eapply resources_kept.
    + apply st_bind_inv in E as ([u d2] & s3 & Er & [= <- <-]). apply run_display_inv in Er as (s4 & Ed & -> & ->).
      assert (display_delete s2 = Some (u, s4)) as Ed' by (by destruct s2).
      pose proof (kept_drop s h (display_new h did port) s2 s4 Hcand (fun _ => eq_refl) (fun _ => eq_refl) Hc (apart_delete _ _ _ Ed') (delete_calls _ _ _ Ed')) as Hk.
      rewrite delete_id in Hk by done. by destruct s.
Qed.

Lemma destroy_kept h : all_runs (destroyDisplayLocked (C := C) (R := R) h) K.
Proof.
  intros s e s' E. unfold destroyDisplayLocked in E. apply st_bind_inv in E as (ds & s0 & [= <- <-] & E).
  destruct (mDisplays s !! h) as [d|] eqn:Hd; [|by injection E as <- <-].
  apply st_bind_inv in E as ([a d1] & s1 & Er & E). apply run_display_inv in Er as (s2 & Em & -> & ->).
  assert (calm (mkDState d (cl_shared s)) s2) as Hc.
  { match type of Em with ?m _ = _ => assert (all_runs m (calm (C := C))) as Hm end; [|by eapply Hm].
    apply all_runs_bind; [apply _|apply calm_setPowerMode|intros _]. apply all_runs_bind; [apply _|apply calm_refl_gets|intros i].
    intros t b t' Et. split; [|by eapply attached_in_world]. apply still_op, quiet_still. eapply quiet_in_world; [|exact Et]. apply kept_onDisplayDestroy. }
  apply st_bind_inv in E as (b & s3 & Eb & E). apply st_bind_inv in E as ([u d2] & s4 & Er & E). apply run_display_inv in Er as (s5 & Ed & -> & ->).
  apply st_bind_inv in E as ([] & s6 & [= <-] & [= <- <-]). unfold resources in Eb. apply st_bind_inv in Eb as (r & s7 & [= <- <-] & Eb).
  apply st_bind_inv in Eb as ([] & s7 & [= <-] & [= <- <-]). cbn in Ed.
  assert (display_delete s2 = Some (u, s5)) as Ed' by (by destruct s2).
  pose proof (kept_drop s h d s2 s5 (or_introl Hd) ltac:(congruence)) as Hk.
  etrans; [apply Hk; [|done|by eapply apart_delete|by eapply delete_calls]|apply kept_book; by split].
  intros Hi. by destruct (do_display _ _ Hi h d Hd).
Qed.
#[local] Hint Resolve create_kept destroy_kept executeCommands_kept : all_runs.

Definition is_registration (o : client_op) : bool := match o with ClRegisterCallback => true | _ => false end.

Lemma client_exec_kept o : is_registration o = false -> all_runs (client_exec hash_int o) K.
Proof.
  destruct o; intros [=]; cbn [client_exec]; unfold client_createLayer, client_destroyLayer, client_setActiveConfigWithConstraints,
    client_setColorMode, client_setPowerMode, client_setVsyncEnabled, setClientTargetSlotCount, setBootDisplayConfig, clearBootDisplayConfig,
    getPreferredBootDisplayConfig, client_setReadbackBuffer, handleHotplug, client_thread, on_display, getDisplay, boot_supported, preset_id.
  all: all_runs.
Qed.
End Walk.

(** *** Everything that leads somewhere *)

Lemma register_kept h : all_runs (in_display h registerCallback) keeps_inv.
Proof.
  intros s a s' (d & s1 & Hd & Em & ->)%in_display_inv Hi. destruct (do_display _ _ Hi h d Hd) as (Hid & _ & Hst).
  pose proof (quiet_exec OpRegisterCallback eq_refl (mkDState d (cl_shared s)) tt s1) as Hq.
  assert (quiet (mkDState d (cl_shared s)) s1) as Hqu by (apply Hq; cbn [display_exec]; unfold mbind, St_bind; by rewrite Em).
  injection Em as <- <-. apply (displays_put _ _ _ _ _ Hi (or_introl Hd) (still_op _ _ (quiet_still _ _ Hqu))); done.
Qed.

Lemma keeps_trans : Transitive keeps_inv.
Proof. apply kept_trans. Qed.
Lemma keeps_refl : Reflexive keeps_inv.
Proof. apply kept_refl. Qed.
#[local] Existing Instances keeps_trans keeps_refl.

Lemma client_exec_inv o : all_runs (client_exec hash_int o) keeps_inv.
Proof.
  destruct (is_registration o) eqn:Eo; [|by apply (client_exec_kept keeps_inv)]. destruct o; try done. cbn. unfold client_registerCallback.
  assert (forall l, all_runs (for_each l (fun h => in_display (R := R) h registerCallback ;; mret tt)) keeps_inv) as Hr.
  { intros l. apply (for_each_kept keeps_inv). intros x. apply all_runs_bind; [apply _|apply register_kept|intros _; by apply all_runs_ret, _]. }
  assert (forall l, all_runs (for_each l (fun h => call_framework (R := R) (OnHotplug h true))) keeps_inv) as Hc.
  { intros l. apply (for_each_kept keeps_inv). intros x. by apply (book_call keeps_inv). }
  all_runs. apply (book_modify keeps_inv). by intros.
Qed.

Lemma createDisplays_inv now displays : all_runs (createDisplaysLocked (C := C) (R := R) now displays) keeps_inv.
Proof.
  induction displays as [|[[[[h d] q] a] c] l IH]; cbn [createDisplaysLocked]; [by apply all_runs_ret, _|].
  apply all_runs_bind; [apply _|by apply (create_kept keeps_inv)|intros e]. destruct (is_ok e); [done|by apply all_runs_ret, _].
Qed.

Lemma init_inv r p sh now displays e s : client_init now displays (client_new r p sh) = Some (e, s) -> client_inv s.
Proof.
  intros E. assert (all_runs (client_init (C := C) (R := R) now displays) keeps_inv) as Hm.
  { unfold client_init. apply all_runs_bind; [apply _|apply createDisplays_inv|intros x]. all_runs. apply (book_modify keeps_inv). by intros. }
  apply (Hm _ _ _ E). split; cbn; intros h d; by rewrite lookup_empty.
Qed.

Lemma run_inv ops s s' : client_inv s -> for_each ops (client_exec hash_int) s = Some (tt, s') -> client_inv s'.
Proof. intros Hi E. by eapply (for_each_kept keeps_inv ops _ client_exec_inv). Qed.

(** What a client can come to. *)
Definition client_reachable s : Prop := exists r p sh now displays s1 ops,
  client_init now displays (client_new r p sh) = Some (NoError, s1) /\ for_each ops (client_exec hash_int) s1 = Some (tt, s).

(** C17: Whatever is asked of a client, however its displays are plugged in and out and their threads run in between: every display
    is known by its own id, has live layers, each known by its own id, and a thread that was started, so that it can be destroyed;
    and no layer belongs to two displays. *)
Theorem client_reachable_ok s : client_reachable s ->
  (forall h d, mDisplays s !! h = Some d ->
     mId d = h /\ layers_ok (mkDState d (cl_shared s)) /\ is_Some (display_delete (mkDState d (cl_shared s)))) /\
  (forall h h' d d' i i' a, mDisplays s !! h = Some d -> mDisplays s !! h' = Some d' -> mLayers (d_flow d) !! i = Some a ->
     mLayers (d_flow d') !! i' = Some a -> h = h').
Proof.
  intros (r & p & sh & now & displays & s1 & ops & Ei & Eo). apply init_inv in Ei. apply run_inv in Eo as [F1 F2]; [|done].
  split; [|exact F2]. intros h d Hd. destruct (F1 h d Hd) as (? & ? & ?). split; [done|]. split; [done|]. by apply delete_defined.
Qed.

(** C19: A display that is plugged in after the framework has registered its callbacks never reports a sync, however it is asked
    to and whatever else happens, until the framework registers again. *)
Theorem late_display_unheard s h ops s' : client_reachable s -> mDisplays s !! h = None ->
  Forall (fun o => is_registration o = false) ops -> for_each ops (client_exec hash_int) s = Some (tt, s') ->
  vsyncs h (calls s') = vsyncs h (calls s).
Proof.
  intros (r & p & sh & now & displays & s1 & ops1 & Ei & Eo) Hh Hops E. apply init_inv in Ei. apply run_inv in Eo as Hi; [|done]. clear Ei Eo.
  assert (unheard h s) as Hu by (intros d; by rewrite Hh). clear Hh. revert s Hi Hu E.
  induction Hops as [|o ops Ho _ IH]; intros s Hi Hu E; cbn [for_each] in E; [by injection E as <-|].
  apply st_bind_inv in E as ([] & s2 & E1 & E). destruct (client_exec_kept (stays_unheard h) o Ho _ _ _ E1 Hi Hu) as (Hi2 & Hu2 & Hv).
  by rewrite (IH _ Hi2 Hu2 E).
Qed.
End Plug.

(** ** An example *)

Section Demo.
#[local] Existing Instances demo_abi demo_composer demo_device demo_hdr demo_dataspace demo_ops.

(** A table of buffers with the displays that must be validated and the buffers by display, layer and slot. *)
Definition demo_table : Type := gset Z * gmap (Z * Z * Z) Z.
Definition demo_import (k : Z * Z * Z) (fromCache : bool) (h : option Z) (r : demo_table) : Hwc2Error * option (option Z) * demo_table :=
  if fromCache then (HWC2_NONE, Some (r.2 !! k), r)
  else (HWC2_NONE, Some h, (r.1, match h with Some x => <[k := x]> r.2 | None => delete k r.2 end)).

#[local] Instance demo_resources : ComposerResourcesImpl demo_table := {
  impl_addPhysicalDisplay d r := (HWC2_NONE, ({[d]} ∪ r.1, r.2));
  impl_removeDisplay d r := (HWC2_NONE, (r.1 ∖ {[d]}, r.2));
  impl_setDisplayClientTargetCacheSize _ _ r := (HWC2_NONE, r);
  impl_addLayer _ _ _ r := (HWC2_NONE, r);
  impl_removeLayer _ _ r := (HWC2_NONE, r);
  impl_setDisplayMustValidateState d b r := if b then r else (r.1 ∖ {[d]}, r.2);
  impl_mustValidateDisplay d r := bool_decide (d ∈ r.1);
  impl_getDisplayReadbackBuffer d h r := demo_import (d, -1, 0) false h r;
  impl_getDisplayClientTarget d slot c h r := demo_import (d, -2, slot) c h r;
  impl_getDisplayOutputBuffer d slot c h r := demo_import (d, -3, slot) c h r;
  impl_getLayerBuffer d l slot c h r := demo_import (d, l, slot) c h r;
  impl_getLayerSidebandStream d l h r := demo_import (d, l, -1) false h r
}.

#[local] Instance demo_resources_laws : ComposerResourcesLaws demo_table.
Proof. intros d r. apply bool_decide_eq_false. cbn. intros [_ Hd]%elem_of_difference. by apply Hd, elem_of_singleton. Defined.

Definition demo_first : ComposerClient demo_client demo_table := client_new (∅, ∅) 4294967296 demo_shared.

(** One display when the client starts. *)
Definition demo_client_state : ComposerClient demo_client demo_table :=
  match client_init 100000000 [(0, 0, 5, 1, demo_configs)] demo_first with Some (_, s) => s | None => demo_first end.

Definition demo_plug (connected : bool) : client_op :=
  ClHotplug connected 200000000
    (mkMulti 7 1 6 1 {[1 := DrmDisplay.mkHal 1920 1080 160 160 60 0 0 1920 1080]}).

Definition demo_client_requests : list client_op := [ClRegisterCallback; ClCreateLayer 0 3; ClSetVsyncEnabled 0 true].

Definition demo_registered : ComposerClient demo_client demo_table :=
  match for_each demo_client_requests (client_exec id) demo_client_state with Some (_, s) => s | None => demo_client_state end.

Lemma demo_registered_reachable : client_reachable id demo_registered.
Proof.
  exists (∅, ∅), 4294967296, demo_shared, 100000000, [(0, 0, 5, 1, demo_configs)], demo_client_state, demo_client_requests.
  split; vm_compute; reflexivity.
Defined.

Definition demo_late : list client_op :=
  [demo_plug true; ClSetVsyncEnabled 7 true; ClThread 7 200000000 None; ClThread 0 200000000 None; ClThread 7 200000000 None;
   ClThread 0 200000000 None; ClThread 7 300000000 None; ClThread 0 300000000 None; ClThread 7 300000000 None; ClThread 0 300000000 None;
   ClThread 7 300000000 None; ClThread 0 300000000 None].

Definition demo_late_after : ComposerClient demo_client demo_table :=
  match for_each demo_late (client_exec id) demo_registered with Some (_, s) => s | None => demo_registered end.

Lemma client_reachable_ok_witness : exists d, mDisplays demo_registered !! 0 = Some d /\ mId d = 0 /\ layers_ok (mkDState d (cl_shared demo_registered)).
Proof.
  destruct (mDisplays demo_registered !! 0) as [d|] eqn:E; [|vm_compute in E; discriminate].
  destruct (client_reachable_ok id demo_registered demo_registered_reachable) as [F _].
  destruct (F 0 d E) as (H1 & H2 & _). exists d. split; [reflexivity|]. split; [exact H1|exact H2].
Defined.

Lemma late_display_unheard_witness : vsyncs 7 (sh_calls (cl_shared demo_late_after)) = vsyncs 7 (sh_calls (cl_shared demo_registered)).
Proof.
  apply (late_display_unheard id demo_registered 7 demo_late demo_late_after).
  - exact demo_registered_reachable.
  - vm_compute. reflexivity.
  - repeat constructor.
  - vm_compute. reflexivity.
Defined.

(** The framework hears of the display, and of the syncs of the other one only; when it registers again, of those of both. *)
Example late_display_example :
  sh_calls (cl_shared demo_late_after) = [OnHotplug 0 true; OnHotplug 7 true; OnVsync 0 216666662 16666666] /\
  (s ← for_each [ClRegisterCallback; ClThread 7 400000000 None; ClThread 7 500000000 None; ClThread 7 500000000 None;
                 ClThread 7 500000000 None] (client_exec id) demo_late_after;
   Some (vsyncs 7 (sh_calls (cl_shared s.2)))) = Some [416666658].
Proof. split; vm_compute; reflexivity. Qed.

(** A display that is unplugged between a validation and a presentation leaves its layers behind in the frame composer; when it
    comes back, the next frame uses them although they are freed. *)
Definition demo_command (layers : list LayerCommand) (validate accept present : bool) : client_op :=
  ClExecuteCommands [mkDisplayCommand 0 layers None None None None validate None accept present false].

Definition demo_layer_command : LayerCommand :=
  mkLayerCommand 4294967296 MODIFY 0 None (Some (mkBuffer 0 (Some 101))) None None (Some DEVICE) None (Some (mkRect 0 0 64 64)) None None
    (Some (mkFRect (float 0) (float 0) (float 64) (float 64))) None None (Some 1) None None None None None.

Definition demo_replug (connected : bool) : client_op :=
  ClHotplug connected 200000000 (mkMulti 0 0 5 1 {[1 := DrmDisplay.mkHal 1920 1080 160 160 60 0 0 1920 1080]}).

Example replug_uses_freed_layer :
  bool_decide (is_Some (for_each [demo_command [demo_layer_command] true true true; demo_replug false; demo_replug true;
    demo_command [] true true true] (client_exec id) demo_registered)) = true /\
  for_each [demo_command [demo_layer_command] true false false; demo_replug false; demo_replug true; demo_command [] true true true]
    (client_exec id) demo_registered = None.
Proof. split; vm_compute; reflexivity. Qed.

(** A display that cannot be set up is announced all the same. *)
Example failed_display_announced :
  (s ← for_each [ClHotplug true 200000000 (mkMulti 0 0 5 9 {[1 := DrmDisplay.mkHal 1920 1080 160 160 60 0 0 1920 1080]})] (client_exec id)
         demo_registered;
   d ← mDisplays s.2 !! 0;
   Some (last (sh_calls (cl_shared s.2)), getDisplayVsyncPeriod d)) = Some (Some (OnHotplug 0 true), (BadConfig, None)).
Proof. vm_compute. reflexivity. Qed.
End Demo.
