(* ===== verification/HwcCommands.v ===== *)
(** * A frame through the client's commands

    The two commands of a frame, [presentOrValidateDisplay] and then [acceptDisplayChanges]
    with [presentDisplay], take the layers of a display to the hardware.  The proof walks
    through the commands of [HwcClient] with what [HwcFrame] says of the display. *)

From S2P Require Import Prelude CppText Edid HwcEdid HwcLayer FrameComposer HwcDisplay HwcFrame HwcClient HwcVsync HwcPlug.

Section Commands.
Context `{!HwcAbi, !DeviceComposerOps, !DeviceClient C, !DeviceClientLaws C, !HdrAbi, !DataspaceAbi, !DeviceOps,
  !ComposerResourcesImpl R, !ComposerResourcesLaws R}.
Implicit Types s : ComposerClient C R.
Implicit Types x : Executing C R.

(** The display of a client, with what all displays share. *)
Definition client_at s (h : Z) (sd : DState C) : Prop := mDisplays s !! h = Some (ds_display sd) /\ cl_shared s = ds_shared sd.

Lemma in_display_runs {A} h (m : St (DState C) A) s sd a sd' (Q : A -> ComposerClient C R -> Prop) : client_at s h sd -> m sd = Some (a, sd') ->
  (forall s', client_at s' h sd' -> mResources s' = mResources s -> Q a s') -> runs (in_display h m) s Q.
Proof.
  intros [Hd Hsh] Hm HQ. unfold in_display. apply runs_bind, runs_gets, runs_bind, runs_of_option. eexists. split; [done|].
  apply runs_bind. unfold runs, run_display. rewrite Hsh. replace (mkDState _ _) with sd by (by destruct sd). rewrite Hm.
  apply runs_bind, runs_modify, runs_ret, HQ; [|done]. split; cbn; [apply lookup_insert_eq|done].
Qed.

Lemma resources_runs {A} (f : R -> A * R) s (Q : A -> ComposerClient C R -> Prop) :
  Q (f (mResources s)).1 (with_resources s (f (mResources s)).2) -> runs (resources f) s Q.
Proof. intros HQ. by apply runs_bind, runs_gets, runs_bind, runs_modify, runs_ret. Qed.

Lemma lift_runs {A} (m : St (ComposerClient C R) A) x (Q : A -> Executing C R -> Prop) :
  runs m (ex_client x) (fun a s => Q a (mkExecuting s (ex_writer x))) -> runs (lift m) x Q.
Proof. unfold runs, lift. by destruct (m (ex_client x)) as [[a s]|]. Qed.

Lemma write_runs l x (Q : unit -> Executing C R -> Prop) :
  Q tt (mkExecuting (ex_client x) (mkWriter (mIndex (ex_writer x)) (mResults (ex_writer x) ++ l))) -> runs (write l) x Q.
Proof. intros HQ. by apply runs_modify. Qed.

(** What a validation answers. *)
Definition changes_payload (ch : DisplayChanges) : list CommandResultPayload :=
  match compositionChanges ch with Some (d, l) => [ChangedCompositionTypes d l] | None => [] end.

Lemma addChanges_runs ch x (Q : unit -> Executing C R -> Prop) :
  Q tt (mkExecuting (ex_client x) (mkWriter (mIndex (ex_writer x)) (mResults (ex_writer x) ++ changes_payload ch))) -> runs (addChanges ch) x Q.
Proof.
  unfold addChanges, changes_payload. destruct (compositionChanges ch) as [[d l]|]; [by apply write_runs|].
  intros HQ. apply runs_ret. rewrite app_nil_r in HQ. by destruct x as [s [i l]].
Qed.

Definition validate_command (h : Z) : DisplayCommand := mkDisplayCommand h [] None None None None false None false false true.
Definition present_command (h : Z) : DisplayCommand := mkDisplayCommand h [] None None None None false None true true false.

Lemma getDisplay_runs s h sd (Q : bool -> ComposerClient C R -> Prop) : client_at s h sd -> Q true s -> runs (getDisplay h) s Q.
Proof. intros [Hd _] HQ. apply runs_bind, runs_gets, runs_ret. by rewrite Hd. Qed.

(** Nothing else is in these commands. *)
Lemma validate_command_is h x : executeDisplayCommand (validate_command h) x =
  (found ← lift (getDisplay h); if negb found then addError BadDisplay else executeDisplayCommandPresentOrValidateDisplay h None) x.
Proof. unfold executeDisplayCommand, mbind, St_bind. cbn [dc_display validate_command]. by destruct (lift (getDisplay h) x) as [[[] y]|]. Qed.

Lemma present_command_is h x : executeDisplayCommand (present_command h) x =
  (found ← lift (getDisplay h); if negb found then addError BadDisplay else
   executeDisplayCommandAcceptDisplayChanges h ;; executeDisplayCommandPresentDisplay h ;; mret tt) x.
Proof. unfold executeDisplayCommand, mbind, St_bind. cbn [dc_display present_command]. by destruct (lift (getDisplay h) x) as [[[] y]|]. Qed.

Lemma runs_at {A} (m m' : St (Executing C R) A) x (Q : A -> Executing C R -> Prop) : m x = m' x -> runs m' x Q -> runs m x Q.
Proof. unfold runs. by intros ->. Qed.

Lemma one_command c s (Q : Executing C R -> Prop) : runs (executeDisplayCommand c) (mkExecuting s (mkWriter 0 []))
    (fun _ x => mIndex (ex_writer x) = 0 /\ Q x) ->
  exists x, executeCommands [c] s = Some ((NoError, mResults (ex_writer x)), ex_client x) /\ Q x.
Proof.
  intros Hr. apply runs_some in Hr as ([] & x & E & Hi & HQ). exists x. split; [|done]. unfold executeCommands. cbn [for_each].
  unfold mbind, St_bind, nextCommand. rewrite E. cbn. unfold mbind, St_bind. cbn. by rewrite Hi.
Qed.

(** The frame up to the validation. *)
Lemma validate_command_runs h sd ch s1d s : client_at s h sd -> HwcDisplay.validate sd = Some ((NoError, ch), s1d) ->
  exists s1, executeCommands [validate_command h] s =
      Some ((NoError, changes_payload ch ++ [ClientTargetProperty h; PresentOrValidateResult h]), s1) /\
    client_at s1 h s1d /\ impl_mustValidateDisplay (toHwc2Display h) (mResources s1) = false.
Proof.
  intros Hs Hv. destruct (one_command (validate_command h) s (fun x =>
    mResults (ex_writer x) = changes_payload ch ++ [ClientTargetProperty h; PresentOrValidateResult h] /\
    client_at (ex_client x) h s1d /\ impl_mustValidateDisplay (toHwc2Display h) (mResources (ex_client x)) = false))
    as (x & E & Hres & Hat & Hmust); [|exists (ex_client x); by rewrite <- Hres].
  eapply runs_at; [apply validate_command_is|]. apply runs_bind, lift_runs, (getDisplay_runs _ h sd); [exact Hs|]. cbn [negb].
  unfold executeDisplayCommandPresentOrValidateDisplay. apply runs_bind, lift_runs, (in_display_runs h (setExpectedPresentTime None) _ sd NoError sd); [exact Hs|reflexivity|].
  intros s' Hs' _. apply runs_bind, runs_ret. apply runs_bind, lift_runs, (in_display_runs h _ _ sd _ s1d _ Hs' Hv). intros s2 Hs2 _. cbn.
  apply runs_bind, runs_bind, addChanges_runs, write_runs, lift_runs, resources_runs. cbn. split; [done|]. split; [done|].
  split; [done|]. apply must_validate_set.
Qed.

(** The frame after the validation. *)
Lemma present_command_runs h s1d s2d e fences s3d s1 : client_at s1 h s1d -> impl_mustValidateDisplay (toHwc2Display h) (mResources s1) = false ->
  acceptChanges s1d = Some (NoError, s2d) -> present s2d = Some ((e, fences), s3d) ->
  exists s3, executeCommands [present_command h] s1 =
      Some ((NoError, if is_ok e then [ReleaseFences h fences] else [CommandError 0 e]), s3) /\ client_at s3 h s3d.
Proof.
  intros Hs Hmust Ha Hp. destruct (one_command (present_command h) s1 (fun x =>
    mResults (ex_writer x) = (if is_ok e then [ReleaseFences h fences] else [CommandError 0 e]) /\ client_at (ex_client x) h s3d))
    as (x & E & Hres & Hat); [|exists (ex_client x); by rewrite <- Hres].
  eapply runs_at; [apply present_command_is|]. apply runs_bind, lift_runs, (getDisplay_runs _ h s1d); [exact Hs|]. cbn [negb].
  unfold executeDisplayCommandAcceptDisplayChanges. apply runs_bind, runs_bind, lift_runs, (in_display_runs h _ _ s1d _ s2d _ Hs Ha).
  intros s2 Hs2 Hr. apply runs_ret. apply runs_bind. unfold executeDisplayCommandPresentDisplay.
  apply runs_bind, lift_runs, resources_runs. cbn. rewrite Hr, Hmust.
  apply runs_bind, lift_runs, (in_display_runs h present _ s2d (e, fences) s3d); [exact Hs2|exact Hp|]. intros s3 Hs3 _. cbn.
  by destruct (is_ok e) eqn:Ee; cbn; rewrite ?Ee.
Qed.

(** ** A frame

    The framework shows a frame by two commands.  For a display of the client whose layers the hardware can show and whose last
    frame was presented, the first command answers the compositions the validation decided and that the frame was validated, not
    presented; the second one accepts them and presents the frame, and answers the fences of its layers or the error of the
    display.  When it reports no error, the hardware has got the frame decided: each overlay layer's buffer on its plane where
    the layer is, nothing on other planes, the 2D engine's result as frame buffer if it had layers to compose. *)
(** C16: on a display whose last frame was presented and whose layers can be shown ([frame_ready]: each has a buffer of its own and
    rectangles of a sane size, none is a decoration or private, the active configuration is smaller than 2^14 pixels each way), the
    command presentOrValidateDisplay decides a place for every layer and answers the changes of composition.  When the device can
    then clean its caches, acceptDisplayChanges with presentDisplay accepts them and presents; if that answers no error and a
    layer is on a plane or left to the 2D engine, the hardware has got exactly the frame decided, with a fence for each overlay
    layer. *)
Theorem commands_show_frame s h d k c b : mDisplays s !! h = Some d -> frame_ready (mkDState d (cl_shared s)) k c b ->
  exists dv ch v s1 m c',
  executeCommands [validate_command h] s =
    Some ((NoError, changes_payload ch ++ [ClientTargetProperty h; PresentOrValidateResult h]), s1) /\
  decided (sh_world (cl_shared s)) dv ch v /\
  dv_ordered dv ≡ₚ (map_to_list (mLayers (d_flow d))).*2 /\ in_frame_order (sh_world (cl_shared s)) (dv_ordered dv) /\
  accepted (mkDState d (cl_shared s)) ch m /\
  mDeviceClients (sh_world (cl_shared s1)) !! k = Some c' /\
  (is_Some (partialCleanCacheBuffer (Z.of_nat (size (layersForOverlayPlane v))) c') -> exists e fences s2,
    executeCommands [present_command h] s1 =
      Some ((NoError, if is_ok e then [ReleaseFences h fences] else [CommandError 0 e]), s2) /\
    (e = NoError -> layersForOverlayPlane v <> ∅ \/ layersForComposition v <> [] ->
     (exists w', w_history (sh_world (cl_shared s2)) = w_history (sh_world (cl_shared s)) ++ w' /\
        presented (with_layers (sh_world (cl_shared s1)) m) dv v w') /\
     (forall p a l, layersForOverlayPlane v !! p = Some a -> w_layers (sh_world (cl_shared s)) !! a = Some l -> l_id l ∈ fences))).
Proof.
  intros Hd Hr.
  destruct (frame_reaches_hardware _ k c b Hr) as (dv & ch & v & s1d & s2d & c' & Ev & Hva & Ea & Hacc & Hw & Hc' & Hp).
  destruct (validate_command_runs h (mkDState d (cl_shared s)) ch s1d s (conj Hd eq_refl) Ev) as (s1 & E1 & [Hd1 Hs1] & Hmust).
  pose proof (va_order _ _ _ _ _ Hva) as [Hperm Hord].
  exists dv, ch, v, s1, (w_layers (sh_world (ds_shared s2d))), c'. rewrite Hs1, <- Hw. split_and!; [done|apply Hva|done..|by rewrite Hw in Hc'|].
  intros Hclean. destruct (Hp Hclean) as (e & fences & s3d & Ep & Hshow).
  destruct (present_command_runs h s1d s2d e fences s3d s1 (conj Hd1 Hs1) Hmust Ea Ep) as (s3 & E3 & [_ Hs3]).
  exists e, fences, s3. split; [done|]. rewrite Hs3. intros He Hne. destruct (Hshow He Hne) as (Hh & Hf & _). done.
Qed.
End Commands.

(** ** An example *)

Section Demo.
#[local] Existing Instances demo_abi demo_composer demo_device demo_laws demo_hdr demo_dataspace demo_ops demo_resources demo_resources_laws.

(** A client whose only display has the two layers of [demo_frame_state]. *)
Definition demo_frame_client : ComposerClient demo_client demo_table :=
  mkClient {[0 := ds_display demo_frame_state]} true (∅, ∅) [] true 0 (ds_shared demo_frame_state).

Example demo_frame_validated : fst <$> executeCommands [validate_command 0] demo_frame_client =
  Some (NoError, [ChangedCompositionTypes 0 [(12, DEVICE); (11, CLIENT)]; ClientTargetProperty 0; PresentOrValidateResult 0]).
Proof. vm_compute. reflexivity. Qed.

Example demo_frame_shown :
  (fun r => fst <$> executeCommands [present_command 0] r.2) <$> executeCommands [validate_command 0] demo_frame_client =
  Some (Some (NoError, [ReleaseFences 0 [12]])).
Proof. vm_compute. reflexivity. Qed.

Definition demo_lower : Layer :=
  default (demo_layer 0 0 (mkRect 0 0 0 0) CLIENT 0) (w_layers (sh_world (cl_shared demo_frame_client)) !! 3).
Definition demo_upper : Layer :=
  default (demo_layer 0 0 (mkRect 0 0 0 0) CLIENT 0) (w_layers (sh_world (cl_shared demo_frame_client)) !! 2).

Lemma demo_lower_at : w_layers (sh_world (cl_shared demo_frame_client)) !! 3 = Some demo_lower.
Proof. vm_compute. reflexivity. Qed.

(** Beside a layer that is left to the client, nothing is left to the 2D engine: what is not the client's has a plane. *)
Lemma plane_beside_client {C} (w : World C) dv ch v a b la lb : decided w dv ch v -> a ∈ dv_ordered dv -> b ∈ dv_ordered dv ->
  w_layers w !! a = Some la -> w_layers w !! b = Some lb -> shown la -> shown lb -> changed_type ch la = DEVICE ->
  changed_type ch lb = CLIENT -> exists p, layersForOverlayPlane v !! p = Some a.
Proof.
  intros Hdec Ha Hb Hla Hlb Hsa Hsb Ea Eb.
  destruct (de_layer _ _ _ _ Hdec a la Ha Hla Hsa) as [(Hp & _)|[(_ & Hc & _)|(_ & _ & Hc)]]; [exact Hp| |congruence].
  destruct (de_layer _ _ _ _ Hdec b lb Hb Hlb Hsb) as [(_ & _ & Hd)|[(_ & _ & Hd)|(_ & Hn & _)]]; [congruence..|].
  rewrite Hn in Hc. by apply elem_of_nil in Hc.
Qed.

(** Layer 12 is changed to DEVICE and layer 11 to CLIENT: nothing is left to the 2D engine, so layer 12 has a plane. *)
Lemma demo_plane ch dv v :
  changes_payload ch = [ChangedCompositionTypes 0 [(12, DEVICE); (11, CLIENT)]] ->
  dv_ordered dv ≡ₚ (map_to_list (mLayers (d_flow (ds_display demo_frame_state)))).*2 ->
  decided (sh_world (cl_shared demo_frame_client)) dv ch v -> exists p, layersForOverlayPlane v !! p = Some 3.
Proof.
  intros Hch Hperm Hdec. unfold changes_payload in Hch. destruct (compositionChanges ch) as [[d l]|] eqn:Ec; [|done].
  injection Hch as -> ->.
  assert (forall a, a = 2 \/ a = 3 -> a ∈ dv_ordered dv) as Hin.
  { intros a Ha. rewrite Hperm. replace (map_to_list _) with [(11, 2); (12, 3)] by (vm_compute; reflexivity).
    cbn. destruct Ha as [-> | ->]; repeat constructor. }
  assert (w_layers (sh_world (cl_shared demo_frame_client)) !! 2 = Some demo_upper) as H2 by (vm_compute; reflexivity).
  assert (shown demo_upper /\ shown demo_lower) as [Hs2 Hs3] by (split; split; vm_compute; discriminate).
  assert (changed_type ch demo_upper = CLIENT) as E2.
  { unfold changed_type, change_of, changed_layers. rewrite Ec. vm_compute. reflexivity. }
  assert (changed_type ch demo_lower = DEVICE) as E3.
  { unfold changed_type, change_of, changed_layers. rewrite Ec. vm_compute. reflexivity. }
  exact (plane_beside_client _ dv ch v 3 2 demo_lower demo_upper Hdec (Hin 3 (or_intror eq_refl)) (Hin 2 (or_introl eq_refl))
    demo_lower_at H2 Hs3 Hs2 E3 E2).
Qed.

(** The lower layer, at address 3, gets the plane; the frame is presented without an error, with a fence for it. *)
Lemma commands_show_frame_witness : exists ch s1 fences s2 dv v m w',
  executeCommands [validate_command 0] demo_frame_client =
    Some ((NoError, changes_payload ch ++ [ClientTargetProperty 0; PresentOrValidateResult 0]), s1) /\
  executeCommands [present_command 0] s1 = Some ((NoError, [ReleaseFences 0 fences]), s2) /\
  (exists p, layersForOverlayPlane v !! p = Some 3) /\
  w_history (sh_world (cl_shared s2)) = w_history (sh_world (cl_shared demo_frame_client)) ++ w' /\
  presented (with_layers (sh_world (cl_shared s1)) m) dv v w' /\ 12 ∈ fences.
Proof.
  assert (frame_ready (mkDState (ds_display demo_frame_state) (cl_shared demo_frame_client)) 0 ([31], [31]) no_buffers) as Hr.
  { change (cl_shared demo_frame_client) with (ds_shared demo_frame_state).
    replace (mkDState _ _) with demo_frame_state by (by destruct demo_frame_state). exact demo_frame_ready. }
  assert (mDisplays demo_frame_client !! 0 = Some (ds_display demo_frame_state)) as Hd.
  { unfold demo_frame_client. cbn [mDisplays]. apply lookup_singleton_eq. }
  destruct (commands_show_frame demo_frame_client 0 (ds_display demo_frame_state) 0 ([31], [31]) no_buffers Hd Hr)
    as (dv & ch & v & s1 & m & c' & E1 & Hdec & Hperm & _ & _ & _ & Hp).
  destruct Hp as (e & fences & s2 & E2 & Hshow); [eexists; reflexivity|].
  destruct (demo_plane ch dv v) as [p Hplane]; [|exact Hperm|exact Hdec|].
  { apply (f_equal (fmap (fst (B := ComposerClient demo_client demo_table)))) in E1. rewrite demo_frame_validated in E1.
    cbn [fmap option_fmap option_map fst] in E1. injection E1 as E1. by apply (app_inv_tail [ClientTargetProperty 0; PresentOrValidateResult 0] _ [_]). }
  assert (e = NoError) as ->.
  { pose proof demo_frame_shown as Hs. rewrite E1 in Hs. cbn in Hs. rewrite E2 in Hs. cbn in Hs. by destruct e. }
  destruct (Hshow eq_refl) as ((w' & Hw & Hpr) & Hf).
  { left. intros E. rewrite E, lookup_empty in Hplane. discriminate. }
  exists ch, s1, fences, s2, dv, v, m, w'. split; [exact E1|]. split; [exact E2|]. split; [by exists p|]. split; [exact Hw|].
  split; [exact Hpr|]. exact (Hf p 3 demo_lower Hplane demo_lower_at).
Defined.

(** The lower layer gets the plane and a fence, the upper one is left to the framework. *)
Example demo_frame_commands :
  fst <$> executeCommands [validate_command 0; present_command 0] demo_frame_client = Some (NoError,
    [ChangedCompositionTypes 0 [(12, DEVICE); (11, CLIENT)]; ClientTargetProperty 0; PresentOrValidateResult 0; ReleaseFences 0 [12]]).
Proof. vm_compute. reflexivity. Qed.
End Demo.
