(* ===== verification/GrallocLayout.v ===== *)
(** * The layout of a graphics buffer

    display/gralloc: the table of formats (driver_utils.cpp), the alignment of width and
    height, the strides, offsets and sizes of the planes and the size of the allocation
    (driver_helpers.cpp, gralloc_handle.h).  Arithmetic is that of [uint32_t], and of
    [uint64_t] where the code sums in one. *)

From S2P Require Import Prelude.

(** ** Formats *)

(** The pixel formats of Android the tables name, and those of include/graphics_ext.h. *)
Inductive PixelFormat :=
  | RGBA_8888 | RGBX_8888 | RGB_888 | RGB_565 | BGRA_8888 | RGBA_FP16 | RGBA_1010102 | YCBCR_422_SP | YCRCB_420_SP | YCBCR_422_I
  | YCBCR_420_888 | YV12 | BLOB | RAW16 | Y16 | Y8 | R_8 | IMPLEMENTATION_DEFINED | RGBA_10101010 | YCBCR_P010
  | HAL_PIXEL_FORMAT_YCbCr_422_P | HAL_PIXEL_FORMAT_YCbCr_420_P | HAL_PIXEL_FORMAT_CbYCrY_422_I | HAL_PIXEL_FORMAT_YCbCr_420_SP
  | HAL_PIXEL_FORMAT_NV12_TILED | HAL_PIXEL_FORMAT_NV12_G1_TILED | HAL_PIXEL_FORMAT_NV12_G2_TILED
  | HAL_PIXEL_FORMAT_NV12_G2_TILED_COMPRESSED | HAL_PIXEL_FORMAT_P010 | HAL_PIXEL_FORMAT_P010_TILED
  | HAL_PIXEL_FORMAT_P010_TILED_COMPRESSED
  | OtherFormat (code : Z).
#[export] Instance PixelFormat_eq_dec : EqDecision PixelFormat.
Proof. solve_decision. Defined.

(** The formats of the kernel. *)
Inductive Fourcc :=
  | DRM_FORMAT_BGR233 | DRM_FORMAT_C8 | DRM_FORMAT_R8 | DRM_FORMAT_RGB332 | DRM_FORMAT_R16 | DRM_FORMAT_YVU420 | DRM_FORMAT_YUV420
  | DRM_FORMAT_NV12 | DRM_FORMAT_NV21 | DRM_FORMAT_P010 | DRM_FORMAT_NV15
  | DRM_FORMAT_ABGR1555 | DRM_FORMAT_ABGR4444 | DRM_FORMAT_ARGB1555 | DRM_FORMAT_ARGB4444 | DRM_FORMAT_BGR565 | DRM_FORMAT_BGRA4444
  | DRM_FORMAT_BGRA5551 | DRM_FORMAT_BGRX4444 | DRM_FORMAT_BGRX5551 | DRM_FORMAT_GR88 | DRM_FORMAT_RG88 | DRM_FORMAT_RGB565
  | DRM_FORMAT_RGBA4444 | DRM_FORMAT_RGBA5551 | DRM_FORMAT_RGBX4444 | DRM_FORMAT_RGBX5551 | DRM_FORMAT_UYVY | DRM_FORMAT_VYUY
  | DRM_FORMAT_XBGR1555 | DRM_FORMAT_XBGR4444 | DRM_FORMAT_XRGB1555 | DRM_FORMAT_XRGB4444 | DRM_FORMAT_YUYV | DRM_FORMAT_YVYU
  | DRM_FORMAT_BGR888 | DRM_FORMAT_RGB888
  | DRM_FORMAT_ABGR2101010 | DRM_FORMAT_ABGR8888 | DRM_FORMAT_ARGB2101010 | DRM_FORMAT_ARGB8888 | DRM_FORMAT_AYUV
  | DRM_FORMAT_BGRA1010102 | DRM_FORMAT_BGRA8888 | DRM_FORMAT_BGRX1010102 | DRM_FORMAT_BGRX8888 | DRM_FORMAT_RGBA1010102
  | DRM_FORMAT_RGBA8888 | DRM_FORMAT_RGBX1010102 | DRM_FORMAT_RGBX8888 | DRM_FORMAT_XBGR2101010 | DRM_FORMAT_XBGR8888
  | DRM_FORMAT_XRGB2101010 | DRM_FORMAT_XRGB8888
  | DRM_FORMAT_ABGR16161616F | DRM_FORMAT_AXBXGXRX106106106106 | DRM_FORMAT_NV16
  | DRM_FORMAT_YUV422
  | OtherFourcc (code : Z).
#[export] Instance Fourcc_eq_dec : EqDecision Fourcc.
Proof. solve_decision. Defined.

Inductive Modifier :=
  | DRM_FORMAT_MOD_LINEAR | DRM_FORMAT_MOD_AMPHION_TILED | DRM_FORMAT_MOD_VSI_G1_TILED | DRM_FORMAT_MOD_VSI_G2_TILED
  | DRM_FORMAT_MOD_VSI_G2_TILED_COMPRESSED | DRM_FORMAT_MOD_VIVANTE_TILED | DRM_FORMAT_MOD_VIVANTE_SUPER_TILED
  | DRM_FORMAT_MOD_VIVANTE_SUPER_TILED_FC.
#[export] Instance Modifier_eq_dec : EqDecision Modifier.
Proof. solve_decision. Defined.

(** The macros the build of a board defines. *)
Record BoardConfig := mkBoard {
  FRAMEBUFFER_WITH_TILED_COMPRESSION : bool;
  WORKAROUND_DISPLAY_UNDERRUN : bool;
  GPU_RGBA1010102_LIMITATION : bool;
  VPU_P010_AMPHION_TILED : bool
}.

Record format_info_t := mkInfo { fi_id : PixelFormat; fourcc : Fourcc; fi_modifier : Modifier; is_rgb : bool; is_yuv : bool }.

Definition rgb (id : PixelFormat) (f : Fourcc) : format_info_t := mkInfo id f DRM_FORMAT_MOD_LINEAR true false.
Definition yuv (id : PixelFormat) (f : Fourcc) (m : Modifier) : format_info_t := mkInfo id f m false true.
Definition plain (id : PixelFormat) (f : Fourcc) : format_info_t := mkInfo id f DRM_FORMAT_MOD_LINEAR false false.

Definition formats (board : BoardConfig) : list format_info_t :=
  [rgb RGBA_8888 DRM_FORMAT_ABGR8888; rgb RGBX_8888 DRM_FORMAT_XBGR8888; rgb RGB_888 DRM_FORMAT_BGR888; rgb RGB_565 DRM_FORMAT_RGB565;
   rgb BGRA_8888 DRM_FORMAT_ARGB8888; rgb RGBA_FP16 DRM_FORMAT_ABGR16161616F] ++
  (if GPU_RGBA1010102_LIMITATION board then [] else [rgb RGBA_1010102 DRM_FORMAT_ABGR2101010]) ++
  [yuv YCBCR_422_SP DRM_FORMAT_NV16 DRM_FORMAT_MOD_LINEAR; yuv YCRCB_420_SP DRM_FORMAT_NV21 DRM_FORMAT_MOD_LINEAR;
   yuv YCBCR_422_I DRM_FORMAT_YUYV DRM_FORMAT_MOD_LINEAR; yuv YCBCR_420_888 DRM_FORMAT_NV12 DRM_FORMAT_MOD_LINEAR;
   yuv YV12 DRM_FORMAT_YVU420 DRM_FORMAT_MOD_LINEAR; plain BLOB DRM_FORMAT_R8; plain RAW16 DRM_FORMAT_R16; plain Y16 DRM_FORMAT_R16;
   plain Y8 DRM_FORMAT_R8; plain R_8 DRM_FORMAT_R8; yuv IMPLEMENTATION_DEFINED DRM_FORMAT_NV12 DRM_FORMAT_MOD_LINEAR;
   rgb RGBA_10101010 DRM_FORMAT_AXBXGXRX106106106106;
   yuv HAL_PIXEL_FORMAT_YCbCr_422_P DRM_FORMAT_YUV422 DRM_FORMAT_MOD_LINEAR;
   yuv HAL_PIXEL_FORMAT_YCbCr_420_P DRM_FORMAT_YUV420 DRM_FORMAT_MOD_LINEAR;
   yuv HAL_PIXEL_FORMAT_CbYCrY_422_I DRM_FORMAT_UYVY DRM_FORMAT_MOD_LINEAR;
   yuv HAL_PIXEL_FORMAT_YCbCr_420_SP DRM_FORMAT_NV12 DRM_FORMAT_MOD_LINEAR;
   yuv HAL_PIXEL_FORMAT_NV12_TILED DRM_FORMAT_NV12 DRM_FORMAT_MOD_AMPHION_TILED;
   yuv HAL_PIXEL_FORMAT_NV12_G1_TILED DRM_FORMAT_NV12 DRM_FORMAT_MOD_VSI_G1_TILED;
   yuv HAL_PIXEL_FORMAT_NV12_G2_TILED DRM_FORMAT_NV12 DRM_FORMAT_MOD_VSI_G2_TILED;
   yuv HAL_PIXEL_FORMAT_NV12_G2_TILED_COMPRESSED DRM_FORMAT_NV12 DRM_FORMAT_MOD_VSI_G2_TILED_COMPRESSED;
   yuv HAL_PIXEL_FORMAT_P010 DRM_FORMAT_NV15 DRM_FORMAT_MOD_LINEAR;
   yuv HAL_PIXEL_FORMAT_P010_TILED DRM_FORMAT_NV15
     (if VPU_P010_AMPHION_TILED board then DRM_FORMAT_MOD_AMPHION_TILED else DRM_FORMAT_MOD_VSI_G1_TILED);
   yuv HAL_PIXEL_FORMAT_P010_TILED_COMPRESSED DRM_FORMAT_NV15 DRM_FORMAT_MOD_VSI_G2_TILED_COMPRESSED].

Definition getPixleFormatInfo (board : BoardConfig) (pixel_format : PixelFormat) : option format_info_t :=
  find (fun i => bool_decide (fi_id i = pixel_format)) (formats board).

(** ** Layouts *)

Definition DRV_MAX_PLANES : nat := 4.

(** The arrays have [DRV_MAX_PLANES] cells; those past the planes are zero. *)
Record planar_layout := mkLayout {
  num_planes : nat;
  horizontal_subsampling : list Z;
  vertical_subsampling : list Z;
  bits_per_pixel : list Z
}.

Definition packed_1bpp_layout : planar_layout := mkLayout 1 [1; 0; 0; 0] [1; 0; 0; 0] [8; 0; 0; 0].
Definition packed_2bpp_layout : planar_layout := mkLayout 1 [1; 0; 0; 0] [1; 0; 0; 0] [16; 0; 0; 0].
Definition packed_3bpp_layout : planar_layout := mkLayout 1 [1; 0; 0; 0] [1; 0; 0; 0] [24; 0; 0; 0].
Definition packed_4bpp_layout : planar_layout := mkLayout 1 [1; 0; 0; 0] [1; 0; 0; 0] [32; 0; 0; 0].
Definition packed_8bpp_layout : planar_layout := mkLayout 1 [1; 0; 0; 0] [1; 0; 0; 0] [64; 0; 0; 0].
Definition biplanar_yuv_420_layout : planar_layout := mkLayout 2 [1; 2; 0; 0] [1; 2; 0; 0] [8; 16; 0; 0].
Definition biplanar_yuv_422_layout : planar_layout := mkLayout 2 [1; 2; 0; 0] [1; 1; 0; 0] [8; 16; 0; 0].
Definition triplanar_yuv_420_layout : planar_layout := mkLayout 3 [1; 2; 2; 0] [1; 2; 2; 0] [8; 8; 8; 0].
Definition biplanar_yuv_p010_layout : planar_layout := mkLayout 2 [1; 2; 0; 0] [1; 2; 0; 0] [16; 32; 0; 0].
Definition biplanar_yuv_nv15_layout : planar_layout := mkLayout 2 [1; 2; 0; 0] [1; 2; 0; 0] [10; 20; 0; 0].

Definition layout_from_format (format : Fourcc) : option planar_layout :=
  match format with
  | DRM_FORMAT_BGR233 | DRM_FORMAT_C8 | DRM_FORMAT_R8 | DRM_FORMAT_RGB332 => Some packed_1bpp_layout
  | DRM_FORMAT_R16 => Some packed_2bpp_layout
  | DRM_FORMAT_YVU420 | DRM_FORMAT_YUV420 => Some triplanar_yuv_420_layout
  | DRM_FORMAT_NV12 | DRM_FORMAT_NV21 => Some biplanar_yuv_420_layout
  | DRM_FORMAT_P010 => Some biplanar_yuv_p010_layout
  | DRM_FORMAT_NV15 => Some biplanar_yuv_nv15_layout
  | DRM_FORMAT_ABGR1555 | DRM_FORMAT_ABGR4444 | DRM_FORMAT_ARGB1555 | DRM_FORMAT_ARGB4444 | DRM_FORMAT_BGR565 | DRM_FORMAT_BGRA4444
  | DRM_FORMAT_BGRA5551 | DRM_FORMAT_BGRX4444 | DRM_FORMAT_BGRX5551 | DRM_FORMAT_GR88 | DRM_FORMAT_RG88 | DRM_FORMAT_RGB565
  | DRM_FORMAT_RGBA4444 | DRM_FORMAT_RGBA5551 | DRM_FORMAT_RGBX4444 | DRM_FORMAT_RGBX5551 | DRM_FORMAT_UYVY | DRM_FORMAT_VYUY
  | DRM_FORMAT_XBGR1555 | DRM_FORMAT_XBGR4444 | DRM_FORMAT_XRGB1555 | DRM_FORMAT_XRGB4444 | DRM_FORMAT_YUYV | DRM_FORMAT_YVYU =>
      Some packed_2bpp_layout
  | DRM_FORMAT_BGR888 | DRM_FORMAT_RGB888 => Some packed_3bpp_layout
  | DRM_FORMAT_ABGR2101010 | DRM_FORMAT_ABGR8888 | DRM_FORMAT_ARGB2101010 | DRM_FORMAT_ARGB8888 | DRM_FORMAT_AYUV
  | DRM_FORMAT_BGRA1010102 | DRM_FORMAT_BGRA8888 | DRM_FORMAT_BGRX1010102 | DRM_FORMAT_BGRX8888 | DRM_FORMAT_RGBA1010102
  | DRM_FORMAT_RGBA8888 | DRM_FORMAT_RGBX1010102 | DRM_FORMAT_RGBX8888 | DRM_FORMAT_XBGR2101010 | DRM_FORMAT_XBGR8888
  | DRM_FORMAT_XRGB2101010 | DRM_FORMAT_XRGB8888 => Some packed_4bpp_layout
  | DRM_FORMAT_ABGR16161616F | DRM_FORMAT_AXBXGXRX106106106106 => Some packed_8bpp_layout
  | DRM_FORMAT_NV16 => Some biplanar_yuv_422_layout
  | _ => None
  end.

(** ** Descriptors *)

(** Private usages and flags of gralloc_handle.h. *)
Definition USAGE_GPU_TILED_VIV : Z := 0x10000000.
Definition USAGE_GPU_TS_VIV : Z := 0x20000000.
Definition USAGE_PADDING_BUFFER : Z := 0x40000000.

Definition NXP_GRALLOC_FLAGS_FRAMEBUFFER : Z := Z.shiftl 1 0.
Definition NXP_GRALLOC_FLAGS_FROM_GPU : Z := Z.shiftl 1 1.
Definition NXP_GRALLOC_FLAGS_CONTIGUOUS : Z := Z.shiftl 1 2.
Definition NXP_GRALLOC_FLAGS_CACHED : Z := Z.shiftl 1 3.
Definition NXP_GRALLOC_FLAGS_TILED_FRAMEBUFFER : Z := Z.shiftl 1 16.
Definition NXP_GRALLOC_FLAGS_DISPLAY_UNDERRUN : Z := Z.shiftl 1 17.

(** [x & bits] as a condition. *)
Definition has (x bits : Z) : bool := negb (Z.land x bits =? 0).

Record gralloc_buffer_descriptor := mkDesc {
  ds_width : Z;
  ds_height : Z;
  ds_format : PixelFormat;
  ds_layer_count : Z;
  ds_usage : Z;
  ds_reserved : Z;
  ds_name : string;
  ds_drm_format : Fourcc;
  ds_modifier : Modifier;
  ds_flags : Z;
  ds_total_size : Z;
  ds_pixel_stride : Z;
  ds_num_planes : Z;
  ds_strides : list Z;
  ds_offsets : list Z;
  ds_sizes : list Z
}.

Definition desc_with_planes (d : gralloc_buffer_descriptor) (total planes : Z) (strides offsets sizes : list Z) :
  gralloc_buffer_descriptor :=
  mkDesc (ds_width d) (ds_height d) (ds_format d) (ds_layer_count d) (ds_usage d) (ds_reserved d) (ds_name d) (ds_drm_format d)
    (ds_modifier d) (ds_flags d) total (ds_pixel_stride d) planes strides offsets sizes.

(** ** Alignment *)

(** [ALIGN_PIXEL_n] and [ALIGN]. *)
Definition ALIGN (a b : Z) : Z := Z.land (⟦a + b - 1⟧u 32) (⟦Z.lnot (b - 1)⟧u 32).

Definition DIV_ROUND_UP (n d : Z) : option Z := if d =? 0 then None else Some ((⟦n + d - 1⟧u 32) / d).

(** The workaround for formats with 10 bits: the width becomes a stride in bytes. *)
Definition nv15_width (width align : Z) : Z := ALIGN ((⟦width * 5⟧u 32) / 4) align.

Definition picture_alignment (info : format_info_t) (d : gralloc_buffer_descriptor) : Z * Z :=
  let w := ds_width d in
  let h := ds_height d in
  if is_rgb info then
    if has (ds_usage d) USAGE_GPU_TILED_VIV then
      if has (ds_flags d) NXP_GRALLOC_FLAGS_FRAMEBUFFER && has (ds_flags d) NXP_GRALLOC_FLAGS_DISPLAY_UNDERRUN
      then (ALIGN w 16, ALIGN h 16) else (ALIGN w 64, ALIGN h 64)
    else (ALIGN w 16, ALIGN h 16)
  else if bool_decide (ds_format d = YV12) || bool_decide (ds_format d = HAL_PIXEL_FORMAT_YCbCr_420_P) then (ALIGN w 32, ALIGN h 4)
  else if bool_decide (ds_format d = HAL_PIXEL_FORMAT_NV12_TILED) || bool_decide (ds_format d = HAL_PIXEL_FORMAT_P010_TILED)
  then (ALIGN w 256, ALIGN h 256)
  else if is_yuv info then (ALIGN w 16, if has (ds_usage d) USAGE_PADDING_BUFFER then ALIGN h 16 else ALIGN h 4)
  else (w, h).

Definition drv_pixel_width_height_alignment (board : BoardConfig) (d : gralloc_buffer_descriptor) : option (Z * Z) :=
  info ← getPixleFormatInfo board (ds_format d);
  let '(aw, ah) := picture_alignment info d in
  Some (if bool_decide (ds_format d = HAL_PIXEL_FORMAT_P010) || bool_decide (ds_format d = HAL_PIXEL_FORMAT_P010_TILED_COMPRESSED)
        then nv15_width (ds_width d) 16
        else if bool_decide (ds_format d = HAL_PIXEL_FORMAT_P010_TILED) then nv15_width (ds_width d) 256 else aw, ah).

(** ** Strides and sizes

    The assertions are not compiled: a plane the layout does not have reads the zeros behind it, and no layout is a null pointer. *)

Definition drv_num_planes_from_format (format : Fourcc) : nat :=
  match layout_from_format format with Some layout => num_planes layout | None => 0%nat end.

Definition drv_height_from_format (f : Fourcc) (height : Z) (plane : nat) : option Z :=
  layout ← layout_from_format f;
  let alignedh :=
    match f with
    | DRM_FORMAT_NV12 | DRM_FORMAT_NV21 | DRM_FORMAT_YUV420 | DRM_FORMAT_YVU420 | DRM_FORMAT_YUYV => ALIGN height 4
    | _ => height
    end in
  sub ← vertical_subsampling layout !! plane;
  DIV_ROUND_UP alignedh sub.

(** The stride in bytes; the width of an NV15 buffer is one already. *)
Definition drv_stride_from_format (f : Fourcc) (modifier : Modifier) (width : Z) (plane : nat) : option Z :=
  if bool_decide (modifier = DRM_FORMAT_MOD_LINEAR) && negb (bool_decide (f = DRM_FORMAT_NV15)) then
    layout ← layout_from_format f;
    plane_bpp ← bits_per_pixel layout !! plane;
    sub ← horizontal_subsampling layout !! plane;
    plane_width ← DIV_ROUND_UP width sub;
    let stride_in_bytes := ALIGN (⟦plane_width * plane_bpp⟧u 32) 8 / 8 in
    Some (match f with
          | DRM_FORMAT_YVU420 => if (plane =? 0)%nat then ALIGN stride_in_bytes 32 else ALIGN stride_in_bytes 16
          | _ => stride_in_bytes
          end)
  else Some width.

Definition drv_size_from_format (f : Fourcc) (stride height : Z) (plane : nat) : option Z :=
  rows ← drv_height_from_format f height plane; Some (⟦stride * rows⟧u 32).

(** The loop over the planes: the descriptor's arrays, the offset and the size summed for the aligned height. *)
Fixpoint plane_loop (f : Fourcc) (modifier : Modifier) (height aligned_width aligned_height : Z) (padding : list Z) (ps : list nat)
    (strides offsets sizes : list Z) (offset aligned_size : Z) : option (list Z * list Z * list Z * Z) :=
  match ps with
  | [] => Some (strides, offsets, sizes, aligned_size)
  | p :: ps' =>
      stride ← drv_stride_from_format f modifier aligned_width p;
      size ← drv_size_from_format f stride height p;
      pad ← padding !! p;
      size' ← drv_size_from_format f stride aligned_height p;
      let size := ⟦size + pad⟧u 32 in
      plane_loop f modifier height aligned_width aligned_height padding ps' (<[p := stride]> strides) (<[p := offset]> offsets)
        (<[p := size]> sizes) (⟦offset + size⟧u 32) (⟦aligned_size + ⟦size' + pad⟧u 32⟧u 64)
  end.

Definition drv_buffer_info_calculation_and_padding (d : gralloc_buffer_descriptor) (aligned_width aligned_height : Z) (f : Fourcc)
    (modifier : Modifier) (padding : list Z) : option gralloc_buffer_descriptor :=
  let num_planes := drv_num_planes_from_format f in
  r ← plane_loop f modifier (ds_height d) aligned_width aligned_height padding (seq 0 num_planes) (ds_strides d) (ds_offsets d)
        (ds_sizes d) 0 0;
  pad ← padding !! DRV_MAX_PLANES;
  let '(strides, offsets, sizes, aligned_size) := r in
  Some (desc_with_planes d (⟦aligned_size + pad⟧u 64) (Z.of_nat num_planes) strides offsets sizes).

(** What the decoder needs behind the picture. *)
Definition total_padding (info : format_info_t) (d : gralloc_buffer_descriptor) (aligned_width aligned_height : Z) : Z :=
  let pad := if is_rgb info && has (ds_usage d) USAGE_GPU_TILED_VIV then 128 else 0 in
  if is_yuv info && has (ds_usage d) USAGE_PADDING_BUFFER then
    match ds_format d with
    | HAL_PIXEL_FORMAT_YCbCr_420_SP | YCRCB_420_SP | HAL_PIXEL_FORMAT_NV12_G1_TILED | HAL_PIXEL_FORMAT_NV12_G2_TILED
    | HAL_PIXEL_FORMAT_NV12_G2_TILED_COMPRESSED | HAL_PIXEL_FORMAT_P010 | HAL_PIXEL_FORMAT_P010_TILED_COMPRESSED =>
        ⟦(⟦aligned_width * aligned_height⟧u 32) / 4 + 32⟧u 32
    | YCBCR_P010 => ⟦(⟦(⟦aligned_width * aligned_height⟧u 32) / 4 * 2⟧u 32) + 32⟧u 32
    | _ => pad
    end
  else pad.

(** A negative result leaves the descriptor as it is; the callers do not look at it. *)
Definition drv_buffer_info_calculation (board : BoardConfig) (d : gralloc_buffer_descriptor) (aligned_width aligned_height : Z) :
  option (Z * gralloc_buffer_descriptor) :=
  match getPixleFormatInfo board (ds_format d) with
  | None => Some (-1, d)
  | Some info =>
      d' ← drv_buffer_info_calculation_and_padding d aligned_width aligned_height (fourcc info) (fi_modifier info)
             [0; 0; 0; 0; total_padding info d aligned_width aligned_height];
      Some (0, d')
  end.

(** ** Arithmetic *)

Lemma land_align x k : 0 <= x < 2 ^ 32 -> 0 <= k <= 32 -> Z.land x (⟦Z.lnot (2 ^ k - 1)⟧u 32) = x / 2 ^ k * 2 ^ k.
Proof.
  intros Hx Hk. rewrite <- Z.shiftr_div_pow2, <- Z.shiftl_mul_pow2, <- Z.ldiff_ones_r by lia.
  unfold wrap_u. replace (2 ^ k - 1) with (Z.ones k) by (rewrite Z.ones_equiv; lia).
  rewrite <- Z.land_ones by lia. rewrite (Z.land_comm (Z.lnot _)), Z.land_assoc, Z.land_ones, Z.mod_small by lia.
  by rewrite Z.ldiff_land.
Qed.

(** The least multiple that is not smaller. *)
Lemma ALIGN_spec a k : 0 <= a -> 0 <= k <= 32 -> a + 2 ^ k <= 2 ^ 32 ->
  a <= ALIGN a (2 ^ k) < a + 2 ^ k /\ ALIGN a (2 ^ k) mod 2 ^ k = 0.
Proof.
  intros Ha Hk Hmax. assert (0 < 2 ^ k) by (apply Z.pow_pos_nonneg; lia). unfold ALIGN. rewrite (wrap_u_id 32) by (unfold in_u; lia).
  rewrite land_align by lia. split; [|apply Z.mod_mul; lia]. pose proof (Z.div_mod (a + 2 ^ k - 1) (2 ^ k)).
  pose proof (Z.mod_pos_bound (a + 2 ^ k - 1) (2 ^ k)). nia.
Qed.

Lemma ALIGN_mono a b k : 0 <= a <= b -> 0 <= k <= 32 -> b + 2 ^ k <= 2 ^ 32 -> ALIGN a (2 ^ k) <= ALIGN b (2 ^ k).
Proof.
  intros Ha Hk Hmax. assert (0 < 2 ^ k) by (apply Z.pow_pos_nonneg; lia). unfold ALIGN. rewrite (wrap_u_id 32 (a + _ - 1)), (wrap_u_id 32 (b + _ - 1)) by (unfold in_u; lia).
  rewrite (land_align (a + _ - 1)), (land_align (b + _ - 1)) by lia. apply Z.mul_le_mono_nonneg_r; [lia|]. apply Z.div_le_mono; lia.
Qed.

(** With a width or height the hardware could have. *)
Lemma ALIGN_small a b k : b = 2 ^ k -> 0 <= k <= 14 -> 0 <= a <= 2 ^ 14 -> a <= ALIGN a b <= 2 ^ 14 /\ ALIGN a b mod 2 ^ k = 0.
Proof.
  intros -> Hk Ha. assert (0 < 2 ^ k <= 2 ^ 14) by (split; [apply Z.pow_pos_nonneg; lia|apply Z.pow_le_mono_r; lia]).
  assert (0 < 2 ^ k) as Hpos by lia. destruct (ALIGN_spec a k) as [Hle Hm]; [lia..|]. split; [|done]. split; [apply Hle|].
  pose proof (Z.pow_add_r 2 (14 - k) k ltac:(lia) ltac:(lia)) as E.
  rewrite Z.sub_add in E.
  pose proof (Z.div_mod (ALIGN a (2 ^ k)) (2 ^ k) ltac:(lia)) as Eq. rewrite Hm, Z.add_0_r in Eq.
  set (q := ALIGN a (2 ^ k) / 2 ^ k) in *. set (m := 2 ^ (14 - k)) in *. rewrite Eq. rewrite Eq in Hle.
  assert (2 ^ k * q < 2 ^ k * (m + 1)) as Hlt by lia. apply Z.mul_lt_mono_pos_l in Hlt; [|done].
  rewrite E, (Z.mul_comm m). apply Z.mul_le_mono_nonneg_l; lia.
Qed.

Lemma DIV_ROUND_UP_spec n d : (d = 1 \/ d = 2) -> 0 <= n <= 2 ^ 31 -> DIV_ROUND_UP n d = Some ((n + d - 1) / d).
Proof. intros Hd Hn. unfold DIV_ROUND_UP. rewrite (proj2 (Z.eqb_neq d 0)), wrap_u_id by (unfold in_u; lia). done. Qed.

(** ** Where the planes go *)

(** Rows and strides of a plane: [r] rows hold the picture, [r'] the aligned picture. *)
Definition plane_made (f : Fourcc) (m : Modifier) (h aw ah : Z) (p : nat) (s r r' : Z) : Prop :=
  drv_stride_from_format f m aw p = Some s /\ drv_height_from_format f h p = Some r /\ drv_height_from_format f ah p = Some r' /\
  0 <= s /\ 0 <= r <= r'.

Lemma plane_loop_spec f m h aw ah pad bound n : forall start strides offsets sizes offset total,
  (forall p, (start <= p < start + n)%nat -> exists s r r', plane_made f m h aw ah p s r r' /\ s * r' <= bound) ->
  (start + n <= 4)%nat -> length strides = 4%nat -> length offsets = 4%nat -> length sizes = 4%nat ->
  0 <= offset <= total -> total + Z.of_nat n * bound < 2 ^ 32 ->
  exists strides' offsets' sizes' total',
  plane_loop f m h aw ah [0; 0; 0; 0; pad] (seq start n) strides offsets sizes offset total = Some (strides', offsets', sizes', total') /\
  total <= total' <= total + Z.of_nat n * bound /\
  (forall p, (p < start)%nat -> strides' !! p = strides !! p /\ offsets' !! p = offsets !! p /\ sizes' !! p = sizes !! p) /\
  forall p, (start <= p < start + n)%nat -> exists s r r' o, plane_made f m h aw ah p s r r' /\
    strides' !! p = Some s /\ offsets' !! p = Some o /\ sizes' !! p = Some (s * r) /\ offset <= o /\ o + s * r <= total' /\
    forall q o', (p < q < start + n)%nat -> offsets' !! q = Some o' -> o + s * r <= o'.
Proof.
  induction n as [|n IH]; intros start strides offsets sizes offset total Hp Hlt Hl1 Hl2 Hl3 Ho Hb.
  { exists strides, offsets, sizes, total. split; [done|]. split; [lia|]. split; [done|]. lia. }
  destruct (Hp start) as (s & r & r' & Hm & Hsr); [lia|]. pose proof Hm as (Es & Er & Er' & Hs & Hr).
  assert (0 <= s * r <= s * r') as Hle by nia. assert (0 <= Z.of_nat n * bound) by nia.
  assert (total + s * r' < 2 ^ 32) as Hlt' by lia.
  cbn [seq plane_loop]. unfold drv_size_from_format. rewrite Es, Er, Er'. cbn.
  assert ([0; 0; 0; 0; pad] !! start = Some 0) as -> by (do 4 (destruct start as [|start]; [done|]); lia). cbn.
  rewrite !Z.add_0_r. rewrite !(wrap_u_id 32) by (unfold in_u; rewrite ?(wrap_u_id 32) by (unfold in_u; lia); lia).
  rewrite (wrap_u_id 64) by (unfold in_u; lia).
  destruct (IH (S start) (<[start:=s]> strides) (<[start:=offset]> offsets) (<[start:=s * r]> sizes) (offset + s * r) (total + s * r'))
    as (st & os & sz & t & E & Ht & Hkeep & Hall);
    [intros p Hpp; apply Hp; lia|lia|by rewrite length_insert..|lia|lia|].
  exists st, os, sz, t. split; [exact E|]. split; [lia|]. split.
  { intros p Hlow. destruct (Hkeep p) as (-> & -> & ->); [lia|]. by rewrite !list_lookup_insert_ne by lia. }
  intros p Hpp. destruct (decide (p = start)) as [->|Hne].
  - destruct (Hkeep start) as (Kst & Kos & Ksz); [lia|]. exists s, r, r', offset. rewrite Kst, Kos, Ksz, !list_lookup_insert_eq by lia.
    split_and!; [done..|lia|lia|]. intros q o' Hq Hoq. destruct (Hall q) as (sq & rq & rq' & oq & _ & _ & Eo & _ & Hoq' & _); [lia|].
    rewrite Eo in Hoq. injection Hoq as <-. lia.
  - destruct (Hall p) as (sp & rp & rp' & op & Hmp & Esp & Eop & Ezp & Hop & Hend & Hnext); [lia|]. exists sp, rp, rp', op.
    split_and!; [done..|lia|lia|]. intros q o' Hq. apply Hnext. lia.
Qed.

(** What the layouts have in common. *)
Lemma layout_plane f L p : layout_from_format f = Some L -> (p < num_planes L)%nat -> exists hs vs bpp,
  horizontal_subsampling L !! p = Some hs /\ vertical_subsampling L !! p = Some vs /\ bits_per_pixel L !! p = Some bpp /\
  (hs = 1 \/ hs = 2) /\ (vs = 1 \/ vs = 2) /\ 0 < bpp <= 64 /\ ((1 < num_planes L)%nat -> bpp <= 16 * hs).
Proof.
  intros HL Hp. destruct f; try discriminate HL; injection HL as <-; cbn in Hp;
    (destruct p as [|[|[|p]]]; [..|lia]); try lia; cbn; do 3 eexists; split_and!; first [reflexivity|lia].
Qed.

Lemma layout_planes f L : layout_from_format f = Some L -> (1 <= num_planes L <= 3)%nat.
Proof. intros HL. destruct f; try discriminate HL; injection HL as <-; cbn; lia. Qed.

(** The rows of a plane hold the picture, and a taller picture needs no fewer. *)
Lemma height_fits f L p vs h : layout_from_format f = Some L -> vertical_subsampling L !! p = Some vs -> vs = 1 \/ vs = 2 -> 0 <= h <= 2 ^ 14 ->
  exists r, drv_height_from_format f h p = Some r /\ 0 <= r <= 2 ^ 14 /\ (forall y, 0 <= y -> y * vs < h -> y + 1 <= r) /\
    forall h' r', h <= h' <= 2 ^ 14 -> drv_height_from_format f h' p = Some r' -> r <= r'.
Proof.
  intros HL Hv Hvs Hh. unfold drv_height_from_format. rewrite HL. cbn. rewrite Hv. cbn.
  set (al := fun x => match f with DRM_FORMAT_NV12 | DRM_FORMAT_NV21 | DRM_FORMAT_YUV420 | DRM_FORMAT_YVU420 | DRM_FORMAT_YUYV => ALIGN x 4 | _ => x end).
  assert (forall x, 0 <= x <= 2 ^ 14 -> x <= al x <= 2 ^ 14) as Hal.
  { intros x Hx. destruct (ALIGN_small x 4 2 eq_refl) as [? _]; [lia..|]. destruct f; done || (split; [reflexivity|apply Hx]). }
  assert (forall x y, 0 <= x <= y -> y <= 2 ^ 14 -> al x <= al y) as Hmono.
  { intros x y Hx Hy. pose proof (ALIGN_mono x y 2 Hx ltac:(lia) ltac:(lia)). destruct f; first [done|apply Hx]. }
  fold (al h). pose proof (Hal h Hh). rewrite DIV_ROUND_UP_spec by lia. eexists. split; [done|]. split_and!.
  - apply Z.div_pos; lia.
  - destruct Hvs as [-> | ->]; Z.to_euclidean_division_equations; lia.
  - intros y Hy Hyh. destruct Hvs as [-> | ->]; Z.to_euclidean_division_equations; lia.
  - intros h' r' Hh'. fold (al h'). pose proof (Hal h' ltac:(lia)). rewrite DIV_ROUND_UP_spec by lia. intros [= <-].
    apply Z.div_le_mono; [lia|]. pose proof (Hmono h h'). lia.
Qed.

(** A row of a plane holds a row of the picture. *)
Lemma linear_stride_fits f L p hs bpp w aw : layout_from_format f = Some L -> f <> DRM_FORMAT_NV15 ->
  horizontal_subsampling L !! p = Some hs -> bits_per_pixel L !! p = Some bpp -> hs = 1 \/ hs = 2 -> 0 < bpp <= 64 -> 0 <= w <= aw -> aw <= 2 ^ 14 ->
  exists s, drv_stride_from_format f DRM_FORMAT_MOD_LINEAR aw p = Some s /\
    0 <= s /\ (f <> DRM_FORMAT_YVU420 -> s <= 2 ^ 17) /\ (bpp <= 16 * hs -> s <= 2 ^ 15 + 35) /\
    forall x, 0 <= x -> x * hs < w -> (x + 1) * bpp <= 8 * s.
Proof.
  intros HL Hf Hh Hb Hhs Hbpp Hw Haw. unfold drv_stride_from_format. rewrite bool_decide_true, bool_decide_false by done. cbn.
  rewrite HL. cbn. rewrite Hb, Hh. cbn. rewrite DIV_ROUND_UP_spec by lia. cbn.
  set (pw := (aw + hs - 1) / hs).
  assert (0 <= pw <= 2 ^ 14 /\ pw * hs <= aw + 1 /\ forall x, 0 <= x -> x * hs < w -> x + 1 <= pw) as (Hpw & Hpw' & Hx).
  { subst pw. split_and!; [..|intros x ? ?]; destruct Hhs as [-> | ->]; Z.to_euclidean_division_equations; lia. }
  assert (0 <= pw * bpp <= 2 ^ 20) by nia. rewrite (wrap_u_id 32) by (unfold in_u; lia).
  destruct (ALIGN_spec (pw * bpp) 3) as [Hal Hm]; [lia..|]. change (2 ^ 3) with 8 in *.
  set (s := ALIGN (pw * bpp) 8 / 8). assert (pw * bpp <= 8 * s < pw * bpp + 8) as Hs.
  { pose proof (Z.div_mod (ALIGN (pw * bpp) 8) 8). subst s. lia. }
  assert (forall t, s <= t -> forall x, 0 <= x -> x * hs < w -> (x + 1) * bpp <= 8 * t) as Hcover by (intros t Ht x H1 H2; specialize (Hx x H1 H2); nia).
  destruct (decide (f = DRM_FORMAT_YVU420)) as [->|Hne].
  - destruct (ALIGN_spec s 5) as [H32 _]; [lia..|]. destruct (ALIGN_spec s 4) as [H16 _]; [lia..|].
    change (2 ^ 5) with 32 in *. change (2 ^ 4) with 16 in *.
    eexists. split; [done|]. destruct (p =? 0)%nat; (split; [lia|]; split; [done|]; split; [nia|apply Hcover; lia]).
  - exists s. split; [destruct f; done|]. split; [lia|]. split; [lia|]. split; [nia|by apply Hcover].
Qed.

(** *** The formats *)

Definition is_nv15 (f : PixelFormat) : bool :=
  match f with HAL_PIXEL_FORMAT_P010 | HAL_PIXEL_FORMAT_P010_TILED | HAL_PIXEL_FORMAT_P010_TILED_COMPRESSED => true | _ => false end.

Lemma info_facts board fmt info : getPixleFormatInfo board fmt = Some info -> fi_id info = fmt /\
  (fourcc info = DRM_FORMAT_NV15 <-> is_nv15 fmt = true) /\
  (fi_modifier info = DRM_FORMAT_MOD_LINEAR \/ fourcc info = DRM_FORMAT_NV12 /\ is_yuv info = true \/ fourcc info = DRM_FORMAT_NV15) /\
  (is_rgb info = true -> is_yuv info = false /\ is_nv15 fmt = false).
Proof.
  intros [Hin Hid]%find_some. apply bool_decide_eq_true in Hid as <-. split; [done|]. apply list_elem_of_In in Hin. revert info Hin.
  apply Forall_forall. unfold formats. destruct (GPU_RGBA1010102_LIMITATION board), (VPU_P010_AMPHION_TILED board); cbn [app];
    repeat (apply Forall_cons_2 || apply Forall_nil_2); cbn; split_and!; (tauto || naive_solver).
Qed.

Lemma picture_alignment_bounds info d : 0 <= ds_width d <= 2 ^ 14 -> 0 <= ds_height d <= 2 ^ 14 -> let '(aw, ah) := picture_alignment info d in
  ds_width d <= aw <= 2 ^ 14 /\ ds_height d <= ah <= 2 ^ 14 /\ (is_yuv info = true -> aw mod 2 = 0).
Proof.
  intros Hw Hh. unfold picture_alignment.
  assert (forall a k, 1 <= k <= 8 -> 0 <= a <= 2 ^ 14 -> a <= ALIGN a (2 ^ k) <= 2 ^ 14 /\ ALIGN a (2 ^ k) mod 2 = 0) as Hal.
  { intros a k Hk Ha. destruct (ALIGN_small a (2 ^ k) k eq_refl) as [? Hm]; [lia..|]. split; [done|].
    apply Z.mod_divide in Hm; [|apply Z.pow_nonzero; lia]. apply Z.mod_divide; [lia|]. etransitivity; [|exact Hm].
    exists (2 ^ (k - 1)). rewrite Z.mul_comm, <- Z.pow_succ_r by lia. f_equal. lia. }
  pose proof (fun a => Hal a 2 ltac:(lia)) as H4. pose proof (fun a => Hal a 4 ltac:(lia)) as H16.
  pose proof (fun a => Hal a 5 ltac:(lia)) as H32. pose proof (fun a => Hal a 6 ltac:(lia)) as H64. pose proof (fun a => Hal a 8 ltac:(lia)) as H256.
  clear Hal. change (2 ^ 2) with 4 in H4. change (2 ^ 4) with 16 in H16. change (2 ^ 5) with 32 in H32. change (2 ^ 6) with 64 in H64.
  change (2 ^ 8) with 256 in H256.
  repeat case_match; simplify_eq/=; (split; [|split; [|intros ?]]); try done;
    first [apply H16|apply H64|apply H32|apply H256|apply H4|lia]; done.
Qed.

(** *** A picture of a size the hardware could have *)

(** The width of an NV15 picture is a multiple of four pixels, or its rows do not fill whole bytes. *)
Definition sane_picture (d : gralloc_buffer_descriptor) : Prop :=
  0 < ds_width d <= 2 ^ 14 /\ 0 < ds_height d <= 2 ^ 14 /\ (is_nv15 (ds_format d) = true -> ds_width d mod 4 = 0).

Lemma nv15_width_spec w k : 0 <= w <= 2 ^ 14 -> w mod 4 = 0 -> 0 <= k <= 8 -> 5 * w <= 4 * nv15_width w (2 ^ k) /\ nv15_width w (2 ^ k) <= 2 ^ 15.
Proof.
  intros Hw Hm Hk. unfold nv15_width. rewrite (wrap_u_id 32) by (unfold in_u; lia).
  assert (2 ^ k <= 2 ^ 8) by (apply Z.pow_le_mono_r; lia).
  assert (4 * (w * 5 / 4) = 5 * w) by (Z.to_euclidean_division_equations; lia).
  destruct (ALIGN_spec (w * 5 / 4) k); lia.
Qed.

Lemma alignment_fits board d aw ah info : getPixleFormatInfo board (ds_format d) = Some info -> sane_picture d ->
  drv_pixel_width_height_alignment board d = Some (aw, ah) ->
  ds_height d <= ah <= 2 ^ 14 /\
  if is_nv15 (ds_format d) then 5 * ds_width d <= 4 * aw /\ aw <= 2 ^ 15
  else ds_width d <= aw <= 2 ^ 14 /\ (is_yuv info = true -> aw mod 2 = 0).
Proof.
  intros Hi (Hw & Hh & Hm). unfold drv_pixel_width_height_alignment. rewrite Hi. cbn.
  pose proof (picture_alignment_bounds info d ltac:(lia) ltac:(lia)) as Hb. destruct (picture_alignment info d) as [aw0 ah0].
  destruct Hb as (Hw0 & Hh0 & Hy). intros [= <- <-]. split; [done|].
  pose proof (fun k => nv15_width_spec (ds_width d) k ltac:(lia)) as Hn.
  destruct (ds_format d); try discriminate Hm; cbn in *; try done; (apply (Hn 4) || apply (Hn 8)); lia || auto.
Qed.

Definition plane_bound (L : planar_layout) : Z := if (num_planes L =? 1)%nat then 2 ^ 31 else 2 ^ 30.

(** A plane has a row for each row of the picture, with room for its samples. *)
Definition plane_holds (L : planar_layout) (d : gralloc_buffer_descriptor) (p : nat) (s r : Z) : Prop := exists hs vs bpp,
  horizontal_subsampling L !! p = Some hs /\ vertical_subsampling L !! p = Some vs /\ bits_per_pixel L !! p = Some bpp /\
  0 < hs /\ 0 < vs /\ 0 < bpp /\
  (forall x, 0 <= x -> x * hs < ds_width d -> (x + 1) * bpp <= 8 * s) /\ (forall y, 0 <= y -> y * vs < ds_height d -> y + 1 <= r).

Lemma stride_fits board d aw ah info L p hs bpp : getPixleFormatInfo board (ds_format d) = Some info -> sane_picture d ->
  drv_pixel_width_height_alignment board d = Some (aw, ah) -> layout_from_format (fourcc info) = Some L -> (p < num_planes L)%nat ->
  horizontal_subsampling L !! p = Some hs -> bits_per_pixel L !! p = Some bpp -> hs = 1 \/ hs = 2 -> 0 < bpp <= 64 ->
  ((1 < num_planes L)%nat -> bpp <= 16 * hs) ->
  exists s, drv_stride_from_format (fourcc info) (fi_modifier info) aw p = Some s /\ 0 <= s /\
    s * 2 ^ 14 <= plane_bound L /\ forall x, 0 <= x -> x * hs < ds_width d -> (x + 1) * bpp <= 8 * s.
Proof.
  intros Hi Hs Ha HL Hp Hhs Hbpp Hhs' Hbpp' Hmany. pose proof Hs as (Hw & _ & Hm).
  destruct (info_facts _ _ _ Hi) as (_ & Hnv & Hmod & _). destruct (alignment_fits _ _ _ _ _ Hi Hs Ha) as [_ Haw].
  assert (plane_bound L = 2 ^ 31 /\ num_planes L = 1%nat \/ plane_bound L = 2 ^ 30 /\ (1 < num_planes L)%nat) as HB.
  { unfold plane_bound. destruct (Nat.eqb_spec (num_planes L) 1); [by left|right]. lia. }
  destruct (decide (fourcc info = DRM_FORMAT_NV15)) as [E|E].
  { rewrite (proj1 Hnv E) in Haw, Hm. exists aw. rewrite E in HL |- *. injection HL as <-. unfold drv_stride_from_format.
    rewrite andb_false_r. split; [done|]. change (plane_bound _) with (2 ^ 30). cbn in Hp. specialize (Hm eq_refl). split; [lia|]. split; [lia|].
    destruct p as [|[|p]]; [..|lia]; injection Hhs as <-; injection Hbpp as <-; intros x ??; Z.to_euclidean_division_equations; lia. }
  assert (is_nv15 (ds_format d) = false) as En by (destruct (is_nv15 (ds_format d)); [by destruct E; apply Hnv|done]). rewrite En in Haw.
  destruct (decide (fi_modifier info = DRM_FORMAT_MOD_LINEAR)) as [->|El].
  - destruct (linear_stride_fits (fourcc info) L p hs bpp (ds_width d) aw HL E Hhs Hbpp Hhs' Hbpp') as (s & Es & H0 & H1 & H2 & Hx); [lia..|].
    exists s. split_and!; [done..| |done]. destruct HB as [[-> H1p]|[-> Hn]]; [|specialize (H2 (Hmany Hn)); lia].
    assert (s <= 2 ^ 17); [|lia]. apply H1. intros Ey. rewrite Ey in HL. injection HL as <-. done.
  - destruct Hmod as [|[[E12 Ey]|]]; [done| |done]. exists aw. unfold drv_stride_from_format. rewrite bool_decide_false by done. split; [done|].
    rewrite E12 in HL. injection HL as <-. destruct Haw as [Haw He]. specialize (He Ey). change (plane_bound _) with (2 ^ 30).
    split; [lia|]. split; [lia|]. cbn in Hp.
    destruct p as [|[|p]]; [..|lia]; injection Hhs as <-; injection Hbpp as <-; intros x ??; Z.to_euclidean_division_equations; lia.
Qed.

Lemma plane_fits board d aw ah info L p : getPixleFormatInfo board (ds_format d) = Some info -> sane_picture d ->
  drv_pixel_width_height_alignment board d = Some (aw, ah) -> layout_from_format (fourcc info) = Some L -> (p < num_planes L)%nat ->
  exists s r r', plane_made (fourcc info) (fi_modifier info) (ds_height d) aw ah p s r r' /\ s * r' <= plane_bound L /\ plane_holds L d p s r.
Proof.
  intros Hi Hs Ha HL Hp. destruct (layout_plane _ _ _ HL Hp) as (hs & vs & bpp & Hhs & Hvs & Hbpp & Hhs' & Hvs' & Hb' & Hmany).
  pose proof Hs as (_ & Hh & _). destruct (alignment_fits _ _ _ _ _ Hi Hs Ha) as [Hah _].
  destruct (stride_fits _ _ _ _ _ _ _ _ _ Hi Hs Ha HL Hp Hhs Hbpp Hhs' Hb' Hmany) as (s & Es & Hs0 & Hbound & Hx).
  destruct (height_fits _ _ _ _ (ds_height d) HL Hvs Hvs') as (r & Er & Hr & Hy & Hmono); [lia|].
  destruct (height_fits _ _ _ _ ah HL Hvs Hvs') as (r' & Er' & Hr' & _); [lia|].
  exists s, r, r'. split; [|split; [nia|exists hs, vs, bpp; split_and!; try done; lia]].
  specialize (Hmono ah r' Hah Er'). split_and!; [done..|lia|lia|lia].
Qed.

(** ** Samples *)

(** A sample of the picture in plane [p]. *)
Definition is_sample (L : planar_layout) (d : gralloc_buffer_descriptor) (p : nat) (x y : Z) : Prop := (p < num_planes L)%nat /\
  exists hs vs, horizontal_subsampling L !! p = Some hs /\ vertical_subsampling L !! p = Some vs /\
    0 <= x /\ x * hs < ds_width d /\ 0 <= y /\ y * vs < ds_height d.

(** Its first bit in the buffer and the number of its bits. *)
Definition sample_bits (L : planar_layout) (d : gralloc_buffer_descriptor) (p : nat) (x y : Z) : option (Z * Z) :=
  stride ← ds_strides d !! p; offset ← ds_offsets d !! p; bpp ← bits_per_pixel L !! p; Some (8 * (offset + y * stride) + x * bpp, bpp).

(** In a plane. *)
Lemma sample_in_plane L d d' p x y s r o : plane_holds L d p s r -> is_sample L d p x y -> 0 <= o -> 0 <= s -> 0 <= r ->
  ds_strides d' !! p = Some s -> ds_offsets d' !! p = Some o ->
  exists bpp, 0 < bpp /\ bits_per_pixel L !! p = Some bpp /\ sample_bits L d' p x y = Some (8 * (o + y * s) + x * bpp, bpp) /\
    0 <= x /\ 0 <= y /\ (x + 1) * bpp <= 8 * s /\ 8 * o <= 8 * (o + y * s) + x * bpp /\ 8 * (o + y * s) + x * bpp + bpp <= 8 * (o + s * r).
Proof.
  intros (hs & vs & bpp & Hh & Hv & Hb & Hhs & Hvs & Hbpp & Hx & Hy) (_ & hs' & vs' & Hh' & Hv' & Hx0 & Hxw & Hy0 & Hyh) Ho Hs Hr Es Eo.
  rewrite Hh in Hh'. injection Hh' as <-. rewrite Hv in Hv'. injection Hv' as <-. specialize (Hx x Hx0 Hxw). specialize (Hy y Hy0 Hyh).
  exists bpp. unfold sample_bits. rewrite Es, Eo, Hb. split_and!; try done; nia.
Qed.

Lemma samples_of_plane o s bpp x y x' y' : 0 < bpp -> 0 <= x -> 0 <= x' -> (x + 1) * bpp <= 8 * s -> (x' + 1) * bpp <= 8 * s -> (x, y) <> (x', y') ->
  8 * (o + y * s) + x * bpp + bpp <= 8 * (o + y' * s) + x' * bpp \/ 8 * (o + y' * s) + x' * bpp + bpp <= 8 * (o + y * s) + x * bpp.
Proof.
  intros Hb Hx Hx' Hr Hr' Hne. destruct (Z.lt_trichotomy y y') as [Hy|[->|Hy]]; [left; nia| |right; nia].
  destruct (Z.lt_trichotomy x x') as [Hxx|[->|Hxx]]; [left; nia|done|right; nia].
Qed.

Lemma total_padding_bound info d aw ah : 0 <= total_padding info d aw ah < 2 ^ 32.
Proof.
  unfold total_padding. pose proof (fun z => wrap_u_range 32 z ltac:(lia)) as Hw. unfold in_u in Hw.
  destruct (is_rgb info && _), (is_yuv info && _); try lia; destruct (ds_format d); try lia; apply Hw.
Qed.

(** The planes of a picture. *)
Lemma calculation_runs board d aw ah info L : getPixleFormatInfo board (ds_format d) = Some info -> layout_from_format (fourcc info) = Some L ->
  sane_picture d -> length (ds_strides d) = 4%nat -> length (ds_offsets d) = 4%nat -> length (ds_sizes d) = 4%nat ->
  drv_pixel_width_height_alignment board d = Some (aw, ah) ->
  exists d', drv_buffer_info_calculation board d aw ah = Some (0, d') /\ 0 <= ds_total_size d' < 2 ^ 33 /\
  forall p, (p < num_planes L)%nat -> exists s r o, plane_holds L d p s r /\ 0 <= s /\ 0 <= r /\ 0 <= o /\ o + s * r <= ds_total_size d' /\
    ds_strides d' !! p = Some s /\ ds_offsets d' !! p = Some o /\ ds_sizes d' !! p = Some (s * r) /\
    forall q o', (p < q < num_planes L)%nat -> ds_offsets d' !! q = Some o' -> o + s * r <= o'.
Proof.
  intros Hi HL Hs H1 H2 H3 Ha. unfold drv_buffer_info_calculation. rewrite Hi. unfold drv_buffer_info_calculation_and_padding, drv_num_planes_from_format.
  rewrite HL. set (pad := total_padding info d aw ah). pose proof (total_padding_bound info d aw ah : 0 <= pad < 2 ^ 32) as Hpad.
  pose proof (layout_planes _ _ HL) as Hn. assert (Z.of_nat (num_planes L) * plane_bound L < 2 ^ 32) as Hb.
  { unfold plane_bound. destruct (Nat.eqb_spec (num_planes L) 1); lia. }
  destruct (plane_loop_spec (fourcc info) (fi_modifier info) (ds_height d) aw ah pad (plane_bound L) (num_planes L) 0 (ds_strides d) (ds_offsets d) (ds_sizes d) 0 0)
    as (st & os & sz & t & E & Ht & _ & Hall); [|lia|done..|lia|lia|].
  { intros p Hp. destruct (plane_fits _ _ _ _ _ _ p Hi Hs Ha HL) as (s & r & r' & Hm & Hb' & _); [lia|]. by exists s, r, r'. }
  rewrite E. cbn. eexists. split; [done|]. cbn. rewrite wrap_u_id by (unfold in_u; lia). split; [lia|]. intros p Hp.
  destruct (Hall p) as (s & r & r' & o & Hm & Es & Eo & Ez & Ho & Hend & Hnext); [lia|].
  destruct (plane_fits _ _ _ _ _ _ p Hi Hs Ha HL Hp) as (s2 & r2 & r2' & Hm2 & _ & Hholds).
  destruct Hm as (A & B & _ & Hs0 & Hr0), Hm2 as (A2 & B2 & _). rewrite A in A2. injection A2 as <-. rewrite B in B2. injection B2 as <-.
  exists s, r, o. split_and!; try done; lia.
Qed.

(** C23: For a picture of 1 to 16384 pixels each way in a format with a layout, its width a multiple of 4 if it has 10-bit
    samples, the sizes, offsets and strides that are
    calculated keep all samples of all planes apart and inside the size that is allocated. *)
Theorem samples_apart board d aw ah info L : getPixleFormatInfo board (ds_format d) = Some info -> layout_from_format (fourcc info) = Some L ->
  sane_picture d -> length (ds_strides d) = 4%nat -> length (ds_offsets d) = 4%nat -> length (ds_sizes d) = 4%nat ->
  drv_pixel_width_height_alignment board d = Some (aw, ah) ->
  exists d', drv_buffer_info_calculation board d aw ah = Some (0, d') /\
  forall p x y, is_sample L d p x y -> exists b n, sample_bits L d' p x y = Some (b, n) /\ 0 < n /\ 0 <= b /\ b + n <= 8 * ds_total_size d' /\
    forall q x' y' b' n', is_sample L d q x' y' -> (p, x, y) <> (q, x', y') -> sample_bits L d' q x' y' = Some (b', n') ->
      b + n <= b' \/ b' + n' <= b.
Proof.
  intros Hi HL Hs H1 H2 H3 Ha. destruct (calculation_runs _ _ _ _ _ _ Hi HL Hs H1 H2 H3 Ha) as (d' & E & _ & Hp). exists d'. split; [done|].
  intros p x y Hsam. destruct (Hp p (proj1 Hsam)) as (s & r & o & Hh & Hs0 & Hr0 & Ho0 & Hend & Es & Eo & _ & Hnext).
  destruct (sample_in_plane _ _ d' _ _ _ _ _ _ Hh Hsam Ho0 Hs0 Hr0 Es Eo) as (n & Hn & Hbpp & Eb & Hx & Hy & Hrow & Hlo & Hhi).
  exists (8 * (o + y * s) + x * n), n. split; [done|]. split; [done|]. split; [lia|]. split; [lia|]. intros q x' y' b' n' Hsam' Hne Eb'.
  destruct (Hp q (proj1 Hsam')) as (s' & r' & o' & Hh' & Hs0' & Hr0' & Ho0' & _ & Es' & Eo' & _ & Hnext').
  destruct (sample_in_plane _ _ d' _ _ _ _ _ _ Hh' Hsam' Ho0' Hs0' Hr0' Es' Eo') as (m & Hm & Hbpp' & Eb2 & Hx' & Hy' & Hrow' & Hlo' & Hhi').
  rewrite Eb' in Eb2. injection Eb2 as -> ->. destruct (Nat.lt_trichotomy p q) as [Hpq|[<-|Hpq]].
  - left. specialize (Hnext q o' (conj Hpq (proj1 Hsam')) Eo'). lia.
  - simplify_eq. apply samples_of_plane; try done. congruence.
  - right. specialize (Hnext' p o (conj Hpq (proj1 Hsam)) Eo). lia.
Qed.

(** ** Examples *)

Definition demo_board : BoardConfig := mkBoard false false false false.

Definition demo_desc (f : PixelFormat) (w h : Z) : gralloc_buffer_descriptor :=
  mkDesc w h f 1 0 0 "demo" DRM_FORMAT_R8 DRM_FORMAT_MOD_LINEAR 0 0 0 0 [0; 0; 0; 0] [0; 0; 0; 0] [0; 0; 0; 0].

Lemma samples_apart_witness : exists d', drv_buffer_info_calculation demo_board (demo_desc YV12 1918 1082) 1920 1084 = Some (0, d') /\
  exists b n, sample_bits triplanar_yuv_420_layout d' 2 958 540 = Some (b, n) /\ b + n <= 8 * ds_total_size d'.
Proof.
  destruct (samples_apart demo_board (demo_desc YV12 1918 1082) 1920 1084 (yuv YV12 DRM_FORMAT_YVU420 DRM_FORMAT_MOD_LINEAR) triplanar_yuv_420_layout)
    as (d' & E & Hs); [reflexivity|reflexivity|split; cbn; [lia|split; [lia|discriminate]]|reflexivity|reflexivity|reflexivity|vm_compute; reflexivity|].
  exists d'. split; [exact E|]. destruct (Hs 2%nat 958 540) as (b & n & Eb & _ & _ & Hb & _);
    [split; [cbn; lia|exists 2, 2; cbn; split; [reflexivity|split; [reflexivity|lia]]]|].
  exists b, n. split; [exact Eb|exact Hb].
Defined.

Definition layout_of (board : BoardConfig) (d : gralloc_buffer_descriptor) : option (Z * list Z * list Z * list Z) :=
  '(aw, ah) ← drv_pixel_width_height_alignment board d; r ← drv_buffer_info_calculation board d aw ah;
  Some (ds_total_size r.2, ds_strides r.2, ds_offsets r.2, ds_sizes r.2).

Example full_hd : layout_of demo_board (demo_desc YCRCB_420_SP 1920 1080) =
  Some (3110400, [1920; 1920; 0; 0], [0; 2073600; 0; 0], [2073600; 1036800; 0; 0]).
Proof. vm_compute. reflexivity. Qed.

(** The bits of 13 pixels of 10 bits do not fit into the row that is calculated. *)
Example nv15_row_too_short : drv_pixel_width_height_alignment demo_board (demo_desc HAL_PIXEL_FORMAT_P010 13 8) = Some (16, 8) /\
  drv_stride_from_format DRM_FORMAT_NV15 DRM_FORMAT_MOD_LINEAR 16 0 = Some 16 /\ 8 * 16 < 13 * 10.
Proof. split; [by vm_compute|]. split; [by vm_compute|lia]. Qed.

(** The size of a picture that is too large wraps around: nothing would be allocated for it. *)
Example huge_picture_is_empty : layout_of demo_board (demo_desc RGBA_8888 65536 65536) =
  Some (0, [262144; 0; 0; 0], [0; 0; 0; 0], [0; 0; 0; 0]).
Proof. vm_compute. reflexivity. Qed.

(** A format of the table has no layout, and its buffers no size. *)
Example planar_422_is_empty : layout_of demo_board (demo_desc HAL_PIXEL_FORMAT_YCbCr_422_P 640 480) =
  Some (0, [0; 0; 0; 0], [0; 0; 0; 0], [0; 0; 0; 0]).
Proof. vm_compute. reflexivity. Qed.

(** A format whose padding is calculated is not in the table. *)
Lemma ycbcr_p010_unknown board : getPixleFormatInfo board YCBCR_P010 = None.
Proof. unfold getPixleFormatInfo, formats. destruct (GPU_RGBA1010102_LIMITATION board); reflexivity. Qed.
