(* ===== verification/GrallocPlanes.v ===== *)
(** * The planes as clients see them

    The table of driver_utils.cpp that tells the clients of display/gralloc where the
    components of a sample are, and what it has in common with the layouts
    [GrallocLayout] calculates sizes from. *)

From S2P Require Import Prelude GrallocLayout.

Inductive PlaneLayoutComponentType :=
  | PlaneLayoutComponentType_Y | PlaneLayoutComponentType_CB | PlaneLayoutComponentType_CR
  | PlaneLayoutComponentType_R | PlaneLayoutComponentType_G | PlaneLayoutComponentType_B | PlaneLayoutComponentType_A
  | PlaneLayoutComponentType_RAW.

Record PlaneLayoutComponent := mkComponent { pc_type : PlaneLayoutComponentType; offsetInBits : Z; sizeInBits : Z }.

Record PlaneLayout := mkPlane {
  components : list PlaneLayoutComponent;
  sampleIncrementInBits : Z;
  horizontalSubsampling : Z;
  verticalSubsampling : Z;
  offsetInBytes : Z;
  strideInBytes : Z;
  totalSizeInBytes : Z;
  widthInSamples : Z;
  heightInSamples : Z
}.

(** What the table says of a plane; the rest is zero. *)
Definition plane_entry (cs : list (PlaneLayoutComponentType * Z * Z)) (increment h v : Z) : PlaneLayout :=
  mkPlane ((fun c => mkComponent c.1.1 c.1.2 c.2) <$> cs) increment h v 0 0 0 0 0.

(** The table in its order. *)
Definition GetPlaneLayoutsMap : list (Fourcc * list PlaneLayout) :=
  let Y := PlaneLayoutComponentType_Y in let CB := PlaneLayoutComponentType_CB in let CR := PlaneLayoutComponentType_CR in
  let R := PlaneLayoutComponentType_R in let G := PlaneLayoutComponentType_G in let B := PlaneLayoutComponentType_B in
  let A := PlaneLayoutComponentType_A in let RAW := PlaneLayoutComponentType_RAW in
  [ (DRM_FORMAT_ABGR8888, [plane_entry [(R, 0, 8); (G, 8, 8); (B, 16, 8); (A, 24, 8)] 32 1 1]);
    (DRM_FORMAT_ABGR2101010, [plane_entry [(R, 0, 10); (G, 10, 10); (B, 20, 10); (A, 30, 2)] 32 1 1]);
    (DRM_FORMAT_ABGR16161616F, [plane_entry [(R, 0, 16); (G, 16, 16); (B, 32, 16); (A, 48, 16)] 64 1 1]);
    (DRM_FORMAT_ARGB8888, [plane_entry [(B, 0, 8); (G, 8, 8); (R, 16, 8); (A, 24, 8)] 32 1 1]);
    (DRM_FORMAT_NV12, [plane_entry [(Y, 0, 8)] 8 1 1; plane_entry [(CB, 0, 8); (CR, 8, 8)] 16 2 2]);
    (DRM_FORMAT_NV21, [plane_entry [(Y, 0, 8)] 8 1 1; plane_entry [(CR, 0, 8); (CB, 8, 8)] 16 2 2]);
    (DRM_FORMAT_P010, [plane_entry [(Y, 6, 10)] 16 1 1; plane_entry [(CB, 6, 10); (CR, 22, 10)] 32 2 2]);
    (DRM_FORMAT_R8, [plane_entry [(R, 0, 8)] 8 1 1]);
    (DRM_FORMAT_R16, [plane_entry [(R, 0, 16)] 16 1 1]);
    (DRM_FORMAT_RGB565, [plane_entry [(R, 0, 5); (G, 5, 6); (B, 11, 5)] 16 1 1]);
    (DRM_FORMAT_BGR888, [plane_entry [(R, 0, 8); (G, 8, 8); (B, 16, 8)] 24 1 1]);
    (DRM_FORMAT_XBGR8888, [plane_entry [(B, 0, 8); (G, 8, 8); (R, 16, 8)] 32 1 1]);
    (DRM_FORMAT_YUV420, [plane_entry [(Y, 0, 8)] 8 1 1; plane_entry [(CB, 0, 8)] 8 2 2; plane_entry [(CR, 0, 8)] 8 2 2]);
    (DRM_FORMAT_YVU420, [plane_entry [(Y, 0, 8)] 8 1 1; plane_entry [(CR, 0, 8)] 8 2 2; plane_entry [(CB, 0, 8)] 8 2 2]);
    (DRM_FORMAT_YUYV, [plane_entry [(Y, 0, 8); (CB, 8, 8); (CR, 8, 8)] 8 1 1]);
    (DRM_FORMAT_NV16, [plane_entry [(Y, 0, 8)] 8 1 1; plane_entry [(CB, 0, 8); (CR, 8, 8)] 16 2 1]);
    (DRM_FORMAT_R16, [plane_entry [(RAW, 0, 16)] 16 1 1]) ].

(** Of two entries for a format the first is there. *)
Definition getPlaneLayouts (drmFormat : Fourcc) : option (list PlaneLayout) :=
  snd <$> find (fun e => bool_decide (e.1 = drmFormat)) GetPlaneLayoutsMap.

(** ** The two tables *)

(** The sample of a component is inside the step from one to the next, and apart from the others. *)
Definition component_inside (increment : Z) (c : PlaneLayoutComponent) : bool :=
  (0 <=? offsetInBits c) && (0 <? sizeInBits c) && (offsetInBits c + sizeInBits c <=? increment).
Fixpoint components_apart (cs : list PlaneLayoutComponent) : bool :=
  match cs with
  | [] => true
  | c :: cs' => forallb (fun c' => (offsetInBits c + sizeInBits c <=? offsetInBits c') || (offsetInBits c' + sizeInBits c' <=? offsetInBits c)) cs' &&
                components_apart cs'
  end.

(** A plane of one table as the other has it. *)
Definition plane_agrees (L : planar_layout) (p : nat) (e : PlaneLayout) : bool :=
  bool_decide (bits_per_pixel L !! p = Some (sampleIncrementInBits e)) &&
  bool_decide (horizontal_subsampling L !! p = Some (horizontalSubsampling e)) &&
  bool_decide (vertical_subsampling L !! p = Some (verticalSubsampling e)) &&
  forallb (component_inside (sampleIncrementInBits e)) (components e) && components_apart (components e).
Fixpoint planes_agree (L : planar_layout) (p : nat) (es : list PlaneLayout) : bool :=
  match es with [] => true | e :: es' => plane_agrees L p e && planes_agree L (S p) es' end.

(** But for one format, what clients are told of planes, their subsampling and the step between samples is what sizes are calculated
    from, and the components of a sample are apart. *)
Lemma plane_tables_agree f es : getPlaneLayouts f = Some es -> f <> DRM_FORMAT_YUYV ->
  exists L, layout_from_format f = Some L /\ length es = num_planes L /\ planes_agree L 0 es = true.
Proof.
  intros E Hf. destruct f; try discriminate E; try done; injection E as <-; eexists; (split; [reflexivity|split; reflexivity]).
Qed.

(** Two bytes a pixel with three components in them, told as one byte. *)
Example yuyv_disagrees : exists e, getPlaneLayouts DRM_FORMAT_YUYV = Some [e] /\ planes_agree packed_2bpp_layout 0 [e] = false /\
  layout_from_format DRM_FORMAT_YUYV = Some packed_2bpp_layout /\ sampleIncrementInBits e = 8 /\ components_apart (components e) = false.
Proof. eexists. split; [reflexivity|]. by vm_compute. Qed.

(** Where red is told to be with an alpha and without. *)
Definition component_offset (t : PlaneLayoutComponentType -> bool) (f : Fourcc) : option Z :=
  es ← getPlaneLayouts f; e ← head es; offsetInBits <$> find (fun c => t (pc_type c)) (components e).
Example xbgr_is_swapped : let red := component_offset (fun t => match t with PlaneLayoutComponentType_R => true | _ => false end) in
  red DRM_FORMAT_ABGR8888 = Some 0 /\ red DRM_FORMAT_XBGR8888 = Some 16 /\ red DRM_FORMAT_ARGB8888 = Some 16.
Proof. by vm_compute. Qed.

(** Formats buffers are allocated for whose planes nobody can ask for. *)
Definition has_planes (board : BoardConfig) (f : PixelFormat) : option bool :=
  info ← getPixleFormatInfo board f; Some (bool_decide (is_Some (getPlaneLayouts (fourcc info)))).
Example planes_not_told : forall board, Forall (fun f => has_planes board f = Some false) [RGBA_10101010; HAL_PIXEL_FORMAT_P010; HAL_PIXEL_FORMAT_YCbCr_422_P].
Proof. intros board. unfold has_planes, getPixleFormatInfo, formats. destruct (GPU_RGBA1010102_LIMITATION board), (VPU_P010_AMPHION_TILED board); by repeat constructor. Qed.
