(* ===== verification/Gralloc.v ===== *)
(** * Graphics buffers

    display/gralloc: the allocation of buffers from heaps or from the GPU's allocator
    (dma_buf_heaps.cpp, gralloc_driver.cpp), the allocator service that hands them out
    (aidl/NxpAllocator.cpp) and the mapper a client imports them with
    (mapper_stablec/Mapper.cpp, registered_handle_pool.cpp).

    A process has a table of descriptors, a table of mappings and native handles on its
    heap; what descriptors and mappings refer to are files.  The kernel and the GPU's
    allocator are classes: their answers depend on all calls made before. *)

From S2P Require Import Prelude GrallocLayout GrallocPlanes.

(** ** Outside code *)

(** Usage bits of hardware/gralloc.h and BufferUsage, and the names of libdmabufheap. *)
Class GrallocUsage := {
  GRALLOC_USAGE_HW_FB : Z;
  GRALLOC_USAGE_HW_COMPOSER : Z;
  GRALLOC_USAGE_PROTECTED : Z;
  GRALLOC_USAGE_HW_VIDEO_ENCODER : Z;
  GRALLOC_USAGE_PRIVATE_3 : Z;
  GRALLOC_USAGE_HW_CAMERA_WRITE : Z;
  GRALLOC_USAGE_HW_TEXTURE : Z;
  GRALLOC_USAGE_HW_RENDER : Z;
  GPU_DATA_BUFFER : Z;
  GRALLOC_USAGE_SW_READ_OFTEN : Z;
  GRALLOC_USAGE_SW_WRITE_OFTEN : Z;
  GRALLOC_USAGE_SW_READ_MASK : Z;
  GRALLOC_USAGE_SW_WRITE_MASK : Z;
  kDmabufSystemHeapName : string;
  kDmabufSystemUncachedHeapName : string;
  sizeof_gralloc_metadata : Z;
  BLEND_MODE_INVALID : Z
}.

Inductive SyncType := kSyncReadWrite | kSyncRead | kSyncWrite | kSyncNone.

(** Calls, with the descriptors and addresses they name. *)
Inductive os_call :=
  | CAlloc (heap : string) (size : Z)
  | CDup (fd : Z)
  | CReceive
  | CMap (length fd : Z)
  | CPhys (fd : Z)
  | CSyncWait (fence timeout : Z)
  | CSyncStart (fd : Z) (t : SyncType)
  | CSyncEnd (fd : Z) (t : SyncType)
  | CGpuAlloc (width height : Z) (format : PixelFormat) (usage : Z)
  | CGpuRegister (handle : Z)
  | CGpuLock (handle usage x y width height : Z)
  | CGpuUnlock (handle : Z)
  | CGpuFree (handle : Z).

(** The native handle of a buffer.  Of the arrays for the planes only the cells that were set are there. *)
Record gralloc_handle := mkHandle {
  numFds : Z;
  gh_fds : list Z;
  gh_magic : Z;
  gh_width : Z;
  gh_height : Z;
  gh_format : PixelFormat;
  gh_drm_format : Fourcc;
  gh_modifier : Modifier;
  gh_usage : Z;
  gh_num_planes : Z;
  gh_strides : list Z;
  gh_offsets : list Z;
  gh_sizes : list Z;
  gh_pixel_stride : Z;
  gh_layer_count : Z;
  reserved_region_size : Z;
  gh_total_size : Z;
  backing_store_id : Z;
  gh_name : string;
  gh_flags : Z;
  lock_count : Z;
  cpu_write : bool;
  gh_base : Z;
  attr_base : Z;
  gh_phys : Z;
  gh_tiling : Z
}.

Definition sMagic : Z := 0x3141592.

(** What the kernel answers to the call that was made last: a descriptor (with the table as it is), an address (with the mappings
    as they are) or a result; -1 is a failure.  [gpu_handle] is what the GPU's allocator puts into a handle,
    [gpu_address] where it maps a buffer. *)
Class GrallocOs := {
  os_open : list os_call -> gmap Z Z -> Z;
  os_map : list os_call -> gmap Z (Z * Z) -> option Z;
  os_result : list os_call -> Z;
  os_errno : list os_call -> Z;
  os_phys : list os_call -> option Z;
  has_heap : string -> bool;
  gpu_present : bool;
  gpu_handle : list os_call -> option gralloc_handle;
  gpu_address : list os_call -> Z
}.

(** A new descriptor or mapping is not one that is open; the standard descriptors are. *)
Class GrallocOsLaws `{!GrallocOs} := {
  os_open_fresh calls fds : 0 <= os_open calls fds -> 0 < os_open calls fds /\ fds !! os_open calls fds = None;
  os_map_fresh calls maps a : os_map calls maps = Some a -> 0 < a /\ maps !! a = None;
  os_map_empty calls maps fd : os_map (CMap 0 fd :: calls) maps = None;
  os_errno_pos calls : 0 < os_errno calls;
  gpu_free_succeeds handle calls : os_result (CGpuFree handle :: calls) = 0
}.

(** ** A process *)

(** What lies at the beginning of the reserved region; the values of generated types are numbers. *)
Record gralloc_metadata := mkMetadata {
  md_name : string;
  md_blendMode : Z;
  md_dataspace : Z;
  md_cta861_3 : option Z;
  md_smpte2086 : option Z
}.

(** Fresh memory is zero. *)
Definition zero_metadata : gralloc_metadata := mkMetadata "" 0 0 None None.

(** Descriptors and the files they refer to, mappings with their file and length, files, handles, the registered handles. *)
Record Process := mkProcess {
  pr_fds : gmap Z Z;
  pr_maps : gmap Z (Z * Z);
  pr_files : gmap Z gralloc_metadata;
  pr_handles : gmap Z gralloc_handle;
  bufPool : gset Z;
  pr_next : Z;
  next_buffer_id : Z;
  pr_calls : list os_call
}.

Definition p_with_fds (p : Process) (x : gmap Z Z) : Process :=
  mkProcess x (pr_maps p) (pr_files p) (pr_handles p) (bufPool p) (pr_next p) (next_buffer_id p) (pr_calls p).
Definition p_with_maps (p : Process) (x : gmap Z (Z * Z)) : Process :=
  mkProcess (pr_fds p) x (pr_files p) (pr_handles p) (bufPool p) (pr_next p) (next_buffer_id p) (pr_calls p).
Definition p_with_files (p : Process) (x : gmap Z gralloc_metadata) : Process :=
  mkProcess (pr_fds p) (pr_maps p) x (pr_handles p) (bufPool p) (pr_next p) (next_buffer_id p) (pr_calls p).
Definition p_with_handles (p : Process) (x : gmap Z gralloc_handle) : Process :=
  mkProcess (pr_fds p) (pr_maps p) (pr_files p) x (bufPool p) (pr_next p) (next_buffer_id p) (pr_calls p).
Definition p_with_pool (p : Process) (x : gset Z) : Process :=
  mkProcess (pr_fds p) (pr_maps p) (pr_files p) (pr_handles p) x (pr_next p) (next_buffer_id p) (pr_calls p).
Definition p_with_next (p : Process) (x : Z) : Process :=
  mkProcess (pr_fds p) (pr_maps p) (pr_files p) (pr_handles p) (bufPool p) x (next_buffer_id p) (pr_calls p).
Definition p_with_id (p : Process) (x : Z) : Process :=
  mkProcess (pr_fds p) (pr_maps p) (pr_files p) (pr_handles p) (bufPool p) (pr_next p) x (pr_calls p).
Definition p_with_call (p : Process) (c : os_call) : Process :=
  mkProcess (pr_fds p) (pr_maps p) (pr_files p) (pr_handles p) (bufPool p) (pr_next p) (next_buffer_id p) (c :: pr_calls p).

Abbreviation Proc := (St Process).

Definition EINVAL : Z := 22.

Definition h_with_flags (g : gralloc_handle) (x : Z) : gralloc_handle :=
  mkHandle (numFds g) (gh_fds g) (gh_magic g) (gh_width g) (gh_height g) (gh_format g) (gh_drm_format g) (gh_modifier g) (gh_usage g)
    (gh_num_planes g) (gh_strides g) (gh_offsets g) (gh_sizes g) (gh_pixel_stride g) (gh_layer_count g) (reserved_region_size g)
    (gh_total_size g) (backing_store_id g) (gh_name g) x (lock_count g) (cpu_write g) (gh_base g) (attr_base g) (gh_phys g) (gh_tiling g).
Definition h_with_gpu (g : gralloc_handle) (usage layers flags : Z) : gralloc_handle :=
  mkHandle (numFds g) (gh_fds g) (gh_magic g) (gh_width g) (gh_height g) (gh_format g) (gh_drm_format g) (gh_modifier g) usage
    (gh_num_planes g) (gh_strides g) (gh_offsets g) (gh_sizes g) (gh_pixel_stride g) layers (reserved_region_size g)
    (gh_total_size g) (backing_store_id g) (gh_name g) flags (lock_count g) (cpu_write g) (gh_base g) (attr_base g) (gh_phys g) (gh_tiling g).
Definition h_with_stride (g : gralloc_handle) (x : Z) : gralloc_handle :=
  mkHandle (numFds g) (gh_fds g) (gh_magic g) (gh_width g) (gh_height g) (gh_format g) (gh_drm_format g) (gh_modifier g) (gh_usage g)
    (gh_num_planes g) (gh_strides g) (gh_offsets g) (gh_sizes g) x (gh_layer_count g) (reserved_region_size g)
    (gh_total_size g) (backing_store_id g) (gh_name g) (gh_flags g) (lock_count g) (cpu_write g) (gh_base g) (attr_base g) (gh_phys g) (gh_tiling g).
Definition h_with_tiling (g : gralloc_handle) (x : Z) : gralloc_handle :=
  mkHandle (numFds g) (gh_fds g) (gh_magic g) (gh_width g) (gh_height g) (gh_format g) (gh_drm_format g) (gh_modifier g) (gh_usage g)
    (gh_num_planes g) (gh_strides g) (gh_offsets g) (gh_sizes g) (gh_pixel_stride g) (gh_layer_count g) (reserved_region_size g)
    (gh_total_size g) (backing_store_id g) (gh_name g) (gh_flags g) (lock_count g) (cpu_write g) (gh_base g) (attr_base g) (gh_phys g) x.
Definition h_with_phys (g : gralloc_handle) (x : Z) : gralloc_handle :=
  mkHandle (numFds g) (gh_fds g) (gh_magic g) (gh_width g) (gh_height g) (gh_format g) (gh_drm_format g) (gh_modifier g) (gh_usage g)
    (gh_num_planes g) (gh_strides g) (gh_offsets g) (gh_sizes g) (gh_pixel_stride g) (gh_layer_count g) (reserved_region_size g)
    (gh_total_size g) (backing_store_id g) (gh_name g) (gh_flags g) (lock_count g) (cpu_write g) (gh_base g) (attr_base g) x (gh_tiling g).
(** The planes, the identifier and the size of the reserved region. *)
Definition h_with_layout (g : gralloc_handle) (d : gralloc_buffer_descriptor) (m : Modifier) (id : Z) : gralloc_handle :=
  mkHandle (numFds g) (gh_fds g) (gh_magic g) (gh_width g) (gh_height g) (gh_format g) (ds_drm_format d) m (gh_usage g)
    (ds_num_planes d) (take (Z.to_nat (ds_num_planes d)) (ds_strides d)) (take (Z.to_nat (ds_num_planes d)) (ds_offsets d))
    (take (Z.to_nat (ds_num_planes d)) (ds_sizes d)) (gh_pixel_stride g) (gh_layer_count g) (ds_reserved d)
    (gh_total_size g) id (gh_name g) (gh_flags g) (lock_count g) (cpu_write g) (gh_base g) (attr_base g) (gh_phys g) (gh_tiling g).
Definition h_with_fds (g : gralloc_handle) (n : Z) (fds : list Z) (name : string) : gralloc_handle :=
  mkHandle n fds (gh_magic g) (gh_width g) (gh_height g) (gh_format g) (gh_drm_format g) (gh_modifier g) (gh_usage g)
    (gh_num_planes g) (gh_strides g) (gh_offsets g) (gh_sizes g) (gh_pixel_stride g) (gh_layer_count g) (reserved_region_size g)
    (gh_total_size g) (backing_store_id g) name (gh_flags g) (lock_count g) (cpu_write g) (gh_base g) (attr_base g) (gh_phys g) (gh_tiling g).
(** What belongs to the process that has the handle. *)
Definition h_with_local (g : gralloc_handle) (locks : Z) (write : bool) (base attr : Z) : gralloc_handle :=
  mkHandle (numFds g) (gh_fds g) (gh_magic g) (gh_width g) (gh_height g) (gh_format g) (gh_drm_format g) (gh_modifier g) (gh_usage g)
    (gh_num_planes g) (gh_strides g) (gh_offsets g) (gh_sizes g) (gh_pixel_stride g) (gh_layer_count g) (reserved_region_size g)
    (gh_total_size g) (backing_store_id g) (gh_name g) (gh_flags g) locks write base attr (gh_phys g) (gh_tiling g).

(** A C string in a buffer of [n + 1] bytes: it ends at the first zero byte. *)
Fixpoint c_prefix (n : nat) (s : string) : string :=
  match n, s with
  | S n', String c s' => if Ascii.eqb c Ascii.zero then "" else String c (c_prefix n' s')
  | _, _ => ""
  end%string.

Section Gralloc.
Context `{!GrallocUsage, !GrallocOs}.
Variable board : BoardConfig.

(** ** Primitives *)

Definition p_call (c : os_call) : Proc Z := modify (fun p => p_with_call p c) ;; gets (fun p => os_result (pr_calls p)).

(** A failure in the way the code returns it. *)
Definition neg_errno : Proc Z := gets (fun p => - os_errno (pr_calls p)).

(** A descriptor of [file], or -1. *)
Definition open_file (c : os_call) (file : Z) : Proc Z :=
  modify (fun p => p_with_call p c) ;;
  fd ← gets (fun p => os_open (pr_calls p) (pr_fds p));
  if fd <? 0 then mret (-1) else modify (fun p => p_with_fds p (<[fd := file]> (pr_fds p))) ;; mret fd.

(** [BufferAllocator::Alloc]: a descriptor of a new file. *)
Definition Alloc (heap : string) (size : Z) : Proc Z :=
  file ← gets pr_next;
  modify (fun p => p_with_files (p_with_next p (file + 1)) (<[file := zero_metadata]> (pr_files p))) ;;
  open_file (CAlloc heap size) file.

Definition dup_fd (fd : Z) : Proc Z :=
  fds ← gets pr_fds;
  match fds !! fd with Some file => open_file (CDup fd) file | None => mret (-1) end.

Definition close_fd (fd : Z) : Proc unit := modify (fun p => p_with_fds p (delete fd (pr_fds p))).

(** No address is MAP_FAILED. *)
Definition mmap (length fd : Z) : Proc (option Z) :=
  modify (fun p => p_with_call p (CMap length fd)) ;;
  fds ← gets pr_fds;
  a ← gets (fun p => os_map (pr_calls p) (pr_maps p));
  match fds !! fd, a with
  | Some file, Some a => modify (fun p => p_with_maps p (<[a := (file, length)]> (pr_maps p))) ;; mret (Some a)
  | _, _ => mret None
  end.

Definition munmap (a : Z) : Proc unit := modify (fun p => p_with_maps p (delete a (pr_maps p))).

(** A handle; one that was deleted is a dangling pointer. *)
Definition handle_at (h : Z) : Proc gralloc_handle := handles ← gets pr_handles; of_option (handles !! h).
Definition set_handle (h : Z) (f : gralloc_handle -> gralloc_handle) : Proc unit :=
  modify (fun p => p_with_handles p (alter f h (pr_handles p))).
Definition new_handle (g : gralloc_handle) : Proc Z :=
  h ← gets pr_next; modify (fun p => p_with_handles (p_with_next p (h + 1)) (<[h := g]> (pr_handles p))) ;; mret h.

Definition owned_fds (g : gralloc_handle) : list Z := take (Z.to_nat (numFds g)) (gh_fds g).

(** [native_handle_close] and [native_handle_delete]; more descriptors than the handle has cells for would be the other fields. *)
Definition native_handle_close (h : Z) : Proc unit :=
  g ← handle_at h;
  if (0 <=? numFds g) && (numFds g <=? Z.of_nat (length (gh_fds g))) then for_each (owned_fds g) (fun fd => if fd <? 0 then mret tt else close_fd fd)
  else ub.
Definition native_handle_delete (h : Z) : Proc unit := modify (fun p => p_with_handles p (delete h (pr_handles p))).

(** [gralloc_convert_handle]: no handle is 0. *)
Definition gralloc_convert_handle (h : Z) : Proc (option gralloc_handle) :=
  if h =? 0 then mret None
  else g ← handle_at h; mret (if gh_magic g =? sMagic then Some g else None).

Definition gralloc_sync_wait (fence : Z) (close_fence : bool) : Proc Z :=
  if fence <? 0 then mret 0
  else
    err ← p_call (CSyncWait fence 1000);
    err ← (if err <? 0 then p_call (CSyncWait fence (-1)) else mret err);
    if err <? 0 then neg_errno
    else if negb close_fence then mret 0
    else
      fds ← gets pr_fds;
      match fds !! fence with Some _ => close_fd fence ;; mret 0 | None => neg_errno end.

(** ** Heaps (dma_buf_heaps.cpp) *)

Inductive dma_buf_heap := system | system_uncached | physically_contiguous | physically_contiguous_uncached | protected_memory.

Definition get_dma_buf_heap_name (heap : dma_buf_heap) : string :=
  match heap with
  | system => kDmabufSystemHeapName
  | system_uncached => kDmabufSystemUncachedHeapName
  | physically_contiguous => "reserved"
  | physically_contiguous_uncached => "reserved-uncached"
  | protected_memory => "secure"
  end.

Definition pick_dma_buf_heap (usage : Z) : dma_buf_heap :=
  if has usage GRALLOC_USAGE_PROTECTED then protected_memory
  else if has usage GRALLOC_USAGE_HW_VIDEO_ENCODER || has usage GRALLOC_USAGE_HW_FB || has usage GRALLOC_USAGE_HW_COMPOSER ||
          has usage GRALLOC_USAGE_PRIVATE_3 || has usage GRALLOC_USAGE_HW_CAMERA_WRITE || has usage GRALLOC_USAGE_HW_TEXTURE ||
          has usage GRALLOC_USAGE_HW_RENDER || has usage GPU_DATA_BUFFER then
    if has usage (Z.lor GRALLOC_USAGE_SW_READ_OFTEN GRALLOC_USAGE_SW_WRITE_OFTEN) then physically_contiguous
    else physically_contiguous_uncached
  else if Z.land usage GRALLOC_USAGE_SW_READ_MASK =? GRALLOC_USAGE_SW_READ_OFTEN then system
  else system_uncached.

Definition allocator_allocate_system_memory (size : Z) : Proc Z := Alloc kDmabufSystemHeapName size.

Definition make_gralloc_handle (shared_fd : Z) (d : gralloc_buffer_descriptor) (flags : Z) : gralloc_handle :=
  mkHandle 1 [shared_fd; 0; 0; 0; 0] sMagic (ds_width d) (ds_height d) (ds_format d) (OtherFourcc 0) DRM_FORMAT_MOD_LINEAR (ds_usage d)
    0 [] [] [] (ds_pixel_stride d) (ds_layer_count d) 0 (ds_total_size d) 0 "" flags 0 false 0 0 0 0.

(** The heap and the flags that tell what kind of memory it is. *)
Definition descriptor_heap (d : gralloc_buffer_descriptor) : dma_buf_heap :=
  if bool_decide (ds_name d = "MediaCodec.release"%string) then physically_contiguous else pick_dma_buf_heap (ds_usage d).
Definition heap_flags (heap : dma_buf_heap) (flags : Z) : Z :=
  let flags := match heap with system | system_uncached => flags | _ => Z.lor flags NXP_GRALLOC_FLAGS_CONTIGUOUS end in
  match heap with system_uncached | physically_contiguous_uncached => flags | _ => Z.lor flags NXP_GRALLOC_FLAGS_CACHED end.

(** A handle, or 0. *)
Definition allocator_allocate (d : gralloc_buffer_descriptor) : Proc Z :=
  let heap := descriptor_heap d in
  fd ← Alloc (get_dma_buf_heap_name heap) (ds_total_size d);
  if fd <? 0 then mret 0 else new_handle (make_gralloc_handle fd d (heap_flags heap (ds_flags d))).

Definition make_sync_type (read write : bool) : SyncType :=
  if read && write then kSyncReadWrite else if read then kSyncRead else if write then kSyncWrite else kSyncNone.

Definition allocator_sync_start (g : gralloc_handle) (read write : bool) : Proc Z :=
  fd ← of_option (gh_fds g !! 0%nat); p_call (CSyncStart (⟦fd⟧u 32) (make_sync_type read write)).
Definition allocator_sync_end (g : gralloc_handle) (read write : bool) : Proc Z :=
  fd ← of_option (gh_fds g !! 0%nat); p_call (CSyncEnd (⟦fd⟧u 32) (make_sync_type read write)).

Definition allocator_map (h : Z) : Proc Z :=
  g ← handle_at h;
  fd ← of_option (gh_fds g !! 0%nat);
  mapping ← mmap (gh_total_size g) fd;
  match mapping with
  | None => neg_errno
  | Some a => set_handle h (fun g => h_with_local g (lock_count g) (cpu_write g) a (attr_base g)) ;; mret 0
  end.

Definition allocator_unmap (h : Z) : Proc unit :=
  g ← handle_at h; munmap (gh_base g) ;; set_handle h (fun g => h_with_local g 0 false 0 (attr_base g)).

(** The device that is asked is opened and closed again. *)
Definition allocator_get_physical_address (h : Z) : Proc (option Z) :=
  g ← handle_at h;
  if negb (has (gh_flags g) NXP_GRALLOC_FLAGS_CONTIGUOUS) then mret None
  else
    fd ← of_option (gh_fds g !! 0%nat);
    if fd <? 0 then mret None
    else modify (fun p => p_with_call p (CPhys fd)) ;; gets (fun p => os_phys (pr_calls p)).

(** It is asked for protected memory only, so the answer that is kept from the first time is the same. *)
Definition allocator_supports_protected_memory (usage : Z) : bool := has_heap (get_dma_buf_heap_name (pick_dma_buf_heap usage)).

(** ** The driver (gralloc_driver.cpp) *)

Definition is_supported (d : gralloc_buffer_descriptor) : bool := negb (has (ds_usage d) 0xFFFE00000000).

Definition allocate_from_gpu_gralloc (pixel_format : PixelFormat) (usage flags : Z) : bool :=
  match getPixleFormatInfo board pixel_format with
  | None => false
  | Some info =>
      if negb gpu_present then false
      else
        let gpu := is_rgb info && negb (has usage (Z.lor (Z.lor (Z.lor GRALLOC_USAGE_HW_FB USAGE_PADDING_BUFFER) GRALLOC_USAGE_PROTECTED)
                                                        GRALLOC_USAGE_HW_VIDEO_ENCODER)) in
        let gpu := if bool_decide (pixel_format = RGBA_10101010) then false else gpu in
        if has usage GRALLOC_USAGE_HW_FB && has flags NXP_GRALLOC_FLAGS_TILED_FRAMEBUFFER then true else gpu
  end.

(** The result, the descriptor with its planes, and the handle where one was asked for. *)
Definition dmabuf_allocate (d : gralloc_buffer_descriptor) (want : bool) : Proc (Z * gralloc_buffer_descriptor * Z) :=
  match drv_pixel_width_height_alignment board d with
  | None => mret (-1, d, 0)
  | Some (aligned_width, aligned_height) =>
      r ← of_option (drv_buffer_info_calculation board d aligned_width aligned_height);
      let d := r.2 in
      if negb want then mret (0, d, 0)
      else
        hnd ← allocator_allocate d;
        if hnd =? 0 then mret (-1, d, 0)
        else set_handle hnd (fun g => h_with_stride g aligned_width) ;; mret (0, d, hnd)
  end.

(** [alloc] of the GPU's allocator: a handle of its own with a descriptor it has opened, and its result. *)
Definition gpu_alloc (d : gralloc_buffer_descriptor) : Proc (Z * Z) :=
  file ← gets pr_next;
  modify (fun p => p_with_files (p_with_next p (file + 1)) (<[file := zero_metadata]> (pr_files p))) ;;
  fd ← open_file (CGpuAlloc (⟦ds_width d⟧s 32) (⟦ds_height d⟧s 32) (ds_format d) (⟦ds_usage d⟧s 32)) file;
  g ← gets (fun p => gpu_handle (pr_calls p));
  match g with
  | Some g =>
      if fd <? 0 then mret (-1, 0) else h ← new_handle (h_with_fds g 1 [fd; 0; 0; 0; 0] (gh_name g)); mret (0, h)
  | None => (if fd <? 0 then mret tt else close_fd fd) ;; mret (-1, 0)
  end.

(** [free] of the GPU's allocator: it closes its descriptor and deletes the handle. *)
Definition gpu_free (h : Z) : Proc Z :=
  ret ← p_call (CGpuFree h);
  if ret =? 0 then
    g ← handle_at h; fd ← of_option (gh_fds g !! 0%nat); close_fd fd ;; native_handle_delete h ;; mret ret
  else mret ret.

Definition DRM_VIV_GEM_TILING_TILED : Z := 0x02.
Definition FRONT_BUFFER : Z := 0x100000000.

(** The memory of a buffer: from the GPU's allocator or from a heap. *)
Definition allocate_memory (d : gralloc_buffer_descriptor) : Proc (Z * gralloc_buffer_descriptor * Z) :=
  if allocate_from_gpu_gralloc (ds_format d) (ds_usage d) (ds_flags d) then
    r ← gpu_alloc d;
    let '(ret, h) := r in
    if (ret =? 0) && negb (h =? 0) then
      set_handle h (fun g =>
        let usage := Z.lor (gh_usage g) (Z.land (ds_usage d) FRONT_BUFFER) in
        let flags := Z.lor (ds_flags d) NXP_GRALLOC_FLAGS_FROM_GPU in
        h_with_gpu g usage (ds_layer_count d)
          (if has usage GRALLOC_USAGE_HW_FB || has usage GRALLOC_USAGE_HW_COMPOSER then Z.lor flags NXP_GRALLOC_FLAGS_CONTIGUOUS else flags)) ;;
      c ← dmabuf_allocate d false;
      mret (ret, c.1.2, h)
    else mret (ret, d, h)
  else
    r ← dmabuf_allocate d true;
    let '(ret, d', h) := r in
    if ret =? 0 then
      set_handle h (fun g =>
        if has (gh_flags g) NXP_GRALLOC_FLAGS_DISPLAY_UNDERRUN && has (gh_usage g) USAGE_GPU_TILED_VIV && has (gh_usage g) GRALLOC_USAGE_HW_FB
        then h_with_tiling g DRM_VIV_GEM_TILING_TILED else g) ;;
      mret r
    else mret r.

Definition format_modifier (d : gralloc_buffer_descriptor) : Modifier :=
  if has (ds_usage d) USAGE_GPU_TS_VIV && has (ds_flags d) NXP_GRALLOC_FLAGS_TILED_FRAMEBUFFER then DRM_FORMAT_MOD_VIVANTE_SUPER_TILED_FC
  else if has (ds_usage d) USAGE_GPU_TILED_VIV then
    if has (ds_flags d) NXP_GRALLOC_FLAGS_DISPLAY_UNDERRUN then DRM_FORMAT_MOD_VIVANTE_TILED else DRM_FORMAT_MOD_VIVANTE_SUPER_TILED
  else ds_modifier d.

Definition create_reserved_region (size : Z) : Proc Z := allocator_allocate_system_memory size.

Definition BUFFER_NAME_MAX_SIZE : nat := 64.

(** A new buffer: the result, the descriptor and the handle.  Without a reserved region the cell of its descriptor is that of the
    buffer. *)
Definition driver_allocate (d : gralloc_buffer_descriptor) : Proc (Z * gralloc_buffer_descriptor * Z) :=
  r ← allocate_memory d;
  let '(ret, d, h) := r in
  if negb (ret =? 0) || (h =? 0) then mret (ret, d, h)
  else
    g ← handle_at h;
    (if has (gh_flags g) NXP_GRALLOC_FLAGS_CONTIGUOUS then
       phys ← allocator_get_physical_address h;
       match phys with Some a => set_handle h (fun g => h_with_phys g a) | None => mret tt end
     else mret tt) ;;
    id ← gets next_buffer_id;
    modify (fun p => p_with_id p (⟦id + 1⟧u 32)) ;;
    set_handle h (fun g => h_with_layout g d (format_modifier d) id) ;;
    if 0 <? ds_reserved d then
      reserved_region_fd ← create_reserved_region (ds_reserved d);
      if reserved_region_fd <? 0 then mret (reserved_region_fd, d, h)
      else
        mapping ← mmap (ds_reserved d) reserved_region_fd;
        match mapping with
        | None => e ← neg_errno; mret (e, d, h)
        | Some a =>
            set_handle h (fun g => h_with_local g (lock_count g) (cpu_write g) (gh_base g) a) ;;
            set_handle h (fun g => h_with_fds g 2 (<[1%nat := reserved_region_fd]> (gh_fds g)) (c_prefix (BUFFER_NAME_MAX_SIZE - 1) (ds_name d))) ;;
            mret (0, d, h)
        end
    else
      set_handle h (fun g => h_with_fds g 1 (<[0%nat := -1]> (gh_fds g)) (c_prefix (BUFFER_NAME_MAX_SIZE - 1) (ds_name d))) ;;
      mret (0, d, h).

(** The descriptor of the reserved region is the last one. *)
Definition last_fd (g : gralloc_handle) : option Z := arr_get (gh_fds g) (numFds g - 1).

Definition driver_retain (h : Z) : Proc Z :=
  hnd ← gralloc_convert_handle h;
  match hnd with
  | None => mret (- EINVAL)
  | Some g =>
      set_handle h (fun g => h_with_local g 0 false 0 0) ;;
      ret ← (if has (gh_flags g) NXP_GRALLOC_FLAGS_FROM_GPU then p_call (CGpuRegister h) else mret 0);
      if negb (ret =? 0) then mret (- EINVAL)
      else
        fd ← of_option (last_fd g);
        mapping ← mmap (reserved_region_size g) fd;
        match mapping with
        | None => neg_errno
        | Some a => set_handle h (fun g => h_with_local g (lock_count g) (cpu_write g) (gh_base g) a) ;; mret 0
        end
  end.

Definition driver_release (h : Z) : Proc Z :=
  hnd ← gralloc_convert_handle h;
  match hnd with
  | None => mret (- EINVAL)
  | Some g =>
      (if negb (attr_base g =? 0) then munmap (attr_base g) else mret tt) ;;
      if has (gh_flags g) NXP_GRALLOC_FLAGS_FROM_GPU then
        fd ← of_option (last_fd g);
        (if 0 <? fd then close_fd fd else mret tt) ;;
        gpu_free h
      else
        (if negb (gh_base g =? 0) then allocator_unmap h else mret tt) ;;
        native_handle_close h ;;
        native_handle_delete h ;;
        mret 0
  end.

(** The result and the address that is handed out. *)
Definition driver_lock (h acquire_fence : Z) (close_acquire_fence : bool) (x y width height usage : Z) : Proc (Z * Z) :=
  hnd ← gralloc_convert_handle h;
  match hnd with
  | None => mret (- EINVAL, 0)
  | Some g =>
      let write := has usage GRALLOC_USAGE_SW_WRITE_MASK in
      if cpu_write g && write then
        set_handle h (fun g => h_with_local g (⟦lock_count g + 1⟧u 32) (cpu_write g) (gh_base g) (attr_base g)) ;; mret (0, gh_base g)
      else
        ret ← gralloc_sync_wait acquire_fence close_acquire_fence;
        if negb (ret =? 0) then mret (ret, 0)
        else
          fd ← of_option (gh_fds g !! 0%nat);
          r ← (if has (gh_flags g) NXP_GRALLOC_FLAGS_FROM_GPU then
                 ret ← p_call (CGpuLock h (⟦usage⟧s 32) (⟦x⟧s 32) (⟦y⟧s 32) (⟦width⟧s 32) (⟦height⟧s 32));
                 vaddr ← gets (fun p => gpu_address (pr_calls p));
                 mret (ret, vaddr)
               else if 0 <=? fd then
                 ret ← (if gh_base g =? 0 then allocator_map h else mret 0);
                 if negb (ret =? 0) then mret (- EINVAL, 0) else g ← handle_at h; mret (0, gh_base g)
               else mret (0, 0));
          let '(ret, vaddr) := r in
          if negb (ret =? 0) then mret (ret, 0)
          else
            set_handle h (fun g => h_with_local g (⟦lock_count g + 1⟧u 32) write (gh_base g) (attr_base g)) ;;
            (if has usage (Z.lor GRALLOC_USAGE_SW_READ_MASK GRALLOC_USAGE_SW_WRITE_MASK)
             then allocator_sync_start g (has usage GRALLOC_USAGE_SW_READ_MASK) write else mret 0) ;;
            mret (0, vaddr)
  end.

(** The result; the fence that is handed out is always -1. *)
Definition driver_unlock (h : Z) : Proc Z :=
  hnd ← gralloc_convert_handle h;
  match hnd with
  | None => mret (- EINVAL)
  | Some g =>
      if lock_count g =? 0 then mret (- EINVAL)
      else
        ret ← (if has (gh_flags g) NXP_GRALLOC_FLAGS_FROM_GPU then p_call (CGpuUnlock h)
               else if cpu_write g then allocator_sync_end g false true else mret 0);
        if negb (ret =? 0) then mret ret
        else
          set_handle h (fun g =>
            let locks := lock_count g - 1 in
            h_with_local g locks (if locks =? 0 then false else cpu_write g) (gh_base g) (attr_base g)) ;;
          mret 0
  end.

(** [invalidate] and [flush]. *)
Definition driver_sync (sync : gralloc_handle -> Proc Z) (h : Z) : Proc Z :=
  hnd ← gralloc_convert_handle h;
  match hnd with
  | None => mret (- EINVAL)
  | Some g =>
      if lock_count g =? 0 then mret (- EINVAL)
      else if has (gh_flags g) NXP_GRALLOC_FLAGS_FROM_GPU then mret 0 else sync g ;; mret 0
  end.
Definition driver_invalidate (h : Z) : Proc Z := driver_sync (fun g => allocator_sync_start g true false) h.
Definition driver_flush (h : Z) : Proc Z := driver_sync (fun g => allocator_sync_end g false true) h.

(** The address and the size of the region. *)
Definition get_reserved_region (h : Z) : Proc (option (Z * Z)) :=
  hnd ← gralloc_convert_handle h;
  match hnd with
  | None => mret None
  | Some g => fd ← of_option (last_fd g); if fd <=? 0 then mret None else mret (Some (attr_base g, reserved_region_size g))
  end.

(** Memory the metadata is in: it must be mapped as far as the structure goes. *)
Definition metadata_file (a : Z) : Proc Z :=
  maps ← gets pr_maps;
  m ← of_option (maps !! a);
  if sizeof_gralloc_metadata <=? m.2 then mret m.1 else ub.
Definition read_metadata (a : Z) : Proc gralloc_metadata := file ← metadata_file a; files ← gets pr_files; of_option (files !! file).
Definition write_metadata (a : Z) (f : gralloc_metadata -> gralloc_metadata) : Proc unit :=
  file ← metadata_file a; modify (fun p => p_with_files p (alter f file (pr_files p))).

(** ** The allocator service (NxpAllocator.cpp) *)

Inductive AllocationStatus := OK | BAD_DESCRIPTOR | NO_RESOURCES | UNSUPPORTED.
Definition is_ok (s : AllocationStatus) : bool := match s with OK => true | _ => false end.

(** [BufferDescriptorInfo] of the mapper 4.0 interface. *)
Record BufferDescriptorInfo := mkDescInfo {
  bd_name : string;
  bd_width : Z;
  bd_height : Z;
  bd_layerCount : Z;
  bd_format : PixelFormat;
  bd_usage : Z;
  bd_reservedSize : Z
}.

Definition convertToBufferFlags (usage flags : Z) : Z :=
  Z.lor flags (if has usage GRALLOC_USAGE_HW_FB then NXP_GRALLOC_FLAGS_FRAMEBUFFER else 0).

(** Nothing on a failure: the callers do not look at the descriptor then. *)
Definition convertToHalDescriptor (d : BufferDescriptorInfo) : option gralloc_buffer_descriptor :=
  if 1 <? bd_layerCount d then None
  else
    info ← getPixleFormatInfo board (bd_format d);
    let flags := if FRAMEBUFFER_WITH_TILED_COMPRESSION board then NXP_GRALLOC_FLAGS_TILED_FRAMEBUFFER else 0 in
    let flags := if WORKAROUND_DISPLAY_UNDERRUN board then Z.lor flags NXP_GRALLOC_FLAGS_DISPLAY_UNDERRUN else flags in
    if bool_decide (fi_id info = R_8) && negb (has (bd_usage d) GRALLOC_USAGE_PRIVATE_3) then None
    else Some (mkDesc (bd_width d) (bd_height d) (bd_format d) (bd_layerCount d) (bd_usage d) (bd_reservedSize d) (bd_name d) (fourcc info)
                 (fi_modifier info) (convertToBufferFlags (bd_usage d) flags) 0 0 0 [0; 0; 0; 0] [0; 0; 0; 0] [0; 0; 0; 0]).

Definition with_reserved (d : gralloc_buffer_descriptor) (x : Z) : gralloc_buffer_descriptor :=
  mkDesc (ds_width d) (ds_height d) (ds_format d) (ds_layer_count d) (ds_usage d) x (ds_name d) (ds_drm_format d) (ds_modifier d) (ds_flags d)
    (ds_total_size d) (ds_pixel_stride d) (ds_num_planes d) (ds_strides d) (ds_offsets d) (ds_sizes d).

Definition GRALLOC_METADATA_MAX_NAME_SIZE : nat := 1024.

Definition initializeMetadata (memHandle : option Z) (d : gralloc_buffer_descriptor) (dataspace : Z) : Proc AllocationStatus :=
  match memHandle with
  | None => mret NO_RESOURCES
  | Some h =>
      region ← get_reserved_region h;
      match region with
      | None => mret NO_RESOURCES
      | Some (addr, _) =>
          write_metadata addr (fun m =>
            mkMetadata (c_prefix (GRALLOC_METADATA_MAX_NAME_SIZE - 1) (ds_name d)) BLEND_MODE_INVALID dataspace (md_cta861_3 m) (md_smpte2086 m)) ;;
          mret OK
      end
  end.

(** A null handle is passed over. *)
Definition releaseBufferAndHandle (h : Z) : Proc unit := if h =? 0 then mret tt else driver_release h ;; mret tt.

(** One buffer: its stride and its handle.  A success without a handle would leave the pointer unset. *)
Definition allocate_buffer (descriptor : BufferDescriptorInfo) (dataspace : Z) : Proc (AllocationStatus * option (Z * Z)) :=
  match convertToHalDescriptor descriptor with
  | None => mret (UNSUPPORTED, None)
  | Some d =>
      let d := with_reserved d (⟦ds_reserved d + sizeof_gralloc_metadata⟧u 64) in
      if negb (is_supported d) then mret (UNSUPPORTED, None)
      else
        r ← driver_allocate d;
        let '(ret, d, h) := r in
        if negb (ret =? 0) then mret (NO_RESOURCES, None)
        else if h =? 0 then ub
        else
          memHandle ← gralloc_convert_handle h;
          status ← initializeMetadata (match memHandle with Some _ => Some h | None => None end) d dataspace;
          if negb (is_ok status) then releaseBufferAndHandle h ;; mret (status, None)
          else g ← handle_at h; mret (OK, Some (⟦gh_pixel_stride g⟧s 32, h))
  end.

(** [dupToAidl]: the handle as a parcel carries it, with descriptors of its own. *)
Fixpoint dup_fds (fds : list Z) : Proc (list Z) :=
  match fds with [] => mret [] | fd :: fds' => x ← dup_fd fd; l ← dup_fds fds'; mret (x :: l) end.
Definition dupToAidl (h : Z) : Proc gralloc_handle :=
  g ← handle_at h; fds ← dup_fds (owned_fds g); mret (h_with_fds g (numFds g) (fds ++ drop (length fds) (gh_fds g)) (gh_name g)).

(** The first loop: all buffers, or those before the one that fails are released; the stride is that of the last. *)
Fixpoint allocate_all (descriptor : BufferDescriptorInfo) (dataspace : Z) (n : nat) (handles : list Z) (stride : Z) :
  Proc (AllocationStatus * (list Z * Z)) :=
  match n with
  | O => mret (OK, (handles, stride))
  | S n' =>
      r ← allocate_buffer descriptor dataspace;
      match r with
      | (OK, Some (stride, h)) => allocate_all descriptor dataspace n' (handles ++ [h]) stride
      | (status, _) => for_each handles releaseBufferAndHandle ;; mret (status, (handles, stride))
      end
  end.

(** The second one: parcels of the buffers. *)
Fixpoint hand_out (handles : list Z) : Proc (list gralloc_handle) :=
  match handles with
  | [] => mret []
  | h :: handles' => b ← dupToAidl h; releaseBufferAndHandle h ;; l ← hand_out handles'; mret (b :: l)
  end.

(** [allocate] with a descriptor that was decoded, and [allocate2] past its options.  A negative count is too many handles. *)
Definition allocate_buffers (descriptor : BufferDescriptorInfo) (dataspace count : Z) : Proc (AllocationStatus * list gralloc_handle * Z) :=
  if count <? 0 then ub
  else
    r ← allocate_all descriptor dataspace (Z.to_nat count) [] 0;
    match r with
    | (OK, (handles, stride)) => buffers ← hand_out handles; mret (OK, buffers, stride)
    | (status, (_, stride)) => mret (status, [], stride)
    end.

Definition STANDARD_METADATA_DATASPACE : string := "android.hardware.graphics.common.Dataspace".

(** [UNKNOWN] is 0. *)
Fixpoint initial_dataspace (options : list (string * Z)) (d : Z) : option Z :=
  match options with
  | [] => Some d
  | (name, value) :: options' => if bool_decide (name = STANDARD_METADATA_DATASPACE) then initial_dataspace options' (⟦value⟧s 32) else None
  end.

Definition allocate2 (descriptor : BufferDescriptorInfo) (options : list (string * Z)) (count : Z) :
  Proc (AllocationStatus * list gralloc_handle * Z) :=
  match initial_dataspace options 0 with
  | None => mret (UNSUPPORTED, [], 0)
  | Some dataspace =>
      allocate_buffers (mkDescInfo (bd_name descriptor) (⟦bd_width descriptor⟧u 32) (⟦bd_height descriptor⟧u 32) (⟦bd_layerCount descriptor⟧u 32)
                          (bd_format descriptor) (⟦bd_usage descriptor⟧u 64) 0) dataspace count
  end.

Definition isSupported (descriptor : BufferDescriptorInfo) (options : list (string * Z)) : bool :=
  match initial_dataspace options 0 with
  | None => false
  | Some _ =>
      match convertToHalDescriptor (mkDescInfo (bd_name descriptor) (⟦bd_width descriptor⟧u 32) (⟦bd_height descriptor⟧u 32)
                                      (⟦bd_layerCount descriptor⟧u 32) (bd_format descriptor) (⟦bd_usage descriptor⟧u 64) 0) with
      | None => false
      | Some d => if has (ds_usage d) GRALLOC_USAGE_PROTECTED && negb (allocator_supports_protected_memory (ds_usage d)) then false else is_supported d
      end
  end.

(** ** The mapper (Mapper.cpp) *)

Inductive AIMapper_Error := ERROR_NONE | ERROR_BAD_BUFFER | ERROR_BAD_VALUE | ERROR_NO_RESOURCES | ERROR_UNSUPPORTED.

(** [native_handle_clone]: all descriptors are duplicated, or none. *)
Fixpoint clone_fds (fds : list Z) (made : list Z) : Proc (option (list Z)) :=
  match fds with
  | [] => mret (Some made)
  | fd :: fds' =>
      x ← dup_fd fd;
      if x <? 0 then for_each made close_fd ;; mret None else clone_fds fds' (made ++ [x])
  end.
Definition native_handle_clone (raw : gralloc_handle) : Proc (option Z) :=
  if (0 <=? numFds raw) && (numFds raw <=? Z.of_nat (length (gh_fds raw))) then
    fds ← clone_fds (owned_fds raw) [];
    match fds with
    | None => mret None
    | Some fds => h ← new_handle (h_with_fds raw (numFds raw) (fds ++ drop (length fds) (gh_fds raw)) (gh_name raw)); mret (Some h)
    end
  else ub.

Definition importBuffer (raw : gralloc_handle) : Proc (AIMapper_Error * Z) :=
  if numFds raw =? 0 then mret (ERROR_BAD_BUFFER, 0)
  else
    imported ← native_handle_clone raw;
    match imported with
    | None => mret (ERROR_NO_RESOURCES, 0)
    | Some h =>
        ret ← driver_retain h;
        if negb (ret =? 0) then native_handle_close h ;; native_handle_delete h ;; mret (ERROR_NO_RESOURCES, 0)
        else modify (fun p => p_with_pool p ({[h]} ∪ bufPool p)) ;; mret (ERROR_NONE, h)
    end.

Definition freeBuffer (h : Z) : Proc AIMapper_Error :=
  if h =? 0 then mret ERROR_BAD_BUFFER
  else
    pool ← gets bufPool;
    if negb (bool_decide (h ∈ pool)) then mret ERROR_BAD_BUFFER
    else
      modify (fun p => p_with_pool p (bufPool p ∖ {[h]})) ;;
      ret ← driver_release h;
      mret (if negb (ret =? 0) then ERROR_BAD_BUFFER else ERROR_NONE).

Record ARect := mkARect { ar_left : Z; ar_top : Z; ar_right : Z; ar_bottom : Z }.

(** The region as the driver gets it; all zeros stand for the whole buffer.  The comparisons with the size are unsigned. *)
Definition access_region (region : ARect) (g : gralloc_handle) : option (Z * Z * Z * Z) :=
  if (ar_left region =? 0) && (ar_top region =? 0) && (ar_right region =? 0) && (ar_bottom region =? 0) then
    Some (0, 0, gh_width g, gh_height g)
  else if (ar_left region <? 0) || (ar_top region <? 0) || (ar_right region <=? ar_left region) || (ar_bottom region <=? ar_top region) then None
  else if gh_width g <? ⟦ar_right region⟧u 32 then None
  else if gh_height g <? ⟦ar_bottom region⟧u 32 then None
  else Some (ar_left region, ar_top region, ar_right region - ar_left region, ar_bottom region - ar_top region).

(** The fence is closed in all cases. *)
Definition mapper_lock (h cpuUsage : Z) (region : ARect) (acquireFence : Z) : Proc (AIMapper_Error * Z) :=
  r ← (if h =? 0 then mret (ERROR_BAD_BUFFER, 0)
       else if cpuUsage =? 0 then mret (ERROR_BAD_VALUE, 0)
       else
         memHandle ← gralloc_convert_handle h;
         match memHandle with
         | None => mret (ERROR_BAD_VALUE, 0)
         | Some g =>
             match access_region region g with
             | None => mret (ERROR_BAD_VALUE, 0)
             | Some (x, y, w, hh) =>
                 r ← driver_lock h acquireFence false x y w hh cpuUsage;
                 mret (if negb (r.1 =? 0) then (ERROR_BAD_VALUE, 0) else (ERROR_NONE, r.2))
             end
         end);
  (if acquireFence <? 0 then mret tt else close_fd acquireFence) ;;
  mret r.

Definition mapper_unlock (h : Z) : Proc AIMapper_Error :=
  if h =? 0 then mret ERROR_BAD_BUFFER
  else
    pool ← gets bufPool;
    if negb (bool_decide (h ∈ pool)) then mret ERROR_BAD_BUFFER
    else ret ← driver_unlock h; mret (if negb (ret =? 0) then ERROR_BAD_BUFFER else ERROR_NONE).

Definition flushLockedBuffer (h : Z) : Proc AIMapper_Error :=
  if h =? 0 then mret ERROR_BAD_BUFFER else ret ← driver_flush h; mret (if negb (ret =? 0) then ERROR_BAD_BUFFER else ERROR_NONE).
Definition rereadLockedBuffer (h : Z) : Proc AIMapper_Error :=
  if h =? 0 then mret ERROR_BAD_BUFFER else ret ← driver_invalidate h; mret (if negb (ret =? 0) then ERROR_BAD_BUFFER else ERROR_NONE).

(** The metadata at the beginning of the region. *)
Definition getMetadata (h : Z) : Proc (option Z) := region ← get_reserved_region h; mret (fst <$> region).

(** The types of metadata. *)
Inductive StandardMetadataType :=
  | BUFFER_ID | NAME | WIDTH | HEIGHT | LAYER_COUNT | PIXEL_FORMAT_REQUESTED | PIXEL_FORMAT_FOURCC | PIXEL_FORMAT_MODIFIER | USAGE
  | ALLOCATION_SIZE | STRIDE | PROTECTED_CONTENT | COMPRESSION | INTERLACED | CHROMA_SITING | PLANE_LAYOUTS
  | CROP | DATASPACE | BLEND_MODE | SMPTE2086 | CTA861_3
  | OtherMetadata (code : Z).

Inductive metadata_value :=
  | VNumber (z : Z) | VText (s : string) | VFormat (f : PixelFormat) | VFourcc (f : Fourcc) | VModifier (m : Modifier)
  | VRects (l : list (Z * Z * Z * Z)) | VPlanes (l : list PlaneLayout) | VCompression_None | VInterlaced_None | VChromaSiting_None | VNothing.

(** The planes of a buffer, from the table and the handle; a cell that was not set holds anything. *)
Fixpoint place_planes (g : gralloc_handle) (plane : nat) (es : list PlaneLayout) : option (list PlaneLayout) :=
  match es with
  | [] => Some []
  | e :: es' =>
      offset ← gh_offsets g !! plane; stride ← gh_strides g !! plane; total ← gh_sizes g !! plane; rest ← place_planes g (S plane) es';
      Some (mkPlane (components e) (sampleIncrementInBits e) (horizontalSubsampling e) (verticalSubsampling e) offset stride total
              (gh_width g / horizontalSubsampling e) (gh_height g / verticalSubsampling e) :: rest)
  end.

Definition getStandardMetadata (h : Z) (type : StandardMetadataType) : Proc (AIMapper_Error + metadata_value) :=
  if h =? 0 then mret (inl ERROR_BAD_BUFFER)
  else
    memHandle ← gralloc_convert_handle h;
    match memHandle with
    | None => mret (inl ERROR_BAD_BUFFER)
    | Some g =>
        let from_region (f : gralloc_metadata -> metadata_value) : Proc (AIMapper_Error + metadata_value) :=
          a ← getMetadata h;
          match a with None => mret (inl ERROR_NO_RESOURCES) | Some a => m ← read_metadata a; mret (inr (f m)) end in
        match type with
        | BUFFER_ID => mret (inr (VNumber (backing_store_id g)))
        | NAME => from_region (fun m => VText (md_name m))
        | WIDTH => mret (inr (VNumber (gh_width g)))
        | HEIGHT => mret (inr (VNumber (gh_height g)))
        | LAYER_COUNT => mret (inr (VNumber (gh_layer_count g)))
        | PIXEL_FORMAT_REQUESTED => mret (inr (VFormat (gh_format g)))
        | PIXEL_FORMAT_FOURCC => mret (inr (VFourcc (gh_drm_format g)))
        | PIXEL_FORMAT_MODIFIER => mret (inr (VModifier (gh_modifier g)))
        | USAGE => mret (inr (VNumber (gh_usage g)))
        | ALLOCATION_SIZE => mret (inr (VNumber (gh_total_size g)))
        | STRIDE => mret (inr (VNumber (gh_pixel_stride g)))
        | PROTECTED_CONTENT => mret (inr (VNumber (if has (gh_usage g) GRALLOC_USAGE_PROTECTED then 1 else 0)))
        | COMPRESSION => mret (inr VCompression_None)
        | INTERLACED => mret (inr VInterlaced_None)
        | CHROMA_SITING => mret (inr VChromaSiting_None)
        | PLANE_LAYOUTS =>
            match getPlaneLayouts (gh_drm_format g) with
            | None => mret (inl ERROR_NO_RESOURCES)
            | Some es => l ← of_option (place_planes g 0 es); mret (inr (VPlanes l))
            end
        | CROP => mret (inr (VRects (replicate (Z.to_nat (gh_num_planes g)) (0, 0, ⟦gh_width g⟧s 32, ⟦gh_height g⟧s 32))))
        | DATASPACE => from_region (fun m => VNumber (md_dataspace m))
        | BLEND_MODE => from_region (fun m => VNumber (md_blendMode m))
        | SMPTE2086 => from_region (fun m => match md_smpte2086 m with Some z => VNumber z | None => VNothing end)
        | CTA861_3 => from_region (fun m => match md_cta861_3 m with Some z => VNumber z | None => VNothing end)
        | OtherMetadata _ => mret (inl ERROR_UNSUPPORTED)
        end
    end.

(** A type with its value, decoded; two of them are optional.  [UOther] is a type that cannot be set. *)
Inductive metadata_update := UBlendMode (z : Z) | UDataspace (z : Z) | UCta861_3 (v : option Z) | USmpte2086 (v : option Z) | UOther (type : StandardMetadataType).

Definition apply_update (u : metadata_update) (m : gralloc_metadata) : gralloc_metadata :=
  match u with
  | UBlendMode z => mkMetadata (md_name m) z (md_dataspace m) (md_cta861_3 m) (md_smpte2086 m)
  | UDataspace z => mkMetadata (md_name m) (md_blendMode m) z (md_cta861_3 m) (md_smpte2086 m)
  | UCta861_3 v => mkMetadata (md_name m) (md_blendMode m) (md_dataspace m) v (md_smpte2086 m)
  | USmpte2086 v => mkMetadata (md_name m) (md_blendMode m) (md_dataspace m) (md_cta861_3 m) v
  | UOther _ => m
  end.

Definition setStandardMetadata (h : Z) (u : metadata_update) : Proc AIMapper_Error :=
  if h =? 0 then mret ERROR_BAD_BUFFER
  else
    memHandle ← gralloc_convert_handle h;
    match memHandle with
    | None => mret ERROR_BAD_BUFFER
    | Some _ =>
        match u with
        | UOther (BUFFER_ID | NAME | WIDTH | HEIGHT | LAYER_COUNT | PIXEL_FORMAT_REQUESTED | USAGE) => mret ERROR_BAD_VALUE
        | UOther _ => mret ERROR_UNSUPPORTED
        | _ =>
            a ← getMetadata h;
            match a with None => mret ERROR_NO_RESOURCES | Some a => write_metadata a (apply_update u) ;; mret ERROR_NONE end
        end
    end.

(** What [getReservedRegion] finds is dropped: the caller's variables stay as they were. *)
Definition getReservedRegion (h outReservedRegion outReservedSize : Z) : Proc (AIMapper_Error * Z * Z) :=
  if h =? 0 then mret (ERROR_BAD_BUFFER, outReservedRegion, outReservedSize)
  else
    memHandle ← gralloc_convert_handle h;
    match memHandle with
    | None => mret (ERROR_BAD_BUFFER, outReservedRegion, outReservedSize)
    | Some _ =>
        region ← get_reserved_region h;
        mret (match region with None => ERROR_BAD_BUFFER | Some _ => ERROR_NONE end, outReservedRegion, outReservedSize)
    end.

(** *** A mapper in use *)

(** Fences come with the request they are for. *)
Inductive mapper_op :=
  | OpImport (raw : gralloc_handle)
  | OpFree (h : Z)
  | OpLock (h usage : Z) (region : ARect) (fence : option Z)
  | OpUnlock (h : Z)
  | OpFlush (h : Z)
  | OpReread (h : Z)
  | OpGet (h : Z) (type : StandardMetadataType)
  | OpSet (h : Z) (u : metadata_update).

Definition mapper_exec (o : mapper_op) : Proc unit :=
  match o with
  | OpImport raw => importBuffer raw ;; mret tt
  | OpFree h => freeBuffer h ;; mret tt
  | OpLock h usage region fence =>
      f ← (match fence with Some file => open_file CReceive file | None => mret (-1) end);
      mapper_lock h usage region f ;; mret tt
  | OpUnlock h => mapper_unlock h ;; mret tt
  | OpFlush h => flushLockedBuffer h ;; mret tt
  | OpReread h => rereadLockedBuffer h ;; mret tt
  | OpGet h type => getStandardMetadata h type ;; mret tt
  | OpSet h u => setStandardMetadata h u ;; mret tt
  end.
End Gralloc.
