(* ===== verification/GrallocOwn.v ===== *)
(** * Who owns the descriptors and mappings

    The descriptors, mappings and handles of [Gralloc]'s process are accounted for as
    lists up to order, so that an operation is specified by what it takes from them and
    what it gives back, whatever else there is.  From this: a mapper's process has open
    what its registered buffers need and nothing more. *)

From S2P Require Import Prelude GrallocLayout GrallocPlanes Gralloc.

(** [ensures P m Q]: in states with [P] the behaviour of [m] is defined, and it takes them to states with [Q]. *)
Definition ensures {S A} (P : S -> Prop) (m : St S A) (Q : A -> S -> Prop) : Prop := forall s, P s -> runs m s Q.

Section Ensures.
Context {S : Type}.
Implicit Types P : S -> Prop.

Lemma ensures_ret {A} (a : A) P (Q : A -> S -> Prop) : (forall s, P s -> Q a s) -> ensures P (mret a) Q.
Proof. intros HQ s Hs. by apply HQ. Qed.

Lemma ensures_bind {A B} (m : St S A) (k : A -> St S B) P (R : A -> S -> Prop) Q :
  ensures P m R -> (forall a, ensures (R a) (k a) Q) -> ensures P (m ≫= k) Q.
Proof. intros Hm Hk s Hs. apply runs_bind. eapply runs_mono; [|by apply Hm]. intros a s1 Hs1. by apply Hk. Qed.

Lemma ensures_gets {A} (f : S -> A) P : ensures P (gets f) (fun a s => a = f s /\ P s).
Proof. by intros s Hs. Qed.

Lemma ensures_modify f P (Q : unit -> S -> Prop) : (forall s, P s -> Q tt (f s)) -> ensures P (modify f) Q.
Proof. intros HQ s Hs. by apply HQ. Qed.

Lemma ensures_of_option {A} (a : A) P : ensures P (of_option (Some a)) (fun b s => b = a /\ P s).
Proof. by intros s Hs. Qed.

Lemma ensures_pre {A} (m : St S A) P P' (Q : A -> S -> Prop) : (forall s, P s -> P' s) -> ensures P' m Q -> ensures P m Q.
Proof. intros HP Hm s Hs. apply Hm, HP, Hs. Qed.

Lemma ensures_post {A} (m : St S A) P (Q Q' : A -> S -> Prop) : (forall a s, Q a s -> Q' a s) -> ensures P m Q -> ensures P m Q'.
Proof. intros HQ Hm s Hs. eapply runs_mono; [exact HQ|by apply Hm]. Qed.

(** A fact that does not depend on the state. *)
Lemma ensures_pure {A} (m : St S A) (F : Prop) P (Q : A -> S -> Prop) : (F -> ensures P m Q) -> ensures (fun s => F /\ P s) m Q.
Proof. intros Hm s [HF Hs]. by apply Hm. Qed.

Lemma ensures_exists {A X} (m : St S A) (P : X -> S -> Prop) (Q : A -> S -> Prop) : (forall x, ensures (P x) m Q) -> ensures (fun s => exists x, P x s) m Q.
Proof. intros Hm s [x Hs]. by eapply Hm. Qed.

Lemma ensures_or {A} (m : St S A) P1 P2 (Q : A -> S -> Prop) : ensures P1 m Q -> ensures P2 m Q -> ensures (fun s => P1 s \/ P2 s) m Q.
Proof. intros H1 H2 s [Hs|Hs]; [by eapply H1|by eapply H2]. Qed.
End Ensures.

(** The first statement, by a lemma about it; then the rest with its result. *)
Tactic Notation "ensure" uconstr(lem) := eapply ensures_bind; [apply lem|]; cbv beta; intros ?.
Ltac ensure_pure := apply ensures_pure; intros.
(** An option that is known. *)
Ltac ensure_some E := rewrite E; eapply ensures_bind; [apply ensures_of_option|]; cbv beta; intros ?; apply ensures_pure; intros ->.
(** A value read from the state. *)
Ltac ensure_gets := eapply ensures_bind; [apply ensures_gets|]; cbv beta; intros ?.

Section Owns.
Context `{GU : !GrallocUsage, GO : !GrallocOs, GL : !GrallocOsLaws}.
(** The registered handles. *)
Variable B : gset Z.
Implicit Types (F M : list Z) (N : list (Z * gralloc_handle)) (g : gralloc_handle).

(** The descriptors, the mappings and the handles of a process; addresses of handles are not reused. *)
Record owns F M N (p : Process) : Prop := {
  ow_fds : (map_to_list (pr_fds p)).*1 ≡ₚ F;
  ow_maps : (map_to_list (pr_maps p)).*1 ≡ₚ M;
  ow_handles : map_to_list (pr_handles p) ≡ₚ N;
  ow_addresses : 0 < pr_next p /\ forall h g, (h, g) ∈ N -> 0 < h < pr_next p;
  ow_pool : bufPool p = B
}.

#[export] Instance owns_proper : Proper ((≡ₚ) ==> (≡ₚ) ==> (≡ₚ) ==> (=) ==> iff) owns.
Proof.
  assert (Proper ((≡ₚ) ==> (≡ₚ) ==> (≡ₚ) ==> (=) ==> impl) owns) as Himp.
  { intros F F' HF M M' HM N N' HN p p' <- [H1 H2 H3 H4 HB]. split; [by rewrite H1|by rewrite H2|by rewrite H3| |done].
    split; [apply H4|]. intros h g Hg. apply (proj2 H4 h g). by rewrite HN. }
  intros F F' HF M M' HM N N' HN p p' Hp. split; by apply Himp.
Qed.

Lemma insert_keys {A} (m : gmap Z A) k x l : m !! k = None -> (map_to_list m).*1 ≡ₚ l -> (map_to_list (<[k := x]> m)).*1 ≡ₚ k :: l.
Proof. intros Hk Hl. rewrite map_to_list_insert by done. cbn. by rewrite Hl. Qed.

Lemma delete_keys {A} (m : gmap Z A) k l : (map_to_list m).*1 ≡ₚ k :: l -> (map_to_list (delete k m)).*1 ≡ₚ l.
Proof.
  intros Hl. assert (k ∈ (map_to_list m).*1) as ([k' x] & -> & Hx%elem_of_map_to_list)%list_elem_of_fmap by (rewrite Hl; left).
  apply (Permutation_cons_inv (a := k')). cbn in Hl. rewrite <- Hl. by rewrite <- (map_to_list_delete m k' x).
Qed.

(** *** Primitives *)

Lemma owns_call F M N p c : owns F M N p -> owns F M N (p_with_call p c).
Proof. intros [? ? ? ? ?]. by split. Qed.

Lemma p_call_owns c F M N : ensures (owns F M N) (p_call c) (fun _ => owns F M N).
Proof. intros p Hp. by apply owns_call. Qed.

Lemma neg_errno_owns F M N : ensures (owns F M N) neg_errno (fun r p => r < 0 /\ owns F M N p).
Proof. intros p Hp. split; [|done]. pose proof (os_errno_pos (pr_calls p)). lia. Qed.

Lemma open_file_owns c f F M N : ensures (owns F M N) (open_file c f)
  (fun fd p => fd = -1 /\ owns F M N p \/ 0 < fd /\ owns (fd :: F) M N p).
Proof.
  intros p Hp. unfold runs, open_file, mbind, St_bind. cbn. destruct (_ <? 0) eqn:E; cbn.
  - left. split; [done|by apply owns_call].
  - right. apply Z.ltb_ge in E. destruct (os_open_fresh _ _ E) as [Hpos Hnew]. split; [done|]. destruct Hp as [H1 H2 H3 H4 HB].
    split; [by apply insert_keys|done..].
Qed.

Lemma Alloc_owns heap size F M N : ensures (owns F M N) (Alloc heap size)
  (fun fd p => fd = -1 /\ owns F M N p \/ 0 < fd /\ owns (fd :: F) M N p).
Proof.
  ensure_gets.
  apply (ensures_bind _ _ _ (fun _ p => owns F M N p)); [|intros _; apply open_file_owns].
  apply ensures_modify. intros p [-> [H1 H2 H3 [H4 H5] HB]]. split; try done. cbn. split; [lia|]. intros h g Hg. specialize (H5 h g Hg). lia.
Qed.

Lemma dup_fd_owns fd F M N : ensures (owns F M N) (dup_fd fd) (fun x p => x = -1 /\ owns F M N p \/ 0 < x /\ owns (x :: F) M N p).
Proof.
  ensure_gets. apply (ensures_pre _ _ (owns F M N)); [by intros p [_ ?]|].
  destruct (_ !! fd) as [file|]; [apply open_file_owns|apply ensures_ret]. intros p Hp. by left.
Qed.

Lemma close_fd_owns fd F M N : ensures (owns (fd :: F) M N) (close_fd fd) (fun _ => owns F M N).
Proof. apply ensures_modify. intros p [H1 H2 H3 H4 HB]. split; [|done..]. by apply delete_keys. Qed.

Lemma mmap_owns len fd F M N : ensures (owns F M N) (mmap len fd)
  (fun r p => r = None /\ owns F M N p \/ exists a, r = Some a /\ 0 < a /\ owns F (a :: M) N p).
Proof.
  intros p Hp. unfold runs, mmap, mbind, St_bind. cbn. destruct (_ !! fd) eqn:E1; [|left; split; [done|by apply owns_call]].
  destruct (os_map _ _) eqn:E2; cbn; [|left; split; [done|by apply owns_call]].
  right. destruct (os_map_fresh _ _ _ E2) as [Hpos Hnew]. eexists. split; [done|]. split; [done|]. destruct Hp as [H1 H2 H3 H4 HB].
  split; [done|by apply insert_keys|done..].
Qed.

Lemma munmap_owns a F M N : ensures (owns F (a :: M) N) (munmap a) (fun _ => owns F M N).
Proof. apply ensures_modify. intros p [H1 H2 H3 H4 HB]. split; [done| |done..]. by apply delete_keys. Qed.

Lemma owned_handle F M N h g p : owns F M ((h, g) :: N) p -> pr_handles p !! h = Some g.
Proof. intros [_ _ H3 _ _]. apply elem_of_map_to_list. rewrite H3. left. Qed.

Lemma handle_at_owns F M N h g : ensures (owns F M ((h, g) :: N)) (handle_at h) (fun r p => r = g /\ owns F M ((h, g) :: N) p).
Proof.
  intros p Hp. unfold runs, handle_at, mbind, St_bind. cbn. by rewrite (owned_handle _ _ _ _ _ _ Hp).
Qed.

Lemma handles_keys (m : gmap Z gralloc_handle) h g g' N : map_to_list m ≡ₚ (h, g) :: N -> map_to_list (<[h := g']> m) ≡ₚ (h, g') :: N.
Proof.
  intros Hm. assert (m !! h = Some g) as Hh by (apply elem_of_map_to_list; rewrite Hm; left).
  rewrite <- (insert_delete_id m h g Hh), insert_insert_eq, map_to_list_insert by apply lookup_delete_eq. f_equiv.
  apply (Permutation_cons_inv (a := (h, g))). by rewrite <- Hm, map_to_list_delete.
Qed.

Lemma set_handle_owns f F M N h g : ensures (owns F M ((h, g) :: N)) (set_handle h f) (fun _ => owns F M ((h, f g) :: N)).
Proof.
  apply ensures_modify. intros p Hp. pose proof (owned_handle _ _ _ _ _ _ Hp) as Hh. destruct Hp as [H1 H2 H3 [H4 H5] HB].
  split; [done|done| |split; [done|]|done]; cbn.
  - replace (alter f h (pr_handles p)) with (<[h := f g]> (pr_handles p)); [by eapply handles_keys|].
    apply map_eq. intros j. destruct (decide (h = j)) as [<-|Hne].
    + by rewrite lookup_insert_eq, lookup_alter_eq, Hh.
    + by rewrite lookup_insert_ne, lookup_alter_ne.
  - intros h' g' [[= -> ->]|Hin]%elem_of_cons; [apply (H5 h g); left|apply (H5 h' g'); by right].
Qed.

Lemma new_handle_owns g F M N : ensures (owns F M N) (new_handle g) (fun h p => 0 < h /\ owns F M ((h, g) :: N) p).
Proof.
  intros p [H1 H2 H3 [H4 H5] HB]. split; [done|]. split; [done|done| |split|done]; cbn.
  - rewrite map_to_list_insert; [by rewrite H3|]. apply not_elem_of_dom. intros [g' Hg']%elem_of_dom.
    apply elem_of_map_to_list in Hg'. rewrite H3 in Hg'. specialize (H5 _ _ Hg'). lia.
  - lia.
  - intros h' g' [[= -> ->]|Hin]%elem_of_cons; [lia|]. specialize (H5 _ _ Hin). lia.
Qed.

Lemma native_handle_delete_owns F M N h g : ensures (owns F M ((h, g) :: N)) (native_handle_delete h) (fun _ => owns F M N).
Proof.
  apply ensures_modify. intros p Hp. pose proof (owned_handle _ _ _ _ _ _ Hp) as Hh. destruct Hp as [H1 H2 H3 [H4 H5] HB].
  split; [done|done| |split; [done|]|done]; cbn; [|intros h' g' Hin; apply (H5 h' g'); by right].
  apply (Permutation_cons_inv (a := (h, g))). by rewrite <- H3, map_to_list_delete.
Qed.

(** Descriptors that were not opened are not closed. *)
Lemma close_all_owns fds F M N : ensures (owns (filter (fun fd => 0 <= fd) fds ++ F) M N) (for_each fds (fun fd => if fd <? 0 then mret tt else close_fd fd))
  (fun _ => owns F M N).
Proof.
  induction fds as [|fd fds IH]; [by apply ensures_ret|]. cbn [for_each]. refine (ensures_bind _ _ _ _ _ _ (fun _ => IH)).
  cbn [filter list_filter]. case_decide as Hfd; destruct (Z.ltb_spec fd 0); try lia; [apply close_fd_owns|by apply ensures_ret].
Qed.

Definition live_fds g : list Z := filter (fun fd => 0 <= fd) (owned_fds g).

Lemma native_handle_close_owns F M N h g :
  0 <= numFds g <= Z.of_nat (length (gh_fds g)) ->
  ensures (owns (live_fds g ++ F) M ((h, g) :: N)) (native_handle_close h) (fun _ => owns F M ((h, g) :: N)).
Proof.
  intros Hn. ensure handle_at_owns. apply ensures_pure; intros ->.
  rewrite (proj2 (Z.leb_le 0 _)), (proj2 (Z.leb_le (numFds g) _)) by lia. apply close_all_owns.
Qed.

Lemma convert_owns F M N h g : ensures (owns F M ((h, g) :: N)) (gralloc_convert_handle h)
  (fun r p => r = (if (h =? 0) || negb (gh_magic g =? sMagic) then None else Some g) /\ owns F M ((h, g) :: N) p).
Proof.
  unfold gralloc_convert_handle. destruct (h =? 0); [by apply ensures_ret|].
  ensure handle_at_owns. apply ensures_pure; intros ->. apply ensures_ret. intros p Hp. cbn. by destruct (_ =? _).
Qed.

(** *** Buffers *)

Definition addresses (a : Z) : list Z := if a =? 0 then [] else [a].

(** The mappings of a buffer: its memory and its region. *)
Definition mapped g : list Z := addresses (gh_base g) ++ addresses (attr_base g).

(** A buffer of the allocator: a descriptor of the memory and one of the region; memory of the GPU's allocator is mapped by that. *)
Definition genuine g : Prop := gh_magic g = sMagic /\ numFds g = 2 /\ (2 <= length (gh_fds g))%nat.

Record buffer_ok g : Prop := {
  bk_genuine : genuine g;
  bk_fds : Forall (fun fd => 0 < fd) (owned_fds g);
  bk_gpu : has (gh_flags g) NXP_GRALLOC_FLAGS_FROM_GPU = true -> gh_base g = 0
}.

Lemma genuine_fds g : genuine g -> exists a b l, gh_fds g = a :: b :: l /\ owned_fds g = [a; b] /\ last_fd g = Some b.
Proof.
  intros (_ & Hn & Hl). unfold owned_fds, last_fd. rewrite Hn. destruct (gh_fds g) as [|a [|b l]]; cbn in Hl; [lia..|]. by exists a, b, l.
Qed.

Lemma genuine_close g : genuine g -> 0 <= numFds g <= Z.of_nat (length (gh_fds g)).
Proof. intros (_ & Hn & Hl). lia. Qed.

Lemma live_fds_two g a b l : numFds g = 2 -> gh_fds g = a :: b :: l -> 0 < a -> 0 < b -> live_fds g = [a; b].
Proof. intros Hn Hf Ha Hb. unfold live_fds. assert (owned_fds g = [a; b]) as -> by (unfold owned_fds; by rewrite Hn, Hf). cbn. by rewrite !decide_True by lia. Qed.

Lemma buffer_fds g : buffer_ok g -> exists a b l, gh_fds g = a :: b :: l /\ live_fds g = [a; b] /\ last_fd g = Some b /\ 0 < a /\ 0 < b.
Proof.
  intros [Hg Hf _]. destruct (genuine_fds g Hg) as (a & b & l & E & Eo & El). rewrite Eo in Hf.
  apply Forall_cons in Hf as [Ha [Hb _]%Forall_cons]. exists a, b, l. by rewrite (live_fds_two g a b l (proj1 (proj2 Hg)) E Ha Hb).
Qed.

Lemma buffer_fd0 g : buffer_ok g -> exists a, gh_fds g !! 0%nat = Some a.
Proof. intros (a & b & l & -> & _)%buffer_fds. by exists a. Qed.

Lemma owns_perm F M N F' M' N' p : F ≡ₚ F' -> M ≡ₚ M' -> N ≡ₚ N' -> owns F M N p -> owns F' M' N' p.
Proof. by intros -> -> ->. Qed.

Lemma unmap_addresses a F M N : ensures (owns F (addresses a ++ M) N) (if negb (a =? 0) then munmap a else mret tt) (fun _ => owns F M N).
Proof. unfold addresses. destruct (a =? 0); [by apply ensures_ret|apply munmap_owns]. Qed.

Lemma gpu_free_owns F M N h g a l : gh_fds g = a :: l -> ensures (owns (a :: F) M ((h, g) :: N)) (gpu_free h) (fun r p => r = 0 /\ owns F M N p).
Proof.
  intros Ha. eapply (ensures_bind _ _ _ (fun r p => r = 0 /\ owns (a :: F) M ((h, g) :: N) p)).
  { intros p Hp. split; [apply gpu_free_succeeds|by apply owns_call]. }
  intros r. apply ensures_pure. intros ->. cbn [Z.eqb]. ensure handle_at_owns. apply ensures_pure; intros ->. rewrite Ha.
  ensure ensures_of_option. apply ensures_pure; intros ->. eapply ensures_bind; [apply close_fd_owns|]. intros ?. cbv beta.
  eapply ensures_bind; [apply native_handle_delete_owns|]. intros ?. cbv beta. by apply ensures_ret.
Qed.

(** Releasing a buffer gives back all it has. *)
Lemma driver_release_owns F M N h g : buffer_ok g -> 0 < h ->
  ensures (owns (live_fds g ++ F) (mapped g ++ M) ((h, g) :: N)) (driver_release h) (fun r p => r = 0 /\ owns F M N p).
Proof.
  intros Hok Hh. destruct (buffer_fds g Hok) as (a & b & l & Ef & El & Elast & Ha & Hb). ensure convert_owns. apply ensures_pure; intros ->.
  rewrite (proj2 (Z.eqb_neq h 0)), (proj1 (bk_genuine _ Hok)) by lia. cbn [orb negb]. rewrite Z.eqb_refl. cbn [negb].
  unfold mapped. eapply (ensures_bind _ _ _ (fun _ => owns (live_fds g ++ F) (addresses (gh_base g) ++ M) ((h, g) :: N))).
  { eapply ensures_pre, unmap_addresses. intros p. apply owns_perm; [done| |done]. by rewrite (assoc_L (++)), (comm (++) (addresses _)). }
  intros _. rewrite El. destruct (has (gh_flags g) NXP_GRALLOC_FLAGS_FROM_GPU) eqn:Egpu.
  - rewrite (bk_gpu _ Hok Egpu). ensure_some Elast. rewrite (proj2 (Z.ltb_lt 0 b)) by done.
    eapply (ensures_bind _ _ _ (fun _ => owns (a :: F) M ((h, g) :: N))).
    + eapply ensures_pre, close_fd_owns. intros p. apply owns_perm; [|done..]. cbn. apply perm_swap.
    + intros _. by eapply gpu_free_owns.
  - eapply (ensures_bind _ _ _ (fun _ p => exists g', (live_fds g' = [a; b] /\ 0 <= numFds g' <= Z.of_nat (length (gh_fds g'))) /\ owns ([a; b] ++ F) M ((h, g') :: N) p)).
    + unfold addresses. destruct (gh_base g =? 0); [apply ensures_ret; intros p Hp; exists g; split; [split; [exact El|apply genuine_close, Hok]|exact Hp]|]. cbn.
      ensure handle_at_owns. apply ensures_pure; intros ->. eapply (ensures_bind _ _ _ (fun _ => owns ([a; b] ++ F) M ((h, g) :: N))); [apply munmap_owns|].
      intros _. eapply ensures_post, set_handle_owns. intros ? p Hp. exists (h_with_local g 0 false 0 (attr_base g)).
      split; [split; [exact El|apply genuine_close, Hok]|exact Hp].
    + intros _. apply ensures_exists. intros g'. apply ensures_pure. intros [<- Hn].
      eapply ensures_bind; [by apply native_handle_close_owns|]. intros ?. cbv beta.
      eapply ensures_bind; [apply native_handle_delete_owns|]. intros ?. cbv beta. by apply ensures_ret.
Qed.

(** *** Importing *)

Lemma close_fds_owns fds F M N : ensures (owns (fds ++ F) M N) (for_each fds close_fd) (fun _ => owns F M N).
Proof. induction fds as [|fd fds IH]; [by apply ensures_ret|]. cbn [for_each]. refine (ensures_bind _ _ _ _ _ _ (fun _ => IH)). apply close_fd_owns. Qed.

Lemma clone_fds_owns F M N fds : forall made, Forall (fun fd => 0 < fd) made -> ensures (owns (made ++ F) M N) (clone_fds fds made)
  (fun r p => r = None /\ owns F M N p \/ exists l, r = Some l /\ length l = (length made + length fds)%nat /\
     Forall (fun fd => 0 < fd) l /\ owns (l ++ F) M N p).
Proof.
  induction fds as [|fd fds IH]; intros made Hm; cbn [clone_fds].
  { apply ensures_ret. intros p Hp. right. exists made. split; [done|]. split; [cbn; lia|done]. }
  ensure dup_fd_owns. apply ensures_or; apply ensures_pure; [intros ->|intros Hx].
  - cbn. eapply ensures_bind; [apply close_fds_owns|]. intros ?. cbv beta. apply ensures_ret. intros p Hp. by left.
  - rewrite (proj2 (Z.ltb_ge _ 0)) by lia. eapply ensures_pre, ensures_post; [| |apply (IH (made ++ [_]))].
    + intros p. apply owns_perm; [|done..]. rewrite <- (assoc_L (++)). apply Permutation_middle.
    + intros r p [?|(l & -> & Hl & Hf & Hp)]; [by left|right]. exists l. rewrite length_app in Hl. split; [done|]. split; [cbn in *; lia|done].
    + apply Forall_app. split; [done|by apply Forall_singleton].
Qed.

(** A clone has descriptors of its own for the same files. *)
Lemma clone_owns F M N raw : genuine raw -> ensures (owns F M N) (native_handle_clone raw)
  (fun r p => r = None /\ owns F M N p \/ exists h a b, r = Some h /\ 0 < h /\ 0 < a /\ 0 < b /\
     owns ([a; b] ++ F) M ((h, h_with_fds raw 2 (a :: b :: drop 2 (gh_fds raw)) (gh_name raw)) :: N) p).
Proof.
  intros Hg. destruct (genuine_fds _ Hg) as (x & y & l & Ef & Eo & _). destruct Hg as (_ & Hn & Hlen). unfold native_handle_clone. rewrite Hn.
  rewrite (proj2 (Z.leb_le 0 2)), (proj2 (Z.leb_le 2 _)) by lia. cbn [andb]. rewrite Eo. eapply ensures_bind; [apply (clone_fds_owns _ _ _ [x; y] []); constructor|].
  intros r. cbv beta. apply ensures_or; [apply ensures_pure; intros ->; apply ensures_ret; by left|].
  apply ensures_exists. intros fds. apply ensures_pure. intros ->. apply ensures_pure. intros Hfds. apply ensures_pure. intros Hpos.
  destruct fds as [|a [|b [|]]]; try discriminate Hfds. apply Forall_cons in Hpos as [Ha [Hb _]%Forall_cons].
  ensure new_handle_owns. apply ensures_pure. intros Hh. apply ensures_ret. intros p Hp. right. eexists _, a, b. split; [done|]. split; [exact Hh|].
  split; [done|]. split; [done|]. exact Hp.
Qed.

Lemma retain_owns F M N h g : genuine g -> ensures (owns F M ((h, g) :: N)) (driver_retain h)
  (fun r p => r <> 0 /\ owns F M ((h, h_with_local g 0 false 0 0) :: N) p \/ h = 0 /\ r <> 0 /\ owns F M ((h, g) :: N) p \/
     r = 0 /\ exists a, 0 < a /\ owns F (a :: M) ((h, h_with_local g 0 false 0 a) :: N) p).
Proof.
  intros Hg. destruct (genuine_fds _ Hg) as (x & y & l & _ & _ & El). destruct Hg as (Hm & _ & _).
  ensure convert_owns. apply ensures_pure. intros ->. rewrite Hm, Z.eqb_refl, orb_false_r. destruct (Z.eqb_spec h 0) as [->|Hh].
  { apply ensures_ret. intros p Hp. right. left. done. }
  ensure set_handle_owns. eapply (ensures_bind _ _ _ (fun _ => owns F M ((h, h_with_local g 0 false 0 0) :: N))); [destruct (has _ _); [apply p_call_owns|by apply ensures_ret]|].
  intros ret. cbv beta. destruct (ret =? 0); cbn [negb]; [|apply ensures_ret; by left].
  ensure_some El. ensure mmap_owns. apply ensures_or.
  - apply ensures_pure. intros ->. eapply ensures_post, neg_errno_owns. intros r p [Hr Hp]. left. split; [lia|exact Hp].
  - apply ensures_exists. intros m. apply ensures_pure. intros ->. apply ensures_pure. intros Hpos. ensure set_handle_owns.
    apply ensures_ret. intros p Hp. do 2 right. split; [done|]. by exists m.
Qed.

(** *** Using a buffer *)

(** The buffer may be mapped by now; all else is as before. *)
Definition touched (F M : list Z) N (h : Z) g (p : Process) : Prop :=
  exists g', owns F (mapped g' ++ M) ((h, g') :: N) p /\ buffer_ok g' /\ live_fds g' = live_fds g.

Lemma local_ok g locks write base attr : buffer_ok g -> (has (gh_flags g) NXP_GRALLOC_FLAGS_FROM_GPU = true -> base = 0) ->
  buffer_ok (h_with_local g locks write base attr).
Proof. intros [Hg Hf Hb] Hbase. by split. Qed.

Lemma set_local_touched F M N h g locks write : buffer_ok g ->
  ensures (owns F (mapped g ++ M) ((h, g) :: N))
    (set_handle h (fun g => h_with_local g (locks g) (write g) (gh_base g) (attr_base g))) (fun _ => touched F M N h g).
Proof.
  intros Hok. eapply ensures_post, set_handle_owns. intros ? p Hp.
  exists (h_with_local g (locks g) (write g) (gh_base g) (attr_base g)). split; [exact Hp|]. split; [apply local_ok, Hok; done|done].
Qed.

Lemma touched_again {A} F M N h g (m : Proc A) : (forall g', buffer_ok g' -> ensures (owns F (mapped g' ++ M) ((h, g') :: N)) m (fun _ => touched F M N h g')) ->
  ensures (touched F M N h g) m (fun _ => touched F M N h g).
Proof.
  intros Hm. apply ensures_exists. intros g' p (Hp & Hok & Hl). eapply runs_mono; [|by apply (Hm g')]. intros a p' (g2 & Hp2 & Hok2 & Hl2).
  exists g2. by rewrite Hl2.
Qed.

Lemma owned_touched F M N h g p : buffer_ok g -> owns F (mapped g ++ M) ((h, g) :: N) p -> touched F M N h g p.
Proof. intros Hok Hp. by exists g. Qed.

Lemma call_touched c F M N h g : ensures (touched F M N h g) (p_call c) (fun _ => touched F M N h g).
Proof. apply ensures_exists. intros g' p (Hp & Hr). eapply runs_mono; [|by apply p_call_owns]. intros a p' Hp'. by exists g'. Qed.

Lemma sync_wait_owns fence F M N : ensures (owns F M N) (gralloc_sync_wait fence false) (fun _ => owns F M N).
Proof.
  unfold gralloc_sync_wait. destruct (fence <? 0); [by apply ensures_ret|]. ensure p_call_owns.
  eapply (ensures_bind _ _ _ (fun _ => owns F M N)); [destruct (_ <? 0); [apply p_call_owns|by apply ensures_ret]|]. intros r. cbv beta.
  destruct (r <? 0); [|by apply ensures_ret]. eapply ensures_post, neg_errno_owns. by intros ? p [_ ?].
Qed.

Lemma sync_start_touched g0 rd wr F M N h g : buffer_ok g0 -> ensures (touched F M N h g) (allocator_sync_start g0 rd wr) (fun _ => touched F M N h g).
Proof. intros (a & Ha)%buffer_fd0. unfold allocator_sync_start. ensure_some Ha. apply call_touched. Qed.

Lemma sync_end_touched g0 rd wr F M N h g : buffer_ok g0 -> ensures (touched F M N h g) (allocator_sync_end g0 rd wr) (fun _ => touched F M N h g).
Proof. intros (a & Ha)%buffer_fd0. unfold allocator_sync_end. ensure_some Ha. apply call_touched. Qed.

Lemma allocator_map_touched F M N h g : buffer_ok g -> gh_base g = 0 -> has (gh_flags g) NXP_GRALLOC_FLAGS_FROM_GPU = false ->
  ensures (owns F (mapped g ++ M) ((h, g) :: N)) (allocator_map h) (fun _ => touched F M N h g).
Proof.
  intros Hok Hb Hgpu. ensure handle_at_owns. apply ensures_pure; intros ->. destruct (buffer_fd0 g Hok) as [fd Hfd]. ensure_some Hfd.
  ensure mmap_owns. apply ensures_or.
  - apply ensures_pure; intros ->. eapply ensures_post, neg_errno_owns. intros r p [_ Hp]. by apply owned_touched.
  - apply ensures_exists. intros m. apply ensures_pure; intros ->. apply ensures_pure; intros Hm. ensure set_handle_owns.
    apply ensures_ret. intros p Hp. exists (h_with_local g (lock_count g) (cpu_write g) m (attr_base g)).
    split; [|split; [apply local_ok; [exact Hok|by rewrite Hgpu]|done]].
    revert Hp. apply owns_perm; [done| |done]. unfold mapped. cbn. rewrite Hb. unfold addresses at 3. by rewrite (proj2 (Z.eqb_neq m 0)) by lia.
Qed.

Lemma driver_lock_touched F M N h g fence x y width height usage : buffer_ok g -> 0 < h ->
  ensures (owns F (mapped g ++ M) ((h, g) :: N)) (driver_lock h fence false x y width height usage) (fun _ => touched F M N h g).
Proof.
  intros Hok Hh. ensure convert_owns. apply ensures_pure; intros ->. rewrite (proj2 (Z.eqb_neq h 0)), (proj1 (bk_genuine _ Hok)), Z.eqb_refl by lia.
  cbn [orb negb]. destruct (cpu_write g && _).
  { ensure (set_local_touched F M N h g (fun g => ⟦lock_count g + 1⟧u 32) cpu_write Hok). by apply ensures_ret. }
  ensure sync_wait_owns. destruct (_ =? 0); cbn [negb]; [|apply ensures_ret; intros p; by apply owned_touched].
  destruct (buffer_fd0 g Hok) as [fd Hfd]. ensure_some Hfd.
  eapply (ensures_bind _ _ _ (fun _ => touched F M N h g)).
  - destruct (has (gh_flags g) NXP_GRALLOC_FLAGS_FROM_GPU) eqn:Egpu.
    + ensure p_call_owns. ensure ensures_gets. apply ensures_ret. intros p [_ Hp]. by apply owned_touched.
    + destruct (0 <=? _); [|apply ensures_ret; intros p; by apply owned_touched].
      eapply (ensures_bind _ _ _ (fun _ => touched F M N h g)).
      * destruct (Z.eqb_spec (gh_base g) 0) as [Eb|Eb]; [by apply allocator_map_touched|apply ensures_ret; intros p; by apply owned_touched].
      * intros r. cbv beta. destruct (r =? 0); cbn [negb]; [|by apply ensures_ret]. apply touched_again. intros g' Hok'.
        ensure handle_at_owns. apply ensures_pure; intros ->. apply ensures_ret. intros p. by apply owned_touched.
  - intros [ret vaddr]. cbv beta. destruct (ret =? 0); cbn [negb]; [|by apply ensures_ret].
    eapply (ensures_bind _ _ _ (fun _ => touched F M N h g)).
    + apply touched_again. intros g' Hok'. apply (set_local_touched F M N h g' (fun g => ⟦lock_count g + 1⟧u 32) (fun _ => _) Hok').
    + intros _. eapply (ensures_bind _ _ _ (fun _ => touched F M N h g)); [|intros _; by apply ensures_ret].
      destruct (has usage _); [by apply sync_start_touched|by apply ensures_ret].
Qed.

Lemma driver_unlock_touched F M N h g : buffer_ok g -> 0 < h ->
  ensures (owns F (mapped g ++ M) ((h, g) :: N)) (driver_unlock h) (fun _ => touched F M N h g).
Proof.
  intros Hok Hh. ensure convert_owns. apply ensures_pure; intros ->. rewrite (proj2 (Z.eqb_neq h 0)), (proj1 (bk_genuine _ Hok)), Z.eqb_refl by lia.
  cbn [orb negb]. eapply ensures_pre; [intros p; by apply owned_touched|]. destruct (lock_count g =? 0); [by apply ensures_ret|].
  eapply (ensures_bind _ _ _ (fun _ => touched F M N h g)).
  - destruct (has _ _); [apply call_touched|]. destruct (cpu_write g); [by apply sync_end_touched|by apply ensures_ret].
  - intros r. cbv beta. destruct (r =? 0); cbn [negb]; [|by apply ensures_ret].
    eapply (ensures_bind _ _ _ (fun _ => touched F M N h g)); [|intros _; by apply ensures_ret]. apply touched_again. intros g' Hok'.
    exact (set_local_touched F M N h g' (fun g => lock_count g - 1) (fun g => if lock_count g - 1 =? 0 then false else cpu_write g) Hok').
Qed.

Lemma driver_sync_touched sync F M N h g : (forall g0 g, buffer_ok g0 -> ensures (touched F M N h g) (sync g0) (fun _ => touched F M N h g)) -> buffer_ok g -> 0 < h ->
  ensures (owns F (mapped g ++ M) ((h, g) :: N)) (driver_sync sync h) (fun _ => touched F M N h g).
Proof.
  intros Hsync Hok Hh. ensure convert_owns. apply ensures_pure; intros ->. rewrite (proj2 (Z.eqb_neq h 0)), (proj1 (bk_genuine _ Hok)), Z.eqb_refl by lia.
  cbn [orb negb]. eapply ensures_pre; [intros p; by apply owned_touched|]. destruct (lock_count g =? 0); [by apply ensures_ret|].
  destruct (has _ _); [by apply ensures_ret|]. eapply ensures_bind; [by apply Hsync|]. intros ?. cbv beta. by apply ensures_ret.
Qed.

(** *** Metadata *)

Lemma region_owns F M N h g : buffer_ok g -> 0 < h ->
  ensures (owns F M ((h, g) :: N)) (get_reserved_region h) (fun r p => r = Some (attr_base g, reserved_region_size g) /\ owns F M ((h, g) :: N) p).
Proof.
  intros Hok Hh. destruct (buffer_fds g Hok) as (a & b & l & _ & _ & El & _ & Hb). ensure convert_owns. apply ensures_pure; intros ->.
  rewrite (proj2 (Z.eqb_neq h 0)), (proj1 (bk_genuine _ Hok)), Z.eqb_refl by lia. cbn [orb negb].
  ensure_some El. rewrite (proj2 (Z.leb_gt b 0)) by done. by apply ensures_ret.
Qed.

(** Reading and writing leave all of it as it is; whether they can is a matter of what is mapped. *)
Lemma read_metadata_owns a F M N p m p' : owns F M N p -> read_metadata a p = Some (m, p') -> owns F M N p'.
Proof.
  unfold read_metadata, metadata_file, mbind, St_bind. cbn. intros Hp E.
  destruct (pr_maps p !! a) as [[f len]|]; [|done]. cbn in E. destruct (_ <=? len); [|done]. cbn in E.
  destruct (pr_files p !! f); [|done]. by injection E as <- <-.
Qed.

Lemma write_metadata_owns a f F M N p m p' : owns F M N p -> write_metadata a f p = Some (m, p') -> owns F M N p'.
Proof.
  unfold write_metadata, metadata_file, mbind, St_bind. cbn. intros [H1 H2 H3 H4 HB] E.
  destruct (pr_maps p !! a) as [[file len]|]; [|done]. cbn in E. destruct (_ <=? len); [|done]. cbn in E. by injection E as <- <-.
Qed.
End Owns.

(** ** The mapper *)

Section Mapper.
Context `{GU : !GrallocUsage, GO : !GrallocOs, GL : !GrallocOsLaws}.
Implicit Types (B : gset Z) (F M : list Z) (N : list (Z * gralloc_handle)) (g : gralloc_handle) (p : Process).

Definition fds_of N : list Z := N ≫= (fun x => live_fds x.2).
Definition maps_of N : list Z := N ≫= (fun x => mapped x.2).

(** Beside the descriptors [F] and the mappings [M] of others the process has what the registered buffers [B] need. *)
Definition mapper_owns B F M p : Prop := exists N,
  B = list_to_set N.*1 /\ owns B (fds_of N ++ F) (maps_of N ++ M) N p /\ Forall (fun x => buffer_ok x.2) N.

(** A buffer and the others. *)
Definition focused B F M (h : Z) g N p : Prop :=
  B = list_to_set (h :: N.*1) /\ owns B (live_fds g ++ fds_of N ++ F) (mapped g ++ maps_of N ++ M) ((h, g) :: N) p /\
  buffer_ok g /\ Forall (fun x => buffer_ok x.2) N /\ 0 < h.

Lemma focus B F M p h : mapper_owns B F M p -> h ∈ B -> exists g N, focused B F M h g N p.
Proof.
  intros (N & HB & Hp & HN) Hh. rewrite HB, elem_of_list_to_set, list_elem_of_fmap in Hh. destruct Hh as ([h' g] & -> & Hg). cbn.
  assert (exists N', N ≡ₚ (h', g) :: N') as [N' HN'] by (by apply elem_of_Permutation).
  exists g, N'. rewrite HN' in HN. apply Forall_cons in HN as [Hok HN]. split; [|split; [|split; [done|split; [done|]]]].
  - rewrite HB. apply leibniz_equiv. intros k. by rewrite !elem_of_list_to_set, HN'.
  - revert Hp. apply owns_perm; [| |done]; unfold fds_of, maps_of; rewrite HN'; cbn; by rewrite (assoc_L (++)).
  - destruct Hp as [_ _ _ [_ Ha] _]. by apply (Ha h' g).
Qed.

Lemma unfocus B F M h g N p : focused B F M h g N p -> mapper_owns B F M p.
Proof.
  intros (HB & Hp & Hok & HN & _). exists ((h, g) :: N). split; [done|]. split; [|by apply Forall_cons].
  unfold fds_of, maps_of. cbn. by rewrite <- !(assoc_L (++)).
Qed.

(** A handle that is not registered is not that of a buffer: what dereferences it has no defined behaviour. *)
Lemma unregistered_dangling B F M p h : mapper_owns B F M p -> h <> 0 -> h ∉ B -> gralloc_convert_handle h p = None.
Proof.
  intros (N & HB & Hp & _) Hh Hn. unfold gralloc_convert_handle. rewrite (proj2 (Z.eqb_neq h 0)) by done.
  unfold handle_at, mbind, St_bind. cbn. destruct (pr_handles p !! h) as [g|] eqn:E; [|done]. destruct Hn.
  rewrite HB, elem_of_list_to_set, list_elem_of_fmap. exists (h, g). split; [done|].
  destruct Hp as [_ _ H3 _ _]. rewrite <- H3. by apply elem_of_map_to_list.
Qed.

(** What only touches a registered buffer keeps this. *)
Lemma mapper_touch {A} (m : Proc A) h B F M :
  (forall F M N g, buffer_ok g -> 0 < h -> ensures (owns B F (mapped g ++ M) ((h, g) :: N)) m (fun _ => touched B F M N h g)) ->
  h ∈ B -> ensures (mapper_owns B F M) m (fun _ => mapper_owns B F M).
Proof.
  intros Hm HhB p Hp. destruct (focus _ _ _ _ _ Hp HhB) as (g & N & HB & Hf & Hok & HN & Hh). eapply runs_mono; [|exact (Hm _ _ _ g Hok Hh p Hf)].
  intros a p' (g' & Hp' & Hok' & Hl). apply (unfocus B F M h g' N). split; [done|]. split; [|done]. by rewrite Hl.
Qed.

Lemma mapper_ret {A} (a : A) B F M : ensures (mapper_owns B F M) (mret a) (fun _ => mapper_owns B F M).
Proof. by apply ensures_ret. Qed.

(** *** Operations *)

(** The buffers that are registered may be others after. *)
Definition some_owns F M p : Prop := exists B, mapper_owns B F M p.

Lemma retained_owns F M N B h ret g x y l : B = list_to_set N.*1 -> Forall (fun z => buffer_ok z.2) N -> genuine g -> 0 < h -> 0 < x -> 0 < y ->
  gh_fds g = x :: y :: l ->
  ensures (fun p => ret <> 0 /\ owns B ([x; y] ++ fds_of N ++ F) (maps_of N ++ M) ((h, h_with_local g 0 false 0 0) :: N) p \/
    h = 0 /\ ret <> 0 /\ owns B ([x; y] ++ fds_of N ++ F) (maps_of N ++ M) ((h, g) :: N) p \/
    ret = 0 /\ exists a, 0 < a /\ owns B ([x; y] ++ fds_of N ++ F) (a :: maps_of N ++ M) ((h, h_with_local g 0 false 0 a) :: N) p)
    (if negb (ret =? 0) then native_handle_close h ;; native_handle_delete h ;; mret (ERROR_NO_RESOURCES, 0)
     else modify (fun p => p_with_pool p ({[h]} ∪ bufPool p)) ;; mret (ERROR_NONE, h)) (fun _ => some_owns F M).
Proof.
  intros HB HN Hg Hh Hx Hy Ef. assert (forall a, live_fds (h_with_local g 0 false 0 a) = [x; y]) as Hlive.
  { intros a. apply (live_fds_two _ x y l); [apply Hg|done..]. }
  apply ensures_or; [|apply ensures_or].
  - apply ensures_pure; intros Hr. rewrite (proj2 (Z.eqb_neq ret 0)) by done. cbn [negb].
    eapply ensures_bind; [eapply ensures_pre, (native_handle_close_owns _ _ _ _ _ (h_with_local g 0 false 0 0)), (genuine_close g Hg)|].
    { intros p. rewrite Hlive. apply owns_perm; done. }
    intros ?. cbv beta. eapply ensures_bind; [apply native_handle_delete_owns|]. intros ?. cbv beta. apply ensures_ret. intros p Hp. by exists B, N.
  - apply ensures_pure; intros ->. lia.
  - apply ensures_pure; intros ->. apply ensures_exists; intros a. apply ensures_pure; intros Ha. cbn [Z.eqb negb].
    eapply (ensures_bind _ _ _ (fun _ => some_owns F M)); [|intros _; by apply ensures_ret]. apply ensures_modify. intros p Hp.
    exists ({[h]} ∪ B). apply (unfocus _ F M h (h_with_local g 0 false 0 a) N). split; [by rewrite HB|]. split; [|split; [|done]].
    + rewrite Hlive. destruct Hp as [H1 H2 H3 H4 H5]. split; [done|rewrite H2|done|done|cbn; by rewrite H5].
      unfold mapped. cbn. unfold addresses at 1. by rewrite (proj2 (Z.eqb_neq a 0)) by lia.
    + split; [done| |done]. unfold owned_fds. cbn. rewrite (proj1 (proj2 Hg)), Ef. by repeat constructor.
Qed.

Lemma import_owns B F M raw : genuine raw -> ensures (mapper_owns B F M) (importBuffer raw) (fun _ => some_owns F M).
Proof.
  intros Hg. unfold importBuffer. destruct (numFds raw =? 0); [apply ensures_ret; by exists B|].
  apply ensures_exists. intros N. apply ensures_pure. intros HB.
  intros p [Hp HN]. revert p Hp.
  match goal with |- forall p, _ -> runs ?m _ _ => change (ensures (owns B (fds_of N ++ F) (maps_of N ++ M) N) m (fun _ => some_owns F M)) end.
  ensure (clone_owns _ _ _ _ _ Hg). apply ensures_or.
  { apply ensures_pure; intros ->. apply ensures_ret. intros p Hp. by exists B, N. }
  apply ensures_exists; intros h. apply ensures_exists; intros x. apply ensures_exists; intros y. apply ensures_pure; intros ->.
  apply ensures_pure; intros Hh. apply ensures_pure; intros Hx. apply ensures_pure; intros Hy.
  set (g := h_with_fds raw 2 (x :: y :: drop 2 (gh_fds raw)) (gh_name raw)).
  assert (genuine g) as Hgg by (split; [apply Hg|split; [done|cbn; lia]]).
  eapply ensures_bind; [apply (retain_owns _ _ _ _ h g Hgg)|]. intros ret. cbv beta.
  by apply (retained_owns _ _ _ _ _ _ _ x y (drop 2 (gh_fds raw))).
Qed.

Lemma free_owns B F M h : ensures (mapper_owns B F M) (freeBuffer h) (fun _ => some_owns F M).
Proof.
  unfold freeBuffer. destruct (Z.eqb_spec h 0) as [|Hh0]; [apply ensures_ret; by exists B|]. intros p Hp. apply runs_bind, runs_gets.
  assert (bufPool p = B) as Hpool by (destruct Hp as (N & _ & [_ _ _ _ ?] & _); done). rewrite Hpool.
  case_bool_decide as HhB; cbn [negb]; [|by exists B].
  destruct (focus _ _ _ _ _ Hp HhB) as (g & N & HB & Hf & Hok & HN & Hh). apply runs_bind, runs_modify, runs_bind.
  eapply runs_mono; [|apply (driver_release_owns (list_to_set N.*1) (fds_of N ++ F) (maps_of N ++ M) N h g Hok Hh)].
  - intros ret p1 [_ Hp1]. by exists (list_to_set N.*1), N.
  - destruct Hf as [H1 H2 H3 H4 H5]. split; try done. cbn. rewrite Hpool, HB. assert (NoDup (h :: N.*1)) as [Hni _]%NoDup_cons.
    { change (h :: N.*1) with ((h, g) :: N).*1. rewrite <- H3. apply NoDup_fst_map_to_list. }
    apply leibniz_equiv. intros k. rewrite elem_of_difference, !elem_of_list_to_set, elem_of_singleton, elem_of_cons. split; [by intros [[->|?] ?]|].
    intros Hk. split; [by right|]. by intros ->.
Qed.

(** Opening and closing a descriptor that came with a request. *)
Lemma receive_owns file B F M : ensures (mapper_owns B F M) (open_file CReceive file)
  (fun fd p => fd = -1 /\ mapper_owns B F M p \/ 0 < fd /\ mapper_owns B (fd :: F) M p).
Proof.
  apply ensures_exists. intros N. apply ensures_pure. intros HB p [Hp HN]. eapply runs_mono; [|by apply open_file_owns].
  intros fd p' [[-> Hp']|[Hfd Hp']]; [left|right]; (split; [done|]); exists N; (split; [done|]); (split; [|done]); [done|].
  revert Hp'. apply owns_perm; [|done..]. apply Permutation_middle.
Qed.

Lemma answered_owns fd B F M : ensures (mapper_owns B (fd :: F) M) (close_fd fd) (fun _ => mapper_owns B F M).
Proof.
  apply ensures_exists. intros N. apply ensures_pure. intros HB p [Hp HN]. exists N. split; [done|]. split; [|done].
  apply (close_fd_owns B fd (fds_of N ++ F) (maps_of N ++ M) N p). revert Hp. apply owns_perm; [|done..]. symmetry. apply Permutation_middle.
Qed.

(** The lock without its fence. *)
Definition lock_region (h usage : Z) (region : ARect) (fence : Z) : Proc (AIMapper_Error * Z) :=
  if h =? 0 then mret (ERROR_BAD_BUFFER, 0)
  else if usage =? 0 then mret (ERROR_BAD_VALUE, 0)
  else
    memHandle ← gralloc_convert_handle h;
    match memHandle with
    | None => mret (ERROR_BAD_VALUE, 0)
    | Some g =>
        match access_region region g with
        | None => mret (ERROR_BAD_VALUE, 0)
        | Some (x, y, w, hh) =>
            r ← driver_lock h fence false x y w hh usage; mret (if negb (r.1 =? 0) then (ERROR_BAD_VALUE, 0) else (ERROR_NONE, r.2))
        end
    end.

Lemma lock_region_owns h usage region fence B F M : h = 0 \/ h ∈ B -> ensures (mapper_owns B F M) (lock_region h usage region fence) (fun _ => mapper_owns B F M).
Proof.
  intros HhB. unfold lock_region. destruct (Z.eqb_spec h 0); [apply mapper_ret|]. destruct (usage =? 0); [apply mapper_ret|].
  destruct HhB as [|HhB]; [done|]. apply (mapper_touch _ h); [|done]. intros F' M' N g Hok Hh.
  ensure convert_owns. apply ensures_pure; intros ->. rewrite (proj2 (Z.eqb_neq h 0)), (proj1 (bk_genuine _ Hok)), Z.eqb_refl by lia.
  cbn [orb negb]. destruct (access_region region g) as [[[[x y] w] hh]|]; [|apply ensures_ret; intros p; by apply owned_touched].
  eapply ensures_bind; [by apply driver_lock_touched|]. intros ?. cbv beta. by apply ensures_ret.
Qed.

Lemma lock_owns h usage region fence B F M : h = 0 \/ h ∈ B -> ensures (mapper_owns B F M)
  (f ← (match fence with Some file => open_file CReceive file | None => mret (-1) end); mapper_lock h usage region f ;; mret tt)
  (fun _ => mapper_owns B F M).
Proof.
  intros HhB. eapply (ensures_bind _ _ _ (fun f p => f = -1 /\ mapper_owns B F M p \/ 0 < f /\ mapper_owns B (f :: F) M p)).
  { destruct fence; [apply receive_owns|apply ensures_ret; by left]. }
  intros f. cbv beta. eapply (ensures_bind _ _ _ (fun _ => mapper_owns B F M)); [|intros _; apply mapper_ret].
  change (mapper_lock h usage region f) with
    (r ← lock_region h usage region f; (if f <? 0 then mret tt else close_fd f) ;; mret r).
  apply ensures_or; apply ensures_pure.
  - intros ->. eapply ensures_bind; [by apply lock_region_owns|]. intros ?. cbv beta. cbn. by apply ensures_ret.
  - intros Hf. eapply ensures_bind; [by apply lock_region_owns|]. intros ?. cbv beta. rewrite (proj2 (Z.ltb_ge f 0)) by lia.
    eapply ensures_bind; [apply answered_owns|]. intros ?. cbv beta. apply mapper_ret.
Qed.

Lemma unlock_owns h B F M : ensures (mapper_owns B F M) (mapper_unlock h) (fun _ => mapper_owns B F M).
Proof.
  unfold mapper_unlock. destruct (Z.eqb_spec h 0); [apply mapper_ret|]. intros p Hp. apply runs_bind, runs_gets.
  assert (bufPool p = B) as -> by (destruct Hp as (N & _ & [_ _ _ _ ?] & _); done).
  case_bool_decide as HhB; cbn [negb]; [|done]. revert p Hp.
  eapply (ensures_bind _ _ _ (fun _ => mapper_owns B F M)); [|intros ?; apply mapper_ret].
  apply (mapper_touch _ h); [intros; by apply driver_unlock_touched|done].
Qed.

Lemma sync_owns sync h B F M : (forall B F M N h g0 g, buffer_ok g0 -> ensures (touched B F M N h g) (sync g0) (fun _ => touched B F M N h g)) ->
  h = 0 \/ h ∈ B ->
  ensures (mapper_owns B F M) (if h =? 0 then mret ERROR_BAD_BUFFER else ret ← driver_sync sync h; mret (if negb (ret =? 0) then ERROR_BAD_BUFFER else ERROR_NONE))
    (fun _ => mapper_owns B F M).
Proof.
  intros Hs HhB. destruct (Z.eqb_spec h 0); [apply mapper_ret|]. destruct HhB as [|HhB]; [done|].
  eapply ensures_bind; [|intros ?; cbv beta; apply mapper_ret].
  apply (mapper_touch _ h); [intros; apply driver_sync_touched; auto|done].
Qed.

(** *** Metadata *)

(** What is kept where the behaviour is defined. *)
Lemma mapper_keeps {A} (m : Proc A) h B F M p a p' :
  (forall F M N g p, buffer_ok g -> 0 < h -> owns B F (mapped g ++ M) ((h, g) :: N) p -> m p = Some (a, p') -> touched B F M N h g p') ->
  h ∈ B -> mapper_owns B F M p -> m p = Some (a, p') -> mapper_owns B F M p'.
Proof.
  intros Hm HhB Hp E. destruct (focus _ _ _ _ _ Hp HhB) as (g & N & HB & Hf & Hok & HN & Hh).
  destruct (Hm _ _ _ _ _ Hok Hh Hf E) as (g' & Hp' & Hok' & Hl). apply (unfocus B F M h g' N). split; [done|]. split; [|done]. by rewrite Hl.
Qed.

Lemma metadata_touched {A} B F M N h g (k : Z -> Proc A) (a : A) p r p' : buffer_ok g -> 0 < h ->
  (forall z p r p', owns B F (mapped g ++ M) ((h, g) :: N) p -> k z p = Some (r, p') -> owns B F (mapped g ++ M) ((h, g) :: N) p') ->
  owns B F (mapped g ++ M) ((h, g) :: N) p -> (z ← getMetadata h; match z with None => mret a | Some z => k z end) p = Some (r, p') ->
  touched B F M N h g p'.
Proof.
  intros Hok Hh Hk Hp (z & p1 & (region & p2 & E1 & E2)%st_bind_inv & E3)%st_bind_inv. apply owned_touched; [done|].
  destruct (runs_result _ _ _ _ _ E1 (region_owns _ _ _ _ _ _ Hok Hh _ Hp)) as [-> Hp2]. injection E2 as <- <-. by eapply Hk.
Qed.

(** A registered buffer is a genuine one. *)
Lemma convert_registered B F M N h g p : buffer_ok g -> 0 < h -> owns B F M ((h, g) :: N) p -> gralloc_convert_handle h p = Some (Some g, p).
Proof.
  intros Hok Hh Hp. unfold gralloc_convert_handle. rewrite (proj2 (Z.eqb_neq h 0)) by lia. unfold handle_at, mbind, St_bind. cbn.
  rewrite (owned_handle _ _ _ _ _ _ _ Hp). cbn. by rewrite (proj1 (bk_genuine _ Hok)), Z.eqb_refl.
Qed.

Lemma of_option_same {A} (o : option A) p a p' : of_option o p = Some (a, p') -> p' = p.
Proof. unfold of_option. destruct o; [by intros [= _ <-]|done]. Qed.

Lemma get_metadata_keeps h type B F M p a p' : mapper_owns B F M p -> getStandardMetadata h type p = Some (a, p') -> mapper_owns B F M p'.
Proof.
  intros Hp E. unfold getStandardMetadata in E. destruct (Z.eqb_spec h 0) as [|Hh0]; [by injection E as <- <-|].
  destruct (decide (h ∈ B)) as [HhB|HhB]; [|unfold mbind, St_bind in E; by rewrite (unregistered_dangling _ _ _ _ _ Hp Hh0 HhB) in E].
  eapply mapper_keeps; [|exact HhB|exact Hp|exact E]. clear. intros F M N g p Hok Hh Hp E.
  rewrite (st_bind_run _ _ _ _ _ (convert_registered _ _ _ _ _ _ _ Hok Hh Hp)) in E.
  destruct type; try (injection E as <- <-; by apply owned_touched).
  2: (destruct (getPlaneLayouts (gh_drm_format g)); [apply st_bind_inv in E as (ps & p1 & E1 & E2);
    apply of_option_same in E1 as ->; injection E2 as <- <-|injection E as <- <-]; by apply owned_touched).
  all: (eapply metadata_touched; [exact Hok|exact Hh| |exact Hp|exact E]);
    clear; intros z p r p' Hp (m & p1 & E1 & E2)%st_bind_inv; injection E2 as <- <-; by eapply read_metadata_owns.
Qed.

Lemma set_metadata_keeps h u B F M p a p' : mapper_owns B F M p -> setStandardMetadata h u p = Some (a, p') -> mapper_owns B F M p'.
Proof.
  intros Hp E. unfold setStandardMetadata in E. destruct (Z.eqb_spec h 0) as [|Hh0]; [by injection E as <- <-|].
  destruct (decide (h ∈ B)) as [HhB|HhB]; [|unfold mbind, St_bind in E; by rewrite (unregistered_dangling _ _ _ _ _ Hp Hh0 HhB) in E].
  eapply mapper_keeps; [|exact HhB|exact Hp|exact E]. clear. intros F M N g p Hok Hh Hp E.
  rewrite (st_bind_run _ _ _ _ _ (convert_registered _ _ _ _ _ _ _ Hok Hh Hp)) in E.
  destruct u as [| | | |[]]; try (injection E as <- <-; by apply owned_touched); (eapply metadata_touched; [exact Hok|exact Hh| |exact Hp|exact E]);
    clear; intros y p r p' Hp (m & p1 & E1 & E2)%st_bind_inv; injection E2 as <- <-; by eapply write_metadata_owns.
Qed.

(** *** A mapper in use *)

(** Buffers are imported from the allocator. *)
Definition op_ok (o : mapper_op) : Prop := match o with OpImport raw => genuine raw | _ => True end.

(** Requests that do not reach the memory of a buffer, about a buffer the mapper knows or about none. *)
Definition op_valid B (o : mapper_op) : Prop :=
  match o with
  | OpImport raw => genuine raw
  | OpFree _ | OpUnlock _ => True
  | OpLock h _ _ _ | OpFlush h | OpReread h => h = 0 \/ h ∈ B
  | OpGet _ _ | OpSet _ _ => False
  end.

Lemma exec_valid o B F M : op_valid B o -> ensures (mapper_owns B F M) (mapper_exec o) (fun _ => some_owns F M).
Proof.
  intros Ho. destruct o; cbn [mapper_exec op_valid] in *; try done.
  - eapply ensures_bind; [by apply import_owns|]. intros ?. by apply ensures_ret.
  - eapply ensures_bind; [apply free_owns|]. intros ?. by apply ensures_ret.
  - eapply ensures_post, lock_owns, Ho. intros ? p Hp. by exists B.
  - eapply ensures_bind; [apply unlock_owns|]. intros ?. apply ensures_ret. intros p Hp. by exists B.
  - eapply ensures_bind; [apply sync_owns, Ho; intros; by apply sync_end_touched|]. intros ?. apply ensures_ret. intros p Hp. by exists B.
  - eapply ensures_bind; [apply sync_owns, Ho; intros; by apply sync_start_touched|]. intros ?. apply ensures_ret. intros p Hp. by exists B.
Qed.

(** An invalid handle. *)
Lemma lock_dangling h usage region fence B F M p a p' : mapper_owns B F M p -> h <> 0 -> h ∉ B ->
  mapper_exec (OpLock h usage region fence) p = Some (a, p') -> some_owns F M p'.
Proof.
  intros Hp Hh HhB (f & p1 & E1 & (r & p2 & (r1 & p3 & E2 & E3)%st_bind_inv & E4)%st_bind_inv)%st_bind_inv. injection E4 as <- <-.
  assert (exists F', mapper_owns B F' M p1 /\ (f < 0 /\ F' = F \/ 0 < f /\ F' = f :: F)) as (F' & Hp1 & HF).
  { destruct fence; [|injection E1 as <- <-; exists F; split; [done|left; split; [lia|done]]].
    destruct (runs_result _ _ _ _ _ E1 (receive_owns _ _ _ _ _ Hp)) as [[-> ?]|[? ?]]; [exists F|exists (f :: F)]; split; try done; [left|right]; (split; [lia|done]). }
  rewrite (proj2 (Z.eqb_neq h 0)) in E2 by done. destruct (usage =? 0).
  - injection E2 as <- <-. destruct HF as [[Hf ->]|[Hf ->]].
    + rewrite (proj2 (Z.ltb_lt f 0)) in E3 by done. injection E3 as <- <-. by exists B.
    + rewrite (proj2 (Z.ltb_ge f 0)) in E3 by lia. injection E3 as <- <-. exists B. exact (answered_owns _ _ _ _ _ Hp1).
  - apply st_bind_inv in E2 as (? & ? & E2 & _). by rewrite (unregistered_dangling _ _ _ _ _ Hp1 Hh HhB) in E2.
Qed.

Lemma sync_dangling h sync B F M p a p' : mapper_owns B F M p -> h <> 0 -> h ∉ B ->
  (r ← (if h =? 0 then mret ERROR_BAD_BUFFER else ret ← driver_sync sync h; mret (if negb (ret =? 0) then ERROR_BAD_BUFFER else ERROR_NONE)); mret tt) p <>
  Some (a, p').
Proof.
  intros Hp Hh HhB (? & ? & E & _)%st_bind_inv. rewrite (proj2 (Z.eqb_neq h 0)) in E by done.
  apply st_bind_inv in E as (? & ? & (? & ? & E & _)%st_bind_inv & _). by rewrite (unregistered_dangling _ _ _ _ _ Hp Hh HhB) in E.
Qed.

Lemma exec_keeps o F M p a p' : op_ok o -> some_owns F M p -> mapper_exec o p = Some (a, p') -> some_owns F M p'.
Proof.
  intros Ho [B Hp] E. assert (op_valid B o -> some_owns F M p') as Hv by (intros Hv; exact (runs_result _ _ _ _ _ E (exec_valid _ _ _ _ Hv _ Hp))).
  destruct o as [| |h| |h|h|h|h]; try (by apply Hv).
  - destruct (decide (h = 0 \/ h ∈ B)) as [|Hn]; [by apply Hv|]. assert (h <> 0 /\ h ∉ B) as [? ?] by tauto. by eapply lock_dangling.
  - destruct (decide (h = 0 \/ h ∈ B)) as [|Hn]; [by apply Hv|]. assert (h <> 0 /\ h ∉ B) as [Hh HB] by tauto. by destruct (sync_dangling _ _ _ _ _ _ _ _ Hp Hh HB E).
  - destruct (decide (h = 0 \/ h ∈ B)) as [|Hn]; [by apply Hv|]. assert (h <> 0 /\ h ∉ B) as [Hh HB] by tauto. by destruct (sync_dangling _ _ _ _ _ _ _ _ Hp Hh HB E).
  - apply st_bind_inv in E as (? & ? & E & E2). injection E2 as <- <-. exists B. by eapply get_metadata_keeps.
  - apply st_bind_inv in E as (? & ? & E & E2). injection E2 as <- <-. exists B. by eapply set_metadata_keeps.
Qed.

Lemma run_keeps ops F M p a p' : Forall op_ok ops -> some_owns F M p -> for_each ops mapper_exec p = Some (a, p') -> some_owns F M p'.
Proof.
  intros Hops. revert p. induction Hops as [|o ops Ho _ IH]; intros p Hp; [by intros [= <- <-]|].
  intros (? & p1 & E1 & E2)%st_bind_inv. eapply IH; [|exact E2]. by eapply exec_keeps.
Qed.

(** C21: Whatever is asked of a mapper that starts without buffers, when what it imports are handles with two descriptors as the
    allocator makes them ([genuine]): the handles it knows are those that are registered, each with two descriptors of its own; the
    open descriptors are those, and the ones there were at the start; the mappings are those of the registered buffers and the ones
    there were.  The next import, free or unlock has a defined behaviour, and so have the next lock, flush and reread of a registered
    buffer or of none; the requests that go to the metadata of a buffer ([OpGet], [OpSet]) are left out of this.  When the last
    buffer is freed everything is given back. *)
Theorem mapper_reachable_owns p0 ops p : pr_handles p0 = ∅ -> bufPool p0 = ∅ -> 0 < pr_next p0 -> Forall op_ok ops ->
  for_each ops mapper_exec p0 = Some (tt, p) ->
  let buffers := (map_to_list (pr_handles p)).*2 in
  (forall h, h ∈ bufPool p <-> is_Some (pr_handles p !! h)) /\ Forall buffer_ok buffers /\
  (map_to_list (pr_fds p)).*1 ≡ₚ (buffers ≫= live_fds) ++ (map_to_list (pr_fds p0)).*1 /\
  (map_to_list (pr_maps p)).*1 ≡ₚ (buffers ≫= mapped) ++ (map_to_list (pr_maps p0)).*1 /\
  forall o, op_valid (bufPool p) o -> is_Some (mapper_exec o p).
Proof.
  intros Hh Hb Hn Hops E. assert (some_owns (map_to_list (pr_fds p0)).*1 (map_to_list (pr_maps p0)).*1 p0) as H0.
  { exists ∅, []. split; [done|]. split; [|constructor]. split; cbn; [done..|by rewrite Hh, map_to_list_empty| |done]. split; [done|]. by intros h g ?%elem_of_nil. }
  destruct (run_keeps _ _ _ _ _ _ Hops H0 E) as (B & N & HB & Hown & HN). pose proof Hown as [H1 H2 H3 _ H5]. intros buffers.
  assert (N.*2 ≡ₚ buffers) as HN2 by (unfold buffers; by rewrite H3).
  assert (forall f : gralloc_handle -> list Z, (N ≫= fun x => f x.2) = (N.*2 ≫= f)) as Hf by (intros f; clear; induction N as [|x N IH]; [done|]; cbn; by rewrite IH).
  split_and!.
  - intros h. rewrite H5, HB, elem_of_list_to_set, <- H3, list_elem_of_fmap. split.
    + intros ([h' g] & -> & Hin%elem_of_map_to_list). by eexists.
    + intros [g Hg]. exists (h, g). split; [done|]. by apply elem_of_map_to_list.
  - rewrite <- HN2. by apply Forall_fmap.
  - by rewrite H1, <- HN2, <- Hf.
  - by rewrite H2, <- HN2, <- Hf.
  - intros o Ho. rewrite H5 in Ho. destruct (runs_some _ _ _ (exec_valid _ _ _ _ Ho p (ex_intro _ N (conj HB (conj Hown HN))))) as (? & ? & -> & _). done.
Qed.
End Mapper.

(** ** Examples *)

Definition demo_usage : GrallocUsage :=
  {| GRALLOC_USAGE_HW_FB := 0x1000; GRALLOC_USAGE_HW_COMPOSER := 0x800; GRALLOC_USAGE_PROTECTED := 0x4000; GRALLOC_USAGE_HW_VIDEO_ENCODER := 0x10000;
     GRALLOC_USAGE_PRIVATE_3 := 0x80000000; GRALLOC_USAGE_HW_CAMERA_WRITE := 0x20000; GRALLOC_USAGE_HW_TEXTURE := 0x100;
     GRALLOC_USAGE_HW_RENDER := 0x200; GPU_DATA_BUFFER := 0x1000000; GRALLOC_USAGE_SW_READ_OFTEN := 3; GRALLOC_USAGE_SW_WRITE_OFTEN := 0x30;
     GRALLOC_USAGE_SW_READ_MASK := 0xF; GRALLOC_USAGE_SW_WRITE_MASK := 0xF0; kDmabufSystemHeapName := "system";
     kDmabufSystemUncachedHeapName := "system-uncached"; sizeof_gralloc_metadata := 2048; BLEND_MODE_INVALID := 0 |}.

(** The first number above all keys. *)
Definition next_key {A} (m : gmap Z A) : Z := 1 + foldr Z.max 0 (map_to_list m).*1.

Lemma next_key_above {A} (m : gmap Z A) : 0 < next_key m /\ m !! next_key m = None.
Proof.
  unfold next_key. assert (forall l, 0 <= foldr Z.max 0 l /\ forall k, k ∈ l -> k <= foldr Z.max 0 l) as Hmax.
  { induction l as [|x l [IH1 IH2]]; cbn; [split; [done|by intros k ?%elem_of_nil]|]. split; [lia|]. intros k [->|Hk%IH2]%elem_of_cons; lia. }
  destruct (Hmax (map_to_list m).*1) as [H1 H2]. split; [lia|]. destruct (m !! _) as [x|] eqn:E; [|done].
  apply elem_of_map_to_list in E. apply (list_elem_of_fmap_2 fst) in E. specialize (H2 _ E). cbn in H2. lia.
Qed.

(** A kernel that refuses some calls, and no allocator of a GPU. *)
Definition demo_os (refuse : os_call -> bool) : GrallocOs :=
  {| os_open calls fds := match calls with c :: _ => if refuse c then -1 else next_key fds | [] => -1 end;
     os_map calls maps := match calls with [] | CMap 0 _ :: _ => None | c :: _ => if refuse c then None else Some (next_key maps) end;
     os_result _ := 0; os_errno _ := 12; os_phys _ := None; has_heap _ := true; gpu_present := false; gpu_handle _ := None; gpu_address _ := 0 |}.

Lemma demo_os_laws refuse : @GrallocOsLaws (demo_os refuse).
Proof.
  split; cbn; try done.
  - intros [|c calls] fds; [lia|]. destruct (refuse c); [lia|]. intros _. apply next_key_above.
  - intros calls maps a. assert (forall c, (if refuse c then None else Some (next_key maps)) = Some a -> 0 < a /\ maps !! a = None) as Hc.
    { intros c. destruct (refuse c); [done|]. intros [= <-]. apply next_key_above. }
    destruct calls as [|[] calls]; try done; try apply Hc. case_match; [done|apply Hc..].
Qed.

#[local] Existing Instance demo_usage.
#[local] Instance demo_kernel : GrallocOs := demo_os (fun _ => false).
#[local] Instance demo_kernel_laws : GrallocOsLaws := demo_os_laws _.

Definition demo_raw : gralloc_handle :=
  let d := mkDesc 16 16 RGBA_8888 1 0 2048 "demo" DRM_FORMAT_ABGR8888 DRM_FORMAT_MOD_LINEAR 0 1024 16 1 [64; 0; 0; 0] [0; 0; 0; 0] [1024; 0; 0; 0] in
  h_with_layout (h_with_fds (make_gralloc_handle 3 d 0) 2 [3; 4; 0; 0; 0] "demo") d DRM_FORMAT_MOD_LINEAR 1.

(** A client that has received a buffer. *)
Definition demo_client : Process := mkProcess {[3 := 10; 4 := 11]} ∅ {[10 := zero_metadata; 11 := zero_metadata]} ∅ ∅ 100 1 [].

Definition whole : ARect := mkARect 0 0 0 0.

(** The buffer is imported twice, one of the two is used and freed. *)
Definition demo_ops : list mapper_op :=
  [OpImport demo_raw; OpImport demo_raw; OpLock 100 0x33 whole (Some 12); OpUnlock 100; OpSet 100 (UDataspace 7); OpFree 100].

Lemma mapper_reachable_owns_witness : exists p, for_each demo_ops mapper_exec demo_client = Some (tt, p) /\ bufPool p = {[101]} /\
  (map_to_list (pr_fds p)).*1 ≡ₚ ((map_to_list (pr_handles p)).*2 ≫= live_fds) ++ [3; 4] /\
  is_Some (mapper_exec (OpLock 101 3 whole None) p).
Proof.
  destruct (for_each demo_ops mapper_exec demo_client) as [[[] p]|] eqn:E; [|vm_compute in E; discriminate E].
  assert (bufPool p = {[101]}) as Hpool by (vm_compute in E; injection E as <-; reflexivity).
  exists p. destruct (mapper_reachable_owns demo_client demo_ops p) as (_ & _ & Hf & _ & Hn);
    [reflexivity|reflexivity|reflexivity| |exact E|].
  { repeat constructor. }
  split; [reflexivity|]. split; [exact Hpool|]. split; [exact Hf|]. apply Hn. rewrite Hpool. right. apply elem_of_singleton. reflexivity.
Defined.

(** What one client writes beside the picture, another reads. *)
Example metadata_is_shared : (fst <$> (for_each (take 5 demo_ops) mapper_exec ;; getStandardMetadata 101 DATASPACE) demo_client) = Some (inr (VNumber 7)).
Proof. vm_compute. reflexivity. Qed.

(** A client asks for the planes of a picture of 16 by 16 pixels. *)
Example planes_are_told : (fst <$> (importBuffer demo_raw ;; getStandardMetadata 100 PLANE_LAYOUTS) demo_client) =
  Some (inr (VPlanes [mkPlane [mkComponent PlaneLayoutComponentType_R 0 8; mkComponent PlaneLayoutComponentType_G 8 8;
    mkComponent PlaneLayoutComponentType_B 16 8; mkComponent PlaneLayoutComponentType_A 24 8] 32 1 1 0 64 1024 16 16])).
Proof. vm_compute. reflexivity. Qed.

(** The calls to the kernel for an end of an access. *)
Definition sync_calls (p : Process) : list os_call := List.filter (fun c => match c with CSyncStart _ _ | CSyncEnd _ _ => true | _ => false end) (rev (pr_calls p)).
Definition sync_calls_of (ops : list mapper_op) : option (list os_call) := (fun r => sync_calls r.2) <$> for_each (OpImport demo_raw :: ops) mapper_exec demo_client.

Example write_is_ended : sync_calls_of [OpLock 100 0x30 whole None; OpUnlock 100] = Some [CSyncStart 5 kSyncWrite; CSyncEnd 5 kSyncWrite].
Proof. vm_compute. reflexivity. Qed.

(** The end of reading is never told. *)
Example read_is_not_ended : sync_calls_of [OpLock 100 0x3 whole None; OpUnlock 100] = Some [CSyncStart 5 kSyncRead].
Proof. vm_compute. reflexivity. Qed.

(** Nor is that of writing, when a lock for reading came between. *)
Example write_then_read_is_not_ended : sync_calls_of [OpLock 100 0x30 whole None; OpLock 100 0x3 whole None; OpUnlock 100; OpUnlock 100] =
  Some [CSyncStart 5 kSyncWrite; CSyncStart 5 kSyncRead].
Proof. vm_compute. reflexivity. Qed.

(** The region is found, and not told. *)
Example region_not_told : (fst <$> (importBuffer demo_raw ;; getReservedRegion 100 0 0) demo_client) = Some (ERROR_NONE, 0, 0).
Proof. vm_compute. reflexivity. Qed.
