(* ===== verification/GrallocAllocate.v ===== *)
(** * The allocator service gives all away

    A request of the allocator service (aidl/NxpAllocator.cpp) that succeeds leaves in its
    process the descriptors of the parcels it answers with and nothing else: the buffers
    have been released, with their mappings and handles.  What is handed out is what the
    mapper of a client imports. *)

From S2P Require Import Prelude GrallocLayout GrallocPlanes Gralloc GrallocOwn.

(** ** Layouts are always calculated *)

Lemma div_round_up_some n d : d <> 0 -> is_Some (DIV_ROUND_UP n d).
Proof. intros Hd. unfold DIV_ROUND_UP. rewrite (proj2 (Z.eqb_neq d 0)) by done. by eexists. Qed.

Lemma plane_loop_defined f m h aw ah pad ps : forall strides offsets sizes offset total, Forall (fun p => p < drv_num_planes_from_format f)%nat ps ->
  is_Some (plane_loop f m h aw ah [0; 0; 0; 0; pad] ps strides offsets sizes offset total).
Proof.
  induction ps as [|p ps IH]; intros strides offsets sizes offset total Hps; [by eexists|]. apply Forall_cons in Hps as [Hp Hps].
  unfold drv_num_planes_from_format in Hp. destruct (layout_from_format f) as [L|] eqn:EL; [|lia].
  destruct (layout_plane f L p EL Hp) as (hs & vs & bpp & Ehs & Evs & Ebpp & Hhs & Hvs & _). pose proof (layout_planes f L EL) as Hn. cbn [plane_loop].
  assert (is_Some (drv_stride_from_format f m aw p)) as [stride ->].
  { unfold drv_stride_from_format. rewrite EL. cbn. rewrite Ebpp. cbn. rewrite Ehs. cbn. destruct (_ && _); [|by eexists].
    destruct (div_round_up_some aw hs) as [w ->]; [lia|]. by eexists. }
  assert (forall k, is_Some (drv_height_from_format f k p)) as Hrows.
  { intros k. unfold drv_height_from_format. rewrite EL. cbn. rewrite Evs. apply div_round_up_some. lia. }
  unfold drv_size_from_format. destruct (Hrows h) as [rows ->], (Hrows ah) as [rows' ->]. cbn.
  assert ([0; 0; 0; 0; pad] !! p = Some 0) as -> by (do 4 (destruct p as [|p]; [done|]); lia). cbn. by apply IH.
Qed.

Lemma calculation_defined board d aw ah info : getPixleFormatInfo board (ds_format d) = Some info ->
  exists total planes strides offsets sizes, drv_buffer_info_calculation board d aw ah = Some (0, desc_with_planes d total planes strides offsets sizes).
Proof.
  intros Hi. unfold drv_buffer_info_calculation. rewrite Hi. unfold drv_buffer_info_calculation_and_padding.
  destruct (plane_loop_defined (fourcc info) (fi_modifier info) (ds_height d) aw ah (total_padding info d aw ah) (seq 0 (drv_num_planes_from_format (fourcc info)))
    (ds_strides d) (ds_offsets d) (ds_sizes d) 0 0) as [[[[strides offsets] sizes] total] ->].
  { apply Forall_forall. intros p Hp%elem_of_seq. lia. }
  cbn. by do 5 eexists.
Qed.

(** ** One buffer *)

Section Allocate.
Context `{GU : !GrallocUsage, GO : !GrallocOs, GL : !GrallocOsLaws}.
Variables (board : BoardConfig) (B : gset Z).
(** The GPU of the board has no allocator of its own, and the metadata is not empty. *)
Hypotheses (no_gpu : gpu_present = false) (metadata_size : 0 < sizeof_gralloc_metadata).
Implicit Types (F M : list Z) (N : list (Z * gralloc_handle)) (g : gralloc_handle) (p : Process) (d : gralloc_buffer_descriptor).

#[local] Abbreviation owns := (owns B).

(** Something may have been left behind. *)
Definition lost F M N p : Prop := exists F' M' N', owns (F' ++ F) (M' ++ M) (N' ++ N) p.

Lemma owns_lost F M N p : owns F M N p -> lost F M N p.
Proof. intros Hp. by exists [], [], []. Qed.

(** A region is mapped. *)
Definition region_at (a len : Z) p : Prop := exists file, pr_maps p !! a = Some (file, len).

(** A new buffer, with its region. *)
Definition made F M N (h : Z) (len : Z) p : Prop :=
  exists g, (0 < h /\ buffer_ok g) /\ owns (live_fds g ++ F) (mapped g ++ M) ((h, g) :: N) p /\ region_at (attr_base g) len p.

Lemma allocator_allocate_owns d F M N : ensures (owns F M N) (allocator_allocate d)
  (fun h p => h = 0 /\ owns F M N p \/ exists fd flags, (0 < h /\ 0 < fd) /\ owns (fd :: F) M ((h, make_gralloc_handle fd d flags) :: N) p).
Proof.
  ensure Alloc_owns. apply ensures_or; apply ensures_pure.
  - intros ->. apply ensures_ret. by left.
  - intros Hfd. rewrite (proj2 (Z.ltb_ge _ 0)) by lia. eapply ensures_post, new_handle_owns. intros h p [Hh Hp]. right. eexists _, _. split; [split; [exact Hh|exact Hfd]|exact Hp].
Qed.

(** The handle of memory from a heap. *)
Definition heap_handle (fd : Z) g : Prop := gh_magic g = sMagic /\ gh_fds g = [fd; 0; 0; 0; 0] /\ gh_base g = 0 /\ attr_base g = 0.

Lemma dmabuf_allocate_owns d F M N : ensures (owns F M N) (dmabuf_allocate board d true)
  (fun r p => r.1.1 <> 0 /\ owns F M N p \/
     exists fd g, (r.1.1 = 0 /\ ds_reserved r.1.2 = ds_reserved d /\ 0 < r.2 /\ 0 < fd /\ heap_handle fd g) /\ owns (fd :: F) M ((r.2, g) :: N) p).
Proof.
  unfold dmabuf_allocate, drv_pixel_width_height_alignment. destruct (getPixleFormatInfo board (ds_format d)) as [info|] eqn:Ei; cbn;
    [|apply ensures_ret; by left].
  destruct (picture_alignment info d) as [w h]. cbn. set (aw := if _ || _ then _ else _).
  destruct (calculation_defined board d aw h info Ei) as (total & planes & strides & offsets & sizes & E). ensure_some E.
  set (d' := desc_with_planes _ _ _ _ _ _). ensure allocator_allocate_owns. apply ensures_or.
  - apply ensures_pure; intros ->. apply ensures_ret. by left.
  - apply ensures_exists; intros fd. apply ensures_exists; intros flags. apply ensures_pure; intros [Hh Hfd].
    rewrite (proj2 (Z.eqb_neq _ 0)) by lia. ensure set_handle_owns. apply ensures_ret. intros p Hp. right. exists fd. eexists.
    split; [|exact Hp]. by split_and!.
Qed.

Lemma allocate_memory_owns d F M N : ensures (owns F M N) (allocate_memory board d)
  (fun r p => r.1.1 <> 0 /\ owns F M N p \/
     exists fd g, (r.1.1 = 0 /\ ds_reserved r.1.2 = ds_reserved d /\ 0 < r.2 /\ 0 < fd /\ heap_handle fd g) /\ owns (fd :: F) M ((r.2, g) :: N) p).
Proof.
  unfold allocate_memory. assert (forall f u x, allocate_from_gpu_gralloc board f u x = false) as ->.
  { intros f u x. unfold allocate_from_gpu_gralloc. rewrite no_gpu. by destruct (getPixleFormatInfo board f). }
  ensure dmabuf_allocate_owns. destruct a as [[ret d'] h]. cbn. apply ensures_or.
  - apply ensures_pure; intros Hr. rewrite (proj2 (Z.eqb_neq ret 0)) by done. apply ensures_ret. by left.
  - apply ensures_exists; intros fd. apply ensures_exists; intros g. apply ensures_pure; intros (-> & Hd & Hh & Hfd & Hg). cbn [Z.eqb].
    ensure set_handle_owns. apply ensures_ret. intros p Hp. right. exists fd. eexists. split; [|exact Hp]. split_and!; try done. by destruct (_ && _).
Qed.

Lemma physical_owns fd F M N h g : heap_handle fd g -> 0 < fd ->
  ensures (owns (fd :: F) M ((h, g) :: N))
    (if has (gh_flags g) NXP_GRALLOC_FLAGS_CONTIGUOUS then
       phys ← allocator_get_physical_address h;
       match phys with Some a => set_handle h (fun g => h_with_phys g a) | None => mret tt end
     else mret tt)
    (fun _ p => exists g', heap_handle fd g' /\ owns (fd :: F) M ((h, g') :: N) p).
Proof.
  intros Hg Hfd. destruct (has (gh_flags g) NXP_GRALLOC_FLAGS_CONTIGUOUS) eqn:Ec; [|apply ensures_ret; intros p Hp; by exists g].
  eapply (ensures_bind _ _ _ (fun _ => owns (fd :: F) M ((h, g) :: N))).
  - ensure handle_at_owns. apply ensures_pure; intros ->. rewrite Ec. cbn [negb]. assert (gh_fds g !! 0%nat = Some fd) as E by (by rewrite (proj1 (proj2 Hg))).
    ensure_some E. rewrite (proj2 (Z.ltb_ge fd 0)) by lia. intros p Hp. by apply owns_call.
  - intros [a|]; [|apply ensures_ret; intros p Hp; by exists g]. eapply ensures_post, set_handle_owns. intros ? p Hp. eexists. split; [|exact Hp]. exact Hg.
Qed.

Lemma region_mmap_owns len fd F M N : ensures (owns F M N) (mmap len fd)
  (fun r p => r = None /\ owns F M N p \/ exists a, r = Some a /\ 0 < a /\ owns F (a :: M) N p /\ region_at a len p).
Proof.
  intros p Hp. pose proof (mmap_owns B len fd F M N p Hp) as H. unfold runs, mmap, mbind, St_bind in *. cbn in *.
  destruct (_ !! fd) as [file|] eqn:E1; [|destruct H as [H|(? & [=] & _)]; by left].
  destruct (os_map _ _) as [a|] eqn:E2; cbn in *; [|destruct H as [H|(? & [=] & _)]; by left].
  destruct H as [[E _]|(a' & E & Ha & Hp')]; [done|]. injection E as <-. right. exists a. split; [done|]. split; [done|]. split; [done|].
  exists file. apply lookup_insert_eq.
Qed.

Lemma set_handle_region f a len F M N h g : ensures (fun p => owns F M ((h, g) :: N) p /\ region_at a len p) (set_handle h f)
  (fun _ p => owns F M ((h, f g) :: N) p /\ region_at a len p).
Proof. intros p [Hp Hr]. split; [exact (set_handle_owns B f F M N h g p Hp)|exact Hr]. Qed.

Lemma driver_allocate_owns d F M N : 0 < ds_reserved d -> ensures (owns F M N) (driver_allocate board d)
  (fun r p => r.1.1 <> 0 /\ lost F M N p \/ r.1.1 = 0 /\ made F M N r.2 (ds_reserved d) p).
Proof.
  intros Hres. ensure allocate_memory_owns. destruct a as [[ret d'] h]. cbn. apply ensures_or.
  { apply ensures_pure; intros Hr. rewrite (proj2 (Z.eqb_neq ret 0)) by done. apply ensures_ret. intros p Hp. left. split; [done|by apply owns_lost]. }
  apply ensures_exists; intros fd. apply ensures_exists; intros g. apply ensures_pure; intros (-> & Hd & Hh & Hfd & Hg).
  rewrite (proj2 (Z.eqb_neq h 0)) by lia. cbn [Z.eqb negb orb]. ensure handle_at_owns. apply ensures_pure; intros ->.
  eapply ensures_bind; [by apply physical_owns|]. intros ?. cbv beta. apply ensures_exists; intros g'. apply ensures_pure; intros Hg'. clear g Hg.
  ensure_gets. eapply (ensures_bind _ _ _ (fun _ => owns (fd :: F) M ((h, g') :: N))).
  { apply ensures_modify. by intros p [_ [? ? ? ? ?]]. }
  intros ?. cbv beta. eapply ensures_bind; [apply set_handle_owns|]. intros ?. cbv beta. set (g := h_with_layout g' d' _ _).
  assert (heap_handle fd g) as Hg by exact Hg'. clearbody g. clear g' Hg'. rewrite Hd, (proj2 (Z.ltb_lt 0 _)) by done.
  eapply ensures_bind; [apply Alloc_owns|]. intros rfd. cbv beta. apply ensures_or; apply ensures_pure.
  { intros ->. apply ensures_ret. intros p Hp. left. split; [done|]. by exists [fd], [], [(h, g)]. }
  intros Hr. rewrite (proj2 (Z.ltb_ge _ 0)) by lia. ensure region_mmap_owns. apply ensures_or.
  { apply ensures_pure; intros ->. ensure neg_errno_owns. apply ensures_pure; intros He. apply ensures_ret. intros p Hp. left.
    split; [cbn; lia|]. by exists [rfd; fd], [], [(h, g)]. }
  apply ensures_exists; intros m. apply ensures_pure; intros ->. apply ensures_pure; intros Ha.
  ensure set_handle_region. ensure set_handle_region. apply ensures_ret. intros p [Hp Hreg]. right. split; [done|].
  destruct Hg as (Hm & Hf & Hb & Ht). match type of Hp with context [(h, ?x) :: N] => exists x end. split; [split; [exact Hh|]|split; [|exact Hreg]].
  - split; cbn; [split; [done|split; [done|rewrite Hf; cbn; lia]]| |done]. unfold owned_fds. cbn. rewrite Hf. by repeat constructor.
  - revert Hp. apply owns_perm; [| |done].
    + rewrite (live_fds_two _ fd rfd [0; 0; 0]); [apply perm_swap|done|cbn; by rewrite Hf|done|done].
    + unfold mapped. cbn. rewrite Hb. unfold addresses. cbn. by rewrite (proj2 (Z.eqb_neq m 0)) by lia.
Qed.

(** A buffer that is kept: beside what there was, all it has. *)
Definition kept F M N (h : Z) p : Prop := exists g, (0 < h /\ buffer_ok g) /\ owns (live_fds g ++ F) (mapped g ++ M) ((h, g) :: N) p.

Lemma write_region_owns a len f F M N : sizeof_gralloc_metadata <= len ->
  ensures (fun p => owns F M N p /\ region_at a len p) (write_metadata a f) (fun _ => owns F M N).
Proof.
  intros Hlen p [[? ? ? ? ?] [file Hfile]]. unfold runs, write_metadata, metadata_file, mbind, St_bind. cbn. rewrite Hfile. cbn.
  rewrite (proj2 (Z.leb_le _ len)) by done. by split.
Qed.

Lemma initialize_owns F M N h len d dataspace : sizeof_gralloc_metadata <= len ->
  ensures (made F M N h len)
    (memHandle ← gralloc_convert_handle h; initializeMetadata (match memHandle with Some _ => Some h | None => None end) d dataspace)
    (fun st p => st = OK /\ kept F M N h p).
Proof.
  intros Hlen. apply ensures_exists; intros g. apply ensures_pure; intros [Hh Hok] p [Hp Hr]. apply runs_bind. unfold runs at 1.
  rewrite (convert_registered _ _ _ _ _ _ _ Hok Hh Hp). cbn [initializeMetadata]. apply runs_bind.
  destruct (buffer_fds g Hok) as (a & b & l & _ & _ & El & _ & Hb).
  assert (get_reserved_region h p = Some (Some (attr_base g, reserved_region_size g), p)) as E.
  { unfold get_reserved_region. rewrite (st_bind_run _ _ _ _ _ (convert_registered _ _ _ _ _ _ _ Hok Hh Hp)). rewrite El. unfold mbind, St_bind. cbn.
    by rewrite (proj2 (Z.leb_gt b 0)). }
  unfold runs at 1. rewrite E. revert p Hp Hr E. intros p Hp Hr _.
  refine (ensures_bind _ _ (fun p => _ /\ _) (fun _ => owns (live_fds g ++ F) (mapped g ++ M) ((h, g) :: N)) _ _ _ p (conj Hp Hr)).
  - by apply write_region_owns.
  - intros ?. apply ensures_ret. intros p' Hp'. split; [done|]. by exists g.
Qed.

Lemma convert_sizes descriptor d : convertToHalDescriptor board descriptor = Some d -> ds_reserved d = bd_reservedSize descriptor.
Proof.
  unfold convertToHalDescriptor. destruct (1 <? _); [done|]. destruct (getPixleFormatInfo _ _) as [info|]; [|done]. cbn.
  destruct (_ && _); [done|]. by intros [= <-].
Qed.

(** A request whose region has a size. *)
Definition sane_request (descriptor : BufferDescriptorInfo) : Prop :=
  0 <= bd_reservedSize descriptor /\ bd_reservedSize descriptor + sizeof_gralloc_metadata < 2 ^ 64.

Lemma allocate_buffer_owns descriptor dataspace F M N : sane_request descriptor ->
  ensures (owns F M N) (allocate_buffer board descriptor dataspace)
    (fun r p => r.1 <> OK /\ lost F M N p \/ exists stride h, r = (OK, Some (stride, h)) /\ kept F M N h p).
Proof.
  intros [Hres1 Hres2]. unfold allocate_buffer. destruct (convertToHalDescriptor board descriptor) as [d|] eqn:Ed;
    [|apply ensures_ret; intros p Hp; left; split; [done|by apply owns_lost]]. pose proof (convert_sizes _ _ Ed) as Hsize.
  set (d0 := with_reserved d _). assert (ds_reserved d0 = bd_reservedSize descriptor + sizeof_gralloc_metadata) as Hd0.
  { cbn. rewrite Hsize. apply wrap_u_id. unfold in_u. lia. }
  clearbody d0. destruct (negb (is_supported d0)); [apply ensures_ret; intros p Hp; left; split; [done|by apply owns_lost]|].
  eapply ensures_bind; [apply driver_allocate_owns; lia|]. intros [[ret d'] h]. cbn. apply ensures_or; apply ensures_pure.
  { intros Hr. rewrite (proj2 (Z.eqb_neq ret 0)) by done. apply ensures_ret. by left. }
  intros ->. cbn [Z.eqb negb]. intros p Hp. assert (0 < h) as Hh by (by destruct Hp as (g & [? _] & _)).
  rewrite (proj2 (Z.eqb_neq h 0)) by lia.
  pose proof (initialize_owns F M N h (ds_reserved d0) d' dataspace ltac:(lia) p Hp) as Hi. apply runs_bind in Hi. apply runs_bind.
  eapply runs_mono; [|exact Hi]. clear Hi. intros mh p1 Hi. apply runs_bind. eapply runs_mono; [|exact Hi]. cbv beta.
  intros st p2 [-> (g & Hg & Hp2)]. cbn [is_ok negb]. revert p2 Hp2. match goal with |- forall p, _ -> runs ?m _ ?Q => change (ensures (owns (live_fds g ++ F) (mapped g ++ M) ((h, g) :: N)) m Q) end.
  ensure handle_at_owns. apply ensures_pure; intros ->. apply ensures_ret. intros p2 Hp2. right. do 2 eexists. split; [done|]. by exists g.
Qed.

(** ** A request *)

Lemma owns_app hs h g F M N p : owns (live_fds g ++ fds_of hs ++ F) (mapped g ++ maps_of hs ++ M) ((h, g) :: hs ++ N) p ->
  owns (fds_of (hs ++ [(h, g)]) ++ F) (maps_of (hs ++ [(h, g)]) ++ M) ((hs ++ [(h, g)]) ++ N) p.
Proof.
  apply owns_perm; unfold fds_of, maps_of; rewrite ?bind_app; cbn; rewrite ?app_nil_r, <- ?(assoc_L (++)); apply Permutation_app_swap_app || apply Permutation_middle.
Qed.

(** Buffers that are released are gone. *)
Lemma release_owns F M N h g : 0 < h -> buffer_ok g ->
  ensures (owns (live_fds g ++ F) (mapped g ++ M) ((h, g) :: N)) (releaseBufferAndHandle h) (fun _ => owns F M N).
Proof.
  intros Hh Hok. unfold releaseBufferAndHandle. rewrite (proj2 (Z.eqb_neq h 0)) by lia.
  eapply ensures_bind; [by apply driver_release_owns|]. intros r. cbv beta. apply ensures_pure; intros _. by apply ensures_ret.
Qed.

Definition ready (hs : list (Z * gralloc_handle)) : Prop := Forall (fun x => 0 < x.1 /\ buffer_ok x.2) hs.

Lemma release_all_owns hs F M N : ready hs ->
  ensures (owns (fds_of hs ++ F) (maps_of hs ++ M) (hs ++ N)) (for_each hs.*1 releaseBufferAndHandle) (fun _ => owns F M N).
Proof.
  intros Hhs. revert F M N. induction Hhs as [|[h g] hs [Hh Hok] _ IH]; intros F M N; [by apply ensures_ret|]. cbn [fmap list_fmap for_each].
  eapply (ensures_bind _ _ _ (fun _ => owns (fds_of hs ++ F) (maps_of hs ++ M) (hs ++ N))); [|intros _; apply IH].
  eapply ensures_pre, release_owns; [|exact Hh|exact Hok]. intros p. unfold fds_of, maps_of. cbn. by rewrite <- !(assoc_L (++)).
Qed.

Lemma lost_later F M N hs p : lost (fds_of hs ++ F) (maps_of hs ++ M) (hs ++ N) p ->
  exists F' M' N', owns (fds_of hs ++ F' ++ F) (maps_of hs ++ M' ++ M) (hs ++ N' ++ N) p.
Proof.
  intros (F' & M' & N' & Hp). exists F', M', N'. revert Hp. apply owns_perm; apply Permutation_app_swap_app.
Qed.

Lemma allocate_all_owns descriptor dataspace F M N : sane_request descriptor -> forall n hs stride, ready hs ->
  ensures (owns (fds_of hs ++ F) (maps_of hs ++ M) (hs ++ N)) (allocate_all board descriptor dataspace n hs.*1 stride)
    (fun r p => r.1 <> OK /\ lost F M N p \/ exists hs' stride', r = (OK, (hs'.*1, stride')) /\ (length hs' = (length hs + n)%nat /\ ready hs') /\
       owns (fds_of hs' ++ F) (maps_of hs' ++ M) (hs' ++ N) p).
Proof.
  intros Hreq n. induction n as [|n IH]; intros hs stride Hhs; cbn [allocate_all].
  { apply ensures_ret. intros p Hp. right. exists hs, stride. split; [done|]. split; [split; [lia|done]|exact Hp]. }
  eapply ensures_bind; [by apply allocate_buffer_owns|]. intros r. cbv beta. apply ensures_or.
  - apply ensures_pure; intros Hr. intros p Hp. destruct r as [st o]. cbn in Hr.
    enough (runs (for_each hs.*1 releaseBufferAndHandle ;; mret (st, (hs.*1, stride))) p
      (fun r p => r.1 <> OK /\ lost F M N p)) as Hrun.
    { destruct st; try done; (eapply runs_mono; [|exact Hrun]); by left. }
    destruct (lost_later _ _ _ _ _ Hp) as (F' & M' & N' & Hp'). apply runs_bind. eapply runs_mono; [|by apply release_all_owns].
    intros ? p' Hp2. split; [done|]. by exists F', M', N'.
  - apply ensures_exists; intros s. apply ensures_exists; intros h. apply ensures_pure; intros ->. apply ensures_exists; intros g.
    apply ensures_pure; intros Hg. assert (hs.*1 ++ [h] = (hs ++ [(h, g)]).*1) as -> by (by rewrite fmap_app).
    eapply ensures_pre; [intros p; apply owns_app|]. eapply ensures_post; [|apply (IH (hs ++ [(h, g)]) s)].
    + intros r p [Hr|(hs' & s' & Er & [Hl Hready] & Hp)]; [by left|right]. exists hs', s'. split; [done|]. split; [|done]. split; [|done].
      rewrite Hl, length_app. cbn. lia.
    + apply Forall_app. split; [done|]. by apply Forall_singleton.
Qed.

(** A descriptor of the parcel; it may be that there is none. *)
Lemma dup_live fd F M N : ensures (owns F M N) (dup_fd fd) (fun x => owns (filter (fun fd => 0 <= fd) [x] ++ F) M N).
Proof.
  eapply ensures_post, dup_fd_owns. intros x p [[-> Hp]|[Hx Hp]]; [exact Hp|]. cbn. by rewrite decide_True by lia.
Qed.

Lemma dup_to_aidl_owns F M N h g : buffer_ok g -> ensures (owns F M ((h, g) :: N)) (dupToAidl h)
  (fun b p => genuine b /\ owns (live_fds b ++ F) M ((h, g) :: N) p).
Proof.
  intros Hok. destruct (genuine_fds g (bk_genuine _ Hok)) as (a & b & l & Ef & Eo & _). pose proof (bk_genuine _ Hok) as (Hm & Hn & Hl).
  ensure handle_at_owns. apply ensures_pure; intros ->. rewrite Eo.
  eapply (ensures_bind _ _ _ (fun fds p => exists x y, fds = [x; y] /\ owns (filter (fun fd => 0 <= fd) [x; y] ++ F) M ((h, g) :: N) p)).
  - cbn [dup_fds]. eapply ensures_bind; [apply dup_live|]. intros x. cbv beta. eapply (ensures_bind _ _ _ (fun l p => exists y, l = [y] /\ owns (filter (fun fd => 0 <= fd) [x; y] ++ F) M ((h, g) :: N) p)).
    + eapply ensures_bind; [apply dup_live|]. intros y. cbv beta. apply ensures_ret. intros p Hp. exists y. split; [done|]. revert Hp.
      apply owns_perm; [|done..]. change [x; y] with ([x] ++ [y]). rewrite filter_app, <- (assoc_L (++)). apply Permutation_app_swap_app.
    + intros ys. cbv beta. apply ensures_exists; intros y. apply ensures_pure; intros ->. apply ensures_ret. intros p Hp. by exists x, y.
  - intros fds. cbv beta. apply ensures_exists; intros x. apply ensures_exists; intros y. apply ensures_pure; intros ->. apply ensures_ret. intros p Hp.
    split; [split; [done|split; [done|cbn; lia]]|]. revert Hp. unfold live_fds, owned_fds. cbn. by rewrite Hn.
Qed.

Lemma hand_out_owns hs M N : ready hs -> forall F,
  ensures (owns (fds_of hs ++ F) (maps_of hs ++ M) (hs ++ N)) (hand_out hs.*1)
    (fun bs p => (length bs = length hs /\ Forall genuine bs) /\ owns ((bs ≫= live_fds) ++ F) M N p).
Proof.
  induction 1 as [|[h g] hs [Hh Hok] _ IH]; intros F; [by apply ensures_ret|]. cbn [fmap list_fmap hand_out fst].
  eapply ensures_bind; [by apply dup_to_aidl_owns|]. intros b. cbv beta. apply ensures_pure; intros Hb.
  eapply (ensures_bind _ _ _ (fun _ => owns (fds_of hs ++ live_fds b ++ F) (maps_of hs ++ M) (hs ++ N))).
  - eapply ensures_pre, release_owns; [|exact Hh|exact Hok]. intros p. unfold fds_of, maps_of. cbn. rewrite <- !(assoc_L (++)).
    apply owns_perm; [|done..]. rewrite Permutation_app_swap_app. f_equiv. apply Permutation_app_swap_app.
  - intros ?. cbv beta. eapply ensures_bind; [apply IH|]. intros bs. cbv beta. apply ensures_pure; intros [Hl Hbs]. apply ensures_ret. intros p Hp.
    split; [split; [cbn; lia|by constructor]|]. revert Hp. apply owns_perm; [|done..]. cbn. rewrite <- (assoc_L (++)). apply Permutation_app_swap_app.
Qed.

Lemma allocate_buffers_owns descriptor dataspace count F M N : sane_request descriptor -> 0 <= count ->
  ensures (owns F M N) (allocate_buffers board descriptor dataspace count)
    (fun r p => r.1.1 <> OK /\ r.1.2 = [] \/
       (r.1.1 = OK /\ Z.of_nat (length r.1.2) = count /\ Forall genuine r.1.2) /\ owns ((r.1.2 ≫= live_fds) ++ F) M N p).
Proof.
  intros Hreq Hc. unfold allocate_buffers. rewrite (proj2 (Z.ltb_ge count 0)) by done.
  eapply ensures_bind; [apply (allocate_all_owns descriptor dataspace F M N Hreq (Z.to_nat count) [] 0); constructor|]. intros r. cbv beta. apply ensures_or.
  - apply ensures_pure; intros Hr. destruct r as [[] [hs s]]; [done|..]; apply ensures_ret; by left.
  - apply ensures_exists; intros hs. apply ensures_exists; intros s. apply ensures_pure; intros ->. apply ensures_pure; intros [Hl Hhs].
    eapply ensures_bind; [by apply hand_out_owns|]. intros bs. cbv beta. apply ensures_pure; intros [Hb Hg]. apply ensures_ret. intros p Hp. right.
    split; [|exact Hp]. split; [done|]. split; [cbn in *; lia|done].
Qed.
End Allocate.

(** C22: On a board whose memory is not mapped by the GPU's library, a request of the allocator service for a number of buffers whose
    region has a size (the reserved bytes and the metadata do not wrap) is answered.  If it fails nothing is handed out.  If it
    succeeds, that many buffers are, each with a descriptor of its memory and one of its region, either of them -1 where its
    duplication failed, in a handle that a mapper takes; and the service's process has those descriptors open beside the ones it
    had, and the mappings and the handles it had. *)
Theorem allocator_keeps_nothing `{GU : !GrallocUsage, GO : !GrallocOs, GL : !GrallocOsLaws} board descriptor dataspace count p :
  gpu_present = false -> 0 < sizeof_gralloc_metadata -> sane_request descriptor -> 0 <= count ->
  0 < pr_next p -> (forall h g, pr_handles p !! h = Some g -> 0 < h < pr_next p) ->
  exists status buffers stride p', allocate_buffers board descriptor dataspace count p = Some ((status, buffers, stride), p') /\
  (status <> OK -> buffers = []) /\
  (status = OK -> Z.of_nat (length buffers) = count /\ Forall (fun b => op_ok (OpImport b)) buffers /\
    (map_to_list (pr_fds p')).*1 ≡ₚ (buffers ≫= live_fds) ++ (map_to_list (pr_fds p)).*1 /\
    (map_to_list (pr_maps p')).*1 ≡ₚ (map_to_list (pr_maps p)).*1 /\ pr_handles p' = pr_handles p).
Proof.
  intros Hgpu Hsize Hreq Hc Hn Hh. assert (owns (bufPool p) (map_to_list (pr_fds p)).*1 (map_to_list (pr_maps p)).*1 (map_to_list (pr_handles p)) p) as Hp.
  { split; try done. split; [done|]. intros h g Hg%elem_of_map_to_list. by eapply Hh. }
  destruct (runs_some _ _ _ (allocate_buffers_owns board (bufPool p) Hgpu Hsize descriptor dataspace count _ _ _ Hreq Hc p Hp))
    as ([[status buffers] stride] & p' & E & Hres). exists status, buffers, stride, p'. split; [done|]. cbn in Hres.
  destruct Hres as [[Hs ->]|[(-> & Hl & Hg) [H1 H2 H3 _ _]]]; [done|]. split; [done|]. intros _. split_and!; try done. by apply map_to_list_inj.
Qed.

#[local] Existing Instances demo_usage demo_kernel demo_kernel_laws.

(** ** Examples *)

(** A process of the allocator, with its standard descriptors. *)
Definition demo_allocator : Process := mkProcess {[1 := 1; 2 := 2]} ∅ ∅ ∅ ∅ 100 1 [].
Definition demo_request (reserved : Z) : BufferDescriptorInfo := mkDescInfo "demo" 16 16 1 RGBA_8888 0x33 reserved.

Lemma allocator_keeps_nothing_witness : exists buffers stride p',
  allocate_buffers demo_board (demo_request 0) 0 2 demo_allocator = Some ((OK, buffers, stride), p') /\ length buffers = 2%nat /\
  (map_to_list (pr_fds p')).*1 ≡ₚ (buffers ≫= live_fds) ++ [1; 2].
Proof.
  destruct (allocator_keeps_nothing demo_board (demo_request 0) 0 2 demo_allocator) as (st & buffers & stride & p' & E & _ & Hok);
    [reflexivity|reflexivity|split; [discriminate|reflexivity]|discriminate|reflexivity|intros h g Hg; exfalso; change (pr_handles demo_allocator) with (∅ : gmap Z gralloc_handle) in Hg; rewrite lookup_empty in Hg; discriminate Hg|].
  assert (st = OK) as -> by (vm_compute in E; injection E; intros; subst; reflexivity).
  destruct Hok as (Hl & _ & Hf & _); [reflexivity|]. exists buffers, stride, p'. split; [exact E|]. split; [lia|].
  rewrite Hf. f_equiv. apply Permutation_swap.
Defined.

(** What is left open, mapped and allocated after a request. *)
Definition left_over (p : Process) : list Z * list Z * list Z := ((map_to_list (pr_fds p)).*1, (map_to_list (pr_maps p)).*1, (map_to_list (pr_handles p)).*1).
Definition allocating (O : GrallocOs) (descriptor : BufferDescriptorInfo) (count : Z) : option (AllocationStatus * nat * (list Z * list Z * list Z)) :=
  (fun r => (r.1.1.1, length r.1.1.2, left_over r.2)) <$> @allocate_buffers demo_usage O demo_board descriptor 0 count demo_allocator.

(** Two buffers leave, of four descriptors: the duplicates in the parcels. *)
Example two_buffers : allocating demo_kernel (demo_request 0) 2 = Some (OK, 2%nat, ([7; 9; 10; 8; 2; 1], [], [])).
Proof. vm_compute. reflexivity. Qed.

(** Without memory for the region the rest of the buffer is lost: its descriptor stays open and its handle stays. *)
Example region_refused : allocating (demo_os (fun c => match c with CAlloc _ size => size =? 2048 | _ => false end)) (demo_request 0) 1 =
  Some (NO_RESOURCES, 0%nat, ([3; 2; 1], [], [101])).
Proof. vm_compute. reflexivity. Qed.

(** When the region cannot be mapped, so is its descriptor. *)
Example region_not_mapped : allocating (demo_os (fun c => match c with CMap _ _ => true | _ => false end)) (demo_request 0) 1 =
  Some (NO_RESOURCES, 0%nat, ([3; 4; 2; 1], [], [101])).
Proof. vm_compute. reflexivity. Qed.

(** A size that wraps around is a region of nothing: the cell of the buffer's descriptor is overwritten, and it is never closed. *)
Example reserved_wraps : allocating demo_kernel (demo_request (2 ^ 64 - 2048)) 1 = Some (NO_RESOURCES, 0%nat, ([3; 2; 1], [], [])).
Proof. vm_compute. reflexivity. Qed.
